(* ===== verification/_CoqProject ===== *)
-Q . S2P
Prelude.v
OsalQueue.v
HandleDb.v
IspMath.v
Sha2.v
Rpmb.v
PqFirm.v
De201.v
PqLoad.v
PqConn.v
ThreadPool.v
SockProto.v
RawFlow.v
VoHCI.v
TeeParam.v
SuppShm.v
Posix.v
TeeFs.v
TeeFsThm.v
TeeFsNames.v
TeeSocket.v
TeeSocketThm.v
TaLoad.v
Gprof.v
SuppLoop.v
SuppThm.v
Teec.v
TeecThm.v
CString.v
IspServer.v
IspApi.v
IspThm.v
IspEvents.v
IspMedia.v
HwInfo.v
HwInfoThm.v
HwConf.v
HwDetect.v
HwExpand.v
HwDetectThm.v
HwRace.v
AudioPlat.v
AudioRoute.v
AudioThm.v
AudioOut.v
AudioIn.v
AudioDev.v
AudioSafe.v
AudioReq.v
AudioRun.v
AudioRead.v
AudioMain.v
AudioLocks.v
AudioSpec.v
IspCtrl.v
IspLib.v
