(* ===== verification/Prelude.v ===== *)
(** * Verification of the native C components of android_hardware_aw

    The repository holds the hardware abstraction layers of Allwinner Android
    boards.  Most of it is C++ glue to Android services, register tables and
    prebuilt libraries; its own logic in C is in a few self-contained daemons and
    libraries.  This development models them one file each:

    - [Prelude] (this file): machine integers ([u8] ... [s64], wrapping), a state
      monad [M] with undefined behaviour as [None], C arrays as lists with
      checked accesses ([aget], [aset]), [memcpy] as [write_at], bit fields.
    - [OsalQueue], camera/1_0/OSAL_Queue.c and OSAL_Mutex.c: the buffer queue
      between the capture and the preview threads.  State: a heap of ring nodes,
      the mutexes, the answers of malloc.  [queue_lifecycle] refines it to a
      bounded FIFO of capacity max - 1 and shows that everything is freed;
      [create_error_frees_nodes] is the failing constructor.
    - [HandleDb], optee_client/tee-supplicant/src/handle.c: the handle table.
      [handle_ops_refine_map] refines it to a finite map with least free handle;
      [foreach_put_visits_and_clears] is the destructor's walk.
    - [IspMath], libisp_new/isp_math/isp_math_util.c: the integer routines, with
      sorting, convolution, integer square root, interpolation and index
      searches proved against their specifications.
    - [Sha2], tee-supplicant/src/sha2.c and hmac_sha2.c: the streaming hash and
      MAC.  [sha256_stream_fips] and [hmac_stream_rfc2104] prove any chunking
      equal to an independent definition of FIPS 180-4 and RFC 2104.
    - [Rpmb], tee-supplicant/src/rpmb.c, on top of [Sha2]: the replay protected
      memory block service.  The device is the class [RpmbDev] with the emulator
      and the kernel driver as instances.  [emu_requests_refine_spec] proves that
      any sequence of raw requests, of whatever bytes, moves the emulator along an
      abstract device with a key, a counter and blocks: the key is written once,
      and blocks and counter change only with a write whose MAC and counter are
      right.  The other theorems give the outcome of each request and the round
      trip of data.
    - [PqFirm] and [De201], display/pq/trans_info.c, dexxx/de201_tans.c and
      de_generic.c: the picture quality daemon.  [PqFirm] is the text format of
      the tuning file; [De201] the request loop and the translation between
      tuning records and display engine registers, over the driver class
      [DispDev] (laws in [DispRegs], discharged by a register file).
      [requests_answered_in_order] is the loop, for packages that hold the payload
      of their type and have room for the reply; [short_request_overflows] is the
      reply that leaves its block; [peak_write_read],
      [lti_write_read] and [gamma_roundtrip] are the register round trips; the
      remaining theorems fix exactly where saving and loading go wrong.
    - [PqLoad], trans_info.c: loading the tuning file at start-up, as windows of
      mapped bytes that are scanned for records.  [download_terminates] holds for
      every file, [firmware_loaded] gives every record to [De201]'s loader, in order
      and unless the mapping is refused, for texts of two pages at most;
      [long_text_refused] and
      [created_file_unreadable] are what goes wrong otherwise.
    - [PqConn], pq_main.c: the connection thread, from the bytes of a client to
      the queue of [De201].  [whole_packages_queued] is what becomes of packages
      that arrive whole, for any answers of malloc, [eleven_bytes_ignored],
      [split_package_overflows] and [package_before_fragment_lost] what is lost.
    - [ThreadPool] and [SockProto], awTunningApp/tuning_app/thread_pool.c and
      socket_protocol.c: the base of the ISP tuning server.  The pool is a step
      relation on critical sections, with the exit that waits for each worker and
      frees its node; [jobs_run_exactly_once] is its invariant in all
      interleavings, and that a freed node's worker has ended, [pending_job_runs]
      its progress.  The protocol works on
      a socket given by what the kernel answers; [exchange_meaning] is one
      request with its reply under any segmentation.
    - [RawFlow], server/raw_flow_opt.c: the ring of raw frames;
      [raw_flow_refines_fifo] refines any run to a bounded queue.
    - [IspServer], server/server_core.c and register_opt.c: the eleven command
      threads of the tuning server, on [SockProto]; the modules they call
      (capture, ISP library, shell, C library) are the class [IspEnv].
      [IspApi], server_api.c: letting clients in, which hands these threads to
      [ThreadPool].  [IspThm]: [thread_cleans_up] and [silent_client_dropped] are
      about every thread, [client_admitted] about the question and its answer;
      [script_overflows], [sensor_name_overflows] and [sysfs_read_overflows] are
      inputs that leave the buffers.
    - The ISP library (libisp_new) in four files.  [IspEvents], events.c: the
      monitored descriptors and the loop over [select]; [registry_tracks] ties the
      list to the sets, [turn_calls_ready] says which callbacks a turn calls.
      [IspMedia], isp_dev/media.c: the driver's graph of devices;
      [pipeline_head] says of any graph that [media_open] reads which way the search
      for the sensor ends: at a sensor, in a circle, or at a pad that is not there
      ([index_beyond_pads]).
      [IspCtrl], isp_helper.c and isp.c: settings, control events and the flash;
      [changes_flagged] is about any sequence of changes, [flash_sequence] gives
      the lamp's commands frame by frame, [attributes_read_back] the attributes.
      [IspLib], isp.c and isp_dev.c, composes them: the devices, their users,
      threads and descriptors.  [stop_ends_thread] is the end of a thread, unless a
      driver reports an event that the code does not check
      ([menu_index_unchecked]),
      [descriptors_match] the account of descriptors over any sequence of calls;
      [failed_init_counted], [failed_open_leaks] and [two_users_no_thread] are
      what it excludes.
    - [VoHCI], wireless/bluetooth/VoHCI/vohci.c: the voice service.  The control
      thread is a step machine with [sessions_safe] as the invariant over all
      answers and interleavings; [recv_loop_plays] and [send_loop_streams] are
      the sample streams, [load_config_card] the configuration.

    The supplicant of the trusted execution environment (optee_client) is the
    largest part; besides [HandleDb], [Sha2] and [Rpmb] it takes these files:

    - [TeeParam]: the parameters of the kernel interface, result codes, and the
      two conversions of an application's identifier ([uuid_roundtrip]).
    - [SuppShm], tee_supplicant.c: the list of shared memory objects, their
      allocation and release, and the decoding of parameters.  A pointer is a base
      address and an offset into a map of mappings.  [shm_requests_refine_map]
      refines allocation, release and lookup to a finite map from identifiers;
      [param_to_va_in_bounds] is the safety
      of every pointer a service gets; [get_param_wrong_size] is its exception.
    - [Posix]: the file calls of the kernel that the services use (nodes, inodes,
      descriptors, directory streams), with injected failures, interruptions and
      short transfers; it models no code of the repository.
    - [TeeFs], tee_supp_fs.c, with [TeeFsThm] (safety, reply, reading and
      writing) and [TeeFsNames] (creating, removing, renaming): the file service.
      Its state is the shared memory, the root path, the kernel, and the table of
      directory handles of [HandleDb]; [inv] ties them together.
    - [TeeSocket], tee_socket.c, and [TeeSocketThm]: the socket service over the
      answers of the network; [sockets_tracked] says that open sockets and handles
      are the same things, the others treat time-outs and sending.
    - [TaLoad], teec_ta_load.c and load_ta: finding and reading an application;
      [Gprof], gprof.c: profiling files.
    - [SuppLoop], tee_supplicant.c, and [SuppThm]: receiving, dispatching and
      answering requests, on the one state [sup] that all services share.
      [request_keeps_invariant] composes the services; [step] is the machine of
      the threads, [request_refines_steps] ties the loop to it, and
      [a_thread_always_waits] says in all its interleavings that the counter is
      exactly the number of free threads and that one waits again after the steps
      that are under way, unless a thread could not be made.
    - [Teec], libteec/src/tee_client_api.c, and [TeecThm]: the client side.  The
      secure world with the driver is the parameter [tee]; [tee_ok] says that it
      keeps the mappings.  [calls_release_temporary_memory] is safety and the
      absence of leaks for any operation that names existing memory,
      [invoke_inout_roundtrip] the way of the data.

    The wireless chip library (wireless/hwinfo/libhwinfo.c) is in these files:

    - [CString]: C strings as lists of bytes, and the functions of the C library
      the parsers use (strtoul, strtok, fgets, printing of numbers).
    - [HwInfo]: the table of chips, the parser of hwinfo.conf, and the merged list
      of entries as nodes of a heap.  [HwInfoThm] follows the list surgery with
      the representation predicate [rep]: [load_merged_config_spec] gives the
      list and the whole heap, [lookup_after_load] the search; [HwConf] is the
      text format, [config_file_roundtrip] and [quoted_value_keeps_quote].
    - [HwDetect]: detection by the property of an earlier run, by the devices on
      the buses, or by the kernel's messages.  The property service is the class
      [PropStore] with the laws [PropLaws]; the kernel's answers are a record
      [world].  [HwDetectThm] has [device_ids], the order of detection
      ([detect_spec]) and [restart_finds_same], the way through the property.
    - [HwExpand]: the arguments of the driver module; [str_replace_exact] is the
      string replacement, [driver_args_spec] the whole.
    - [HwRace]: the two threads of the detection as a step relation;
      [listening_result] holds in all interleavings, with the failures of the socket
      and of the power switch; [chip_can_be_missed] and [no_power_leaves_thread]
      are the ones that go wrong.

    The audio HAL (audio/hal) is modelled in these files, below the streams:

    - [AudioPlat], platform.c and usecase.c: the description of a board, as the
      effect of each element of audio_platform_info.xml.  The constants of
      Android's headers are section variables.
    - [AudioRoute], platform.c and audio_plugins: the platform device for Android's
      devices, its profile, its back-end streams, the microphones, and the events
      of plug-ins.
    - [AudioThm]: [description_well_formed] is the invariant of the description
      under any document, [document_profiles] what a document of profiles gives;
      [device_in_range] and [find_profile_spec] are the choice of device and
      profile, [backends_released] the opening and closing of back ends with any
      failures, [active_microphones] the list that goes to Android.

    and for the streams and the device (audio_hw.c, audio_data_dump.c), which use the
    platform:

    - [AudioOut]: the state [hal] (the device, the streams by address, blocks,
      the sound library's streams, the locks that are held and the trace of
      locks), the choice of devices, the equalizer's configuration, and the
      operations of output streams; [AudioIn]: those of input streams, with
      effects and the echo reference; [AudioDev]: opening and closing, the
      device's own operations, patches, and [handle_request], which is one call
      of Android.  Answers of the sound library, of effects, properties and
      Android's headers are the classes [PcmLib], [Effects], [AudioEnv] and
      [AndroidAudio].
    - [AudioSafe]: the invariant [inv], which says who closes each stream of the
      sound library and who frees each block, and that choosing devices keeps
      it; [AudioReq]: the steps under [wp], closing, standby and the equalizer;
      [AudioRun] and [AudioRead]: every operation of output and input streams;
      [AudioMain]: the rest, and [requests_safe], the composition, for the
      requests that [request_ok] allows and a library whose devices open;
      [failed_start_used] is what happens when one does not.
    - [AudioLocks]: threads as the traces of their calls.  [stream_calls_finish]
      is the absence of deadlock among calls that take the device's lock last,
      [routing_deadlock] the one that breaks the order.
    - [AudioSpec]: what is played ([write_plays]), the reply for the supported
      rates ([rates_roundtrip]), the buffer size ([input_buffer_size]) and
      requests that [request_ok] must exclude ([unsafe_requests]).

    ** Conventions

    Definitions carry the names of the C functions.  A result [None] is undefined
    behaviour, an access outside an allocated block, a failed assert, or a call
    that never returns; a theorem that gives [Some] therefore also shows safety
    and termination.  What belongs to the kernel or to a library outside the
    repository is data (lists of answers) or a class or section variable, with
    its documented behaviour as laws.  [wp] and [wlp] are the total and the partial
    weakest precondition of the state monad, [returns] a bound on the values a
    program returns whatever the state.

    Build settings are variables where code depends on them: NDEBUG (asserts),
    PATH_MAX and the search paths of applications.  The supplicant and the client
    library are modelled with 64-bit [size_t] and pointers.

    Fuel: [IspMath] bounds the inner loop of ShellSort by the start index and the
    outer one by the length, the Newton iteration of SqrtM by 100 turns;
    [SockProto] bounds the transfer loops by the byte count, since every turn
    moves at least one byte; [ThreadPool.add_run] by the number of nodes plus
    one; [De201] bounds the saving loop by the size of its buffer.  [PqLoad]
    bounds the scan of a window by three times its size and the windows by the
    length of the file plus 21, which [download_terminates] shows to be enough;
    [PqConn.many_head] by the bytes received, each package taking ten at least.
    [IspEvents] bounds a turn by the number of entries plus one, [IspMedia] the
    way to the sensor by the number of entities plus one: a longer way is a
    circle, in which the code stays for ever.
    The loops of [IspServer] count requests, like the supplicant's.  The retry
    loops of [TeeFs], [TeeSocket] and [Gprof] are bounded by the interruptions the
    kernel has left to give, plus the bytes to move; reading a directory by its
    entries.  The theorems show that the fuel is enough by giving the result.
    [SuppLoop.thread_loop] counts requests: the loop itself runs as long as the
    service does.  [AudioIn.process_frames] bounds its loop by the frames, so
    effects that give none make it [None].

    Names of properties are tagged C1 ... C40 in the comments before them; lemmas
    that follow with the suffix [_witness] apply them to a concrete input.
    Theorems without a tag are further results of the same kind.

    ** Not modelled

    The C++ services, prebuilt libraries and vendored code (tinyalsa, iniparser,
    crda); floating point (splines and matrices of the ISP library; the colour
    matrix conversion of [De201] is a parameter); code that only passes values to
    sysfs, ioctls or Android (power, lights, memtrack, the sockets that main of the
    PQ daemon sets up); rewriting the tuning file (xchang_data), which is not
    reached without undefined behaviour before ([save_never_writes]); option
    parsing of tee-supplicant; log output and timing.  Of the tuning server, the
    capture, ISP and shell modules are an interface: they drive the video driver,
    the closed ISP library and a shell.  Of the ISP library: the algorithms and
    the tuning (register tables around closed libraries), the video buffers, the
    synchronous mode of two devices, and saving contexts to files.

    Of the audio HAL: reading and writing mixer controls, the functions that dump
    state or return a constant, builds with the resampler and the HDMI codec, and
    the other boards' variants.  Requests with input effects are modelled but not
    part of [requests_safe]: with them the code moves overlapping memory and
    releases an echo reference that is in use. *)

From stdpp Require Import base tactics option list list_numbers numbers gmap.
From Stdlib Require Import ZArith Lia Znumtheory.

Local Open Scope Z_scope.

(** ** Machine integers

    A w-bit C integer is a [Z]; conversions wrap as the compiler does. *)

Definition u8 (x : Z) : Z := x mod 2 ^ 8.
Definition u16 (x : Z) : Z := x mod 2 ^ 16.
Definition u32 (x : Z) : Z := x mod 2 ^ 32.
Definition u64 (x : Z) : Z := x mod 2 ^ 64.
Definition s16 (x : Z) : Z := (x + 2 ^ 15) mod 2 ^ 16 - 2 ^ 15.
Definition s32 (x : Z) : Z := (x + 2 ^ 31) mod 2 ^ 32 - 2 ^ 31.
Definition s64 (x : Z) : Z := (x + 2 ^ 63) mod 2 ^ 64 - 2 ^ 63.

Definition INT_MAX : Z := 2 ^ 31 - 1.
Definition INT_MIN : Z := - 2 ^ 31.

(** [in_int x]: [x] is representable as a C [int]. *)
Definition in_int (x : Z) : Prop := INT_MIN <= x <= INT_MAX.

Lemma u8_range x : 0 <= u8 x < 256.
Proof. unfold u8. apply Z.mod_pos_bound. lia. Qed.
Lemma u16_range x : 0 <= u16 x < 65536.
Proof. unfold u16. apply Z.mod_pos_bound. lia. Qed.
Lemma u32_range x : 0 <= u32 x < 4294967296.
Proof. unfold u32. apply Z.mod_pos_bound. lia. Qed.

Lemma u8_small x : 0 <= x < 256 -> u8 x = x.
Proof. intros. unfold u8. apply Z.mod_small. lia. Qed.
Lemma u16_small x : 0 <= x < 65536 -> u16 x = x.
Proof. intros. unfold u16. apply Z.mod_small. lia. Qed.
Lemma u32_small x : 0 <= x < 4294967296 -> u32 x = x.
Proof. intros. unfold u32. apply Z.mod_small. lia. Qed.
Lemma s32_small x : in_int x -> s32 x = x.
Proof.
  unfold in_int, s32, INT_MIN, INT_MAX. intros.
  rewrite Z.mod_small; lia.
Qed.
Lemma s32_range x : in_int (s32 x).
Proof.
  unfold in_int, s32, INT_MIN, INT_MAX.
  pose proof (Z.mod_pos_bound (x + 2 ^ 31) (2 ^ 32)). lia.
Qed.

(** Linear arithmetic with division and remainder by constants. *)
Ltac lia_mod := Z.to_euclidean_division_equations; lia.

Create HintDb c_ints.
Create Rewrite HintDb c_ints.
#[export] Hint Resolve u8_range u16_range u32_range s32_range : c_ints.
#[export] Hint Rewrite u8_small u16_small u32_small s32_small using lia : c_ints.

(** ** A state monad with undefined behaviour

    [M S A] is a C computation over the memory [S]: [None] is undefined
    behaviour or a thread blocked for ever, [Some (a, s)] a normal return. *)

Definition M (S A : Type) : Type := S -> option (A * S).

Definition ret {S A} (a : A) : M S A := fun s => Some (a, s).
Definition bind {S A B} (m : M S A) (k : A -> M S B) : M S B :=
  fun s => match m s with Some (a, s') => k a s' | None => None end.
Definition stuck {S A} : M S A := fun _ => None.
Definition get {S} : M S S := fun s => Some (s, s).
Definition put {S} (s : S) : M S unit := fun _ => Some (tt, s).
Definition modify {S} (f : S -> S) : M S unit := fun s => Some (tt, f s).

Arguments bind : simpl never.

Declare Scope c_scope.
Delimit Scope c_scope with C.
Notation "x <- m ;; k" := (bind m (fun x => k))
  (at level 100, m at next level, right associativity) : c_scope.
Notation "m ;;; k" := (bind m (fun _ => k))
  (at level 100, right associativity) : c_scope.

Lemma bind_ret_l {S A B} (a : A) (k : A -> M S B) s : bind (ret a) k s = k a s.
Proof. reflexivity. Qed.
Lemma bind_assoc {S A B C} (m : M S A) (f : A -> M S B) (g : B -> M S C) s :
  bind (bind m f) g s = bind m (fun a => bind (f a) g) s.
Proof. unfold bind. destruct (m s) as [[??]|]; reflexivity. Qed.

(** Runs one step of a monadic computation whose result is known. *)
Lemma bind_some {S A B} (m : M S A) (k : A -> M S B) s a s' :
  m s = Some (a, s') -> bind m k s = k a s'.
Proof. intros H. unfold bind. by rewrite H. Qed.

(** ** Lists as C arrays *)

Lemma lookup_rotate_one {A} (x : A) (l : list A) i :
  (i < S (length l))%nat ->
  (l ++ [x]) !! i = (x :: l) !! ((i + 1) mod S (length l))%nat.
Proof.
  intros Hi. destruct (decide (i = length l)) as [->|Hne].
  - rewrite Nat.add_1_r, Nat.Div0.mod_same. cbn.
    rewrite lookup_app_r by lia. by rewrite Nat.sub_diag.
  - rewrite Nat.mod_small by lia. rewrite Nat.add_1_r. cbn.
    apply lookup_app_l. lia.
Qed.

(** Array accesses: [None] is an access outside the array. *)
Definition aget {A} (l : list A) (i : Z) : option A :=
  if 0 <=? i then l !! Z.to_nat i else None.
Definition aset {A} (l : list A) (i : Z) (v : A) : option (list A) :=
  if (0 <=? i) && (i <? Z.of_nat (length l)) then Some (<[Z.to_nat i := v]> l) else None.

Lemma aget_nat {A} (l : list A) (n : nat) : aget l (Z.of_nat n) = l !! n.
Proof. unfold aget. rewrite (proj2 (Z.leb_le _ _)) by lia. by rewrite Nat2Z.id. Qed.

Lemma aset_nat {A} (l : list A) (n : nat) v :
  (n < length l)%nat -> aset l (Z.of_nat n) v = Some (<[n := v]> l).
Proof.
  intros H. unfold aset. rewrite (proj2 (Z.leb_le _ _)), (proj2 (Z.ltb_lt _ _)) by lia.
  by rewrite Nat2Z.id.
Qed.

Lemma aget_Forall {A} (P : A -> Prop) l i x : Forall P l -> aget l i = Some x -> P x.
Proof.
  unfold aget. destruct (0 <=? i); [|done]. intros H Hx. by eapply Forall_lookup_1.
Qed.

(** Moving a value over a hole is a swap. *)
Lemma insert_swap_perm {A} (l : list A) (i j : nat) x y :
  i <> j -> (j < length l)%nat -> l !! i = Some y ->
  <[i := x]> (<[j := y]> l) ≡ₚ <[j := x]> l.
Proof.
  intros Hij Hj Hi. pose proof (lookup_lt_Some _ _ _ Hi) as Hil.
  apply Permutation_inj. split; [by rewrite !length_insert|].
  exists (fun k => if decide (k = i) then j else if decide (k = j) then i else k).
  split.
  - intros a b. repeat case_decide; congruence.
  - intros k. destruct (decide (k = i)) as [->|Hki]; [|destruct (decide (k = j)) as [->|Hkj]].
    + rewrite !list_lookup_insert_eq by (rewrite ?length_insert; done). done.
    + rewrite list_lookup_insert_ne, list_lookup_insert_eq, list_lookup_insert_ne by done. done.
    + rewrite !list_lookup_insert_ne by done. done.
Qed.

(** Sums of integer lists. *)
Definition zsum (l : list Z) : Z := foldr Z.add 0 l.

Lemma zsum_app l1 l2 : zsum (l1 ++ l2) = zsum l1 + zsum l2.
Proof. unfold zsum. induction l1; cbn; [done|]. rewrite IHl1. lia. Qed.

Lemma s32_mod x y : x mod 2 ^ 32 = y mod 2 ^ 32 -> s32 x = s32 y.
Proof.
  intros H. unfold s32. f_equal. rewrite Z.add_mod, H, <- Z.add_mod by lia. done.
Qed.

Lemma s32_mod_eq x : s32 x mod 2 ^ 32 = x mod 2 ^ 32.
Proof.
  unfold s32. rewrite Zminus_mod_idemp_l. f_equal. lia.
Qed.

Lemma s32_add_l x y : s32 (s32 x + y) = s32 (x + y).
Proof. apply s32_mod. rewrite Z.add_mod, s32_mod_eq, <- Z.add_mod by lia. done. Qed.

(** [memcpy(l + off, src, length src)] on an array [l] that is long enough. *)
Definition write_at {A} (l : list A) (off : nat) (src : list A) : list A :=
  take off l ++ src ++ drop (off + length src) l.

Lemma length_write_at {A} (l : list A) off src :
  (off + length src <= length l)%nat -> length (write_at l off src) = length l.
Proof.
  intros H. unfold write_at. rewrite !length_app, length_take, length_drop. lia.
Qed.

Lemma take_write_at {A} (l : list A) off src n :
  (off <= length l)%nat -> n = (off + length src)%nat ->
  take n (write_at l off src) = take off l ++ src.
Proof.
  intros H ->. unfold write_at. rewrite app_assoc. apply take_app_length'.
  rewrite length_app, length_take. lia.
Qed.

(** Writing one cell is an insertion. *)
Lemma insert_middle {A} (p q : list A) x y :
  <[length p := x]> (p ++ y :: q) = p ++ x :: q.
Proof. rewrite insert_app_r_alt by lia. by rewrite Nat.sub_diag. Qed.

(** A 32-bit word as four big-endian bytes. *)
Definition be32 (x : Z) : list Z :=
  [u8 (Z.shiftr x 24); u8 (Z.shiftr x 16); u8 (Z.shiftr x 8); u8 x].

(** ** Bit fields *)

Lemma land_shiftl_small a b n : 0 <= n -> 0 <= b < 2 ^ n -> Z.land (Z.shiftl a n) b = 0.
Proof.
  intros Hn Hb. apply Z.bits_inj'. intros i Hi. rewrite Z.land_spec, Z.bits_0.
  destruct (Z.lt_ge_cases i n).
  - by rewrite Z.shiftl_spec_low by lia.
  - rewrite <- (Z.mod_small b (2 ^ n)), Z.mod_pow2_bits_high by lia. apply andb_false_r.
Qed.

(** Packing a field above a small one is an addition. *)
Lemma lor_shiftl_add a b n :
  0 <= n -> 0 <= b < 2 ^ n -> Z.lor (Z.shiftl a n) b = a * 2 ^ n + b.
Proof.
  intros Hn Hb. pose proof (Z.add_lor_land (Z.shiftl a n) b) as H.
  rewrite land_shiftl_small, Z.add_0_r in H by done.
  rewrite <- Z.shiftl_mul_pow2 by done. lia.
Qed.

(** Adjacent writes are one write. *)
Lemma write_at_write_at {A} (l : list A) off a b off' :
  (off + length a <= length l)%nat -> off' = (off + length a)%nat ->
  write_at (write_at l off a) off' b = write_at l off (a ++ b).
Proof.
  intros H ->. unfold write_at at 1. rewrite take_write_at by lia.
  unfold write_at. rewrite length_app, <- !app_assoc. do 2 f_equal. f_equal.
  rewrite drop_app_ge by (rewrite length_take; lia). rewrite length_take.
  rewrite drop_app_ge by lia. rewrite drop_drop. f_equal. lia.
Qed.

(** Reading back what was written. *)
Lemma read_write_at {A} (l : list A) off a :
  (off + length a <= length l)%nat -> take (length a) (drop off (write_at l off a)) = a.
Proof.
  intros H. unfold write_at.
  rewrite drop_app_length' by (rewrite length_take; lia). apply take_app_length.
Qed.

(** ** Weakest preconditions

    [wp m Q s]: run from [s], [m] does not get stuck and ends with [Q]. *)
Definition wp {S A} (m : M S A) (Q : A -> S -> Prop) (s : S) : Prop :=
  match m s with Some (a, s') => Q a s' | None => False end.

Lemma wp_ret {S A} (a : A) (Q : A -> S -> Prop) s : Q a s -> wp (ret a) Q s.
Proof. done. Qed.
Lemma wp_get {S} (Q : S -> S -> Prop) s : Q s s -> wp get Q s.
Proof. done. Qed.
Lemma wp_bind {S A B} (m : M S A) (k : A -> M S B) (Q : B -> S -> Prop) s :
  wp m (fun a => wp (k a) Q) s -> wp (bind m k) Q s.
Proof. unfold wp, bind. by destruct (m s) as [[??]|]. Qed.
Lemma wp_mono {S A} (m : M S A) (P Q : A -> S -> Prop) s :
  wp m P s -> (forall a s', P a s' -> Q a s') -> wp m Q s.
Proof. unfold wp. destruct (m s) as [[??]|]; [|done]. eauto. Qed.
Lemma wp_run {S A} (m : M S A) (Q : A -> S -> Prop) s :
  wp m Q s -> exists a s', m s = Some (a, s') /\ Q a s'.
Proof. unfold wp. destruct (m s) as [[a s']|]; [|done]. eauto. Qed.

(** The partial version: every run of [m] from [s] that ends, ends with [Q]. *)
Definition wlp {S A} (m : M S A) (Q : A -> S -> Prop) (s : S) : Prop :=
  forall a s', m s = Some (a, s') -> Q a s'.

Lemma wlp_ret {S A} (a : A) (Q : A -> S -> Prop) s : Q a s -> wlp (ret a) Q s.
Proof. by intros H ? ? [= <- <-]. Qed.
Lemma wlp_get {S} (Q : S -> S -> Prop) s : Q s s -> wlp get Q s.
Proof. by intros H ? ? [= <- <-]. Qed.
Lemma wlp_bind {S A B} (m : M S A) (k : A -> M S B) (Q : B -> S -> Prop) s :
  wlp m (fun a => wlp (k a) Q) s -> wlp (bind m k) Q s.
Proof. intros H b s'. unfold bind. destruct (m s) as [[a s1]|] eqn:E; [|done]. by apply H. Qed.
Lemma wlp_mono {S A} (m : M S A) (P Q : A -> S -> Prop) s :
  wlp m P s -> (forall a s', P a s' -> Q a s') -> wlp m Q s.
Proof. intros H HPQ a s' E. by apply HPQ, H. Qed.

(** Whatever state it starts in, [m] only returns values with [P]. *)
Definition returns {S A} (P : A -> Prop) (m : M S A) : Prop := forall s a s', m s = Some (a, s') -> P a.

Lemma returns_ret {S A} (P : A -> Prop) (a : A) : P a -> @returns S A P (ret a).
Proof. by intros H s ? ? [= <- <-]. Qed.
Lemma returns_stuck {S A} (P : A -> Prop) : @returns S A P stuck.
Proof. done. Qed.
Lemma returns_bind {S A B} (P : B -> Prop) (m : M S A) k : (forall a, returns P (k a)) -> returns P (bind m k).
Proof. intros H s b s'. unfold bind. destruct (m s) as [[a s1]|]; [|done]. apply H. Qed.

(** One step towards [returns] of a handler; [fin] closes the returns. *)
Ltac reply_step fin :=
  lazymatch goal with
  | |- returns _ (bind _ _) => apply returns_bind; intros ?
  | |- returns _ stuck => apply returns_stuck
  | |- returns _ (if ?b then _ else _) => destruct b
  | |- returns _ (match ?x with _ => _ end) => destruct x
  | |- returns _ (ret ((if ?b then _ else _), _)) => destruct b
  | |- returns _ (ret _) => apply returns_ret; fin
  end.

(** The next branch of the program under [wlp]. *)
Ltac wlp_case :=
  lazymatch goal with
  | |- wlp (if ?b then _ else _) _ _ => destruct b eqn:?
  | |- wlp (match ?x with _ => _ end) _ _ => destruct x eqn:?
  end.
