(* ===== verification/OsalQueue.v ===== *)
(** * The camera buffer queue (camera/1_0/OSAL_Queue.c, OSAL_Mutex.c)

    The queue is a ring of heap nodes allocated once by [OSAL_QueueCreate];
    [first] and [last] chase each other round it.  The model keeps the node
    heap, the mutex objects and the answers of [malloc] explicit, so that
    allocation failure, [free] and pointer aliasing are what they are in C. *)

From stdpp Require Import base tactics option list numbers gmap fin_maps.
From Stdlib Require Import ZArith Lia.
From S2P Require Import Prelude.

Local Open Scope Z_scope.
Local Open Scope c_scope.

Module OSAL.

(** ** Data *)

Inductive OMX_ERRORTYPE :=
  | OMX_ErrorNone
  | OMX_ErrorInsufficientResources
  | OMX_ErrorUndefined
  | OMX_ErrorBadParameter.

(** Pointers are addresses, [NULL] is 0. *)
Abbreviation ptr := Z (only parsing).
Definition NULL : ptr := 0.

Record OSAL_QElem := mkQElem { data : ptr; qNext : ptr }.

Record OSAL_QUEUE := mkQueue {
  first : ptr;
  last : ptr;
  numElem : Z;
  qMutex : ptr;
  maxElem : Z
}.

(** The memory the component works on.  [handle] is the [OSAL_QUEUE] the
    caller passes ([None]: a NULL handle), [brk] the next address [malloc]
    hands out, [answers] the outcomes of the coming calls of [malloc] and
    [pthread_mutex_init] (all succeed when it is exhausted). *)
Record mem := mkMem {
  handle : option OSAL_QUEUE;
  elems : gmap Z OSAL_QElem;
  mutexes : gmap Z bool;
  brk : Z;
  answers : list bool
}.

Definition set_handle (q : OSAL_QUEUE) (m : mem) : mem :=
  mkMem (Some q) (elems m) (mutexes m) (brk m) (answers m).
Definition set_elems (e : gmap Z OSAL_QElem) (m : mem) : mem :=
  mkMem (handle m) e (mutexes m) (brk m) (answers m).
Definition set_mutexes (x : gmap Z bool) (m : mem) : mem :=
  mkMem (handle m) (elems m) x (brk m) (answers m).

(** ** The C library calls the component makes *)

(** The next answer of the environment. *)
Definition answer : M mem bool := fun m =>
  match answers m with
  | [] => Some (true, m)
  | b :: bs => Some (b, mkMem (handle m) (elems m) (mutexes m) (brk m) bs)
  end.

(** [malloc(sizeof(OSAL_QElem))] followed by [memset(.., 0, ..)]. *)
Definition malloc_elem : M mem ptr :=
  ok <- answer ;;
  if ok then fun m =>
    Some (brk m, mkMem (handle m) (<[brk m := mkQElem NULL NULL]> (elems m))
                   (mutexes m) (brk m + 1) (answers m))
  else ret NULL.

Definition free_elem (p : ptr) : M mem unit := fun m =>
  match elems m !! p with
  | Some _ => Some (tt, set_elems (delete p (elems m)) m)
  | None => None
  end.

Definition load (p : ptr) : M mem OSAL_QElem := fun m =>
  match elems m !! p with Some e => Some (e, m) | None => None end.
Definition store (p : ptr) (e : OSAL_QElem) : M mem unit := fun m =>
  match elems m !! p with
  | Some _ => Some (tt, set_elems (<[p := e]> (elems m)) m)
  | None => None
  end.

(** [pthread_mutex_lock] on a mutex the same thread of operations already
    holds blocks for ever. *)
Definition pthread_mutex_lock (p : ptr) : M mem Z := fun m =>
  match mutexes m !! p with
  | Some false => Some (0, set_mutexes (<[p := true]> (mutexes m)) m)
  | _ => None
  end.
Definition pthread_mutex_unlock (p : ptr) : M mem Z := fun m =>
  match mutexes m !! p with
  | Some true => Some (0, set_mutexes (<[p := false]> (mutexes m)) m)
  | _ => None
  end.

(** ** OSAL_Mutex.c *)

Definition OSAL_MutexCreate : M mem (OMX_ERRORTYPE * ptr) :=
  ok <- answer ;;
  if negb ok then ret (OMX_ErrorInsufficientResources, NULL)
  else
    inited <- answer ;;
    if negb inited then
      (* the malloc'ed block stays allocated *)
      fun m => Some ((OMX_ErrorUndefined, NULL),
                     mkMem (handle m) (elems m) (mutexes m) (brk m + 1) (answers m))
    else
      fun m => Some ((OMX_ErrorNone, brk m),
                     mkMem (handle m) (elems m) (<[brk m := false]> (mutexes m))
                       (brk m + 1) (answers m)).

Definition OSAL_MutexTerminate (p : ptr) : M mem OMX_ERRORTYPE :=
  if p =? NULL then ret OMX_ErrorBadParameter
  else fun m =>
    match mutexes m !! p with
    | Some false => Some (OMX_ErrorNone, set_mutexes (delete p (mutexes m)) m)
    | Some true => Some (OMX_ErrorUndefined, m)
    | None => None
    end.

Definition OSAL_MutexLock (p : ptr) : M mem OMX_ERRORTYPE :=
  if p =? NULL then ret OMX_ErrorBadParameter
  else
    r <- pthread_mutex_lock p ;;
    if negb (r =? 0) then ret OMX_ErrorUndefined else ret OMX_ErrorNone.

Definition OSAL_MutexUnlock (p : ptr) : M mem OMX_ERRORTYPE :=
  if p =? NULL then ret OMX_ErrorBadParameter
  else
    r <- pthread_mutex_unlock p ;;
    if negb (r =? 0) then ret OMX_ErrorUndefined else ret OMX_ErrorNone.

(** ** OSAL_Queue.c *)

(** The clean-up loop of a failed creation:
    [while (queue->first != NULL) { current = first->qNext; free(first); first = current; }].
    The chain is not closed yet, so one unit of fuel per live node is enough. *)
Fixpoint free_chain (fuel : nat) (q : OSAL_QUEUE) : M mem OSAL_QUEUE :=
  if first q =? NULL then ret q
  else match fuel with
  | O => stuck
  | S fuel =>
      e <- load (first q) ;;
      free_elem (first q) ;;;
      free_chain fuel (mkQueue (qNext e) (last q) (numElem q) (qMutex q) (maxElem q))
  end.

(** The allocation loop of [OSAL_QueueCreate], [n] iterations left;
    returns the error and the queue, or the last node linked so far. *)
Fixpoint create_loop (n : nat) (q : OSAL_QUEUE) (currentqelem : ptr)
  : M mem (OSAL_QUEUE + ptr) :=
  match n with
  | O => ret (inr currentqelem)
  | S n =>
      newqelem <- malloc_elem ;;
      if newqelem =? NULL then
        m <- get ;;
        q' <- free_chain (S (size (elems m))) q ;;
        ret (inl q')
      else
        e <- load currentqelem ;;
        store currentqelem (mkQElem (data e) newqelem) ;;;
        create_loop n q newqelem
  end.

Definition OSAL_QueueCreate (maxQueueElem : Z) : M mem OMX_ERRORTYPE :=
  m <- get ;;
  match handle m with
  | None => ret OMX_ErrorBadParameter
  | Some q0 =>
      rm <- OSAL_MutexCreate ;;
      match rm with
      | (OMX_ErrorNone, mx) =>
          f <- malloc_elem ;;
          let q1 := mkQueue f (last q0) (numElem q0) mx maxQueueElem in
          if f =? NULL then
            modify (set_handle q1) ;;; ret OMX_ErrorInsufficientResources
          else
            let q2 := mkQueue f f 0 mx maxQueueElem in
            r <- create_loop (Z.to_nat (maxElem q2 - 2)) q2 f ;;
            match r with
            | inl q3 => modify (set_handle q3) ;;; ret OMX_ErrorInsufficientResources
            | inr cur =>
                e <- load cur ;;
                store cur (mkQElem (data e) (first q2)) ;;;
                modify (set_handle q2) ;;;
                ret OMX_ErrorNone
            end
      | (err, _) => ret err
      end
  end.

(** The loop of [OSAL_QueueTerminate], [n] iterations left. *)
Fixpoint terminate_loop (n : nat) (q : OSAL_QUEUE) : M mem OSAL_QUEUE :=
  match n with
  | O => ret q
  | S n =>
      e <- load (first q) ;;
      free_elem (first q) ;;;
      terminate_loop n (mkQueue (qNext e) (last q) (numElem q) (qMutex q) (maxElem q))
  end.

Definition OSAL_QueueTerminate : M mem OMX_ERRORTYPE :=
  m <- get ;;
  match handle m with
  | None => ret OMX_ErrorBadParameter
  | Some q =>
      q1 <- terminate_loop (Z.to_nat (maxElem q - 2)) q ;;
      q2 <- (if first q1 =? NULL then ret q1
             else free_elem (first q1) ;;;
                  ret (mkQueue NULL (last q1) (numElem q1) (qMutex q1) (maxElem q1))) ;;
      modify (set_handle q2) ;;;
      OSAL_MutexTerminate (qMutex q2)
  end.

(** [queue->last->data = d; queue->last = queue->last->qNext; queue->numElem++]. *)
Definition push_last (q : OSAL_QUEUE) (d : ptr) : M mem unit :=
  e <- load (last q) ;;
  store (last q) (mkQElem d (qNext e)) ;;;
  e' <- load (last q) ;;
  modify (set_handle
    (mkQueue (first q) (qNext e') (numElem q + 1) (qMutex q) (maxElem q))).

Definition OSAL_Queue (d : ptr) : M mem Z :=
  m <- get ;;
  match handle m with
  | None => ret (-1)
  | Some q =>
      OSAL_MutexLock (qMutex q) ;;;
      l <- load (last q) ;;
      if negb (data l =? NULL) || (maxElem q <=? numElem q) then
        OSAL_MutexUnlock (qMutex q) ;;; ret (-1)
      else
        push_last q d ;;;
        OSAL_MutexUnlock (qMutex q) ;;;
        ret 0
  end.

Definition OSAL_Dequeue : M mem ptr :=
  m <- get ;;
  match handle m with
  | None => ret NULL
  | Some q =>
      OSAL_MutexLock (qMutex q) ;;;
      f <- load (first q) ;;
      if (data f =? NULL) || (numElem q <=? 0) then
        OSAL_MutexUnlock (qMutex q) ;;; ret NULL
      else
        store (first q) (mkQElem NULL (qNext f)) ;;;
        f' <- load (first q) ;;
        modify (set_handle
          (mkQueue (qNext f') (last q) (numElem q - 1) (qMutex q) (maxElem q))) ;;;
        OSAL_MutexUnlock (qMutex q) ;;;
        ret (data f)
  end.

Definition OSAL_GetElemNum : M mem Z :=
  m <- get ;;
  match handle m with
  | None => ret (-1)
  | Some q =>
      OSAL_MutexLock (qMutex q) ;;;
      let ElemNum := numElem q in
      OSAL_MutexUnlock (qMutex q) ;;;
      ret ElemNum
  end.

Definition OSAL_SetElemNum (ElemNum : Z) : M mem Z :=
  m <- get ;;
  match handle m with
  | None => ret (-1)
  | Some q =>
      OSAL_MutexLock (qMutex q) ;;;
      modify (set_handle (mkQueue (first q) (last q) ElemNum (qMutex q) (maxElem q))) ;;;
      OSAL_MutexUnlock (qMutex q) ;;;
      ret ElemNum
  end.

(** The duplicate search of [OSAL_QueueSetElem]: [numElem] times the same
    two nodes are looked at, [first] and [last] are not advanced. *)
Fixpoint same_elem_loop (n : nat) (q : OSAL_QUEUE) (d : ptr) : M mem bool :=
  match n with
  | O => ret false
  | S n =>
      f <- load (first q) ;;
      l <- load (last q) ;;
      if (data f =? d) || (data l =? d) then ret true
      else same_elem_loop n q d
  end.

Definition OSAL_QueueSetElem (d : ptr) : M mem Z :=
  m <- get ;;
  match handle m with
  | None => ret (-1)
  | Some q =>
      OSAL_MutexLock (qMutex q) ;;;
      l <- load (last q) ;;
      if negb (data l =? NULL) || (maxElem q <=? numElem q) then
        OSAL_MutexUnlock (qMutex q) ;;; ret (-1)
      else
        dup <- same_elem_loop (Z.to_nat (numElem q)) q d ;;
        if dup : bool then
          OSAL_MutexUnlock (qMutex q) ;;; ret 0
        else
          push_last q d ;;;
          OSAL_MutexUnlock (qMutex q) ;;;
          ret 0
  end.

(** ** Linked segments

    [linked e ns ds tl]: the nodes [ns] of the heap [e] hold the data [ds]
    and each points to the next one, the last one to [tl]. *)
Fixpoint linked (e : gmap Z OSAL_QElem) (ns ds : list ptr) (tl : ptr) : Prop :=
  match ns, ds with
  | [], [] => True
  | a :: ns, d :: ds => e !! a = Some (mkQElem d (hd tl ns)) /\ linked e ns ds tl
  | _, _ => False
  end.

Lemma linked_length e ns ds tl : linked e ns ds tl -> length ns = length ds.
Proof.
  revert ds. induction ns as [|a ns IH]; intros [|d ds]; cbn; try done.
  intros [_ H]. f_equal. by apply IH.
Qed.

Lemma hd_app (tl : ptr) ns1 ns2 : hd tl (ns1 ++ ns2) = hd (hd tl ns2) ns1.
Proof. by destruct ns1. Qed.

Lemma linked_app e ns1 ns2 ds1 ds2 tl :
  linked e ns1 ds1 (hd tl ns2) -> linked e ns2 ds2 tl ->
  linked e (ns1 ++ ns2) (ds1 ++ ds2) tl.
Proof.
  revert ds1. induction ns1 as [|a ns1 IH]; intros [|d ds1]; cbn; try done.
  intros [Ha H1] H2. split; [|by apply IH]. by rewrite hd_app.
Qed.

Lemma linked_insert_other e ns ds tl p n :
  p ∉ ns -> linked e ns ds tl -> linked (<[p := n]> e) ns ds tl.
Proof.
  revert ds. induction ns as [|a ns IH]; intros [|d ds]; cbn; try done.
  intros Hp [Ha H]. rewrite not_elem_of_cons in Hp. destruct Hp.
  split; [|by apply IH]. by rewrite lookup_insert_ne by congruence.
Qed.

Lemma linked_delete_other e ns ds tl p :
  p ∉ ns -> linked e ns ds tl -> linked (delete p e) ns ds tl.
Proof.
  revert ds. induction ns as [|a ns IH]; intros [|d ds]; cbn; try done.
  intros Hp [Ha H]. rewrite not_elem_of_cons in Hp. destruct Hp.
  split; [|by apply IH]. by rewrite lookup_delete_ne by congruence.
Qed.

Lemma linked_elem e ns ds tl a :
  linked e ns ds tl -> a ∈ ns -> is_Some (e !! a).
Proof.
  revert ds. induction ns as [|b ns IH]; intros [|d ds]; cbn; try done.
  - intros _ Ha. by apply not_elem_of_nil in Ha.
  - intros [Hb H] Ha. apply elem_of_cons in Ha as [->|Ha]; eauto.
Qed.

(** ** The representation invariant

    [queue_repr m q bs fs xs]: in memory [m] the queue structure [q] is a
    ring of the busy nodes [bs], which hold the queued pointers [xs], and
    the free nodes [fs], and the mutex is not held. *)
Record queue_repr (m : mem) (q : OSAL_QUEUE) (bs fs xs : list ptr) : Prop := {
  qr_handle : handle m = Some q;
  qr_busy : linked (elems m) bs xs (last q);
  qr_free : linked (elems m) fs (replicate (length fs) NULL) (first q);
  qr_first : first q = hd (last q) bs;
  qr_last : last q = hd (first q) fs;
  qr_nodup : NoDup (bs ++ fs);
  qr_nonnull : NULL ∉ bs ++ fs;
  qr_num : numElem q = Z.of_nat (length xs);
  qr_size : Z.of_nat (length (bs ++ fs)) = maxElem q - 1;
  qr_some : bs ++ fs <> [];
  qr_data : Forall (fun x => x <> NULL) xs;
  qr_mutex : mutexes m !! qMutex q = Some false;
  qr_mutex_nonnull : qMutex q <> NULL
}.

(** The heap outside the ring and the mutexes are the same in [m] and [m']. *)
Definition same_outside (ns : list ptr) (m m' : mem) : Prop :=
  (forall a, a ∉ ns -> elems m' !! a = elems m !! a) /\ mutexes m' = mutexes m /\
  brk m' = brk m.

(** Running the lock of a well-formed queue. *)
Lemma lock_run m q bs fs xs :
  queue_repr m q bs fs xs ->
  OSAL_MutexLock (qMutex q) m =
    Some (OMX_ErrorNone, set_mutexes (<[qMutex q := true]> (mutexes m)) m).
Proof.
  intros R. unfold OSAL_MutexLock, pthread_mutex_lock, bind.
  rewrite (proj2 (Z.eqb_neq _ _) (qr_mutex_nonnull _ _ _ _ _ R)).
  by rewrite (qr_mutex _ _ _ _ _ R).
Qed.

Lemma unlock_run (m : mem) p :
  p <> NULL -> mutexes m !! p = Some true ->
  OSAL_MutexUnlock p m =
    Some (OMX_ErrorNone, set_mutexes (<[p := false]> (mutexes m)) m).
Proof.
  intros Hp Hm. unfold OSAL_MutexUnlock, pthread_mutex_unlock, bind.
  rewrite (proj2 (Z.eqb_neq _ _) Hp). by rewrite Hm.
Qed.

(** Taking and releasing a free mutex restores the mutex table. *)
Lemma relock_id (x : gmap Z bool) p :
  x !! p = Some false -> <[p := false]> (<[p := true]> x) = x.
Proof. intros H. rewrite insert_insert_eq. by apply insert_id. Qed.

(** The memory after a push of [d] on the free node [l] with successor [nx]. *)
Definition pushed (m : mem) (q : OSAL_QUEUE) (l nx d : ptr) : mem :=
  set_handle (mkQueue (first q) nx (numElem q + 1) (qMutex q) (maxElem q))
    (set_elems (<[l := mkQElem d nx]> (elems m)) m).

Lemma push_last_run m q d nx dat :
  elems m !! last q = Some (mkQElem dat nx) ->
  push_last q d m = Some (tt, pushed m q (last q) nx d).
Proof.
  intros H. unfold push_last, bind, load, store. rewrite H. cbn.
  rewrite H. cbn. rewrite lookup_insert_eq. reflexivity.
Qed.

Lemma pushed_repr m q bs l fs xs d :
  queue_repr m q bs (l :: fs) xs -> d <> NULL ->
  queue_repr (pushed m q l (hd (first q) fs) d)
    (mkQueue (first q) (hd (first q) fs) (numElem q + 1) (qMutex q) (maxElem q))
    (bs ++ [l]) fs (xs ++ [d]).
Proof.
  intros R Hd. destruct R as [Hh Hb Hf Hfi Hla Hnd Hnn Hnum Hsz Hso Hda Hmx Hmn].
  cbn in Hf, Hla. destruct Hf as [Hl Hf].
  pose proof Hnd as Hnd'. apply NoDup_app in Hnd' as (_ & Hdisj & Hndf).
  apply NoDup_cons in Hndf as [Hlf _].
  assert (Hlb : l ∉ bs).
  { intros Hin. apply (Hdisj l Hin). left. }
  split; cbn; try done.
  - apply linked_app.
    + cbn. rewrite Hla in Hb. by apply linked_insert_other.
    + cbn. split; [|done]. by rewrite lookup_insert_eq.
  - by apply linked_insert_other.
  - rewrite hd_app. cbn. rewrite <- Hla. exact Hfi.
  - by rewrite <- app_assoc.
  - by rewrite <- app_assoc.
  - rewrite Hnum, length_app. cbn. lia.
  - by rewrite <- app_assoc.
  - by destruct bs.
  - apply Forall_app. split; [done|]. by constructor.
Qed.

(** What [OSAL_Queue] does on a well-formed queue: a full ring refuses and
    leaves the memory alone, otherwise the pointer goes to the end. *)
Lemma OSAL_Queue_full m q bs xs d :
  queue_repr m q bs [] xs -> OSAL_Queue d m = Some (-1, m).
Proof.
  intros R. pose proof (lock_run _ _ _ _ _ R) as HL.
  destruct R as [Hh Hb Hf Hfi Hla Hnd Hnn Hnum Hsz Hso Hda Hmx Hmn].
  unfold OSAL_Queue, bind at 1, get. rewrite Hh.
  rewrite (bind_some _ _ _ _ _ HL).
  destruct bs as [|b bs]; [done|]. destruct xs as [|x xs]; [by destruct Hb|].
  cbn in Hla, Hfi, Hb. destruct Hb as [Hb _].
  unfold bind at 1, load. cbn.
  rewrite Hla, Hfi, Hb. cbn. apply Forall_cons in Hda as [Hx Hda].
  rewrite (proj2 (Z.eqb_neq x NULL)) by done. cbn.
  erewrite bind_some; [|apply unlock_run; [done|cbn; by rewrite lookup_insert_eq]].
  unfold ret, set_mutexes. cbn. rewrite relock_id by done.
  by destruct m.
Qed.

Lemma OSAL_Queue_push m q bs l fs xs d :
  queue_repr m q bs (l :: fs) xs -> d <> NULL ->
  OSAL_Queue d m = Some (0, pushed m q l (hd (first q) fs) d).
Proof.
  intros R Hd. pose proof (lock_run _ _ _ _ _ R) as HL.
  destruct R as [Hh Hb Hf Hfi Hla Hnd Hnn Hnum Hsz Hso Hda Hmx Hmn].
  unfold OSAL_Queue, bind at 1, get. rewrite Hh.
  rewrite (bind_some _ _ _ _ _ HL).
  cbn in Hf, Hla. destruct Hf as [Hl Hf].
  unfold bind at 1, load. cbn. rewrite Hla, Hl. cbn.
  apply linked_length in Hb.
  replace (maxElem q <=? numElem q) with false.
  2: { symmetry. apply Z.leb_gt. rewrite length_app in Hsz. cbn in Hsz. lia. }
  erewrite bind_some; [|eapply push_last_run; cbn; rewrite Hla; exact Hl].
  erewrite bind_some; [|apply unlock_run; [done|cbn; by rewrite lookup_insert_eq]].
  unfold ret, pushed, set_handle, set_elems, set_mutexes. cbn.
  rewrite relock_id by done. by rewrite Hla.
Qed.

(** The memory after the head node [f] has been emptied. *)
Definition popped (m : mem) (q : OSAL_QUEUE) (f nx : ptr) : mem :=
  set_handle (mkQueue nx (last q) (numElem q - 1) (qMutex q) (maxElem q))
    (set_elems (<[f := mkQElem NULL nx]> (elems m)) m).

Lemma OSAL_Dequeue_empty m q fs :
  queue_repr m q [] fs [] -> OSAL_Dequeue m = Some (NULL, m).
Proof.
  intros R. pose proof (lock_run _ _ _ _ _ R) as HL.
  destruct R as [Hh Hb Hf Hfi Hla Hnd Hnn Hnum Hsz Hso Hda Hmx Hmn].
  unfold OSAL_Dequeue, bind at 1, get. rewrite Hh.
  rewrite (bind_some _ _ _ _ _ HL).
  destruct fs as [|l fs]; [done|]. cbn in Hf, Hla, Hfi. destruct Hf as [Hl Hf].
  unfold bind at 1, load. cbn. rewrite Hfi, Hla, Hl. cbn.
  erewrite bind_some; [|apply unlock_run; [done|cbn; by rewrite lookup_insert_eq]].
  unfold ret, set_mutexes. cbn. rewrite relock_id by done. by destruct m.
Qed.

Lemma OSAL_Dequeue_pop m q f bs fs x xs :
  queue_repr m q (f :: bs) fs (x :: xs) ->
  OSAL_Dequeue m = Some (x, popped m q f (hd (last q) bs)).
Proof.
  intros R. pose proof (lock_run _ _ _ _ _ R) as HL.
  destruct R as [Hh Hb Hf Hfi Hla Hnd Hnn Hnum Hsz Hso Hda Hmx Hmn].
  unfold OSAL_Dequeue, bind at 1, get. rewrite Hh.
  rewrite (bind_some _ _ _ _ _ HL).
  cbn in Hb, Hfi. destruct Hb as [Hb _]. apply Forall_cons in Hda as [Hx Hda].
  unfold bind at 1, load at 1. cbn. rewrite Hfi, Hb. cbn.
  rewrite (proj2 (Z.eqb_neq x NULL)) by done. cbn.
  replace (numElem q <=? 0) with false by (symmetry; apply Z.leb_gt; rewrite Hnum; cbn; lia).
  unfold bind at 1, store. cbn. rewrite Hb.
  unfold bind at 1, load. cbn. rewrite lookup_insert_eq.
  unfold bind at 1, modify. cbn.
  erewrite bind_some; [|apply unlock_run; [done|cbn; by rewrite lookup_insert_eq]].
  unfold ret, popped, set_handle, set_elems, set_mutexes. cbn.
  by rewrite relock_id.
Qed.

Lemma popped_repr m q f bs fs x xs :
  queue_repr m q (f :: bs) fs (x :: xs) ->
  queue_repr (popped m q f (hd (last q) bs))
    (mkQueue (hd (last q) bs) (last q) (numElem q - 1) (qMutex q) (maxElem q))
    bs (fs ++ [f]) xs.
Proof.
  intros R. destruct R as [Hh Hb Hf Hfi Hla Hnd Hnn Hnum Hsz Hso Hda Hmx Hmn].
  cbn in Hb, Hfi. destruct Hb as [Hfn Hb].
  assert (Hperm : bs ++ fs ++ [f] ≡ₚ (f :: bs) ++ fs).
  { rewrite app_assoc. symmetry. apply Permutation_cons_append. }
  pose proof Hnd as Hnd'. cbn in Hnd'. apply NoDup_cons in Hnd' as [Hff _].
  rewrite not_elem_of_app in Hff. destruct Hff as [Hfb Hffs].
  apply Forall_cons in Hda as [Hx Hda].
  split; cbn; try done.
  - by apply linked_insert_other.
  - rewrite length_app, replicate_add. apply linked_app.
    + cbn. rewrite Hfi in Hf. by apply linked_insert_other.
    + cbn. split; [|done]. by rewrite lookup_insert_eq.
  - rewrite hd_app. cbn. by rewrite <- Hfi.
  - by rewrite Hperm.
  - by rewrite Hperm.
  - rewrite Hnum. cbn. lia.
  - rewrite <- Hsz. by rewrite Hperm.
  - destruct bs; [by destruct fs|done].
Qed.

Lemma OSAL_GetElemNum_run m q bs fs xs :
  queue_repr m q bs fs xs -> OSAL_GetElemNum m = Some (Z.of_nat (length xs), m).
Proof.
  intros R. pose proof (lock_run _ _ _ _ _ R) as HL.
  destruct R as [Hh Hb Hf Hfi Hla Hnd Hnn Hnum Hsz Hso Hda Hmx Hmn].
  unfold OSAL_GetElemNum, bind at 1, get. rewrite Hh.
  rewrite (bind_some _ _ _ _ _ HL).
  erewrite bind_some; [|apply unlock_run; [done|cbn; by rewrite lookup_insert_eq]].
  unfold ret, set_mutexes. cbn. rewrite relock_id by done. rewrite Hnum. by destruct m.
Qed.

(** ** The abstract bounded FIFO and the refinement *)

Inductive op := Enq (d : ptr) | Deq | Count.

Definition fifo_step (cap : nat) (o : op) (xs : list ptr) : Z * list ptr :=
  match o with
  | Enq d => if (length xs <? cap)%nat then (0, xs ++ [d]) else (-1, xs)
  | Deq => match xs with [] => (NULL, []) | x :: xs' => (x, xs') end
  | Count => (Z.of_nat (length xs), xs)
  end.

Fixpoint fifo_run (cap : nat) (os : list op) (xs : list ptr) : list Z * list ptr :=
  match os with
  | [] => ([], xs)
  | o :: os =>
      let '(r, xs1) := fifo_step cap o xs in
      let '(rs, xs2) := fifo_run cap os xs1 in (r :: rs, xs2)
  end.

Definition run_op (o : op) : M mem Z :=
  match o with Enq d => OSAL_Queue d | Deq => OSAL_Dequeue | Count => OSAL_GetElemNum end.

Fixpoint run_ops (os : list op) : M mem (list Z) :=
  match os with
  | [] => ret []
  | o :: os => r <- run_op o ;; rs <- run_ops os ;; ret (r :: rs)
  end.

Definition op_ok (o : op) : Prop := match o with Enq d => d <> NULL | _ => True end.

(** [queue_at m mx ns xs]: the ring nodes [ns] hold the queue [xs], [mx] is its mutex. *)
Definition queue_at (m : mem) (mx : ptr) (ns xs : list ptr) : Prop :=
  exists q bs fs, queue_repr m q bs fs xs /\ bs ++ fs ≡ₚ ns /\ qMutex q = mx.

Lemma same_outside_refl ns m : same_outside ns m m.
Proof. by repeat split. Qed.

Lemma same_outside_trans ns m1 m2 m3 :
  same_outside ns m1 m2 -> same_outside ns m2 m3 -> same_outside ns m1 m3.
Proof.
  intros (H1 & H2 & H3) (H4 & H5 & H6). repeat split; try congruence.
  intros a Ha. rewrite H4, H1; done.
Qed.

Lemma run_op_refines mx ns o m xs :
  queue_at m mx ns xs -> op_ok o ->
  exists m', run_op o m = Some (fst (fifo_step (length ns) o xs), m') /\
    queue_at m' mx ns (snd (fifo_step (length ns) o xs)) /\ same_outside ns m m'.
Proof.
  intros (q & bs & fs & R & Hp & Hqx) Hok.
  pose proof (linked_length _ _ _ _ (qr_busy _ _ _ _ _ R)) as Hlen.
  assert (Hn : length ns = (length xs + length fs)%nat).
  { rewrite <- Hp, length_app. lia. }
  destruct o as [d| |]; cbn [run_op fifo_step].
  - destruct fs as [|l fs].
    + rewrite (proj2 (Nat.ltb_ge _ _)) by (cbn in Hn; lia).
      exists m. rewrite (OSAL_Queue_full _ _ _ _ _ R).
      repeat split; [by exists q, bs, []|..]; done.
    + rewrite (proj2 (Nat.ltb_lt _ _)) by (cbn in Hn; lia). eexists.
      rewrite (OSAL_Queue_push _ _ _ _ _ _ _ R Hok). split; [done|]. split.
      * eexists _, _, _. split; [by apply pushed_repr|]. split; [|done]. by rewrite <- app_assoc.
      * repeat split. intros a Ha. cbn. apply lookup_insert_ne. intros ->.
        apply Ha. rewrite <- Hp. apply elem_of_app. right. left.
  - destruct xs as [|x xs].
    + destruct bs; [|done]. rewrite (OSAL_Dequeue_empty _ _ _ R).
      exists m. repeat split; [by exists q, [], fs|..]; done.
    + destruct bs as [|f bs]; [done|]. eexists.
      rewrite (OSAL_Dequeue_pop _ _ _ _ _ _ _ R). split; [done|]. split.
      * eexists _, _, _. split; [by eapply popped_repr|]. split; [|done]. rewrite app_assoc, <- Hp.
        symmetry. apply Permutation_cons_append.
      * repeat split. intros a Ha. cbn. apply lookup_insert_ne. intros ->.
        apply Ha. rewrite <- Hp. left.
  - exists m. rewrite (OSAL_GetElemNum_run _ _ _ _ _ R).
    repeat split; [by exists q, bs, fs|..]; done.
Qed.

Lemma run_ops_refines mx ns os m xs :
  queue_at m mx ns xs -> Forall op_ok os ->
  exists m', run_ops os m = Some (fst (fifo_run (length ns) os xs), m') /\
    queue_at m' mx ns (snd (fifo_run (length ns) os xs)) /\ same_outside ns m m'.
Proof.
  revert m xs. induction os as [|o os IH]; intros m xs HQ Hok; cbn [run_ops fifo_run].
  - exists m. split; [done|]. split; [done|apply same_outside_refl].
  - apply Forall_cons in Hok as [Ho Hos].
    destruct (run_op_refines mx ns o m xs HQ Ho) as (m1 & H1 & HQ1 & HS1).
    destruct (fifo_step (length ns) o xs) as [r xs1]; cbn in *.
    destruct (IH m1 xs1 HQ1 Hos) as (m2 & H2 & HQ2 & HS2).
    destruct (fifo_run (length ns) os xs1) as [rs xs2]; cbn in *.
    exists m2. rewrite (bind_some _ _ _ _ _ H1), (bind_some _ _ _ _ _ H2).
    split; [done|]. split; [done|]. by eapply same_outside_trans.
Qed.

(** ** Creation and termination *)

(** The heap without the nodes [ns]. *)
Definition remove_nodes (ns : list ptr) (e : gmap Z OSAL_QElem) : gmap Z OSAL_QElem :=
  foldl (fun e p => delete p e) e ns.

Lemma lookup_remove_nodes ns e a :
  remove_nodes ns e !! a = if decide (a ∈ ns) then None else e !! a.
Proof.
  revert e. induction ns as [|b ns IH]; intros e; cbn.
  - by rewrite decide_False by apply not_elem_of_nil.
  - fold (remove_nodes ns (delete b e)). rewrite IH. destruct (decide (a ∈ ns)) as [H|H].
    + rewrite decide_True; [done|by right].
    + destruct (decide (a = b)) as [->|Hne].
      * rewrite lookup_delete_eq. rewrite decide_True; [done|left].
      * rewrite lookup_delete_ne by congruence. rewrite decide_False; [done|].
        rewrite elem_of_cons. intros [?|?]; done.
Qed.

Lemma linked_size e ns ds tl :
  linked e ns ds tl -> NoDup ns -> (length ns <= size e)%nat.
Proof.
  intros HL HN. rewrite <- (size_dom (D := gset Z)).
  rewrite <- (size_list_to_set (C := gset Z) ns HN).
  apply subseteq_size. intros a Ha. apply elem_of_list_to_set in Ha.
  apply elem_of_dom. exact (linked_elem _ _ _ _ _ HL Ha).
Qed.

(** The two freeing loops run down a linked segment. *)
Lemma terminate_loop_run n ns ds tl q m :
  linked (elems m) ns ds tl -> NoDup ns -> (n <= length ns)%nat -> first q = hd tl ns ->
  terminate_loop n q m =
    Some (mkQueue (hd tl (drop n ns)) (last q) (numElem q) (qMutex q) (maxElem q),
          set_elems (remove_nodes (take n ns) (elems m)) m).
Proof.
  revert ns ds q m. induction n as [|n IH]; intros ns ds q m HL HN Hn Hf; cbn.
  - rewrite drop_0, <- Hf. unfold ret. destruct q, m; done.
  - destruct ns as [|a ns]; [cbn in Hn; lia|]. destruct ds as [|d ds]; [done|].
    cbn in HL, Hf, Hn. destruct HL as [Ha HL]. apply NoDup_cons in HN as [Hna HN].
    unfold bind, load, free_elem. rewrite Hf, Ha. rewrite Ha.
    rewrite (IH ns ds); [by destruct m|by apply linked_delete_other|done|lia|done].
Qed.

Lemma free_chain_run fuel ns ds q m :
  linked (elems m) ns ds NULL -> NoDup ns -> NULL ∉ ns ->
  (length ns <= fuel)%nat -> first q = hd NULL ns ->
  free_chain fuel q m =
    Some (mkQueue NULL (last q) (numElem q) (qMutex q) (maxElem q),
          set_elems (remove_nodes ns (elems m)) m).
Proof.
  revert ns ds q m. induction fuel as [|fuel IH]; intros ns ds q m HL HN H0 Hn Hf.
  - destruct ns; [|cbn in Hn; lia]. cbn in *. rewrite Hf. cbn.
    unfold ret. destruct q, m; cbn in *; by subst.
  - destruct ns as [|a ns]; cbn in Hf; cbn.
    { rewrite Hf. cbn. unfold ret. destruct q, m; cbn in *; by subst. }
    destruct ds as [|d ds]; [done|]. cbn in HL, Hn. destruct HL as [Ha HL].
    apply NoDup_cons in HN as [Hna HN]. apply not_elem_of_cons in H0 as [Hn0 H0].
    rewrite Hf. rewrite (proj2 (Z.eqb_neq a NULL)) by done.
    unfold bind, load, free_elem. rewrite Ha. rewrite Ha.
    rewrite (IH ns ds); [by destruct m|by apply linked_delete_other|done|done|lia|done].
Qed.

(** The invariant of the allocation loop: the fresh nodes [ns] built on top
    of the heap [e0] form an open chain of empty nodes ending in [cur]. *)
Record building (e0 : gmap Z OSAL_QElem) (m : mem) (ns : list ptr) (cur : ptr) : Prop := {
  bd_ns : exists init, ns = init ++ [cur];
  bd_linked : linked (elems m) ns (replicate (length ns) NULL) NULL;
  bd_nodup : NoDup ns;
  bd_pos : Forall (fun a => 0 < a < brk m) ns;
  bd_brk : 0 < brk m;
  bd_fresh : forall a, brk m <= a -> elems m !! a = None;
  bd_new : forall a, a ∈ ns -> e0 !! a = None;
  bd_old : forall a, a ∉ ns -> elems m !! a = e0 !! a
}.

Lemma building_nonnull e0 m ns cur : building e0 m ns cur -> NULL ∉ ns.
Proof.
  intros B H. pose proof (bd_pos _ _ _ _ B) as HF. rewrite Forall_forall in HF.
  specialize (HF _ H). cbn in HF. unfold NULL in HF. lia.
Qed.

Lemma building_removed e0 m ns cur :
  building e0 m ns cur -> remove_nodes ns (elems m) = e0.
Proof.
  intros B. apply map_eq. intros a. rewrite lookup_remove_nodes.
  destruct (decide (a ∈ ns)); symmetry.
  - by apply (bd_new _ _ _ _ B).
  - symmetry. by apply (bd_old _ _ _ _ B).
Qed.

Lemma linked_app_inv e ns1 ns2 ds1 ds2 tl :
  length ns1 = length ds1 -> linked e (ns1 ++ ns2) (ds1 ++ ds2) tl ->
  linked e ns1 ds1 (hd tl ns2) /\ linked e ns2 ds2 tl.
Proof.
  revert ds1. induction ns1 as [|a ns1 IH]; intros [|d ds1]; cbn; try done.
  intros Hl [Ha H]. destruct (IH ds1 ltac:(congruence) H) as [H1 H2].
  split; [|done]. split; [|done]. by rewrite <- hd_app.
Qed.

(** One successful iteration of the allocation loop keeps the invariant. *)
Lemma building_step e0 m ns cur a :
  building e0 m ns cur ->
  elems m !! cur = Some (mkQElem NULL NULL) /\
  building e0
    (mkMem (handle m) (<[cur := mkQElem NULL (brk m)]>
                         (<[brk m := mkQElem NULL NULL]> (elems m)))
       (mutexes m) (brk m + 1) a)
    (ns ++ [brk m]) (brk m).
Proof.
  intros [[init ->] HL HN HP HB HF Hnew Hold].
  rewrite length_app, replicate_add in HL.
  apply linked_app_inv in HL as [HL1 HL2]; [|by rewrite length_replicate].
  cbn in HL1, HL2. destruct HL2 as [Hcur _]. split; [done|].
  rewrite Forall_app, Forall_singleton in HP. destruct HP as [HPi HPc]. cbn in HPc.
  apply NoDup_app in HN as (HNi & Hd & _).
  assert (Hci : cur ∉ init) by (intros H; apply (Hd _ H); left).
  assert (Hbi : brk m ∉ init).
  { intros H. rewrite Forall_forall in HPi. specialize (HPi _ H). cbn in HPi. lia. }
  assert (Hin : brk m ∉ init ++ [cur]).
  { rewrite not_elem_of_app, list_elem_of_singleton. split; [done|]. lia. }
  split; cbn.
  - by exists (init ++ [cur]).
  - rewrite length_app, replicate_add. apply linked_app; cbn.
    + rewrite length_app, replicate_add. apply linked_app; cbn.
      * apply linked_insert_other; [done|]. by apply linked_insert_other.
      * split; [by rewrite lookup_insert_eq|done].
    + split; [|done]. rewrite lookup_insert_ne by lia. by rewrite lookup_insert_eq.
  - apply NoDup_app. split; [|split].
    + apply NoDup_app. split; [done|]. split; [done|]. apply NoDup_singleton.
    + intros x Hx. rewrite list_elem_of_singleton. by intros ->.
    + apply NoDup_singleton.
  - rewrite !Forall_app, !Forall_singleton. split; [split|]; [|lia|lia].
    eapply Forall_impl; [done|]. cbn. intros x Hx. lia.
  - lia.
  - intros x Hx. rewrite !lookup_insert_ne by lia. apply HF. lia.
  - intros x. rewrite elem_of_app, list_elem_of_singleton. intros [Hx| ->]; [by apply Hnew|].
    rewrite <- Hold by done. by apply HF.
  - intros x Hx. rewrite not_elem_of_app, list_elem_of_singleton in Hx. destruct Hx as [Hx Hxb].
    rewrite !lookup_insert_ne; [by apply Hold|congruence|].
    intros ->. apply Hx. apply elem_of_app. right. left.
Qed.

Lemma malloc_elem_cases m :
  (exists a, malloc_elem m =
     Some (brk m, mkMem (handle m) (<[brk m := mkQElem NULL NULL]> (elems m))
                    (mutexes m) (brk m + 1) a) /\ (answers m = [] -> a = [])) \/
  (exists a, malloc_elem m =
     Some (NULL, mkMem (handle m) (elems m) (mutexes m) (brk m) a) /\ answers m <> []).
Proof.
  unfold malloc_elem, bind, answer. destruct m as [h e x b [|[] bs]]; cbn; eauto.
  left. by exists bs.
Qed.

Lemma create_loop_step n q cur m a :
  malloc_elem m =
     Some (brk m, mkMem (handle m) (<[brk m := mkQElem NULL NULL]> (elems m))
                    (mutexes m) (brk m + 1) a) ->
  brk m <> NULL -> cur <> brk m -> elems m !! cur = Some (mkQElem NULL NULL) ->
  create_loop (S n) q cur m =
    create_loop n q (brk m)
      (mkMem (handle m) (<[cur := mkQElem NULL (brk m)]>
                           (<[brk m := mkQElem NULL NULL]> (elems m)))
         (mutexes m) (brk m + 1) a).
Proof.
  intros Hm H0 Hne Hcur. cbn [create_loop]. rewrite (bind_some _ _ _ _ _ Hm).
  rewrite (proj2 (Z.eqb_neq (brk m) NULL)) by done.
  unfold bind at 1, load. cbn. rewrite lookup_insert_ne, Hcur by done. cbn.
  unfold bind at 1, store. cbn. by rewrite lookup_insert_ne, Hcur by done.
Qed.

(** The allocation loop either extends the chain by [n] nodes or gives all
    of its nodes back. *)
Lemma create_loop_run n q m ns cur e0 :
  building e0 m ns cur -> first q = hd NULL ns ->
  (exists m' ns' cur', create_loop n q cur m = Some (inr cur', m') /\
     building e0 m' ns' cur' /\ length ns' = (length ns + n)%nat /\
     hd NULL ns' = hd NULL ns /\ mutexes m' = mutexes m /\ handle m' = handle m) \/
  (exists m', create_loop n q cur m =
       Some (inl (mkQueue NULL (last q) (numElem q) (qMutex q) (maxElem q)), m') /\
     elems m' = e0 /\ mutexes m' = mutexes m /\ handle m' = handle m /\ answers m <> []).
Proof.
  revert q m ns cur. induction n as [|n IH]; intros q m ns cur B Hf.
  { left. exists m, ns, cur. cbn. unfold ret. split_and!; done || lia. }
  destruct (malloc_elem_cases m) as [(a & Hm & Han)|(a & Hm & Han)].
  - pose proof (building_step _ _ _ _ a B) as [Hcur B'].
    pose proof (bd_brk _ _ _ _ B). pose proof (bd_fresh _ _ _ _ B (brk m)) as Hbrk.
    assert (cur <> brk m) by (intros Heq; rewrite Heq, Hbrk in Hcur by lia; done).
    rewrite (create_loop_step _ _ _ _ a Hm) by (done || unfold NULL; lia).
    assert (Hne : hd NULL (ns ++ [brk m]) = hd NULL ns).
    { destruct (bd_ns _ _ _ _ B) as [init ->]. by destruct init. }
    assert (Hf' : first q = hd NULL (ns ++ [brk m])) by congruence.
    destruct (IH q _ _ _ B' Hf') as [(m' & ns' & cur' & Hr & B2 & Hl & Hh & Hx & Hd)|Hr].
    + left. exists m', ns', cur'. split_and!; try done; [|congruence].
      rewrite Hl, length_app. cbn. lia.
    + right. destruct Hr as (m' & Hr & He & Hx & Hd & Hb). exists m'.
      split_and!; try done. intros Hnil. by apply Hb, Han.
  - right. cbn [create_loop]. rewrite (bind_some _ _ _ _ _ Hm).
    cbn [Z.eqb]. unfold bind at 1, get. cbn [elems Z.eqb NULL].
    erewrite bind_some.
    2: { apply (free_chain_run _ ns (replicate (length ns) NULL)); cbn [elems]; try done;
         [apply B..| by eapply building_nonnull |].
         apply Nat.le_le_succ_r. eapply linked_size; apply B. }
    eexists. split; [done|]. cbn. split_and!; [by eapply building_removed|done..].
Qed.

(** A memory in which nothing is allocated at or above [brk]. *)
Record wf_mem (m : mem) : Prop := {
  wf_brk : 0 < brk m;
  wf_elems : forall a, brk m <= a -> elems m !! a = None;
  wf_mutexes : forall a, brk m <= a -> mutexes m !! a = None
}.

(** Closing the chain makes it the ring of an empty queue. *)
Lemma building_close e0 m ns cur mx maxE :
  building e0 m ns cur -> Z.of_nat (length ns) = maxE - 1 -> mx <> NULL ->
  mutexes m !! mx = Some false ->
  elems m !! cur = Some (mkQElem NULL NULL) /\
  (let f := hd NULL ns in let q := mkQueue f f 0 mx maxE in
   queue_repr (set_handle q (set_elems (<[cur := mkQElem NULL f]> (elems m)) m))
     q [] ns []).
Proof.
  intros B Hlen Hmx Hmu. pose proof (building_nonnull _ _ _ _ B) as Hnn.
  destruct B as [[init ->] HL HN HP HB HF Hnew Hold].
  rewrite length_app, replicate_add in HL.
  apply linked_app_inv in HL as [HL1 HL2]; [|by rewrite length_replicate].
  cbn in HL1, HL2. destruct HL2 as [Hcur _]. split; [done|].
  apply NoDup_app in HN as HN'. destruct HN' as (HNi & Hd & _).
  assert (Hci : cur ∉ init) by (intros H; apply (Hd _ H); left).
  split; cbn; try done.
  - rewrite length_app, replicate_add. apply linked_app; cbn.
    + by apply linked_insert_other.
    + split; [by rewrite lookup_insert_eq|done].
  - rewrite !hd_app. by destruct init.
  - by destruct init.
Qed.

Lemma OSAL_MutexCreate_cases m :
  (exists a, OSAL_MutexCreate m =
     Some ((OMX_ErrorNone, brk m),
           mkMem (handle m) (elems m) (<[brk m := false]> (mutexes m)) (brk m + 1) a) /\
     (answers m = [] -> a = [])) \/
  (exists err mx m', OSAL_MutexCreate m = Some ((err, mx), m') /\ err <> OMX_ErrorNone /\
     elems m' = elems m /\ answers m <> []).
Proof.
  unfold OSAL_MutexCreate, bind, answer.
  destruct m as [h e x b [|[] [|[] bs]]]; cbn;
    first [ left; eexists; split; [reflexivity|done]
          | right; do 3 eexists; split_and!; [reflexivity|done..] ].
Qed.

(** The chain of one node the creation starts from. *)
Lemma building_start m x a :
  wf_mem m ->
  building (elems m)
    (mkMem (handle m) (<[brk m + 1 := mkQElem NULL NULL]> (elems m)) x (brk m + 1 + 1) a)
    [brk m + 1] (brk m + 1).
Proof.
  intros W. pose proof (wf_brk _ W). split; cbn; try lia.
  - by exists [].
  - by rewrite lookup_insert_eq.
  - apply NoDup_singleton.
  - rewrite Forall_singleton. lia.
  - intros y Hy. rewrite lookup_insert_ne by lia. apply (wf_elems _ W). lia.
  - intros y ->%list_elem_of_singleton. apply (wf_elems _ W). lia.
  - intros y Hy. rewrite list_elem_of_singleton in Hy. by rewrite lookup_insert_ne by congruence.
Qed.

(** ** Outcomes of a creation *)
Definition created (m m' : mem) (ns : list ptr) (maxE : Z) : Prop :=
  queue_at m' (brk m) ns [] /\ Z.of_nat (length ns) = maxE - 1 /\
  (forall a, a ∈ ns -> elems m !! a = None) /\
  (forall a, a ∉ ns -> elems m' !! a = elems m !! a) /\
  mutexes m' = <[brk m := false]> (mutexes m).

Lemma create_outcome m q0 maxE :
  wf_mem m -> handle m = Some q0 -> 2 <= maxE ->
  (exists m' ns, OSAL_QueueCreate maxE m = Some (OMX_ErrorNone, m') /\ created m m' ns maxE) \/
  (exists err m', OSAL_QueueCreate maxE m = Some (err, m') /\ err <> OMX_ErrorNone /\
     elems m' = elems m /\ answers m <> []).
Proof.
  intros W Hh Hmax. remember (OSAL_QueueCreate maxE m) as r eqn:Er.
  unfold OSAL_QueueCreate, bind at 1, get in Er. rewrite Hh in Er.
  destruct (OSAL_MutexCreate_cases m) as [(a & Hc & Ha)|(err & mx & m' & Hc & He & Hel & Ha)];
    rewrite (bind_some _ _ _ _ _ Hc) in Er.
  2: { right. exists err, m'. by destruct err. }
  set (m1 := mkMem _ _ _ _ a) in Er.
  pose proof (wf_brk _ W) as Hb.
  destruct (malloc_elem_cases m1) as [(a1 & Hm & Ha1)|(a1 & Hm & Ha1)];
    rewrite (bind_some _ _ _ _ _ Hm) in Er; cbn in Er.
  2: { right. eexists _, _. split; [exact Er|]. split_and!; try done.
       intros Hn. by apply Ha1, Ha. }
  rewrite (proj2 (Z.eqb_neq _ _)) in Er by (unfold NULL; lia).
  pose proof (building_start m (mutexes m1) a1 W) as B.
  destruct (create_loop_run (Z.to_nat (maxE - 2))
             (mkQueue (brk m + 1) (brk m + 1) 0 (brk m) maxE) _ _ _ _ B eq_refl)
    as [(m' & ns & cur & Hr & B' & Hl & Hhd & Hx & Hd)|(m' & Hr & He & Hx & Hd & Hn)];
    rewrite (bind_some _ _ _ _ _ Hr) in Er.
  2: { right. eexists _, _. split; [exact Er|]. split_and!; try done.
       intros Hnil. by apply Hn, Ha1, Ha. }
  left. cbn in Hl, Hhd, Hx.
  destruct (building_close _ _ _ _ (brk m) maxE B') as [Hcur HR];
    [lia|unfold NULL; lia|by rewrite Hx, lookup_insert_eq|].
  cbv zeta in HR. rewrite Hhd in HR. cbn in HR.
  unfold bind at 1, load in Er. rewrite Hcur in Er. cbn in Er.
  unfold bind at 1, store in Er. rewrite Hcur in Er. cbn in Er.
  unfold bind, modify, ret in Er. eexists _, ns. split; [exact Er|].
  split_and!; try done.
  - eexists _, [], ns. split_and!; [exact HR|done|done].
  - lia.
  - apply B'.
  - intros x Hxn. cbn. rewrite lookup_insert_ne; [by apply B'|].
    intros ->. destruct (bd_ns _ _ _ _ B') as [init ->]. apply Hxn.
    apply elem_of_app. right. left.
Qed.

Lemma terminate_outcome m mx ns xs :
  queue_at m mx ns xs ->
  exists m', OSAL_QueueTerminate m = Some (OMX_ErrorNone, m') /\
    elems m' = remove_nodes ns (elems m) /\ mutexes m' = delete mx (mutexes m).
Proof.
  intros (q & bs & fs & R & Hp & <-).
  destruct R as [Hh Hb Hf Hfi Hla Hnd Hnn Hnum Hsz Hso Hda Hmx Hmn].
  assert (HL : linked (elems m) (bs ++ fs) (xs ++ replicate (length fs) NULL) (first q)).
  { apply linked_app; [by rewrite <- Hla|done]. }
  assert (Hhd : first q = hd (first q) (bs ++ fs)).
  { rewrite hd_app, <- Hla. done. }
  unfold OSAL_QueueTerminate, bind at 1, get. rewrite Hh.
  remember (bs ++ fs) as ring eqn:Er. clear Er.
  destruct ring as [|z init _] using rev_ind; [done|].
  rewrite length_app in Hsz. cbn in Hsz.
  replace (Z.to_nat (maxElem q - 2)) with (length init) by lia.
  erewrite bind_some.
  2: { eapply terminate_loop_run; [exact HL|done| |exact Hhd]. rewrite length_app. lia. }
  rewrite drop_app_length, take_app_length. cbn.
  rewrite not_elem_of_app, list_elem_of_singleton in Hnn. destruct Hnn as [_ Hz].
  rewrite (proj2 (Z.eqb_neq z NULL)) by congruence.
  apply NoDup_app in Hnd as (_ & Hd & _).
  destruct (linked_elem _ _ _ _ z HL) as [ez Hez]; [apply elem_of_app; right; left|].
  erewrite bind_some.
  2: { unfold bind, free_elem. cbn. rewrite lookup_remove_nodes, decide_False.
       - rewrite Hez. reflexivity.
       - intros Hzi. apply (Hd _ Hzi). left. }
  unfold bind at 1, modify. cbn. unfold OSAL_MutexTerminate.
  rewrite (proj2 (Z.eqb_neq _ NULL)) by done. cbn. rewrite Hmx.
  eexists. split; [done|]. split; [|done]. cbn.
  apply map_eq. intros a. rewrite lookup_delete, !lookup_remove_nodes.
  destruct (decide (z = a)) as [->|Hne].
  - rewrite decide_True; [done|]. rewrite <- Hp. apply elem_of_app. right. left.
  - apply decide_ext. rewrite <- Hp, elem_of_app, list_elem_of_singleton.
    split; [by left|]. intros [?|?]; congruence.
Qed.

(** [OSAL_QueueSetElem] looks for the pointer in the head node only. *)
Lemma same_elem_loop_run n q d f l m :
  elems m !! first q = Some f -> elems m !! last q = Some l -> 
  same_elem_loop n q d m =
    Some (match n with O => false | _ => (data f =? d) || (data l =? d) end, m).
Proof.
  intros Hf Hl. induction n as [|n IH]; [done|]. cbn.
  unfold bind, load. rewrite Hf, Hl. destruct ((data f =? d) || (data l =? d)) eqn:E; [done|].
  rewrite IH. by destruct n.
Qed.

(** The head comparison made by [OSAL_QueueSetElem] on a queue with room. *)
Lemma same_elem_head m q bs l fs xs d :
  queue_repr m q bs (l :: fs) xs -> d <> NULL -> forall x,
  same_elem_loop (Z.to_nat (numElem q)) q d (set_mutexes x m) =
    Some (bool_decide (head xs = Some d), set_mutexes x m).
Proof.
  intros [Hh Hb Hf Hfi Hla Hnd Hnn Hnum Hsz Hso Hda Hmx Hmn] Hd x.
  cbn in Hf, Hla. destruct Hf as [Hl Hf]. rewrite Hnum, Nat2Z.id.
  destruct bs as [|b bs]; destruct xs as [|y xs]; try done.
  cbn in Hb, Hfi. destruct Hb as [Hb _].
  erewrite same_elem_loop_run; [|cbn; by rewrite Hfi|cbn; by rewrite Hla].
  cbn [length data head]. f_equal. f_equal. rewrite (proj2 (Z.eqb_neq NULL d)) by congruence.
  rewrite orb_false_r. destruct (Z.eqb_spec y d) as [->|Hne].
  - by rewrite bool_decide_eq_true_2.
  - rewrite bool_decide_eq_false_2; [done|]. congruence.
Qed.

(** [OSAL_QueueSetElem] on a well-formed queue returns -1 on a full
    ring; otherwise it returns 0 and appends the pointer unless it equals the
    head of the queue: only the oldest element is compared, so a pointer
    queued anywhere else is queued a second time. *)
Theorem set_elem_compares_head_only m mx ns xs d :
  queue_at m mx ns xs -> d <> NULL ->
  exists m', OSAL_QueueSetElem d m =
      Some (if (length xs <? length ns)%nat then 0 else -1, m') /\
    queue_at m' mx ns
      (if (length xs <? length ns)%nat && negb (bool_decide (head xs = Some d))
       then xs ++ [d] else xs).
Proof.
  intros (q & bs & fs & R & Hp & Hqx) Hd. pose proof (lock_run _ _ _ _ _ R) as HL.
  pose proof (linked_length _ _ _ _ (qr_busy _ _ _ _ _ R)) as Hlen.
  assert (Hn : length ns = (length xs + length fs)%nat) by (rewrite <- Hp, length_app; lia).
  pose proof R as [Hh Hb Hf Hfi Hla Hnd Hnn Hnum Hsz Hso Hda Hmx Hmn].
  remember (OSAL_QueueSetElem d m) as r eqn:Er.
  unfold OSAL_QueueSetElem, bind at 1, get in Er. rewrite Hh in Er.
  rewrite (bind_some _ _ _ _ _ HL) in Er.
  destruct fs as [|l fs]; cbn in Hn.
  - rewrite (proj2 (Nat.ltb_ge _ _)) by lia. exists m. split; [|by exists q, bs, []].
    destruct bs as [|b bs]; [done|]. destruct xs as [|x xs]; [by destruct Hb|].
    cbn in Hla, Hfi, Hb. destruct Hb as [Hb _]. apply Forall_cons in Hda as [Hx _].
    unfold bind at 1, load in Er. cbn in Er. rewrite Hla, Hfi, Hb in Er. cbn in Er.
    rewrite (proj2 (Z.eqb_neq x NULL)) in Er by done. cbn in Er.
    erewrite bind_some in Er; [|apply unlock_run; [done|cbn; by rewrite lookup_insert_eq]].
    rewrite Er. unfold ret, set_mutexes. cbn. rewrite relock_id by done. by destruct m.
  - rewrite (proj2 (Nat.ltb_lt _ _)) by lia. cbn [andb].
    pose proof Hla as Hla'. cbn in Hla', Hf. destruct Hf as [Hl Hf].
    unfold bind at 1, load in Er. cbn in Er. rewrite Hla', Hl in Er. cbn in Er.
    rewrite length_app in Hsz. cbn in Hsz. rewrite (proj2 (Z.leb_gt _ _)) in Er by lia.
    rewrite (bind_some _ _ _ _ _ (same_elem_head _ _ _ _ _ _ _ R Hd _)) in Er.
    destruct (bool_decide (head xs = Some d)); cbn [negb].
    + erewrite bind_some in Er; [|apply unlock_run; [done|cbn; by rewrite lookup_insert_eq]].
      exists m. split; [|by exists q, bs, (l :: fs)].
      rewrite Er. unfold ret, set_mutexes. cbn. rewrite relock_id by done. by destruct m.
    + erewrite bind_some in Er; [|eapply push_last_run; cbn; rewrite Hla'; exact Hl].
      erewrite bind_some in Er; [|apply unlock_run; [done|cbn; by rewrite lookup_insert_eq]].
      eexists. split; [exact Er|]. unfold pushed, set_handle, set_elems, set_mutexes. cbn.
      rewrite relock_id, Hla' by done.
      eexists _, _, _. split_and!; [exact (pushed_repr _ _ _ _ _ _ _ R Hd)| |done].
      by rewrite <- app_assoc.
Qed.

(** The queue holding 5, 6 on three nodes. *)
Definition mem_56 : mem :=
  match (OSAL_QueueCreate 4 ;;; OSAL_Queue 5 ;;; OSAL_Queue 6)
          (mkMem (Some (mkQueue NULL NULL 0 NULL 0)) ∅ ∅ 1 []) with
  | Some (_, m) => m
  | None => mkMem None ∅ ∅ 1 []
  end.

Lemma mem_56_queue : queue_at mem_56 1 [2; 3; 4] [5; 6].
Proof.
  exists (mkQueue 2 4 2 1 4), [2; 3], [4]. split_and!; [|done|done].
  split; try (vm_compute; repeat split; reflexivity); try discriminate;
    try (repeat constructor; set_solver); set_solver.
Qed.

Lemma set_elem_compares_head_only_witness : exists m',
  OSAL_QueueSetElem 6 mem_56 = Some (0, m') /\ queue_at m' 1 [2; 3; 4] [5; 6; 6].
Proof.
  apply (set_elem_compares_head_only mem_56 1 [2; 3; 4] [5; 6] 6);
    [exact mem_56_queue|discriminate].
Defined.

(** Whatever [malloc] and [pthread_mutex_init] answer, a creation
    returns, and when it reports an error every node it allocated has been
    freed again. *)
Theorem create_error_frees_nodes m q0 maxE :
  wf_mem m -> handle m = Some q0 -> 2 <= maxE ->
  exists err m', OSAL_QueueCreate maxE m = Some (err, m') /\
    (err <> OMX_ErrorNone -> elems m' = elems m).
Proof.
  intros W Hh Hmax.
  destruct (create_outcome m q0 maxE W Hh Hmax) as [(m' & ns & H & _)|(e & m' & H & _ & He & _)].
  - by exists OMX_ErrorNone, m'.
  - by exists e, m'.
Qed.

(** C36: for every sequence of enqueue, dequeue and count calls between
    [OSAL_QueueCreate(max)] and [OSAL_QueueTerminate], the results the C code
    returns are those of a bounded FIFO of capacity [max - 1]; every call
    returns, and terminating gives back every node and the mutex: the heap is
    the one before the creation. *)
Theorem queue_lifecycle m q0 maxE os :
  wf_mem m -> handle m = Some q0 -> answers m = [] -> 2 <= maxE -> Forall op_ok os ->
  exists m',
    (e1 <- OSAL_QueueCreate maxE ;;
     rs <- run_ops os ;;
     e2 <- OSAL_QueueTerminate ;;
     ret (e1, rs, e2)) m =
      Some ((OMX_ErrorNone, fst (fifo_run (Z.to_nat (maxE - 1)) os []), OMX_ErrorNone), m') /\
    elems m' = elems m /\ mutexes m' = mutexes m.
Proof.
  intros W Hh Ha Hmax Hos.
  destruct (create_outcome m q0 maxE W Hh Hmax) as [(m1 & ns & H1 & C)|(e & m1 & _ & _ & _ & Hn)];
    [|done].
  destruct C as (HQ & Hlen & Hnew & Hold & Hmu).
  destruct (run_ops_refines (brk m) ns os m1 [] HQ Hos) as (m2 & H2 & HQ2 & Hs1 & Hs2 & Hs3).
  destruct (terminate_outcome m2 _ ns _ HQ2) as (m3 & H3 & He & Hx).
  exists m3. rewrite (bind_some _ _ _ _ _ H1), (bind_some _ _ _ _ _ H2), (bind_some _ _ _ _ _ H3).
  split; [by replace (Z.to_nat (maxE - 1)) with (length ns) by lia|]. split.
  - rewrite He. apply map_eq. intros a. rewrite lookup_remove_nodes.
    destruct (decide (a ∈ ns)); [by rewrite Hnew|]. by rewrite Hs1, Hold.
  - rewrite Hx, Hs2, Hmu. rewrite delete_insert_eq.
    apply delete_id. apply (wf_mutexes _ W). lia.
Qed.

(** A fresh memory with an uninitialised queue structure. *)
Definition mem0 : mem := mkMem (Some (mkQueue NULL NULL 0 NULL 0)) ∅ ∅ 1 [].

Lemma wf_mem0 : wf_mem mem0.
Proof. split; [done|..]; intros; apply lookup_empty. Qed.

Lemma queue_lifecycle_witness : exists m',
  (e1 <- OSAL_QueueCreate 3 ;;
   rs <- run_ops [Enq 10; Enq 11; Enq 12; Deq; Enq 13; Count; Deq; Deq; Deq] ;;
   e2 <- OSAL_QueueTerminate ;;
   ret (e1, rs, e2)) mem0 =
    Some ((OMX_ErrorNone, [0; 0; -1; 10; 0; 2; 11; 13; 0], OMX_ErrorNone), m') /\
  elems m' = ∅ /\ mutexes m' = ∅.
Proof.
  apply (queue_lifecycle mem0 (mkQueue NULL NULL 0 NULL 0) 3
           [Enq 10; Enq 11; Enq 12; Deq; Enq 13; Count; Deq; Deq; Deq]);
    [exact wf_mem0|reflexivity|reflexivity|lia|repeat constructor; discriminate].
Defined.

(** The fourth node cannot be allocated: the creation fails and the heap is
    empty again. *)
Definition mem_oom : mem :=
  mkMem (Some (mkQueue NULL NULL 0 NULL 0)) ∅ ∅ 1 [true; true; true; true; true; false].

Lemma create_error_frees_nodes_witness : exists err m',
  OSAL_QueueCreate 6 mem_oom = Some (err, m') /\ (err <> OMX_ErrorNone -> elems m' = ∅).
Proof.
  apply (create_error_frees_nodes mem_oom (mkQueue NULL NULL 0 NULL 0) 6);
    [split; [done|..]; intros; apply lookup_empty|reflexivity|lia].
Defined.

End OSAL.
