(* ===== verification/HandleDb.v ===== *)
(** * The handle database of tee-supplicant (optee_client/tee-supplicant/src/handle.c)

    A growing array of pointers; a handle is an index.  The abstract contract
    is a finite map from handles to pointers: [handle_get] allocates the least
    free handle, [handle_put] removes one, [handle_lookup] reads one. *)

From stdpp Require Import base tactics option list numbers gmap fin_maps.
From Stdlib Require Import ZArith Lia.
From S2P Require Import Prelude.

Local Open Scope Z_scope.
Local Open Scope c_scope.

Module HandleDb.

(** ** Data

    [ptrs] has [max_ptrs] cells; a NULL cell (0) is free.  [mu] is the
    optional mutex: [None] no mutex, [Some b] a mutex that is held when [b]. *)
Record handle_db := mkDb {
  ptrs : list Z;
  max_ptrs : nat;
  mu : option bool
}.

Definition HANDLE_DB_INITIAL_MAX_PTRS : nat := 4.

(** The database behind the caller's pointer ([None]: a NULL pointer) and the
    answers of the coming calls of [realloc] (success when exhausted). *)
Record st := mkSt { db : option handle_db; reallocs : list bool }.

Definition set_db (d : handle_db) (s : st) : st := mkSt (Some d) (reallocs s).

Definition realloc_answer : M st bool := fun s =>
  match reallocs s with
  | [] => Some (true, s)
  | b :: bs => Some (b, mkSt (db s) bs)
  end.

(** ** Operations *)

Definition mutex_lock (d : handle_db) : M st handle_db :=
  match mu d with
  | None => ret d
  | Some true => stuck
  | Some false => ret (mkDb (ptrs d) (max_ptrs d) (Some true))
  end.

Definition mutex_unlock (d : handle_db) : M st unit :=
  match mu d with
  | None => modify (set_db d)
  | Some false => stuck
  | Some true => modify (set_db (mkDb (ptrs d) (max_ptrs d) (Some false)))
  end.

Definition handle_db_set_mutex (d : handle_db) (m : bool) : handle_db :=
  mkDb (ptrs d) (max_ptrs d) (Some m).

Definition handle_db_destroy : M st unit :=
  s <- get ;;
  match db s with
  | None => ret tt
  | Some d =>
      d1 <- mutex_lock d ;;
      mutex_unlock (mkDb [] 0 (mu d1))
  end.

(** [for (n = 0; n < db->max_ptrs; n++) if (!db->ptrs[n])]: the first free
    index from [n] on, [k] cells left. *)
Fixpoint find_empty (ps : list Z) (n k : nat) : option (option nat) :=
  match k with
  | O => Some None
  | S k =>
      match ps !! n with
      | None => None
      | Some p => if p =? 0 then Some (Some n) else find_empty ps (S n) k
      end
  end.

Definition handle_get (ptr : Z) : M st Z :=
  s <- get ;;
  match db s with
  | None => ret (-1)
  | Some d =>
      if ptr =? 0 then ret (-1)
      else
        d1 <- mutex_lock d ;;
        match find_empty (ptrs d1) 0 (max_ptrs d1) with
        | None => stuck
        | Some (Some n) =>
            mutex_unlock (mkDb (<[n := ptr]> (ptrs d1)) (max_ptrs d1) (mu d1)) ;;;
            ret (s32 (Z.of_nat n))
        | Some None =>
            let n := max_ptrs d1 in
            let new_max_ptrs :=
              if (max_ptrs d1 =? 0)%nat then HANDLE_DB_INITIAL_MAX_PTRS
              else (max_ptrs d1 * 2)%nat in
            ok <- realloc_answer ;;
            if ok : bool then
              let ps := ptrs d1 ++ replicate (new_max_ptrs - max_ptrs d1) 0 in
              mutex_unlock (mkDb (<[n := ptr]> ps) new_max_ptrs (mu d1)) ;;;
              ret (s32 (Z.of_nat n))
            else
              mutex_unlock d1 ;;; ret (-1)
        end
  end.

Definition handle_put (handle : Z) : M st Z :=
  s <- get ;;
  match db s with
  | None => ret 0
  | Some d =>
      if handle <? 0 then ret 0
      else
        d1 <- mutex_lock d ;;
        if Z.of_nat (max_ptrs d1) <=? handle then
          mutex_unlock d1 ;;; ret 0
        else
          match ptrs d1 !! Z.to_nat handle with
          | None => stuck
          | Some p =>
              mutex_unlock (mkDb (<[Z.to_nat handle := 0]> (ptrs d1)) (max_ptrs d1) (mu d1)) ;;;
              ret p
          end
  end.

Definition handle_lookup (handle : Z) : M st Z :=
  s <- get ;;
  match db s with
  | None => ret 0
  | Some d =>
      if handle <? 0 then ret 0
      else
        d1 <- mutex_lock d ;;
        if Z.of_nat (max_ptrs d1) <=? handle then
          mutex_unlock d1 ;;; ret 0
        else
          match ptrs d1 !! Z.to_nat handle with
          | None => stuck
          | Some p => mutex_unlock d1 ;;; ret p
          end
  end.

(** The loop of [handle_foreach_put]; the calls of [cb] are returned as the
    list of their (handle, pointer) arguments, in order. *)
Fixpoint foreach_loop (ps : list Z) (n k : nat) : option (list (Z * Z) * list Z) :=
  match k with
  | O => Some ([], ps)
  | S k =>
      match ps !! n with
      | None => None
      | Some p =>
          if p =? 0 then foreach_loop ps (S n) k
          else
            match foreach_loop (<[n := 0]> ps) (S n) k with
            | None => None
            | Some (calls, ps') => Some ((s32 (Z.of_nat n), p) :: calls, ps')
            end
      end
  end.

Definition handle_foreach_put (cb : bool) : M st (list (Z * Z)) :=
  s <- get ;;
  match db s with
  | None => ret []
  | Some d =>
      if negb cb then ret []
      else
        d1 <- mutex_lock d ;;
        match foreach_loop (ptrs d1) 0 (max_ptrs d1) with
        | None => stuck
        | Some (calls, ps) =>
            mutex_unlock (mkDb ps (max_ptrs d1) (mu d1)) ;;; ret calls
        end
  end.

(** ** Invariant and abstraction *)

(** The array has [max_ptrs] cells, handles fit an [int] and the mutex is free. *)
Record wf (d : handle_db) : Prop := {
  wf_len : length (ptrs d) = max_ptrs d;
  wf_int : Z.of_nat (max_ptrs d) <= 2 ^ 30;
  wf_mu : mu d <> Some true
}.

(** The finite map a database stands for. *)
Definition handles (d : handle_db) : gmap nat Z :=
  map_imap (fun _ p => if p =? 0 then None else Some p) (map_seq 0 (ptrs d)).

Lemma handles_lookup d n :
  handles d !! n = (ptrs d !! n) ≫= (fun p => if p =? 0 then None else Some p).
Proof.
  unfold handles. rewrite map_lookup_imap, lookup_map_seq_0. done.
Qed.

Definition mutex_held (m : option bool) : option bool :=
  match m with Some _ => Some true | None => None end.
Definition mutex_freed (m : option bool) : option bool :=
  match m with Some _ => Some false | None => None end.

(** Running an operation body between lock and unlock. *)
Lemma lock_unlock {A} d (k : handle_db -> M st A) s :
  wf d -> 
  bind (mutex_lock d) k s = k (mkDb (ptrs d) (max_ptrs d) (mutex_held (mu d))) s.
Proof.
  intros W. unfold bind, mutex_lock. destruct d as [ps n [[]|]]; cbn; try done.
  by destruct (wf_mu _ W).
Qed.

Lemma db_unlock_run ps n d s :
  mutex_unlock (mkDb ps n (mutex_held (mu d))) s =
    Some (tt, mkSt (Some (mkDb ps n (mutex_freed (mu d)))) (reallocs s)).
Proof. unfold mutex_unlock. by destruct (mu d) as [[]|]. Qed.

Lemma mu_free d : wf d -> (mutex_freed (mu d)) = mu d.
Proof. intros W. destruct d as [ps n [[]|]]; try done. by destruct (wf_mu _ W). Qed.

(** [find_empty] returns the least free index, and [None] on a full array. *)
Lemma find_empty_some ps n k i :
  find_empty ps n k = Some (Some i) ->
  (n <= i < n + k)%nat /\ ps !! i = Some 0 /\
  forall j, (n <= j < i)%nat -> exists p, ps !! j = Some p /\ p <> 0.
Proof.
  revert n. induction k as [|k IH]; intros n H; cbn in H; [done|].
  destruct (ps !! n) as [p|] eqn:Hp; [|done].
  destruct (Z.eqb_spec p 0) as [->|Hne].
  - simplify_eq. split_and!; [lia..|done|intros; lia].
  - destruct (IH _ H) as (H1 & H2 & H3). split_and!; [lia..|done|].
    intros j Hj. destruct (decide (j = n)) as [->|]; [by exists p|]. apply H3. lia.
Qed.

Lemma find_empty_none ps n k :
  find_empty ps n k = Some None ->
  forall j, (n <= j < n + k)%nat -> exists p, ps !! j = Some p /\ p <> 0.
Proof.
  revert n. induction k as [|k IH]; intros n H j Hj; cbn in H; [lia|].
  destruct (ps !! n) as [p|] eqn:Hp; [|done].
  destruct (Z.eqb_spec p 0) as [->|Hne]; [done|].
  destruct (decide (j = n)) as [->|]; [by exists p|]. apply (IH _ H). lia.
Qed.

Lemma find_empty_total ps n k :
  (n + k <= length ps)%nat -> find_empty ps n k <> None.
Proof.
  revert n. induction k as [|k IH]; intros n H; cbn; [done|].
  destruct (lookup_lt_is_Some_2 ps n) as [p ->]; [lia|].
  destruct (p =? 0); [done|]. apply IH. lia.
Qed.

Lemma handles_insert d n p ps mx m :
  p <> 0 -> ps = <[n := p]> (ptrs d) -> (n < length (ptrs d))%nat ->
  handles (mkDb ps mx m) = <[n := p]> (handles d).
Proof.
  intros Hp -> Hn. apply map_eq. intros j. rewrite lookup_insert, !handles_lookup. cbn.
  rewrite list_lookup_insert. destruct (decide (n = j)) as [->|Hne].
  - rewrite decide_True by done. cbn. by rewrite (proj2 (Z.eqb_neq p 0)).
  - rewrite decide_False by (intros [? ?]; done || lia). done.
Qed.

(** Cells added by a growth hold no handle. *)
Lemma handles_grow d k mx m :
  handles (mkDb (ptrs d ++ replicate k 0) mx m) = handles d.
Proof.
  apply map_eq. intros j. rewrite !handles_lookup. cbn.
  destruct (decide (j < length (ptrs d))%nat) as [H|H].
  - by rewrite lookup_app_l.
  - rewrite lookup_app_r by lia. rewrite (lookup_ge_None_2 (ptrs d)) by lia. cbn.
    destruct (replicate k 0 !! (j - length (ptrs d))%nat) as [q|] eqn:E; [|done].
    apply lookup_replicate in E as [-> _]. done.
Qed.

Lemma handles_delete d h mx m :
  handles (mkDb (<[h := 0]> (ptrs d)) mx m) = delete h (handles d).
Proof.
  apply map_eq. intros j. rewrite lookup_delete, !handles_lookup. cbn.
  rewrite list_lookup_insert. destruct (decide (h = j)) as [->|Hne].
  - destruct (decide (j < length (ptrs d))%nat) as [Hl|Hl].
    + by rewrite decide_True.
    + rewrite decide_False by (intros [? ?]; done || lia). by rewrite lookup_ge_None_2 by lia.
  - rewrite decide_False by (intros [? ?]; done || lia). done.
Qed.

(** A cell that [find_empty] passed over holds a live handle. *)
Lemma handles_live d j p : ptrs d !! j = Some p -> p <> 0 -> is_Some (handles d !! j).
Proof.
  intros H Hp. rewrite handles_lookup, H. cbn. rewrite (proj2 (Z.eqb_neq p 0)) by done. eauto.
Qed.

(** ** The contract: a finite map of handles *)

Inductive op := Get (p : Z) | Put (h : Z) | Look (h : Z).

Definition run_op (o : op) : M st Z :=
  match o with Get p => handle_get p | Put h => handle_put h | Look h => handle_lookup h end.

(** Pointer stored under an [int] handle; NULL when there is none. *)
Definition deref (m : gmap nat Z) (h : Z) : Z :=
  if h <? 0 then 0 else default 0 (m !! Z.to_nat h).

(** [spec ok o m r m']: with [ok] the answer of a needed [realloc], operation
    [o] on the map [m] may return [r] and leave [m']. *)
Inductive spec (ok : bool) : op -> gmap nat Z -> Z -> gmap nat Z -> Prop :=
  | spec_get p n m :
      p <> 0 -> m !! n = None -> (forall j, (j < n)%nat -> is_Some (m !! j)) ->
      spec ok (Get p) m (Z.of_nat n) (<[n := p]> m)
  | spec_get_null m : spec ok (Get 0) m (-1) m
  | spec_get_oom p m : ok = false -> spec ok (Get p) m (-1) m
  | spec_put h m : spec ok (Put h) m (deref m h) (if h <? 0 then m else delete (Z.to_nat h) m)
  | spec_look h m : spec ok (Look h) m (deref m h) m.

(** The two outcomes of [handle_get] for a pointer that is not NULL. *)
Lemma spec_get_cases ok p m r m' : spec ok (Get p) m r m' -> p <> 0 ->
  r = -1 /\ m' = m \/ exists n, r = Z.of_nat n /\ m !! n = None /\ m' = <[n := p]> m.
Proof. intros H Hp. inversion H; subst; [right|done|left]; eauto. Qed.

Definition realloc_ok (s : st) : bool := match reallocs s with [] => true | b :: _ => b end.

Lemma get_refines d p rs :
  wf d -> exists r s' d', handle_get p (mkSt (Some d) rs) = Some (r, s') /\ db s' = Some d' /\
    spec (realloc_ok (mkSt (Some d) rs)) (Get p) (handles d) r (handles d') /\
    length (ptrs d') = max_ptrs d' /\ mu d' = mu d /\
    (max_ptrs d <= max_ptrs d' <= Nat.max 4 (2 * max_ptrs d))%nat.
Proof.
  intros W. pose proof (wf_len _ W) as Hlen. pose proof (wf_int _ W) as Hint.
  rewrite <- Hlen in *. remember (handle_get p _) as r eqn:Er.
  unfold handle_get, bind at 1, Prelude.get in Er. cbn [db] in Er.
  destruct (Z.eqb_spec p 0) as [->|Hp].
  { eexists _, _, d. split; [exact Er|]. split_and!; try done; [apply spec_get_null|lia..]. }
  rewrite lock_unlock in Er by done. cbn [ptrs max_ptrs mu] in Er. rewrite <- Hlen in Er.
  pose proof (find_empty_total (ptrs d) 0 (length (ptrs d))) as Ht.
  destruct (find_empty (ptrs d) 0 (length (ptrs d))) as [[n|]|] eqn:Ef.
  - apply find_empty_some in Ef as (Hn & Hz & Hlow).
    unfold bind, ret in Er. rewrite db_unlock_run, mu_free, s32_small in Er
      by (done || unfold in_int, INT_MAX, INT_MIN; lia).
    eexists _, _, _. split; [exact Er|]. split; [done|]. cbn.
    rewrite (handles_insert d n p) by (done || lia). rewrite length_insert.
    split_and!; try done; [|lia..]. constructor; [done| |].
    + by rewrite handles_lookup, Hz.
    + intros j Hj. destruct (Hlow j) as (q & Hq & Hq0); [lia|]. by eapply handles_live.
  - pose proof (find_empty_none _ _ _ Ef) as Hfull.
    unfold bind at 1, realloc_answer in Er. cbn [reallocs] in Er.
    set (new := if (length (ptrs d) =? 0)%nat then _ else _) in Er.
    assert (Hnew : (length (ptrs d) < new <= Nat.max 4 (2 * length (ptrs d)))%nat).
    { unfold new, HANDLE_DB_INITIAL_MAX_PTRS. destruct (Nat.eqb_spec (length (ptrs d)) 0); lia. }
    destruct rs as [|[] rs]; cbn in Er.
    3: { unfold bind, ret in Er. rewrite db_unlock_run, mu_free in Er by done.
         eexists _, _, _. split; [exact Er|]. split; [done|]. cbn. destruct d; cbn in *.
         split_and!; try done; [|lia..]. by constructor. }
    all: unfold bind, ret in Er; rewrite db_unlock_run, mu_free, s32_small in Er
      by (done || unfold in_int, INT_MAX, INT_MIN; lia);
      eexists _, _, _; (split; [exact Er|]); (split; [done|]); cbn;
      rewrite (handles_insert
                 (mkDb (ptrs d ++ replicate (new - length (ptrs d)) 0) new (mu d))
                 (length (ptrs d)) p) by (done || cbn; rewrite length_app, length_replicate; lia);
      rewrite handles_grow, length_insert, length_app, length_replicate;
      (split_and!; try done; [|lia..]); constructor;
      [done|by rewrite handles_lookup, lookup_ge_None_2 by lia|];
      intros j Hj; destruct (Hfull j) as (q & Hq & Hq0); [lia|]; by eapply handles_live.
  - destruct Ht; [lia|done].
Qed.

(** The cell of an in-range handle, seen through the abstraction. *)
Lemma deref_cell d h p :
  ptrs d !! Z.to_nat h = Some p -> 0 <= h -> deref (handles d) h = p.
Proof.
  intros H Hh. unfold deref. rewrite (proj2 (Z.ltb_ge _ _)) by done.
  rewrite handles_lookup, H. cbn. by destruct (Z.eqb_spec p 0) as [->|].
Qed.

Lemma deref_out d h : Z.of_nat (length (ptrs d)) <= h -> handles d !! Z.to_nat h = None.
Proof. intros H. rewrite handles_lookup, lookup_ge_None_2 by lia. done. Qed.

Lemma put_refines d h rs :
  wf d -> exists d', handle_put h (mkSt (Some d) rs) =
      Some (deref (handles d) h, mkSt (Some d') rs) /\
    handles d' = (if h <? 0 then handles d else delete (Z.to_nat h) (handles d)) /\
    wf d' /\ max_ptrs d' = max_ptrs d /\ mu d' = mu d.
Proof.
  intros W. pose proof (wf_len _ W) as Hlen.
  unfold handle_put, bind at 1, Prelude.get. cbn [db].
  destruct (Z.ltb_spec h 0) as [Hneg|Hpos].
  { exists d. unfold deref. rewrite (proj2 (Z.ltb_lt _ _)) by done. done. }
  rewrite lock_unlock by done. cbn [ptrs max_ptrs mu].
  destruct (Z.leb_spec (Z.of_nat (max_ptrs d)) h) as [Hout|Hin].
  - exists d. unfold bind, ret. rewrite db_unlock_run, mu_free by done.
    unfold deref. rewrite (proj2 (Z.ltb_ge _ _)), deref_out by lia.
    split; [by destruct d|]. split; [|done]. by rewrite delete_id by (apply deref_out; lia).
  - destruct (lookup_lt_is_Some_2 (ptrs d) (Z.to_nat h)) as [p Hp]; [lia|].
    rewrite Hp. unfold bind, ret. rewrite db_unlock_run, mu_free by done.
    rewrite (deref_cell _ _ _ Hp) by done. eexists. split; [done|].
    rewrite handles_delete. split_and!; try done.
    destruct W. split; cbn; [by rewrite length_insert|done|done].
Qed.

Lemma lookup_refines d h rs :
  wf d -> handle_lookup h (mkSt (Some d) rs) =
            Some (deref (handles d) h, mkSt (Some d) rs).
Proof.
  intros W. pose proof (wf_len _ W) as Hlen.
  unfold handle_lookup, bind at 1, Prelude.get. cbn [db].
  destruct (Z.ltb_spec h 0) as [Hneg|Hpos].
  { unfold deref. rewrite (proj2 (Z.ltb_lt _ _)) by done. done. }
  rewrite lock_unlock by done. cbn [ptrs max_ptrs mu].
  destruct (Z.leb_spec (Z.of_nat (max_ptrs d)) h) as [Hout|Hin].
  - unfold bind, ret. rewrite db_unlock_run, mu_free by done.
    unfold deref. rewrite (proj2 (Z.ltb_ge _ _)), deref_out by lia. by destruct d.
  - destruct (lookup_lt_is_Some_2 (ptrs d) (Z.to_nat h)) as [p Hp]; [lia|].
    rewrite Hp. unfold bind, ret. rewrite db_unlock_run, mu_free by done.
    rewrite (deref_cell _ _ _ Hp) by done. by destruct d.
Qed.

(** Every operation of the handle database returns and refines the
    finite map of live handles: [handle_get] returns the least free handle
    and stores the pointer under it (or -1, changing nothing, for a NULL
    pointer or a failed [realloc]), [handle_put] returns the pointer of a
    handle and removes it, [handle_lookup] returns it and changes nothing;
    the array stays consistent with its capacity, which never shrinks and at
    most doubles (or starts at 4), and the mutex is released. *)
Theorem handle_ops_refine_map d o rs :
  wf d ->
  exists r s' d', run_op o (mkSt (Some d) rs) = Some (r, s') /\ db s' = Some d' /\
    spec (realloc_ok (mkSt (Some d) rs)) o (handles d) r (handles d') /\
    length (ptrs d') = max_ptrs d' /\ mu d' = mu d /\
    (max_ptrs d <= max_ptrs d' <= Nat.max 4 (2 * max_ptrs d))%nat.
Proof.
  intros W. destruct o as [p|h|h]; cbn [run_op].
  - by apply get_refines.
  - destruct (put_refines d h rs W) as (d' & H & Hh & W' & Hm & Hu).
    eexists _, _, d'. split; [exact H|]. rewrite Hh.
    split_and!; [done|constructor|apply W'|done|lia..].
  - rewrite (lookup_refines d h rs W). eexists _, _, d. split; [done|].
    split_and!; [done|constructor|apply W|done|lia..].
Qed.

Definition db3 : handle_db := mkDb [7; 0; 9; 4] 4 (Some false).

Lemma handle_ops_refine_map_witness :
  exists r s' d', run_op (Get 5) (mkSt (Some db3) []) = Some (r, s') /\ db s' = Some d' /\
    spec true (Get 5) (handles db3) r (handles d') /\
    length (ptrs d') = max_ptrs d' /\ mu d' = Some false /\ (4 <= max_ptrs d' <= 8)%nat.
Proof.
  apply (handle_ops_refine_map db3 (Get 5) []). split; cbn; [reflexivity|lia|discriminate].
Defined.

(** ** [handle_foreach_put] *)

(** The live (handle, pointer) pairs in ascending order, from index [n] on. *)
Fixpoint live_from (n : nat) (ps : list Z) : list (Z * Z) :=
  match ps with
  | [] => []
  | p :: ps => if p =? 0 then live_from (S n) ps else (Z.of_nat n, p) :: live_from (S n) ps
  end.

Lemma foreach_loop_run pre ps :
  Z.of_nat (length pre + length ps) <= 2 ^ 30 -> 
  foreach_loop (pre ++ ps) (length pre) (length ps) =
    Some (live_from (length pre) ps, pre ++ replicate (length ps) 0).
Proof.
  revert pre. induction ps as [|p ps IH]; intros pre Hb; cbn; [done|].
  cbn in Hb. rewrite lookup_app_r, Nat.sub_diag by lia. cbn.
  assert (Hs : length (pre ++ [0]) = S (length pre)) by (rewrite length_app; cbn; lia).
  specialize (IH (pre ++ [0])). rewrite Hs, <- !app_assoc in IH. cbn in IH.
  destruct (Z.eqb_spec p 0) as [->|Hp].
  - apply IH. lia.
  - replace (<[length pre := 0]> (pre ++ p :: ps)) with (pre ++ 0 :: ps).
    2: { rewrite insert_app_r_alt by lia. by rewrite Nat.sub_diag. }
    rewrite IH by lia. rewrite s32_small; [done|]. unfold in_int, INT_MAX, INT_MIN. lia.
Qed.

(** [handle_foreach_put] calls the callback exactly once for every live
    handle, in ascending order, with the pointer stored there, and leaves a
    database without handles whose capacity is unchanged. *)
Lemma foreach_put_visits_and_clears d rs :
  wf d ->
  exists d', handle_foreach_put true (mkSt (Some d) rs) =
      Some (live_from 0 (ptrs d), mkSt (Some d') rs) /\
    handles d' = ∅ /\ wf d' /\ max_ptrs d' = max_ptrs d.
Proof.
  intros W. destruct W as [Hlen Hint Hmu] eqn:EW. clear EW.
  unfold handle_foreach_put, bind at 1, Prelude.get. cbn [db negb].
  rewrite lock_unlock by done. cbn [ptrs max_ptrs mu]. rewrite <- Hlen.
  pose proof (foreach_loop_run [] (ptrs d)) as Hl. cbn in Hl. rewrite Hl by lia.
  unfold bind, ret. rewrite db_unlock_run, mu_free by done. eexists. split; [done|]. split.
  - apply map_eq. intros n. rewrite handles_lookup, lookup_empty. cbn.
    destruct (replicate _ 0 !! n) as [q|] eqn:E; [|done]. by apply lookup_replicate in E as [-> _].
  - split; [|done]. split; cbn; [by rewrite length_replicate|lia|done].
Qed.

End HandleDb.
