(* ===== verification/IspMath.v ===== *)
(** * Integer routines of the ISP library
      (camera/3_4/.../libisp_new/isp_math/isp_math_util.c)

    Arrays are lists; an access outside an array is [None].  [int] results
    wrap to 32 bits ([s32]), C division truncates ([Z.quot]).  The routines on
    [float] and [double] of the same file are not modelled. *)

From stdpp Require Import base tactics option list numbers.
From Stdlib Require Import ZArith Lia.
From S2P Require Import Prelude.

Local Open Scope Z_scope.

Module IspMath.

(** ** Mirroring of 8x8 tables *)

Definition N : nat := 8.

(** [temp = arr[p]; arr[p] = arr[q]; arr[q] = temp] *)
Definition swap_cells (arr : list Z) (p q : Z) : option (list Z) :=
  temp ← aget arr p;
  v ← aget arr q;
  arr1 ← aset arr p v;
  aset arr1 q temp.

(** [for (i = 0; i < N; i++) for (j = 0; j < N / 2; j++)]: the pairs (i, j). *)
Definition mirror_steps : list (Z * Z) :=
  flat_map (fun i => map (fun j => (Z.of_nat i, Z.of_nat j)) (seq 0 (N / 2))) (seq 0 N).

Definition HorizontalMirror (arr : list Z) : option (list Z) :=
  foldl (fun acc '(i, j) =>
           arr ← acc; swap_cells arr (i * 8 + j) (i * 8 + 8 - j - 1))
        (Some arr) mirror_steps.

Definition VerticalMirror (arr : list Z) : option (list Z) :=
  foldl (fun acc '(i, j) =>
           arr ← acc; swap_cells arr (j * 8 + i) ((8 - j - 1) * 8 + i))
        (Some arr) mirror_steps.

(** ** Interpolation, convolution, sums *)

Definition ValueInterp (curr x_low x_high y_low y_high : Z) : Z :=
  if s32 (x_high - x_low) =? 0 then y_low
  else s32 (y_low +
         s32 (Z.quot (s32 (s32 (y_high - y_low) * s32 (curr - x_low)))
                     (s32 (x_high - x_low)))).

(** The inner loop of [Conv] for index [i]: [n] iterations from [j] on. *)
Fixpoint conv_inner (n : nat) (u v w : list Z) (i j : Z) : option (list Z) :=
  match n with
  | O => Some w
  | S n =>
      uj ← aget u j;
      vij ← aget v (i - j);
      wi ← aget w i;
      w1 ← aset w i (s32 (wi + Z.shiftr (s64 (uj * vij)) 10));
      conv_inner n u v w1 i (j + 1)
  end.

Fixpoint conv_outer (cnt : nat) (u v w : list Z) (m n i : Z) : option (list Z) :=
  match cnt with
  | O => Some w
  | S cnt =>
      let lo := Z.max 0 (i + 1 - n) in
      let hi := Z.min i (m - 1) in
      w1 ← conv_inner (Z.to_nat (hi + 1 - lo)) u v w i lo;
      conv_outer cnt u v w1 m n (i + 1)
  end.

Definition Conv (u v w : list Z) (m n : Z) : option (list Z) :=
  conv_outer (Z.to_nat (m + n - 1)) u v w m n 0.

Fixpoint sum_loop (cnt : nat) (array : list Z) (i sum : Z) : option Z :=
  match cnt with
  | O => Some sum
  | S cnt => x ← aget array i; sum_loop cnt array (i + 1) (s32 (sum + x))
  end.

Definition ArraySum (array : list Z) (len : Z) : option Z :=
  sum_loop (Z.to_nat len) array 0 0.

(** ** Index of an extreme element

    The four searches share one loop: [better] is the comparison with the
    best value so far, [skip] the excluded index (-1: none is skipped). *)
Fixpoint find_loop (better : Z -> Z -> bool) (skip : Z) (cnt : nat)
    (array : list Z) (i tmp ind : Z) : option Z :=
  match cnt with
  | O => Some ind
  | S cnt =>
      x ← aget array i;
      if better x tmp && negb (i =? skip)
      then find_loop better skip cnt array (i + 1) x i
      else find_loop better skip cnt array (i + 1) tmp ind
  end.

Definition ArrayFindMinIndex (array : list Z) (num : Z) : option Z :=
  tmp ← aget array 0;
  find_loop Z.ltb (-1) (Z.to_nat num) array 0 tmp 0.

Definition ArrayFindMaxIndex (array : list Z) (num : Z) : option Z :=
  tmp ← aget array 0;
  find_loop Z.gtb (-1) (Z.to_nat num) array 0 tmp 0.

Definition ArrayFindSecondMinIndex (array : list Z) (num exclude : Z) : option Z :=
  tmp0 ← aget array 0;
  tmp ← (if exclude =? 0 then aget array (num - 1) else Some tmp0);
  let ind := if exclude =? 0 then num - 1 else 0 in
  find_loop Z.ltb exclude (Z.to_nat num) array 0 tmp ind.

Definition ArrayFindSecondMaxIndex (array : list Z) (num exclude : Z) : option Z :=
  tmp0 ← aget array 0;
  tmp ← (if exclude =? 0 then aget array (num - 1) else Some tmp0);
  let ind := if exclude =? 0 then num - 1 else 0 in
  find_loop Z.gtb exclude (Z.to_nat num) array 0 tmp ind.

(** ** Shell sort of an array and its companion, descending *)

(** [while (j >= 0 && x > a[j]) { a[j+k] = a[j]; sub[j+k] = sub[j]; j -= k; }];
    [j] falls by [k >= 1] each time, so [j / k + 1] units of fuel are enough. *)
Fixpoint shift_loop (fuel : nat) (a sub : list Z) (x k j : Z)
  : option (list Z * list Z * Z) :=
  if j <? 0 then Some (a, sub, j)
  else
    aj ← aget a j;
    if negb (aj <? x) then Some (a, sub, j)
    else match fuel with
    | O => None
    | S fuel =>
        sj ← aget sub j;
        a1 ← aset a (j + k) aj;
        sub1 ← aset sub (j + k) sj;
        shift_loop fuel a1 sub1 x k (j - k)
    end.

(** [for (i = k; i < n; i++)], [cnt] iterations from [i] on. *)
Fixpoint gap_pass (cnt : nat) (a sub : list Z) (k i : Z) : option (list Z * list Z) :=
  match cnt with
  | O => Some (a, sub)
  | S cnt =>
      x ← aget a i;
      y ← aget sub i;
      '(a1, sub1, j) ← shift_loop (Z.to_nat i) a sub x k (i - k);
      a2 ← aset a1 (j + k) x;
      sub2 ← aset sub1 (j + k) y;
      gap_pass cnt a2 sub2 k (i + 1)
  end.

(** [while (k >= 1) { ...; k /= 2; }] *)
Fixpoint shell_loop (fuel : nat) (a sub : list Z) (n k : Z) : option (list Z * list Z) :=
  if negb (1 <=? k) then Some (a, sub)
  else match fuel with
  | O => None
  | S fuel =>
      '(a1, sub1) ← gap_pass (Z.to_nat (n - k)) a sub k k;
      shell_loop fuel a1 sub1 n (Z.quot k 2)
  end.

Definition ShellSort (a sub : list Z) (n : Z) : option (list Z * list Z) :=
  shell_loop (Z.to_nat n) a sub n (Z.quot n 2).

(** ** Square root and rounding *)

(** [while ((i--) && (ABS(tmp) > 1)) { tmp = x; x = (x+a/x+1)/2; }]: [x] is
    converted to unsigned in the mixed expression, [i] bounds the loop. *)
Fixpoint sqrt_loop (i : nat) (a x tmp : Z) : option Z :=
  match i with
  | O => Some x
  | S i =>
      if 1 <? Z.abs tmp then
        if x =? 0 then None
        else sqrt_loop i a (s32 (u32 (u32 x + a / u32 x + 1) / 2)) x
      else Some x
  end.

(** [SqrtM(unsigned int a)] *)
Definition SqrtM (a : Z) : option Z :=
  if a =? 0 then Some 0
  else
    let x := s32 (u32 (a + 1) / 2) in
    sqrt_loop 100 a x (s32 (0 - x)).

Definition RoundQ4 (x : Z) : Z :=
  if Z.land x 15 <? 8 then Z.shiftr x 4 else s32 (Z.shiftr x 4 + 1).

(** ** Shell sort: permutation, order and termination *)

Lemma aget_ok {A} (l : list A) i :
  0 <= i < Z.of_nat (length l) -> exists x, aget l i = Some x /\ l !! Z.to_nat i = Some x.
Proof.
  intros H. unfold aget. rewrite (proj2 (Z.leb_le _ _)) by lia.
  destruct (lookup_lt_is_Some_2 l (Z.to_nat i)) as [x Hx]; [lia|]. by exists x.
Qed.

Lemma aset_ok {A} (l : list A) i (v : A) :
  0 <= i < Z.of_nat (length l) -> aset l i v = Some (<[Z.to_nat i := v]> l).
Proof.
  intros H. unfold aset. by rewrite (proj2 (Z.leb_le _ _)), (proj2 (Z.ltb_lt _ _)) by lia.
Qed.

Lemma insert_zip (a sub : list Z) n x y :
  length a = length sub -> <[n := (x, y)]> (zip a sub) = zip (<[n := x]> a) (<[n := y]> sub).
Proof. intros H. apply (insert_zip_with pair). Qed.

(** The shift loop returns, and writing (x, y) into the hole it leaves gives
    a permutation of writing it into the hole it started from. *)
Lemma shift_loop_perm fuel a sub x k j :
  1 <= k -> length a = length sub -> - k <= j -> j + k < Z.of_nat (length a) ->
  j < Z.of_nat fuel ->
  exists a' sub' j', shift_loop fuel a sub x k j = Some (a', sub', j') /\
    - k <= j' <= j /\ length a' = length a /\ length sub' = length a /\
    forall y, <[Z.to_nat (j' + k) := (x, y)]> (zip a' sub') ≡ₚ
              <[Z.to_nat (j + k) := (x, y)]> (zip a sub).
Proof.
  revert a sub j. induction fuel as [|fuel IH]; intros a sub j Hk Hlen Hj1 Hj2 Hf; cbn.
  - rewrite (proj2 (Z.ltb_lt _ _)) by lia. exists a, sub, j. by split_and!; try lia.
  - destruct (Z.ltb_spec j 0) as [Hneg|Hpos].
    { exists a, sub, j. by split_and!; try lia. }
    destruct (aget_ok a j) as (aj & Ha & Haj); [lia|]. rewrite Ha. cbn.
    destruct (aj <? x); cbn.
    2: { exists a, sub, j. by split_and!; try lia. }
    destruct (aget_ok sub j) as (sj & Hs & Hsj); [lia|]. rewrite Hs. cbn.
    rewrite !aset_ok by lia. cbn.
    destruct (IH (<[Z.to_nat (j + k) := aj]> a) (<[Z.to_nat (j + k) := sj]> sub) (j - k))
      as (a' & sub' & j' & Hr & Hj' & Hla & Hls & Hp);
      [done|by rewrite !length_insert|lia|rewrite length_insert; lia|lia|].
    rewrite length_insert in *. exists a', sub', j'. split_and!; [done|lia..|done|done|].
    intros y. rewrite Hp. replace (j - k + k) with j by lia.
    rewrite <- insert_zip by done. apply insert_swap_perm; [lia| |].
    + rewrite length_zip_with, <- Hlen, Nat.min_id. lia.
    + apply lookup_zip_with_Some; eauto.
Qed.

Lemma gap_pass_perm cnt a sub k i :
  1 <= k -> k <= i -> length a = length sub -> i + Z.of_nat cnt <= Z.of_nat (length a) ->
  exists a' sub', gap_pass cnt a sub k i = Some (a', sub') /\
    length a' = length a /\ length sub' = length a /\ zip a' sub' ≡ₚ zip a sub.
Proof.
  revert a sub i. induction cnt as [|cnt IH]; intros a sub i Hk Hki Hlen Hi; cbn.
  { by exists a, sub. }
  destruct (aget_ok a i) as (x & Hx & Hxl); [lia|].
  destruct (aget_ok sub i) as (y & Hy & Hyl); [lia|]. rewrite Hx, Hy. cbn.
  destruct (shift_loop_perm (Z.to_nat i) a sub x k (i - k))
    as (a1 & sub1 & j & Hr & Hj & Hl1 & Hl2 & Hp); [lia..|]. rewrite Hr. cbn.
  rewrite !aset_ok by lia. cbn.
  destruct (IH (<[Z.to_nat (j + k) := x]> a1) (<[Z.to_nat (j + k) := y]> sub1) (i + 1))
    as (a' & sub' & Hr' & Hl1' & Hl2' & Hp'); rewrite ?length_insert; [lia..|].
  rewrite length_insert in *. exists a', sub'. split_and!; [done|lia|lia|].
  rewrite Hp', <- insert_zip by lia. rewrite Hp. replace (i - k + k) with i by lia.
  rewrite list_insert_id; [done|]. apply lookup_zip_with_Some; eauto.
Qed.

(** [a] is in descending order on the indices below [n]. *)
Definition desc_upto (a : list Z) (n : nat) : Prop :=
  forall p q x y, (p <= q < n)%nat -> a !! p = Some x -> a !! q = Some y -> y <= x.

(** The insertion loop (gap 1) with its hole at [h]: the cells up to [i] other
    than the hole are in order and those above the hole are below [x]. *)
Definition hole_inv (a : list Z) (h i : nat) (x : Z) : Prop :=
  (forall p q u v, (p <= q <= i)%nat -> p <> h -> q <> h ->
     a !! p = Some u -> a !! q = Some v -> v <= u) /\
  (forall q v, (h < q <= i)%nat -> a !! q = Some v -> v < x).

Lemma hole_fill a h i x :
  hole_inv a h i x -> (h <= i < length a)%nat ->
  (forall u, (0 < h)%nat -> a !! (h - 1)%nat = Some u -> x <= u) ->
  desc_upto (<[h := x]> a) (S i).
Proof.
  intros [H1 H2] Hh Hstop p q u v Hpq Hp Hq.
  destruct (decide (p = h)) as [->|Hph]; destruct (decide (q = h)) as [->|Hqh].
  - simplify_eq. lia.
  - rewrite list_lookup_insert_eq in Hp by lia. rewrite list_lookup_insert_ne in Hq by done.
    simplify_eq. assert (v < u) by (eapply H2; [|done]; lia). lia.
  - rewrite list_lookup_insert_eq in Hq by lia. rewrite list_lookup_insert_ne in Hp by done.
    simplify_eq. destruct (lookup_lt_is_Some_2 a (h - 1)) as [w Hw]; [lia|].
    assert (v <= w) by (apply Hstop; [lia|done]).
    assert (w <= u) by (eapply (H1 p (h - 1)%nat); [lia..|done|done]). lia.
  - rewrite !list_lookup_insert_ne in * by done. by eapply (H1 p q); [lia|..].
Qed.

Lemma hole_shift a h i x aj :
  hole_inv a (S h) i x -> (S h <= i < length a)%nat -> a !! h = Some aj -> aj < x ->
  hole_inv (<[S h := aj]> a) h i x.
Proof.
  intros [H1 H2] Hh Haj Hlt. split.
  - intros p q u v Hpq Hp Hq Hu Hv.
    destruct (decide (p = S h)) as [->|Hp']; destruct (decide (q = S h)) as [->|Hq'].
    + simplify_eq. lia.
    + rewrite list_lookup_insert_eq in Hu by lia. rewrite list_lookup_insert_ne in Hv by done.
      simplify_eq. by eapply (H1 h q); [lia..|done|done].
    + rewrite list_lookup_insert_eq in Hv by lia. rewrite list_lookup_insert_ne in Hu by done.
      simplify_eq. by eapply (H1 p h); [lia..|done|done].
    + rewrite !list_lookup_insert_ne in * by done. by eapply (H1 p q); [lia|..].
  - intros q v Hq Hv. destruct (decide (q = S h)) as [->|Hq'].
    + rewrite list_lookup_insert_eq in Hv by lia. congruence.
    + rewrite list_lookup_insert_ne in Hv by done. eapply H2; [|done]. lia.
Qed.

Lemma shift_loop_desc fuel a sub x j i a' sub' j' :
  hole_inv a (Z.to_nat (j + 1)) i x -> -1 <= j -> j + 1 <= Z.of_nat i ->
  (i < length a)%nat -> length a = length sub ->
  shift_loop fuel a sub x 1 j = Some (a', sub', j') ->
  desc_upto (<[Z.to_nat (j' + 1) := x]> a') (S i).
Proof.
  revert a sub j. induction fuel as [|fuel IH]; intros a sub j HI Hj Hji Hi Hl Hr; cbn in Hr.
  all: destruct (Z.ltb_spec j 0) as [Hneg|Hpos].
  1, 3: simplify_eq; apply hole_fill; [done|lia|intros; lia].
  all: destruct (aget_ok a j) as (aj & Ha & Haj); [lia|]; rewrite Ha in Hr; cbn in Hr;
    destruct (Z.ltb_spec aj x) as [Hlt|Hge]; cbn in Hr.
  2, 4: simplify_eq; apply hole_fill; [done|lia|]; intros u Hu0 Hu;
    replace (Z.to_nat (j' + 1) - 1)%nat with (Z.to_nat j') in Hu by lia; simplify_eq; lia.
  - done.
  - destruct (aget_ok sub j) as (sj & Hs & _); [lia|]. rewrite Hs in Hr. cbn in Hr.
    rewrite !aset_ok in Hr by lia. cbn in Hr.
    eapply (IH _ _ (j - 1)); [| | | | |exact Hr]; rewrite ?length_insert; try lia.
    replace (Z.to_nat (j - 1 + 1)) with (Z.to_nat j) by lia.
    replace (Z.to_nat (j + 1)) with (S (Z.to_nat j)) in * by lia.
    apply hole_shift; [done|lia|done|done].
Qed.

Lemma gap1_desc cnt a sub i a' sub' :
  desc_upto a (Z.to_nat i) -> 1 <= i -> length a = length sub ->
  i + Z.of_nat cnt <= Z.of_nat (length a) ->
  gap_pass cnt a sub 1 i = Some (a', sub') ->
  desc_upto a' (Z.to_nat i + cnt).
Proof.
  revert a sub i. induction cnt as [|cnt IH]; intros a sub i Hd Hi Hl Hc Hr; cbn in Hr.
  { simplify_eq. by rewrite Nat.add_0_r. }
  destruct (aget_ok a i) as (x & Hx & Hxl); [lia|].
  destruct (aget_ok sub i) as (y & Hy & Hyl); [lia|]. rewrite Hx, Hy in Hr. cbn in Hr.
  destruct (shift_loop_perm (Z.to_nat i) a sub x 1 (i - 1))
    as (a1 & sub1 & j & Hs & Hj & Hl1 & Hl2 & _); [lia..|]. rewrite Hs in Hr. cbn in Hr.
  rewrite !aset_ok in Hr by lia. cbn in Hr.
  replace (Z.to_nat i + S cnt)%nat with (Z.to_nat (i + 1) + cnt)%nat by lia.
  eapply (IH _ _ (i + 1)); [| | | |exact Hr]; rewrite ?length_insert; try lia.
  replace (Z.to_nat (i + 1)) with (S (Z.to_nat i)) by lia.
  apply (shift_loop_desc (Z.to_nat i) a sub x (i - 1) (Z.to_nat i) a1 sub1 j);
    [|lia|lia|lia|done|exact Hs].
  replace (i - 1 + 1) with i by lia. split.
  - intros p q u v Hpq Hp Hq Hu Hv. eapply (Hd p q); [lia|done|done].
  - intros q v Hq. lia.
Qed.

(** The gap loop from [k] down: always a permutation, and sorted as soon as
    the pass with gap 1 has run. *)
Lemma shell_loop_spec fuel a sub n k :
  0 <= k <= Z.of_nat fuel -> k < n -> length a = length sub -> Z.of_nat (length a) = n ->
  exists a' sub', shell_loop fuel a sub n k = Some (a', sub') /\
    length a' = length a /\ length sub' = length a /\ zip a' sub' ≡ₚ zip a sub /\
    (1 <= k -> desc_upto a' (length a)).
Proof.
  revert a sub k. induction fuel as [|fuel IH]; intros a sub k Hk Hkn Hl Hn; cbn.
  { rewrite (proj2 (Z.leb_gt 1 k)) by lia. cbn. exists a, sub. split_and!; done || lia. }
  destruct (Z.leb_spec 1 k) as [H1|H0]; cbn.
  2: { exists a, sub. split_and!; done || lia. }
  destruct (gap_pass_perm (Z.to_nat (n - k)) a sub k k)
    as (a1 & sub1 & Hr & Hl1 & Hl2 & Hp); [lia..|]. rewrite Hr. cbn.
  assert (Hq : 0 <= Z.quot k 2 < k) by (rewrite Z.quot_div_nonneg by lia; 
    split; [apply Z.div_pos; lia|apply Z.div_lt; lia]).
  destruct (IH a1 sub1 (Z.quot k 2)) as (a' & sub' & Hr' & Hl1' & Hl2' & Hp' & Hd'); [lia..|].
  exists a', sub'. split_and!; [done|lia|lia|by rewrite Hp'|]. intros _.
  destruct (decide (k = 1)) as [->|Hk1].
  - assert (shell_loop fuel a1 sub1 n (Z.quot 1 2) = Some (a1, sub1)) as E.
    { destruct fuel; reflexivity. }
    rewrite E in Hr'. injection Hr' as <- <-.
    replace (length a) with (Z.to_nat 1 + Z.to_nat (n - 1))%nat by lia.
    eapply gap1_desc; [|lia|exact Hl|lia|exact Hr].
    intros p q x y Hpq Hx Hy. assert (p = q) by lia. simplify_eq. lia.
  - rewrite <- Hl1. apply Hd'. rewrite Z.quot_div_nonneg by lia.
    apply Z.div_le_lower_bound; lia.
Qed.

(** C40: [ShellSort] returns for every pair of arrays of [n] elements, sorts
    [a] in descending order and moves the entries of [sub] along: the result
    is a permutation of the (value, companion) pairs. *)
Theorem ShellSort_sorts a sub n :
  length a = length sub -> Z.of_nat (length a) = n ->
  exists a' sub', ShellSort a sub n = Some (a', sub') /\
    length a' = length a /\ length sub' = length a /\
    zip a' sub' ≡ₚ zip a sub /\ desc_upto a' (length a).
Proof.
  intros Hl Hn. unfold ShellSort.
  assert (Hq : 0 <= Z.quot n 2 /\ Z.quot n 2 <= n / 2) by
    (rewrite Z.quot_div_nonneg by lia; split; [apply Z.div_pos; lia|lia]).
  pose proof (Z.mul_div_le n 2). destruct (decide (n <= 1)) as [Hsmall|Hbig].
  - assert (Hz : Z.quot n 2 = 0) by (assert (n = 0 \/ n = 1) as [->| ->] by lia; done).
    rewrite Hz. exists a, sub. split; [by destruct (Z.to_nat n)|]. split_and!; try done.
    intros p q x y Hpq Hx Hy. assert (p = q) by lia. simplify_eq. lia.
  - destruct (shell_loop_spec (Z.to_nat n) a sub n (Z.quot n 2))
      as (a' & sub' & Hr & Hl1 & Hl2 & Hp & Hd); [lia..|].
    exists a', sub'. split_and!; try done. apply Hd.
    rewrite Z.quot_div_nonneg by lia. apply Z.div_le_lower_bound; lia.
Qed.

Lemma ShellSort_sorts_witness :
  exists a' sub', ShellSort [3; 9; 1; 9; 5] [0; 1; 2; 3; 4] 5 = Some (a', sub') /\
    length a' = 5%nat /\ length sub' = 5%nat /\
    zip a' sub' ≡ₚ [(3, 0); (9, 1); (1, 2); (9, 3); (5, 4)] /\ desc_upto a' 5.
Proof. apply (ShellSort_sorts [3; 9; 1; 9; 5] [0; 1; 2; 3; 4] 5); reflexivity. Defined.

(** ** Square root *)

(** One Newton step with rounding never falls below the integer square root
    [s] and halves the distance to [s + 1]. *)
Lemma newton_step a s x :
  s * s <= a < (s + 1) * (s + 1) -> 1 <= s <= x ->
  let x' := (x + a / x + 1) / 2 in
  s <= x' /\ (x = s -> x' <= s + 1) /\ (s + 1 <= x -> x' <= (x + s + 1) / 2).
Proof.
  intros Ha Hx x'. subst x'. pose proof (Z.div_mod a x ltac:(lia)) as Hdm.
  pose proof (Z.mod_pos_bound a x ltac:(lia)) as Hm. set (q := a / x) in *.
  assert (Hq : 0 <= q) by (apply Z.div_pos; lia).
  split; [|split].
  - apply Z.div_le_lower_bound; [lia|].
    assert (s * s < x * (q + 1)) by nia.
    assert (~ x + (q + 1) <= 2 * s).
    { intros Hc. pose proof (Z.square_nonneg (x - (q + 1))).
      assert ((x + (q + 1)) * (x + (q + 1)) <= 2 * s * (2 * s)) by
        (apply Z.mul_le_mono_nonneg; lia). lia. }
    lia.
  - intros ->. apply Z.lt_succ_r, Z.div_lt_upper_bound; [lia|].
    assert (q <= s + 2) by nia. lia.
  - intros Hs. apply Z.div_le_mono; [lia|].
    assert (q <= s) by (apply Z.lt_succ_r, Z.div_lt_upper_bound; nia). lia.
Qed.

(** The machine step is the mathematical one: nothing wraps. *)
Lemma newton_machine a s x :
  s * s <= a < (s + 1) * (s + 1) -> a < 2 ^ 32 - 1 -> 1 <= s <= x -> x < 2 ^ 31 ->
  s32 (u32 (u32 x + a / u32 x + 1) / 2) = (x + a / x + 1) / 2 /\
  (x + a / x + 1) / 2 < 2 ^ 31.
Proof.
  intros Ha Hb Hx Hx31. rewrite (u32_small x) by lia.
  assert (Hq : 0 <= a / x) by (apply Z.div_pos; lia).
  assert (Hs : x + a / x + 1 < 2 ^ 32).
  { destruct (decide (x = 1)) as [->|].
    - assert (s = 1) as -> by lia. rewrite Z.div_1_r. lia.
    - assert (a / x < 2 ^ 31) by (apply Z.div_lt_upper_bound; lia). lia. }
  rewrite u32_small by lia.
  assert ((x + a / x + 1) / 2 < 2 ^ 31) by (apply Z.div_lt_upper_bound; lia).
  split; [|done]. apply s32_small. unfold in_int, INT_MIN, INT_MAX.
  assert (0 <= (x + a / x + 1) / 2) by (apply Z.div_pos; lia). lia.
Qed.

Lemma sqrt_loop_converges i d a s x tmp :
  s * s <= a < (s + 1) * (s + 1) -> a < 2 ^ 32 - 1 -> 1 <= s <= x -> x < 2 ^ 31 ->
  x - (s + 1) < 2 ^ Z.of_nat d -> (d <= i)%nat -> (Z.abs tmp <= 1 -> x <= s + 1) ->
  exists r, sqrt_loop i a x tmp = Some r /\ s <= r <= s + 1.
Proof.
  intros Ha Hb. revert d x tmp. induction i as [|i IH]; intros d x tmp Hx Hx31 Hd Hi Ht; cbn.
  { assert (d = 0%nat) as -> by lia. cbn in Hd. exists x. split; [done|lia]. }
  destruct (Z.ltb_spec 1 (Z.abs tmp)) as [Hgo|Hstop].
  2: { exists x. split; [done|]. specialize (Ht Hstop). lia. }
  rewrite (proj2 (Z.eqb_neq x 0)) by lia.
  destruct (newton_machine a s x Ha Hb Hx Hx31) as [-> Hx'31].
  destruct (newton_step a s x Ha Hx) as (Hlo & Heq & Hup). cbv zeta in *.
  set (x' := (x + a / x + 1) / 2) in *.
  assert (Hnear : x' <= s + 1 \/ (s + 1 <= x /\ 2 * (x' - (s + 1)) <= x - (s + 1))).
  { destruct (decide (x = s)) as [->|]; [left; auto|right]. split; [lia|].
    assert (x' <= (x + s + 1) / 2) as Hc by (apply Hup; lia).
    pose proof (Z.mul_div_le (x + s + 1) 2). lia. }
  apply (IH (pred d)); [lia|lia| |lia|].
  - destruct d as [|d]; cbn [pred] in *.
    + destruct Hnear as [?|[? ?]]; cbn in *; lia.
    + rewrite Nat2Z.inj_succ, Z.pow_succ_r in Hd by lia.
      pose proof (Z.pow_pos_nonneg 2 (Z.of_nat d)). destruct Hnear as [?|[? ?]]; lia.
  - intros H1. assert (x = s) by lia. auto.
Qed.

(** For every [unsigned] argument below 0xffffffff, [SqrtM] returns the
    integer square root or one more, whatever the argument: the iteration
    bound of 100 is always enough and no intermediate value overflows. *)
Theorem SqrtM_correct a :
  0 <= a < 2 ^ 32 - 1 ->
  exists r, SqrtM a = Some r /\ Z.sqrt a <= r <= Z.sqrt a + 1.
Proof.
  intros Ha. unfold SqrtM. destruct (Z.eqb_spec a 0) as [->|Hne].
  { exists 0. split; [done|]. cbn. lia. }
  pose proof (Z.sqrt_spec a ltac:(lia)) as Hs. cbn in Hs.
  set (s := Z.sqrt a) in *.
  assert (Hs1 : 1 <= s) by (apply Z.sqrt_le_square; lia).
  pose proof (Z.mul_div_le (a + 1) 2 ltac:(lia)).
  pose proof (Z.mul_succ_div_gt (a + 1) 2 ltac:(lia)).
  rewrite (u32_small (a + 1)) by lia.
  assert (Hi : in_int ((a + 1) / 2)) by (unfold in_int, INT_MAX, INT_MIN; lia).
  rewrite (s32_small ((a + 1) / 2)) by done.
  assert (Hi2 : in_int (0 - (a + 1) / 2)) by (unfold in_int, INT_MAX, INT_MIN in *; lia).
  rewrite s32_small by done.
  apply (sqrt_loop_converges 100 31 a s); unfold in_int, INT_MAX, INT_MIN in *; nia.
Qed.

Lemma SqrtM_correct_witness : exists r, SqrtM 1000003 = Some r /\ 1000 <= r <= 1001.
Proof. apply (SqrtM_correct 1000003). lia. Defined.

(** at 0xffffffff the addition [a+1] wraps to 0 and [SqrtM] returns 0
    instead of 65535 or 65536. *)
Theorem SqrtM_max_wraps : SqrtM (2 ^ 32 - 1) = Some 0 /\ Z.sqrt (2 ^ 32 - 1) = 65535.
Proof. split; reflexivity. Qed.

(** [RoundQ4] rounds a Q4 fixed-point number to the nearest integer,
    halves upwards, for every [int] (negative ones included). *)
Theorem RoundQ4_nearest x : in_int x -> RoundQ4 x = (x + 8) / 16.
Proof.
  intros Hx. unfold RoundQ4. change 15 with (Z.ones 4).
  rewrite Z.land_ones, Z.shiftr_div_pow2 by lia. change (2 ^ 4) with 16.
  pose proof (Z.div_mod x 16 ltac:(lia)) as Hd. pose proof (Z.mod_pos_bound x 16 ltac:(lia)).
  unfold in_int, INT_MIN, INT_MAX in Hx.
  destruct (Z.ltb_spec (x mod 16) 8).
  - apply (Z.div_unique _ _ _ (x mod 16 + 8)); lia.
  - rewrite s32_small by (unfold in_int, INT_MIN, INT_MAX; lia).
    apply (Z.div_unique _ _ _ (x mod 16 - 8)); lia.
Qed.

Lemma RoundQ4_nearest_witness : RoundQ4 (-25) = (-25 + 8) / 16.
Proof. apply (RoundQ4_nearest (-25)). unfold in_int, INT_MIN, INT_MAX. lia. Defined.

(** ** Mirrors *)

(** An 8x8 table from its cells, and the cell of a table. *)
Definition grid (f : nat -> nat -> Z) : list Z :=
  flat_map (fun i => map (f i) (seq 0 8)) (seq 0 8).
Definition cell (arr : list Z) (i j : nat) : Z := nth (8 * i + j) arr 0.

Ltac explode_64 arr H :=
  do 64 (destruct arr as [|? arr]; [discriminate H|]); destruct arr; [|discriminate H].

(** on a 64-element table, [HorizontalMirror] reverses every row and
    [VerticalMirror] every column, and each of them undoes itself. *)
Theorem mirrors_correct arr :
  length arr = 64%nat ->
  HorizontalMirror arr = Some (grid (fun i j => cell arr i (7 - j))) /\
  VerticalMirror arr = Some (grid (fun i j => cell arr (7 - i) j)) /\
  HorizontalMirror arr ≫= HorizontalMirror = Some arr /\
  VerticalMirror arr ≫= VerticalMirror = Some arr.
Proof. intros H. explode_64 arr H. split_and!; vm_compute; reflexivity. Qed.

Lemma mirrors_correct_witness :
  let arr := map Z.of_nat (seq 0 64) in
  HorizontalMirror arr = Some (grid (fun i j => cell arr i (7 - j))) /\
  VerticalMirror arr = Some (grid (fun i j => cell arr (7 - i) j)) /\
  HorizontalMirror arr ≫= HorizontalMirror = Some arr /\
  VerticalMirror arr ≫= VerticalMirror = Some arr.
Proof. apply (mirrors_correct (map Z.of_nat (seq 0 64))). reflexivity. Defined.

(** ** Extreme elements *)

Section Best.
Context (better : Z -> Z -> bool) (skip : Z) (array : list Z).
Hypothesis better_trans : forall x y z,
  better x y = true -> better z y = false -> better z x = false.
Hypothesis better_irrefl : forall x, better x x = false.

(** No admissible element below index [n] beats [t]. *)
Definition unbeaten (t n : Z) : Prop :=
  forall k v, 0 <= k < n -> k <> skip -> aget array k = Some v -> better v t = false.

Lemma find_loop_best cnt i tmp ind :
  aget array ind = Some tmp -> ind <> skip -> 0 <= i ->
  i + Z.of_nat cnt <= Z.of_nat (length array) -> unbeaten tmp i ->
  exists r t, find_loop better skip cnt array i tmp ind = Some r /\
    r <> skip /\ aget array r = Some t /\ unbeaten t (i + Z.of_nat cnt).
Proof using better_trans better_irrefl.
  revert i tmp ind. induction cnt as [|cnt IH]; intros i tmp ind Ht Hs Hi Hl Hu; cbn.
  { exists ind, tmp. by rewrite Z.add_0_r. }
  destruct (aget_ok array i) as (x & Hx & _); [lia|]. rewrite Hx. cbn.
  replace (i + Z.of_nat (S cnt)) with (i + 1 + Z.of_nat cnt) by lia.
  destruct (better x tmp) eqn:Hb; cbn; [destruct (Z.eqb_spec i skip) as [He|Hne]; cbn|];
    apply IH; try done; try lia; intros k v Hk Hks Hv;
    (destruct (decide (k = i)) as [Hki|Hki];
     [assert (v = x) as -> by (rewrite Hki in Hv; congruence)|
      assert (better v tmp = false) by (apply (Hu k); [lia|done|done])]);
    first [done | congruence | by eapply better_trans].
Qed.
End Best.

(** [r] is an admissible index of [array] and [ok v t] for every other
    admissible value [v] against the value [t] found there. *)
Definition extreme (ok : Z -> Z -> Prop) (array : list Z) (skip : Z) (r : option Z) : Prop :=
  exists i t, r = Some i /\ i <> skip /\ aget array i = Some t /\
    forall k v, 0 <= k < Z.of_nat (length array) -> k <> skip -> aget array k = Some v -> ok v t.

(** On a non-empty array [ArrayFindMinIndex] / [ArrayFindMaxIndex] return
    an index in range holding a least / greatest element, and with two or
    more elements the [Second] variants return an index different from
    [exclude] that is least / greatest among the others. *)
Theorem extreme_indices_correct array num exclude :
  Z.of_nat (length array) = num -> 1 <= num ->
  extreme (fun v t => t <= v) array (-1) (ArrayFindMinIndex array num) /\
  extreme (fun v t => v <= t) array (-1) (ArrayFindMaxIndex array num) /\
  (2 <= num ->
   extreme (fun v t => t <= v) array exclude (ArrayFindSecondMinIndex array num exclude) /\
   extreme (fun v t => v <= t) array exclude (ArrayFindSecondMaxIndex array num exclude)).
Proof.
  intros Hn H1.
  assert (Hmin : forall skip tmp ind, aget array ind = Some tmp -> ind <> skip ->
    extreme (fun v t => t <= v) array skip (find_loop Z.ltb skip (Z.to_nat num) array 0 tmp ind)).
  { intros skip tmp ind Ht Hs.
    destruct (find_loop_best Z.ltb skip array ltac:(lia) ltac:(lia) (Z.to_nat num) 0 tmp ind)
      as (r & t & Hr & Hrs & Hrt & Hu); [done|done|lia|lia|intros k; lia|].
    exists r, t. split_and!; [done..|]. intros k v Hk Hks Hv.
    specialize (Hu k v ltac:(lia) Hks Hv). lia. }
  assert (Hmax : forall skip tmp ind, aget array ind = Some tmp -> ind <> skip ->
    extreme (fun v t => v <= t) array skip (find_loop Z.gtb skip (Z.to_nat num) array 0 tmp ind)).
  { intros skip tmp ind Ht Hs.
    destruct (find_loop_best Z.gtb skip array ltac:(lia) ltac:(lia) (Z.to_nat num) 0 tmp ind)
      as (r & t & Hr & Hrs & Hrt & Hu); [done|done|lia|lia|intros k; lia|].
    exists r, t. split_and!; [done..|]. intros k v Hk Hks Hv.
    specialize (Hu k v ltac:(lia) Hks Hv). lia. }
  destruct (aget_ok array 0) as (x0 & H0 & _); [lia|].
  destruct (aget_ok array (num - 1)) as (xl & Hl & _); [lia|].
  unfold ArrayFindMinIndex, ArrayFindMaxIndex, ArrayFindSecondMinIndex, ArrayFindSecondMaxIndex.
  rewrite H0. cbn. split_and!; [apply Hmin; done || lia|apply Hmax; done || lia|].
  intros H2. destruct (Z.eqb_spec exclude 0) as [->|Hne]; cbn; rewrite ?Hl; cbn;
    (split; [apply Hmin|apply Hmax]); done || lia.
Qed.

Lemma extreme_indices_correct_witness :
  extreme (fun v t => t <= v) [4; 2; 8; 2] (-1) (ArrayFindMinIndex [4; 2; 8; 2] 4) /\
  extreme (fun v t => v <= t) [4; 2; 8; 2] (-1) (ArrayFindMaxIndex [4; 2; 8; 2] 4) /\
  (2 <= 4 ->
   extreme (fun v t => t <= v) [4; 2; 8; 2] 1 (ArrayFindSecondMinIndex [4; 2; 8; 2] 4 1) /\
   extreme (fun v t => v <= t) [4; 2; 8; 2] 1 (ArrayFindSecondMaxIndex [4; 2; 8; 2] 4 1)).
Proof. apply (extreme_indices_correct [4; 2; 8; 2] 4 1); [reflexivity|lia]. Defined.

(** Between two distinct nodes and as long as the three differences and
    the product fit an [int], [ValueInterp] stays between the two ordinates
    and takes them at the nodes. *)
Theorem ValueInterp_between curr x_low x_high y_low y_high :
  x_low <= curr <= x_high -> x_low < x_high -> in_int y_low -> in_int y_high ->
  in_int (x_high - x_low) -> in_int (y_high - y_low) ->
  in_int ((y_high - y_low) * (curr - x_low)) ->
  Z.min y_low y_high <= ValueInterp curr x_low x_high y_low y_high <= Z.max y_low y_high /\
  ValueInterp x_low x_low x_high y_low y_high = y_low /\
  (in_int ((y_high - y_low) * (x_high - x_low)) ->
   ValueInterp x_high x_low x_high y_low y_high = y_high).
Proof.
  intros Hc Hx Hy1 Hy2 Hdx Hdy Hp.
  assert (Hcx : in_int (curr - x_low)) by (unfold in_int in *; unfold INT_MIN, INT_MAX in *; lia).
  assert (Hq : forall c, 0 <= c <= x_high - x_low ->
    Z.min 0 (y_high - y_low) <= Z.quot ((y_high - y_low) * c) (x_high - x_low)
      <= Z.max 0 (y_high - y_low)).
  { intros c Hcr. destruct (Z.le_ge_cases 0 (y_high - y_low)) as [Hs|Hs].
    - rewrite Z.quot_div_nonneg by nia. split; [rewrite Z.min_l by lia; apply Z.div_pos; nia|].
      rewrite Z.max_r by lia. apply Z.div_le_upper_bound; nia.
    - replace ((y_high - y_low) * c) with (- ((y_low - y_high) * c)) by lia.
      rewrite Z.quot_opp_l, Z.quot_div_nonneg by nia. rewrite Z.max_l, Z.min_r by lia.
      assert (0 <= (y_low - y_high) * c / (x_high - x_low)) by (apply Z.div_pos; nia).
      assert ((y_low - y_high) * c / (x_high - x_low) <= y_low - y_high)
        by (apply Z.div_le_upper_bound; nia). lia. }
  assert (Hrun : forall c, 0 <= c <= x_high - x_low -> in_int ((y_high - y_low) * c) ->
    ValueInterp (x_low + c) x_low x_high y_low y_high =
      y_low + Z.quot ((y_high - y_low) * c) (x_high - x_low)).
  { intros c Hcr Hpc. unfold ValueInterp. specialize (Hq c Hcr).
    replace (x_low + c - x_low) with c by lia.
    unfold in_int, INT_MIN, INT_MAX in *. 
    rewrite (s32_small (x_high - x_low)) by (unfold in_int, INT_MIN, INT_MAX; lia).
    rewrite (proj2 (Z.eqb_neq _ 0)) by lia.
    rewrite (s32_small (y_high - y_low)), (s32_small c) by (unfold in_int, INT_MIN, INT_MAX; lia).
    rewrite (s32_small (_ * c)) by (unfold in_int, INT_MIN, INT_MAX; lia).
    rewrite (s32_small (Z.quot _ _)) by (unfold in_int, INT_MIN, INT_MAX; lia).
    rewrite s32_small; unfold in_int, INT_MIN, INT_MAX; lia. }
  split; [|split].
  - replace curr with (x_low + (curr - x_low)) by lia. rewrite Hrun by (done || lia).
    specialize (Hq (curr - x_low) ltac:(lia)). lia.
  - replace x_low with (x_low + 0) at 1 by lia. rewrite Hrun
      by (rewrite ?Z.mul_0_r; unfold in_int, INT_MIN, INT_MAX; lia).
    rewrite Z.mul_0_r, Z.quot_0_l by lia. lia.
  - intros Hp2. replace x_high with (x_low + (x_high - x_low)) at 1 by lia.
    rewrite Hrun by (done || lia). rewrite Z.quot_mul by lia. lia.
Qed.

Lemma ValueInterp_between_witness :
  Z.min 100 40 <= ValueInterp 7 5 9 100 40 <= Z.max 100 40 /\
  ValueInterp 5 5 9 100 40 = 100 /\
  (in_int ((40 - 100) * (9 - 5)) -> ValueInterp 9 5 9 100 40 = 40).
Proof.
  apply (ValueInterp_between 7 5 9 100 40); unfold in_int, INT_MIN, INT_MAX; lia.
Defined.

(** ** Convolution *)

Section ConvSpec.
Context (u v : list Z).
Hypothesis u_int : Forall in_int u.
Hypothesis v_int : Forall in_int v.

(** The contribution of [u[j] * v[i-j]] in Q10, 0 when an index is outside. *)
Definition conv_term (i j : Z) : Z :=
  match aget u j, aget v (i - j) with
  | Some a, Some b => (a * b) / 2 ^ 10
  | _, _ => 0
  end.

(** The convolution coefficient: all the [j] of [u] are summed. *)
Definition conv_coeff (i : Z) : Z :=
  zsum (map (fun j => conv_term i (Z.of_nat j)) (seq 0 (length u))).

Lemma prod_s64 a b : in_int a -> in_int b -> s64 (a * b) = a * b.
Proof.
  unfold in_int, INT_MIN, INT_MAX, s64. intros Ha Hb.
  rewrite Z.mod_small; [lia|]. nia.
Qed.

Lemma conv_term_some i j a b :
  aget u j = Some a -> aget v (i - j) = Some b -> 
  Z.shiftr (s64 (a * b)) 10 = conv_term i j.
Proof using u_int v_int.
  intros Ha Hb. unfold conv_term. rewrite Ha, Hb.
  rewrite prod_s64, Z.shiftr_div_pow2 
    by first [exact (aget_Forall _ _ _ _ u_int Ha) | exact (aget_Forall _ _ _ _ v_int Hb) | lia].
  done.
Qed.

(** The inner loop adds [n] terms from [j] on to [w[i]]. *)
Lemma conv_inner_run n w i j w0 :
  0 <= i < Z.of_nat (length w) -> 0 <= j -> j + Z.of_nat n <= Z.of_nat (length u) ->
  (1 <= n)%nat /\ j + Z.of_nat n - 1 <= i < j + Z.of_nat (length v) \/ n = O ->
  aget w i = Some w0 -> in_int w0 ->
  conv_inner n u v w i j =
    Some (<[Z.to_nat i :=
      s32 (w0 + zsum (map (fun k => conv_term i (Z.of_nat k)) (seq (Z.to_nat j) n)))]> w).
Proof using u_int v_int.
  revert w j w0. induction n as [|n IH]; intros w j w0 Hi Hj Hu Hr Hw Hint; cbn.
  - rewrite Z.add_0_r, s32_small, list_insert_id; [done| |done].
    unfold aget in Hw. by rewrite (proj2 (Z.leb_le _ _)) in Hw by lia.
  - destruct Hr as [[_ Hr]|?]; [|done].
    destruct (aget_ok u j) as (a & Ha & _); [lia|].
    destruct (aget_ok v (i - j)) as (b & Hb & _); [lia|].
    rewrite Ha, Hb, Hw. cbn. rewrite (conv_term_some i j a b Ha Hb).
    rewrite aset_ok by lia. cbn.
    rewrite (IH _ (j + 1) (s32 (w0 + conv_term i j))); rewrite ?length_insert; try lia.
    + f_equal. rewrite list_insert_insert_eq, s32_add_l.
      replace (Z.to_nat (j + 1)) with (S (Z.to_nat j)) by lia.
      rewrite Z2Nat.id by lia. rewrite Z.add_assoc. done.
    + unfold aget. rewrite (proj2 (Z.leb_le _ _)) by lia. apply list_lookup_insert_eq. lia.
    + apply s32_range.
Qed.

(** The terms the loop bounds leave out are all 0. *)
Lemma conv_range i n :
  0 <= i -> Z.of_nat (length v) = n -> 1 <= n ->
  i < Z.of_nat (length u) + n - 1 -> (1 <= length u)%nat ->
  let lo := Z.max 0 (i + 1 - n) in
  let hi := Z.min i (Z.of_nat (length u) - 1) in
  zsum (map (fun k => conv_term i (Z.of_nat k)) (seq (Z.to_nat lo) (Z.to_nat (hi + 1 - lo))))
    = conv_coeff i.
Proof.
  intros Hi Hn Hn1 Hb Hu1 lo hi. unfold conv_coeff.
  assert (Hlo : 0 <= lo <= hi) by lia. assert (Hhi : hi < Z.of_nat (length u)) by lia.
  replace (length u) with
    (Z.to_nat lo + (Z.to_nat (hi + 1 - lo) + (length u - Z.to_nat (hi + 1))))%nat by lia.
  rewrite !seq_app, !map_app, !zsum_app. rewrite Nat.add_0_l.
  assert (Hzero : forall l, Forall (fun k => conv_term i (Z.of_nat k) = 0) l ->
    zsum (map (fun k => conv_term i (Z.of_nat k)) l) = 0).
  { induction 1 as [|k l Hk _ IH]; [done|]. unfold zsum in *. cbn. lia. }
  rewrite (Hzero (seq 0 _)), (Hzero (seq (_ + _) _)); [lia|..].
  - apply Forall_seq. intros k Hk. unfold conv_term.
    destruct (aget u (Z.of_nat k)); [|done]. unfold aget.
    destruct (Z.leb_spec 0 (i - Z.of_nat k)); [|done]. lia.
  - apply Forall_seq. intros k Hk. unfold conv_term.
    destruct (aget u (Z.of_nat k)); [|done]. unfold aget.
    destruct (Z.leb_spec 0 (i - Z.of_nat k)); [|done].
    by rewrite lookup_ge_None_2 by lia.
Qed.

Lemma conv_outer_run cnt w i m n :
  Z.of_nat (length u) = m -> Z.of_nat (length v) = n -> 1 <= m -> 1 <= n ->
  0 <= i -> i + Z.of_nat cnt = m + n - 1 -> Z.of_nat (length w) = m + n - 1 ->
  Forall in_int w ->
  exists w', conv_outer cnt u v w m n i = Some w' /\ length w' = length w /\
    forall k x, w !! k = Some x ->
      w' !! k = Some (if Z.of_nat k <? i then x else s32 (x + conv_coeff (Z.of_nat k))).
Proof using u_int v_int.
  intros Hm Hn Hm1 Hn1. revert w i. induction cnt as [|cnt IH]; intros w i Hi Hc Hw Hint; cbn.
  { exists w. split_and!; [done|done|]. intros k x Hx. pose proof (lookup_lt_Some _ _ _ Hx).
    by rewrite (proj2 (Z.ltb_lt _ _)) by lia. }
  destruct (aget_ok w i) as (w0 & Hw0 & Hw0'); [lia|].
  assert (Hi0 : in_int w0) by (by eapply (Forall_lookup_1 in_int w)).
  rewrite (conv_inner_run _ w i _ w0); [|lia..|done|done]. cbn.
  subst m. rewrite (conv_range i n); [|lia..].
  destruct (IH (<[Z.to_nat i := s32 (w0 + conv_coeff i)]> w) (i + 1))
    as (w' & Hr & Hl & Hk); rewrite ?length_insert; [lia..| |].
  { apply Forall_insert; [done|apply s32_range]. }
  rewrite length_insert in Hl. exists w'. split_and!; [done|done|].
  intros k x Hx. destruct (decide (k = Z.to_nat i)) as [->|Hne].
  - rewrite (Hk (Z.to_nat i) (s32 (w0 + conv_coeff i))) by (apply list_lookup_insert_eq; lia).
    rewrite Z2Nat.id by lia.
    rewrite (proj2 (Z.ltb_lt i (i + 1))), (proj2 (Z.ltb_ge i i)) by lia. by simplify_eq.
  - rewrite (Hk k x) by (by rewrite list_lookup_insert_ne).
    destruct (Z.ltb_spec (Z.of_nat k) (i + 1)), (Z.ltb_spec (Z.of_nat k) i); done || lia.
Qed.
End ConvSpec.

(** [Conv] adds to every cell of [w] the full convolution coefficient of
    [u] and [v] (each product scaled down by 2^10), modulo the 32-bit
    conversion: the index bounds of its inner loop drop only products with an
    index outside one of the arrays, and no access leaves an array. *)
Theorem Conv_is_convolution u v w m n :
  Forall in_int u -> Forall in_int v -> Forall in_int w ->
  Z.of_nat (length u) = m -> Z.of_nat (length v) = n -> Z.of_nat (length w) = m + n - 1 ->
  1 <= m -> 1 <= n ->
  Conv u v w m n = Some (imap (fun i x => s32 (x + conv_coeff u v (Z.of_nat i))) w).
Proof.
  intros Hu Hv Hw Hm Hn Hl Hm1 Hn1.
  destruct (conv_outer_run u v Hu Hv (Z.to_nat (m + n - 1)) w 0 m n)
    as (w' & Hr & Hlen & Hk); [done|done|lia..|done|].
  unfold Conv. rewrite Hr. f_equal. apply list_eq. intros k.
  rewrite list_lookup_imap. destruct (w !! k) as [x|] eqn:Hx; cbn.
  - rewrite (Hk k x Hx). by rewrite (proj2 (Z.ltb_ge _ _)) by lia.
  - apply lookup_ge_None in Hx. apply lookup_ge_None. lia.
Qed.

Lemma Conv_is_convolution_witness :
  Conv [1024; 2048] [10; 20; 30] [0; 0; 0; 5] 2 3 =
    Some (imap (fun i x => s32 (x + conv_coeff [1024; 2048] [10; 20; 30] (Z.of_nat i)))
            [0; 0; 0; 5]).
Proof.
  apply (Conv_is_convolution [1024; 2048] [10; 20; 30] [0; 0; 0; 5] 2 3);
    try reflexivity; try lia; repeat constructor; discriminate.
Defined.

End IspMath.
