(* ===== verification/Sha2.v ===== *)
(** * SHA-256 and HMAC-SHA-256 of tee-supplicant
      (optee_client/tee-supplicant/src/sha2.c, hmac_sha2.c)

    Bytes and words are [Z]; additions wrap with [u32] where the C type is
    [unsigned int].  [Fips] is an independent definition after FIPS 180-4 and
    RFC 2104 against which the streaming code is proved. *)

From stdpp Require Import base tactics option list list_numbers numbers.
From Stdlib Require Import ZArith Lia.
From S2P Require Import Prelude.

Local Open Scope Z_scope.

Module Sha2.

(** ** sha2.c: macros and tables *)

Definition SHFR (x n : Z) : Z := Z.shiftr x n.
Definition ROTR (x n : Z) : Z := u32 (Z.lor (Z.shiftr x n) (Z.shiftl x (32 - n))).
Definition CH (x y z : Z) : Z := Z.lxor (Z.land x y) (Z.land (u32 (Z.lnot x)) z).
Definition MAJ (x y z : Z) : Z := Z.lxor (Z.lxor (Z.land x y) (Z.land x z)) (Z.land y z).

Definition SHA256_F1 (x : Z) : Z := Z.lxor (Z.lxor (ROTR x 2) (ROTR x 13)) (ROTR x 22).
Definition SHA256_F2 (x : Z) : Z := Z.lxor (Z.lxor (ROTR x 6) (ROTR x 11)) (ROTR x 25).
Definition SHA256_F3 (x : Z) : Z := Z.lxor (Z.lxor (ROTR x 7) (ROTR x 18)) (SHFR x 3).
Definition SHA256_F4 (x : Z) : Z := Z.lxor (Z.lxor (ROTR x 17) (ROTR x 19)) (SHFR x 10).

Definition UNPACK32 (x : Z) : list Z := be32 x.

(** [PACK32(&sub_block[j << 2], &w[j])] *)
Definition PACK32 (str : list Z) (off : nat) : Z :=
  Z.lor (Z.lor (Z.lor (str !!! (off + 3)%nat) (Z.shiftl (str !!! (off + 2)%nat) 8))
               (Z.shiftl (str !!! (off + 1)%nat) 16))
        (Z.shiftl (str !!! off) 24).

Definition SHA256_BLOCK_SIZE : Z := 64.
Definition SHA256_DIGEST_SIZE : Z := 32.

Definition sha256_h0 : list Z :=
  [0x6a09e667; 0xbb67ae85; 0x3c6ef372; 0xa54ff53a;
   0x510e527f; 0x9b05688c; 0x1f83d9ab; 0x5be0cd19].

(** Row by row, as the source prints it. *)
Definition sha256_k : list Z :=
  [0x428a2f98; 0x71374491; 0xb5c0fbcf; 0xe9b5dba5] ++
  [0x3956c25b; 0x59f111f1; 0x923f82a4; 0xab1c5ed5] ++
  [0xd807aa98; 0x12835b01; 0x243185be; 0x550c7dc3] ++
  [0x72be5d74; 0x80deb1fe; 0x9bdc06a7; 0xc19bf174] ++
  [0xe49b69c1; 0xefbe4786; 0x0fc19dc6; 0x240ca1cc] ++
  [0x2de92c6f; 0x4a7484aa; 0x5cb0a9dc; 0x76f988da] ++
  [0x983e5152; 0xa831c66d; 0xb00327c8; 0xbf597fc7] ++
  [0xc6e00bf3; 0xd5a79147; 0x06ca6351; 0x14292967] ++
  [0x27b70a85; 0x2e1b2138; 0x4d2c6dfc; 0x53380d13] ++
  [0x650a7354; 0x766a0abb; 0x81c2c92e; 0x92722c85] ++
  [0xa2bfe8a1; 0xa81a664b; 0xc24b8b70; 0xc76c51a3] ++
  [0xd192e819; 0xd6990624; 0xf40e3585; 0x106aa070] ++
  [0x19a4c116; 0x1e376c08; 0x2748774c; 0x34b0bcb5] ++
  [0x391c0cb3; 0x4ed8aa4a; 0x5b9cca4f; 0x682e6ff3] ++
  [0x748f82ee; 0x78a5636f; 0x84c87814; 0x8cc70208] ++
  [0x90befffa; 0xa4506ceb; 0xbef9a3f7; 0xc67178f2].

(** ** sha2.c: the transformation *)

(** [for (j = 0; j < 16; j++) PACK32(&sub_block[j << 2], &w[j]);] *)
Definition load_words (sub_block w : list Z) : list Z :=
  foldl (fun w j => <[j := PACK32 sub_block (4 * j)]> w) w (seq 0 16).

(** [SHA256_SCR(j)] for [j] from 16 to 63. *)
Definition SHA256_SCR (w : list Z) (i : nat) : list Z :=
  <[i := u32 (u32 (u32 (SHA256_F4 (w !!! (i - 2)%nat) + w !!! (i - 7)%nat)
                   + SHA256_F3 (w !!! (i - 15)%nat)) + w !!! (i - 16)%nat)]> w.

(** One iteration of the round loop on the array [wv]. *)
Definition round_step (w wv : list Z) (j : nat) : list Z :=
  let t1 := u32 (wv !!! 7%nat + SHA256_F2 (wv !!! 4%nat)
                 + CH (wv !!! 4%nat) (wv !!! 5%nat) (wv !!! 6%nat)
                 + sha256_k !!! j + w !!! j) in
  let t2 := u32 (SHA256_F1 (wv !!! 0%nat) + MAJ (wv !!! 0%nat) (wv !!! 1%nat) (wv !!! 2%nat)) in
  let wv := <[7%nat := wv !!! 6%nat]> wv in
  let wv := <[6%nat := wv !!! 5%nat]> wv in
  let wv := <[5%nat := wv !!! 4%nat]> wv in
  let wv := <[4%nat := u32 (wv !!! 3%nat + t1)]> wv in
  let wv := <[3%nat := wv !!! 2%nat]> wv in
  let wv := <[2%nat := wv !!! 1%nat]> wv in
  let wv := <[1%nat := wv !!! 0%nat]> wv in
  <[0%nat := u32 (t1 + t2)]> wv.

(** The body of the block loop: the arrays [w] and [wv] are locals whose
    initial contents ([w0]) do not matter. *)
Definition transf_block (w0 h sub_block : list Z) : list Z * list Z :=
  let w := load_words sub_block w0 in
  let w := foldl SHA256_SCR w (seq 16 48) in
  let wv := h in
  let wv := foldl (round_step w) wv (seq 0 64) in
  (w, foldl (fun h j => <[j := u32 (h !!! j + wv !!! j)]> h) h (seq 0 8)).

(** [for (i = 0; i < block_nb; i++) { sub_block = message + (i << 6); ... }] *)
Fixpoint transf_loop (n i : nat) (w h message : list Z) : list Z :=
  match n with
  | O => h
  | S n =>
      let '(w', h') := transf_block w h (drop (64 * i) message) in
      transf_loop n (S i) w' h' message
  end.

Definition sha256_transf (h message : list Z) (block_nb : Z) : list Z :=
  transf_loop (Z.to_nat block_nb) 0 (replicate 64 0) h message.

(** ** sha2.c: the streaming interface *)

Record sha256_ctx := mkCtx {
  tot_len : Z;
  len : Z;
  block : list Z;
  h : list Z
}.

Definition sha256_init (ctx : sha256_ctx) : sha256_ctx :=
  mkCtx 0 0 (block ctx) (foldl (fun h i => <[i := sha256_h0 !!! i]> h) (h ctx) (seq 0 8)).

(** [message] is the memory from the caller's pointer on. *)
Definition sha256_update (ctx : sha256_ctx) (message : list Z) (n : Z) : sha256_ctx :=
  let tmp_len := u32 (SHA256_BLOCK_SIZE - len ctx) in
  let rem_len := if n <? tmp_len then n else tmp_len in
  let block1 := write_at (block ctx) (Z.to_nat (len ctx)) (take (Z.to_nat rem_len) message) in
  if u32 (len ctx + n) <? SHA256_BLOCK_SIZE then
    mkCtx (tot_len ctx) (u32 (len ctx + n)) block1 (h ctx)
  else
    let new_len := u32 (n - rem_len) in
    let block_nb := new_len / SHA256_BLOCK_SIZE in
    let shifted_message := drop (Z.to_nat rem_len) message in
    let h1 := sha256_transf (h ctx) block1 1 in
    let h2 := sha256_transf h1 shifted_message block_nb in
    let rem_len := new_len mod SHA256_BLOCK_SIZE in
    let block2 := write_at block1 0
      (take (Z.to_nat rem_len) (drop (Z.to_nat (Z.shiftl block_nb 6)) shifted_message)) in
    mkCtx (u32 (tot_len ctx + u32 (Z.shiftl (block_nb + 1) 6))) rem_len block2 h2.

Definition sha256_final (ctx : sha256_ctx) : sha256_ctx * list Z :=
  let block_nb :=
    1 + (if SHA256_BLOCK_SIZE - 9 <? len ctx mod SHA256_BLOCK_SIZE then 1 else 0) in
  let len_b := u32 (Z.shiftl (u32 (tot_len ctx + len ctx)) 3) in
  let pm_len := Z.shiftl block_nb 6 in
  let b := write_at (block ctx) (Z.to_nat (len ctx))
             (replicate (Z.to_nat (pm_len - len ctx)) 0) in
  let b := <[Z.to_nat (len ctx) := 0x80]> b in
  let b := write_at b (Z.to_nat (pm_len - 4)) (UNPACK32 len_b) in
  let h' := sha256_transf (h ctx) b block_nb in
  (mkCtx (tot_len ctx) (len ctx) b h', flat_map (fun i => UNPACK32 (h' !!! i)) (seq 0 8)).

(** [sha256(message, len, digest)] on an uninitialised local context. *)
Definition uninit_ctx : sha256_ctx := mkCtx 0 0 (replicate 128 0) (replicate 8 0).

Definition sha256 (message : list Z) (n : Z) : list Z :=
  let ctx := sha256_init uninit_ctx in
  let ctx := sha256_update ctx message n in
  snd (sha256_final ctx).

(** ** hmac_sha2.c *)

Record hmac_sha256_ctx := mkHmac {
  ctx_inside : sha256_ctx;
  ctx_outside : sha256_ctx;
  ctx_inside_reinit : sha256_ctx;
  ctx_outside_reinit : sha256_ctx;
  block_ipad : list Z;
  block_opad : list Z
}.

(** [for (i = 0; i < num; i++) pad[i] = key_used[i] ^ c;] *)
Definition xor_pad (pad key_used : list Z) (num : nat) (c : Z) : list Z :=
  foldl (fun p i => <[i := Z.lxor (key_used !!! i) c]> p) pad (seq 0 num).

(** The key selection and the constant part of the pads: the key bytes used,
    their number, [block_ipad] and [block_opad]. *)
Definition hmac_key_setup (ctx : hmac_sha256_ctx) (key : list Z) (key_size : Z)
  : list Z * Z * list Z * list Z :=
  if key_size =? SHA256_BLOCK_SIZE then
    (key, SHA256_BLOCK_SIZE, block_ipad ctx, block_opad ctx)
  else
    let '(key_used, num) :=
      if SHA256_BLOCK_SIZE <? key_size then (sha256 key key_size, SHA256_DIGEST_SIZE)
      else (key, key_size) in
    let fill := SHA256_BLOCK_SIZE - num in
    (key_used, num,
     write_at (block_ipad ctx) (Z.to_nat num) (replicate (Z.to_nat fill) 0x36),
     write_at (block_opad ctx) (Z.to_nat num) (replicate (Z.to_nat fill) 0x5c)).

Definition hmac_sha256_init (ctx : hmac_sha256_ctx) (key : list Z) (key_size : Z)
  : hmac_sha256_ctx :=
  let '(key_used, num, ipad, opad) := hmac_key_setup ctx key key_size in
  let ipad := xor_pad ipad key_used (Z.to_nat num) 0x36 in
  let opad := xor_pad opad key_used (Z.to_nat num) 0x5c in
  let inside := sha256_update (sha256_init (ctx_inside ctx)) ipad SHA256_BLOCK_SIZE in
  let outside := sha256_update (sha256_init (ctx_outside ctx)) opad SHA256_BLOCK_SIZE in
  mkHmac inside outside inside outside ipad opad.

Definition hmac_sha256_reinit (ctx : hmac_sha256_ctx) : hmac_sha256_ctx :=
  mkHmac (ctx_inside_reinit ctx) (ctx_outside_reinit ctx)
    (ctx_inside_reinit ctx) (ctx_outside_reinit ctx) (block_ipad ctx) (block_opad ctx).

Definition hmac_sha256_update (ctx : hmac_sha256_ctx) (message : list Z) (message_len : Z)
  : hmac_sha256_ctx :=
  mkHmac (sha256_update (ctx_inside ctx) message message_len) (ctx_outside ctx)
    (ctx_inside_reinit ctx) (ctx_outside_reinit ctx) (block_ipad ctx) (block_opad ctx).

(** For [mac_size] at most 32, as all callers have it: the code copies as many bytes
    from a local array of 32. *)
Definition hmac_sha256_final (ctx : hmac_sha256_ctx) (mac_size : Z)
  : hmac_sha256_ctx * list Z :=
  let '(inside, digest_inside) := sha256_final (ctx_inside ctx) in
  let outside := sha256_update (ctx_outside ctx) digest_inside SHA256_DIGEST_SIZE in
  let '(outside, mac_temp) := sha256_final outside in
  (mkHmac inside outside (ctx_inside_reinit ctx) (ctx_outside_reinit ctx)
     (block_ipad ctx) (block_opad ctx),
   take (Z.to_nat mac_size) mac_temp).

Definition uninit_hmac : hmac_sha256_ctx :=
  mkHmac uninit_ctx uninit_ctx uninit_ctx uninit_ctx (replicate 64 0) (replicate 64 0).

Definition hmac_sha256 (key : list Z) (key_size : Z) (message : list Z) (message_len : Z)
    (mac_size : Z) : list Z :=
  let ctx := hmac_sha256_init uninit_hmac key key_size in
  let ctx := hmac_sha256_update ctx message message_len in
  snd (hmac_sha256_final ctx mac_size).

(** ** The standards *)

Module Fips.

(** FIPS 180-4, 6.2.2: the message schedule of a block, one word at a time. *)
Definition words (M : list Z) : list Z := map (fun j => PACK32 M (4 * j)) (seq 0 16).

Definition next_word (W : list Z) : Z :=
  let t := length W in
  u32 (u32 (u32 (SHA256_F4 (W !!! (t - 2)%nat) + W !!! (t - 7)%nat)
            + SHA256_F3 (W !!! (t - 15)%nat)) + W !!! (t - 16)%nat).

Definition schedule (n : nat) (W : list Z) : list Z :=
  Nat.iter n (fun W => W ++ [next_word W]) W.

(** The working variables a..h after one round. *)
Definition round (k w : Z) (s : list Z) : list Z :=
  match s with
  | [a; b; c; d; e; f; g; h] =>
      let T1 := u32 (h + SHA256_F2 e + CH e f g + k + w) in
      let T2 := u32 (SHA256_F1 a + MAJ a b c) in
      [u32 (T1 + T2); a; b; c; u32 (d + T1); e; f; g]
  | _ => s
  end.

Definition compress (H M : list Z) : list Z :=
  let W := schedule 48 (words M) in
  zip_with (fun x y => u32 (x + y)) H
    (foldl (fun s t => round (sha256_k !!! t) (W !!! t) s) H (seq 0 64)).

Fixpoint hash_blocks (n : nat) (H m : list Z) : list Z :=
  match n with
  | O => H
  | S n => hash_blocks n (compress H (take 64 m)) (drop 64 m)
  end.

(** 5.1.1: a one bit, zeros, and the length in bits as a 64-bit integer. *)
Definition pad (m : list Z) : list Z :=
  let l := Z.of_nat (length m) in
  m ++ [0x80] ++ replicate (Z.to_nat ((55 - l) mod 64)) 0
    ++ be32 (8 * l / 2 ^ 32) ++ be32 (8 * l).

Definition sha256 (m : list Z) : list Z :=
  flat_map be32 (hash_blocks (length (pad m) / 64) sha256_h0 (pad m)).

(** RFC 2104, section 2, with B = 64. *)
Definition key_block (key : list Z) : list Z :=
  let k := if (64 <? length key)%nat then sha256 key else key in
  k ++ replicate (64 - length k) 0.

Definition hmac (key text : list Z) : list Z :=
  let k := key_block key in
  sha256 (map (fun b => Z.lxor b 0x5c) k
          ++ sha256 (map (fun b => Z.lxor b 0x36) k ++ text)).

End Fips.

(** ** The transformation computes the compression function *)

(** A loop that stores [f j] at each index of a range. *)
Lemma foldl_insert_seq {A} (f : nat -> A) (n i : nat) (l : list A) :
  (i + n <= length l)%nat ->
  foldl (fun l j => <[j := f j]> l) l (seq i n)
  = take i l ++ map f (seq i n) ++ drop (i + n) l.
Proof.
  revert i l. induction n as [|n IH]; intros i l H; cbn.
  - rewrite Nat.add_0_r. by rewrite take_drop.
  - rewrite IH by (rewrite length_insert; lia).
    rewrite (take_S_r _ _ (f i)) by (apply list_lookup_insert_eq; lia).
    rewrite take_insert_ge, drop_insert_lt by lia.
    rewrite <- app_assoc. cbn. do 3 f_equal. f_equal. lia.
Qed.

Lemma take_total {A} `{Inhabited A} (l : list A) i n :
  (i < n)%nat -> take n l !!! i = l !!! i.
Proof. intros. rewrite !list_lookup_total_alt. by rewrite lookup_take_lt. Qed.

Lemma load_words_take sub w :
  length w = 64%nat ->
  length (load_words sub w) = 64%nat /\ take 16 (load_words sub w) = Fips.words (take 64 sub).
Proof.
  intros Hw. unfold load_words.
  rewrite (foldl_insert_seq (fun j => PACK32 sub (4 * j)) 16 0 w) by lia.
  split; [rewrite !length_app, length_map, length_seq, length_take, length_drop; lia|].
  rewrite take_0, app_nil_l, take_app_length' by (by rewrite length_map, length_seq).
  unfold Fips.words. apply map_ext_in. intros j Hj%in_seq. unfold PACK32.
  by rewrite !take_total by lia.
Qed.

Lemma scr_take n i w :
  length w = 64%nat -> (16 <= i)%nat -> (i + n <= 64)%nat ->
  length (foldl SHA256_SCR w (seq i n)) = 64%nat /\
  take (i + n) (foldl SHA256_SCR w (seq i n)) = Fips.schedule n (take i w).
Proof.
  revert i w. induction n as [|n IH]; intros i w Hw Hi Hn; [by rewrite Nat.add_0_r|].
  cbn [seq foldl].
  destruct (IH (S i) (SHA256_SCR w i)) as [H1 H2];
    [unfold SHA256_SCR; by rewrite length_insert|lia|lia|].
  split; [done|]. rewrite Nat.add_succ_r. cbn in H2. rewrite H2.
  unfold Fips.schedule. rewrite Nat.iter_succ_r. f_equal.
  unfold SHA256_SCR, Fips.next_word.
  erewrite take_S_r by (apply list_lookup_insert_eq; lia).
  rewrite take_insert_ge by lia. rewrite length_take_le by lia.
  by rewrite !take_total by lia.
Qed.

Lemma round_step_length w wv j : length (round_step w wv j) = length wv.
Proof. unfold round_step. by rewrite !length_insert. Qed.

Lemma round_step_fips w wv j :
  length wv = 8%nat -> round_step w wv j = Fips.round (sha256_k !!! j) (w !!! j) wv.
Proof. intros H. do 8 (destruct wv as [|? wv]; [done|]). destruct wv; [|done]. done. Qed.

Lemma rounds_fips w wv js :
  length wv = 8%nat ->
  foldl (round_step w) wv js = foldl (fun s t => Fips.round (sha256_k !!! t) (w !!! t) s) wv js
  /\ length (foldl (round_step w) wv js) = 8%nat.
Proof.
  revert wv. induction js as [|j js IH]; intros wv Hl; [done|]. cbn.
  rewrite <- round_step_fips by done. apply IH. by rewrite round_step_length.
Qed.

Lemma add_loop h wv :
  length h = 8%nat -> length wv = 8%nat ->
  foldl (fun h j => <[j := u32 (h !!! j + wv !!! j)]> h) h (seq 0 8)
  = zip_with (fun x y => u32 (x + y)) h wv.
Proof.
  intros H1 H2. do 8 (destruct h as [|? h]; [done|]). destruct h; [|done].
  do 8 (destruct wv as [|? wv]; [done|]). destruct wv; done.
Qed.

Lemma transf_block_fips w0 h sub :
  length w0 = 64%nat -> length h = 8%nat ->
  length (fst (transf_block w0 h sub)) = 64%nat /\
  snd (transf_block w0 h sub) = Fips.compress h (take 64 sub) /\
  length (snd (transf_block w0 h sub)) = 8%nat.
Proof.
  intros Hw Hh. unfold transf_block. cbn [fst snd].
  destruct (load_words_take sub w0 Hw) as [L1 L2].
  destruct (scr_take 48 16 (load_words sub w0) L1) as [S1 S2]; [lia|lia|].
  rewrite firstn_all2 in S2 by lia.
  destruct (rounds_fips (foldl SHA256_SCR (load_words sub w0) (seq 16 48)) h (seq 0 64) Hh)
    as [R1 R2].
  rewrite add_loop by done. rewrite S2, L2 in R1. split_and!; [done| |].
  - unfold Fips.compress. by rewrite S2, L2, R1.
  - rewrite length_zip_with. lia.
Qed.

Lemma transf_loop_fips n i w h m :
  length w = 64%nat -> length h = 8%nat ->
  transf_loop n i w h m = Fips.hash_blocks n h (drop (64 * i) m) /\
  length (transf_loop n i w h m) = 8%nat.
Proof.
  revert i w h. induction n as [|n IH]; intros i w h Hw Hh; [done|].
  cbn [transf_loop Fips.hash_blocks].
  destruct (transf_block_fips w h (drop (64 * i) m) Hw Hh) as (B1 & B2 & B3).
  destruct (transf_block w h (drop (64 * i) m)) as [w' h']; cbn [fst snd] in *.
  destruct (IH (S i) w' h' B1 B3) as [I1 I2]. split; [|done].
  rewrite I1, B2, drop_drop. do 2 f_equal. lia.
Qed.

Lemma sha256_transf_fips h m nb :
  length h = 8%nat ->
  sha256_transf h m nb = Fips.hash_blocks (Z.to_nat nb) h m /\
  length (sha256_transf h m nb) = 8%nat.
Proof. intros. by apply (transf_loop_fips _ 0). Qed.

(** ** Block-wise hashing *)

Lemma hash_blocks_app a b H m :
  Fips.hash_blocks (a + b) H m = Fips.hash_blocks b (Fips.hash_blocks a H m) (drop (64 * a) m).
Proof.
  revert H m. induction a as [|a IH]; intros H m; [done|].
  cbn [Nat.add Fips.hash_blocks]. rewrite IH, drop_drop. do 2 f_equal. lia.
Qed.

Lemma hash_blocks_ext n H m m' :
  take (64 * n) m = take (64 * n) m' -> Fips.hash_blocks n H m = Fips.hash_blocks n H m'.
Proof.
  revert H m m'. induction n as [|n IH]; intros H m m' E; [done|].
  cbn [Fips.hash_blocks].
  assert (take 64 m = take 64 m') as E1.
  { apply (f_equal (take 64)) in E. rewrite !take_take in E.
    by replace (64 `min` (64 * S n))%nat with 64%nat in E by lia. }
  rewrite E1. apply IH.
  apply (f_equal (drop 64)) in E.
  rewrite !skipn_firstn_comm in E. by replace (64 * S n - 64)%nat with (64 * n)%nat in E by lia.
Qed.

Lemma hash_blocks_length n H m : length H = 8%nat -> length (Fips.hash_blocks n H m) = 8%nat.
Proof.
  intros HH. destruct (sha256_transf_fips H m (Z.of_nat n) HH) as [E L].
  rewrite Nat2Z.id in E. by rewrite <- E.
Qed.

(** ** The streaming invariant

    After the bytes [m], the complete blocks of [m] are hashed into [h] and
    the remaining ones wait at the front of [block]. *)
Record ctx_inv (ctx : sha256_ctx) (m : list Z) : Prop := {
  inv_size : Z.of_nat (length m) < 2 ^ 32;
  inv_len : len ctx = Z.of_nat (length m mod 64);
  inv_tot : tot_len ctx = Z.of_nat (64 * (length m / 64));
  inv_block : length (block ctx) = 128%nat;
  inv_h : h ctx = Fips.hash_blocks (length m / 64) sha256_h0 m;
  inv_pending : take (length m mod 64) (block ctx) = drop (64 * (length m / 64)) m
}.

(** The shapes of the arrays of an arbitrary (possibly used) context. *)
Definition ctx_shape (ctx : sha256_ctx) : Prop :=
  length (block ctx) = 128%nat /\ length (h ctx) = 8%nat.

Lemma inv_shape ctx m : ctx_inv ctx m -> ctx_shape ctx.
Proof.
  intros [_ _ _ Hb Hh _]. split; [done|]. rewrite Hh. by apply hash_blocks_length.
Qed.

Lemma init_inv ctx : ctx_shape ctx -> ctx_inv (sha256_init ctx) [].
Proof.
  intros [Hb Hh]. unfold sha256_init. split; cbn [len tot_len block h]; try done.
  rewrite (foldl_insert_seq (fun i => sha256_h0 !!! i)) by lia.
  rewrite drop_ge by lia. done.
Qed.

Lemma split_mod (k r n : nat) : (r < 64)%nat -> n = (64 * k + r)%nat ->
  (n / 64)%nat = k /\ (n mod 64)%nat = r.
Proof. intros Hr ->. split; [symmetry; by apply (Nat.div_unique _ _ _ r)|symmetry; by apply (Nat.mod_unique _ _ k)]. Qed.

(** The invariant for a message of [k] blocks and [r] bytes. *)
Lemma ctx_inv_intro ctx m k r :
  (r < 64)%nat -> length m = (64 * k + r)%nat -> Z.of_nat (length m) < 2 ^ 32 ->
  len ctx = Z.of_nat r -> tot_len ctx = Z.of_nat (64 * k) -> length (block ctx) = 128%nat ->
  h ctx = Fips.hash_blocks k sha256_h0 m -> take r (block ctx) = drop (64 * k) m ->
  ctx_inv ctx m.
Proof.
  intros Hr Hm Hs H1 H2 H3 H4 H5. destruct (split_mod k r (length m) Hr Hm) as [E1 E2].
  split; rewrite ?E1, ?E2; done.
Qed.

Lemma write_at_0 {A} (l src : list A) : take (length src) (write_at l 0 src) = src.
Proof. unfold write_at. rewrite take_0, app_nil_l. apply take_app_length. Qed.

Lemma drop_app_pending (m c q : list Z) k :
  (64 * k <= length m)%nat -> q = drop (64 * k) m -> drop (64 * k) (m ++ c) = q ++ c.
Proof. intros H ->. by rewrite drop_app_le. Qed.

(** The short case: the chunk fits into the pending block. *)
Lemma update_inv_short ctx m c :
  ctx_inv ctx m -> Z.of_nat (length (m ++ c)) < 2 ^ 32 ->
  (length m mod 64 + length c < 64)%nat ->
  ctx_inv (sha256_update ctx c (Z.of_nat (length c))) (m ++ c).
Proof.
  intros [Hs Hl Ht Hb Hh Hp] Hs' Hc. rewrite length_app in Hs'.
  pose proof (Nat.div_mod (length m) 64 ltac:(lia)) as Hm.
  set (k := (length m / 64)%nat) in *. set (r := (length m mod 64)%nat) in *.
  unfold sha256_update. rewrite Hl. unfold SHA256_BLOCK_SIZE.
  rewrite (u32_small (64 - _)), (u32_small (Z.of_nat r + _)) by lia.
  rewrite (proj2 (Z.ltb_lt (Z.of_nat (length c)) _)) by lia.
  rewrite (proj2 (Z.ltb_lt (Z.of_nat r + _) _)) by lia.
  rewrite !Nat2Z.id, firstn_all2 by lia.
  apply (ctx_inv_intro _ _ k (r + length c)); cbn [len tot_len block h];
    rewrite ?length_app; try lia.
  - rewrite length_write_at; lia.
  - rewrite Hh. apply hash_blocks_ext. by rewrite take_app_le by lia.
  - rewrite take_write_at by lia. rewrite Hp. symmetry. apply drop_app_pending; [lia|done].
Qed.

(** The long case: the pending block is completed, then whole blocks are
    hashed from the caller's memory and the rest is kept. *)
Lemma update_inv_long ctx m c :
  ctx_inv ctx m -> Z.of_nat (length (m ++ c)) < 2 ^ 32 ->
  (64 <= length m mod 64 + length c)%nat ->
  ctx_inv (sha256_update ctx c (Z.of_nat (length c))) (m ++ c).
Proof.
  intros Hi Hs' Hc. pose proof (inv_shape _ _ Hi) as [_ Hh8].
  destruct Hi as [Hs Hl Ht Hb Hh Hp]. rewrite length_app in Hs'.
  pose proof (Nat.div_mod (length m) 64 ltac:(lia)) as Hm.
  pose proof (Nat.mod_upper_bound (length m) 64 ltac:(lia)) as Hr.
  set (k := (length m / 64)%nat) in *. set (r := (length m mod 64)%nat) in *.
  set (new := (length c - (64 - r))%nat).
  pose proof (Nat.div_mod new 64 ltac:(lia)) as Hnew.
  pose proof (Nat.mod_upper_bound new 64 ltac:(lia)) as Hr'.
  unfold sha256_update. rewrite Hl. unfold SHA256_BLOCK_SIZE.
  rewrite (u32_small (64 - _)), (u32_small (Z.of_nat r + _)) by lia.
  replace (if Z.of_nat (length c) <? 64 - Z.of_nat r then Z.of_nat (length c)
           else 64 - Z.of_nat r) with (Z.of_nat (64 - r)) by (case_match; lia).
  rewrite (proj2 (Z.ltb_ge (Z.of_nat r + _) _)) by lia.
  replace (u32 (Z.of_nat (length c) - Z.of_nat (64 - r))) with (Z.of_nat new)
    by (rewrite u32_small; lia).
  replace (Z.of_nat new / 64) with (Z.of_nat (new / 64)) by (rewrite Nat2Z.inj_div; done).
  replace (Z.of_nat new mod 64) with (Z.of_nat (new mod 64)) by (rewrite Nat2Z.inj_mod; done).
  rewrite !Z.shiftl_mul_pow2 by lia.
  replace (Z.to_nat (Z.of_nat (new / 64) * 2 ^ 6)) with (64 * (new / 64))%nat by lia.
  rewrite !Nat2Z.id. set (nb := (new / 64)%nat) in *. set (r' := (new mod 64)%nat) in *.
  set (block1 := write_at (block ctx) r (take (64 - r) c)).
  set (rest := take r' (drop (64 * nb) (drop (64 - r) c))).
  assert (length block1 = 128%nat) as Hb1.
  { unfold block1. rewrite length_write_at; rewrite ?length_take; lia. }
  assert (length rest = r') as Hrest.
  { unfold rest. rewrite length_take, !length_drop. lia. }
  assert (drop (64 * k) (m ++ c) = take r (block ctx) ++ c) as Hd.
  { apply drop_app_pending; [lia|done]. }
  assert (length (take r (block ctx)) = r) as Hq by (rewrite length_take; lia).
  apply (ctx_inv_intro _ _ (k + (1 + nb)) r'); cbn [len tot_len block h];
    rewrite ?length_app; try lia.
  - rewrite Ht, (u32_small (_ * _)), u32_small; lia.
  - rewrite length_write_at; lia.
  - destruct (sha256_transf_fips (h ctx) block1 1 Hh8) as [E1 L1].
    destruct (sha256_transf_fips _ (drop (64 - r) c) (Z.of_nat nb) L1) as [E2 _].
    rewrite E2, E1, Nat2Z.id, Hh. rewrite !hash_blocks_app, Hd.
    rewrite (hash_blocks_ext k _ (m ++ c) m) by (by rewrite take_app_le by lia).
    rewrite (drop_app_ge _ _ (64 * 1)), Hq by lia. change (Z.to_nat 1) with 1%nat.
    rewrite (hash_blocks_ext 1 _ block1 (take r (block ctx) ++ c)); [done|]. unfold block1.
    rewrite take_write_at by (rewrite ?length_take; lia).
    rewrite take_app_ge, Hq by lia. done.
  - rewrite <- Hrest at 1. rewrite write_at_0.
    replace (64 * (k + (1 + nb)))%nat with (64 * k + (64 + 64 * nb))%nat by lia.
    rewrite <- drop_drop, Hd, <- drop_drop, drop_app_ge, Hq by lia.
    unfold rest. rewrite firstn_all2; [done|]. rewrite !length_drop. lia.
Qed.

Lemma update_inv ctx m c :
  ctx_inv ctx m -> Z.of_nat (length (m ++ c)) < 2 ^ 32 ->
  ctx_inv (sha256_update ctx c (Z.of_nat (length c))) (m ++ c).
Proof.
  intros. destruct (decide (length m mod 64 + length c < 64)%nat).
  - by apply update_inv_short.
  - apply update_inv_long; try done. lia.
Qed.

(** Any number of updates. *)
Definition update_all (ctx : sha256_ctx) (chunks : list (list Z)) : sha256_ctx :=
  foldl (fun ctx c => sha256_update ctx c (Z.of_nat (length c))) ctx chunks.

Lemma update_all_inv ctx m chunks :
  ctx_inv ctx m -> Z.of_nat (length (m ++ concat chunks)) < 2 ^ 32 ->
  ctx_inv (update_all ctx chunks) (m ++ concat chunks).
Proof.
  revert ctx m. induction chunks as [|c cs IH]; intros ctx m Hi Hs; cbn in *.
  - by rewrite app_nil_r.
  - rewrite app_assoc in *. apply IH; [|done]. apply update_inv; [done|].
    rewrite !length_app in *. lia.
Qed.

(** ** Padding *)

Lemma be32_length x : length (be32 x) = 4%nat.
Proof. done. Qed.

(** The three stores of [sha256_final] into the block buffer. *)
Lemma final_block (b : list Z) (r P : nat) (L : list Z) :
  length L = 4%nat -> (r + 5 <= P)%nat -> (P <= length b)%nat ->
  let b1 := write_at b r (replicate (P - r) 0) in
  let b2 := <[r := 0x80]> b1 in
  length (write_at b2 (P - 4) L) = length b /\
  take P (write_at b2 (P - 4) L) = take r b ++ [0x80] ++ replicate (P - r - 5) 0 ++ L.
Proof.
  intros HL HP Hb b1 b2.
  assert (length b1 = length b) as L1.
  { unfold b1. rewrite length_write_at; rewrite ?length_replicate; lia. }
  assert (length b2 = length b) as L2 by (unfold b2; by rewrite length_insert).
  split; [rewrite length_write_at; lia|].
  rewrite take_write_at by lia. rewrite !app_assoc. f_equal.
  unfold b2, b1, write_at.
  set (z := (P - r - 5)%nat). replace (P - r)%nat with (S (z + 4)) by lia.
  rewrite length_replicate. cbn [replicate app].
  assert (length (take r b) = r) as Hq by (rewrite length_take; lia).
  pose proof (insert_middle (take r b) (replicate (z + 4) 0 ++ drop (r + S (z + 4)) b) 0x80 0)
    as Hins. rewrite Hq in Hins. rewrite Hins, replicate_add, <- (app_assoc (replicate z 0)).
  rewrite take_app_ge, Hq by lia. replace (P - 4 - r)%nat with (S z) by lia. cbn [take].
  rewrite take_app_length' by (by rewrite length_replicate).
  by rewrite <- app_assoc.
Qed.

(** The number of blocks and of padding zeros chosen by [sha256_final]. *)
Lemma pad_count (k r : nat) : (r < 64)%nat ->
  let nb := (1 + (if 55 <? Z.of_nat r then 1 else 0))%Z in
  Z.to_nat ((55 - Z.of_nat (64 * k + r)) mod 64) = (64 * Z.to_nat nb - r - 9)%nat /\
  (r + 9 <= 64 * Z.to_nat nb <= 128)%nat.
Proof.
  intros Hr nb. unfold nb. destruct (Z.ltb_spec 55 (Z.of_nat r)).
  - split; [|lia].
    rewrite <- (Zmod_unique (55 - Z.of_nat (64 * k + r)) 64 (- Z.of_nat k - 1)
                  (119 - Z.of_nat r)) by lia. lia.
  - split; [|lia].
    rewrite <- (Zmod_unique (55 - Z.of_nat (64 * k + r)) 64 (- Z.of_nat k)
                  (55 - Z.of_nat r)) by lia. lia.
Qed.

Lemma pad_split (m : list Z) k r nb :
  length m = (64 * k + r)%nat -> (r < 64)%nat -> Z.of_nat (length m) < 2 ^ 29 ->
  nb = (1 + (if 55 <? Z.of_nat r then 1 else 0))%Z ->
  Fips.pad m = m ++ [0x80] ++ replicate (64 * Z.to_nat nb - r - 5) 0
                 ++ be32 (8 * Z.of_nat (length m)) /\
  length (Fips.pad m) = (64 * (k + Z.to_nat nb))%nat.
Proof.
  intros Hm Hr Hs Hnb. destruct (pad_count k r Hr) as [Hc Hb]. rewrite <- Hnb in *.
  clear Hnb. unfold Fips.pad. rewrite Hm in *. rewrite Hc.
  rewrite (Z.div_small (8 * Z.of_nat (64 * k + r))) by lia. change (be32 0) with (replicate 4 0).
  replace (64 * Z.to_nat nb - r - 5)%nat with ((64 * Z.to_nat nb - r - 9) + 4)%nat by lia.
  rewrite replicate_add, <- !app_assoc. split; [done|].
  rewrite !length_app, !length_replicate, be32_length, Hm. cbn. lia.
Qed.

Lemma flat_map_lookup_total (l : list Z) :
  flat_map (fun i => UNPACK32 (l !!! i)) (seq 0 (length l)) = flat_map be32 l.
Proof.
  induction l as [|x l IH]; [done|]. cbn [length seq flat_map]. f_equal.
  rewrite <- seq_shift, flat_map_concat_map, map_map, <- flat_map_concat_map. done.
Qed.

(** [sha256_final] completes the digest of the bytes consumed so far. *)
Lemma final_fips ctx m :
  ctx_inv ctx m -> Z.of_nat (length m) < 2 ^ 29 ->
  snd (sha256_final ctx) = Fips.sha256 m /\ ctx_shape (fst (sha256_final ctx)).
Proof.
  intros Hi Hs. pose proof (inv_shape _ _ Hi) as [_ Hh8].
  destruct Hi as [_ Hl Ht Hb Hh Hp].
  pose proof (Nat.div_mod (length m) 64 ltac:(lia)) as Hm.
  pose proof (Nat.mod_upper_bound (length m) 64 ltac:(lia)) as Hr.
  set (k := (length m / 64)%nat) in *. set (r := (length m mod 64)%nat) in *.
  unfold sha256_final, SHA256_BLOCK_SIZE. rewrite Hl, Ht.
  rewrite (Z.mod_small (Z.of_nat r)) by lia. change (64 - 9) with 55.
  set (nb := 1 + (if 55 <? Z.of_nat r then 1 else 0)).
  destruct (pad_count k r Hr) as [_ Hnb]. fold nb in Hnb.
  destruct (pad_split m k r nb Hm Hr Hs eq_refl) as [Hpad Hpl].
  rewrite !Z.shiftl_mul_pow2 by lia.
  replace (u32 (u32 (Z.of_nat (64 * k) + Z.of_nat r) * 2 ^ 3))
    with (8 * Z.of_nat (length m)) by (rewrite (u32_small (_ + _)), u32_small; lia).
  replace (Z.to_nat (nb * 2 ^ 6 - Z.of_nat r)) with (64 * Z.to_nat nb - r)%nat by lia.
  replace (Z.to_nat (nb * 2 ^ 6 - 4)) with (64 * Z.to_nat nb - 4)%nat by lia.
  rewrite !Nat2Z.id.
  destruct (final_block (block ctx) r (64 * Z.to_nat nb) (UNPACK32 (8 * Z.of_nat (length m))))
    as [F1 F2]; [done|lia|lia|].
  set (b := write_at _ (64 * Z.to_nat nb - 4) _) in *.
  destruct (sha256_transf_fips (h ctx) b nb Hh8) as [E L].
  cbn [fst snd]. split; [|split; cbn [block h]; congruence].
  rewrite <- L at 1. rewrite flat_map_lookup_total. unfold Fips.sha256. f_equal.
  rewrite E, Hh, Hpl. rewrite (Nat.mul_comm 64), Nat.div_mul, hash_blocks_app by lia.
  rewrite Hpad, (drop_app_pending m _ _ k) by (try done; lia).
  rewrite (hash_blocks_ext k _ (m ++ _) m) by (by rewrite take_app_le by lia).
  apply hash_blocks_ext. rewrite F2, Hp. symmetry. apply firstn_all2.
  rewrite !length_app, length_replicate, length_drop. unfold UNPACK32. rewrite be32_length.
  change (length [128]) with 1%nat. lia.
Qed.

(** ** Main theorems *)

(** C2: however a message of less than 2^29 bytes is cut into chunks, and
    whatever an earlier use left in the context, [sha256_init], one
    [sha256_update] per chunk and [sha256_final] compute the SHA-256 digest
    of FIPS 180-4 of the concatenation, and leave a context that can be
    initialised again. *)
Theorem sha256_stream_fips (ctx : sha256_ctx) (chunks : list (list Z)) :
  ctx_shape ctx -> Z.of_nat (length (concat chunks)) < 2 ^ 29 ->
  snd (sha256_final (update_all (sha256_init ctx) chunks)) = Fips.sha256 (concat chunks) /\
  ctx_shape (fst (sha256_final (update_all (sha256_init ctx) chunks))).
Proof.
  intros Hc Hs. apply final_fips; [|done].
  apply (update_all_inv _ []); [by apply init_inv|]. cbn. lia.
Qed.

Lemma sha256_stream_fips_witness :
  snd (sha256_final (update_all (sha256_init uninit_ctx) [replicate 60 97; replicate 70 98]))
  = Fips.sha256 (replicate 60 97 ++ replicate 70 98).
Proof.
  apply (sha256_stream_fips uninit_ctx [replicate 60 97; replicate 70 98]);
    [split; reflexivity | cbn; lia].
Defined.

(** The one-shot function. *)
Lemma sha256_fips m :
  Z.of_nat (length m) < 2 ^ 29 -> sha256 m (Z.of_nat (length m)) = Fips.sha256 m.
Proof.
  intros Hs. unfold sha256. apply final_fips; [|done].
  apply (update_inv _ [] m); [by apply init_inv|]. cbn. lia.
Qed.

Lemma flat_map_be32_length l : length (flat_map be32 l) = (4 * length l)%nat.
Proof.
  induction l as [|x l IH]; [done|]. cbn [flat_map]. rewrite length_app, IH, be32_length.
  cbn [length]. lia.
Qed.

Lemma sha256_length m : length (Fips.sha256 m) = 32%nat.
Proof.
  unfold Fips.sha256. by rewrite flat_map_be32_length, hash_blocks_length.
Qed.

Lemma hmac_length key text : length (Fips.hmac key text) = 32%nat.
Proof. apply sha256_length. Qed.

Definition hmac_shape (ctx : hmac_sha256_ctx) : Prop :=
  ctx_shape (ctx_inside ctx) /\ ctx_shape (ctx_outside ctx) /\
  length (block_ipad ctx) = 64%nat /\ length (block_opad ctx) = 64%nat.

Lemma xor_pad_spec pad k c :
  length pad = 64%nat -> (length k <= 64)%nat ->
  xor_pad (write_at pad (length k) (replicate (64 - length k) c)) k (length k) c
  = map (fun b => Z.lxor b c) (k ++ replicate (64 - length k) 0).
Proof.
  intros Hp Hk. unfold xor_pad.
  rewrite (foldl_insert_seq (fun i => Z.lxor (k !!! i) c))
    by (rewrite length_write_at; rewrite ?length_replicate; lia).
  rewrite take_0, app_nil_l, map_app, Nat.add_0_l. f_equal.
  - clear. induction k as [|x k IH]; [done|]. cbn [length seq map]. f_equal.
    rewrite <- seq_shift, map_map. exact IH.
  - unfold write_at. rewrite length_replicate.
    rewrite drop_app_length' by (rewrite length_take; lia).
    rewrite (drop_ge pad) by lia. rewrite app_nil_r.
    set (n := (64 - length k)%nat). clearbody n. induction n as [|n IHn]; [done|].
    cbn [replicate map]. by rewrite <- IHn.
Qed.

Lemma write_at_nil {A} (l : list A) n : write_at l n [] = l.
Proof. unfold write_at. cbn. by rewrite Nat.add_0_r, take_drop. Qed.

Lemma key_block_length key : length (Fips.key_block key) = 64%nat.
Proof.
  unfold Fips.key_block. destruct (Nat.ltb_spec 64 (length key));
    rewrite length_app, length_replicate, ?sha256_length; lia.
Qed.

Lemma hmac_key_setup_spec ctx key :
  Z.of_nat (length key) < 2 ^ 29 ->
  exists k, (length k <= 64)%nat /\ Fips.key_block key = k ++ replicate (64 - length k) 0 /\
  hmac_key_setup ctx key (Z.of_nat (length key)) =
    (k, Z.of_nat (length k),
     write_at (block_ipad ctx) (length k) (replicate (64 - length k) 0x36),
     write_at (block_opad ctx) (length k) (replicate (64 - length k) 0x5c)).
Proof.
  intros Hk. unfold hmac_key_setup, SHA256_BLOCK_SIZE, SHA256_DIGEST_SIZE, Fips.key_block.
  destruct (Z.eqb_spec (Z.of_nat (length key)) 64) as [E|E];
    [|destruct (Z.ltb_spec 64 (Z.of_nat (length key))) as [L|L]].
  - exists key. assert (length key = 64%nat) as E' by lia. rewrite E'. cbn.
    rewrite !write_at_nil, E'. split_and!; [lia|done|done].
  - exists (Fips.sha256 key). rewrite sha256_fips by done.
    rewrite (proj2 (Nat.ltb_lt _ _)), !sha256_length by lia. split_and!; try done. lia.
  - exists key. rewrite (proj2 (Nat.ltb_ge _ _)), Nat2Z.id by lia.
    replace (Z.to_nat (64 - Z.of_nat (length key))) with (64 - length key)%nat by lia.
    split_and!; try done. lia.
Qed.

(** A fresh context that has consumed one 64-byte pad. *)
Lemma pad_inv ctx key c :
  ctx_shape ctx ->
  let pad := map (fun b => Z.lxor b c) (Fips.key_block key) in
  ctx_inv (sha256_update (sha256_init ctx) pad 64) pad.
Proof.
  intros Hc pad.
  assert (length pad = 64%nat) as E by (unfold pad; by rewrite length_map, key_block_length).
  change 64 with (Z.of_nat 64). rewrite <- E.
  apply (update_inv _ []); [by apply init_inv|]. cbn [app]. rewrite E. lia.
Qed.

(** The state that keeps an HMAC context usable: its saved contexts have
    consumed the pads of the key. *)
Record hmac_inv (c : hmac_sha256_ctx) (key : list Z) : Prop := {
  hinv_in : ctx_inv (ctx_inside_reinit c) (map (fun b => Z.lxor b 0x36) (Fips.key_block key));
  hinv_out : ctx_inv (ctx_outside_reinit c) (map (fun b => Z.lxor b 0x5c) (Fips.key_block key))
}.

Lemma hmac_init_inv ctx key :
  hmac_shape ctx -> Z.of_nat (length key) < 2 ^ 29 ->
  let c := hmac_sha256_init ctx key (Z.of_nat (length key)) in
  hmac_inv c key /\ hmac_sha256_reinit c = c.
Proof.
  intros (Hi & Ho & Lip & Lop) Hk c. unfold c, hmac_sha256_init.
  destruct (hmac_key_setup_spec ctx key Hk) as (k & Hk64 & HK & ->).
  rewrite Nat2Z.id, !xor_pad_spec, <- HK by done.
  split; [|done]. by split; cbn; apply pad_inv.
Qed.

(** The operations an HMAC context goes through between two messages. *)
Inductive hmac_op :=
| OpUpdate (m : list Z) (n : Z)
| OpFinal (mac_size : Z)
| OpReinit.

Definition hmac_run (c : hmac_sha256_ctx) (op : hmac_op) : hmac_sha256_ctx :=
  match op with
  | OpUpdate m n => hmac_sha256_update c m n
  | OpFinal n => fst (hmac_sha256_final c n)
  | OpReinit => hmac_sha256_reinit c
  end.

Lemma hmac_run_inv key c ops : hmac_inv c key -> hmac_inv (foldl hmac_run c ops) key.
Proof.
  revert c. induction ops as [|op ops IH]; intros c Hc; [done|]. cbn. apply IH.
  destruct Hc as [H1 H2]. destruct op; cbn; [by split| |by split].
  unfold hmac_sha256_final. by repeat case_match; split.
Qed.

Definition hmac_update_all (c : hmac_sha256_ctx) (chunks : list (list Z)) : hmac_sha256_ctx :=
  foldl (fun c m => hmac_sha256_update c m (Z.of_nat (length m))) c chunks.

Lemma hmac_update_all_ctx c chunks :
  ctx_inside (hmac_update_all c chunks) = update_all (ctx_inside c) chunks /\
  ctx_outside (hmac_update_all c chunks) = ctx_outside c.
Proof. revert c. induction chunks as [|m ms IH]; intros c; [done|]. exact (IH (hmac_sha256_update c m (Z.of_nat (length m)))). Qed.

(** A message hashed from the saved contexts gives the HMAC of RFC 2104. *)
Lemma hmac_message c key chunks n :
  hmac_inv c key -> Z.of_nat (length (concat chunks)) < 2 ^ 29 - 64 ->
  snd (hmac_sha256_final (hmac_update_all (hmac_sha256_reinit c) chunks) n)
  = take (Z.to_nat n) (Fips.hmac key (concat chunks)).
Proof.
  intros [H1 H2] Hs. unfold hmac_sha256_final.
  destruct (hmac_update_all_ctx (hmac_sha256_reinit c) chunks) as [-> ->].
  cbn [ctx_inside ctx_outside hmac_sha256_reinit].
  pose proof (key_block_length key) as Lk.
  assert (forall x, length (map (fun b => Z.lxor b x) (Fips.key_block key)) = 64%nat) as Lx
    by (intros; by rewrite length_map).
  apply update_all_inv with (chunks := chunks) in H1; [|rewrite length_app, Lx; lia].
  destruct (final_fips _ _ H1) as [F1 _]; [rewrite length_app, Lx; lia|].
  destruct (sha256_final (update_all _ _)) as [ci d]; cbn [snd] in F1. subst d.
  apply (update_inv _ _ (Fips.sha256 (map (fun b => Z.lxor b 0x36) (Fips.key_block key)
    ++ concat chunks))) in H2; [|rewrite length_app, Lx, sha256_length; lia].
  rewrite sha256_length in H2. change (Z.of_nat 32) with SHA256_DIGEST_SIZE in H2.
  destruct (final_fips _ _ H2) as [F2 _]; [rewrite length_app, Lx, sha256_length; lia|].
  destruct (sha256_final (sha256_update _ _ _)); cbn [snd] in *. by rewrite F2.
Qed.

(** C11: [hmac_sha256_init] with any key of less than 2^29 bytes, shorter
    than, equal to or longer than a block, prepares a context from which each
    message, cut into any chunks, gets the HMAC-SHA-256 of RFC 2104: right
    after the initialisation, and after [hmac_sha256_reinit] whatever updates,
    finals and reinits came before.  The result is the first [mac_size]
    bytes. *)
Theorem hmac_stream_rfc2104 ctx key ops chunks mac_size :
  hmac_shape ctx -> Z.of_nat (length key) < 2 ^ 29 ->
  Z.of_nat (length (concat chunks)) < 2 ^ 29 - 64 ->
  let c := hmac_sha256_init ctx key (Z.of_nat (length key)) in
  let mac := take (Z.to_nat mac_size) (Fips.hmac key (concat chunks)) in
  snd (hmac_sha256_final (hmac_update_all c chunks) mac_size) = mac /\
  snd (hmac_sha256_final (hmac_update_all (hmac_sha256_reinit (foldl hmac_run c ops)) chunks)
         mac_size) = mac.
Proof.
  intros Hc Hk Hs c mac. destruct (hmac_init_inv ctx key Hc Hk) as [Hi Hr]. split.
  - unfold c. rewrite <- Hr. by apply hmac_message.
  - apply hmac_message; [|done]. by apply hmac_run_inv.
Qed.

Lemma hmac_stream_rfc2104_witness :
  snd (hmac_sha256_final (hmac_update_all
    (hmac_sha256_init uninit_hmac (replicate 20 11) 20) [[72; 105]; []; [33]]) 32)
  = take 32 (Fips.hmac (replicate 20 11) [72; 105; 33]).
Proof.
  apply (hmac_stream_rfc2104 uninit_hmac (replicate 20 11) [] [[72; 105]; []; [33]] 32);
    [repeat split | cbn; lia | cbn; lia].
Defined.

(** The first example of FIPS 180-4 and the second test case of RFC 4231. *)
Example sha256_abc : sha256 [97; 98; 99] 3 =
  [0xba;0x78;0x16;0xbf;0x8f;0x01;0xcf;0xea;0x41;0x41;0x40;0xde;0x5d;0xae;0x22;0x23;
   0xb0;0x03;0x61;0xa3;0x96;0x17;0x7a;0x9c;0xb4;0x10;0xff;0x61;0xf2;0x00;0x15;0xad].
Proof. vm_compute. reflexivity. Qed.

(** ** Constants and macros *)

(** The first 64 primes, by trial division. *)
Definition is_prime (q : Z) : bool := forallb (fun d => negb (q mod d =? 0)) (seqZ 2 (q - 2)).
Definition primes64 : list Z := take 64 (List.filter is_prime (seqZ 2 310)).

(** [c] is the first 32 bits of the fraction of the [e]-th root of [p]: the
    root lies in the interval of 2^-32 above [m + c / 2^32]. *)
Definition root_bits (e p m c : Z) : bool :=
  (0 <=? c) && (c <? 2 ^ 32) &&
  ((m * 2 ^ 32 + c) ^ e <=? p * 2 ^ (32 * e)) &&
  (p * 2 ^ (32 * e) <? (m * 2 ^ 32 + c + 1) ^ e).

Lemma testbit_u32 x i : 0 <= i < 32 -> Z.testbit (u32 x) i = Z.testbit x i.
Proof. intros. unfold u32. apply Z.mod_pow2_bits_low. lia. Qed.

Lemma ROTR_bits x n i :
  0 <= x < 2 ^ 32 -> 0 < n < 32 -> 0 <= i < 32 ->
  Z.testbit (ROTR x n) i = Z.testbit x ((i + n) mod 32).
Proof.
  intros Hx Hn Hi. unfold ROTR. rewrite testbit_u32, Z.lor_spec by lia.
  rewrite Z.shiftr_spec, Z.shiftl_spec by lia.
  destruct (Z.lt_ge_cases (i + n) 32).
  - rewrite Z.mod_small, (Z.testbit_neg_r x (i - _)) by lia. by rewrite orb_false_r.
  - rewrite <- (Zmod_unique (i + n) 32 1 (i + n - 32)) by lia.
    rewrite <- (Z.mod_small x (2 ^ 32)) at 1 by lia.
    rewrite Z.mod_pow2_bits_high by lia. cbn. f_equal. lia.
Qed.

Lemma be32_PACK32 x : 0 <= x < 2 ^ 32 -> PACK32 (UNPACK32 x) 0 = x.
Proof.
  intros Hx. unfold PACK32, UNPACK32, be32, u8. cbn [lookup_total list_lookup_total Nat.add].
  apply Z.bits_inj'. intros i Hi. rewrite !Z.lor_spec, !Z.shiftl_spec by lia.
  destruct (Z.lt_ge_cases i 32) as [Hlt|Hge].
  - destruct (Z.lt_ge_cases i 8); [|destruct (Z.lt_ge_cases i 16); [|destruct (Z.lt_ge_cases i 24)]];
    repeat first
      [ rewrite (Z.testbit_neg_r _ (i - _)) by lia
      | rewrite Z.mod_pow2_bits_low by lia
      | rewrite Z.mod_pow2_bits_high by lia
      | rewrite Z.shiftr_spec by lia ];
    cbn; rewrite ?orb_false_r; f_equal; lia.
  - rewrite !Z.mod_pow2_bits_high by lia.
    rewrite <- (Z.mod_small x (2 ^ 32)) by lia. by rewrite Z.mod_pow2_bits_high by lia.
Qed.

(** The tables and the word macros of sha2.c are those of FIPS 180-4:
    [sha256_h0] and [sha256_k] are the first 32 bits of the fractional parts
    of the square roots of the first 8 and of the cube roots of the first 64
    primes (increasing, none divisible by a smaller one, complete up to 311),
    [ROTR] rotates the bits of a word to the right, and [PACK32] reads back
    what [UNPACK32] stores. *)
Theorem sha256_tables_macros :
  length primes64 = 64%nat /\ length sha256_h0 = 8%nat /\ length sha256_k = 64%nat /\
  forallb (fun '(p, c) => root_bits 2 p (Z.sqrt p) c) (zip (take 8 primes64) sha256_h0) = true /\
  forallb (fun '(p, c) => existsb (fun m => root_bits 3 p m c) (seqZ 1 6))
    (zip primes64 sha256_k) = true /\
  (forall x n i, 0 <= x < 2 ^ 32 -> 0 < n < 32 -> 0 <= i < 32 ->
     Z.testbit (ROTR x n) i = Z.testbit x ((i + n) mod 32)) /\
  (forall x, 0 <= x < 2 ^ 32 -> PACK32 (UNPACK32 x) 0 = x).
Proof.
  split_and!; [vm_compute; reflexivity..| |].
  - intros. by apply ROTR_bits.
  - intros. by apply be32_PACK32.
Qed.

Lemma sha256_tables_macros_witness :
  Z.testbit (ROTR 5 2) 30 = true /\ PACK32 (UNPACK32 0xdeadbeef) 0 = 0xdeadbeef.
Proof.
  pose proof sha256_tables_macros as (_ & _ & _ & _ & _ & Hr & Hp). split.
  - rewrite (Hr 5 2 30) by lia. reflexivity.
  - apply Hp. lia.
Defined.

(** [sha256_final] keeps the bit length in 32 bits: a message of 2^29
    bytes more than another one with the same pending bytes and chaining value
    is finished with the same length field, hence the same digest, where FIPS
    180-4 pads with a 64-bit length. *)
Theorem sha256_length_wraps t l b H :
  snd (sha256_final (mkCtx (u32 (t + 2 ^ 29)) l b H)) = snd (sha256_final (mkCtx t l b H)).
Proof.
  unfold sha256_final. cbn [tot_len len block h snd].
  replace (u32 (Z.shiftl (u32 (u32 (t + 2 ^ 29) + l)) 3))
    with (u32 (Z.shiftl (u32 (t + l)) 3)); [done|].
  rewrite !Z.shiftl_mul_pow2 by lia. unfold u32.
  rewrite !Z.mul_mod_idemp_l by lia.
  replace (((t + 2 ^ 29) mod 2 ^ 32 + l) * 2 ^ 3)
    with (2 ^ 3 * ((t + 2 ^ 29) mod 2 ^ 32) + l * 2 ^ 3) by lia.
  rewrite <- Z.add_mod_idemp_l, Z.mul_mod_idemp_r, Z.add_mod_idemp_l by lia.
  replace (2 ^ 3 * (t + 2 ^ 29) + l * 2 ^ 3) with ((t + l) * 2 ^ 3 + 1 * 2 ^ 32) by lia.
  by rewrite Z_mod_plus_full.
Qed.

End Sha2.
