(* ===== verification/Rpmb.v ===== *)
(** * The RPMB service of tee-supplicant (optee_client/tee-supplicant/src/rpmb.c)

    The secure world sends RPMB requests as raw buffers; [rpmb_process_request]
    turns them into MMC ioctls on the device.  The device is the interface
    [RpmbDev] with two instances, as the [RPMB_EMU] switch of the source has
    them: the emulator (modelled in full, with its HMAC) and the kernel's MMC
    driver (parameters).  The host is little-endian; a [uint16_t] or [uint32_t]
    of a frame is the value the CPU loads, so [htons] and [htonl] swap bytes.
    [None] is an access outside the buffer behind a pointer. *)

From stdpp Require Import base tactics option list list_numbers numbers relations.
From Stdlib Require Import ZArith Lia.
From S2P Require Import Prelude Sha2.

Local Open Scope Z_scope.

Module Rpmb.

(** ** Byte order *)

Definition le16 (x : Z) : list Z := [u8 x; u8 (Z.shiftr x 8)].
Definition le32 (x : Z) : list Z :=
  [u8 x; u8 (Z.shiftr x 8); u8 (Z.shiftr x 16); u8 (Z.shiftr x 24)].
Definition htons (x : Z) : Z := Z.lor (Z.shiftl (u8 x) 8) (u8 (Z.shiftr x 8)).
Definition ntohs : Z -> Z := htons.
Definition htonl (x : Z) : Z :=
  Z.lor (Z.shiftl (u8 x) 24) (Z.lor (Z.shiftl (u8 (Z.shiftr x 8)) 16)
    (Z.lor (Z.shiftl (u8 (Z.shiftr x 16)) 8) (u8 (Z.shiftr x 24)))).

(** ** Constants *)

Definition TEEC_SUCCESS : Z := 0.
Definition TEEC_ERROR_GENERIC : Z := 0xFFFF0000.
Definition TEEC_ERROR_BAD_PARAMETERS : Z := 0xFFFF0006.
Definition TEEC_ERROR_ITEM_NOT_FOUND : Z := 0xFFFF0008.
Definition TEEC_ERROR_NO_DATA : Z := 0xFFFF000B.

Definition RPMB_CMD_DATA_REQ : Z := 0x00.
Definition RPMB_CMD_GET_DEV_INFO : Z := 0x01.
Definition RPMB_CMD_GET_DEV_INFO_RET_OK : Z := 0x00.

Definition RPMB_RESULT_OK : Z := 0x00.
Definition RPMB_RESULT_GENERAL_FAILURE : Z := 0x01.
Definition RPMB_RESULT_AUTH_FAILURE : Z := 0x02.
Definition RPMB_RESULT_ADDRESS_FAILURE : Z := 0x04.

Definition REQ_AUTH_KEY_PROGRAM : Z := 0x0001.
Definition REQ_WRITE_COUNTER_VAL_READ : Z := 0x0002.
Definition REQ_AUTH_DATA_WRITE : Z := 0x0003.
Definition REQ_AUTH_DATA_READ : Z := 0x0004.
Definition REQ_RESULT_READ : Z := 0x0005.
Definition RESP_AUTH_KEY_PROGRAM : Z := 0x0100.
Definition RESP_WRITE_COUNTER_VAL_READ : Z := 0x0200.
Definition RESP_AUTH_DATA_WRITE : Z := 0x0300.
Definition RESP_AUTH_DATA_READ : Z := 0x0400.

Definition MMC_SEND_EXT_CSD : Z := 8.
Definition MMC_READ_MULTIPLE_BLOCK : Z := 18.
Definition MMC_WRITE_MULTIPLE_BLOCK : Z := 25.
Definition MMC_RSP_R1 : Z := Z.lor (Z.lor 1 (Z.shiftl 1 2)) (Z.shiftl 1 4).
Definition MMC_CMD_ADTC : Z := Z.shiftl 1 5.
(** [1 << 31] as the [int] it is stored into. *)
Definition MMC_CMD23_ARG_REL_WR : Z := s32 (Z.shiftl 1 31).
Definition MMC_IOC_CMD : Z := 0xc048b300.

(** ** Frames *)

Record rpmb_data_frame := mkFrame {
  f_stuff_bytes : list Z;
  f_key_mac : list Z;
  f_data : list Z;
  f_nonce : list Z;
  f_write_counter : Z;
  f_address : Z;
  f_block_count : Z;
  f_op_result : Z;
  f_msg_type : Z
}.

(** The struct as the 512 bytes it occupies. *)
Definition frame_bytes (f : rpmb_data_frame) : list Z :=
  f_stuff_bytes f ++ f_key_mac f ++ f_data f ++ f_nonce f ++ le32 (f_write_counter f)
  ++ le16 (f_address f) ++ le16 (f_block_count f) ++ le16 (f_op_result f)
  ++ le16 (f_msg_type f).

Definition load16 (mem : list Z) (off : nat) : Z :=
  Z.lor (mem !!! off) (Z.shiftl (mem !!! (off + 1)%nat) 8).
Definition load32 (mem : list Z) (off : nat) : Z :=
  Z.lor (load16 mem off) (Z.shiftl (load16 mem (off + 2)) 16).

Definition frame_at (mem : list Z) (off : nat) : rpmb_data_frame :=
  mkFrame (take 196 (drop off mem)) (take 32 (drop (off + 196) mem))
    (take 256 (drop (off + 228) mem)) (take 16 (drop (off + 484) mem))
    (load32 mem (off + 500)) (load16 mem (off + 504)) (load16 mem (off + 506))
    (load16 mem (off + 508)) (load16 mem (off + 510)).

(** ** The MMC command and the device interface *)

(** What [cmd.data_ptr] points at. *)
Inductive payload :=
| PFrames (fs : list rpmb_data_frame)
| PBytes (bs : list Z).

Record mmc_ioc_cmd := mkCmd {
  c_write_flag : Z;
  c_opcode : Z;
  c_flags : Z;
  c_blksz : Z;
  c_blocks : Z;
  c_postsleep_min_us : Z;
  c_postsleep_max_us : Z
}.

(** The functions the two builds of rpmb.c define differently. *)
Class RpmbDev (D : Type) := {
  IOCTL : D -> Z -> Z -> mmc_ioc_cmd -> payload -> option (Z * payload * D);
  mmc_rpmb_fd : D -> Z -> Z * D;
  mmc_fd : D -> Z -> Z * D;
  close_mmc_fd : D -> Z -> D;
  read_cid : D -> Z -> list Z -> Z * list Z * D
}.

(** ** The requests, for any device *)
Section Requests.
  Context {D : Type} `{!RpmbDev D}.

Definition read_ext_csd (d : D) (fd : Z) (ext_csd : list Z) : option (Z * list Z * D) :=
  let cmd := mkCmd 0 MMC_SEND_EXT_CSD (Z.lor MMC_RSP_R1 MMC_CMD_ADTC) 512 1 0 0 in
  match IOCTL d fd MMC_IOC_CMD cmd (PBytes ext_csd) with
  | Some (st, PBytes ext_csd, d) =>
      Some (if st <? 0 then TEEC_ERROR_GENERIC else TEEC_SUCCESS, ext_csd, d)
  | _ => None
  end.

(** Issues the command on the frames behind [data_ptr]; [inr] carries on. *)
Definition ioctl_frames (d : D) (fd : Z) (cmd : mmc_ioc_cmd) (fs : list rpmb_data_frame)
  : option (Z * list rpmb_data_frame * D) :=
  match IOCTL d fd MMC_IOC_CMD cmd (PFrames fs) with
  | Some (st, PFrames fs, d) => Some (st, fs, d)
  | _ => None
  end.

Definition set_msg_type (f : rpmb_data_frame) (t : Z) : rpmb_data_frame :=
  mkFrame (f_stuff_bytes f) (f_key_mac f) (f_data f) (f_nonce f) (f_write_counter f)
    (f_address f) (f_block_count f) (f_op_result f) t.

(** [memset(rsp_frm, 0, 1)] clears the first stuff byte. *)
Definition clear_first_byte (f : rpmb_data_frame) : rpmb_data_frame :=
  mkFrame (<[0%nat := 0]> (f_stuff_bytes f)) (f_key_mac f) (f_data f) (f_nonce f)
    (f_write_counter f) (f_address f) (f_block_count f) (f_op_result f) (f_msg_type f).

(** The branch of the key programming and data write requests. *)
Definition data_req_write (d : D) (fd : Z) (cmd : mmc_ioc_cmd)
    (req rsp : list rpmb_data_frame) (rsp_nfrm : Z)
  : option (Z * list rpmb_data_frame * list rpmb_data_frame * D) :=
  if negb (rsp_nfrm =? 1) then Some (TEEC_ERROR_BAD_PARAMETERS, req, rsp, d) else
  let write_flag := Z.lor (c_write_flag cmd) MMC_CMD23_ARG_REL_WR in
  let cmd1 := mkCmd write_flag (c_opcode cmd) (c_flags cmd) (c_blksz cmd) (c_blocks cmd)
                20000 50000 in
  '(st, req, d) ← ioctl_frames d fd cmd1 req;
  if st <? 0 then Some (TEEC_ERROR_GENERIC, req, rsp, d) else
  match rsp with
  | [] => None
  | r :: rest =>
      let rsp := set_msg_type (clear_first_byte r) (htons REQ_RESULT_READ) :: rest in
      let write_flag := Z.land write_flag (Z.lnot MMC_CMD23_ARG_REL_WR) in
      let cmd2 := mkCmd write_flag (c_opcode cmd) (c_flags cmd) (c_blksz cmd) (c_blocks cmd)
                    0 0 in
      '(st, rsp, d) ← ioctl_frames d fd cmd2 rsp;
      if st <? 0 then Some (TEEC_ERROR_GENERIC, req, rsp, d) else
      let cmd3 := mkCmd 0 MMC_READ_MULTIPLE_BLOCK (c_flags cmd) (c_blksz cmd) (u32 rsp_nfrm)
                    0 0 in
      '(st, rsp, d) ← ioctl_frames d fd cmd3 rsp;
      if st <? 0 then Some (TEEC_ERROR_GENERIC, req, rsp, d)
      else Some (TEEC_SUCCESS, req, rsp, d)
  end.

(** The branch of the counter and data read requests. *)
Definition data_req_read (d : D) (fd : Z) (cmd : mmc_ioc_cmd)
    (req : list rpmb_data_frame) (req_nfrm : Z) (rsp : list rpmb_data_frame) (rsp_nfrm : Z)
  : option (Z * list rpmb_data_frame * list rpmb_data_frame * D) :=
  if negb (req_nfrm =? 1) then Some (TEEC_ERROR_BAD_PARAMETERS, req, rsp, d) else
  '(st, req, d) ← ioctl_frames d fd cmd req;
  if st <? 0 then Some (TEEC_ERROR_GENERIC, req, rsp, d) else
  let cmd2 := mkCmd 0 MMC_READ_MULTIPLE_BLOCK (c_flags cmd) (c_blksz cmd) (u32 rsp_nfrm) 0 0 in
  '(st, rsp, d) ← ioctl_frames d fd cmd2 rsp;
  if st <? 0 then Some (TEEC_ERROR_GENERIC, req, rsp, d)
  else Some (TEEC_SUCCESS, req, rsp, d).

(** [for (i = 1; i < req_nfrm; i++) if (req_frm[i].msg_type != msg_type)] *)
Definition same_type (msg_type : Z) (rest : list rpmb_data_frame) : bool :=
  forallb (fun f => f_msg_type f =? msg_type) rest.

(** [req] and [rsp] are the frames of the two buffers. *)
Definition rpmb_data_req (d : D) (fd : Z) (req rsp : list rpmb_data_frame)
  : option (Z * list rpmb_data_frame * list rpmb_data_frame * D) :=
  match req with
  | [] => None
  | first :: rest =>
      let req_nfrm := Z.of_nat (length req) in
      let rsp_nfrm := Z.of_nat (length rsp) in
      let msg_type := ntohs (f_msg_type first) in
      let cmd := mkCmd 1 MMC_WRITE_MULTIPLE_BLOCK (Z.lor MMC_RSP_R1 MMC_CMD_ADTC) 512
                   (u32 req_nfrm) 0 0 in
      if negb (same_type msg_type rest) then
        Some (TEEC_ERROR_BAD_PARAMETERS, req, rsp, d)
      else if (msg_type =? REQ_AUTH_KEY_PROGRAM) || (msg_type =? REQ_AUTH_DATA_WRITE) then
        data_req_write d fd cmd req rsp rsp_nfrm
      else if msg_type =? REQ_WRITE_COUNTER_VAL_READ then
        if negb (rsp_nfrm =? 1) then Some (TEEC_ERROR_BAD_PARAMETERS, req, rsp, d)
        else data_req_read d fd cmd req req_nfrm rsp rsp_nfrm
      else if msg_type =? REQ_AUTH_DATA_READ then
        data_req_read d fd cmd req req_nfrm rsp rsp_nfrm
      else Some (TEEC_ERROR_GENERIC, req, rsp, d)
  end.

(** [struct rpmb_dev_info]: 16 bytes of CID, two sizes and a return code;
    [ext_csd] is an uninitialised local. *)
Definition rpmb_get_dev_info (d : D) (dev_id : Z) (info : list Z) : option (Z * list Z * D) :=
  let '(res, cid, d) := read_cid d dev_id (take 16 info) in
  let info := cid ++ drop 16 info in
  if negb (res =? TEEC_SUCCESS) then Some (res, info, d) else
  let '(fd, d) := mmc_fd d dev_id in
  if fd <? 0 then Some (TEEC_ERROR_BAD_PARAMETERS, info, d) else
  '(res, ext_csd, d) ← read_ext_csd d fd (replicate 512 0);
  let info :=
    if negb (res =? TEEC_SUCCESS) then info
    else <[18%nat := RPMB_CMD_GET_DEV_INFO_RET_OK]>
           (<[16%nat := ext_csd !!! 168%nat]> (<[17%nat := ext_csd !!! 222%nat]> info)) in
  Some (res, info, close_mmc_fd d fd).

Definition load_frames (mem : list Z) (off n : nat) : list rpmb_data_frame :=
  map (fun i => frame_at mem (off + 512 * i)) (seq 0 n).
Definition store_frames (mem : list Z) (off : nat) (fs : list rpmb_data_frame) : list Z :=
  write_at mem off (concat (map frame_bytes fs)).

(** The two buffers are byte arrays; [sizeof(struct rpmb_req)] is 6 and
    [sizeof(struct rpmb_dev_info)] is 19. *)
Definition rpmb_process_request_unlocked (d : D) (req rsp : list Z)
  : option (Z * list Z * list Z * D) :=
  let req_size := Z.of_nat (length req) in
  let rsp_size := Z.of_nat (length rsp) in
  if req_size <? 6 then Some (TEEC_ERROR_BAD_PARAMETERS, req, rsp, d) else
  let cmd := load16 req 0 in
  let dev_id := load16 req 2 in
  if cmd =? RPMB_CMD_DATA_REQ then
    let req_nfrm := (req_size - 6) / 512 in
    let rsp_nfrm := rsp_size / 512 in
    let '(fd, d) := mmc_rpmb_fd d dev_id in
    if fd <? 0 then Some (TEEC_ERROR_BAD_PARAMETERS, req, rsp, d) else
    '(res, req_fs, rsp_fs, d) ← rpmb_data_req d fd (load_frames req 6 (Z.to_nat req_nfrm))
                                   (load_frames rsp 0 (Z.to_nat rsp_nfrm));
    Some (res, store_frames req 6 req_fs, store_frames rsp 0 rsp_fs, d)
  else if cmd =? RPMB_CMD_GET_DEV_INFO then
    if negb (req_size =? 6) || negb (rsp_size =? 19) then
      Some (TEEC_ERROR_BAD_PARAMETERS, req, rsp, d)
    else
      '(res, rsp, d) ← rpmb_get_dev_info d dev_id rsp;
      Some (res, req, rsp, d)
  else Some (TEEC_ERROR_BAD_PARAMETERS, req, rsp, d).

(** The mutex [rpmb_mutex] (held or not) is part of the state. *)
Definition rpmb_process_request (s : bool * D) (req rsp : list Z)
  : option (Z * list Z * list Z * (bool * D)) :=
  let '(locked, d) := s in
  if locked then None else
  '(res, req, rsp, d) ← rpmb_process_request_unlocked d req rsp;
  Some (res, req, rsp, (false, d)).

End Requests.

(** ** The emulated device (RPMB_EMU) *)

Definition EMU_RPMB_REL_WR_SEC_C : Z := 1.
Definition EMU_RPMB_SIZE_MULT : Z := 1.
Definition EMU_RPMB_SIZE_BYTES : Z := EMU_RPMB_SIZE_MULT * 128 * 1024.

Record rpmb_emu := mkEmu {
  e_buf : list Z;
  e_size : Z;
  e_key : list Z;
  e_key_set : bool;
  e_nonce : list Z;
  e_write_counter : Z;
  lo_msg_type : Z;
  lo_op_result : Z;
  lo_address : Z
}.

(** The static initialiser. *)
Definition rpmb_emu_init : rpmb_emu :=
  mkEmu (replicate (Z.to_nat EMU_RPMB_SIZE_BYTES) 0) EMU_RPMB_SIZE_BYTES (replicate 32 0) false
    (replicate 16 0) 0 0 0 0.

(** The static [sfd] of [mem_for_fd] and the device. *)
Record emu_world := mkWorld { w_sfd : Z; w_emu : rpmb_emu }.

Definition mem_for_fd (w : emu_world) (fd : Z) : bool * emu_world :=
  let sfd := if w_sfd w =? -1 then fd else w_sfd w in
  (sfd =? fd, mkWorld sfd (w_emu w)).

Definition hmac_update_frm (ctx : Sha2.hmac_sha256_ctx) (f : rpmb_data_frame)
  : Sha2.hmac_sha256_ctx :=
  let ctx := Sha2.hmac_sha256_update ctx (f_data f) 256 in
  let ctx := Sha2.hmac_sha256_update ctx (f_nonce f) 16 in
  let ctx := Sha2.hmac_sha256_update ctx (le32 (f_write_counter f)) 4 in
  let ctx := Sha2.hmac_sha256_update ctx (le16 (f_address f)) 2 in
  let ctx := Sha2.hmac_sha256_update ctx (le16 (f_block_count f)) 2 in
  let ctx := Sha2.hmac_sha256_update ctx (le16 (f_op_result f)) 2 in
  Sha2.hmac_sha256_update ctx (le16 (f_msg_type f)) 2.

(** The common part of [is_hmac_valid] and [compute_hmac]: the MAC of the
    first [nfrm] frames; there must be a last one. *)
Definition frames_hmac (mem : rpmb_emu) (fs : list rpmb_data_frame) (nfrm : nat)
  : option (list Z) :=
  if (0 <? nfrm)%nat && (nfrm <=? length fs)%nat then
    let ctx := Sha2.hmac_sha256_init Sha2.uninit_hmac (e_key mem) 32 in
    let ctx := foldl hmac_update_frm ctx (take nfrm fs) in
    Some (snd (Sha2.hmac_sha256_final ctx 32))
  else None.

Definition is_hmac_valid (mem : rpmb_emu) (fs : list rpmb_data_frame) (nfrm : nat)
  : option bool :=
  if negb (e_key_set mem) then Some false else
  mac ← frames_hmac mem fs nfrm;
  last ← fs !! (nfrm - 1)%nat;
  Some (bool_decide (mac = f_key_mac last)).

Definition set_key_mac (f : rpmb_data_frame) (mac : list Z) : rpmb_data_frame :=
  mkFrame (f_stuff_bytes f) mac (f_data f) (f_nonce f) (f_write_counter f)
    (f_address f) (f_block_count f) (f_op_result f) (f_msg_type f).

Definition compute_hmac (mem : rpmb_emu) (fs : list rpmb_data_frame) (nfrm : nat)
  : option (Z * list rpmb_data_frame) :=
  if negb (e_key_set mem) then Some (RPMB_RESULT_GENERAL_FAILURE, fs) else
  mac ← frames_hmac mem fs nfrm;
  last ← fs !! (nfrm - 1)%nat;
  Some (RPMB_RESULT_OK, <[(nfrm - 1)%nat := set_key_mac last mac]> fs).

(** One frame of the transfer loop. *)
Definition transfer_write (mem : rpmb_emu) (f : rpmb_data_frame) (off : nat)
  : rpmb_emu * rpmb_data_frame :=
  let wc := u32 (e_write_counter mem + 1) in
  (mkEmu (write_at (e_buf mem) off (f_data f)) (e_size mem) (e_key mem) (e_key_set mem)
     (e_nonce mem) wc (lo_msg_type mem) (lo_op_result mem) (lo_address mem),
   mkFrame (f_stuff_bytes f) (f_key_mac f) (f_data f) (f_nonce f) (htonl wc)
     (f_address f) (f_block_count f) RPMB_RESULT_OK (htons RESP_AUTH_DATA_WRITE)).

Definition transfer_read (mem : rpmb_emu) (f : rpmb_data_frame) (nfrm off : nat)
  : rpmb_data_frame :=
  mkFrame (f_stuff_bytes f) (f_key_mac f) (take 256 (drop off (e_buf mem))) (e_nonce mem)
    (f_write_counter f) (htons (lo_address mem)) (u16 (Z.of_nat nfrm)) RPMB_RESULT_OK
    (htons RESP_AUTH_DATA_READ).

Fixpoint transfer_loop (to_mmc : bool) (nfrm start n i : nat) (mem : rpmb_emu)
    (fs : list rpmb_data_frame) : option (rpmb_emu * list rpmb_data_frame) :=
  match n with
  | O => Some (mem, fs)
  | S n =>
      f ← fs !! i;
      let off := (start + i * 256)%nat in
      let '(mem, f) :=
        if to_mmc then transfer_write mem f off else (mem, transfer_read mem f nfrm off) in
      transfer_loop to_mmc nfrm start n (S i) mem (<[i := f]> fs)
  end.

Definition ioctl_emu_mem_transfer (mem : rpmb_emu) (fs : list rpmb_data_frame) (nfrm : nat)
    (to_mmc : bool) : option (Z * rpmb_emu * list rpmb_data_frame) :=
  let start := lo_address mem * 256 in
  let size := Z.of_nat nfrm * 256 in
  if (e_size mem <? start) || (e_size mem <? start + size) then
    Some (RPMB_RESULT_ADDRESS_FAILURE, mem, fs)
  else
    ok ← (if to_mmc then is_hmac_valid mem fs nfrm else Some true);
    if negb ok then Some (RPMB_RESULT_AUTH_FAILURE, mem, fs) else
    '(mem, fs) ← transfer_loop to_mmc nfrm (Z.to_nat start) nfrm 0 mem fs;
    if to_mmc then Some (RPMB_RESULT_OK, mem, fs) else
    '(_, fs) ← compute_hmac mem fs nfrm;
    Some (RPMB_RESULT_OK, mem, fs).

(** The operations on the first frame behind [data_ptr]. *)
Definition ioctl_emu_get_write_result (mem : rpmb_emu) (fs : list rpmb_data_frame)
  : option (list rpmb_data_frame) :=
  f ← fs !! 0%nat;
  let f := mkFrame (f_stuff_bytes f) (f_key_mac f) (f_data f) (f_nonce f)
    (htonl (e_write_counter mem)) (htons (lo_address mem)) (f_block_count f)
    (lo_op_result mem) (htons RESP_AUTH_DATA_WRITE) in
  '(_, fs) ← compute_hmac mem (<[0%nat := f]> fs) 1;
  Some fs.

Definition ioctl_emu_setkey (mem : rpmb_emu) (fs : list rpmb_data_frame)
  : option (Z * rpmb_emu) :=
  if e_key_set mem then Some (RPMB_RESULT_GENERAL_FAILURE, mem) else
  f ← fs !! 0%nat;
  Some (RPMB_RESULT_OK,
    mkEmu (e_buf mem) (e_size mem) (f_key_mac f) true (e_nonce mem) (e_write_counter mem)
      (lo_msg_type mem) (lo_op_result mem) (lo_address mem)).

Definition ioctl_emu_get_keyprog_result (mem : rpmb_emu) (fs : list rpmb_data_frame)
  : option (list rpmb_data_frame) :=
  f ← fs !! 0%nat;
  Some (<[0%nat := mkFrame (f_stuff_bytes f) (f_key_mac f) (f_data f) (f_nonce f)
    (f_write_counter f) (f_address f) (f_block_count f) (lo_op_result mem)
    (htons RESP_AUTH_KEY_PROGRAM)]> fs).

Definition set_op_result (f : rpmb_data_frame) (r : Z) : rpmb_data_frame :=
  mkFrame (f_stuff_bytes f) (f_key_mac f) (f_data f) (f_nonce f) (f_write_counter f)
    (f_address f) (f_block_count f) r (f_msg_type f).

Definition ioctl_emu_read_ctr (mem : rpmb_emu) (fs : list rpmb_data_frame)
  : option (list rpmb_data_frame) :=
  f ← fs !! 0%nat;
  let f := mkFrame (f_stuff_bytes f) (f_key_mac f) (f_data f) (e_nonce mem)
    (htonl (e_write_counter mem)) (f_address f) (f_block_count f) (f_op_result f)
    (htons RESP_WRITE_COUNTER_VAL_READ) in
  '(r, fs) ← compute_hmac mem (<[0%nat := f]> fs) 1;
  f ← fs !! 0%nat;
  Some (<[0%nat := set_op_result f r]> fs).

Definition test_cid : list Z :=
  [0xfe; 0x01; 0x4e; 0x4d; 0x4d; 0x43; 0x30; 0x34; 0x47; 0x42; 0xc8; 0xf6; 0x55; 0x2a;
   0x61; 0x15].

Definition ioctl_emu_set_ext_csd (ext_csd : list Z) : list Z :=
  <[222%nat := EMU_RPMB_REL_WR_SEC_C]> (<[168%nat := EMU_RPMB_SIZE_MULT]> ext_csd).

Definition set_last_op (mem : rpmb_emu) (msg_type op_result address : Z) : rpmb_emu :=
  mkEmu (e_buf mem) (e_size mem) (e_key mem) (e_key_set mem) (e_nonce mem)
    (e_write_counter mem) msg_type op_result address.

Definition set_nonce (mem : rpmb_emu) (nonce : list Z) : rpmb_emu :=
  mkEmu (e_buf mem) (e_size mem) (e_key mem) (e_key_set mem) nonce
    (e_write_counter mem) (lo_msg_type mem) (lo_op_result mem) (lo_address mem).

(** [case MMC_WRITE_MULTIPLE_BLOCK] *)
Definition emu_write_block (mem : rpmb_emu) (fs : list rpmb_data_frame) (blocks : nat)
  : option (rpmb_emu * list rpmb_data_frame) :=
  f ← fs !! 0%nat;
  let msg_type := ntohs (f_msg_type f) in
  if msg_type =? REQ_AUTH_KEY_PROGRAM then
    '(r, mem) ← ioctl_emu_setkey (set_last_op mem msg_type (lo_op_result mem) (lo_address mem)) fs;
    Some (set_last_op mem (lo_msg_type mem) r (lo_address mem), fs)
  else if msg_type =? REQ_AUTH_DATA_WRITE then
    '(r, mem, fs) ← ioctl_emu_mem_transfer
      (set_last_op mem msg_type (lo_op_result mem) (ntohs (f_address f))) fs blocks true;
    Some (set_last_op mem (lo_msg_type mem) r (lo_address mem), fs)
  else if (msg_type =? REQ_WRITE_COUNTER_VAL_READ) || (msg_type =? REQ_AUTH_DATA_READ) then
    Some (set_last_op (set_nonce mem (f_nonce f)) msg_type (lo_op_result mem)
            (ntohs (f_address f)), fs)
  else Some (mem, fs).

(** [case MMC_READ_MULTIPLE_BLOCK] *)
Definition emu_read_block (mem : rpmb_emu) (fs : list rpmb_data_frame) (blocks : nat)
  : option (rpmb_emu * list rpmb_data_frame) :=
  if lo_msg_type mem =? REQ_AUTH_KEY_PROGRAM then
    fs ← ioctl_emu_get_keyprog_result mem fs; Some (mem, fs)
  else if lo_msg_type mem =? REQ_AUTH_DATA_WRITE then
    fs ← ioctl_emu_get_write_result mem fs; Some (mem, fs)
  else if lo_msg_type mem =? REQ_WRITE_COUNTER_VAL_READ then
    fs ← ioctl_emu_read_ctr mem fs; Some (mem, fs)
  else if lo_msg_type mem =? REQ_AUTH_DATA_READ then
    '(_, mem, fs) ← ioctl_emu_mem_transfer mem fs blocks false; Some (mem, fs)
  else Some (mem, fs).

Definition ioctl_emu (w : emu_world) (fd request : Z) (cmd : mmc_ioc_cmd) (p : payload)
  : option (Z * payload * emu_world) :=
  let '(ok, w) := mem_for_fd w fd in
  if negb (request =? MMC_IOC_CMD) then Some (-1, p, w) else
  if negb ok then Some (-1, p, w) else
  let blocks := Z.to_nat (c_blocks cmd) in
  if c_opcode cmd =? MMC_SEND_EXT_CSD then
    match p with
    | PBytes b => Some (0, PBytes (ioctl_emu_set_ext_csd b), w)
    | PFrames _ => None
    end
  else if c_opcode cmd =? MMC_WRITE_MULTIPLE_BLOCK then
    match p with
    | PFrames fs =>
        '(mem, fs) ← emu_write_block (w_emu w) fs blocks;
        Some (0, PFrames fs, mkWorld (w_sfd w) mem)
    | PBytes _ => None
    end
  else if c_opcode cmd =? MMC_READ_MULTIPLE_BLOCK then
    match p with
    | PFrames fs =>
        _ ← fs !! 0%nat;
        '(mem, fs) ← emu_read_block (w_emu w) fs blocks;
        Some (0, PFrames fs, mkWorld (w_sfd w) mem)
    | PBytes _ => None
    end
  else Some (-1, p, w).

#[export] Instance emu_dev : RpmbDev emu_world := {|
  IOCTL := ioctl_emu;
  mmc_rpmb_fd w _ := (0, w);
  mmc_fd w _ := (0, w);
  close_mmc_fd w _ := w;
  read_cid w _ _ := (TEEC_SUCCESS, test_cid, w)
|}.

(** ** The kernel's MMC driver (without RPMB_EMU) *)
Section Hardware.
  (** The system calls: [open] of the RPMB and of the main partition of a
      device number and of its CID file, [ioctl], and two-byte [read]s. *)
  Context (K : Type)
    (open_rpmb open_mmc open_cid : K -> Z -> Z * K)
    (sys_ioctl : K -> Z -> Z -> mmc_ioc_cmd -> payload -> option (Z * payload * K))
    (read2 : K -> Z -> Z * list Z * K)
    (sys_close : K -> Z -> K).

Definition isspace (c : Z) : bool := (c =? 32) || ((9 <=? c) && (c <=? 13)).

Definition hex_digit (c : Z) : option Z :=
  if (48 <=? c) && (c <=? 57) then Some (c - 48)
  else if (97 <=? c) && (c <=? 102) then Some (c - 87)
  else if (65 <=? c) && (c <=? 70) then Some (c - 55)
  else None.

Fixpoint hex_digits (s : list Z) (acc : Z) : Z :=
  match s with
  | c :: s => match hex_digit c with Some d => hex_digits s (16 * acc + d) | None => acc end
  | [] => acc
  end.

(** [strtol(s, NULL, 16)] on a short string. *)
Definition strtol16 (s : list Z) : Z :=
  let fix skip s := match s with c :: s' => if isspace c then skip s' else s | [] => [] end in
  let s := skip s in
  let '(sgn, s) := match s with
    | c :: s' => if c =? 45 then (-1, s') else if c =? 43 then (1, s') else (1, s)
    | [] => (1, [])
    end in
  let s := match s with
    | c1 :: c2 :: c3 :: r =>
        if (c1 =? 48) && ((c2 =? 120) || (c2 =? 88)) && bool_decide (is_Some (hex_digit c3))
        then c3 :: r else s
    | _ => s
    end in
  sgn * hex_digits s 0.

(** The file descriptor and device number [mmc_rpmb_fd] keeps. *)
Record hw_world := mkHw { hw_id : Z; hw_fd : Z; hw_k : K }.

Definition hw_mmc_rpmb_fd (w : hw_world) (dev_id : Z) : Z * hw_world :=
  if hw_fd w <? 0 then
    let '(fd, k) := open_rpmb (hw_k w) dev_id in
    if fd <? 0 then (-1, mkHw (hw_id w) fd k) else (fd, mkHw dev_id fd k)
  else if negb (hw_id w =? dev_id) then (-1, w)
  else (hw_fd w, w).

Definition hw_mmc_fd (w : hw_world) (dev_id : Z) : Z * hw_world :=
  let '(fd, k) := open_mmc (hw_k w) dev_id in (fd, mkHw (hw_id w) (hw_fd w) k).

(** The sixteen reads: [hex] keeps its bytes where a read is short. *)
Fixpoint read_cid_loop (n i : nat) (k : K) (fd : Z) (hex cid : list Z) : Z * list Z * K :=
  match n with
  | O => (TEEC_SUCCESS, cid, k)
  | S n =>
      let '(st, bs, k) := read2 k fd in
      if st <? 0 then (TEEC_ERROR_NO_DATA, cid, k) else
      let hex := write_at hex 0 (take (Z.to_nat st) bs) in
      read_cid_loop n (S i) k fd hex (<[i := u8 (strtol16 (take 2 hex))]> cid)
  end.

Definition hw_read_cid (w : hw_world) (dev_id : Z) (cid : list Z) : Z * list Z * hw_world :=
  let '(fd, k) := open_cid (hw_k w) dev_id in
  if fd <? 0 then (TEEC_ERROR_ITEM_NOT_FOUND, cid, mkHw (hw_id w) (hw_fd w) k) else
  let '(res, cid, k) := read_cid_loop 16 0 k fd [0; 0; 0] cid in
  (res, cid, mkHw (hw_id w) (hw_fd w) (sys_close k fd)).

Definition hw_dev : RpmbDev hw_world := {|
  IOCTL w fd request cmd p :=
    '(st, p, k) ← sys_ioctl (hw_k w) fd request cmd p;
    Some (st, p, mkHw (hw_id w) (hw_fd w) k);
  mmc_rpmb_fd := hw_mmc_rpmb_fd;
  mmc_fd := hw_mmc_fd;
  close_mmc_fd w fd := mkHw (hw_id w) (hw_fd w) (sys_close (hw_k w) fd);
  read_cid := hw_read_cid
|}.

End Hardware.

(** ** Byte order lemmas *)

Lemma htons_arith x : htons x = x mod 256 * 256 + (x / 256) mod 256.
Proof.
  unfold htons, u8. rewrite Z.shiftr_div_pow2, lor_shiftl_add by lia_mod. done.
Qed.

Lemma htons_range x : 0 <= htons x < 65536.
Proof. rewrite htons_arith. lia_mod. Qed.

Lemma ntohs_range x : 0 <= ntohs x < 65536.
Proof. apply htons_range. Qed.

Lemma htons_invol x : 0 <= x < 65536 -> htons (htons x) = x.
Proof. intros. rewrite !htons_arith. lia_mod. Qed.

Lemma le16_length x : length (le16 x) = 2%nat.
Proof. done. Qed.
Lemma le32_length x : length (le32 x) = 4%nat.
Proof. done. Qed.

(** ** Well-formed frames and devices *)

Record wf_frame (f : rpmb_data_frame) : Prop := {
  wf_stuff : length (f_stuff_bytes f) = 196%nat;
  wf_mac : length (f_key_mac f) = 32%nat;
  wf_data : length (f_data f) = 256%nat;
  wf_nonce : length (f_nonce f) = 16%nat
}.

Record wf_emu (m : rpmb_emu) : Prop := {
  wf_buf : length (e_buf m) = Z.to_nat EMU_RPMB_SIZE_BYTES;
  wf_size : e_size m = EMU_RPMB_SIZE_BYTES;
  wf_key : length (e_key m) = 32%nat;
  wf_enonce : length (e_nonce m) = 16%nat;
  wf_counter : 0 <= e_write_counter m < 2 ^ 32;
  wf_addr : 0 <= lo_address m < 65536
}.

Lemma wf_init : wf_emu rpmb_emu_init.
Proof. split; cbn [e_buf e_size e_key e_nonce e_write_counter lo_address rpmb_emu_init];
  rewrite ?length_replicate; unfold EMU_RPMB_SIZE_BYTES; done || lia. Qed.

#[local] Opaque Sha2.Fips.hmac Sha2.hmac_sha256_init Sha2.hmac_sha256_final.

Create HintDb rpmb.
#[local] Hint Resolve htons_range ntohs_range wf_stuff wf_mac wf_data wf_nonce : rpmb.

(** ** The MAC *)

(** The bytes of a frame the MAC covers: from [data] to [msg_type]. *)
Definition mac_chunks (f : rpmb_data_frame) : list (list Z) :=
  [f_data f; f_nonce f; le32 (f_write_counter f); le16 (f_address f); le16 (f_block_count f);
   le16 (f_op_result f); le16 (f_msg_type f)].
Definition mac_input (fs : list rpmb_data_frame) : list Z := concat (concat (map mac_chunks fs)).

Lemma mac_input_length fs : Forall wf_frame fs -> length (mac_input fs) = (284 * length fs)%nat.
Proof.
  unfold mac_input. induction 1 as [|f fs Hf _ IH]; [done|].
  cbn [map concat mac_chunks app length]. rewrite !length_app, IH.
  rewrite (wf_data f), (wf_nonce f), le32_length, !le16_length by done. lia.
Qed.

Lemma hmac_update_frm_chunks f ctx :
  wf_frame f -> hmac_update_frm ctx f = Sha2.hmac_update_all ctx (mac_chunks f).
Proof.
  intros Hf. unfold hmac_update_frm, mac_chunks, Sha2.hmac_update_all. cbn [foldl].
  rewrite (wf_data f), (wf_nonce f), le32_length, !le16_length by done. reflexivity.
Qed.

Lemma hmac_update_frms fs ctx :
  Forall wf_frame fs ->
  foldl hmac_update_frm ctx fs = Sha2.hmac_update_all ctx (concat (map mac_chunks fs)).
Proof.
  intros H. revert ctx. induction H as [|f fs Hf _ IH]; intros ctx; [done|].
  cbn [foldl map concat]. rewrite IH, hmac_update_frm_chunks by done.
  unfold Sha2.hmac_update_all. rewrite foldl_app. reflexivity.
Qed.

Lemma uninit_hmac_shape : Sha2.hmac_shape Sha2.uninit_hmac.
Proof. repeat split. Qed.

(** The MAC the emulator computes is the HMAC of RFC 2104. *)
Lemma frames_hmac_rfc mem fs n :
  wf_emu mem -> Forall wf_frame fs -> (0 < n <= length fs)%nat -> (n <= 512)%nat ->
  frames_hmac mem fs n = Some (Sha2.Fips.hmac (e_key mem) (mac_input (take n fs))).
Proof.
  intros Hm Hf Hn Hb. unfold frames_hmac.
  rewrite (proj2 (Nat.ltb_lt 0 n)), (proj2 (Nat.leb_le n _)) by lia. cbn [andb]. f_equal.
  rewrite hmac_update_frms by (by apply Forall_take).
  change 32 with (Z.of_nat 32). rewrite <- (wf_key mem) at 1 by done.
  pose proof (mac_input_length (take n fs) (Forall_take _ _ _ Hf)) as HL.
  rewrite length_take in HL.
  assert (Z.of_nat (length (concat (concat (map mac_chunks (take n fs))))) < 2 ^ 29 - 64) as HB.
  { unfold mac_input in HL. rewrite HL. lia. }
  destruct (Sha2.hmac_init_inv Sha2.uninit_hmac (e_key mem) uninit_hmac_shape) as [Hi Hr].
  { rewrite wf_key by done. lia. }
  rewrite <- Hr, (Sha2.hmac_message _ (e_key mem)) by done.
  change (Z.to_nat (Z.of_nat 32)) with 32%nat. apply firstn_all2.
  by rewrite Sha2.hmac_length.
Qed.

(** ** The transfer loops *)

Definition frames_data (fs : list rpmb_data_frame) : list Z := concat (map f_data fs).

Lemma frames_data_length fs :
  Forall wf_frame fs -> length (frames_data fs) = (256 * length fs)%nat.
Proof.
  unfold frames_data. induction 1 as [|f fs Hf _ IH]; [done|].
  cbn [map concat length]. rewrite length_app, IH, (wf_data f) by done. lia.
Qed.

(** The device after [n] frames with data [d] were stored at [off]. *)
Definition after_write (mem : rpmb_emu) (off : nat) (d : list Z) (n : nat) : rpmb_emu :=
  mkEmu (write_at (e_buf mem) off d) (e_size mem) (e_key mem) (e_key_set mem) (e_nonce mem)
    (u32 (e_write_counter mem + Z.of_nat n)) (lo_msg_type mem) (lo_op_result mem)
    (lo_address mem).

Lemma transfer_loop_write nfrm start n i mem fs :
  Forall wf_frame fs -> (i + n <= length fs)%nat ->
  (start + (i + n) * 256 <= length (e_buf mem))%nat -> 0 <= e_write_counter mem < 2 ^ 32 ->
  exists fs', transfer_loop true nfrm start n i mem fs =
    Some (after_write mem (start + i * 256) (frames_data (take n (drop i fs))) n, fs') /\
  length fs' = length fs /\ Forall wf_frame fs'.
Proof.
  revert i mem fs. induction n as [|n IH]; intros i mem fs Hf Hi Hs Hc.
  - exists fs. split; [|done]. cbn [transfer_loop]. unfold after_write, frames_data.
    rewrite take_0. cbn [map concat]. rewrite Sha2.write_at_nil, Z.add_0_r, u32_small by lia. by destruct mem.
  - destruct (lookup_lt_is_Some_2 fs i) as [f Hl]; [lia|].
    pose proof (Forall_lookup_1 _ _ _ _ Hf Hl) as Wf.
    cbn [transfer_loop]. rewrite Hl. cbn [mbind option_bind].
    destruct (transfer_write mem f (start + i * 256)) as [m1 f1] eqn:E.
    unfold transfer_write in E. injection E as <- <-.
    match goal with |- context [transfer_loop _ _ _ _ _ ?m (<[i := ?f']> fs)] =>
      set (m1 := m); set (f1 := f') end.
    assert (wf_frame f1) as Wf1 by (destruct Wf; by split).
    destruct (IH (S i) m1 (<[i := f1]> fs)) as (fs' & E & L & W).
    + by apply Forall_insert.
    + rewrite length_insert. lia.
    + cbn. rewrite length_write_at; rewrite ?(wf_data f Wf); lia.
    + cbn. apply u32_range.
    + exists fs'. rewrite length_insert in L. split; [|done]. rewrite E. do 2 f_equal.
      unfold after_write, m1. cbn [e_buf e_size e_key e_key_set e_nonce e_write_counter
        lo_msg_type lo_op_result lo_address].
      rewrite drop_insert_lt by lia.
      rewrite (drop_S _ _ _ Hl). unfold frames_data. cbn [take map concat]. f_equal.
      * apply write_at_write_at; rewrite (wf_data f Wf); lia.
      * unfold u32. rewrite Zplus_mod_idemp_l. f_equal. lia.
Qed.

Lemma transfer_loop_read nfrm start n i mem fs :
  (i + n <= length fs)%nat ->
  transfer_loop false nfrm start n i mem fs =
    Some (mem, take i fs ++ imap (fun k f => transfer_read mem f nfrm (start + (i + k) * 256))
                 (take n (drop i fs)) ++ drop (i + n) fs).
Proof.
  revert i fs. induction n as [|n IH]; intros i fs Hi.
  - cbn [transfer_loop]. by rewrite take_0, app_nil_l, Nat.add_0_r, take_drop.
  - destruct (lookup_lt_is_Some_2 fs i) as [f Hl]; [lia|].
    cbn [transfer_loop]. rewrite Hl. cbn [mbind option_bind].
    rewrite IH by (rewrite length_insert; lia). do 2 f_equal.
    rewrite !drop_insert_lt by lia.
    erewrite take_S_r by (apply list_lookup_insert_eq; lia).
    rewrite take_insert_ge, <- app_assoc by lia. f_equal.
    rewrite (drop_S _ _ _ Hl). cbn [take app]. rewrite imap_cons, Nat.add_0_r.
    cbn [app]. f_equal. replace (i + S n)%nat with (S i + n)%nat by lia. f_equal.
    apply imap_ext. intros k g _. cbn. do 2 f_equal. lia.
Qed.

(** ** The transfers *)

Lemma transfer_bounds mem n :
  wf_emu mem ->
  (e_size mem <? lo_address mem * 256) || (e_size mem <? lo_address mem * 256 + Z.of_nat n * 256)
  = negb (lo_address mem + Z.of_nat n <=? 512).
Proof.
  intros Hm. rewrite (wf_size mem) by done. unfold EMU_RPMB_SIZE_BYTES, EMU_RPMB_SIZE_MULT.
  destruct (Z.leb_spec (lo_address mem + Z.of_nat n) 512); cbn [negb].
  - rewrite (proj2 (Z.ltb_ge _ _)), (proj2 (Z.ltb_ge _ _)) by lia. done.
  - rewrite (proj2 (Z.ltb_lt (1 * 128 * 1024) (_ + _))) by lia. apply orb_true_r.
Qed.

(** The last of [n] frames. *)
Definition mac_ok (mem : rpmb_emu) (fs : list rpmb_data_frame) (n : nat) : Prop :=
  e_key_set mem = true /\
  exists last, fs !! (n - 1)%nat = Some last /\
    f_key_mac last = Sha2.Fips.hmac (e_key mem) (mac_input (take n fs)).

Lemma is_hmac_valid_spec mem fs n :
  wf_emu mem -> Forall wf_frame fs -> (0 < n <= length fs)%nat -> (n <= 512)%nat ->
  exists b, is_hmac_valid mem fs n = Some b /\ (b = true <-> mac_ok mem fs n).
Proof.
  intros Hm Hf Hn Hb. unfold is_hmac_valid, mac_ok.
  destruct (e_key_set mem); cbn [negb]; [|by exists false; split; [done|]; split; [|intros []]].
  rewrite frames_hmac_rfc by done. cbn [mbind option_bind].
  destruct (lookup_lt_is_Some_2 fs (n - 1)) as [l Hl]; [lia|]. rewrite Hl.
  cbn [mbind option_bind].
  eexists. split; [done|]. rewrite bool_decide_eq_true. split.
  - intros E. split; [done|]. exists l. done.
  - intros (_ & l' & E & E'). congruence.
Qed.

(** A write is refused for its address, refused for its MAC, or stores the
    data of all its frames and advances the counter by their number. *)
Lemma mem_transfer_write mem fs n :
  wf_emu mem -> Forall wf_frame fs -> (0 < n <= length fs)%nat ->
  exists r mem' fs', ioctl_emu_mem_transfer mem fs n true = Some (r, mem', fs') /\
    length fs' = length fs /\ Forall wf_frame fs' /\
    ( (lo_address mem + Z.of_nat n > 512 /\ r = RPMB_RESULT_ADDRESS_FAILURE /\ mem' = mem)
    \/ (lo_address mem + Z.of_nat n <= 512 /\ ~ mac_ok mem fs n /\
        r = RPMB_RESULT_AUTH_FAILURE /\ mem' = mem)
    \/ (lo_address mem + Z.of_nat n <= 512 /\ mac_ok mem fs n /\ r = RPMB_RESULT_OK /\
        mem' = after_write mem (Z.to_nat (lo_address mem) * 256) (frames_data (take n fs)) n)).
Proof.
  intros Hm Hf Hn. unfold ioctl_emu_mem_transfer. rewrite transfer_bounds by done.
  destruct (Z.leb_spec (lo_address mem + Z.of_nat n) 512) as [Hb|Hb]; cbn [negb].
  2:{ exists RPMB_RESULT_ADDRESS_FAILURE, mem, fs. split_and!; try done. left. split_and!; try done. lia. }
  destruct (wf_addr mem Hm).
  destruct (is_hmac_valid_spec mem fs n Hm Hf Hn) as (b & -> & Hv); [lia|].
  cbn [mbind option_bind]. destruct b; cbn [negb].
  2:{ exists RPMB_RESULT_AUTH_FAILURE, mem, fs. split_and!; try done. right; left.
      split_and!; try done. intros Hk. by apply Hv in Hk. }
  destruct (transfer_loop_write n (Z.to_nat (lo_address mem * 256)) n 0 mem fs Hf) as (fs' & E & L & W).
  - lia.
  - rewrite (wf_buf mem Hm). unfold EMU_RPMB_SIZE_BYTES, EMU_RPMB_SIZE_MULT. lia.
  - by apply wf_counter.
  - rewrite E. cbn [mbind option_bind]. do 3 eexists. split; [done|]. split; [done|].
    split; [done|]. right; right. split_and!; try done; [by apply Hv|].
    rewrite drop_0. f_equal. lia.
Qed.

Lemma after_write_wf mem off d n :
  wf_emu mem -> (off + length d <= Z.to_nat EMU_RPMB_SIZE_BYTES)%nat ->
  wf_emu (after_write mem off d n).
Proof.
  intros [H1 H2 H3 H4 H5 H6] Hd. split; cbn; try done; [|apply u32_range].
  by rewrite length_write_at; rewrite ?H1.
Qed.

Lemma insert_wf fs i f : Forall wf_frame fs -> wf_frame f -> Forall wf_frame (<[i := f]> fs).
Proof. intros. by apply Forall_insert. Qed.

Lemma compute_hmac_wf mem fs n r fs' :
  wf_emu mem -> Forall wf_frame fs -> (n <= 512)%nat ->
  compute_hmac mem fs n = Some (r, fs') -> length fs' = length fs /\ Forall wf_frame fs'.
Proof.
  intros Hm Hf Hb. unfold compute_hmac. destruct (e_key_set mem); cbn [negb]; [|by intros [= <- <-]].
  destruct (frames_hmac mem fs n) as [mac|] eqn:E; [|done]. cbn [mbind option_bind].
  destruct (fs !! (n - 1)%nat) as [l|] eqn:El; [|done]. cbn [mbind option_bind].
  intros [= <- <-]. rewrite length_insert. split; [done|].
  assert ((0 < n <= length fs)%nat) as Hn.
  { unfold frames_hmac in E. destruct (Nat.ltb_spec 0 n), (Nat.leb_spec n (length fs));
      try done; lia. }
  rewrite frames_hmac_rfc in E by done. injection E as <-.
  apply insert_wf; [done|]. destruct (Forall_lookup_1 _ _ _ _ Hf El).
  split; try done. cbn. apply Sha2.hmac_length.
Qed.

(** With the key set, the MAC lands in the last frame and is valid. *)
Lemma compute_hmac_spec mem fs n :
  wf_emu mem -> Forall wf_frame fs -> (0 < n <= length fs)%nat -> (n <= 512)%nat ->
  e_key_set mem = true ->
  exists last, fs !! (n - 1)%nat = Some last /\
  let fs' := <[(n - 1)%nat := set_key_mac last (Sha2.Fips.hmac (e_key mem) (mac_input (take n fs)))]> fs in
  compute_hmac mem fs n = Some (RPMB_RESULT_OK, fs') /\ mac_ok mem fs' n.
Proof.
  intros Hm Hf Hn Hb Hk.
  destruct (lookup_lt_is_Some_2 fs (n - 1)) as [l Hl]; [lia|]. exists l. split; [done|].
  intros fs'. unfold compute_hmac. rewrite Hk, frames_hmac_rfc, Hl by done. split; [done|].
  split; [done|]. eexists. split; [apply list_lookup_insert_eq; lia|].
  cbn [f_key_mac set_key_mac]. f_equal. unfold mac_input, fs'. do 2 f_equal.
  rewrite take_insert_lt by lia. change (map mac_chunks) with (fmap (M:=list) mac_chunks).
  rewrite list_fmap_insert.
  symmetry. apply list_insert_id. rewrite list_lookup_fmap, lookup_take_lt, Hl by lia. done.
Qed.

(** ** The abstract RPMB: a key programmed once, blocks, a counter *)

Record rpmb_abs := mkAbs { a_key : option (list Z); a_buf : list Z; a_counter : Z }.

Inductive rpmb_spec_step : rpmb_abs -> rpmb_abs -> Prop :=
| spec_program k b c :
    length k = 32%nat -> rpmb_spec_step (mkAbs None b c) (mkAbs (Some k) b c)
| spec_write k b c a fs last :
    (0 < length fs)%nat -> 0 <= a -> a + Z.of_nat (length fs) <= 512 ->
    list.last fs = Some last ->
    f_key_mac last = Sha2.Fips.hmac k (mac_input fs) ->
    rpmb_spec_step (mkAbs (Some k) b c)
      (mkAbs (Some k) (write_at b (Z.to_nat a * 256) (frames_data fs))
         (u32 (c + Z.of_nat (length fs)))).

Definition abs_emu (m : rpmb_emu) : rpmb_abs :=
  mkAbs (if e_key_set m then Some (e_key m) else None) (e_buf m) (e_write_counter m).

Lemma abs_write m fs n a :
  wf_emu m -> (0 < n <= length fs)%nat -> a + Z.of_nat n <= 512 -> 0 <= a -> mac_ok m fs n ->
  rpmb_spec_step (abs_emu m) (abs_emu (after_write m (Z.to_nat a * 256) (frames_data (take n fs)) n)).
Proof.
  intros Hm Hn Ha Ha0 (Hk & l & Hl & Hmac). unfold abs_emu, after_write. cbn. rewrite Hk.
  pose proof (spec_write (e_key m) (e_buf m) (e_write_counter m) a (take n fs) l) as H.
  rewrite length_take_le in H by lia. apply H; try lia; [|done].
  rewrite last_lookup, length_take_le, lookup_take_lt by lia. rewrite <- Hl. f_equal. lia.
Qed.

(** A write transfer with any block count. *)
Lemma mem_transfer_write_any mem fs n r mem' fs' :
  wf_emu mem -> Forall wf_frame fs ->
  ioctl_emu_mem_transfer mem fs n true = Some (r, mem', fs') ->
  wf_emu mem' /\ lo_address mem' = lo_address mem /\ length fs' = length fs /\
  Forall wf_frame fs' /\ (mem' = mem \/ rpmb_spec_step (abs_emu mem) (abs_emu mem')).
Proof.
  intros Hm Hf H. destruct (decide (0 < n <= length fs)%nat) as [Hn|Hn].
  - destruct (mem_transfer_write mem fs n Hm Hf Hn) as (r1 & m1 & fs1 & E & L & W & C).
    rewrite E in H. injection H as -> -> ->. destruct (wf_addr mem Hm).
    destruct C as [(_ & _ & ->)|[(_ & _ & _ & ->)|(Hb & Hk & _ & ->)]]; [by eauto 6..|].
    split_and!; try done.
    + apply after_write_wf; [done|]. rewrite frames_data_length by (by apply Forall_take).
      rewrite length_take. unfold EMU_RPMB_SIZE_BYTES, EMU_RPMB_SIZE_MULT. lia.
    + right. by apply abs_write.
  - unfold ioctl_emu_mem_transfer, is_hmac_valid, frames_hmac in H.
    replace ((0 <? n)%nat && (n <=? length fs)%nat) with false in H
      by (destruct (Nat.ltb_spec 0 n), (Nat.leb_spec n (length fs)); done || lia).
    repeat case_match; simplify_eq/=; try done; eauto 6.
Qed.

Lemma mem_transfer_read_any mem fs n r mem' fs' :
  wf_emu mem -> Forall wf_frame fs ->
  ioctl_emu_mem_transfer mem fs n false = Some (r, mem', fs') ->
  mem' = mem /\ length fs' = length fs /\ Forall wf_frame fs'.
Proof.
  intros Hm Hf. unfold ioctl_emu_mem_transfer. rewrite transfer_bounds by done.
  destruct (Z.leb_spec (lo_address mem + Z.of_nat n) 512) as [Hb|Hb]; cbn [negb];
    [|by intros [= <- <- <-]].
  destruct (wf_addr mem Hm). cbn [mbind option_bind negb].
  destruct (transfer_loop false _ _ n 0 mem fs) as [[m1 fs1]|] eqn:E; [|done].
  cbn [mbind option_bind].
  assert (forall n i fs m1 fs1, Forall wf_frame fs ->
    (Z.to_nat (lo_address mem * 256) + (i + n) * 256 <= Z.to_nat EMU_RPMB_SIZE_BYTES)%nat ->
    forall k, transfer_loop false k (Z.to_nat (lo_address mem * 256)) n i mem fs = Some (m1, fs1) ->
    m1 = mem /\ length fs1 = length fs /\ Forall wf_frame fs1) as HL.
  { clear -Hm. induction n as [|n IH]; intros i fs m1 fs1 Hf Hb k; cbn [transfer_loop];
      [by intros [= <- <-]|].
    destruct (fs !! i) as [f|] eqn:Ef; [|done]. cbn [mbind option_bind]. intros H.
    pose proof (Forall_lookup_1 _ _ _ _ Hf Ef) as [W1 W2 W3 W4].
    apply IH in H as (-> & L & W); [by rewrite length_insert in L|apply insert_wf; [done|]|lia].
    split; cbn; try done; [|by apply wf_enonce].
    rewrite length_take, length_drop, (wf_buf mem Hm). lia. }
  apply HL in E as (-> & L & W); [|done|unfold EMU_RPMB_SIZE_BYTES, EMU_RPMB_SIZE_MULT; lia].
  destruct (compute_hmac mem fs1 n) as [[r1 fs2]|] eqn:Ec; [|done]. cbn [mbind option_bind].
  intros [= <- <- <-]. apply compute_hmac_wf in Ec as [L2 W2]; [|done..|lia].
  split_and!; [done|congruence|done].
Qed.

(** ** Frames in byte buffers *)

Lemma frame_bytes_length f : wf_frame f -> length (frame_bytes f) = 512%nat.
Proof.
  intros [W1 W2 W3 W4]. unfold frame_bytes.
  by rewrite !length_app, W1, W2, W3, W4, le32_length, !le16_length.
Qed.

Lemma load_frames_length mem off n : length (load_frames mem off n) = n.
Proof. unfold load_frames. by rewrite length_map, length_seq. Qed.

Lemma load_frames_wf mem off n :
  (off + 512 * n <= length mem)%nat -> Forall wf_frame (load_frames mem off n).
Proof.
  intros H. apply List.Forall_forall. intros f (i & <- & Hi%in_seq)%in_map_iff.
  split; cbn; rewrite length_take, length_drop; lia.
Qed.

Lemma frames_bytes_length fs :
  Forall wf_frame fs -> length (concat (map frame_bytes fs)) = (512 * length fs)%nat.
Proof.
  induction 1 as [|f fs Hf _ IH]; [done|]. cbn [map concat length].
  rewrite length_app, IH, frame_bytes_length by done. lia.
Qed.

Lemma store_frames_length mem off fs :
  Forall wf_frame fs -> (off + 512 * length fs <= length mem)%nat ->
  length (store_frames mem off fs) = length mem.
Proof.
  intros. unfold store_frames. rewrite length_write_at; rewrite ?frames_bytes_length; done || lia.
Qed.

(** ** The contract between the request layer and a device *)

Definition payload_wf (p : payload) : Prop :=
  match p with PFrames fs => Forall wf_frame fs | PBytes _ => True end.
Definition payload_same (p p' : payload) : Prop :=
  match p, p' with
  | PFrames fs, PFrames fs' => length fs' = length fs
  | PBytes b, PBytes b' => length b' = length b
  | _, _ => False
  end.

(** [Inv] is an invariant of the device and [R] relates its states before and
    after a call; payloads keep their shape. *)
Class RpmbDevLaws (D : Type) `{!RpmbDev D} (Inv : D -> Prop) (R : D -> D -> Prop) := {
  dev_refl :: Reflexive R;
  dev_trans :: Transitive R;
  ioctl_law d fd rq cmd p st p' d' :
    Inv d -> payload_wf p -> IOCTL d fd rq cmd p = Some (st, p', d') ->
    Inv d' /\ R d d' /\ payload_wf p' /\ payload_same p p';
  rpmb_fd_law d i fd d' : Inv d -> mmc_rpmb_fd d i = (fd, d') -> Inv d' /\ R d d';
  mmc_fd_law d i fd d' : Inv d -> mmc_fd d i = (fd, d') -> Inv d' /\ R d d';
  close_law d fd : Inv d -> Inv (close_mmc_fd d fd) /\ R d (close_mmc_fd d fd);
  cid_law d i cid res cid' d' :
    Inv d -> read_cid d i cid = (res, cid', d') -> length cid = 16%nat ->
    Inv d' /\ R d d' /\ length cid' = 16%nat
}.

Section Client.
  Context {D : Type} `{!RpmbDev D} (Inv : D -> Prop) (R : D -> D -> Prop)
    `{!RpmbDevLaws D Inv R}.

(** The effect of a call on the device and on both frame buffers. *)
Definition keeps (d : D) (req rsp : list rpmb_data_frame)
    (d' : D) (req' rsp' : list rpmb_data_frame) : Prop :=
  Inv d' /\ R d d' /\ Forall wf_frame req' /\ Forall wf_frame rsp' /\
  length req' = length req /\ length rsp' = length rsp.

Lemma ioctl_frames_law d fd cmd fs st fs' d' :
  Inv d -> Forall wf_frame fs -> ioctl_frames d fd cmd fs = Some (st, fs', d') ->
  Inv d' /\ R d d' /\ Forall wf_frame fs' /\ length fs' = length fs.
Proof.
  intros Hi Hf. unfold ioctl_frames.
  destruct (IOCTL d fd MMC_IOC_CMD cmd (PFrames fs)) as [[[s [fs1|]] d1]|] eqn:E; try done.
  intros [= <- <- <-]. by apply ioctl_law in E.
Qed.

Lemma result_read_wf r rest t :
  Forall wf_frame (r :: rest) -> Forall wf_frame (set_msg_type (clear_first_byte r) t :: rest).
Proof.
  intros Hf. inversion Hf as [|? ? [W1 W2 W3 W4] Hr]; subst. constructor; [|done]. split; try done.
  cbn. by rewrite length_insert.
Qed.

Ltac step_ioctl E :=
  match goal with |- context [ioctl_frames ?d ?fd ?c ?fs] =>
    destruct (ioctl_frames d fd c fs) as [[[? ?] ?]|] eqn:E; [|done];
    cbn [mbind option_bind]; apply ioctl_frames_law in E as (? & ? & ? & ?); [|done..]
  end.

Lemma data_req_write_law d fd cmd req rsp n res req' rsp' d' :
  Inv d -> Forall wf_frame req -> Forall wf_frame rsp ->
  data_req_write d fd cmd req rsp n = Some (res, req', rsp', d') ->
  keeps d req rsp d' req' rsp'.
Proof.
  intros Hi Hq Hr. unfold data_req_write, keeps. case_match; [by intros [= <- <- <- <-]|].
  step_ioctl E1. case_match; [by intros [= <- <- <- <-]|].
  destruct rsp as [|r rest]; [done|]. pose proof (result_read_wf r rest (htons REQ_RESULT_READ) Hr).
  step_ioctl E2. case_match; [intros [= <- <- <- <-]; split_and!; try done; by etrans|].
  step_ioctl E3. cbn [length] in *.
  case_match; intros [= <- <- <- <-]; split_and!; try done; try congruence;
    (etrans; [eassumption|]; by etrans).
Qed.

Lemma data_req_read_law d fd cmd req m rsp n res req' rsp' d' :
  Inv d -> Forall wf_frame req -> Forall wf_frame rsp ->
  data_req_read d fd cmd req m rsp n = Some (res, req', rsp', d') ->
  keeps d req rsp d' req' rsp'.
Proof.
  intros Hi Hq Hr. unfold data_req_read, keeps. case_match; [by intros [= <- <- <- <-]|].
  step_ioctl E1. case_match; [by intros [= <- <- <- <-]|].
  step_ioctl E2. case_match; intros [= <- <- <- <-]; split_and!; try done; by etrans.
Qed.

Lemma rpmb_data_req_law d fd req rsp res req' rsp' d' :
  Inv d -> Forall wf_frame req -> Forall wf_frame rsp ->
  rpmb_data_req d fd req rsp = Some (res, req', rsp', d') -> keeps d req rsp d' req' rsp'.
Proof.
  intros Hi Hq Hr. assert (keeps d req rsp d req rsp) as Hk by (unfold keeps; by split_and!).
  unfold rpmb_data_req. destruct req as [|f rest]; [done|].
  repeat case_match; try (intros [= <- <- <- <-]; exact Hk);
    eauto using data_req_write_law, data_req_read_law.
Qed.

Lemma rpmb_get_dev_info_law d i info res info' d' :
  Inv d -> length info = 19%nat -> rpmb_get_dev_info d i info = Some (res, info', d') ->
  Inv d' /\ R d d' /\ length info' = 19%nat.
Proof.
  intros Hi Hl. unfold rpmb_get_dev_info.
  destruct (read_cid d i (take 16 info)) as [[r1 cid] d1] eqn:E1.
  apply cid_law in E1 as (I1 & R1 & L1); [|done|by rewrite length_take, Hl].
  assert (length (cid ++ drop 16 info) = 19%nat) as L2 by (rewrite length_app, length_drop; lia).
  case_match; [by intros [= <- <- <-]|].
  destruct (mmc_fd d1 i) as [fd d2] eqn:E2. apply mmc_fd_law in E2 as (I2 & R2); [|done].
  case_match; [intros [= <- <- <-]; split_and!; try done; by etrans|].
  unfold read_ext_csd.
  destruct (IOCTL d2 fd _ _ _) as [[[st p1] d3]|] eqn:E3; [|done].
  apply ioctl_law in E3 as (I3 & R3 & _ & Hs); [|done..]. destruct p1; [done|].
  cbn [mbind option_bind]. intros [= <- <- <-]. destruct (close_law d3 fd I3) as [I4 R4].
  split_and!; [done| |by case_match; rewrite ?length_insert].
  etrans; [exact R1|]. etrans; [exact R2|]. by etrans.
Qed.

Lemma rpmb_process_request_law s req rsp res req' rsp' s' :
  Inv s.2 -> rpmb_process_request s req rsp = Some (res, req', rsp', s') ->
  Inv s'.2 /\ R s.2 s'.2 /\ s'.1 = false /\
  length req' = length req /\ length rsp' = length rsp.
Proof.
  destruct s as [[] d]; [done|]. unfold rpmb_process_request, rpmb_process_request_unlocked.
  cbn [snd]. intros Hi.
  destruct (Z.ltb_spec (Z.of_nat (length req)) 6); [by intros [= <- <- <- <-]|].
  case_match; [|case_match].
  - destruct (mmc_rpmb_fd d _) as [fd d1] eqn:E1. apply rpmb_fd_law in E1 as (I1 & R1); [|done].
    case_match; [by intros [= <- <- <- <-]|].
    destruct (rpmb_data_req _ _ _ _) as [[[[r q] p] d2]|] eqn:E2; [|done].
    apply rpmb_data_req_law in E2 as (I2 & R2 & W1 & W2 & L1 & L2);
      [|done|apply load_frames_wf..]; rewrite ?load_frames_length in *; try lia_mod.
    cbn. intros [= <- <- <- <-]. rewrite !store_frames_length by (done || lia_mod).
    split_and!; try done. by etrans.
  - case_match; [by intros [= <- <- <- <-]|].
    destruct (rpmb_get_dev_info d _ rsp) as [[[r p] d1]|] eqn:E; [|done].
    apply rpmb_get_dev_info_law in E as (I1 & R1 & L1); [|done|lia].
    cbn. intros [= <- <- <- <-]. split_and!; try done. lia.
  - by intros [= <- <- <- <-].
Qed.

End Client.

(** ** The emulator fulfils the contract *)

Lemma set_last_op_wf m t r a : wf_emu m -> 0 <= a < 65536 -> wf_emu (set_last_op m t r a).
Proof. intros [H1 H2 H3 H4 H5 H6] Ha. by split. Qed.

Lemma set_nonce_wf m n : wf_emu m -> length n = 16%nat -> wf_emu (set_nonce m n).
Proof. intros [H1 H2 H3 H4 H5 H6] Ha. by split. Qed.

#[local] Hint Resolve set_last_op_wf set_nonce_wf wf_addr : rpmb.

Lemma setkey_law m fs r m' :
  wf_emu m -> Forall wf_frame fs -> ioctl_emu_setkey m fs = Some (r, m') ->
  wf_emu m' /\ lo_address m' = lo_address m /\ rtc rpmb_spec_step (abs_emu m) (abs_emu m').
Proof.
  intros Hm Hf. unfold ioctl_emu_setkey. destruct (e_key_set m) eqn:Ek; [by intros [= <- <-]|].
  destruct (fs !! 0%nat) as [f|] eqn:E; [|done]. cbn [mbind option_bind].
  intros [= <- <-]. pose proof (Forall_lookup_1 _ _ _ _ Hf E) as Wf. destruct Hm. split_and!; try done.
  - split; try done. by apply wf_mac.
  - apply rtc_once. unfold abs_emu. cbn. rewrite Ek. constructor. by apply wf_mac.
Qed.

Lemma emu_write_block_law m fs n m' fs' :
  wf_emu m -> Forall wf_frame fs -> emu_write_block m fs n = Some (m', fs') ->
  wf_emu m' /\ rtc rpmb_spec_step (abs_emu m) (abs_emu m') /\
  Forall wf_frame fs' /\ length fs' = length fs.
Proof.
  intros Hm Hf. unfold emu_write_block. destruct (fs !! 0%nat) as [f|] eqn:E; [|done].
  pose proof (Forall_lookup_1 _ _ _ _ Hf E) as Wf. cbn [mbind option_bind].
  case_match; [|case_match; [|case_match]].
  - destruct (ioctl_emu_setkey _ fs) as [[r m1]|] eqn:Es; [|done]. cbn [mbind option_bind].
    apply setkey_law in Es as (W & A & R); [|by eauto with rpmb|done].
    intros [= <- <-]. split_and!; [|exact R|done..]. eauto with rpmb.
  - destruct (ioctl_emu_mem_transfer _ fs n true) as [[[r m1] fs1]|] eqn:Et; [|done].
    cbn [mbind option_bind]. apply mem_transfer_write_any in Et as (W & A & L & F & C);
      [|by eauto with rpmb|done].
    intros [= <- <-]. split_and!; [by eauto with rpmb| |done..].
    destruct C as [->|C]; [done|]. by apply rtc_once.
  - intros [= <- <-]. split_and!; [by eauto 6 with rpmb|done..].
  - by intros [= <- <-].
Qed.

Lemma emu_read_block_law m fs n m' fs' :
  wf_emu m -> Forall wf_frame fs -> emu_read_block m fs n = Some (m', fs') ->
  m' = m /\ Forall wf_frame fs' /\ length fs' = length fs.
Proof.
  intros Hm Hf. unfold emu_read_block, ioctl_emu_get_keyprog_result,
    ioctl_emu_get_write_result, ioctl_emu_read_ctr.
  case_match; [|case_match; [|case_match; [|case_match]]]; [..|by intros [= <- <-]].
  1-3: destruct (fs !! 0%nat) as [f|] eqn:E; [|done];
    pose proof (Forall_lookup_1 _ _ _ _ Hf E) as [W1 W2 W3 W4]; cbn [mbind option_bind].
  - intros [= <- <-]. rewrite length_insert. split_and!; try done. by apply insert_wf.
  - destruct (compute_hmac m _ 1) as [[r fs1]|] eqn:Ec; [|done]. cbn [mbind option_bind].
    apply compute_hmac_wf in Ec as [L W]; [|done|by apply insert_wf|lia].
    intros [= <- <-]. by rewrite length_insert in L.
  - destruct (compute_hmac m _ 1) as [[r fs1]|] eqn:Ec; [|done]. cbn [mbind option_bind].
    apply compute_hmac_wf in Ec as [L W]; [|done|apply insert_wf; [done|]|lia].
    2:{ split; try done. by apply wf_enonce. }
    destruct (fs1 !! 0%nat) as [g|] eqn:Eg; [|done]. cbn [mbind option_bind].
    intros [= <- <-]. rewrite !length_insert in *. split_and!; try done. apply insert_wf; [done|].
    destruct (Forall_lookup_1 _ _ _ _ W Eg). by split.
  - destruct (ioctl_emu_mem_transfer m fs n false) as [[[r m1] fs1]|] eqn:Et; [|done].
    cbn [mbind option_bind]. apply mem_transfer_read_any in Et as (-> & L & W); [|done..].
    by intros [= <- <-].
Qed.

Definition emu_inv (w : emu_world) : Prop := wf_emu (w_emu w).
Definition emu_rel (w w' : emu_world) : Prop :=
  rtc rpmb_spec_step (abs_emu (w_emu w)) (abs_emu (w_emu w')).

Lemma ioctl_emu_law w fd rq cmd p st p' w' :
  emu_inv w -> payload_wf p -> ioctl_emu w fd rq cmd p = Some (st, p', w') ->
  emu_inv w' /\ emu_rel w w' /\ payload_wf p' /\ payload_same p p'.
Proof.
  unfold emu_inv, emu_rel. intros Hi Hp. unfold ioctl_emu, mem_for_fd. cbn [w_emu w_sfd].
  assert (payload_same p p) as Hs by (by destruct p).
  case_match; [by intros [= <- <- <-]|]. case_match; [by intros [= <- <- <-]|].
  destruct (c_opcode cmd =? MMC_SEND_EXT_CSD);
    [destruct p; [done|]; intros [= <- <- <-]; split_and!; try done|].
  { cbn. unfold ioctl_emu_set_ext_csd. by rewrite !length_insert. }
  destruct (c_opcode cmd =? MMC_WRITE_MULTIPLE_BLOCK);
    [|destruct (c_opcode cmd =? MMC_READ_MULTIPLE_BLOCK); [|by intros [= <- <- <-]]];
    destruct p as [fs|]; try done.
  - destruct (emu_write_block _ fs _) as [[m1 fs1]|] eqn:E; [|done]. cbn [mbind option_bind].
    apply emu_write_block_law in E as (W & R & F & L); [|done..]. by intros [= <- <- <-].
  - destruct (fs !! 0%nat); [|done]. cbn [mbind option_bind].
    destruct (emu_read_block _ fs _) as [[m1 fs1]|] eqn:E; [|done]. cbn [mbind option_bind].
    apply emu_read_block_law in E as (-> & F & L); [|done..]. by intros [= <- <- <-].
Qed.

#[export] Instance emu_laws : RpmbDevLaws emu_world emu_inv emu_rel.
Proof.
  split.
  - intros w. apply rtc_refl.
  - intros w1 w2 w3 H1 H2. unfold emu_rel in *. by etrans.
  - apply ioctl_emu_law.
  - intros d i fd d' ? [= <- <-]. split; [done|apply rtc_refl].
  - intros d i fd d' ? [= <- <-]. split; [done|apply rtc_refl].
  - intros d fd Hd. split; [done|apply rtc_refl].
  - intros d i cid res cid' d' Hi [= <- <- <-] _. split; [exact Hi|]. split; [apply rtc_refl|done].
Qed.

(** Any sequence of requests from the secure world; [None] once a request
    did not return. *)
Definition serve_step (s s' : bool * emu_world) : Prop :=
  exists req rsp res req' rsp', rpmb_process_request s req rsp = Some (res, req', rsp', s').

(** C1: whatever bytes the secure world sends, in any number of requests,
    the emulated device moves only along the abstract RPMB: its key is
    programmed at most once, its blocks and counter change only by writes
    within the partition whose last frame carries the RFC 2104 HMAC of all
    frames of the request under the programmed key, and every such write of n
    frames stores their data and advances the counter by n.  The invariant of
    the device holds and the mutex is free at the end. *)
Theorem emu_requests_refine_spec s s' :
  wf_emu (w_emu s.2) -> rtc serve_step s s' ->
  wf_emu (w_emu s'.2) /\ rtc rpmb_spec_step (abs_emu (w_emu s.2)) (abs_emu (w_emu s'.2)) /\
  (s'.1 = s.1 \/ s'.1 = false).
Proof.
  intros Hw Hr. induction Hr as [s|s1 s2 s3 H12 _ IH].
  - split_and!; [done|apply rtc_refl|by left].
  - destruct H12 as (req & rsp & res & req' & rsp' & E).
    apply (rpmb_process_request_law emu_inv emu_rel) in E as (I & R & L & _ & _); [|done].
    destruct (IH I) as (I' & R' & L'). split_and!; [done|by etrans|right].
    destruct L' as [->| ->]; [exact L|done].
Qed.

(** ** What the requests do on the emulator *)

(** Decides the comparisons of constants in the goal. *)
Ltac eval_eqb :=
  repeat match goal with
  | |- context [?x =? ?y] =>
      let b := eval vm_compute in (x =? y) in
      match b with true => change (x =? y) with true | false => change (x =? y) with false end
  end; cbn [negb orb]; cbv iota.

(** The emulator answers descriptor 0. *)
Definition fd_ok (w : emu_world) : Prop := w_sfd w = -1 \/ w_sfd w = 0.

Lemma mem_for_fd_0 w : fd_ok w -> mem_for_fd w 0 = (true, mkWorld 0 (w_emu w)).
Proof. unfold mem_for_fd. by intros [-> | ->]. Qed.

Lemma ioctl_write_0 w cmd fs :
  fd_ok w -> c_opcode cmd = MMC_WRITE_MULTIPLE_BLOCK ->
  ioctl_frames w 0 cmd fs =
    '(m, fs) ← emu_write_block (w_emu w) fs (Z.to_nat (c_blocks cmd));
    Some (0, fs, mkWorld 0 m).
Proof.
  intros Hw Ho. unfold ioctl_frames, IOCTL, emu_dev, ioctl_emu.
  rewrite mem_for_fd_0, Ho by done. eval_eqb. cbn [w_emu w_sfd].
  by destruct (emu_write_block _ _ _) as [[??]|].
Qed.

Lemma ioctl_read_0 w cmd f fs :
  fd_ok w -> c_opcode cmd = MMC_READ_MULTIPLE_BLOCK ->
  ioctl_frames w 0 cmd (f :: fs) =
    '(m, fs) ← emu_read_block (w_emu w) (f :: fs) (Z.to_nat (c_blocks cmd));
    Some (0, fs, mkWorld 0 m).
Proof.
  intros Hw Ho. unfold ioctl_frames, IOCTL, emu_dev, ioctl_emu.
  rewrite mem_for_fd_0, Ho by done. eval_eqb.
  cbn [w_emu w_sfd lookup list_lookup mbind option_bind].
  by destruct (emu_read_block _ _ _) as [[??]|].
Qed.

(** The three outcomes of a one-frame data write, as the device's state and
    the result code of the response. *)
Definition write_outcome (m : rpmb_emu) (q : rpmb_data_frame) (code : Z) (m' : rpmb_emu) : Prop :=
  let a := ntohs (f_address q) in
  (a >= 512 /\ code = RPMB_RESULT_ADDRESS_FAILURE /\ abs_emu m' = abs_emu m) \/
  (a < 512 /\ ~ mac_ok m [q] 1 /\ code = RPMB_RESULT_AUTH_FAILURE /\ abs_emu m' = abs_emu m) \/
  (a < 512 /\ mac_ok m [q] 1 /\ code = RPMB_RESULT_OK /\
   abs_emu m' = mkAbs (Some (e_key m)) (write_at (e_buf m) (Z.to_nat a * 256) (f_data q))
                  (u32 (e_write_counter m + 1))).

Lemma emu_write_block_data m q :
  wf_emu m -> wf_frame q -> ntohs (f_msg_type q) = REQ_AUTH_DATA_WRITE ->
  exists m' q' code, emu_write_block m [q] 1 = Some (m', [q']) /\ wf_emu m' /\
    lo_msg_type m' = REQ_AUTH_DATA_WRITE /\ lo_op_result m' = code /\
    lo_address m' = ntohs (f_address q) /\ write_outcome m q code m'.
Proof.
  intros Hm Hq Ht. unfold emu_write_block. cbn [lookup list_lookup mbind option_bind].
  rewrite Ht. eval_eqb.
  set (m0 := set_last_op m REQ_AUTH_DATA_WRITE (lo_op_result m) (ntohs (f_address q))).
  assert (wf_emu m0) as Hm0 by (unfold m0; eauto with rpmb).
  pose proof (ntohs_range (f_address q)) as Ha.
  assert (Forall wf_frame [q]) as Hqs by (by constructor).
  destruct (mem_transfer_write m0 [q] 1 Hm0 Hqs) as (r & m1 & fs1 & E & L & W & C); [cbn; lia|].
  destruct fs1 as [|q1 [|? ?]]; [done| |done].
  destruct (mem_transfer_write_any _ _ _ _ _ _ Hm0 Hqs E) as (Hm1 & A1 & _ & _ & _).
  rewrite E. cbn [mbind option_bind]. eexists _, q1, r. split; [done|]. unfold write_outcome.
  split; [apply set_last_op_wf; [done|rewrite A1; exact Ha]|].
  change (lo_address m0) with (ntohs (f_address q)) in *.
  change (mac_ok m0 [q] 1) with (mac_ok m [q] 1) in C.
  destruct C as [(? & -> & ->)|[(? & ? & -> & ->)|(? & Hk & -> & ->)]];
    (split; [done|]; split; [done|]; split; [done|]).
  - left. split_and!; [lia|done|done].
  - right; left. split_and!; [lia|done|done|done].
  - right; right. split_and!; [lia|done|done|]. unfold abs_emu. cbn.
    destruct Hk as [-> _]. by rewrite app_nil_r.
Qed.

Lemma lookup_0_single {A} (x : A) : [x] !! 0%nat = Some x.
Proof. done. Qed.

(** Reading the result of the last write. *)
Lemma emu_read_block_result m r :
  wf_emu m -> wf_frame r -> lo_msg_type m = REQ_AUTH_DATA_WRITE ->
  exists r', emu_read_block m [r] 1 = Some (m, [r']) /\ wf_frame r' /\
    f_op_result r' = lo_op_result m /\ f_msg_type r' = htons RESP_AUTH_DATA_WRITE /\
    f_address r' = htons (lo_address m) /\ f_write_counter r' = htonl (e_write_counter m) /\
    (e_key_set m = true -> mac_ok m [r'] 1).
Proof.
  intros Hm Hr Ht. unfold emu_read_block. rewrite Ht. eval_eqb.
  unfold ioctl_emu_get_write_result. rewrite lookup_0_single. cbn [mbind option_bind insert list_insert].
  match goal with |- context [compute_hmac m [?f] 1] => set (f1 := f) end.
  assert (wf_frame f1) as W1 by (destruct Hr; by split).
  destruct (e_key_set m) eqn:Ek.
  - destruct (compute_hmac_spec m [f1] 1 Hm) as (l & Hl & E & Hk); [by constructor|cbn; lia|lia|done|].
    rewrite lookup_0_single in Hl. injection Hl as <-. rewrite E.
    cbn [mbind option_bind insert list_insert] in *. eexists. split; [done|].
    split_and!; try done. destruct W1. split; try done. apply Sha2.hmac_length.
  - unfold compute_hmac. rewrite Ek. cbn [negb mbind option_bind]. eexists. split; [done|].
    by split_and!.
Qed.

(** What a read of the blocks from [a] on returns in frame [j]. *)
Definition read_frame_ok (m : rpmb_emu) (a : Z) (j : nat) (nonce : list Z) (f : rpmb_data_frame)
  : Prop :=
  f_data f = take 256 (drop ((Z.to_nat a + j) * 256) (e_buf m)) /\ f_nonce f = nonce /\
  f_address f = htons a /\ f_op_result f = RPMB_RESULT_OK /\
  f_msg_type f = htons RESP_AUTH_DATA_READ.

Lemma emu_read_block_data m fs :
  wf_emu m -> Forall wf_frame fs -> lo_msg_type m = REQ_AUTH_DATA_READ -> e_key_set m = true ->
  (0 < length fs)%nat -> lo_address m + Z.of_nat (length fs) <= 512 ->
  exists fs', emu_read_block m fs (length fs) = Some (m, fs') /\ length fs' = length fs /\
    (forall j f, fs' !! j = Some f -> read_frame_ok m (lo_address m) j (e_nonce m) f) /\
    mac_ok m fs' (length fs).
Proof.
  intros Hm Hf Ht Hk Hn Ha. unfold emu_read_block. rewrite Ht. eval_eqb.
  unfold ioctl_emu_mem_transfer. rewrite transfer_bounds, (proj2 (Z.leb_le _ _)) by done.
  destruct (wf_addr m Hm).
  cbn [negb mbind option_bind]. rewrite transfer_loop_read by lia. cbn [mbind option_bind].
  rewrite take_0, app_nil_l, drop_0, firstn_all, (drop_ge fs), app_nil_r by lia.
  set (fs1 := imap _ fs).
  assert (length fs1 = length fs) as L1 by (unfold fs1; by rewrite length_imap).
  assert (forall j f, fs1 !! j = Some f ->
    wf_frame f /\ read_frame_ok m (lo_address m) j (e_nonce m) f) as Hr.
  { intros j f Hj. unfold fs1 in Hj. rewrite list_lookup_imap in Hj.
    destruct (fs !! j) as [g|] eqn:Eg; [|done]. injection Hj as <-.
    pose proof (lookup_lt_Some _ _ _ Eg). destruct (Forall_lookup_1 _ _ _ _ Hf Eg).
    pose proof (wf_buf m Hm) as Hb. pose proof (wf_enonce m Hm) as He.
    unfold EMU_RPMB_SIZE_BYTES, EMU_RPMB_SIZE_MULT in Hb.
    split; [split; cbn; try done|split_and!; try done].
    - rewrite length_take, length_drop. lia.
    - cbn. do 2 f_equal. lia. }
  assert (Forall wf_frame fs1) as W1 by (apply Forall_lookup; intros; by eapply Hr).
  destruct (compute_hmac_spec m fs1 (length fs) Hm W1) as (l & Hl & E & Hmac); [lia|lia|done|].
  rewrite E. cbn [mbind option_bind]. eexists. split; [done|].
  rewrite length_insert. split; [done|]. split; [|done].
  intros j f Hj. destruct (decide (j = (length fs - 1)%nat)) as [->|Hne].
  - rewrite list_lookup_insert_eq in Hj by lia. injection Hj as <-. by apply Hr in Hl as [_ Hl].
  - rewrite list_lookup_insert_ne in Hj by done. by apply Hr in Hj as [_ Hj].
Qed.

Lemma data_read_run w q rsp :
  wf_emu (w_emu w) -> fd_ok w -> e_key_set (w_emu w) = true -> wf_frame q ->
  Forall wf_frame rsp -> ntohs (f_msg_type q) = REQ_AUTH_DATA_READ ->
  (0 < length rsp)%nat -> ntohs (f_address q) + Z.of_nat (length rsp) <= 512 ->
  exists rsp' w', rpmb_data_req w 0 [q] rsp = Some (TEEC_SUCCESS, [q], rsp', w') /\
    length rsp' = length rsp /\ abs_emu (w_emu w') = abs_emu (w_emu w) /\
    (forall j f, rsp' !! j = Some f ->
       read_frame_ok (w_emu w) (ntohs (f_address q)) j (f_nonce q) f) /\
    mac_ok (w_emu w) rsp' (length rsp).
Proof.
  intros Hm Hw Hk Hq Hr Ht Hn Ha. pose proof (ntohs_range (f_address q)).
  unfold rpmb_data_req. rewrite Ht. cbn [length same_type forallb negb]. eval_eqb.
  unfold data_req_read. eval_eqb. rewrite ioctl_write_0 by done. cbn [c_blocks].
  unfold emu_write_block. rewrite lookup_0_single. cbn [mbind option_bind]. rewrite Ht.
  eval_eqb. change (0 <? 0) with false. cbn [mbind option_bind].
  set (m1 := set_last_op _ _ _ _).
  assert (wf_emu m1) as Hm1 by (unfold m1; eauto 6 with rpmb).
  destruct (emu_read_block_data m1 rsp Hm1 Hr) as (rsp' & E & L & Hf & Hmac); try done.
  destruct rsp as [|r rest]; [cbn in Hn; lia|].
  rewrite ioctl_read_0 by (done || by right). cbn [c_blocks w_emu].
  rewrite u32_small, Nat2Z.id by lia. rewrite E. cbn [mbind option_bind].
  change (0 <? 0) with false. cbv iota. do 2 eexists. split; [done|]. by split_and!.
Qed.

Lemma data_write_run w q r :
  wf_emu (w_emu w) -> fd_ok w -> wf_frame q -> wf_frame r ->
  ntohs (f_msg_type q) = REQ_AUTH_DATA_WRITE ->
  exists q' r' m', rpmb_data_req w 0 [q] [r] = Some (TEEC_SUCCESS, [q'], [r'], mkWorld 0 m') /\
    wf_emu m' /\ write_outcome (w_emu w) q (f_op_result r') m' /\
    f_msg_type r' = htons RESP_AUTH_DATA_WRITE /\
    f_address r' = htons (ntohs (f_address q)) /\
    f_write_counter r' = htonl (e_write_counter m') /\
    (e_key_set m' = true -> mac_ok m' [r'] 1).
Proof.
  intros Hm Hw Hq Hr Ht. unfold rpmb_data_req. rewrite Ht.
  cbn [length same_type forallb negb]. eval_eqb. unfold data_req_write. eval_eqb.
  rewrite ioctl_write_0 by done. cbn [c_blocks c_opcode c_flags c_blksz c_write_flag].
  change (Z.to_nat (u32 (Z.of_nat 1))) with 1%nat.
  destruct (emu_write_block_data (w_emu w) q Hm Hq Ht) as (m1 & q1 & code & -> & W1 & T1 & O1 & A1 & C1).
  cbn [mbind option_bind]. change (0 <? 0) with false. cbv iota.
  set (r1 := set_msg_type (clear_first_byte r) (htons REQ_RESULT_READ)).
  assert (wf_frame r1) as Wr1.
  { pose proof (result_read_wf r [] (htons REQ_RESULT_READ)) as H.
    assert (Forall wf_frame [r1]) as H1 by (apply H; by constructor). by inversion H1. }
  rewrite ioctl_write_0 by (done || by right). cbn [c_blocks w_emu].
  unfold emu_write_block. rewrite lookup_0_single. cbn [mbind option_bind].
  change (ntohs (f_msg_type r1)) with REQ_RESULT_READ. eval_eqb.
  change (0 <? 0) with false. cbn [mbind option_bind].
  rewrite ioctl_read_0 by (done || by right). cbn [c_blocks w_emu].
  change (Z.to_nat (u32 (Z.of_nat 1))) with 1%nat.
  destruct (emu_read_block_result m1 r1 W1 Wr1 T1) as (r2 & -> & _ & R1 & R2 & R3 & R4 & R5).
  cbn [mbind option_bind]. change (0 <? 0) with false. cbv iota.
  exists q1, r2, m1. split; [done|]. rewrite R1, R3, A1, O1. by split_and!.
Qed.

(** A data read request for any number of blocks inside the partition
    returns, for each block, the device's bytes, the request's nonce and the
    address, and a response whose last frame carries the HMAC of all response
    frames under the programmed key; the device keeps its contents. *)
Theorem data_read_returns_blocks w q rsp :
  wf_emu (w_emu w) -> fd_ok w -> e_key_set (w_emu w) = true -> wf_frame q ->
  Forall wf_frame rsp -> ntohs (f_msg_type q) = REQ_AUTH_DATA_READ ->
  (0 < length rsp)%nat -> ntohs (f_address q) + Z.of_nat (length rsp) <= 512 ->
  exists rsp' w', rpmb_data_req w 0 [q] rsp = Some (TEEC_SUCCESS, [q], rsp', w') /\
    length rsp' = length rsp /\ abs_emu (w_emu w') = abs_emu (w_emu w) /\
    (forall j f, rsp' !! j = Some f ->
       read_frame_ok (w_emu w) (ntohs (f_address q)) j (f_nonce q) f) /\
    mac_ok (w_emu w) rsp' (length rsp).
Proof. apply data_read_run. Qed.

(** A one-frame data write request always completes; its response tells
    which of the three outcomes happened (address outside the partition, MAC
    not valid or no key, or data stored and counter advanced by one), echoes
    the address, carries the counter after the request and, once a key is
    programmed, a valid MAC. *)
Theorem data_write_outcomes w q r :
  wf_emu (w_emu w) -> fd_ok w -> wf_frame q -> wf_frame r -> 0 <= f_address q < 65536 ->
  ntohs (f_msg_type q) = REQ_AUTH_DATA_WRITE ->
  exists q' r' m', rpmb_data_req w 0 [q] [r] = Some (TEEC_SUCCESS, [q'], [r'], mkWorld 0 m') /\
    write_outcome (w_emu w) q (f_op_result r') m' /\
    f_address r' = f_address q /\ f_write_counter r' = htonl (e_write_counter m') /\
    (e_key_set m' = true -> mac_ok m' [r'] 1).
Proof.
  intros Hm Hw Hq Hr Ha Ht.
  destruct (data_write_run w q r Hm Hw Hq Hr Ht) as (q' & r' & m' & E & _ & C & _ & A & Wc & K).
  exists q', r', m'. rewrite A. unfold ntohs. rewrite htons_invol by done. by split_and!.
Qed.

(** C6: what an authenticated write stores is what a later read of the same
    address returns. *)
Theorem write_read_roundtrip w q r rq rr :
  wf_emu (w_emu w) -> fd_ok w -> wf_frame q -> wf_frame r -> wf_frame rq -> wf_frame rr ->
  ntohs (f_msg_type q) = REQ_AUTH_DATA_WRITE -> ntohs (f_msg_type rq) = REQ_AUTH_DATA_READ ->
  f_address rq = f_address q -> ntohs (f_address q) < 512 -> mac_ok (w_emu w) [q] 1 ->
  exists q' r' w' rr' w'',
    rpmb_data_req w 0 [q] [r] = Some (TEEC_SUCCESS, [q'], [r'], w') /\
    f_op_result r' = RPMB_RESULT_OK /\
    rpmb_data_req w' 0 [rq] [rr] = Some (TEEC_SUCCESS, [rq], [rr'], w'') /\
    f_data rr' = f_data q /\ f_nonce rr' = f_nonce rq /\ mac_ok (w_emu w) [rr'] 1.
Proof.
  intros Hm Hw Hq Hr Hrq Hrr Ht Ht' Ha Hb Hmac.
  destruct (data_write_run w q r Hm Hw Hq Hr Ht) as (q' & r' & m' & E & Wm & C & _).
  destruct C as [(? & _)|[(_ & ? & _)|(_ & _ & Ho & Habs)]]; [lia|done|].
  unfold abs_emu in Habs. injection Habs as Hk Hbuf Hwc.
  destruct (e_key_set m') eqn:Hks; [|done]. injection Hk as Hk.
  pose proof (ntohs_range (f_address q)).
  destruct (data_read_run (mkWorld 0 m') rq [rr]) as (rr' & w'' & E2 & L & _ & Hf & Hmac');
    try done; [by right|by constructor|cbn; lia|cbn; rewrite Ha; lia|].
  destruct rr' as [|f [|? ?]]; [done| |done].
  exists q', r', (mkWorld 0 m'), f, w''. split_and!; try done.
  - destruct (Hf 0%nat f eq_refl) as [Hd _]. rewrite Hd. cbn [w_emu]. rewrite Ha, Hbuf, Nat.add_0_r.
    rewrite <- (wf_data q Hq). apply read_write_at. rewrite (wf_data q Hq), (wf_buf _ Hm).
    unfold EMU_RPMB_SIZE_BYTES, EMU_RPMB_SIZE_MULT. lia.
  - by destruct (Hf 0%nat f eq_refl) as (_ & -> & _).
  - destruct Hmac' as (_ & l & Hl & Hv). destruct Hmac as (Hks0 & _). split; [done|].
    exists l. split; [done|]. cbn [w_emu] in Hv. by rewrite Hk in Hv.
Qed.

(** ** Witnesses on a device whose key is programmed *)

Definition demo_emu : rpmb_emu :=
  mkEmu (replicate (Z.to_nat EMU_RPMB_SIZE_BYTES) 0) EMU_RPMB_SIZE_BYTES (replicate 32 7) true (replicate 16 0) 5 0 0 0.
Definition demo_world : emu_world := mkWorld (-1) demo_emu.
Definition demo_frame (msg : Z) (mac data : list Z) : rpmb_data_frame :=
  mkFrame (replicate 196 0) mac data (replicate 16 9) 0 (htons 3) 0 0 (htons msg).
Definition demo_write : rpmb_data_frame :=
  let f := demo_frame REQ_AUTH_DATA_WRITE (replicate 32 0) (replicate 256 42) in
  set_key_mac f (Sha2.Fips.hmac (replicate 32 7) (mac_input [f])).
Definition demo_read : rpmb_data_frame :=
  demo_frame REQ_AUTH_DATA_READ (replicate 32 0) (replicate 256 0).

Lemma demo_emu_wf : wf_emu demo_emu.
Proof.
  split; cbn [e_buf e_size e_key e_nonce e_write_counter lo_address demo_emu];
    rewrite ?length_replicate; done || lia.
Qed.
Lemma demo_write_wf : wf_frame demo_write.
Proof. split; [reflexivity|apply Sha2.hmac_length|reflexivity..]. Qed.
Lemma demo_read_wf : wf_frame demo_read.
Proof. by split. Qed.
Lemma mac_input_set_key_mac f mac : mac_input (take 1 [set_key_mac f mac]) = mac_input [f].
Proof. reflexivity. Qed.
Lemma demo_mac_ok : mac_ok demo_emu [demo_write] 1.
Proof.
  split; [done|]. exists demo_write. split; [done|].
  unfold demo_write. cbn zeta. rewrite (mac_input_set_key_mac (demo_frame _ _ _)). reflexivity.
Qed.
#[local] Hint Resolve demo_emu_wf demo_write_wf demo_read_wf demo_mac_ok : rpmb.

Lemma emu_requests_refine_spec_witness :
  wf_emu (w_emu (mkWorld 0 demo_emu)) /\
  rtc rpmb_spec_step (abs_emu (w_emu demo_world)) (abs_emu (w_emu (mkWorld 0 demo_emu))).
Proof.
  destruct (emu_requests_refine_spec (false, demo_world) (false, mkWorld 0 demo_emu))
    as (H1 & H2 & _); [exact demo_emu_wf| |split; [exact H1|exact H2]].
  apply rtc_once. exists [1; 0; 0; 0; 0; 0], (replicate 19 0). do 3 eexists. reflexivity.
Defined.

Lemma data_read_returns_blocks_witness :
  exists rsp' w', rpmb_data_req demo_world 0 [demo_read] [demo_read; demo_read]
    = Some (TEEC_SUCCESS, [demo_read], rsp', w') /\ length rsp' = 2%nat.
Proof.
  destruct (data_read_returns_blocks demo_world demo_read [demo_read; demo_read])
    as (rsp' & w' & H1 & H2 & _);
    [exact demo_emu_wf|by left|reflexivity|exact demo_read_wf
    |repeat constructor|reflexivity|cbn; lia|vm_compute; discriminate|].
  exists rsp', w'. split; [exact H1|exact H2].
Defined.

Lemma data_write_outcomes_witness :
  exists q' r' m', rpmb_data_req demo_world 0 [demo_write] [demo_read]
    = Some (TEEC_SUCCESS, [q'], [r'], mkWorld 0 m') /\
    write_outcome demo_emu demo_write (f_op_result r') m'.
Proof.
  destruct (data_write_outcomes demo_world demo_write demo_read)
    as (q' & r' & m' & H1 & H2 & _);
    [exact demo_emu_wf|by left|exact demo_write_wf|exact demo_read_wf
    |apply htons_range|reflexivity|].
  exists q', r', m'. split; [exact H1|exact H2].
Defined.

Lemma write_read_roundtrip_witness :
  exists q' r' w' rr' w'',
    rpmb_data_req demo_world 0 [demo_write] [demo_read] = Some (TEEC_SUCCESS, [q'], [r'], w') /\
    rpmb_data_req w' 0 [demo_read] [demo_read] = Some (TEEC_SUCCESS, [demo_read], [rr'], w'') /\
    f_data rr' = replicate 256 42.
Proof.
  destruct (write_read_roundtrip demo_world demo_write demo_read demo_read demo_read)
    as (q' & r' & w' & rr' & w'' & H1 & _ & H2 & H3 & _);
    [exact demo_emu_wf|by left|exact demo_write_wf|exact demo_read_wf..|reflexivity|reflexivity
    |reflexivity|reflexivity|exact demo_mac_ok|].
  exists q', r', w', rr', w''. split; [exact H1|]. split; [exact H2|exact H3].
Defined.

(** ** Rejected requests *)

(** For every device, a request with several frames of one valid type is
    rejected before any command is sent: the loop compares the frames'
    big-endian [msg_type] with the first one's type in host order, so on a
    little-endian host the multi-frame writes the protocol allows never reach
    the device. *)
Theorem multi_frame_rejected {D} `{!RpmbDev D} (d : D) fd f rest rsp :
  rest <> [] -> Forall (fun g => f_msg_type g = f_msg_type f) rest ->
  0 <= f_msg_type f < 65536 -> 1 <= ntohs (f_msg_type f) <= 4 ->
  rpmb_data_req d fd (f :: rest) rsp = Some (TEEC_ERROR_BAD_PARAMETERS, f :: rest, rsp, d).
Proof.
  intros Hne Hs Hr Ht. unfold rpmb_data_req. destruct rest as [|g rest]; [done|].
  inversion Hs as [|? ? Hg _]; subst. cbn [same_type forallb]. rewrite Hg.
  replace (f_msg_type f =? ntohs (f_msg_type f)) with false; [done|].
  symmetry. apply Z.eqb_neq. intros E. unfold ntohs in *. rewrite htons_arith in *. lia_mod.
Qed.

Lemma multi_frame_rejected_witness :
  rpmb_data_req demo_world 0 [demo_write; demo_write] [demo_read]
  = Some (TEEC_ERROR_BAD_PARAMETERS, [demo_write; demo_write], [demo_read], demo_world).
Proof.
  apply (multi_frame_rejected demo_world 0 demo_write [demo_write] [demo_read]);
    [discriminate|repeat constructor|apply htons_range|vm_compute; split; discriminate].
Defined.

(** The validation of [rpmb_process_request], for every device: a buffer
    without a complete header, an unknown command and a device-information
    request with wrong sizes are answered with TEEC_ERROR_BAD_PARAMETERS
    without touching the device or the buffers; a data request without a
    complete frame is not rejected, and its first frame is read past the end
    of the buffer. *)
Theorem process_request_validation {D} `{!RpmbDev D} (d : D) req rsp :
  let bad := Some (TEEC_ERROR_BAD_PARAMETERS, req, rsp, (false, d)) in
  ((length req < 6)%nat -> rpmb_process_request (false, d) req rsp = bad) /\
  ((6 <= length req)%nat -> load16 req 0 <> RPMB_CMD_DATA_REQ ->
   load16 req 0 <> RPMB_CMD_GET_DEV_INFO -> rpmb_process_request (false, d) req rsp = bad) /\
  ((6 <= length req)%nat -> load16 req 0 = RPMB_CMD_GET_DEV_INFO ->
   length req <> 6%nat \/ length rsp <> 19%nat ->
   rpmb_process_request (false, d) req rsp = bad) /\
  ((6 <= length req < 518)%nat -> load16 req 0 = RPMB_CMD_DATA_REQ ->
   0 <= fst (mmc_rpmb_fd d (load16 req 2)) -> rpmb_process_request (false, d) req rsp = None).
Proof.
  intros bad. unfold rpmb_process_request, rpmb_process_request_unlocked. split_and!.
  - intros H. by rewrite (proj2 (Z.ltb_lt _ _)) by lia.
  - intros H H0 H1. rewrite (proj2 (Z.ltb_ge _ _)) by lia.
    by rewrite (proj2 (Z.eqb_neq _ _) H0), (proj2 (Z.eqb_neq _ _) H1).
  - intros H H0 Hs. rewrite (proj2 (Z.ltb_ge _ _)) by lia. rewrite H0.
    change (RPMB_CMD_GET_DEV_INFO =? RPMB_CMD_DATA_REQ) with false.
    change (RPMB_CMD_GET_DEV_INFO =? RPMB_CMD_GET_DEV_INFO) with true. cbv iota.
    replace (negb (Z.of_nat (length req) =? 6) || negb (Z.of_nat (length rsp) =? 19)) with true;
      [done|].
    destruct (Z.eqb_spec (Z.of_nat (length req)) 6), (Z.eqb_spec (Z.of_nat (length rsp)) 19);
      cbn; lia || done.
  - intros H H0 Hfd. rewrite (proj2 (Z.ltb_ge _ _)) by lia. rewrite H0.
    change (RPMB_CMD_DATA_REQ =? RPMB_CMD_DATA_REQ) with true. cbv iota.
    destruct (mmc_rpmb_fd d (load16 req 2)) as [fd d1]. cbn [fst] in Hfd.
    rewrite (proj2 (Z.ltb_ge _ _)) by lia.
    by rewrite (Z.div_small (Z.of_nat (length req) - 6)) by lia.
Qed.

Lemma process_request_validation_witness :
  rpmb_process_request (false, demo_world) [1; 0; 0; 0; 0; 0] [] =
    Some (TEEC_ERROR_BAD_PARAMETERS, [1; 0; 0; 0; 0; 0], [], (false, demo_world)) /\
  rpmb_process_request (false, demo_world) [0; 0; 0; 0; 0; 0] [] = None.
Proof.
  split.
  - apply (process_request_validation demo_world [1; 0; 0; 0; 0; 0] []);
      [cbn; lia|reflexivity|right; discriminate].
  - apply (process_request_validation demo_world [0; 0; 0; 0; 0; 0] []);
      [cbn; lia|reflexivity|cbn; lia].
Defined.

(** ** The CID file of the hardware build *)

Definition hex_char (d : Z) : Z := if d <? 10 then 48 + d else 87 + d.
Definition hex_byte (b : Z) : list Z := [hex_char (b / 16); hex_char (b mod 16)].

Lemma hex_char_digit d : 0 <= d < 16 -> hex_digit (hex_char d) = Some d.
Proof.
  intros Hd. unfold hex_digit, hex_char.
  destruct (Z.ltb_spec d 10);
    repeat match goal with |- context [?a <=? ?b] => destruct (Z.leb_spec a b) end;
    cbn [andb]; f_equal; lia.
Qed.

Lemma strtol16_byte b : 0 <= b < 256 -> strtol16 (hex_byte b) = b.
Proof.
  intros Hb. assert (0 <= b / 16 < 16) as H1 by lia_mod. assert (0 <= b mod 16 < 16) as H2 by lia_mod.
  unfold hex_byte, strtol16.
  assert (48 <= hex_char (b / 16)) as Hc by (unfold hex_char; case_match; lia).
  replace (isspace (hex_char (b / 16))) with false
    by (unfold isspace; symmetry; apply orb_false_iff; split;
        [apply Z.eqb_neq; lia|apply andb_false_iff; right; apply Z.leb_gt; lia]).
  rewrite !(proj2 (Z.eqb_neq (hex_char (b / 16)) _)) by lia. cbn [hex_digits].
  rewrite !hex_char_digit by done. lia_mod.
Qed.

Section HardwareCid.
  Context (K : Type) (open_cid : K -> Z -> Z * K) (read2 : K -> Z -> Z * list Z * K)
    (sys_close : K -> Z -> K) (content : K -> list Z).
  (** What is left of the open file; [read] of two bytes that are there
      returns them and advances. *)
  Hypothesis read2_spec : forall k fd c1 c2 l, content k = c1 :: c2 :: l ->
    exists k', read2 k fd = (2, [c1; c2], k') /\ content k' = l.

Lemma read_cid_loop_hex fd bs rest k i hex cid :
  Forall (fun b => 0 <= b < 256) bs -> length hex = 3%nat -> (i + length bs <= length cid)%nat ->
  content k = concat (map hex_byte bs) ++ rest ->
  exists k', read_cid_loop K read2 (length bs) i k fd hex cid
    = (TEEC_SUCCESS, write_at cid i bs, k').
Proof.
  intros Hb. revert k i hex cid. induction Hb as [|b bs Hb Hbs IH]; intros k i hex cid Hh Hl Hc.
  - exists k. by rewrite Sha2.write_at_nil.
  - cbn [map concat] in Hc. rewrite <- app_assoc in Hc.
    destruct (read2_spec k fd _ _ _ Hc) as (k1 & E & Hc1).
    cbn [length read_cid_loop]. rewrite E. change (2 <? 0) with false. cbv iota.
    change (take (Z.to_nat 2) [hex_char (b / 16); hex_char (b mod 16)]) with (hex_byte b).
    destruct hex as [|h0 [|h1 [|h2 [|? ?]]]]; try done.
    change (write_at [h0; h1; h2] 0 (hex_byte b)) with (hex_byte b ++ [h2]).
    change (take 2 (hex_byte b ++ [h2])) with (hex_byte b).
    rewrite strtol16_byte, u8_small by lia. cbn [length] in Hl.
    destruct (IH k1 (S i) (hex_byte b ++ [h2]) (<[i := b]> cid)) as (k2 & ->);
      [done|rewrite length_insert; lia|done|].
    exists k2. do 2 f_equal.
    assert (<[i := b]> cid = write_at cid i [b]) as ->.
    { unfold write_at. cbn [length]. rewrite Nat.add_1_r. by apply insert_take_drop; lia. }
    rewrite (write_at_write_at cid i [b] bs) by (cbn; lia). done.
Qed.

(** In the hardware build [read_cid] turns the 32 hexadecimal digits the
    kernel prints for a device's CID register back into its 16 bytes. *)
Theorem hw_read_cid_hex w dev_id fd k bs rest cid :
  open_cid (hw_k K w) dev_id = (fd, k) -> 0 <= fd -> length bs = 16%nat -> length cid = 16%nat ->
  Forall (fun b => 0 <= b < 256) bs -> content k = concat (map hex_byte bs) ++ rest ->
  exists w', hw_read_cid K open_cid read2 sys_close w dev_id cid = (TEEC_SUCCESS, bs, w').
Proof.
  intros Ho Hf Lb Lc Hb Hc. unfold hw_read_cid. rewrite Ho, (proj2 (Z.ltb_ge _ _)) by lia.
  destruct (read_cid_loop_hex fd bs rest k 0 [0; 0; 0] cid) as (k' & E); try done; [lia|].
  rewrite Lb in E. rewrite E. eexists. do 2 f_equal. unfold write_at.
  rewrite drop_ge by lia. by rewrite take_0, app_nil_r.
Qed.
End HardwareCid.

(** A file is the list of its remaining bytes. *)
Lemma hw_read_cid_hex_witness :
  exists w', hw_read_cid (list Z) (fun k _ => (3, k)) (fun k _ => (2, take 2 k, drop 2 k))
    (fun k _ => k) (mkHw (list Z) 0 (-1) (concat (map hex_byte test_cid) ++ [10])) 1
    (replicate 16 0) = (TEEC_SUCCESS, test_cid, w').
Proof.
  apply (hw_read_cid_hex (list Z) (fun k _ => (3, k)) (fun k _ => (2, take 2 k, drop 2 k))
    (fun k _ => k) (fun k => k)) with (fd := 3)
    (k := concat (map hex_byte test_cid) ++ [10]) (rest := [10]);
    [|reflexivity|lia|reflexivity|reflexivity|repeat (constructor; [lia|]); constructor|reflexivity].
  intros k fd c1 c2 l ->. exists l. split; reflexivity.
Defined.

End Rpmb.
