(* ===== verification/PqFirm.v ===== *)
(** * The firmware text of the display PQ daemon (display/pq/trans_info.c)

    The daemon keeps display tuning values in a text file as lists
    [{a,b,...}].  [trans_firm_data] parses such a list, [data_to_firm] prints
    one value into a buffer, [get_ic_de] finds the chip in a sysfs text.
    Characters are their codes (0..255; [char] is unsigned on ARM); [None] is
    a read past the end of the text. *)

From stdpp Require Import base tactics option list list_numbers numbers.
From Stdlib Require Import ZArith Lia.
From S2P Require Import Prelude.

Local Open Scope Z_scope.

Module PqFirm.

(** ** C library *)

Definition isspace (c : Z) : bool := (c =? 32) || ((9 <=? c) && (c <=? 13)).
Definition isdigit (c : Z) : bool := (48 <=? c) && (c <=? 57).

Fixpoint digits_value (s : list Z) (acc : Z) : Z :=
  match s with
  | c :: s => if isdigit c then digits_value s (10 * acc + (c - 48)) else acc
  | [] => acc
  end.

Fixpoint skip_space (s : list Z) : list Z :=
  match s with c :: s' => if isspace c then skip_space s' else s | [] => [] end.

(** [atoi] is [strtol] (saturating at the 64-bit [long]) cut to [int]. *)
Definition atoi (s : list Z) : Z :=
  let s := skip_space s in
  let v := match s with
    | c :: s' =>
        if c =? 45 then - digits_value s' 0
        else if c =? 43 then digits_value s' 0 else digits_value s 0
    | [] => 0
    end in
  s32 (Z.max (- 2 ^ 63) (Z.min v (2 ^ 63 - 1))).

Fixpoint prefix_of (p s : list Z) : bool :=
  match p, s with
  | [], _ => true
  | a :: p, b :: s => (a =? b) && prefix_of p s
  | _ :: _, [] => false
  end.

(** [strstr]: the rest of the text from the first occurrence on. *)
Fixpoint strstr (s needle : list Z) : option (list Z) :=
  if prefix_of needle s then Some s else
  match s with _ :: s => strstr s needle | [] => None end.

(** ** Parsing *)

Definition LBRACE : Z := 123.
Definition RBRACE : Z := 125.
Definition COMMA : Z := 44.

(** [while (buf[i] != '}') { if (buf[i] == ',') num++; i++; }] *)
Fixpoint count_commas (buf : list Z) : option Z :=
  match buf with
  | [] => None
  | c :: rest =>
      if c =? RBRACE then Some 0 else
      n ← count_commas rest; Some (if c =? COMMA then n + 1 else n)
  end.

(** The second loop: the index after each comma. *)
Fixpoint comma_pos (buf : list Z) (i : Z) : option (list Z) :=
  match buf with
  | [] => None
  | c :: rest =>
      if c =? RBRACE then Some [] else
      l ← comma_pos rest (i + 1); Some (if c =? COMMA then (i + 1) :: l else l)
  end.

(** The result is [NULL] or the values, and the new [*need]. *)
Definition trans_firm_data (buf : list Z) (need : Z) : option (option (list Z) * Z) :=
  n ← count_commas buf;
  let num := n + 1 in
  if (0 <? need) && (num <? need) then Some (None, need) else
  pos ← comma_pos buf 0;
  let nu_re := 1 :: pos in
  let reg := map (fun p => atoi (drop (Z.to_nat p) buf)) nu_re in
  Some (Some reg, Z.of_nat (length reg)).

(** ** Printing *)

(** [while ((value/10) && i < 20) { d[i++] = value%10 + '0'; value = value/10; }] *)
Fixpoint digit_loop (fuel : nat) (value : Z) : list Z :=
  match fuel with
  | O => []
  | S fuel =>
      if Z.quot value 10 =? 0 then []
      else u8 (Z.rem value 10 + 48) :: digit_loop fuel (Z.quot value 10)
  end.

(** The contents of [d] that are copied, [d[0]] first. *)
Definition firm_digits (value : Z) : list Z :=
  match digit_loop 20 value with
  | [] => [u8 (Z.rem value 10 + 48)]
  | d => d
  end.

(** [while (i > 0 && next < length) firm[next++] = d[--i];] on the reversed [d] *)
Fixpoint put_digits (firm : list Z) (length next : Z) (ds : list Z) : list Z * Z :=
  match ds with
  | [] => (firm, next)
  | d :: ds =>
      if next <? length then put_digits (<[Z.to_nat next := d]> firm) length (next + 1) ds
      else (firm, next)
  end.

(** [firm] is [NULL] or a buffer of [length] bytes. *)
Definition data_to_firm (firm : option (list Z)) (length next value : Z)
  : option (list Z) * Z :=
  match firm with
  | None => (None, 0)
  | Some firm =>
      let tmp := next in
      if length <=? next then (Some firm, next) else
      let '(firm, next) :=
        if next =? 0 then (<[0%nat := LBRACE]> firm, 1) else (firm, next) in
      let '(firm, next) := put_digits firm length next (rev (firm_digits value)) in
      if length <=? next then (Some firm, tmp)
      else (Some (<[Z.to_nat next := COMMA]> firm), next + 1)
  end.

(** ** The chip table *)

Definition ic_de_talbe : list (Z * Z) := [(1855, 201); (0, 0)].

Fixpoint lookup_ic (table : list (Z * Z)) (ic : Z) : option Z :=
  match table with
  | [] => None
  | (i, d) :: table => if i =? 0 then None else if i =? ic then Some d else lookup_ic table ic
  end.

(** "sunxi_batchno" and "0x" *)
Definition BATCHNO : list Z := [115; 117; 110; 120; 105; 95; 98; 97; 116; 99; 104; 110; 111].
Definition HEX_PREFIX : list Z := [48; 120].

(** [text] is the sysfs file ([None] when it cannot be read); the result is
    the pair ([ic], [de_version]). *)
Definition get_ic_de (text : option (list Z)) (ic de_version : Z) : Z * Z :=
  match text with
  | None => (ic, de_version)
  | Some t_buff =>
      match strstr t_buff BATCHNO with
      | None => (ic, de_version)
      | Some buf =>
          match strstr buf HEX_PREFIX with
          | None => (ic, de_version)
          | Some buf =>
              let ic := atoi (take 4 (drop 2 buf)) in
              (ic, default de_version (lookup_ic ic_de_talbe ic))
          end
      end
  end.

(** ** Parsing theorems *)

(** The text of a list of values, each printed by [p]. *)
Definition list_text (p : Z -> list Z) (vs : list Z) : list Z :=
  LBRACE :: concat (map (fun v => p v ++ [COMMA]) vs).

(** [p v] is a decimal text of [v]: digits that [atoi] reads as [v]. *)
Definition decimal (p : Z -> list Z) (v : Z) : Prop :=
  p v <> [] /\ Forall (fun c => isdigit c = true) (p v) /\
  digits_value (p v) 0 = v /\ v <= INT_MAX.

Lemma digits_value_app ds c rest acc :
  Forall (fun c => isdigit c = true) ds -> isdigit c = false ->
  digits_value (ds ++ c :: rest) acc = digits_value ds acc.
Proof.
  intros H Hc. revert acc. induction H as [|d ds Hd _ IH]; intros acc; cbn; [by rewrite Hc|].
  rewrite Hd. apply IH.
Qed.

Lemma digits_value_nonneg ds acc : 0 <= acc -> 0 <= digits_value ds acc.
Proof.
  revert acc. induction ds as [|d ds IH]; intros acc H; cbn; [done|].
  case_match eqn:E; [|done]. apply IH. unfold isdigit in E. lia.
Qed.

Lemma atoi_decimal p v c rest :
  decimal p v -> isdigit c = false -> atoi (p v ++ c :: rest) = v.
Proof.
  intros (Hne & Hd & Hv & Hm) Hc.
  pose proof (digits_value_nonneg (p v) 0 ltac:(lia)) as Hn. rewrite Hv in Hn.
  assert (digits_value (p v ++ c :: rest) 0 = v) as Hval by (by rewrite digits_value_app).
  destruct (p v) as [|d ds]; [done|]. inversion Hd as [|? ? Hdd _]; subst.
  unfold atoi. cbn [app skip_space] in *.
  unfold isdigit in Hdd. replace (isspace d) with false by (unfold isspace; lia).
  rewrite !(proj2 (Z.eqb_neq d _)) by lia. cbn [app] in Hval. rewrite Hval.
  unfold INT_MAX in Hm. rewrite s32_small; [lia|]. unfold in_int, INT_MIN, INT_MAX. lia.
Qed.

Lemma isdigit_not c : isdigit c = true -> c <> COMMA /\ c <> RBRACE.
Proof. unfold isdigit, COMMA, RBRACE. lia. Qed.

Lemma count_commas_digits ds s :
  Forall (fun c => isdigit c = true) ds -> count_commas (ds ++ s) = count_commas s.
Proof.
  induction 1 as [|d ds Hd _ IH]; [done|]. cbn [app count_commas].
  destruct (isdigit_not d Hd) as [H1 H2].
  rewrite (proj2 (Z.eqb_neq d RBRACE)), (proj2 (Z.eqb_neq d COMMA)), IH by done.
  by destruct (count_commas s).
Qed.

Lemma comma_pos_digits ds s i :
  Forall (fun c => isdigit c = true) ds ->
  comma_pos (ds ++ s) i = comma_pos s (i + Z.of_nat (length ds)).
Proof.
  intros H. revert i. induction H as [|d ds Hd _ IH]; intros i; cbn [app comma_pos length].
  - f_equal. lia.
  - destruct (isdigit_not d Hd) as [H1 H2].
    rewrite (proj2 (Z.eqb_neq d RBRACE)), (proj2 (Z.eqb_neq d COMMA)), IH by done.
    replace (i + 1 + Z.of_nat (length ds)) with (i + Z.of_nat (S (length ds))) by lia.
    by destruct (comma_pos s _).
Qed.

(** The tail of a list: [,v,v...}]. *)
Definition tail_text (p : Z -> list Z) (vs : list Z) (rest : list Z) : list Z :=
  concat (map (fun v => COMMA :: p v) vs) ++ RBRACE :: rest.

Lemma count_commas_tail p vs rest :
  Forall (decimal p) vs -> count_commas (tail_text p vs rest) = Some (Z.of_nat (length vs)).
Proof.
  unfold tail_text. induction 1 as [|v vs (_ & Hd & _) _ IH]; [done|].
  cbn [map concat app count_commas length]. change (COMMA =? RBRACE) with false.
  change (COMMA =? COMMA) with true. cbv iota.
  rewrite <- app_assoc, count_commas_digits, IH by done. cbn. f_equal. lia.
Qed.

Lemma tail_text_stop p vs rest :
  exists c r, tail_text p vs rest = c :: r /\ isdigit c = false.
Proof. destruct vs as [|v vs]; do 2 eexists; split; done. Qed.

Lemma comma_pos_tail p full vs rest i :
  Forall (decimal p) vs -> 0 <= i -> drop (Z.to_nat i) full = tail_text p vs rest ->
  exists pos, comma_pos (tail_text p vs rest) i = Some pos /\
    map (fun q => atoi (drop (Z.to_nat q) full)) pos = vs.
Proof.
  intros Hv. revert i. induction Hv as [|v vs Hd _ IH]; intros i Hi Hf; [by exists []|].
  pose proof Hd as (_ & Hdd & _).
  assert (tail_text p (v :: vs) rest = COMMA :: p v ++ tail_text p vs rest) as E.
  { unfold tail_text. cbn [map concat app]. by rewrite <- app_assoc. }
  rewrite E in *. cbn [comma_pos]. change (COMMA =? RBRACE) with false.
  change (COMMA =? COMMA) with true. cbv iota. rewrite comma_pos_digits by done.
  assert (drop (Z.to_nat (i + 1)) full = p v ++ tail_text p vs rest) as E1.
  { replace (Z.to_nat (i + 1)) with (Z.to_nat i + 1)%nat by lia.
    by rewrite <- drop_drop, Hf. }
  destruct (IH (i + 1 + Z.of_nat (length (p v)))) as (pos & -> & Hpos); [lia| |].
  { replace (Z.to_nat (i + 1 + Z.of_nat (length (p v))))
      with (Z.to_nat (i + 1) + length (p v))%nat by lia.
    rewrite <- drop_drop, E1. apply drop_app_length. }
  cbn. eexists. split; [done|]. cbn [map]. rewrite Hpos, E1. f_equal.
  destruct (tail_text_stop p vs rest) as (c & r & -> & Hc). by apply atoi_decimal.
Qed.

(** [trans_firm_data] parses a list of decimal texts. *)
Lemma trans_firm_data_text p v vs rest need :
  Forall (decimal p) (v :: vs) -> need <= Z.of_nat (S (length vs)) ->
  trans_firm_data (LBRACE :: p v ++ tail_text p vs rest) need
  = Some (Some (v :: vs), Z.of_nat (S (length vs))).
Proof.
  intros H Hneed. inversion H as [|? ? Hd Hvs]; subst. pose proof Hd as (_ & Hdd & _).
  unfold trans_firm_data.
  assert (count_commas (LBRACE :: p v ++ tail_text p vs rest) = Some (Z.of_nat (length vs))) as ->.
  { cbn [count_commas]. change (LBRACE =? RBRACE) with false. change (LBRACE =? COMMA) with false.
    cbv iota. rewrite count_commas_digits, count_commas_tail by done. done. }
  cbn [mbind option_bind].
  replace ((0 <? need) && (Z.of_nat (length vs) + 1 <? need)) with false by lia.
  set (full := LBRACE :: p v ++ tail_text p vs rest).
  destruct (comma_pos_tail p full vs rest (1 + Z.of_nat (length (p v))) Hvs) as (pos & E & Hp); [lia| |].
  { replace (Z.to_nat (1 + Z.of_nat (length (p v)))) with (S (length (p v))) by lia.
    unfold full. cbn [drop]. apply drop_app_length. }
  assert (comma_pos full 0 = Some pos) as ->.
  { unfold full. cbn [comma_pos]. change (LBRACE =? RBRACE) with false.
    change (LBRACE =? COMMA) with false. cbv iota. rewrite comma_pos_digits by done.
    change (0 + 1 + Z.of_nat (length (p v))) with (1 + Z.of_nat (length (p v))). by rewrite E. }
  cbn [mbind option_bind map]. rewrite Hp. change (drop (Z.to_nat 1) full) with (p v ++ tail_text p vs rest).
  destruct (tail_text_stop p vs rest) as (c & r & -> & Hc).
  rewrite atoi_decimal by done. done.
Qed.

(** ** Printing theorems *)

Fixpoint le_value (ds : list Z) : Z :=
  match ds with [] => 0 | d :: ds => (d - 48) + 10 * le_value ds end.

Lemma digits_value_rev ds :
  Forall (fun c => isdigit c = true) ds -> forall acc,
  digits_value (rev ds) acc = acc * 10 ^ Z.of_nat (length ds) + le_value ds.
Proof.
  intros H. induction H as [|d ds Hd Hds IH]; intros acc; [cbn; lia|].
  cbn [rev le_value length].
  assert (forall l a, Forall (fun c => isdigit c = true) l ->
    digits_value (l ++ [d]) a = 10 * digits_value l a + (d - 48)) as Happ.
  { induction l as [|x l IHl]; intros a Hl; cbn; [by rewrite Hd|].
    inversion Hl; subst. by rewrite H1, IHl. }
  rewrite Happ by (by apply Forall_rev). rewrite IH, Nat2Z.inj_succ, Z.pow_succ_r by lia. lia.
Qed.

Lemma digit_loop_spec (k : nat) : forall fuel v,
  (k <= fuel)%nat -> 10 ^ Z.of_nat k <= v < 10 ^ Z.of_nat (S k) ->
  length (digit_loop fuel v) = k /\ le_value (digit_loop fuel v) = v mod 10 ^ Z.of_nat k /\
  Forall (fun c => isdigit c = true) (digit_loop fuel v).
Proof.
  induction k as [|k IH]; intros fuel v Hf Hv.
  - change (10 ^ Z.of_nat 0) with 1 in *. change (10 ^ Z.of_nat 1) with 10 in *.
    destruct fuel; cbn [digit_loop]; [by rewrite Z.mod_1_r|].
    rewrite Z.quot_div_nonneg, Z.div_small by lia. cbn. by rewrite Z.mod_1_r.
  - destruct fuel as [|fuel]; [lia|]. cbn [digit_loop].
    rewrite !(Nat2Z.inj_succ (S k)), Z.pow_succ_r in Hv by lia.
    rewrite (Nat2Z.inj_succ k), Z.pow_succ_r in * by lia.
    assert (1 <= 10 ^ Z.of_nat k) as Hp by lia.
    rewrite Z.quot_div_nonneg, Z.rem_mod_nonneg by lia.
    rewrite (proj2 (Z.eqb_neq (v / 10) 0)) by lia_mod.
    destruct (IH fuel (v / 10)) as (L & V & D); [lia|lia_mod|].
    rewrite u8_small by lia_mod. cbn [length le_value]. split_and!.
    + by rewrite L.
    + rewrite V, (Z.rem_mul_r v 10) by lia. lia.
    + constructor; [unfold isdigit; lia_mod|done].
Qed.

(** The buffer [firm] starts with the text [t], and [next] is its end. *)
Definition holds (firm : list Z) (next : Z) (t : list Z) : Prop :=
  next = Z.of_nat (length t) /\ take (length t) firm = t.

Lemma holds_put firm next t d :
  holds firm next t -> next < Z.of_nat (length firm) ->
  holds (<[Z.to_nat next := d]> firm) (next + 1) (t ++ [d]).
Proof.
  intros [-> Ht] Hl. rewrite Nat2Z.id. split; [rewrite length_app; cbn; lia|].
  rewrite length_app. cbn [length]. rewrite Nat.add_1_r.
  erewrite take_S_r by (apply list_lookup_insert_eq; lia).
  by rewrite take_insert_ge, Ht by lia.
Qed.

Lemma put_digits_spec ds firm next t :
  holds firm next t -> next + Z.of_nat (length ds) <= Z.of_nat (length firm) ->
  exists firm', put_digits firm (Z.of_nat (length firm)) next ds
    = (firm', next + Z.of_nat (length ds)) /\
  length firm' = length firm /\ holds firm' (next + Z.of_nat (length ds)) (t ++ ds).
Proof.
  revert firm next t. induction ds as [|d ds IH]; intros firm next t Hh Hl.
  - exists firm. cbn. rewrite Z.add_0_r, app_nil_r. done.
  - cbn [put_digits length] in *. rewrite (proj2 (Z.ltb_lt _ _)) by lia.
    destruct (IH (<[Z.to_nat next := d]> firm) (next + 1) (t ++ [d])) as (f & E & L & H).
    + apply holds_put; [done|lia].
    + rewrite length_insert. lia.
    + rewrite length_insert in *. rewrite E. exists f. rewrite <- app_assoc in H.
      split; [f_equal; lia|]. split; [done|].
      by replace (next + Z.of_nat (S (length ds))) with (next + 1 + Z.of_nat (length ds)) by lia.
Qed.

(** What one call appends. *)
Definition item_text (t : list Z) (value : Z) : list Z :=
  (match t with [] => [LBRACE] | _ => t end) ++ rev (firm_digits value) ++ [COMMA].

Lemma data_to_firm_spec firm next t value :
  holds firm next t -> Z.of_nat (length (item_text t value)) <= Z.of_nat (length firm) ->
  exists firm', data_to_firm (Some firm) (Z.of_nat (length firm)) next value
    = (Some firm', Z.of_nat (length (item_text t value))) /\
  length firm' = length firm /\
  holds firm' (Z.of_nat (length (item_text t value))) (item_text t value).
Proof.
  intros Hh Hl. unfold data_to_firm.
  assert (Z.of_nat (length t) < Z.of_nat (length firm)) as Hlt.
  { unfold item_text in Hl. rewrite !length_app in Hl. destruct t; cbn [length] in *; lia. }
  pose proof Hh as [Hn _]. rewrite (proj2 (Z.leb_gt _ _)) by lia.
  set (t1 := match t with [] => [LBRACE] | _ => t end) in *.
  assert (exists f1, (if next =? 0 then (<[0%nat := LBRACE]> firm, 1) else (firm, next))
    = (f1, Z.of_nat (length t1)) /\ length f1 = length firm /\
    holds f1 (Z.of_nat (length t1)) t1) as (f1 & -> & L1 & H1).
  { unfold t1. destruct t as [|c t']; cbn [length] in *.
    - exists (<[0%nat := LBRACE]> firm). rewrite Hn, length_insert. split_and!; try done.
      apply (holds_put firm 0 [] LBRACE); [done|lia].
    - exists firm. rewrite (proj2 (Z.eqb_neq _ _)), Hn by lia. split_and!; try done.
      by rewrite Hn in Hh. }
  unfold item_text in *. fold t1 in Hl |- *. rewrite !length_app in *. cbn [length] in *.
  rewrite <- L1.
  destruct (put_digits_spec (rev (firm_digits value)) f1 (Z.of_nat (length t1)) t1 H1)
    as (f2 & -> & L2 & H2); [lia|].
  rewrite (proj2 (Z.leb_gt _ _)) by lia.
  eexists. split; [f_equal; lia|]. rewrite length_insert. split; [done|].
  apply holds_put with (d := COMMA) in H2; [|lia]. rewrite <- app_assoc in H2.
  by replace (Z.of_nat (length t1 + (length (rev (firm_digits value)) + 1)))
    with (Z.of_nat (length t1) + Z.of_nat (length (rev (firm_digits value))) + 1) by lia.
Qed.

(** Printing a list of values, as the savers do. *)
Fixpoint print_all (firm : option (list Z)) (len next : Z) (vs : list Z) : option (list Z) * Z :=
  match vs with
  | [] => (firm, next)
  | v :: vs => let '(firm, next) := data_to_firm firm len next v in print_all firm len next vs
  end.

Definition print_text (t : list Z) (vs : list Z) : list Z := foldl item_text t vs.

Lemma print_text_length t vs : (length t <= length (print_text t vs))%nat.
Proof.
  unfold print_text. revert t. induction vs as [|v vs IH]; intros t; cbn; [done|].
  etrans; [|apply IH]. unfold item_text. rewrite !length_app. destruct t; cbn; lia.
Qed.

Lemma print_all_spec vs firm next t :
  holds firm next t -> (length (print_text t vs) <= length firm)%nat ->
  exists firm', print_all (Some firm) (Z.of_nat (length firm)) next vs
    = (Some firm', Z.of_nat (length (print_text t vs))) /\
  length firm' = length firm /\ holds firm' (Z.of_nat (length (print_text t vs))) (print_text t vs).
Proof.
  revert firm next t. induction vs as [|v vs IH]; intros firm next t Hh Hl.
  - exists firm. destruct Hh as [Hn Ht]. cbn. rewrite Hn. by split_and!.
  - cbn [print_all print_text foldl] in *.
    pose proof (print_text_length (item_text t v) vs) as Hm. unfold print_text in Hm.
    destruct (data_to_firm_spec firm next t v Hh) as (f & E & L & H); [unfold print_text in *; lia|].
    rewrite E, <- L. rewrite <- L in Hl. by apply IH.
Qed.

Lemma print_text_shape v vs :
  print_text [] (v :: vs) = list_text (fun v => rev (firm_digits v)) (v :: vs).
Proof.
  unfold print_text, list_text. cbn [foldl map concat item_text app].
  assert (forall vs t, t <> [] -> foldl item_text t vs
    = t ++ concat (map (fun v => rev (firm_digits v) ++ [COMMA]) vs)) as H.
  { clear. induction vs as [|v vs IH]; intros t Ht; cbn; [by rewrite app_nil_r|].
    rewrite IH; [|unfold item_text; destruct t; done].
    unfold item_text. destruct t as [|c t]; [done|]. by rewrite <- !app_assoc. }
  rewrite H by done. cbn. by rewrite <- !app_assoc.
Qed.

(** Replacing the last comma by the closing brace gives a parseable text. *)
Lemma list_text_close (p : Z -> list Z) v vs :
  exists body, list_text p (v :: vs) = body ++ [COMMA] /\
    body ++ [RBRACE] = LBRACE :: p v ++ tail_text p vs [].
Proof.
  unfold list_text, tail_text. exists (LBRACE :: p v ++ concat (map (fun v => COMMA :: p v) vs)).
  split; [|cbn [app]; by rewrite <- app_assoc]. cbn [map concat app].
  f_equal. rewrite <- !app_assoc. f_equal. clear v.
  induction vs as [|v vs IH]; [done|]. cbn [map concat]. rewrite <- !app_assoc, IH.
  done.
Qed.

Lemma firm_digits_small v : 0 <= v <= 9 -> firm_digits v = [v + 48].
Proof.
  intros H. unfold firm_digits. cbn [digit_loop].
  rewrite Z.quot_div_nonneg, Z.div_small by lia. change (0 =? 0) with true. cbv iota.
  by rewrite Z.rem_mod_nonneg, Z.mod_small, u8_small by lia.
Qed.

Lemma decimal_small v : 0 <= v <= 9 -> decimal (fun v => rev (firm_digits v)) v.
Proof.
  intros H. unfold decimal. rewrite firm_digits_small by done. cbn. unfold isdigit, INT_MAX.
  split_and!; [done|constructor; [lia|done]| |lia].
  replace ((48 <=? v + 48) && (v + 48 <=? 57)) with true by lia. lia.
Qed.

(** A list of one-digit values printed into a large enough buffer with
    [data_to_firm], closed as [save_cfg_firmware] closes it (the last comma
    replaced by a brace), is parsed back by [trans_firm_data]. *)
Theorem firm_roundtrip_digits v vs firm need :
  Forall (fun v => 0 <= v <= 9) (v :: vs) ->
  (length (print_text [] (v :: vs)) <= length firm)%nat ->
  need <= Z.of_nat (length (v :: vs)) ->
  exists firm' n, print_all (Some firm) (Z.of_nat (length firm)) 0 (v :: vs)
    = (Some firm', Z.of_nat n) /\ (0 < n <= length firm)%nat /\
  trans_firm_data (<[(n - 1)%nat := RBRACE]> (take n firm')) need
  = Some (Some (v :: vs), Z.of_nat (length (v :: vs))).
Proof.
  intros Hv Hl Hneed.
  destruct (print_all_spec (v :: vs) firm 0 [] ltac:(done) Hl) as (f & E & L & [_ Ht]).
  exists f, (length (print_text [] (v :: vs))). split; [done|].
  rewrite Ht, print_text_shape in *.
  destruct (list_text_close (fun v => rev (firm_digits v)) v vs) as (body & Eb & Ec).
  rewrite Eb in *. rewrite length_app in *. cbn [length] in *. split; [lia|].
  replace (length body + 1 - 1)%nat with (length body) by lia.
  rewrite insert_middle, Ec. apply (trans_firm_data_text (fun v => rev (firm_digits v))); [|done].
  revert Hv. apply Forall_impl. intros x. apply decimal_small.
Qed.

Lemma firm_roundtrip_digits_witness :
  exists firm' n, print_all (Some (replicate 20 0)) 20 0 [7; 0; 9] = (Some firm', Z.of_nat n) /\
  (0 < n <= 20)%nat /\
  trans_firm_data (<[(n - 1)%nat := RBRACE]> (take n firm')) 3 = Some (Some [7; 0; 9], 3).
Proof.
  apply (firm_roundtrip_digits 7 [0; 9] (replicate 20 0) 3); [by repeat (apply List.Forall_cons; [lia|])|vm_compute; lia|cbn; lia].
Defined.

(** A value of k + 1 decimal digits (k > 0) is printed with its k low
    digits only: the most significant digit is lost, and the text is read back
    as the value modulo 10^k. *)
Theorem data_to_firm_drops_digit (k : nat) v :
  (0 < k < 20)%nat -> 10 ^ Z.of_nat k <= v < 10 ^ Z.of_nat (S k) ->
  length (firm_digits v) = k /\ digits_value (rev (firm_digits v)) 0 = v mod 10 ^ Z.of_nat k /\
  digits_value (rev (firm_digits v)) 0 <> v.
Proof.
  intros Hk Hv. destruct (digit_loop_spec k 20 v) as (L & V & D); [lia|done|].
  assert (firm_digits v = digit_loop 20 v) as ->.
  { unfold firm_digits. destruct (digit_loop 20 v); [cbn in L; lia|done]. }
  rewrite digits_value_rev, V by done. split_and!; [done|lia|].
  pose proof (Z.mod_pos_bound v (10 ^ Z.of_nat k)). lia.
Qed.

Lemma data_to_firm_drops_digit_witness :
  digits_value (rev (firm_digits 123)) 0 = 23 /\
  data_to_firm (Some (replicate 5 0)) 5 0 123 = (Some [LBRACE; 50; 51; COMMA; 0], 4).
Proof.
  split; [|reflexivity].
  destruct (data_to_firm_drops_digit 2 123) as (_ & H & _); [lia|cbn; lia|]. exact H.
Defined.

End PqFirm.
