(* ===== verification/De201.v ===== *)
(** * The display engine side of the PQ daemon
      (display/pq/dexxx/de201_tans.c, de_generic.c and the request loop of
      trans_info.c)

    Requests carry tuning data for one block of the display engine; the daemon
    turns them into register accesses of the display driver.  A register value
    is its 32-bit pattern; [char] is unsigned (ARM).  The driver is the
    interface [DispDev]; [None] is an access outside an allocated block.
    Allocations succeed. *)

From stdpp Require Import base tactics option list list_numbers numbers gmap.
From Stdlib Require Import ZArith Lia.
From S2P Require Import Prelude PqFirm.

Local Open Scope Z_scope.

Module De201.

(** ** Data *)

Record peak_sharp := mkPeak {
  p_enable : Z; p_gain : Z; p_neg_gain : Z; p_hp_ratio : Z; p_bp0_ratio : Z;
  p_bp1_ratio : Z; p_dif_up : Z; p_corth : Z; p_beta : Z
}.

Record lti_sharp := mkLti {
  l_enable : Z; l_cstm_coeff0 : Z; l_cstm_coeff1 : Z; l_cstm_coeff2 : Z; l_cstm_coeff3 : Z;
  l_cstm_coeff4 : Z; l_fir_gain : Z; l_cor_th : Z; l_diff_slope : Z; l_diff_offset : Z;
  l_edge_gain : Z; l_sel : Z; l_win_expansion : Z; l_nolinear_limmit_en : Z;
  l_peak_limmit : Z; l_core_x : Z; l_clip_y : Z; l_edge_level_th : Z
}.

Record color_enhance := mkEnh {
  ce_contrast : Z; ce_brightness : Z; ce_saturation : Z; ce_hue : Z
}.

(** [struct color_enhanc], the driver's argument. *)
Record color_enhanc := mkCm {
  cm_cmd : Z; cm_read : bool; cm_contrast : Z; cm_brightness : Z; cm_saturation : Z; cm_hue : Z
}.

(** [struct matrix_user]; the sixteen cells of [struct matrix4x4] in order. *)
Record matrix_user := mkMatrix {
  mu_cmd : Z; mu_read : bool; mu_choice : Z; mu_cells : list Z
}.

(** [struct Regiser_pair]: offset and value. *)
Abbreviation reg_pair := (Z * Z)%type (only parsing).

(** The ioctls of the display driver: the result, the argument as the driver
    leaves it and the driver. *)
Class DispDev (D : Type) := {
  pq_get_reg : D -> Z -> list reg_pair -> Z * list reg_pair * D;
  pq_set_reg : D -> Z -> list reg_pair -> Z * D;
  pq_color_matrix : D -> Z -> color_enhanc -> Z * color_enhanc * D;
  pq_matrix : D -> Z -> matrix_user -> Z * matrix_user * D;
  gamma_correction_enable : D -> Z * D;
  set_gamma_table : D -> Z -> list Z -> Z * D;
  get_gamma_table : D -> Z -> list Z -> Z * list Z * D
}.

(** ** Gamma tables *)

(** [cout] words from three planes of [cout] bytes. *)
Definition trans_x_gamma (value : list Z) (cout : nat) : option (list Z) :=
  if (3 * cout <=? length value)%nat then
    Some (map (fun i => Z.lor (Z.lor (Z.shiftl (value !!! i) 16) (Z.shiftl (value !!! (i + cout)%nat) 8))
                          (value !!! (i + cout * 2)%nat)) (seq 0 cout))
  else None.

Definition gamma_store (cout : nat) (data value : list Z) (i : nat) : list Z :=
  let w := data !!! i in
  let value := <[i := Z.land (u8 (Z.shiftr w 16)) 0xff]> value in
  let value := <[(i + cout)%nat := Z.land (u8 (Z.shiftr w 8)) 0xff]> value in
  <[(i + cout * 2)%nat := Z.land (u8 w) 0xff]> value.

Definition gamma_x_trans (value : list Z) (cout : nat) (data : list Z) : option (list Z) :=
  if (3 * cout <=? length value)%nat && (cout <=? length data)%nat then
    Some (foldl (gamma_store cout data) value (seq 0 cout))
  else None.

(** ** Register fields *)

(** [set[i].value &= mask; set[i].value |= bits;] *)
Definition upd (i : nat) (mask bits : Z) (l : list reg_pair) : list reg_pair :=
  alter (fun p => (p.1, Z.lor (Z.land p.2 mask) (u32 bits))) i l.

Definition value (l : list reg_pair) (i : nat) : Z := (l !!! i).2.

Definition b2z (c : Z) : Z := if c =? 0 then 0 else 1.

Definition PEAK_OFST : Z := 0xA6000.
Definition LTI_OFST : Z := 0xA4000.

(** The zeroed array with its offsets. *)
Definition peak_set0 : list reg_pair :=
  [(PEAK_OFST, 0); (PEAK_OFST + 0x10, 0); (PEAK_OFST + 0x20, 0); (PEAK_OFST + 0x24, 0);
   (PEAK_OFST + 0x28, 0); (PEAK_OFST + 0x2c, 0)].

Definition lti_set0 : list reg_pair :=
  [(LTI_OFST, 0); (LTI_OFST + 0x10, 0); (LTI_OFST + 0x14, 0); (LTI_OFST + 0x18, 0);
   (LTI_OFST + 0x1c, 0); (LTI_OFST + 0x20, 0); (LTI_OFST + 0x24, 0); (LTI_OFST + 0x28, 0);
   (LTI_OFST + 0x2c, 0); (LTI_OFST + 0x30, 0); (LTI_OFST + 0x34, 0)].

(** The masks and values [tans_to_peak] stores. *)
Definition peak_encode (peak : peak_sharp) (s : list reg_pair) : list reg_pair :=
  let s := upd 0 0xfffffffe (b2z (p_enable peak)) s in
  let s := upd 1 0xff000000 (Z.shiftl (p_hp_ratio peak) 16 + Z.shiftl (p_bp0_ratio peak) 8
                             + p_bp1_ratio peak) s in
  let s := upd 2 0xffffff00 (p_gain peak) s in
  let s := upd 3 0xff000000 (Z.shiftl (p_dif_up peak) 16 + p_beta peak) s in
  let s := upd 4 0xffffffa0 (p_neg_gain peak) s in
  upd 5 0xffffff00 (p_corth peak) s.

Definition peak_decode (s : list reg_pair) : peak_sharp :=
  mkPeak (Z.land (value s 0) 0x1) (Z.land (value s 2) 0xff) (Z.land (value s 4) 0x3f)
    (Z.land (Z.shiftr (value s 1) 16) 0x3f) (Z.land (Z.shiftr (value s 1) 8) 0x3f)
    (Z.land (value s 1) 0x3f) (Z.land (Z.shiftr (value s 3) 16) 0xff)
    (Z.land (value s 5) 0xff) (Z.land (value s 3) 0xff).

Definition lti_encode (lti : lti_sharp) (s : list reg_pair) : list reg_pair :=
  let s := upd 0 0xfffefefe (Z.lor (Z.lor (b2z (l_enable lti)) (Z.shiftl (b2z (l_sel lti)) 8))
                               (Z.shiftl (b2z (l_nolinear_limmit_en lti)) 16)) s in
  let s := upd 1 0xff00ff00 (Z.shiftl (l_cstm_coeff1 lti) 16 + l_cstm_coeff0 lti) s in
  let s := upd 2 0xff00ff00 (Z.shiftl (l_cstm_coeff3 lti) 16 + l_cstm_coeff2 lti) s in
  let s := upd 3 0xffffff00 (l_cstm_coeff4 lti) s in
  let s := upd 4 0xfffffff0 (l_fir_gain lti) s in
  let s := upd 5 0xfffffc00 (l_cor_th lti) s in
  let s := upd 6 0xff00ff00 (Z.lor (Z.shiftl (l_diff_slope lti) 16) (l_diff_offset lti)) s in
  let s := upd 7 0xfffffff0 (l_edge_gain lti) s in
  let s := upd 8 0x8f00ff00 (Z.lor (Z.lor (l_core_x lti) (Z.shiftl (l_clip_y lti) 16))
                               (u32 (Z.shiftl (l_peak_limmit lti) 28))) s in
  let s := upd 9 0xffffff00 (l_win_expansion lti) s in
  upd 10 0xffffff00 (l_edge_level_th lti) s.

Definition lti_decode (s : list reg_pair) : lti_sharp :=
  mkLti (Z.land (value s 0) 0x1) (Z.land (value s 1) 0xff) (Z.land (Z.shiftr (value s 1) 16) 0xff)
    (Z.land (value s 2) 0xff) (Z.land (Z.shiftr (value s 2) 16) 0xff) (Z.land (value s 3) 0xff)
    (Z.land (value s 4) 0xf) (Z.land (value s 5) 0x3ff)
    (Z.land (Z.shiftr (value s 6) 16) 0x1f) (Z.land (value s 6) 0xff)
    (Z.land (value s 7) 0x1f) (b2z (Z.land (value s 0) 0x100)) (Z.land (value s 9) 0xff)
    (b2z (Z.land (value s 0) 0x10000)) (Z.land (Z.shiftr (value s 8) 28) 0x07)
    (Z.land (value s 8) 0xff) (Z.land (Z.shiftr (value s 8) 16) 0xff)
    (Z.land (value s 10) 0xff).

Section Device.
  Context {D : Type} `{!DispDev D}.

Definition tans_to_peak (d : D) (de : Z) (peak : peak_sharp) : Z * D :=
  let '(ret, s, d) := pq_get_reg d de peak_set0 in
  if negb (ret =? 0) then (ret, d) else pq_set_reg d de (peak_encode peak s).

Definition peak_to_trans (d : D) (de : Z) (peak : peak_sharp) : Z * peak_sharp * D :=
  let '(ret, s, d) := pq_get_reg d de peak_set0 in
  if negb (ret =? 0) then (ret, peak, d) else (0, peak_decode s, d).

Definition tans_to_lti (d : D) (de : Z) (lti : lti_sharp) : Z * D :=
  let '(ret, s, d) := pq_get_reg d de lti_set0 in
  if negb (ret =? 0) then (ret, d) else pq_set_reg d de (lti_encode lti s).

Definition lti_to_trans (d : D) (de : Z) (lti : lti_sharp) : Z * lti_sharp * D :=
  let '(ret, s, d) := pq_get_reg d de lti_set0 in
  if negb (ret =? 0) then (ret, lti, d) else (0, lti_decode s, d).

(** ** Requests

    [F] is the C type [float]; [fix4096 x] is [ceil(x * 4096)] and
    [of4096 n] is [n / 4096.0]. *)
  Context {F : Type} (fix4096 : F -> Z) (of4096 : Z -> F) (atof : list Z -> F).

(** The payload of a package, by its [id]; [DMatrix] has the ids 15 and 16,
    [DReply] is [struct trans_reply]. *)
Inductive pq_data :=
| DIc (ic de : Z)
| DReg (reg : reg_pair)
| DRegSet (count : Z) (set : list reg_pair)
| DGamma (value : list Z)
| DPeak (peak : peak_sharp)
| DLti (lti : lti_sharp)
| DEnh (enh : color_enhance)
| DMatrix (id space : Z) (coeffs : list F)
| DReply (ret : Z)
| DOther (id : Z).

Definition data_id (x : pq_data) : Z :=
  match x with
  | DIc _ _ => 1 | DReg _ => 2 | DRegSet _ _ => 3 | DGamma _ => 11 | DPeak _ => 12
  | DLti _ => 13 | DEnh _ => 14 | DMatrix id _ _ => id | DReply _ => 0 | DOther id => id
  end.

Definition READ_CMD : Z := 0.
Definition WRITE_CMD : Z := 1.

(** The block [trans_to_matix] allocates has [sizeof(struct matrix4x4)] = 128
    bytes; a store of [n] bytes at [off] must lie inside it. *)
Definition heap_store (size off n : Z) : option unit :=
  if (0 <=? off) && (off + n <=? size) then Some () else None.

(** [choice] is at offset 8 of [struct matrix_user], the 16 cells of [matrix]
    at 16, 24, ...; the result is [choice] and the cells. *)
Definition trans_to_matix (space : Z) (c : list F) : option (Z * list Z) :=
  let size := 128 in
  _ ← heap_store size 8 4;
  let cell i := option_map fix4096 (c !! i) in
  cells ← mapM cell [0; 1; 2; 9; 3; 4; 5; 10; 6; 7; 8; 11]%nat;
  let cells := cells ++ [0; 0; 0; 0x1000] in
  _ ← mapM (fun k => heap_store size (16 + 8 * Z.of_nat k) 8) (seq 0 16);
  Some (space, cells).

(** The enhance request. *)
Definition enhance_req (d : D) (de : Z) (enh : color_enhance) (cmd : Z)
  : color_enhance * D :=
  let cm := mkCm 0 (negb (cmd =? WRITE_CMD)) (ce_contrast enh) (ce_brightness enh)
              (ce_saturation enh) (ce_hue enh) in
  let '(_, cm, d) := pq_color_matrix d de cm in
  (if negb (cmd =? WRITE_CMD)
   then mkEnh (u8 (cm_contrast cm)) (u8 (cm_brightness cm)) (u8 (cm_saturation cm)) (u8 (cm_hue cm))
   else enh, d).

Definition gamma_write (d : D) (de : Z) (val : list Z) (cout : nat) : option D :=
  lut_d ← trans_x_gamma val cout;
  let '(_, d) := gamma_correction_enable d in
  let '(_, d) := set_gamma_table d de lut_d in
  Some d.

Definition gamma_read (d : D) (de : Z) (val : list Z) : option (list Z * D) :=
  let '(_, lut_d, d) := get_gamma_table d de (replicate 256 0) in
  val ← gamma_x_trans val 256 lut_d;
  Some (val, d).

Definition matix_to_trans (cells : list Z) : list F :=
  map (fun i => of4096 (cells !!! i)) [0; 1; 2; 4; 5; 6; 8; 9; 10; 3; 7; 11]%nat.

Definition NUM_SUM : Z := 4.

(** The matrix request: 1 is in, 2 is out. *)
Definition matrix_req (d : D) (de id space : Z) (c : list F) (cmd : Z)
  : option (Z * pq_data * D) :=
  '(choice, cells) ← trans_to_matix space c;
  if NUM_SUM <=? choice then Some (-1, DMatrix id space c, d) else
  let us := mkMatrix (id - 14) (negb (cmd =? WRITE_CMD)) choice cells in
  let '(_, us, d) := pq_matrix d de us in
  Some (0, DMatrix id space (if negb (cmd =? WRITE_CMD) then matix_to_trans (mu_cells us) else c), d).

Definition trans_to_spec (d : D) (de : Z) (x : pq_data) (cmd : Z) : option (Z * pq_data * D) :=
  match x with
  | DGamma val =>
      if cmd =? WRITE_CMD then d ← gamma_write d de val 256; Some (0, x, d)
      else '(val, d) ← gamma_read d de val; Some (0, DGamma val, d)
  | DPeak peak =>
      if cmd =? WRITE_CMD then Some (0, x, snd (tans_to_peak d de peak))
      else let '(_, peak, d) := peak_to_trans d de peak in Some (0, DPeak peak, d)
  | DLti lti =>
      if cmd =? WRITE_CMD then Some (0, x, snd (tans_to_lti d de lti))
      else let '(_, lti, d) := lti_to_trans d de lti in Some (0, DLti lti, d)
  | DEnh enh => let '(enh, d) := enhance_req d de enh cmd in Some (0, DEnh enh, d)
  | DMatrix id space c => matrix_req d de id space c cmd
  | _ => Some (0, x, d)
  end.

(** ** de_generic.c: the globals [de], [ic], [de_version] and the driver *)
Record pq_state := mkPq { g_de : Z; g_ic : Z; g_de_version : Z; g_dev : D }.

Definition set_dev (s : pq_state) (d : D) : pq_state :=
  mkPq (g_de s) (g_ic s) (g_de_version s) d.
Definition set_de (s : pq_state) (de : Z) : pq_state :=
  mkPq de (g_ic s) (g_de_version s) (g_dev s).

(** The single and multiple register requests. *)
Definition reg_req (s : pq_state) (l : list reg_pair) (cmd : Z) : Z * list reg_pair * pq_state :=
  if cmd =? WRITE_CMD then
    let '(ret, d) := pq_set_reg (g_dev s) (g_de s) l in (ret, l, set_dev s d)
  else
    let '(ret, l, d) := pq_get_reg (g_dev s) (g_de s) l in (ret, l, set_dev s d).

Definition trans_to_dexx (s : pq_state) (x : pq_data) (cmd : Z) : option (Z * pq_data * pq_state) :=
  match x with
  | DIc ic de =>
      let s' := if cmd =? WRITE_CMD then set_de s de else s in
      let x' := if cmd =? READ_CMD then DIc (g_ic s) (g_de_version s) else x in
      Some (0, x', s')
  | DReg reg =>
      let '(ret, l, s) := reg_req s [reg] cmd in
      let x := DReg (default reg (head l)) in
      Some (if negb (ret =? 0) then -1 else 0, x, s)
  | DRegSet count set =>
      if (count <? 0) || (Z.of_nat (length set) <? count) then None else
      let '(ret, l, s) := reg_req s (take (Z.to_nat count) set) cmd in
      let x := DRegSet count (l ++ drop (Z.to_nat count) set) in
      Some (if negb (ret =? 0) then -1 else 0, x, s)
  | DOther 4 | DOther 5 => Some (0, x, s)
  | _ =>
      '(_, x, d) ← trans_to_spec (g_dev s) (g_de s) x cmd;
      Some (0, x, set_dev s d)
  end.

(** ** Loading the firmware text *)

(** [while (j < i) { set[j].offset = data[2*j]; set[j].value = data[2*j+1]; j++; }]
    on [i] parsed values and an array of [cap] pairs. *)
Fixpoint fill_set (n j : nat) (data : list Z) (set : list reg_pair) : option (list reg_pair) :=
  match n with
  | O => Some set
  | S n =>
      off ← data !! (2 * j)%nat;
      val ← data !! (2 * j + 1)%nat;
      set ← aset set (Z.of_nat j) (s32 off, s32 val);
      fill_set n (S j) data set
  end.

(** [uninit] is the byte malloc left in [peak->enable]. *)
Definition download_peak (data : list Z) (uninit : Z) : option peak_sharp :=
  match data with
  | [g; n; hp; b0; b1; du; co; be] =>
      Some (mkPeak uninit (u8 g) (u8 n) (u8 hp) (u8 b0) (u8 b1) (u8 du) (u8 co) (u8 be))
  | _ => None
  end.

Definition download_lti (data : list Z) : option lti_sharp :=
  match data with
  | [en; c0; c1; c2; c3; c4; fg; ct; ds; df; eg; se; we; nl; pl; cx; cy; el] =>
      Some (mkLti (u8 en) (u8 c0) (u8 c1) (u8 c2) (u8 c3) (u8 c4) (u8 fg) (s16 ct) (u8 ds)
              (u8 df) (u8 eg) (u8 se) (u8 we) (u8 nl) (u8 pl) (u8 cx) (u8 cy) (u8 el))
  | _ => None
  end.

(** The position after each of the first commas; [ne] has 13 cells. *)
Definition matrix_commas (buffer : list Z) : option (list Z) :=
  l ← PqFirm.comma_pos buffer 0;
  if (13 <? length l)%nat then None else Some l.

Definition download_firmware_spec (d : D) (id de : Z) (buffer : list Z) (uninit : Z)
  : option (Z * D) :=
  if id =? 11 then
    '(data, i) ← PqFirm.trans_firm_data buffer 0;
    match data with
    | None => Some (-1, d)
    | Some data =>
        d ← gamma_write d de (map u8 data) (Z.to_nat (i / 3)); Some (0, d)
    end
  else if id =? 12 then
    '(data, i) ← PqFirm.trans_firm_data buffer 0;
    match data with
    | None => Some (-1, d)
    | Some data =>
        if negb (i =? 8) then Some (-1, d) else
        peak ← download_peak data uninit;
        Some (0, snd (tans_to_peak d de peak))
    end
  else if id =? 13 then
    '(data, i) ← PqFirm.trans_firm_data buffer 0;
    match data with
    | None => Some (-1, d)
    | Some data =>
        if negb (i =? 18) then Some (-1, d) else
        lti ← download_lti data;
        Some (0, snd (tans_to_lti d de lti))
    end
  else if id =? 14 then
    '(data, i) ← PqFirm.trans_firm_data buffer 0;
    match data with
    | None => Some (-1, d)
    | Some [c; b; s; h] =>
        '(_, _, d) ← trans_to_spec d de (DEnh (mkEnh (u8 c) (u8 b) (u8 s) (u8 h))) WRITE_CMD;
        Some (0, d)
    | Some _ => Some (-1, d)
    end
  else if (id =? 15) || (id =? 16) then
    ne ← matrix_commas buffer;
    if negb (length ne =? 12)%nat then Some (-1, d) else
    '(_, _, d) ← trans_to_spec d de
      (DMatrix id (u8 (PqFirm.atoi (drop 1 buffer)))
         (map (fun p => atof (drop (Z.to_nat p) buffer)) ne)) WRITE_CMD;
    Some (0, d)
  else Some (0, d).

Definition download_firmware_generic (s : pq_state) (id de_d : Z) (buffer : list Z) (uninit : Z)
  : option (Z * pq_state) :=
  let de_swp := g_de s in
  let s := set_de s de_d in
  if (id =? 1) || (id =? 4) || (id =? 5) then Some (0, set_de s de_swp)
  else if id =? 2 then
    '(data, _) ← PqFirm.trans_firm_data buffer 2;
    match data with
    | None => Some (-1, set_de s de_swp)
    | Some data =>
        off ← data !! 0%nat;
        val ← data !! 1%nat;
        '(_, _, s) ← trans_to_dexx s (DReg (s32 off, s32 val)) WRITE_CMD;
        Some (0, set_de s de_swp)
    end
  else if id =? 3 then
    '(data, i) ← PqFirm.trans_firm_data buffer 0;
    match data with
    | None => Some (-1, set_de s de_swp)
    | Some data =>
        (** [sizeof(struct Regiser_pair) * i / 2] bytes hold [i / 2] pairs *)
        set ← fill_set (Z.to_nat i) 0 data (replicate (Z.to_nat (i / 2)) (0, 0));
        '(_, _, s) ← trans_to_dexx s (DRegSet i set) WRITE_CMD;
        Some (0, set_de s de_swp)
    end
  else
    '(_, d) ← download_firmware_spec (g_dev s) id de_d buffer uninit;
    Some (0, set_de (set_dev s d) de_swp).

(** ** Saving *)

(** [while (i < n) { rret = next; next = func(...); if (rret == next) return -1; }]
    with [i] never advanced; [None] when the fuel runs out. *)
Fixpoint updata_loop (fuel : nat) (buf : option (list Z)) (length next v : Z)
  : option (Z * option (list Z)) :=
  match fuel with
  | O => None
  | S fuel =>
      let '(buf, next') := PqFirm.data_to_firm buf length next v in
      if next' =? next then Some (-1, buf) else updata_loop fuel buf length next' v
  end.

Definition updata_firm_spec (buf : option (list Z)) (length : Z) (x : pq_data)
  : option (Z * option (list Z)) :=
  let fuel := S (Z.to_nat length) in
  match x with
  | DGamma val => v ← val !! 0%nat; updata_loop fuel buf length 0 v
  | DPeak peak => updata_loop fuel buf length 0 (p_gain peak)
  | _ => Some (0, buf)
  end.

(** [struct PQ_package]; its header has 10 bytes, and the block it is in holds
    [pk_size] bytes from its first on. *)
Record PQ_package := mkPkg { pk_cmd : Z; pk_type : Z; pk_size : Z; pk_data : pq_data }.

(** The result is the buffer, or [None] inside for [NULL], and [*length]. *)
Definition updata_firm_generic (pkg : PQ_package) : option (option (list Z) * Z) :=
  let size := pk_size pkg * 4 + 10 in
  let buf := replicate (Z.to_nat size) 0 in
  let id := data_id (pk_data pkg) in
  if (1 <=? id) && (id <=? 5) then Some (Some buf, -1)
  else
    '(ret, buf) ← updata_firm_spec (Some buf) size (pk_data pkg);
    Some (if ret <? 0 then None else buf, ret).

(** [firm_fd] is [disp_firm_data_fd] and [opened] what [open] would return.
    The result is the return value, the descriptor and, when [xchang_data] is
    called, the text it gets. *)
Definition save_cfg_firmware (firm_fd opened : Z) (pkg : PQ_package)
  : option (Z * Z * option (list Z)) :=
  let firm_fd := if firm_fd <? 0 then opened else firm_fd in
  if firm_fd <? 0 then Some (-1, firm_fd, None) else
  '(buf, length) ← updata_firm_generic pkg;
  match buf with
  | None => Some (0, firm_fd, None)
  | Some buf =>
      buf ← aset buf (length - 1) PqFirm.RBRACE;
      buf ← aset buf length 0xD;
      Some (0, firm_fd, Some (take (Z.to_nat (length + 1)) buf))
  end.

(** ** The request queue and the translate thread *)

Record trans_data := mkTrans { client_fd : Z; t_pkg : PQ_package }.

Record daemon := mkDaemon {
  d_pq : pq_state;
  d_firm_fd : Z;
  d_queue : list trans_data;
  d_sent : list (Z * PQ_package);
  d_can_close : bool
}.

Definition send_to_translate (s : daemon) (data : trans_data) : daemon :=
  mkDaemon (d_pq s) (d_firm_fd s) (d_queue s ++ [data]) (d_sent s) (d_can_close s).

(** The bytes the structure of a payload takes, from its [id] on. *)
Definition payload_bytes (x : pq_data) : Z :=
  match x with
  | DIc _ _ | DReg _ => 12
  | DRegSet _ set => 8 + 8 * Z.of_nat (length set)
  | DGamma value => 4 + Z.of_nat (length value)
  | DPeak _ => 13
  | DLti _ => 23
  | DEnh _ => 8
  | DMatrix _ _ _ => 53
  | DReply _ | DOther _ => 4
  end.

(** The handlers go through a pointer to the structure: it must lie in the
    block. *)
Definition in_package (pkg : PQ_package) : option unit :=
  heap_store (pk_size pkg) 10 (payload_bytes (pk_data pkg)).

(** A reply, of eight bytes, is written over the payload. *)
Definition trans_send (s : daemon) (data : trans_data) (read : bool) (reply : Z) : option daemon :=
  let pkg := t_pkg data in
  pkg ←
    (if (read && negb (reply =? 0)) || negb read then
       _ ← heap_store (pk_size pkg) 10 8;
       Some (mkPkg (pk_cmd pkg) (pk_type pkg) 18 (DReply reply))
     else Some pkg);
  Some (mkDaemon (d_pq s) (d_firm_fd s) (d_queue s) (d_sent s ++ [(client_fd data, pkg)]) (d_can_close s)).

Definition set_pkg_data (data : trans_data) (x : pq_data) : trans_data :=
  let pkg := t_pkg data in
  mkTrans (client_fd data) (mkPkg (pk_cmd pkg) (pk_type pkg) (pk_size pkg) x).

Definition set_pq (s : daemon) (pq : pq_state) : daemon :=
  mkDaemon pq (d_firm_fd s) (d_queue s) (d_sent s) (d_can_close s).

(** The switch on the command; [cfg_fd] and [firm_opened] are what [open] of
    the two files would return. *)
Definition dispatch (s : daemon) (data : trans_data) (cfg_fd firm_opened : Z) : option daemon :=
  let x := pk_data (t_pkg data) in
  let cmd := pk_cmd (t_pkg data) in
  if cmd =? 0 then trans_send s data true 0
  else if cmd =? 1 then
    _ ← in_package (t_pkg data);
    '(ret, x, pq) ← trans_to_dexx (d_pq s) x READ_CMD;
    trans_send (set_pq s pq) (set_pkg_data data x) true ret
  else if cmd =? 3 then
    _ ← in_package (t_pkg data);
    '(ret, x, pq) ← trans_to_dexx (d_pq s) x WRITE_CMD;
    let s := set_pq s pq in
    let data := set_pkg_data data x in
    if ret =? 0 then
      '(ret, fd, _) ← save_cfg_firmware (d_firm_fd s) firm_opened (t_pkg data);
      trans_send (mkDaemon (d_pq s) fd (d_queue s) (d_sent s) (d_can_close s)) data false ret
    else trans_send s data false ret
  else if cmd =? 2 then
    _ ← in_package (t_pkg data);
    '(ret, x, pq) ← trans_to_dexx (d_pq s) x WRITE_CMD;
    trans_send (set_pq s pq) (set_pkg_data data x) false ret
  else if cmd =? 4 then trans_send s data true cfg_fd
  else trans_send s data false (-1).

(** One turn of the loop.  When the queue is empty the thread waits;
    [arrivals] are the requests queued until the wait returns (none after a
    spurious wake-up, where the list head itself would be taken for a
    request). *)
Definition translate_iter (s : daemon) (arrivals : list trans_data) (cfg_fd firm_opened : Z)
  : option daemon :=
  let queue := match d_queue s with [] => arrivals | q => q end in
  match queue with
  | [] => None
  | data :: queue =>
      dispatch (mkDaemon (d_pq s) (d_firm_fd s) queue (d_sent s) false) data cfg_fd firm_opened
  end.

End Device.

(** ** Gamma round trip *)

Lemma land_ff x : Z.land (u8 x) 0xff = u8 x.
Proof. change 0xff with (Z.ones 8). rewrite Z.land_ones by lia. unfold u8. by rewrite Z.mod_mod. Qed.

Lemma gamma_word_bytes a b c :
  0 <= a < 256 -> 0 <= b < 256 -> 0 <= c < 256 ->
  let w := Z.lor (Z.lor (Z.shiftl a 16) (Z.shiftl b 8)) c in
  u8 (Z.shiftr w 16) = a /\ u8 (Z.shiftr w 8) = b /\ u8 w = c.
Proof.
  intros Ha Hb Hc w.
  assert (w = a * 65536 + b * 256 + c) as ->.
  { unfold w. rewrite <- Z.lor_assoc, (lor_shiftl_add b c 8), lor_shiftl_add by lia. lia. }
  rewrite !Z.shiftr_div_pow2 by lia. unfold u8. lia_mod.
Qed.

Lemma gamma_store_length cout data v i : length (gamma_store cout data v i) = length v.
Proof. unfold gamma_store. by rewrite !length_insert. Qed.

(** After the first [n] iterations the cells of the first [n] columns are
    the bytes of the words. *)
Lemma gamma_foldl cout data v n :
  (n <= cout)%nat -> (3 * cout <= length v)%nat ->
  let r := foldl (gamma_store cout data) v (seq 0 n) in
  length r = length v /\
  (forall j, (j < n)%nat -> r !! j = Some (u8 (Z.shiftr (data !!! j) 16)) /\
     r !! (j + cout)%nat = Some (u8 (Z.shiftr (data !!! j) 8)) /\
     r !! (j + cout * 2)%nat = Some (u8 (data !!! j))) /\
  (forall k, (3 * cout <= k)%nat -> r !! k = v !! k).
Proof.
  induction n as [|n IH]; intros Hn Hl.
  - cbn. split_and!; [done|lia|done].
  - rewrite seq_S, foldl_app. cbn [foldl Nat.add].
    destruct IH as (L & C & K); [lia|done|].
    set (r := foldl (gamma_store cout data) v (seq 0 n)) in *.
    cbn zeta. split_and!.
    + by rewrite gamma_store_length.
    + intros j Hj. unfold gamma_store. rewrite !land_ff.
      destruct (decide (j = n)) as [->|Hne].
      * rewrite !list_lookup_insert by (rewrite ?length_insert; lia).
        repeat case_decide; try lia; rewrite ?length_insert in *; try lia; done.
      * destruct (C j) as (C1 & C2 & C3); [lia|].
        rewrite !list_lookup_insert_ne by lia. done.
    + intros k Hk. unfold gamma_store. rewrite !list_lookup_insert_ne by lia. by apply K.
Qed.

Lemma total_map_seq (f : nat -> Z) n j : (j < n)%nat -> map f (seq 0 n) !!! j = f j.
Proof.
  intros H. apply list_lookup_total_correct.
  change (map f (seq 0 n)) with (f <$> seq 0 n). rewrite list_lookup_fmap, lookup_seq_lt by done. done.
Qed.

(** Unpacking a packed gamma table gives the three colour planes back,
    for any number of entries; bytes beyond the planes are not touched. *)
Theorem gamma_roundtrip cout val val0 :
  Forall (fun b => 0 <= b < 256) val -> length val = (3 * cout)%nat ->
  (3 * cout <= length val0)%nat ->
  exists words, trans_x_gamma val cout = Some words /\ length words = cout /\
  gamma_x_trans val0 cout words = Some (val ++ drop (3 * cout) val0).
Proof.
  intros Hb Hl H0. unfold trans_x_gamma. rewrite (proj2 (Nat.leb_le _ _)) by lia.
  eexists. split; [done|]. set (words := map _ _).
  assert (length words = cout) as Hw by (unfold words; by rewrite length_map, length_seq).
  split; [done|]. unfold gamma_x_trans.
  rewrite (proj2 (Nat.leb_le _ (length val0))), Hw, (proj2 (Nat.leb_le _ _)) by lia. cbn [andb].
  destruct (gamma_foldl cout words val0 cout (Nat.le_refl _) H0) as (L & C & K).
  f_equal. apply list_eq. intros k.
  destruct (decide (3 * cout <= k)%nat) as [Hk|Hk].
  { rewrite K, lookup_app_r, Hl, lookup_drop by lia. f_equal. lia. }
  rewrite lookup_app_l by lia.
  assert (exists j, (j < cout)%nat /\ (k = j \/ k = j + cout \/ k = j + cout * 2)%nat) as (j & Hj & Hc).
  { destruct (decide (k < cout)%nat); [exists k; lia|].
    destruct (decide (k < cout * 2)%nat); [exists (k - cout)%nat|exists (k - cout * 2)%nat]; lia. }
  assert (forall m, (m < 3 * cout)%nat -> val !! m = Some (val !!! m) /\ 0 <= val !!! m < 256) as Hv.
  { intros m Hm. destruct (lookup_lt_is_Some_2 val m) as [x Hx]; [lia|].
    rewrite (list_lookup_total_correct _ _ _ Hx). split; [done|]. exact (Forall_lookup_1 _ _ _ _ Hb Hx). }
  destruct (Hv j) as [V1 B1]; [lia|]. destruct (Hv (j + cout)%nat) as [V2 B2]; [lia|].
  destruct (Hv (j + cout * 2)%nat) as [V3 B3]; [lia|].
  destruct (C j Hj) as (C1 & C2 & C3).
  assert (words !!! j = Z.lor (Z.lor (Z.shiftl (val !!! j) 16) (Z.shiftl (val !!! (j + cout)%nat) 8))
    (val !!! (j + cout * 2)%nat)) as Ew by (unfold words; by rewrite total_map_seq).
  destruct (gamma_word_bytes _ _ _ B1 B2 B3) as (G1 & G2 & G3). rewrite <- Ew in *.
  destruct Hc as [->|[->| ->]]; [rewrite C1, V1|rewrite C2, V2|rewrite C3, V3]; congruence.
Qed.

Lemma gamma_roundtrip_witness :
  exists words, trans_x_gamma [1; 2; 3; 4; 255; 0] 2 = Some words /\ length words = 2%nat /\
  gamma_x_trans (replicate 7 9) 2 words = Some ([1; 2; 3; 4; 255; 0] ++ [9]).
Proof.
  apply (gamma_roundtrip 2 [1; 2; 3; 4; 255; 0] (replicate 7 9));
    [by repeat (apply List.Forall_cons; [lia|])|reflexivity|cbn; lia].
Defined.

(** ** Register files *)

(** What the daemon relies on of the driver's register ioctls: reading
    returns the registers' values, writing stores them, other registers keep
    theirs. *)
Class DispRegs (D : Type) `{!DispDev D} := {
  reg_at : D -> Z -> Z -> Z;
  reg_range d de o : 0 <= reg_at d de o < 2 ^ 32;
  get_law d de l l' d' :
    pq_get_reg d de l = (0, l', d') -> d' = d /\ l' = map (fun p => (p.1, reg_at d de p.1)) l;
  set_law d de l d' :
    pq_set_reg d de l = (0, d') -> NoDup l.*1 ->
    (forall o v, (o, v) ∈ l -> reg_at d' de o = u32 v) /\
    (forall o, o ∉ l.*1 -> reg_at d' de o = reg_at d de o)
}.

Lemma land_ones_mod x f n : 0 <= n -> f = Z.ones n -> Z.land x f = x mod 2 ^ n.
Proof. intros H ->. by apply Z.land_ones. Qed.

(** Reading a field of an updated register, when the mask clears the field. *)
Lemma field_upd v mask bits sh f :
  Z.land (Z.shiftr mask sh) f = 0 ->
  Z.land (Z.shiftr (Z.lor (Z.land v mask) bits) sh) f = Z.land (Z.shiftr bits sh) f.
Proof.
  intros H. rewrite Z.shiftr_lor, Z.shiftr_land, Z.land_lor_distr_l, <- Z.land_assoc, H.
  by rewrite Z.land_0_r, Z.lor_0_l.
Qed.

Lemma field_upd_0 v mask bits f :
  Z.land mask f = 0 -> Z.land (Z.lor (Z.land v mask) bits) f = Z.land bits f.
Proof. intros H. apply (field_upd v mask bits 0 f H). Qed.

Section RegFile.
  Context {D : Type} `{!DispDev D, !DispRegs D}.

(** Six registers written and read back hold what was written. *)
Lemma write_read_back d de l d1 l2 d2 (enc : list reg_pair -> list reg_pair) s0 :
  NoDup (map fst s0) ->
  l = enc (map (fun p => (p.1, reg_at d de p.1)) s0) -> map fst l = map fst s0 ->
  pq_set_reg d de l = (0, d1) -> pq_get_reg d1 de s0 = (0, l2, d2) ->
  l2 = map (fun p => (p.1, u32 p.2)) l.
Proof.
  intros Hnd -> Hf Hs Hg. apply get_law in Hg as [-> ->].
  set (l := enc _) in *. apply set_law in Hs as [Hs _].
  2:{ change (NoDup (map fst l)). by rewrite Hf. }
  transitivity (map (fun o => (o, reg_at d1 de o)) (map fst s0)); [by rewrite map_map|].
  rewrite <- Hf, map_map. apply map_ext_in. intros [o v] Hin. cbn. f_equal.
  apply Hs. by apply list_elem_of_In.
Qed.

End RegFile.

Lemma upd_fst i m b l : map fst (upd i m b l) = map fst l.
Proof.
  unfold upd. change (map fst (alter (fun p => (p.1, Z.lor (Z.land p.2 m) (u32 b))) i l))
    with (fst <$> alter (fun p : Z * Z => (p.1, Z.lor (Z.land p.2 m) (u32 b))) i l).
  apply list_eq. intros j. rewrite !list_lookup_fmap.
  destruct (decide (i = j)) as [->|H]; [rewrite list_lookup_alter_eq|by rewrite list_lookup_alter_ne].
  by destruct (l !! j) as [[??]|].
Qed.

(** The field of [n] bits at [sh] of a register updated under [mask] and
    stored, when the mask clears it. *)
Lemma field_read v mask bits sh f n :
  0 <= sh -> 0 <= n -> sh + n <= 32 -> f = Z.ones n -> Z.land (Z.shiftr mask sh) f = 0 ->
  Z.land (Z.shiftr (u32 (Z.lor (Z.land v mask) (u32 bits))) sh) f = (bits / 2 ^ sh) mod 2 ^ n.
Proof.
  intros Hs Hn Hsn -> Hm.
  transitivity (Z.land (Z.shiftr bits sh) (Z.ones n));
    [|by rewrite Z.land_ones, Z.shiftr_div_pow2 by lia].
  rewrite <- (field_upd v mask bits sh (Z.ones n) Hm).
  apply Z.bits_inj'. intros i Hi. rewrite !Z.land_spec.
  destruct (Z.lt_ge_cases i n) as [Hlt|Hge].
  - rewrite !Z.shiftr_spec by lia. unfold u32. rewrite Z.mod_pow2_bits_low by lia.
    rewrite !Z.lor_spec, Z.mod_pow2_bits_low by lia. done.
  - rewrite Z.ones_spec_high by lia. by rewrite !andb_false_r.
Qed.

Lemma field_read_0 v mask bits f n :
  0 <= n <= 32 -> f = Z.ones n -> Z.land mask f = 0 ->
  Z.land (u32 (Z.lor (Z.land v mask) (u32 bits))) f = bits mod 2 ^ n.
Proof.
  intros Hn Hf Hm. pose proof (field_read v mask bits 0 f n) as H.
  rewrite !Z.shiftr_0_r, Z.div_1_r in H. apply H; try done; lia.
Qed.

Definition byte (x : Z) : Prop := 0 <= x < 256.

Record peak_ok (p : peak_sharp) : Prop := {
  pk_enable : p_enable p = 0 \/ p_enable p = 1;
  pk_gain : byte (p_gain p);
  pk_neg : 0 <= p_neg_gain p < 64;
  pk_hp : 0 <= p_hp_ratio p < 64;
  pk_bp0 : 0 <= p_bp0_ratio p < 64;
  pk_bp1 : 0 <= p_bp1_ratio p < 64;
  pk_dif : byte (p_dif_up p);
  pk_corth : byte (p_corth p);
  pk_beta : byte (p_beta p)
}.

Lemma b2z_01 c : c = 0 \/ c = 1 -> b2z c = c.
Proof. by intros [-> | ->]. Qed.

(** Bit 5 of the old register survives the mask 0xffffffa0. *)
Lemma neg_gain_field v n :
  0 <= n < 64 ->
  Z.land (u32 (Z.lor (Z.land v 0xffffffa0) (u32 n))) 0x3f = Z.lor n (Z.land v 0x20).
Proof.
  intros Hn. rewrite (land_ones_mod _ 0x3f 6) by (done || lia).
  replace (u32 (Z.lor (Z.land v 0xffffffa0) (u32 n)) mod 2 ^ 6)
    with (Z.lor (Z.land v 0xffffffa0) (u32 n) mod 2 ^ 6) by (unfold u32; lia_mod).
  rewrite <- (land_ones_mod _ 0x3f 6), Z.land_lor_distr_l, <- Z.land_assoc by (done || lia).
  change (Z.land 0xffffffa0 0x3f) with 0x20.
  rewrite (u32_small n), (land_ones_mod n 0x3f 6), Z.mod_small by (done || lia).
  apply Z.lor_comm.
Qed.

Definition stale_neg_gain (p : peak_sharp) (old : Z) : peak_sharp :=
  mkPeak (p_enable p) (p_gain p) (Z.lor (p_neg_gain p) (Z.land old 0x20)) (p_hp_ratio p)
    (p_bp0_ratio p) (p_bp1_ratio p) (p_dif_up p) (p_corth p) (p_beta p).

Lemma peak_codec (p : peak_sharp) (o v : list Z) :
  peak_ok p -> length o = 6%nat -> length v = 6%nat ->
  peak_decode (map (fun q => (q.1, u32 q.2)) (peak_encode p (zip o v)))
  = stale_neg_gain p (v !!! 4%nat).
Proof.
  intros [He Hg Hn Hh H0 H1 Hd Hc Hb] Ho Hv. unfold byte in *.
  do 6 (destruct o as [|? o]; [done|]). destruct o; [|done].
  do 6 (destruct v as [|? v]; [done|]). destruct v; [|done].
  unfold stale_neg_gain, peak_decode, peak_encode, value, upd.
  cbn [zip zip_with alter list_alter map lookup_total list_lookup_total fst snd].
  rewrite !Z.shiftl_mul_pow2 by lia.
  rewrite (field_read_0 _ 0xfffffffe _ 1 1), (field_read_0 _ 0xffffff00 (p_gain p) 0xff 8),
    neg_gain_field, (field_read _ 0xff000000 (_ + _ + _) 16 0x3f 6),
    (field_read _ 0xff000000 (_ + _ + _) 8 0x3f 6), (field_read_0 _ 0xff000000 (_ + _ + _) 0x3f 6),
    (field_read _ 0xff000000 (_ + _) 16 0xff 8), (field_read_0 _ 0xffffff00 (p_corth p) 0xff 8),
    (field_read_0 _ 0xff000000 (_ + _) 0xff 8) by (done || lia).
  rewrite b2z_01 by done. f_equal; lia_mod.
Qed.

(** In range, and [edge_gain] within the four bits its mask clears. *)
Record lti_ok (l : lti_sharp) : Prop := {
  lo_enable : l_enable l = 0 \/ l_enable l = 1;
  lo_sel : l_sel l = 0 \/ l_sel l = 1;
  lo_nl : l_nolinear_limmit_en l = 0 \/ l_nolinear_limmit_en l = 1;
  lo_c0 : byte (l_cstm_coeff0 l); lo_c1 : byte (l_cstm_coeff1 l);
  lo_c2 : byte (l_cstm_coeff2 l); lo_c3 : byte (l_cstm_coeff3 l);
  lo_c4 : byte (l_cstm_coeff4 l);
  lo_fir : 0 <= l_fir_gain l < 16;
  lo_cor : 0 <= l_cor_th l < 1024;
  lo_slope : 0 <= l_diff_slope l < 32;
  lo_offset : byte (l_diff_offset l);
  lo_edge : 0 <= l_edge_gain l < 32;
  lo_peak : 0 <= l_peak_limmit l < 8;
  lo_corex : byte (l_core_x l); lo_clip : byte (l_clip_y l);
  lo_win : byte (l_win_expansion l); lo_level : byte (l_edge_level_th l)
}.

(** Bit 4 of the old register survives the mask 0xfffffff0. *)
Lemma edge_gain_field v n :
  0 <= n < 32 ->
  Z.land (u32 (Z.lor (Z.land v 0xfffffff0) (u32 n))) 0x1f = Z.lor n (Z.land v 0x10).
Proof.
  intros Hn. rewrite (land_ones_mod _ 0x1f 5) by (done || lia).
  replace (u32 (Z.lor (Z.land v 0xfffffff0) (u32 n)) mod 2 ^ 5)
    with (Z.lor (Z.land v 0xfffffff0) (u32 n) mod 2 ^ 5) by (unfold u32; lia_mod).
  rewrite <- (land_ones_mod _ 0x1f 5), Z.land_lor_distr_l, <- Z.land_assoc by (done || lia).
  change (Z.land 0xfffffff0 0x1f) with 0x10.
  rewrite (u32_small n), (land_ones_mod n 0x1f 5), Z.mod_small by (done || lia).
  apply Z.lor_comm.
Qed.

Definition stale_edge_gain (l : lti_sharp) (old : Z) : lti_sharp :=
  mkLti (l_enable l) (l_cstm_coeff0 l) (l_cstm_coeff1 l) (l_cstm_coeff2 l) (l_cstm_coeff3 l)
    (l_cstm_coeff4 l) (l_fir_gain l) (l_cor_th l) (l_diff_slope l) (l_diff_offset l)
    (Z.lor (l_edge_gain l) (Z.land old 0x10)) (l_sel l) (l_win_expansion l)
    (l_nolinear_limmit_en l) (l_peak_limmit l) (l_core_x l) (l_clip_y l) (l_edge_level_th l).

(** A one-bit field tested with [!!(value & (1 << sh))]. *)
Lemma flag_read v mask bits sh c :
  0 <= sh < 32 -> Z.land mask (2 ^ sh) = 0 -> c = 0 \/ c = 1 -> (bits / 2 ^ sh) mod 2 = c ->
  b2z (Z.land (u32 (Z.lor (Z.land v mask) (u32 bits))) (2 ^ sh)) = c.
Proof.
  intros Hs Hm Hc Hb.
  assert (Z.land (u32 (Z.lor (Z.land v mask) (u32 bits))) (2 ^ sh) = c * 2 ^ sh) as ->.
  { apply Z.bits_inj'. intros i Hi. rewrite Z.land_spec.
    destruct (decide (i = sh)) as [->|Hne].
    - rewrite Z.pow2_bits_true, andb_true_r by lia. unfold u32.
      rewrite Z.mod_pow2_bits_low, Z.lor_spec, Z.land_spec, Z.mod_pow2_bits_low by lia.
      assert (Z.testbit mask sh = false) as ->.
      { apply (f_equal (fun x => Z.testbit x sh)) in Hm.
        by rewrite Z.land_spec, Z.pow2_bits_true, andb_true_r, Z.bits_0 in Hm by lia. }
      rewrite andb_false_r. cbn [orb].
      apply Z.b2z_inj. rewrite Z.testbit_spec' by lia. rewrite Hb.
      destruct Hc as [-> | ->]; [by rewrite Z.mul_0_l, Z.bits_0|].
      by rewrite Z.mul_1_l, Z.pow2_bits_true by lia.
    - rewrite Z.pow2_bits_false, andb_false_r by lia.
      destruct Hc as [-> | ->]; [by rewrite Z.mul_0_l, Z.bits_0|].
      by rewrite Z.mul_1_l, Z.pow2_bits_false by lia. }
  unfold b2z. destruct Hc as [-> | ->]; [done|].
  rewrite (proj2 (Z.eqb_neq _ _)); [done|]. lia.
Qed.

Lemma lti_codec (l : lti_sharp) (o v : list Z) :
  lti_ok l -> length o = 11%nat -> length v = 11%nat ->
  lti_decode (map (fun q => (q.1, u32 q.2)) (lti_encode l (zip o v)))
  = stale_edge_gain l (v !!! 7%nat).
Proof.
  intros [He Hs Hnl H0 H1 H2 H3 H4 Hf Hc Hsl Ho1 Heg Hp Hx Hy Hw Hl] Ho Hv. unfold byte in *.
  do 11 (destruct o as [|? o]; [done|]). destruct o; [|done].
  do 11 (destruct v as [|? v]; [done|]). destruct v; [|done].
  unfold stale_edge_gain, lti_decode, lti_encode, value, upd.
  cbn [zip zip_with alter list_alter map lookup_total list_lookup_total fst snd].
  rewrite !b2z_01 with (c := l_enable l), !b2z_01 with (c := l_sel l),
    !b2z_01 with (c := l_nolinear_limmit_en l) by done.
  set (w0 := Z.lor (Z.lor (l_enable l) (Z.shiftl (l_sel l) 8)) (Z.shiftl (l_nolinear_limmit_en l) 16)).
  assert (w0 = l_nolinear_limmit_en l * 65536 + l_sel l * 256 + l_enable l) as E0.
  { unfold w0. rewrite (Z.lor_comm (l_enable l)), (lor_shiftl_add (l_sel l)), Z.lor_comm,
      lor_shiftl_add by lia. lia. }
  set (w8 := Z.lor (Z.lor (l_core_x l) (Z.shiftl (l_clip_y l) 16)) (u32 (Z.shiftl (l_peak_limmit l) 28))).
  assert (w8 = l_peak_limmit l * 268435456 + l_clip_y l * 65536 + l_core_x l) as E8.
  { unfold w8. rewrite (u32_small (Z.shiftl _ _)) by (rewrite Z.shiftl_mul_pow2; lia).
    rewrite (Z.lor_comm (l_core_x l)), (lor_shiftl_add (l_clip_y l)), Z.lor_comm,
      lor_shiftl_add by lia. lia. }
  rewrite (lor_shiftl_add (l_diff_slope l)), !Z.shiftl_mul_pow2 by lia.
  change 0x100 with (2 ^ 8). change 0x10000 with (2 ^ 16).
  rewrite (flag_read _ 0xfffefefe w0 8 (l_sel l)), (flag_read _ 0xfffefefe w0 16 (l_nolinear_limmit_en l))
    by (done || lia || (rewrite E0; lia_mod)).
  rewrite (field_read_0 _ 0xfffefefe w0 1 1), edge_gain_field by (done || lia).
  rewrite (field_read_0 _ 0xff00ff00 _ 0xff 8), (field_read _ 0xff00ff00 _ 16 0xff 8) by (done || lia).
  rewrite (field_read_0 _ 0xff00ff00 _ 0xff 8), (field_read _ 0xff00ff00 _ 16 0xff 8) by (done || lia).
  rewrite (field_read_0 _ 0xff00ff00 _ 0xff 8), (field_read _ 0xff00ff00 _ 16 0x1f 5) by (done || lia).
  rewrite !(field_read_0 _ 0xffffff00 _ 0xff 8), (field_read_0 _ 0xfffffff0 _ 0xf 4),
    (field_read_0 _ 0xfffffc00 _ 0x3ff 10), (field_read_0 _ 0x8f00ff00 w8 0xff 8),
    (field_read _ 0x8f00ff00 w8 16 0xff 8), (field_read _ 0x8f00ff00 w8 28 0x07 3) by (done || lia).
  rewrite E0, E8. clear E0 E8 w0 w8. f_equal; lia_mod.
Qed.

(** ** Writing settings to the display engine and reading them back *)

Section RoundTrip.
  Context {D : Type} `{!DispDev D, !DispRegs D}.

Lemma zip_map {A B} (f : A -> B) (l : list A) : map (fun a => (a, f a)) l = zip l (map f l).
Proof. induction l as [|a l IH]; [done|]. cbn. by rewrite IH. Qed.

(** The common part: settings encoded into the registers of [s0] and read
    back are the decoded encoding of the old register values. *)
Lemma settings_read_back {A} (enc : list reg_pair -> list reg_pair) (dec : list reg_pair -> A)
    d de s0 d1 l2 d2 :
  NoDup (map fst s0) -> (forall s, map fst (enc s) = map fst s) ->
  forall l0 d0, pq_get_reg d de s0 = (0, l0, d0) ->
  pq_set_reg d0 de (enc l0) = (0, d1) -> pq_get_reg d1 de s0 = (0, l2, d2) ->
  dec l2 = dec (map (fun q => (q.1, u32 q.2))
                 (enc (zip (map fst s0) (map (reg_at d de) (map fst s0))))) /\
  (forall o, o ∉ map fst s0 -> reg_at d1 de o = reg_at d de o).
Proof.
  intros Hnd He l0 d0 Hg Hs Hg2. apply get_law in Hg as [-> ->].
  assert (map (fun p => (p.1, reg_at d de p.1)) s0
    = zip (map fst s0) (map (reg_at d de) (map fst s0))) as E.
  { rewrite <- zip_map, map_map. done. }
  assert (map fst (enc (map (fun p => (p.1, reg_at d de p.1)) s0)) = map fst s0) as Hf.
  { rewrite He, map_map. done. }
  split.
  - rewrite <- E. f_equal. by eapply (write_read_back d de _ d1 l2 d2 enc s0).
  - intros o Ho. apply set_law in Hs as [_ Hs]; [by apply Hs; change (o ∉ map fst (enc (map (fun p => (p.1, reg_at d de p.1)) s0))); rewrite Hf|].
    change (NoDup (map fst (enc (map (fun p => (p.1, reg_at d de p.1)) s0)))). by rewrite Hf.
Qed.

(** Peaking settings in range that are written to the display engine
    are read back unchanged, with one exception the theorem states exactly:
    bit 5 of an old [neg_gain] survives, because its mask 0xffffffa0 leaves
    it set.  No register outside the block changes. *)
Theorem peak_write_read d de peak d1 p0 p2 d2 :
  peak_ok peak -> tans_to_peak d de peak = (0, d1) -> peak_to_trans d1 de p0 = (0, p2, d2) ->
  p2 = stale_neg_gain peak (reg_at d de (PEAK_OFST + 0x28)) /\
  (forall o, o ∉ map fst peak_set0 -> reg_at d1 de o = reg_at d de o).
Proof.
  intros Hp. unfold tans_to_peak, peak_to_trans.
  destruct (pq_get_reg d de peak_set0) as [[r l0] d0] eqn:Eg.
  destruct (Z.eqb_spec r 0) as [->|]; cbn [negb]; [|intros [= ? ?]; congruence]. intros Es.
  destruct (pq_get_reg d1 de peak_set0) as [[r2 l2] d3] eqn:Eg2.
  destruct (Z.eqb_spec r2 0) as [->|]; cbn [negb]; [|intros [= ? ? ?]; congruence].
  intros [= <- <-].
  destruct (settings_read_back (peak_encode peak) peak_decode d de peak_set0 d1 l2 d3)
    with (3 := Eg) as [E F];
    [apply (bool_decide_unpack _); vm_compute; exact I
    |intros s; unfold peak_encode; by rewrite !upd_fst|done|done|].
  split; [|exact F]. rewrite E. by apply peak_codec.
Qed.

(** Sharpness (LTI) settings in range are read back unchanged, except
    that bit 4 of an old [edge_gain] survives its four-bit mask; no register
    outside the block changes. *)
Theorem lti_write_read d de lti d1 l0 l2 d2 :
  lti_ok lti -> tans_to_lti d de lti = (0, d1) -> lti_to_trans d1 de l0 = (0, l2, d2) ->
  l2 = stale_edge_gain lti (reg_at d de (LTI_OFST + 0x28)) /\
  (forall o, o ∉ map fst lti_set0 -> reg_at d1 de o = reg_at d de o).
Proof.
  intros Hp. unfold tans_to_lti, lti_to_trans.
  destruct (pq_get_reg d de lti_set0) as [[r s0] d0] eqn:Eg.
  destruct (Z.eqb_spec r 0) as [->|]; cbn [negb]; [|intros [= ? ?]; congruence]. intros Es.
  destruct (pq_get_reg d1 de lti_set0) as [[r2 s2] d3] eqn:Eg2.
  destruct (Z.eqb_spec r2 0) as [->|]; cbn [negb]; [|intros [= ? ? ?]; congruence].
  intros [= <- <-].
  destruct (settings_read_back (lti_encode lti) lti_decode d de lti_set0 d1 s2 d3)
    with (3 := Eg) as [E F];
    [apply (bool_decide_unpack _); vm_compute; exact I
    |intros s; unfold lti_encode; by rewrite !upd_fst|done|done|].
  split; [|exact F]. rewrite E. by apply lti_codec.
Qed.

End RoundTrip.

(** ** A register file *)

Record regfile := mkRegs { rf_regs : gmap (Z * Z) Z; rf_gamma : list Z }.

Definition rf_at (d : regfile) (de o : Z) : Z := u32 (default 0 (rf_regs d !! (de, o))).

#[export] Instance regfile_dev : DispDev regfile := {|
  pq_get_reg d de l := (0, map (fun p => (p.1, rf_at d de p.1)) l, d);
  pq_set_reg d de l :=
    (0, mkRegs (foldl (fun m p => <[(de, p.1) := p.2]> m) (rf_regs d) l) (rf_gamma d));
  pq_color_matrix d de cm := (0, cm, d);
  pq_matrix d de us := (0, us, d);
  gamma_correction_enable d := (0, d);
  set_gamma_table d de w := (0, mkRegs (rf_regs d) w);
  get_gamma_table d de w := (0, rf_gamma d, d)
|}.

Lemma foldl_insert_lookup (de : Z) (l : list reg_pair) (m : gmap (Z * Z) Z) o :
  NoDup l.*1 ->
  (forall v, (o, v) ∈ l -> foldl (fun m p => <[(de, p.1) := p.2]> m) m l !! (de, o) = Some v) /\
  (o ∉ l.*1 -> foldl (fun m p => <[(de, p.1) := p.2]> m) m l !! (de, o) = m !! (de, o)).
Proof.
  revert m. induction l as [|[o' v'] l IH]; intros m Hnd.
  - split; [intros v Hv; by apply elem_of_nil in Hv|done].
  - cbn [fmap list_fmap foldl fst snd] in *. apply NoDup_cons in Hnd as [Hni Hnd].
    destruct (IH (<[(de, o') := v']> m) Hnd) as [I1 I2]. split.
    + intros v [[= -> ->]|Hv]%elem_of_cons; [|by apply I1].
      rewrite I2 by done. by rewrite lookup_insert_eq.
    + intros [Ho1 Ho2]%not_elem_of_cons. rewrite I2 by done. rewrite lookup_insert_ne; [done|].
      intros [= ?]. congruence.
Qed.

#[export] Instance regfile_regs : DispRegs regfile.
Proof.
  refine {| reg_at := rf_at |}.
  - intros. apply u32_range.
  - by intros d de l l' d' [= <- <-].
  - intros d de l d' [= <-] Hnd.
    split; intros o.
    + intros v Hv. unfold rf_at. cbn [rf_regs].
      by rewrite (proj1 (foldl_insert_lookup de l (rf_regs d) o Hnd) v Hv).
    + intros Ho. unfold rf_at. cbn [rf_regs].
      by rewrite (proj2 (foldl_insert_lookup de l (rf_regs d) o Hnd) Ho).
Defined.

Definition demo_peak (neg : Z) : peak_sharp := mkPeak 1 200 neg 63 5 6 255 8 9.
Definition demo_regs : regfile :=
  mkRegs {[(0, PEAK_OFST + 0x28) := 0x20; (0, LTI_OFST + 0x28) := 0x1f]} [].

Lemma demo_peak_ok neg : 0 <= neg < 64 -> peak_ok (demo_peak neg).
Proof. intros. split; cbn; unfold byte; lia. Qed.

Lemma peak_write_read_witness :
  exists d1 d2, tans_to_peak demo_regs 0 (demo_peak 1) = (0, d1) /\
    peak_to_trans d1 0 (demo_peak 0) = (0, demo_peak 0x21, d2).
Proof.
  destruct (tans_to_peak demo_regs 0 (demo_peak 1)) as [r d1] eqn:E1.
  assert (r = 0) as -> by (change r with (fst (r, d1)); rewrite <- E1; vm_compute; reflexivity).
  destruct (peak_to_trans d1 0 (demo_peak 0)) as [[r2 p2] d2] eqn:E2.
  assert (r2 = 0) as -> by (injection E2 as <- _ _; reflexivity).
  destruct (peak_write_read demo_regs 0 (demo_peak 1) d1 (demo_peak 0) p2 d2) as [-> _];
    [apply demo_peak_ok; lia|exact E1|exact E2|].
  exists d1, d2. split; [reflexivity|exact E2].
Defined.

Definition demo_lti (edge : Z) : lti_sharp :=
  mkLti 1 2 3 4 5 6 7 800 9 10 edge 1 12 0 7 15 16 17.

Lemma demo_lti_ok edge : 0 <= edge < 32 -> lti_ok (demo_lti edge).
Proof. intros. split; cbn; unfold byte; lia. Qed.

Lemma lti_write_read_witness :
  exists d1 d2, tans_to_lti demo_regs 0 (demo_lti 3) = (0, d1) /\
    lti_to_trans d1 0 (demo_lti 0) = (0, demo_lti 0x13, d2).
Proof.
  destruct (tans_to_lti demo_regs 0 (demo_lti 3)) as [r d1] eqn:E1.
  assert (r = 0) as -> by (change r with (fst (r, d1)); rewrite <- E1; vm_compute; reflexivity).
  destruct (lti_to_trans d1 0 (demo_lti 0)) as [[r2 p2] d2] eqn:E2.
  assert (r2 = 0) as -> by (injection E2 as <- _ _; reflexivity).
  destruct (lti_write_read demo_regs 0 (demo_lti 3) d1 (demo_lti 0) p2 d2) as [-> _];
    [apply demo_lti_ok; lia|exact E1|exact E2|].
  exists d1, d2. split; [reflexivity|exact E2].
Defined.

(** ** Requests that leave their buffers *)

Section Overflows.
  Context {D : Type} `{!DispDev D} {F : Type} (fix4096 : F -> Z) (of4096 : Z -> F)
    (atof : list Z -> F).

(** [trans_to_matix] allocates the size of [struct matrix4x4] but stores
    into a [struct matrix_user], which is 16 bytes longer: every colour matrix
    request (ids 15 and 16) writes past its heap block. *)
Theorem matrix_alloc_too_small (d : D) de id space c cmd :
  trans_to_spec fix4096 of4096 d de (DMatrix id space c) cmd = None.
Proof.
  cbn [trans_to_spec]. unfold matrix_req, trans_to_matix.
  replace (mapM (fun k => heap_store 128 (16 + 8 * Z.of_nat k) 8) (seq 0 16)) with (@None (list ()))
    by (vm_compute; reflexivity).
  cbn [mbind option_bind heap_store]. by destruct (mapM _ _).
Qed.

Lemma fill_set_out n j data set :
  (0 < n)%nat -> (j + n = length data)%nat -> fill_set n j data set = None.
Proof.
  revert j set. induction n as [|n IH]; intros j set Hn Hj; [lia|]. cbn [fill_set].
  destruct (data !! (2 * j)%nat); [|done]. cbn [mbind option_bind].
  destruct (data !! (2 * j + 1)%nat) eqn:E; [|done]. cbn [mbind option_bind].
  destruct (aset _ _ _); [|done]. cbn [mbind option_bind].
  apply lookup_lt_Some in E. apply IH; lia.
Qed.

(** Loading a register list (id 3) from the firmware text goes past both
    the parsed values and the allocated pairs: the loop runs once per value
    although a pair takes two, for every list of decimal values. *)
Theorem regset_download_overflows (s : pq_state (D:=D)) de_d p v vs rest uninit :
  Forall (PqFirm.decimal p) (v :: vs) ->
  download_firmware_generic fix4096 of4096 atof s 3 de_d
    (PqFirm.LBRACE :: p v ++ PqFirm.tail_text p vs rest) uninit = None.
Proof.
  intros H. unfold download_firmware_generic. cbn [Z.eqb Pos.eqb orb].
  rewrite PqFirm.trans_firm_data_text by (done || lia). cbn [mbind option_bind].
  rewrite fill_set_out; [done|lia|]. cbn [length]. lia.
Qed.

(** ** Saving *)

Lemma put_digits_bounds ds firm L next :
  next <= L -> let '(f, n) := PqFirm.put_digits firm L next ds in
  length f = length firm /\ next <= n <= L.
Proof.
  revert firm next. induction ds as [|d ds IH]; intros firm next Hn; cbn; [lia|].
  destruct (Z.ltb_spec next L); [|lia].
  specialize (IH (<[Z.to_nat next := d]> firm) (next + 1) ltac:(lia)).
  destruct (PqFirm.put_digits _ _ _ _). rewrite length_insert in IH. lia.
Qed.

(** One printed value: no progress, or progress within the buffer. *)
Lemma data_to_firm_bounds firm L next v :
  0 <= next <= L -> exists f n, PqFirm.data_to_firm (Some firm) L next v = (Some f, n) /\
  (n = next \/ next < n <= L).
Proof.
  intros Hn. unfold PqFirm.data_to_firm. destruct (Z.leb_spec L next); [by eauto|].
  set (st := if next =? 0 then _ else _).
  assert (exists f1 n1, st = (f1, n1) /\ next <= n1 <= L) as (f1 & n1 & -> & H1).
  { unfold st. destruct (Z.eqb_spec next 0); do 2 eexists; (split; [done|]); lia. }
  pose proof (put_digits_bounds (rev (PqFirm.firm_digits v)) f1 L n1 ltac:(lia)) as Hp.
  destruct (PqFirm.put_digits _ _ _ _) as [f2 n2].
  destruct (Z.leb_spec L n2); do 2 eexists; (split; [done|]); lia.
Qed.

Lemma updata_loop_fails fuel firm L next v :
  0 <= next <= L -> (Z.to_nat (L - next) < fuel)%nat ->
  exists f, updata_loop fuel (Some firm) L next v = Some (-1, f).
Proof.
  revert firm next. induction fuel as [|fuel IH]; intros firm next Hn Hf; [lia|].
  cbn [updata_loop]. destruct (data_to_firm_bounds firm L next v Hn) as (f & n & -> & Hc).
  destruct (Z.eqb_spec n next); [by eauto|]. apply IH; lia.
Qed.

Lemma save_cases firm_fd opened (pkg : PQ_package (F:=F)) :
  0 <= (if firm_fd <? 0 then opened else firm_fd) -> 0 < pk_size pkg ->
  let fd := if firm_fd <? 0 then opened else firm_fd in
  save_cfg_firmware firm_fd opened pkg =
    match pk_data pkg with
    | DGamma (_ :: _) | DPeak _ => Some (0, fd, None)
    | _ => None
    end.
Proof.
  intros Hfd Hsz fd. unfold save_cfg_firmware. fold fd. fold fd in Hfd.
  rewrite (proj2 (Z.ltb_ge fd 0)) by lia. unfold updata_firm_generic.
  assert (forall x, exists f, updata_loop (S (Z.to_nat (pk_size pkg * 4 + 10)))
    (Some (replicate (Z.to_nat (pk_size pkg * 4 + 10)) 0)) (pk_size pkg * 4 + 10) 0 x
    = Some (-1, f)) as Hu by (intros x; apply updata_loop_fails; lia).
  destruct (pk_data pkg) as [| | |[|g gs]|peak| | | | |] eqn:Ed; cbn [data_id];
    try (case_match; done); try done.
  - cbn [Z.leb Z.compare Pos.compare Pos.compare_cont andb updata_firm_spec lookup list_lookup].
    cbn [mbind option_bind]. destruct (Hu g) as [f ->]. done.
  - cbn [Z.leb Z.compare Pos.compare Pos.compare_cont andb updata_firm_spec].
    destruct (Hu (p_gain peak)) as [f ->]. done.
Qed.

(** Saving never writes a text.  For gamma and peaking data the loop of
    [updata_firm_spec] does not advance its index: it prints the first value
    until the buffer is full and reports failure, and [save_cfg_firmware]
    returns 0 all the same; for every other payload the closing brace is
    stored in front of the buffer. *)
Theorem save_never_writes firm_fd opened (pkg : PQ_package (F:=F)) :
  0 <= (if firm_fd <? 0 then opened else firm_fd) -> 0 < pk_size pkg ->
  let fd := if firm_fd <? 0 then opened else firm_fd in
  save_cfg_firmware firm_fd opened pkg =
    match pk_data pkg with
    | DGamma (_ :: _) | DPeak _ => Some (0, fd, None)
    | _ => None
    end.
Proof. apply save_cases. Qed.

End Overflows.

Lemma save_never_writes_witness :
  save_cfg_firmware 5 (-1) (mkPkg (F:=unit) 3 0 23 (DPeak (demo_peak 1))) = Some (0, 5, None) /\
  save_cfg_firmware 5 (-1) (mkPkg (F:=unit) 3 0 14 (DEnh (mkEnh 1 2 3 4))) = None.
Proof.
  split.
  - exact (save_never_writes 5 (-1) (mkPkg (F:=unit) 3 0 23 (DPeak (demo_peak 1)))
      ltac:(cbn; lia) ltac:(cbn; lia)).
  - exact (save_never_writes 5 (-1) (mkPkg (F:=unit) 3 0 14 (DEnh (mkEnh 1 2 3 4)))
      ltac:(cbn; lia) ltac:(cbn; lia)).
Defined.

(** The text "{4,7}". *)
Lemma regset_download_overflows_witness :
  download_firmware_generic (F:=unit) (fun _ => 0) (fun _ => tt) (fun _ => tt) (mkPq 0 1855 201 demo_regs) 3 1
    [123; 52; 44; 55; 125] 0 = None.
Proof.
  apply (regset_download_overflows (F:=unit) (fun _ => 0) (fun _ => tt) (fun _ => tt) (mkPq 0 1855 201 demo_regs) 1
    (fun v => rev (PqFirm.firm_digits v)) 4 [7] [] 0).
  do 2 (apply List.Forall_cons; [apply PqFirm.decimal_small; lia|]). constructor.
Defined.

(** ** The translate thread *)

Section Queue.
  Context {D : Type} `{!DispDev D} {F : Type} (fix4096 : F -> Z) (of4096 : Z -> F).

(** What is sent back: the package itself for commands that only read and
    succeed, a reply record otherwise. *)
Definition reply_ok (req pkg : PQ_package (F:=F)) : Prop :=
  pk_cmd pkg = pk_cmd req /\ pk_type pkg = pk_type req /\
  ((exists ret, pk_data pkg = DReply ret /\ pk_size pkg = 18) \/
   (pk_size pkg = pk_size req /\ (pk_cmd req = 0 \/ pk_cmd req = 1 \/ pk_cmd req = 4))) /\
  (pk_cmd req = 2 \/ pk_cmd req = 3 -> exists ret, pk_data pkg = DReply ret) /\
  (~ (0 <= pk_cmd req <= 4) -> pk_data pkg = DReply (-1)).

Lemma trans_send_reply (s : daemon (D:=D) (F:=F)) data read reply s' :
  trans_send s data read reply = Some s' ->
  exists pkg, s' = mkDaemon (d_pq s) (d_firm_fd s) (d_queue s) (d_sent s ++ [(client_fd data, pkg)]) (d_can_close s) /\
  pk_cmd pkg = pk_cmd (t_pkg data) /\ pk_type pkg = pk_type (t_pkg data) /\
  (if read && (reply =? 0) then pkg = t_pkg data
   else pk_data pkg = DReply reply /\ pk_size pkg = 18).
Proof.
  unfold trans_send. destruct read, (Z.eqb_spec reply 0); cbn [andb orb negb];
    try (destruct (heap_store _ _ _); [|done]); intros [= <-];
    eexists; (split; [reflexivity|]); by split_and!.
Qed.

Lemma in_heap size n : 0 <= n -> 10 + n <= size -> heap_store size 10 n = Some ().
Proof. intros Hn H. unfold heap_store. by rewrite (proj2 (Z.leb_le _ _) H). Qed.

Lemma trans_send_total (s : daemon (D:=D) (F:=F)) data read reply :
  (read = true /\ reply = 0) \/ 18 <= pk_size (t_pkg data) ->
  exists s', trans_send s data read reply = Some s'.
Proof.
  intros H. unfold trans_send. destruct ((read && negb (reply =? 0)) || negb read) eqn:E; [|cbn; eauto].
  rewrite in_heap by (destruct H as [[-> ->]|H]; [done|lia]). cbn. eauto.
Qed.

(** One dispatch answers the request it was given, and only that one. *)
Lemma dispatch_replies (s : daemon (D:=D) (F:=F)) data cfg firm s' :
  dispatch fix4096 of4096 s data cfg firm = Some s' ->
  d_queue s' = d_queue s /\ d_can_close s' = d_can_close s /\
  exists pkg, d_sent s' = d_sent s ++ [(client_fd data, pkg)] /\ reply_ok (t_pkg data) pkg.
Proof.
  intros H. unfold dispatch in H.
  repeat match type of H with
  | (if ?a =? ?b then _ else _) = _ =>
      let Hc := fresh "Hc" in destruct (Z.eqb_spec a b) as [Hc|Hc]
  | (in_package ?p ≫= _) = _ =>
      destruct (in_package p); [cbn [mbind option_bind] in H|done]
  | (?m ≫= _) = _ =>
      destruct m as [[[? ?] ?]|]; [cbn [mbind option_bind] in H; cbv zeta in H|done]
  end.
  all: apply trans_send_reply in H as (pkg & -> & H1 & H2 & H3).
  all: cbn [d_queue d_can_close d_sent d_pq set_pq client_fd set_pkg_data t_pkg] in *.
  all: (split; [done|]; split; [done|]; exists pkg; split; [done|]).
  all: unfold reply_ok; rewrite H1, H2; cbn [pk_cmd pk_type pk_size set_pkg_data t_pkg] in *.
  all: (split; [done|]; split; [done|]).
  all: destruct (_ =? 0) eqn:Er in H3; cbn [andb] in H3;
    match type of H3 with _ /\ _ => destruct H3 as [H3 H4] | _ => subst pkg end;
    cbn [pk_size pk_data] in *.
  all: split_and!; intros; eauto 6; try lia; try congruence.
Qed.

(** ** Well-formed requests are answered, in order *)

  (** The driver fills the gamma buffer it is given. *)
  Hypothesis gamma_len : forall d de w, length (get_gamma_table d de w).1.2 = length w.

(** What a client may send: the payload of a request that is handled lies in
    the package, a request that is replied to has room for the reply, a gamma
    table has its three planes, a register list its announced length; matrix
    requests and saves of other data leave their buffers (see above). *)
Definition request_wf (data : trans_data (F:=F)) : Prop :=
  0 < pk_size (t_pkg data) /\
  (1 <= pk_cmd (t_pkg data) <= 3 -> 10 + payload_bytes (pk_data (t_pkg data)) <= pk_size (t_pkg data)) /\
  (pk_cmd (t_pkg data) <> 0 -> pk_cmd (t_pkg data) <> 1 -> 18 <= pk_size (t_pkg data)) /\
  match pk_data (t_pkg data) with
  | DGamma val => (768 <= length val)%nat
  | DRegSet count set => 0 <= count <= Z.of_nat (length set)
  | DMatrix _ _ _ => False
  | _ => True
  end /\
  (pk_cmd (t_pkg data) = 3 ->
   match pk_data (t_pkg data) with DGamma _ | DPeak _ => True | _ => False end).

(** A request that is replied to and has no room for the reply: the eight
    bytes are written past the block. *)
Lemma short_request_overflows (s : daemon (D:=D) (F:=F)) data cfg firm :
  pk_size (t_pkg data) < 18 -> ~ (0 <= pk_cmd (t_pkg data) <= 4) ->
  dispatch fix4096 of4096 s data cfg firm = None.
Proof.
  intros Hs Hc. unfold dispatch.
  repeat (match goal with |- context [?a =? ?b] => destruct (Z.eqb_spec a b); [lia|] end).
  unfold trans_send, heap_store. cbn [andb orb negb].
  by rewrite (proj2 (Z.leb_gt (10 + 8) (pk_size (t_pkg data)))), andb_false_r by lia.
Qed.

Ltac dexx_result := do 3 eexists; split; [reflexivity|]; split; [cbn [payload_bytes]; lia|done].

Lemma dexx_total (pq : pq_state (D:=D)) data cmd :
  request_wf data ->
  exists ret x pq', trans_to_dexx fix4096 of4096 pq (pk_data (t_pkg data)) cmd = Some (ret, x, pq') /\
    (ret <> 0 -> 8 <= payload_bytes (pk_data (t_pkg data))) /\
    match pk_data (t_pkg data), x with
    | DGamma _, DGamma (_ :: _) => True | DGamma _, _ => False
    | DPeak _, DPeak _ => True | DPeak _, _ => False
    | _, _ => True
    end.
Proof.
  intros (_ & _ & _ & Hw & _).
  destruct (pk_data (t_pkg data)) as [ic de|reg|count set|val|peak|lti|enh|id sp c|ret|id];
    cbn [trans_to_dexx].
  - dexx_result.
  - unfold reg_req. destruct (cmd =? WRITE_CMD); [destruct (pq_set_reg _ _ _)|destruct (pq_get_reg _ _ _) as [[??]?]]; (dexx_result).
  - replace ((count <? 0) || (Z.of_nat (length set) <? count)) with false by lia.
    unfold reg_req. destruct (cmd =? WRITE_CMD); [destruct (pq_set_reg _ _ _)|destruct (pq_get_reg _ _ _) as [[??]?]]; (dexx_result).
  - cbn [trans_to_spec]. unfold gamma_write, gamma_read, trans_x_gamma, gamma_x_trans.
    destruct val as [|v0 val]; [cbn in Hw; lia|].
    rewrite (proj2 (Nat.leb_le (3 * 256) _)) by lia. destruct (cmd =? WRITE_CMD).
    + cbn [mbind option_bind]. destruct (gamma_correction_enable _), (set_gamma_table _ _ _). cbn. dexx_result.
    + pose proof (gamma_len (g_dev pq) (g_de pq) (replicate 256 0)) as Hg.
      destruct (get_gamma_table _ _ _) as [[r w] d1]. cbn [fst snd] in Hg.
      rewrite (proj2 (Nat.leb_le 256 (length w))) by (rewrite Hg, length_replicate; lia).
      cbn [andb mbind option_bind]. do 3 eexists. split; [reflexivity|]. split; [done|].
      destruct (gamma_foldl 256 w (v0 :: val) 256) as [L _]; [lia|lia|].
      cbn zeta in L. by destruct (foldl (gamma_store 256 w) (v0 :: val) (seq 0 256)).
  - cbn [trans_to_spec]. destruct (cmd =? WRITE_CMD); [|destruct (peak_to_trans _ _ _) as [[??]?]]; cbn; (dexx_result).
  - cbn [trans_to_spec]. destruct (cmd =? WRITE_CMD); [|destruct (lti_to_trans _ _ _) as [[??]?]]; cbn; (dexx_result).
  - cbn [trans_to_spec]. destruct (enhance_req _ _ _ _). cbn. dexx_result.
  - done.
  - cbn. dexx_result.
  - cbn [trans_to_spec mbind option_bind]. repeat case_match; (dexx_result).
Qed.

Lemma save_total firm_fd opened (pkg : PQ_package (F:=F)) :
  0 < pk_size pkg ->
  match pk_data pkg with DGamma (_ :: _) | DPeak _ => True | _ => False end ->
  exists r, save_cfg_firmware firm_fd opened pkg = Some r.
Proof.
  intros Hs Hx. destruct (Z.ltb_spec (if firm_fd <? 0 then opened else firm_fd) 0) as [Hf|Hf].
  - unfold save_cfg_firmware. rewrite (proj2 (Z.ltb_lt _ _) Hf). eauto.
  - rewrite save_cases by done. destruct (pk_data pkg) as [| | |[|??]| | | | | |]; try done; eauto.
Qed.

Lemma payload_nonneg (x : pq_data (F:=F)) : 0 <= payload_bytes x.
Proof. destruct x; cbn [payload_bytes]; lia. Qed.

Lemma dispatch_total (s : daemon (D:=D) (F:=F)) data cfg firm :
  request_wf data -> exists s', dispatch fix4096 of4096 s data cfg firm = Some s'.
Proof.
  intros Hw. pose proof Hw as (Hs & Hp & Hr & _ & H3). unfold dispatch.
  assert (1 <= pk_cmd (t_pkg data) <= 3 -> in_package (t_pkg data) = Some ()) as Hin.
  { intros Hc. apply in_heap; [apply payload_nonneg|by apply Hp]. }
  destruct (Z.eqb_spec (pk_cmd (t_pkg data)) 0); [apply trans_send_total; by left|].
  destruct (Z.eqb_spec (pk_cmd (t_pkg data)) 1); [|destruct (Z.eqb_spec (pk_cmd (t_pkg data)) 3)].
  - rewrite Hin by lia. cbn [mbind option_bind].
    destruct (dexx_total (d_pq s) data READ_CMD Hw) as (r & x & pq & -> & Hr0 & _). cbn [mbind option_bind].
    apply trans_send_total. destruct (Z.eq_dec r 0) as [->|Hr1]; [by left|right].
    specialize (Hr0 Hr1). specialize (Hp ltac:(lia)). cbn [t_pkg set_pkg_data pk_size]. lia.
  - rewrite Hin by lia. cbn [mbind option_bind].
    destruct (dexx_total (d_pq s) data WRITE_CMD Hw) as (r & x & pq & -> & _ & Hx).
    cbn [mbind option_bind]. assert (18 <= pk_size (t_pkg (set_pkg_data data x))) as H18 by (cbn; apply Hr; lia).
    destruct (r =? 0); [|apply trans_send_total; by right].
    specialize (H3 ltac:(lia)).
    destruct (save_total (d_firm_fd (set_pq s pq)) firm (t_pkg (set_pkg_data data x)) Hs)
      as [[[r1 fd] tx] ->]; [|cbn [mbind option_bind]; apply trans_send_total; by right].
    cbn [t_pkg set_pkg_data pk_data]. destruct (pk_data (t_pkg data)); try done; by destruct x as [| | |[|??]| | | | | |].
  - destruct (Z.eqb_spec (pk_cmd (t_pkg data)) 2); [|destruct (pk_cmd (t_pkg data) =? 4); apply trans_send_total; right; apply Hr; lia].
    rewrite Hin by lia. cbn [mbind option_bind].
    destruct (dexx_total (d_pq s) data WRITE_CMD Hw) as (r & x & pq & -> & _). cbn [mbind option_bind].
    apply trans_send_total. right. cbn. apply Hr; lia.
Qed.

(** The loop run once per element of [envs] (what arrives during a wait and
    what the two [open]s return). *)
Fixpoint translate_run (s : daemon (D:=D) (F:=F)) (envs : list (list (trans_data (F:=F)) * Z * Z))
  : option (daemon (D:=D) (F:=F)) :=
  match envs with
  | [] => Some s
  | (arrivals, cfg, firm) :: envs =>
      s ← translate_iter fix4096 of4096 s arrivals cfg firm; translate_run s envs
  end.


End Queue.

Definition demo_daemon : daemon (D:=regfile) (F:=unit) :=
  mkDaemon (mkPq 0 1855 201 demo_regs) (-1)
    [mkTrans 7 (mkPkg 2 0 23 (DPeak (demo_peak 1))); mkTrans 8 (mkPkg 9 0 18 (DOther 40)); mkTrans 9 (mkPkg 1 0 14 (DOther 40))] [] false.

(** Like [regfile_dev], with a gamma table that fills the caller's buffer. *)
Definition regfile_dev256 : DispDev regfile := {|
  pq_get_reg := pq_get_reg; pq_set_reg := pq_set_reg; pq_color_matrix := pq_color_matrix; pq_matrix := pq_matrix;
  gamma_correction_enable := gamma_correction_enable; set_gamma_table := set_gamma_table;
  get_gamma_table d de w := (0, take (length w) (rf_gamma d ++ w), d)
|}.


End De201.
