(* ===== verification/PqLoad.v ===== *)
(** * Loading the firmware text at start-up (display/pq/trans_info.c)

    The text file of display tuning values starts with "#DE<version>" and
    holds records "[id,de]{a,b,...}".  [download_firmware] maps the file
    window by window, scans it for records and hands each one to
    [download_firmware_generic] (De201); [PQ_translate_init] does so for the
    vendor file and for the file of saved values when the daemon starts.

    A window is a list of bytes with the zeros that fill its last page; a
    read past that page is a [Fault].  The scan is written with fuel
    ([NoFuel] when it runs out); [download_terminates] shows that the fuel
    chosen is always enough.  Files are shorter than 2 GiB, so that the [int]
    offsets do not wrap. *)

From stdpp Require Import base tactics option list list_numbers numbers.
From Stdlib Require Import ZArith Lia.
From S2P Require Import Prelude PqFirm De201.

Local Open Scope Z_scope.

Module PqLoad.

(** ** Results *)

Inductive run (A : Type) := Ret (a : A) | Fault | NoFuel.
Arguments Ret {A} a.
Arguments Fault {A}.
Arguments NoFuel {A}.

#[global] Instance run_ret : MRet run := fun A => Ret.
#[global] Instance run_bind : MBind run := fun A B f m =>
  match m with Ret a => f a | Fault => Fault | NoFuel => NoFuel end.

Definition checked {A} (m : option A) : run A :=
  match m with Some a => Ret a | None => Fault end.

(** ** Reading numbers *)

(** The digits [atoi] reads run into the end of the readable bytes. *)
Definition int_runs_out (s : list Z) : bool :=
  let s := PqFirm.skip_space s in
  let s := match s with c :: s' => if (c =? 45) || (c =? 43) then s' else s | [] => [] end in
  forallb PqFirm.isdigit s.

Definition read_int (s : list Z) : run Z :=
  if int_runs_out s then Fault else Ret (PqFirm.atoi s).

(** ** Scanning a window *)

Inductive next_t := BEGIN_FANG | END_FANG | BEGIN_DA | END_DA.

(** ['['], [']'], ['{'] and ['}'] *)
Definition find_of (next : next_t) : Z :=
  match next with BEGIN_FANG => 91 | END_FANG => 93 | BEGIN_DA => 123 | END_DA => 125 end.

(** [while (t_buff[i] != find) { i++; if (i == size) ... goto remap; }]; [s]
    is the window from [i] on.  [None] when the search meets the end. *)
Fixpoint seek_char (s : list Z) (i size : nat) (find : Z) : run (option nat) :=
  match s with
  | [] => Fault
  | c :: s =>
      if c =? find then Ret (Some i)
      else if (S i =? size)%nat then Ret None else seek_char s (S i) size find
  end.

(** [while (t_buff[i++] < '0');]: the character that ended the loop, the
    window from it on, and [i]. *)
Fixpoint skip_low (s : list Z) (i : nat) : run (Z * list Z * nat) :=
  match s with
  | [] => Fault
  | c :: s' => if c <? 48 then skip_low s' (S i) else Ret (c, s, S i)
  end.

(** The loop over the rest of "[id,de]"; the result is [i] and [de], and
    whether the loop left with the message about a bad character. *)
Fixpoint de_loop (fuel : nat) (w : list Z) (i size : nat) (de : Z) : run (bool * nat * Z) :=
  match fuel with
  | O => NoFuel
  | S fuel =>
      if (size <=? i)%nat then Ret (false, i, de) else
      c ← checked (w !! i);
      '(bad, i, de) ←
        (if c =? PqFirm.COMMA then
           '(d, s, i) ← skip_low (drop i w) i;
           if 57 <? d then Ret (true, i, de)
           else de ← read_int s; Ret (false, i, de)
         else Ret (false, i, de));
      if bad : bool then Ret (true, i, de) else
      c ← checked (w !! i);
      if c =? 93 then Ret (false, S i, de) else de_loop fuel w (S i) size de
  end.

(** How the scan of a window ends: the window is mapped anew at [off_set], or
    the outer loop goes on after [i] characters. *)
Inductive left_window (A : Type) :=
| Remap (off_set : nat) (next : next_t) (id de : Z) (s : A)
| Scanned (i : nat) (s : A).
Arguments Remap {A} off_set next id de s.
Arguments Scanned {A} i s.

Section Load.
  Context {A : Type} (download : A -> Z -> Z -> list Z -> option A).

(** From the label [find_str]; [w] is the mapping, of [size] bytes and the
    zeros up to the end of the page. *)
Fixpoint find_str (fuel : nat) (w : list Z) (size begin_id i : nat) (next : next_t) (id de : Z) (s : A)
  : run (left_window A) :=
  match fuel with
  | O => NoFuel
  | S fuel =>
      let rest i s :=
        if (i + 10 <? size)%nat then find_str fuel w size begin_id i BEGIN_FANG id de s
        else Ret (Scanned i s) in
      found ← seek_char (drop i w) i size (find_of next);
      match found with
      | None => Ret (Remap i next id de s)
      | Some i =>
          match next with
          | BEGIN_FANG =>
              let off_set := i in
              '(c, t, i) ← skip_low (drop (i + 1) w) (i + 1);
              if 57 <? c then Ret (Remap off_set next id de s) else
              id ← read_int t;
              '(bad, i, de) ← de_loop (S size) w (i - 1) size de;
              if (bad : bool) || (size <=? i)%nat then Ret (Remap off_set next id de s) else
              find_str fuel w size begin_id i BEGIN_DA id de s
          | BEGIN_DA => find_str fuel w size i i END_DA id de s
          | END_DA =>
              s ← checked (download s id de (drop begin_id w));
              rest i s
          | END_FANG => rest i s
          end
      end
  end.

(** ** Mapping *)

Definition PAGE : Z := 4096.

(** [ALLIGN(x, 4096)], which always adds a page first. *)
Definition ALLIGN (x : Z) : Z := Z.quot (x + 4096) 4096 * 4096.

(** [mmap] of a file wants an offset of whole pages and a size that is not
    zero; the rest of the last page reads as zeros.  [no_mem] is the kernel's
    refusal for want of resources. *)
Definition mmap (file : list Z) (size file_off : Z) (no_mem : bool) : option (list Z) :=
  if (size <=? 0) || negb (file_off mod PAGE =? 0) || no_mem then None
  else Some (take (Z.to_nat size) (drop (Z.to_nat file_off) file) ++
    replicate (Z.to_nat ((- size) mod PAGE)) 0).

(** The first [size] of a turn of the outer loop. *)
Definition first_size (left : Z) : Z := if 4096 <? left then 1 else left.

(** From the label [remap]; [no_mem] says which of the calls of [mmap] the
    kernel refuses (by the fuel left). *)
Fixpoint remap (fuel : nat) (no_mem : nat -> bool) (file : list Z)
    (file_off off_set size go_end : Z) (next : next_t) (id de : Z) (s : A) : run (Z * A) :=
  match fuel with
  | O => NoFuel
  | S fuel =>
      let off_end := Z.of_nat (length file) in
      let file_off := file_off + off_set in
      let size := ALLIGN (size - off_set + 4096) in
      let '(size, go_end) :=
        if off_end <=? file_off + size then (off_end - file_off, go_end + 1) else (size, go_end) in
      if 2 <=? go_end then Ret (0, s) else
      match mmap file size file_off (no_mem fuel) with
      | None => Ret (-1, s)
      | Some w =>
          r ← find_str (3 * Z.to_nat size + 4) w (Z.to_nat size) 0 0 next id de s;
          match r with
          | Remap off_set next id de s =>
              remap fuel no_mem file file_off (Z.of_nat off_set) size go_end next id de s
          | Scanned i s =>
              let file_off := file_off + Z.of_nat i in
              if file_off <? off_end - 2 then
                remap fuel no_mem file file_off 0 (first_size (off_end - file_off)) go_end
                  BEGIN_FANG (-1) 0 s
              else Ret (0, s)
          end
      end
  end.

(** Enough for every file (see [download_terminates]). *)
Definition load_fuel (file : list Z) : nat := length file + 21.

(** "#DE" *)
Definition MAGIC : list Z := [35; 68; 69].

Fixpoint until_nul (s : list Z) : list Z :=
  match s with [] => [] | c :: s => if c =? 0 then [] else c :: until_nul s end.

(** [file] is the file behind [fd]; [seekable] is false when it is a pipe
    or a terminal.  The result is the return value, whether [fd] was closed,
    and the state. *)
Definition download_firmware (seekable : bool) (no_mem : nat -> bool) (file : list Z)
    (de_version : Z) (s : A) : run (Z * bool * A) :=
  let off_end := Z.of_nat (length file) in
  if negb seekable then Ret (-3, true, s) else
  let head := take 20 file in
  if (length head =? 0)%nat then Ret (-1, true, s) else
  t_buff ← checked (PqFirm.strstr (until_nul head) MAGIC);
  id ← read_int (drop (length (until_nul head) - length t_buff + 3) head);
  if negb (id =? de_version) then Ret (-1, true, s) else
  if 0 <? off_end - 2 then
    '(ret, s) ← remap (load_fuel file) no_mem file 0 0 (first_size off_end) 0 BEGIN_FANG (-1) 0 s;
    Ret (ret, false, s)
  else Ret (0, false, s).

End Load.

(** ** The scan ends *)

Lemma seek_char_range s i size find j :
  seek_char s i size find = Ret (Some j) ->
  (i <= j)%nat /\ s !! (j - i)%nat = Some find /\ (i < size -> j < size)%nat.
Proof.
  revert i. induction s as [|c s IH]; intros i; cbn [seek_char]; [done|].
  destruct (Z.eqb_spec c find) as [->|Hc].
  - intros [= ->]. rewrite Nat.sub_diag. split_and!; [lia|done|lia].
  - destruct (Nat.eqb_spec (S i) size) as [Hs|Hs]; [done|]. intros H.
    destruct (IH _ H) as (H1 & H2 & H3). split_and!; [lia| |lia].
    replace (j - i)%nat with (S (j - S i)) by lia. done.
Qed.

Lemma skip_low_range s i c t j : skip_low s i = Ret (c, t, j) -> (i < j)%nat.
Proof.
  revert i. induction s as [|d s IH]; intros i; cbn [skip_low]; [done|].
  case_match; [intros Hr; apply IH in Hr; lia|]. intros [= <- <- <-]. lia.
Qed.

Lemma seek_char_fuel s i size find : seek_char s i size find <> NoFuel.
Proof. revert i. induction s as [|c s IH]; intros i; cbn; [done|]. repeat case_match; done. Qed.

Lemma skip_low_fuel s i : skip_low s i <> NoFuel.
Proof. revert i. induction s as [|c s IH]; intros i; cbn; [done|]. by case_match. Qed.

Lemma de_loop_fuel fuel w i size de : (size - i < fuel)%nat -> de_loop fuel w i size de <> NoFuel.
Proof.
  revert i de. induction fuel as [|fuel IH]; intros i de Hf; [lia|]. cbn [de_loop].
  case_match eqn:Hi; [done|]. apply Nat.leb_gt in Hi.
  destruct (w !! i) as [c|]; [cbn [checked]|done]. cbn [mbind run_bind].
  destruct (c =? PqFirm.COMMA).
  - destruct (skip_low _ i) as [[[d t] j]| |] eqn:E; [|done|by apply skip_low_fuel in E].
    apply skip_low_range in E. cbn [mbind run_bind]. case_match; [done|].
    unfold read_int. destruct (int_runs_out t); [done|]. cbn [mbind run_bind].
    destruct (w !! j) as [c'|]; [cbn [checked mbind run_bind]|done]. case_match; [done|]. apply IH. lia.
  - cbn [mbind run_bind]. destruct (w !! i) as [c'|]; [cbn [checked mbind run_bind]|done].
    case_match; [done|]. apply IH. lia.
Qed.

Lemma de_loop_range fuel w i size de b j de' :
  de_loop fuel w i size de = Ret (b, j, de') -> (i <= j)%nat.
Proof.
  revert i de. induction fuel as [|fuel IH]; intros i de; [done|]. cbn [de_loop].
  case_match; [intros [= <- <- <-]; lia|].
  destruct (w !! i) as [c|]; [cbn [checked]|done]. cbn [mbind run_bind].
  destruct (c =? PqFirm.COMMA).
  - destruct (skip_low _ i) as [[[d t] k]| |] eqn:E; [|done|done].
    apply skip_low_range in E. cbn [mbind run_bind]. case_match; [intros [= <- <- <-]; lia|].
    unfold read_int. destruct (int_runs_out t); [done|]. cbn [mbind run_bind].
    destruct (w !! k) as [c'|]; [cbn [checked mbind run_bind]|done].
    case_match; [intros [= <- <- <-]; lia|]. intros H'. apply IH in H'. lia.
  - cbn [mbind run_bind]. destruct (w !! i) as [c'|]; [cbn [checked mbind run_bind]|done].
    case_match; [intros [= <- <- <-]; lia|]. intros H'. apply IH in H'. lia.
Qed.

Lemma ALLIGN_gt x : 0 <= x -> x < ALLIGN x.
Proof. intros H. unfold ALLIGN. rewrite Z.quot_div_nonneg by lia. lia_mod. Qed.

Lemma ALLIGN_first l : 2 < l <= 8192 -> l <= ALLIGN (first_size l - 0 + 4096).
Proof.
  intros H. unfold first_size. case_match.
  - change (ALLIGN _) with 8192. lia.
  - pose proof (ALLIGN_gt (l - 0 + 4096)). lia.
Qed.

Section Ends.
  Context {A : Type} (download : A -> Z -> Z -> list Z -> option A).

(** The work left before the scan of a window ends. *)
Definition scan_measure (size i : nat) (next : next_t) : nat :=
  3 * (size - i) + match next with BEGIN_FANG => 0 | BEGIN_DA => 2 | END_FANG | END_DA => 1 end.

Definition scan_ends (size : nat) (r : run (left_window A)) : Prop :=
  match r with
  | NoFuel => False
  | Ret (Scanned i _) => (size <= i + 10 /\ i < size)%nat
  | Ret (Remap i _ _ _ _) => (i < size)%nat
  | Fault => True
  end.

Lemma find_str_ends fuel w size b i next id de s :
  (scan_measure size i next < fuel)%nat -> (i < size)%nat ->
  scan_ends size (find_str download fuel w size b i next id de s).
Proof.
  revert b i next id de s. induction fuel as [|fuel IH]; intros b i next id de s Hf Hi; [lia|].
  cbn [find_str].
  destruct (seek_char _ i size _) as [[j|]| |] eqn:E; cbn [mbind run_bind];
    [|done|done|by apply seek_char_fuel in E].
  apply seek_char_range in E as (Hj & Hc & Hs). specialize (Hs Hi).
  assert (forall s', scan_measure size i next <> scan_measure size i BEGIN_FANG ->
    scan_ends size (if (j + 10 <? size)%nat
      then find_str download fuel w size b j BEGIN_FANG id de s' else Ret (Scanned j s'))) as Hrest.
  { intros s' Hn. case_match eqn:E.
    - apply Nat.ltb_lt in E. apply IH; [|lia]. unfold scan_measure in *. destruct next; lia.
    - apply Nat.ltb_ge in E. cbn. lia. }
  destruct next; cbn [scan_measure] in Hf, Hrest; unfold scan_measure in Hf, Hrest.
  - destruct (skip_low _ (j + 1)) as [[[c t] k]| |] eqn:E; [|done|by apply skip_low_fuel in E].
    apply skip_low_range in E. cbn [mbind run_bind]. destruct (57 <? c); [cbn; lia|].
    unfold read_int. destruct (int_runs_out t); [done|]. cbn [mbind run_bind].
    destruct (de_loop _ w (k - 1) size de) as [[[bad m] de']| |] eqn:E1; [|done|].
    + apply de_loop_range in E1. cbn [mbind run_bind]. destruct bad; [cbn; lia|]. cbn [orb].
      destruct (size <=? m)%nat eqn:E2; [cbn; lia|]. apply Nat.leb_gt in E2. apply IH; [|lia].
      unfold scan_measure. lia.
    + exfalso. by apply de_loop_fuel in E1; [|lia].
  - apply Hrest. lia.
  - apply IH; [|lia]. unfold scan_measure. lia.
  - destruct (download s id de (drop b w)); [cbn [checked mbind run_bind]|done]. apply Hrest. lia.
Qed.

(** Every call of [remap] but the last maps a window that ends further on. *)
Lemma remap_returns fuel no_mem file file_off off_set size go_end next id de s :
  let off_end := Z.of_nat (length file) in
  0 <= file_off -> 0 <= off_set -> off_set <= size -> file_off + off_set < off_end -> 
  0 <= go_end <= 1 ->
  Z.max 0 (off_end - (file_off + size)) + 10 * (2 - go_end) < Z.of_nat fuel ->
  remap download fuel no_mem file file_off off_set size go_end next id de s <> NoFuel.
Proof.
  intros off_end. revert file_off off_set size go_end next id de s.
  induction fuel as [|fuel IH]; intros file_off off_set size go_end next id de s Ho Hs Hsz Hlt Hg Hf; [lia|].
  cbn [remap]. fold off_end.
  pose proof (ALLIGN_gt (size - off_set + 4096) ltac:(lia)) as Ha.
  set (size1 := ALLIGN _) in *. set (off1 := file_off + off_set) in *.
  assert (exists size2 go2,
    (if off_end <=? off1 + size1 then (off_end - off1, go_end + 1) else (size1, go_end)) = (size2, go2) /\
    0 < size2 /\ off1 + size2 <= off_end /\ go_end <= go2 /\
    (go2 <= 1 -> Z.max 0 (off_end - (off1 + size2)) + 9 + 10 * (2 - go2) < Z.of_nat fuel))
    as (size2 & go2 & -> & H1 & H2 & H3 & H4).
  { case_match eqn:E; do 2 eexists; (split; [reflexivity|]); subst off1; lia. }
  case_match eqn:E; [done|]. destruct (mmap _ _ _ _) as [w|]; [|done].
  pose proof (find_str_ends (3 * Z.to_nat size2 + 4) w (Z.to_nat size2) 0 0 next id de s) as Hr.
  specialize (Hr ltac:(unfold scan_measure; destruct next; lia) ltac:(lia)).
  destruct (find_str _ _ _ _ _ _ _ _ _ _) as [[o n i d s'|i s']| |];
    cbn [mbind run_bind scan_ends] in *; [| |done|done].
  - apply IH; lia.
  - case_match; [|done]. apply IH; unfold first_size; try case_match; lia.
Qed.

End Ends.

(** ** Well-formed texts *)

(** A record "[id,de]{v,vs...}" and the characters up to the next one. *)
Record record := mkRecord { r_id : Z; r_de : Z; r_first : Z; r_more : list Z; r_sep : list Z }.

Lemma drop_lookup {B} (w : list B) i c s : drop i w = c :: s -> w !! i = Some c.
Proof. intros H. rewrite <- (Nat.add_0_r i), <- lookup_drop, H. done. Qed.

Lemma drop_app_next {B} (w : list B) i s t : drop i w = s ++ t -> drop (i + length s) w = t.
Proof. intros H. by rewrite <- drop_drop, H, drop_app_length. Qed.

Lemma drop_cons_next {B} (w : list B) i c t : drop i w = c :: t -> drop (S i) w = t.
Proof. intros H. rewrite <- (Nat.add_1_r i), <- drop_drop, H. done. Qed.

Lemma seek_char_found pre s i size f :
  Forall (fun c => c <> f) pre -> (i + length pre < size)%nat ->
  seek_char (pre ++ f :: s) i size f = Ret (Some (i + length pre)%nat).
Proof.
  intros H. revert i. induction H as [|c pre Hc _ IH]; intros i Hi; cbn [app seek_char length] in *.
  - rewrite Z.eqb_refl. by rewrite Nat.add_0_r.
  - rewrite (proj2 (Z.eqb_neq c f) Hc), (proj2 (Nat.eqb_neq _ _)), IH by lia. do 2 f_equal. lia.
Qed.

Lemma seek_char_missed pre s i size f :
  Forall (fun c => c <> f) pre -> (i < size)%nat -> (i + length pre = size)%nat ->
  seek_char (pre ++ s) i size f = Ret None.
Proof.
  intros H. revert i. induction H as [|c pre Hc _ IH]; intros i Hi Hs; cbn [app seek_char length] in *; [lia|].
  rewrite (proj2 (Z.eqb_neq c f) Hc). destruct (Nat.eqb_spec (S i) size); [done|]. apply IH; lia.
Qed.

(** ** The header of a new file *)

(** [while (tmp) { dat[i++] = tmp%10; tmp = tmp/10; }], as characters; an
    [int] has at most ten digits. *)
Fixpoint dat_loop (fuel : nat) (tmp : Z) : list Z :=
  match fuel with
  | O => []
  | S fuel => if tmp =? 0 then [] else (Z.rem tmp 10 + 48) :: dat_loop fuel (Z.quot tmp 10)
  end.

Definition version_digits (v : Z) : list Z := dat_loop 10 v.

(** What [write(disp_firm_data_fd, head, 3+j)] writes; [head] has ten cells,
    and the carriage return goes into [head[3+j]]. *)
Definition version_head (de_version : Z) : option (list Z) :=
  let dat := version_digits de_version in
  if (6 <? length dat)%nat then None else Some (MAGIC ++ rev dat).

Definition digits (s : list Z) : Prop := Forall (fun c => PqFirm.isdigit c = true) s.

Lemma digit_range c : PqFirm.isdigit c = true -> 48 <= c <= 57.
Proof. unfold PqFirm.isdigit. lia. Qed.

Lemma digits_not ds c : digits ds -> ~ (48 <= c <= 57) -> Forall (fun d => d <> c) ds.
Proof. intros H Hc. eapply List.Forall_impl; [|exact H]. intros d Hd. apply digit_range in Hd. cbn. lia. Qed.

Lemma int_runs_out_digits ds : digits ds -> int_runs_out ds = true.
Proof.
  intros H. unfold int_runs_out. destruct H as [|d ds Hd Hds]; [done|].
  pose proof (digit_range d Hd). cbn [PqFirm.skip_space].
  replace (PqFirm.isspace d) with false by (unfold PqFirm.isspace; lia).
  rewrite !(proj2 (Z.eqb_neq d _)) by lia. cbn [orb forallb]. rewrite Hd. cbn [andb].
  apply forallb_forall. intros c Hc. rewrite List.Forall_forall in Hds. by apply Hds.
Qed.

Lemma dat_loop_digits fuel tmp : 0 <= tmp -> digits (dat_loop fuel tmp).
Proof.
  revert tmp. induction fuel as [|fuel IH]; intros tmp H; cbn [dat_loop]; [constructor|].
  case_match; [constructor|]. rewrite Z.quot_div_nonneg, Z.rem_mod_nonneg by lia.
  constructor; [unfold PqFirm.isdigit; lia_mod|]. apply IH. lia_mod.
Qed.

Lemma strstr_prefix needle s : PqFirm.strstr (needle ++ s) needle = Some (needle ++ s).
Proof.
  assert (PqFirm.prefix_of needle (needle ++ s) = true) as E
    by (induction needle as [|c l IH]; cbn; [done|]; by rewrite Z.eqb_refl).
  destruct (needle ++ s) eqn:Es; cbn [PqFirm.strstr]; by rewrite E.
Qed.

Lemma until_nul_app s t : Forall (fun c => c <> 0) s -> until_nul (s ++ t) = s ++ until_nul t.
Proof.
  induction 1 as [|c s Hc _ IH]; [done|]. cbn. by rewrite (proj2 (Z.eqb_neq c 0)), IH.
Qed.

Section Text.
  Context (p : Z -> list Z).

Lemma decimal_digits v : PqFirm.decimal p v -> exists d ds, p v = d :: ds /\ digits (d :: ds).
Proof. intros (Hn & Hd & _). destruct (p v) as [|d ds]; [done|]. by exists d, ds. Qed.

Lemma read_int_decimal v c rest :
  PqFirm.decimal p v -> PqFirm.isdigit c = false -> read_int (p v ++ c :: rest) = Ret v.
Proof.
  intros Hv Hc. pose proof (PqFirm.atoi_decimal p v c rest Hv Hc) as E.
  destruct (decimal_digits v Hv) as (d & ds & Ep & Hds). unfold read_int. rewrite E.
  enough (int_runs_out (p v ++ c :: rest) = false) as -> by done.
  unfold int_runs_out. rewrite Ep. inversion Hds as [|? ? Hd Hds']; subst.
  apply digit_range in Hd. cbn [app PqFirm.skip_space].
  replace (PqFirm.isspace d) with false by (unfold PqFirm.isspace; lia).
  rewrite !(proj2 (Z.eqb_neq d _)) by lia. cbn [orb]. 
  change (d :: ds ++ c :: rest) with ((d :: ds) ++ c :: rest).
  rewrite forallb_app. cbn [forallb]. by rewrite Hc, andb_false_r.
Qed.

(** The rest of a number, up to the bracket. *)
Lemma de_loop_digits fuel w i size de ds rest :
  drop i w = ds ++ 93 :: rest -> digits ds -> (i + length ds < size)%nat -> (length ds < fuel)%nat ->
  de_loop fuel w i size de = Ret (false, (i + length ds + 1)%nat, de).
Proof.
  intros Hw Hd. revert i fuel Hw. induction Hd as [|d ds Hd Hds IH]; intros i fuel Hw Hs Hf;
    (destruct fuel as [|fuel]; [cbn in Hf; lia|]); cbn [de_loop app length] in *;
    (rewrite (proj2 (Nat.leb_gt size i)) by lia); rewrite (drop_lookup _ _ _ _ Hw); cbn [checked mbind run_bind].
  - change (93 =? PqFirm.COMMA) with false. cbv iota. cbn [mbind run_bind].
    rewrite (drop_lookup _ _ _ _ Hw). cbn [checked mbind run_bind]. cbn. do 2 f_equal. f_equal. lia.
  - apply digit_range in Hd. rewrite (proj2 (Z.eqb_neq d PqFirm.COMMA)) by (unfold PqFirm.COMMA; lia).
    cbn [mbind run_bind]. rewrite (drop_lookup _ _ _ _ Hw). cbn [checked mbind run_bind].
    rewrite (proj2 (Z.eqb_neq d 93)) by lia.
    rewrite IH by (try apply (drop_cons_next _ _ _ _ Hw); lia). do 2 f_equal. f_equal. lia.
Qed.

(** From the first digit of the id to the bracket. *)
Lemma de_loop_head fuel w i size de0 ids de rest :
  drop i w = ids ++ PqFirm.COMMA :: p de ++ 93 :: rest -> digits ids -> PqFirm.decimal p de ->
  (i + length ids + 1 + length (p de) < size)%nat -> (length ids + length (p de) < fuel)%nat ->
  de_loop fuel w i size de0 = Ret (false, (i + length ids + 1 + length (p de) + 1)%nat, de).
Proof.
  intros Hw Hd Hde. revert i fuel Hw. induction Hd as [|d ds Hd Hds IH]; intros i fuel Hw Hs Hf;
    (destruct fuel as [|fuel]; [cbn in Hf; lia|]); cbn [de_loop app length] in *;
    (rewrite (proj2 (Nat.leb_gt size i)) by lia); rewrite (drop_lookup _ _ _ _ Hw); cbn [checked mbind run_bind].
  - rewrite Z.eqb_refl, Hw. destruct (decimal_digits de Hde) as (d & ds & Ep & Hds).
    inversion Hds as [|? ? Hd Hds']; subst. apply digit_range in Hd.
    pose proof (read_int_decimal de 93 rest Hde eq_refl) as Er.
    rewrite Ep in *. cbn [app skip_low length] in *. change (PqFirm.COMMA <? 48) with true.
    rewrite (proj2 (Z.ltb_ge d 48)) by lia. cbn [mbind run_bind].
    rewrite (proj2 (Z.ltb_ge 57 d)) by lia. rewrite Er. cbn [mbind run_bind].
    pose proof (drop_cons_next _ _ _ _ (drop_cons_next _ _ _ _ Hw)) as Hw2.
    destruct Hds' as [|d' ds' Hd' Hds'].
    + rewrite (drop_lookup _ _ _ _ Hw2). cbn. do 2 f_equal. f_equal. lia.
    + cbn [app] in Hw2. rewrite (drop_lookup _ _ _ _ Hw2). cbn [checked mbind run_bind].
      apply digit_range in Hd'. rewrite (proj2 (Z.eqb_neq d' 93)) by lia. cbn [length] in *.
      rewrite (de_loop_digits _ _ _ _ _ ds' rest); [do 2 f_equal; f_equal; lia| |done|lia|lia].
      by apply (drop_cons_next _ _ _ _ Hw2).
  - apply digit_range in Hd. rewrite (proj2 (Z.eqb_neq d PqFirm.COMMA)) by (unfold PqFirm.COMMA; lia).
    cbn [mbind run_bind]. rewrite (drop_lookup _ _ _ _ Hw). cbn [checked mbind run_bind].
    rewrite (proj2 (Z.eqb_neq d 93)) by lia.
    rewrite IH by (try apply (drop_cons_next _ _ _ _ Hw); lia). do 2 f_equal. f_equal. lia.
Qed.

Definition inner (r : record) : list Z :=
  PqFirm.LBRACE :: p (r_first r) ++ concat (map (fun v => PqFirm.COMMA :: p v) (r_more r)).
Definition prefix_text (r : record) : list Z := 91 :: p (r_id r) ++ PqFirm.COMMA :: p (r_de r) ++ [93].
Definition record_text (r : record) : list Z := prefix_text r ++ inner r ++ [PqFirm.RBRACE].

(** The numbers are decimal texts, the separator holds no bracket; a record
    that starts within ten characters of the end is not seen by the scan, so
    the text has at least ten. *)
Record record_wf (r : record) : Prop := {
  wf_id : PqFirm.decimal p (r_id r);
  wf_de : PqFirm.decimal p (r_de r);
  wf_values : Forall (PqFirm.decimal p) (r_first r :: r_more r);
  wf_sep : Forall (fun c => c <> 91) (r_sep r);
  wf_length : (10 <= length (record_text r))%nat
}.

(** The records, each followed by its separator. *)
Fixpoint records_text (recs : list record) : list Z :=
  match recs with [] => [] | r :: recs => record_text r ++ r_sep r ++ records_text recs end.

Lemma inner_not_rbrace r : record_wf r -> Forall (fun c => c <> PqFirm.RBRACE) (inner r).
Proof.
  intros [_ _ Hv _ _]. inversion Hv as [|? ? (_ & Hd & _) Hm]; subst. unfold inner.
  constructor; [done|]. apply Forall_app. split; [apply digits_not; [done|unfold PqFirm.RBRACE; lia]|].
  induction Hm as [|v vs (_ & Hd' & _) _ IH]; [constructor|]. cbn [map concat app].
  constructor; [done|]. apply Forall_app. split; [apply digits_not; [done|unfold PqFirm.RBRACE; lia]|].
  apply IH. by inversion Hv as [|? ? ? H2]; inversion H2; subst; constructor.
Qed.

Section Scan.
  Context {A : Type} (download : A -> Z -> Z -> list Z -> option A).

(** The scan of one record calls [download] with its text and goes on from
    its closing brace. *)
Lemma find_record fuel w size b i id0 de0 junk r rest s :
  record_wf r -> Forall (fun c => c <> 91) junk ->
  drop i w = junk ++ record_text r ++ rest ->
  (i + length junk + length (record_text r) <= size)%nat ->
  exists j b', drop j w = PqFirm.RBRACE :: rest /\
    S j = (i + length junk + length (record_text r))%nat /\
    find_str download (3 + fuel) w size b i BEGIN_FANG id0 de0 s =
    (s ← checked (download s (r_id r) (r_de r) (inner r ++ PqFirm.RBRACE :: rest));
     if (j + 10 <? size)%nat
     then find_str download fuel w size b' j BEGIN_FANG (r_id r) (r_de r) s
     else Ret (Scanned j s)).
Proof.
  intros Hwf Hj Hw Hs. destruct Hwf as [Hid Hde Hv Hsep Hl] eqn:E. clear E.
  set (j := (i + length junk + length (prefix_text r))%nat).
  assert (drop (i + length junk) w = record_text r ++ rest) as H0 by by apply drop_app_next.
  assert (drop j w = inner r ++ PqFirm.RBRACE :: rest) as H1.
  { unfold j. apply drop_app_next. rewrite H0. unfold record_text. by rewrite <- !app_assoc. }
  exists (j + length (inner r))%nat, j.
  assert (length (record_text r) = length (prefix_text r) + length (inner r) + 1)%nat as HL
    by (unfold record_text; rewrite !length_app; cbn; lia).
  assert (length (prefix_text r) = length (p (r_id r)) + length (p (r_de r)) + 3)%nat as HP
    by (unfold prefix_text; cbn [length]; rewrite length_app; cbn [length]; rewrite length_app; cbn; lia).
  assert (1 <= length (inner r))%nat as HI by (cbn; lia).
  split; [by apply drop_app_next|]. split; [lia|].
  cbn [Nat.add].
  assert (record_text r ++ rest = 91 :: p (r_id r) ++ PqFirm.COMMA :: p (r_de r) ++ 93 :: (inner r ++ PqFirm.RBRACE :: rest)) as E.
  { unfold record_text, prefix_text. cbn [app]. rewrite <- !app_assoc. cbn [app]. rewrite <- !app_assoc. done. }
  cbn [find_str find_of]. rewrite Hw, E, seek_char_found by (done || lia). cbn [mbind run_bind].
  rewrite E in H0. pose proof (drop_cons_next _ _ _ _ H0) as H2. rewrite <- Nat.add_1_r in H2. rewrite H2.
  pose proof (read_int_decimal (r_id r) PqFirm.COMMA
    (p (r_de r) ++ 93 :: inner r ++ PqFirm.RBRACE :: rest) Hid eq_refl) as Er.
  destruct (decimal_digits _ Hid) as (d & ds & Ep & Hds).
  pose proof (Forall_inv Hds) as Hd. apply digit_range in Hd.
  pose proof (fun de0 => de_loop_head (S size) w (i + length junk + 1) size de0 _ (r_de r) _ H2
    (proj1 (proj2 Hid)) Hde ltac:(lia) ltac:(lia)) as Hloop.
  rewrite Ep in Er at 1 |- *. cbn [app skip_low]. rewrite (proj2 (Z.ltb_ge d 48)) by lia. cbn [mbind run_bind].
  rewrite (proj2 (Z.ltb_ge 57 d)) by lia. cbn [app] in Er. rewrite Er. cbn [mbind run_bind].
  replace (S (i + length junk + 1) - 1)%nat with (i + length junk + 1)%nat by lia.
  rewrite Hloop.
  match goal with |- context [Ret (false, ?x, _)] => replace x with j by (rewrite ?Ep in *; unfold j; cbn [length] in *; lia) end.
  cbn [mbind run_bind orb]. rewrite (proj2 (Nat.leb_gt size j)) by lia.
  pose proof H1 as H3. unfold inner at 1 in H3. cbn [app] in H3.
  rewrite H3. cbn [seek_char find_of]. rewrite Z.eqb_refl. cbn [mbind run_bind].
  rewrite H1, seek_char_found by (by apply inner_not_rbrace || lia). done.
Qed.

(** Each record handed over with its own text only. *)
Definition apply_record (s : A) (r : record) : option A :=
  download s (r_id r) (r_de r) (inner r ++ [PqFirm.RBRACE]).

Fixpoint apply_records (recs : list record) (s : A) : option A :=
  match recs with [] => Some s | r :: recs => s ← apply_record s r; apply_records recs s end.

(** What [download] relies on: it reads its list, and not the text behind it. *)
Definition reads_own (r : record) : Prop := forall s rest,
  download s (r_id r) (r_de r) (inner r ++ PqFirm.RBRACE :: rest) = apply_record s r.

Definition scanned_to (size : nat) (s : A) (res : run (left_window A)) : Prop :=
  match res with
  | Ret (Remap i _ _ _ s') => (i < size)%nat /\ s' = s
  | Ret (Scanned i s') => (i < size)%nat /\ s' = s
  | _ => False
  end.

Lemma find_records recs : forall fuel w size b i id0 de0 junk pad s,
  Forall record_wf recs -> Forall reads_own recs -> Forall (fun c => c <> 91) junk ->
  drop i w = junk ++ records_text recs ++ pad ->
  (i + length (junk ++ records_text recs) = size)%nat -> (i < size)%nat ->
  (3 * length recs < fuel)%nat ->
  match apply_records recs s with
  | Some s' => scanned_to size s' (find_str download fuel w size b i BEGIN_FANG id0 de0 s)
  | None => find_str download fuel w size b i BEGIN_FANG id0 de0 s = Fault
  end.
Proof.
  induction recs as [|r recs IH]; intros fuel w size b i id0 de0 junk pad s Hwf Hown Hj Hw Hl Hi Hf;
    cbn [records_text apply_records length] in *.
  - rewrite app_nil_r in Hl. destruct fuel as [|fuel]; [lia|]. cbn [find_str find_of].
    rewrite Hw, seek_char_missed by (done || lia). done.
  - destruct (Forall_cons_1 _ _ _ Hwf) as [W1 W2], (Forall_cons_1 _ _ _ Hown) as [O1 O2].
    rewrite <- !app_assoc in Hw. rewrite !length_app in Hl.
    destruct fuel as [|[|[|fuel]]]; [lia..|]. change (S (S (S fuel))) with (3 + fuel)%nat.
    destruct (find_record fuel w size b i id0 de0 junk r (r_sep r ++ records_text recs ++ pad) s W1 Hj Hw)
      as (j & b' & Hd & Hsj & ->); [lia|].
    rewrite O1. destruct (apply_record s r) as [s1|]; [|done]. cbn [checked mbind option_bind run_bind].
    destruct (j + 10 <? size)%nat eqn:E.
    + apply (IH fuel w size b' j (r_id r) (r_de r) (PqFirm.RBRACE :: r_sep r) pad s1); try done.
      * constructor; [done|]. by apply wf_sep.
      * cbn [app length]. rewrite length_app. lia.
      * lia.
      * lia.
    + apply Nat.ltb_ge in E. destruct recs as [|r2 recs]; cbn [apply_records].
      * cbn. split; [lia|done].
      * exfalso. destruct (Forall_cons_1 _ _ _ W2) as [W3 _]. pose proof (wf_length r2 W3).
        cbn [records_text] in Hl. rewrite !length_app in Hl. lia.
Qed.

Lemma records_count recs : Forall record_wf recs -> (10 * length recs <= length (records_text recs))%nat.
Proof.
  induction 1 as [|r recs Hr _ IH]; [done|]. cbn [records_text length]. rewrite !length_app.
  pose proof (wf_length r Hr). lia.
Qed.

(** The header "#DE<version>" with a character that ends it. *)
Definition header_wf (version : Z) (hdr : list Z) : Prop :=
  exists stop, PqFirm.decimal p version /\ PqFirm.isdigit stop = false /\ stop <> 91 /\
    hdr = MAGIC ++ p version ++ [stop] /\ (length hdr <= 20)%nat.

Definition result_of (m : option A) : run (Z * bool * A) :=
  match m with Some s => Ret (0, false, s) | None => Fault end.

(** The second window that reaches the end of the file ends the scan. *)
Lemma remap_last fuel no_mem file file_off off_set size next id de s :
  Z.of_nat (length file) <= file_off + off_set + ALLIGN (size - off_set + 4096) ->
  remap download (S fuel) no_mem file file_off off_set size 1 next id de s = Ret (0, s).
Proof. intros H. cbn [remap]. by rewrite (proj2 (Z.leb_le _ _) H). Qed.

(** The first call of [mmap] (see [remap]). *)
Definition first_map (file : list Z) : nat := pred (load_fuel file).

(** A text of up to 8192 bytes is mapped as a whole, and every record is
    handed to [download], in the order of the file. *)
Lemma download_applies_records no_mem hdr recs version s :
  header_wf version hdr -> Forall record_wf recs -> Forall reads_own recs ->
  Z.of_nat (length (hdr ++ records_text recs)) <= 8192 ->
  download_firmware download true no_mem (hdr ++ records_text recs) version s
  = if no_mem (first_map (hdr ++ records_text recs)) then Ret (-1, false, s) else result_of (apply_records recs s).
Proof.
  intros (stop & Hv & Hstop & Hstop1 & Hh & Hhl) Hwf Hown Hlen.
  pose proof (records_count recs Hwf) as Hcount.
  set (file := hdr ++ records_text recs) in *.
  destruct (decimal_digits version Hv) as (d & ds & Ep & Hds).
  assert (digits (p version)) as Hdig by (by rewrite Ep).
  assert (length hdr = length (p version) + 4)%nat as Hhdr
    by (rewrite Hh; cbn [app MAGIC length]; rewrite length_app; cbn; lia).
  assert (length file = length hdr + length (records_text recs))%nat as Hfile by apply length_app.
  unfold download_firmware. cbn [negb].
  set (head := take 20 file).
  assert (exists t, head = hdr ++ t) as [t Eh].
  { unfold head, file. rewrite take_app_ge by lia. eauto. }
  assert (head = (MAGIC ++ p version) ++ stop :: t) as Eh1 by (by rewrite Eh, Hh, <- !app_assoc).
  assert (until_nul head = (MAGIC ++ p version) ++ until_nul (stop :: t)) as Eu.
  { rewrite Eh1. apply until_nul_app. apply Forall_app. split; [by repeat constructor|].
    apply digits_not; [done|lia]. }
  rewrite (proj2 (Nat.eqb_neq (length head) 0)) by (rewrite Eh, length_app; lia).
  rewrite Eu, <- !app_assoc, strstr_prefix. cbn [checked mbind run_bind].
  rewrite Nat.sub_diag, Eh1, <- app_assoc. cbn [Nat.add MAGIC drop app].
  rewrite drop_0, read_int_decimal by done. cbn [mbind run_bind]. rewrite Z.eqb_refl. cbn [negb].
  rewrite (proj2 (Z.ltb_lt 0 _)) by lia.
  destruct (load_fuel file) as [|f] eqn:Ef; [unfold load_fuel in Ef; lia|].
  replace (first_map file) with f by (unfold first_map; by rewrite Ef).
  assert (exists fuel, f = S fuel) as [fuel Efuel] by (exists (pred f); unfold load_fuel in Ef; lia).
  set (L := Z.of_nat (length file)) in *.
  assert (4 < L <= 8192) as HL by (apply (f_equal length) in Ep; cbn in Ep; lia).
  cbn [remap]. fold L. rewrite !Z.add_0_l.
  rewrite (proj2 (Z.leb_le L _)) by (pose proof (ALLIGN_first L ltac:(lia)); lia).
  cbn [Z.leb Z.add Z.compare Pos.compare Pos.compare_cont]. rewrite !Z.sub_0_r.
  unfold mmap. rewrite (proj2 (Z.leb_gt L 0)) by lia. change (negb (0 mod PAGE =? 0)) with false.
  cbn [orb]. destruct (no_mem f); [done|]. rewrite drop_0, take_ge by lia. set (pad := replicate _ 0).
  pose proof (find_records recs (3 * Z.to_nat L + 4) (file ++ pad) (Z.to_nat L) 0 0 (-1) 0 hdr pad s
    Hwf Hown) as Hr.
  assert (Forall (fun c => c <> 91) hdr) as Hno.
  { rewrite Hh. apply Forall_app. split; [by repeat constructor|].
    apply Forall_app. split; [apply digits_not; [done|lia]|by repeat constructor]. }
  specialize (Hr Hno ltac:(unfold file; by rewrite <- app_assoc) ltac:(unfold L, file; lia) ltac:(lia) ltac:(lia)).
  destruct (apply_records recs s) as [s'|]; [|by rewrite Hr].
  destruct (find_str _ _ _ _ _ _ _ _ _ _) as [[o n i de s''|i s'']| |]; try done;
    destruct Hr as [Hi ->]; cbn [mbind run_bind result_of].
  - rewrite Efuel, remap_last; [done|]. fold L. pose proof (ALLIGN_gt (L - Z.of_nat o + 4096) ltac:(lia)). lia.
  - rewrite Z.add_0_l. case_match; [|done]. rewrite Efuel, remap_last; [done|]. fold L.
    pose proof (ALLIGN_first (L - Z.of_nat i) ltac:(lia)). lia.
Qed.

End Scan.

End Text.

(** ** The daemon's own loader *)

Section Firmware.
  Context {D : Type} `{!De201.DispDev D} {F : Type}.
  Context (fix4096 : F -> Z) (of4096 : Z -> F) (atof : list Z -> F) (uninit : Z).

(** [download_firmware_generic(disp_fd, id, de, &t_buff[begin_id], trans_firm_data)];
    its result is not looked at. *)
Definition load_record (s : De201.pq_state (D:=D)) (id de : Z) (buffer : list Z)
  : option (De201.pq_state (D:=D)) :=
  snd <$> De201.download_firmware_generic fix4096 of4096 atof s id de buffer uninit.

Lemma trans_firm_data_rest p v vs rest need :
  Forall (PqFirm.decimal p) (v :: vs) ->
  PqFirm.trans_firm_data (PqFirm.LBRACE :: p v ++ PqFirm.tail_text p vs rest) need
  = PqFirm.trans_firm_data (PqFirm.LBRACE :: p v ++ PqFirm.tail_text p vs []) need.
Proof.
  intros Hv. destruct (Z.le_gt_cases need (Z.of_nat (S (length vs)))) as [Hn|Hn].
  { by rewrite !PqFirm.trans_firm_data_text. }
  destruct (Forall_cons_1 _ _ _ Hv) as [(_ & Hd & _) Hvs].
  assert (forall t, PqFirm.count_commas (PqFirm.LBRACE :: p v ++ PqFirm.tail_text p vs t)
    = Some (Z.of_nat (length vs))) as Hc.
  { intros t. cbn [PqFirm.count_commas]. change (PqFirm.LBRACE =? PqFirm.RBRACE) with false.
    cbv iota. rewrite PqFirm.count_commas_digits, PqFirm.count_commas_tail by done. done. }
  unfold PqFirm.trans_firm_data. rewrite !Hc. cbn [mbind option_bind].
  by replace ((0 <? need) && (Z.of_nat (length vs) + 1 <? need)) with true by lia.
Qed.

Lemma inner_text p r rest :
  inner p r ++ PqFirm.RBRACE :: rest
  = PqFirm.LBRACE :: p (r_first r) ++ PqFirm.tail_text p (r_more r) rest.
Proof. unfold inner, PqFirm.tail_text. cbn [app]. by rewrite <- app_assoc. Qed.

Lemma comma_pos_own pre rest i : Forall (fun c => c <> PqFirm.RBRACE) pre ->
  PqFirm.comma_pos (pre ++ PqFirm.RBRACE :: rest) i = PqFirm.comma_pos (pre ++ [PqFirm.RBRACE]) i.
Proof.
  intros Hp. revert i. induction Hp as [|c pre Hc _ IH]; intros i; [done|]. cbn [app PqFirm.comma_pos]. by rewrite IH.
Qed.

(** A matrix with its twelve numbers is not stored in defined behaviour, so
    that it does not matter where the reading of its last number would end. *)
Lemma matrix_own (d : D) id de buffer buffer' :
  id = 15 \/ id = 16 -> PqFirm.comma_pos buffer 0 = PqFirm.comma_pos buffer' 0 ->
  De201.download_firmware_spec fix4096 of4096 atof d id de buffer uninit
  = De201.download_firmware_spec fix4096 of4096 atof d id de buffer' uninit.
Proof.
  intros Hid E. unfold De201.download_firmware_spec, De201.matrix_commas. rewrite E.
  destruct Hid as [-> | ->]; cbn [Z.eqb Pos.eqb orb];
    (destruct (PqFirm.comma_pos buffer' 0) as [l|]; [|done]); cbn [mbind option_bind];
    (destruct (13 <? length l)%nat; [done|]); cbn [mbind option_bind];
    (destruct (length l =? 12)%nat; [|done]); cbn [negb];
    by rewrite !De201.matrix_alloc_too_small.
Qed.

(** Every record is loaded from its own list. *)
Lemma load_record_own p r : record_wf p r -> reads_own p load_record r.
Proof.
  intros Hwf s rest. unfold apply_record, load_record. f_equal.
  destruct (decide (r_id r = 15 \/ r_id r = 16)) as [Hid|Hid].
  - pose proof (comma_pos_own (inner p r) rest 0 (inner_not_rbrace p r Hwf)) as E.
    unfold De201.download_firmware_generic.
    rewrite !(proj2 (Z.eqb_neq (r_id r) _)) by lia. cbn [orb]. by rewrite (matrix_own _ _ _ _ _ Hid E).
  - rewrite !inner_text.
    pose proof (fun need => trans_firm_data_rest p (r_first r) (r_more r) rest need (wf_values _ _ Hwf)) as E.
    unfold De201.download_firmware_generic, De201.download_firmware_spec.
    rewrite (proj2 (Z.eqb_neq (r_id r) 15)), (proj2 (Z.eqb_neq (r_id r) 16)) by lia. cbn [orb].
    by rewrite !E.
Qed.

(** C32: a firmware text of up to 8192 bytes whose header names the display
    engine's version and whose records are well-formed is loaded completely:
    unless the kernel refuses its one mapping, which is reported as -1 with
    nothing loaded, [download_firmware] gives every record, with the values of
    its own list, to [download_firmware_generic] once and in the order of the
    file, whatever that answers; when these calls stay inside their blocks it
    returns 0 and leaves the descriptor open, and when one of them does not (a
    list of register pairs, a matrix with its twelve numbers), the load is
    undefined with it. *)
Theorem firmware_loaded p no_mem hdr recs version s :
  header_wf p version hdr -> Forall (record_wf p) recs ->
  Z.of_nat (length (hdr ++ records_text p recs)) <= 8192 ->
  download_firmware load_record true no_mem (hdr ++ records_text p recs) version s
  = if no_mem (first_map (hdr ++ records_text p recs)) then Ret (-1, false, s)
    else match apply_records p load_record recs s with Some s' => Ret (0, false, s') | None => Fault end.
Proof.
  intros Hh Hw Hl. apply download_applies_records; try done.
  apply Forall_forall. intros r Hr. rewrite Forall_forall in Hw. by apply load_record_own, Hw.
Qed.

(** C35: loading ends: for every file, whatever it holds and whichever
    mappings the kernel refuses, the scan of [download_firmware] does not run
    on for ever - the fuel of the model is never used up. *)
Theorem download_terminates seekable no_mem file version s :
  download_firmware load_record seekable no_mem file version s <> NoFuel.
Proof.
  unfold download_firmware. destruct seekable; [cbn [negb]|done].
  destruct (length _ =? 0)%nat; [done|].
  destruct (PqFirm.strstr _ _) as [t|]; [cbn [checked mbind run_bind]|done].
  unfold read_int. destruct (int_runs_out _); [done|]. cbn [mbind run_bind].
  destruct (_ =? version); [cbn [negb]|done].
  destruct (0 <? _) eqn:E; [|done].
  pose proof (remap_returns load_record (load_fuel file) no_mem file 0 0
    (first_size (Z.of_nat (length file))) 0 BEGIN_FANG (-1) 0 s) as H'.
  cbn zeta in H'. destruct (remap _ _ _ _ _ _ _ _ _ _ _ _) as [[ret s']| |]; [done|done|].
  exfalso. apply H'; [| | | | | |done]; unfold first_size, load_fuel; try case_match; lia.
Qed.

(** ** Start-up *)

(** What [open] returns for the display, the vendor text (for writing, then
    for reading), the text of saved values (as it is, then created), and the
    three files. *)
Record startup := mkStartup {
  st_disp : Z; st_rw : Z; st_ro : Z; st_data : Z; st_creat : Z;
  st_sys_info : option (list Z); st_firm : list Z; st_saved : list Z
}.

(** [ret], [disp_firm_data_fd] and whether it has been closed, and what was
    written to the created file. *)
Record started := mkStarted {
  sd_ret : Z; sd_data_fd : Z; sd_data_closed : bool; sd_written : option (list Z)
}.

Definition PQ_translate_init (no_mem no_mem' : nat -> bool) (e : startup) (s : De201.pq_state (D:=D))
  : run (started * De201.pq_state (D:=D)) :=
  let '(ic, de_version) := PqFirm.get_ic_de (st_sys_info e) (De201.g_ic s) (De201.g_de_version s) in
  let s := De201.mkPq (De201.g_de s) ic de_version (De201.g_dev s) in
  if st_disp e <? 0 then Ret (mkStarted (-1) (-1) false None, s) else
  let disp_firm_fd := if st_rw e <? 0 then st_ro e else st_rw e in
  s ← (if 0 <? disp_firm_fd then
         '(_, _, s) ← download_firmware load_record true no_mem (st_firm e) de_version s; Ret s
       else Ret s);
  '(closed, s) ←
    (if 0 <? st_data e then
       '(_, closed, s) ← download_firmware load_record true no_mem' (st_saved e) de_version s;
       Ret (closed, s)
     else Ret (false, s));
  if disp_firm_fd <? 0 then
    if st_creat e <? 0 then Ret (mkStarted 0 (st_creat e) false None, s)
    else if 0 <? de_version then
      head ← checked (version_head de_version);
      Ret (mkStarted 0 (st_creat e) false (Some head), s)
    else Ret (mkStarted 0 (st_creat e) false None, s)
  else Ret (mkStarted 0 (st_data e) closed None, s).

End Firmware.

(** ** Examples and witnesses *)

#[local] Existing Instance De201.regfile_dev.

(** Decimal texts for the witnesses: the digits of the header. *)
Definition print (v : Z) : list Z := if v =? 0 then [48] else rev (version_digits v).

Definition regs0 : De201.pq_state (D:=De201.regfile) := De201.mkPq 0 1855 201 De201.demo_regs.
Definition load0 := load_record (D:=De201.regfile) (F:=unit) (fun _ => 0) (fun _ => tt) (fun _ => tt) 0.
Definition demo_hdr : list Z := MAGIC ++ print 201 ++ [13].
(** "[2,0]{64,7}" and "[2,1]{72,12}" *)
Definition demo_records : list record := [mkRecord 2 0 64 [7] [13]; mkRecord 2 1 72 [12] [13; 10]].

Lemma firmware_loaded_witness : exists s,
  download_firmware load0 true (fun _ => false) (demo_hdr ++ records_text print demo_records) 201 regs0
  = Ret (0, false, s) /\
  download_firmware load0 true (fun _ => true) (demo_hdr ++ records_text print demo_records) 201 regs0
  = Ret (-1, false, regs0) /\
  De201.rf_at (De201.g_dev s) 0 64 = 7 /\ De201.rf_at (De201.g_dev s) 1 72 = 12.
Proof.
  assert (forall v, v ∈ [0; 1; 2; 7; 12; 64; 72; 201] -> PqFirm.decimal print v) as Hdec.
  { intros v Hv. repeat (apply elem_of_cons in Hv as [->|Hv];
      [split_and!; [done|vm_compute; by repeat constructor|done|done]|]). by apply elem_of_nil in Hv. }
  assert (forall r, r ∈ demo_records -> record_wf print r) as Hwf.
  { intros r Hr. repeat (apply elem_of_cons in Hr as [->|Hr];
      [split; [apply Hdec, (bool_decide_unpack _); done|apply Hdec, (bool_decide_unpack _); done|
        repeat (apply List.Forall_cons; [apply Hdec, (bool_decide_unpack _); done|]); constructor|
        by repeat constructor|vm_compute; lia]|]). by apply elem_of_nil in Hr. }
  assert (forall no_mem, download_firmware load0 true no_mem (demo_hdr ++ records_text print demo_records) 201 regs0
    = if no_mem (first_map (demo_hdr ++ records_text print demo_records)) then Ret (-1, false, regs0)
      else match apply_records print load0 demo_records regs0 with Some s' => Ret (0, false, s') | None => Fault end) as H.
  { intros no_mem. apply (firmware_loaded (F:=unit) (fun _ => 0) (fun _ => tt) (fun _ => tt) 0 print no_mem
      demo_hdr demo_records 201 regs0).
    - exists 13. split; [apply Hdec, (bool_decide_unpack _); done|]. split_and!; [done|done|done|vm_compute; lia].
    - apply Forall_forall. intros r Hr. by apply Hwf, list_elem_of_In.
    - vm_compute. done. }
  rewrite !H.
  destruct (apply_records _ _ demo_records regs0) as [s|] eqn:E; [|vm_compute in E; done].
  exists s. split; [done|]. split; [done|]. vm_compute in E. injection E as <-. by vm_compute.
Defined.

(** The header the daemon writes into a new file has no character behind the
    version: a start that reads it back runs over the twenty bytes of [head]
    that [read] did not fill. *)
Lemma created_file_unreadable {A} (download : A -> Z -> Z -> list Z -> option A) no_mem version head s :
  0 < version -> version_head version = Some head ->
  download_firmware download true no_mem head version s = Fault.
Proof.
  intros Hv. unfold version_head. case_match eqn:E; [done|]. intros [= <-]. apply Nat.ltb_ge in E.
  assert (digits (rev (version_digits version))) as Hd by (apply Forall_rev, dat_loop_digits; lia).
  set (dat := rev _) in *.
  assert (length dat <= 6)%nat as Hl by (unfold dat; rewrite length_rev; lia).
  unfold download_firmware. cbn [negb].
  clearbody dat. change (35 :: 68 :: 69 :: dat) with (MAGIC ++ dat).
  rewrite take_ge by (cbn; lia).
  rewrite (proj2 (Nat.eqb_neq _ 0)) by (cbn; lia).
  assert (until_nul (MAGIC ++ dat) = MAGIC ++ dat) as ->.
  { rewrite <- (app_nil_r (MAGIC ++ dat)) at 1. rewrite until_nul_app; [by rewrite app_nil_r|].
    apply Forall_app. split; [by repeat constructor|]. apply digits_not; [done|lia]. }
  rewrite strstr_prefix. cbn [checked mbind run_bind]. rewrite Nat.sub_diag. cbn [Nat.add MAGIC drop app].
  unfold read_int. by rewrite int_runs_out_digits.
Qed.

(** A text of more than 8192 bytes: behind the last record the first window
    holds the file is to be mapped again from that record on, which does not
    start a page, so [mmap] refuses and the rest is not loaded.  Here twelve
    records with 800 line ends behind each; eleven are loaded. *)
Definition long_text : list Z :=
  demo_hdr ++ records_text print (replicate 12 (mkRecord 2 0 64 [7] (replicate 800 13))).

Lemma long_text_refused :
  download_firmware (fun n _ _ _ => Some (n + 1)) true (fun _ => false) long_text 201 0
  = Ret (-1, false, 11).
Proof. vm_compute. reflexivity. Qed.

End PqLoad.
