(* ===== verification/PqConn.v ===== *)
(** * Connections of the display PQ daemon (display/pq/pq_main.c)

    [connect_thread] waits with [epoll] for its clients, cuts what they send
    into packages and queues each one for the translate thread (De201).  A
    package is its bytes here: "AWPQ", a command byte, a type byte, the size
    of the whole package as a 32-bit integer and the payload.

    [None] is undefined behaviour: a copy or a read past an allocation.  The
    answers of [recv] are data; [main] only accepts connections and hands
    their descriptors over the socket pair [read_fd] reads. *)

From stdpp Require Import base tactics option list list_numbers numbers.
From Stdlib Require Import ZArith Lia.
From S2P Require Import Prelude.

Local Open Scope Z_scope.

Module PqConn.

(** ** Data *)

Definition MAX_SOCKET_CONNECT_COUNT : nat := 3.
Definition EVENT_MSG_LEN : nat := 4096.
Definition HEART_INTERVAL_MS : Z := 3000.
(** [sizeof(struct PQ_package)], [sizeof(struct trans_reply)],
    [sizeof(struct trans_data)] *)
Definition PKG : nat := 10.
Definition REPLY : nat := 8.
Definition TRANS : Z := 24.

(** "AWPQ" *)
Definition HEAD : list Z := [65; 87; 80; 81].

(** The field [size] of a package. *)
Definition size_of (b : list Z) : option Z :=
  match drop 6 b with
  | a :: b :: c :: d :: _ => Some (s32 (a + 256 * b + 65536 * c + 16777216 * d))
  | _ => None
  end.

Definition size_bytes (n : Z) : list Z :=
  [n mod 256; n / 256 mod 256; n / 65536 mod 256; n / 16777216 mod 256].

(** What the thread asks of the kernel. *)
Inductive action := EpollDel (fd : Z) | Close (fd : Z).

(** [recv_buf] has [EVENT_MSG_LEN] bytes and [tempackage] ten; a queued
    package is [client_fd], [count] and the bytes of [data]. *)
Record conn := mkConn {
  recv_buf : list Z;
  tempackage : list Z;
  con_fd : list Z;
  alive_connect_thread : Z;
  timewaitems : Z;
  debug_cout : Z;
  queue : list (Z * Z * list Z);
  actions : list action
}.

Definition set_buf (b : list Z) (c : conn) : conn :=
  mkConn b (tempackage c) (con_fd c) (alive_connect_thread c) (timewaitems c) (debug_cout c) (queue c) (actions c).
Definition set_temp (b : list Z) (c : conn) : conn :=
  mkConn (recv_buf c) b (con_fd c) (alive_connect_thread c) (timewaitems c) (debug_cout c) (queue c) (actions c).
Definition set_slots (l : list Z) (n : Z) (c : conn) : conn :=
  mkConn (recv_buf c) (tempackage c) l n (timewaitems c) (debug_cout c) (queue c) (actions c).
Definition set_wait (t : Z) (c : conn) : conn :=
  mkConn (recv_buf c) (tempackage c) (con_fd c) (alive_connect_thread c) t (debug_cout c) (queue c) (actions c).
Definition act (a : action) (c : conn) : conn :=
  mkConn (recv_buf c) (tempackage c) (con_fd c) (alive_connect_thread c) (timewaitems c) (debug_cout c) (queue c)
    (actions c ++ [a]).
(** [trans_da->count = debug_cout++; ...; send_to_translate(trans_da);] *)
Definition send (fd : Z) (b : list Z) (c : conn) : conn :=
  mkConn (recv_buf c) (tempackage c) (con_fd c) (alive_connect_thread c) (timewaitems c) (s32 (debug_cout c + 1))
    (queue c ++ [(fd, debug_cout c, b)]) (actions c).

(** ** Copies *)

(** [memcpy(dst + at, src, n)] with both ends checked. *)
Definition blit (dst : list Z) (at_ : nat) (src : list Z) (n : nat) : option (list Z) :=
  if (at_ + n <=? length dst)%nat && (n <=? length src)%nat
  then Some (take at_ dst ++ take n src ++ drop (at_ + n) dst) else None.

(** Where [tmp_head] points: nowhere, at [tempackage], into [recv_buf], or at
    the data of the block [trans_da]. *)
Inductive head := HNull | HTemp | HBuf (off : nat) | HBlock (b : list Z).

(** How a pass over the buffer ends: [goto receiv] with [tmp_head] and
    [tail], or the event is done with. *)
Inductive pass := Receiv (h : head) (tail : Z) (c : conn) | Done (c : conn).

Section Thread.
  (** The bytes [malloc] leaves in a block, and the sizes it refuses. *)
  Context (junk : Z) (no_mem : Z -> bool).

Definition fresh (n : Z) : list Z := replicate (Z.to_nat n) junk.

(** The package sent for a wrong header: [cmd] is 255, the other fields are
    left as they are. *)
Definition bad_package : list Z :=
  HEAD ++ [255; junk] ++ size_bytes 18 ++ replicate REPLY junk.

(** A pass from the label [many_head] on: [rev_cnt] bytes of the buffer are
    used, [recvlen] are left. *)
Fixpoint many_head (fuel : nat) (fd : Z) (h : head) (rev_cnt : nat) (recvlen tail : Z) (c : conn)
  : option pass :=
  match fuel with
  | O => None
  | S fuel =>
      (** from the label [deal_data] *)
      let deal_data h rev_cnt recvlen c :=
        if (0 <? recvlen) && (recvlen <? 10) then
          src ← match h with
                | HBuf off => Some (drop off (recv_buf c))
                | HBlock b => Some b
                | _ => None
                end;
          t ← blit (tempackage c) 0 src (Z.to_nat recvlen);
          Some (Receiv HTemp recvlen (set_temp t c))
        else
          b ← match h with HBlock b => Some b | _ => None end;
          let c := send fd b c in
          if 0 <? recvlen then many_head fuel fd HNull rev_cnt recvlen tail c else Some (Done c) in
      match h with
      | HNull =>
          if 10 <=? recvlen then
            let src := drop rev_cnt (recv_buf c) in
            if negb (bool_decide (take 4 src = HEAD)) then
              if no_mem (10 + 8 + TRANS) then None else Some (Done (send fd bad_package c))
            else
              size ← size_of src;
              if (size <? - TRANS) || no_mem (size + TRANS) then Some (Done c)
              else if size <=? recvlen then
                if size <? 10 then None else
                b ← blit (fresh size) 0 src (Z.to_nat size);
                deal_data (HBlock b) (rev_cnt + Z.to_nat size)%nat (recvlen - size) c
              else
                b ← blit (fresh size) 0 src (Z.to_nat recvlen);
                Some (Receiv (HBlock b) recvlen c)
          else deal_data (HBuf rev_cnt) rev_cnt recvlen c
      | HTemp =>
          let n := 10 - tail in
          t ← blit (tempackage c) (Z.to_nat tail) (recv_buf c) (Z.to_nat n);
          let c := set_temp t c in
          size ← size_of t;
          if (size <? 10) || no_mem (size + TRANS) then None else
          b ← blit (fresh size) 0 t PKG;
          let rev_cnt := (rev_cnt + Z.to_nat n)%nat in
          let recvlen := recvlen - n in
          let rest := size - 10 in
          (** the comparison is between unsigned numbers *)
          if (recvlen <? 0) || (rest <=? recvlen) then
            b ← blit b PKG (drop rev_cnt (recv_buf c)) (Z.to_nat rest);
            deal_data (HBlock b) (rev_cnt + Z.to_nat rest)%nat (recvlen - rest) c
          else
            b ← blit b PKG (drop rev_cnt (recv_buf c)) (Z.to_nat recvlen);
            deal_data (HBlock b) (rev_cnt + Z.to_nat recvlen)%nat 0 c
      | HBlock b =>
          size ← size_of b;
          if size <=? recvlen + tail then
            let cpy_size := size - tail in
            b ← blit b (PKG + Z.to_nat tail) (drop rev_cnt (recv_buf c)) (Z.to_nat cpy_size);
            deal_data (HBlock b) (rev_cnt + Z.to_nat cpy_size)%nat (recvlen - cpy_size) c
          else
            b ← blit b (PKG + Z.to_nat tail) (drop rev_cnt (recv_buf c)) rev_cnt;
            Some (Receiv (HBlock b) tail c)
      | HBuf _ => None
      end
  end.

(** ** Receiving *)

(** What [recv] returns: a negative number, or the bytes it stored. *)
Inductive recv_res := RecvErr (ret : Z) | RecvData (bytes : list Z).

(** [EINTR], and [EWOULDBLOCK] and [EAGAIN]: the code compares the length
    with them. *)
Definition EINTR : Z := 4.
Definition EAGAIN : Z := 11.

(** [while (t < MAX) { if (con_fd[i] == client_fd) { alive--; con_fd[t] = -1; } t++; }] *)
Fixpoint drop_client (k t : nat) (i : nat) (fd : Z) (slots : list Z) (alive : Z) : option (list Z * Z) :=
  match k with
  | O => Some (slots, alive)
  | S k =>
      s ← slots !! i;
      if s =? fd then drop_client k (S t) i fd (<[t := -1]> slots) (alive - 1)
      else drop_client k (S t) i fd slots alive
  end.

(** From the label [receiv]; [i] is the index of the event.  [None] also
    when the answers run out. *)
Fixpoint receiv (can_close : bool) (i : nat) (fd : Z) (rs : list recv_res) (h : head) (tail : Z) (c : conn)
  : option conn :=
  match rs with
  | [] => None
  | RecvErr ret :: _ => if ret <? 0 then Some c else None
  | RecvData bytes :: rs =>
      buf ← blit (recv_buf c) 0 bytes (length bytes);
      let c := set_buf buf c in
      let recvlen := Z.of_nat (length bytes) in
      if (recvlen =? EINTR) || (recvlen =? EAGAIN) then receiv can_close i fd rs h tail c
      else if recvlen =? 0 then
        if can_close then
          let c := act (Close fd) (act (EpollDel fd) c) in
          '(slots, alive) ← drop_client MAX_SOCKET_CONNECT_COUNT 0 i fd (con_fd c) (alive_connect_thread c);
          Some (set_slots slots alive c)
        else Some c
      else
        p ← many_head (S (length bytes)) fd h 0 recvlen tail c;
        match p with
        | Done c => Some c
        | Receiv h tail c => receiv can_close i fd rs h tail c
        end
  end.

(** ** New clients *)

(** [while ((con_fd[t] > 0) && (t < MAX)) t++;] reads the slot before it
    looks at [t]. *)
Fixpoint free_slot (slots : list Z) (t : nat) : option nat :=
  match slots with
  | [] => None
  | s :: slots => if 0 <? s then free_slot slots (S t) else Some t
  end.

Definition new_client (fd : Z) (c : conn) : option conn :=
  if alive_connect_thread c <? Z.of_nat MAX_SOCKET_CONNECT_COUNT then
    t ← free_slot (con_fd c) 0;
    if 0 <? fd then Some (set_slots (<[t := fd]> (con_fd c)) (alive_connect_thread c + 1) c) else Some c
  else Some c.

Fixpoint new_clients (fds : list Z) (c : conn) : option conn :=
  match fds with [] => Some c | fd :: fds => c ← new_client fd c; new_clients fds c end.

(** ** Waiting *)

(** An event: the socket pair with the descriptors read from it, or a
    client's with what its [recv]s return ([epollin] is false for an error or
    a hang-up). *)
Inductive event := Accepted (fds : list Z) | Client (fd : Z) (epollin : bool) (rs : list recv_res).

Definition on_event (can_close : bool) (i : nat) (e : event) (c : conn) : option conn :=
  let c := set_wait (HEART_INTERVAL_MS * 3) c in
  match e with
  | Accepted fds => new_clients fds c
  | Client fd epollin rs => if epollin then receiv can_close i fd rs HNull 0 c else Some c
  end.

Fixpoint on_events (can_close : bool) (i : nat) (es : list event) (c : conn) : option conn :=
  match es with
  | [] => Some c
  | e :: es => c ← on_event can_close i e c; on_events can_close (S i) es c
  end.

(** What [epoll_wait] returned: its time ran out, or events. *)
Definition connect_turn (can_close : bool) (es : list event) (c : conn) : option conn :=
  match es with
  | [] =>
      if can_close then
        let dels := map EpollDel (filter (fun fd => 0 < fd) (con_fd c)) in
        let c := foldl (fun c a => act a c) (set_wait (u32 (-1)) c) dels in
        Some (set_slots (replicate MAX_SOCKET_CONNECT_COUNT (-1)) 0 c)
      else Some (set_wait (HEART_INTERVAL_MS * 3) c)
  | es => on_events can_close 0 es c
  end.

(** At the start of the thread. *)
Definition conn_start : conn :=
  mkConn (replicate EVENT_MSG_LEN 0) (replicate PKG 0) (replicate MAX_SOCKET_CONNECT_COUNT (-1)) 0
    (HEART_INTERVAL_MS * 2) 0 [] [].

End Thread.

(** ** Whole packages *)

Record package_wf (b : list Z) : Prop := {
  wf_head : take 4 b = HEAD;
  wf_size : size_of b = Some (Z.of_nat (length b));
  wf_length : (PKG <= length b)%nat
}.

Lemma blit_front dst src n :
  (n <= length dst)%nat -> (n <= length src)%nat -> blit dst 0 src n = Some (take n src ++ drop n dst).
Proof.
  intros H1 H2. unfold blit. cbn [Nat.add take app]. by rewrite (proj2 (Nat.leb_le _ _) H1), (proj2 (Nat.leb_le _ _) H2).
Qed.

Lemma blit_past dst i src n : (length dst < i + n)%nat -> blit dst i src n = None.
Proof. intros H. unfold blit. by rewrite (proj2 (Nat.leb_gt _ _) H). Qed.

Lemma blit_all (b rest : list Z) junk :
  blit (fresh junk (Z.of_nat (length b))) 0 (b ++ rest) (length b) = Some b.
Proof.
  unfold fresh. rewrite blit_front by (rewrite ?length_replicate, ?length_app; lia).
  rewrite take_app_length, drop_ge by (rewrite length_replicate; lia). by rewrite app_nil_r.
Qed.

Lemma take_app_head {A} n (b s : list A) : (n <= length b)%nat -> take n (b ++ s) = take n b.
Proof. intros H. by rewrite take_app_le. Qed.

Lemma size_of_app b s : (PKG <= length b)%nat -> size_of (b ++ s) = size_of b.
Proof.
  unfold PKG. intros H. do 10 (destruct b as [|? b]; [cbn in H; lia|]). done.
Qed.

Section Framing.
  Context (junk : Z) (no_mem : Z -> bool).

(** The packages queued one after the other. *)
Definition send_all (fd : Z) (pkgs : list (list Z)) (c : conn) : conn :=
  foldl (fun c b => send fd b c) c pkgs.

Lemma send_all_buf fd pkgs c : recv_buf (send_all fd pkgs c) = recv_buf c.
Proof. revert c. induction pkgs as [|b pkgs IH]; intros c; [done|]. exact (IH (send fd b c)). Qed.

Lemma send_all_queue fd pkgs c :
  map (fun q => (q.1.1, q.2)) (queue (send_all fd pkgs c))
  = map (fun q => (q.1.1, q.2)) (queue c) ++ map (pair fd) pkgs.
Proof.
  revert c. induction pkgs as [|b pkgs IH]; intros c; cbn [send_all foldl map].
  - by rewrite app_nil_r.
  - unfold send_all in IH. rewrite IH. cbn [queue send]. rewrite map_app, <- app_assoc. done.
Qed.

Lemma send_all_frame fd pkgs c :
  con_fd (send_all fd pkgs c) = con_fd c /\
  alive_connect_thread (send_all fd pkgs c) = alive_connect_thread c /\
  actions (send_all fd pkgs c) = actions c.
Proof.
  revert c. induction pkgs as [|b pkgs IH]; intros c; [done|]. exact (IH (send fd b c)).
Qed.

(** A package at the front of what is left of the buffer. *)
Lemma many_head_package fuel fd rev_cnt b rest tail c :
  package_wf b -> no_mem (Z.of_nat (length b) + TRANS) = false -> drop rev_cnt (recv_buf c) = b ++ rest ->
  forall left, (left <= length rest)%nat ->
  many_head junk no_mem (S fuel) fd HNull rev_cnt (Z.of_nat (length b + left)) tail c =
  if (0 <? left)%nat && (left <? 10)%nat then
    t ← blit (tempackage c) 0 b left; Some (Receiv HTemp (Z.of_nat left) (set_temp t c))
  else if (0 <? left)%nat then
    many_head junk no_mem fuel fd HNull (rev_cnt + length b) (Z.of_nat left) tail (send fd b c)
  else Some (Done (send fd b c)).
Proof.
  intros [Hh Hs Hl] Hmem Hd left Hleft. unfold PKG in Hl. cbn [many_head].
  rewrite (proj2 (Z.leb_le 10 _)) by lia. rewrite Hd, take_app_head, Hh by lia.
  rewrite bool_decide_eq_true_2 by done. cbn [negb].
  rewrite size_of_app, Hs by (unfold PKG; lia). cbn [mbind option_bind]. rewrite Hmem.
  rewrite (proj2 (Z.ltb_ge _ (- TRANS))) by (unfold TRANS; lia). cbn [orb].
  rewrite (proj2 (Z.leb_le (Z.of_nat (length b)) _)), (proj2 (Z.ltb_ge (Z.of_nat (length b)) 10)) by lia.
  rewrite Nat2Z.id, blit_all. cbn [mbind option_bind].
  replace (Z.of_nat (length b + left) - Z.of_nat (length b)) with (Z.of_nat left) by lia.
  replace (0 <? Z.of_nat left) with (0 <? left)%nat by (apply eq_iff_eq_true; rewrite Z.ltb_lt, Nat.ltb_lt; lia).
  replace (Z.of_nat left <? 10) with (left <? 10)%nat by (apply eq_iff_eq_true; rewrite Z.ltb_lt, Nat.ltb_lt; lia).
  rewrite Nat2Z.id. done.
Qed.

(** The block of a package is refused: what is left of the buffer is dropped. *)
Lemma many_head_refused fuel fd rev_cnt b rest left tail c :
  package_wf b -> no_mem (Z.of_nat (length b) + TRANS) = true -> drop rev_cnt (recv_buf c) = b ++ rest ->
  many_head junk no_mem (S fuel) fd HNull rev_cnt (Z.of_nat (length b + left)) tail c = Some (Done c).
Proof.
  intros [Hh Hs Hl] Hmem Hd. unfold PKG in Hl. cbn [many_head].
  rewrite (proj2 (Z.leb_le 10 _)) by lia. rewrite Hd, take_app_head, Hh by lia.
  rewrite bool_decide_eq_true_2 by done. cbn [negb].
  rewrite size_of_app, Hs by (unfold PKG; lia). cbn [mbind option_bind]. by rewrite Hmem, orb_true_r.
Qed.

(** The packages before the first one whose block is refused. *)
Fixpoint granted (pkgs : list (list Z)) : list (list Z) :=
  match pkgs with
  | [] => []
  | b :: pkgs => if no_mem (Z.of_nat (length b) + TRANS) then [] else b :: granted pkgs
  end.

Lemma many_head_packages pkgs : forall fuel fd rev_cnt rest tail c,
  pkgs <> [] -> Forall package_wf pkgs -> drop rev_cnt (recv_buf c) = concat pkgs ++ rest ->
  (length pkgs <= fuel)%nat ->
  many_head junk no_mem fuel fd HNull rev_cnt (Z.of_nat (length (concat pkgs))) tail c
  = Some (Done (send_all fd (granted pkgs) c)).
Proof.
  induction pkgs as [|b pkgs IH]; intros fuel fd rev_cnt rest tail c Hne Hwf Hd Hf; [done|].
  destruct fuel as [|fuel]; [cbn in Hf; lia|]. cbn [concat granted] in *.
  destruct (Forall_cons_1 _ _ _ Hwf) as [W1 W2]. rewrite <- app_assoc in Hd. rewrite length_app.
  destruct (no_mem (Z.of_nat (length b) + TRANS)) eqn:Em; [by eapply many_head_refused|].
  rewrite (many_head_package fuel fd rev_cnt b (concat pkgs ++ rest) tail c W1 Em Hd) by (rewrite length_app; lia).
  destruct pkgs as [|b2 pkgs]; [done|].
  pose proof (wf_length _ (Forall_inv W2)) as H2. unfold PKG in H2.
  assert (10 <= length (concat (b2 :: pkgs)))%nat as H3 by (cbn [concat]; rewrite length_app; lia).
  rewrite (proj2 (Nat.ltb_lt 0 _)), (proj2 (Nat.ltb_ge _ 10)) by lia. cbn [andb].
  rewrite (IH fuel fd _ rest tail (send fd b c)); [done|done|done| |cbn in Hf |- *; lia].
  cbn [recv_buf send]. by rewrite <- drop_drop, Hd, drop_app_length.
Qed.

Lemma receive_into bytes c :
  length (recv_buf c) = EVENT_MSG_LEN -> (length bytes <= EVENT_MSG_LEN)%nat ->
  blit (recv_buf c) 0 bytes (length bytes) = Some (bytes ++ drop (length bytes) (recv_buf c)).
Proof. intros H1 H2. rewrite blit_front by lia. by rewrite take_ge. Qed.

Lemma packages_count pkgs :
  Forall package_wf pkgs -> (length pkgs <= length (concat pkgs))%nat /\
  (pkgs <> [] -> 10 <= length (concat pkgs))%nat.
Proof.
  induction 1 as [|b pkgs Hb _ [IH _]]; [done|]. cbn [concat length]. rewrite length_app.
  pose proof (wf_length _ Hb) as Hl. unfold PKG in Hl. lia.
Qed.

(** Eleven bytes are taken for the error number [EAGAIN] and thrown away. *)
Lemma eleven_bytes_ignored can_close i fd b rs h tail c :
  length b = 11%nat -> length (recv_buf c) = EVENT_MSG_LEN ->
  exists c', receiv junk no_mem can_close i fd (RecvData b :: rs) h tail c
    = receiv junk no_mem can_close i fd rs h tail c' /\ queue c' = queue c.
Proof.
  intros H Hbuf. cbn [receiv]. rewrite receive_into by (done || (rewrite H; unfold EVENT_MSG_LEN; apply Nat.leb_le; reflexivity)).
  cbn [mbind option_bind]. rewrite H. change (_ || _) with true. cbv iota. by eexists.
Qed.

(** C31: packages that arrive whole are framed: whatever number of complete
    packages one [recv] returns, in one buffer, those before the first whose block
    [malloc] refuses are queued for the translate thread, unchanged, in the order
    in which they were sent, under the client's descriptor, and nothing else about
    the connections changes; the packages from the refused one on are lost.  The
    one exception are eleven bytes in all, a single package: their number is
    taken for an error number, and the package is thrown away. *)
Theorem whole_packages_queued can_close i fd pkgs rs c :
  pkgs <> [] -> Forall package_wf pkgs ->
  length (recv_buf c) = EVENT_MSG_LEN -> (length (concat pkgs) <= EVENT_MSG_LEN)%nat ->
  (length (concat pkgs) <> 11%nat ->
   exists c', receiv junk no_mem can_close i fd (RecvData (concat pkgs) :: rs) HNull 0 c = Some c' /\
     map (fun q => (q.1.1, q.2)) (queue c')
       = map (fun q => (q.1.1, q.2)) (queue c) ++ map (pair fd) (granted pkgs) /\
     con_fd c' = con_fd c /\ alive_connect_thread c' = alive_connect_thread c /\ actions c' = actions c) /\
  (length (concat pkgs) = 11%nat ->
   exists c', receiv junk no_mem can_close i fd (RecvData (concat pkgs) :: rs) HNull 0 c
     = receiv junk no_mem can_close i fd rs HNull 0 c' /\ queue c' = queue c).
Proof.
  intros Hne Hwf Hbuf Hlen. split; intros H11; [|by apply eleven_bytes_ignored].
  destruct (packages_count pkgs Hwf) as [Hc Hc10]. specialize (Hc10 Hne).
  cbn [receiv]. rewrite receive_into by done. cbn [mbind option_bind]. unfold EINTR, EAGAIN.
  rewrite !(proj2 (Z.eqb_neq (Z.of_nat _) _)) by lia. cbn [orb].
  set (c1 := set_buf _ c).
  rewrite (many_head_packages pkgs _ fd 0 (drop (length (concat pkgs)) (recv_buf c))) by (done || lia).
  eexists. split; [reflexivity|]. split; [by rewrite send_all_queue|].
  destruct (send_all_frame fd (granted pkgs) c1) as (-> & -> & ->). done.
Qed.

Section Mem.
  Context (mem : forall n, no_mem n = false).

(** A package in two parts, the first with the whole header: the second part
    is copied ten bytes too far on, behind the end of the block. *)
Lemma split_package_overflows can_close i fd b b1 b2 rs c :
  package_wf b -> b = b1 ++ b2 -> b2 <> [] -> (PKG <= length b1)%nat ->
  length b1 <> 11%nat -> length b2 <> 4%nat -> length b2 <> 11%nat ->
  length (recv_buf c) = EVENT_MSG_LEN -> (length b <= EVENT_MSG_LEN)%nat ->
  receiv junk no_mem can_close i fd (RecvData b1 :: RecvData b2 :: rs) HNull 0 c = None.
Proof.
  intros [Hh Hs Hl] Hb Hne H1 L1 L2 L3 Hbuf Hlen. unfold PKG in H1.
  assert (0 < length b2)%nat by (destruct b2; [done|cbn; lia]).
  assert (length b = length b1 + length b2)%nat as Hb' by (by rewrite Hb, length_app).
  cbn [receiv]. rewrite receive_into by (done || lia). cbn [mbind option_bind]. unfold EINTR, EAGAIN.
  rewrite !(proj2 (Z.eqb_neq (Z.of_nat (length b1)) _)) by lia. cbn [orb].
  set (c1 := set_buf _ c).
  assert (length (recv_buf c1) = EVENT_MSG_LEN) as Hbuf1
    by (cbn [c1 recv_buf set_buf]; rewrite length_app, length_drop; lia).
  assert (exists blk, length blk = length b /\ size_of blk = size_of b /\
    many_head junk no_mem (S (length b1)) fd HNull 0 (Z.of_nat (length b1)) 0 c1
    = Some (Receiv (HBlock blk) (Z.of_nat (length b1)) c1)) as (blk & Hbl & Hbs & ->).
  { exists (b1 ++ drop (length b1) (fresh junk (Z.of_nat (length b)))). split_and!.
    - unfold fresh. rewrite length_app, length_drop, length_replicate. lia.
    - by rewrite Hb, !size_of_app.
    - cbn [many_head]. rewrite (proj2 (Z.leb_le 10 _)), drop_0 by lia. cbn [c1 recv_buf set_buf].
      rewrite take_app_head by lia. rewrite Hb, take_app_head in Hh by lia. rewrite Hh.
      rewrite bool_decide_eq_true_2 by done. cbn [negb].
      rewrite Hb, size_of_app in Hs by (unfold PKG; lia).
      rewrite size_of_app, Hs by (unfold PKG; lia). cbn [mbind option_bind]. rewrite mem.
      rewrite <- Hb. rewrite (proj2 (Z.ltb_ge _ (- TRANS))) by (unfold TRANS; lia). cbn [orb].
      rewrite (proj2 (Z.leb_gt (Z.of_nat (length b)) _)), Nat2Z.id by lia.
      rewrite blit_front by (unfold fresh; rewrite ?length_replicate, ?length_app; lia).
      rewrite take_app_length. done. }
  cbn [mbind option_bind receiv]. rewrite receive_into by (done || lia). cbn [mbind option_bind].
  rewrite !(proj2 (Z.eqb_neq (Z.of_nat (length b2)) _)) by lia. cbn [orb].
  cbn [many_head]. rewrite Hbs, Hs. cbn [mbind option_bind].
  rewrite (proj2 (Z.leb_le _ _)), blit_past by (unfold PKG; lia). done.
Qed.

(** A package with the first bytes of the next one behind it: the thread
    keeps the package's own first bytes as the start of a header, reads on,
    and never queues the package. *)
Lemma package_before_fragment_lost can_close i fd b p rs c :
  package_wf b -> (0 < length p < 10)%nat -> (length b + length p <> 11)%nat ->
  length (recv_buf c) = EVENT_MSG_LEN -> (length (b ++ p) <= EVENT_MSG_LEN)%nat ->
  length (tempackage c) = PKG ->
  exists c', receiv junk no_mem can_close i fd (RecvData (b ++ p) :: rs) HNull 0 c
    = receiv junk no_mem can_close i fd rs HTemp (Z.of_nat (length p)) c' /\
    queue c' = queue c /\ take (length p) (tempackage c') = take (length p) b.
Proof.
  intros Hwf Hp H11 Hbuf Hlen Ht. pose proof (wf_length _ Hwf) as Hl. unfold PKG in Hl, Ht.
  cbn [receiv]. rewrite receive_into by done. cbn [mbind option_bind]. unfold EINTR, EAGAIN.
  rewrite length_app in *. rewrite !(proj2 (Z.eqb_neq (Z.of_nat (_ + _)) _)) by lia. cbn [orb].
  set (c1 := set_buf _ c).
  rewrite (many_head_package _ fd 0 b (p ++ drop (length b + length p) (recv_buf c)) 0 c1 Hwf (mem _))
    by (rewrite ?length_app; cbn [c1 recv_buf set_buf]; rewrite ?drop_0, <- ?app_assoc; done || lia).
  rewrite (proj2 (Nat.ltb_lt 0 _)), (proj2 (Nat.ltb_lt _ 10)) by lia. cbn [andb].
  rewrite blit_front by (cbn [c1 tempackage set_buf]; lia). cbn [mbind option_bind].
  eexists. split; [reflexivity|]. split; [done|].
  cbn [tempackage set_temp]. rewrite take_app_le by (rewrite length_take; lia).
  by rewrite take_take, Nat.min_id.
Qed.

End Mem.

End Framing.

(** A colour request (id 14) and a register request (id 2). *)
Definition demo_packages : list (list Z) :=
  [HEAD ++ [2; 0] ++ size_bytes 18 ++ [14; 0; 0; 0; 1; 2; 3; 4];
   HEAD ++ [1; 0] ++ size_bytes 22 ++ [2; 0; 0; 0; 64; 0; 0; 0; 0; 0; 0; 0]].

Lemma demo_packages_wf : Forall package_wf demo_packages.
Proof. repeat constructor; cbn; lia. Qed.

(** Both are queued; a refusal of the block of 22 bytes loses the second; a
    package of eleven bytes is thrown away. *)
Definition eleven_package : list Z := HEAD ++ [1; 0] ++ size_bytes 11 ++ [7].

Lemma whole_packages_queued_witness :
  (exists c', receiv 0 (fun _ => false) true 0 7 [RecvData (concat demo_packages)] HNull 0 conn_start = Some c' /\
     map (fun q => (q.1.1, q.2)) (queue c') = map (pair 7) demo_packages) /\
  (exists c', receiv 0 (fun n => n =? 46) true 0 7 [RecvData (concat demo_packages)] HNull 0 conn_start = Some c' /\
     map (fun q => (q.1.1, q.2)) (queue c') = map (pair 7) (take 1 demo_packages)) /\
  (exists c', receiv 0 (fun _ => false) true 0 7 [RecvData (eleven_package ++ []); RecvErr (-1)] HNull 0 conn_start
       = receiv 0 (fun _ => false) true 0 7 [RecvErr (-1)] HNull 0 c' /\ queue c' = []).
Proof.
  assert (forall pkgs : list (list Z), (length (concat pkgs) <=? 4096)%nat = true -> (length (concat pkgs) <= EVENT_MSG_LEN)%nat) as Hle
    by (intros pkgs; apply Nat.leb_le).
  split; [|split].
  - destruct (whole_packages_queued 0 (fun _ => false) true 0 7 demo_packages [] conn_start) as [H _];
      [done|exact demo_packages_wf|by vm_compute|by apply Hle|].
    destruct (H ltac:(done)) as (c' & H1 & H2 & _). exists c'. split; [exact H1|exact H2].
  - destruct (whole_packages_queued 0 (fun n => n =? 46) true 0 7 demo_packages [] conn_start) as [H _];
      [done|exact demo_packages_wf|by vm_compute|by apply Hle|].
    destruct (H ltac:(done)) as (c' & H1 & H2 & _). exists c'. split; [exact H1|exact H2].
  - destruct (whole_packages_queued 0 (fun _ => false) true 0 7 [eleven_package] [RecvErr (-1)] conn_start) as [_ H];
      [done|repeat constructor; cbn; lia|by vm_compute|by apply Hle|].
    destruct (H ltac:(done)) as (c' & H1 & H2). exists c'. split; [exact H1|exact H2].
Defined.

End PqConn.
