(* ===== verification/ThreadPool.v ===== *)
(** * The thread pool of the ISP tuning server
      (camera/3_4/allwinnertech/libAWIspApi/awTunningApp/tuning_app/thread_pool.c)

    A list of worker nodes; each running worker polls its own flags under the
    node's lock, [add_work] hands a job to a node or grows the list, and
    [exit_thread_pool] stops and frees the workers.  A step of the model is one
    critical section of one thread, so that workers and callers interleave at
    every point where the code lets go of a lock.  Jobs are the pairs of
    function and argument, of an arbitrary type; [None] is a NULL function. *)

From stdpp Require Import base tactics option list numbers relations.
From Stdlib Require Import ZArith Lia.
From S2P Require Import Prelude.

Local Open Scope Z_scope.

Module ThreadPool.

Section Pool.
  Context {J : Type}.

(** Where a worker is in [do_work_thread]: not running; before reading the stop
    flag; before reading the work flag; before the call; before clearing the work
    flag; after the loop. *)
Inductive worker_pc := WNone | WTop | WReadWork | WRun | WClear | WExit.

(** [work_thread_params]; the flags as booleans (YES is [true]). *)
Record node := mkNode {
  n_stop : bool;
  n_work : bool;
  n_exited : bool;
  n_handle : option J;
  n_pc : worker_pc
}.

(** [set_zero_work_thread_params] (the thread itself is not part of it). *)
Definition set_zero_work_thread_params (n : node) : node := mkNode false false true None (n_pc n).

(** Who holds [g_global_lock] and where it is: [add_work] about to look at node
    [i], [exit_thread_pool] about to mark node [i], about to wait for node [i] or
    about to free node [i]; after the exit the pool is gone.  Freed nodes stay in
    [p_nodes], as the memory a worker that is still running would touch. *)
Inductive holder :=
| Free
| Adding (work : option J) (i : nat)
| Marking (i : nat)
| Waiting (i : nat)
| Freeing (i : nat)
| Gone.

(** [p_accepted] and [p_executed] record the jobs of the calls that returned 0
    and the calls the workers made; [p_dropped] the jobs an exiting worker had
    not started; [p_ret] the value the last [add_work] returned. *)
Record pool := mkPool {
  p_nodes : list node;
  p_holder : holder;
  p_accepted : list J;
  p_executed : list J;
  p_dropped : list J;
  p_ret : Z
}.

Definition fresh_node : node := mkNode false false true None WNone.

Definition init_thread_pool : pool := mkPool (replicate 6 fresh_node) Free [] [] [] 0.

Definition opt_list (o : option J) : list J := match o with Some j => [j] | None => [] end.

Definition set_node (s : pool) (i : nat) (n : node) : pool :=
  mkPool (<[i := n]> (p_nodes s)) (p_holder s) (p_accepted s) (p_executed s) (p_dropped s) (p_ret s).

(** One critical section (or the call) of worker [i]. *)
Definition worker_step (s : pool) (i : nat) : option pool :=
  n ← p_nodes s !! i;
  match n_pc n with
  | WNone => None
  | WTop =>
      let pc := if n_stop n then WExit else WReadWork in
      Some (set_node s i (mkNode (n_stop n) (n_work n) (n_exited n) (n_handle n) pc))
  | WReadWork =>
      let pc := if n_work n then WRun else WTop in
      Some (set_node s i (mkNode (n_stop n) (n_work n) (n_exited n) (n_handle n) pc))
  | WRun =>
      let s' := set_node s i (mkNode (n_stop n) (n_work n) (n_exited n) (n_handle n) WClear) in
      Some (mkPool (p_nodes s') (p_holder s') (p_accepted s')
              (p_executed s' ++ opt_list (n_handle n)) (p_dropped s') (p_ret s'))
  | WClear =>
      Some (set_node s i (mkNode (n_stop n) false (n_exited n) (n_handle n) WTop))
  | WExit =>
      let z := set_zero_work_thread_params n in
      let s' := set_node s i (mkNode (n_stop z) (n_work z) (n_exited z) (n_handle z) WNone) in
      Some (mkPool (p_nodes s') (p_holder s') (p_accepted s') (p_executed s')
              (p_dropped s' ++ (if n_work n then opt_list (n_handle n) else [])) (p_ret s'))
  end.

(** A node that starts with a job: [pthread_create] under the node's lock. *)
Definition started (work : option J) : node := mkNode false true false work WTop.

Definition finish_add (s : pool) (nodes : list node) (work : option J) (ret : Z) : pool :=
  mkPool nodes Free (p_accepted s ++ (if ret =? 0 then opt_list work else []))
    (p_executed s) (p_dropped s) ret.

(** The next critical section of [add_work]; [created] tells whether
    [pthread_create] succeeds. *)
Definition add_step (s : pool) (created : bool) : option pool :=
  match p_holder s with
  | Adding work i =>
      match p_nodes s !! i with
      | Some n =>
          if n_exited n then
            if created then Some (finish_add s (<[i := started work]> (p_nodes s)) work 0)
            else Some (finish_add s (<[i := set_zero_work_thread_params n]> (p_nodes s)) work (-1))
          else if negb (n_work n) then
            Some (finish_add s
              (<[i := mkNode (n_stop n) true (n_exited n) work (n_pc n)]> (p_nodes s)) work 0)
          else Some (mkPool (p_nodes s) (Adding work (S i)) (p_accepted s) (p_executed s)
                       (p_dropped s) (p_ret s))
      | None =>
          if created then Some (finish_add s (p_nodes s ++ [started work]) work 0)
          else Some (finish_add s (p_nodes s ++ [fresh_node]) work (-1))
      end
  | _ => None
  end.

(** The next critical section of [exit_thread_pool]. *)
Definition exit_step (s : pool) : option pool :=
  match p_holder s with
  | Marking i =>
      match p_nodes s !! i with
      | Some n =>
          Some (mkPool (<[i := mkNode true (n_work n) (n_exited n) (n_handle n) (n_pc n)]> (p_nodes s))
                  (Marking (S i)) (p_accepted s) (p_executed s) (p_dropped s) (p_ret s))
      | None =>
          Some (mkPool (p_nodes s) (Waiting 0) (p_accepted s) (p_executed s) (p_dropped s) (p_ret s))
      end
  | Waiting i =>
      match p_nodes s !! i with
      | Some n =>
          (** the loop polls while the status is EXIT_NOT *)
          let h := if n_exited n then Waiting (S i) else Waiting i in
          Some (mkPool (p_nodes s) h (p_accepted s) (p_executed s) (p_dropped s) (p_ret s))
      | None =>
          Some (mkPool (p_nodes s) (Freeing 0) (p_accepted s) (p_executed s) (p_dropped s) (p_ret s))
      end
  | Freeing i =>
      let h := match p_nodes s !! i with Some _ => Freeing (S i) | None => Gone end in
      Some (mkPool (p_nodes s) h (p_accepted s) (p_executed s) (p_dropped s) (p_ret s))
  | _ => None
  end.

(** Entering the two calls takes the global lock. *)
Definition take_lock (s : pool) (h : holder) : option pool :=
  match p_holder s with
  | Free => Some (mkPool (p_nodes s) h (p_accepted s) (p_executed s) (p_dropped s) (p_ret s))
  | _ => None
  end.

Inductive label :=
| LWorker (i : nat)
| LAddCall (work : option J)
| LAdd (created : bool)
| LExitCall
| LExit.

Definition pool_step (l : label) (s : pool) : option pool :=
  match l with
  | LWorker i => worker_step s i
  | LAddCall work => take_lock s (Adding work 0)
  | LAdd created => add_step s created
  | LExitCall => take_lock s (Marking 0)
  | LExit => exit_step s
  end.

Definition step (s s' : pool) : Prop := exists l, pool_step l s = Some s'.

Definition reachable (s : pool) : Prop := rtc step init_thread_pool s.

(** A whole [add_work] call without other threads in between. *)
Fixpoint add_run (fuel : nat) (s : pool) (created : bool) : option pool :=
  match p_holder s, fuel with
  | Adding _ _, S fuel => s ← add_step s created; add_run fuel s created
  | Adding _ _, O => None
  | _, _ => Some s
  end.

Definition add_work (s : pool) (work : option J) (created : bool) : option pool :=
  s ← take_lock s (Adding work 0);
  add_run (S (length (p_nodes s))) s created.

(** ** Invariants *)

(** The job of a node that is handed over but not called yet. *)
Definition node_pending (n : node) : list J :=
  match n_pc n with
  | WClear => []
  | _ => if n_work n then opt_list (n_handle n) else []
  end.

Definition pending (s : pool) : list J := concat (map node_pending (p_nodes s)).

(** Flags and control point of a node agree. *)
Definition node_ok (n : node) : Prop :=
  (n_pc n = WNone <-> n_exited n = true) /\
  (n_exited n = true -> n_work n = false) /\
  (n_pc n = WRun \/ n_pc n = WClear -> n_work n = true) /\
  (n_pc n = WExit -> n_stop n = true).

(** [exit_thread_pool] has been called. *)
Definition exiting (s : pool) : bool :=
  match p_holder s with Marking _ | Waiting _ | Freeing _ | Gone => true | _ => false end.

(** The memory of node [i] has been given back. *)
Definition freed (s : pool) (i : nat) : Prop :=
  match p_holder s with Freeing k => (i < k)%nat | Gone => True | _ => False end.

Record pool_inv (s : pool) : Prop := {
  inv_nodes : Forall node_ok (p_nodes s);
  inv_jobs : p_accepted s ≡ₚ p_executed s ++ p_dropped s ++ pending s;
  inv_nostop : exiting s = false ->
    Forall (fun n => n_stop n = false) (p_nodes s) /\ p_dropped s = []
}.

(** While [exit_thread_pool] waits for node [i], the nodes before it have
    exited; from the first free on, all have. *)
Definition wait_inv (s : pool) : Prop :=
  match p_holder s with
  | Waiting i => Forall (fun n => n_exited n = true) (take i (p_nodes s))
  | Freeing _ | Gone => Forall (fun n => n_exited n = true) (p_nodes s)
  | _ => True
  end.

(** Replacing one node replaces its pending job. *)
Lemma pending_insert nodes i n n' :
  nodes !! i = Some n ->
  exists a b, concat (map node_pending nodes) = a ++ node_pending n ++ b /\
    concat (map node_pending (<[i := n']> nodes)) = a ++ node_pending n' ++ b.
Proof.
  intros (l1 & l2 & -> & ->)%list_elem_of_split_length.
  exists (concat (map node_pending l1)), (concat (map node_pending l2)).
  rewrite insert_middle, !map_app, !concat_app. done.
Qed.

Lemma Forall_insert_ok {A} (P : A -> Prop) l i n : Forall P l -> P n -> Forall P (<[i := n]> l).
Proof. intros. by apply Forall_insert. Qed.

(** Moving the pending job of a node elsewhere. *)
Lemma perm_move {A} (acc ex dr a x b : list A) :
  acc ≡ₚ ex ++ dr ++ a ++ x ++ b ->
  acc ≡ₚ (ex ++ x) ++ dr ++ a ++ [] ++ b /\ acc ≡ₚ ex ++ (dr ++ x) ++ a ++ [] ++ b.
Proof.
  intros H. rewrite (Permutation_app_swap_app a x b) in H.
  split; rewrite H, <- !app_assoc; [|done].
  apply Permutation_app_head. by rewrite (Permutation_app_swap_app dr x).
Qed.

Lemma perm_add {A} (acc ex dr a x b : list A) :
  acc ≡ₚ ex ++ dr ++ a ++ [] ++ b -> acc ++ x ≡ₚ ex ++ dr ++ a ++ x ++ b.
Proof.
  intros ->. rewrite (Permutation_app_comm _ x), (Permutation_app_swap_app a x b).
  rewrite (Permutation_app_swap_app dr x), (Permutation_app_swap_app ex x). done.
Qed.

Lemma node_ok_exited n : node_ok n -> n_exited n = true -> node_pending n = [].
Proof.
  intros (_ & H & _) He. unfold node_pending. rewrite (H He). by destruct (n_pc n).
Qed.

Lemma node_ok_idle n : n_work n = false -> node_pending n = [].
Proof. intros H. unfold node_pending. rewrite H. by destruct (n_pc n). Qed.

Lemma worker_step_inv s i s' : pool_inv s -> worker_step s i = Some s' -> pool_inv s'.
Proof.
  intros [Hn Hj Hs]. unfold worker_step.
  destruct (p_nodes s !! i) as [n|] eqn:E; [|done]. cbn [mbind option_bind].
  pose proof (Forall_lookup_1 _ _ _ _ Hn E) as (N1 & N2 & N3 & N4).
  assert (forall n', n_stop n' = n_stop n \/ n_stop n' = false ->
    exiting s = false -> Forall (fun n => n_stop n = false) (<[i := n']> (p_nodes s))) as Hstop.
  { intros n' Hst He. destruct (Hs He) as [Hf _]. apply Forall_insert_ok; [done|].
    destruct Hst as [->|]; [by apply (Forall_lookup_1 _ _ _ _ Hf E)|done]. }
  destruct (n_pc n) eqn:Epc; [done|..]; intros [= <-];
    unfold set_node; cbn [p_nodes p_holder p_accepted p_executed p_dropped p_ret];
    match goal with |- context [<[i := ?m]> (p_nodes s)] => set (n' := m) end;
    destruct (pending_insert (p_nodes s) i n n' E) as (a & b & Ea & Eb);
    unfold pending in Hj; rewrite Ea in Hj.
  - split; [apply Forall_insert_ok; [done|]|unfold pending; cbn; rewrite Eb|].
    + unfold n', node_ok in *; cbn. destruct (n_stop n), (n_exited n); intuition congruence.
    + unfold node_pending at 1 in Hj. rewrite Epc in Hj. unfold n', node_pending; cbn.
      by destruct (n_stop n).
    + intros He. split; [by apply Hstop; [left|]|by apply Hs].
  - split; [apply Forall_insert_ok; [done|]|unfold pending; cbn; rewrite Eb|].
    + unfold n', node_ok in *; cbn. destruct (n_work n), (n_exited n); intuition congruence.
    + unfold node_pending at 1 in Hj. rewrite Epc in Hj. unfold n', node_pending; cbn.
      by destruct (n_work n).
    + intros He. split; [by apply Hstop; [left|]|by apply Hs].
  - split; [apply Forall_insert_ok; [done|]|unfold pending; cbn; rewrite Eb|].
    + unfold n', node_ok in *; cbn. destruct (n_exited n); intuition congruence.
    + unfold node_pending at 1 in Hj. rewrite Epc, (N3 (or_introl eq_refl)) in Hj.
      apply perm_move in Hj as [Hj _]. exact Hj.
    + intros He. split; [by apply Hstop; [left|]|by apply Hs].
  - split; [apply Forall_insert_ok; [done|]|unfold pending; cbn; rewrite Eb|].
    + unfold n', node_ok in *; cbn. destruct (n_exited n); intuition congruence.
    + unfold node_pending at 1 in Hj. rewrite Epc in Hj. exact Hj.
    + intros He. split; [by apply Hstop; [left|]|by apply Hs].
  - split; [apply Forall_insert_ok; [done|]|unfold pending; cbn; rewrite Eb|].
    + unfold n', node_ok; cbn. intuition congruence.
    + unfold node_pending at 1 in Hj. rewrite Epc in Hj.
      apply perm_move in Hj as [_ Hj]. exact Hj.
    + intros He. destruct (Hs He) as [Hf _].
      pose proof (Forall_lookup_1 _ _ _ _ Hf E) as Hst. cbn in Hst.
      by rewrite (N4 eq_refl) in Hst.
Qed.

Lemma add_step_inv s c s' : pool_inv s -> add_step s c = Some s' -> pool_inv s'.
Proof.
  intros [Hn Hj Hs]. unfold add_step. destruct (p_holder s) as [|work i| | | |] eqn:Eh; try done.
  assert (exiting s = false) as He by (unfold exiting; by rewrite Eh).
  destruct (Hs He) as [Hf Hd].
  destruct (p_nodes s !! i) as [n|] eqn:E.
  - pose proof (Forall_lookup_1 _ _ _ _ Hn E) as Ok.
    pose proof (Forall_lookup_1 _ _ _ _ Hf E) as Hst. cbn in Hst.
    assert (forall n', node_ok n' -> n_stop n' = false -> node_pending n = [] ->
      node_pending n' = opt_list work ->
      pool_inv (finish_add s (<[i := n']> (p_nodes s)) work 0)) as Hput.
    { intros n' Ok' Hst' Hp Hp'. split; [by apply Forall_insert_ok| |intros _; split; [by apply Forall_insert_ok|done]].
      destruct (pending_insert (p_nodes s) i n n' E) as (a & b & Ea & Eb).
      unfold pending in *. cbn. rewrite Ea, Hp in Hj. rewrite Eb, Hp'. by apply perm_add. }
    destruct (n_exited n) eqn:Ee.
    + pose proof (node_ok_exited n Ok Ee) as Hp. destruct c; intros [= <-].
      * apply Hput; [|done..]. unfold node_ok, started; cbn. intuition congruence.
      * split; [apply Forall_insert_ok; [done|]| |intros _; split; [by apply Forall_insert_ok|done]].
        -- destruct Ok as (O1 & _). unfold node_ok; cbn. intuition congruence.
        -- destruct (pending_insert (p_nodes s) i n (set_zero_work_thread_params n) E) as (a & b & Ea & Eb).
           unfold pending in *. cbn. rewrite Ea, Hp in Hj. rewrite Eb, node_ok_idle, app_nil_r by done. done.
    + destruct (n_work n) eqn:Ew; cbn [negb]; intros [= <-].
      * split; [done|done|]. by intros _.
      * apply Hput; [|done|by apply node_ok_idle|].
        -- destruct Ok as (O1 & O2 & O3 & O4). unfold node_ok; cbn. intuition congruence.
        -- destruct Ok as (_ & _ & O3 & _). unfold node_pending; cbn.
           destruct (n_pc n); try done. specialize (O3 (or_intror eq_refl)). congruence.
  - assert (forall n' x, node_ok n' -> n_stop n' = false -> node_pending n' = x ->
      forall ret, (if ret =? 0 then opt_list work else []) = x ->
      pool_inv (finish_add s (p_nodes s ++ [n']) work ret)) as Hgrow.
    { intros n' x Ok' Hst' Hp ret Hx. split.
      - apply Forall_app. split; [done|by constructor].
      - unfold pending in *. cbn. rewrite Hx, map_app, concat_app. cbn. rewrite Hp, app_nil_r.
        rewrite Hj, <- !app_assoc. done.
      - intros _. split; [apply Forall_app; split; [done|by constructor]|done]. }
    destruct c; intros [= <-]; eapply Hgrow; try done; unfold node_ok; cbn; intuition congruence.
Qed.

Lemma worker_step_wait s i s' : wait_inv s -> pool_inv s -> worker_step s i = Some s' -> wait_inv s'.
Proof.
  intros Hw Hi. unfold worker_step. destruct (p_nodes s !! i) as [n|] eqn:E; [|done].
  cbn [mbind option_bind].
  assert (forall n', (n_exited n = true -> n_exited n' = true) ->
    match p_holder s with
    | Waiting k => Forall (fun n => n_exited n = true) (take k (<[i := n']> (p_nodes s)))
    | Freeing _ | Gone => Forall (fun n => n_exited n = true) (<[i := n']> (p_nodes s))
    | _ => True
    end) as Hk.
  { intros n' Hn'. unfold wait_inv in Hw. destruct (p_holder s) as [| | |k|k|]; try done;
      [rewrite take_insert; case_decide as Hd; [|done]|..];
      (apply Forall_insert; [done|]); apply Hn'; refine (Forall_lookup_1 _ _ i _ Hw _);
      [by rewrite lookup_take_lt|done..]. }
  destruct (n_pc n) eqn:Epc; [done|..]; intros [= <-]; unfold wait_inv, set_node; cbn; by apply Hk.
Qed.

Lemma exit_step_inv s s' :
  pool_inv s -> wait_inv s -> exit_step s = Some s' -> pool_inv s' /\ wait_inv s'.
Proof.
  intros Hinv Hw. pose proof Hinv as [Hn Hj Hs]. unfold exit_step.
  unfold wait_inv in Hw. destruct (p_holder s) as [| |i|i|i|] eqn:Eh; try done;
    destruct (p_nodes s !! i) as [n|] eqn:E; intros [= <-].
  - split; [|done]. pose proof (Forall_lookup_1 _ _ _ _ Hn E) as Ok.
    split; [|unfold pending; cbn|done].
    + apply Forall_insert_ok; [done|]. unfold node_ok in *; cbn. intuition congruence.
    + match goal with |- context [<[i := ?m]> (p_nodes s)] =>
        destruct (pending_insert (p_nodes s) i n m E) as (a & b & Ea & Eb) end.
      rewrite Eb. unfold pending in Hj. rewrite Ea in Hj. exact Hj.
  - split; [by split|]. unfold wait_inv. cbn. by rewrite take_0.
  - split; [split; [done|done|]|].
    + unfold exiting. cbn. by destruct (n_exited n).
    + unfold wait_inv. cbn. destruct (n_exited n) eqn:En; [|done].
      rewrite (take_S_r _ _ _ E). apply Forall_app. split; [done|by constructor].
  - apply lookup_ge_None in E. rewrite firstn_all2 in Hw by done. by split.
  - by split.
  - by split.
Qed.

(** Nodes that have exited hold no job. *)
Lemma exited_none_pending nodes :
  Forall node_ok nodes -> Forall (fun n => n_exited n = true) nodes ->
  concat (map node_pending nodes) = [].
Proof.
  intros Hn Hw. induction Hw as [|n l H _ IH]; [done|]. inversion Hn; subst. cbn.
  by rewrite node_ok_exited, IH.
Qed.

Lemma pool_step_inv l s s' :
  pool_inv s -> wait_inv s -> pool_step l s = Some s' -> pool_inv s' /\ wait_inv s'.
Proof.
  intros Hi Hw. destruct l as [i|work|c| |]; cbn [pool_step].
  - intros H. split; [by eapply worker_step_inv|by eapply worker_step_wait].
  - unfold take_lock. destruct (p_holder s) eqn:E; [|done..]. intros [= <-].
    destruct Hi as [H1 H2 H3]. split; [split; [done|done|]|done].
    intros _. apply H3. unfold exiting. by rewrite E.
  - intros H. split; [by eapply add_step_inv|].
    unfold add_step in H. destruct (p_holder s); try done.
    repeat case_match; simplify_eq; done.
  - unfold take_lock. destruct (p_holder s) eqn:E; [|done..]. intros [= <-].
    destruct Hi as [H1 H2 H3]. by split; [split|].
  - by apply exit_step_inv.
Qed.

Lemma reachable_pool_inv s : reachable s -> pool_inv s /\ wait_inv s.
Proof.
  unfold reachable. intros H.
  assert (pool_inv init_thread_pool /\ wait_inv init_thread_pool) as H0.
  { split; [|done]. split; [|done|].
    - repeat constructor; cbn; intuition congruence.
    - intros _. split; [repeat constructor|done]. }
  revert H0. induction H as [|s1 s2 s3 [l E] _ IH]; [done|].
  intros [Hi Hw]. apply IH. by eapply pool_step_inv.
Qed.

(** C37: in every interleaving of the workers, of calls of [add_work] and of
    [exit_thread_pool], no job is lost or run twice: the jobs accepted so far
    are exactly the jobs run, the jobs still waiting in a node, and the jobs
    dropped by workers stopped at the exit; before the exit none is dropped,
    and after it none is waiting.  When a node is freed its worker has ended and
    takes no step again, so no worker touches freed memory; after the exit
    every node is freed and no worker is left. *)
Theorem jobs_run_exactly_once s :
  reachable s ->
  p_accepted s ≡ₚ p_executed s ++ p_dropped s ++ pending s /\
  (exiting s = false -> p_dropped s = []) /\
  (forall i n, p_nodes s !! i = Some n -> freed s i -> n_pc n = WNone /\ worker_step s i = None) /\
  (p_holder s = Gone -> pending s = [] /\ Forall (fun n => n_pc n = WNone) (p_nodes s)).
Proof.
  intros [[Hn Hj Hs] Hw]%reachable_pool_inv. unfold wait_inv in Hw.
  assert (forall n, node_ok n -> n_exited n = true -> n_pc n = WNone) as Hend.
  { intros n [O _]. apply O. }
  split_and!; [done|intros He; by apply Hs|..].
  - intros i n E Hf. pose proof (Forall_lookup_1 _ _ _ _ Hn E) as Ok.
    assert (n_pc n = WNone) as Hpc.
    { unfold freed in Hf. destruct (p_holder s); try done;
        apply Hend; try done; by apply (Forall_lookup_1 _ _ _ _ Hw E). }
    split; [done|]. unfold worker_step. rewrite E. cbn. by rewrite Hpc.
  - intros Hg. rewrite Hg in Hw. split; [by apply exited_none_pending|].
    apply Forall_lookup. intros i n E.
    apply Hend; [by apply (Forall_lookup_1 _ _ _ _ Hn E)|by apply (Forall_lookup_1 _ _ _ _ Hw E)].
Qed.

(** [k] steps of worker [i]. *)
Fixpoint worker_run (k i : nat) (s : pool) : option pool :=
  match k with O => Some s | S k => s ← worker_step s i; worker_run k i s end.

Lemma worker_top s i n :
  p_nodes s !! i = Some n -> n_pc n = WTop -> n_stop n = false ->
  worker_step s i = Some (set_node s i (mkNode false (n_work n) (n_exited n) (n_handle n) WReadWork)).
Proof. intros E P S. unfold worker_step. rewrite E. cbn. by rewrite P, S. Qed.

Lemma worker_read s i n :
  p_nodes s !! i = Some n -> n_pc n = WReadWork -> n_work n = true ->
  worker_step s i = Some (set_node s i (mkNode (n_stop n) true (n_exited n) (n_handle n) WRun)).
Proof. intros E P S. unfold worker_step. rewrite E. cbn. by rewrite P, S. Qed.

Lemma worker_call s i n j :
  p_nodes s !! i = Some n -> n_pc n = WRun -> n_handle n = Some j ->
  exists s', worker_step s i = Some s' /\ p_executed s' = p_executed s ++ [j].
Proof.
  intros E P S. unfold worker_step. rewrite E. cbn. rewrite P. eexists. split; [done|].
  cbn. by rewrite S.
Qed.

Lemma set_node_lookup s i n n' :
  p_nodes s !! i = Some n -> p_nodes (set_node s i n') !! i = Some n'.
Proof. intros E. cbn. apply list_lookup_insert_eq. by eapply lookup_lt_Some. Qed.

(** Before the exit, a job waiting in a node is run by the node's own
    worker within three of its steps. *)
Theorem pending_job_runs s i n j :
  reachable s -> exiting s = false -> p_nodes s !! i = Some n -> node_pending n = [j] ->
  exists k s', (k <= 3)%nat /\ worker_run k i s = Some s' /\ p_executed s' = p_executed s ++ [j].
Proof.
  intros [[Hn Hj Hs] _]%reachable_pool_inv He E Hp.
  pose proof (Forall_lookup_1 _ _ _ _ Hn E) as (N1 & N2 & N3 & N4).
  destruct (Hs He) as [Hf _]. pose proof (Forall_lookup_1 _ _ _ _ Hf E) as Hst. cbn in Hst.
  pose proof (lookup_lt_Some _ _ _ E) as Hl.
  unfold node_pending in Hp.
  assert (n_pc n <> WClear /\ n_work n = true /\ n_handle n = Some j) as (Hc & Hw & Hh).
  { destruct (n_pc n), (n_work n), (n_handle n); cbn in Hp; try done; by injection Hp as ->. }
  destruct (n_pc n) eqn:Epc; try done.
  - by rewrite (N2 (proj1 N1 eq_refl)) in Hw.
  - set (n1 := mkNode false (n_work n) (n_exited n) (n_handle n) WReadWork).
    set (n2 := mkNode false true (n_exited n) (n_handle n) WRun).
    pose proof (worker_top s i n E Epc Hst : worker_step s i = Some (set_node s i n1)) as S1.
    pose proof (set_node_lookup s i n n1 E) as E1.
    pose proof (worker_read _ i n1 E1 eq_refl Hw : worker_step _ i = Some (set_node _ i n2)) as S2.
    destruct (worker_call _ i n2 j (set_node_lookup _ i n1 n2 E1) eq_refl Hh) as (s' & S3 & Hx).
    exists 3%nat, s'. cbn [worker_run]. rewrite S1. cbn [mbind option_bind]. rewrite S2.
    cbn [mbind option_bind]. rewrite S3. split; [lia|]. by split.
  - set (n2 := mkNode (n_stop n) true (n_exited n) (n_handle n) WRun).
    pose proof (worker_read s i n E Epc Hw : worker_step s i = Some (set_node s i n2)) as S2.
    destruct (worker_call _ i n2 j (set_node_lookup s i n n2 E) eq_refl Hh) as (s' & S3 & Hx).
    exists 2%nat, s'. cbn [worker_run]. rewrite S2. cbn [mbind option_bind]. rewrite S3.
    split; [lia|]. by split.
  - destruct (worker_call s i n j E Epc Hh) as (s' & S3 & Hx).
    exists 1%nat, s'. cbn [worker_run]. rewrite S3. split; [lia|]. by split.
  - by rewrite (N4 eq_refl) in Hst.
Qed.

(** ** A whole call of [add_work] *)

(** The first node that is idle or has no thread. *)
Definition usable (n : node) : bool := n_exited n || negb (n_work n).

Lemma add_run_spec nodes : forall pre s fuel work created,
  p_nodes s = pre ++ nodes -> p_holder s = Adding work (length pre) ->
  Forall (fun n => usable n = false) pre -> (length nodes < fuel)%nat ->
  exists s', add_run fuel s created = Some s' /\ p_holder s' = Free /\
    p_executed s' = p_executed s /\ p_dropped s' = p_dropped s /\
    (created = true -> p_ret s' = 0 /\ p_accepted s' = p_accepted s ++ opt_list work) /\
    length (p_nodes s') =
      (length (p_nodes s) + (if existsb usable nodes then 0 else 1))%nat.
Proof.
  induction nodes as [|n nodes IH]; intros pre s fuel work created Hn Hh Hp Hf;
    (destruct fuel as [|fuel]; [cbn in Hf; lia|]); cbn [add_run]; rewrite Hh; unfold add_step;
    rewrite Hh, Hn.
  - rewrite app_nil_r in *. rewrite lookup_ge_None_2 by lia.
    destruct created; cbn [mbind option_bind]; eexists;
      (split; [destruct fuel; reflexivity|]); cbn; rewrite length_app; by split_and!.
  - rewrite list_lookup_middle by done. cbn [existsb].
    destruct (n_exited n) eqn:Ee.
    + replace (usable n) with true by (unfold usable; by rewrite Ee). cbn [orb]. destruct created; cbn [mbind option_bind]; eexists;
        (split; [destruct fuel; reflexivity|]); cbn; rewrite length_insert; split_and!; try done; lia.
    + destruct (n_work n) eqn:Ew; cbn [negb].
      * replace (usable n) with false by (unfold usable; by rewrite Ee, Ew).
        cbn [mbind option_bind orb].
        destruct (IH (pre ++ [n])
          (mkPool (pre ++ n :: nodes) (Adding work (S (length pre))) (p_accepted s) (p_executed s)
             (p_dropped s) (p_ret s)) fuel work created) as (s' & H1 & H2 & H3 & H4 & H5 & H6);
          cbn in *; [by rewrite <- app_assoc|rewrite length_app; cbn; f_equal; lia
          |apply Forall_app; split; [done|constructor; [unfold usable; by rewrite Ee, Ew|done]]|lia|].
        exists s'. by split_and!.
      * replace (usable n) with true by (unfold usable; by rewrite Ee, Ew).
        cbn [mbind option_bind orb]. eexists.
        (split; [destruct fuel; reflexivity|]); cbn; rewrite length_insert; split_and!; try done; lia.
Qed.

(** [add_work] on a free pool always returns; when threads can be
    created it returns 0 and has handed the job over, and it adds a node only
    when no existing node is idle. *)
Theorem add_work_completes s work created :
  p_holder s = Free ->
  exists s', add_work s work created = Some s' /\ p_holder s' = Free /\
    (created = true -> p_ret s' = 0 /\ p_accepted s' = p_accepted s ++ opt_list work) /\
    length (p_nodes s') = (length (p_nodes s) + (if existsb usable (p_nodes s) then 0 else 1))%nat.
Proof.
  intros Hh. unfold add_work, take_lock. rewrite Hh. cbn [mbind option_bind].
  destruct (add_run_spec (p_nodes s) []
    (mkPool (p_nodes s) (Adding work 0) (p_accepted s) (p_executed s) (p_dropped s) (p_ret s))
    (S (length (p_nodes s))) work created) as (s' & H1 & H2 & _ & _ & H3 & H4); try done; [cbn; lia|].
  exists s'. by split_and!.
Qed.

End Pool.

(** ** Witnesses: two jobs handed over, one run *)

Definition demo_labels : list (label (J:=nat)) :=
  [LAddCall (Some 1%nat); LAdd true; LAddCall (Some 2%nat); LAdd true; LAdd true;
   LWorker 0; LWorker 0; LWorker 0].

Fixpoint run_labels (ls : list (label (J:=nat))) (s : pool (J:=nat)) : option (pool (J:=nat)) :=
  match ls with [] => Some s | l :: ls => s ← pool_step l s; run_labels ls s end.

Lemma run_labels_reachable ls s s' : reachable s -> run_labels ls s = Some s' -> reachable s'.
Proof.
  revert s. induction ls as [|l ls IH]; intros s Hs; cbn; [by intros [= <-]|].
  destruct (pool_step l s) as [s1|] eqn:E; [|done]. cbn. apply IH.
  eapply rtc_r; [exact Hs|]. by exists l.
Qed.

Definition demo_pool : pool (J:=nat) := default init_thread_pool (run_labels demo_labels init_thread_pool).

Lemma demo_reachable : reachable demo_pool.
Proof. apply (run_labels_reachable demo_labels init_thread_pool); [apply rtc_refl|reflexivity]. Qed.

(** The pool after an exit with one job run and one dropped: six nodes marked
    and waited for, the two workers ending in between, six nodes freed. *)
Definition exit_labels : list (label (J:=nat)) :=
  demo_labels ++ [LExitCall] ++ replicate 7 LExit ++ [LWorker 0; LWorker 0; LWorker 0] ++
  [LWorker 1; LWorker 1] ++ replicate 14 LExit.

Definition exit_pool : pool (J:=nat) := default init_thread_pool (run_labels exit_labels init_thread_pool).

Lemma exit_reachable : reachable exit_pool.
Proof. apply (run_labels_reachable exit_labels init_thread_pool); [apply rtc_refl|vm_compute; reflexivity]. Qed.

Lemma jobs_run_exactly_once_witness :
  p_holder exit_pool = Gone /\ length (p_nodes exit_pool) = 6%nat /\
  p_accepted exit_pool = [1%nat; 2%nat] /\ p_executed exit_pool = [1%nat] /\
  p_accepted exit_pool ≡ₚ p_executed exit_pool ++ p_dropped exit_pool ++ pending exit_pool /\
  Forall (fun n => n_pc n = WNone) (p_nodes exit_pool) /\ worker_step exit_pool 1 = None.
Proof.
  destruct (jobs_run_exactly_once exit_pool exit_reachable) as (H1 & _ & H2 & H3).
  assert (p_holder exit_pool = Gone) as Hg by (vm_compute; reflexivity).
  split; [exact Hg|]. split; [vm_compute; reflexivity|]. split; [vm_compute; reflexivity|].
  split; [vm_compute; reflexivity|]. split; [exact H1|]. split; [exact (proj2 (H3 Hg))|].
  refine (proj2 (H2 1%nat fresh_node _ _)); [vm_compute; reflexivity|].
  unfold freed. rewrite Hg. exact I.
Defined.

Lemma pending_job_runs_witness :
  exists k s', (k <= 3)%nat /\ worker_run k 1 demo_pool = Some s' /\ p_executed s' = [1%nat; 2%nat].
Proof.
  exact (pending_job_runs demo_pool 1 (started (Some 2%nat)) 2%nat demo_reachable eq_refl eq_refl eq_refl).
Defined.

Lemma add_work_completes_witness :
  exists s', add_work demo_pool (Some 3%nat) true = Some s' /\ p_ret s' = 0.
Proof.
  destruct (add_work_completes demo_pool (Some 3%nat) true eq_refl) as (s' & H1 & _ & H2 & _).
  exists s'. split; [exact H1|exact (proj1 (H2 eq_refl))].
Defined.

End ThreadPool.
