(* ===== verification/SockProto.v ===== *)
(** * The socket protocol of the ISP tuning server
      (camera/3_4/allwinnertech/libAWIspApi/awTunningApp/tuning_app/socket_protocol.c)

    A socket is what the kernel will answer: a list of events for the receiving
    and one for the sending direction.  Blocking for ever is [None]; the loops
    are bounded by the byte count, since every turn moves at least one byte.
    The packet is 40 bytes (ISP versions other than 522). *)

From stdpp Require Import base tactics option list list_numbers numbers.
From Stdlib Require Import ZArith Lia.
From S2P Require Import Prelude.

Local Open Scope Z_scope.

Module SockProto.

(** ** Sockets *)

Definition EINTR : Z := 4.
Definition EAGAIN : Z := 11.
Definition ENOTCONN : Z := 107.
Definition ETIMEDOUT : Z := 110.

(** What happens next in one direction: bytes arrive (or can be taken by the
    kernel), the peer shuts down, the time of one [select] passes, or the next
    system call fails. *)
Inductive event :=
| EvData (bs : list Z)
| EvEof
| EvTimeout
| EvErr (e : Z).

Record sock := mkSock { rx : list event; tx : list event; sent : list Z; errno : Z }.

Definition set_errno (s : sock) (e : Z) : sock := mkSock (rx s) (tx s) (sent s) e.

(** [select] on one descriptor, repeated while it fails with EINTR: the result
    of the function (0 or -1), the events left and [errno]. *)
Fixpoint select_loop (evs : list event) (err : Z) : option (Z * list event * Z) :=
  match evs with
  | [] => None
  | EvTimeout :: evs => Some (-1, evs, ETIMEDOUT)
  | EvErr e :: evs => if e =? EINTR then select_loop evs e else Some (-1, evs, e)
  | _ => Some (0, evs, err)
  end.

Definition read_timeout (s : sock) (timeout : Z) : option (Z * sock) :=
  if 0 <? timeout then
    '(r, evs, e) ← select_loop (rx s) (errno s); Some (r, mkSock evs (tx s) (sent s) e)
  else Some (0, s).

Definition write_timeout (s : sock) (timeout : Z) : option (Z * sock) :=
  if 0 <? timeout then
    '(r, evs, e) ← select_loop (tx s) (errno s); Some (r, mkSock (rx s) evs (sent s) e)
  else Some (0, s).

(** [recv] of at most [n] bytes: a stream, so what is not taken stays. *)
Fixpoint recv_events (evs : list event) (n : nat) : option (Z * list Z * list event * option Z) :=
  match evs with
  | [] => None
  | EvTimeout :: evs => recv_events evs n
  | EvErr e :: evs => Some (-1, [], evs, Some e)
  | EvEof :: _ => Some (0, [], evs, None)
  | EvData bs :: evs =>
      let got := take n bs in
      let left := drop n bs in
      Some (Z.of_nat (length got), got, match left with [] => evs | _ => EvData left :: evs end, None)
  end.

Definition recv (s : sock) (n : nat) : option (Z * list Z * sock) :=
  '(r, bs, evs, e) ← recv_events (rx s) n;
  Some (r, bs, mkSock evs (tx s) (sent s) (default (errno s) e)).

(** [send]: the kernel takes as many bytes as an [EvData] has. *)
Fixpoint send_events (evs : list event) (n : nat) : option (Z * list event * option Z) :=
  match evs with
  | [] => None
  | EvTimeout :: evs => send_events evs n
  | EvErr e :: evs => Some (-1, evs, Some e)
  | EvEof :: _ => Some (0, evs, None)
  | EvData bs :: evs =>
      let left := drop n bs in
      Some (Z.of_nat (length (take n bs)), match left with [] => evs | _ => EvData left :: evs end, None)
  end.

Definition send (s : sock) (bs : list Z) : option (Z * sock) :=
  '(r, evs, e) ← send_events (tx s) (length bs);
  Some (r, mkSock (rx s) evs (sent s ++ take (Z.to_nat r) bs) (default (errno s) e)).

(** ** Reading and writing *)

Definition BLOCK_MAX_LENGTH : Z := 4096.

(** The loop of [sock_read]; [got] are the bytes stored so far.  Every turn
    consumes at least one byte or ends. *)
Fixpoint read_loop (fuel : nat) (s : sock) (got : list Z) (len timeout : Z)
  : option (list Z * sock) :=
  if len <=? 0 then Some (got, s) else
  match fuel with
  | O => None
  | S fuel =>
      '(r, s) ← read_timeout s timeout;
      if negb (r =? 0) then Some (got, s) else
      let recv_len := if BLOCK_MAX_LENGTH <? len then BLOCK_MAX_LENGTH else len in
      '(recv_ret, bs, s) ← recv s (Z.to_nat recv_len);
      if recv_ret =? 0 then Some (got, set_errno s ENOTCONN)
      else if recv_ret <? 0 then Some (got, s)
      else read_loop fuel s (got ++ bs) (len - recv_ret) timeout
  end.

(** The bytes read; their number is the return value. *)
Definition sock_read (s : sock) (len timeout : Z) : option (list Z * sock) :=
  read_loop (Z.to_nat len) s [] len timeout.

Fixpoint write_loop (fuel : nat) (s : sock) (buf : list Z) (total timeout : Z) : option (Z * sock) :=
  if Z.of_nat (length buf) <=? 0 then Some (total, s) else
  match fuel with
  | O => None
  | S fuel =>
      '(r, s) ← write_timeout s timeout;
      if negb (r =? 0) then Some (total, s) else
      let send_len := if BLOCK_MAX_LENGTH <? Z.of_nat (length buf) then BLOCK_MAX_LENGTH
                      else Z.of_nat (length buf) in
      '(send_ret, s) ← send s (take (Z.to_nat send_len) buf);
      if send_ret <=? 0 then Some (total, s)
      else write_loop fuel s (drop (Z.to_nat send_ret) buf) (total + send_ret) timeout
  end.

Definition sock_write (s : sock) (buf : list Z) (timeout : Z) : option (Z * sock) :=
  write_loop (length buf) s buf 0 timeout.

(** [accept] after the optional wait; [accepted] is what it returns. *)
Definition socket_accept (s : sock) (timeout accepted : Z) : option (Z * sock) :=
  '(r, s) ← read_timeout s timeout;
  Some (if negb (r =? 0) then -1 else accepted, s).

(** ** Packets *)

(** "AWhw" *)
Definition SERVER_SOCK_HEAD : list Z := [65; 87; 104; 119].
Definition PACKET_SIZE : Z := 40.

(** Offsets: [head_flag] 0, [cmd_ids] 4, [ret] 12. *)
Definition head_flag (p : list Z) : list Z := take 4 p.
Definition cmd_id (p : list Z) (i : nat) : Z := p !!! (4 + i)%nat.
Definition packet_ret (p : list Z) : Z :=
  s32 ((p !!! 12%nat) * 2 ^ 24 + (p !!! 13%nat) * 2 ^ 16 + (p !!! 14%nat) * 2 ^ 8 + p !!! 15%nat).

(** [strncmp(a, b, n) == 0] on lists of at least [n] characters. *)
Fixpoint strncmp_eq (a b : list Z) (n : nat) : bool :=
  match n, a, b with
  | O, _, _ => true
  | S n, x :: a, y :: b => (x =? y) && ((x =? 0) || strncmp_eq a b n)
  | S _, _, _ => false
  end.

Definition check_sock_packet (p : list Z) (sock_cmd : Z) : Z :=
  if negb (strncmp_eq (head_flag p) SERVER_SOCK_HEAD 4) then -1
  else if negb (cmd_id p 0 =? sock_cmd) then -2
  else 0.

Definition pack_packet : list Z := SERVER_SOCK_HEAD ++ replicate 36 0.

Definition SOCK_CMD_CLOSE : Z := 14.
Definition SOCK_CMD_ACK : Z := 16.
Definition SOCK_CMD_ACK_STATUS : Z := 20.
Definition SOCK_CMD_RET_OK : Z := 1.

Inductive sock_rw_check_ret :=
| SOCK_RW_CHECK_OK | SOCK_RW_WRITE_ERROR | SOCK_RW_READ_ERROR | SOCK_RW_CHECK_ERROR
| SOCK_RW_RECV_CLOSE | SOCK_RW_RET_ERROR | SOCK_RW_TRY_AGAIN | SOCK_RW_ACK_STATUS.

Definition SHOULD_TRY_AGAIN (s : sock) : bool :=
  (errno s =? 0) || (errno s =? EAGAIN) || (errno s =? EINTR) || (errno s =? ETIMEDOUT).

(** What follows a complete read. *)
Definition check_received (s : sock) (p : list Z) (sock_cmd timeout : Z)
  : option (sock_rw_check_ret * list Z * sock) :=
  if check_sock_packet p SOCK_CMD_CLOSE =? 0 then Some (SOCK_RW_RECV_CLOSE, p, s)
  else if (check_sock_packet p SOCK_CMD_ACK =? 0) && (cmd_id p 1 =? SOCK_CMD_ACK_STATUS) then
    '(ret, s) ← sock_write s p timeout;
    if negb (ret =? PACKET_SIZE) then
      Some (if SHOULD_TRY_AGAIN s then SOCK_RW_TRY_AGAIN else SOCK_RW_WRITE_ERROR, p, s)
    else Some (SOCK_RW_ACK_STATUS, p, s)
  else if check_sock_packet p sock_cmd <? 0 then Some (SOCK_RW_CHECK_ERROR, p, s)
  else if negb (packet_ret p =? SOCK_CMD_RET_OK) then Some (SOCK_RW_RET_ERROR, p, s)
  else Some (SOCK_RW_CHECK_OK, p, s).

(** The result, the packet and the socket. *)
Definition sock_read_check_packet (s : sock) (sock_cmd timeout : Z)
  : option (sock_rw_check_ret * list Z * sock) :=
  '(bs, s) ← sock_read s PACKET_SIZE timeout;
  let p := write_at (replicate 40 0) 0 bs in
  if negb (Z.of_nat (length bs) =? PACKET_SIZE) then
    Some (if SHOULD_TRY_AGAIN s then SOCK_RW_TRY_AGAIN else SOCK_RW_READ_ERROR, p, s)
  else check_received s p sock_cmd timeout.

Definition sock_write_check_packet (s : sock) (p : list Z) (sock_cmd timeout : Z)
  : option (sock_rw_check_ret * list Z * sock) :=
  '(ret, s) ← sock_write s p timeout;
  if negb (ret =? PACKET_SIZE) then
    Some (if SHOULD_TRY_AGAIN s then SOCK_RW_TRY_AGAIN else SOCK_RW_WRITE_ERROR, p, s)
  else sock_read_check_packet s sock_cmd timeout.

(** ** Streams *)

(** The bytes of the data events, in order. *)
Fixpoint stream (evs : list event) : list Z :=
  match evs with
  | [] => []
  | EvData bs :: evs => bs ++ stream evs
  | _ :: evs => stream evs
  end.

(** Data events carry at least one byte. *)
Definition ev_ok (e : event) : Prop := match e with EvData bs => bs <> [] | _ => True end.
Definition ev_data (e : event) : Prop := match e with EvData bs => bs <> [] | _ => False end.

Lemma select_loop_stream evs err r evs' e :
  select_loop evs err = Some (r, evs', e) ->
  stream evs' = stream evs /\ (Forall ev_ok evs -> Forall ev_ok evs').
Proof.
  revert err. induction evs as [|ev evs IH]; intros err; cbn; [done|].
  assert (forall x, Forall ev_ok (x :: evs) -> Forall ev_ok evs) as Ht
    by (intros x H; by inversion H).
  destruct ev; try (intros [= <- <- <-]; eauto; done).
  case_match; [intros Hq; apply IH in Hq as [Hq1 Hq2]; eauto|intros [= <- <- <-]; eauto].
Qed.

Lemma read_timeout_stream s timeout r s' :
  read_timeout s timeout = Some (r, s') ->
  stream (rx s') = stream (rx s) /\ (Forall ev_ok (rx s) -> Forall ev_ok (rx s')) /\
  tx s' = tx s /\ sent s' = sent s.
Proof.
  unfold read_timeout. case_match; [|by intros [= <- <-]].
  destruct (select_loop _ _) as [[[r0 evs] e]|] eqn:E; [|done]. cbn.
  intros [= <- <-]. apply select_loop_stream in E as [H1 H2]. done.
Qed.

Lemma write_timeout_stream s timeout r s' :
  write_timeout s timeout = Some (r, s') ->
  (Forall ev_ok (tx s) -> Forall ev_ok (tx s')) /\ rx s' = rx s /\ sent s' = sent s.
Proof.
  unfold write_timeout. case_match; [|by intros [= <- <-]].
  destruct (select_loop _ _) as [[[r0 evs] e]|] eqn:E; [|done]. cbn.
  intros [= <- <-]. apply select_loop_stream in E as [H1 H2]. done.
Qed.

Lemma left_events (bs : list Z) n evs :
  Forall ev_ok evs ->
  stream (match drop n bs with [] => evs | _ => EvData (drop n bs) :: evs end) = drop n bs ++ stream evs /\
  Forall ev_ok (match drop n bs with [] => evs | _ => EvData (drop n bs) :: evs end).
Proof. intros H. destruct (drop n bs) eqn:E; [done|]. split; [done|]. by constructor. Qed.

Lemma recv_stream s n r bs s' :
  (0 < n)%nat -> Forall ev_ok (rx s) -> recv s n = Some (r, bs, s') ->
  stream (rx s) = bs ++ stream (rx s') /\ Forall ev_ok (rx s') /\ tx s' = tx s /\
  sent s' = sent s /\ (length bs <= n)%nat /\ (0 < r -> r = Z.of_nat (length bs)) /\
  (r <= 0 -> bs = []).
Proof.
  unfold recv. intros Hn Hok. destruct (recv_events (rx s) n) as [[[[r0 bs0] evs] e]|] eqn:E; [|done].
  cbn. intros [= <- <- <-]. cbn [rx tx sent]. revert E.
  induction Hok as [|ev l Hev Hok IH]; cbn; [done|].
  destruct ev as [d| | |er].
  - intros [= <- <- <- <-]. destruct (left_events d n l Hok) as [-> HF].
    rewrite app_assoc, take_drop. split_and!; try done.
    + rewrite length_take. lia.
    + intros Hz. cbn in Hev. rewrite length_take in Hz.
      destruct d; [done|]. cbn [length] in Hz. lia.
  - intros [= <- <- <- <-]. split_and!; try done; [by constructor|cbn; lia].
  - intros E. by apply IH in E.
  - intros [= <- <- <- <-]. split_and!; try done. cbn; lia.
Qed.

Lemma send_stream s bs r s' :
  (0 < length bs)%nat -> Forall ev_ok (tx s) -> send s bs = Some (r, s') ->
  Forall ev_ok (tx s') /\ rx s' = rx s /\ r <= Z.of_nat (length bs) /\
  sent s' = sent s ++ take (Z.to_nat r) bs.
Proof.
  unfold send. intros Hn Hok. destruct (send_events (tx s) (length bs)) as [[[r0 evs] e]|] eqn:E; [|done].
  cbn. intros [= <- <-]. cbn [rx tx sent]. revert E.
  induction Hok as [|ev l Hev Hok IH]; cbn; [done|].
  destruct ev as [d| | |er].
  - intros [= <- <- <-]. destruct (left_events d (length bs) l Hok) as [_ HF].
    split_and!; try done. rewrite length_take. lia.
  - intros [= <- <- <-]. split_and!; try done; [by constructor|lia].
  - intros E. by apply IH in E.
  - intros [= <- <- <-]. split_and!; try done. lia.
Qed.

(** The loop of [sock_read] only moves bytes from the stream to the buffer. *)
Lemma read_loop_stream fuel s got len timeout got' s' :
  Forall ev_ok (rx s) -> read_loop fuel s got len timeout = Some (got', s') ->
  exists new, got' = got ++ new /\ stream (rx s) = new ++ stream (rx s') /\
    Z.of_nat (length new) <= Z.max len 0 /\ Forall ev_ok (rx s') /\ tx s' = tx s /\ sent s' = sent s.
Proof.
  revert s got len. induction fuel as [|fuel IH]; intros s got len Hok; cbn [read_loop];
    destruct (Z.leb_spec len 0) as [Hl|Hl];
    try (intros [= <- <-]; exists []; rewrite app_nil_r; split_and!; try done; cbn; lia).
  destruct (read_timeout s timeout) as [[r s1]|] eqn:E1; [|done]. cbn [mbind option_bind].
  apply read_timeout_stream in E1 as (S1 & O1 & T1 & N1).
  case_match; [intros [= <- <-]; exists []; rewrite app_nil_r; split_and!; try done; [cbn; lia|by apply O1]|].
  set (n := Z.to_nat _).
  assert ((0 < n)%nat /\ Z.of_nat n <= len) as Hn.
  { unfold n, BLOCK_MAX_LENGTH. destruct (Z.ltb_spec 4096 len); lia. }
  destruct (recv s1 n) as [[[rr bs] s2]|] eqn:E2; [|done]. cbn [mbind option_bind].
  apply recv_stream in E2 as (S2 & O2 & T2 & N2 & L2 & P2 & Z2); [|lia|by apply O1].
  destruct (Z.eqb_spec rr 0) as [H0|H0]; [|destruct (Z.ltb_spec rr 0) as [H1|H1]].
  - intros [= <- <-]. rewrite (Z2 ltac:(lia)) in S2. cbn in S2. exists []. rewrite app_nil_r.
    split_and!; try done; [cbn; congruence|cbn; lia|cbn; congruence|cbn; congruence].
  - intros [= <- <-]. rewrite (Z2 ltac:(lia)) in S2. cbn in S2. exists []. rewrite app_nil_r.
    split_and!; try done; [cbn; congruence|cbn; lia|cbn; congruence|cbn; congruence].
  - intros Hx. apply IH in Hx as (new & -> & S3 & L3 & O3 & T3 & N3); [|done].
    exists (bs ++ new). rewrite <- !app_assoc, length_app. pose proof (P2 ltac:(lia)).
    split_and!; try done; [congruence|lia|congruence|congruence].
Qed.

(** A stream of data events gives all the bytes asked for. *)
Lemma read_loop_complete fuel s got len timeout :
  Forall ev_data (rx s) -> len <= Z.of_nat (length (stream (rx s))) -> len <= Z.of_nat fuel ->
  exists s', read_loop fuel s got len timeout = Some (got ++ take (Z.to_nat len) (stream (rx s)), s') /\
    Forall ev_data (rx s') /\ stream (rx s') = drop (Z.to_nat len) (stream (rx s)) /\
    errno s' = errno s /\ tx s' = tx s /\ sent s' = sent s.
Proof.
  revert s got len. induction fuel as [|fuel IH]; intros s got len Hd Hs Hf; cbn [read_loop];
    destruct (Z.leb_spec len 0) as [Hl|Hl];
    try (exists s; replace (Z.to_nat len) with 0%nat by lia; rewrite take_0, app_nil_r, drop_0;
         by split_and!); [lia|].
  assert (exists d l, rx s = EvData d :: l /\ d <> [] /\ Forall ev_data l) as (d & l & Erx & Hdd & Hl').
  { destruct (rx s) as [|ev l]; [cbn in Hs; lia|]. inversion Hd as [|? ? Hev Hl']; subst.
    destruct ev as [d| | |]; try done. by exists d, l. }
  assert (read_timeout s timeout = Some (0, s)) as ->.
  { unfold read_timeout. case_match; [|done]. rewrite Erx. cbn. rewrite <- Erx. by destruct s. }
  cbn [mbind option_bind]. change (negb (0 =? 0)) with false. cbv iota.
  set (n := Z.to_nat (if BLOCK_MAX_LENGTH <? len then BLOCK_MAX_LENGTH else len)).
  assert ((0 < n)%nat /\ Z.of_nat n <= len) as Hn.
  { unfold n, BLOCK_MAX_LENGTH. destruct (Z.ltb_spec 4096 len); lia. }
  unfold recv. rewrite Erx. cbn [recv_events mbind option_bind default].
  set (evs := match drop n d with [] => l | _ => EvData (drop n d) :: l end).
  assert (Forall ev_data evs /\ stream evs = drop n d ++ stream l) as [He Hse].
  { unfold evs. destruct (drop n d) eqn:Edr; [done|]. split; [by constructor|done]. }
  assert (0 < length (take n d) <= n)%nat as Ht.
  { rewrite length_take. destruct d; [done|]. cbn [length]. lia. }
  rewrite (proj2 (Z.eqb_neq _ _)), (proj2 (Z.ltb_ge _ _)) by lia.
  cbn [stream] in *. rewrite Erx in Hs. cbn [stream] in Hs. rewrite length_app in Hs.
  destruct (IH (mkSock evs (tx s) (sent s) (errno s)) (got ++ take n d) (len - Z.of_nat (length (take n d))) )
    as (s' & E & Hd' & Hst & Her & Htx & Hse'); cbn [rx errno tx sent] in *; [done| |lia|].
  { rewrite Hse, length_app, length_drop. rewrite length_take. lia. }
  exists s'. rewrite E, Hse in *. cbn [stream].
  assert (d ++ stream l = take n d ++ (drop n d ++ stream l)) as Hall by (by rewrite app_assoc, take_drop).
  rewrite Hall. split_and!; try done.
  - rewrite <- app_assoc, (take_app_ge (take n d)) by lia. do 5 f_equal. lia.
  - rewrite Hst, (drop_app_ge (take n d)) by lia. f_equal. lia.
Qed.

(** The loop of [sock_write] sends a prefix of the buffer and counts it. *)
Lemma write_loop_prefix fuel s buf total timeout ret s' :
  Forall ev_ok (tx s) -> write_loop fuel s buf total timeout = Some (ret, s') ->
  exists n, (n <= length buf)%nat /\ ret = total + Z.of_nat n /\
    sent s' = sent s ++ take n buf /\ rx s' = rx s /\ Forall ev_ok (tx s').
Proof.
  revert s buf total. induction fuel as [|fuel IH]; intros s buf total Hok; cbn [write_loop];
    destruct (Z.leb_spec (Z.of_nat (length buf)) 0) as [Hl|Hl];
    try (intros [= <- <-]; exists 0%nat; rewrite take_0, app_nil_r; split_and!; try done; lia).
  destruct (write_timeout s timeout) as [[r s1]|] eqn:E1; [|done]. cbn [mbind option_bind].
  apply write_timeout_stream in E1 as (O1 & R1 & N1).
  case_match; [intros [= <- <-]; exists 0%nat; rewrite take_0, app_nil_r; split_and!; try done; [lia..|by apply O1]|].
  set (n := Z.to_nat _).
  assert ((0 < n <= length buf)%nat) as Hn.
  { unfold n, BLOCK_MAX_LENGTH. destruct (Z.ltb_spec 4096 (Z.of_nat (length buf))); lia. }
  destruct (send s1 (take n buf)) as [[sr s2]|] eqn:E2; [|done]. cbn [mbind option_bind].
  apply send_stream in E2 as (O2 & R2 & L2 & N2); [|rewrite length_take; lia|by apply O1].
  rewrite length_take in L2. destruct (Z.leb_spec sr 0) as [H0|H0].
  - intros [= <- <-]. exists 0%nat. replace (Z.to_nat sr) with 0%nat in N2 by lia.
    rewrite take_0, app_nil_r in *. split_and!; try done; [lia..|congruence|congruence].
  - intros Hx. apply IH in Hx as (m & Lm & -> & S3 & R3 & O3); [|done].
    rewrite length_drop in Lm. exists (Z.to_nat sr + m)%nat.
    split_and!; [lia|lia| |congruence|done].
    rewrite S3, N2, take_take, Nat.min_l, N1 by lia. rewrite <- app_assoc. f_equal.
    rewrite <- (take_drop (Z.to_nat sr) buf) at 3.
    rewrite take_app_ge, length_take, Nat.min_l by (rewrite ?length_take; lia).
    do 2 f_equal. lia.
Qed.

Lemma write_loop_complete fuel s buf total timeout :
  Forall ev_data (tx s) -> (length buf <= length (stream (tx s)))%nat -> (length buf <= fuel)%nat ->
  exists s', write_loop fuel s buf total timeout = Some (total + Z.of_nat (length buf), s') /\
    sent s' = sent s ++ buf /\ rx s' = rx s /\ errno s' = errno s /\
    Forall ev_data (tx s') /\ stream (tx s') = drop (length buf) (stream (tx s)).
Proof.
  revert s buf total. induction fuel as [|fuel IH]; intros s buf total Hd Hs Hf; cbn [write_loop];
    destruct (Z.leb_spec (Z.of_nat (length buf)) 0) as [Hl|Hl];
    try (exists s; destruct buf; [|cbn in Hl; lia]; cbn; rewrite app_nil_r, Z.add_0_r, drop_0; by split_and!);
    [lia|].
  assert (exists d l, tx s = EvData d :: l /\ d <> [] /\ Forall ev_data l) as (d & l & Etx & Hdd & Hl').
  { destruct (tx s) as [|ev l]; [cbn in Hs; lia|]. inversion Hd as [|? ? Hev Hl']; subst.
    destruct ev as [d| | |]; try done. by exists d, l. }
  assert (write_timeout s timeout = Some (0, s)) as ->.
  { unfold write_timeout. case_match; [|done]. rewrite Etx. cbn. rewrite <- Etx. by destruct s. }
  cbn [mbind option_bind]. change (negb (0 =? 0)) with false. cbv iota.
  set (n := Z.to_nat (if BLOCK_MAX_LENGTH <? Z.of_nat (length buf) then BLOCK_MAX_LENGTH
                      else Z.of_nat (length buf))).
  assert ((0 < n <= length buf)%nat) as Hn.
  { unfold n, BLOCK_MAX_LENGTH. destruct (Z.ltb_spec 4096 (Z.of_nat (length buf))); lia. }
  unfold send. rewrite Etx, length_take, Nat.min_l by lia. cbn [send_events mbind option_bind default].
  set (evs := match drop n d with [] => l | _ => EvData (drop n d) :: l end).
  assert (Forall ev_data evs /\ stream evs = drop n d ++ stream l) as [He Hse].
  { unfold evs. destruct (drop n d) eqn:Edr; [done|]. split; [by constructor|done]. }
  set (k := length (take n d)).
  assert (0 < k <= n)%nat as Ht.
  { unfold k. rewrite length_take. destruct d; [done|]. cbn [length]. lia. }
  rewrite (proj2 (Z.leb_gt _ _)), Nat2Z.id by lia.
  rewrite Etx in Hs. cbn [stream] in Hs. rewrite length_app in Hs.
  destruct (IH (mkSock (rx s) evs (sent s ++ take k (take n buf)) (errno s)) (drop k buf)
    (total + Z.of_nat k)) as (s' & E & S' & R' & Er' & Td & Ts); cbn [tx rx sent errno] in *; [done| |rewrite length_drop; lia|].
  { rewrite Hse, length_app, !length_drop. unfold k. rewrite length_take. lia. }
  exists s'. rewrite E, length_drop. split_and!; try done; [do 2 f_equal; lia| |].
  - rewrite S', take_take, Nat.min_l, <- app_assoc, take_drop by lia. done.
  - rewrite Ts, Hse, length_drop. cbn [stream]. rewrite <- (take_drop n d) at 2.
    rewrite <- app_assoc, (drop_app_ge (take n d)) by (fold k; lia). fold k. done.
Qed.

(** ** Theorems *)

(** [sock_read] moves bytes from the stream into the buffer, in order,
    whatever the segmentation, time-outs and failures: the bytes it returns
    followed by what is left in the stream are the old stream, at most [len] of
    them; and when enough bytes arrive it returns exactly [len]. *)
Theorem sock_read_stream s len timeout :
  Forall ev_ok (rx s) ->
  (forall bs s', sock_read s len timeout = Some (bs, s') ->
     stream (rx s) = bs ++ stream (rx s') /\ Z.of_nat (length bs) <= Z.max len 0 /\
     sent s' = sent s) /\
  (Forall ev_data (rx s) -> 0 <= len <= Z.of_nat (length (stream (rx s))) ->
   exists s', sock_read s len timeout = Some (take (Z.to_nat len) (stream (rx s)), s')).
Proof.
  intros Hok. split.
  - intros bs s' H. apply read_loop_stream in H as (new & -> & H1 & H2 & _ & _ & H3); [|done].
    cbn. by split_and!.
  - intros Hd Hl. destruct (read_loop_complete (Z.to_nat len) s [] len timeout) as (s' & E & _);
      [done|lia|lia|]. exists s'. exact E.
Qed.

Lemma sock_read_stream_witness :
  exists s', sock_read (mkSock [EvData [1; 2]; EvData [3; 4; 5]] [] [] 0) 4 30 = Some ([1; 2; 3; 4], s').
Proof.
  apply (sock_read_stream (mkSock [EvData [1; 2]; EvData [3; 4; 5]] [] [] 0) 4 30);
    [repeat constructor; discriminate|repeat constructor; discriminate|cbn; lia].
Defined.

(** [sock_write] sends a prefix of the buffer and returns its length;
    when the kernel takes enough bytes, in whatever pieces, all of it. *)
Theorem sock_write_prefix s buf timeout :
  Forall ev_ok (tx s) ->
  (forall ret s', sock_write s buf timeout = Some (ret, s') ->
     0 <= ret <= Z.of_nat (length buf) /\ sent s' = sent s ++ take (Z.to_nat ret) buf /\
     rx s' = rx s) /\
  (Forall ev_data (tx s) -> (length buf <= length (stream (tx s)))%nat ->
   exists s', sock_write s buf timeout = Some (Z.of_nat (length buf), s') /\ sent s' = sent s ++ buf).
Proof.
  intros Hok. split.
  - intros ret s' H. apply write_loop_prefix in H as (n & Hn & -> & H1 & H2 & _); [|done].
    replace (Z.to_nat (0 + Z.of_nat n)) with n by lia. split_and!; [lia|lia|done|done].
  - intros Hd Hl. destruct (write_loop_complete (length buf) s buf 0 timeout) as (s' & E & S & _);
      [done|done|done|]. exists s'. split; [exact E|exact S].
Qed.

Lemma sock_write_prefix_witness :
  exists s', sock_write (mkSock [] [EvData [0; 0]; EvData [0; 0; 0]] [] 0) [7; 8; 9] 30 = Some (3, s') /\
    sent s' = [7; 8; 9].
Proof.
  apply (sock_write_prefix (mkSock [] [EvData [0; 0]; EvData [0; 0; 0]] [] 0) [7; 8; 9] 30);
    [repeat constructor; discriminate|repeat constructor; discriminate|cbn; lia].
Defined.

(** What a reply packet means to a caller that waits for [cmd]. *)
Definition valid_head (p : list Z) : Prop := take 4 p = SERVER_SOCK_HEAD.

Definition is_close (p : list Z) : Prop := valid_head p /\ cmd_id p 0 = SOCK_CMD_CLOSE.
Definition is_status (p : list Z) : Prop :=
  valid_head p /\ cmd_id p 0 = SOCK_CMD_ACK /\ cmd_id p 1 = SOCK_CMD_ACK_STATUS.
Definition is_reply (p : list Z) (cmd : Z) : Prop :=
  ~ is_close p /\ ~ is_status p /\ valid_head p /\ cmd_id p 0 = cmd.

Definition reply_meaning (p : list Z) (cmd : Z) (r : sock_rw_check_ret) : Prop :=
  match r with
  | SOCK_RW_RECV_CLOSE => is_close p
  | SOCK_RW_ACK_STATUS => is_status p
  | SOCK_RW_CHECK_OK => is_reply p cmd /\ packet_ret p = SOCK_CMD_RET_OK
  | SOCK_RW_RET_ERROR => is_reply p cmd /\ packet_ret p <> SOCK_CMD_RET_OK
  | SOCK_RW_CHECK_ERROR =>
      ~ is_close p /\ ~ is_status p /\ (~ valid_head p \/ cmd_id p 0 <> cmd)
  | _ => False
  end.

Lemma strncmp_head p : (4 <= length p)%nat ->
  strncmp_eq (head_flag p) SERVER_SOCK_HEAD 4 = true <-> valid_head p.
Proof.
  intros Hl. do 4 (destruct p as [|? p]; [cbn in Hl; lia|]).
  unfold valid_head, head_flag, SERVER_SOCK_HEAD. cbn [take strncmp_eq].
  split.
  - intros H. repeat (apply andb_prop in H as [Hq H]; apply Z.eqb_eq in Hq as ->;
      apply orb_prop in H as [H|H]; [by apply Z.eqb_eq in H|]). done.
  - by intros [= -> -> -> ->].
Qed.

Lemma check_packet_spec p cmd : (4 <= length p)%nat ->
  (check_sock_packet p cmd = 0 /\ valid_head p /\ cmd_id p 0 = cmd) \/
  (check_sock_packet p cmd < 0 /\ (~ valid_head p \/ cmd_id p 0 <> cmd)).
Proof.
  intros Hl. unfold check_sock_packet. pose proof (strncmp_head p Hl) as Hh.
  destruct (strncmp_eq _ _ _); cbn [negb].
  - destruct (Z.eqb_spec (cmd_id p 0) cmd); cbn [negb]; [left|right; split; [lia|by right]].
    split_and!; try done. by apply Hh.
  - right. split; [lia|]. left. intros H. by apply Hh in H.
Qed.

(** What [check_received] does when the kernel takes a whole packet. *)
Lemma check_received_meaning s p cmd timeout :
  length p = 40%nat -> Forall ev_data (tx s) -> (40 <= length (stream (tx s)))%nat ->
  exists r s', check_received s p cmd timeout = Some (r, p, s') /\ reply_meaning p cmd r /\
    rx s' = rx s /\ sent s' = sent s ++ (match r with SOCK_RW_ACK_STATUS => p | _ => [] end).
Proof.
  intros Hp Ht Hl. unfold check_received.
  destruct (check_packet_spec p SOCK_CMD_CLOSE ltac:(lia)) as [(-> & Hc)|(Hc0 & Hc)].
  { exists SOCK_RW_RECV_CLOSE, s. rewrite app_nil_r. by split_and!. }
  rewrite (proj2 (Z.eqb_neq _ _)) by lia.
  assert (~ is_close p) as Hnc by (unfold is_close; tauto).
  destruct (check_packet_spec p SOCK_CMD_ACK ltac:(lia)) as [(-> & Ha)|(Ha0 & Ha)];
    [|rewrite (proj2 (Z.eqb_neq (check_sock_packet p SOCK_CMD_ACK) 0)) by lia]; cbn [andb].
  1: destruct (Z.eqb_spec (cmd_id p 1) SOCK_CMD_ACK_STATUS) as [Hs|Hs].
  { destruct (write_loop_complete (length p) s p 0 timeout) as (s' & E & S & R & _); [done|lia|done|].
    exists SOCK_RW_ACK_STATUS, s'. unfold sock_write. rewrite E, Hp. cbn.
    destruct Ha as [Ha1 Ha2]. by split_and!. }
  all: assert (~ is_status p) as Hns by (unfold is_status; tauto).
  all: destruct (check_packet_spec p cmd ltac:(lia)) as [(-> & Hm)|(Hm0 & Hm)];
    [|rewrite (proj2 (Z.ltb_lt _ _)) by lia; exists SOCK_RW_CHECK_ERROR, s; rewrite app_nil_r; by split_and!].
  all: change (0 <? 0) with false; cbv iota; destruct (Z.eqb_spec (packet_ret p) SOCK_CMD_RET_OK);
    cbn [negb]; [exists SOCK_RW_CHECK_OK, s|exists SOCK_RW_RET_ERROR, s];
    rewrite app_nil_r; destruct Hm; by split_and!.
Qed.

(** One request/reply exchange: when the kernel takes the packet and a
    whole reply arrives, in whatever pieces, the packet is sent, exactly the 40
    bytes of the reply are consumed, and the result is what the reply means;
    a status question is echoed to the peer. *)
Theorem exchange_meaning s p cmd timeout :
  length p = 40%nat -> Forall ev_data (tx s) -> (80 <= length (stream (tx s)))%nat ->
  Forall ev_data (rx s) -> (40 <= length (stream (rx s)))%nat ->
  let reply := take 40 (stream (rx s)) in
  exists r s', sock_write_check_packet s p cmd timeout = Some (r, reply, s') /\
    reply_meaning reply cmd r /\ stream (rx s') = drop 40 (stream (rx s)) /\
    sent s' = sent s ++ p ++ (match r with SOCK_RW_ACK_STATUS => reply | _ => [] end).
Proof.
  intros Hp Ht Hlt Hr Hlr reply. unfold sock_write_check_packet, sock_write.
  destruct (write_loop_complete (length p) s p 0 timeout) as (s1 & -> & S1 & R1 & _ & T1 & TS1);
    [done|lia|done|]. rewrite Hp in *. cbn [mbind option_bind].
  change (negb (0 + Z.of_nat 40 =? PACKET_SIZE)) with false. cbv iota.
  unfold sock_read_check_packet, sock_read.
  destruct (read_loop_complete (Z.to_nat PACKET_SIZE) s1 [] PACKET_SIZE timeout)
    as (s2 & -> & _ & R2 & _ & T2 & N2); [by rewrite R1|rewrite R1; unfold PACKET_SIZE; lia|done|].
  change (Z.to_nat PACKET_SIZE) with 40%nat in *. rewrite R1 in *. cbn [mbind option_bind app].
  fold reply. assert (length reply = 40%nat) as Hrl by (unfold reply; rewrite length_take; lia).
  rewrite Hrl. change (negb (Z.of_nat 40 =? PACKET_SIZE)) with false. cbv iota.
  replace (write_at (replicate 40 0) 0 reply) with reply.
  2:{ unfold write_at. rewrite Hrl. cbn. by rewrite app_nil_r. }
  destruct (check_received_meaning s2 reply cmd timeout) as (r & s3 & -> & M & R3 & N3);
    [done|by rewrite T2|rewrite T2, TS1, length_drop; lia|].
  exists r, s3. split_and!; [done|done|by rewrite R3|].
  by rewrite N3, N2, S1, <- app_assoc.
Qed.

(** An ACK_STATUS question arriving in two pieces. *)
Definition status_question : list Z :=
  SERVER_SOCK_HEAD ++ [SOCK_CMD_ACK; SOCK_CMD_ACK_STATUS] ++ replicate 34 0.

Lemma exchange_meaning_witness :
  let s := mkSock [EvData (take 7 status_question); EvData (drop 7 status_question)]
                  [EvData (replicate 80 0)] [] 0 in
  exists r s', sock_write_check_packet s pack_packet 1 30 = Some (r, status_question, s') /\
    reply_meaning status_question 1 r /\ stream (rx s') = [] /\
    sent s' = pack_packet ++ (match r with SOCK_RW_ACK_STATUS => status_question | _ => [] end).
Proof.
  intros s. apply (exchange_meaning s pack_packet 1 30);
    [reflexivity|repeat constructor; discriminate|vm_compute; lia
    |repeat constructor; discriminate|vm_compute; lia].
Defined.

(** A packet interrupted by a time-out is lost: the bytes that did arrive
    are consumed, the caller is told to try again, and the next call clears the
    packet before it reads. *)
Theorem partial_packet_lost bs evs out sn e cmd timeout :
  (0 < length bs < 40)%nat -> 0 < timeout ->
  sock_read_check_packet (mkSock (EvData bs :: EvTimeout :: evs) out sn e) cmd timeout
  = Some (SOCK_RW_TRY_AGAIN, bs ++ replicate (40 - length bs) 0, mkSock evs out sn ETIMEDOUT).
Proof.
  intros Hb Ht. unfold sock_read_check_packet, sock_read. change (Z.to_nat PACKET_SIZE) with 40%nat.
  cbn [read_loop]. unfold read_timeout, recv. cbn [rx tx sent errno select_loop].
  rewrite !(proj2 (Z.ltb_lt 0 timeout)) by done. change (PACKET_SIZE <=? 0) with false.
  cbn [mbind option_bind negb Z.eqb rx tx sent errno recv_events default].
  change (Z.to_nat (if BLOCK_MAX_LENGTH <? PACKET_SIZE then BLOCK_MAX_LENGTH else PACKET_SIZE)) with 40%nat.
  rewrite take_ge, drop_ge by lia.
  rewrite (proj2 (Z.eqb_neq _ _)), (proj2 (Z.ltb_ge _ _)) by lia.
  rewrite (proj2 (Z.leb_gt _ _)) by (unfold PACKET_SIZE; lia). cbn [select_loop rx errno tx sent mbind option_bind].
  change (negb (-1 =? 0)) with true. cbv iota. cbn [mbind option_bind app].
  rewrite (proj2 (Z.eqb_neq (Z.of_nat (length bs)) PACKET_SIZE)) by (unfold PACKET_SIZE; lia).
  cbn [negb]. unfold write_at. rewrite take_0, drop_replicate. done.
Qed.

Lemma partial_packet_lost_witness :
  sock_read_check_packet (mkSock [EvData SERVER_SOCK_HEAD; EvTimeout] [] [] 0) 1 30
  = Some (SOCK_RW_TRY_AGAIN, SERVER_SOCK_HEAD ++ replicate 36 0, mkSock [] [] [] ETIMEDOUT).
Proof. apply (partial_packet_lost SERVER_SOCK_HEAD [] [] [] 0 1 30); cbn; lia. Defined.

End SockProto.
