(* ===== verification/RawFlow.v ===== *)
(** * The queue of raw frames of the ISP tuning server
      (camera/3_4/allwinnertech/libAWIspApi/awTunningApp/tuning_app/server/raw_flow_opt.c)

    A ring of preallocated frames between the capture thread, which queues,
    and the thread that serves a client, which takes out.  Every operation
    runs under the queue's mutex and is one step here.  [None] is undefined
    behaviour: a copy past a buffer, through a null pointer, or an overflow of
    [int]. *)

From stdpp Require Import base tactics option list list_numbers numbers.
From Stdlib Require Import ZArith Lia.
From S2P Require Import Prelude.

Local Open Scope Z_scope.

Module RawFlow.

(** ** Frames *)

(** [capture_format]; [c_buffer] is the memory [buffer] points to. *)
Record capture_format := mkFmt {
  c_channel : Z; c_buffer : option (list Z); c_length : Z; c_width : Z; c_height : Z;
  c_fps : Z; c_wdr : Z; c_format : Z; c_planes_count : Z; c_framecount : Z;
  c_width_stride : list Z; c_index : Z
}.

(** The part of a node that [queue_raw_flow] copies, and its first bytes. *)
Definition set_frame (planes len : Z) (stride : list Z) (buf : list Z) (n : capture_format) : capture_format :=
  mkFmt (c_channel n) (Some buf) len (c_width n) (c_height n) (c_fps n) (c_wdr n) (c_format n)
    planes (c_framecount n) stride (c_index n).

Inductive eRawFlowErr :=
| ERR_RAW_FLOW_NONE | ERR_RAW_FLOW_INVALID_PARAMS | ERR_RAW_FLOW_EXIT | ERR_RAW_FLOW_NOT_INIT
| ERR_RAW_FLOW_FORMAT | ERR_RAW_FLOW_QUEUE_FULL | ERR_RAW_FLOW_QUEUE_EMPTY.

#[global] Instance eRawFlowErr_eq : EqDecision eRawFlowErr.
Proof. solve_decision. Defined.

(** "BA81", "GBRG", "GRBG" and "RGGB": [V4L2_PIX_FMT_SBGGR8] and the other
    formats of one byte per pixel. *)
Definition bayer8 : list Z := [0x31384142; 0x47524247; 0x47425247; 0x42474752].

(** ** The ring *)

(** The globals, and the files written so far. *)
Record ring := mkRing {
  g_raw_queue : list capture_format;
  g_raw_queue_head : nat;
  g_raw_queue_tail : nat;
  saved : list (list Z)
}.

Definition no_ring : ring := mkRing [] 0 0 [].

(** The length is that of the array. *)
Definition g_raw_queue_length (r : ring) : nat := length (g_raw_queue r).

Definition exit_raw_flow (r : ring) : eRawFlowErr * ring :=
  (ERR_RAW_FLOW_NONE,
   if (0 <? g_raw_queue_length r)%nat then mkRing [] 0 0 (saved r) else r).

(** [int] arithmetic without overflow. *)
Definition int_op (x : Z) : option Z :=
  if (INT_MIN <=? x) && (x <=? INT_MAX) then Some x else None.

Definition node_of (f : capture_format) (buf : option (list Z)) : capture_format :=
  mkFmt 0 buf 0 (c_width f) (c_height f) 0 0 (c_format f) (c_planes_count f) 0 [0; 0; 0] 0.

(** [bufs] are the blocks the calls of [malloc] return for the frames; the
    array itself is assumed to fit. *)
Definition init_raw_flow (raw_fmt : option capture_format) (queue_length : Z)
    (bufs : Z -> nat -> option (list Z)) (r : ring) : option (eRawFlowErr * ring) :=
  match raw_fmt with
  | None => Some (ERR_RAW_FLOW_INVALID_PARAMS, r)
  | Some f =>
      if (queue_length <? 0) || (c_width f <? 0) || (c_height f <? 0)
      then Some (ERR_RAW_FLOW_INVALID_PARAMS, r) else
      let '(_, r) := exit_raw_flow r in
      area ← int_op (c_width f * c_height f);
      buffer_length ← (if bool_decide (c_format f ∈ bayer8) then Some area else int_op (2 * area));
      Some (ERR_RAW_FLOW_NONE,
        mkRing (map (fun i => node_of f (bufs buffer_length i)) (seq 0 (Z.to_nat queue_length))) 0 0 (saved r))
  end.

(** [memcpy(dst, src, length)]; the size is unsigned. *)
Definition copy (dst src : option (list Z)) (len : Z) : option (list Z) :=
  dst ← dst; src ← src;
  if (0 <=? len) && (len <=? Z.of_nat (length dst)) && (len <=? Z.of_nat (length src))
  then Some (write_at dst 0 (take (Z.to_nat len) src)) else None.

Definition next (r : ring) (i : nat) : nat := ((i + 1) mod g_raw_queue_length r)%nat.

(** [fwrite(head_node->buffer, head_node->length, 1, fp)] *)
Definition written (n : capture_format) : option (list Z) :=
  b ← c_buffer n;
  if (0 <=? c_length n) && (c_length n <=? Z.of_nat (length b))
  then Some (take (Z.to_nat (c_length n)) b) else None.

(** The loop that empties a full queue into the file. *)
Fixpoint drain (fuel : nat) (r : ring) (text : list Z) : option (list Z * ring) :=
  if (g_raw_queue_tail r =? g_raw_queue_head r)%nat then Some (text, r) else
  match fuel with
  | O => None
  | S fuel =>
      n ← g_raw_queue r !! g_raw_queue_tail r;
      b ← written n;
      drain fuel (mkRing (g_raw_queue r) (g_raw_queue_head r) (next r (g_raw_queue_tail r)) (saved r)) (text ++ b)
  end.

(** [fopen_ok] tells whether the file can be created. *)
Definition queue_raw_flow (node : option capture_format) (fopen_ok : bool) (r : ring)
  : option (eRawFlowErr * ring) :=
  match node with
  | None => Some (ERR_RAW_FLOW_INVALID_PARAMS, r)
  | Some node =>
      match c_buffer node with
      | None => Some (ERR_RAW_FLOW_INVALID_PARAMS, r)
      | Some _ =>
          if (0 <? g_raw_queue_length r)%nat then
            head_node ← g_raw_queue r !! g_raw_queue_head r;
            if negb (c_width head_node =? c_width node) || negb (c_height head_node =? c_height node)
               || negb (c_format head_node =? c_format node)
            then Some (ERR_RAW_FLOW_FORMAT, r) else
            let head := next r (g_raw_queue_head r) in
            if (head =? g_raw_queue_tail r)%nat then
              if fopen_ok then
                '(text, r) ← drain (g_raw_queue_length r) r [];
                Some (ERR_RAW_FLOW_QUEUE_FULL,
                  mkRing (g_raw_queue r) (g_raw_queue_head r) (g_raw_queue_tail r) (saved r ++ [text]))
              else Some (ERR_RAW_FLOW_QUEUE_FULL, r)
            else
              buf ← copy (c_buffer head_node) (c_buffer node) (c_length node);
              let n := set_frame (c_planes_count node) (c_length node) (c_width_stride node) buf head_node in
              Some (ERR_RAW_FLOW_NONE,
                mkRing (<[g_raw_queue_head r := n]> (g_raw_queue r)) head (g_raw_queue_tail r) (saved r))
          else Some (ERR_RAW_FLOW_NOT_INIT, r)
      end
  end.

(** The node of the caller is [NULL] or what it becomes. *)
Definition dequeue_raw_flow (node : option capture_format) (r : ring)
  : option (eRawFlowErr * option capture_format * ring) :=
  if (0 <? g_raw_queue_length r)%nat then
    tail_node ← g_raw_queue r !! g_raw_queue_tail r;
    if (g_raw_queue_tail r =? g_raw_queue_head r)%nat then Some (ERR_RAW_FLOW_QUEUE_EMPTY, node, r) else
    node ← match node with
           | None => Some None
           | Some n =>
               buf ← copy (c_buffer n) (c_buffer tail_node) (c_length tail_node);
               Some (Some (mkFmt (c_channel n) (Some buf) (c_length tail_node) (c_width tail_node)
                 (c_height tail_node) (c_fps n) (c_wdr n) (c_format tail_node) (c_planes_count tail_node)
                 (c_framecount n) (c_width_stride tail_node) (c_index n)))
           end;
    Some (ERR_RAW_FLOW_NONE, node,
      mkRing (g_raw_queue r) (g_raw_queue_head r) (next r (g_raw_queue_tail r)) (saved r))
  else Some (ERR_RAW_FLOW_NOT_INIT, node, r).

(** ** The abstract queue

    A bounded first-in first-out queue of frames. *)

Record frame := mkFrame {
  f_width : Z; f_height : Z; f_format : Z; f_planes : Z; f_stride : list Z; f_data : list Z
}.

Definition frame_of (n : capture_format) : frame :=
  mkFrame (c_width n) (c_height n) (c_format n) (c_planes_count n) (c_width_stride n)
    (take (Z.to_nat (c_length n)) (default [] (c_buffer n))).

(** What the queue was made for: the format, the bytes of a frame, and the
    number of nodes, one of which stays empty. *)
Record shape := mkShape { s_width : Z; s_height : Z; s_format : Z; s_bytes : nat; s_nodes : nat }.

Definition matches (c : shape) (n : capture_format) : bool :=
  (s_width c =? c_width n) && (s_height c =? c_height n) && (s_format c =? c_format n).

(** The frame lies in the caller's buffer and fits a node. *)
Definition fits (c : shape) (buf : list Z) (len : Z) : bool :=
  (0 <=? len) && (len <=? Z.of_nat (s_bytes c)) && (len <=? Z.of_nat (length buf)).

Definition fifo : Type := list frame * list (list Z).

Definition fifo_queue (c : shape) (node : option capture_format) (fopen_ok : bool) (q : fifo)
  : option (eRawFlowErr * fifo) :=
  match node with
  | None => Some (ERR_RAW_FLOW_INVALID_PARAMS, q)
  | Some n =>
      match c_buffer n with
      | None => Some (ERR_RAW_FLOW_INVALID_PARAMS, q)
      | Some buf =>
          if negb (matches c n) then Some (ERR_RAW_FLOW_FORMAT, q)
          else if (S (length q.1) =? s_nodes c)%nat then
            Some (ERR_RAW_FLOW_QUEUE_FULL,
              if fopen_ok then ([], q.2 ++ [concat (map f_data q.1)]) else q)
          else if fits c buf (c_length n) then Some (ERR_RAW_FLOW_NONE, (q.1 ++ [frame_of n], q.2))
          else None
      end
  end.

(** The caller's node with the frame in it. *)
Definition fill (f : frame) (n : capture_format) : option capture_format :=
  buf ← c_buffer n;
  if (length (f_data f) <=? length buf)%nat then
    Some (mkFmt (c_channel n) (Some (write_at buf 0 (f_data f))) (Z.of_nat (length (f_data f)))
      (f_width f) (f_height f) (c_fps n) (c_wdr n) (f_format f) (f_planes f) (c_framecount n) (f_stride f)
      (c_index n))
  else None.

Definition fifo_dequeue (node : option capture_format) (q : fifo)
  : option (eRawFlowErr * option capture_format * fifo) :=
  match q.1 with
  | [] => Some (ERR_RAW_FLOW_QUEUE_EMPTY, node, q)
  | f :: rest =>
      node ← match node with None => Some None | Some n => n ← fill f n; Some (Some n) end;
      Some (ERR_RAW_FLOW_NONE, node, (rest, q.2))
  end.

(** ** The ring holds a queue *)

#[global] Instance capture_format_inhabited : Inhabited capture_format :=
  populate (mkFmt 0 None 0 0 0 0 0 0 0 0 [] 0).

(** The node [k] places behind the tail, and the number of frames. *)
Definition pos (r : ring) (k : nat) : nat :=
  let p := (g_raw_queue_tail r + k)%nat in
  if (p <? g_raw_queue_length r)%nat then p else (p - g_raw_queue_length r)%nat.

Definition count (r : ring) : nat :=
  if (g_raw_queue_tail r <=? g_raw_queue_head r)%nat then (g_raw_queue_head r - g_raw_queue_tail r)%nat
  else (g_raw_queue_head r + g_raw_queue_length r - g_raw_queue_tail r)%nat.

Definition frames (r : ring) : list frame :=
  map (fun k => frame_of (g_raw_queue r !!! pos r k)) (seq 0 (count r)).

Definition fifo_of (r : ring) : fifo := (frames r, saved r).

Definition node_ok (c : shape) (n : capture_format) : Prop :=
  matches c n = true /\ (exists b, c_buffer n = Some b /\ length b = s_bytes c) /\
  0 <= c_length n <= Z.of_nat (s_bytes c).

Record ring_ok (c : shape) (r : ring) : Prop := {
  ok_length : g_raw_queue_length r = s_nodes c;
  ok_head : (g_raw_queue_head r < s_nodes c)%nat;
  ok_tail : (g_raw_queue_tail r < s_nodes c)%nat;
  ok_nodes : Forall (node_ok c) (g_raw_queue r)
}.

Section Ring.
  Context (c : shape).

Lemma ring_lookup r i : ring_ok c r -> (i < s_nodes c)%nat ->
  g_raw_queue r !! i = Some (g_raw_queue r !!! i) /\ node_ok c (g_raw_queue r !!! i).
Proof.
  intros [L _ _ F] Hi. destruct (lookup_lt_is_Some_2 (g_raw_queue r) i) as [n Hn].
  { unfold g_raw_queue_length in L. lia. }
  rewrite (list_lookup_total_correct _ _ _ Hn). split; [done|].
  rewrite List.Forall_forall in F. by eapply F, list_elem_of_In, list_elem_of_lookup_2.
Qed.

Lemma next_spec r i : ring_ok c r -> (i < s_nodes c)%nat ->
  next r i = if (S i <? s_nodes c)%nat then S i else 0%nat.
Proof.
  intros [L _ _ _] Hi. unfold next. rewrite L, Nat.add_1_r.
  destruct (Nat.ltb_spec (S i) (s_nodes c)); [by apply Nat.mod_small|].
  replace (S i) with (s_nodes c) by lia. apply Nat.Div0.mod_same.
Qed.

Lemma pos_lt r k : ring_ok c r -> (k < s_nodes c)%nat -> (pos r k < s_nodes c)%nat.
Proof. intros [L H T _] Hk. unfold pos. rewrite L. case_match eqn:E; [apply Nat.ltb_lt in E|apply Nat.ltb_ge in E]; lia. Qed.

Lemma count_lt r : ring_ok c r -> (count r < s_nodes c)%nat.
Proof.
  intros [L H T _]. unfold count. rewrite L. case_match eqn:E; [apply Nat.leb_le in E|apply Nat.leb_gt in E]; lia.
Qed.

Lemma length_frames r : length (frames r) = count r.
Proof. unfold frames. by rewrite length_map, length_seq. Qed.

(** The frames do not depend on nodes outside the queue. *)
Lemma frames_ext r (nodes : list capture_format) :
  (forall k, (k < count r)%nat -> nodes !!! pos r k = g_raw_queue r !!! pos r k) ->
  map (fun k => frame_of (nodes !!! pos r k)) (seq 0 (count r)) = frames r.
Proof.
  intros H. apply map_ext_in. intros k Hk. apply in_seq in Hk. by rewrite H by lia.
Qed.

(** A frame taken out. *)
Lemma frames_pop r : ring_ok c r -> (0 < count r)%nat ->
  let r' := mkRing (g_raw_queue r) (g_raw_queue_head r) (next r (g_raw_queue_tail r)) (saved r) in
  ring_ok c r' /\ frames r = frame_of (g_raw_queue r !!! g_raw_queue_tail r) :: frames r'.
Proof.
  intros Hr Hc r'. pose proof Hr as [L H T F]. pose proof (next_spec r _ Hr T) as En.
  assert (g_raw_queue_tail r' < s_nodes c)%nat as Ht
    by (cbn; rewrite En; case_match eqn:E; [apply Nat.ltb_lt in E|apply Nat.ltb_ge in E]; lia).
  split; [by split|].
  assert (count r = S (count r')) as Ec.
  { unfold count in Hc |- *. cbn [r' g_raw_queue_tail g_raw_queue_head g_raw_queue_length g_raw_queue].
    unfold r', g_raw_queue_length in *. cbn [g_raw_queue] in *. rewrite En, L in *.
    destruct (Nat.ltb_spec (S (g_raw_queue_tail r)) (s_nodes c));
      repeat match goal with |- context [(?a <=? ?b)%nat] => destruct (Nat.leb_spec a b) end;
      repeat match goal with H : context [(?a <=? ?b)%nat] |- _ => destruct (Nat.leb_spec a b) end; lia. }
  unfold frames. rewrite Ec. cbn [seq map]. f_equal.
  - do 2 f_equal. unfold pos. rewrite Nat.add_0_r, L. by rewrite (proj2 (Nat.ltb_lt _ _) T).
  - rewrite <- seq_shift, map_map. apply map_ext_in. intros k Hk. apply in_seq in Hk.
    pose proof (count_lt r Hr) as Hlt. do 2 f_equal. unfold pos.
    unfold r', g_raw_queue_length in *. cbn [g_raw_queue g_raw_queue_tail] in *. rewrite En, L in *.
    destruct (Nat.ltb_spec (S (g_raw_queue_tail r)) (s_nodes c));
      repeat match goal with |- context [(?a <? ?b)%nat] => destruct (Nat.ltb_spec a b) end; lia.
Qed.

Lemma empty_count r : ring_ok c r ->
  (g_raw_queue_tail r =? g_raw_queue_head r)%nat = (count r =? 0)%nat.
Proof.
  intros [L H T _]. unfold count. rewrite L.
  destruct (Nat.eqb_spec (g_raw_queue_tail r) (g_raw_queue_head r)) as [->|Hne];
    destruct (Nat.leb_spec (g_raw_queue_tail r) (g_raw_queue_head r));
    symmetry; rewrite ?Nat.leb_refl, ?Nat.sub_diag; try done; try (apply Nat.eqb_neq; lia).
Qed.

Lemma full_count r : ring_ok c r ->
  (next r (g_raw_queue_head r) =? g_raw_queue_tail r)%nat = (S (count r) =? s_nodes c)%nat.
Proof.
  intros Hr. pose proof Hr as [L H T _]. rewrite next_spec by done. unfold count. rewrite L.
  apply eq_iff_eq_true. rewrite !Nat.eqb_eq.
  destruct (Nat.ltb_spec (S (g_raw_queue_head r)) (s_nodes c));
    destruct (Nat.leb_spec (g_raw_queue_tail r) (g_raw_queue_head r)); lia.
Qed.

Lemma written_frame n : node_ok c n -> written n = Some (f_data (frame_of n)).
Proof.
  intros (_ & (b & Hb & Hl) & H1). unfold written. rewrite Hb. cbn [mbind option_bind].
  rewrite !(proj2 (Z.leb_le _ _)) by lia. cbn. by rewrite Hb.
Qed.

Lemma drain_spec fuel r text : ring_ok c r -> (count r <= fuel)%nat ->
  exists r', drain fuel r text = Some (text ++ concat (map f_data (frames r)), r') /\
    frames r' = [] /\ saved r' = saved r /\ ring_ok c r'.
Proof.
  revert r text. induction fuel as [|fuel IH]; intros r text Hr Hf.
  - exists r. assert (count r = 0%nat) as E by lia. cbn [drain]. rewrite empty_count, E by done.
    unfold frames. rewrite E. cbn. rewrite app_nil_r. by split_and!.
  - cbn [drain]. rewrite empty_count by done. destruct (Nat.eqb_spec (count r) 0) as [E|E].
    + exists r. unfold frames. rewrite E. cbn. rewrite app_nil_r. by split_and!.
    + destruct (ring_lookup r (g_raw_queue_tail r) Hr) as [-> Hn]; [apply Hr|].
      cbn [mbind option_bind]. rewrite written_frame by done. cbn [mbind option_bind].
      destruct (frames_pop r Hr) as [Hr' Hp]; [lia|].
      destruct (IH _ (text ++ f_data (frame_of (g_raw_queue r !!! g_raw_queue_tail r))) Hr') as (r2 & E2 & H2).
      { apply (f_equal length) in Hp. cbn in Hp. rewrite !length_frames in Hp. lia. }
      exists r2. rewrite E2, Hp. cbn [map concat]. by rewrite app_assoc.
Qed.

(** A frame put in. *)
Lemma frames_push r n : ring_ok c r -> node_ok c n -> (S (count r) < s_nodes c)%nat ->
  let r' := mkRing (<[g_raw_queue_head r := n]> (g_raw_queue r)) (next r (g_raw_queue_head r))
              (g_raw_queue_tail r) (saved r) in
  ring_ok c r' /\ frames r' = frames r ++ [frame_of n].
Proof.
  intros Hr Hn Hc r'. pose proof Hr as [L H T F]. pose proof (next_spec r _ Hr H) as En.
  assert (g_raw_queue_length r' = s_nodes c) as L'
    by (unfold g_raw_queue_length; cbn; by rewrite length_insert).
  split.
  { split; [done| |done|by apply Forall_insert].
    cbn [r' g_raw_queue_head]. rewrite En.
    destruct (Nat.ltb_spec (S (g_raw_queue_head r)) (s_nodes c)); lia. }
  assert (count r' = S (count r)) as Ec.
  { unfold count in *. rewrite L' in *. cbn [r' g_raw_queue_tail g_raw_queue_head]. rewrite En, L in *.
    destruct (Nat.ltb_spec (S (g_raw_queue_head r)) (s_nodes c));
      repeat match goal with |- context [(?a <=? ?b)%nat] => destruct (Nat.leb_spec a b) end; lia. }
  assert (forall k, pos r' k = pos r k) as Ep by (intros k; unfold pos; by rewrite L', L).
  assert (pos r (count r) = g_raw_queue_head r) as Eh.
  { unfold pos, count. rewrite L.
    destruct (Nat.leb_spec (g_raw_queue_tail r) (g_raw_queue_head r));
      repeat match goal with |- context [(?a <? ?b)%nat] => destruct (Nat.ltb_spec a b) end; lia. }
  unfold frames at 1. rewrite Ec, seq_S, map_app. cbn [map Nat.add]. f_equal.
  - rewrite <- (frames_ext r (<[g_raw_queue_head r := n]> (g_raw_queue r))).
    + apply map_ext. intros k. by rewrite Ep.
    + intros k Hk. apply list_lookup_total_insert_ne. intros E.
      revert E Eh. unfold pos, count in *. rewrite L in *.
      destruct (Nat.leb_spec (g_raw_queue_tail r) (g_raw_queue_head r));
      repeat match goal with |- context [(?a <? ?b)%nat] => destruct (Nat.ltb_spec a b) end; lia.
  - rewrite Ep, Eh. cbn [r' g_raw_queue]. rewrite list_lookup_total_insert_eq; [done|].
    unfold g_raw_queue_length in L. lia.
Qed.

(** What an operation of the ring does is what the queue does. *)
Definition simulated {A} (spec : option (A * fifo)) (res : option (A * ring)) : Prop :=
  match spec with
  | None => res = None
  | Some (a, q) => exists r, res = Some (a, r) /\ fifo_of r = q /\ ring_ok c r
  end.

Lemma simulated_same {A} (a : A) r : ring_ok c r -> simulated (Some (a, fifo_of r)) (Some (a, r)).
Proof. intros H. by exists r. Qed.

Lemma queue_simulated node ok r : ring_ok c r ->
  simulated (fifo_queue c node ok (fifo_of r)) (queue_raw_flow node ok r).
Proof.
  intros Hr. pose proof Hr as [L H T F]. unfold fifo_queue, queue_raw_flow.
  destruct node as [n|]; [|by apply simulated_same].
  destruct (c_buffer n) as [buf|] eqn:Eb; [|by apply simulated_same].
  rewrite L, (proj2 (Nat.ltb_lt 0 _)) by lia.
  destruct (ring_lookup r _ Hr H) as [-> (Hm & (b & Hb & Hl) & _)]. cbn [mbind option_bind].
  set (hn := g_raw_queue r !!! g_raw_queue_head r) in *. unfold matches in Hm |- *.
  apply andb_true_iff in Hm as [[E1 E2]%andb_true_iff E3].
  apply Z.eqb_eq in E1, E2, E3. rewrite E1, E2, E3, !negb_andb.
  destruct (_ || _ || _) eqn:Efm; [by apply simulated_same|].
  apply orb_false_iff in Efm as [[W1 W2]%orb_false_iff W3].
  apply negb_false_iff, Z.eqb_eq in W1, W2, W3.
  rewrite full_count by done. cbn [fst fifo_of]. rewrite length_frames.
  destruct (Nat.eqb_spec (S (count r)) (s_nodes c)) as [Ef|Ef].
  - destruct ok; [|by apply simulated_same].
    destruct (drain_spec (s_nodes c) r [] Hr) as (r' & -> & F1 & F2 & [L' H' T' F']).
    { pose proof (count_lt r Hr). lia. }
    cbn [mbind option_bind app]. eexists. split; [done|]. split; [|by split].
    unfold fifo_of. cbn [saved snd]. rewrite F2. f_equal. exact F1.
  - unfold fits, copy. rewrite Hb. cbn [mbind option_bind]. rewrite Hl.
    destruct (_ && _ && _) eqn:Efit; [|done]. cbn [mbind option_bind].
    apply andb_true_iff in Efit as [[G1 G2]%andb_true_iff G3]. apply Z.leb_le in G1, G2, G3.
    set (new := set_frame _ _ _ _ hn).
    assert (length (take (Z.to_nat (c_length n)) buf) = Z.to_nat (c_length n)) as Ht
      by (rewrite length_take; lia).
    assert (node_ok c new) as Hnew.
    { split; [unfold matches; cbn; by rewrite E1, E2, E3, !Z.eqb_refl|]. split; [|cbn; lia].
      eexists. split; [done|]. rewrite length_write_at; lia. }
    destruct (frames_push r new Hr Hnew) as [Hr' Hp]; [pose proof (count_lt r Hr); lia|].
    eexists. split; [done|]. split; [|exact Hr'].
    unfold fifo_of. rewrite Hp. cbn [saved fst snd]. do 3 f_equal.
    unfold frame_of. cbn [new set_frame c_width c_height c_format c_planes_count c_width_stride c_length c_buffer default].
    rewrite W1, W2, W3, Eb. f_equal.
    unfold id. by rewrite take_write_at by lia.
Qed.

Lemma dequeue_simulated node r : ring_ok c r ->
  simulated (fifo_dequeue node (fifo_of r)) (dequeue_raw_flow node r).
Proof.
  intros Hr. pose proof Hr as [L H T F]. unfold fifo_dequeue, dequeue_raw_flow.
  rewrite L, (proj2 (Nat.ltb_lt 0 _)) by lia.
  destruct (ring_lookup r _ Hr T) as [-> Hn]. cbn [mbind option_bind]. rewrite empty_count by done.
  cbn [fifo_of fst snd].
  destruct (Nat.eqb_spec (count r) 0) as [E|E].
  { assert (frames r = []) as -> by (unfold frames; by rewrite E). by apply simulated_same. }
  destruct (frames_pop r Hr) as [Hr' Hp]; [lia|]. rewrite Hp.
  set (tn := g_raw_queue r !!! g_raw_queue_tail r) in *.
  destruct Hn as (_ & (b & Hb & Hl) & Hlen).
  assert (f_data (frame_of tn) = take (Z.to_nat (c_length tn)) b) as Ed by (cbn; by rewrite Hb).
  assert (length (f_data (frame_of tn)) = Z.to_nat (c_length tn)) as Edl by (rewrite Ed, length_take; lia).
  destruct node as [n|]; cbn [mbind option_bind].
  - unfold fill, copy. rewrite Hb, Edl. destruct (c_buffer n) as [buf|]; cbn [mbind option_bind]; [|done].
    rewrite (proj2 (Z.leb_le 0 _)), (proj2 (Z.leb_le _ (Z.of_nat (length b)))), andb_true_r by lia.
    cbn [andb]. replace (c_length tn <=? Z.of_nat (length buf)) with (Z.to_nat (c_length tn) <=? length buf)%nat
      by (apply eq_iff_eq_true; rewrite Nat.leb_le, Z.leb_le; lia).
    destruct (_ <=? _)%nat; [|done]. cbn [mbind option_bind].
    eexists. split; [|split; [|exact Hr']]; [|done].
    rewrite Ed, Z2Nat.id by lia. done.
  - eexists. split; [done|]. by split.
Qed.

(** A new ring is an empty queue. *)
Lemma init_empty f n bufs r : 
  s_width c = c_width f -> s_height c = c_height f -> s_format c = c_format f ->
  0 <= c_width f -> 0 <= c_height f -> (0 < s_nodes c)%nat -> n = Z.of_nat (s_nodes c) ->
  let bytes := c_width f * c_height f * (if bool_decide (c_format f ∈ bayer8) then 1 else 2) in
  bytes <= INT_MAX -> s_bytes c = Z.to_nat bytes ->
  (forall i, exists b, bufs bytes i = Some b /\ length b = s_bytes c) ->
  exists r', init_raw_flow (Some f) n bufs r = Some (ERR_RAW_FLOW_NONE, r') /\
    fifo_of r' = ([], saved r) /\ ring_ok c r'.
Proof.
  intros Ew Eh Ef Hw Hh Hn -> bytes Hb Hs Hbufs. unfold init_raw_flow.
  rewrite !(proj2 (Z.ltb_ge _ 0)) by lia. cbn [orb].
  assert (0 <= c_width f * c_height f) as Ha by nia.
  assert (c_width f * c_height f <= INT_MAX) as Ha' by (unfold bytes in Hb; case_bool_decide; lia).
  assert (forall x, 0 <= x <= INT_MAX -> int_op x = Some x) as Hop.
  { intros x Hx. unfold int_op. by rewrite !(proj2 (Z.leb_le _ _)) by (unfold INT_MIN; lia). }
  destruct (exit_raw_flow r) as [e r1] eqn:Ex.
  assert (saved r1 = saved r) as Es by (unfold exit_raw_flow in Ex; injection Ex as _ <-; by case_match).
  rewrite Hop by lia. cbn [mbind option_bind].
  assert ((if bool_decide (c_format f ∈ bayer8) then Some (c_width f * c_height f)
    else int_op (2 * (c_width f * c_height f))) = Some bytes) as ->.
  { unfold bytes in Hb |- *. case_bool_decide; [f_equal; lia|]. rewrite Hop by lia. f_equal. lia. }
  cbn [mbind option_bind]. eexists. split; [done|]. rewrite Nat2Z.id.
  split; [unfold fifo_of; cbn; by rewrite Es|].
  split; [unfold g_raw_queue_length; cbn; by rewrite length_map, length_seq|done|done|].
  apply List.Forall_forall. intros x Hx. apply in_map_iff in Hx as (i & <- & _).
  destruct (Hbufs i) as (b & Eb & Lb). split; [unfold matches; cbn; by rewrite Ew, Eh, Ef, !Z.eqb_refl|].
  split; [|cbn; lia]. exists b. cbn. by rewrite Eb.
Qed.

(** ** Sequences of operations *)

Inductive op := OQueue (node : option capture_format) (fopen_ok : bool) | ODequeue (node : option capture_format).

Definition result : Type := eRawFlowErr * option capture_format.

Definition ring_op (o : op) (r : ring) : option (result * ring) :=
  match o with
  | OQueue node ok => '(e, r) ← queue_raw_flow node ok r; Some ((e, node), r)
  | ODequeue node => dequeue_raw_flow node r
  end.

Definition fifo_op (o : op) (q : fifo) : option (result * fifo) :=
  match o with
  | OQueue node ok => '(e, q) ← fifo_queue c node ok q; Some ((e, node), q)
  | ODequeue node => fifo_dequeue node q
  end.

Fixpoint run_ops {S} (step : op -> S -> option (result * S)) (ops : list op) (s : S)
  : option (list result * S) :=
  match ops with
  | [] => Some ([], s)
  | o :: ops => '(x, s) ← step o s; '(xs, s) ← run_ops step ops s; Some (x :: xs, s)
  end.

Lemma op_simulated o r : ring_ok c r -> simulated (fifo_op o (fifo_of r)) (ring_op o r).
Proof.
  intros Hr. destruct o as [node ok|node]; [|by apply dequeue_simulated].
  pose proof (queue_simulated node ok r Hr) as H. cbn [fifo_op ring_op].
  destruct (fifo_queue c node ok (fifo_of r)) as [[e q]|]; cbn [simulated mbind option_bind] in *;
    [|by rewrite H].
  destruct H as (r' & -> & H1 & H2). cbn [mbind option_bind]. eauto.
Qed.

Lemma run_simulated ops r : ring_ok c r ->
  simulated (run_ops fifo_op ops (fifo_of r)) (run_ops ring_op ops r).
Proof.
  revert r. induction ops as [|o ops IH]; intros r Hr; cbn [run_ops]; [by apply simulated_same|].
  pose proof (op_simulated o r Hr) as H.
  destruct (fifo_op o (fifo_of r)) as [[x q]|]; cbn [simulated mbind option_bind] in *; [|by rewrite H].
  destruct H as (r1 & -> & <- & Hr1). cbn [mbind option_bind]. specialize (IH r1 Hr1).
  destruct (run_ops fifo_op ops (fifo_of r1)) as [[xs q2]|]; cbn [simulated mbind option_bind] in *;
    [|by rewrite IH].
  destruct IH as (r2 & -> & H1 & H2). cbn [mbind option_bind]. eauto.
Qed.

(** C23: the ring of raw frames is a bounded first-in first-out queue: after
    [init_raw_flow], whatever sequence of queueing and dequeueing follows
    (with or without a file to be had when the queue is full), every return
    value, every node filled in for a caller, the frames held and the files
    saved are those of the abstract queue, which keeps one frame less than the
    ring has nodes; the run is undefined exactly where that queue says so: a
    frame that does not fit a node or a caller's buffer. *)
Theorem raw_flow_refines_fifo f n bufs r ops :
  s_width c = c_width f -> s_height c = c_height f -> s_format c = c_format f ->
  0 <= c_width f -> 0 <= c_height f -> (0 < s_nodes c)%nat -> n = Z.of_nat (s_nodes c) ->
  let bytes := c_width f * c_height f * (if bool_decide (c_format f ∈ bayer8) then 1 else 2) in
  bytes <= INT_MAX -> s_bytes c = Z.to_nat bytes ->
  (forall i, exists b, bufs bytes i = Some b /\ length b = s_bytes c) ->
  simulated (run_ops fifo_op ops ([], saved r))
    ('(_, r) ← init_raw_flow (Some f) n bufs r; run_ops ring_op ops r).
Proof.
  intros. destruct (init_empty f n bufs r) as (r' & -> & <- & Hr'); try done. by apply run_simulated.
Qed.

End Ring.

(** Two by one pixels of eight bits, three nodes. *)
Definition demo_fmt : capture_format := mkFmt 0 None 0 2 1 0 0 0x31384142 1 0 [2; 0; 0] 0.
Definition demo_shape : shape := mkShape 2 1 0x31384142 2 3.
Definition demo_node (buf : list Z) : capture_format := mkFmt 0 (Some buf) 2 2 1 0 0 0x31384142 1 0 [2; 0; 0] 0.
Definition demo_ops : list op :=
  [OQueue (Some (demo_node [1; 2])) true; OQueue (Some (demo_node [3; 4])) true; ODequeue (Some (demo_node [0; 0; 9]));
   OQueue (Some (demo_node [5; 6])) true; OQueue (Some (demo_node [7; 8])) true; ODequeue None].

Lemma raw_flow_refines_fifo_witness : exists r (xs : list result),
  ('(_, r) ← init_raw_flow (Some demo_fmt) 3 (fun n _ => Some (replicate (Z.to_nat n) 0)) no_ring;
   run_ops ring_op demo_ops r) = Some (xs, r) /\
  map fst xs = [ERR_RAW_FLOW_NONE; ERR_RAW_FLOW_NONE; ERR_RAW_FLOW_NONE; ERR_RAW_FLOW_NONE;
    ERR_RAW_FLOW_QUEUE_FULL; ERR_RAW_FLOW_QUEUE_EMPTY] /\
  ((xs !! 2%nat ≫= snd) ≫= c_buffer) = Some [1; 2; 9] /\ fifo_of r = ([], [[3; 4; 5; 6]]).
Proof.
  pose proof (raw_flow_refines_fifo demo_shape demo_fmt 3 (fun n _ => Some (replicate (Z.to_nat n) 0))
    no_ring demo_ops eq_refl eq_refl eq_refl ltac:(cbn; lia) ltac:(cbn; lia) ltac:(cbn; lia) eq_refl
    ltac:(vm_compute; congruence) eq_refl ltac:(intros i; eexists; split; [reflexivity|reflexivity])) as H.
  destruct (run_ops (fifo_op demo_shape) demo_ops ([], saved no_ring)) as [[xs q]|] eqn:E; [|vm_compute in E; done].
  vm_compute in E. injection E as <- <-. destruct H as (r & -> & H & _).
  eexists r, _. split; [reflexivity|]. split; [reflexivity|]. split; [reflexivity|exact H].
Defined.

End RawFlow.
