(* ===== verification/VoHCI.v ===== *)
(** * The voice-over-HCI service (wireless/bluetooth/VoHCI/vohci.c)

    A control thread keeps a session with the Bluetooth stack over two local
    sockets; during a session a receiving and a sending thread move 8 kHz or
    16 kHz samples between the data socket and a loop-back sound card.

    The control thread is a step machine: one step is one system call with its
    answer, so that [vohci_close] and the ends of the data threads interleave
    with it everywhere.  The loops of the data threads are functions of the
    answers of the kernel.  The sound library is a parameter. *)

From stdpp Require Import base tactics option list list_numbers numbers relations.
From Stdlib Require Import ZArith Lia.
From S2P Require Import Prelude.

Local Open Scope Z_scope.

Module VoHCI.

(** ** The control thread *)

Definition SCO_CTRL_CMD_OUT_START : Z := 2.
Definition SCO_CTRL_CMD_IN_START : Z := 3.
Definition SCO_CTRL_CMD_OUT_STOP : Z := 4.
Definition SCO_CTRL_CMD_IN_STOP : Z := 5.
Definition SCO_CTRL_GET_AUDIO_CONFIG : Z := 7.

(** The next system call of [vohci_ctrl_thread]. *)
Inductive ctrl_pc :=
| CSocket | CConnect | CSendIn | CSendOut | CSendCfg | CRecvCfg
| CDataSocket | CDataConnect | CCreateRecv | CCreateSend
| CJoinRecv | CJoinSend | CCloseData | CStopIn | CStopOut
| CErrRecv | CErrData | CErrCtrl | CDone | CExit.

Inductive thread := TNone | TRun | TEnded.

(** [struct vohci_t] without the sound configuration; [v_open] are the open
    descriptors and [v_cmds] the commands sent on the current control
    connection. *)
Record vohci_t := mkVohci {
  v_codec : list Z;
  v_ctrl_fd : Z;
  v_data_fd : Z;
  v_ctrl_running : bool;
  v_data_running : bool;
  v_recv : thread;
  v_send : thread;
  v_pc : ctrl_pc;
  v_open : list Z;
  v_cmds : list Z
}.

Definition goto (pc : ctrl_pc) (s : vohci_t) : vohci_t :=
  mkVohci (v_codec s) (v_ctrl_fd s) (v_data_fd s) (v_ctrl_running s) (v_data_running s)
    (v_recv s) (v_send s) pc (v_open s) (v_cmds s).
Definition set_codec (c : list Z) (s : vohci_t) : vohci_t :=
  mkVohci c (v_ctrl_fd s) (v_data_fd s) (v_ctrl_running s) (v_data_running s)
    (v_recv s) (v_send s) (v_pc s) (v_open s) (v_cmds s).
Definition set_ctrl_fd (fd : Z) (s : vohci_t) : vohci_t :=
  mkVohci (v_codec s) fd (v_data_fd s) (v_ctrl_running s) (v_data_running s)
    (v_recv s) (v_send s) (v_pc s) (v_open s) (v_cmds s).
Definition set_data_fd (fd : Z) (s : vohci_t) : vohci_t :=
  mkVohci (v_codec s) (v_ctrl_fd s) fd (v_ctrl_running s) (v_data_running s)
    (v_recv s) (v_send s) (v_pc s) (v_open s) (v_cmds s).
Definition set_running (ctrl data : bool) (s : vohci_t) : vohci_t :=
  mkVohci (v_codec s) (v_ctrl_fd s) (v_data_fd s) ctrl data
    (v_recv s) (v_send s) (v_pc s) (v_open s) (v_cmds s).
Definition set_threads (r w : thread) (s : vohci_t) : vohci_t :=
  mkVohci (v_codec s) (v_ctrl_fd s) (v_data_fd s) (v_ctrl_running s) (v_data_running s)
    r w (v_pc s) (v_open s) (v_cmds s).
Definition set_open (fds : list Z) (s : vohci_t) : vohci_t :=
  mkVohci (v_codec s) (v_ctrl_fd s) (v_data_fd s) (v_ctrl_running s) (v_data_running s)
    (v_recv s) (v_send s) (v_pc s) fds (v_cmds s).
Definition set_cmds (cmds : list Z) (s : vohci_t) : vohci_t :=
  mkVohci (v_codec s) (v_ctrl_fd s) (v_data_fd s) (v_ctrl_running s) (v_data_running s)
    (v_recv s) (v_send s) (v_pc s) (v_open s) cmds.

Definition close (fd : Z) (s : vohci_t) : vohci_t :=
  set_open (filter (fun x => x <> fd) (v_open s)) s.

(** [send] of one command byte; the peer gets it when one byte is taken. *)
Definition send_cmd (cmd res : Z) (s : vohci_t) : vohci_t :=
  if 0 <? res then set_cmds (v_cmds s ++ [cmd]) s else s.

(** One system call of the control thread: [res] is its result and [bs] the
    bytes received.  [None]: the call does not return now, or cannot answer
    so (a new descriptor is not one that is open, [recv] returns the number of
    bytes it stored). *)
Definition ctrl_step (res : Z) (bs : list Z) (s : vohci_t) : option vohci_t :=
  match v_pc s with
  | CSocket =>
      if res <? 0 then Some (goto CDone (set_ctrl_fd res s))
      else if bool_decide (res ∈ v_open s) then None
      else Some (goto CConnect (set_cmds [] (set_open (res :: v_open s) (set_ctrl_fd res s))))
  | CConnect => Some (goto (if res <? 0 then CErrCtrl else CSendIn) s)
  | CSendIn =>
      Some (goto (if res <=? 0 then CErrCtrl else CSendOut) (send_cmd SCO_CTRL_CMD_IN_START res s))
  | CSendOut =>
      Some (goto (if res <=? 0 then CErrCtrl else CSendCfg) (send_cmd SCO_CTRL_CMD_OUT_START res s))
  | CSendCfg =>
      Some (goto (if res <=? 0 then CErrCtrl else CRecvCfg) (send_cmd SCO_CTRL_GET_AUDIO_CONFIG res s))
  | CRecvCfg =>
      if res <=? 0 then Some (goto CErrCtrl s)
      else if (Z.of_nat (length bs) =? res) && (res <=? 10)
      then Some (goto CDataSocket (set_codec (write_at (v_codec s) 0 bs) s))
      else None
  | CDataSocket =>
      if res <? 0 then Some (goto CErrCtrl (set_data_fd res s))
      else if bool_decide (res ∈ v_open s) then None
      else Some (goto CDataConnect (set_open (res :: v_open s) (set_data_fd res s)))
  | CDataConnect =>
      if res <? 0 then Some (goto CErrData s)
      else Some (goto CCreateRecv (set_running (v_ctrl_running s) true s))
  | CCreateRecv =>
      if negb (res =? 0) then Some (goto CErrData s)
      else Some (goto CCreateSend (set_threads TRun (v_send s) s))
  | CCreateSend =>
      if negb (res =? 0) then Some (goto CErrRecv s)
      else Some (goto CJoinRecv (set_threads (v_recv s) TRun s))
  | CJoinRecv =>
      match v_recv s with
      | TEnded => Some (goto CJoinSend (set_threads TNone (v_send s) s))
      | _ => None
      end
  | CJoinSend =>
      match v_send s with
      | TEnded => Some (goto CCloseData (set_threads (v_recv s) TNone s))
      | _ => None
      end
  | CCloseData =>
      Some (goto CStopIn (close (v_data_fd s) (set_running (v_ctrl_running s) false s)))
  | CStopIn => Some (goto CStopOut (send_cmd SCO_CTRL_CMD_IN_STOP res s))
  | CStopOut => Some (goto CErrCtrl (send_cmd SCO_CTRL_CMD_OUT_STOP res s))
  | CErrRecv =>
      match v_recv s with
      | TEnded => Some (goto CErrData (set_threads TNone (v_send s) s))
      | _ => None
      end
  | CErrData =>
      Some (goto CErrCtrl (set_running (v_ctrl_running s) false (close (v_data_fd s) s)))
  | CErrCtrl => Some (goto CDone (close (v_ctrl_fd s) s))
  | CDone => Some (goto (if v_ctrl_running s then CSocket else CExit) s)
  | CExit => None
  end.

(** The static initialiser, before the control thread exists. *)
Definition vohci_init : vohci_t :=
  mkVohci (replicate 10 0) 0 0 false false TNone TNone CExit [] [].

(** [created] is the result of [pthread_create]. *)
Definition vohci_open (created : Z) (s : vohci_t) : Z * vohci_t :=
  let s := set_running true (v_data_running s) s in
  if negb (created =? 0) then (-1, s) else (0, goto CSocket s).

(** The stores of [vohci_close]; its [pthread_join] returns once the control
    thread is at [CExit]. *)
Definition vohci_close (s : vohci_t) : vohci_t := set_running false false s.

(** A data thread ends when its device cannot be opened, the pipe breaks or the
    flag is clear: at any time, for the control thread. *)
Inductive label :=
| LCtrl (res : Z) (bs : list Z)
| LRecvEnd
| LSendEnd
| LClose.

Definition vohci_step (l : label) (s : vohci_t) : option vohci_t :=
  match l with
  | LCtrl res bs => ctrl_step res bs s
  | LRecvEnd => match v_recv s with TRun => Some (set_threads TEnded (v_send s) s) | _ => None end
  | LSendEnd => match v_send s with TRun => Some (set_threads (v_recv s) TEnded s) | _ => None end
  | LClose => Some (vohci_close s)
  end.

Definition step (s s' : vohci_t) : Prop := exists l, vohci_step l s = Some s'.
Definition started : vohci_t := snd (vohci_open 0 vohci_init).
Definition reachable (s : vohci_t) : Prop := rtc step started s.

(** Runs a list of labels. *)
Fixpoint run (ls : list label) (s : vohci_t) : option vohci_t :=
  match ls with
  | [] => Some s
  | l :: ls => s' ← vohci_step l s; run ls s'
  end.

(** ** The receiving thread *)

(** [resample[n]]: a little-endian [int16_t] of the byte buffer. *)
Definition get16 (buf : list Z) (n : nat) : Z :=
  s16 (buf !!! (2 * n)%nat + 256 * buf !!! (2 * n + 1)%nat).
Definition set16 (buf : list Z) (n : nat) (v : Z) : list Z :=
  write_at buf (2 * n) [u8 v; u8 (Z.shiftr v 8)].

Definition package_size (rate : Z) : Z := if rate =? 16000 then 240 else 120.

(** [for (n = ...; k times; n++)], 16 kHz to 8 kHz in place. *)
Fixpoint down_loop (k n : nat) (buf : list Z) : list Z :=
  match k with
  | O => buf
  | S k => down_loop k (S n)
             (set16 buf n (Z.quot (get16 buf (n * 2) + get16 buf (n * 2 + 1)) 2))
  end.

(** One package: the buffer afterwards and the bytes given to [pcm_write]. *)
Definition recv_turn (rate : Z) (buf bs : list Z) : list Z * list Z :=
  let buf := write_at buf 0 bs in
  let len := Z.of_nat (length bs) in
  if rate =? 16000 then
    let len := len / 2 in
    let buf := down_loop (Z.to_nat (len / 2)) 0 buf in
    (buf, take (Z.to_nat len) buf)
  else (buf, take (Z.to_nat len) buf).

(** [vohci_recv_thread] after [vohci_play_init]: for every turn the flag and
    the answer of [recv] ([None] for a result that is not positive; [recv]
    stores at most a package).  Whether the thread ended, and the writes. *)
Fixpoint recv_loop (rate : Z) (evs : list (bool * option (list Z))) (buf : list Z)
  (out : list (list Z)) : bool * list (list Z) :=
  match evs with
  | [] => (false, out)
  | (running, ev) :: evs =>
      if negb running then (true, out) else
      match ev with
      | None => (true, out)
      | Some bs =>
          let '(buf, p) := recv_turn rate buf (take (Z.to_nat (package_size rate)) bs) in
          recv_loop rate evs buf (out ++ [p])
      end
  end.

(** ** The sending thread *)

Definition INT32_MAX : Z := 2 ^ 31 - 1.

(** [for (n = k - 1; n >= 0; n--)], 8 kHz to 16 kHz in place. *)
Fixpoint up_loop (k : nat) (buf : list Z) : list Z :=
  match k with
  | O => buf
  | S n =>
      let buf := set16 buf (n * 2 + 0) (get16 buf n) in
      let buf := set16 buf (n * 2 + 1) (get16 buf n) in
      up_loop n buf
  end.

(** [pcm_read] stores [len] = 120 bytes; its result is not looked at, so that
    [None] leaves the old bytes. *)
Definition fill_package (rate : Z) (buf : list Z) (pcm : option (list Z)) : list Z :=
  let buf := match pcm with Some bs => write_at buf 0 (take 120 bs) | None => buf end in
  if rate =? 16000 then up_loop (Z.to_nat (package_size rate / 2)) buf else buf.

(** The inner loop: the answers of [send] (at most [needs]), the byte count of
    the last one, what is still needed, the total, the stream so far.  [None]
    when an answer is missing; the flag tells a broken pipe. *)
Fixpoint send_pkg (res : list Z) (buf : list Z) (bytes needs total : Z) (out : list Z)
  : option (bool * list Z * Z * list Z) :=
  if negb ((0 <? needs) && (total <? INT32_MAX)) then Some (false, res, total, out) else
  match res with
  | [] => None
  | r :: res =>
      if r <=? 0 then Some (true, res, total, out)
      else
        let r := Z.min r needs in
        send_pkg res buf r (needs - r) (u64 (total + r))
          (out ++ take (Z.to_nat r) (drop (Z.to_nat bytes) buf))
  end.

(** The loop of [vohci_send_thread]: for every turn the flag, what [pcm_read]
    gives and the answers of [send]. *)
Fixpoint send_loop (rate : Z) (evs : list (bool * option (list Z) * list Z)) (buf : list Z)
  (total : Z) (out : list Z) : bool * list Z :=
  match evs with
  | [] => (false, out)
  | (running, pcm, res) :: evs =>
      if negb running then (true, out) else
      let buf := fill_package rate buf pcm in
      match send_pkg res buf 0 (package_size rate) total out with
      | None => (false, out)
      | Some (true, _, _, out) => (true, out)
      | Some (false, _, total, out) => send_loop rate evs buf total out
      end
  end.

(** ** The sound device *)

Inductive pcm_param :=
| PCM_PARAM_SAMPLE_BITS | PCM_PARAM_CHANNELS | PCM_PARAM_RATE | PCM_PARAM_PERIOD_SIZE
| PCM_PARAM_PERIODS.
Inductive pcm_format := PCM_FORMAT_S16_LE | PCM_FORMAT_S32_LE | PCM_FORMAT_S24_LE | PCM_FORMAT_S24_3LE.

Record pcm_config := mkConfig {
  channels : Z; rate : Z; period_size : Z; period_count : Z; format : pcm_format
}.

(** [pcm_params_get], [pcm_params_get_min/max] and [pcm_open] with
    [pcm_is_ready] belong to tinyalsa. *)
Section Device.
  Context (pcm_params_get : Z -> Z -> option (pcm_param -> Z * Z)).
  Context (pcm_open : Z -> Z -> bool -> pcm_config -> bool).

Definition pcm_check_param (params : pcm_param -> Z * Z) (param : pcm_param) (value : Z) : Z :=
  let '(min, max) := params param in
  let is_within_bounds := 1 in
  let is_within_bounds := if value <? min then 0 else is_within_bounds in
  if max <? value then 0 else is_within_bounds.

Definition pcm_is_playable (card device channels rate bits period_size period_count : Z) : Z :=
  match pcm_params_get card device with
  | None => 0
  | Some params =>
      let can_play := pcm_check_param params PCM_PARAM_RATE rate in
      let can_play := Z.land can_play (pcm_check_param params PCM_PARAM_CHANNELS channels) in
      let can_play := Z.land can_play (pcm_check_param params PCM_PARAM_SAMPLE_BITS bits) in
      let can_play := Z.land can_play (pcm_check_param params PCM_PARAM_PERIOD_SIZE period_size) in
      Z.land can_play (pcm_check_param params PCM_PARAM_PERIODS period_count)
  end.

(** [None] is NULL. *)
Definition vohci_play_init (card device channels rate bits period_size period_count : Z)
  : option pcm_config :=
  let format := if bits =? 32 then PCM_FORMAT_S32_LE
                else if bits =? 24 then PCM_FORMAT_S24_3LE
                else PCM_FORMAT_S16_LE in
  let config := mkConfig channels rate period_size period_count format in
  if pcm_is_playable card device channels rate bits period_size period_count =? 0 then None
  else if pcm_open card device true config then Some config else None.

Definition vohci_capture_init (card device channels rate bits period_size period_count : Z)
  : option pcm_config :=
  let open format :=
    let config := mkConfig channels rate period_size period_count format in
    if pcm_open card device false config then Some config else None in
  if bits =? 32 then open PCM_FORMAT_S32_LE
  else if bits =? 24 then open PCM_FORMAT_S24_LE
  else if bits =? 16 then open PCM_FORMAT_S16_LE
  else None.
End Device.

(** ** The configuration *)

(** Characters. *)
Definition c_LF : Z := 10.
Definition c_CR : Z := 13.
Definition c_0 : Z := 48.
Definition s_card : list Z := [99; 97; 114; 100].

(** [strtoul(s, 0, 0)], [unsigned long] of 64 bits. *)
Definition digit_val (c : Z) : Z :=
  if (48 <=? c) && (c <=? 57) then c - 48
  else if (97 <=? c) && (c <=? 122) then c - 87
  else if (65 <=? c) && (c <=? 90) then c - 55
  else 99.

Fixpoint digits (base : Z) (l : list Z) (acc : Z) : Z :=
  match l with
  | c :: l => if digit_val c <? base then digits base l (acc * base + digit_val c) else acc
  | [] => acc
  end.

Fixpoint skip_spaces (l : list Z) : list Z :=
  match l with
  | c :: l' => if (c =? 32) || ((9 <=? c) && (c <=? 13)) then skip_spaces l' else l
  | [] => []
  end.

Definition ULONG_MAX : Z := 2 ^ 64 - 1.

Definition unsigned_prefix (l : list Z) : Z :=
  match l with
  | 48 :: x :: d :: _ =>
      if ((x =? 120) || (x =? 88)) && (digit_val d <? 16) then digits 16 (drop 2 l) 0
      else digits 8 l 0
  | 48 :: _ => digits 8 l 0
  | _ => digits 10 l 0
  end.

Definition strtoul (l : list Z) : Z :=
  let '(neg, l) := match skip_spaces l with
                   | 45 :: l => (true, l)
                   | 43 :: l => (false, l)
                   | l => (false, l)
                   end in
  let v := unsigned_prefix l in
  if ULONG_MAX <? v then ULONG_MAX else if (neg : bool) then u64 (- v) else v.

(** [struct pcmcfg_t] *)
Record pcmcfg_t := mkCfg {
  cfg_name : list Z; cfg_card : Z; cfg_device : Z; cfg_channels : Z; cfg_bits : Z;
  cfg_rate : Z; cfg_period_size : Z; cfg_period_count : Z
}.

(** One option of [getopt_long] ([None]: the help text and [exit]). *)
Definition apply_opt (c : pcmcfg_t) (opt : Z) (optarg : list Z) : option pcmcfg_t :=
  let '(mkCfg nm cd dv ch b r ps pc) := c in
  if opt =? 68 then Some (mkCfg optarg cd dv ch b r ps pc)
  else if opt =? 100 then Some (mkCfg nm cd (s32 (strtoul optarg)) ch b r ps pc)
  else if opt =? 112 then Some (mkCfg nm cd dv ch b r (u32 (strtoul optarg)) pc)
  else if opt =? 110 then Some (mkCfg nm cd dv ch b r ps (u32 (strtoul optarg)))
  else if opt =? 99 then Some (mkCfg nm cd dv (u32 (strtoul optarg)) b r ps pc)
  else if opt =? 98 then Some (mkCfg nm cd dv ch (u32 (strtoul optarg)) r ps pc)
  else if opt =? 114 then Some (mkCfg nm cd dv ch b (u32 (strtoul optarg)) ps pc)
  else None.

(** [strstr(s, sub) != NULL] *)
Fixpoint has_sub (sub s : list Z) : bool :=
  bool_decide (take (length sub) s = sub) ||
  match s with [] => false | _ :: s => has_sub sub s end.

(** [for (i = k; i > 0; i--)]: line ends become NUL and shorten the text. *)
Fixpoint trim_loop (i : nat) (buf : list Z) (sz : Z) : list Z * Z :=
  match i with
  | O => (buf, sz)
  | S j =>
      if (buf !!! i =? c_CR) || (buf !!! i =? c_LF) then trim_loop j (<[i := 0]> buf) (sz - 1)
      else trim_loop j buf sz
  end.

(** The directory: names and what their [id] file holds. *)
Definition entry : Type := list Z * option (list Z).

(** The loop over the directory; [buf] keeps its bytes from turn to turn. *)
Fixpoint scan_cards (name : list Z) (es : list entry) (buf : list Z) : Z :=
  match es with
  | [] => -1
  | (d_name, id) :: es =>
      if has_sub s_card d_name then
        match id with
        | None => scan_cards name es buf
        | Some content =>
            let got := take 16 content in
            let sz := Z.of_nat (length got) in
            let buf := write_at buf 0 got in
            if sz <=? 0 then scan_cards name es buf else
            let '(buf, sz) := trim_loop (Z.to_nat (sz - 1)) buf sz in
            if (sz =? Z.of_nat (length name)) && bool_decide (take (Z.to_nat sz) buf = take (Z.to_nat sz) name)
            then s32 (strtoul (drop 4 d_name))
            else scan_cards name es buf
        end
      else scan_cards name es buf
  end.

Fixpoint apply_opts (c : pcmcfg_t) (opts : list (Z * list Z)) : option pcmcfg_t :=
  match opts with
  | [] => Some c
  | (opt, optarg) :: opts => c ← apply_opt c opt optarg; apply_opts c opts
  end.

(** [None] is [exit(0)]; [dir] is [None] when the directory cannot be opened. *)
Definition load_config (c : pcmcfg_t) (opts : list (Z * list Z)) (dir : option (list entry))
  (buf : list Z) : option (Z * pcmcfg_t) :=
  c ← apply_opts c opts;
  match dir with
  | None => Some (-1, c)
  | Some es =>
      let cardnum := scan_cards (cfg_name c) es buf in
      if cardnum =? -1 then Some (-1, c)
      else Some (0, mkCfg (cfg_name c) cardnum (cfg_device c) (cfg_channels c) (cfg_bits c)
                      (cfg_rate c) (cfg_period_size c) (cfg_period_count c))
  end.

(** ** Invariant of the control thread *)

(** Which descriptors are open and which threads exist before each call. *)
Definition has_ctrl (pc : ctrl_pc) : bool :=
  match pc with CSocket | CDone | CExit => false | _ => true end.
Definition has_data (pc : ctrl_pc) : bool :=
  match pc with
  | CDataConnect | CCreateRecv | CCreateSend | CJoinRecv | CJoinSend | CCloseData | CErrRecv
  | CErrData => true
  | _ => false
  end.
Definition has_recv (pc : ctrl_pc) : bool :=
  match pc with CCreateSend | CJoinRecv | CErrRecv => true | _ => false end.
Definition has_send (pc : ctrl_pc) : bool :=
  match pc with CJoinRecv | CJoinSend => true | _ => false end.

Definition start_cmds : list Z :=
  [SCO_CTRL_CMD_IN_START; SCO_CTRL_CMD_OUT_START; SCO_CTRL_GET_AUDIO_CONFIG].
Definition stop_cmds : list Z := [SCO_CTRL_CMD_IN_STOP; SCO_CTRL_CMD_OUT_STOP].

(** The commands of a session: a part of the opening sequence, or all of it and
    the closing commands the peer took. *)
Definition session_cmds (cmds : list Z) : Prop :=
  (exists k, cmds = take k start_cmds) \/
  (exists stops, stops `sublist_of` stop_cmds /\ cmds = start_cmds ++ stops).

Definition cmds_at (pc : ctrl_pc) (cmds : list Z) : Prop :=
  match pc with
  | CConnect | CSendIn => cmds = []
  | CSendOut => cmds = take 1 start_cmds
  | CSendCfg => cmds = take 2 start_cmds
  | CStopOut => cmds = start_cmds \/ cmds = start_cmds ++ take 1 stop_cmds
  | CSocket | CErrCtrl | CDone | CExit => session_cmds cmds
  | _ => cmds = start_cmds
  end.

Record ctrl_inv (s : vohci_t) : Prop := {
  inv_open : v_open s = (if has_data (v_pc s) then [v_data_fd s] else []) ++
                        (if has_ctrl (v_pc s) then [v_ctrl_fd s] else []);
  inv_nodup : NoDup (v_open s);
  inv_recv : v_recv s = TNone <-> has_recv (v_pc s) = false;
  inv_send : v_send s = TNone <-> has_send (v_pc s) = false;
  inv_flag : v_data_running s = true -> has_data (v_pc s) = true;
  inv_cmds : cmds_at (v_pc s) (v_cmds s)
}.

Lemma session_prefix k : session_cmds (take k start_cmds).
Proof. left. by exists k. Qed.
Lemma session_stops stops : stops `sublist_of` stop_cmds -> session_cmds (start_cmds ++ stops).
Proof. right. by exists stops. Qed.

Lemma filter_fd_pair (a b : Z) : a <> b -> filter (fun x => x <> a) [a; b] = [b].
Proof.
  intros H. rewrite filter_cons_False by tauto. by rewrite filter_cons_True, filter_nil by congruence.
Qed.
Lemma fd_distinct (a b : Z) : NoDup [a; b] -> a <> b.
Proof. intros [H _]%NoDup_cons ->. apply H. by apply list_elem_of_singleton. Qed.
Lemma filter_fd_one (a : Z) : filter (fun x => x <> a) [a] = [].
Proof. by rewrite filter_cons_False, filter_nil by tauto. Qed.

Lemma send_cmd_rest cmd res s :
  send_cmd cmd res s = set_cmds (v_cmds s ++ (if 0 <? res then [cmd] else [])) s.
Proof. unfold send_cmd. case_match; [done|]. rewrite app_nil_r. by destruct s. Qed.

Lemma session_after_stop cm l :
  cm = start_cmds \/ cm = start_cmds ++ take 1 stop_cmds -> l = [] \/ l = drop 1 stop_cmds ->
  session_cmds (cm ++ l).
Proof.
  intros [->| ->] [->| ->]; rewrite <- ?app_assoc; apply session_stops;
    by repeat constructor.
Qed.

(** Closes what the case analysis of a step leaves open. *)
Ltac ctrl_solve :=
  match goal with
  | |- session_cmds (_ ++ _) => apply session_after_stop; eauto
  | |- session_cmds [] => exact (session_prefix 0)
  | |- session_cmds [_] => exact (session_prefix 1)
  | |- session_cmds [_; _] => exact (session_prefix 2)
  | |- session_cmds _ => exact (session_prefix 3)
  | |- context [filter _ [_; _]] => rewrite filter_fd_pair by (by apply fd_distinct); first [done | apply NoDup_singleton]
  | |- context [filter _ [_]] => rewrite filter_fd_one; first [done | apply NoDup_nil_2]
  | |- NoDup [_] => apply NoDup_singleton
  | |- NoDup [_; _] => apply NoDup_cons; split; [eapply bool_decide_eq_false_1; eassumption|apply NoDup_singleton]
  | |- _ <-> _ => split; congruence
  | _ => exfalso; lia
  end.

Lemma ctrl_step_inv res bs s s' : ctrl_inv s -> ctrl_step res bs s = Some s' -> ctrl_inv s'.
Proof.
  destruct s as [c cf df cr dr r w pc op cm]. intros [Ho Hn Hr Hs Hf Hc]. unfold ctrl_step.
  destruct pc; cbn -[take Z.ltb Z.leb filter] in *; subst; rewrite ?send_cmd_rest;
    cbn -[take Z.ltb Z.leb filter]; repeat case_match; try done; intros [= <-];
    constructor; cbn -[take Z.ltb Z.leb filter]; subst; eauto.
  all: ctrl_solve.
Qed.

Lemma vohci_step_inv s s' : ctrl_inv s -> step s s' -> ctrl_inv s'.
Proof.
  intros Hi [[res bs| | |] H]; cbn in H; [by eapply ctrl_step_inv|..].
  all: destruct s as [c cf df cr dr r w pc op cm], Hi as [Ho Hn Hr Hs Hf Hc]; cbn in *.
  1: destruct r; try done. 2: destruct w; try done.
  all: injection H as <-; constructor; cbn; try done.
  all: split; [done|]; intros E; (apply Hr in E || apply Hs in E); done.
Qed.

Lemma reachable_ctrl_inv s : reachable s -> ctrl_inv s.
Proof.
  assert (ctrl_inv started) as H0.
  { constructor; cbn; try done; [apply NoDup_nil_2|exact (session_prefix 0)]. }
  revert H0. unfold reachable. intros H0 H. revert H0.
  induction H as [|s1 s2 s3 E _ IH]; [done|]. intros Hi. apply IH. by eapply vohci_step_inv.
Qed.

Definition alive (t : thread) : bool := match t with TRun => true | _ => false end.

(** C38: whatever the kernel answers and whenever [vohci_close] is called, a
    session is safe.  Descriptors: at most the control and the data socket are
    open, each once, and between two sessions and at the exit none is.
    Threads: a data thread runs only while its socket is open and the peer has
    been asked to start and for its codec; between two sessions none exists and the
    flag is clear.  The peer gets the opening commands in order, and the closing
    ones only after all of them. *)
Theorem sessions_safe s :
  reachable s ->
  NoDup (v_open s) /\ v_open s ⊆ [v_data_fd s; v_ctrl_fd s] /\
  (alive (v_recv s) = true \/ alive (v_send s) = true ->
   v_data_fd s ∈ v_open s /\ v_cmds s = start_cmds) /\
  (v_pc s ∈ [CSocket; CDone; CExit] ->
   v_open s = [] /\ v_recv s = TNone /\ v_send s = TNone /\ v_data_running s = false) /\
  session_cmds (v_cmds s).
Proof.
  intros [Ho Hn Hr Hs Hf Hc]%reachable_ctrl_inv. destruct s as [c cf df cr dr r w pc op cm]. cbn in *.
  split_and!.
  - done.
  - rewrite Ho. destruct (has_data pc), (has_ctrl pc); cbn; set_solver.
  - intros Ha. assert (has_recv pc = true \/ has_send pc = true) as Hp.
    { destruct (has_recv pc), (has_send pc); auto.
      rewrite (proj2 Hr), (proj2 Hs) in Ha by done. cbn in Ha. naive_solver. }
    destruct pc; cbn in Hp; try (destruct Hp; discriminate);
      cbn in Ho, Hc; subst op; (split; [set_solver|done]).
  - intros Hp. assert (has_data pc = false) as Hd by (destruct pc; set_solver).
    destruct dr; [rewrite Hf in Hd; done|].
    repeat (apply elem_of_cons in Hp as [->|Hp]; [cbn in *; split_and!; [done|by apply Hr|by apply Hs|done]|]).
    by apply not_elem_of_nil in Hp.
  - destruct pc; cbn in Hc; subst; try done; try exact (session_prefix 0);
      try exact (session_prefix 1); try exact (session_prefix 2); try exact (session_prefix 3).
    rewrite <- (app_nil_r cm). apply session_after_stop; auto.
Qed.

(** Up to the start of both data threads. *)
Definition full_start : list label :=
  [LCtrl 7 []; LCtrl 0 []; LCtrl 1 []; LCtrl 1 []; LCtrl 1 [];
   LCtrl 10 [1; 1; 16; 128; 62; 1; 1; 16; 128; 62]; LCtrl 8 []; LCtrl 0 []; LCtrl 0 []; LCtrl 0 []].

Lemma run_reachable ls : forall s s', run ls s = Some s' -> rtc step s s'.
Proof.
  induction ls as [|l ls IH]; intros s s'; cbn; [by intros [= ->]|].
  destruct (vohci_step l s) as [s1|] eqn:E; [|done]. cbn. intros H.
  eapply rtc_l; [by exists l|by apply IH].
Qed.

Lemma sessions_safe_witness :
  exists s, run full_start started = Some s /\ v_recv s = TRun /\ v_data_fd s ∈ v_open s.
Proof.
  eexists. split; [vm_compute; reflexivity|]. split; [reflexivity|].
  apply (sessions_safe (mkVohci [1; 1; 16; 128; 62; 1; 1; 16; 128; 62] 7 8 true true TRun TRun
    CJoinRecv [8; 7] start_cmds)); [|left; reflexivity].
  apply (run_reachable full_start). vm_compute. reflexivity.
Defined.

(** A close that comes before the flag is set is lost: the data threads start
    with the flag set although the service is stopping, and [vohci_close] waits
    for them. *)
Theorem close_lost :
  exists s, reachable s /\ v_ctrl_running s = false /\ v_data_running s = true /\
    v_recv s = TRun /\ v_send s = TRun /\ v_pc s = CJoinRecv.
Proof.
  eexists. split_and!; [apply (run_reachable (LClose :: full_start)); vm_compute; reflexivity|done..].
Qed.

(** ** Resampling *)

Lemma s16_range x : - 2 ^ 15 <= s16 x < 2 ^ 15.
Proof. unfold s16. pose proof (Z.mod_pos_bound (x + 2 ^ 15) (2 ^ 16)). lia. Qed.

Lemma s16_bytes v : - 2 ^ 15 <= v < 2 ^ 15 -> s16 (u8 v + 256 * u8 (Z.shiftr v 8)) = v.
Proof.
  intros Hv. unfold s16, u8. rewrite Z.shiftr_div_pow2 by lia.
  change (2 ^ 15) with 32768 in *. change (2 ^ 16) with 65536. change (2 ^ 8) with 256.
  lia_mod.
Qed.

Lemma lookup_total_write_at (l : list Z) off src i :
  (off + length src <= length l)%nat ->
  write_at l off src !!! i
  = if decide (off <= i < off + length src)%nat then src !!! (i - off)%nat else l !!! i.
Proof.
  intros H. unfold write_at. case_decide as Hi; rewrite !list_lookup_total_alt; f_equal.
  - rewrite lookup_app_r, lookup_app_l by (rewrite length_take; lia).
    f_equal. rewrite length_take. lia.
  - destruct (decide (i < off)%nat).
    + rewrite lookup_app_l by (rewrite length_take; lia). by apply lookup_take_lt.
    + rewrite !lookup_app_r by (rewrite ?length_take; lia). rewrite lookup_drop. f_equal.
      rewrite length_take. lia.
Qed.

Lemma length_set16 buf m v : (2 * m + 1 < length buf)%nat -> length (set16 buf m v) = length buf.
Proof. intros. unfold set16. apply length_write_at. cbn. lia. Qed.

Lemma get16_set16 buf m n v :
  (2 * m + 1 < length buf)%nat -> - 2 ^ 15 <= v < 2 ^ 15 ->
  get16 (set16 buf m v) n = if decide (n = m) then v else get16 buf n.
Proof.
  intros Hm Hv. unfold get16, set16. rewrite !lookup_total_write_at by (cbn; lia). cbn [length].
  destruct (decide (n = m)) as [->|Hn].
  - rewrite !decide_True by lia.
    replace (2 * m - 2 * m)%nat with 0%nat by lia. replace (2 * m + 1 - 2 * m)%nat with 1%nat by lia.
    cbn [lookup_total list_lookup_total]. by apply s16_bytes.
  - rewrite !decide_False by lia. done.
Qed.

(** The mean of two samples is a sample. *)
Lemma avg_range a b :
  - 2 ^ 15 <= a < 2 ^ 15 -> - 2 ^ 15 <= b < 2 ^ 15 -> - 2 ^ 15 <= Z.quot (a + b) 2 < 2 ^ 15.
Proof. intros. change (2 ^ 15) with 32768 in *. lia_mod. Qed.

(** The in-place loops never read a sample they have written over. *)
Lemma down_loop_spec k : forall n buf i,
  (4 * (n + k) <= length buf)%nat ->
  get16 (down_loop k n buf) i
  = if decide (n <= i < n + k)%nat
    then Z.quot (get16 buf (i * 2) + get16 buf (i * 2 + 1)) 2 else get16 buf i.
Proof.
  induction k as [|k IH]; intros n buf i Hl; cbn [down_loop]; [by rewrite decide_False by lia|].
  pose proof (avg_range _ _ (s16_range _) (s16_range _) :
    - 2 ^ 15 <= Z.quot (get16 buf (n * 2) + get16 buf (n * 2 + 1)) 2 < 2 ^ 15) as Hv.
  rewrite IH by (rewrite length_set16; lia). rewrite !get16_set16 by (done || lia).
  destruct (decide (i = n)) as [->|Hi].
  - rewrite decide_False by lia. by rewrite decide_True by lia.
  - destruct (decide (S n <= i < S n + k)%nat).
    + rewrite !(decide_False (P := (_ = n))) by lia. by rewrite decide_True by lia.
    + by rewrite decide_False by lia.
Qed.

Lemma length_down_loop k : forall n buf,
  (4 * (n + k) <= length buf)%nat -> length (down_loop k n buf) = length buf.
Proof.
  induction k as [|k IH]; intros n buf Hl; cbn [down_loop]; [done|].
  rewrite IH; rewrite length_set16; lia.
Qed.

Lemma up_loop_spec k : forall buf i,
  (4 * k <= length buf)%nat ->
  get16 (up_loop k buf) i = if decide (i < 2 * k)%nat then get16 buf (i / 2) else get16 buf i.
Proof.
  induction k as [|k IH]; intros buf i Hl; cbn [up_loop]; [by rewrite decide_False by lia|].
  set (b1 := set16 buf (k * 2 + 0) (get16 buf k)).
  assert (length b1 = length buf) as L1 by (unfold b1; rewrite length_set16; lia).
  assert (forall m, get16 b1 m = if decide (m = k * 2)%nat then get16 buf k else get16 buf m) as G1.
  { intros m. unfold b1. rewrite Nat.add_0_r. apply get16_set16; [lia|apply s16_range]. }
  rewrite IH by (rewrite length_set16; lia).
  rewrite !get16_set16 by (apply s16_range || lia). rewrite !G1.
  assert (i / 2 <= i)%nat by (apply Nat.Div0.div_le_upper_bound; lia).
  pose proof (Nat.div_mod_eq i 2). pose proof (Nat.mod_upper_bound i 2 ltac:(lia)).
  destruct (decide (i < 2 * k)%nat) as [Hi|Hi].
  - rewrite !(decide_False (P := (i / 2)%nat = _)) by lia. by rewrite decide_True by lia.
  - destruct (decide (i = k * 2)%nat) as [->|Hi0]; [|destruct (decide (i = k * 2 + 1)%nat) as [->|Hi1]].
    + rewrite decide_False, decide_True by lia. f_equal. lia.
    + rewrite (decide_True (P := (_ < _)%nat)) by lia. case_decide; f_equal; lia.
    + rewrite !decide_False by lia. done.
Qed.

Lemma length_up_loop k : forall buf,
  (4 * k <= length buf)%nat -> length (up_loop k buf) = length buf.
Proof.
  induction k as [|k IH]; intros buf Hl; cbn [up_loop]; [done|].
  rewrite IH; rewrite !length_set16; rewrite ?length_set16; lia.
Qed.

(** The samples of a byte string, and what resampling means for them. *)
Definition samples (l : list Z) : list Z := map (get16 l) (seq 0 (length l / 2)).
Definition halve (s : list Z) : list Z :=
  map (fun i => Z.quot (s !!! (i * 2)%nat + s !!! (i * 2 + 1)%nat) 2) (seq 0 (length s / 2)).
Definition doubled (s : list Z) : list Z :=
  map (fun i => s !!! (i / 2)%nat) (seq 0 (2 * length s)).

Lemma samples_lookup l i : (i < length l / 2)%nat -> samples l !!! i = get16 l i.
Proof.
  intros H. unfold samples. rewrite list_lookup_total_alt, list_lookup_fmap, lookup_seq_lt by done.
  done.
Qed.

Lemma map_seq_ext (f g : nat -> Z) n m :
  n = m -> (forall i, (i < n)%nat -> f i = g i) -> map f (seq 0 n) = map g (seq 0 m).
Proof. intros -> H. apply map_ext_in. intros i Hi%in_seq. apply H. lia. Qed.

Lemma get16_take n l i : (2 * i + 1 < n)%nat -> get16 (take n l) i = get16 l i.
Proof. intros H. unfold get16. by rewrite !list_lookup_total_alt, !lookup_take_lt by lia. Qed.

Lemma get16_write_0 buf bs i :
  (length bs <= length buf)%nat -> (2 * i + 1 < length bs)%nat ->
  get16 (write_at buf 0 bs) i = get16 bs i.
Proof.
  intros Hl Hi. unfold get16. rewrite !lookup_total_write_at, !decide_True by lia.
  by rewrite !Nat.sub_0_r.
Qed.

Lemma div_mult4 k : (4 * k / 2 = 2 * k)%nat /\ (2 * k / 2 = k)%nat.
Proof.
  split; [replace (4 * k)%nat with (2 * k * 2)%nat by lia|rewrite (Nat.mul_comm 2 k)];
    apply Nat.div_mul; lia.
Qed.

(** One package of 16 kHz samples. *)
Lemma recv_turn_16k buf bs k buf' p :
  length bs = (4 * k)%nat -> (length bs <= length buf)%nat -> recv_turn 16000 buf bs = (buf', p) ->
  length buf' = length buf /\ samples p = halve (samples bs).
Proof.
  intros Hb Hl. unfold recv_turn. change (16000 =? 16000) with true. cbv iota zeta. rewrite Hb.
  replace (Z.to_nat (Z.of_nat (4 * k) / 2 / 2)) with k by lia_mod.
  replace (Z.to_nat (Z.of_nat (4 * k) / 2)) with (2 * k)%nat by lia_mod.
  set (W := write_at buf 0 bs). assert (length W = length buf) as HW by (by apply length_write_at).
  intros [<- <-]%pair_equal_spec. rewrite length_down_loop by lia. split; [done|].
  destruct (div_mult4 k) as [D1 D2].
  unfold halve, samples at 1. apply map_seq_ext.
  - unfold samples. rewrite length_take, length_down_loop, length_map, length_seq by lia.
    rewrite Hb, D1, Nat.min_l by lia. done.
  - rewrite length_take, length_down_loop, Nat.min_l, D2 by lia. intros i Hi.
    rewrite get16_take, down_loop_spec, decide_True by lia. unfold W.
    rewrite !get16_write_0, !samples_lookup by (rewrite ?Hb, ?D1; lia). done.
Qed.

(** At 16 kHz the receiving thread plays, for every package of whole pairs
    of samples, exactly the means of the pairs, whatever was in the buffer; at
    any other rate it plays the packages unchanged.  It ends with the pipe. *)
Theorem recv_loop_plays rate pkgs buf running :
  length buf = 1024%nat ->
  Forall (fun bs => Z.of_nat (length bs) <= package_size rate /\ (length bs mod 4 = 0)%nat) pkgs ->
  exists outs,
    recv_loop rate (map (fun bs => (true, Some bs)) pkgs ++ [(running, None)]) buf [] = (true, outs) /\
    if rate =? 16000 then map samples outs = map (fun bs => halve (samples bs)) pkgs
    else outs = pkgs.
Proof.
  intros Hb HF.
  cut (forall out, exists outs,
    recv_loop rate (map (fun bs => (true, Some bs)) pkgs ++ [(running, None)]) buf out
      = (true, out ++ outs) /\
    if rate =? 16000 then map samples outs = map (fun bs => halve (samples bs)) pkgs
    else outs = pkgs); [intros H; apply (H [])|].
  revert buf Hb. induction HF as [|bs pkgs [Hl Hm] HF IH]; intros buf Hb out; cbn [map app recv_loop].
  - exists []. rewrite app_nil_r. split; [by destruct running|by case_match].
  - cbn [negb]. rewrite take_ge by lia. destruct (recv_turn rate buf bs) as [buf' p] eqn:E.
    assert (package_size rate <= 240) as Hp by (unfold package_size; case_match; lia).
    destruct (Z.eqb_spec rate 16000) as [->|Hr].
    + apply (recv_turn_16k _ _ (length bs / 4)) in E as [L S].
      2:{ apply Nat.Div0.div_exact in Hm. lia. }
      2:{ lia. }
      destruct (IH buf' ltac:(lia) (out ++ [p])) as (outs & -> & Ho).
      exists (p :: outs). rewrite <- app_assoc. cbn [map]. by rewrite S, Ho.
    + unfold recv_turn in E. rewrite (proj2 (Z.eqb_neq _ _)), Nat2Z.id in E by done.
      rewrite take_write_at in E by lia. injection E as <- <-.
      destruct (IH (write_at buf 0 bs)) with (out := out ++ [bs]) as (outs & E & ->).
      { rewrite length_write_at; lia. }
      cbn [take app]. rewrite E, <- app_assoc. by exists (bs :: pkgs).
Qed.

Lemma recv_loop_plays_witness :
  exists outs, recv_loop 16000 [(true, Some [10; 0; 20; 0]); (true, None)] (replicate 1024 7) []
    = (true, outs) /\ map samples outs = [[15]].
Proof.
  apply (recv_loop_plays 16000 [[10; 0; 20; 0]] (replicate 1024 7) true);
    [reflexivity|repeat constructor; vm_compute; discriminate].
Defined.

(** ** The sending side *)

(** A package sent in one or two pieces is sent whole and in order. *)
Lemma send_pkg_two res buf needs total out a :
  0 < a <= needs -> 0 <= total -> total + needs <= INT32_MAX ->
  res = [needs] \/ res = [a; needs - a] /\ a < needs ->
  send_pkg res buf 0 needs total out
  = Some (false, [], total + needs, out ++ take (Z.to_nat needs) buf).
Proof.
  intros Ha Ht0 Ht Hres. unfold INT32_MAX in Ht.
  assert (forall x, 0 <= x <= 2 ^ 31 -> u64 x = x) as Hu by (intros; unfold u64; apply Z.mod_small; lia).
  assert (forall n, 0 < n -> total + (needs - n) < INT32_MAX) as Hlt by (unfold INT32_MAX; lia).
  assert ((0 <? needs) && (total <? INT32_MAX) = true) as Hgo
    by (rewrite !(proj2 (Z.ltb_lt _ _)); unfold INT32_MAX; lia).
  destruct Hres as [->|[-> Hlt2]]; cbn [send_pkg]; rewrite Hgo; cbn [negb].
  - rewrite (proj2 (Z.leb_gt _ _)), Z.min_id, Z.sub_diag, Hu by lia. done.
  - rewrite (proj2 (Z.leb_gt a 0)), Z.min_l, Hu by lia.
    assert ((0 <? needs - a) && (total + a <? INT32_MAX) = true) as ->
      by (rewrite !(proj2 (Z.ltb_lt _ _)); unfold INT32_MAX; lia). cbn [negb].
    rewrite (proj2 (Z.leb_gt _ _)), Z.min_id, Z.sub_diag, Hu by lia.
    change (0 <? 0) with false. cbn [andb negb].
    replace (total + a + (needs - a)) with (total + needs) by lia. rewrite <- app_assoc. do 4 f_equal.
    change (Z.to_nat 0) with 0%nat. rewrite drop_0.
    rewrite <- (take_drop (Z.to_nat a) (take (Z.to_nat needs) buf)).
    rewrite take_take, Nat.min_l, take_drop_commute by lia. f_equal.
    do 2 f_equal. lia.
Qed.

(** The package made from 120 captured bytes. *)
Definition captured_package (rate : Z) (pcm : list Z) (p : list Z) : Prop :=
  if rate =? 16000 then samples p = doubled (samples pcm) else p = pcm.

Lemma fill_package_spec rate buf pcm :
  length buf = 1024%nat -> length pcm = 120%nat ->
  let buf' := fill_package rate buf (Some pcm) in
  length buf' = 1024%nat /\
  captured_package rate pcm (take (Z.to_nat (package_size rate)) buf').
Proof.
  intros Hb Hp. unfold fill_package, captured_package, package_size. rewrite take_ge by lia.
  set (W := write_at buf 0 pcm).
  assert (length W = 1024%nat) as HW by (unfold W; rewrite length_write_at; lia).
  destruct (rate =? 16000); cbv zeta.
  - change (Z.to_nat (240 / 2)) with 120%nat. change (Z.to_nat 240) with 240%nat.
    rewrite length_up_loop by lia. split; [done|].
    unfold samples at 1, doubled. rewrite length_take, length_up_loop, HW by lia.
    apply map_seq_ext; [unfold samples; by rewrite length_map, length_seq, Hp|].
    change (240 `min` 1024 / 2)%nat with 120%nat. intros i Hi.
    assert (i / 2 < 60)%nat by (apply Nat.Div0.div_lt_upper_bound; lia).
    rewrite get16_take, up_loop_spec, decide_True by lia. unfold W.
    rewrite get16_write_0, samples_lookup; rewrite ?Hp; [done|change (120 / 2)%nat with 60%nat; lia|lia|lia].
  - split; [done|]. unfold W. rewrite take_write_at by (rewrite ?Hp; (done || lia)). done.
Qed.

(** One turn: a captured package and the pieces in which it is taken. *)
Definition turn_ok (rate : Z) (t : list Z * list Z) : Prop :=
  length (fst t) = 120%nat /\
  (snd t = [package_size rate] \/
   exists a, 0 < a < package_size rate /\ snd t = [a; package_size rate - a]).

(** As long as a package is taken in at most two pieces and fewer than
    INT32_MAX bytes have been sent, the sending thread sends one package per
    capture, in order: at 16 kHz every captured sample twice, otherwise the
    captured bytes.  It ends when the flag is clear. *)
Theorem send_loop_streams rate turns buf pcm res :
  length buf = 1024%nat -> Forall (turn_ok rate) turns ->
  Z.of_nat (length turns) * package_size rate <= INT32_MAX ->
  exists pkgs,
    send_loop rate (map (fun t => (true, Some (fst t), snd t)) turns ++ [(false, pcm, res)]) buf 0 []
    = (true, concat pkgs) /\
    Forall2 (captured_package rate) (map fst turns) pkgs.
Proof.
  intros Hb HF Hn.
  cut (forall total out, 0 <= total ->
    total + Z.of_nat (length turns) * package_size rate <= INT32_MAX -> exists pkgs,
    send_loop rate (map (fun t => (true, Some (fst t), snd t)) turns ++ [(false, pcm, res)]) buf total out
    = (true, out ++ concat pkgs) /\ Forall2 (captured_package rate) (map fst turns) pkgs).
  { intros H. by apply (H 0 []). }
  clear Hn. assert (0 < package_size rate) as Hp by (unfold package_size; case_match; lia).
  revert buf Hb. induction HF as [|[p ans] turns [Hl Ha] HF IH];
    intros buf Hb total out Ht Hmax; cbn [map app send_loop fst snd negb].
  - exists []. by rewrite app_nil_r.
  - cbn [fst snd length] in *. destruct (fill_package_spec rate buf p Hb Hl) as [Lb Hc].
    set (buf' := fill_package rate buf (Some p)) in *.
    assert (total + package_size rate <= INT32_MAX) as Hm by nia.
    assert (send_pkg ans buf' 0 (package_size rate) total out
      = Some (false, [], total + package_size rate, out ++ take (Z.to_nat (package_size rate)) buf')) as ->.
    { destruct Ha as [->|(a & Ha & ->)];
        [apply (send_pkg_two _ _ _ _ _ 1)|apply (send_pkg_two _ _ _ _ _ a)]; try lia;
        [by left|right; split; [done|lia]]. }
    destruct (IH buf' Lb (total + package_size rate) (out ++ take (Z.to_nat (package_size rate)) buf'))
      as (pkgs & -> & HF2); [lia|nia|].
    exists (take (Z.to_nat (package_size rate)) buf' :: pkgs). cbn [concat]. rewrite <- app_assoc.
    split; [done|by constructor].
Qed.

Lemma send_loop_streams_witness :
  exists pkgs,
    send_loop 16000 [(true, Some (replicate 120 1), [100; 140]); (false, None, [])] (replicate 1024 0) 0 []
    = (true, concat pkgs) /\ Forall2 (captured_package 16000) [replicate 120 1] pkgs.
Proof.
  apply (send_loop_streams 16000 [(replicate 120 1, [100; 140])] (replicate 1024 0) None []);
    [reflexivity| |vm_compute; discriminate].
  constructor; [|constructor]. split; [reflexivity|]. right. exists 100.
  split; [vm_compute; split; reflexivity|reflexivity].
Defined.

(** The third piece of a package starts where the second piece ended in length:
    the offset is the last byte count, not their sum.  After INT32_MAX bytes
    nothing is sent any more. *)
Theorem send_pkg_third_offset buf a b c total out :
  0 < a -> 0 < b -> 0 < c -> 0 <= total -> total + a + b + c <= INT32_MAX ->
  send_pkg [a; b; c] buf 0 (a + b + c) total out
  = Some (false, [], total + a + b + c,
          out ++ take (Z.to_nat a) buf ++ take (Z.to_nat b) (drop (Z.to_nat a) buf)
              ++ take (Z.to_nat c) (drop (Z.to_nat b) buf)) /\
  (forall res needs total, INT32_MAX <= total ->
     send_pkg res buf 0 needs total out = Some (false, res, total, out)).
Proof.
  intros Ha Hb Hc Ht Hm. unfold INT32_MAX in Hm. split.
  - assert (forall x, 0 <= x <= 2 ^ 31 -> u64 x = x) as Hu by (intros; unfold u64; apply Z.mod_small; lia).
    assert (forall n x, 0 < n -> x < INT32_MAX -> negb ((0 <? n) && (x <? INT32_MAX)) = false) as Hgo.
    { intros n x Hn Hx. by rewrite !(proj2 (Z.ltb_lt _ _)) by lia. }
    cbn [send_pkg]. rewrite Hgo, (proj2 (Z.leb_gt a 0)), Z.min_l, (Hu (total + a))
      by (unfold INT32_MAX; lia).
    rewrite Hgo, (proj2 (Z.leb_gt b 0)), (Z.min_l b), (Hu (total + a + b)) by (unfold INT32_MAX; lia).
    rewrite Hgo, (proj2 (Z.leb_gt c 0)), (Z.min_l c), (Hu (total + a + b + c)) by (unfold INT32_MAX; lia).
    replace (a + b + c - a - b - c) with 0 by lia.
    change (0 <? 0) with false. cbn [andb negb]. by rewrite <- !app_assoc.
  - intros res needs tot Hx. destruct res; cbn [send_pkg];
      rewrite (proj2 (Z.ltb_ge tot INT32_MAX)), andb_false_r by done; done.
Qed.

(** ** The card *)

(** An [id] file: a text followed by line ends, within the 16 bytes read. *)
Definition id_ok (t : list Z) (k : nat) : Prop :=
  t <> [] /\ Forall (fun c => c <> c_CR /\ c <> c_LF) t /\ (length t + k <= 16)%nat.

(** A directory whose ids are given as text and number of line ends. *)
Definition dir_entry (e : list Z * option (list Z * nat)) : entry :=
  (fst e, match snd e with Some (t, k) => Some (t ++ replicate k c_LF) | None => None end).

(** The first card with the name. *)
Fixpoint first_card (name : list Z) (es : list (list Z * option (list Z * nat))) : Z :=
  match es with
  | [] => -1
  | (d_name, id) :: es =>
      if has_sub s_card d_name &&
         match id with Some (t, _) => bool_decide (t = name) | None => false end
      then s32 (strtoul (drop 4 d_name))
      else first_card name es
  end.

Lemma trim_keep i buf sz :
  (forall j, (0 < j <= i)%nat -> buf !!! j <> c_CR /\ buf !!! j <> c_LF) ->
  trim_loop i buf sz = (buf, sz).
Proof.
  induction i as [|i IH]; intros H; cbn [trim_loop]; [done|].
  destruct (H (S i) ltac:(lia)) as [H1 H2]. rewrite !(proj2 (Z.eqb_neq _ _)) by done.
  cbn [orb]. apply IH. intros j Hj. apply H. lia.
Qed.

(** The line ends are cut off, the text is kept. *)
Lemma trim_loop_text t k : forall rest sz,
  t <> [] -> Forall (fun c => c <> c_CR /\ c <> c_LF) t ->
  exists rest', trim_loop (length t + k - 1) (t ++ replicate k c_LF ++ rest) sz
    = (t ++ rest', sz - Z.of_nat k) /\ length rest' = (k + length rest)%nat.
Proof.
  intros rest sz Ht HF. assert (0 < length t)%nat by (destruct t; [done|cbn; lia]).
  revert rest sz. induction k as [|k IH]; intros rest sz.
  - exists rest. split; [|done]. rewrite Z.sub_0_r. apply trim_keep. intros j Hj.
    rewrite list_lookup_total_alt, lookup_app_l by lia.
    destruct (lookup_lt_is_Some_2 t j ltac:(lia)) as [x Hx]. rewrite Hx. cbn.
    by apply (Forall_lookup_1 _ _ _ _ HF Hx).
  - replace (length t + S k - 1)%nat with (S (length t + k - 1)) by lia. cbn [trim_loop].
    replace (S (length t + k - 1)) with (length (t ++ replicate k c_LF))
      by (rewrite length_app, length_replicate; lia).
    replace (t ++ replicate (S k) c_LF ++ rest) with ((t ++ replicate k c_LF) ++ c_LF :: rest)
      by (rewrite replicate_S_end, <- !app_assoc; done).
    rewrite list_lookup_total_alt, list_lookup_middle by done. cbn [default].
    change ((c_LF =? c_CR) || (c_LF =? c_LF)) with true. cbv iota.
    rewrite insert_middle, <- app_assoc. cbn [app].
    destruct (IH (0 :: rest) (sz - 1)) as (rest' & -> & Hl). exists rest'.
    split; [f_equal; lia|]. rewrite Hl. cbn. lia.
Qed.

Lemma scan_entry t k buf :
  id_ok t k -> length buf = 16%nat ->
  let got := take 16 (t ++ replicate k c_LF) in
  let '(buf', sz) := trim_loop (Z.to_nat (Z.of_nat (length got) - 1)) (write_at buf 0 got)
                       (Z.of_nat (length got)) in
  0 < Z.of_nat (length got) /\ length buf' = 16%nat /\ sz = Z.of_nat (length t) /\
  take (Z.to_nat sz) buf' = t.
Proof.
  intros (Ht & HF & Hl) Hb. cbv zeta. assert (0 < length t)%nat by (destruct t; [done|cbn; lia]).
  rewrite take_ge by (rewrite length_app, length_replicate; lia).
  rewrite length_app, length_replicate. unfold write_at. rewrite take_0, <- app_assoc. cbn [app].
  replace (Z.to_nat (Z.of_nat (length t + k) - 1)) with (length t + k - 1)%nat by lia.
  set (rest := drop _ buf). destruct (trim_loop_text t k rest (Z.of_nat (length t + k)) Ht HF)
    as (rest' & -> & Hr).
  split_and!; [lia| |lia|].
  - rewrite length_app, Hr. unfold rest. rewrite length_drop, length_app, length_replicate. lia.
  - replace (Z.to_nat _) with (length t) by lia. apply take_app_length.
Qed.

(** The options and the card: when the ids of the cards are texts with line
    ends that fit the 16 byte buffer, [load_config] fails exactly when no card
    has the wanted name, and otherwise selects the first one in directory order
    and leaves the rest of the configuration as the options gave it. *)
Theorem load_config_card c opts es buf c' :
  apply_opts c opts = Some c' -> length buf = 16%nat ->
  Forall (fun e => match snd e with Some (t, k) => id_ok t k | None => True end) es ->
  let card := first_card (cfg_name c') es in
  load_config c opts (Some (map dir_entry es)) buf =
  Some (if card =? -1 then (-1, c')
        else (0, mkCfg (cfg_name c') card (cfg_device c') (cfg_channels c') (cfg_bits c')
                   (cfg_rate c') (cfg_period_size c') (cfg_period_count c'))).
Proof.
  intros Hc Hb HF. unfold load_config. rewrite Hc. cbn [mbind option_bind].
  assert (scan_cards (cfg_name c') (map dir_entry es) buf = first_card (cfg_name c') es) as ->;
    [|cbv zeta; by case_match].
  revert buf Hb. induction HF as [|[d [[t k]|]] es Hid HF IH]; intros buf Hb; [done|..];
    cbn [map]; unfold dir_entry at 1; cbn [fst snd scan_cards first_card];
    [|rewrite andb_false_r; destruct (has_sub s_card d); by apply IH].
  destruct (has_sub s_card d); cbn [andb]; [|by apply IH].
  pose proof (scan_entry t k buf Hid Hb) as Hs. cbv zeta in Hs.
  destruct (trim_loop _ _ _) as [buf' sz]. destruct Hs as (Hpos & Hl & -> & Htk).
  rewrite (proj2 (Z.leb_gt _ _)) by done. rewrite Htk, Nat2Z.id.
  destruct (decide (t = cfg_name c')) as [Heq|Hne].
  - rewrite (bool_decide_eq_true_2 _ Heq), Heq, Z.eqb_refl, take_ge by lia.
    by rewrite bool_decide_eq_true_2 by done.
  - rewrite (bool_decide_eq_false_2 _ Hne).
    destruct (Z.eqb_spec (Z.of_nat (length t)) (Z.of_nat (length (cfg_name c')))) as [El|El];
      cbn [andb]; [|by apply IH].
    rewrite (take_ge (cfg_name c')), (bool_decide_eq_false_2 _ Hne) by lia. by apply IH.
Qed.

(** "card0" is called "ab", "card1" is called "cd"; the option is -D cd. *)
Lemma load_config_card_witness :
  load_config (mkCfg [97] 1 0 1 16 8000 1024 1) [(68, [99; 100])]
    (Some (map dir_entry [(s_card ++ [48], Some ([97; 98], 1%nat)); (s_card ++ [49], Some ([99; 100], 1%nat))]))
    (replicate 16 0)
  = Some (0, mkCfg [99; 100] 1 0 1 16 8000 1024 1).
Proof.
  apply (load_config_card (mkCfg [97] 1 0 1 16 8000 1024 1) [(68, [99; 100])]
    [(s_card ++ [48], Some ([97; 98], 1%nat)); (s_card ++ [49], Some ([99; 100], 1%nat))]
    (replicate 16 0) (mkCfg [99; 100] 1 0 1 16 8000 1024 1)); [reflexivity..|].
  repeat constructor; cbn; try discriminate; lia.
Defined.

End VoHCI.
