(* ===== verification/TeeParam.v ===== *)
(** * Parameters of the TEE device
      (optee_client/libteec/include/linux/tee.h, public/tee_client_api.h)

    The parameter records that the supplicant and the client library exchange
    with the kernel driver, the result codes and the UUID octets.  64-bit
    fields are their unsigned pattern; [size_t] has 64 bits. *)

From stdpp Require Import base tactics option list list_numbers numbers.
From Stdlib Require Import ZArith Lia.
From S2P Require Import Prelude.

Local Open Scope Z_scope.

Module TeeParam.

(** ** Attributes and result codes *)

Definition ATTR_TYPE_NONE : Z := 0.
Definition ATTR_TYPE_VALUE_INPUT : Z := 1.
Definition ATTR_TYPE_VALUE_OUTPUT : Z := 2.
Definition ATTR_TYPE_VALUE_INOUT : Z := 3.
Definition ATTR_TYPE_MEMREF_INPUT : Z := 5.
Definition ATTR_TYPE_MEMREF_OUTPUT : Z := 6.
Definition ATTR_TYPE_MEMREF_INOUT : Z := 7.
Definition ATTR_TYPE_MASK : Z := 0xff.
Definition ATTR_META : Z := 0x100.

Definition TEEC_SUCCESS : Z := 0.
Definition TEEC_ERROR_GENERIC : Z := 0xFFFF0000.
Definition TEEC_ERROR_ACCESS_CONFLICT : Z := 0xFFFF0003.
Definition TEEC_ERROR_BAD_PARAMETERS : Z := 0xFFFF0006.
Definition TEEC_ERROR_ITEM_NOT_FOUND : Z := 0xFFFF0008.
Definition TEEC_ERROR_NOT_SUPPORTED : Z := 0xFFFF000A.
Definition TEEC_ERROR_OUT_OF_MEMORY : Z := 0xFFFF000C.
Definition TEEC_ERROR_COMMUNICATION : Z := 0xFFFF000E.
Definition TEEC_ERROR_SHORT_BUFFER : Z := 0xFFFF0010.

(** ** Parameters

    [struct tee_ioctl_param]: the two members of the union overlay each other
    word by word. *)
Record tee_ioctl_param := mkParam { attr : Z; u_a : Z; u_b : Z; u_c : Z }.

(** [u.memref] *)
Definition shm_offs (p : tee_ioctl_param) : Z := u_a p.
Definition size (p : tee_ioctl_param) : Z := u_b p.
Definition shm_id (p : tee_ioctl_param) : Z := s64 (u_c p).

Definition set_a (v : Z) (p : tee_ioctl_param) : tee_ioctl_param :=
  mkParam (attr p) (u64 v) (u_b p) (u_c p).
Definition set_b (v : Z) (p : tee_ioctl_param) : tee_ioctl_param :=
  mkParam (attr p) (u_a p) (u64 v) (u_c p).
Definition set_c (v : Z) (p : tee_ioctl_param) : tee_ioctl_param :=
  mkParam (attr p) (u_a p) (u_b p) (u64 v).
Definition set_size : Z -> tee_ioctl_param -> tee_ioctl_param := set_b.

(** [attr & TEE_IOCTL_PARAM_ATTR_TYPE_MASK] *)
Definition ptype (p : tee_ioctl_param) : Z := Z.land (attr p) ATTR_TYPE_MASK.

Definition is_value (p : tee_ioctl_param) : bool :=
  (ptype p =? ATTR_TYPE_VALUE_INPUT) || (ptype p =? ATTR_TYPE_VALUE_OUTPUT) ||
  (ptype p =? ATTR_TYPE_VALUE_INOUT).
Definition is_memref (p : tee_ioctl_param) : bool :=
  (ptype p =? ATTR_TYPE_MEMREF_INPUT) || (ptype p =? ATTR_TYPE_MEMREF_OUTPUT) ||
  (ptype p =? ATTR_TYPE_MEMREF_INOUT).

(** All fields are 64-bit patterns. *)
Definition param_ok (p : tee_ioctl_param) : Prop :=
  0 <= attr p < 2 ^ 64 /\ 0 <= u_a p < 2 ^ 64 /\ 0 <= u_b p < 2 ^ 64 /\ 0 <= u_c p < 2 ^ 64.

#[export] Instance param_inhabited : Inhabited tee_ioctl_param := populate (mkParam 0 0 0 0).
#[export] Instance param_eq_dec : EqDecision tee_ioctl_param.
Proof. solve_decision. Defined.

(** ** UUIDs *)

Record TEEC_UUID := mkUuid {
  timeLow : Z; timeMid : Z; timeHiAndVersion : Z; clockSeqAndNode : list Z
}.

(** libteec: [uuid_to_octets] *)
Definition uuid_to_octets (s : TEEC_UUID) : list Z :=
  [u8 (Z.shiftr (timeLow s) 24); u8 (Z.shiftr (timeLow s) 16); u8 (Z.shiftr (timeLow s) 8);
   u8 (timeLow s); u8 (Z.shiftr (timeMid s) 8); u8 (timeMid s);
   u8 (Z.shiftr (timeHiAndVersion s) 8); u8 (timeHiAndVersion s)] ++ clockSeqAndNode s.

(** tee-supplicant: [uuid_from_octets]; the shifts are of type [int]. *)
Definition uuid_from_octets (s : list Z) : TEEC_UUID :=
  mkUuid
    (u32 (Z.lor (Z.lor (Z.lor (Z.shiftl (s !!! 0%nat) 24) (Z.shiftl (s !!! 1%nat) 16))
                  (Z.shiftl (s !!! 2%nat) 8)) (s !!! 3%nat)))
    (u16 (Z.lor (Z.shiftl (s !!! 4%nat) 8) (s !!! 5%nat)))
    (u16 (Z.lor (Z.shiftl (s !!! 6%nat) 8) (s !!! 7%nat)))
    (take 8 (drop 8 s)).

Definition uuid_ok (u : TEEC_UUID) : Prop :=
  0 <= timeLow u < 2 ^ 32 /\ 0 <= timeMid u < 2 ^ 16 /\ 0 <= timeHiAndVersion u < 2 ^ 16 /\
  length (clockSeqAndNode u) = 8%nat.

(** Two bytes packed and unpacked. *)
Lemma pack16 x : 0 <= x < 2 ^ 16 -> Z.lor (Z.shiftl (u8 (Z.shiftr x 8)) 8) (u8 x) = x.
Proof.
  intros H. unfold u8. rewrite lor_shiftl_add, Z.shiftr_div_pow2 by (lia || apply Z.mod_pos_bound; lia).
  change (2 ^ 8) with 256 in *. change (2 ^ 16) with 65536 in *. lia_mod.
Qed.

Lemma pack32 x : 0 <= x < 2 ^ 32 ->
  Z.lor (Z.lor (Z.lor (Z.shiftl (u8 (Z.shiftr x 24)) 24) (Z.shiftl (u8 (Z.shiftr x 16)) 16))
           (Z.shiftl (u8 (Z.shiftr x 8)) 8)) (u8 x) = x.
Proof.
  intros H. rewrite <- !Z.lor_assoc.
  assert (forall y, 0 <= u8 y < 256) as Hb by (intros; apply u8_range).
  pose proof (Hb x). pose proof (Hb (Z.shiftr x 8)). pose proof (Hb (Z.shiftr x 16)).
  rewrite (lor_shiftl_add (u8 (Z.shiftr x 8))) by (cbn; lia).
  rewrite (lor_shiftl_add (u8 (Z.shiftr x 16))) by (cbn; lia).
  rewrite (lor_shiftl_add (u8 (Z.shiftr x 24))) by (cbn; lia).
  unfold u8. rewrite !Z.shiftr_div_pow2 by lia.
  change (2 ^ 8) with 256 in *. change (2 ^ 16) with 65536 in *.
  change (2 ^ 24) with 16777216 in *. change (2 ^ 32) with 4294967296 in *. lia_mod.
Qed.

Lemma uuid_octets u : uuid_ok u ->
  length (uuid_to_octets u) = 16%nat /\ uuid_from_octets (uuid_to_octets u) = u.
Proof.
  intros (H1 & H2 & H3 & H4). destruct u as [tl tm th cs]. cbn [timeLow timeMid timeHiAndVersion
    clockSeqAndNode] in *. unfold uuid_to_octets. cbn [clockSeqAndNode].
  rewrite length_app, H4. split; [done|].
  unfold uuid_from_octets. cbn [lookup_total list_lookup_total app timeLow timeMid timeHiAndVersion
    clockSeqAndNode drop]. rewrite pack32, !pack16, u32_small, !u16_small by (cbn in *; lia).
  rewrite drop_0, take_ge by lia. done.
Qed.

End TeeParam.
