(* ===== verification/SuppShm.v ===== *)
(** * Shared memory and parameters of tee-supplicant
      (optee_client/tee-supplicant/src/tee_supplicant.c)

    The supplicant keeps a linked list of the shared memory objects it has
    mapped; every request of the secure world names memory by object, offset
    and size.  The mappings of the process are a finite map from base address
    to bytes, so that a pointer is a base and an offset and an access outside
    a mapping is visible as such. *)

From stdpp Require Import base tactics option list list_numbers numbers gmap fin_maps.
From Stdlib Require Import ZArith Lia.
From S2P Require Import Prelude TeeParam.
Import TeeParam.

Local Open Scope Z_scope.

Module SuppShm.

(** ** Data *)

(** [struct tee_shm]; the [next] pointers are the order of the list. *)
Record tee_shm := mkShm { ts_id : Z; ts_p : Z; ts_size : Z }.

Record shm_mem := mkMem { shm_head : list tee_shm; maps : gmap Z (list Z) }.

(** A pointer into a mapping: base address and offset. *)
Definition va : Type := Z * Z.

(** ** The list *)

Fixpoint find_tshm (l : list tee_shm) (id : Z) : option tee_shm :=
  match l with
  | [] => None
  | t :: l => if negb (ts_id t =? id) then find_tshm l id else Some t
  end.

(** The object taken out and the list that is left. *)
Fixpoint pop_tshm (l : list tee_shm) (id : Z) : option tee_shm * list tee_shm :=
  match l with
  | [] => (None, [])
  | t :: l =>
      if ts_id t =? id then (Some t, l)
      else let '(r, l') := pop_tshm l id in (r, t :: l')
  end.

Definition push_tshm (l : list tee_shm) (t : tee_shm) : list tee_shm := t :: l.

(** ** Parameters *)

(** The index of a value parameter ([None]: -1). *)
Definition get_value (params : list tee_ioctl_param) (idx : nat) : option tee_ioctl_param :=
  p ← params !! idx;
  if is_value p then Some p else None.

Definition tee_supp_param_is_memref (p : tee_ioctl_param) : bool := is_memref p.
Definition tee_supp_param_is_value (p : tee_ioctl_param) : bool := is_value p.

(** [None] is NULL. *)
Definition tee_supp_param_to_va (m : shm_mem) (p : tee_ioctl_param) : option va :=
  if negb (tee_supp_param_is_memref p) then None else
  let end_offs := u64 (size p + shm_offs p) in
  if (end_offs <? size p) || (end_offs <? shm_offs p) then None else
  t ← find_tshm (shm_head m) (s32 (shm_id p));
  if ts_size t <? end_offs then None else Some (ts_p t, shm_offs p).

(** What [get_param] stores in the [TEEC_SharedMemory]. *)
Record shm_ref := mkRef { r_size : Z; r_buffer : option va }.

(** [None]: -1. *)
Definition get_param (m : shm_mem) (params : list tee_ioctl_param) (idx : nat) : option shm_ref :=
  p ← params !! idx;
  if negb (is_memref p) then None else
  match find_tshm (shm_head m) (s32 (shm_id p)) with
  | None => if ptype p =? ATTR_TYPE_MEMREF_INPUT then None else Some (mkRef 0 None)
  | Some t =>
      if u64 (size p + shm_offs p) <? size p then None
      else if ts_size t <? u64 (size p + shm_offs p) then None
      else Some (mkRef (u64 (size p - shm_offs p)) (Some (ts_p t, shm_offs p)))
  end.

(** ** Allocation requests *)

(** The answers of the system during [process_alloc]: [calloc]; the id and the
    size the driver gives to a request of a size; the base address of a mapping
    of a size. *)
Record alloc_env := mkAEnv { e_calloc : bool; e_ioctl : Z -> option (Z * Z); e_mmap : Z -> option Z }.

Definition process_alloc (m : shm_mem) (e : alloc_env) (params : list tee_ioctl_param)
  : Z * list tee_ioctl_param * shm_mem :=
  if negb (length params =? 1)%nat then (TEEC_ERROR_BAD_PARAMETERS, params, m) else
  match get_value params 0 with
  | None => (TEEC_ERROR_BAD_PARAMETERS, params, m)
  | Some val =>
      if negb (e_calloc e) then (TEEC_ERROR_OUT_OF_MEMORY, params, m) else
      match e_ioctl e (u_b val) with
      | None => (TEEC_ERROR_OUT_OF_MEMORY, params, m)
      | Some (id, sz) =>
          match e_mmap e sz with
          | None => (TEEC_ERROR_OUT_OF_MEMORY, params, m)
          | Some p =>
              (TEEC_SUCCESS, [set_c id val],
               mkMem (push_tshm (shm_head m) (mkShm id p sz))
                 (<[p := replicate (Z.to_nat sz) 0]> (maps m)))
          end
      end
  end.

(** [unmapped] tells whether [munmap] succeeds. *)
Definition process_free (m : shm_mem) (unmapped : bool) (params : list tee_ioctl_param)
  : Z * shm_mem :=
  if negb (length params =? 1)%nat then (TEEC_ERROR_BAD_PARAMETERS, m) else
  match get_value params 0 with
  | None => (TEEC_ERROR_BAD_PARAMETERS, m)
  | Some val =>
      match pop_tshm (shm_head m) (s32 (u_b val)) with
      | (None, l) => (TEEC_ERROR_BAD_PARAMETERS, mkMem l (maps m))
      | (Some t, l) =>
          if negb unmapped then (TEEC_ERROR_BAD_PARAMETERS, mkMem l (maps m))
          else (TEEC_SUCCESS, mkMem l (delete (ts_p t) (maps m)))
      end
  end.

(** ** Accesses through pointers *)

(** [n] bytes at a pointer; [None] when they are not all in the mapping. *)
Definition load_bytes (m : shm_mem) (a : va) (n : nat) : option (list Z) :=
  let '(p, off) := a in
  bs ← maps m !! p;
  if (0 <=? off) && (off + Z.of_nat n <=? Z.of_nat (length bs))
  then Some (take n (drop (Z.to_nat off) bs)) else None.

Definition store_bytes (m : shm_mem) (a : va) (src : list Z) : option shm_mem :=
  let '(p, off) := a in
  bs ← maps m !! p;
  if (0 <=? off) && (off + Z.of_nat (length src) <=? Z.of_nat (length bs))
  then Some (mkMem (shm_head m) (<[p := write_at bs (Z.to_nat off) src]> (maps m))) else None.

(** The C string at a pointer; [None] when the mapping ends before its NUL. *)
Fixpoint until_nul (l : list Z) : option (list Z) :=
  match l with
  | [] => None
  | c :: l => if c =? 0 then Some [] else (s ← until_nul l; Some (c :: s))
  end.

Definition load_string (m : shm_mem) (a : va) : option (list Z) :=
  let '(p, off) := a in
  bs ← maps m !! p;
  if 0 <=? off then until_nul (drop (Z.to_nat off) bs) else None.

(** ** Invariant and contract *)

(** Ids and bases are unique and every object is mapped with its size. *)
Record wf (m : shm_mem) : Prop := {
  wf_ids : NoDup (map ts_id (shm_head m));
  wf_bases : NoDup (map ts_p (shm_head m));
  wf_maps : Forall (fun t => exists bs, maps m !! ts_p t = Some bs /\
                       Z.of_nat (length bs) = ts_size t /\ ts_size t < 2 ^ 64 /\ s32 (ts_id t) = ts_id t)
              (shm_head m)
}.

(** The objects the secure world sees: id to base and bytes. *)
Definition objects (m : shm_mem) : gmap Z (Z * list Z) :=
  list_to_map (map (fun t => (ts_id t, (ts_p t, default [] (maps m !! ts_p t)))) (shm_head m)).

Lemma find_tshm_some l id t : find_tshm l id = Some t -> t ∈ l /\ ts_id t = id.
Proof.
  induction l as [|x l IH]; cbn; [done|]. destruct (Z.eqb_spec (ts_id x) id); cbn.
  - intros [= ->]. split; [by left|done].
  - intros [H1 H2]%IH. split; [by right|done].
Qed.

(** The object under an id, found by walking the list. *)
Lemma objects_find l (mp : gmap Z (list Z)) id :
  (list_to_map (map (fun t => (ts_id t, (ts_p t, default [] (mp !! ts_p t)))) l) : gmap Z (Z * list Z)) !! id
  = (fun t => (ts_p t, default [] (mp !! ts_p t))) <$> find_tshm l id.
Proof.
  induction l as [|x l IH]; cbn; [by rewrite lookup_empty|].
  destruct (Z.eqb_spec (ts_id x) id) as [<-|Hne]; cbn.
  - by rewrite lookup_insert_eq.
  - by rewrite lookup_insert_ne.
Qed.

Lemma objects_lookup m id :
  objects m !! id = (fun t => (ts_p t, default [] (maps m !! ts_p t))) <$> find_tshm (shm_head m) id.
Proof. apply objects_find. Qed.

Lemma pop_tshm_some l id t l' :
  pop_tshm l id = (Some t, l') ->
  exists l1 l2, l = l1 ++ t :: l2 /\ l' = l1 ++ l2 /\ ts_id t = id.
Proof.
  revert l'. induction l as [|x l IH]; intros l'; cbn; [done|].
  destruct (Z.eqb_spec (ts_id x) id).
  - intros [= -> ->]. by exists [], l'.
  - destruct (pop_tshm l id) as [r l1]. intros [= -> <-].
    destruct (IH l1 eq_refl) as (a & b & -> & -> & Hid). by exists (x :: a), b.
Qed.

Lemma pop_tshm_find l id t l' : pop_tshm l id = (Some t, l') -> find_tshm l id = Some t.
Proof.
  revert l'. induction l as [|x l IH]; intros l'; cbn; [done|].
  destruct (Z.eqb_spec (ts_id x) id); cbn; [by intros [= -> ->]|].
  destruct (pop_tshm l id) as [r l1]. intros [= -> <-]. by eapply IH.
Qed.

Lemma pop_tshm_none l id l' : pop_tshm l id = (None, l') -> l' = l /\ find_tshm l id = None.
Proof.
  revert l'. induction l as [|x l IH]; intros l'; cbn; [by intros [= <-]|].
  destruct (Z.eqb_spec (ts_id x) id); cbn; [done|].
  destruct (pop_tshm l id) as [r l1]. intros [= -> <-]. destruct (IH l1 eq_refl) as [-> H]. done.
Qed.

Lemma find_tshm_not_in l id : id ∉ map ts_id l -> find_tshm l id = None.
Proof.
  intros H. destruct (find_tshm l id) as [t|] eqn:E; [|done].
  apply find_tshm_some in E as [Ht <-]. destruct H. apply list_elem_of_fmap. by exists t.
Qed.

(** What the kernel promises: a new id and a new base address, a size in range. *)
Definition env_ok (m : shm_mem) (e : alloc_env) : Prop :=
  forall n id sz, e_ioctl e n = Some (id, sz) ->
    id ∉ map ts_id (shm_head m) /\ s32 id = id /\ 0 <= sz < 2 ^ 64 /\
    forall p, e_mmap e sz = Some p -> maps m !! p = None.

(** ** Specification

    The objects as a finite map from ids to blocks. *)
Notation obj_map := (gmap Z (Z * list Z)).

(** The one parameter of a well-formed request. *)
Definition request_value (params : list tee_ioctl_param) : option tee_ioctl_param :=
  match params with [val] => if is_value val then Some val else None | _ => None end.

(** A new object: its id, base and size. *)
Definition new_object (e : alloc_env) (n : Z) : option (Z * Z * Z) :=
  if e_calloc e then '(id, sz) ← e_ioctl e n; p ← e_mmap e sz; Some (id, p, sz) else None.

Definition spec_alloc (e : alloc_env) (params : list tee_ioctl_param) (o : obj_map)
  : Z * list tee_ioctl_param * obj_map :=
  match request_value params with
  | None => (TEEC_ERROR_BAD_PARAMETERS, params, o)
  | Some val =>
      match new_object e (u_b val) with
      | None => (TEEC_ERROR_OUT_OF_MEMORY, params, o)
      | Some (id, p, sz) => (TEEC_SUCCESS, [set_c id val], <[id := (p, replicate (Z.to_nat sz) 0)]> o)
      end
  end.

Definition spec_free (unmapped : bool) (params : list tee_ioctl_param) (o : obj_map) : Z * obj_map :=
  match request_value params with
  | None => (TEEC_ERROR_BAD_PARAMETERS, o)
  | Some val =>
      match o !! s32 (u_b val) with
      | None => (TEEC_ERROR_BAD_PARAMETERS, o)
      | Some _ => (if unmapped then TEEC_SUCCESS else TEEC_ERROR_BAD_PARAMETERS, delete (s32 (u_b val)) o)
      end
  end.

(** The lookup, in unbounded arithmetic. *)
Definition spec_to_va (p : tee_ioctl_param) (o : obj_map) : option va :=
  if is_memref p then
    '(base, bs) ← o !! s32 (shm_id p);
    if shm_offs p + size p <=? Z.of_nat (length bs) then Some (base, shm_offs p) else None
  else None.

Lemma get_value_single params val :
  (length params =? 1)%nat = true -> get_value params 0 = Some val ->
  params = [val] /\ is_value val = true.
Proof.
  intros Hl%Nat.eqb_eq. destruct params as [|x [|]]; try done. unfold get_value. cbn.
  case_match; [|done]. by intros [= ->].
Qed.

Lemma objects_ext l mp mp' :
  Forall (fun t => mp !! ts_p t = mp' !! ts_p t) l -> objects (mkMem l mp) = objects (mkMem l mp').
Proof.
  intros H. unfold objects. cbn. f_equal. apply map_ext_in. intros t Ht%list_elem_of_In.
  rewrite Forall_forall in H. by rewrite (H t Ht).
Qed.

Lemma wf_ext l mp mp' :
  Forall (fun t => mp !! ts_p t = mp' !! ts_p t) l -> wf (mkMem l mp) -> wf (mkMem l mp').
Proof.
  intros H [H1 H2 H3]. split; [done|done|]. cbn in *. rewrite Forall_forall in *.
  intros t Ht. rewrite <- (H t Ht). by apply H3.
Qed.

Lemma get_value_request params :
  request_value params = if (length params =? 1)%nat then get_value params 0 else None.
Proof. by destruct params as [|x [|]]. Qed.

Lemma push_object m id p sz : wf m ->
  id ∉ map ts_id (shm_head m) -> s32 id = id -> 0 <= sz < 2 ^ 64 -> maps m !! p = None ->
  let m' := mkMem (push_tshm (shm_head m) (mkShm id p sz)) (<[p := replicate (Z.to_nat sz) 0]> (maps m)) in
  wf m' /\ objects m' = <[id := (p, replicate (Z.to_nat sz) 0)]> (objects m).
Proof.
  intros W Hid Hi Hsz Hp.
  assert (Forall (fun t => maps m !! ts_p t = <[p := replicate (Z.to_nat sz) 0]> (maps m) !! ts_p t)
            (shm_head m)) as Hsame.
  { rewrite Forall_forall. intros t Ht. pose proof (wf_maps _ W) as Hm. rewrite Forall_forall in Hm.
    destruct (Hm t Ht) as (bs & Hbs & _). rewrite lookup_insert_ne; [done|congruence]. }
  split.
  - destruct W as [W1 W2 W3]. split; cbn.
    + apply NoDup_cons. done.
    + apply NoDup_cons. split; [|done]. intros (t & -> & Ht)%list_elem_of_fmap.
      rewrite Forall_forall in W3. destruct (W3 t Ht) as (bs & Hbs & _). congruence.
    + constructor; cbn.
      * exists (replicate (Z.to_nat sz) 0). rewrite lookup_insert_eq, length_replicate. split_and!; [done|lia..|done].
      * rewrite Forall_forall in *. intros t Ht. rewrite <- (Hsame t Ht). by apply W3.
  - destruct m as [l mp]. cbn [shm_head maps] in *. rewrite (objects_ext _ _ _ Hsame).
    unfold objects, push_tshm. cbn. by rewrite lookup_insert_eq.
Qed.

Lemma process_alloc_spec m e params res params' m' :
  wf m -> env_ok m e -> process_alloc m e params = (res, params', m') ->
  wf m' /\ (res, params', objects m') = spec_alloc e params (objects m).
Proof.
  intros W He. unfold process_alloc, spec_alloc, new_object. rewrite get_value_request.
  destruct (length params =? 1)%nat; cbn [negb]; [|by intros [= <- <- <-]].
  destruct (get_value params 0) as [val|]; [|by intros [= <- <- <-]].
  destruct (e_calloc e); cbn [negb]; [|by intros [= <- <- <-]].
  destruct (e_ioctl e (u_b val)) as [[id sz]|] eqn:Ei; cbn [mbind option_bind]; [|by intros [= <- <- <-]].
  destruct (He _ _ _ Ei) as (Hid & Hi & Hsz & Hp).
  destruct (e_mmap e sz) as [p|] eqn:Em; cbn [mbind option_bind]; [|by intros [= <- <- <-]].
  intros [= <- <- <-].
  destruct (push_object m id p sz W Hid Hi Hsz (Hp p eq_refl)) as [W' Ho]. split; [done|]. by rewrite Ho.
Qed.

Lemma list_to_map_remove {A} (l1 l2 : list (Z * A)) k v :
  k ∉ map fst (l1 ++ l2) ->
  (list_to_map (l1 ++ l2) : gmap Z A) = delete k (list_to_map (l1 ++ (k, v) :: l2)).
Proof.
  intros Hk. induction l1 as [|[k' v'] l1 IH]; cbn in *.
  - rewrite delete_insert_eq, delete_id; [done|]. by apply not_elem_of_list_to_map_1.
  - rewrite delete_insert_ne by set_solver. rewrite IH; [done|set_solver].
Qed.

Lemma pop_object m id t l' : wf m -> pop_tshm (shm_head m) id = (Some t, l') ->
  objects m !! id <> None /\
  (forall mp, mp = maps m \/ mp = delete (ts_p t) (maps m) ->
     wf (mkMem l' mp) /\ objects (mkMem l' mp) = delete id (objects m)).
Proof.
  intros W Ep. pose proof (pop_tshm_find _ _ _ _ Ep) as Hf. apply pop_tshm_some in Ep as (l1 & l2 & El2 & -> & Hid).
  split; [by rewrite objects_lookup, Hf|].
  destruct m as [l mp0]. cbn [shm_head maps] in *. subst l. destruct W as [W1 W2 W3]. cbn [shm_head maps] in *.
  rewrite !map_app in W1, W2. cbn [map] in W1, W2.
  rewrite <- Permutation_middle, <- map_app, NoDup_cons in W1, W2. destruct W1 as [W1 W1'], W2 as [W2 W2'].
  apply Forall_app in W3 as [W3a [_ W3b]%Forall_cons].
  assert (wf (mkMem (l1 ++ l2) mp0)) as W' by (split; [done|done|by apply Forall_app]).
  assert (objects (mkMem (l1 ++ l2) mp0) = delete id (objects (mkMem (l1 ++ t :: l2) mp0))) as Ho.
  { unfold objects. cbn [shm_head maps]. rewrite !map_app. cbn [map]. rewrite Hid.
    apply list_to_map_remove. rewrite <- map_app, map_map. cbn. by rewrite <- Hid. }
  intros mp [->| ->]; [done|].
  assert (Forall (fun x => mp0 !! ts_p x = delete (ts_p t) mp0 !! ts_p x) (l1 ++ l2)) as Hsame.
  { rewrite Forall_forall. intros x Hx. rewrite lookup_delete_ne; [done|].
    intros E. apply W2. rewrite E. apply list_elem_of_fmap. by exists x. }
  split; [by eapply wf_ext|]. by rewrite <- (objects_ext _ _ _ Hsame).
Qed.

Lemma process_free_spec m unmapped params res m' :
  wf m -> process_free m unmapped params = (res, m') ->
  wf m' /\ (res, objects m') = spec_free unmapped params (objects m).
Proof.
  intros W. unfold process_free, spec_free. rewrite get_value_request.
  destruct (length params =? 1)%nat; cbn [negb]; [|by intros [= <- <-]].
  destruct (get_value params 0) as [val|]; [|by intros [= <- <-]].
  destruct (pop_tshm (shm_head m) (s32 (u_b val))) as [[t|] l'] eqn:Ep.
  - destruct (pop_object _ _ _ _ W Ep) as [Hs Hm].
    destruct (objects m !! s32 (u_b val)) eqn:Eo; [|done].
    destruct unmapped; cbn [negb]; intros [= <- <-];
      [destruct (Hm _ (or_intror eq_refl)) as [W' Ho]|destruct (Hm _ (or_introl eq_refl)) as [W' Ho]];
      (split; [done|by rewrite Ho]).
  - apply pop_tshm_none in Ep as [-> Hf]. intros [= <- <-]. destruct m. split; [done|].
    by rewrite objects_lookup, Hf.
Qed.

Lemma to_va_refines m p : wf m -> param_ok p -> tee_supp_param_to_va m p = spec_to_va p (objects m).
Proof.
  intros W (_ & Ha & Hb & _). unfold tee_supp_param_to_va, spec_to_va, tee_supp_param_is_memref.
  destruct (is_memref p); [|done]. cbn [negb]. rewrite objects_lookup.
  unfold shm_offs, size in *. destruct (find_tshm (shm_head m) (s32 (shm_id p))) as [t|] eqn:Ef; cbn.
  2: by case_match.
  pose proof (find_tshm_some _ _ _ Ef) as [Ht _]. pose proof (wf_maps _ W) as Hm. rewrite Forall_forall in Hm.
  destruct (Hm t Ht) as (bs & Hbs & Hl & Hlt & _). rewrite Hbs. cbn.
  destruct (Z.lt_ge_cases (u_b p + u_a p) (2 ^ 64)) as [Hs|Hs].
  - replace (u64 (u_b p + u_a p)) with (u_b p + u_a p) by (unfold u64; rewrite Z.mod_small; lia).
    rewrite !(proj2 (Z.ltb_ge _ _)) by lia. cbn [orb].
    destruct (Z.ltb_spec (ts_size t) (u_b p + u_a p)), (Z.leb_spec (u_a p + u_b p) (Z.of_nat (length bs))); done || lia.
  - replace (u64 (u_b p + u_a p)) with (u_b p + u_a p - 2 ^ 64)
      by (unfold u64; rewrite <- (Z_mod_plus_full _ (-1)), Z.mod_small; lia).
    rewrite (proj2 (Z.ltb_lt _ (u_b p))) by lia. cbn [orb]. by rewrite (proj2 (Z.leb_gt _ _)) by lia.
Qed.

(** ** Theorems *)

(** C28: the shared memory requests implement a finite map from ids to blocks,
    with exactly the answers of the map.  An allocation with one value parameter
    adds a zeroed block of the size that the driver gives to the size asked for,
    under its new id, and reports the id; it fails with out of memory, and
    changes nothing, just when the system refuses one of its three calls.  A
    release removes just the block it names, whether or not the unmapping
    succeeds, and fails when the id is unknown or the unmapping is refused.  A
    lookup finds a pointer just when the object exists and offset and size,
    added without wrapping, end inside it.  Ids and mappings stay unique and of
    the recorded size. *)
Theorem shm_requests_refine_map m :
  wf m ->
  (forall e params res params' m',
     env_ok m e -> process_alloc m e params = (res, params', m') ->
     wf m' /\ (res, params', objects m') = spec_alloc e params (objects m)) /\
  (forall unmapped params res m',
     process_free m unmapped params = (res, m') ->
     wf m' /\ (res, objects m') = spec_free unmapped params (objects m)) /\
  (forall p, param_ok p -> tee_supp_param_to_va m p = spec_to_va p (objects m)).
Proof.
  intros W. split_and!.
  - intros e params res params' m' He E. by apply process_alloc_spec.
  - intros unmapped params res m' E. by apply process_free_spec.
  - intros p Hp. by apply to_va_refines.
Qed.

Definition demo_mem : shm_mem := mkMem [mkShm 4 4096 8] {[4096 := [1; 2; 3; 4; 5; 6; 0; 0]]}.

Lemma demo_mem_wf : wf demo_mem.
Proof.
  split; [apply NoDup_singleton|apply NoDup_singleton|].
  constructor; [|constructor]. eexists. split; [reflexivity|]. split; [reflexivity|].
  split; [reflexivity|reflexivity].
Qed.

(** A driver that rounds sizes up to pages. *)
Definition demo_env : alloc_env :=
  mkAEnv true (fun n => if (0 <=? n) && (n <? 2 ^ 20) then Some (5, 4096 * ((n + 4095) / 4096)) else None) (fun _ => Some 65536).

Lemma shm_requests_refine_map_witness :
  (exists m', process_alloc demo_mem demo_env [mkParam 1 0 10 0] = (TEEC_SUCCESS, [mkParam 1 0 10 5], m') /\ wf m' /\
     objects m' = <[5 := (65536, replicate 4096 0)]> (objects demo_mem)) /\
  (wf (mkMem [] (delete 4096 (maps demo_mem))) /\
   objects (mkMem [] (delete 4096 (maps demo_mem))) = delete 4 (objects demo_mem)) /\
  tee_supp_param_to_va demo_mem (mkParam 5 2 3 4) = Some (4096, 2).
Proof.
  destruct (shm_requests_refine_map demo_mem demo_mem_wf) as (Ha & Hf & Hv).
  split; [|split].
  - assert (env_ok demo_mem demo_env) as He.
    { intros n id sz. cbn. destruct (Z.leb_spec 0 n), (Z.ltb_spec n (2 ^ 20)); cbn [andb]; try done.
      intros [= <- <-]. split_and!; [by intros Hin; apply list_elem_of_singleton in Hin|reflexivity| | |by intros p [= <-]].
      - pose proof (Z.div_pos (n + 4095) 4096). lia.
      - pose proof (Z.div_le_upper_bound (n + 4095) 4096 (2 ^ 20)). lia. }
    destruct (process_alloc demo_mem demo_env [mkParam 1 0 10 0]) as [[x y] m'] eqn:E.
    destruct (Ha _ _ _ _ _ He E) as [W H]. injection H as -> -> Ho.
    exists m'. split; [reflexivity|]. split; [exact W|exact Ho].
  - destruct (Hf true [mkParam 1 0 4 0] TEEC_SUCCESS (mkMem [] (delete 4096 (maps demo_mem))) eq_refl) as [W H].
    split; [exact W|]. exact (f_equal snd H).
  - rewrite Hv; [reflexivity|]. split_and!; cbn; lia.
Defined.

(** What a pointer from [tee_supp_param_to_va] covers. *)
Lemma to_va_spec m p a off :
  wf m -> param_ok p -> tee_supp_param_to_va m p = Some (a, off) ->
  off = shm_offs p /\
  exists bs, objects m !! s32 (shm_id p) = Some (a, bs) /\ maps m !! a = Some bs /\
    off + size p <= Z.of_nat (length bs).
Proof.
  intros W (_ & Ha & Hb & _). unfold tee_supp_param_to_va. case_match; [done|].
  unfold shm_offs, size in *.
  assert (u64 (u_b p + u_a p) = u_b p + u_a p \/ u64 (u_b p + u_a p) = u_b p + u_a p - 2 ^ 64) as Hw.
  { unfold u64. destruct (Z.lt_ge_cases (u_b p + u_a p) (2 ^ 64)).
    - left. apply Z.mod_small. lia.
    - right. rewrite <- (Z_mod_plus_full _ (-1)). rewrite Z.mod_small; lia. }
  destruct (Z.ltb_spec (u64 (u_b p + u_a p)) (u_b p)); [done|].
  destruct (Z.ltb_spec (u64 (u_b p + u_a p)) (u_a p)); [done|]. cbn [orb].
  destruct (find_tshm _ _) as [t|] eqn:Ef; [|done]. cbn [mbind option_bind].
  destruct (Z.ltb_spec (ts_size t) (u64 (u_b p + u_a p))); [done|]. intros [= <- <-].
  split; [done|]. pose proof (find_tshm_some _ _ _ Ef) as [Ht _].
  pose proof (wf_maps _ W) as Hm. rewrite Forall_forall in Hm.
  destruct (Hm t Ht) as (bs & Hbs & Hl & _). exists bs.
  rewrite objects_lookup, Ef. cbn. rewrite Hbs. cbn. split_and!; [done|done|lia].
Qed.

(** [n] bytes are mapped at the pointer [a]. *)
Definition room (m : shm_mem) (a : va) (n : Z) : Prop :=
  exists bs, maps m !! fst a = Some bs /\ 0 <= snd a /\ snd a + n <= Z.of_nat (length bs).

Lemma to_va_room m p a :
  wf m -> param_ok p -> tee_supp_param_to_va m p = Some a -> room m a (size p).
Proof.
  intros W Hp. destruct a as [b off]. intros H. apply to_va_spec in H as (-> & bs & _ & Hb & Hl); [|done..].
  exists bs. destruct Hp as (_ & Ha & _). cbn. split_and!; [done|apply Ha|done].
Qed.

Lemma room_load m a n : room m a (Z.of_nat n) -> exists bs, load_bytes m a n = Some bs /\ length bs = n.
Proof.
  intros (bs & Hb & H0 & Hl). destruct a as [p off]. cbn in *. rewrite Hb. cbn.
  rewrite !(proj2 (Z.leb_le _ _)) by lia. eexists. split; [done|]. rewrite length_take, length_drop. lia.
Qed.

(** A store in bounds keeps the objects and all pointers. *)
Lemma room_store m a src : wf m -> room m a (Z.of_nat (length src)) ->
  exists m', store_bytes m a src = Some m' /\ wf m' /\ shm_head m' = shm_head m /\
    (forall b n, room m b n -> room m' b n).
Proof.
  intros W (bs & Hb & H0 & Hl). destruct a as [p off]. cbn in *. rewrite Hb. cbn.
  rewrite !(proj2 (Z.leb_le _ _)) by lia. eexists. split; [done|].
  assert (length (write_at bs (Z.to_nat off) src) = length bs) as Hw by (apply length_write_at; lia).
  split_and!.
  - destruct W as [W1 W2 W3]. split; [done|done|]. cbn. rewrite Forall_forall in *.
    intros t Ht. destruct (W3 t Ht) as (bs' & Hb' & Hs).
    destruct (decide (p = ts_p t)) as [->|]; [|rewrite lookup_insert_ne by done; eauto].
    rewrite lookup_insert_eq. exists (write_at bs (Z.to_nat off) src). rewrite Hw.
    assert (bs' = bs) as -> by congruence. done.
  - done.
  - intros [p' off'] n (bs' & Hb' & Hr). cbn in *. unfold room. cbn.
    destruct (decide (p = p')) as [->|]; [|rewrite lookup_insert_ne by done; eauto].
    rewrite lookup_insert_eq. eexists. split; [done|]. rewrite Hw. congruence.
Qed.

(** Every store that happens is in bounds. *)
Lemma store_wf m a bs m' : wf m -> store_bytes m a bs = Some m' -> wf m'.
Proof.
  intros W E. destruct (room_store m a bs W) as (m2 & E2 & W2 & _); [|by simplify_eq].
  destruct a as [p o]. unfold room. cbn in *. destruct (maps m !! p) as [x|]; [|done]. cbn in E.
  destruct (Z.leb_spec 0 o); [|done]. destruct (Z.leb_spec (o + Z.of_nat (length bs)) (Z.of_nat (length x))); [|done].
  by exists x.
Qed.

(** C30: a pointer that [tee_supp_param_to_va] hands to a service covers the
    whole buffer the parameter describes: every byte of it is in the mapping of
    the named object, whatever offset and size the secure world sends, also
    when their sum overflows. *)
Theorem param_to_va_in_bounds m p a off :
  wf m -> param_ok p -> tee_supp_param_to_va m p = Some (a, off) ->
  off = shm_offs p /\
  exists bs, objects m !! s32 (shm_id p) = Some (a, bs) /\ maps m !! a = Some bs /\
    off + size p <= Z.of_nat (length bs) /\
    load_bytes m (a, off) (Z.to_nat (size p)) = Some (take (Z.to_nat (size p)) (drop (Z.to_nat off) bs)).
Proof.
  intros W Hp H. pose proof Hp as (_ & Ha & Hb & _).
  destruct (to_va_spec _ _ _ _ W Hp H) as (-> & bs & Ho & Hm & Hl).
  split; [done|]. exists bs. split_and!; try done. cbn. rewrite Hm. cbn.
  rewrite !(proj2 (Z.leb_le _ _)) by (unfold shm_offs, size in *; lia). done.
Qed.

Lemma param_to_va_in_bounds_witness :
  load_bytes demo_mem (4096, 2) 3 = Some [3; 4; 5].
Proof.
  destruct (param_to_va_in_bounds demo_mem (mkParam 5 2 3 4) 4096 2 demo_mem_wf
    ltac:(split_and!; cbn; lia) eq_refl) as (_ & bs & _ & Hb & _ & Hl).
  injection Hb as <-. exact Hl.
Defined.

Lemma get_param_wraps m params idx p a off :
  wf m -> params !! idx = Some p -> param_ok p -> is_memref p = true ->
  tee_supp_param_to_va m p = Some (a, off) ->
  get_param m params idx = Some (mkRef (u64 (size p - off)) (Some (a, off))) /\
  (0 < off <= size p -> 0 <= u64 (size p - off) < size p) /\
  (size p < off -> u64 (size p - off) = size p - off + 2 ^ 64).
Proof.
  intros W Hp (_ & Ha & Hb & _) Hm. unfold tee_supp_param_to_va, tee_supp_param_is_memref, get_param.
  rewrite Hm, Hp. cbn [negb mbind option_bind]. rewrite Hm. cbn [negb].
  destruct (Z.ltb_spec (u64 (size p + shm_offs p)) (size p)); [done|].
  destruct (Z.ltb_spec (u64 (size p + shm_offs p)) (shm_offs p)); [done|]. cbn [orb].
  destruct (find_tshm _ _) as [t|]; [|done]. cbn [mbind option_bind].
  destruct (Z.ltb_spec (ts_size t) (u64 (size p + shm_offs p))); [done|]. intros [= <- <-].
  unfold shm_offs, size, u64 in *. split_and!; [done| |].
  - intros Ho. rewrite Z.mod_small; lia.
  - intros Ho. rewrite <- (Z_mod_plus_full _ 1), Z.mod_small; lia.
Qed.

(** [get_param] computes the size it reports as size minus offset: for an
    offset larger than the size the result wraps to nearly 2^64, although the
    pointer is valid and the buffer really has [size] bytes; for a smaller
    offset the end of the buffer is cut off. *)
Theorem get_param_wrong_size m params idx p a off :
  wf m -> params !! idx = Some p -> param_ok p -> is_memref p = true ->
  tee_supp_param_to_va m p = Some (a, off) ->
  get_param m params idx = Some (mkRef (u64 (size p - off)) (Some (a, off))) /\
  (0 < off <= size p -> 0 <= u64 (size p - off) < size p) /\
  (size p < off -> u64 (size p - off) = size p - off + 2 ^ 64).
Proof. apply get_param_wraps. Qed.

Lemma get_param_wrong_size_witness :
  get_param demo_mem [mkParam 6 8 0 4] 0 = Some (mkRef (2 ^ 64 - 8) (Some (4096, 8))).
Proof.
  apply (get_param_wrong_size demo_mem [mkParam 6 8 0 4] 0 (mkParam 6 8 0 4) 4096 8 demo_mem_wf);
    [reflexivity|split_and!; cbn; lia|reflexivity|reflexivity].
Defined.

End SuppShm.
