(* ===== verification/Posix.v ===== *)
(** * A file system as the supplicant uses it

    The system calls of tee_supp_fs.c on files, directories and descriptors.
    A path is the list of its components; a file is an inode, so that an open
    descriptor outlives [unlink].  Every call that may fail takes the next
    [answer]: it can be interrupted, fail with any error, transfer less than
    asked, or work; with no answers left it works. *)

From stdpp Require Import base tactics option list list_numbers numbers gmap fin_maps sets.
From Stdlib Require Import ZArith Lia.
From S2P Require Import Prelude.

Local Open Scope Z_scope.

Module Posix.

Definition ENOENT : Z := 2.
Definition EINTR : Z := 4.
Definition EBADF : Z := 9.
Definition EEXIST : Z := 17.
Definition ENOTDIR : Z := 20.
Definition EISDIR : Z := 21.
Definition EINVAL : Z := 22.
Definition EROFS : Z := 30.
Definition ENOTEMPTY : Z := 39.

(** ** Paths *)

Definition slash : Z := 47.
Definition dot : Z := 46.
Definition path : Type := list (list Z).

(** The components of a string. *)
Fixpoint split_slash (s : list Z) : path :=
  match s with
  | [] => [[]]
  | c :: s =>
      if c =? slash then [] :: split_slash s
      else match split_slash s with
           | [] => [[c]]
           | w :: ws => (c :: w) :: ws
           end
  end.

(** Empty components and [.] are skipped, [..] goes up. *)
Definition resolve (s : list Z) : path :=
  foldl (fun p w =>
    if bool_decide (w = []) || bool_decide (w = [dot]) then p
    else if bool_decide (w = [dot; dot]) then take (length p - 1) p
    else p ++ [w]) [] (split_slash s).

Definition parent (p : path) : path := take (length p - 1) p.

Fixpoint drop_while (f : Z -> bool) (s : list Z) : list Z :=
  match s with
  | c :: s' => if f c then drop_while f s' else s
  | [] => []
  end.

(** [dirname(3)] *)
Definition dirname (s : list Z) : list Z :=
  match drop_while (Z.eqb slash) (rev s) with
  | [] => match s with [] => [dot] | _ => [slash] end
  | r1 =>
      match drop_while (fun c => negb (c =? slash)) r1 with
      | [] => [dot]
      | r2 =>
          match drop_while (Z.eqb slash) r2 with
          | [] => [slash]
          | r3 => rev r3
          end
      end
  end.

(** ** State *)

Inductive node := NDir | NFile (ino : nat).
Inductive answer := AOk | AIntr | AFail (e : Z) | AShort (n : nat).

(** An open directory stream: what is still to be read of it. *)
Record dir_stream := mkDir { d_path : path; d_rest : list (list Z) }.

(** A descriptor: its inode ([None] for a directory) and whether it can write. *)
Record world := mkWorld {
  nodes : gmap path node;
  inodes : gmap nat (list Z);
  fds : gmap nat (option nat * bool);
  dirs : gmap nat dir_stream;
  readonly : bool;
  errno : Z;
  answers : list answer
}.

#[export] Instance node_eq_dec : EqDecision node.
Proof. solve_decision. Defined.

Definition set_nodes (f : gmap path node -> gmap path node) (w : world) : world :=
  mkWorld (f (nodes w)) (inodes w) (fds w) (dirs w) (readonly w) (errno w) (answers w).
Definition set_inodes (f : gmap nat (list Z) -> gmap nat (list Z)) (w : world) : world :=
  mkWorld (nodes w) (f (inodes w)) (fds w) (dirs w) (readonly w) (errno w) (answers w).
Definition set_fds (f : gmap nat (option nat * bool) -> gmap nat (option nat * bool)) (w : world) : world :=
  mkWorld (nodes w) (inodes w) (f (fds w)) (dirs w) (readonly w) (errno w) (answers w).
Definition set_dirs (f : gmap nat dir_stream -> gmap nat dir_stream) (w : world) : world :=
  mkWorld (nodes w) (inodes w) (fds w) (f (dirs w)) (readonly w) (errno w) (answers w).
Definition fail (e : Z) (w : world) : Z * world :=
  (-1, mkWorld (nodes w) (inodes w) (fds w) (dirs w) (readonly w) e (answers w)).

Definition node_at (w : world) (p : path) : option node :=
  match p with [] => Some NDir | _ => nodes w !! p end.

(** The next answer. *)
Definition next (w : world) : answer * world :=
  match answers w with
  | [] => (AOk, w)
  | a :: l => (a, mkWorld (nodes w) (inodes w) (fds w) (dirs w) (readonly w) (errno w) l)
  end.

(** A call that is interrupted or fails has no effect. *)
Definition syscall (w : world) (k : nat -> world -> Z * world) (max : nat) : Z * world :=
  let '(a, w) := next w in
  match a with
  | AIntr => fail EINTR w
  | AFail e => fail e w
  | AShort n => k (Nat.min (S n) max) w
  | AOk => k max w
  end.

(** ** Calls *)

Inductive oflag := O_RDONLY | O_RDWR | O_CREATE.

(** The kernel picks an unused descriptor. *)
Definition new_fd (e : option nat * bool) (w : world) : Z * world :=
  let fd := fresh (dom (fds w)) in
  (Z.of_nat fd, set_fds (insert fd e) w).

(** [open]; [O_CREATE] is [O_RDWR | O_CREAT | O_TRUNC]. *)
Definition sys_open (s : list Z) (flags : oflag) (w : world) : Z * world :=
  syscall w (fun _ w =>
    let p := resolve s in
    match node_at w p with
    | Some NDir => match flags with O_RDONLY => new_fd (None, false) w | _ => fail EISDIR w end
    | Some (NFile i) =>
        match flags with
        | O_RDONLY => new_fd (Some i, false) w
        | O_RDWR => if readonly w then fail EROFS w else new_fd (Some i, true) w
        | O_CREATE =>
            if readonly w then fail EROFS w
            else new_fd (Some i, true) (set_inodes (insert i []) w)
        end
    | None =>
        match flags with
        | O_CREATE =>
            match node_at w (parent p) with
            | Some NDir =>
                if readonly w then fail EROFS w else
                let i := fresh (dom (inodes w)) in
                new_fd (Some i, true) (set_nodes (insert p (NFile i)) (set_inodes (insert i []) w))
            | Some (NFile _) => fail ENOTDIR w
            | None => fail ENOENT w
            end
        | _ => fail ENOENT w
        end
    end) 0%nat.

(** [close]: Linux releases the descriptor also when it is interrupted. *)
Definition sys_close (fd : Z) (w : world) : Z * world :=
  let '(a, w) := next w in
  if (0 <=? fd) && bool_decide (is_Some (fds w !! Z.to_nat fd)) then
    let w := set_fds (delete (Z.to_nat fd)) w in
    match a with
    | AIntr => fail EINTR w
    | AFail e => fail e w
    | _ => (0, w)
    end
  else fail EBADF w.

(** The inode behind a descriptor; [wr] asks for writing. *)
Definition fd_inode (w : world) (fd : Z) (wr : bool) : option nat :=
  if fd <? 0 then None else
  match fds w !! Z.to_nat fd with
  | Some (Some i, rw) => if wr && negb rw then None else Some i
  | _ => None
  end.

Definition content (w : world) (i : nat) : list Z := default [] (inodes w !! i).

(** Bytes beyond the end read as zeros once something is written after them. *)
Definition pwrite_content (c : list Z) (off : nat) (bs : list Z) : list Z :=
  take off (c ++ replicate (off - length c) 0) ++ bs ++ drop (off + length bs) c.

(** The bytes read; their number is the result. *)
Definition sys_pread (fd : Z) (n : nat) (off : Z) (w : world) : Z * list Z * world :=
  match next w with
  | (AIntr, w) => (-1, [], snd (fail EINTR w))
  | (AFail e, w) => (-1, [], snd (fail e w))
  | (a, w) =>
      match fd_inode w fd false with
      | None => (-1, [], snd (fail EBADF w))
      | Some i =>
          if off <? 0 then (-1, [], snd (fail EINVAL w)) else
          let n := match a with AShort k => Nat.min (S k) n | _ => n end in
          let bs := take n (drop (Z.to_nat off) (content w i)) in
          (Z.of_nat (length bs), bs, w)
      end
  end.

Definition sys_pwrite (fd : Z) (bs : list Z) (off : Z) (w : world) : Z * world :=
  syscall w (fun n w =>
    match fd_inode w fd true with
    | None => fail EBADF w
    | Some i =>
        if off <? 0 then fail EINVAL w
        else (Z.of_nat n,
              set_inodes (insert i (pwrite_content (content w i) (Z.to_nat off) (take n bs))) w)
    end) (length bs).

Definition sys_ftruncate (fd len : Z) (w : world) : Z * world :=
  syscall w (fun _ w =>
    match fd_inode w fd true with
    | None => fail EINVAL w
    | Some i =>
        if len <? 0 then fail EINVAL w
        else (0, set_inodes (insert i
                   (take (Z.to_nat len) (content w i ++ replicate (Z.to_nat len - length (content w i)) 0))) w)
    end) 0%nat.

Definition sys_mkdir (s : list Z) (w : world) : Z * world :=
  syscall w (fun _ w =>
    let p := resolve s in
    match node_at w p, node_at w (parent p) with
    | Some _, _ => fail EEXIST w
    | None, None => fail ENOENT w
    | None, Some (NFile _) => fail ENOTDIR w
    | None, Some NDir => if readonly w then fail EROFS w else (0, set_nodes (insert p NDir) w)
    end) 0%nat.

(** The names in a directory. *)
Definition children (w : world) (p : path) : list (list Z) :=
  omap (fun kn => if bool_decide (parent (fst kn) = p) then last (fst kn) else None)
    (map_to_list (nodes w)).

Definition sys_rmdir (s : list Z) (w : world) : Z * world :=
  syscall w (fun _ w =>
    let p := resolve s in
    match nodes w !! p with
    | None => fail ENOENT w
    | Some (NFile _) => fail ENOTDIR w
    | Some NDir =>
        match children w p with
        | [] => if readonly w then fail EROFS w else (0, set_nodes (delete p) w)
        | _ => fail ENOTEMPTY w
        end
    end) 0%nat.

Definition sys_unlink (s : list Z) (w : world) : Z * world :=
  syscall w (fun _ w =>
    let p := resolve s in
    match node_at w p with
    | None => fail ENOENT w
    | Some NDir => fail EISDIR w
    | Some (NFile _) => if readonly w then fail EROFS w else (0, set_nodes (delete p) w)
    end) 0%nat.

Definition sys_stat (s : list Z) (w : world) : Z * world :=
  syscall w (fun _ w =>
    match node_at w (resolve s) with Some _ => (0, w) | None => fail ENOENT w end) 0%nat.

(** Everything below [old] moves below [new]; what was at [new] is replaced. *)
Definition move_tree (old new : path) (m : gmap path node) : gmap path node :=
  list_to_map (omap (fun kn =>
    if bool_decide (old `prefix_of` fst kn)
    then Some (new ++ drop (length old) (fst kn), snd kn)
    else if bool_decide (fst kn = new) then None else Some kn) (map_to_list m)).

Definition sys_rename (s_old s_new : list Z) (w : world) : Z * world :=
  syscall w (fun _ w =>
    let old := resolve s_old in
    let new := resolve s_new in
    match nodes w !! old, node_at w (parent new) with
    | None, _ => fail ENOENT w
    | _, None => fail ENOENT w
    | _, Some (NFile _) => fail ENOTDIR w
    | Some n, Some NDir =>
        if bool_decide (old = new) then (0, w) else
        if readonly w then fail EROFS w else
        match n, node_at w new with
        | NFile _, Some NDir => fail EISDIR w
        | NDir, Some (NFile _) => fail ENOTDIR w
        | NDir, _ =>
            if bool_decide (old `prefix_of` new) then fail EINVAL w else
            match children w new with
            | [] => (0, set_nodes (move_tree old new) w)
            | _ => fail ENOTEMPTY w
            end
        | NFile i, _ => (0, set_nodes (fun m => <[new := NFile i]> (delete old m)) w)
        end
    end) 0%nat.

(** The directory entries, [.] and [..] first. *)
Definition entries (w : world) (p : path) : list (list Z) :=
  [dot] :: [dot; dot] :: children w p.

(** [opendir]: 0 is NULL, otherwise the address of a stream. *)
Definition sys_opendir (s : list Z) (w : world) : Z * world :=
  match next w with
  | (AIntr, w) => (0, snd (fail EINTR w))
  | (AFail e, w) => (0, snd (fail e w))
  | (_, w) =>
      match node_at w (resolve s) with
      | Some NDir =>
          let d := fresh (dom (dirs w)) in
          (Z.of_nat (S d), set_dirs (insert d (mkDir (resolve s) (entries w (resolve s)))) w)
      | Some (NFile _) => (0, snd (fail ENOTDIR w))
      | None => (0, snd (fail ENOENT w))
      end
  end.

(** The stream at an address ([None]: no stream is there). *)
Definition stream_at (w : world) (dir : Z) : option (nat * dir_stream) :=
  if dir <=? 0 then None else
  d ← dirs w !! (Z.to_nat dir - 1)%nat;
  Some ((Z.to_nat dir - 1)%nat, d).

(** [readdir]: the next name; undefined without a stream. *)
Definition sys_readdir (dir : Z) (w : world) : option (option (list Z) * world) :=
  '(d, ds) ← stream_at w dir;
  match d_rest ds with
  | [] => Some (None, w)
  | e :: rest => Some (Some e, set_dirs (insert d (mkDir (d_path ds) rest)) w)
  end.

Definition sys_rewinddir (dir : Z) (w : world) : option world :=
  '(d, ds) ← stream_at w dir;
  Some (set_dirs (insert d (mkDir (d_path ds) (entries w (d_path ds)))) w).

Definition sys_closedir (dir : Z) (w : world) : option world :=
  '(d, _) ← stream_at w dir;
  Some (set_dirs (delete d) w).

(** ** Invariant *)

(** Files and open descriptors have their inode. *)
Record world_ok (w : world) : Prop := {
  ok_nodes : forall p i, nodes w !! p = Some (NFile i) -> is_Some (inodes w !! i);
  ok_fds : forall fd i rw, fds w !! fd = Some (Some i, rw) -> is_Some (inodes w !! i)
}.

(** What every call keeps: the invariant and the open streams; it consumes
    answers, at least one when it is interrupted. *)
Definition step_ok (w w' : world) : Prop :=
  world_ok w' /\ dirs w' = dirs w /\ (length (answers w') <= length (answers w))%nat.

Definition good (f : world -> Z * world) : Prop := forall w, world_ok w ->
  step_ok w (snd (f w)) /\ -1 <= fst (f w) /\
  (fst (f w) < 0 -> errno (snd (f w)) = EINTR -> (length (answers (snd (f w))) < length (answers w))%nat).

(** The effect of a call that is neither interrupted nor refused. *)
Definition body_ok (k : world -> Z * world) : Prop := forall w, world_ok w ->
  world_ok (snd (k w)) /\ dirs (snd (k w)) = dirs w /\ answers (snd (k w)) = answers w /\
  -1 <= fst (k w) /\ (fst (k w) < 0 -> errno (snd (k w)) <> EINTR).

Lemma next_ok w : world_ok w ->
  step_ok w (snd (next w)) /\
  (fst (next w) <> AOk -> (length (answers (snd (next w))) < length (answers w))%nat).
Proof.
  intros W. unfold next, step_ok. destruct (answers w) as [|a l] eqn:E; cbn.
  - split; [by rewrite E|done].
  - split; [|intros _; lia]. split_and!; [|done|lia]. by destruct W.
Qed.

Lemma fail_ok e w : world_ok w -> world_ok (snd (fail e w)).
Proof. by intros []. Qed.

Lemma good_syscall k max : (forall n, body_ok (k n)) -> good (fun w => syscall w k max).
Proof.
  intros Hk w W. unfold syscall. pose proof (next_ok w W) as [Hs Hn]. destruct (next w) as [a w1].
  cbn [fst snd] in *. destruct Hs as (W1 & D1 & A1).
  destruct a as [| |e|n]; cbn [fst snd fail errno answers dirs].
  - destruct (Hk max w1 W1) as (B1 & B2 & B3 & B4 & B5). unfold step_ok. rewrite B3, B2.
    split_and!; try done. intros H1 H2. by destruct B5.
  - unfold step_ok. cbn. split_and!; try done; [by apply (fail_ok EINTR)|]. intros _ _. by apply Hn.
  - unfold step_ok. cbn. split_and!; try done; [by apply (fail_ok e)|]. intros _ _. by apply Hn.
  - destruct (Hk (Nat.min (S n) max) w1 W1) as (B1 & B2 & B3 & B4 & B5). unfold step_ok. rewrite B3, B2.
    split_and!; try done. intros H1 H2. by destruct B5.
Qed.

Lemma body_fail e w : world_ok w -> e <> EINTR ->
  world_ok (snd (fail e w)) /\ dirs (snd (fail e w)) = dirs w /\
  answers (snd (fail e w)) = answers w /\ -1 <= fst (fail e w) /\
  (fst (fail e w) < 0 -> errno (snd (fail e w)) <> EINTR).
Proof. intros W He. split_and!; try done. by apply fail_ok. Qed.

Lemma new_fd_body e w : world_ok w ->
  (forall i, fst e = Some i -> is_Some (inodes w !! i)) ->
  world_ok (snd (new_fd e w)) /\ dirs (snd (new_fd e w)) = dirs w /\
  answers (snd (new_fd e w)) = answers w /\ -1 <= fst (new_fd e w) /\
  (fst (new_fd e w) < 0 -> errno (snd (new_fd e w)) <> EINTR).
Proof.
  intros [W1 W2] He. unfold new_fd. cbn. split_and!; try done; [|lia|lia]. split; [done|]. cbn.
  intros fd i rw. destruct (decide (fresh (dom (fds w)) = fd)) as [<-|Hne].
  - rewrite lookup_insert_eq. intros [= ->]. by apply He.
  - rewrite lookup_insert_ne by done. apply W2.
Qed.

Lemma set_inode_ok w i c : world_ok w -> world_ok (set_inodes (insert i c) w).
Proof.
  intros [W1 W2]. split; cbn.
  - intros p j Hj. apply W1 in Hj. destruct (decide (i = j)) as [->|];
      [by rewrite lookup_insert_eq|by rewrite lookup_insert_ne].
  - intros fd j rw Hj. apply W2 in Hj. destruct (decide (i = j)) as [->|];
      [by rewrite lookup_insert_eq|by rewrite lookup_insert_ne].
Qed.

Lemma set_nodes_ok w f : world_ok w ->
  (forall p i, f (nodes w) !! p = Some (NFile i) -> is_Some (inodes w !! i)) ->
  world_ok (set_nodes f w).
Proof. intros [W1 W2] H. by split. Qed.

Lemma node_at_file w p i : world_ok w -> node_at w p = Some (NFile i) -> is_Some (inodes w !! i).
Proof. intros W. unfold node_at. destruct p; [done|]. apply (ok_nodes _ W). Qed.

Lemma sys_open_good s flags : good (sys_open s flags).
Proof.
  apply good_syscall. intros _ w W. cbv zeta.
  destruct (node_at w (resolve s)) as [[|i]|] eqn:En.
  - destruct flags; try (by apply body_fail). by apply new_fd_body.
  - pose proof (node_at_file _ _ _ W En) as Hi.
    destruct flags; [apply new_fd_body; [done|by intros ? [= <-]]| |];
      (destruct (readonly w); [by apply body_fail|]).
    + apply new_fd_body; [done|]. by intros ? [= <-].
    + refine (new_fd_body _ (set_inodes (insert i []) w) _ _); [by apply set_inode_ok|].
      intros ? [= <-]. cbn. by rewrite lookup_insert_eq.
  - destruct flags; try (by apply body_fail).
    destruct (node_at w (parent (resolve s))) as [[|]|]; try (by apply body_fail).
    destruct (readonly w); [by apply body_fail|].
    set (i := fresh (dom (inodes w))).
    refine (new_fd_body _ (set_nodes (insert (resolve s) (NFile i)) (set_inodes (insert i []) w)) _ _).
    + apply set_nodes_ok; [by apply set_inode_ok|]. intros p j. cbn.
      destruct (decide (resolve s = p)) as [->|].
      * rewrite lookup_insert_eq. intros [= <-]. by rewrite lookup_insert_eq.
      * rewrite lookup_insert_ne by done. intros Hp. apply (ok_nodes _ W) in Hp.
        destruct (decide (i = j)) as [<-|]; [by rewrite lookup_insert_eq|].
        by rewrite lookup_insert_ne.
    + intros ? [= <-]. cbn. by rewrite lookup_insert_eq.
Qed.

Lemma body_done (r : Z) (w w' : world) : world_ok w' -> dirs w' = dirs w ->
  answers w' = answers w -> 0 <= r ->
  world_ok (snd (r, w')) /\ dirs (snd (r, w')) = dirs w /\ answers (snd (r, w')) = answers w /\
  -1 <= fst (r, w') /\ (fst (r, w') < 0 -> errno (snd (r, w')) <> EINTR).
Proof. intros. cbn. split_and!; try done; lia. Qed.

Lemma sys_pwrite_good fd bs off : good (sys_pwrite fd bs off).
Proof.
  apply good_syscall. intros n w W. destruct (fd_inode w fd true) as [i|]; [|by apply body_fail].
  case_match; [by apply body_fail|]. apply (body_done _ w); [by apply set_inode_ok|done|done|lia].
Qed.

Lemma sys_ftruncate_good fd len : good (sys_ftruncate fd len).
Proof.
  apply good_syscall. intros n w W. destruct (fd_inode w fd true) as [i|]; [|by apply body_fail].
  case_match; [by apply body_fail|]. apply (body_done _ w); [by apply set_inode_ok|done|done|lia].
Qed.

Lemma sys_mkdir_good s : good (sys_mkdir s).
Proof.
  apply good_syscall. intros n w W. cbv zeta.
  destruct (node_at w (resolve s)); [by apply body_fail|].
  destruct (node_at w (parent (resolve s))) as [[|]|]; try (by apply body_fail).
  destruct (readonly w); [by apply body_fail|].
  apply (body_done _ w); [|done|done|lia]. apply set_nodes_ok; [done|]. intros p i.
  destruct (decide (resolve s = p)) as [->|]; [by rewrite lookup_insert_eq|].
  rewrite lookup_insert_ne by done. apply (ok_nodes _ W).
Qed.

Lemma delete_node_ok w p : world_ok w -> world_ok (set_nodes (delete p) w).
Proof. intros W. apply set_nodes_ok; [done|]. intros q i [_ H]%lookup_delete_Some. by apply (ok_nodes _ W) in H. Qed.

Lemma sys_rmdir_good s : good (sys_rmdir s).
Proof.
  apply good_syscall. intros n w W. cbv zeta.
  destruct (nodes w !! resolve s) as [[|]|]; try (by apply body_fail).
  destruct (children w (resolve s)); [|by apply body_fail].
  destruct (readonly w); [by apply body_fail|].
  apply (body_done _ w); [|done|done|lia]. by apply delete_node_ok.
Qed.

Lemma sys_unlink_good s : good (sys_unlink s).
Proof.
  apply good_syscall. intros n w W. cbv zeta.
  destruct (node_at w (resolve s)) as [[|]|]; try (by apply body_fail).
  destruct (readonly w); [by apply body_fail|].
  apply (body_done _ w); [|done|done|lia]. by apply delete_node_ok.
Qed.

Lemma sys_stat_good s : good (sys_stat s).
Proof.
  apply good_syscall. intros n w W. case_match; [|by apply body_fail]. by apply (body_done _ w).
Qed.

Lemma move_tree_values old new m q n :
  move_tree old new m !! q = Some n -> exists p, m !! p = Some n.
Proof.
  intros H. apply elem_of_list_to_map_2 in H. apply list_elem_of_omap in H as ([p x] & Hx & E).
  apply elem_of_map_to_list in Hx. exists p. cbn in E. repeat case_bool_decide; by simplify_eq.
Qed.

Lemma sys_rename_good a b : good (sys_rename a b).
Proof.
  apply good_syscall. intros n w W. cbv zeta.
  destruct (nodes w !! resolve a) as [x|] eqn:Ea; [|by apply body_fail].
  destruct (node_at w (parent (resolve b))) as [[|]|]; try (by apply body_fail).
  case_bool_decide; [by apply (body_done _ w)|].
  destruct (readonly w); [by apply body_fail|].
  destruct x as [|i].
  - destruct (node_at w (resolve b)) as [[|]|]; try (by apply body_fail);
      (case_bool_decide; [by apply body_fail|]);
      (destruct (children w (resolve b)); [|by apply body_fail]);
      (apply (body_done _ w); [|done|done|lia]); apply set_nodes_ok; try done;
      intros p i [q Hq]%move_tree_values; by apply (ok_nodes _ W) in Hq.
  - destruct (node_at w (resolve b)) as [[|]|]; try (by apply body_fail);
      (apply (body_done _ w); [|done|done|lia]); apply set_nodes_ok; try done;
      intros p j; (destruct (decide (resolve b = p)) as [->|];
        [rewrite lookup_insert_eq; intros [= <-]; by apply (ok_nodes _ W) in Ea
        |rewrite lookup_insert_ne by done; intros [_ Hp]%lookup_delete_Some; by apply (ok_nodes _ W) in Hp]).
Qed.

Lemma sys_close_good fd : good (sys_close fd).
Proof.
  intros w W. unfold sys_close. pose proof (next_ok w W) as [Hs Hn]. destruct (next w) as [a w1].
  cbn [fst snd] in *. destruct Hs as (W1 & D1 & A1).
  case_match; [|unfold step_ok; cbn; split_and!; try done; by apply (fail_ok EBADF)].
  assert (world_ok (set_fds (delete (Z.to_nat fd)) w1)) as W2.
  { destruct W1 as [X Y]. split; [done|]. cbn. intros f i rw [_ Hf]%lookup_delete_Some. by apply Y in Hf. }
  destruct a; unfold step_ok; cbn; split_and!; try done; try lia;
    try (by apply (fail_ok EINTR) in W2); try (by apply (fail_ok e) in W2); intros _ _; by apply Hn.
Qed.

#[export] Hint Resolve sys_open_good sys_close_good sys_pwrite_good sys_ftruncate_good sys_mkdir_good
  sys_rmdir_good sys_unlink_good sys_stat_good sys_rename_good : core.

End Posix.
