(* ===== verification/TeeFs.v ===== *)
(** * The file service of tee-supplicant
      (optee_client/tee-supplicant/src/tee_supp_fs.c)

    The secure world stores its objects as files of the normal world: every
    request of the file service names a file in shared memory or a descriptor
    by number.  The handlers run over the shared memory of [SuppShm], the file
    system of [Posix] and the handle database of [HandleDb] for directory
    streams.  [None] is undefined behaviour (a name without its NUL, an access
    outside a mapping, a stream that is not open). *)

From stdpp Require Import base tactics option list list_numbers numbers gmap fin_maps.
From Stdlib Require Import ZArith Lia.
From S2P Require Import Prelude TeeParam SuppShm Posix HandleDb.
Import TeeParam SuppShm Posix.

Local Open Scope Z_scope.
Local Open Scope c_scope.

Module TeeFs.

(** PATH_MAX of linux/limits.h. *)
Definition PATH_MAX : Z := 4096.

Definition OPTEE_MRF_OPEN : Z := 0.
Definition OPTEE_MRF_CREATE : Z := 1.
Definition OPTEE_MRF_CLOSE : Z := 2.
Definition OPTEE_MRF_READ : Z := 3.
Definition OPTEE_MRF_WRITE : Z := 4.
Definition OPTEE_MRF_TRUNCATE : Z := 5.
Definition OPTEE_MRF_REMOVE : Z := 6.
Definition OPTEE_MRF_RENAME : Z := 7.
Definition OPTEE_MRF_OPENDIR : Z := 8.
Definition OPTEE_MRF_CLOSEDIR : Z := 9.
Definition OPTEE_MRF_READDIR : Z := 10.

(** ** State *)

(** The mapped shared memory, [tee_fs_root], the file system and
    [dir_handle_db]. *)
Record st := mkSt {
  mem : shm_mem;
  tee_fs_root : list Z;
  wd : world;
  dir_handle_db : HandleDb.st
}.

Definition set_mem (m : shm_mem) (s : st) : st := mkSt m (tee_fs_root s) (wd s) (dir_handle_db s).
Definition set_root (r : list Z) (s : st) : st := mkSt (mem s) r (wd s) (dir_handle_db s).
Definition set_wd (w : world) (s : st) : st := mkSt (mem s) (tee_fs_root s) w (dir_handle_db s).
Definition set_db (d : HandleDb.st) (s : st) : st := mkSt (mem s) (tee_fs_root s) (wd s) d.

(** A system call, with its result. *)
Definition call {A} (f : world -> A * world) : M st A := fun s =>
  let '(r, w) := f (wd s) in Some (r, set_wd w s).

(** A system call on a stream, undefined without one. *)
Definition call_opt {A} (f : world -> option (A * world)) : M st A := fun s =>
  '(r, w) ← f (wd s); Some (r, set_wd w s).

Definition get_errno : M st Z := fun s => Some (errno (wd s), s).

(** An operation of the handle database. *)
Definition on_db {A} (m : M HandleDb.st A) : M st A := fun s =>
  '(r, d) ← m (dir_handle_db s); Some (r, set_db d s).

(** [strlen] and the copy of a name in shared memory. *)
Definition name_at (a : va) : M st (list Z) := fun s =>
  n ← load_string (mem s) a; Some (n, s).

(** A handler returns its result and the parameters. *)
Definition reply : Type := Z * list tee_ioctl_param.

(** ** Names *)

(** The length and what is in [out]; 0 on failure. *)
Definition tee_fs_get_absolute_filename (root file : list Z) (out_size : Z) : Z * list Z :=
  if out_size <=? Z.of_nat (length root) + 1 then (0, []) else
  let out := root ++ file in
  let s := Z.of_nat (length out) in
  if out_size <=? s then (0, []) else (s, out).

(** The absolute name of the file a parameter names ([None]: the handler
    returns TEEC_ERROR_BAD_PARAMETERS). *)
Definition param_filename (p : tee_ioctl_param) : M st (option (list Z)) := fun s =>
  match tee_supp_param_to_va (mem s) p with
  | None => Some (None, s)
  | Some a =>
      n ← load_string (mem s) a;
      let '(len, out) := tee_fs_get_absolute_filename (tee_fs_root s) n PATH_MAX in
      Some (if len =? 0 then None else Some out, s)
  end.

(** The tests of the number and the types of the parameters. *)
Definition check_types (params : list tee_ioctl_param) (ts : list Z) : bool :=
  bool_decide (map ptype params = ts).

(** ** Start-up *)

(** [stat] after a failed [mkdir] reads a buffer that a failing [stat] has not
    filled. *)
Definition do_mkdir (s : list Z) : M st Z :=
  r <- call (sys_mkdir s) ;;
  e <- get_errno ;;
  if negb (r =? 0) && negb (e =? EEXIST) then ret (-1) else
  q <- call (sys_stat s) ;;
  if negb (q =? 0) then stuck else ret 0.

(** The loop over the slashes; [prev] has been passed, [rest] is to come. *)
Fixpoint mkpath_loop (start : bool) (prev rest : list Z) : M st Z :=
  match rest with
  | [] => ret 0
  | c :: rest =>
      if c =? slash then
        status <- (if start then ret 0 else do_mkdir prev) ;;
        if negb (status =? 0) then ret status else mkpath_loop true (prev ++ [c]) rest
      else mkpath_loop false (prev ++ [c]) rest
  end.

Definition mkpath (s : list Z) : M st Z :=
  status <- mkpath_loop true [] s ;;
  if negb (status =? 0) then ret status else do_mkdir s.

(** TEE_FS_PARENT_PATH is a build setting; "/tee/" is appended. *)
Definition tee_supp_fs_init (create_dir : bool) (parent_path : list Z) : M st Z :=
  let root := parent_path ++ [47; 116; 101; 101; 47] in
  let n := Z.of_nat (length root) in
  modify (set_root (take (Z.to_nat (PATH_MAX - 1)) root)) ;;;
  if PATH_MAX <=? n then ret (-1) else
  if create_dir then
    s <- get ;;
    r <- mkpath (tee_fs_root s) ;;
    if negb (r =? 0) then ret (-1) else ret 0
  else ret 0.

(** ** Handlers *)

(** [while (true)] ends with the answers of the kernel. *)
Fixpoint open_loop (fuel : nat) (fname : list Z) (flags : oflag) : M st Z :=
  match fuel with
  | O => stuck
  | S fuel =>
      fd <- call (sys_open fname flags) ;;
      e <- get_errno ;;
      if (0 <=? fd) || negb (e =? EINTR) then ret fd else open_loop fuel fname flags
  end.

Definition open_wrapper (fname : list Z) (flags : oflag) : M st Z :=
  s <- get ;; open_loop (S (length (answers (wd s)))) fname flags.

Definition ree_fs_new_open (params : list tee_ioctl_param) : M st reply :=
  match params with
  | [p0; p1; p2] =>
      if negb (check_types params [ATTR_TYPE_VALUE_INPUT; ATTR_TYPE_MEMREF_INPUT; ATTR_TYPE_VALUE_OUTPUT])
      then ret (TEEC_ERROR_BAD_PARAMETERS, params) else
      f <- param_filename p1 ;;
      match f with
      | None => ret (TEEC_ERROR_BAD_PARAMETERS, params)
      | Some abs_filename =>
          fd <- open_wrapper abs_filename O_RDWR ;;
          if fd <? 0 then
            fd <- open_wrapper abs_filename O_RDONLY ;;
            if fd <? 0 then ret (TEEC_ERROR_ITEM_NOT_FOUND, params)
            else ret (TEEC_SUCCESS, [p0; p1; set_a fd p2])
          else ret (TEEC_SUCCESS, [p0; p1; set_a fd p2])
      end
  | _ => ret (TEEC_ERROR_BAD_PARAMETERS, params)
  end.

(** After the first [open] failed: the descriptor, or -1 for
    TEEC_ERROR_GENERIC. *)
Definition create_with_dirs (abs_filename : list Z) : M st Z :=
  let abs_dir := take (Z.to_nat (PATH_MAX - 1)) abs_filename in
  let d := dirname abs_dir in
  r <- call (sys_mkdir d) ;;
  if r =? 0 then
    fd <- open_wrapper abs_filename O_CREATE ;;
    if 0 <=? fd then ret fd
    else call (sys_rmdir d) ;;; ret (-1)
  else
  e <- get_errno ;;
  if negb (e =? ENOENT) then ret (-1) else
  r <- call (sys_mkdir (dirname d)) ;;
  if negb (r =? 0) then ret (-1) else
  r <- call (sys_mkdir d) ;;
  if negb (r =? 0) then
    call (sys_rmdir (dirname d)) ;;; ret (-1)
  else
  fd <- open_wrapper abs_filename O_CREATE ;;
  if fd <? 0 then
    call (sys_rmdir d) ;;;
    call (sys_rmdir (dirname d)) ;;;
    ret (-1)
  else ret fd.

Definition ree_fs_new_create (params : list tee_ioctl_param) : M st reply :=
  match params with
  | [p0; p1; p2] =>
      if negb (check_types params [ATTR_TYPE_VALUE_INPUT; ATTR_TYPE_MEMREF_INPUT; ATTR_TYPE_VALUE_OUTPUT])
      then ret (TEEC_ERROR_BAD_PARAMETERS, params) else
      f <- param_filename p1 ;;
      match f with
      | None => ret (TEEC_ERROR_BAD_PARAMETERS, params)
      | Some abs_filename =>
          fd <- open_wrapper abs_filename O_CREATE ;;
          if 0 <=? fd then ret (TEEC_SUCCESS, [p0; p1; set_a fd p2]) else
          e <- get_errno ;;
          if negb (e =? ENOENT) then ret (TEEC_ERROR_GENERIC, params) else
          fd <- create_with_dirs abs_filename ;;
          if fd <? 0 then ret (TEEC_ERROR_GENERIC, params)
          else ret (TEEC_SUCCESS, [p0; p1; set_a fd p2])
      end
  | _ => ret (TEEC_ERROR_BAD_PARAMETERS, params)
  end.

(** A call that is repeated while it is interrupted: 0 or -1. *)
Fixpoint retry_loop (fuel : nat) (f : world -> Z * world) : M st Z :=
  match fuel with
  | O => stuck
  | S fuel =>
      r <- call f ;;
      if r =? 0 then ret 0 else
      e <- get_errno ;;
      if negb (e =? EINTR) then ret (-1) else retry_loop fuel f
  end.

Definition retry (f : world -> Z * world) : M st Z :=
  s <- get ;; retry_loop (S (length (answers (wd s)))) f.

Definition ree_fs_new_close (params : list tee_ioctl_param) : M st reply :=
  match params with
  | [p0] =>
      if negb (check_types params [ATTR_TYPE_VALUE_INPUT])
      then ret (TEEC_ERROR_BAD_PARAMETERS, params) else
      r <- retry (sys_close (s32 (u_b p0))) ;;
      ret (if r =? 0 then TEEC_SUCCESS else TEEC_ERROR_GENERIC, params)
  | _ => ret (TEEC_ERROR_BAD_PARAMETERS, params)
  end.

(** [pread] into the buffer at [buf]. *)
Definition pread_into (fd : Z) (buf : va) (len : Z) (offs : Z) : M st Z := fun s =>
  let '(r, bs, w) := sys_pread fd (Z.to_nat len) offs (wd s) in
  m ← store_bytes (mem s) buf bs;
  Some (r, set_mem m (set_wd w s)).

Definition va_add (a : va) (n : Z) : va := (fst a, snd a + n).

(** [while (r && len)]; the bytes read in all, [None] for the error. *)
Fixpoint read_loop (fuel : nat) (r fd : Z) (buf : va) (len offs s : Z) : M st (option Z) :=
  if (r =? 0) || (len =? 0) then ret (Some s) else
  match fuel with
  | O => stuck
  | S fuel =>
      r <- pread_into fd buf len offs ;;
      if r <? 0 then
        e <- get_errno ;;
        if e =? EINTR then read_loop fuel r fd buf len offs s else ret None
      else read_loop fuel r fd (va_add buf r) (len - r) (offs + r) (s + r)
  end.

Definition ree_fs_new_read (params : list tee_ioctl_param) : M st reply :=
  match params with
  | [p0; p1] =>
      if negb (check_types params [ATTR_TYPE_VALUE_INPUT; ATTR_TYPE_MEMREF_OUTPUT])
      then ret (TEEC_ERROR_BAD_PARAMETERS, params) else
      s <- get ;;
      match tee_supp_param_to_va (mem s) p1 with
      | None => ret (TEEC_ERROR_BAD_PARAMETERS, params)
      | Some buf =>
          n <- read_loop (3 + length (answers (wd s))) (-1) (s32 (u_b p0)) buf (size p1) (s64 (u_c p0)) 0 ;;
          match n with
          | None => ret (TEEC_ERROR_GENERIC, params)
          | Some n => ret (TEEC_SUCCESS, [p0; set_size n p1])
          end
      end
  | _ => ret (TEEC_ERROR_BAD_PARAMETERS, params)
  end.

(** [pwrite] of the [len] bytes at [buf]. *)
Definition pwrite_from (fd : Z) (buf : va) (len : Z) (offs : Z) : M st Z := fun s =>
  bs ← load_bytes (mem s) buf (Z.to_nat len);
  call (sys_pwrite fd bs offs) s.

(** [while (len)]; 0 or -1. *)
Fixpoint write_loop (fuel : nat) (fd : Z) (buf : va) (len offs : Z) : M st Z :=
  if len =? 0 then ret 0 else
  match fuel with
  | O => stuck
  | S fuel =>
      r <- pwrite_from fd buf len offs ;;
      if r <? 0 then
        e <- get_errno ;;
        if e =? EINTR then write_loop fuel fd buf len offs else ret (-1)
      else write_loop fuel fd (va_add buf r) (len - r) (offs + r)
  end.

Definition ree_fs_new_write (params : list tee_ioctl_param) : M st reply :=
  match params with
  | [p0; p1] =>
      if negb (check_types params [ATTR_TYPE_VALUE_INPUT; ATTR_TYPE_MEMREF_INPUT])
      then ret (TEEC_ERROR_BAD_PARAMETERS, params) else
      s <- get ;;
      match tee_supp_param_to_va (mem s) p1 with
      | None => ret (TEEC_ERROR_BAD_PARAMETERS, params)
      | Some buf =>
          r <- write_loop (S (length (answers (wd s)))) (s32 (u_b p0)) buf (size p1) (s64 (u_c p0)) ;;
          ret (if r =? 0 then TEEC_SUCCESS else TEEC_ERROR_GENERIC, params)
      end
  | _ => ret (TEEC_ERROR_BAD_PARAMETERS, params)
  end.

Definition ree_fs_new_truncate (params : list tee_ioctl_param) : M st reply :=
  match params with
  | [p0] =>
      if negb (check_types params [ATTR_TYPE_VALUE_INPUT])
      then ret (TEEC_ERROR_BAD_PARAMETERS, params) else
      r <- retry (sys_ftruncate (s32 (u_b p0)) (s64 (u_c p0))) ;;
      ret (if r =? 0 then TEEC_SUCCESS else TEEC_ERROR_GENERIC, params)
  | _ => ret (TEEC_ERROR_BAD_PARAMETERS, params)
  end.

Definition ree_fs_new_remove (params : list tee_ioctl_param) : M st reply :=
  match params with
  | [p0; p1] =>
      if negb (check_types params [ATTR_TYPE_VALUE_INPUT; ATTR_TYPE_MEMREF_INPUT])
      then ret (TEEC_ERROR_BAD_PARAMETERS, params) else
      f <- param_filename p1 ;;
      match f with
      | None => ret (TEEC_ERROR_BAD_PARAMETERS, params)
      | Some abs_filename =>
          r <- call (sys_unlink abs_filename) ;;
          if negb (r =? 0) then
            e <- get_errno ;;
            ret (if e =? ENOENT then TEEC_ERROR_ITEM_NOT_FOUND else TEEC_ERROR_GENERIC, params)
          else
          let d := dirname abs_filename in
          r <- call (sys_rmdir d) ;;
          if r =? 0 then
            call (sys_rmdir (dirname d)) ;;; ret (TEEC_SUCCESS, params)
          else ret (TEEC_SUCCESS, params)
      end
  | _ => ret (TEEC_ERROR_BAD_PARAMETERS, params)
  end.

Definition ree_fs_new_rename (params : list tee_ioctl_param) : M st reply :=
  match params with
  | [p0; p1; p2] =>
      if negb (check_types params [ATTR_TYPE_VALUE_INPUT; ATTR_TYPE_MEMREF_INPUT; ATTR_TYPE_MEMREF_INPUT])
      then ret (TEEC_ERROR_BAD_PARAMETERS, params) else
      let overwrite := negb (u_b p0 =? 0) in
      s <- get ;;
      match tee_supp_param_to_va (mem s) p1, tee_supp_param_to_va (mem s) p2 with
      | Some old_fname, Some new_fname =>
          o <- param_filename p1 ;;
          match o with
          | None => ret (TEEC_ERROR_BAD_PARAMETERS, params)
          | Some old_abs_filename =>
              n <- param_filename p2 ;;
              match n with
              | None => ret (TEEC_ERROR_BAD_PARAMETERS, params)
              | Some new_abs_filename =>
                  q <- (if overwrite then ret (-1) else call (sys_stat new_abs_filename)) ;;
                  if q =? 0 then ret (TEEC_ERROR_ACCESS_CONFLICT, params) else
                  r <- call (sys_rename old_abs_filename new_abs_filename) ;;
                  e <- get_errno ;;
                  if negb (r =? 0) && (e =? ENOENT) then ret (TEEC_ERROR_ITEM_NOT_FOUND, params)
                  else ret (TEEC_SUCCESS, params)
              end
          end
      | _, _ => ret (TEEC_ERROR_BAD_PARAMETERS, params)
      end
  | _ => ret (TEEC_ERROR_BAD_PARAMETERS, params)
  end.

Definition hidden (name : list Z) : bool :=
  match name with c :: _ => c =? dot | [] => false end.

(** [while ((dent = readdir(dir)))]: whether a visible entry is found. *)
Fixpoint visible_loop (fuel : nat) (dir : Z) : M st bool :=
  match fuel with
  | O => stuck
  | S fuel =>
      e <- call_opt (sys_readdir dir) ;;
      match e with
      | None => ret false
      | Some n => if hidden n then visible_loop fuel dir else ret true
      end
  end.

(** The entries left in a stream, which bound the loops over it. *)
Definition entries_left (dir : Z) (s : st) : nat :=
  match stream_at (wd s) dir with Some (_, d) => length (d_rest d) | None => 0 end.

Definition ree_fs_new_opendir (params : list tee_ioctl_param) : M st reply :=
  match params with
  | [p0; p1; p2] =>
      if negb (check_types params [ATTR_TYPE_VALUE_INPUT; ATTR_TYPE_MEMREF_INPUT; ATTR_TYPE_VALUE_OUTPUT])
      then ret (TEEC_ERROR_BAD_PARAMETERS, params) else
      f <- param_filename p1 ;;
      match f with
      | None => ret (TEEC_ERROR_BAD_PARAMETERS, params)
      | Some abs_filename =>
          dir <- call (sys_opendir abs_filename) ;;
          if dir =? 0 then ret (TEEC_ERROR_ITEM_NOT_FOUND, params) else
          s <- get ;;
          found <- visible_loop (S (entries_left dir s)) dir ;;
          if negb found then
            call_opt (fun w => w ← sys_closedir dir w; Some (tt, w)) ;;;
            ret (TEEC_ERROR_ITEM_NOT_FOUND, params)
          else
          call_opt (fun w => w ← sys_rewinddir dir w; Some (tt, w)) ;;;
          handle <- on_db (HandleDb.handle_get dir) ;;
          if handle <? 0 then
            call_opt (fun w => w ← sys_closedir dir w; Some (tt, w)) ;;;
            ret (TEEC_ERROR_OUT_OF_MEMORY, params)
          else ret (TEEC_SUCCESS, [p0; p1; set_a handle p2])
      end
  | _ => ret (TEEC_ERROR_BAD_PARAMETERS, params)
  end.

Definition ree_fs_new_closedir (params : list tee_ioctl_param) : M st reply :=
  match params with
  | [p0] =>
      if negb (check_types params [ATTR_TYPE_VALUE_INPUT])
      then ret (TEEC_ERROR_BAD_PARAMETERS, params) else
      dir <- on_db (HandleDb.handle_put (s32 (u_b p0))) ;;
      if dir =? 0 then ret (TEEC_ERROR_BAD_PARAMETERS, params) else
      call_opt (fun w => w ← sys_closedir dir w; Some (tt, w)) ;;;
      ret (TEEC_SUCCESS, params)
  | _ => ret (TEEC_ERROR_BAD_PARAMETERS, params)
  end.

(** [while (true)]: the next visible name. *)
Fixpoint readdir_loop (fuel : nat) (dir : Z) : M st (option (list Z)) :=
  match fuel with
  | O => stuck
  | S fuel =>
      e <- call_opt (sys_readdir dir) ;;
      match e with
      | None => ret None
      | Some n => if hidden n then readdir_loop fuel dir else ret (Some n)
      end
  end.

Definition store_at (a : va) (bs : list Z) : M st unit := fun s =>
  m ← store_bytes (mem s) a bs; Some (tt, set_mem m s).

Definition ree_fs_new_readdir (params : list tee_ioctl_param) : M st reply :=
  match params with
  | [p0; p1] =>
      if negb (check_types params [ATTR_TYPE_VALUE_INPUT; ATTR_TYPE_MEMREF_OUTPUT])
      then ret (TEEC_ERROR_BAD_PARAMETERS, params) else
      s <- get ;;
      match tee_supp_param_to_va (mem s) p1 with
      | None => ret (TEEC_ERROR_BAD_PARAMETERS, params)
      | Some buf =>
          let len := size p1 in
          dir <- on_db (HandleDb.handle_lookup (s32 (u_b p0))) ;;
          if dir =? 0 then ret (TEEC_ERROR_BAD_PARAMETERS, params) else
          d <- readdir_loop (S (entries_left dir s)) dir ;;
          match d with
          | None => ret (TEEC_ERROR_ITEM_NOT_FOUND, params)
          | Some d_name =>
              let fname_len := Z.of_nat (length d_name) + 1 in
              let params := [p0; set_size fname_len p1] in
              if len <? fname_len then ret (TEEC_ERROR_SHORT_BUFFER, params)
              else store_at buf (d_name ++ [0]) ;;; ret (TEEC_SUCCESS, params)
          end
      end
  | _ => ret (TEEC_ERROR_BAD_PARAMETERS, params)
  end.

Definition tee_supp_fs_process (params : list tee_ioctl_param) : M st reply :=
  match params with
  | [] => ret (TEEC_ERROR_BAD_PARAMETERS, params)
  | p :: _ =>
      if negb (tee_supp_param_is_value p) then ret (TEEC_ERROR_BAD_PARAMETERS, params) else
      let op := u_a p in
      if op =? OPTEE_MRF_OPEN then ree_fs_new_open params
      else if op =? OPTEE_MRF_CREATE then ree_fs_new_create params
      else if op =? OPTEE_MRF_CLOSE then ree_fs_new_close params
      else if op =? OPTEE_MRF_READ then ree_fs_new_read params
      else if op =? OPTEE_MRF_WRITE then ree_fs_new_write params
      else if op =? OPTEE_MRF_TRUNCATE then ree_fs_new_truncate params
      else if op =? OPTEE_MRF_REMOVE then ree_fs_new_remove params
      else if op =? OPTEE_MRF_RENAME then ree_fs_new_rename params
      else if op =? OPTEE_MRF_OPENDIR then ree_fs_new_opendir params
      else if op =? OPTEE_MRF_CLOSEDIR then ree_fs_new_closedir params
      else if op =? OPTEE_MRF_READDIR then ree_fs_new_readdir params
      else ret (TEEC_ERROR_BAD_PARAMETERS, params)
  end.

(** ** Invariant *)

(** The handles stand for open streams, each stream for one handle. *)
Definition db_inv (hs : HandleDb.st) (ds : gmap nat dir_stream) : Prop :=
  exists d, HandleDb.db hs = Some d /\ HandleDb.wf d /\
    (forall h p, HandleDb.handles d !! h = Some p -> 0 < p /\ is_Some (ds !! (Z.to_nat p - 1)%nat)) /\
    (forall h h' p, HandleDb.handles d !! h = Some p -> HandleDb.handles d !! h' = Some p -> h = h').

Record inv (s : st) : Prop := {
  inv_mem : SuppShm.wf (mem s);
  inv_wd : world_ok (wd s);
  inv_db : db_inv (dir_handle_db s) (dirs (wd s))
}.

(** What the file calls keep. *)
Record keeps (s s' : st) : Prop := {
  k_inv : inv s';
  k_mem : mem s' = mem s;
  k_root : tee_fs_root s' = tee_fs_root s;
  k_db : dir_handle_db s' = dir_handle_db s;
  k_ans : (length (answers (wd s')) <= length (answers (wd s)))%nat
}.

Lemma keeps_refl s : inv s -> keeps s s.
Proof. by split. Qed.
Lemma keeps_trans s1 s2 s3 : keeps s1 s2 -> keeps s2 s3 -> keeps s1 s3.
Proof. intros [] []. split; try done; try congruence. lia. Qed.

Lemma keeps_wd s w : inv s -> step_ok (wd s) w -> keeps s (set_wd w s).
Proof.
  intros [I1 I2 I3] (W & D & A). split; try done. split; [done|done|]. cbn. by rewrite D.
Qed.

(** The rule for a system call. *)
Lemma wp_call f (Q : Z -> st -> Prop) s : good f -> inv s ->
  (forall r s', keeps s s' -> -1 <= r ->
     (r < 0 -> errno (wd s') = EINTR -> (length (answers (wd s')) < length (answers (wd s)))%nat) ->
     Q r s') -> wp (call f) Q s.
Proof.
  intros G I H. unfold wp, call. destruct (G (wd s) (inv_wd _ I)) as (H1 & H2 & H3).
  destruct (f (wd s)) as [r w]. apply H; [by apply keeps_wd|done|done].
Qed.

Lemma wp_errno (Q : Z -> st -> Prop) s : Q (errno (wd s)) s -> wp get_errno Q s.
Proof. done. Qed.

Lemma open_loop_ok fuel fname flags s : inv s -> (length (answers (wd s)) < fuel)%nat ->
  wp (open_loop fuel fname flags) (fun fd s' => keeps s s' /\ -1 <= fd) s.
Proof.
  revert s. induction fuel as [|fuel IH]; intros s I Hf; [lia|]. cbn [open_loop].
  apply wp_bind, wp_call; [auto|done|]. intros r s1 K Hr He. apply wp_bind, wp_errno.
  destruct (Z.leb_spec 0 r); cbn [orb]; [by apply wp_ret|].
  destruct (Z.eqb_spec (errno (wd s1)) EINTR) as [Hi|Hi]; cbn [negb]; [|by apply wp_ret].
  specialize (He ltac:(done) Hi). eapply wp_mono; [apply IH; [apply K|lia]|].
  intros fd s2 [K2 Hfd]. split; [by eapply keeps_trans|done].
Qed.

Lemma open_wrapper_ok fname flags s : inv s ->
  wp (open_wrapper fname flags) (fun fd s' => keeps s s' /\ -1 <= fd) s.
Proof. intros I. unfold open_wrapper. apply wp_bind, wp_get. apply open_loop_ok; [done|lia]. Qed.

Lemma retry_ok f s : good f -> inv s -> (forall w, fst (f w) = 0 \/ fst (f w) = -1) ->
  wp (retry f) (fun _ s' => keeps s s') s.
Proof.
  intros G I Hf. unfold retry. apply wp_bind, wp_get.
  assert (forall fuel s, inv s -> (length (answers (wd s)) < fuel)%nat ->
    wp (retry_loop fuel f) (fun _ s' => keeps s s') s) as H; [|apply H; [done|lia]].
  clear s I. induction fuel as [|fuel IH]; intros s I Hl; [lia|]. cbn [retry_loop].
  apply wp_bind. unfold wp at 1, call. destruct (G (wd s) (inv_wd _ I)) as (H1 & H2 & H3).
  specialize (Hf (wd s)). destruct (f (wd s)) as [r w]. cbn [fst snd] in *.
  pose proof (keeps_wd s w I H1) as K.
  destruct (Z.eqb_spec r 0); [by apply wp_ret|]. apply wp_bind, wp_errno.
  destruct (Z.eqb_spec (errno (wd (set_wd w s))) EINTR) as [Hi|Hi]; cbn [negb]; [|by apply wp_ret].
  cbn in Hi. specialize (H3 ltac:(lia) Hi). eapply wp_mono; [apply IH; [apply K|cbn; lia]|].
  intros a s2 K2. by eapply keeps_trans.
Qed.

(** Names that are handed to the service end inside their object. *)
Definition names_ok (s : st) (params : list tee_ioctl_param) : Prop :=
  forall p a, p ∈ params -> tee_supp_param_to_va (mem s) p = Some a -> is_Some (load_string (mem s) a).

Lemma param_filename_ok p s (Q : option (list Z) -> st -> Prop) :
  (forall a, tee_supp_param_to_va (mem s) p = Some a -> is_Some (load_string (mem s) a)) ->
  (forall f, Q f s) -> wp (param_filename p) Q s.
Proof.
  intros Hn HQ. unfold wp, param_filename. destruct (tee_supp_param_to_va (mem s) p) as [a|]; [|done].
  destruct (Hn a eq_refl) as [n ->]. cbn. by destruct (tee_fs_get_absolute_filename _ _ _).
Qed.

(** The same rules with the state at the start of the handler in view. *)
Section Handler.
Context (s0 : st).

Lemma keeps_call f (Q : Z -> st -> Prop) s : keeps s0 s -> good f ->
  (forall r s', keeps s0 s' -> -1 <= r -> Q r s') -> wp (call f) Q s.
Proof.
  intros K G H. apply wp_call; [done|apply K|]. intros r s' K' Hr _. apply H; [by eapply keeps_trans|done].
Qed.

Lemma keeps_open fname flags (Q : Z -> st -> Prop) s : keeps s0 s ->
  (forall fd s', keeps s0 s' -> -1 <= fd -> Q fd s') -> wp (open_wrapper fname flags) Q s.
Proof.
  intros K H. eapply wp_mono; [apply open_wrapper_ok, K|]. intros fd s' [K' Hf].
  apply H; [by eapply keeps_trans|done].
Qed.

Lemma keeps_retry f (Q : Z -> st -> Prop) s : keeps s0 s -> good f ->
  (forall w, fst (f w) = 0 \/ fst (f w) = -1) -> (forall r s', keeps s0 s' -> Q r s') ->
  wp (retry f) Q s.
Proof.
  intros K G Hf H. eapply wp_mono; [apply retry_ok; [done|apply K|done]|].
  intros r s' K'. apply H. by eapply keeps_trans.
Qed.

Lemma keeps_filename p (Q : option (list Z) -> st -> Prop) s params : keeps s0 s ->
  names_ok s0 params -> p ∈ params -> (forall f, Q f s) -> wp (param_filename p) Q s.
Proof.
  intros K Hn Hp H. apply param_filename_ok; [|done]. rewrite (k_mem _ _ K). intros a. by apply Hn.
Qed.
End Handler.

(** Runs one step of a handler that has only called the file system so far. *)
Ltac fs_step :=
  lazymatch goal with
  | |- wp (ret _) _ _ => apply wp_ret
  | |- wp (bind _ _) _ _ => apply wp_bind
  | |- wp get _ _ => apply wp_get
  | |- wp get_errno _ _ => apply wp_errno
  | K : keeps ?s0 ?s |- wp (call _) _ ?s => apply (keeps_call s0); [exact K|by auto|clear K; intros ? ? K ?]
  | K : keeps ?s0 ?s |- wp (open_wrapper _ _) _ ?s => apply (keeps_open s0); [exact K|clear K; intros ? ? K ?]
  | K : keeps ?s0 ?s, N : names_ok ?s0 ?ps |- wp (param_filename _) _ ?s =>
      apply (keeps_filename s0 _ _ _ ps); [exact K|exact N|set_solver|intros ?]
  | |- wp (if ?b then _ else _) _ _ => destruct b eqn:?
  | |- wp (match ?x with _ => _ end) _ _ => destruct x eqn:?
  end.

Lemma close_result fd w : fst (sys_close fd w) = 0 \/ fst (sys_close fd w) = -1.
Proof. unfold sys_close. destruct (next w) as [a w1]. case_match; [|by right]. destruct a; auto. Qed.

Lemma truncate_result fd n w : fst (sys_ftruncate fd n w) = 0 \/ fst (sys_ftruncate fd n w) = -1.
Proof.
  unfold sys_ftruncate, syscall. destruct (next w) as [a w1].
  destruct a; repeat case_match; auto.
Qed.

(** The handlers that touch neither the shared memory nor the handles. *)
Lemma file_handlers_ok h params s : inv s ->
  h ∈ [ree_fs_new_open; ree_fs_new_create; ree_fs_new_remove; ree_fs_new_rename] ->
  names_ok s params -> wp (h params) (fun _ s' => keeps s s') s.
Proof.
  intros I Hh N. pose proof (keeps_refl s I) as K.
  repeat (apply elem_of_cons in Hh as [->|Hh];
    [unfold ree_fs_new_open, ree_fs_new_create, create_with_dirs, ree_fs_new_remove, ree_fs_new_rename;
     repeat fs_step; exact K|]).
  by apply not_elem_of_nil in Hh.
Qed.

Lemma fd_handlers_ok h params s : inv s -> h ∈ [ree_fs_new_close; ree_fs_new_truncate] ->
  wp (h params) (fun _ s' => keeps s s') s.
Proof.
  intros I Hh. pose proof (keeps_refl s I) as K.
  repeat (apply elem_of_cons in Hh as [->|Hh];
    [unfold ree_fs_new_close, ree_fs_new_truncate; repeat fs_step; try exact K;
     (apply (keeps_retry s); [exact K|by auto|first [apply close_result|apply truncate_result]|]);
     intros r s' K'; repeat fs_step; exact K'|]).
  by apply not_elem_of_nil in Hh.
Qed.

(** Every transfer consumes an answer; without answers it is complete. *)
Lemma pwrite_progress fd bs off w :
  let '(r, w') := sys_pwrite fd bs off w in
  r <= Z.of_nat (length bs) /\
  (answers w = [] -> r = Z.of_nat (length bs) \/ r = -1 /\ errno w' <> EINTR) /\
  (answers w <> [] -> (length (answers w') < length (answers w))%nat).
Proof.
  unfold sys_pwrite, syscall, next. destruct (answers w) as [|a l] eqn:Ea; cbn -[Nat.min].
  - destruct (fd_inode w fd true); cbn; [destruct (off <? 0); cbn|]; split_and!; try done; try lia;
      intros _; try (by right); by left.
  - destruct a; cbn -[Nat.min]; try (split_and!; [lia|done|intros _; lia]);
      (destruct (fd_inode _ fd true); cbn -[Nat.min]; [destruct (off <? 0); cbn -[Nat.min]|]);
      split_and!; try done; lia.
Qed.

(** The transfer loops stay inside the buffer. *)
Lemma write_loop_ok fuel fd buf len offs s : inv s -> 0 <= len -> room (mem s) buf len ->
  (len <> 0 -> (length (answers (wd s)) < fuel)%nat) ->
  wp (write_loop fuel fd buf len offs) (fun _ s' => keeps s s') s.
Proof.
  revert buf len offs s. induction fuel as [|fuel IH]; intros buf len offs s I Hl R Hf; cbn [write_loop];
    (destruct (Z.eqb_spec len 0) as [|Hn]; [by apply wp_ret, keeps_refl|]); [lia|]. specialize (Hf Hn).
  apply wp_bind. unfold wp at 1, pwrite_from.
  destruct (room_load (mem s) buf (Z.to_nat len)) as (bs & -> & Hbs); [by rewrite Z2Nat.id|].
  cbn [mbind option_bind]. unfold call.
  destruct (sys_pwrite_good fd bs offs (wd s) (inv_wd _ I)) as (H1 & H2 & H3).
  pose proof (pwrite_progress fd bs offs (wd s)) as Hp.
  destruct (sys_pwrite fd bs offs (wd s)) as [r w]. cbn [fst snd] in *.
  destruct Hp as (Hp1 & Hp2 & Hp3). rewrite Hbs, Z2Nat.id in * by done.
  pose proof (keeps_wd s w I H1) as K.
  destruct (Z.ltb_spec r 0).
  - apply wp_bind, wp_errno. cbn [wd set_wd].
    destruct (Z.eqb_spec (errno w) EINTR) as [Hi|Hi]; [|by apply wp_ret].
    specialize (H3 ltac:(done) Hi).
    eapply wp_mono; [apply IH; [apply K|done|done|cbn; lia]|]. intros ? ? K'. by eapply keeps_trans.
  - destruct R as (m & Hm & R0 & R1).
    eapply wp_mono; [apply IH; [apply K|lia| |]|intros ? ? K'; by eapply keeps_trans].
    + exists m. cbn. split_and!; [done|lia|lia].
    + intros Hnz. cbn. destruct (decide (answers (wd s) = [])) as [He|He]; [|specialize (Hp3 He); lia].
      destruct (Hp2 He); lia.
Qed.

(** Past the end of the file, or after a short read of all there is, nothing
    more is read. *)
Lemma pread_at_end w fd i off n : fd_inode w fd false = Some i -> answers w = [] -> 0 <= off ->
  (length (content w i) <= Z.to_nat off)%nat -> sys_pread fd n off w = (0, [], w).
Proof.
  intros Hi Ha Ho Hl. unfold sys_pread, next. rewrite Ha, Hi.
  rewrite (proj2 (Z.ltb_ge _ _)), drop_ge, take_nil by done. done.
Qed.

Lemma pread_progress fd n off w :
  let '(r, bs, w') := sys_pread fd n off w in
  (world_ok w -> step_ok w w') /\ (length bs <= n)%nat /\ (0 <= r -> r = Z.of_nat (length bs)) /\
  (r < 0 -> bs = []) /\
  (r < 0 -> errno w' = EINTR -> (length (answers w') < length (answers w))%nat) /\
  (answers w <> [] -> (length (answers w') < length (answers w))%nat) /\
  (answers w = [] -> 0 <= r -> r < Z.of_nat n ->
   answers w' = [] /\ forall n', sys_pread fd n' (off + r) w' = (0, [], w')).
Proof.
  unfold sys_pread at 1, next. destruct (answers w) as [|a l] eqn:Ea.
  - destruct (fd_inode w fd false) as [i|] eqn:Ei; cbn;
      [|split_and!; try done; [intros W; split_and!; [by apply (fail_ok EBADF)|done|by rewrite Ea]|lia]].
    destruct (Z.ltb_spec off 0); cbn;
      [split_and!; try done; [intros W; split_and!; [by apply (fail_ok EINVAL)|done|by rewrite Ea]|lia]|].
    split_and!; try done; try lia.
    + rewrite length_take. lia.
    + intros _ _ Hr. split; [done|]. intros n'. eapply pread_at_end; [done|done|lia|].
      rewrite length_take, length_drop in *. lia.
  - assert (forall e, world_ok w -> step_ok w (mkWorld (nodes w) (inodes w) (fds w) (dirs w) (readonly w) e l))
      as Hst by (intros e []; split_and!; [done|done|cbn; rewrite Ea; cbn; lia]).
    destruct a; cbn -[Nat.min]; try (split_and!; try done; [by auto|lia..]);
      (destruct (fd_inode _ fd false) as [i|] eqn:Ei; cbn -[Nat.min];
        [destruct (Z.ltb_spec off 0); cbn -[Nat.min]|]); split_and!; try done; try (by auto); try lia;
      rewrite ?length_take; lia.
Qed.

(** Post-condition of the loop: the invariant and the pointers that were valid. *)
Record kept (s s' : st) : Prop := {
  kt_inv : inv s';
  kt_db : dir_handle_db s' = dir_handle_db s;
  kt_room : forall b n, room (mem s) b n -> room (mem s') b n
}.

Lemma read_loop_ok fuel r fd buf len offs n s : inv s -> 0 <= len -> room (mem s) buf len ->
  (r <> 0 -> len <> 0 -> (S (length (answers (wd s))) < fuel)%nat \/
     (0 < fuel)%nat /\ answers (wd s) = [] /\ forall m, sys_pread fd m offs (wd s) = (0, [], wd s)) ->
  wp (read_loop fuel r fd buf len offs n) (fun _ s' => kept s s') s.
Proof.
  revert r buf len offs n s. induction fuel as [|fuel IH]; intros r buf len offs n s I Hl R Hf;
    cbn [read_loop]; (destruct (Z.eqb_spec r 0) as [|Hr]; [by apply wp_ret|]);
    (destruct (Z.eqb_spec len 0) as [|Hn]; [by apply wp_ret|]); specialize (Hf Hr Hn); [lia|].
  cbn [orb]. apply wp_bind. unfold wp at 1, pread_into.
  pose proof (pread_progress fd (Z.to_nat len) offs (wd s)) as Hp.
  destruct (sys_pread fd (Z.to_nat len) offs (wd s)) as [[q bs] w] eqn:Eq.
  destruct Hp as (P1 & P2 & P3 & P4 & P5 & P6 & P7). specialize (P1 (inv_wd _ I)).
  assert (room (mem s) buf (Z.of_nat (length bs))) as Rb.
  { destruct R as (m & Hm & R0 & R1). exists m. split_and!; [done|done|lia]. }
  destruct (room_store _ _ _ (inv_mem _ I) Rb) as (m' & -> & Wm & _ & Rm). cbn [mbind option_bind].
  set (s1 := set_mem m' (set_wd w s)).
  assert (kept s s1) as K.
  { destruct (keeps_wd s w I P1) as [[]]. split; [by split|done|done]. }
  assert (forall (a : option Z) s2, kept s1 s2 -> kept s s2) as Kt.
  { intros a s2 [K1 K2 K3]. split; [done|by rewrite K2; apply K|]. intros b k Hb. by apply K3, K. }
  destruct (Z.ltb_spec q 0).
  - apply wp_bind, wp_errno. cbn [wd s1 set_mem set_wd].
    destruct (Z.eqb_spec (errno w) EINTR) as [Hi|Hi]; [|by apply wp_ret].
    eapply wp_mono; [apply IH; [apply K|done|by apply K|]|intros a ?; by apply (Kt a)].
    intros _ _. left. cbn. specialize (P5 ltac:(done) Hi).
    destruct Hf as [Hf|(_ & Ha & Hz)]; [lia|]. rewrite Ha in P5. cbn in P5. lia.
  - eapply wp_mono; [apply IH; [apply K|lia| |]|intros a ?; by apply (Kt a)].
    + destruct R as (m & Hm & R0 & R1). destruct (kt_room _ _ K buf len) as (m2 & Hm2 & _ & Hl2);
        [by exists m|]. exists m2. cbn. split_and!; [done|lia|lia].
    + intros Hq Hlq. cbn. destruct (decide (answers (wd s) = [])) as [He|He].
      * right. destruct (P7 He ltac:(lia) ltac:(lia)) as [Q1 Q2].
        destruct Hf as [Hf|(_ & _ & Hz)]; [|rewrite Hz in Eq; by simplify_eq].
        split_and!; [lia|done|done].
      * left. specialize (P6 He). destruct Hf as [Hf|(_ & Ha & _)]; [lia|done].
Qed.

(** ** Directory streams *)

(** Reading a stream up to its next visible name. *)
Fixpoint next_visible (rest : list (list Z)) : option (list Z) * list (list Z) :=
  match rest with
  | [] => (None, [])
  | n :: rest => if hidden n then next_visible rest else (Some n, rest)
  end.

Definition with_stream (d : nat) (p : path) (rest : list (list Z)) (s : st) : st :=
  set_wd (set_dirs (insert d (mkDir p rest)) (wd s)) s.

Lemma with_stream_id d p rest s : dirs (wd s) !! d = Some (mkDir p rest) -> with_stream d p rest s = s.
Proof.
  intros H. unfold with_stream, set_wd, set_dirs. rewrite (insert_id _ _ _ H).
  destruct s as [m r [] db]. done.
Qed.

Lemma with_stream_twice d p r1 r2 s : with_stream d p r2 (with_stream d p r1 s) = with_stream d p r2 s.
Proof. unfold with_stream, set_wd, set_dirs. cbn. by rewrite insert_insert_eq. Qed.

Lemma stream_at_some w dir d ds : stream_at w dir = Some (d, ds) <->
  dir = Z.of_nat (S d) /\ dirs w !! d = Some ds.
Proof.
  unfold stream_at. destruct (Z.leb_spec dir 0); [split; [done|lia]|].
  split.
  - intros H1. apply bind_Some in H1 as (ds' & H1 & [= <- <-]). split; [lia|done].
  - intros [-> H1]. replace (Z.to_nat (Z.of_nat (S d)) - 1)%nat with d by lia. by rewrite H1.
Qed.

Lemma stream_of w d ds : dirs w !! d = Some ds -> stream_at w (Z.of_nat (S d)) = Some (d, ds).
Proof. intros H. by apply stream_at_some. Qed.

Lemma readdir_loop_run fuel d p rest s :
  (length rest < fuel)%nat -> dirs (wd s) !! d = Some (mkDir p rest) ->
  readdir_loop fuel (Z.of_nat (S d)) s
  = Some (fst (next_visible rest), with_stream d p (snd (next_visible rest)) s) /\
  visible_loop fuel (Z.of_nat (S d)) s
  = Some (bool_decide (is_Some (fst (next_visible rest))), with_stream d p (snd (next_visible rest)) s).
Proof.
  revert rest s. induction fuel as [|fuel IH]; intros rest s Hf Hd; [lia|].
  cbn [readdir_loop visible_loop]. unfold bind, call_opt, sys_readdir. rewrite (stream_of _ _ _ Hd).
  cbn [mbind option_bind d_rest d_path]. destruct rest as [|n rest]; cbn -[with_stream].
  - assert (set_wd (wd s) s = s) as -> by (by destruct s).
    rewrite with_stream_id by done. done.
  - change (set_wd (set_dirs (insert d (mkDir p rest)) (wd s)) s) with (with_stream d p rest s).
    destruct (hidden n).
    + rewrite <- (with_stream_twice d p rest (snd (next_visible rest))). apply IH; [cbn in Hf; lia|].
      cbn. by rewrite lookup_insert_eq.
    + done.
Qed.

Lemma inv_with_stream d p rest s : inv s -> inv (with_stream d p rest s).
Proof.
  intros [I1 [W1 W2] (db & D1 & D2 & D3 & D4)]. split; [done|by split|]. exists db. cbn.
  split_and!; [done|done| |done]. intros h q Hh. destruct (D3 h q Hh) as [H1 H2]. split; [done|].
  destruct (decide (d = Z.to_nat q - 1)%nat) as [->|]; [by rewrite lookup_insert_eq|by rewrite lookup_insert_ne].
Qed.

Lemma readdir_ok params s : inv s -> Forall param_ok params ->
  wp (ree_fs_new_readdir params) (fun _ => inv) s.
Proof.
  intros I Hp. unfold ree_fs_new_readdir. destruct params as [|p0 [|p1 []]]; try done.
  destruct (check_types _ _); [|done]. cbn [negb]. apply wp_bind, wp_get.
  destruct (tee_supp_param_to_va (mem s) p1) as [buf|] eqn:Eb; [|done].
  apply Forall_cons in Hp as [_ [Hp1 _]%Forall_cons].
  pose proof (to_va_room _ _ _ (inv_mem _ I) Hp1 Eb) as R.
  pose proof (inv_db _ I) as (d & D1 & D2 & D3 & D4).
  apply wp_bind. unfold wp at 1, on_db. destruct (dir_handle_db s) as [hd rs] eqn:Edb. cbn in D1. subst hd.
  rewrite HandleDb.lookup_refines by done. cbn [mbind option_bind].
  assert (set_db (HandleDb.mkSt (Some d) rs) s = s) as -> by (destruct s; cbn in *; by subst).
  destruct (Z.eqb_spec (HandleDb.deref (HandleDb.handles d) (s32 (u_b p0))) 0) as [|Hne]; [done|].
  set (dir := HandleDb.deref _ _) in *.
  assert (exists h, HandleDb.handles d !! h = Some dir) as [h Hh].
  { unfold dir, HandleDb.deref in *. case_match; [done|].
    destruct (HandleDb.handles d !! Z.to_nat (s32 (u_b p0))) as [q|] eqn:Eq; [|done]. cbn. eauto. }
  clearbody dir. destruct (D3 h dir Hh) as [Hpos [[p rest] Hs]].
  assert (dir = Z.of_nat (S (Z.to_nat dir - 1))) as Hdir by lia.
  apply wp_bind. unfold wp at 1, entries_left. rewrite Hdir, (stream_of _ _ _ Hs). cbn [d_rest].
  destruct (readdir_loop_run (S (length rest)) _ p rest s (Nat.lt_succ_diag_r _) Hs) as [-> _].
  set (s1 := with_stream _ _ _ s). assert (inv s1) as I1 by (by apply inv_with_stream).
  destruct (fst (next_visible rest)) as [nm|]; [|done].
  destruct (Z.ltb_spec (size p1) (Z.of_nat (length nm) + 1)); [done|].
  apply wp_bind. unfold wp at 1, store_at.
  assert (room (mem s1) buf (Z.of_nat (length (nm ++ [0])))) as R1.
  { destruct R as (bs & Hb & R0 & R2). exists bs. rewrite length_app. cbn. split_and!; [done|done|lia]. }
  destruct (room_store _ _ _ (inv_mem _ I1) R1) as (m' & -> & Wm & _). cbn [mbind option_bind].
  apply wp_ret. destruct I1. by split.
Qed.

Lemma closedir_ok params s : inv s -> wp (ree_fs_new_closedir params) (fun _ => inv) s.
Proof.
  intros I. unfold ree_fs_new_closedir. destruct params as [|p0 []]; try done.
  destruct (check_types _ _); [|done]. cbn [negb].
  pose proof I as [I1 [W1 W2] (d & D1 & D2 & D3 & D4)].
  apply wp_bind. unfold wp at 1, on_db. destruct (dir_handle_db s) as [hd rs] eqn:Edb. cbn in D1. subst hd.
  destruct (HandleDb.put_refines d (s32 (u_b p0)) rs D2) as (d' & -> & Hd' & W' & _). cbn [mbind option_bind].
  set (dir := HandleDb.deref _ _).
  assert (forall h q, HandleDb.handles d' !! h = Some q -> HandleDb.handles d !! h = Some q) as Hsub.
  { intros h q. rewrite Hd'. case_match; [done|]. by intros [_ ?]%lookup_delete_Some. }
  destruct (Z.eqb_spec dir 0) as [|Hne].
  { apply wp_ret. split; [done|done|]. exists d'. cbn. split_and!; eauto. }
  unfold dir, HandleDb.deref in Hne |- *. destruct (Z.ltb_spec (s32 (u_b p0)) 0); [done|].
  destruct (HandleDb.handles d !! Z.to_nat (s32 (u_b p0))) as [q|] eqn:Eq; [|done]. cbn [default id] in *.
  destruct (D3 _ _ Eq) as [Hpos [ds Hs]]. apply wp_bind. unfold wp at 1, call_opt, sys_closedir. cbn [wd set_db].
  assert (stream_at (wd s) q = Some ((Z.to_nat q - 1)%nat, ds)) as -> by (apply stream_at_some; split; [lia|done]).
  cbn [mbind option_bind]. apply wp_ret. split; [done|done|]. exists d'. cbn. split_and!; try done; [|by eauto].
  intros h q' Hh. pose proof (Hsub _ _ Hh) as Hh0. destruct (D3 _ _ Hh0) as [? ?]. split; [done|].
  rewrite lookup_delete_ne; [done|]. intros E. assert (q' = q) as -> by lia.
  rewrite (D4 _ _ _ Hh0 Eq), Hd', lookup_delete_eq in Hh. done.
Qed.

(** The number of open directories is far from what an [int] can count. *)
Definition db_small (s : st) : Prop :=
  forall d, HandleDb.db (dir_handle_db s) = Some d -> Z.of_nat (HandleDb.max_ptrs d) <= 2 ^ 29.

(** Opening a stream: no handle points to its address yet. *)
Lemma opendir_stream abs s : inv s ->
  let '(dir, w) := sys_opendir abs (wd s) in
  dir = 0 /\ inv (set_wd w s) \/
  exists d p, dir = Z.of_nat (S d) /\ dirs (wd s) !! d = None /\
    exists w0, inv (set_wd w0 s) /\ dirs w0 = dirs (wd s) /\
      set_wd w s = with_stream d p (entries w0 p) (set_wd w0 s).
Proof.
  intros I. unfold sys_opendir. pose proof (next_ok (wd s) (inv_wd _ I)) as [Hs _].
  destruct (next (wd s)) as [a w1]. cbn [fst snd] in Hs.
  assert (inv (set_wd w1 s)) as I1 by (eapply k_inv, keeps_wd; done).
  assert (forall e, inv (set_wd (snd (fail e w1)) s)) as If.
  { intros e. destruct I1 as [A1 A2 A3]. split; [done|by apply fail_ok|done]. }
  destruct a; try (left; split; [done|by apply If]);
    (destruct (node_at w1 (resolve abs)) as [[|]|]; try (left; split; [done|by apply If]); right;
     destruct Hs as (_ & Hd & _); exists (fresh (dom (dirs w1))), (resolve abs); split; [done|];
     split; [rewrite <- Hd; apply not_elem_of_dom, is_fresh|]; exists w1; by split_and!).
Qed.

(** Closing the new stream again. *)
Lemma close_new d p rest s : inv s -> dirs (wd s) !! d = None ->
  wp (call_opt (fun w => w ← sys_closedir (Z.of_nat (S d)) w; Some (tt, w))) (fun _ => inv)
    (with_stream d p rest s).
Proof.
  intros [I1 [W1 W2] D] Hd. unfold wp, call_opt, sys_closedir.
  rewrite (stream_of _ d (mkDir p rest)) by (cbn; by rewrite lookup_insert_eq). cbn [mbind option_bind].
  split; [done|by split|]. cbn. by rewrite delete_insert_eq, delete_id.
Qed.

Lemma opendir_ok params s : inv s -> db_small s -> names_ok s params ->
  wp (ree_fs_new_opendir params) (fun _ => inv) s.
Proof.
  intros I Hsm N. pose proof (keeps_refl s I) as K. unfold ree_fs_new_opendir.
  destruct params as [|p0 [|p1 [|p2 []]]]; try done.
  destruct (check_types _ _); [|done]. cbn [negb]. repeat fs_step; [|exact I].
  unfold wp at 1, call. pose proof (opendir_stream l s I) as Ho.
  destruct (sys_opendir l (wd s)) as [dir w].
  destruct Ho as [[-> Hi]|(d & p & -> & Hfree & w0 & I0 & Hd0 & Hw)]; [exact Hi|].
  rewrite (proj2 (Z.eqb_neq _ _)) by lia. rewrite Hw. clear w Hw.
  set (s0 := set_wd w0 s) in *. set (ents := entries w0 p).
  assert (dirs (wd (with_stream d p ents s0)) !! d = Some (mkDir p ents)) as Hds
    by (cbn; by rewrite lookup_insert_eq).
  apply wp_bind, wp_get. apply wp_bind. unfold wp at 1, entries_left.
  rewrite (stream_of _ _ _ Hds). cbn [d_rest].
  destruct (readdir_loop_run (S (length ents)) d p ents _ (Nat.lt_succ_diag_r _) Hds) as [_ ->].
  rewrite with_stream_twice. set (s2 := with_stream d p (snd (next_visible ents)) s0).
  assert (inv s2) as I2 by (by apply inv_with_stream).
  assert (dirs (wd s0) !! d = None) as Hf0 by (cbn; by rewrite Hd0).
  case_bool_decide; cbn [negb].
  2:{ apply wp_bind. eapply wp_mono; [by apply close_new|]. intros [] s3 I3. by apply wp_ret. }
  apply wp_bind. unfold wp at 1, call_opt, sys_rewinddir.
  rewrite (stream_of _ d (mkDir p (snd (next_visible ents)))) by (cbn; by rewrite lookup_insert_eq).
  cbn [mbind option_bind d_path].
  match goal with |- wp _ _ ?x => change x with (with_stream d p (entries (wd s2) p) s2) end.
  unfold s2 at 2. rewrite with_stream_twice. set (e2 := entries (wd s2) p). clearbody e2. clear s2 I2.
  set (s3 := with_stream d p e2 s0). assert (inv s3) as [I3a I3b I3c] by (by apply inv_with_stream).
  apply wp_bind. unfold wp at 1, on_db. pose proof (inv_db _ I0) as (db & D1 & D2 & D3 & D4).
  cbn in D1. assert (dir_handle_db s3 = dir_handle_db s) as -> by done.
  specialize (Hsm db D1). destruct (dir_handle_db s) as [hd rs] eqn:Edb. cbn in D1. subst hd.
  destruct (HandleDb.get_refines db (Z.of_nat (S d)) rs D2) as (h & hs & db' & -> & Hdb' & Hsp & L' & M' & B').
  cbn [mbind option_bind].
  assert (HandleDb.wf db') as W'.
  { split; [done|lia|rewrite M'; apply D2]. }
  apply HandleDb.spec_get_cases in Hsp as [[-> Hsame]|(n & -> & Hfr & Hins)]; [| |lia].
  - change (-1 <? 0) with true. cbv iota. apply wp_bind.
    eapply wp_mono; [apply (close_new d p e2 (set_db hs s0)); [|done]|intros [] ? ?; by apply wp_ret].
    destruct I0 as [A1 A2 _]. split; [done|done|]. exists db'. cbn.
    rewrite Hsame. split_and!; done.
  - rewrite (proj2 (Z.ltb_ge _ _)) by lia. apply wp_ret. split; [done|done|]. exists db'. split; [done|]. split; [done|]. cbn.
    rewrite Hins. split.
    + intros h q. destruct (decide (n = h)) as [->|Hn].
      * rewrite lookup_insert_eq. intros [= <-]. split; [lia|].
        replace (Z.to_nat (Z.of_nat (S d)) - 1)%nat with d by lia. by rewrite lookup_insert_eq.
      * rewrite lookup_insert_ne by done. intros Hq. destruct (D3 _ _ Hq) as [? ?]. split; [done|].
        cbn in *. destruct (decide (d = Z.to_nat q - 1)%nat) as [->|];
          [by rewrite lookup_insert_eq|by rewrite lookup_insert_ne].
    + assert (forall h q, HandleDb.handles db !! h = Some q -> q <> Z.of_nat (S d)) as Hnew.
      { intros h q Hq ->. destruct (D3 _ _ Hq) as [_ [x Hx]]. cbn in Hx.
        replace (Z.to_nat (Z.of_nat (S d)) - 1)%nat with d in Hx by lia. congruence. }
      intros h1 h2 q. destruct (decide (h1 = n)) as [->|], (decide (h2 = n)) as [->|]; [done|..];
        rewrite ?lookup_insert_eq, ?lookup_insert_ne by done.
      * intros [= <-] Hq. by apply Hnew in Hq.
      * intros Hq [= <-]. by apply Hnew in Hq.
      * apply D4.
Qed.

End TeeFs.
