(* ===== verification/TeeFsThm.v ===== *)
(** * What the file service does with the files
      (optee_client/tee-supplicant/src/tee_supp_fs.c)

    Theorems on the handlers of [TeeFs]: no request gets stuck, replies keep
    their shape, reads and writes move the right bytes whatever the kernel
    interrupts or shortens, and creating or removing a file loses no other. *)

From stdpp Require Import base tactics option list list_numbers numbers gmap fin_maps.
From Stdlib Require Import ZArith Lia.
From S2P Require Import Prelude TeeParam SuppShm Posix HandleDb TeeFs.
Import TeeParam SuppShm Posix TeeFs.

Local Open Scope Z_scope.
Local Open Scope c_scope.

Module TeeFsThm.

(** Membership in a list that is written out. *)
Ltac in_list :=
  lazymatch goal with
  | |- ?x ∈ ?x :: _ => apply list_elem_of_here
  | |- _ ∈ _ :: _ => apply list_elem_of_further; in_list
  end.

(** ** Safety *)

(** The operations that name a file. *)
Definition by_name (params : list tee_ioctl_param) : Prop :=
  match params with
  | p :: _ => u_a p ∈ [OPTEE_MRF_OPEN; OPTEE_MRF_CREATE; OPTEE_MRF_REMOVE; OPTEE_MRF_RENAME; OPTEE_MRF_OPENDIR]
  | [] => False
  end.

Lemma keeps_wp {A} (m : M st A) s : wp m (fun _ => keeps s) s -> wp m (fun _ => inv) s.
Proof. intros H. eapply wp_mono; [exact H|]. intros a s' K. apply K. Qed.

(** The buffer of a read or a write covers the size in its parameter. *)
Lemma transfers_ok h params s : inv s -> Forall param_ok params -> h ∈ [ree_fs_new_read; ree_fs_new_write] ->
  wp (h params) (fun _ => inv) s.
Proof.
  intros I Hp Hh. apply elem_of_cons in Hh as [->|Hh%list_elem_of_singleton]; [|subst h];
    unfold ree_fs_new_read, ree_fs_new_write; (destruct params as [|p0 [|p1 []]]; try done);
    (destruct (check_types _ _); [|done]); cbn [negb]; apply wp_bind, wp_get;
    (destruct (tee_supp_param_to_va (mem s) p1) as [buf|] eqn:Eb; [|done]);
    apply Forall_cons in Hp as [_ [Hp1 _]%Forall_cons];
    pose proof (to_va_room _ _ _ (inv_mem _ I) Hp1 Eb) as R; destruct Hp1 as (_ & _ & Hs & _); apply wp_bind.
  - eapply wp_mono; [apply read_loop_ok; [done|apply Hs|done|intros _ _; left; lia]|].
    intros [n|] s' K; apply wp_ret; apply K.
  - eapply wp_mono; [apply write_loop_ok; [done|apply Hs|done|lia]|].
    intros r s' K; apply wp_ret; apply K.
Qed.

Lemma fs_process_wp params s :
  inv s -> db_small s -> Forall param_ok params -> (by_name params -> names_ok s params) ->
  wp (tee_supp_fs_process params) (fun _ => inv) s.
Proof.
  intros I Hs Hp N. unfold tee_supp_fs_process. destruct params as [|p ps]; [done|]. unfold by_name in N.
  case_match; [done|].
  repeat match goal with |- wp (if ?a =? ?b then _ else _) _ _ =>
    destruct (Z.eqb_spec a b) as [E|];
      [first [apply keeps_wp, file_handlers_ok; [done|in_list|apply N; rewrite E; in_list]
             |apply keeps_wp, fd_handlers_ok; [done|in_list]
             |apply transfers_ok; [done|done|in_list]
             |apply opendir_ok; [done|done|apply N; rewrite E; in_list]
             |by apply closedir_ok|by apply readdir_ok]|] end.
  done.
Qed.

(** C3: a request to the file service, with any operation, any parameters in
    range and any behaviour of the kernel, is answered: no access outside the
    shared memory, no use of a directory stream that is not open, no endless
    retry; and the invariant on files, descriptors, streams and handles holds
    again.  The one assumption is that a name that is passed ends inside its
    object. *)
Theorem fs_process_safe params s :
  inv s -> db_small s -> Forall param_ok params -> (by_name params -> names_ok s params) ->
  exists r params' s', tee_supp_fs_process params s = Some ((r, params'), s') /\ inv s'.
Proof.
  intros I Hs Hp N. pose proof (fs_process_wp params s I Hs Hp N) as W.
  apply wp_run in W as ([r ps] & s' & E & I'). eauto.
Qed.

(** A state in which one file is open and one directory is listed. *)
Definition demo_world (ans : list answer) : world :=
  mkWorld {[ [[116]] := NDir; [[116]; [97]] := NFile 0%nat ]} {[ 0%nat := [9; 8; 7] ]}
    {[ 3%nat := (Some 0%nat, true) ]} {[ 0%nat := mkDir [[116]] [[dot]; [97]] ]} false 0 ans.

Definition demo_db : HandleDb.handle_db := HandleDb.mkDb [1; 0] 2 None.

Definition demo_st (ans : list answer) : st :=
  mkSt demo_mem [47; 116; 47] (demo_world ans) (HandleDb.mkSt (Some demo_db) []).

Lemma demo_world_ok ans : world_ok (demo_world ans).
Proof.
  split; cbn.
  - intros p i [[_ [=]]|[_ [_ [= <-]]%lookup_singleton_Some]]%lookup_insert_Some. by eexists.
  - intros fd i rw [_ [= <- _]]%lookup_singleton_Some. by eexists.
Qed.

Lemma fs_demo_inv ans : inv (demo_st ans).
Proof.
  split; [exact demo_mem_wf|apply demo_world_ok|]. exists demo_db. split; [done|].
  split; [by split|].
  assert (forall h p, HandleDb.handles demo_db !! h = Some p -> h = 0%nat /\ p = 1) as E.
  { intros [|[|h]] p; rewrite HandleDb.handles_lookup; cbn; [by intros [= <-]|done|].
    by destruct h. }
  cbn [dir_handle_db demo_st] in *. split.
  - intros h p [-> ->]%E. split; [lia|by eexists].
  - intros h h' p [-> _]%E [-> _]%E. done.
Qed.

Lemma fs_process_safe_witness :
  exists r params' s', tee_supp_fs_process [mkParam 1 4 3 1; mkParam 5 0 4 4] (demo_st [AIntr; AShort 0])
    = Some ((r, params'), s') /\ inv s'.
Proof.
  apply fs_process_safe.
  - apply fs_demo_inv.
  - intros d [= <-]. vm_compute. discriminate.
  - repeat constructor; vm_compute; intuition discriminate.
  - intros H. vm_compute in H. repeat (apply elem_of_cons in H as [H|H]; [discriminate|]).
    by apply not_elem_of_nil in H.
Defined.

(** ** Replies *)

(** The result codes of the file service. *)
Definition fs_codes : list Z :=
  [TEEC_SUCCESS; TEEC_ERROR_BAD_PARAMETERS; TEEC_ERROR_ITEM_NOT_FOUND; TEEC_ERROR_GENERIC;
   TEEC_ERROR_ACCESS_CONFLICT; TEEC_ERROR_SHORT_BUFFER; TEEC_ERROR_OUT_OF_MEMORY].

Definition reply_ok (params : list tee_ioctl_param) (a : reply) : Prop :=
  fst a ∈ fs_codes /\ map attr (snd a) = map attr params /\
  (fst a ∉ [TEEC_SUCCESS; TEEC_ERROR_SHORT_BUFFER] -> snd a = params).

Lemma reply_same params r : r ∈ fs_codes -> reply_ok params (r, params).
Proof. by split. Qed.

Lemma reply_changed params params' r : r ∈ [TEEC_SUCCESS; TEEC_ERROR_SHORT_BUFFER] ->
  map attr params' = map attr params -> reply_ok params (r, params').
Proof.
  intros Hr Ha. split_and!; [|done|intros H; by destruct H].
  repeat (apply elem_of_cons in Hr as [->|Hr]; [unfold fs_codes; cbn [fst]; in_list|]). by apply not_elem_of_nil in Hr.
Qed.

Lemma fs_returns params : returns (reply_ok params) (tee_supp_fs_process params).
Proof.
  unfold tee_supp_fs_process, ree_fs_new_open, ree_fs_new_create, ree_fs_new_close, ree_fs_new_read,
    ree_fs_new_write, ree_fs_new_truncate, ree_fs_new_remove, ree_fs_new_rename, ree_fs_new_opendir,
    ree_fs_new_closedir, ree_fs_new_readdir.
  repeat reply_step ltac:(first [apply reply_same; unfold fs_codes; in_list | apply reply_changed; [in_list|reflexivity]]).
Qed.

(** The file service never changes the number or the types of the
    parameters of a request, answers with one of its result codes, and only
    touches values or sizes when it reports success or a short buffer. *)
Theorem fs_reply_shape params s r params' s' :
  tee_supp_fs_process params s = Some ((r, params'), s') ->
  r ∈ fs_codes /\ map attr params' = map attr params /\
  (r ∉ [TEEC_SUCCESS; TEEC_ERROR_SHORT_BUFFER] -> params' = params).
Proof. apply fs_returns. Qed.

Lemma fs_reply_shape_witness :
  TEEC_SUCCESS ∈ fs_codes /\ map attr [mkParam 1 3 3 0; mkParam 6 0 3 4] = [1; 6] /\
  (TEEC_SUCCESS ∉ [TEEC_SUCCESS; TEEC_ERROR_SHORT_BUFFER] ->
   [mkParam 1 3 3 0; mkParam 6 0 3 4] = [mkParam 1 3 3 0; mkParam 6 0 4 4]).
Proof.
  exact (fs_reply_shape [mkParam 1 3 3 0; mkParam 6 0 4 4] (demo_st []) _ _ _ eq_refl).
Defined.

(** ** Contents *)

(** The kernel interrupts calls and transfers less than asked, but reports no error. *)
Definition no_fail (a : answer) : Prop := match a with AFail _ => False | _ => True end.

(** From [w] to [w'] only the file [i] has changed, to [c]. *)
Record only_file (i : nat) (c : list Z) (w w' : world) : Prop := {
  of_nodes : nodes w' = nodes w;
  of_fds : fds w' = fds w;
  of_dirs : dirs w' = dirs w;
  of_inodes : inodes w' = <[i := c]> (inodes w)
}.

Lemma only_file_trans i c1 c2 w1 w2 w3 :
  only_file i c1 w1 w2 -> only_file i c2 w2 w3 -> only_file i c2 w1 w3.
Proof.
  intros [A1 A2 A3 A4] [B1 B2 B3 B4]. split; try congruence. by rewrite B4, A4, insert_insert_eq.
Qed.

Lemma only_file_same i c w w' : inodes w !! i = Some c ->
  nodes w' = nodes w -> fds w' = fds w -> dirs w' = dirs w -> inodes w' = inodes w -> only_file i c w w'.
Proof. intros Hc H1 H2 H3 H4. split; [done..|]. by rewrite H4, insert_id. Qed.

Lemma fd_inode_ext w w' fd wr : fds w' = fds w -> fd_inode w' fd wr = fd_inode w fd wr.
Proof. intros H. unfold fd_inode. by rewrite H. Qed.

Lemma only_file_fd i c w w' fd wr : only_file i c w w' -> fd_inode w' fd wr = fd_inode w fd wr.
Proof. intros [_ H _ _]. by apply fd_inode_ext. Qed.

Lemma pwrite_content_app c off b1 b2 :
  pwrite_content (pwrite_content c off b1) (off + length b1) b2 = pwrite_content c off (b1 ++ b2).
Proof.
  unfold pwrite_content. set (T := take off _).
  assert (length T = off) as HT.
  { unfold T. rewrite length_take, length_app, length_replicate. lia. }
  rewrite !(app_assoc T). set (P := T ++ b1).
  assert (length P = (off + length b1)%nat) as HP by (unfold P; rewrite length_app; lia).
  rewrite <- HP, <- app_assoc, take_app_length, drop_app_add, drop_drop.
  rewrite <- app_assoc, HP, length_app. do 3 f_equal. lia.
Qed.

(** One [pwrite]: interrupted, or a non-empty part of the data is written. *)
Lemma pwrite_run fd bs off w i c :
  fd_inode w fd true = Some i -> inodes w !! i = Some c -> 0 <= off -> bs <> [] ->
  Forall no_fail (answers w) ->
  let '(r, w') := sys_pwrite fd bs off w in
  Forall no_fail (answers w') /\
  (r = -1 /\ errno w' = EINTR /\ only_file i c w w' /\ (length (answers w') < length (answers w))%nat \/
   exists n, r = Z.of_nat n /\ (1 <= n <= length bs)%nat /\
     only_file i (pwrite_content c (Z.to_nat off) (take n bs)) w w' /\
     ((length (answers w') < length (answers w))%nat \/ n = length bs)).
Proof.
  intros Hi Hc Ho Hb Ha.
  assert (1 <= length bs)%nat as Hl by (destruct bs; [done|cbn; lia]).
  unfold sys_pwrite, syscall, next. destruct (answers w) as [|a l] eqn:Ea.
  - rewrite Hi, (proj2 (Z.ltb_ge _ _)) by done. unfold content. rewrite Hc. cbn.
    rewrite Ea. split; [done|]. right. exists (length bs). split_and!; [done|lia|lia|by split|by right].
  - apply Forall_cons in Ha as [Ha1 Ha2].
    destruct a; cbn -[Nat.min]; try done; rewrite ?(proj2 (Z.ltb_ge _ _)) by done.
    + rewrite (fd_inode_ext w), Hi by done. unfold content. cbn. rewrite Hc. cbn.
      split; [done|]. right. exists (length bs). split_and!; [done|lia|lia|by split|left; lia].
    + split; [done|]. left. split_and!; [done|done|by apply only_file_same|lia].
    + rewrite (fd_inode_ext w), Hi by done. unfold content. cbn -[Nat.min]. rewrite Hc.
      cbn -[Nat.min]. split; [done|]. right. eexists. split; [done|]. split_and!; [lia|lia|by split|left; lia].
Qed.

Lemma load_bytes_drop m buf n k bs : load_bytes m buf n = Some bs -> (k <= n)%nat ->
  load_bytes m (va_add buf (Z.of_nat k)) (n - k) = Some (drop k bs).
Proof.
  destruct buf as [p o]. cbn. destruct (maps m !! p) as [b|]; [|done]. cbn.
  destruct (Z.leb_spec 0 o); [|done]. cbn [andb].
  destruct (Z.leb_spec (o + Z.of_nat n) (Z.of_nat (length b))); [|done]. intros [= <-] Hk.
  rewrite !(proj2 (Z.leb_le _ _)) by lia. cbn. f_equal.
  rewrite skipn_firstn_comm, drop_drop. do 2 f_equal. lia.
Qed.

(** What is in the file after a write: nothing is padded when nothing is written. *)
Definition written (c : list Z) (off : Z) (bs : list Z) : list Z :=
  match bs with [] => c | _ => pwrite_content c (Z.to_nat off) bs end.

Lemma written_app c off n bs : 0 <= off -> (1 <= n <= length bs)%nat ->
  written (pwrite_content c (Z.to_nat off) (take n bs)) (off + Z.of_nat n) (drop n bs) = written c off bs.
Proof.
  intros Ho Hn. assert (length (take n bs) = n) as Hl by (rewrite length_take; lia).
  unfold written. destruct bs as [|b bs]; [cbn in Hn; lia|].
  destruct (drop n (b :: bs)) as [|x l] eqn:Ed.
  - apply (f_equal length) in Ed. rewrite length_drop in Ed. rewrite take_ge; [done|cbn in *; lia].
  - replace (Z.to_nat (off + Z.of_nat n)) with (Z.to_nat off + length (take n (b :: bs)))%nat by lia.
    by rewrite pwrite_content_app, <- Ed, take_drop.
Qed.

Lemma write_loop_content fuel fd buf len offs s i c bs :
  fd_inode (wd s) fd true = Some i -> inodes (wd s) !! i = Some c -> 0 <= offs -> 0 <= len ->
  load_bytes (mem s) buf (Z.to_nat len) = Some bs -> length bs = Z.to_nat len ->
  Forall no_fail (answers (wd s)) -> (len <> 0 -> (length (answers (wd s)) < fuel)%nat) ->
  wp (write_loop fuel fd buf len offs)
    (fun r s' => r = 0 /\ mem s' = mem s /\ Forall no_fail (answers (wd s')) /\
       only_file i (written c offs bs) (wd s) (wd s')) s.
Proof.
  revert buf len offs s c bs. induction fuel as [|fuel IH]; intros buf len offs s c bs Hi Hc Ho Hl Hb Hbl Ha Hf;
    cbn [write_loop];
    (destruct (Z.eqb_spec len 0) as [->|Hn];
      [apply wp_ret; destruct bs; [|done]; split_and!; try done; by apply only_file_same|]); [lia|].
  apply wp_bind. unfold wp at 1, pwrite_from. rewrite Hb. cbn [mbind option_bind]. unfold call.
  pose proof (pwrite_run fd bs offs (wd s) i c Hi Hc Ho ltac:(by intros ->; cbn in Hbl; lia) Ha) as Hr.
  destruct (sys_pwrite fd bs offs (wd s)) as [r w].
  destruct Hr as [Ha' [(-> & He & Hw & Hlt)|(n & -> & Hn' & Hw & Hlt)]].
  - change (-1 <? 0) with true. cbv iota. apply wp_bind, wp_errno. cbn [wd set_wd]. rewrite He. cbn.
    eapply wp_mono; [apply (IH _ _ _ (set_wd w s) c bs)|]; try done.
    + cbn. by rewrite (only_file_fd _ _ _ _ _ _ Hw).
    + cbn. by rewrite (of_inodes _ _ _ _ Hw), lookup_insert_eq.
    + cbn. lia.
    + intros r' s' (-> & Hm & Hx & Hw'). split_and!; try done. by eapply only_file_trans.
  - rewrite (proj2 (Z.ltb_ge _ _)) by lia.
    eapply wp_mono; [apply (IH _ _ _ (set_wd w s) (pwrite_content c (Z.to_nat offs) (take n bs)) (drop n bs))|]; cbn [wd set_wd mem].
    + by rewrite (only_file_fd _ _ _ _ _ _ Hw).
    + by rewrite (of_inodes _ _ _ _ Hw), lookup_insert_eq.
    + lia.
    + lia.
    + replace (Z.to_nat (len - Z.of_nat n)) with (Z.to_nat len - n)%nat by lia.
      apply load_bytes_drop; [done|lia].
    + rewrite length_drop. lia.
    + done.
    + intros Hz. destruct Hlt; lia.
    + intros r' s' (-> & Hm & Hx & Hw'). split_and!; try done.
      rewrite written_app in Hw' by done. by eapply only_file_trans.
Qed.

(** One [pread]. *)
Lemma pread_run fd n off w i c :
  fd_inode w fd false = Some i -> inodes w !! i = Some c -> 0 <= off -> (1 <= n)%nat ->
  Forall no_fail (answers w) ->
  let '(r, bs, w') := sys_pread fd n off w in
  Forall no_fail (answers w') /\ only_file i c w w' /\
  (r = -1 /\ bs = [] /\ errno w' = EINTR /\ (length (answers w') < length (answers w))%nat \/
   exists k, bs = take k (drop (Z.to_nat off) c) /\ r = Z.of_nat (length bs) /\ (1 <= k <= n)%nat /\
     ((length (answers w') < length (answers w))%nat \/ answers w = [] /\ answers w' = [] /\ k = n)).
Proof.
  intros Hi Hc Ho Hn Ha. unfold sys_pread, next. destruct (answers w) as [|a l] eqn:Ea.
  - rewrite Hi, (proj2 (Z.ltb_ge _ _)) by done. unfold content. rewrite Hc. cbn.
    rewrite Ea. split_and!; [done|by apply only_file_same|]. right. exists n. split_and!; try done. by right.
  - apply Forall_cons in Ha as [Ha1 Ha2].
    destruct a; cbn -[Nat.min]; try done; rewrite ?(proj2 (Z.ltb_ge _ _)) by done.
    + rewrite (fd_inode_ext w), Hi by done. unfold content. cbn. rewrite Hc. cbn.
      split_and!; [done|by apply only_file_same|]. right. exists n. split_and!; try done. left; lia.
    + split_and!; [done|by apply only_file_same|]. left. split_and!; try done. lia.
    + rewrite (fd_inode_ext w), Hi by done. unfold content. cbn -[Nat.min]. rewrite Hc.
      cbn -[Nat.min]. split_and!; [done|by apply only_file_same|]. right. eexists. split; [done|].
      split_and!; [done|lia|lia|left; lia].
Qed.

(** Two stores next to each other are one. *)
Lemma store_bytes_app m buf a b m1 m2 :
  store_bytes m buf a = Some m1 -> store_bytes m1 (va_add buf (Z.of_nat (length a))) b = Some m2 ->
  store_bytes m buf (a ++ b) = Some m2.
Proof.
  destruct buf as [p o]. cbn. destruct (maps m !! p) as [x|]; [|done]. cbn.
  destruct (Z.leb_spec 0 o); [|done]. cbn [andb].
  destruct (Z.leb_spec (o + Z.of_nat (length a)) (Z.of_nat (length x))); [|done].
  intros [= <-]. cbn. rewrite lookup_insert_eq. cbn. rewrite length_write_at by lia.
  destruct (Z.leb_spec 0 (o + Z.of_nat (length a))); [|done]. cbn [andb].
  rewrite length_app, Nat2Z.inj_add, Z.add_assoc.
  case_match; [|done]. intros [= <-]. do 2 f_equal. rewrite insert_insert_eq. f_equal.
  symmetry. apply write_at_write_at; lia.
Qed.

Lemma store_bytes_nil m buf n : 0 <= n -> room m buf n -> store_bytes m buf [] = Some m.
Proof.
  intros Hn (x & Hx & H0 & Hl). destruct buf as [p o]. cbn in *. rewrite Hx. cbn.
  rewrite !(proj2 (Z.leb_le _ _)) by lia. cbn. f_equal. destruct m as [h mp]. cbn in *. f_equal.
  unfold write_at. cbn. rewrite Nat.add_0_r, take_drop. by apply insert_id.
Qed.

Lemma store_load_bytes m buf bs m' : store_bytes m buf bs = Some m' -> load_bytes m' buf (length bs) = Some bs.
Proof.
  destruct buf as [p o]. cbn. destruct (maps m !! p) as [x|]; [|done]. cbn.
  destruct (Z.leb_spec 0 o); [|done]. cbn [andb].
  destruct (Z.leb_spec (o + Z.of_nat (length bs)) (Z.of_nat (length x))); [|done].
  intros [= <-]. cbn. rewrite lookup_insert_eq. cbn. rewrite length_write_at by lia.
  rewrite !(proj2 (Z.leb_le _ _)) by lia. cbn. f_equal. apply read_write_at. lia.
Qed.

Lemma take_own_length {A} k (l : list A) : take (length (take k l)) l = take k l.
Proof.
  rewrite length_take. destruct (decide (k <= length l)%nat).
  - by rewrite Nat.min_l by lia.
  - by rewrite Nat.min_r, !take_ge by lia.
Qed.

(** A read in two parts. *)
Lemma read_split (c : list Z) k len offs : (k <= Z.to_nat len)%nat -> 0 <= offs ->
  let data := take (Z.to_nat len) (drop (Z.to_nat offs) c) in
  let bs := take k (drop (Z.to_nat offs) c) in
  bs = take (length bs) data /\
  take (Z.to_nat (len - Z.of_nat (length bs))) (drop (Z.to_nat (offs + Z.of_nat (length bs))) c)
  = drop (length bs) data.
Proof.
  intros Hk Ho data bs. unfold data. assert (length bs <= k)%nat by (unfold bs; rewrite length_take; lia). split.
  - rewrite take_take, Nat.min_l by lia. unfold bs. by rewrite take_own_length.
  - rewrite skipn_firstn_comm, drop_drop. do 2 f_equal; lia.
Qed.

Lemma read_loop_content fuel r fd buf len offs n s i c :
  inv s -> fd_inode (wd s) fd false = Some i -> inodes (wd s) !! i = Some c -> 0 <= offs -> 0 <= len ->
  room (mem s) buf len -> Forall no_fail (answers (wd s)) -> r <> 0 ->
  (len <> 0 -> (S (length (answers (wd s))) < fuel)%nat \/
     (0 < fuel)%nat /\ answers (wd s) = [] /\ (length c <= Z.to_nat offs)%nat) ->
  let data := take (Z.to_nat len) (drop (Z.to_nat offs) c) in
  wp (read_loop fuel r fd buf len offs n)
    (fun res s' => res = Some (n + Z.of_nat (length data)) /\
       store_bytes (mem s) buf data = Some (mem s') /\ only_file i c (wd s) (wd s')) s.
Proof.
  revert r buf len offs n s. induction fuel as [|fuel IH]; intros r buf len offs n s I Hi Hc Ho Hl R Ha Hr Hf data;
    cbn [read_loop]; rewrite (proj2 (Z.eqb_neq r 0)) by done; cbn [orb];
    (destruct (Z.eqb_spec len 0) as [->|Hn];
      [apply wp_ret; split_and!; [unfold data; rewrite take_0; cbn; by rewrite Z.add_0_r|by eapply store_bytes_nil|by apply only_file_same]|]);
    specialize (Hf Hn); [lia|].
  apply wp_bind. unfold wp at 1, pread_into.
  pose proof (pread_run fd (Z.to_nat len) offs (wd s) i c Hi Hc Ho ltac:(lia) Ha) as Hp.
  pose proof (pread_progress fd (Z.to_nat len) offs (wd s)) as Hq.
  destruct (sys_pread fd (Z.to_nat len) offs (wd s)) as [[q bs] w].
  destruct Hp as (Ha' & Hw & Hp), Hq as (Q1 & Q2 & _). specialize (Q1 (inv_wd _ I)).
  assert (room (mem s) buf (Z.of_nat (length bs))) as Rb.
  { destruct R as (m & Hm & R0 & R1). exists m. split_and!; [done|done|lia]. }
  destruct (room_store _ _ _ (inv_mem _ I) Rb) as (m' & Est & Wm & _ & Rm). rewrite Est. cbn [mbind option_bind].
  set (s1 := set_mem m' (set_wd w s)).
  assert (inv s1) as I1 by (destruct (keeps_wd s w I Q1) as [[]]; by split).
  assert (fd_inode (wd s1) fd false = Some i) as Hi1 by (cbn; by rewrite (only_file_fd _ _ _ _ _ _ Hw)).
  assert (inodes (wd s1) !! i = Some c) as Hc1 by (cbn; by rewrite (of_inodes _ _ _ _ Hw), lookup_insert_eq).
  destruct Hp as [(-> & -> & He & Hlt)|(k & Hbs & -> & Hk & Hlt)].
  - change (-1 <? 0) with true. cbv iota. apply wp_bind, wp_errno. cbn [wd set_wd s1 set_mem]. rewrite He. cbn.
    rewrite (store_bytes_nil _ _ len) in Est by done. injection Est as <-.
    eapply wp_mono; [apply (IH (-1) buf len offs n s1 I1 Hi1 Hc1); [done..|]|].
    + intros _. left. cbn. destruct Hf as [|(_ & E & _)]; [lia|]. rewrite E in Hlt. cbn in Hlt. lia.
    + intros res s' (-> & Hst & Hw'). split_and!; [done|done|]. by eapply only_file_trans.
  - rewrite (proj2 (Z.ltb_ge _ _)) by lia.
    destruct (decide (length bs = 0%nat)) as [Hz|Hz].
    { assert (data = []) as Hd.
      { apply length_zero_iff_nil. unfold data. rewrite Hbs, length_take, length_drop in Hz.
        rewrite length_take, length_drop. lia. }
      rewrite Hz. destruct fuel; cbn [read_loop]; cbn; apply wp_ret;
        (split_and!; [rewrite Hd; cbn; by rewrite Z.add_0_r| |by exact Hw]);
        apply length_zero_iff_nil in Hz; rewrite Hz in Est; by rewrite Hd. }
    destruct (read_split c k len offs ltac:(lia) Ho) as [Hd1 Hd2]. rewrite <- Hbs in Hd1, Hd2. fold data in Hd1, Hd2.
    eapply wp_mono; [apply (IH _ _ _ _ _ s1 I1 Hi1 Hc1); [lia|lia| |done|lia|]|].
    + destruct R as (m & Hm & R0 & R1). destruct (Rm buf len) as (m2 & Hm2 & _ & Hl2);
        [by exists m|]. exists m2. cbn. split_and!; [done|lia|lia].
    + intros Hnz. cbn [wd s1 set_mem set_wd]. destruct Hlt as [Hlt|(E1 & E2 & ->)].
      * left. destruct Hf as [|(_ & E & _)]; [lia|]. rewrite E in Hlt. cbn in Hlt. lia.
      * right. split_and!; [|done|].
        -- destruct Hf as [|(_ & _ & Hend)]; [lia|]. rewrite Hbs, length_take, length_drop in Hz. lia.
        -- rewrite Hbs, length_take, length_drop in Hnz |- *. lia.
    + cbv zeta. rewrite Hd2. intros res s' (-> & Hst & Hw'). split_and!.
      * f_equal. rewrite length_drop. assert (length bs <= length data)%nat; [|lia].
        rewrite Hd1, length_take. lia.
      * rewrite <- (take_drop (length bs) data), <- Hd1. by eapply store_bytes_app.
      * by eapply only_file_trans.
Qed.

Lemma set_own_size p : param_ok p -> set_size (size p) p = p.
Proof.
  intros (_ & _ & H & _). destruct p. unfold set_size, set_b, size, u64 in *. cbn in *. by rewrite Z.mod_small.
Qed.

(** A transfer request: its types, the open file it names and its buffer. *)
Record transfer (op ty : Z) (wr : bool) (p0 p1 : tee_ioctl_param) (buf : va) (i : nat) (c : list Z) (s : st) : Prop := {
  tr_op : u_a p0 = op;
  tr_value : ptype p0 = ATTR_TYPE_VALUE_INPUT;
  tr_memref : ptype p1 = ty;
  tr_range : param_ok p1;
  tr_buf : tee_supp_param_to_va (mem s) p1 = Some buf;
  tr_fd : fd_inode (wd s) (s32 (u_b p0)) wr = Some i;
  tr_file : inodes (wd s) !! i = Some c;
  tr_offs : 0 <= s64 (u_c p0);
  tr_kernel : Forall no_fail (answers (wd s))
}.

Lemma value_type p : ptype p = ATTR_TYPE_VALUE_INPUT -> tee_supp_param_is_value p = true.
Proof. intros H. unfold tee_supp_param_is_value, is_value. by rewrite H. Qed.

Lemma write_request p0 p1 buf i c s :
  inv s -> transfer OPTEE_MRF_WRITE ATTR_TYPE_MEMREF_INPUT true p0 p1 buf i c s ->
  exists bs, load_bytes (mem s) buf (Z.to_nat (size p1)) = Some bs /\ length bs = Z.to_nat (size p1) /\
    wp (tee_supp_fs_process [p0; p1]) (fun a s' => a = (TEEC_SUCCESS, [p0; p1]) /\ keeps s s' /\
      Forall no_fail (answers (wd s')) /\
      only_file i (written c (s64 (u_c p0)) bs) (wd s) (wd s')) s.
Proof.
  intros I []. pose proof (to_va_room _ _ _ (inv_mem _ I) tr_range0 tr_buf0) as R.
  pose proof tr_range0 as (_ & _ & Hs & _).
  destruct (room_load (mem s) buf (Z.to_nat (size p1))) as (bs & Hb & Hbl); [rewrite Z2Nat.id; [done|unfold size; lia]|].
  exists bs. split; [done|]. split; [done|]. unfold tee_supp_fs_process. rewrite value_type, tr_op0 by done. cbn [negb].
  change (wp (ree_fs_new_write [p0; p1]) (fun a s' => a = (TEEC_SUCCESS, [p0; p1]) /\ keeps s s' /\
      Forall no_fail (answers (wd s')) /\ only_file i (written c (s64 (u_c p0)) bs) (wd s) (wd s')) s).
  unfold ree_fs_new_write, check_types. cbn [map]. rewrite tr_value0, tr_memref0. rewrite bool_decide_true by done.
  cbn [negb]. apply wp_bind, wp_get. rewrite tr_buf0. apply wp_bind.
  pose proof (write_loop_ok (S (length (answers (wd s)))) (s32 (u_b p0)) buf (size p1) (s64 (u_c p0)) s I
    (proj1 Hs) R ltac:(lia)) as W1.
  pose proof (write_loop_content (S (length (answers (wd s)))) (s32 (u_b p0)) buf (size p1) (s64 (u_c p0)) s i c bs
    tr_fd0 tr_file0 tr_offs0 (proj1 Hs) Hb Hbl tr_kernel0 ltac:(lia)) as W2.
  unfold wp in *. destruct (write_loop _ _ _ _ _ s) as [[r s']|]; [|done].
  destruct W2 as (-> & _ & Ha & Hw). done.
Qed.

Lemma read_request p0 p1 buf i c s :
  inv s -> transfer OPTEE_MRF_READ ATTR_TYPE_MEMREF_OUTPUT false p0 p1 buf i c s ->
  let data := take (Z.to_nat (size p1)) (drop (Z.to_nat (s64 (u_c p0))) c) in
  wp (tee_supp_fs_process [p0; p1]) (fun a s' =>
    a = (TEEC_SUCCESS, [p0; set_size (Z.of_nat (length data)) p1]) /\ inv s' /\
    store_bytes (mem s) buf data = Some (mem s') /\ only_file i c (wd s) (wd s')) s.
Proof.
  intros I [] data. pose proof (to_va_room _ _ _ (inv_mem _ I) tr_range0 tr_buf0) as R.
  pose proof tr_range0 as (_ & _ & Hs & _).
  unfold tee_supp_fs_process. rewrite value_type, tr_op0 by done. cbn [negb].
  match goal with |- wp _ ?Q s => change (wp (ree_fs_new_read [p0; p1]) Q s) end.
  unfold ree_fs_new_read, check_types. cbn [map]. rewrite tr_value0, tr_memref0. rewrite bool_decide_true by done.
  cbn [negb]. apply wp_bind, wp_get. rewrite tr_buf0. apply wp_bind.
  pose proof (read_loop_ok (3 + length (answers (wd s))) (-1) (s32 (u_b p0)) buf (size p1) (s64 (u_c p0)) 0 s I
    (proj1 Hs) R ltac:(intros; left; lia)) as W1.
  pose proof (read_loop_content (3 + length (answers (wd s))) (-1) (s32 (u_b p0)) buf (size p1) (s64 (u_c p0)) 0 s i c
    I tr_fd0 tr_file0 tr_offs0 (proj1 Hs) R tr_kernel0 ltac:(lia) ltac:(intros; left; lia)) as W2.
  unfold wp in *. destruct (read_loop _ _ _ _ _ _ _ s) as [[r s']|]; [|done].
  destruct W2 as (-> & Hst & Hw). cbn. split_and!; [done|apply W1|done|done].
Qed.

Lemma read_written c off bs : 0 <= off -> take (length bs) (drop (Z.to_nat off) (written c off bs)) = bs.
Proof.
  intros Ho. unfold written. destruct bs as [|b bs]; [by rewrite take_0|]. unfold pwrite_content.
  rewrite drop_app_length', take_app_length; [done|].
  rewrite length_take, length_app, length_replicate. lia.
Qed.

(** A write request that the kernel interrupts and shortens as often as it
    likes, but answers without an error, succeeds, and afterwards the file holds
    exactly the buffer at the offset: what was before and after stays, a gap
    beyond the old end is zeros, and no other file, descriptor or directory has
    changed. *)
Theorem fs_write_content p0 p1 buf i c s :
  inv s -> transfer OPTEE_MRF_WRITE ATTR_TYPE_MEMREF_INPUT true p0 p1 buf i c s ->
  exists bs s', load_bytes (mem s) buf (Z.to_nat (size p1)) = Some bs /\
    tee_supp_fs_process [p0; p1] s = Some ((TEEC_SUCCESS, [p0; p1]), s') /\ mem s' = mem s /\
    only_file i (written c (s64 (u_c p0)) bs) (wd s) (wd s').
Proof.
  intros I T. destruct (write_request _ _ _ _ _ _ I T) as (bs & Hb & _ & W).
  apply wp_run in W as (a & s' & E & -> & K & _ & Hw). exists bs, s'. split_and!; try done. apply K.
Qed.

(** C15: what a write request stores under a descriptor, a read request of the
    same place brings back into its own buffer, with the size in the reply,
    whatever calls the kernel interrupts or shortens on the way. *)
Theorem fs_write_read_roundtrip p0 p1 q0 q1 buf rbuf i c s :
  inv s -> transfer OPTEE_MRF_WRITE ATTR_TYPE_MEMREF_INPUT true p0 p1 buf i c s ->
  u_a q0 = OPTEE_MRF_READ -> ptype q0 = ATTR_TYPE_VALUE_INPUT -> ptype q1 = ATTR_TYPE_MEMREF_OUTPUT ->
  param_ok q1 -> tee_supp_param_to_va (mem s) q1 = Some rbuf ->
  u_b q0 = u_b p0 -> u_c q0 = u_c p0 -> size q1 = size p1 ->
  exists bs s1 s2, load_bytes (mem s) buf (Z.to_nat (size p1)) = Some bs /\
    tee_supp_fs_process [p0; p1] s = Some ((TEEC_SUCCESS, [p0; p1]), s1) /\
    tee_supp_fs_process [q0; q1] s1 = Some ((TEEC_SUCCESS, [q0; q1]), s2) /\
    load_bytes (mem s2) rbuf (Z.to_nat (size q1)) = Some bs /\
    store_bytes (mem s) rbuf bs = Some (mem s2).
Proof.
  intros I T Q1 Q2 Q3 Q4 Q5 Q6 Q7 Q8. destruct (write_request _ _ _ _ _ _ I T) as (bs & Hb & Hl & W).
  apply wp_run in W as (a & s1 & E1 & -> & K & Ha & Hw). destruct T.
  destruct (fd_inode (wd s) (s32 (u_b p0)) false) as [j|] eqn:Ej.
  2:{ exfalso. unfold fd_inode in *. repeat case_match; simplify_eq. }
  assert (j = i) as -> by (unfold fd_inode in *; repeat case_match; by simplify_eq).
  assert (transfer OPTEE_MRF_READ ATTR_TYPE_MEMREF_OUTPUT false q0 q1 rbuf i (written c (s64 (u_c p0)) bs) s1) as T.
  { split; try done.
    - by rewrite (k_mem _ _ K).
    - rewrite Q6. by rewrite (only_file_fd _ _ _ _ _ _ Hw).
    - by rewrite (of_inodes _ _ _ _ Hw), lookup_insert_eq.
    - by rewrite Q7. }
  pose proof (read_request _ _ _ _ _ _ (k_inv _ _ K) T) as W. cbv zeta in W.
  rewrite Q8, Q7, <- Hl, read_written in W by done.
  apply wp_run in W as (a & s2 & E2 & -> & I2 & Hst & _). exists bs, s1, s2.
  rewrite (k_mem _ _ K) in Hst. split_and!; try done.
  - rewrite E2. do 3 f_equal. rewrite Hl, Z2Nat.id, <- Q8 by (destruct tr_range0; unfold size; lia).
    by rewrite set_own_size.
  - rewrite Q8, <- Hl. by apply store_load_bytes with (mem s).
Qed.

(** Interrupted, shortened to one byte, interrupted again. *)
Definition demo_answers : list answer := [AIntr; AShort 0; AIntr].

Lemma demo_write_transfer :
  transfer OPTEE_MRF_WRITE ATTR_TYPE_MEMREF_INPUT true (mkParam 1 4 3 2) (mkParam 5 0 4 4) (4096, 0) 0 [9; 8; 7]
    (demo_st demo_answers).
Proof. split; try reflexivity; [repeat split; cbn; lia|vm_compute; discriminate|repeat constructor]. Qed.

Lemma fs_write_content_witness :
  exists bs s', load_bytes demo_mem (4096, 0) 4 = Some bs /\
    tee_supp_fs_process [mkParam 1 4 3 2; mkParam 5 0 4 4] (demo_st demo_answers)
    = Some ((TEEC_SUCCESS, [mkParam 1 4 3 2; mkParam 5 0 4 4]), s') /\ mem s' = demo_mem /\
    only_file 0 (written [9; 8; 7] 2 bs) (demo_world demo_answers) (wd s').
Proof. exact (fs_write_content _ _ _ _ _ _ (fs_demo_inv demo_answers) demo_write_transfer). Defined.

Lemma fs_write_read_roundtrip_witness :
  exists bs s1 s2, load_bytes demo_mem (4096, 0) 4 = Some bs /\
    tee_supp_fs_process [mkParam 1 4 3 2; mkParam 5 0 4 4] (demo_st demo_answers)
    = Some ((TEEC_SUCCESS, [mkParam 1 4 3 2; mkParam 5 0 4 4]), s1) /\
    tee_supp_fs_process [mkParam 1 3 3 2; mkParam 6 4 4 4] s1
    = Some ((TEEC_SUCCESS, [mkParam 1 3 3 2; mkParam 6 4 4 4]), s2) /\
    load_bytes (mem s2) (4096, 4) 4 = Some bs /\ store_bytes demo_mem (4096, 4) bs = Some (mem s2).
Proof.
  apply (fs_write_read_roundtrip _ _ (mkParam 1 3 3 2) (mkParam 6 4 4 4) _ (4096, 4) _ _ _
    (fs_demo_inv demo_answers) demo_write_transfer); try reflexivity. repeat split; cbn; lia.
Defined.

End TeeFsThm.
