(* ===== verification/TeeFsNames.v ===== *)
(** * Creating, removing and renaming files
      (optee_client/tee-supplicant/src/tee_supp_fs.c)

    What the requests that name a file do to the tree of files, with every
    answer the kernel may give. *)

From stdpp Require Import base tactics option list list_numbers numbers gmap fin_maps.
From Stdlib Require Import ZArith Lia.
From S2P Require Import Prelude TeeParam SuppShm Posix HandleDb TeeFs TeeFsThm.
Import TeeParam SuppShm Posix TeeFs TeeFsThm.

Local Open Scope Z_scope.
Local Open Scope c_scope.

Module TeeFsNames.

Lemma fs_wlp_errno (Q : Z -> st -> Prop) s : (forall e, Q e s) -> wlp get_errno Q s.
Proof. intros H ? ? [= <- <-]. apply H. Qed.
Lemma fs_wlp_call {A} (f : world -> A * world) (Q : A -> st -> Prop) s :
  (let '(r, w) := f (wd s) in Q r (set_wd w s)) -> wlp (call f) Q s.
Proof. intros H a s'. unfold call. destruct (f (wd s)). by intros [= <- <-]. Qed.
Lemma wlp_filename p (Q : option (list Z) -> st -> Prop) s : (forall f, Q f s) -> wlp (param_filename p) Q s.
Proof.
  intros H a s'. unfold param_filename. destruct (tee_supp_param_to_va (mem s) p); [|by intros [= <- <-]].
  destruct (load_string (mem s) v); [|done]. cbn. destruct (tee_fs_get_absolute_filename _ _ _).
  by intros [= <- <-].
Qed.

(** ** Creation *)

(** Nothing of [b] is lost in [w], contents and descriptors are the same. *)
Record above (b w : world) : Prop := {
  ab_nodes : nodes b ⊆ nodes w;
  ab_inodes : inodes w = inodes b;
  ab_fds : fds w = fds b
}.

(** A file has been created or emptied and opened. *)
Definition created (b : world) (p : path) (fd : Z) (w : world) : Prop :=
  exists i n, fd = Z.of_nat n /\ fds b !! n = None /\ fds w = <[n := (Some i, true)]> (fds b) /\
    nodes w !! p = Some (NFile i) /\ inodes w = <[i := []]> (inodes b) /\ nodes b ⊆ nodes w.

Lemma above_next b w : above b w -> above b (snd (next w)).
Proof. intros []. unfold next. by destruct (answers w). Qed.

(** A call that either does nothing or its body. *)
Lemma syscall_cases k max w : exists r w', syscall w k max = (r, w') /\
  ((exists e, (r, w') = fail e (snd (next w))) \/ exists n, (r, w') = k n (snd (next w))).
Proof.
  unfold syscall. destruct (next w) as [[| |e|n] w1]; cbn [snd].
  - destruct (k max w1) as [r w'] eqn:E. exists r, w'. eauto.
  - eexists _, _. split; [done|]. left. by exists EINTR.
  - eexists _, _. split; [done|]. left. by exists e.
  - destruct (k (Nat.min (S n) max) w1) as [r w'] eqn:E. exists r, w'. eauto.
Qed.

Lemma mkdir_above b d w : above b w ->
  let '(r, w') := sys_mkdir d w in above b w' /\ (r = 0 -> nodes b !! resolve d = None).
Proof.
  intros H%above_next. unfold sys_mkdir.
  match goal with |- context [syscall w ?k ?m] =>
    destruct (syscall_cases k m w) as (r & w' & -> & [(e & [= -> ->])|(n & E)]) end.
  - by destruct H.
  - destruct (snd (next w)) as [no ino fd di ro er an] eqn:Ew. clear Ew. destruct H as [H1 H2 H3]. cbv zeta in E.
    destruct (node_at _ (resolve d)) eqn:En; [injection E as -> ->; by split|].
    destruct (node_at _ (parent (resolve d))) as [[|]|]; [|injection E as -> ->; by split..].
    destruct (readonly _); [injection E as -> ->; by split|]. injection E as -> ->.
    assert (no !! resolve d = None) as Hn by (unfold node_at in En; destruct (resolve d); [done|exact En]).
    cbn in *. split.
    + split; cbn; [|done|done]. apply insert_subseteq_r; [by eapply lookup_weaken_None|done].
    + intros _. by eapply lookup_weaken_None.
Qed.

Lemma rmdir_above b d w : above b w -> nodes b !! resolve d = None -> above b (snd (sys_rmdir d w)).
Proof.
  intros H%above_next Hd. unfold sys_rmdir.
  match goal with |- context [syscall w ?k ?m] =>
    destruct (syscall_cases k m w) as (r & w' & -> & [(e & [= -> ->])|(n & E)]) end.
  - by destruct H.
  - destruct H as [H1 H2 H3]. cbv zeta in E. cbn [snd].
    destruct (nodes (snd (next w)) !! resolve d) as [[|]|]; [|injection E as -> ->; by split..].
    destruct (children _ _); [|injection E as -> ->; by split].
    destruct (readonly _); injection E as -> ->; [by split|]. split; cbn; [|done|done].
    apply map_subseteq_spec. intros p x Hp. rewrite lookup_delete_ne by congruence.
    by eapply lookup_weaken.
Qed.

Lemma open_above b f w : above b w ->
  let '(r, w') := sys_open f O_CREATE w in
  r < 0 /\ above b w' \/ created b (resolve f) r w'.
Proof.
  intros H%above_next. unfold sys_open.
  match goal with |- context [syscall w ?k ?m] =>
    destruct (syscall_cases k m w) as (r & w' & -> & [(e & [= -> ->])|(n & E)]) end.
  - left. by destruct H.
  - set (w1 := snd (next w)) in *. clearbody w1. cbv zeta in E. pose proof H as [H1 H2 H3].
    assert (forall e, (r, w') = fail e w1 -> r < 0 /\ above b w') as Hfail by (intros e [= -> ->]; by split).
    assert (fds b !! fresh (dom (fds w1)) = None) as Hfd by (rewrite <- H3; apply not_elem_of_dom, is_fresh).
    destruct (node_at w1 (resolve f)) as [[|i]|] eqn:En; [left; exact (Hfail _ E)| |].
    + destruct (readonly w1); [left; exact (Hfail _ E)|]. injection E as -> ->. right.
      assert (nodes w1 !! resolve f = Some (NFile i)) as Hn by (unfold node_at in En; by destruct (resolve f)).
      exists i, (fresh (dom (fds w1))). split; [done|]. split; [done|]. cbn. rewrite H2, H3. by split_and!.
    + destruct (node_at w1 (parent (resolve f))) as [[|]|]; [|left; exact (Hfail _ E)..].
      destruct (readonly w1); [left; exact (Hfail _ E)|]. injection E as -> ->. right.
      assert (nodes w1 !! resolve f = None) as Hn by (unfold node_at in En; by destruct (resolve f)).
      eexists _, _. split; [done|]. split; [done|]. cbn. rewrite lookup_insert_eq, H2, H3.
      split_and!; try done. apply insert_subseteq_r; [by eapply lookup_weaken_None|done].
Qed.

Definition open_post (b : st) (p : path) (fd : Z) (s : st) : Prop :=
  mem s = mem b /\ (fd < 0 /\ above (wd b) (wd s) \/ created (wd b) p fd (wd s)).

Lemma open_wrapper_above b f s : mem s = mem b -> above (wd b) (wd s) ->
  wlp (open_wrapper f O_CREATE) (open_post b (resolve f)) s.
Proof.
  unfold open_wrapper. intros Hm H. apply wlp_bind, wlp_get. generalize (S (length (answers (wd s)))).
  intros fuel. revert s Hm H. induction fuel as [|fuel IH]; intros s Hm H; [done|]. cbn [open_loop].
  apply wlp_bind, fs_wlp_call. pose proof (open_above _ f _ H) as Ho.
  destruct (sys_open f O_CREATE (wd s)) as [fd w]. apply wlp_bind, fs_wlp_errno. intros e.
  case_match; [by apply wlp_ret|]. destruct Ho as [[? Ho]|Ho]; [by apply IH|].
  destruct Ho as (i & n & -> & _). destruct (Z.leb_spec 0 (Z.of_nat n)); [done|lia].
Qed.

(** The directories made on the way are removed again, and only those. *)
Lemma create_with_dirs_above b f s : mem s = mem b -> above (wd b) (wd s) ->
  wlp (create_with_dirs f) (open_post b (resolve f)) s.
Proof.
  intros Hm H. unfold create_with_dirs. set (d := dirname _).
  apply wlp_bind, fs_wlp_call. pose proof (mkdir_above _ d _ H) as M1.
  destruct (sys_mkdir d (wd s)) as [r1 w1]. destruct M1 as [H1 N1].
  assert (forall s', mem s' = mem b -> above (wd b) (wd s') -> wlp (ret (-1)) (open_post b (resolve f)) s') as Hbad.
  { intros s' ? ?. apply wlp_ret. split; [done|]. left. by split; [lia|]. }
  assert (forall r s', 0 <= r -> open_post b (resolve f) r s' -> wlp (ret r) (open_post b (resolve f)) s') as Hok.
  { intros r s' ? ?. by apply wlp_ret. }
  assert (forall r s', r < 0 -> open_post b (resolve f) r s' -> mem s' = mem b /\ above (wd b) (wd s')) as Hneg.
  { intros r s' Hr [? [[_ ?]|(i & n & -> & _)]]; [done|lia]. }
  assert (forall x s', mem s' = mem b -> above (wd b) (wd s') -> nodes (wd b) !! resolve x = None ->
    forall Q : Z -> st -> Prop, (forall r s2, mem s2 = mem b -> above (wd b) (wd s2) -> Q r s2) ->
    wlp (call (sys_rmdir x)) Q s') as Hrm.
  { intros x s' Hm' Ha Hx Q HQ. apply fs_wlp_call. pose proof (rmdir_above _ x _ Ha Hx) as Hr.
    destruct (sys_rmdir x (wd s')). by apply HQ. }
  destruct (Z.eqb_spec r1 0) as [->|_].
  - apply wlp_bind. eapply wlp_mono; [by apply (open_wrapper_above b)|]. intros fd s2 P.
    destruct (Z.leb_spec 0 fd); [by apply Hok|]. destruct (Hneg fd s2) as [? ?]; [done..|].
    apply wlp_bind, Hrm; [done|done|by apply N1|]. intros. by apply Hbad.
  - apply wlp_bind, fs_wlp_errno. intros e. case_match; [by apply Hbad|].
    apply wlp_bind, fs_wlp_call. pose proof (mkdir_above _ (dirname d) _ H1) as M2. cbn [wd set_wd].
    destruct (sys_mkdir (dirname d) w1) as [r2 w2]. destruct M2 as [H2 N2].
    destruct (Z.eqb_spec r2 0) as [->|_]; cbn [negb]; [|by apply Hbad].
    apply wlp_bind, fs_wlp_call. pose proof (mkdir_above _ d _ H2) as M3. cbn [wd set_wd].
    destruct (sys_mkdir d w2) as [r3 w3]. destruct M3 as [H3 N3].
    destruct (Z.eqb_spec r3 0) as [->|_]; cbn [negb].
    + apply wlp_bind. eapply wlp_mono; [by apply (open_wrapper_above b)|]. intros fd s2 P.
      destruct (Z.ltb_spec fd 0); [|by apply Hok]. destruct (Hneg fd s2) as [? ?]; [done..|].
      apply wlp_bind, Hrm; [done|done|by apply N3|]. intros r4 s4 ? ?.
      apply wlp_bind, Hrm; [done|done|by apply N2|]. intros. by apply Hbad.
    + apply wlp_bind, Hrm; [done|done|by apply N2|]. intros. by apply Hbad.
Qed.

(** The file a parameter names. *)
Definition named (s : st) (p : tee_ioctl_param) (abs : list Z) : Prop := param_filename p s = Some (Some abs, s).

Lemma wlp_named p abs (Q : option (list Z) -> st -> Prop) s : named s p abs -> Q (Some abs) s -> wlp (param_filename p) Q s.
Proof. intros E H a s'. rewrite E. by intros [= <- <-]. Qed.

Definition create_post (s : st) (p0 p1 p2 : tee_ioctl_param) (abs : list Z) (a : reply) (s' : st) : Prop :=
  mem s' = mem s /\ nodes (wd s) ⊆ nodes (wd s') /\
  (fst a = TEEC_SUCCESS -> exists fd, snd a = [p0; p1; set_a fd p2] /\ created (wd s) (resolve abs) fd (wd s')) /\
  (fst a <> TEEC_SUCCESS -> snd a = [p0; p1; p2] /\ inodes (wd s') = inodes (wd s) /\ fds (wd s') = fds (wd s)).

Lemma create_wlp p0 p1 p2 abs s :
  check_types [p0; p1; p2] [ATTR_TYPE_VALUE_INPUT; ATTR_TYPE_MEMREF_INPUT; ATTR_TYPE_VALUE_OUTPUT] = true ->
  named s p1 abs -> wlp (ree_fs_new_create [p0; p1; p2]) (create_post s p0 p1 p2 abs) s.
Proof.
  intros Ht Hn. unfold ree_fs_new_create. rewrite Ht. cbn [negb].
  assert (above (wd s) (wd s)) as H by (by split).
  assert (forall fd s', 0 <= fd -> open_post s (resolve abs) fd s' ->
    wlp (ret (TEEC_SUCCESS, [p0; p1; set_a fd p2])) (create_post s p0 p1 p2 abs) s') as Hok.
  { intros fd s' Hfd [Hm [[? _]|Hc]]; [lia|]. apply wlp_ret. split_and!; [done| |by exists fd|done].
    destruct Hc as (i & n & Hc). apply Hc. }
  assert (forall s', mem s' = mem s -> above (wd s) (wd s') ->
    wlp (ret (TEEC_ERROR_GENERIC, [p0; p1; p2])) (create_post s p0 p1 p2 abs) s') as Hbad.
  { intros s' Hm []. apply wlp_ret. by split_and!. }
  apply wlp_bind. eapply wlp_named; [done|]. apply wlp_bind.
  eapply wlp_mono; [by apply (open_wrapper_above s)|]. intros fd s1 P1.
  destruct (Z.leb_spec 0 fd); [by apply Hok|].
  destruct P1 as [Hm1 [[_ A1]|(i & n & -> & _)]]; [|lia].
  apply wlp_bind, fs_wlp_errno. intros e. case_match; [by apply Hbad|].
  apply wlp_bind. eapply wlp_mono; [by apply (create_with_dirs_above s)|]. intros fd2 s2 P2.
  destruct (Z.ltb_spec fd2 0); [|by apply Hok].
  destruct P2 as [Hm2 [[_ A2]|(i & n & -> & _)]]; [by apply Hbad|lia].
Qed.

(** A create request loses nothing, with any answer of the kernel to any
    of its up to nine calls: every file and directory is still there.  When it
    reports success, the named file exists, is empty and open for writing under
    a new descriptor; otherwise no content and no descriptor has changed. *)
Theorem fs_create_file p0 p1 p2 abs s r params' s' :
  check_types [p0; p1; p2] [ATTR_TYPE_VALUE_INPUT; ATTR_TYPE_MEMREF_INPUT; ATTR_TYPE_VALUE_OUTPUT] = true ->
  named s p1 abs -> ree_fs_new_create [p0; p1; p2] s = Some ((r, params'), s') ->
  nodes (wd s) ⊆ nodes (wd s') /\
  (r = TEEC_SUCCESS -> exists fd, params' = [p0; p1; set_a fd p2] /\
     created (wd s) (resolve abs) fd (wd s')) /\
  (r <> TEEC_SUCCESS -> params' = [p0; p1; p2] /\ inodes (wd s') = inodes (wd s) /\
     fds (wd s') = fds (wd s)).
Proof. intros Ht Hn E. exact (proj2 (create_wlp _ _ _ _ _ Ht Hn _ _ E)). Qed.

(** ** Removal *)

(** Only directories have gone. *)
Record pruned (b w : world) : Prop := {
  pr_files : forall p i, nodes w !! p = Some (NFile i) <-> nodes b !! p = Some (NFile i);
  pr_inodes : inodes w = inodes b;
  pr_fds : fds w = fds b
}.

Lemma rmdir_pruned b d w : pruned b w -> pruned b (snd (sys_rmdir d w)).
Proof.
  intros H. assert (pruned b (snd (next w))) as [H1 H2 H3]
    by (destruct H; unfold next; by destruct (answers w)).
  unfold sys_rmdir.
  match goal with |- context [syscall w ?k ?m] =>
    destruct (syscall_cases k m w) as (r & w' & -> & [(e & [= -> ->])|(n & E)]) end; [by split|].
  cbv zeta in E. cbn [snd].
  destruct (nodes (snd (next w)) !! resolve d) as [[|]|] eqn:Ed; [|injection E as -> ->; by split..].
  destruct (children _ _); [|injection E as -> ->; by split].
  destruct (readonly _); injection E as -> ->; [by split|]. split; cbn; [|done|done].
  intros p i. rewrite <- H1. destruct (decide (resolve d = p)) as [<-|].
  - by rewrite lookup_delete_eq, Ed.
  - by rewrite lookup_delete_ne.
Qed.

Lemma unlink_cases f w :
  let '(r, w') := sys_unlink f w in
  inodes w' = inodes w /\ fds w' = fds w /\
  (r = -1 /\ nodes w' = nodes w \/
   r = 0 /\ nodes w' = delete (resolve f) (nodes w) /\ exists i, nodes w !! resolve f = Some (NFile i)).
Proof.
  assert (nodes (snd (next w)) = nodes w /\ inodes (snd (next w)) = inodes w /\ fds (snd (next w)) = fds w /\
    node_at (snd (next w)) (resolve f) = node_at w (resolve f)) as (N1 & N2 & N3 & N4)
    by (unfold next; by destruct (answers w)).
  unfold sys_unlink.
  match goal with |- context [syscall w ?k ?m] =>
    destruct (syscall_cases k m w) as (r & w' & -> & [(e & [= -> ->])|(n & E)]) end.
  - cbn. split_and!; [done..|by left].
  - cbv zeta in E. rewrite N4 in E. unfold node_at in E.
    destruct (match resolve f with [] => Some NDir | _ => nodes w !! resolve f end) as [[|i]|] eqn:En;
      [injection E as -> ->; cbn; split_and!; [done..|by left]| |injection E as -> ->; cbn; split_and!; [done..|by left]].
    destruct (readonly _); injection E as -> ->; cbn; split_and!; try done; [by left|]. right.
    split_and!; [done|by rewrite N1|]. exists i. by destruct (resolve f).
Qed.

(** A remove request that succeeds removes the named file and no other:
    every other file keeps its name and its content, and directories above it
    go only while they are empty; a request that fails changes no file. *)
Theorem fs_remove_file p0 p1 abs s r params' s' :
  check_types [p0; p1] [ATTR_TYPE_VALUE_INPUT; ATTR_TYPE_MEMREF_INPUT] = true ->
  named s p1 abs -> ree_fs_new_remove [p0; p1] s = Some ((r, params'), s') ->
  inodes (wd s') = inodes (wd s) /\ fds (wd s') = fds (wd s) /\
  (r <> TEEC_SUCCESS -> nodes (wd s') = nodes (wd s)) /\
  (r = TEEC_SUCCESS -> forall p i, nodes (wd s') !! p = Some (NFile i) <->
     p <> resolve abs /\ nodes (wd s) !! p = Some (NFile i)).
Proof.
  intros Ht Hn. revert params'.
  enough (wlp (ree_fs_new_remove [p0; p1]) (fun a s' =>
    inodes (wd s') = inodes (wd s) /\ fds (wd s') = fds (wd s) /\
    (fst a <> TEEC_SUCCESS -> nodes (wd s') = nodes (wd s)) /\
    (fst a = TEEC_SUCCESS -> forall p i, nodes (wd s') !! p = Some (NFile i) <->
     p <> resolve abs /\ nodes (wd s) !! p = Some (NFile i))) s) as W by (intros params' E; exact (W _ _ E)).
  unfold ree_fs_new_remove. rewrite Ht. cbn [negb]. apply wlp_bind. eapply wlp_named; [done|].
  apply wlp_bind, fs_wlp_call. pose proof (unlink_cases abs (wd s)) as Hu.
  destruct (sys_unlink abs (wd s)) as [q w1]. destruct Hu as (U1 & U2 & [[-> U3]|(-> & U3 & _)]); cbn [Z.eqb negb].
  { apply wlp_bind, fs_wlp_errno. intros e. apply wlp_ret. split_and!; [done..|]. cbn [fst].
    by destruct (e =? ENOENT). }
  assert (pruned w1 w1) as P by (by split).
  assert (forall s2, pruned w1 (wd s2) -> inodes (wd s2) = inodes (wd s) /\ fds (wd s2) = fds (wd s) /\
    (TEEC_SUCCESS <> TEEC_SUCCESS -> nodes (wd s2) = nodes (wd s)) /\
    (TEEC_SUCCESS = TEEC_SUCCESS -> forall p i, nodes (wd s2) !! p = Some (NFile i) <->
       p <> resolve abs /\ nodes (wd s) !! p = Some (NFile i))) as Hend.
  { intros s2 [P1 P2 P3]. split_and!; [congruence..|done|]. intros _ p i.
    rewrite P1, U3, lookup_delete_Some. naive_solver. }
  apply wlp_bind, fs_wlp_call. cbn [wd set_wd]. pose proof (rmdir_pruned w1 (dirname abs) w1 P) as P1.
  destruct (sys_rmdir (dirname abs) w1) as [r2 w2]. cbn [snd] in P1.
  destruct (r2 =? 0); [|by apply wlp_ret, Hend].
  apply wlp_bind, fs_wlp_call. cbn [wd set_wd]. pose proof (rmdir_pruned w1 (dirname (dirname abs)) w2 P1) as P2.
  destruct (sys_rmdir (dirname (dirname abs)) w2) as [r3 w3]. by apply wlp_ret, Hend.
Qed.

(** ** Renaming *)

Section Rename.
Context (p0 p1 p2 : tee_ioctl_param) (old new : list Z) (s : st).
Context (Ht : check_types [p0; p1; p2] [ATTR_TYPE_VALUE_INPUT; ATTR_TYPE_MEMREF_INPUT; ATTR_TYPE_MEMREF_INPUT] = true).
Context (Ho : named s p1 old) (Hn : named s p2 new).

Lemma named_va p abs : named s p abs -> is_Some (tee_supp_param_to_va (mem s) p).
Proof. unfold named, param_filename. by destruct (tee_supp_param_to_va (mem s) p). Qed.

(** The request is the [stat], when the target must not exist, and the [rename]. *)
Lemma rename_runs : ree_fs_new_rename [p0; p1; p2] s =
  (q <- (if negb (u_b p0 =? 0) then ret (-1) else call (sys_stat new)) ;;
   if q =? 0 then ret (TEEC_ERROR_ACCESS_CONFLICT, [p0; p1; p2]) else
   r <- call (sys_rename old new) ;;
   e <- get_errno ;;
   if negb (r =? 0) && (e =? ENOENT) then ret (TEEC_ERROR_ITEM_NOT_FOUND, [p0; p1; p2])
   else ret (TEEC_SUCCESS, [p0; p1; p2])) s.
Proof.
  unfold ree_fs_new_rename. rewrite Ht. cbn [negb]. unfold bind at 1. unfold get at 1.
  destruct (named_va _ _ Ho) as [a ->], (named_va _ _ Hn) as [b ->].
  unfold bind at 1. rewrite Ho. unfold bind at 1. rewrite Hn. done.
Qed.

(** A rename request of an existing file, on a kernel that does what it is
    asked: without the overwrite flag an existing target is an access conflict
    and nothing changes, otherwise the file is afterwards at the new name only,
    with its content, and everything else is where it was. *)
Theorem fs_rename_file i :
  answers (wd s) = [] -> readonly (wd s) = false ->
  nodes (wd s) !! resolve old = Some (NFile i) -> node_at (wd s) (parent (resolve new)) = Some NDir ->
  node_at (wd s) (resolve new) <> Some NDir -> resolve old <> resolve new ->
  if (u_b p0 =? 0) && bool_decide (is_Some (node_at (wd s) (resolve new)))
  then ree_fs_new_rename [p0; p1; p2] s = Some ((TEEC_ERROR_ACCESS_CONFLICT, [p0; p1; p2]), s)
  else exists s', ree_fs_new_rename [p0; p1; p2] s = Some ((TEEC_SUCCESS, [p0; p1; p2]), s') /\
    nodes (wd s') = <[resolve new := NFile i]> (delete (resolve old) (nodes (wd s))) /\
    inodes (wd s') = inodes (wd s) /\ fds (wd s') = fds (wd s).
Proof.
  intros Ha Hr Hf Hp Hd Hne. rewrite rename_runs.
  assert (forall w, wd s = w \/ w = snd (fail ENOENT (wd s)) -> exists w', sys_rename old new w = (0, w') /\
    nodes w' = <[resolve new := NFile i]> (delete (resolve old) (nodes (wd s))) /\
    inodes w' = inodes (wd s) /\ fds w' = fds (wd s)) as Hrun.
  { intros w Hw.
    assert (answers w = [] /\ nodes w = nodes (wd s) /\ inodes w = inodes (wd s) /\ fds w = fds (wd s) /\
      readonly w = false /\ (forall p, node_at w p = node_at (wd s) p)) as (W1 & W2 & W3 & W4 & W5 & W6)
      by (by destruct Hw as [<-| ->]).
    unfold sys_rename, syscall, next. rewrite W1. cbv zeta. rewrite !W6, W2, Hf, Hp, W5, bool_decide_false by done.
    destruct (node_at (wd s) (resolve new)) as [[|]|]; [done|..]; eexists; (split; [done|]); cbn;
      rewrite ?W2, ?W3, ?W4; done. }
  assert (sys_stat new (wd s)
    = if bool_decide (is_Some (node_at (wd s) (resolve new))) then (0, wd s) else fail ENOENT (wd s)) as Hs.
  { unfold sys_stat, syscall, next. rewrite Ha. by destruct (node_at (wd s) (resolve new)). }
  assert (set_wd (wd s) s = s) as Hsame by (by destruct s).
  destruct (Z.eqb_spec (u_b p0) 0); cbn [negb andb].
  - case_bool_decide; (unfold bind at 1; unfold call at 1; rewrite Hs); [by rewrite Hsame|].
    unfold fail at 1. cbn [Z.eqb]. unfold bind at 1, call at 1. cbn [wd set_wd].
    destruct (Hrun _ (or_intror eq_refl)) as (w' & E & R). unfold fail in E. cbn [snd] in E. rewrite E.
    eexists. split; [reflexivity|done].
  - unfold bind at 1. unfold ret at 1. cbn [Z.eqb]. unfold bind at 1, call at 1.
    destruct (Hrun _ (or_introl eq_refl)) as (w' & E & R). rewrite E. eexists. split; [reflexivity|done].
Qed.

(** A rename that the kernel refuses with any error other than ENOENT, for
    example for lack of space or permission, is reported to the secure world as
    TEEC_SUCCESS although no file has moved. *)
Theorem fs_rename_hides_errors e l :
  u_b p0 <> 0 -> answers (wd s) = AFail e :: l -> e <> ENOENT ->
  exists s', ree_fs_new_rename [p0; p1; p2] s = Some ((TEEC_SUCCESS, [p0; p1; p2]), s') /\
    nodes (wd s') = nodes (wd s) /\ inodes (wd s') = inodes (wd s).
Proof.
  intros Hu Ha He. rewrite rename_runs. rewrite (proj2 (Z.eqb_neq _ _)) by done. cbn [negb].
  unfold bind at 1. unfold ret at 1. cbn [Z.eqb]. unfold bind at 1, call at 1, sys_rename, syscall, next.
  rewrite Ha. unfold fail. cbn -[Z.eqb].
  unfold bind, get_errno. cbn -[Z.eqb ENOENT]. rewrite (proj2 (Z.eqb_neq e ENOENT)) by done. by eexists.
Qed.
End Rename.

(** ** Concrete requests *)

(** Two names in shared memory, "a" and "b". *)
Definition names_mem : shm_mem := mkMem [mkShm 4 4096 4] {[4096 := [97; 0; 98; 0]]}.
Definition names_st (ans : list answer) : st :=
  mkSt names_mem [47; 116; 47] (demo_world ans) (HandleDb.mkSt (Some demo_db) []).

Lemma fs_create_file_witness : exists s',
  ree_fs_new_create [mkParam 1 1 0 0; mkParam 5 2 2 4; mkParam 2 0 0 0] (names_st [AIntr])
  = Some ((TEEC_SUCCESS, [mkParam 1 1 0 0; mkParam 5 2 2 4; mkParam 2 4 0 0]), s') /\
  nodes (demo_world [AIntr]) ⊆ nodes (wd s').
Proof.
  eexists. split; [vm_compute; reflexivity|].
  exact (proj1 (fs_create_file (mkParam 1 1 0 0) (mkParam 5 2 2 4) (mkParam 2 0 0 0) [47; 116; 47; 98]
    (names_st [AIntr]) TEEC_SUCCESS _ _ eq_refl eq_refl eq_refl)).
Defined.

Lemma fs_remove_file_witness : exists s',
  ree_fs_new_remove [mkParam 1 6 0 0; mkParam 5 0 2 4] (names_st [])
  = Some ((TEEC_SUCCESS, [mkParam 1 6 0 0; mkParam 5 0 2 4]), s') /\ inodes (wd s') = inodes (demo_world []).
Proof.
  eexists. split; [vm_compute; reflexivity|].
  exact (proj1 (fs_remove_file (mkParam 1 6 0 0) (mkParam 5 0 2 4) [47; 116; 47; 97]
    (names_st []) TEEC_SUCCESS _ _ eq_refl eq_refl eq_refl)).
Defined.

Lemma fs_rename_file_witness : exists s',
  ree_fs_new_rename [mkParam 1 7 0 0; mkParam 5 0 2 4; mkParam 5 2 2 4] (names_st [])
  = Some ((TEEC_SUCCESS, [mkParam 1 7 0 0; mkParam 5 0 2 4; mkParam 5 2 2 4]), s') /\
  nodes (wd s') = <[ [[116]; [98]] := NFile 0 ]> (delete [[116]; [97]] (nodes (demo_world []))) /\
  inodes (wd s') = inodes (demo_world []) /\ fds (wd s') = fds (demo_world []).
Proof.
  exact (fs_rename_file (mkParam 1 7 0 0) (mkParam 5 0 2 4) (mkParam 5 2 2 4) [47; 116; 47; 97] [47; 116; 47; 98]
    (names_st []) eq_refl eq_refl eq_refl 0%nat eq_refl eq_refl eq_refl eq_refl ltac:(discriminate) ltac:(discriminate)).
Defined.

Lemma fs_rename_hides_errors_witness : exists s',
  ree_fs_new_rename [mkParam 1 7 1 0; mkParam 5 0 2 4; mkParam 5 2 2 4] (names_st [AFail EROFS])
  = Some ((TEEC_SUCCESS, [mkParam 1 7 1 0; mkParam 5 0 2 4; mkParam 5 2 2 4]), s') /\
  nodes (wd s') = nodes (demo_world []) /\ inodes (wd s') = inodes (demo_world []).
Proof.
  exact (fs_rename_hides_errors (mkParam 1 7 1 0) (mkParam 5 0 2 4) (mkParam 5 2 2 4) [47; 116; 47; 97]
    [47; 116; 47; 98] (names_st [AFail EROFS]) eq_refl eq_refl eq_refl EROFS [] ltac:(discriminate) eq_refl
    ltac:(discriminate)).
Defined.

End TeeFsNames.
