(* ===== verification/TeeSocket.v ===== *)
(** * The socket service of tee-supplicant
      (optee_client/tee-supplicant/src/tee_socket.c)

    Trusted applications open sockets of the normal world: the service keeps a
    list of application instances, each with its own handle database, and moves
    data with a timeout.  Every call to the network takes the next [answer]; with
    no answers left it works.  [None] is undefined behaviour or a failed
    [assert]; [NDEBUG] tells whether asserts are compiled out. *)

From stdpp Require Import base tactics option list list_numbers numbers gmap fin_maps sets.
From Stdlib Require Import ZArith Lia.
From S2P Require Import Prelude TeeParam SuppShm HandleDb.
Import TeeParam SuppShm.

Local Open Scope Z_scope.
Local Open Scope c_scope.

Module TeeSocket.

(** ** Constants *)

Definition TEE_ISOCKET_ERROR_TIMEOUT : Z := 0xF1007003.
Definition TEE_ISOCKET_ERROR_OUT_OF_RESOURCES : Z := 0xF1007004.
Definition TEE_ISOCKET_ERROR_HOSTNAME : Z := 0xF1007007.
Definition TEE_ISOCKET_PROTOCOLID_TCP : Z := 0x65.
Definition TEE_ISOCKET_PROTOCOLID_UDP : Z := 0x66.
Definition TEE_TCP_SET_RECVBUF : Z := 0x65f00000.
Definition TEE_TCP_SET_SENDBUF : Z := 0x65f00001.
Definition TEE_UDP_CHANGEADDR : Z := 0x66000001.
Definition TEE_UDP_CHANGEPORT : Z := 0x66000002.
Definition TEE_IP_VERSION_DC : Z := 0.
Definition TEE_IP_VERSION_4 : Z := 1.
Definition TEE_IP_VERSION_6 : Z := 2.

Definition OPTEE_MRC_SOCKET_TIMEOUT_BLOCKING : Z := 0xffffffff.
Definition OPTEE_MRC_SOCKET_OPEN : Z := 0.
Definition OPTEE_MRC_SOCKET_CLOSE : Z := 1.
Definition OPTEE_MRC_SOCKET_CLOSE_ALL : Z := 2.
Definition OPTEE_MRC_SOCKET_SEND : Z := 3.
Definition OPTEE_MRC_SOCKET_RECV : Z := 4.
Definition OPTEE_MRC_SOCKET_IOCTL : Z := 5.

(** Of the system headers of Linux. *)
Definition AF_UNSPEC : Z := 0.
Definition AF_INET : Z := 2.
Definition AF_INET6 : Z := 10.
Definition SOCK_STREAM : Z := 1.
Definition SOCK_DGRAM : Z := 2.
Definition O_NONBLOCK : Z := 0x800.
Definition EINTR : Z := 4.
Definition EBADF : Z := 9.
Definition EAGAIN : Z := 11.
Definition ENOMEM : Z := 12.
Definition EMFILE : Z := 24.
Definition EFAULT : Z := 14.
Definition ENOBUFS : Z := 105.
Definition ETIMEDOUT : Z := 110.

(** ** The network *)

(** [struct sockaddr_in] or [sockaddr_in6]: family, port as stored, the rest. *)
Record sockaddr := mkAddr { sa_family : Z; sa_port : Z; sa_host : Z }.

(** An open socket: its type, descriptor and status flags, peer, bytes sent. *)
Record sock := mkSock {
  so_type : Z; so_fdflags : Z; so_flags : Z; so_peer : sockaddr; so_sent : list Z
}.

Record timespec := mkTime { tv_sec : Z; tv_nsec : Z }.

(** [AErr e]: the call fails with [e]; [ATimeout]: [poll] returns 0; [AShort n]:
    fewer bytes are sent; [ABytes]: what [read] delivers; [ATime]: the clock has
    moved; [AAddrs]: what a name resolves to, with the socket types. *)
Inductive answer :=
| AOk | AErr (e : Z) | ATimeout | AShort (n : nat) | ABytes (bs : list Z)
| ATime (t : timespec) | AAddrs (l : list (sockaddr * Z)).

(** What is asked of the resolver: family, socket type, name and port. *)
Record query := mkQuery { q_family : Z; q_socktype : Z; q_name : list Z; q_port : Z }.

(** [polls] records the timeouts handed to [poll], [lookups] the queries. *)
Record net := mkNet {
  socks : gmap nat sock;
  clock : timespec;
  polls : list Z;
  lookups : list query;
  errno : Z;
  answers : list answer
}.

Definition next (w : net) : answer * net :=
  match answers w with
  | [] => (AOk, w)
  | a :: l => (a, mkNet (socks w) (clock w) (polls w) (lookups w) (errno w) l)
  end.

Definition fail (e : Z) (w : net) : net := mkNet (socks w) (clock w) (polls w) (lookups w) e (answers w).
Definition set_socks (f : gmap nat sock -> gmap nat sock) (w : net) : net :=
  mkNet (f (socks w)) (clock w) (polls w) (lookups w) (errno w) (answers w).

(** A call on an open descriptor: -1 and an error, or its effect on the socket. *)
Definition on_sock (fd : Z) (k : answer -> nat -> sock -> net -> Z * net) (w : net) : Z * net :=
  let '(a, w) := next w in
  match a with
  | AErr e => (-1, fail e w)
  | _ =>
      if fd <? 0 then (-1, fail EBADF w) else
      match socks w !! Z.to_nat fd with
      | None => (-1, fail EBADF w)
      | Some so => k a (Z.to_nat fd) so w
      end
  end.

Definition sys_getaddrinfo (q : query) (w : net) : option (list (sockaddr * Z)) * net :=
  let '(a, w) := next w in
  let w := mkNet (socks w) (clock w) (polls w) (lookups w ++ [q]) (errno w) (answers w) in
  match a with AAddrs l => (Some l, w) | _ => (None, w) end.

(** The largest descriptor is below fs.nr_open. *)
Definition NR_OPEN : Z := 1048576.

Definition sys_socket (ty : Z) (w : net) : Z * net :=
  let '(a, w) := next w in
  match a with
  | AErr e => (-1, fail e w)
  | _ =>
      let fd := fresh (dom (socks w)) in
      if NR_OPEN <=? Z.of_nat fd then (-1, fail EMFILE w) else
      (Z.of_nat fd, set_socks (insert fd (mkSock ty 0 2 (mkAddr AF_UNSPEC 0 0) [])) w)
  end.

Definition sys_connect (fd : Z) (sa : sockaddr) : net -> Z * net :=
  on_sock fd (fun _ n so w =>
    (0, set_socks (insert n (mkSock (so_type so) (so_fdflags so) (so_flags so) sa (so_sent so))) w)).

Definition sys_fcntl_getfd (fd : Z) : net -> Z * net := on_sock fd (fun _ _ so w => (so_fdflags so, w)).

Definition sys_fcntl_setfl (fd flags : Z) : net -> Z * net :=
  on_sock fd (fun _ n so w =>
    (0, set_socks (insert n (mkSock (so_type so) (so_fdflags so) flags (so_peer so) (so_sent so))) w)).

(** Linux releases the descriptor also when [close] reports an error. *)
Definition sys_close (fd : Z) (w : net) : Z * net :=
  let '(a, w) := next w in
  if (0 <=? fd) && bool_decide (is_Some (socks w !! Z.to_nat fd)) then
    let w := set_socks (delete (Z.to_nat fd)) w in
    match a with AErr e => (-1, fail e w) | _ => (0, w) end
  else (-1, fail EBADF w).

Definition sys_clock_gettime (w : net) : Z * net :=
  let '(a, w) := next w in
  match a with
  | AErr e => (-1, fail e w)
  | ATime t => (0, mkNet (socks w) t (polls w) (lookups w) (errno w) (answers w))
  | _ => (0, w)
  end.

(** A negative timeout never expires. *)
Definition sys_poll (to : Z) (w : net) : Z * net :=
  let '(a, w) := next w in
  let w := mkNet (socks w) (clock w) (polls w ++ [to]) (lookups w) (errno w) (answers w) in
  match a with
  | AErr e => (-1, fail e w)
  | ATimeout => (if to <? 0 then 1 else 0, w)
  | _ => (1, w)
  end.

(** [write] of [bs]; [None] is a pointer that is not mapped. *)
Definition sys_write (fd : Z) (bs : option (list Z)) : net -> Z * net :=
  on_sock fd (fun a n so w =>
    match bs with
    | None => (-1, fail EFAULT w)
    | Some bs =>
        let k := match a with AShort k => Nat.min (S k) (length bs) | _ => length bs end in
        (Z.of_nat k, set_socks (insert n
          (mkSock (so_type so) (so_fdflags so) (so_flags so) (so_peer so) (so_sent so ++ take k bs))) w)
    end).

(** The bytes read, at most [n]. *)
Definition sys_read (fd : Z) (mapped : bool) (len : nat) (w : net) : Z * list Z * net :=
  match next w with
  | (AErr e, w) => (-1, [], fail e w)
  | (a, w) =>
      if (fd <? 0) || negb (bool_decide (is_Some (socks w !! Z.to_nat fd))) then (-1, [], fail EBADF w)
      else if negb mapped then (-1, [], fail EFAULT w)
      else match a with
           | ABytes bs => (Z.of_nat (length (take len bs)), take len bs, w)
           | _ => (0, [], w)
           end
  end.

Definition sys_setsockopt (fd : Z) (mapped : bool) : net -> Z * net :=
  on_sock fd (fun _ _ _ w => if mapped then (0, w) else (-1, fail EFAULT w)).

(** The peer's address and its length. *)
Definition sockaddr_len (sa : sockaddr) : Z := if sa_family sa =? AF_INET6 then 28 else 16.

Definition sys_getpeername (fd : Z) (w : net) : option (sockaddr * Z) * net :=
  let '(r, w1) := on_sock fd (fun _ n _ w => (Z.of_nat n, w)) w in
  if r <? 0 then (None, w1) else
  match socks w1 !! Z.to_nat r with
  | Some so => (Some (so_peer so, sockaddr_len (so_peer so)), w1)
  | None => (None, w1)
  end.

Definition sys_getsockopt_type (fd : Z) (w : net) : option Z * net :=
  let '(r, w1) := on_sock fd (fun _ n _ w => (Z.of_nat n, w)) w in
  if r <? 0 then (None, w1) else
  match socks w1 !! Z.to_nat r with
  | Some so => (Some (so_type so), w1)
  | None => (None, w1)
  end.

(** ** State *)

Record sock_instance := mkInst { si_id : Z; si_db : HandleDb.handle_db }.

(** The mapped shared memory, [sock_instances], the answers of [calloc] and
    [realloc] (success when exhausted), the network. *)
Record st := mkSt {
  mem : shm_mem;
  sock_instances : list sock_instance;
  callocs : list bool;
  reallocs : list bool;
  nw : net
}.

Definition set_mem (m : shm_mem) (s : st) : st := mkSt m (sock_instances s) (callocs s) (reallocs s) (nw s).
Definition set_insts (l : list sock_instance) (s : st) : st := mkSt (mem s) l (callocs s) (reallocs s) (nw s).
Definition set_nw (w : net) (s : st) : st := mkSt (mem s) (sock_instances s) (callocs s) (reallocs s) w.

Definition call {A} (f : net -> A * net) : M st A := fun s =>
  let '(r, w) := f (nw s) in Some (r, set_nw w s).
Definition get_errno : M st Z := fun s => Some (errno (nw s), s).

Definition calloc_answer : M st bool := fun s =>
  match callocs s with
  | [] => Some (true, s)
  | b :: bs => Some (b, mkSt (mem s) (sock_instances s) bs (reallocs s) (nw s))
  end.

(** A handler returns its result and the parameters. *)
Definition reply : Type := Z * list tee_ioctl_param.

(** ** Instances and handles *)

(** The position of an instance in the list. *)
Fixpoint sock_instance_find (l : list sock_instance) (instance_id : Z) : option nat :=
  match l with
  | [] => None
  | si :: l => if si_id si =? instance_id then Some 0%nat else S <$> sock_instance_find l instance_id
  end.

Section Asserts.
Context (NDEBUG : bool).

Definition assert_ (b : bool) : M st unit := if b || NDEBUG then ret tt else stuck.

Definition fd_to_handle_ptr (fd : Z) : M st Z := assert_ (0 <=? fd) ;;; ret (u64 (fd + 1)).

Definition handle_ptr_to_fd (ptr : Z) : M st Z := assert_ (negb (ptr =? 0)) ;;; ret (s32 (ptr - 1)).

(** An operation on the database of the instance at [n]. *)
Definition on_db {A} (n : nat) (m : M HandleDb.st A) : M st A := fun s =>
  si ← sock_instances s !! n;
  '(r, hs) ← m (HandleDb.mkSt (Some (si_db si)) (reallocs s));
  d ← HandleDb.db hs;
  Some (r, mkSt (mem s) (<[n := mkInst (si_id si) d]> (sock_instances s)) (callocs s)
             (HandleDb.reallocs hs) (nw s)).

Definition sock_handle_get (instance_id fd : Z) : M st Z :=
  s <- get ;;
  match sock_instance_find (sock_instances s) instance_id with
  | Some n => ptr <- fd_to_handle_ptr fd ;; on_db n (HandleDb.handle_get ptr)
  | None =>
      ok <- calloc_answer ;;
      if negb ok then ret (-1) else
      s <- get ;;
      modify (set_insts (sock_instances s ++ [mkInst instance_id (HandleDb.mkDb [] 0 None)])) ;;;
      ptr <- fd_to_handle_ptr fd ;;
      on_db (length (sock_instances s)) (HandleDb.handle_get ptr)
  end.

Definition sock_handle_to_fd (instance_id handle : Z) : M st Z :=
  s <- get ;;
  match sock_instance_find (sock_instances s) instance_id with
  | Some n => ptr <- on_db n (HandleDb.handle_lookup (s32 handle)) ;; handle_ptr_to_fd ptr
  | None => ret (-1)
  end.

Definition sock_handle_put (instance_id handle : Z) : M st unit :=
  s <- get ;;
  match sock_instance_find (sock_instances s) instance_id with
  | Some n => on_db n (HandleDb.handle_put (s32 handle)) ;;; ret tt
  | None => ret tt
  end.

Definition chk_pt (p : tee_ioctl_param) (type : Z) : bool := ptype p =? type.

(** ** Opening and closing *)

(** The descriptor flags are read (F_GETFD) and stored as status flags (F_SETFL). *)
Definition fd_flags_add (fd flags : Z) : M st Z :=
  val <- call (sys_fcntl_getfd fd) ;;
  if val =? -1 then ret (-1) else
  call (sys_fcntl_setfl fd (Z.lor val flags)).

(** [for (res = res0; res; res = res->ai_next)] *)
Fixpoint connect_loop (l : list (sockaddr * Z)) (r fd : Z) : M st (Z * Z) :=
  match l with
  | [] => ret (r, fd)
  | (sa, ty) :: l =>
      fd <- call (sys_socket ty) ;;
      if fd =? -1 then
        e <- get_errno ;;
        connect_loop l (if (e =? ENOMEM) || (e =? ENOBUFS) then TEE_ISOCKET_ERROR_OUT_OF_RESOURCES
                        else TEEC_ERROR_GENERIC) fd
      else
      c <- call (sys_connect fd sa) ;;
      if negb (c =? 0) then
        e <- get_errno ;;
        call (sys_close fd) ;;;
        connect_loop l (if e =? ETIMEDOUT then TEE_ISOCKET_ERROR_TIMEOUT else TEEC_ERROR_COMMUNICATION) (-1)
      else
      f <- fd_flags_add fd O_NONBLOCK ;;
      if negb (f =? 0) then
        call (sys_close fd) ;;; ret (TEEC_ERROR_GENERIC, -1)
      else ret (TEEC_SUCCESS, fd)
  end.

(** The result and [*ret_fd] ([None]: not assigned). *)
Definition sock_connect (ip_vers protocol : Z) (server : list Z) (port : Z) : M st (Z * option Z) :=
  let family :=
    if ip_vers =? TEE_IP_VERSION_DC then Some AF_UNSPEC
    else if ip_vers =? TEE_IP_VERSION_4 then Some AF_INET
    else if ip_vers =? TEE_IP_VERSION_6 then Some AF_INET6 else None in
  let socktype :=
    if protocol =? TEE_ISOCKET_PROTOCOLID_TCP then Some SOCK_STREAM
    else if protocol =? TEE_ISOCKET_PROTOCOLID_UDP then Some SOCK_DGRAM else None in
  match family, socktype with
  | Some ai_family, Some ai_socktype =>
      res0 <- call (sys_getaddrinfo (mkQuery ai_family ai_socktype server port)) ;;
      match res0 with
      | None => ret (TEE_ISOCKET_ERROR_HOSTNAME, None)
      | Some l => r <- connect_loop l TEEC_ERROR_GENERIC (-1) ;; ret (fst r, Some (snd r))
      end
  | _, _ => ret (TEEC_ERROR_BAD_PARAMETERS, None)
  end.

(** The byte at a pointer. *)
Definition load_byte (m : shm_mem) (a : va) : option Z :=
  bs ← load_bytes m a 1; bs !! 0%nat.

(** The C string at a pointer. *)
Definition string_at (a : va) : M st (list Z) := fun s =>
  n ← load_string (mem s) a; Some (n, s).

Definition tee_socket_open (params : list tee_ioctl_param) : M st reply :=
  match params with
  | [p0; p1; p2; p3] =>
      if negb (chk_pt p0 ATTR_TYPE_VALUE_INPUT && chk_pt p1 ATTR_TYPE_VALUE_INPUT &&
               chk_pt p2 ATTR_TYPE_MEMREF_INPUT && chk_pt p3 ATTR_TYPE_VALUE_OUTPUT)
      then ret (TEEC_ERROR_BAD_PARAMETERS, params) else
      let instance_id := u32 (u_b p0) in
      let port := u16 (u_a p1) in
      let protocol := u32 (u_b p1) in
      let ip_vers := u32 (u_c p1) in
      s <- get ;;
      match tee_supp_param_to_va (mem s) p2 with
      | None => ret (TEE_ISOCKET_ERROR_HOSTNAME, params)
      | Some server =>
          match load_byte (mem s) (fst server, snd server + size p2 - 1) with
          | None => stuck
          | Some c =>
              if negb (c =? 0) then ret (TEE_ISOCKET_ERROR_HOSTNAME, params) else
              name <- string_at server ;;
              r <- sock_connect ip_vers protocol name port ;;
              let '(res, ofd) := r in
              if negb (res =? TEEC_SUCCESS) then ret (res, params) else
              match ofd with
              | None => stuck
              | Some fd =>
                  handle <- sock_handle_get instance_id fd ;;
                  if handle <? 0 then
                    call (sys_close fd) ;;; ret (TEEC_ERROR_OUT_OF_MEMORY, params)
                  else ret (TEEC_SUCCESS, [p0; p1; p2; set_a handle p3])
              end
          end
      end
  | _ => ret (TEEC_ERROR_BAD_PARAMETERS, params)
  end.

Definition tee_socket_close (params : list tee_ioctl_param) : M st reply :=
  match params with
  | [p0] =>
      if negb (chk_pt p0 ATTR_TYPE_VALUE_INPUT) then ret (TEEC_ERROR_BAD_PARAMETERS, params) else
      let instance_id := u32 (u_b p0) in
      let handle := s32 (u_c p0) in
      fd <- sock_handle_to_fd instance_id handle ;;
      if fd <? 0 then ret (TEEC_ERROR_BAD_PARAMETERS, params) else
      sock_handle_put instance_id handle ;;;
      c <- call (sys_close fd) ;;
      ret (if negb (c =? 0) then TEEC_ERROR_GENERIC else TEEC_SUCCESS, params)
  | _ => ret (TEEC_ERROR_BAD_PARAMETERS, params)
  end.

Definition sock_close_cb (ptr : Z) : M st unit :=
  fd <- handle_ptr_to_fd ptr ;;
  call (sys_close fd) ;;; ret tt.

(** The calls of the callback, in order. *)
Fixpoint close_each (l : list (Z * Z)) : M st unit :=
  match l with
  | [] => ret tt
  | (_, ptr) :: l => sock_close_cb ptr ;;; close_each l
  end.

Definition tee_socket_close_all (params : list tee_ioctl_param) : M st reply :=
  match params with
  | [p0] =>
      if negb (chk_pt p0 ATTR_TYPE_VALUE_INPUT) then ret (TEEC_ERROR_BAD_PARAMETERS, params) else
      let instance_id := u32 (u_b p0) in
      s <- get ;;
      match sock_instance_find (sock_instances s) instance_id with
      | Some n =>
          calls <- on_db n (HandleDb.handle_foreach_put true) ;;
          close_each calls ;;;
          ret (TEEC_SUCCESS, params)
      | None => ret (TEEC_SUCCESS, params)
      end
  | _ => ret (TEEC_ERROR_BAD_PARAMETERS, params)
  end.

(** ** Timeouts *)

Definition TS_NSEC_PER_SEC : Z := 1000000000.

Definition ts_add (a b : timespec) : timespec :=
  let sec := tv_sec a + tv_sec b in
  let nsec := tv_nsec a + tv_nsec b in
  if TS_NSEC_PER_SEC <=? nsec then mkTime (sec + 1) (nsec - TS_NSEC_PER_SEC) else mkTime sec nsec.

(** The result is converted to [int]. *)
Definition ts_diff_to_polltimeout (a b : timespec) : Z :=
  let sec := tv_sec a - tv_sec b in
  let nsec := tv_nsec a - tv_nsec b in
  let '(sec, nsec) :=
    if tv_nsec a <? tv_nsec b then (sec - 1, nsec + TS_NSEC_PER_SEC) else (sec, nsec) in
  if Z.quot INT_MAX 1000 <? sec - 1 then INT_MAX
  else s32 (sec * 1000 + Z.quot nsec (Z.quot TS_NSEC_PER_SEC 1000)).

Definition ts_delay_from_millis (millis : Z) : timespec :=
  mkTime (millis / 1000) (millis mod 1000 * (TS_NSEC_PER_SEC / 1000)).

(** [while (true)]; it ends with the answers of the kernel. *)
Fixpoint poll_loop (fuel : nat) (to : Z) (until now : timespec) : M st Z :=
  match fuel with
  | O => stuck
  | S fuel =>
      let to := if negb (to =? -1) then ts_diff_to_polltimeout until now else to in
      r <- call (sys_poll to) ;;
      if r =? 0 then ret TEE_ISOCKET_ERROR_TIMEOUT else
      if r =? -1 then
        e <- get_errno ;;
        if e =? EINTR then
          if negb (to =? -1) then
            c <- call sys_clock_gettime ;;
            if negb (c =? 0) then ret TEEC_ERROR_GENERIC else
            s <- get ;;
            poll_loop fuel to until (clock (nw s))
          else poll_loop fuel to until now
        else ret TEEC_ERROR_BAD_PARAMETERS
      else ret TEEC_SUCCESS
  end.

Definition poll_with_timeout (timeout : Z) : M st Z :=
  s <- get ;;
  let fuel := S (length (answers (nw s))) in
  if timeout =? OPTEE_MRC_SOCKET_TIMEOUT_BLOCKING then
    poll_loop fuel (-1) (mkTime 0 0) (mkTime 0 0)
  else
    let delay := ts_delay_from_millis timeout in
    c <- call sys_clock_gettime ;;
    if negb (c =? 0) then ret TEEC_ERROR_GENERIC else
    s <- get ;;
    let now := clock (nw s) in
    poll_loop fuel 0 (ts_add now delay) now.

(** ** Data *)

Definition io_failure (e : Z) : Z :=
  if (e =? EAGAIN) || (e =? EINTR) then TEE_ISOCKET_ERROR_TIMEOUT else TEEC_ERROR_BAD_PARAMETERS.

(** The result and the bytes written. *)
Definition write_with_timeout (fd : Z) (buf : option va) (blen timeout : Z) : M st (Z * Z) :=
  res <- poll_with_timeout timeout ;;
  if negb (res =? TEEC_SUCCESS) then ret (res, blen) else
  s <- get ;;
  r <- call (sys_write fd (if blen =? 0 then Some [] else a ← buf; load_bytes (mem s) a (Z.to_nat blen))) ;;
  if r =? -1 then e <- get_errno ;; ret (io_failure e, blen)
  else ret (TEEC_SUCCESS, r).

Definition tee_socket_send (params : list tee_ioctl_param) : M st reply :=
  match params with
  | [p0; p1; p2] =>
      if negb (chk_pt p0 ATTR_TYPE_VALUE_INPUT && chk_pt p1 ATTR_TYPE_MEMREF_INPUT &&
               chk_pt p2 ATTR_TYPE_VALUE_INOUT)
      then ret (TEEC_ERROR_BAD_PARAMETERS, params) else
      fd <- sock_handle_to_fd (u32 (u_b p0)) (s32 (u_c p0)) ;;
      if fd <? 0 then ret (TEEC_ERROR_BAD_PARAMETERS, params) else
      s <- get ;;
      let buf := tee_supp_param_to_va (mem s) p1 in
      r <- write_with_timeout fd buf (size p1) (u32 (u_a p2)) ;;
      let '(res, bytes) := r in
      ret (res, if res =? TEEC_SUCCESS then [p0; p1; set_b bytes p2] else params)
  | _ => ret (TEEC_ERROR_BAD_PARAMETERS, params)
  end.

(** [read] into the buffer. *)
Definition read_into (fd : Z) (buf : option va) (len : Z) : M st Z := fun s =>
  let '(r, bs, w) := sys_read fd ((len =? 0) || bool_decide (is_Some buf)) (Z.to_nat len) (nw s) in
  match buf with
  | None => Some (r, set_nw w s)
  | Some a => m ← store_bytes (mem s) a bs; Some (r, set_mem m (set_nw w s))
  end.

Definition read_with_timeout (fd : Z) (buf : option va) (blen timeout : Z) : M st (Z * Z) :=
  res <- poll_with_timeout timeout ;;
  if negb (res =? TEEC_SUCCESS) then ret (res, blen) else
  r <- read_into fd buf blen ;;
  if r =? -1 then e <- get_errno ;; ret (io_failure e, blen)
  else ret (TEEC_SUCCESS, r).

Definition tee_socket_recv (params : list tee_ioctl_param) : M st reply :=
  match params with
  | [p0; p1; p2] =>
      if negb (chk_pt p0 ATTR_TYPE_VALUE_INPUT && chk_pt p1 ATTR_TYPE_MEMREF_OUTPUT &&
               chk_pt p2 ATTR_TYPE_VALUE_INPUT)
      then ret (TEEC_ERROR_BAD_PARAMETERS, params) else
      fd <- sock_handle_to_fd (u32 (u_b p0)) (s32 (u_c p0)) ;;
      if fd <? 0 then ret (TEEC_ERROR_BAD_PARAMETERS, params) else
      s <- get ;;
      let buf := tee_supp_param_to_va (mem s) p1 in
      r <- read_with_timeout fd buf (size p1) (u32 (u_a p2)) ;;
      let '(res, bytes) := r in
      ret (res, if res =? TEEC_SUCCESS then [p0; set_size bytes p1; p2] else params)
  | _ => ret (TEEC_ERROR_BAD_PARAMETERS, params)
  end.

(** ** Socket options *)

Definition tee_socket_ioctl_tcp (fd command : Z) (buf : option va) : M st Z :=
  if (command =? TEE_TCP_SET_RECVBUF) || (command =? TEE_TCP_SET_SENDBUF) then
    r <- call (sys_setsockopt fd (bool_decide (is_Some buf))) ;;
    ret (if negb (r =? 0) then TEEC_ERROR_BAD_PARAMETERS else TEEC_SUCCESS)
  else ret TEEC_ERROR_NOT_SUPPORTED.

(** On a little-endian host. *)
Definition htons (x : Z) : Z := Z.lor (Z.shiftl (u8 x) 8) (u8 (Z.shiftr x 8)).
Definition ntohs : Z -> Z := htons.

Definition sa_set_port (sa : sockaddr) (slen port : Z) : Z * sockaddr :=
  if sa_family sa =? AF_INET then
    if slen <? 16 then (TEEC_ERROR_BAD_PARAMETERS, sa)
    else (TEEC_SUCCESS, mkAddr (sa_family sa) (htons port) (sa_host sa))
  else if sa_family sa =? AF_INET6 then
    if slen <? 28 then (TEEC_ERROR_BAD_PARAMETERS, sa)
    else (TEEC_SUCCESS, mkAddr (sa_family sa) (htons port) (sa_host sa))
  else (TEEC_ERROR_BAD_PARAMETERS, sa).

Definition sa_get_port (sa : sockaddr) (slen : Z) : Z * Z :=
  if sa_family sa =? AF_INET then
    if slen <? 16 then (TEEC_ERROR_BAD_PARAMETERS, 0) else (TEEC_SUCCESS, ntohs (sa_port sa))
  else if sa_family sa =? AF_INET6 then
    if slen <? 28 then (TEEC_ERROR_BAD_PARAMETERS, 0) else (TEEC_SUCCESS, ntohs (sa_port sa))
  else (TEEC_ERROR_BAD_PARAMETERS, 0).

Fixpoint changeaddr_loop (fd : Z) (l : list (sockaddr * Z)) (r : Z) : M st Z :=
  match l with
  | [] => ret r
  | (sa, _) :: l =>
      c <- call (sys_connect fd sa) ;;
      if negb (c =? 0) then
        e <- get_errno ;;
        changeaddr_loop fd l (if e =? ETIMEDOUT then TEE_ISOCKET_ERROR_TIMEOUT else TEEC_ERROR_COMMUNICATION)
      else ret TEEC_SUCCESS
  end.

Definition udp_changeaddr (fd family : Z) (server : list Z) (port : Z) : M st Z :=
  res0 <- call (sys_getaddrinfo (mkQuery family SOCK_DGRAM server port)) ;;
  match res0 with
  | None => ret TEE_ISOCKET_ERROR_HOSTNAME
  | Some l => changeaddr_loop fd l TEE_ISOCKET_ERROR_HOSTNAME
  end.

(** [!blen] tests the pointer, which is never NULL. *)
Definition tee_socket_ioctl_udp (fd command : Z) (buf : option va) (blen : Z) : M st Z :=
  peer <- call (sys_getpeername fd) ;;
  match peer with
  | None => ret TEEC_ERROR_BAD_PARAMETERS
  | Some (sa, len) =>
      if command =? TEE_UDP_CHANGEADDR then
        let '(res, port) := sa_get_port sa len in
        if negb (res =? TEEC_SUCCESS) then ret res else
        s <- get ;;
        match buf with
        | None => stuck
        | Some a =>
            match load_byte (mem s) (fst a, snd a + blen - 1) with
            | None => stuck
            | Some c =>
                if negb (c =? 0) then ret TEE_ISOCKET_ERROR_HOSTNAME else
                name <- string_at a ;;
                udp_changeaddr fd (sa_family sa) name port
            end
        end
      else if command =? TEE_UDP_CHANGEPORT then
        if negb (blen =? 2) then ret TEEC_ERROR_BAD_PARAMETERS else
        s <- get ;;
        match buf ≫= (fun a => load_bytes (mem s) a 2) with
        | Some [lo; hi] =>
            let port := lo + 256 * hi in
            let '(res, sa) := sa_set_port sa len port in
            if negb (res =? TEEC_SUCCESS) then ret res else
            c <- call (sys_connect fd sa) ;;
            ret (if negb (c =? 0) then TEEC_ERROR_GENERIC else TEEC_SUCCESS)
        | _ => stuck
        end
      else ret TEEC_ERROR_NOT_SUPPORTED
  end.

(** [sz] is stored back unchanged. *)
Definition tee_socket_ioctl (params : list tee_ioctl_param) : M st reply :=
  match params with
  | [p0; p1; p2] =>
      if negb (chk_pt p0 ATTR_TYPE_VALUE_INPUT && chk_pt p1 ATTR_TYPE_MEMREF_INOUT &&
               chk_pt p2 ATTR_TYPE_VALUE_INPUT)
      then ret (TEEC_ERROR_BAD_PARAMETERS, params) else
      let command := u32 (u_a p2) in
      fd <- sock_handle_to_fd (u32 (u_b p0)) (s32 (u_c p0)) ;;
      if fd <? 0 then ret (TEEC_ERROR_BAD_PARAMETERS, params) else
      socktype <- call (sys_getsockopt_type fd) ;;
      s <- get ;;
      let buf := tee_supp_param_to_va (mem s) p1 in
      match socktype with
      | None => ret (TEEC_ERROR_BAD_PARAMETERS, params)
      | Some ty =>
          if ty =? SOCK_STREAM then
            res <- tee_socket_ioctl_tcp fd command buf ;;
            ret (res, [p0; set_size (size p1) p1; p2])
          else if ty =? SOCK_DGRAM then
            res <- tee_socket_ioctl_udp fd command buf (size p1) ;;
            ret (res, [p0; set_size (size p1) p1; p2])
          else ret (TEEC_ERROR_BAD_PARAMETERS, params)
      end
  | _ => ret (TEEC_ERROR_BAD_PARAMETERS, params)
  end.

Definition tee_socket_process (params : list tee_ioctl_param) : M st reply :=
  match params with
  | [] => ret (TEEC_ERROR_BAD_PARAMETERS, params)
  | p :: _ =>
      if negb (tee_supp_param_is_value p) then ret (TEEC_ERROR_BAD_PARAMETERS, params) else
      let op := u_a p in
      if op =? OPTEE_MRC_SOCKET_OPEN then tee_socket_open params
      else if op =? OPTEE_MRC_SOCKET_CLOSE then tee_socket_close params
      else if op =? OPTEE_MRC_SOCKET_CLOSE_ALL then tee_socket_close_all params
      else if op =? OPTEE_MRC_SOCKET_SEND then tee_socket_send params
      else if op =? OPTEE_MRC_SOCKET_RECV then tee_socket_recv params
      else if op =? OPTEE_MRC_SOCKET_IOCTL then tee_socket_ioctl params
      else ret (TEEC_ERROR_BAD_PARAMETERS, params)
  end.

End Asserts.

End TeeSocket.
