(* ===== verification/TeeSocketThm.v ===== *)
(** * Properties of the socket service
      (optee_client/tee-supplicant/src/tee_socket.c)

    The descriptors and the handles: every open socket belongs to one handle of
    one instance, and every handle to an open socket, whatever fails on the way.
    The timeouts: what is handed to [poll]. *)

From stdpp Require Import base tactics option list list_numbers numbers gmap fin_maps sets.
From Stdlib Require Import ZArith Lia.
From S2P Require Import Prelude TeeParam SuppShm HandleDb TeeSocket.
Import TeeParam SuppShm TeeSocket.

Local Open Scope Z_scope.
Local Open Scope c_scope.

Module TeeSocketThm.

(** ** The descriptors a call leaves open *)

Definition open_fds (w : net) : gset nat := dom (socks w).

(** Calls that open and close nothing. *)
Definition steady {A} (f : net -> A * net) : Prop := forall w, open_fds (snd (f w)) = open_fds w.

Lemma next_socks w : socks (snd (next w)) = socks w.
Proof. unfold next. by destruct (answers w). Qed.

Lemma next_eq w a w1 : next w = (a, w1) -> socks w1 = socks w.
Proof. intros E. by rewrite <- (next_socks w), E. Qed.

Lemma steady_on_sock fd k :
  (forall a n so w, socks w !! n = Some so -> open_fds (snd (k a n so w)) = open_fds w) -> steady (on_sock fd k).
Proof.
  intros Hk w. unfold on_sock. destruct (next w) as [a w1] eqn:E. apply next_eq in E.
  unfold open_fds in *. rewrite <- E. destruct a; try done;
    (destruct (fd <? 0); [done|]; destruct (socks w1 !! Z.to_nat fd) as [so|] eqn:Es; [|done]; by apply Hk).
Qed.

Lemma set_open n so x w : socks w !! n = Some so -> open_fds (set_socks (insert n x) w) = open_fds w.
Proof.
  intros H. unfold open_fds. cbn. rewrite dom_insert_L.
  assert (n ∈ dom (socks w)) by (by apply elem_of_dom_2 in H). set_solver.
Qed.

Lemma steady_connect fd sa : steady (sys_connect fd sa).
Proof. apply steady_on_sock. intros a n so w H. by eapply set_open. Qed.
Lemma steady_getfd fd : steady (sys_fcntl_getfd fd).
Proof. apply steady_on_sock. done. Qed.
Lemma steady_setfl fd fl : steady (sys_fcntl_setfl fd fl).
Proof. apply steady_on_sock. intros a n so w H. by eapply set_open. Qed.
Lemma steady_write fd bs : steady (sys_write fd bs).
Proof. apply steady_on_sock. intros a n so w H. destruct bs; [|done]. by eapply set_open. Qed.
Lemma steady_setsockopt fd b : steady (sys_setsockopt fd b).
Proof. apply steady_on_sock. intros a n so w H. by destruct b. Qed.
Lemma steady_poll to : steady (sys_poll to).
Proof.
  intros w. unfold sys_poll. destruct (next w) as [a w1] eqn:E. apply next_eq in E.
  unfold open_fds. rewrite <- E. by destruct a.
Qed.
Lemma steady_clock : steady sys_clock_gettime.
Proof.
  intros w. unfold sys_clock_gettime. destruct (next w) as [a w1] eqn:E. apply next_eq in E.
  unfold open_fds. rewrite <- E. by destruct a.
Qed.
Lemma steady_getaddrinfo q : steady (sys_getaddrinfo q).
Proof.
  intros w. unfold sys_getaddrinfo. destruct (next w) as [a w1] eqn:E. apply next_eq in E.
  unfold open_fds. rewrite <- E. by destruct a.
Qed.
Lemma steady_getpeername fd : steady (sys_getpeername fd).
Proof.
  intros w. unfold sys_getpeername.
  pose proof (steady_on_sock fd (fun _ n _ w => (Z.of_nat n, w)) ltac:(done) w) as H.
  destruct (on_sock _ _ _) as [r w1]. cbn [snd] in H. destruct (r <? 0); [done|]. by destruct (_ !! _).
Qed.
Lemma steady_getsockopt fd : steady (sys_getsockopt_type fd).
Proof.
  intros w. unfold sys_getsockopt_type.
  pose proof (steady_on_sock fd (fun _ n _ w => (Z.of_nat n, w)) ltac:(done) w) as H.
  destruct (on_sock _ _ _) as [r w1]. cbn [snd] in H. destruct (r <? 0); [done|]. by destruct (_ !! _).
Qed.

Lemma read_open fd b n w : open_fds (snd (sys_read fd b n w)) = open_fds w.
Proof.
  unfold sys_read. destruct (next w) as [a w1] eqn:E. apply next_eq in E.
  unfold open_fds. rewrite <- E. destruct a; try done; repeat case_match; done.
Qed.

Create HintDb sock discriminated.
#[export] Hint Resolve steady_connect steady_getfd steady_setfl steady_write steady_setsockopt steady_poll
  steady_clock steady_getaddrinfo steady_getpeername steady_getsockopt : sock.

Lemma socket_open ty w :
  let '(fd, w') := sys_socket ty w in
  fd = -1 /\ open_fds w' = open_fds w \/
  exists n, fd = Z.of_nat n /\ fd < NR_OPEN /\ n ∉ open_fds w /\ open_fds w' = {[n]} ∪ open_fds w.
Proof.
  unfold sys_socket. destruct (next w) as [a w1] eqn:E. apply next_eq in E.
  unfold open_fds. rewrite <- E. destruct a; try (by left);
    (destruct (Z.leb_spec NR_OPEN (Z.of_nat (fresh (dom (socks w1))))); [by left|]; right; exists (fresh (dom (socks w1))); split_and!;
      [done|lia|apply is_fresh|cbn; by rewrite dom_insert_L]).
Qed.

Lemma close_open n w : open_fds (snd (sys_close (Z.of_nat n) w)) = open_fds w ∖ {[n]}.
Proof.
  unfold sys_close. destruct (next w) as [a w1] eqn:E. apply next_eq in E.
  unfold open_fds in *. rewrite <- E in *. rewrite (proj2 (Z.leb_le _ _)), Nat2Z.id by lia. cbn [andb].
  case_bool_decide as Hn; [destruct a; cbn; by rewrite dom_delete_L|]. cbn.
  assert (n ∉ dom (socks w1)) by (by rewrite elem_of_dom). set_solver.
Qed.

(** ** Handles and sockets *)

(** Handle [h] of the instance at [n] stands for [p]. *)
Definition owner (l : list sock_instance) (n h : nat) (p : Z) : Prop :=
  exists si, l !! n = Some si /\ HandleDb.handles (si_db si) !! h = Some p.

(** The pointer that stands for a descriptor. *)
Definition fd_ptr (fd : nat) : Z := Z.of_nat fd + 1.

Record tracked (l : list sock_instance) (D : gset nat) : Prop := {
  t_ids : NoDup (map si_id l);
  t_wf : Forall (fun si => HandleDb.wf (si_db si)) l;
  t_small : forall fd, fd ∈ D -> Z.of_nat fd < NR_OPEN;
  t_live : forall n h p, owner l n h p -> exists fd, p = fd_ptr fd /\ fd ∈ D;
  t_inj : forall n h n' h' p, owner l n h p -> owner l n' h' p -> n = n' /\ h = h';
  t_all : forall fd, fd ∈ D -> exists n h, owner l n h (fd_ptr fd)
}.

Definition inv (s : st) : Prop := SuppShm.wf (mem s) /\ tracked (sock_instances s) (open_fds (nw s)).

(** The databases are far from what an [int] can index. *)
Definition dbs_small (s : st) : Prop :=
  Forall (fun si => Z.of_nat (HandleDb.max_ptrs (si_db si)) <= 2 ^ 29) (sock_instances s).

(** What the calls in the middle of a handler keep. *)
Record same (s s' : st) : Prop := {
  sm_mem : mem s' = mem s;
  sm_insts : sock_instances s' = sock_instances s;
  sm_open : open_fds (nw s') = open_fds (nw s)
}.

Lemma same_refl s : same s s.
Proof. done. Qed.
Lemma same_trans s1 s2 s3 : same s1 s2 -> same s2 s3 -> same s1 s3.
Proof. intros [] []. split; congruence. Qed.
Lemma same_inv s s' : same s s' -> inv s -> inv s'.
Proof. intros [E1 E2 E3] [W T]. split; [by rewrite E1|by rewrite E2, E3]. Qed.

Lemma wlp_call {A} (f : net -> A * net) (Q : A -> st -> Prop) s :
  (let '(r, w) := f (nw s) in Q r (set_nw w s)) -> wlp (call f) Q s.
Proof. intros H a s'. unfold call. destruct (f (nw s)). by intros [= <- <-]. Qed.

Lemma wlp_steady {A} (f : net -> A * net) (Q : A -> st -> Prop) s0 s : steady f -> same s0 s ->
  (forall r s', same s0 s' -> Q r s') -> wlp (call f) Q s.
Proof.
  intros Hf K HQ. apply wlp_call. pose proof (Hf (nw s)) as H. destruct (f (nw s)) as [r w].
  apply HQ. eapply same_trans; [exact K|]. by split.
Qed.

Lemma wlp_errno (Q : Z -> st -> Prop) s : (forall e, Q e s) -> wlp get_errno Q s.
Proof. intros H ? ? [= <- <-]. apply H. Qed.

(** Polling only waits and reads the clock. *)
Section Poll.
Context (R : st -> Prop).
Context (R_poll : forall to s, R s -> R (set_nw (snd (sys_poll to (nw s))) s)).
Context (R_clock : forall s, R s -> R (set_nw (snd (sys_clock_gettime (nw s))) s)).

Lemma wlp_closed {A} (f : net -> A * net) (Q : A -> st -> Prop) s :
  (R s -> R (set_nw (snd (f (nw s))) s)) -> R s -> (forall r s', R s' -> Q r s') -> wlp (call f) Q s.
Proof. intros Hf HR HQ. apply wlp_call. specialize (Hf HR). destruct (f (nw s)). by apply HQ. Qed.

Lemma poll_loop_closed fuel to until now s : R s -> wlp (poll_loop fuel to until now) (fun _ => R) s.
Proof.
  revert to now s. induction fuel as [|fuel IH]; intros to now s K; [done|]. cbn [poll_loop]. cbv zeta.
  apply wlp_bind, wlp_closed; [auto|done|]. intros r s1 K1.
  wlp_case; [by apply wlp_ret|]. wlp_case; [|by apply wlp_ret].
  apply wlp_bind, wlp_errno. intros e. wlp_case; [|by apply wlp_ret]. wlp_case; [|by apply IH].
  apply wlp_bind, wlp_closed; [auto|done|]. intros c s2 K2.
  wlp_case; [by apply wlp_ret|]. apply wlp_bind, wlp_get. by apply IH.
Qed.

Lemma poll_closed timeout s : R s -> wlp (poll_with_timeout timeout) (fun _ => R) s.
Proof.
  intros K. unfold poll_with_timeout. apply wlp_bind, wlp_get. cbv zeta. wlp_case; [by apply poll_loop_closed|].
  apply wlp_bind, wlp_closed; [auto|done|]. intros c s2 K2.
  wlp_case; [by apply wlp_ret|]. apply wlp_bind, wlp_get. by apply poll_loop_closed.
Qed.
End Poll.

Lemma poll_same timeout s0 s : same s0 s -> wlp (poll_with_timeout timeout) (fun _ => same s0) s.
Proof.
  apply poll_closed; [intros to|]; intros s1 K; (eapply same_trans; [exact K|]); (split; [done..|]);
    [apply steady_poll|apply steady_clock].
Qed.

(** ** Changes of one instance *)

Lemma owner_insert l n si d m h p : l !! n = Some si ->
  owner (<[n := mkInst (si_id si) d]> l) m h p <->
  m = n /\ HandleDb.handles d !! h = Some p \/ m <> n /\ owner l m h p.
Proof.
  intros Hn. unfold owner. destruct (decide (m = n)) as [->|Hne].
  - rewrite list_lookup_insert_eq by (by eapply lookup_lt_Some). naive_solver.
  - rewrite list_lookup_insert_ne by done. naive_solver.
Qed.

Lemma ids_insert l n si d : l !! n = Some si ->
  map si_id (<[n := mkInst (si_id si) d]> l) = map si_id l.
Proof.
  intros Hn. rewrite list_fmap_insert. apply list_insert_id. cbn.
  rewrite list_lookup_fmap, Hn. done.
Qed.

Lemma fd_ptr_inj a b : fd_ptr a = fd_ptr b -> a = b.
Proof. unfold fd_ptr. lia. Qed.

Section Update.
Context (l : list sock_instance) (D : gset nat) (n : nat) (si : sock_instance) (d : HandleDb.handle_db).
Context (T : tracked l D) (Hn : l !! n = Some si) (W : HandleDb.wf d).

Let l' := <[n := mkInst (si_id si) d]> l.

Lemma update_wf : Forall (fun si => HandleDb.wf (si_db si)) l'.
Proof. apply Forall_insert; [apply T|done]. Qed.

Lemma owner_here h p : HandleDb.handles (si_db si) !! h = Some p -> owner l n h p.
Proof. intros H. by exists si. Qed.

Lemma tracked_same : HandleDb.handles d = HandleDb.handles (si_db si) -> tracked l' D.
Proof.
  intros Hh. assert (forall m h p, owner l' m h p <-> owner l m h p) as Ho.
  { intros m h p. unfold l'. rewrite owner_insert, Hh by done. destruct (decide (m = n)) as [->|]; [|naive_solver].
    unfold owner. rewrite Hn. naive_solver. }
  destruct T as [T1 T2 T3 T4 T5 T6]. split; [by unfold l'; rewrite ids_insert|apply update_wf|done|..].
  - intros m h p Hp%Ho. eauto.
  - intros m h m' h' p Hp%Ho Hp'%Ho. eauto.
  - intros fd Hfd. destruct (T6 fd Hfd) as (m & h & Hp). exists m, h. by apply Ho.
Qed.

Lemma tracked_get h fd : fd ∉ D -> Z.of_nat fd < NR_OPEN ->
  HandleDb.handles (si_db si) !! h = None ->
  HandleDb.handles d = <[h := fd_ptr fd]> (HandleDb.handles (si_db si)) -> tracked l' ({[fd]} ∪ D).
Proof.
  intros Hfd Hsm Hh Hd.
  assert (forall m k p, owner l' m k p <-> m = n /\ k = h /\ p = fd_ptr fd \/ owner l m k p) as Ho.
  { intros m k p. unfold l'. rewrite owner_insert, Hd, lookup_insert_Some by done. unfold owner.
    destruct (decide (m = n)) as [->|]; [|naive_solver]. rewrite Hn.
    split; [naive_solver|]. intros [(_ & -> & ->)|(x & [= <-] & Hx)]; [naive_solver|].
    destruct (decide (k = h)) as [->|]; [congruence|naive_solver]. }
  destruct T as [T1 T2 T3 T4 T5 T6]. split; [by unfold l'; rewrite ids_insert|apply update_wf|..].
  - intros x [->%elem_of_singleton|Hx]%elem_of_union; [done|by apply T3].
  - intros m k p [(_ & _ & ->)|Hp]%Ho; [exists fd; set_solver|]. destruct (T4 _ _ _ Hp) as (x & -> & Hx).
    exists x. set_solver.
  - assert (forall m k, owner l m k (fd_ptr fd) -> False) as Hno.
    { intros m k Hp. destruct (T4 _ _ _ Hp) as (x & E%fd_ptr_inj & Hx). by subst. }
    intros m k m' k' p [(-> & -> & ->)|Hp]%Ho [(-> & -> & E)|Hp']%Ho; subst; eauto; exfalso; eauto.
  - intros x [->%elem_of_singleton|Hx]%elem_of_union; [exists n, h; apply Ho; by left|].
    destruct (T6 _ Hx) as (m & k & Hp). exists m, k. apply Ho. by right.
Qed.

Lemma tracked_put h fd : HandleDb.handles (si_db si) !! h = Some (fd_ptr fd) ->
  HandleDb.handles d = delete h (HandleDb.handles (si_db si)) -> tracked l' (D ∖ {[fd]}).
Proof.
  intros Hh Hd. apply owner_here in Hh.
  assert (forall m k p, owner l' m k p <-> owner l m k p /\ p <> fd_ptr fd) as Ho.
  { intros m k p. unfold l'. rewrite owner_insert, Hd, lookup_delete_Some by done. split.
    - intros [(-> & Hk & Hp)|[Hm Hp]].
      + apply owner_here in Hp. split; [done|]. intros ->. destruct (t_inj _ _ T _ _ _ _ _ Hh Hp); naive_solver.
      + split; [done|]. intros ->. destruct (t_inj _ _ T _ _ _ _ _ Hh Hp); naive_solver.
    - intros [Hp Hne]. destruct (decide (m = n)) as [->|]; [left|by right]. split; [done|].
      destruct Hp as (x & Hx & Hp). rewrite Hn in Hx. injection Hx as <-. split; [|done].
      intros <-. destruct Hh as (y & Hy & Hh). rewrite Hn in Hy. injection Hy as <-. congruence. }
  destruct T as [T1 T2 T3 T4 T5 T6]. split; [by unfold l'; rewrite ids_insert|apply update_wf|..].
  - intros x [Hx _]%elem_of_difference. by apply T3.
  - intros m k p [Hp Hne]%Ho. destruct (T4 _ _ _ Hp) as (x & -> & Hx). exists x. split; [done|].
    apply elem_of_difference. split; [done|]. intros ->%elem_of_singleton. done.
  - intros m k m' k' p [Hp _]%Ho [Hp' _]%Ho. eauto.
  - intros x [Hx Hne]%elem_of_difference. destruct (T6 _ Hx) as (m & k & Hp). exists m, k. apply Ho. split; [done|].
    intros ->%fd_ptr_inj. set_solver.
Qed.

(** All handles of the instance are closed. *)
Lemma tracked_clear (C : gset nat) : HandleDb.handles d = ∅ ->
  (forall fd, fd ∈ C <-> exists h, HandleDb.handles (si_db si) !! h = Some (fd_ptr fd)) -> tracked l' (D ∖ C).
Proof.
  intros Hd HC. assert (forall m k p, owner l' m k p <-> m <> n /\ owner l m k p) as Ho.
  { intros m k p. unfold l'. rewrite owner_insert, Hd, lookup_empty by done. naive_solver. }
  destruct T as [T1 T2 T3 T4 T5 T6]. split; [by unfold l'; rewrite ids_insert|apply update_wf|..].
  - intros x [Hx _]%elem_of_difference. by apply T3.
  - intros m k p [Hne Hp]%Ho. destruct (T4 _ _ _ Hp) as (x & -> & Hx). exists x. split; [done|].
    apply elem_of_difference. split; [done|]. intros [h Hh]%HC. apply owner_here in Hh.
    destruct (T5 _ _ _ _ _ Hh Hp); congruence.
  - intros m k m' k' p [_ Hp]%Ho [_ Hp']%Ho. eauto.
  - intros x [Hx Hne]%elem_of_difference. destruct (T6 _ Hx) as (m & k & Hp). exists m, k. apply Ho. split; [|done].
    intros ->. apply Hne, HC. destruct Hp as (y & Hy & Hp). rewrite Hn in Hy. injection Hy as <-. by exists k.
Qed.
End Update.

Lemma tracked_new l D id : tracked l D -> id ∉ map si_id l ->
  tracked (l ++ [mkInst id (HandleDb.mkDb [] 0 None)]) D.
Proof.
  intros [T1 T2 T3 T4 T5 T6] Hid.
  assert (forall m k p, owner (l ++ [mkInst id (HandleDb.mkDb [] 0 None)]) m k p <-> owner l m k p) as Ho.
  { intros m k p. unfold owner. split.
    - intros (si & Hs & Hp). apply lookup_app_Some in Hs as [Hs|[_ Hs]]; [by exists si|].
      apply list_lookup_singleton_Some in Hs as [_ <-]. cbn in Hp. rewrite HandleDb.handles_lookup in Hp. done.
    - intros (si & Hs & Hp). exists si. split; [|done]. by apply lookup_app_l_Some. }
  split; [|apply Forall_app; split; [done|]; constructor; [by split|constructor]|done|..].
  - rewrite map_app. apply NoDup_app. split_and!; [done| |apply NoDup_singleton].
    intros x Hx ->%list_elem_of_singleton. done.
  - intros m h p Hp%Ho. eauto.
  - intros m h m' h' p Hp%Ho Hp'%Ho. eauto.
  - intros fd Hfd. destruct (T6 fd Hfd) as (m & h & Hp). exists m, h. by apply Ho.
Qed.

(** ** Handlers *)

Lemma find_some l id n : sock_instance_find l id = Some n -> exists si, l !! n = Some si /\ si_id si = id.
Proof.
  revert n. induction l as [|x l IH]; intros n; cbn; [done|]. destruct (Z.eqb_spec (si_id x) id) as [Hx|].
  - intros [= <-]. by exists x.
  - destruct (sock_instance_find l id) as [k|]; [|done]. cbn. intros [= <-]. by apply IH.
Qed.

Lemma find_none l id : sock_instance_find l id = None -> id ∉ map si_id l.
Proof.
  induction l as [|x l IH]; cbn; [set_solver|]. destruct (Z.eqb_spec (si_id x) id) as [Hx|]; [done|].
  destruct (sock_instance_find l id); [done|]. intros _. apply not_elem_of_cons. split; [congruence|by apply IH].
Qed.

Lemma wlp_on_db {A} n (m : M HandleDb.st A) (Q : A -> st -> Prop) s si :
  sock_instances s !! n = Some si ->
  (forall r hs d, m (HandleDb.mkSt (Some (si_db si)) (reallocs s)) = Some (r, hs) -> HandleDb.db hs = Some d ->
     Q r (mkSt (mem s) (<[n := mkInst (si_id si) d]> (sock_instances s)) (callocs s) (HandleDb.reallocs hs) (nw s))) ->
  wlp (on_db n m) Q s.
Proof.
  intros Hn H a s'. unfold on_db. rewrite Hn. cbn [mbind option_bind].
  destruct (m _) as [[r hs]|] eqn:Em; [|done]. cbn [mbind option_bind].
  destruct (HandleDb.db hs) as [d|] eqn:Ed; [|done]. cbn. intros [= <- <-]. by apply H.
Qed.

Lemma live_from_spec k ps h p : (h, p) ∈ HandleDb.live_from k ps <->
  exists j, ps !! j = Some p /\ p <> 0 /\ h = Z.of_nat (k + j).
Proof.
  revert k. induction ps as [|x ps IH]; intros k; cbn.
  - rewrite elem_of_nil. split; [done|]. intros (j & Hj & _). by rewrite lookup_nil in Hj.
  - destruct (Z.eqb_spec x 0) as [->|Hx]; [|rewrite elem_of_cons]; rewrite IH; split.
    + intros (j & Hj & Hp & ->). exists (S j). split_and!; [done..|lia].
    + intros ([|j] & Hj & Hp & ->); [by injection Hj as <-|]. exists j. split_and!; [done..|lia].
    + intros [[= -> ->]|(j & Hj & Hp & ->)]; [exists 0%nat; split_and!; [done..|lia]|].
      exists (S j). split_and!; [done..|lia].
    + intros ([|j] & Hj & Hp & ->); [left; injection Hj as ->; f_equal; lia|]. right. exists j.
      split_and!; [done..|lia].
Qed.

Lemma live_from_handles d hp : hp ∈ HandleDb.live_from 0 (HandleDb.ptrs d) ->
  exists j, HandleDb.handles d !! j = Some (snd hp).
Proof.
  destruct hp as [h p]. intros (j & Hj & Hp & _)%live_from_spec. exists j.
  rewrite HandleDb.handles_lookup, Hj. cbn. by rewrite (proj2 (Z.eqb_neq _ _)).
Qed.

Lemma handles_live_from d j p : HandleDb.handles d !! j = Some p ->
  (Z.of_nat j, p) ∈ HandleDb.live_from 0 (HandleDb.ptrs d).
Proof.
  rewrite HandleDb.handles_lookup. destruct (HandleDb.ptrs d !! j) as [x|] eqn:Ex; [|done]. cbn.
  destruct (Z.eqb_spec x 0); [done|]. intros [= ->]. apply live_from_spec. by exists j.
Qed.

Section Handlers.
Context (NDEBUG : bool).

Lemma wlp_assert b (Q : unit -> st -> Prop) s : Q tt s -> wlp (assert_ NDEBUG b) Q s.
Proof. intros H. unfold assert_. destruct (b || NDEBUG); [by apply wlp_ret|done]. Qed.

(** A new handle in the instance at [n]. *)
Lemma db_get_tracked n si s fd : tracked (sock_instances s) (open_fds (nw s) ∖ {[fd]}) ->
  fd ∈ open_fds (nw s) -> Z.of_nat fd < NR_OPEN -> sock_instances s !! n = Some si ->
  Z.of_nat (HandleDb.max_ptrs (si_db si)) <= 2 ^ 29 ->
  wlp (ptr <- fd_to_handle_ptr NDEBUG (Z.of_nat fd) ;; on_db n (HandleDb.handle_get ptr))
    (fun h s' => mem s' = mem s /\ nw s' = nw s /\
       tracked (sock_instances s') (if h <? 0 then open_fds (nw s) ∖ {[fd]} else open_fds (nw s))) s.
Proof.
  intros T Hfd Hsm Hn Hdb. unfold fd_to_handle_ptr. apply wlp_bind, wlp_bind, wlp_assert, wlp_ret.
  assert (u64 (Z.of_nat fd + 1) = fd_ptr fd) as ->.
  { unfold u64, fd_ptr. apply Z.mod_small. unfold NR_OPEN in Hsm. lia. }
  apply (wlp_on_db _ _ _ _ si Hn). intros r hs d Hr Hd.
  assert (HandleDb.wf (si_db si)) as W by (pose proof (t_wf _ _ T) as F; by eapply Forall_lookup in F).
  destruct (HandleDb.get_refines (si_db si) (fd_ptr fd) (reallocs s) W)
    as (r0 & hs0 & d0 & Hr0 & Hd0 & Hsp & L & M' & B).
  rewrite Hr0 in Hr. injection Hr as -> ->. rewrite Hd0 in Hd. injection Hd as ->.
  assert (HandleDb.wf d) as W' by (split; [done|lia|rewrite M'; apply W]).
  cbn [mem nw sock_instances]. split_and!; [done..|].
  apply HandleDb.spec_get_cases in Hsp as [[-> Hsame]|(h & -> & Hfree & Hins)]; [| |unfold fd_ptr; lia].
  - change (-1 <? 0) with true. cbv iota. by apply tracked_same.
  - rewrite (proj2 (Z.ltb_ge _ _)) by lia.
    replace (open_fds (nw s)) with ({[fd]} ∪ (open_fds (nw s) ∖ {[fd]})).
    2:{ apply set_eq. intros x. destruct (decide (x = fd)); set_solver. }
    eapply tracked_get; try done. set_solver.
Qed.

Lemma sock_handle_get_tracked id s fd : tracked (sock_instances s) (open_fds (nw s) ∖ {[fd]}) ->
  fd ∈ open_fds (nw s) -> Z.of_nat fd < NR_OPEN -> dbs_small s ->
  wlp (sock_handle_get NDEBUG id (Z.of_nat fd))
    (fun h s' => mem s' = mem s /\ nw s' = nw s /\
       tracked (sock_instances s') (if h <? 0 then open_fds (nw s) ∖ {[fd]} else open_fds (nw s))) s.
Proof.
  intros T Hfd Hsm Hdb. unfold sock_handle_get. apply wlp_bind, wlp_get.
  destruct (sock_instance_find (sock_instances s) id) as [n|] eqn:Ef.
  - apply find_some in Ef as (si & Hn & _). apply (db_get_tracked n si); try done.
    unfold dbs_small in Hdb. rewrite Forall_forall in Hdb. eapply Hdb, list_elem_of_lookup_2, Hn.
  - apply find_none in Ef. apply wlp_bind. intros ok s1 E1.
    assert (mem s1 = mem s /\ nw s1 = nw s /\ sock_instances s1 = sock_instances s) as (Em & Ew & Ei).
    { unfold calloc_answer in E1. destruct (callocs s); by injection E1 as <- <-. }
    destruct ok; cbn [negb]; [|apply wlp_ret; by rewrite Em, Ew, Ei].
    apply wlp_bind, wlp_get, wlp_bind. intros [] s2 [= <-]. rewrite Ei.
    eapply wlp_mono; [eapply (db_get_tracked (length (sock_instances s)) (mkInst id (HandleDb.mkDb [] 0 None)))|].
    + cbn. rewrite Ew. by apply tracked_new.
    + cbn. by rewrite Ew.
    + done.
    + cbn. by apply list_lookup_middle.
    + cbn. lia.
    + cbn. rewrite Em, Ew. done.
Qed.

Lemma connect_loop_open l r fd s0 s : same s0 s -> r <> TEEC_SUCCESS ->
  wlp (connect_loop l r fd) (fun a s' => mem s' = mem s0 /\ sock_instances s' = sock_instances s0 /\
    (fst a <> TEEC_SUCCESS /\ open_fds (nw s') = open_fds (nw s0) \/
     exists n, fst a = TEEC_SUCCESS /\ snd a = Z.of_nat n /\ Z.of_nat n < NR_OPEN /\ n ∉ open_fds (nw s0) /\
       open_fds (nw s') = {[n]} ∪ open_fds (nw s0))) s.
Proof.
  revert r fd s. induction l as [|[sa ty] l IH]; intros r fd s K Hr; cbn [connect_loop].
  { apply wlp_ret. destruct K. split_and!; [done..|by left]. }
  apply wlp_bind, wlp_call. pose proof (socket_open ty (nw s)) as Hs. destruct (sys_socket ty (nw s)) as [f w].
  destruct Hs as [[-> Ho]|(n & -> & Hsm & Hn & Ho)].
  { change (-1 =? -1) with true. cbv iota. apply wlp_bind, wlp_errno. intros e.
    apply IH; [|by case_match]. eapply same_trans; [exact K|]. by split. }
  rewrite (proj2 (Z.eqb_neq _ _)) by lia.
  assert (forall s1, same (set_nw w s) s1 ->
    wlp (call (sys_close (Z.of_nat n))) (fun _ => same s0) s1) as Hclose.
  { intros s1 K1. apply wlp_call. pose proof (close_open n (nw s1)) as Hc.
    destruct (sys_close (Z.of_nat n) (nw s1)) as [c w1]. cbn [snd] in Hc. destruct K, K1.
    split; cbn in *; [congruence..|]. rewrite Hc, sm_open1, Ho, sm_open0. rewrite sm_open0 in Hn.
    apply set_eq. intros x. set_solver. }
  apply wlp_bind, (wlp_steady _ _ (set_nw w s)); [auto with sock|done|]. intros c s1 K1. wlp_case.
  { apply wlp_bind, wlp_errno. intros e. apply wlp_bind. eapply wlp_mono; [by apply Hclose|].
    intros u2 s2 K2. apply IH; [done|by case_match]. }
  unfold fd_flags_add. apply wlp_bind, wlp_bind, (wlp_steady _ _ (set_nw w s)); [auto with sock|done|].
  intros v s2 K2.
  assert (forall f s3, same (set_nw w s) s3 -> wlp (if negb (f =? 0) then
    call (sys_close (Z.of_nat n)) ;;; ret (TEEC_ERROR_GENERIC, -1) else ret (TEEC_SUCCESS, Z.of_nat n))
    (fun a s' => mem s' = mem s0 /\ sock_instances s' = sock_instances s0 /\
    (fst a <> TEEC_SUCCESS /\ open_fds (nw s') = open_fds (nw s0) \/
     exists n, fst a = TEEC_SUCCESS /\ snd a = Z.of_nat n /\ Z.of_nat n < NR_OPEN /\ n ∉ open_fds (nw s0) /\
       open_fds (nw s') = {[n]} ∪ open_fds (nw s0))) s3) as Hend.
  { intros fl s3 K3. wlp_case.
    - apply wlp_bind. eapply wlp_mono; [by apply Hclose|]. intros u4 s4 []. apply wlp_ret. split_and!; [done..|by left].
    - apply wlp_ret. destruct K as [k1 k2 k3], K3 as [q1 q2 q3]. cbn in *. split_and!; [congruence..|]. right. exists n.
      rewrite <- k3. split_and!; [done..|]. congruence. }
  wlp_case; [by apply wlp_ret, Hend|].
  apply (wlp_steady _ _ (set_nw w s)); [auto with sock|done|]. intros f s3 K3. by apply Hend.
Qed.

(** The descriptor of a live handle; -1 for any other when asserts are off. *)
Lemma sock_handle_to_fd_run id handle s : tracked (sock_instances s) (open_fds (nw s)) ->
  wlp (sock_handle_to_fd NDEBUG id handle) (fun fd s' =>
    (mem s' = mem s /\ sock_instances s' = sock_instances s /\ nw s' = nw s) /\
    (fd < 0 \/ exists n si k, sock_instance_find (sock_instances s) id = Some n /\
       sock_instances s !! n = Some si /\ 0 <= s32 handle /\
       HandleDb.handles (si_db si) !! Z.to_nat (s32 handle) = Some (fd_ptr k) /\ fd = Z.of_nat k)) s.
Proof.
  intros T. unfold sock_handle_to_fd. apply wlp_bind, wlp_get.
  destruct (sock_instance_find (sock_instances s) id) as [n|] eqn:Ef; [|apply wlp_ret; split; [done|left; lia]].
  apply find_some in Ef as Hf. destruct Hf as (si & Hn & Hid).
  assert (HandleDb.wf (si_db si)) as W by (pose proof (t_wf _ _ T) as F; by eapply Forall_lookup in F).
  apply wlp_bind, (wlp_on_db _ _ _ _ si Hn). intros r hs d. rewrite HandleDb.lookup_refines by done.
  intros [= <- <-] [= <-]. unfold handle_ptr_to_fd. apply wlp_bind, wlp_assert, wlp_ret. split.
  { split_and!; cbn; [done| |done]. apply list_insert_id. by destruct si. }
  set (p := HandleDb.deref _ _). destruct (decide (p = 0)) as [->|Hp]; [left; done|]. right.
  assert (0 <= s32 handle /\ HandleDb.handles (si_db si) !! Z.to_nat (s32 handle) = Some p) as [Hh Hp'].
  { unfold p, HandleDb.deref in *. destruct (Z.ltb_spec (s32 handle) 0); [done|]. split; [done|].
    by destruct (HandleDb.handles (si_db si) !! Z.to_nat (s32 handle)). }
  destruct (t_live _ _ T n (Z.to_nat (s32 handle)) p) as (k & Hk & Hin); [by exists si|].
  exists n, si, k. split_and!; try done; [by rewrite <- Hk|]. rewrite Hk. unfold fd_ptr.
  pose proof (t_small _ _ T k Hin) as Hs. unfold NR_OPEN in Hs.
  rewrite s32_small; [lia|]. unfold in_int, INT_MIN, INT_MAX. lia.
Qed.

Lemma sock_handle_to_fd_same id handle s : tracked (sock_instances s) (open_fds (nw s)) ->
  wlp (sock_handle_to_fd NDEBUG id handle) (fun fd s' => same s s' /\
    (fd < 0 \/ exists n si k, sock_instance_find (sock_instances s) id = Some n /\
       sock_instances s !! n = Some si /\ 0 <= s32 handle /\
       HandleDb.handles (si_db si) !! Z.to_nat (s32 handle) = Some (fd_ptr k) /\ fd = Z.of_nat k)) s.
Proof.
  intros T. eapply wlp_mono; [by apply sock_handle_to_fd_run|]. intros fd s' [(E1 & E2 & E3) H].
  split; [|done]. split; [done..|by rewrite E3].
Qed.

Lemma close_keeps params s : inv s -> wlp (tee_socket_close NDEBUG params) (fun _ => inv) s.
Proof.
  intros I. pose proof I as [W T]. unfold tee_socket_close.
  destruct params as [|p0 []]; try (by apply wlp_ret). wlp_case; [by apply wlp_ret|]. cbv zeta.
  apply wlp_bind. eapply wlp_mono; [by apply sock_handle_to_fd_same|].
  intros fd s1 [K Hfd]. wlp_case; [apply wlp_ret; by eapply same_inv|]. apply Z.ltb_ge in Heqb0.
  destruct Hfd as [|(n & si & k & Hf & Hn & Hh & Hk & ->)]; [lia|].
  unfold sock_handle_put. apply wlp_bind, wlp_bind, wlp_get. rewrite (sm_insts _ _ K), Hf.
  assert (HandleDb.wf (si_db si)) as Wd by (pose proof (t_wf _ _ T) as F; by eapply Forall_lookup in F).
  apply wlp_bind, (wlp_on_db _ _ _ _ si); [by rewrite (sm_insts _ _ K)|]. intros r hs d.
  destruct (HandleDb.put_refines (si_db si) (s32 (s32 (u_c p0))) (reallocs s1) Wd) as (d' & -> & Hd' & W' & _).
  intros [= <- <-] [= <-]. apply wlp_ret, wlp_bind, wlp_call. cbn [nw].
  pose proof (close_open k (nw s1)) as Hc. destruct (sys_close (Z.of_nat k) (nw s1)) as [c w].
  cbn [snd] in Hc. apply wlp_ret. destruct K as [K1 K2 K3]. split; [by cbn; rewrite K1|]. cbn.
  rewrite Hc, K2, K3. rewrite (proj2 (Z.ltb_ge _ _)) in Hd' by done. by eapply tracked_put.
Qed.

Lemma close_each_open l s0 s : same s0 s -> Forall (fun hp => exists k, snd hp = fd_ptr k /\ Z.of_nat k < NR_OPEN) l ->
  wlp (close_each NDEBUG l) (fun _ s' => mem s' = mem s0 /\ sock_instances s' = sock_instances s0 /\
    open_fds (nw s') = open_fds (nw s0) ∖ list_to_set (map (fun hp => Z.to_nat (snd hp - 1)) l)) s.
Proof.
  revert s0 s. induction l as [|[h p] l IH]; intros s0 s [K1 K2 K3] F; cbn [close_each].
  { apply wlp_ret. cbn. split_and!; [done..|]. rewrite K3. set_solver. }
  apply Forall_cons in F as [(k & E & Hs) F]. cbn [snd] in E. subst p.
  unfold sock_close_cb, handle_ptr_to_fd. apply wlp_bind, wlp_bind, wlp_bind, wlp_assert, wlp_ret.
  assert (s32 (fd_ptr k - 1) = Z.of_nat k) as ->.
  { unfold fd_ptr. rewrite s32_small; [lia|]. unfold in_int, INT_MIN, INT_MAX, NR_OPEN in *. lia. }
  apply wlp_bind, wlp_call. pose proof (close_open k (nw s)) as Hc.
  destruct (sys_close (Z.of_nat k) (nw s)) as [c w]. cbn [snd] in Hc. apply wlp_ret.
  eapply wlp_mono; [apply (IH (set_nw w s) _ (same_refl _) F)|]. cbn. intros u s' (E1 & E2 & E3).
  split_and!; [congruence..|]. rewrite E3, Hc, K3. replace (Z.to_nat (fd_ptr k - 1)) with k by (unfold fd_ptr; lia).
  set_solver.
Qed.

Lemma close_all_keeps params s : inv s -> wlp (tee_socket_close_all NDEBUG params) (fun _ => inv) s.
Proof.
  intros I. pose proof I as [W T]. unfold tee_socket_close_all.
  destruct params as [|p0 []]; try (by apply wlp_ret). wlp_case; [by apply wlp_ret|]. cbv zeta.
  apply wlp_bind, wlp_get. wlp_case; [|by apply wlp_ret].
  apply find_some in Heqo as (si & Hn & Hid).
  assert (HandleDb.wf (si_db si)) as Wd by (pose proof (t_wf _ _ T) as F; by eapply Forall_lookup in F).
  apply wlp_bind, (wlp_on_db _ _ _ _ si Hn). intros r hs d.
  destruct (HandleDb.foreach_put_visits_and_clears (si_db si) (reallocs s) Wd) as (d' & -> & Hd' & W' & _).
  intros [= <- <-] [= <-]. apply wlp_bind.
  assert (forall hp, hp ∈ HandleDb.live_from 0 (HandleDb.ptrs (si_db si)) ->
    exists j, HandleDb.handles (si_db si) !! j = Some (snd hp)) as Hlive by apply live_from_handles.
  eapply wlp_mono; [eapply (close_each_open _ _ _ (same_refl _))|].
  - rewrite Forall_forall. intros hp [j Hj]%Hlive. destruct (t_live _ _ T n j (snd hp)) as (k & -> & Hk); [by exists si|].
    exists k. split; [done|by apply (t_small _ _ T)].
  - cbn. intros u s' (E1 & E2 & E3). apply wlp_ret. split; [by rewrite E1|]. rewrite E2, E3.
    eapply tracked_clear; [done..|]. intros fd. rewrite elem_of_list_to_set, list_elem_of_fmap. split.
    + intros (hp & -> & [j Hj]%Hlive). exists j. destruct (t_live _ _ T n j (snd hp)) as (k & E & Hk); [by exists si|].
      rewrite Hj, E. unfold fd_ptr. f_equal. lia.
    + intros [j Hj]. exists (Z.of_nat j, fd_ptr fd). split; [unfold fd_ptr; cbn [snd]; lia|].
      by apply handles_live_from.
Qed.

Lemma open_keeps params s : inv s -> dbs_small s -> wlp (tee_socket_open NDEBUG params) (fun _ => inv) s.
Proof.
  intros I Hsm. pose proof I as [W T]. unfold tee_socket_open.
  destruct params as [|p0 [|p1 [|p2 [|p3 []]]]]; try (by apply wlp_ret). wlp_case; [by apply wlp_ret|]. cbv zeta.
  apply wlp_bind, wlp_get. wlp_case; [|by apply wlp_ret]. wlp_case; [|done]. wlp_case; [by apply wlp_ret|].
  apply wlp_bind. intros name s1. unfold string_at. destruct (load_string (mem s) v); [|done]. cbn. intros [= <- <-].
  apply wlp_bind. eapply wlp_mono.
  { instantiate (1 := fun a s' => mem s' = mem s /\ sock_instances s' = sock_instances s /\
      (fst a <> TEEC_SUCCESS /\ open_fds (nw s') = open_fds (nw s) \/
       exists n, fst a = TEEC_SUCCESS /\ snd a = Some (Z.of_nat n) /\ Z.of_nat n < NR_OPEN /\ n ∉ open_fds (nw s) /\
         open_fds (nw s') = {[n]} ∪ open_fds (nw s))).
    unfold sock_connect. cbv zeta.
    wlp_case; [|apply wlp_ret; split_and!; [done..|by left]].
    wlp_case; [|apply wlp_ret; split_and!; [done..|by left]].
    apply wlp_bind, (wlp_steady _ _ s); [auto with sock|done|]. intros [l'|] s1 K1.
    - apply wlp_bind. eapply wlp_mono; [by apply connect_loop_open|]. intros [res fd] s2 (E1 & E2 & E3).
      apply wlp_ret. cbn in *. split_and!; [done..|]. destruct E3 as [E3|(n & -> & -> & E3)]; [by left|].
      right. exists n. done.
    - apply wlp_ret. destruct K1. split_and!; [done..|by left]. }
  intros [res ofd] s2 (E1 & E2 & E3). cbn [fst snd] in E3.
  assert (open_fds (nw s2) = open_fds (nw s) -> inv s2) as Hi by (intros E4; split; [by rewrite E1|by rewrite E2, E4]).
  destruct (Z.eqb_spec res TEEC_SUCCESS) as [->|Hne]; cbn [negb].
  2:{ apply wlp_ret. destruct E3 as [[_ E3]|(n & E4 & _)]; [by apply Hi|done]. }
  destruct E3 as [[? _]|(n & _ & -> & Hlt & Hn & Ho)]; [done|].
  assert (open_fds (nw s2) ∖ {[n]} = open_fds (nw s)) as Hd by (rewrite Ho; set_solver).
  apply wlp_bind. eapply wlp_mono; [apply sock_handle_get_tracked|].
  - by rewrite E2, Hd.
  - rewrite Ho. set_solver.
  - done.
  - unfold dbs_small. by rewrite E2.
  - intros h s3 (F1 & F2 & F3). wlp_case.
    + apply wlp_bind, wlp_call. pose proof (close_open n (nw s3)) as Hc.
      destruct (sys_close (Z.of_nat n) (nw s3)) as [c w]. cbn [snd] in Hc. apply wlp_ret.
      split; [cbn; by rewrite F1, E1|]. cbn. by rewrite Hc, F2.
    + apply wlp_ret. split; [by rewrite F1, E1|]. by rewrite F2.
Qed.

Lemma transfer_keeps h params s : inv s -> h ∈ [tee_socket_send NDEBUG; tee_socket_recv NDEBUG] ->
  wlp (h params) (fun _ => inv) s.
Proof.
  intros I Hh. pose proof I as [W T]. apply elem_of_cons in Hh as [->|Hh%list_elem_of_singleton]; [|subst h];
    unfold tee_socket_send, tee_socket_recv; (destruct params as [|p0 [|p1 [|p2 []]]]; try (by apply wlp_ret));
    (wlp_case; [by apply wlp_ret|]); apply wlp_bind;
    (eapply wlp_mono; [by apply sock_handle_to_fd_same|]); intros fd s1 [K _];
    (wlp_case; [apply wlp_ret; by eapply same_inv|]); apply wlp_bind, wlp_get; cbv zeta; apply wlp_bind;
    unfold write_with_timeout, read_with_timeout; apply wlp_bind;
    (eapply wlp_mono; [by apply (poll_same _ s)|]); intros r s2 K2; cbv beta in K2;
    (wlp_case; [apply wlp_ret, wlp_ret; by eapply same_inv|]).
  - apply wlp_bind, wlp_get, wlp_bind, (wlp_steady _ _ s); [auto with sock|done|]. intros q s3 K3.
    wlp_case; [apply wlp_bind, wlp_errno; intros e|]; apply wlp_ret, wlp_ret; by eapply same_inv.
  - apply wlp_bind. intros q s3 Hq.
    assert (inv s3) as I3.
    { unfold read_into in Hq. pose proof (read_open fd ((size p1 =? 0) || bool_decide (is_Some (tee_supp_param_to_va (mem s1) p1)))
        (Z.to_nat (size p1)) (nw s2)) as Ho.
      destruct (sys_read _ _ _ _) as [[r' bs] w]. cbn [snd] in Ho. pose proof (same_inv _ _ K2 I) as [W2 T2].
      destruct (tee_supp_param_to_va (mem s1) p1) as [a|].
      - destruct (store_bytes (mem s2) a bs) as [m'|] eqn:Em; [|done]. cbn in Hq. injection Hq as <- <-.
        split; [by eapply store_wf|]. cbn. by rewrite Ho.
      - injection Hq as <- <-. split; [done|]. cbn. by rewrite Ho. }
    wlp_case; [apply wlp_bind, wlp_errno; intros e|]; by apply wlp_ret, wlp_ret.
Qed.

Lemma changeaddr_same fd l r s0 s : same s0 s -> wlp (changeaddr_loop fd l r) (fun _ => same s0) s.
Proof.
  revert r s. induction l as [|[sa ty] l IH]; intros r s K; cbn [changeaddr_loop]; [by apply wlp_ret|].
  apply wlp_bind, (wlp_steady _ _ s0); [auto with sock|done|]. intros c s1 K1.
  wlp_case; [|by apply wlp_ret]. apply wlp_bind, wlp_errno. intros e. by apply IH.
Qed.

Lemma ioctl_udp_same fd command buf blen s0 s : same s0 s ->
  wlp (tee_socket_ioctl_udp fd command buf blen) (fun _ => same s0) s.
Proof.
  intros K. unfold tee_socket_ioctl_udp. apply wlp_bind, (wlp_steady _ _ s0); [auto with sock|done|].
  intros [[sa len]|] s1 K1; [|by apply wlp_ret]. wlp_case.
  - destruct (sa_get_port sa len) as [res port]. wlp_case; [by apply wlp_ret|]. apply wlp_bind, wlp_get.
    wlp_case; [|done]. wlp_case; [|done]. wlp_case; [by apply wlp_ret|].
    apply wlp_bind. intros name s2. unfold string_at. destruct (load_string _ _); [|done]. cbn. intros [= <- <-].
    unfold udp_changeaddr. apply wlp_bind, (wlp_steady _ _ s0); [auto with sock|done|].
    intros [l'|] s3 K3; [by apply changeaddr_same|by apply wlp_ret].
  - wlp_case; [|by apply wlp_ret]. wlp_case; [by apply wlp_ret|]. apply wlp_bind, wlp_get.
    destruct (buf ≫= _) as [[|lo [|hi []]]|]; try done. cbv zeta.
    destruct (sa_set_port sa len (lo + 256 * hi)) as [res sa']. wlp_case; [by apply wlp_ret|].
    apply wlp_bind, (wlp_steady _ _ s0); [auto with sock|done|]. intros c s2 K2. by apply wlp_ret.
Qed.

Lemma ioctl_keeps params s : inv s -> wlp (tee_socket_ioctl NDEBUG params) (fun _ => inv) s.
Proof.
  intros I. pose proof I as [W T]. unfold tee_socket_ioctl.
  destruct params as [|p0 [|p1 [|p2 []]]]; try (by apply wlp_ret). wlp_case; [by apply wlp_ret|]. cbv zeta.
  apply wlp_bind. eapply wlp_mono; [by apply sock_handle_to_fd_same|]. intros fd s1 [K _].
  wlp_case; [apply wlp_ret; by eapply same_inv|].
  apply wlp_bind, (wlp_steady _ _ s); [auto with sock|done|]. intros [ty|] s2 K2; apply wlp_bind, wlp_get;
    [|apply wlp_ret; by eapply same_inv].
  wlp_case; [|wlp_case; [|apply wlp_ret; by eapply same_inv]]; apply wlp_bind.
  - unfold tee_socket_ioctl_tcp. wlp_case; [|apply wlp_ret, wlp_ret; by eapply same_inv].
    apply wlp_bind, (wlp_steady _ _ s); [auto with sock|done|]. intros r s3 K3. apply wlp_ret, wlp_ret.
    by eapply same_inv.
  - eapply wlp_mono; [by apply (ioctl_udp_same _ _ _ _ s)|]. intros r s3 K3. apply wlp_ret. by apply (same_inv s).
Qed.

Lemma socket_process_keeps params s : inv s -> dbs_small s ->
  wlp (tee_socket_process NDEBUG params) (fun _ => inv) s.
Proof.
  intros I Hsm. unfold tee_socket_process. destruct params as [|p ps]; [by apply wlp_ret|].
  wlp_case; [by apply wlp_ret|]. cbv zeta.
  wlp_case; [by apply open_keeps|]. wlp_case; [by apply close_keeps|]. wlp_case; [by apply close_all_keeps|].
  wlp_case; [by apply transfer_keeps, list_elem_of_here|].
  wlp_case; [by apply transfer_keeps, list_elem_of_further, list_elem_of_here|].
  wlp_case; [by apply ioctl_keeps|by apply wlp_ret].
Qed.

(** C14: after every request to the socket service, with any failure of the
    network or of memory, the open sockets are exactly the ones behind the
    handles: each handle of each instance stands for one open socket, no two
    for the same one, and no socket is left open without a handle. *)
Theorem sockets_tracked params s r params' s' :
  inv s -> dbs_small s -> tee_socket_process NDEBUG params s = Some ((r, params'), s') -> inv s'.
Proof. intros I Hsm. by apply socket_process_keeps. Qed.

Lemma socket_returns params :
  returns (fun a => map attr (snd a) = map attr params) (tee_socket_process NDEBUG params).
Proof.
  unfold tee_socket_process, tee_socket_open, tee_socket_close, tee_socket_close_all, tee_socket_send,
    tee_socket_recv, tee_socket_ioctl.
  repeat reply_step ltac:(cbn; repeat case_match; reflexivity).
Qed.

End Handlers.

(** A state with one instance, 7, that has one open UDP socket under handle 0. *)
Definition demo_net (ans : list answer) : net :=
  mkNet {[ 5%nat := mkSock SOCK_DGRAM 0 O_NONBLOCK (mkAddr AF_INET 0 0) [] ]} (mkTime 100 0) [] [] 0 ans.
Definition demo_st (ans : list answer) : st :=
  mkSt demo_mem [mkInst 7 (HandleDb.mkDb [6; 0] 2 None)] [] [] (demo_net ans).

Lemma demo_owner n h p : owner (sock_instances (demo_st [])) n h p -> n = 0%nat /\ h = 0%nat /\ p = 6.
Proof.
  intros (si & Hs & Hp). destruct n; [|done]. injection Hs as <-. cbn in Hp.
  rewrite HandleDb.handles_lookup in Hp. destruct h as [|[|h]]; cbn in Hp; [by injection Hp as <-|done|by destruct h].
Qed.

Lemma demo_inv ans : inv (demo_st ans).
Proof.
  split; [exact demo_mem_wf|]. split.
  - apply NoDup_singleton.
  - repeat constructor; cbn; [lia|discriminate].
  - intros fd. unfold open_fds. cbn. rewrite dom_singleton_L. intros ->%elem_of_singleton. done.
  - intros n h p (_ & _ & ->)%demo_owner. exists 5%nat. split; [done|]. unfold open_fds. cbn.
    rewrite dom_singleton_L. set_solver.
  - intros n h n' h' p (-> & -> & _)%demo_owner (-> & -> & _)%demo_owner. done.
  - intros fd. unfold open_fds. cbn. rewrite dom_singleton_L. intros ->%elem_of_singleton. exists 0%nat, 0%nat.
    eexists. split; [reflexivity|]. by rewrite HandleDb.handles_lookup.
Qed.

Lemma sockets_tracked_witness : exists s',
  tee_socket_process true [mkParam 1 1 7 0] (demo_st [AErr 5])
  = Some ((TEEC_ERROR_GENERIC, [mkParam 1 1 7 0]), s') /\ inv s'.
Proof.
  eexists. split; [vm_compute; reflexivity|].
  refine (sockets_tracked true [mkParam 1 1 7 0] (demo_st [AErr 5]) TEEC_ERROR_GENERIC _ _ (demo_inv _) _ eq_refl).
  repeat constructor. vm_compute. discriminate.
Defined.

(** Whether asserts are compiled in decides what a handle that is not open
    does to the supplicant: without them the request is refused and nothing
    changes; with them the process aborts, since [handle_ptr_to_fd] asserts
    that the lookup found something. *)
Theorem unknown_handle_asserts s p0 n si :
  inv s -> ptype p0 = ATTR_TYPE_VALUE_INPUT -> u_a p0 = OPTEE_MRC_SOCKET_CLOSE ->
  sock_instance_find (sock_instances s) (u32 (u_b p0)) = Some n -> sock_instances s !! n = Some si ->
  HandleDb.deref (HandleDb.handles (si_db si)) (s32 (u_c p0)) = 0 ->
  tee_socket_process true [p0] s = Some ((TEEC_ERROR_BAD_PARAMETERS, [p0]), s) /\
  tee_socket_process false [p0] s = None.
Proof.
  intros [_ T] Hty Hop Hf Hn Hz.
  assert (HandleDb.wf (si_db si)) as W by (pose proof (t_wf _ _ T) as F; by eapply Forall_lookup in F).
  assert (forall ND, sock_handle_to_fd ND (u32 (u_b p0)) (s32 (u_c p0)) s
    = if ND then Some (-1, s) else None) as Hfd.
  { intros ND. unfold sock_handle_to_fd, bind at 1, get. rewrite Hf. unfold bind, on_db. rewrite Hn.
    cbn [mbind option_bind]. rewrite s32_small by apply s32_range. rewrite HandleDb.lookup_refines by done.
    cbn [mbind option_bind HandleDb.db HandleDb.reallocs]. rewrite Hz.
    rewrite (list_insert_id (sock_instances s) n) by (by destruct si).
    unfold handle_ptr_to_fd, assert_, bind. destruct ND, s; reflexivity. }
  assert (forall ND, tee_socket_process ND [p0] s = tee_socket_close ND [p0] s) as Hp.
  { intros ND. unfold tee_socket_process, tee_supp_param_is_value, is_value. rewrite Hty, Hop. done. }
  rewrite !Hp. unfold tee_socket_close, chk_pt. rewrite Hty, Z.eqb_refl. cbn [negb].
  unfold bind. rewrite !Hfd. done.
Qed.

Lemma unknown_handle_asserts_witness :
  tee_socket_process true [mkParam 1 1 7 1] (demo_st [])
    = Some ((TEEC_ERROR_BAD_PARAMETERS, [mkParam 1 1 7 1]), demo_st []) /\
  tee_socket_process false [mkParam 1 1 7 1] (demo_st []) = None.
Proof.
  exact (unknown_handle_asserts (demo_st []) (mkParam 1 1 7 1) 0 (mkInst 7 (HandleDb.mkDb [6; 0] 2 None))
    (demo_inv []) eq_refl eq_refl eq_refl eq_refl eq_refl).
Defined.

(** ** Timeouts *)

(** What is handed to [poll] first. *)
Lemma poll_timeout_run T now :
  0 <= T < 2 ^ 32 -> 0 <= tv_nsec now < TS_NSEC_PER_SEC ->
  ts_diff_to_polltimeout (ts_add now (ts_delay_from_millis T)) now
  = if T <? 2 ^ 31 then T else if T <? 2147485000 then T - 2 ^ 32 else INT_MAX.
Proof.
  intros HT Hn. destruct now as [sec nsec]. unfold TS_NSEC_PER_SEC in *. cbn in Hn.
  assert (exists q r, T = q * 1000 + r /\ 0 <= r < 1000 /\ T / 1000 = q /\ T mod 1000 = r) as (q & r & ET & Hr & Eq & Er).
  { exists (T / 1000), (T mod 1000). pose proof (Z.mod_pos_bound T 1000). split_and!; try done; lia_mod. }
  unfold ts_delay_from_millis, ts_add. rewrite Eq, Er. unfold TS_NSEC_PER_SEC. change (1000000000 / 1000) with 1000000.
  cbn [tv_sec tv_nsec]. unfold ts_diff_to_polltimeout, TS_NSEC_PER_SEC, INT_MAX.
  change (Z.quot (2 ^ 31 - 1) 1000) with 2147483. change (Z.quot 1000000000 1000) with 1000000.
  assert (forall a b, a = q -> b = r * 1000000 ->
    (if 2147483 <? a - 1 then 2 ^ 31 - 1 else s32 (a * 1000 + Z.quot b 1000000))
    = (if T <? 2 ^ 31 then T else if T <? 2147485000 then T - 2 ^ 32 else 2 ^ 31 - 1)) as Hend.
  { intros a b -> ->. rewrite Z.quot_mul, <- ET by lia. destruct (Z.ltb_spec 2147483 (q - 1)).
    - rewrite !(proj2 (Z.ltb_ge _ _)) by lia. done.
    - destruct (Z.ltb_spec T (2 ^ 31)).
      + apply s32_small. unfold in_int, INT_MIN, INT_MAX. lia.
      + rewrite (proj2 (Z.ltb_lt T 2147485000)) by lia. unfold s32.
        replace (T + 2 ^ 31) with (T - 2 ^ 31 + 1 * 2 ^ 32) by lia. rewrite Z_mod_plus_full, Z.mod_small; lia. }
  destruct (Z.leb_spec 1000000000 (nsec + r * 1000000)); cbn [tv_sec tv_nsec].
  - rewrite (proj2 (Z.ltb_lt _ nsec)) by lia. apply Hend; lia.
  - rewrite (proj2 (Z.ltb_ge _ nsec)) by lia. apply Hend; lia.
Qed.

(** The first wait of [poll_with_timeout] lasts the requested number of
    milliseconds exactly, at any time of day, as long as the request fits an
    [int]; for requests from 2^31 up to 2147484999 ms the value handed to
    [poll] is negative, which waits for ever; beyond that it is INT_MAX. *)
Theorem poll_timeout_exact T now :
  0 <= T < 2 ^ 32 -> 0 <= tv_nsec now < TS_NSEC_PER_SEC ->
  ts_diff_to_polltimeout (ts_add now (ts_delay_from_millis T)) now
  = if T <? 2 ^ 31 then T else if T <? 2147485000 then T - 2 ^ 32 else INT_MAX.
Proof. apply poll_timeout_run. Qed.

Lemma poll_timeout_exact_witness :
  ts_diff_to_polltimeout (ts_add (mkTime 1600000000 999999999) (ts_delay_from_millis 2500)) (mkTime 1600000000 999999999)
  = 2500.
Proof.
  apply (poll_timeout_exact 2500 (mkTime 1600000000 999999999)); [lia|vm_compute; intuition discriminate].
Defined.

Lemma ts_diff_late until now :
  0 <= tv_nsec until < TS_NSEC_PER_SEC -> 0 <= tv_nsec now < TS_NSEC_PER_SEC ->
  tv_sec until * TS_NSEC_PER_SEC + tv_nsec until + 1000000 <= tv_sec now * TS_NSEC_PER_SEC + tv_nsec now ->
  tv_sec now - tv_sec until < 2147483 -> ts_diff_to_polltimeout until now < 0.
Proof.
  destruct until as [us un], now as [ns nn]. unfold TS_NSEC_PER_SEC. cbn [tv_sec tv_nsec]. intros Hu Hn Hl Hb.
  unfold ts_diff_to_polltimeout, TS_NSEC_PER_SEC, INT_MAX. cbn [tv_sec tv_nsec].
  change (Z.quot (2 ^ 31 - 1) 1000) with 2147483. change (Z.quot 1000000000 1000) with 1000000.
  assert (forall a b, a * 1000000000 + b <= -1000000 -> 0 <= b < 1000000000 -> -2147483 <= a ->
    (if 2147483 <? a - 1 then 2 ^ 31 - 1 else s32 (a * 1000 + Z.quot b 1000000)) < 0) as Hend.
  { intros a b Ha Hb' Hlo. rewrite (proj2 (Z.ltb_ge _ _)) by lia.
    rewrite Z.quot_div_nonneg by lia.
    assert (0 <= b / 1000000 < 1000 /\ b / 1000000 * 1000000 <= b) by lia_mod.
    rewrite s32_small; [lia|]. unfold in_int, INT_MIN, INT_MAX. lia. }
  destruct (Z.ltb_spec un nn); apply Hend; lia.
Qed.

(** A wait that is interrupted by a signal when its deadline has already
    passed is resumed with a negative timeout, so that [poll] waits for ever
    although the caller asked for a limit. *)
Theorem poll_past_deadline T t0 t1 s :
  0 <= T < 2 ^ 31 -> 0 <= tv_nsec t0 < TS_NSEC_PER_SEC -> 0 <= tv_nsec t1 < TS_NSEC_PER_SEC ->
  tv_sec t0 * TS_NSEC_PER_SEC + tv_nsec t0 + (T + 1) * 1000000 <= tv_sec t1 * TS_NSEC_PER_SEC + tv_nsec t1 ->
  tv_sec t1 - tv_sec t0 < 2147483 -> answers (nw s) = [ATime t0; AErr EINTR; ATime t1] ->
  exists to s', to < 0 /\ poll_with_timeout T s = Some (TEEC_SUCCESS, s') /\
    polls (nw s') = polls (nw s) ++ [T; to].
Proof.
  intros HT H0 H1 Hl Hb Ha.
  set (until := ts_add t0 (ts_delay_from_millis T)).
  assert (0 <= tv_nsec until < TS_NSEC_PER_SEC /\
    tv_sec until * TS_NSEC_PER_SEC + tv_nsec until = tv_sec t0 * TS_NSEC_PER_SEC + tv_nsec t0 + T * 1000000) as [Hu1 Hu2].
  { unfold until, ts_add, ts_delay_from_millis, TS_NSEC_PER_SEC in *. cbn [tv_sec tv_nsec].
    change (1000000000 / 1000) with 1000000.
    assert (T = T / 1000 * 1000 + T mod 1000 /\ 0 <= T mod 1000 < 1000) by lia_mod.
    destruct (Z.leb_spec 1000000000 (tv_nsec t0 + T mod 1000 * 1000000)); cbn [tv_sec tv_nsec]; lia. }
  exists (ts_diff_to_polltimeout until t1).
  assert (ts_diff_to_polltimeout until t1 < 0) as Hneg.
  { apply ts_diff_late; try done; unfold TS_NSEC_PER_SEC in *; lia. }
  assert (ts_diff_to_polltimeout until t0 = T) as HfirstT.
  { unfold until, TS_NSEC_PER_SEC in *. destruct t0 as [s0 n0]. cbn [tv_nsec tv_sec] in *.
    rewrite poll_timeout_run by (unfold TS_NSEC_PER_SEC; cbn [tv_nsec]; lia).
    rewrite (proj2 (Z.ltb_lt _ _)) by lia. done. }
  unfold poll_with_timeout. unfold bind at 1, get at 1. cbv zeta.
  rewrite (proj2 (Z.eqb_neq T _)) by (unfold OPTEE_MRC_SOCKET_TIMEOUT_BLOCKING; lia). rewrite Ha. cbn [length].
  unfold bind at 1, call at 1, sys_clock_gettime at 1, next at 1. rewrite Ha. cbn [negb Z.eqb].
  unfold bind at 1, get at 1. cbn [nw set_nw clock]. fold until.
  cbn [poll_loop Z.eqb negb]. cbv zeta. rewrite HfirstT. cbn [Z.eqb negb].
  unfold bind at 1, call at 1, sys_poll at 1, next at 1. cbn [nw set_nw answers fail Z.eqb].
  unfold bind at 1, get_errno at 1. cbn [nw set_nw errno Z.eqb Pos.eqb].
  rewrite (proj2 (Z.eqb_neq T (-1))) by lia. cbn [negb].
  change (EINTR =? EINTR) with true. cbv iota. unfold bind at 1, call at 1, sys_clock_gettime at 1, next at 1.
  cbn [nw set_nw answers fail Z.eqb negb]. unfold bind at 1, get at 1. cbn [nw set_nw clock].
  eexists. split; [done|]. split; [reflexivity|]. cbn. by rewrite <- app_assoc.
Qed.

Lemma poll_past_deadline_witness :
  exists to s', to < 0 /\
    poll_with_timeout 10 (demo_st [ATime (mkTime 100 0); AErr EINTR; ATime (mkTime 101 0)]) = Some (TEEC_SUCCESS, s') /\
    polls (nw s') = [10; to].
Proof.
  apply (poll_past_deadline 10 (mkTime 100 0) (mkTime 101 0)
    (demo_st [ATime (mkTime 100 0); AErr EINTR; ATime (mkTime 101 0)]));
    [lia|vm_compute; intuition discriminate|vm_compute; intuition discriminate|vm_compute; discriminate
    |vm_compute; reflexivity|reflexivity].
Defined.

(** ** Sending *)

(** The same memory, instances and sockets. *)
Definition kept (s0 s : st) : Prop :=
  mem s = mem s0 /\ sock_instances s = sock_instances s0 /\ socks (nw s) = socks (nw s0).

Lemma poll_kept timeout s0 s : kept s0 s -> wlp (poll_with_timeout timeout) (fun _ => kept s0) s.
Proof.
  apply poll_closed; [intros to|]; intros s1 (K1 & K2 & K3); split_and!; try done; cbn; rewrite <- K3;
    unfold sys_poll, sys_clock_gettime; destruct (next (nw s1)) as [a w] eqn:E; apply next_eq in E; rewrite <- E;
    by destruct a.
Qed.

Definition with_sent (so : sock) (bs : list Z) : sock :=
  mkSock (so_type so) (so_fdflags so) (so_flags so) (so_peer so) (so_sent so ++ bs).

Lemma write_sent fd bs w :
  let '(r, w') := sys_write (Z.of_nat fd) (Some bs) w in
  r = -1 /\ socks w' = socks w \/
  exists so k, socks w !! fd = Some so /\ r = Z.of_nat k /\ (k <= length bs)%nat /\ (bs <> [] -> 1 <= k)%nat /\
    socks w' = <[fd := with_sent so (take k bs)]> (socks w).
Proof.
  assert (bs <> [] -> 1 <= length bs)%nat as Hb by (destruct bs; [done|cbn; lia]).
  unfold sys_write, on_sock. destruct (next w) as [a w1] eqn:E. apply next_eq in E. rewrite <- E.
  rewrite (proj2 (Z.ltb_ge _ _)), Nat2Z.id by lia.
  destruct (socks w1 !! fd) as [so|] eqn:Es; [|destruct a; by left].
  destruct a as [| | |m| | |]; try (by left); right; exists so; eexists; cbn -[Nat.min];
    (split; [done|]; split; [done|]; split_and!; [lia|intros H%Hb; lia|done]).
Qed.

(** The bytes a send request points at; without a buffer there are none. *)
Definition send_buffer (m : shm_mem) (p : tee_ioctl_param) (bs : list Z) : Prop :=
  size p = 0 /\ bs = [] \/
  exists a, tee_supp_param_to_va m p = Some a /\ load_bytes m a (Z.to_nat (size p)) = Some bs.

Lemma send_buffer_cases m p :
  let buf := if size p =? 0 then Some []
             else a ← tee_supp_param_to_va m p; load_bytes m a (Z.to_nat (size p)) in
  (exists bs, buf = Some bs /\ send_buffer m p bs) \/ buf = None.
Proof.
  cbv zeta. unfold send_buffer. destruct (Z.eqb_spec (size p) 0); [left; exists []; split; [done|by left]|].
  destruct (tee_supp_param_to_va m p) as [a|]; [|by right]. cbn [mbind option_bind].
  destruct (load_bytes m a _) as [bs|] eqn:El; [|by right]. left. exists bs. split; [done|]. right. by exists a.
Qed.

Lemma write_unmapped k w : exists w', sys_write (Z.of_nat k) None w = (-1, w').
Proof.
  unfold sys_write, on_sock. destruct (next w) as [a w1]. destruct a; try (by eexists);
    (destruct (_ <? 0); [by eexists|]; destruct (socks w1 !! _); by eexists).
Qed.

Lemma io_failure_bad e : io_failure e <> TEEC_SUCCESS.
Proof. unfold io_failure. by destruct (_ || _). Qed.

(** A send request that succeeds has put a prefix of the buffer on the
    socket behind the handle, exactly as long as the number it reports, at
    least one byte of a buffer that is not empty; every other socket is
    untouched. *)
Theorem socket_send_prefix NDEBUG p0 p1 p2 s params' s' :
  inv s -> u_a p0 = OPTEE_MRC_SOCKET_SEND -> param_ok p1 ->
  tee_socket_process NDEBUG [p0; p1; p2] s = Some ((TEEC_SUCCESS, params'), s') ->
  exists n h fd so bs k, owner (sock_instances s) n h (fd_ptr fd) /\ socks (nw s) !! fd = Some so /\
    send_buffer (mem s) p1 bs /\
    (k <= length bs)%nat /\ (bs <> [] -> 1 <= k)%nat /\ params' = [p0; p1; set_b (Z.of_nat k) p2] /\
    mem s' = mem s /\ socks (nw s') = <[fd := with_sent so (take k bs)]> (socks (nw s)).
Proof.
  intros I Hop Hp1. set (P := fun params' s' => exists n h fd so bs k,
    owner (sock_instances s) n h (fd_ptr fd) /\ socks (nw s) !! fd = Some so /\
    send_buffer (mem s) p1 bs /\
    (k <= length bs)%nat /\ (bs <> [] -> 1 <= k)%nat /\ params' = [p0; p1; set_b (Z.of_nat k) p2] /\
    mem s' = mem s /\ socks (nw s') = <[fd := with_sent so (take k bs)]> (socks (nw s))).
  change (tee_socket_process NDEBUG [p0; p1; p2] s = Some ((TEEC_SUCCESS, params'), s') -> P params' s').
  enough (wlp (tee_socket_process NDEBUG [p0; p1; p2]) (fun a s' => fst a = TEEC_SUCCESS -> P (snd a) s') s) as H
    by (intros E; by apply (H _ _ E)).
  assert (forall r ps s1, r <> TEEC_SUCCESS ->
    wlp (ret (r, ps)) (fun a s' => fst a = TEEC_SUCCESS -> P (snd a) s') s1) as Hbad
    by (intros; by apply wlp_ret).
  unfold tee_socket_process. wlp_case; [by apply Hbad|]. cbv zeta. rewrite Hop.
  change (wlp (tee_socket_send NDEBUG [p0; p1; p2]) (fun a s' => fst a = TEEC_SUCCESS -> P (snd a) s') s).
  unfold tee_socket_send. wlp_case; [by apply Hbad|]. apply wlp_bind. destruct I as [W T].
  eapply wlp_mono; [by apply sock_handle_to_fd_run|].
  intros fd s1 [(M0 & I0 & N0) Hfd]. assert (kept s s1) as K1 by (split_and!; [done..|by rewrite N0]). wlp_case; [by apply Hbad|]. apply Z.ltb_ge in Heqb1.
  destruct Hfd as [|(n & si & k & Hf & Hn & Hh & Hk & ->)]; [lia|]. pose proof K1 as (M1 & I1 & S1).
  apply wlp_bind, wlp_get, wlp_bind. unfold write_with_timeout. apply wlp_bind.
  eapply wlp_mono; [by apply (poll_kept _ s)|]. intros r s2 K2. destruct K2 as (M2 & I2 & S2).
  destruct (Z.eqb_spec r TEEC_SUCCESS); cbn [negb]; [|by apply wlp_ret, Hbad].
  apply wlp_bind, wlp_get, wlp_bind, wlp_call. rewrite M1, M2.
  destruct (send_buffer_cases (mem s) p1) as [(bs & -> & Hbs)| ->].
  - pose proof (write_sent k bs (nw s2)) as Hw. destruct (sys_write _ _ (nw s2)) as [q w].
    destruct Hw as [[-> _]|(so & j & Hso & -> & Hj & Hj1 & Hw)].
    + apply wlp_bind, wlp_errno. intros er. by apply wlp_ret, Hbad, io_failure_bad.
    + rewrite (proj2 (Z.eqb_neq _ _)) by lia. apply wlp_ret, wlp_ret. intros _. cbn [snd].
      exists n, (Z.to_nat (s32 (s32 (u_c p0)))), k, so, bs, j. rewrite <- S2. split_and!; try done. by exists si.
  - destruct (write_unmapped k (nw s2)) as [w ->]. apply wlp_bind, wlp_errno. intros er.
    by apply wlp_ret, Hbad, io_failure_bad.
Qed.

Lemma socket_send_prefix_witness : exists s',
  tee_socket_process true [mkParam 1 3 7 0; mkParam 5 0 4 4; mkParam 3 0 0 0] (demo_st [AOk; AErr EINTR; AOk; AOk; AShort 2])
  = Some ((TEEC_SUCCESS, [mkParam 1 3 7 0; mkParam 5 0 4 4; mkParam 3 0 3 0]), s') /\
  exists n h fd so bs k, owner (sock_instances (demo_st [])) n h (fd_ptr fd) /\ socks (demo_net []) !! fd = Some so /\
    send_buffer demo_mem (mkParam 5 0 4 4) bs /\
    (k <= length bs)%nat /\ (bs <> [] -> 1 <= k)%nat /\
    [mkParam 1 3 7 0; mkParam 5 0 4 4; mkParam 3 0 3 0] = [mkParam 1 3 7 0; mkParam 5 0 4 4; set_b (Z.of_nat k) (mkParam 3 0 0 0)] /\
    mem s' = demo_mem /\ socks (nw s') = <[fd := with_sent so (take k bs)]> (socks (demo_net [])).
Proof.
  assert (exists s', tee_socket_process true [mkParam 1 3 7 0; mkParam 5 0 4 4; mkParam 3 0 0 0]
      (demo_st [AOk; AErr EINTR; AOk; AOk; AShort 2])
    = Some ((TEEC_SUCCESS, [mkParam 1 3 7 0; mkParam 5 0 4 4; mkParam 3 0 3 0]), s')) as [s' E]
    by (eexists; vm_compute; reflexivity).
  exists s'. split; [exact E|].
  refine (socket_send_prefix true (mkParam 1 3 7 0) (mkParam 5 0 4 4) (mkParam 3 0 0 0)
    (demo_st [AOk; AErr EINTR; AOk; AOk; AShort 2]) _ s' (demo_inv _) eq_refl _ E).
  repeat split; cbn; lia.
Defined.

End TeeSocketThm.
