(* ===== verification/TaLoad.v ===== *)
(** * Loading trusted applications
      (optee_client/tee-supplicant/src/teec_ta_load.c, tee_supplicant.c: load_ta)

    The secure world asks for the binary of a trusted application by its UUID;
    the supplicant finds the file by a name made from the UUID and copies it
    into shared memory, or reports the size it needs.  The answers of stdio are
    the record [ta_env]; [None] is a store outside the mapping. *)

From stdpp Require Import base tactics option list list_numbers numbers gmap fin_maps.
From Stdlib Require Import ZArith Lia.
From S2P Require Import Prelude TeeParam SuppShm.
Import TeeParam SuppShm.

Local Open Scope Z_scope.

Module TaLoad.

Definition TA_BINARY_FOUND : Z := 0.
Definition TA_BINARY_NOT_FOUND : Z := -1.

(** ** File names *)

Definition hex_char (d : Z) : Z := if d <? 10 then 48 + d else 87 + d.

(** [%0<n>x] of a value that has at most [n] digits. *)
Fixpoint hexn (n : nat) (v : Z) : list Z :=
  match n with
  | O => []
  | S n => hex_char ((v / 16 ^ Z.of_nat n) mod 16) :: hexn n v
  end.

Definition minus : list Z := [45].
Definition dot_ta : list Z := [46; 116; 97].
Definition system_bin : list Z := [47; 115; 121; 115; 116; 101; 109; 47; 98; 105; 110].

(** The eight bytes as "%02x%02x" sep "%02x..."; with [sep] empty as one run. *)
Definition hex_node (cs : list Z) (sep : list Z) : list Z :=
  concat (map (hexn 2) (take 2 cs)) ++ sep ++ concat (map (hexn 2) (drop 2 cs)).

Definition ta_fname (prefix : list Z) (dev_path : option (list Z)) (u : TEEC_UUID) (first_try : bool) : list Z :=
  match dev_path with
  | Some dev_path =>
      prefix ++ [47] ++ dev_path ++ [47] ++ hexn 8 (timeLow u) ++ minus ++ hexn 4 (timeMid u) ++ minus ++
      hexn 4 (timeHiAndVersion u) ++ minus ++ hex_node (clockSeqAndNode u) (if first_try then minus else []) ++ dot_ta
  | None =>
      system_bin ++ [47] ++ hexn 8 (timeLow u) ++ minus ++ hexn 4 (timeMid u) ++ minus ++
      hexn 4 (timeHiAndVersion u) ++ minus ++ hex_node (clockSeqAndNode u) [] ++ dot_ta
  end.

(** ** Loading *)

(** The files that can be opened; whether [fseek] and [ftell] work; how many
    bytes [fread] delivers when it stops early. *)
Record ta_env := mkEnv {
  ta_files : gmap (list Z) (list Z);
  seek_end_ok : bool;
  tell_ok : bool;
  seek_set_ok : bool;
  fread_short : option nat
}.

Section Load.
(** PATH_MAX of the system, and the build settings. *)
Context (PATH_MAX : Z) (TEEC_LOAD_PATH : list Z) (TEEC_TEST_LOAD_PATH : option (list Z)) (e : ta_env).

(** After the file is open; the status, [*ta_size] and the memory. *)
Definition read_ta (file : list Z) (ta : option va) (ta_size : Z) (m : shm_mem) : option (Z * Z * shm_mem) :=
  if negb (seek_end_ok e) then Some (TA_BINARY_NOT_FOUND, ta_size, m) else
  let s := if tell_ok e then Z.of_nat (length file) else u64 (-1) in
  match ta with
  | None => Some (TA_BINARY_FOUND, s, m)
  | Some buf =>
      if ta_size <? s then Some (TA_BINARY_FOUND, s, m) else
      if negb (seek_set_ok e) then Some (TA_BINARY_NOT_FOUND, ta_size, m) else
      let bs := match fread_short e with Some k => take k file | None => file end in
      m ← store_bytes m buf bs;
      if negb (s =? Z.of_nat (length bs)) then Some (TA_BINARY_NOT_FOUND, ta_size, m)
      else Some (TA_BINARY_FOUND, s, m)
  end.

(** [goto again] happens once. *)
Definition try_load_secure_module (prefix : list Z) (dev_path : option (list Z)) (destination : TEEC_UUID)
  (ta : option va) (ta_size : Z) (m : shm_mem) : option (Z * Z * shm_mem) :=
  let attempt (first_try : bool) (otherwise : option (Z * Z * shm_mem)) :=
    let fname := ta_fname prefix dev_path destination first_try in
    if PATH_MAX <=? Z.of_nat (length fname) then Some (TA_BINARY_NOT_FOUND, ta_size, m) else
    match ta_files e !! fname with
    | None => otherwise
    | Some file => read_ta file ta ta_size m
    end in
  attempt true (attempt false (Some (TA_BINARY_NOT_FOUND, ta_size, m))).

Definition TEECI_LoadSecureModule (dev_path : option (list Z)) (destination : TEEC_UUID)
  (ta : option va) (ta_size : Z) (m : shm_mem) : option (Z * Z * shm_mem) :=
  match TEEC_TEST_LOAD_PATH with
  | Some test_path =>
      '(res, ta_size, m) ← try_load_secure_module test_path dev_path destination ta ta_size m;
      if negb (res =? TA_BINARY_NOT_FOUND) then Some (res, ta_size, m)
      else try_load_secure_module TEEC_LOAD_PATH dev_path destination ta ta_size m
  | None => try_load_secure_module TEEC_LOAD_PATH dev_path destination ta ta_size m
  end.

(** The bytes of [val_cmd] in memory, on a little-endian host. *)
Fixpoint le_bytes (n : nat) (v : Z) : list Z :=
  match n with O => [] | S n => v mod 256 :: le_bytes n (v / 256) end.

Definition load_ta (ta_dir : option (list Z)) (params : list tee_ioctl_param) (m : shm_mem)
  : option (Z * list tee_ioctl_param * shm_mem) :=
  match params with
  | [p0; p1] =>
      match get_value params 0, get_param m params 1 with
      | Some val_cmd, Some shm_ta =>
          let uuid := uuid_from_octets (le_bytes 8 (u_a val_cmd) ++ le_bytes 8 (u_b val_cmd)) in
          '(ta_found, size, m) ← TEECI_LoadSecureModule ta_dir uuid (r_buffer shm_ta) (r_size shm_ta) m;
          if negb (ta_found =? TA_BINARY_FOUND) then Some (TEEC_ERROR_ITEM_NOT_FOUND, params, m) else
          let params := [p0; set_size size p1] in
          if bool_decide (is_Some (r_buffer shm_ta)) && (r_size shm_ta <? size)
          then Some (TEEC_ERROR_SHORT_BUFFER, params, m)
          else Some (TEEC_SUCCESS, params, m)
      | _, _ => Some (TEEC_ERROR_BAD_PARAMETERS, params, m)
      end
  | _ => Some (TEEC_ERROR_BAD_PARAMETERS, params, m)
  end.

End Load.

(** ** Names determine UUIDs *)

Definition bytes_ok (l : list Z) : Prop := Forall (fun x => 0 <= x < 256) l.

Lemma hex_char_inj a b : 0 <= a < 16 -> 0 <= b < 16 -> hex_char a = hex_char b -> a = b.
Proof. unfold hex_char. intros Ha Hb. destruct (Z.ltb_spec a 10), (Z.ltb_spec b 10); lia. Qed.

Lemma hexn_length n v : length (hexn n v) = n.
Proof. induction n as [|n IH]; cbn; [done|by rewrite IH]. Qed.

Lemma hexn_digits n a b : hexn n a = hexn n b -> a mod 16 ^ Z.of_nat n = b mod 16 ^ Z.of_nat n.
Proof.
  induction n as [|n IH]; intros H; [by rewrite !Z.mod_1_r|]. cbn [hexn] in H. injection H as Hd Hr.
  apply hex_char_inj in Hd; [|by apply Z.mod_pos_bound..]. specialize (IH Hr).
  rewrite Nat2Z.inj_succ, Z.pow_succ_r by lia. set (k := 16 ^ Z.of_nat n) in *.
  assert (0 < k) by (unfold k; lia). rewrite (Z.mul_comm 16), !Z.rem_mul_r by lia. congruence.
Qed.

Lemma hexn_inj n a b : 0 <= a < 16 ^ Z.of_nat n -> 0 <= b < 16 ^ Z.of_nat n -> hexn n a = hexn n b -> a = b.
Proof. intros Ha Hb H%hexn_digits. by rewrite !Z.mod_small in H. Qed.

Lemma hex_bytes_inj l l' : bytes_ok l -> bytes_ok l' -> length l = length l' ->
  concat (map (hexn 2) l) = concat (map (hexn 2) l') -> l = l'.
Proof.
  intros Hl. revert l'. induction Hl as [|a l Ha Hl IH]; intros [|b l'] Hl' Hlen; try done.
  apply Forall_cons in Hl' as [Hb Hl']. cbn [map concat]. intros H. apply app_inj_1 in H as [H1 H2];
    [|by rewrite !hexn_length]. apply hexn_inj in H1; [|done..]. subst b. f_equal. apply IH; [done|by injection Hlen|done].
Qed.

Lemma concat_hex_length l : length (concat (map (hexn 2) l)) = (2 * length l)%nat.
Proof. induction l as [|a l IH]; [done|]. cbn [map concat]. rewrite length_app, IH, hexn_length. cbn. lia. Qed.

Lemma hex_node_inj cs cs' sep : bytes_ok cs -> bytes_ok cs' -> length cs = 8%nat -> length cs' = 8%nat ->
  hex_node cs sep = hex_node cs' sep -> cs = cs'.
Proof.
  intros H H' Hl Hl'. unfold hex_node. intros E.
  apply app_inj_1 in E as [E1 E2]; [|by rewrite !concat_hex_length, !length_take, Hl, Hl'].
  apply app_inv_head in E2.
  apply hex_bytes_inj in E1; [|by apply Forall_take..|by rewrite !length_take, Hl, Hl'].
  apply hex_bytes_inj in E2; [|by apply Forall_drop..|by rewrite !length_drop, Hl, Hl'].
  rewrite <- (take_drop 2 cs), <- (take_drop 2 cs'). congruence.
Qed.

(** The file name of a trusted application determines its UUID: within one
    directory no two applications share a file, and a name of the current form
    is never a name of the deprecated form of another application. *)
Theorem ta_fname_injective prefix dev u v b b' :
  uuid_ok u -> uuid_ok v -> bytes_ok (clockSeqAndNode u) -> bytes_ok (clockSeqAndNode v) ->
  ta_fname prefix (Some dev) u b = ta_fname prefix (Some dev) v b' -> u = v /\ b = b'.
Proof.
  intros (U1 & U2 & U3 & U4) (V1 & V2 & V3 & V4) Hu Hv. unfold ta_fname. intros E.
  assert (b = b') as <-.
  { apply (f_equal length) in E. unfold hex_node in E. repeat rewrite length_app in E.
    rewrite !concat_hex_length, !hexn_length, !length_take, !length_drop, U4, V4 in E.
    destruct b, b'; cbn in E; try done; lia. }
  split; [|done]. repeat (apply app_inv_head in E).
  apply app_inj_1 in E as [E1 E]; [|by rewrite !hexn_length]. apply hexn_inj in E1; [|done..]. apply app_inv_head in E.
  apply app_inj_1 in E as [E2 E]; [|by rewrite !hexn_length]. apply hexn_inj in E2; [|done..]. apply app_inv_head in E.
  apply app_inj_1 in E as [E3 E]; [|by rewrite !hexn_length]. apply hexn_inj in E3; [|done..]. apply app_inv_head in E.
  apply app_inv_tail in E. apply hex_node_inj in E; [|done..].
  destruct u, v. cbn in *. congruence.
Qed.

Definition demo_uuid : TEEC_UUID := mkUuid 0x12345678 0x9abc 0xdef0 [1; 2; 3; 4; 5; 6; 7; 8].

Lemma ta_fname_injective_witness : uuid_from_octets (uuid_to_octets demo_uuid) = demo_uuid /\ true = true.
Proof.
  apply (ta_fname_injective [] [] _ _ true true).
  - vm_compute. intuition discriminate.
  - vm_compute. intuition discriminate.
  - vm_compute. repeat constructor; intuition discriminate.
  - repeat constructor; cbn; lia.
  - vm_compute. reflexivity.
Defined.

(** ** The load protocol *)

(** The file that is loaded for a UUID: the current name, then the deprecated one. *)
Definition ta_file (PATH_MAX : Z) (path : list Z) (e : ta_env) (dev : option (list Z)) (u : TEEC_UUID)
  : option (list Z) :=
  let f1 := ta_fname path dev u true in
  let f2 := ta_fname path dev u false in
  if PATH_MAX <=? Z.of_nat (length f1) then None else
  match ta_files e !! f1 with
  | Some file => Some file
  | None => if PATH_MAX <=? Z.of_nat (length f2) then None else ta_files e !! f2
  end.

(** stdio works. *)
Definition stdio_ok (e : ta_env) : Prop :=
  seek_end_ok e = true /\ tell_ok e = true /\ seek_set_ok e = true /\ fread_short e = None.

Section Protocol.
Context (PATH_MAX : Z) (path : list Z) (e : ta_env) (dev : option (list Z)).

Definition uuid_of (p : tee_ioctl_param) : TEEC_UUID :=
  uuid_from_octets (le_bytes 8 (u_a p) ++ le_bytes 8 (u_b p)).

Lemma try_load_found u file ta sz m : ta_file PATH_MAX path e dev u = Some file ->
  TEECI_LoadSecureModule PATH_MAX path None e dev u ta sz m = read_ta e file ta sz m.
Proof.
  unfold ta_file, TEECI_LoadSecureModule, try_load_secure_module. cbv zeta.
  destruct (PATH_MAX <=? _); [done|]. destruct (ta_files e !! ta_fname path dev u true); [by intros [= ->]|].
  destruct (PATH_MAX <=? _); [done|]. by intros ->.
Qed.

Lemma read_ta_run file ta sz m : stdio_ok e -> read_ta e file ta sz m =
  match ta with
  | None => Some (TA_BINARY_FOUND, Z.of_nat (length file), m)
  | Some buf =>
      if sz <? Z.of_nat (length file) then Some (TA_BINARY_FOUND, Z.of_nat (length file), m)
      else m' ← store_bytes m buf file; Some (TA_BINARY_FOUND, Z.of_nat (length file), m')
  end.
Proof.
  intros (E1 & E2 & E3 & E4). unfold read_ta. rewrite E1, E2, E3, E4. cbn [negb].
  destruct ta; [|done]. destruct (sz <? _); [done|]. destruct (store_bytes _ _ _); cbn [mbind option_bind]; [|done].
  by rewrite Z.eqb_refl.
Qed.

Lemma load_ta_run p0 p1 m ref file : is_value p0 = true -> get_param m [p0; p1] 1 = Some ref -> stdio_ok e ->
  ta_file PATH_MAX path e dev (uuid_of p0) = Some file ->
  load_ta PATH_MAX path None e dev [p0; p1] m =
  match r_buffer ref with
  | None => Some (TEEC_SUCCESS, [p0; set_size (Z.of_nat (length file)) p1], m)
  | Some buf =>
      if r_size ref <? Z.of_nat (length file)
      then Some (TEEC_ERROR_SHORT_BUFFER, [p0; set_size (Z.of_nat (length file)) p1], m)
      else m' ← store_bytes m buf file; Some (TEEC_SUCCESS, [p0; set_size (Z.of_nat (length file)) p1], m')
  end.
Proof.
  intros Hv Hg He Hf. unfold load_ta. rewrite Hg.
  assert (get_value [p0; p1] 0 = Some p0) as -> by (unfold get_value; cbn; by rewrite Hv).
  fold (uuid_of p0). rewrite (try_load_found _ _ _ _ _ Hf), read_ta_run by done.
  destruct (r_buffer ref) as [buf|]; [|done]. destruct (r_size ref <? Z.of_nat (length file)) eqn:El.
  - cbn [mbind option_bind]. cbn. by rewrite El.
  - destruct (store_bytes m buf file); [|done]. cbn [mbind option_bind]. cbn. by rewrite El.
Qed.

(** Loading changes the memory only by stores. *)
Lemma load_ta_mem test params m r m' :
  load_ta PATH_MAX path test e dev params m = Some (r, m') ->
  (wf m -> wf m') /\ map attr (snd r) = map attr params.
Proof.
  assert (forall pre u ta sz m r1 r2 m', try_load_secure_module PATH_MAX e pre dev u ta sz m = Some (r1, r2, m') ->
    wf m -> wf m') as Ht.
  { intros pre u ta sz m0 r1 r2 m1. unfold try_load_secure_module. cbv zeta.
    assert (forall file, read_ta e file ta sz m0 = Some (r1, r2, m1) -> wf m0 -> wf m1) as Hr.
    { intros file. unfold read_ta. cbv zeta. destruct (negb (seek_end_ok e)); [by intros [= <- <- <-]|].
      destruct ta as [v|]; [|by intros [= <- <- <-]]. destruct (sz <? _); [by intros [= <- <- <-]|].
      destruct (negb (seek_set_ok e)); [by intros [= <- <- <-]|].
      destruct (store_bytes m0 v _) as [m2|] eqn:Es; [|done]. cbn [mbind option_bind].
      destruct (negb _); intros [= <- <- <-] W; by eapply store_wf. }
    repeat case_match; try (by intros [= <- <- <-]); eauto. }
  unfold load_ta. destruct params as [|p0 [|p1 []]]; try (by intros [= <- <-]).
  destruct (get_value [p0; p1] 0); [|by intros [= <- <-]]. destruct (get_param m [p0; p1] 1); [|by intros [= <- <-]].
  cbv zeta. destruct (TEECI_LoadSecureModule _ _ _ _ _ _ _ _ _) as [[[r1 r2] m1]|] eqn:El; [|done].
  assert (wf m -> wf m1) as Hm.
  { unfold TEECI_LoadSecureModule in El. destruct test as [tp|]; [|by eapply Ht].
    destruct (try_load_secure_module _ _ tp _ _ _ _ _) as [[[q1 q2] m2]|] eqn:E1; [|done]. cbn [mbind option_bind] in El.
    destruct (negb _); [injection El as <- <- <-; by eapply Ht|]. intros W. eapply Ht; [exact El|]. by eapply Ht. }
  cbn [mbind option_bind]. case_match; [intros [= <- <-]; done|]. case_match; intros [= <- <-]; done.
Qed.

(** The two steps by which the secure world loads an application: a request
    without a buffer is answered with the size of the file; a request with a
    buffer at offset 0 is answered with the file in the buffer when it fits,
    and otherwise with the size that is needed and nothing written. *)
Theorem load_ta_protocol p0 p1 m file :
  wf m -> param_ok p1 -> is_value p0 = true -> stdio_ok e ->
  ta_file PATH_MAX path e dev (uuid_of p0) = Some file ->
  let size' := Z.of_nat (length file) in
  (find_tshm (shm_head m) (s32 (shm_id p1)) = None -> ptype p1 = ATTR_TYPE_MEMREF_OUTPUT ->
   load_ta PATH_MAX path None e dev [p0; p1] m = Some (TEEC_SUCCESS, [p0; set_size size' p1], m)) /\
  (forall a, tee_supp_param_to_va m p1 = Some (a, 0) ->
   if size p1 <? size'
   then load_ta PATH_MAX path None e dev [p0; p1] m = Some (TEEC_ERROR_SHORT_BUFFER, [p0; set_size size' p1], m)
   else exists m', load_ta PATH_MAX path None e dev [p0; p1] m = Some (TEEC_SUCCESS, [p0; set_size size' p1], m') /\
          store_bytes m (a, 0) file = Some m' /\ wf m').
Proof.
  intros W Hp Hv He Hf size'. split.
  - intros Hn Ht. rewrite (load_ta_run _ _ _ (mkRef 0 None) file); try done.
    unfold get_param. cbn [lookup list_lookup mbind option_bind]. unfold is_memref. rewrite Ht, Hn. done.
  - intros a Ha. pose proof (to_va_room _ _ _ W Hp Ha) as R.
    destruct (to_va_spec _ _ _ _ W Hp Ha) as (Hoff & _).
    assert (get_param m [p0; p1] 1 = Some (mkRef (size p1) (Some (a, 0)))) as Hg.
    { unfold tee_supp_param_to_va, tee_supp_param_is_memref in Ha. unfold get_param.
      cbn [lookup list_lookup mbind option_bind]. destruct (is_memref p1); [|done]. cbn [negb] in *.
      rewrite <- Hoff in *. destruct (u64 (size p1 + 0) <? size p1); [done|]. cbn [orb] in Ha.
      destruct (u64 (size p1 + 0) <? 0); [done|]. destruct (find_tshm _ _) as [t|]; [|done].
      cbn [mbind option_bind] in Ha. destruct (ts_size t <? _); [done|]. injection Ha as ->.
      do 2 f_equal. rewrite Z.sub_0_r. destruct Hp as (_ & _ & Hs & _). unfold u64, size. by apply Z.mod_small. }
    rewrite (load_ta_run _ _ _ _ _ Hv Hg He Hf). cbn [r_buffer r_size]. fold size'.
    destruct (Z.ltb_spec (size p1) size'); [done|].
    destruct (room_store m (a, 0) file W) as (m' & E & W' & _).
    { destruct R as (bs & Hb & R0 & R1). exists bs. cbn in *. split_and!; [done|lia|unfold size' in *; lia]. }
    exists m'. rewrite E. done.
Qed.

(** With an offset larger than the size the load overruns the buffer: the
    size that [get_param] reports has wrapped, every file is taken to fit, and
    a file longer than the rest of the object is stored past its end. *)
Theorem load_ta_overruns p0 p1 m file a off bs :
  wf m -> param_ok p1 -> is_value p0 = true -> stdio_ok e ->
  ta_file PATH_MAX path e dev (uuid_of p0) = Some file ->
  tee_supp_param_to_va m p1 = Some (a, off) -> size p1 < off -> off <= 2 ^ 62 -> Z.of_nat (length file) <= 2 ^ 62 ->
  maps m !! a = Some bs -> Z.of_nat (length bs) < off + Z.of_nat (length file) ->
  load_ta PATH_MAX path None e dev [p0; p1] m = None.
Proof.
  intros W Hp Hv He Hf Ha Hlt Ho Hl Hm Hb.
  assert (get_param m [p0; p1] 1 = Some (mkRef (size p1 - off + 2 ^ 64) (Some (a, off)))) as Hg.
  { destruct (get_param_wraps m [p0; p1] 1 p1 a off W) as (-> & _ & H2); try done; [|by rewrite H2].
    unfold tee_supp_param_to_va, tee_supp_param_is_memref in Ha. by destruct (is_memref p1). }
  rewrite (load_ta_run _ _ _ _ _ Hv Hg He Hf). cbn [r_buffer r_size].
  destruct Hp as (_ & _ & Hs & _). rewrite (proj2 (Z.ltb_ge _ _)) by (unfold size; lia).
  cbn [store_bytes]. rewrite Hm. cbn [mbind option_bind].
  rewrite (proj2 (Z.leb_gt (off + Z.of_nat (length file)) _)) by lia. by rewrite andb_false_r.
Qed.
End Protocol.

(** A UUID in the two words of a value parameter. *)
Definition demo_val : tee_ioctl_param := mkParam 1 0xf0debc9a78563412 0x0807060504030201 0.
Definition demo_env (file : list Z) : ta_env :=
  mkEnv {[ ta_fname [47] (Some [116]) demo_uuid true := file ]} true true true None.

Lemma demo_file file : ta_file 4096 [47] (demo_env file) (Some [116]) (uuid_of demo_val) = Some file.
Proof.
  replace (uuid_of demo_val) with demo_uuid by (vm_compute; reflexivity). unfold ta_file.
  rewrite (proj2 (Z.leb_gt 4096 _)) by (vm_compute; reflexivity). unfold demo_env. cbn [ta_files].
  by rewrite lookup_singleton_eq.
Qed.

Lemma load_ta_protocol_witness :
  let m := demo_mem in let p1 := mkParam 6 0 8 4 in let file := [7; 7; 7] in
  (find_tshm (shm_head m) (s32 (shm_id p1)) = None -> ptype p1 = ATTR_TYPE_MEMREF_OUTPUT ->
   load_ta 4096 [47] None (demo_env file) (Some [116]) [demo_val; p1] m
   = Some (TEEC_SUCCESS, [demo_val; set_size 3 p1], m)) /\
  (forall a, tee_supp_param_to_va m p1 = Some (a, 0) ->
   exists m', load_ta 4096 [47] None (demo_env file) (Some [116]) [demo_val; p1] m
     = Some (TEEC_SUCCESS, [demo_val; set_size 3 p1], m') /\ store_bytes m (a, 0) file = Some m' /\ wf m').
Proof.
  exact (load_ta_protocol 4096 [47] (demo_env [7; 7; 7]) (Some [116]) demo_val (mkParam 6 0 8 4) demo_mem [7; 7; 7]
    demo_mem_wf ltac:(repeat split; cbn; lia) eq_refl (conj eq_refl (conj eq_refl (conj eq_refl eq_refl)))
    (demo_file [7; 7; 7])).
Defined.

Lemma load_ta_overruns_witness :
  load_ta 4096 [47] None (demo_env [1; 2; 3; 4; 5]) (Some [116]) [demo_val; mkParam 6 4 3 4] demo_mem = None.
Proof.
  apply (load_ta_overruns 4096 [47] (demo_env [1; 2; 3; 4; 5]) (Some [116]) demo_val (mkParam 6 4 3 4) demo_mem
    [1; 2; 3; 4; 5] 4096 4 [1; 2; 3; 4; 5; 6; 0; 0] demo_mem_wf);
    [repeat split; cbn; lia|reflexivity|by repeat split|apply demo_file|reflexivity|vm_compute; reflexivity
    |vm_compute; discriminate|vm_compute; discriminate|reflexivity|vm_compute; reflexivity].
Defined.

End TaLoad.
