(* ===== verification/Gprof.v ===== *)
(** * Profile data of trusted applications
      (optee_client/tee-supplicant/src/gprof.c)

    The secure world writes profile data through the supplicant: identifier 0
    asks for a new file, the identifier in the reply names it in the following
    requests.  The files of /tmp are a finite map from names to contents; every
    call takes the next [answer] of the kernel. *)

From stdpp Require Import base tactics option list list_numbers numbers gmap fin_maps.
From Stdlib Require Import ZArith Lia.
From S2P Require Import Prelude TeeParam SuppShm TaLoad.
Import TeeParam SuppShm TaLoad.

Local Open Scope Z_scope.
Local Open Scope c_scope.

Module Gprof.

Definition ENOENT : Z := 2.
Definition EINTR : Z := 4.
Definition EEXIST : Z := 17.

Inductive answer := AOk | AErr (e : Z) | AShort (n : nat).

(** The mapped memory, the files, errno and the answers. *)
Record st := mkSt { mem : shm_mem; files : gmap (list Z) (list Z); errno : Z; answers : list answer }.

Definition next (s : st) : answer * st :=
  match answers s with
  | [] => (AOk, s)
  | a :: l => (a, mkSt (mem s) (files s) (errno s) l)
  end.

Definition fail (e : Z) (s : st) : option (Z * st) := Some (-1, mkSt (mem s) (files s) e (answers s)).

(** [open(path, O_APPEND | O_WRONLY)], with [O_CREAT | O_EXCL] when [excl]; the
    error EEXIST is only possible with these. *)
Definition sys_open (path : list Z) (excl : bool) : M st Z := fun s =>
  let '(a, s) := next s in
  match a with
  | AErr e => fail (if negb excl && (e =? EEXIST) then ENOENT else e) s
  | _ =>
      match files s !! path with
      | Some _ => if excl then fail EEXIST s else Some (3, s)
      | None => if excl then Some (3, mkSt (mem s) (<[path := []]> (files s)) (errno s) (answers s))
                else fail ENOENT s
      end
  end.

(** [write] appends. *)
Definition sys_write (path : list Z) (bs : list Z) : M st Z := fun s =>
  let '(a, s) := next s in
  match a with
  | AErr e => fail e s
  | _ =>
      let n := match a with AShort n => Nat.min n (length bs) | _ => length bs end in
      Some (Z.of_nat n, mkSt (mem s) (alter (fun c => c ++ take n bs) path (files s)) (errno s) (answers s))
  end.

Definition get_errno : M st Z := fun s => Some (errno s, s).

(** ** Names *)

(** [%d] of a number below 100. *)
Definition dec2 (n : Z) : list Z := if n <? 10 then [48 + n] else [48 + n / 10; 48 + n mod 10].

Definition vers_of (id : Z) : list Z := if 1 <? id then 46 :: dec2 (id - 1) else [].

(** "/tmp/gmon-" and ".out" *)
Definition tmp_gmon : list Z := [47; 116; 109; 112; 47; 103; 109; 111; 110; 45].
Definition dot_out : list Z := [46; 111; 117; 116].

Definition gmon_path (u : TEEC_UUID) (id : Z) : list Z :=
  tmp_gmon ++ hexn 8 (timeLow u) ++ minus ++ hexn 4 (timeMid u) ++ minus ++ hexn 4 (timeHiAndVersion u) ++ minus ++
  hex_node (clockSeqAndNode u) [] ++ vers_of id ++ dot_out.

(** The [TEEC_UUID] at a pointer, as the little-endian host stores it. *)
Definition load_uuid (m : shm_mem) (a : va) : option TEEC_UUID :=
  bs ← load_bytes m a 16;
  match bs with
  | [a0; a1; a2; a3; b0; b1; c0; c1; d0; d1; d2; d3; d4; d5; d6; d7] =>
      Some (mkUuid (a0 + 256 * (a1 + 256 * (a2 + 256 * a3))) (b0 + 256 * b1) (c0 + 256 * c1)
              [d0; d1; d2; d3; d4; d5; d6; d7])
  | _ => None
  end.

(** ** The request *)

(** [do ... while (st < 0 && errno == EINTR)] *)
Fixpoint write_retry (fuel : nat) (path bs : list Z) : M st Z :=
  match fuel with
  | O => stuck
  | S fuel =>
      r <- sys_write path bs ;;
      e <- get_errno ;;
      if (s32 r <? 0) && (e =? EINTR) then write_retry fuel path bs else ret (s32 r)
  end.

(** [for (;;)]: the identifier of the file that was written, [None] for an error. *)
Fixpoint gprof_loop (fuel : nat) (u : TEEC_UUID) (bs : list Z) (excl : bool) (id : Z) : M st (option Z) :=
  match fuel with
  | O => stuck
  | S fuel =>
      let path := gmon_path u id in
      if 255 <=? Z.of_nat (length path) then ret None else
      fd <- sys_open path excl ;;
      if 0 <=? fd then
        s <- get ;;
        r <- write_retry (S (length (answers s))) path bs ;;
        if (r <? 0) || negb (r =? s32 (Z.of_nat (length bs))) then ret None else ret (Some id)
      else
      e <- get_errno ;;
      if negb (e =? EEXIST) then ret None else
      if id =? 100 then ret None else gprof_loop fuel u bs excl (id + 1)
  end.

Definition gprof_process (params : list tee_ioctl_param) : M st (Z * list tee_ioctl_param) :=
  match params with
  | [p0; p1; p2] =>
      if negb ((ptype p0 =? ATTR_TYPE_VALUE_INOUT) && (ptype p1 =? ATTR_TYPE_MEMREF_INPUT) &&
               (ptype p2 =? ATTR_TYPE_MEMREF_INPUT))
      then ret (TEEC_ERROR_BAD_PARAMETERS, params) else
      let id := s32 (u_a p0) in
      if negb (size p1 =? 16) then ret (TEEC_ERROR_BAD_PARAMETERS, params) else
      s <- get ;;
      match tee_supp_param_to_va (mem s) p1, tee_supp_param_to_va (mem s) p2 with
      | Some u, Some buf =>
          if (id <? 0) || (100 <? id) then ret (TEEC_ERROR_BAD_PARAMETERS, params) else
          let '(excl, id) := if id =? 0 then (true, 1) else (false, id) in
          match load_uuid (mem s) u, load_bytes (mem s) buf (Z.to_nat (size p2)) with
          | Some u, Some bs =>
              r <- gprof_loop 100 u bs excl id ;;
              match r with
              | None => ret (TEEC_ERROR_GENERIC, params)
              | Some id => ret (TEEC_SUCCESS, [set_a id p0; p1; p2])
              end
          | _, _ => stuck
          end
      | _, _ => ret (TEEC_ERROR_BAD_PARAMETERS, params)
      end
  | _ => ret (TEEC_ERROR_BAD_PARAMETERS, params)
  end.

Lemma load_bytes_length m a n bs : load_bytes m a n = Some bs -> length bs = n.
Proof.
  destruct a as [p o]. cbn. destruct (maps m !! p) as [x|]; [|done]. cbn.
  destruct (Z.leb_spec 0 o); [|done]. destruct (Z.leb_spec (o + Z.of_nat n) (Z.of_nat (length x))); [|done].
  cbn [andb]. intros [= <-]. rewrite length_take, length_drop. lia.
Qed.

(** ** What is written *)

(** A run that changes nothing but errno and the answers. *)
Definition quiet (s s' : st) : Prop := mem s' = mem s /\ files s' = files s.

Lemma next_quiet s : quiet s (snd (next s)).
Proof. unfold next. by destruct (answers s). Qed.

(** The file has grown by a prefix of the data, all of it when the call succeeds. *)
Definition grown (path bs : list Z) (r : Z) (s s' : st) : Prop :=
  mem s' = mem s /\ exists n, files s' = alter (fun c => c ++ take n bs) path (files s) /\
    (0 <= r -> r = s32 (Z.of_nat (length bs)) -> take n bs = bs).

Lemma alter_take_0 (path bs : list Z) (m : gmap (list Z) (list Z)) :
  alter (fun c => c ++ take 0 bs) path m = m.
Proof.
  apply map_eq. intros p. destruct (decide (path = p)) as [<-|]; [|by rewrite lookup_alter_ne].
  rewrite lookup_alter_eq, take_0. destruct (m !! path); cbn; [by rewrite app_nil_r|done].
Qed.

Lemma write_retry_grown fuel path bs s : Z.of_nat (length bs) < 2 ^ 31 ->
  wlp (write_retry fuel path bs) (fun r s' => grown path bs r s s') s.
Proof.
  intros Hb. revert s. induction fuel as [|fuel IH]; intros s; [done|]. cbn [write_retry]. apply wlp_bind.
  intros r s1. unfold sys_write. pose proof (next_quiet s) as [Hm Hf]. destruct (next s) as [a s0]. cbn [snd] in *.
  assert (forall n, (n <= length bs)%nat -> Some (Z.of_nat n, mkSt (mem s0) (alter (fun c => c ++ take n bs) path (files s0))
      (errno s0) (answers s0)) = Some (r, s1) ->
    wlp (e <- get_errno ;; if (s32 r <? 0) && (e =? EINTR) then write_retry fuel path bs else ret (s32 r))
      (fun r s' => grown path bs r s s') s1) as Hok.
  { intros n Hn. intros [= <- <-]. apply wlp_bind. intros e s2 [= <- <-].
    rewrite s32_small by (unfold in_int, INT_MIN, INT_MAX; lia). rewrite (proj2 (Z.ltb_ge _ 0)) by lia. cbn [andb].
    apply wlp_ret. split; [done|]. exists n. cbn. rewrite Hf. split; [done|]. intros _.
    rewrite s32_small by (unfold in_int, INT_MIN, INT_MAX; lia). intros E. apply take_ge. lia. }
  destruct a as [|e|n]; [by apply Hok|unfold fail; intros [= <- <-]|apply Hok; lia].
  apply wlp_bind. intros e' s2 [= <- <-]. change (s32 (-1)) with (-1). cbn [errno].
  assert (grown path bs (-1) s (mkSt (mem s0) (files s0) e (answers s0))) as G.
  { split; [done|]. exists 0%nat. cbn. rewrite alter_take_0, Hf. done. }
  wlp_case; [|by apply wlp_ret]. eapply wlp_mono; [apply IH|]. intros r s' [G1 (n & G2 & G3)].
  split; [by rewrite G1|]. exists n. cbn in G2. by rewrite G2, Hf.
Qed.

(** What one request does to the files. *)
Inductive effect (u : TEEC_UUID) (bs : list Z) (id0 : Z) (excl : bool) (m m' : gmap (list Z) (list Z)) : option Z -> Prop :=
| eff_new id : excl = true -> m !! gmon_path u id = None -> m' = <[gmon_path u id := bs]> m ->
    effect u bs id0 excl m m' (Some id)
| eff_append : excl = false -> is_Some (m !! gmon_path u id0) ->
    m' = alter (fun c => c ++ bs) (gmon_path u id0) m -> effect u bs id0 excl m m' (Some id0)
| eff_error : (forall p c, m !! p = Some c -> exists x, m' !! p = Some (c ++ x)) -> effect u bs id0 excl m m' None.

Lemma effect_error_same u bs id excl m : effect u bs id excl m m None.
Proof. constructor. intros p c Hp. exists []. by rewrite app_nil_r. Qed.

(** Opening: nothing but errno changes, or the file is there to append to. *)
Lemma open_cases path excl s : wlp (sys_open path excl) (fun fd s' => mem s' = mem s /\
  (fd = -1 /\ files s' = files s /\ (excl = false -> errno s' <> EEXIST) \/
   fd = 3 /\ if excl then files s !! path = None /\ files s' = <[path := []]> (files s)
             else is_Some (files s !! path) /\ files s' = files s)) s.
Proof.
  intros fd s1. unfold sys_open. pose proof (next_quiet s) as [Hm Hf]. destruct (next s) as [a s0]. cbn [snd] in *.
  rewrite <- Hm, <- Hf. destruct a as [|e|n]; unfold fail;
    try (intros [= <- <-]; cbn; split; [done|]; left; split_and!; [done..|]; intros ->; cbn;
         destruct (Z.eqb_spec e EEXIST); done);
    (destruct (files s0 !! path) as [c|] eqn:Ef, excl; intros [= <- <-]; cbn; (split; [done|]);
      try (by left); right; split; try done; by eauto).
Qed.

Lemma gprof_loop_effect fuel u bs excl id s : Z.of_nat (length bs) < 2 ^ 31 ->
  wlp (gprof_loop fuel u bs excl id)
    (fun r s' => mem s' = mem s /\ effect u bs id excl (files s) (files s') r) s.
Proof.
  intros Hb. revert id s. induction fuel as [|fuel IH]; intros id s; [done|]. cbn [gprof_loop]. cbv zeta.
  wlp_case; [apply wlp_ret; split; [done|apply effect_error_same]|].
  apply wlp_bind. eapply wlp_mono; [apply open_cases|].
  intros fd s1 [Hm [(-> & Hf & He)|(-> & Hf)]].
  - change (0 <=? -1) with false. cbv iota. apply wlp_bind. intros e s2 [= <- <-].
    destruct (Z.eqb_spec (errno s1) EEXIST) as [Ee|]; cbn [negb];
      [|apply wlp_ret; rewrite Hf; split; [done|apply effect_error_same]].
    wlp_case; [apply wlp_ret; rewrite Hf; split; [done|apply effect_error_same]|].
    destruct excl; [|by destruct He].
    eapply wlp_mono; [apply IH|]. rewrite Hm, Hf. intros r s' [E1 E2]. split; [done|].
    destruct E2; [by eapply eff_new|done|by constructor].
  - change (0 <=? 3) with true. cbv iota. apply wlp_bind, wlp_get, wlp_bind.
    eapply wlp_mono; [by apply write_retry_grown|]. intros r s2 (G1 & n & G2 & G3).
    destruct ((r <? 0) || negb (r =? s32 (Z.of_nat (length bs)))) eqn:Er; apply wlp_ret.
    + split; [congruence|]. constructor. intros p c Hp. rewrite G2. destruct excl.
      * destruct Hf as [Hno ->]. assert (p <> gmon_path u id) by (intros ->; congruence). exists [].
        rewrite lookup_alter_ne, lookup_insert_ne by done. by rewrite app_nil_r.
      * destruct Hf as [_ ->]. destruct (decide (gmon_path u id = p)) as [->|].
        -- exists (take n bs). by rewrite lookup_alter_eq, Hp.
        -- exists []. by rewrite lookup_alter_ne, app_nil_r.
    + apply orb_false_iff in Er as [Er1%Z.ltb_ge Er2%negb_false_iff%Z.eqb_eq].
      split; [congruence|]. rewrite (G3 Er1 Er2) in G2. destruct excl.
      * destruct Hf as [Hno Hf]. eapply eff_new; [done|done|]. rewrite G2, Hf, alter_insert_eq. done.
      * destruct Hf as [Hin Hf]. apply eff_append; [done|done|]. by rewrite G2, Hf.
Qed.

Lemma gprof_returns params : returns (fun a => map attr (snd a) = map attr params) (gprof_process params).
Proof. unfold gprof_process. repeat reply_step ltac:(reflexivity). Qed.

(** The shared memory is only read. *)
Lemma gprof_mem params s : wlp (gprof_process params) (fun _ s' => mem s' = mem s) s.
Proof.
  assert (forall fuel path bs s, wlp (write_retry fuel path bs) (fun _ s' => mem s' = mem s) s) as Hw.
  { induction fuel as [|fuel IH]; intros path bs s0; [done|]. cbn [write_retry]. apply wlp_bind.
    intros r s1 E1. assert (mem s1 = mem s0) as <-.
    { unfold sys_write, fail in E1. pose proof (next_quiet s0) as [<- _]. destruct (next s0) as [[] ?];
        by injection E1 as <- <-. }
    apply wlp_bind. intros e s2 [= <- <-]. wlp_case; [apply IH|by apply wlp_ret]. }
  assert (forall fuel u bs excl id s, wlp (gprof_loop fuel u bs excl id) (fun _ s' => mem s' = mem s) s) as Hl.
  { induction fuel as [|fuel IH]; intros u bs excl id s0; [done|]. cbn [gprof_loop]. cbv zeta.
    wlp_case; [by apply wlp_ret|]. apply wlp_bind. eapply wlp_mono; [apply open_cases|]. intros fd s1 [<- _].
    wlp_case.
    - apply wlp_bind, wlp_get, wlp_bind. eapply wlp_mono; [apply Hw|]. intros r s2 <-. wlp_case; by apply wlp_ret.
    - apply wlp_bind. intros e s2 [= <- <-]. wlp_case; [by apply wlp_ret|]. wlp_case; [by apply wlp_ret|]. apply IH. }
  unfold gprof_process. destruct params as [|p0 [|p1 [|p2 []]]]; try (by apply wlp_ret).
  wlp_case; [by apply wlp_ret|]. cbv zeta. wlp_case; [by apply wlp_ret|]. apply wlp_bind, wlp_get.
  wlp_case; [|by apply wlp_ret]. wlp_case; [|by apply wlp_ret]. wlp_case; [by apply wlp_ret|].
  destruct (s32 (u_a p0) =? 0); (wlp_case; [|done]; wlp_case; [|done]; apply wlp_bind;
    (eapply wlp_mono; [apply Hl|]); intros [id|] s2 <-; by apply wlp_ret).
Qed.

(** What a profiling request does to the files: with identifier 0 it
    creates a file that did not exist and writes the whole buffer to it; with
    the identifier of a former reply it appends the whole buffer to that file;
    a request that fails never removes or overwrites anything.  All other files
    are unchanged. *)
Theorem gprof_effect p0 p1 p2 s r params' s' :
  size p2 < 2 ^ 31 -> param_ok p2 -> gprof_process [p0; p1; p2] s = Some ((r, params'), s') ->
  (r = TEEC_SUCCESS -> exists u bs id id0, params' = [set_a id p0; p1; p2] /\
     (exists a, tee_supp_param_to_va (mem s) p1 = Some a /\ load_uuid (mem s) a = Some u) /\
     (exists b, tee_supp_param_to_va (mem s) p2 = Some b /\ load_bytes (mem s) b (Z.to_nat (size p2)) = Some bs) /\
     effect u bs id0 (s32 (u_a p0) =? 0) (files s) (files s') (Some id) /\
     (s32 (u_a p0) <> 0 -> id0 = s32 (u_a p0))) /\
  (r <> TEEC_SUCCESS -> forall p c, files s !! p = Some c -> exists x, files s' !! p = Some (c ++ x)).
Proof.
  intros Hs Hp2. set (P := fun r params' s' =>
  (r = TEEC_SUCCESS -> exists u bs id id0, params' = [set_a id p0; p1; p2] /\
     (exists a, tee_supp_param_to_va (mem s) p1 = Some a /\ load_uuid (mem s) a = Some u) /\
     (exists b, tee_supp_param_to_va (mem s) p2 = Some b /\ load_bytes (mem s) b (Z.to_nat (size p2)) = Some bs) /\
     effect u bs id0 (s32 (u_a p0) =? 0) (files s) (files s') (Some id) /\
     (s32 (u_a p0) <> 0 -> id0 = s32 (u_a p0))) /\
  (r <> TEEC_SUCCESS -> forall p c, files s !! p = Some c -> exists x, files s' !! p = Some (c ++ x))).
  enough (wlp (gprof_process [p0; p1; p2]) (fun a s' => P (fst a) (snd a) s') s) as H by (intros E; exact (H _ _ E)).
  assert (forall ps, P TEEC_ERROR_BAD_PARAMETERS ps s) as Hbad.
  { intros ps. split; [done|]. intros _ p c Hp. exists []. by rewrite app_nil_r. }
  unfold gprof_process. wlp_case; [by apply wlp_ret|]. cbv zeta. wlp_case; [by apply wlp_ret|].
  apply wlp_bind, wlp_get. wlp_case; [|by apply wlp_ret]. wlp_case; [|by apply wlp_ret]. wlp_case; [by apply wlp_ret|].
  destruct (load_uuid (mem s) v) as [u|] eqn:Eu; [|by destruct (s32 (u_a p0) =? 0)].
  destruct (load_bytes (mem s) v0 (Z.to_nat (size p2))) as [bs|] eqn:Ebs; [|by destruct (s32 (u_a p0) =? 0)].
  assert (Z.of_nat (length bs) < 2 ^ 31) as Hb.
  { apply load_bytes_length in Ebs. destruct Hp2 as (_ & _ & H & _). unfold size in *. lia. }
  assert (forall excl id, excl = (s32 (u_a p0) =? 0) -> (excl = false -> id = s32 (u_a p0)) ->
    wlp (r <- gprof_loop 100 u bs excl id ;;
         match r with
         | None => ret (TEEC_ERROR_GENERIC, [p0; p1; p2])
         | Some id => ret (TEEC_SUCCESS, [set_a id p0; p1; p2])
         end) (fun a s' => P (fst a) (snd a) s') s) as Hrun.
  { intros excl id He Hid. apply wlp_bind. eapply wlp_mono; [by apply gprof_loop_effect|].
    intros [id'|] s2 [Hm Hf]; apply wlp_ret; (split; [|done || (intros _; by inversion Hf)]); [|done].
    intros _. exists u, bs, id', id. split; [done|]. split; [by exists v|]. split; [by exists v0|]. rewrite <- He.
    split; [done|]. intros Hn. apply Hid. rewrite He. by apply Z.eqb_neq. }
  destruct (Z.eqb_spec (s32 (u_a p0)) 0); by apply Hrun.
Qed.

Definition demo_st : st :=
  mkSt (mkMem [mkShm 4 4096 20] {[4096 := replicate 16 1 ++ [9; 8; 7; 6]]}) ∅ 0 [AOk; AErr EINTR].

Lemma gprof_effect_witness : exists s',
  gprof_process [mkParam 3 0 0 0; mkParam 5 0 16 4; mkParam 5 16 4 4] demo_st
    = Some ((TEEC_SUCCESS, [mkParam 3 1 0 0; mkParam 5 0 16 4; mkParam 5 16 4 4]), s') /\
  exists u bs id id0, [mkParam 3 1 0 0; mkParam 5 0 16 4; mkParam 5 16 4 4]
      = [set_a id (mkParam 3 0 0 0); mkParam 5 0 16 4; mkParam 5 16 4 4] /\
     (exists a, tee_supp_param_to_va (mem demo_st) (mkParam 5 0 16 4) = Some a /\ load_uuid (mem demo_st) a = Some u) /\
     (exists b, tee_supp_param_to_va (mem demo_st) (mkParam 5 16 4 4) = Some b /\ load_bytes (mem demo_st) b 4 = Some bs) /\
     effect u bs id0 true ∅ (files s') (Some id) /\ (0 <> 0 -> id0 = 0).
Proof.
  eexists. split; [vm_compute; reflexivity|].
  refine (proj1 (gprof_effect (mkParam 3 0 0 0) (mkParam 5 0 16 4) (mkParam 5 16 4 4) demo_st TEEC_SUCCESS _ _
    _ _ eq_refl) eq_refl); [vm_compute; reflexivity|repeat split; cbn; lia].
Defined.

End Gprof.
