(* ===== verification/SuppLoop.v ===== *)
(** * The request loop of tee-supplicant
      (optee_client/tee-supplicant/src/tee_supplicant.c)

    A thread receives a request of the secure world, starts another thread when
    no other one waits, hands the request to its service and sends the reply.
    All services work on the one mapped shared memory; it is kept with the file
    service and handed to the others. *)

From stdpp Require Import base tactics option list list_numbers numbers gmap fin_maps.
From Stdlib Require Import ZArith Lia.
From S2P Require Import Prelude TeeParam SuppShm Posix HandleDb TeeFs TeeSocket Rpmb TaLoad Gprof.
Import TeeParam SuppShm.

Local Open Scope Z_scope.
Local Open Scope c_scope.

Module SuppLoop.

Definition OPTEE_MSG_RPC_CMD_LOAD_TA : Z := 0.
Definition OPTEE_MSG_RPC_CMD_RPMB : Z := 1.
Definition OPTEE_MSG_RPC_CMD_FS : Z := 2.
Definition OPTEE_MSG_RPC_CMD_SHM_ALLOC : Z := 6.
Definition OPTEE_MSG_RPC_CMD_SHM_FREE : Z := 7.
Definition OPTEE_MSG_RPC_CMD_GPROF : Z := 9.
Definition OPTEE_MSG_RPC_CMD_SOCKET : Z := 10.

Definition params_t : Type := list tee_ioctl_param.

(** ** State *)

(** [D] is the RPMB device.  [fs] holds the shared memory; [sk] and [gp] get it
    when they run.  The kernel's side: the requests to come ([None]: the ioctl
    fails), the replies sent, and the answers of [pthread_create], of the
    allocation ioctls, of [munmap] and of the reply ioctl (success or a default
    failure when exhausted). *)
Record sup (D : Type) := mkSup {
  fs : TeeFs.st;
  sk : TeeSocket.st;
  gp : Gprof.st;
  rpmb : bool * D;
  num_waiters : Z;
  inbox : list (option (Z * params_t));
  outbox : list (Z * params_t);
  creates : list bool;
  allocs : list alloc_env;
  unmaps : list bool;
  sends : list bool
}.
Arguments mkSup {D}.
Arguments fs {D}. Arguments sk {D}. Arguments gp {D}. Arguments rpmb {D}. Arguments num_waiters {D}.
Arguments inbox {D}. Arguments outbox {D}. Arguments creates {D}. Arguments allocs {D}. Arguments unmaps {D}.
Arguments sends {D}.

Section Loop.
Context {D : Type} `{!Rpmb.RpmbDev D}.
(** Build settings: asserts, PATH_MAX, where applications are, [ta_dir]. *)
Context (NDEBUG : bool) (PATH_MAX : Z) (load_path : list Z) (test_path : option (list Z)).
Context (ta_dir : option (list Z)) (ta_env : TaLoad.ta_env).

Definition memory (s : sup D) : shm_mem := TeeFs.mem (fs s).

Definition set_fs (x : TeeFs.st) (s : sup D) : sup D :=
  mkSup x (sk s) (gp s) (rpmb s) (num_waiters s) (inbox s) (outbox s) (creates s) (allocs s) (unmaps s) (sends s).
Definition set_memory (m : shm_mem) (s : sup D) : sup D := set_fs (TeeFs.set_mem m (fs s)) s.
Definition set_sk (x : TeeSocket.st) (s : sup D) : sup D :=
  mkSup (fs s) x (gp s) (rpmb s) (num_waiters s) (inbox s) (outbox s) (creates s) (allocs s) (unmaps s) (sends s).
Definition set_gp (x : Gprof.st) (s : sup D) : sup D :=
  mkSup (fs s) (sk s) x (rpmb s) (num_waiters s) (inbox s) (outbox s) (creates s) (allocs s) (unmaps s) (sends s).
Definition set_rpmb (x : bool * D) (s : sup D) : sup D :=
  mkSup (fs s) (sk s) (gp s) x (num_waiters s) (inbox s) (outbox s) (creates s) (allocs s) (unmaps s) (sends s).
Definition set_waiters (n : Z) (s : sup D) : sup D :=
  mkSup (fs s) (sk s) (gp s) (rpmb s) n (inbox s) (outbox s) (creates s) (allocs s) (unmaps s) (sends s).

(** ** The number of waiting threads *)

Definition assert_ (b : bool) : M (sup D) unit := if b || NDEBUG then ret tt else stuck.

Definition num_waiters_inc : M (sup D) Z :=
  s <- get ;;
  let n := u64 (num_waiters s + 1) in
  modify (set_waiters n) ;;;
  assert_ (negb (n =? 0)) ;;;
  ret n.

Definition num_waiters_dec : M (sup D) Z :=
  s <- get ;;
  assert_ (negb (num_waiters s =? 0)) ;;;
  let n := u64 (num_waiters s - 1) in
  modify (set_waiters n) ;;;
  ret n.

(** ** Services on the shared memory *)

Definition run_fs {A} (m : M TeeFs.st A) : M (sup D) A := fun s =>
  '(r, x) ← m (fs s); Some (r, set_fs x s).

Definition run_sock {A} (m : M TeeSocket.st A) : M (sup D) A := fun s =>
  '(r, x) ← m (TeeSocket.set_mem (memory s) (sk s));
  Some (r, set_sk x (set_memory (TeeSocket.mem x) s)).

Definition run_gprof {A} (m : M Gprof.st A) : M (sup D) A := fun s =>
  '(r, x) ← m (Gprof.mkSt (memory s) (Gprof.files (gp s)) (Gprof.errno (gp s)) (Gprof.answers (gp s)));
  Some (r, set_gp x (set_memory (Gprof.mem x) s)).

Definition run_load_ta (params : params_t) : M (sup D) (Z * params_t) := fun s =>
  '(r, m) ← TaLoad.load_ta PATH_MAX load_path test_path ta_env ta_dir params (memory s);
  Some (r, set_memory m s).

(** The answers of the kernel to one allocation and one [munmap]. *)
Definition run_alloc (params : params_t) : M (sup D) (Z * params_t) := fun s =>
  let e := default (mkAEnv true (fun _ => None) (fun _ => None)) (head (allocs s)) in
  let '(r, m) := process_alloc (memory s) e params in
  Some (r, set_memory m (mkSup (fs s) (sk s) (gp s) (rpmb s) (num_waiters s) (inbox s) (outbox s) (creates s)
             (tail (allocs s)) (unmaps s) (sends s))).

Definition run_free (params : params_t) : M (sup D) (Z * params_t) := fun s =>
  let '(r, m) := process_free (memory s) (default true (head (unmaps s))) params in
  Some ((r, params), set_memory m (mkSup (fs s) (sk s) (gp s) (rpmb s) (num_waiters s) (inbox s) (outbox s)
             (creates s) (allocs s) (tail (unmaps s)) (sends s))).

(** The buffer behind a [TEEC_SharedMemory]; without one its size is 0. *)
Definition ref_bytes (m : shm_mem) (r : shm_ref) : option (list Z) :=
  match r_buffer r with
  | Some a => load_bytes m a (Z.to_nat (r_size r))
  | None => Some []
  end.

Definition ref_store (m : shm_mem) (r : shm_ref) (bs : list Z) : option shm_mem :=
  match r_buffer r with Some a => store_bytes m a bs | None => Some m end.

Definition process_rpmb (params : params_t) : M (sup D) (Z * params_t) := fun s =>
  match get_param (memory s) params 0, get_param (memory s) params 1 with
  | Some req, Some rsp =>
      req_bs ← ref_bytes (memory s) req;
      rsp_bs ← ref_bytes (memory s) rsp;
      '(res, req_bs, rsp_bs, d) ← Rpmb.rpmb_process_request (rpmb s) req_bs rsp_bs;
      m ← ref_store (memory s) req req_bs;
      m ← ref_store m rsp rsp_bs;
      Some ((res, params), set_rpmb d (set_memory m s))
  | _, _ => Some ((TEEC_ERROR_BAD_PARAMETERS, params), s)
  end.

(** ** One request *)

(** [None]: the ioctl fails. *)
Definition read_request : M (sup D) (option (Z * params_t)) := fun s =>
  Some (default None (head (inbox s)),
        mkSup (fs s) (sk s) (gp s) (rpmb s) (num_waiters s) (tail (inbox s)) (outbox s) (creates s) (allocs s)
          (unmaps s) (sends s)).

Definition write_response (ret_ : Z) (params : params_t) : M (sup D) bool := fun s =>
  let ok := default true (head (sends s)) in
  Some (ok, mkSup (fs s) (sk s) (gp s) (rpmb s) (num_waiters s) (inbox s)
              (if ok : bool then outbox s ++ [(ret_, params)] else outbox s) (creates s) (allocs s) (unmaps s)
              (tail (sends s))).

Definition is_meta (p : tee_ioctl_param) : bool := negb (Z.land (attr p) ATTR_META =? 0).

(** The meta parameters in front and the others. *)
Fixpoint skip_meta (p : params_t) : params_t * params_t :=
  match p with
  | [] => ([], [])
  | x :: p' => if is_meta x then let '(a, b) := skip_meta p' in (x :: a, b) else ([], p)
  end.

(** [None]: a meta parameter follows a non-meta parameter. *)
Definition find_params (p : params_t) : option (params_t * params_t) :=
  let '(meta, params) := skip_meta p in
  if existsb is_meta params then None else Some (meta, params).

Definition pthread_create : M (sup D) bool := fun s =>
  Some (default true (head (creates s)),
        mkSup (fs s) (sk s) (gp s) (rpmb s) (num_waiters s) (inbox s) (outbox s) (tail (creates s)) (allocs s)
          (unmaps s) (sends s)).

Definition spawn_thread : M (sup D) bool :=
  num_waiters_inc ;;;
  ok <- pthread_create ;;
  if negb ok then num_waiters_dec ;;; ret false else ret true.

(** The [switch (func)]. *)
Definition dispatch (func : Z) (params : params_t) : M (sup D) (Z * params_t) :=
  if func =? OPTEE_MSG_RPC_CMD_LOAD_TA then run_load_ta params
  else if func =? OPTEE_MSG_RPC_CMD_FS then run_fs (TeeFs.tee_supp_fs_process params)
  else if func =? OPTEE_MSG_RPC_CMD_RPMB then process_rpmb params
  else if func =? OPTEE_MSG_RPC_CMD_SHM_ALLOC then run_alloc params
  else if func =? OPTEE_MSG_RPC_CMD_SHM_FREE then run_free params
  else if func =? OPTEE_MSG_RPC_CMD_GPROF then run_gprof (Gprof.gprof_process params)
  else if func =? OPTEE_MSG_RPC_CMD_SOCKET then run_sock (TeeSocket.tee_socket_process NDEBUG params)
  else ret (TEEC_ERROR_NOT_SUPPORTED, params).

(** [if (num_meta && !num_waiters_dec(arg) && !spawn_thread(arg)) return false;] *)
Definition keep_a_waiter (num_meta : nat) : M (sup D) bool :=
  if (num_meta =? 0)%nat then ret true else
  n <- num_waiters_dec ;;
  if n =? 0 then spawn_thread else ret true.

Definition process_one_request : M (sup D) bool :=
  num_waiters_inc ;;;
  request <- read_request ;;
  match request with
  | None => ret false
  | Some (func, all) =>
      match find_params all with
      | None => ret false
      | Some (meta, params) =>
          ok <- keep_a_waiter (length meta) ;;
          if negb ok then ret false else
          r <- dispatch func params ;;
          let '(res, params) := r in
          write_response res (meta ++ params)
      end
  end.

(** [while (!arg->abort)] of one thread, for at most [fuel] requests. *)
Fixpoint thread_loop (fuel : nat) : M (sup D) unit :=
  match fuel with
  | O => ret tt
  | S fuel =>
      ok <- process_one_request ;;
      if negb ok then ret tt else thread_loop fuel
  end.

Definition thread_main (fuel : nat) : M (sup D) unit :=
  num_waiters_dec ;;;
  thread_loop fuel.

End Loop.

(** ** The device *)

Section Device.
(** [open], the version ioctl with [impl_id], and the number of devices tried. *)
Context (sys_open : list Z -> option Z) (version : Z -> option Z).
Definition TEE_IMPL_ID_OPTEE : Z := 1.
Definition MAX_DEV_SEQ : nat := 10.

(** The descriptor, and whether [ta_dir] is set ("optee_armtz"). *)
Definition open_dev (devname : list Z) : Z * bool :=
  match sys_open devname with
  | None => (-1, false)
  | Some fd =>
      match version fd with
      | None => (-1, false)
      | Some impl_id => if negb (impl_id =? TEE_IMPL_ID_OPTEE) then (-1, false) else (fd, true)
      end
  end.

(** "/dev/teepriv" and a digit. *)
Definition teepriv (n : nat) : list Z :=
  [47; 100; 101; 118; 47; 116; 101; 101; 112; 114; 105; 118] ++ [48 + Z.of_nat n].

Fixpoint dev_loop (k n : nat) : Z :=
  match k with
  | O => -1
  | S k => let '(fd, _) := open_dev (teepriv n) in if 0 <=? fd then fd else dev_loop k (S n)
  end.

Definition get_dev_fd : Z := dev_loop MAX_DEV_SEQ 0.
End Device.

End SuppLoop.
