(* ===== verification/SuppThm.v ===== *)
(** * Properties of the request loop of tee-supplicant
      (optee_client/tee-supplicant/src/tee_supplicant.c)

    The services composed: one request keeps the invariants of all of them and
    is answered with one reply of the same shape.  The threads: however they
    interleave, one is always on its way to wait for the next request. *)

From stdpp Require Import base tactics option list list_numbers numbers gmap fin_maps relations.
From Stdlib Require Import ZArith Lia.
From S2P Require Import Prelude TeeParam SuppShm Posix HandleDb TeeFs TeeFsThm TeeSocket TeeSocketThm Rpmb TaLoad Gprof SuppLoop.
Import TeeParam SuppShm SuppLoop.

Local Open Scope Z_scope.
Local Open Scope c_scope.

Module SuppThm.

Section Loop.
Context {D : Type} {HD : Rpmb.RpmbDev D}.
Context (NDEBUG : bool) (PATH_MAX : Z) (load_path : list Z) (test_path : option (list Z)).
Context (ta_dir : option (list Z)) (ta_env : TaLoad.ta_env).

Notation dispatch := (dispatch NDEBUG PATH_MAX load_path test_path ta_dir ta_env).
Notation process_one_request := (process_one_request NDEBUG PATH_MAX load_path test_path ta_dir ta_env).

(** ** The invariant *)

Definition sock_view (s : sup D) : TeeSocket.st := TeeSocket.set_mem (memory s) (sk s).

(** The invariants of the services, on the one shared memory. *)
Definition sup_inv (s : sup D) : Prop := TeeFs.inv (fs s) /\ TeeSocketThm.inv (sock_view s).

Lemma inv_memory s : sup_inv s -> SuppShm.wf (memory s).
Proof. intros [I _]. apply I. Qed.

Lemma set_memory_inv m s : SuppShm.wf m -> sup_inv s -> sup_inv (set_memory m s).
Proof. intros W [[I1 I2 I3] [I4 I5]]. split; [by split|by split]. Qed.

(** Parts of the state that the invariant does not mention. *)
Lemma inv_ext s s' : fs s' = fs s -> sk s' = sk s -> sup_inv s -> sup_inv s'.
Proof. intros E1 E2. unfold sup_inv, sock_view, memory. by rewrite E1, E2. Qed.

(** What is assumed of a request: the 64-bit fields are in range, a file name
    ends inside its object, the handle tables are small, and a new object of the
    driver is new. *)
Record request_ok (s : sup D) (func : Z) (params : params_t) : Prop := {
  rq_params : Forall param_ok params;
  rq_names : func = OPTEE_MSG_RPC_CMD_FS -> TeeFsThm.by_name params -> TeeFs.names_ok (fs s) params;
  rq_dirs : TeeFs.db_small (fs s);
  rq_socks : TeeSocketThm.dbs_small (sk s);
  rq_alloc : forall e, e ∈ allocs s -> env_ok (memory s) e
}.

Lemma default_env_ok m : env_ok m (mkAEnv true (fun _ => None) (fun _ => None)).
Proof. done. Qed.

Lemma rpmb_inv params s : sup_inv s -> wlp (process_rpmb params) (fun _ => sup_inv) s.
Proof.
  intros I a s'. unfold process_rpmb.
  destruct (get_param (memory s) params 0) as [req|]; [|by intros [= <- <-]].
  destruct (get_param (memory s) params 1) as [rsp|]; [|by intros [= <- <-]].
  destruct (ref_bytes (memory s) req); [|done]. cbn [mbind option_bind].
  destruct (ref_bytes (memory s) rsp); [|done]. cbn [mbind option_bind].
  destruct (Rpmb.rpmb_process_request _ _ _) as [[[[res q] p] d]|]; [|done]. cbn [mbind option_bind].
  assert (forall r m bs m', ref_store m r bs = Some m' -> SuppShm.wf m -> SuppShm.wf m') as Hst.
  { intros r m bs m'. unfold ref_store. destruct (r_buffer r); [|by intros [= <-]]. intros E W. by eapply store_wf. }
  destruct (ref_store (memory s) req q) as [m1|] eqn:E1; [|done]. cbn [mbind option_bind].
  destruct (ref_store m1 rsp p) as [m2|] eqn:E2; [|done]. cbn [mbind option_bind]. intros [= <- <-].
  eapply inv_ext; [..|apply (set_memory_inv m2 s)]; [done|done| |done].
  eapply Hst; [exact E2|]. eapply Hst; [exact E1|by apply inv_memory].
Qed.

Lemma dispatch_inv func params s : sup_inv s -> request_ok s func params ->
  wlp (dispatch func params) (fun _ => sup_inv) s.
Proof.
  intros I R. pose proof (inv_memory _ I) as W. destruct R as [R1 R2 R3 R4 R5]. unfold SuppLoop.dispatch.
  destruct (Z.eqb_spec func OPTEE_MSG_RPC_CMD_LOAD_TA).
  { intros a s'. unfold run_load_ta. destruct (TaLoad.load_ta _ _ _ _ _ _ _) as [[r m]|] eqn:E; [|done].
    cbn. intros [= <- <-]. apply TaLoad.load_ta_mem in E as [Hm _]. apply set_memory_inv; [by apply Hm|done]. }
  destruct (Z.eqb_spec func OPTEE_MSG_RPC_CMD_FS).
  { intros a s'. unfold run_fs. pose proof (TeeFsThm.fs_process_wp params (fs s) (proj1 I) R3 R1 (R2 e)) as Wp.
    apply wp_run in Wp as (r & x & -> & Ix). cbn. intros [= <- <-]. destruct I as [_ [_ T]].
    split; [done|]. split; [apply Ix|done]. }
  destruct (Z.eqb_spec func OPTEE_MSG_RPC_CMD_RPMB); [by apply rpmb_inv|].
  destruct (Z.eqb_spec func OPTEE_MSG_RPC_CMD_SHM_ALLOC).
  { intros a s'. unfold run_alloc. destruct (process_alloc _ _ params) as [[r ps] m] eqn:E. intros [= <- <-].
    apply process_alloc_spec in E as [W' _]; [|done|].
    - eapply inv_ext; [..|by apply (set_memory_inv m s)]; done.
    - destruct (allocs s) as [|x l] eqn:Ea; [apply default_env_ok|]. apply R5. left. }
  destruct (Z.eqb_spec func OPTEE_MSG_RPC_CMD_SHM_FREE).
  { intros a s'. unfold run_free. destruct (process_free _ _ params) as [r m] eqn:E. intros [= <- <-].
    apply process_free_spec in E as [W' _]; [|done]. eapply inv_ext; [..|by apply (set_memory_inv m s)]; done. }
  destruct (Z.eqb_spec func OPTEE_MSG_RPC_CMD_GPROF).
  { intros a s'. unfold run_gprof. destruct (Gprof.gprof_process _ _) as [[r x]|] eqn:E; [|done]. cbn. intros [= <- <-].
    apply Gprof.gprof_mem in E. cbn in E. eapply inv_ext; [..|apply (set_memory_inv (Gprof.mem x) s)]; try done.
    by rewrite E. }
  destruct (Z.eqb_spec func OPTEE_MSG_RPC_CMD_SOCKET); [|by apply wlp_ret].
  intros a s'. unfold run_sock. destruct (TeeSocket.tee_socket_process _ _ _) as [[r x]|] eqn:E; [|done]. cbn.
  intros [= <- <-]. apply TeeSocketThm.socket_process_keeps in E as [W' T]; [|apply I|done].
  destruct I as [[F1 F2 F3] _]. split; [by split|by split].
Qed.

(** The steps around the dispatch leave the services alone. *)
Definition same_services (s s' : sup D) : Prop :=
  fs s' = fs s /\ sk s' = sk s /\ gp s' = gp s /\ rpmb s' = rpmb s /\ outbox s' = outbox s /\
  allocs s' = allocs s /\ unmaps s' = unmaps s /\ sends s' = sends s.

Lemma inc_same s : wlp (num_waiters_inc NDEBUG) (fun _ s' => same_services s s' /\ inbox s' = inbox s) s.
Proof.
  unfold num_waiters_inc. apply wlp_bind, wlp_get, wlp_bind. intros [] s1 [= <-]. apply wlp_bind.
  intros [] s2. unfold assert_. destruct (_ || _); [|done]. intros [= <-]. by apply wlp_ret.
Qed.

Lemma dec_same s : wlp (num_waiters_dec NDEBUG) (fun _ s' => same_services s s' /\ inbox s' = inbox s) s.
Proof.
  unfold num_waiters_dec. apply wlp_bind, wlp_get, wlp_bind. intros [] s1.
  unfold assert_. destruct (_ || _); [|done]. intros [= <-]. apply wlp_bind. intros [] s2 [= <-]. by apply wlp_ret.
Qed.

Lemma same_services_trans s1 s2 s3 : same_services s1 s2 -> same_services s2 s3 -> same_services s1 s3.
Proof. unfold same_services. intuition congruence. Qed.

Lemma keep_same n s : wlp (keep_a_waiter NDEBUG n) (fun _ s' => same_services s s') s.
Proof.
  unfold keep_a_waiter. wlp_case; [by apply wlp_ret|]. apply wlp_bind. eapply wlp_mono; [apply dec_same|].
  intros r s1 [K1 _]. wlp_case; [|by apply wlp_ret]. unfold spawn_thread. apply wlp_bind.
  eapply wlp_mono; [apply inc_same|]. intros q s2 [K2 _]. apply wlp_bind. intros ok s3 [= <- <-].
  assert (same_services s (mkSup (fs s2) (sk s2) (gp s2) (rpmb s2) (num_waiters s2) (inbox s2) (outbox s2)
    (tail (creates s2)) (allocs s2) (unmaps s2) (sends s2))) as K3.
  { eapply same_services_trans; [exact K1|]. eapply same_services_trans; [exact K2|]. done. }
  wlp_case; [|by apply wlp_ret]. apply wlp_bind. eapply wlp_mono; [apply dec_same|]. intros x s4 [K4 _].
  apply wlp_ret. by eapply same_services_trans.
Qed.

(** A run of [process_one_request], taken apart. *)
Lemma process_one_request_run s (Q : bool -> sup D -> Prop) :
  (forall s', same_services s s' -> Q false s') ->
  (forall func all meta params s1, head (inbox s) = Some (Some (func, all)) -> find_params all = Some (meta, params) ->
     same_services s s1 ->
     wlp (r <- dispatch func params ;; let '(res, params) := r in write_response res (meta ++ params)) Q s1) ->
  wlp process_one_request Q s.
Proof.
  intros Hno Hyes. unfold SuppLoop.process_one_request. apply wlp_bind. eapply wlp_mono; [apply inc_same|].
  intros n s1 [K1 Hi]. apply wlp_bind. intros req s2 [= <- <-]. rewrite Hi.
  assert (same_services s (mkSup (fs s1) (sk s1) (gp s1) (rpmb s1) (num_waiters s1) (tail (inbox s)) (outbox s1)
    (creates s1) (allocs s1) (unmaps s1) (sends s1))) as K2 by done.
  destruct (head (inbox s)) as [[[func all]|]|] eqn:Eh; cbn [default id]; [|by apply wlp_ret, Hno..].
  destruct (find_params all) as [[meta params]|] eqn:Ef; [|by apply wlp_ret, Hno].
  apply wlp_bind. eapply wlp_mono; [apply keep_same|]. intros ok s3 K3.
  assert (same_services s s3) as K by (by eapply same_services_trans).
  wlp_case; [by apply wlp_ret, Hno|]. by eapply Hyes.
Qed.

(** C4: a request to the supplicant, whatever service it is for, leaves the
    shared memory, the files, the directory handles and the sockets consistent:
    the invariant of every service holds again on the one shared memory. *)
Theorem request_keeps_invariant s b s' :
  sup_inv s ->
  (forall func all meta params, head (inbox s) = Some (Some (func, all)) ->
     find_params all = Some (meta, params) -> request_ok s func params) ->
  process_one_request s = Some (b, s') -> sup_inv s'.
Proof.
  intros I R. enough (wlp process_one_request (fun _ => sup_inv) s) as H by apply H.
  apply process_one_request_run.
  - intros s1 (E1 & E2 & _). by eapply inv_ext.
  - intros func all meta params s1 Hh Hf (E1 & E2 & _ & _ & _ & E6 & _).
    assert (sup_inv s1) as I1 by (by eapply inv_ext).
    assert (request_ok s1 func params) as R1.
    { destruct (R _ _ _ _ Hh Hf) as [R1 R2 R3 R4 R5]. unfold memory in *. split; rewrite ?E1, ?E2, ?E6; try done.
      unfold memory. by rewrite E1. }
    apply wlp_bind. eapply wlp_mono; [by apply dispatch_inv|]. intros [res ps] s2 I2.
    intros ok s3 [= <- <-]. by eapply inv_ext.
Qed.

Lemma find_params_spec all meta params : find_params all = Some (meta, params) ->
  all = meta ++ params /\ Forall (fun p => is_meta p = true) meta /\ Forall (fun p => is_meta p = false) params.
Proof.
  unfold find_params. destruct (skip_meta all) as [a b] eqn:E. destruct (existsb is_meta b) eqn:Eb; [done|].
  intros [= <- <-].
  assert (all = a ++ b /\ Forall (fun p => is_meta p = true) a) as [H1 H2].
  { clear Eb. revert a b E. induction all as [|x all IH]; cbn; intros a b; [by intros [= <- <-]|].
    destruct (is_meta x) eqn:Ex; [|by intros [= <- <-]]. destruct (skip_meta all) as [a1 b1]. intros [= <- <-].
    destruct (IH a1 b1 eq_refl) as [-> ?]. split; [done|by constructor]. }
  split_and!; [done..|]. rewrite Forall_forall. intros x Hx. destruct (is_meta x) eqn:Ex; [|done].
  assert (existsb is_meta b = true); [|congruence]. apply existsb_exists. exists x. by rewrite <- list_elem_of_In.
Qed.

(** Every service keeps the number and the types of the parameters. *)
Lemma dispatch_returns func params : returns (fun a => map attr (snd a) = map attr params /\
  (func ∉ [OPTEE_MSG_RPC_CMD_LOAD_TA; OPTEE_MSG_RPC_CMD_RPMB; OPTEE_MSG_RPC_CMD_FS; OPTEE_MSG_RPC_CMD_SHM_ALLOC;
           OPTEE_MSG_RPC_CMD_SHM_FREE; OPTEE_MSG_RPC_CMD_GPROF; OPTEE_MSG_RPC_CMD_SOCKET] ->
   fst a = TEEC_ERROR_NOT_SUPPORTED /\ snd a = params)) (dispatch func params).
Proof.
  intros s a s'. unfold SuppLoop.dispatch.
  destruct (Z.eqb_spec func OPTEE_MSG_RPC_CMD_LOAD_TA) as [->|N1].
  { unfold run_load_ta. destruct (TaLoad.load_ta _ _ _ _ _ _ _) as [[r m]|] eqn:E; [|done].
    cbn. intros [= <- <-]. apply TaLoad.load_ta_mem in E as [_ Hm]. split; [done|]. intros H. destruct H. TeeFsThm.in_list. }
  destruct (Z.eqb_spec func OPTEE_MSG_RPC_CMD_FS) as [->|N2].
  { unfold run_fs. destruct (TeeFs.tee_supp_fs_process params (fs s)) as [[r x]|] eqn:E; [|done]. cbn.
    intros [= <- <-]. apply TeeFsThm.fs_returns in E as (_ & Hm & _). split; [done|]. intros H. destruct H. TeeFsThm.in_list. }
  destruct (Z.eqb_spec func OPTEE_MSG_RPC_CMD_RPMB) as [->|N3].
  { intros E. split; [|intros H; destruct H; TeeFsThm.in_list]. unfold process_rpmb in E.
    destruct (get_param (memory s) params 0); [|by injection E as <- <-].
    destruct (get_param (memory s) params 1); [|by injection E as <- <-].
    apply bind_Some in E as (rb & _ & E). apply bind_Some in E as (sb & _ & E).
    apply bind_Some in E as ([[[res q] p] d] & _ & E). apply bind_Some in E as (m1 & _ & E).
    apply bind_Some in E as (m2 & _ & E). by injection E as <- <-. }
  destruct (Z.eqb_spec func OPTEE_MSG_RPC_CMD_SHM_ALLOC) as [->|N4].
  { unfold run_alloc. destruct (process_alloc _ _ params) as [[r ps] m] eqn:E. intros [= <- <-].
    split; [|intros H; destruct H; TeeFsThm.in_list]. cbn [snd]. unfold process_alloc in E.
    destruct params as [|x [|]]; try (by injection E as <- <- <-).
    destruct (get_value [x] 0) as [v|] eqn:Ev; [|by injection E as <- <- <-].
    apply get_value_single in Ev as [[= ->] _]; [|done].
    repeat (case_match; try (by injection E as <- <- <-)). }
  destruct (Z.eqb_spec func OPTEE_MSG_RPC_CMD_SHM_FREE) as [->|N5].
  { unfold run_free. destruct (process_free _ _ params) as [r m] eqn:E. intros [= <- <-].
    split; [done|intros H; destruct H; TeeFsThm.in_list]. }
  destruct (Z.eqb_spec func OPTEE_MSG_RPC_CMD_GPROF) as [->|N6].
  { unfold run_gprof. destruct (Gprof.gprof_process _ _) as [[r x]|] eqn:E; [|done]. cbn. intros [= <- <-].
    apply Gprof.gprof_returns in E. split; [done|intros H; destruct H; TeeFsThm.in_list]. }
  destruct (Z.eqb_spec func OPTEE_MSG_RPC_CMD_SOCKET) as [->|N7]; [|by intros [= <- <-]].
  unfold run_sock. destruct (TeeSocket.tee_socket_process _ _ _) as [[r x]|] eqn:E; [|done]. cbn. intros [= <- <-].
  apply TeeSocketThm.socket_returns in E. split; [done|intros H; destruct H; TeeFsThm.in_list].
Qed.

Lemma dispatch_outbox func params s a s' :
  dispatch func params s = Some (a, s') -> outbox s' = outbox s /\ num_waiters s' = num_waiters s.
Proof.
  unfold SuppLoop.dispatch. destruct (func =? OPTEE_MSG_RPC_CMD_LOAD_TA).
  { by intros ([r m] & _ & [= <- <-])%bind_Some. }
  destruct (func =? OPTEE_MSG_RPC_CMD_FS); [by intros ([r m] & _ & [= <- <-])%bind_Some|].
  destruct (func =? OPTEE_MSG_RPC_CMD_RPMB).
  { unfold process_rpmb. destruct (get_param _ _ _); [|by intros [= <- <-]]. destruct (get_param _ _ _); [|by intros [= <- <-]].
    by intros (? & _ & (? & _ & ([[[? ?] ?] ?] & _ & (? & _ & (? & _ & [= <- <-])%bind_Some)%bind_Some)%bind_Some)%bind_Some)%bind_Some. }
  destruct (func =? OPTEE_MSG_RPC_CMD_SHM_ALLOC).
  { unfold run_alloc. destruct (process_alloc _ _ _). by intros [= <- <-]. }
  destruct (func =? OPTEE_MSG_RPC_CMD_SHM_FREE).
  { unfold run_free. destruct (process_free _ _ _). by intros [= <- <-]. }
  destruct (func =? OPTEE_MSG_RPC_CMD_GPROF); [by intros ([r m] & _ & [= <- <-])%bind_Some|].
  destruct (func =? OPTEE_MSG_RPC_CMD_SOCKET); [by intros ([r m] & _ & [= <- <-])%bind_Some|]. by intros [= <- <-].
Qed.

(** C39: a request that the loop answers gets exactly one reply, which has the
    meta parameters in front unchanged and the same number and types of
    parameters as the request; a request for no service is refused with
    TEEC_ERROR_NOT_SUPPORTED. *)
Theorem request_gets_one_reply s s' :
  process_one_request s = Some (true, s') ->
  exists func meta params res params',
    head (inbox s) = Some (Some (func, meta ++ params)) /\ Forall (fun p => is_meta p = true) meta /\
    outbox s' = outbox s ++ [(res, meta ++ params')] /\ map attr params' = map attr params /\
    (func ∉ [OPTEE_MSG_RPC_CMD_LOAD_TA; OPTEE_MSG_RPC_CMD_RPMB; OPTEE_MSG_RPC_CMD_FS; OPTEE_MSG_RPC_CMD_SHM_ALLOC;
             OPTEE_MSG_RPC_CMD_SHM_FREE; OPTEE_MSG_RPC_CMD_GPROF; OPTEE_MSG_RPC_CMD_SOCKET] ->
     res = TEEC_ERROR_NOT_SUPPORTED /\ params' = params).
Proof.
  set (P := fun s' : sup D => exists func meta params res params',
    head (inbox s) = Some (Some (func, meta ++ params)) /\ Forall (fun p => is_meta p = true) meta /\
    outbox s' = outbox s ++ [(res, meta ++ params')] /\ map attr params' = map attr params /\
    (func ∉ [OPTEE_MSG_RPC_CMD_LOAD_TA; OPTEE_MSG_RPC_CMD_RPMB; OPTEE_MSG_RPC_CMD_FS; OPTEE_MSG_RPC_CMD_SHM_ALLOC;
             OPTEE_MSG_RPC_CMD_SHM_FREE; OPTEE_MSG_RPC_CMD_GPROF; OPTEE_MSG_RPC_CMD_SOCKET] ->
     res = TEEC_ERROR_NOT_SUPPORTED /\ params' = params)).
  enough (wlp process_one_request (fun b s' => b = true -> P s') s) as H by (intros E; by apply (H _ _ E)).
  apply process_one_request_run; [done|]. intros func all meta params s1 Hh Hf (_ & _ & _ & _ & Eo & _).
  apply find_params_spec in Hf as (-> & Hmeta & _). apply wlp_bind.
  intros [res ps] s2 Ed. pose proof (dispatch_outbox _ _ _ _ _ Ed) as [E2 _].
  pose proof (dispatch_returns func params _ _ _ Ed) as [Ha Hn]. intros ok s3 [= -> <-] Hok.
  exists func, meta, params, res, ps. rewrite Hok. cbn [outbox]. split_and!; try done. by rewrite E2, Eo.
Qed.

End Loop.

#[local] Existing Instance Rpmb.emu_dev.

(** A supplicant with an open file, an open socket and a request to free the
    shared memory object 4. *)
Definition demo_sup : sup Rpmb.emu_world :=
  mkSup (TeeFsThm.demo_st []) (TeeSocketThm.demo_st []) Gprof.demo_st
    (false, Rpmb.mkWorld 0 Rpmb.rpmb_emu_init) 0
    [Some (OPTEE_MSG_RPC_CMD_SHM_FREE, [mkParam 0x100 0 0 0; mkParam 1 0 4 0])] [] [] [] [] [].

Lemma demo_sup_inv : sup_inv demo_sup.
Proof. split; [apply TeeFsThm.fs_demo_inv|]. exact (TeeSocketThm.demo_inv []). Qed.

Lemma demo_run : exists s', process_one_request true 4096 [] None None (TaLoad.demo_env []) demo_sup = Some (true, s').
Proof.
  assert (match process_one_request true 4096 [] None None (TaLoad.demo_env []) demo_sup with Some (b, _) => b | None => false end = true) as H by (vm_compute; reflexivity).
  destruct (process_one_request true 4096 [] None None (TaLoad.demo_env []) demo_sup) as [[[] s']|]; [by exists s'|done..].
Qed.

Lemma request_keeps_invariant_witness : exists s',
  process_one_request true 4096 [] None None (TaLoad.demo_env []) demo_sup = Some (true, s') /\ sup_inv s'.
Proof.
  destruct demo_run as [s' E]. exists s'. split; [exact E|].
  refine (request_keeps_invariant true 4096 [] None None (TaLoad.demo_env []) demo_sup true _ demo_sup_inv _ E).
  intros func all meta params [= <- <-] [= <- <-]. split.
  - repeat constructor; vm_compute; intuition discriminate.
  - discriminate.
  - intros d [= <-]. vm_compute. discriminate.
  - repeat constructor. vm_compute. discriminate.
  - intros x Hx. by apply not_elem_of_nil in Hx.
Defined.

Lemma request_gets_one_reply_witness : exists s',
  process_one_request true 4096 [] None None (TaLoad.demo_env []) demo_sup = Some (true, s') /\
  exists func meta params res params',
    head (inbox demo_sup) = Some (Some (func, meta ++ params)) /\ Forall (fun p => is_meta p = true) meta /\
    outbox s' = outbox demo_sup ++ [(res, meta ++ params')] /\ map attr params' = map attr params /\
    (func ∉ [OPTEE_MSG_RPC_CMD_LOAD_TA; OPTEE_MSG_RPC_CMD_RPMB; OPTEE_MSG_RPC_CMD_FS; OPTEE_MSG_RPC_CMD_SHM_ALLOC;
             OPTEE_MSG_RPC_CMD_SHM_FREE; OPTEE_MSG_RPC_CMD_GPROF; OPTEE_MSG_RPC_CMD_SOCKET] ->
     res = TEEC_ERROR_NOT_SUPPORTED /\ params' = params).
Proof.
  destruct demo_run as [s' E]. exists s'. split; [exact E|].
  exact (request_gets_one_reply true 4096 [] None None (TaLoad.demo_env []) demo_sup _ E).
Defined.

(** ** The threads

    Each thread runs [thread_main]; the counter and the abort flag are shared.
    Every step is one critical section of the mutex or one system call. *)

(** Where a thread is.  [Looping]: at the test of [abort]; [Waiting]: in the
    ioctl that receives; [Received]: before [num_waiters_dec]; [MustSpawn]: the
    counter was 0, before [num_waiters_inc] of [spawn_thread]; [Spawning]: before
    [pthread_create]; [SpawnFailed]: before its [num_waiters_dec]; [Serving]: in
    the service or the reply; [Starting]: created, before its first
    [num_waiters_dec]; [Failing]: [process_one_request] has returned false. *)
Inductive phase :=
| Looping | Waiting | Received | MustSpawn | Spawning | SpawnFailed | Serving | Starting | Failing | Exited.

Record cfg := mkCfg { threads : list phase; waiters : nat; abort : bool }.

Section Threads.
(** Whether the driver sends meta parameters ([num_meta != 0]). *)
Context (meta : bool).

Inductive step : cfg -> cfg -> Prop :=
| s_quit i l n : l !! i = Some Looping -> step (mkCfg l n true) (mkCfg (<[i := Exited]> l) n true)
| s_wait i l n : l !! i = Some Looping ->
    step (mkCfg l n false) (mkCfg (<[i := Waiting]> l) (n + 1) false)
| s_receive i l n a : l !! i = Some Waiting ->
    step (mkCfg l n a) (mkCfg (<[i := if meta then Received else Serving]> l) n a)
| s_receive_fail i l n a : l !! i = Some Waiting -> step (mkCfg l n a) (mkCfg (<[i := Failing]> l) n a)
| s_dec i l n a : l !! i = Some Received -> n <> 0%nat ->
    step (mkCfg l n a) (mkCfg (<[i := if (n - 1 =? 0)%nat then MustSpawn else Serving]> l) (n - 1) a)
| s_spawn_inc i l n a : l !! i = Some MustSpawn -> step (mkCfg l n a) (mkCfg (<[i := Spawning]> l) (n + 1) a)
| s_create i l n a : l !! i = Some Spawning ->
    step (mkCfg l n a) (mkCfg (<[i := Serving]> l ++ [Starting]) n a)
| s_create_fail i l n a : l !! i = Some Spawning -> step (mkCfg l n a) (mkCfg (<[i := SpawnFailed]> l) n a)
| s_spawn_dec i l n a : l !! i = Some SpawnFailed -> n <> 0%nat ->
    step (mkCfg l n a) (mkCfg (<[i := Failing]> l) (n - 1) a)
| s_reply i l n a : l !! i = Some Serving -> step (mkCfg l n a) (mkCfg (<[i := Looping]> l) n a)
| s_reply_fail i l n a : l !! i = Some Serving -> step (mkCfg l n a) (mkCfg (<[i := Failing]> l) n a)
| s_start i l n a : l !! i = Some Starting -> n <> 0%nat ->
    step (mkCfg l n a) (mkCfg (<[i := Looping]> l) (n - 1) a)
| s_abort i l n a : l !! i = Some Failing -> step (mkCfg l n a) (mkCfg (<[i := Exited]> l) n true).

(** [main] runs the loop with no one waiting. *)
Definition init : cfg := mkCfg [Looping] 0 false.

Definition reachable (c : cfg) : Prop := rtc step init c.
End Threads.

(** The threads that the counter counts.  A failing thread that has received
    nothing stays counted; the supplicant is ending then. *)
Definition counted (p : phase) : bool :=
  match p with Waiting | Received | Spawning | SpawnFailed | Starting => true | _ => false end.

Definition count (l : list phase) : nat := length (List.filter counted l).

Lemma count_insert l i x y : l !! i = Some x ->
  (count (<[i := y]> l) + (if counted x then 1 else 0) = count l + (if counted y then 1 else 0))%nat.
Proof.
  revert i. induction l as [|z l IH]; intros [|i] H; try done.
  - injection H as ->. change (<[0%nat := y]> (x :: l)) with (y :: l). unfold count. cbn.
    destruct (counted x), (counted y); cbn; lia.
  - apply IH in H. change (<[S i := y]> (z :: l)) with (z :: <[i := y]> l). unfold count in *. cbn [List.filter].
    destruct (counted z); cbn [length]; lia.
Qed.

Lemma count_app l k : count (l ++ k) = (count l + count k)%nat.
Proof. unfold count. by rewrite List.filter_app, length_app. Qed.

Lemma count_pos l : (0 < count l)%nat -> exists i p, l !! i = Some p /\ counted p = true.
Proof.
  induction l as [|x l IH]; unfold count; cbn; [lia|]. destruct (counted x) eqn:Ex; cbn.
  - intros _. by exists 0%nat, x.
  - intros (i & p & H)%IH. by exists (S i), p.
Qed.

(** The threads that are not busy with a service and have not failed: they hold
    no request ([free]), or they do and have not started to serve it. *)
Definition available (p : phase) : Prop := p <> Serving /\ p <> Failing /\ p <> Exited.

Definition thread_inv (c : cfg) : Prop :=
  (count (threads c) <= waiters c)%nat /\
  (abort c = true \/ (Failing ∈ threads c) \/
   waiters c = count (threads c) /\ exists i p, threads c !! i = Some p /\ available p).

(** Changing one thread keeps the others. *)
Lemma available_insert (l : list phase) i y : (i < length l)%nat -> available y ->
  exists j p, <[i := y]> l !! j = Some p /\ available p.
Proof. intros Hi Hy. exists i, y. by rewrite list_lookup_insert_eq. Qed.

Lemma counted_available p : counted p = true -> available p.
Proof. by destruct p. Qed.

Lemma counted_thread l i p : l !! i = Some p -> counted p = true -> (0 < count l)%nat.
Proof.
  intros Hi Hp. pose proof (count_insert l i p Looping Hi) as H. rewrite Hp in H. cbn in H. lia.
Qed.

Lemma failing_insert (l : list phase) i y : Failing ∈ l -> l !! i <> Some Failing -> Failing ∈ <[i := y]> l.
Proof.
  intros [j Hj]%list_elem_of_lookup Hi. apply list_elem_of_lookup. exists j. rewrite list_lookup_insert_ne; [done|congruence].
Qed.

Ltac thread_step :=
  match goal with H : ?l !! ?i = Some ?x |- context [<[?i := ?y]> ?l] =>
    pose proof (count_insert l i x y H); pose proof (lookup_lt_Some _ _ _ H)
  end.

Lemma thread_inv_step c c' : step true c c' -> thread_inv c -> thread_inv c'.
Proof.
  assert (forall (l : list phase) i y n a (P : Prop), (i < length l)%nat -> l !! i <> Some Failing ->
    (a = true \/ Failing ∈ l \/ P) ->
    (P -> a = true \/ Failing ∈ <[i := y]> l \/ n = count (<[i := y]> l) /\
       exists j p, <[i := y]> l !! j = Some p /\ available p) ->
    a = true \/ Failing ∈ <[i := y]> l \/ n = count (<[i := y]> l) /\
       exists j p, <[i := y]> l !! j = Some p /\ available p) as Hkeep.
  { intros l i y n a P Hi Hf [Ha|[HF|HP]] HQ; [by left|right; left; by apply failing_insert|by apply HQ]. }
  intros Hs [Hc Hi]. unfold thread_inv.
  destruct Hs; cbn [threads waiters abort] in *; try thread_step; cbn [counted] in *;
    try (split; [lia|]; first [by left | eapply Hkeep; [done|congruence|exact Hi|]; intros [E _]; right; right;
      split; [lia|by apply available_insert]]; fail).
  - split; [lia|]. right. left. apply list_elem_of_lookup. exists i. by apply list_lookup_insert_eq.
  - destruct (Nat.eqb_spec (n - 1) 0); cbn [counted] in *; (split; [lia|]);
      (eapply Hkeep; [done|congruence|exact Hi|]); intros [E _]; right; right; (split; [lia|]);
      [by apply available_insert|].
    destruct (count_pos (<[i := Serving]> l)) as (j & p & Hp & Hcp); [lia|]. exists j, p.
    split; [done|by apply counted_available].
  - rewrite count_app. change (count [Starting]) with 1%nat. split; [lia|].
    destruct Hi as [Ha|[HF|[E _]]]; [by left|right; left; apply elem_of_app; left; apply failing_insert; [done|congruence]|].
    right. right. split; [lia|]. exists (length (<[i := Serving]> l)), Starting.
    split; [by apply list_lookup_middle|done].
  - split; [lia|]. right. left. apply list_elem_of_lookup. exists i. by apply list_lookup_insert_eq.
  - split; [lia|]. right. left. apply list_elem_of_lookup. exists i. by apply list_lookup_insert_eq.
Qed.

Lemma reachable_thread_inv c : reachable true c -> thread_inv c.
Proof.
  intros Hr. refine (rtc_ind_r (fun x => thread_inv x) init _ _ c Hr).
  - split; [done|]. right. right. split; [done|]. exists 0%nat, Looping. done.
  - intros x y _ Hs Hx. by eapply thread_inv_step.
Qed.

(** A thread without a request: in the ioctl, or on its way to it. *)
Definition free (p : phase) : bool := match p with Looping | Waiting | Starting => true | _ => false end.

(** A thread between the receipt of a request and the start of its service. *)
Definition in_transit (p : phase) : bool :=
  match p with Received | MustSpawn | Spawning | SpawnFailed => true | _ => false end.

(** A step in which no thread receives a request and none ends its service. *)
Definition quiet (c c' : cfg) : Prop :=
  step true c c' /\ forall j p, threads c !! j = Some p -> p = Serving \/ p = Waiting -> threads c' !! j = Some p.

Lemma quiet_insert l n i x y n' new : l !! i = Some x -> x <> Serving -> x <> Waiting ->
  step true (mkCfg l n false) (mkCfg (<[i := y]> l ++ new) n' false) ->
  quiet (mkCfg l n false) (mkCfg (<[i := y]> l ++ new) n' false).
Proof.
  intros Hx N1 N2 Hs. split; [done|]. cbn. intros j p Hj Hp.
  rewrite lookup_app_l by (rewrite length_insert; by eapply lookup_lt_Some).
  rewrite list_lookup_insert_ne; [done|]. intros ->. rewrite Hj in Hx. injection Hx as ->. by destruct Hp.
Qed.

Definition waits (c : cfg) : Prop := exists c', rtc quiet c c' /\ Waiting ∈ threads c'.

Lemma waits_now l n i : l !! i = Some Waiting -> waits (mkCfg l n false).
Proof. intros H. exists (mkCfg l n false). split; [apply rtc_refl|]. by eapply list_elem_of_lookup_2. Qed.

(** One quiet step of thread [i]. *)
Lemma waits_step l n i x y n' new : l !! i = Some x -> x <> Serving -> x <> Waiting ->
  step true (mkCfg l n false) (mkCfg (<[i := y]> l ++ new) n' false) ->
  waits (mkCfg (<[i := y]> l ++ new) n' false) -> waits (mkCfg l n false).
Proof.
  intros Hx N1 N2 Hs (c' & H & Hw). exists c'. split; [|done]. eapply rtc_l; [|exact H]. by eapply quiet_insert.
Qed.

Lemma waits_looping l n i : l !! i = Some Looping -> waits (mkCfg l n false).
Proof.
  intros H. pose proof (lookup_lt_Some _ _ _ H) as Hi.
  eapply (waits_step l n i Looping Waiting (n + 1) []); rewrite ?app_nil_r; try done; [by apply s_wait|].
  apply (waits_now _ _ i). by apply list_lookup_insert_eq.
Qed.

Lemma waits_starting l n i : l !! i = Some Starting -> n <> 0%nat -> waits (mkCfg l n false).
Proof.
  intros H Hn. pose proof (lookup_lt_Some _ _ _ H) as Hi.
  eapply (waits_step l n i Starting Looping (n - 1) []); rewrite ?app_nil_r; try done; [by apply s_start|].
  apply (waits_looping _ _ i). by apply list_lookup_insert_eq.
Qed.

Lemma waits_spawning l n i : l !! i = Some Spawning -> n <> 0%nat -> waits (mkCfg l n false).
Proof.
  intros H Hn.
  eapply (waits_step l n i Spawning Serving n [Starting]); try done; [by apply s_create|].
  apply (waits_starting _ _ (length (<[i := Serving]> l))); [by apply list_lookup_middle|done].
Qed.

Lemma waits_must_spawn l n i : l !! i = Some MustSpawn -> waits (mkCfg l n false).
Proof.
  intros H. pose proof (lookup_lt_Some _ _ _ H) as Hi.
  eapply (waits_step l n i MustSpawn Spawning (n + 1) []); rewrite ?app_nil_r; try done; [by apply s_spawn_inc|].
  apply (waits_spawning _ _ i); [by apply list_lookup_insert_eq|lia].
Qed.

Definition received (p : phase) : bool := match p with Received => true | _ => false end.

(** A request that is received is passed to its service or leads to a new
    thread: in the first case another thread is counted. *)
Lemma waits_from_inv k : forall l n, length (List.filter received l) = k ->
  SpawnFailed ∉ l -> n = count l -> (exists i p, l !! i = Some p /\ available p) -> waits (mkCfg l n false).
Proof.
  induction k as [|k IH]; intros l n Hk Hf -> (i & p & Hi & N1 & N2 & N3);
    (destruct p; try done; [by eapply waits_looping|by eapply waits_now| |by eapply waits_must_spawn|
      eapply waits_spawning; [done|]; pose proof (counted_thread _ _ _ Hi eq_refl); lia|
      destruct Hf; by eapply list_elem_of_lookup_2|
      eapply waits_starting; [done|]; pose proof (counted_thread _ _ _ Hi eq_refl); lia]);
    pose proof (counted_thread _ _ _ Hi eq_refl) as Hc; pose proof (lookup_lt_Some _ _ _ Hi) as Hl.
  { apply list_elem_of_split_length in Hi as (l1 & l2 & -> & _).
    rewrite List.filter_app, length_app in Hk. cbn in Hk. lia. }
  eapply (waits_step l _ i Received (if (count l - 1 =? 0)%nat then MustSpawn else Serving) (count l - 1) []);
    rewrite ?app_nil_r; try done; [apply s_dec; [done|lia]|].
  destruct (Nat.eqb_spec (count l - 1) 0) as [E|E].
  { apply (waits_must_spawn _ _ i). by apply list_lookup_insert_eq. }
  pose proof (count_insert l i Received Serving Hi) as Hci. cbn in Hci. apply IH.
  - apply list_elem_of_split_length in Hi as (l1 & l2 & -> & ->).
    rewrite insert_middle. rewrite List.filter_app, length_app in *. cbn in *. lia.
  - intros [j Hj]%list_elem_of_lookup. destruct (decide (i = j)) as [->|Hne].
    + by rewrite list_lookup_insert_eq in Hj.
    + rewrite list_lookup_insert_ne in Hj by done. destruct Hf. by eapply list_elem_of_lookup_2.
  - lia.
  - destruct (count_pos (<[i := Serving]> l)) as (j & p & Hp & Hcp); [lia|]. exists j, p.
    split; [done|by apply counted_available].
Qed.



(** With a driver that sends no meta parameters no thread is ever started:
    requests are served one after the other. *)
Theorem no_meta_single_thread c : reachable false c -> length (threads c) = 1%nat.
Proof.
  intros Hr. enough (length (threads c) = 1%nat /\ Forall (fun p => p ∉ [Received; MustSpawn; Spawning]) (threads c)) by tauto.
  refine (rtc_ind_r (fun c => length (threads c) = 1%nat /\
    Forall (fun p => p ∉ [Received; MustSpawn; Spawning]) (threads c)) init _ _ c Hr).
  - split; [done|]. constructor; [|constructor]. set_solver.
  - intros x y _ Hs [Hl Hf].
    assert (forall i p, threads x !! i = Some p -> p ∉ [Received; MustSpawn; Spawning]) as Hno.
    { intros i p Hp. by eapply Forall_lookup in Hf. }
    destruct Hs; cbn [threads] in *; try (exfalso; eapply Hno; [eassumption|set_solver]; fail);
      rewrite length_insert; (split; [done|]); apply Forall_insert; try done; set_solver.
Qed.

(** *** The loop of a thread takes these steps *)

Section Simulation.
Context {D : Type} `{!Rpmb.RpmbDev D}.
Context (NDEBUG : bool) (PATH_MAX : Z) (load_path : list Z) (test_path : option (list Z)).
Context (ta_dir : option (list Z)) (ta_env : TaLoad.ta_env).

(** The counter of a configuration. *)
Definition counts (n : nat) (s : sup D) : Prop := num_waiters s = Z.of_nat n.

Lemma inc_wlp n (Q : Z -> sup D -> Prop) s : counts n s -> Z.of_nat n < 2 ^ 64 - 1 ->
  Q (Z.of_nat (n + 1)) (set_waiters (Z.of_nat (n + 1)) s) -> wlp (num_waiters_inc NDEBUG) Q s.
Proof.
  intros Hn Hb HQ. unfold num_waiters_inc. apply wlp_bind, wlp_get. cbv zeta.
  replace (u64 (num_waiters s + 1)) with (Z.of_nat (n + 1)) by (rewrite Hn; unfold u64; rewrite Z.mod_small; lia).
  apply wlp_bind. intros [] s1 [= <-].
  apply wlp_bind. unfold assert_. rewrite (proj2 (Z.eqb_neq _ _)) by lia. cbn [negb orb]. apply wlp_ret, wlp_ret.
  by apply HQ.
Qed.

Lemma dec_wlp n (Q : Z -> sup D -> Prop) s : counts (S n) s -> Z.of_nat n < 2 ^ 64 - 1 ->
  Q (Z.of_nat n) (set_waiters (Z.of_nat n) s) -> wlp (num_waiters_dec NDEBUG) Q s.
Proof.
  intros Hn Hb HQ. unfold num_waiters_dec. apply wlp_bind, wlp_get. cbv zeta.
  replace (u64 (num_waiters s - 1)) with (Z.of_nat n) by (rewrite Hn; unfold u64; rewrite Z.mod_small; lia).
  apply wlp_bind. unfold assert_. rewrite Hn. rewrite (proj2 (Z.eqb_neq _ _)) by lia. cbn [negb orb]. apply wlp_ret, wlp_bind.
  intros [] s1 [= <-]. by apply wlp_ret.
Qed.

Section Thread.
(** Thread [i] of [l]. *)
Context (l : list phase) (i : nat) (Hi : (i < length l)%nat) (mflag : bool).

Definition thread_at (p : phase) (new : list phase) (n : nat) : cfg := mkCfg (<[i := p]> l ++ new) n false.

Lemma at_lookup p new : (<[i := p]> l ++ new) !! i = Some p.
Proof. rewrite lookup_app_l by (by rewrite length_insert). by apply list_lookup_insert_eq. Qed.

Lemma at_insert p q new : <[i := q]> (<[i := p]> l ++ new) = <[i := q]> l ++ new.
Proof. rewrite insert_app_l by (by rewrite length_insert). by rewrite list_insert_insert_eq. Qed.

(** One step of the thread, by the rule [H]. *)
Lemma thread_one p q new n n' : step mflag (thread_at p new n) (mkCfg (<[i := q]> (<[i := p]> l ++ new)) n' false) ->
  rtc (step mflag) (thread_at p new n) (thread_at q new n').
Proof. rewrite at_insert. apply rtc_once. Qed.

Lemma spawn_wlp n s (Q : bool -> sup D -> Prop) : counts n s -> Z.of_nat n < 2 ^ 64 - 1 ->
  (forall b s' n' new, counts n' s' -> (n' <= S n)%nat ->
     rtc (step mflag) (thread_at MustSpawn [] n) (thread_at (if b : bool then Serving else Failing) new n') ->
     new = [] \/ new = [Starting] -> Q b s') ->
  wlp (spawn_thread NDEBUG) Q s.
Proof.
  intros Hn Hb HQ. unfold spawn_thread. apply wlp_bind, (inc_wlp n); [done..|]. apply wlp_bind.
  assert (rtc (step mflag) (thread_at MustSpawn [] n) (thread_at Spawning [] (n + 1))) as R1
    by (apply thread_one, s_spawn_inc, at_lookup).
  intros ok s1 [= <- <-]. destruct (default true (head (creates s))) eqn:Ec; cbn [negb].
  - apply wlp_ret. eapply (HQ true _ (n + 1)%nat [Starting]); [done|lia| |by right]. eapply rtc_r; [exact R1|].
    pose proof (s_create mflag i (<[i := Spawning]> l ++ []) (n + 1) false (at_lookup _ _)) as K.
    rewrite at_insert, app_nil_r in K. unfold thread_at. by rewrite app_nil_r in *.
  - apply wlp_bind, (dec_wlp n); [by rewrite <- Nat.add_1_r|done|]. apply wlp_ret.
    eapply (HQ false _ n []); [done|lia| |by left].
    etrans; [exact R1|]. etrans; [apply (thread_one _ SpawnFailed), s_create_fail, at_lookup|].
    replace n with (n + 1 - 1)%nat at 2 by lia. apply thread_one, s_spawn_dec; [apply at_lookup|lia].
Qed.

Lemma keep_wlp n k s (Q : bool -> sup D -> Prop) : counts (S n) s -> Z.of_nat n < 2 ^ 64 - 1 -> (k <> 0%nat <-> mflag = true) ->
  (forall b s' n' new, counts n' s' -> (n' <= S n)%nat ->
     rtc (step mflag) (thread_at (if mflag then Received else Serving) [] (S n))
       (thread_at (if b : bool then Serving else Failing) new n') ->
     new = [] \/ new = [Starting] -> Q b s') ->
  wlp (keep_a_waiter NDEBUG k) Q s.
Proof.
  intros Hn Hb Hk HQ. unfold keep_a_waiter. destruct (Nat.eqb_spec k 0) as [->|Hk0].
  { apply wlp_ret. eapply (HQ true _ (S n) []); [done|lia| |by left].
    destruct mflag; [by destruct (proj2 Hk eq_refl)|done]. }
  assert ((if mflag then Received else Serving) = Received) as Em by (by rewrite (proj1 Hk Hk0)).
  rewrite Em in HQ. apply wlp_bind, (dec_wlp n); [done..|].
  pose proof (s_dec mflag i (<[i := Received]> l ++ []) (S n) false (at_lookup _ _) ltac:(lia)) as R1.
  cbn [Nat.sub] in R1. rewrite Nat.sub_0_r in R1.
  destruct (Z.eqb_spec (Z.of_nat n) 0) as [Hn0|Hn0].
  - destruct n; [|lia]. apply (spawn_wlp 0); [done..|]. intros b s' n' new H1 H2 H3 H4.
    apply (HQ b s' n' new); [done..| |done]. etrans; [|exact H3]. apply thread_one. exact R1.
  - apply wlp_ret. apply (HQ true _ n []); [done|lia| |by left]. rewrite (proj2 (Nat.eqb_neq _ _)) in R1 by lia.
    apply thread_one. exact R1.
Qed.
End Thread.

(** C13: a turn of the request loop as one thread runs it takes steps of the
    thread machine, from the test of the abort flag back to it, or to its end
    when the turn fails; the other threads stay where they are, at most one
    thread is started, and [num_waiters] is the counter of the machine.  What
    is proved of all interleavings of the machine so holds of the threads that
    run this code. *)
Theorem request_refines_steps l i n meta s b s' :
  l !! i = Some Looping -> counts n s -> Z.of_nat n + 2 < 2 ^ 64 ->
  (forall func all front params, head (inbox s) = Some (Some (func, all)) ->
     find_params all = Some (front, params) -> (front <> [] <-> meta = true)) ->
  process_one_request NDEBUG PATH_MAX load_path test_path ta_dir ta_env s = Some (b, s') ->
  exists n' new, rtc (step meta) (mkCfg l n false)
      (mkCfg (<[i := if b then Looping else Failing]> l ++ new) n' false) /\
    counts n' s' /\ (new = [] \/ new = [Starting]).
Proof.
  intros Hl Hn Hb Hmeta. pose proof (lookup_lt_Some _ _ _ Hl) as Hi.
  enough (wlp (process_one_request NDEBUG PATH_MAX load_path test_path ta_dir ta_env) (fun b s' =>
    exists n' new, rtc (step meta) (mkCfg l n false)
      (thread_at l i (if b then Looping else Failing) new n') /\ counts n' s' /\ (new = [] \/ new = [Starting])) s) as W
    by apply W.
  assert (rtc (step meta) (mkCfg l n false) (thread_at l i Waiting [] (S n))) as R1.
  { unfold thread_at. rewrite app_nil_r, <- Nat.add_1_r. by apply rtc_once, s_wait. }
  unfold process_one_request. apply wlp_bind, (inc_wlp n); [done|lia|]. apply wlp_bind. intros req s1 [= <- <-].
  rewrite Nat.add_1_r. cbn [inbox set_waiters].
  assert (rtc (step meta) (mkCfg l n false) (thread_at l i Failing [] (S n))) as Rf.
  { etrans; [exact R1|]. apply thread_one; [done|]. apply s_receive_fail. by apply at_lookup. }
  destruct (head (inbox s)) as [[[func all]|]|] eqn:Eh; cbn [default id].
  2, 3: apply wlp_ret; exists (S n), []; split_and!; [done|done|by left].
  destruct (find_params all) as [[front params]|] eqn:Ef.
  2: apply wlp_ret; exists (S n), []; split_and!; [done|done|by left].
  apply wlp_bind. eapply (keep_wlp l i Hi meta n); [done|lia| |].
  { rewrite <- (Hmeta _ _ _ _ eq_refl Ef). by destruct front. }
  intros ok s2 n' new H1 H2 R2 Hnew.
  assert (rtc (step meta) (mkCfg l n false) (thread_at l i (if ok then Serving else Failing) new n')) as R3.
  { etrans; [exact R1|]. etrans; [|exact R2]. apply thread_one; [done|]. by apply s_receive, at_lookup. }
  destruct ok; cbn [negb]; [|apply wlp_ret; by exists n', new]. apply wlp_bind. intros [res ps] s3 Ed.
  apply dispatch_outbox in Ed as [_ Ew]. intros ok s4 [= -> <-]. exists n', new.
  split; [|split; [exact (eq_trans Ew H1)|done]]. etrans; [exact R3|].
  destruct ok; (apply thread_one; [done|]); [apply s_reply|apply s_reply_fail]; by apply at_lookup.
Qed.
End Simulation.

Lemma request_refines_steps_witness : exists s' n' new,
  process_one_request true 4096 [] None None (TaLoad.demo_env []) demo_sup = Some (true, s') /\
  rtc (step true) init (mkCfg ([Looping] ++ new) n' false) /\ counts n' s' /\ (new = [] \/ new = [Starting]).
Proof.
  destruct demo_run as [s' E]. exists s'.
  destruct (request_refines_steps true 4096 [] None None (TaLoad.demo_env []) [Looping] 0 0 true demo_sup true s' eq_refl
              eq_refl ltac:(done)) as (n' & new & H); [|exact E|].
  - intros func all front params [= <- <-] [= <- <-]. done.
  - exists n', new. split; [exact E|exact H].
Defined.

Lemma no_meta_single_thread_witness : length (threads (mkCfg [Serving] 1 false)) = 1%nat.
Proof.
  apply no_meta_single_thread.
  eapply rtc_l; [apply (s_wait _ 0); reflexivity|]. eapply rtc_l; [apply (s_receive _ 0); reflexivity|].
  apply rtc_refl.
Defined.

End SuppThm.
