(* ===== verification/Teec.v ===== *)
(** * The client library (optee_client/libteec/src/tee_client_api.c)

    A client describes the parameters of a command in a [TEEC_Operation]; the
    library turns them into parameters of the TEE device: temporary references
    are copied through shared memory that lives for one call, registered memory
    is copied through a shadow buffer.  The memory of the client is a finite map
    from base addresses to bytes; the secure world is the parameter [tee].
    [None] is undefined behaviour (an access outside a buffer, a union read as
    the wrong member). *)

From stdpp Require Import base tactics option list list_numbers numbers gmap fin_maps sets.
From Stdlib Require Import ZArith Lia.
From S2P Require Import Prelude TeeParam SuppShm.
Import TeeParam SuppShm.

Local Open Scope Z_scope.
Local Open Scope c_scope.

Module Teec.

(** ** Constants *)

Definition TEEC_NONE : Z := 0.
Definition TEEC_VALUE_INPUT : Z := 1.
Definition TEEC_VALUE_OUTPUT : Z := 2.
Definition TEEC_VALUE_INOUT : Z := 3.
Definition TEEC_MEMREF_TEMP_INPUT : Z := 5.
Definition TEEC_MEMREF_TEMP_OUTPUT : Z := 6.
Definition TEEC_MEMREF_TEMP_INOUT : Z := 7.
Definition TEEC_MEMREF_WHOLE : Z := 12.
Definition TEEC_MEMREF_PARTIAL_INPUT : Z := 13.
Definition TEEC_MEMREF_PARTIAL_OUTPUT : Z := 14.
Definition TEEC_MEMREF_PARTIAL_INOUT : Z := 15.

Definition TEEC_MEM_INPUT : Z := 1.
Definition TEEC_MEM_OUTPUT : Z := 2.

Definition TEEC_ORIGIN_API : Z := 1.
Definition TEEC_ORIGIN_COMMS : Z := 2.

Definition ENOMEM : Z := 12.

(** ** Data *)

Abbreviation memory := (gmap Z (list Z)).

(** [None] is NULL. *)
Definition ptr : Type := option va.

Record TEEC_SharedMemory := mkShared {
  sm_buffer : ptr;
  sm_size : Z;
  sm_flags : Z;
  sm_id : Z;
  sm_alloced_size : Z;
  sm_shadow_buffer : ptr;
  sm_registered_fd : Z
}.

(** [memset] to 0. *)
Definition zero_shm : TEEC_SharedMemory := mkShared None 0 0 0 0 None 0.
Definition zero_param : tee_ioctl_param := mkParam 0 0 0 0.

(** The members of the union [TEEC_Parameter]; a registered reference names the
    [TEEC_SharedMemory] of its parent. *)
Inductive TEEC_Parameter :=
| PTmpref (buffer : ptr) (size : Z)
| PMemref (parent : nat) (size offset : Z)
| PValue (a b : Z).

(** [TEEC_Operation]: the types and the four parameters. *)
Record TEEC_Operation := mkOp { paramTypes : Z; op_params : list TEEC_Parameter }.

Definition TEEC_PARAM_TYPE_GET (p : Z) (i : nat) : Z := Z.land (Z.shiftr p (Z.of_nat i * 4)) 0xF.

(** The answer of the driver to an allocation: the identifier, and the base
    address of the mapping when [mmap] works. *)
Definition alloc_answer : Type := option (Z * option Z).

(** The memory of the client, its registered shared memory, the registered
    descriptors closed so far and the answers to come (failure when exhausted).
    The descriptor of an allocation is closed right after [mmap] and is not kept. *)
Record st := mkSt {
  mem : memory;
  shared : gmap nat TEEC_SharedMemory;
  closed : list Z;
  allocs : list alloc_answer
}.

Definition set_mem (m : memory) (s : st) : st := mkSt m (shared s) (closed s) (allocs s).

(** ** Memory accesses *)

Definition load (m : memory) (a : va) (n : nat) : option (list Z) := load_bytes (mkMem [] m) a n.
Definition store (m : memory) (a : va) (bs : list Z) : option memory :=
  m' ← store_bytes (mkMem [] m) a bs; Some (maps m').

(** [memcpy]; nothing is accessed for 0 bytes. *)
Definition memcpy (dst src : ptr) (n : Z) : M st unit := fun s =>
  if n =? 0 then Some (tt, s) else
  d ← dst; p ← src;
  bs ← load (mem s) p (Z.to_nat n);
  m ← store (mem s) d bs;
  Some (tt, set_mem m s).

Definition ptr_add (p : ptr) (n : Z) : ptr := '(b, o) ← p; Some (b, o + n).

(** ** Shared memory *)

Definition next_alloc : M st alloc_answer := fun s =>
  Some (default None (head (allocs s)), mkSt (mem s) (shared s) (closed s) (tail (allocs s))).

Definition valid_flags (flags : Z) : bool :=
  negb (flags =? 0) && (Z.land flags (Z.lnot (Z.lor TEEC_MEM_INPUT TEEC_MEM_OUTPUT)) =? 0).

(** [teec_shm_alloc] and [mmap] of [s] bytes: [inl] with the identifier left in
    the struct when one of them fails.  (After a failed [mmap] the pointer is
    MAP_FAILED, which the identifier -1 marks as not to be used; it is kept here
    as it was.) *)
Definition alloc_map (s_bytes old_id : Z) : M st (Z + Z * va) :=
  a <- next_alloc ;;
  match a with
  | None => ret (inl old_id)
  | Some (_, None) => ret (inl (-1))
  | Some (id, Some base) =>
      s <- get ;;
      modify (set_mem (<[base := replicate (Z.to_nat s_bytes) 0]> (mem s))) ;;;
      ret (inr (id, (base, 0)))
  end.

Definition TEEC_AllocateSharedMemory (shm : TEEC_SharedMemory) : M st (Z * TEEC_SharedMemory) :=
  if negb (valid_flags (sm_flags shm)) then ret (TEEC_ERROR_BAD_PARAMETERS, shm) else
  let s := if sm_size shm =? 0 then 8 else sm_size shm in
  r <- alloc_map s (sm_id shm) ;;
  match r with
  | inl id =>
      ret (TEEC_ERROR_OUT_OF_MEMORY,
           mkShared (sm_buffer shm) (sm_size shm) (sm_flags shm) id (sm_alloced_size shm) (sm_shadow_buffer shm)
             (sm_registered_fd shm))
  | inr (id, p) => ret (TEEC_SUCCESS, mkShared (Some p) (sm_size shm) (sm_flags shm) id s None (-1))
  end.

Definition TEEC_RegisterSharedMemory (shm : TEEC_SharedMemory) : M st (Z * TEEC_SharedMemory) :=
  if negb (valid_flags (sm_flags shm)) then ret (TEEC_ERROR_BAD_PARAMETERS, shm) else
  let s := if sm_size shm =? 0 then 8 else sm_size shm in
  r <- alloc_map s (sm_id shm) ;;
  match r with
  | inl id =>
      ret (TEEC_ERROR_OUT_OF_MEMORY,
           mkShared (sm_buffer shm) (sm_size shm) (sm_flags shm) id (sm_alloced_size shm) (sm_shadow_buffer shm)
             (sm_registered_fd shm))
  | inr (id, p) => ret (TEEC_SUCCESS, mkShared (sm_buffer shm) (sm_size shm) (sm_flags shm) id s (Some p) (-1))
  end.

(** [registered]: the answer of the driver, a descriptor, an identifier and a size. *)
Definition TEEC_RegisterSharedMemoryFileDescriptor (registered : option (Z * Z * Z)) (shm : TEEC_SharedMemory)
  (fd : Z) : Z * TEEC_SharedMemory :=
  if fd <? 0 then (TEEC_ERROR_BAD_PARAMETERS, shm) else
  if negb (valid_flags (sm_flags shm)) then (TEEC_ERROR_BAD_PARAMETERS, shm) else
  match registered with
  | None => (TEEC_ERROR_BAD_PARAMETERS, shm)
  | Some (rfd, id, sz) =>
      (TEEC_SUCCESS, mkShared None sz (sm_flags shm) id (sm_alloced_size shm) None rfd)
  end.

(** The whole mapping goes: [sm_alloced_size], which the code gives as its length, is
    that of the mmap call that made it (lines 652 and 710). *)
Definition munmap (p : va) (s : st) : st := set_mem (delete (fst p) (mem s)) s.

Definition TEEC_ReleaseSharedMemory (shm : TEEC_SharedMemory) : M st TEEC_SharedMemory :=
  if sm_id shm =? -1 then ret shm else
  match sm_shadow_buffer shm, sm_buffer shm with
  | Some p, _ => modify (munmap p)
  | None, Some p => modify (munmap p)
  | None, None =>
      if 0 <=? sm_registered_fd shm
      then modify (fun s => mkSt (mem s) (shared s) (closed s ++ [sm_registered_fd shm]) (allocs s))
      else ret tt
  end ;;;
  ret (mkShared None (sm_size shm) (sm_flags shm) (-1) (sm_alloced_size shm) None (-1)).

(** ** Before the call *)

(** A [TEEC_Result] or the parameter. *)
Definition teec_pre_process_tmpref (param_type : Z) (buffer : ptr) (size : Z) (shm : TEEC_SharedMemory)
  : M st (Z * tee_ioctl_param * TEEC_SharedMemory) :=
  let kind :=
    if param_type =? TEEC_MEMREF_TEMP_INPUT then Some (ATTR_TYPE_MEMREF_INPUT, TEEC_MEM_INPUT)
    else if param_type =? TEEC_MEMREF_TEMP_OUTPUT then Some (ATTR_TYPE_MEMREF_OUTPUT, TEEC_MEM_OUTPUT)
    else if param_type =? TEEC_MEMREF_TEMP_INOUT
    then Some (ATTR_TYPE_MEMREF_INOUT, Z.lor TEEC_MEM_INPUT TEEC_MEM_OUTPUT) else None in
  match kind with
  | None => ret (TEEC_ERROR_BAD_PARAMETERS, zero_param, shm)
  | Some (attr, flags) =>
      let shm := mkShared (sm_buffer shm) size flags (sm_id shm) (sm_alloced_size shm) (sm_shadow_buffer shm)
                   (sm_registered_fd shm) in
      r <- TEEC_AllocateSharedMemory shm ;;
      let '(res, shm) := r in
      if negb (res =? TEEC_SUCCESS) then ret (res, mkParam attr 0 0 0, shm) else
      memcpy (sm_buffer shm) buffer size ;;;
      ret (TEEC_SUCCESS, set_c (sm_id shm) (set_size size (mkParam attr 0 0 0)), shm)
  end.

Definition parent_of (n : nat) : M st TEEC_SharedMemory := fun s =>
  shm ← shared s !! n; Some (shm, s).

Definition teec_pre_process_whole (parent : nat) : M st (Z * tee_ioctl_param) :=
  let inout := Z.lor TEEC_MEM_INPUT TEEC_MEM_OUTPUT in
  shm <- parent_of parent ;;
  let flags := Z.land (sm_flags shm) inout in
  let attr :=
    if flags =? inout then Some ATTR_TYPE_MEMREF_INOUT
    else if negb (Z.land flags TEEC_MEM_INPUT =? 0) then Some ATTR_TYPE_MEMREF_INPUT
    else if negb (Z.land flags TEEC_MEM_OUTPUT =? 0) then Some ATTR_TYPE_MEMREF_OUTPUT else None in
  match attr with
  | None => ret (TEEC_ERROR_BAD_PARAMETERS, zero_param)
  | Some attr =>
      (if bool_decide (is_Some (sm_shadow_buffer shm)) && negb (Z.land flags TEEC_MEM_INPUT =? 0)
       then memcpy (sm_shadow_buffer shm) (sm_buffer shm) (sm_size shm) else ret tt) ;;;
      ret (TEEC_SUCCESS, set_size (sm_size shm) (set_c (sm_id shm) (mkParam attr 0 0 0)))
  end.

Definition teec_pre_process_partial (param_type : Z) (parent : nat) (size offset : Z) : M st (Z * tee_ioctl_param) :=
  let kind :=
    if param_type =? TEEC_MEMREF_PARTIAL_INPUT then Some (TEEC_MEM_INPUT, ATTR_TYPE_MEMREF_INPUT)
    else if param_type =? TEEC_MEMREF_PARTIAL_OUTPUT then Some (TEEC_MEM_OUTPUT, ATTR_TYPE_MEMREF_OUTPUT)
    else if param_type =? TEEC_MEMREF_PARTIAL_INOUT
    then Some (Z.lor TEEC_MEM_OUTPUT TEEC_MEM_INPUT, ATTR_TYPE_MEMREF_INOUT) else None in
  match kind with
  | None => ret (TEEC_ERROR_BAD_PARAMETERS, zero_param)
  | Some (req_shm_flags, attr) =>
      shm <- parent_of parent ;;
      if negb (Z.land (sm_flags shm) req_shm_flags =? req_shm_flags)
      then ret (TEEC_ERROR_BAD_PARAMETERS, mkParam attr 0 0 0) else
      (if bool_decide (is_Some (sm_shadow_buffer shm)) && negb (param_type =? TEEC_MEMREF_PARTIAL_OUTPUT)
       then memcpy (ptr_add (sm_shadow_buffer shm) offset) (ptr_add (sm_buffer shm) offset) size else ret tt) ;;;
      ret (TEEC_SUCCESS, set_size size (set_a offset (set_c (sm_id shm) (mkParam attr 0 0 0))))
  end.

(** One parameter: the result, the parameter of the device, the temporary memory. *)
Definition pre_process_one (param_type : Z) (p : TEEC_Parameter)
  : M st (Z * tee_ioctl_param * TEEC_SharedMemory) :=
  if param_type =? TEEC_NONE then ret (TEEC_SUCCESS, mkParam param_type 0 0 0, zero_shm) else
  if (param_type =? TEEC_VALUE_INPUT) || (param_type =? TEEC_VALUE_OUTPUT) || (param_type =? TEEC_VALUE_INOUT) then
    match p with
    | PValue a b => ret (TEEC_SUCCESS, mkParam param_type (u32 a) (u32 b) 0, zero_shm)
    | _ => stuck
    end
  else if (param_type =? TEEC_MEMREF_TEMP_INPUT) || (param_type =? TEEC_MEMREF_TEMP_OUTPUT) ||
          (param_type =? TEEC_MEMREF_TEMP_INOUT) then
    match p with PTmpref b sz => teec_pre_process_tmpref param_type b sz zero_shm | _ => stuck end
  else if param_type =? TEEC_MEMREF_WHOLE then
    match p with
    | PMemref parent _ _ => r <- teec_pre_process_whole parent ;; ret (r, zero_shm)
    | _ => stuck
    end
  else if (param_type =? TEEC_MEMREF_PARTIAL_INPUT) || (param_type =? TEEC_MEMREF_PARTIAL_OUTPUT) ||
          (param_type =? TEEC_MEMREF_PARTIAL_INOUT) then
    match p with
    | PMemref parent sz off => r <- teec_pre_process_partial param_type parent sz off ;; ret (r, zero_shm)
    | _ => stuck
    end
  else ret (TEEC_ERROR_BAD_PARAMETERS, zero_param, zero_shm).

(** [for (n = 0; ...)]: on a failure the parameters and shared memories that are
    left stay zero. *)
Fixpoint pre_process_loop (types : Z) (n : nat) (ps : list TEEC_Parameter)
  : M st (Z * list tee_ioctl_param * list TEEC_SharedMemory) :=
  match ps with
  | [] => ret (TEEC_SUCCESS, [], [])
  | p :: ps =>
      r <- pre_process_one (TEEC_PARAM_TYPE_GET types n) p ;;
      let '(res, param, shm) := r in
      if negb (res =? TEEC_SUCCESS)
      then ret (res, param :: map (fun _ => zero_param) ps, shm :: map (fun _ => zero_shm) ps) else
      q <- pre_process_loop types (S n) ps ;;
      let '(res, params, shms) := q in
      ret (res, param :: params, shm :: shms)
  end.

Definition teec_pre_process_operation (operation : option TEEC_Operation)
  : M st (Z * list tee_ioctl_param * list TEEC_SharedMemory) :=
  match operation with
  | None => ret (TEEC_SUCCESS, replicate 4 zero_param, replicate 4 zero_shm)
  | Some op => pre_process_loop (paramTypes op) 0 (op_params op)
  end.

(** ** After the call *)

Definition teec_post_process_tmpref (param_type : Z) (buffer : ptr) (sz : Z) (param : tee_ioctl_param)
  (shm : TEEC_SharedMemory) : M st TEEC_Parameter :=
  if negb (param_type =? TEEC_MEMREF_TEMP_INPUT) then
    (if (size param <=? sz) && bool_decide (is_Some buffer)
     then memcpy buffer (sm_buffer shm) (size param) else ret tt) ;;;
    ret (PTmpref buffer (size param))
  else ret (PTmpref buffer sz).

Definition teec_post_process_whole (parent : nat) (sz off : Z) (param : tee_ioctl_param) : M st TEEC_Parameter :=
  shm <- parent_of parent ;;
  if negb (Z.land (sm_flags shm) TEEC_MEM_OUTPUT =? 0) then
    (if bool_decide (is_Some (sm_shadow_buffer shm)) && (size param <=? sm_size shm)
     then memcpy (sm_buffer shm) (sm_shadow_buffer shm) (size param) else ret tt) ;;;
    ret (PMemref parent (size param) off)
  else ret (PMemref parent sz off).

Definition teec_post_process_partial (param_type : Z) (parent : nat) (sz off : Z) (param : tee_ioctl_param)
  : M st TEEC_Parameter :=
  if negb (param_type =? TEEC_MEMREF_PARTIAL_INPUT) then
    shm <- parent_of parent ;;
    (if bool_decide (is_Some (sm_shadow_buffer shm)) && (size param <=? sz)
     then memcpy (ptr_add (sm_buffer shm) off) (ptr_add (sm_shadow_buffer shm) off) (size param) else ret tt) ;;;
    ret (PMemref parent (size param) off)
  else ret (PMemref parent sz off).

(** The members that do not fit the type cannot occur after a pre-process that
    succeeded. *)
Definition post_process_one (param_type : Z) (p : TEEC_Parameter) (param : tee_ioctl_param) (shm : TEEC_SharedMemory)
  : M st TEEC_Parameter :=
  if (param_type =? TEEC_VALUE_OUTPUT) || (param_type =? TEEC_VALUE_INOUT) then
    ret (PValue (u32 (u_a param)) (u32 (u_b param)))
  else if (param_type =? TEEC_MEMREF_TEMP_INPUT) || (param_type =? TEEC_MEMREF_TEMP_OUTPUT) ||
          (param_type =? TEEC_MEMREF_TEMP_INOUT) then
    match p with PTmpref b sz => teec_post_process_tmpref param_type b sz param shm | _ => stuck end
  else if param_type =? TEEC_MEMREF_WHOLE then
    match p with PMemref parent sz off => teec_post_process_whole parent sz off param | _ => stuck end
  else if (param_type =? TEEC_MEMREF_PARTIAL_INPUT) || (param_type =? TEEC_MEMREF_PARTIAL_OUTPUT) ||
          (param_type =? TEEC_MEMREF_PARTIAL_INOUT) then
    match p with PMemref parent sz off => teec_post_process_partial param_type parent sz off param | _ => stuck end
  else ret p.

Fixpoint post_process_loop (types : Z) (n : nat) (ps : list TEEC_Parameter) (params : list tee_ioctl_param)
  (shms : list TEEC_SharedMemory) : M st (list TEEC_Parameter) :=
  match ps, params, shms with
  | p :: ps, param :: params, shm :: shms =>
      p <- post_process_one (TEEC_PARAM_TYPE_GET types n) p param shm ;;
      ps <- post_process_loop types (S n) ps params shms ;;
      ret (p :: ps)
  | _, _, _ => ret ps
  end.

Definition teec_post_process_operation (operation : option TEEC_Operation) (params : list tee_ioctl_param)
  (shms : list TEEC_SharedMemory) : M st (option TEEC_Operation) :=
  match operation with
  | None => ret None
  | Some op =>
      ps <- post_process_loop (paramTypes op) 0 (op_params op) params shms ;;
      ret (Some (mkOp (paramTypes op) ps))
  end.

Definition is_temp (param_type : Z) : bool :=
  (param_type =? TEEC_MEMREF_TEMP_INPUT) || (param_type =? TEEC_MEMREF_TEMP_OUTPUT) ||
  (param_type =? TEEC_MEMREF_TEMP_INOUT).

Fixpoint free_loop (types : Z) (n : nat) (shms : list TEEC_SharedMemory) : M st unit :=
  match shms with
  | [] => ret tt
  | shm :: shms =>
      (if is_temp (TEEC_PARAM_TYPE_GET types n) then TEEC_ReleaseSharedMemory shm ;;; ret tt else ret tt) ;;;
      free_loop types (S n) shms
  end.

Definition teec_free_temp_refs (operation : option TEEC_Operation) (shms : list TEEC_SharedMemory) : M st unit :=
  match operation with
  | None => ret tt
  | Some op => free_loop (paramTypes op) 0 shms
  end.

Definition ioctl_errno_to_res (err : Z) : Z :=
  if err =? ENOMEM then TEEC_ERROR_OUT_OF_MEMORY else TEEC_ERROR_GENERIC.

(** ** Sessions and commands *)

Record TEEC_Session := mkSession { s_ctx : Z; session_id : Z }.

(** What the driver is asked. *)
Inductive tee_call :=
| TEE_IOC_OPEN_SESSION (uuid : list Z) (clnt_login : Z)
| TEE_IOC_INVOKE (session func : Z).

(** Its answer: an errno, or [ret], [ret_origin], [session] and the parameters,
    with the memory the secure world has left. *)
Inductive tee_answer :=
| TeeErrno (e : Z)
| TeeDone (ret_ origin session : Z) (params : list tee_ioctl_param) (m : memory).

Section Tee.
(** The driver and the secure world, on the descriptor of the context. *)
Context (tee : Z -> tee_call -> list tee_ioctl_param -> memory -> tee_answer).

Definition ioctl (fd : Z) (c : tee_call) (params : list tee_ioctl_param) : M st tee_answer := fun s =>
  let a := tee fd c params (mem s) in
  Some (a, match a with TeeErrno _ => s | TeeDone _ _ _ _ m => set_mem m s end).

(** The result, the origin of an error, the operation and, for an opened
    session, its identifier. *)
Definition run_call (fd : Z) (c : tee_call) (operation : option TEEC_Operation)
  : M st (Z * Z * option TEEC_Operation * Z) :=
  r <- teec_pre_process_operation operation ;;
  let '(res, params, shms) := r in
  if negb (res =? TEEC_SUCCESS) then
    teec_free_temp_refs operation shms ;;;
    ret (res, TEEC_ORIGIN_API, operation, 0)
  else
  a <- ioctl fd c params ;;
  match a with
  | TeeErrno e =>
      teec_free_temp_refs operation shms ;;;
      ret (ioctl_errno_to_res e, TEEC_ORIGIN_COMMS, operation, 0)
  | TeeDone res eorig session params _ =>
      op <- teec_post_process_operation operation params shms ;;
      teec_free_temp_refs operation shms ;;;
      ret (res, eorig, op, session)
  end.

(** [ctx] and [session] are [None] when the pointer is NULL. *)
Definition TEEC_OpenSession (ctx : option Z) (have_session : bool) (destination : TEEC_UUID) (connection_method : Z)
  (operation : option TEEC_Operation) : M st (Z * Z * option TEEC_Operation * option TEEC_Session) :=
  match ctx with
  | Some fd =>
      if negb have_session then ret (TEEC_ERROR_BAD_PARAMETERS, TEEC_ORIGIN_API, operation, None) else
      r <- run_call fd (TEE_IOC_OPEN_SESSION (uuid_to_octets destination) connection_method) operation ;;
      let '(res, eorig, op, session) := r in
      ret (res, eorig, op,
           if (res =? TEEC_SUCCESS) then Some (mkSession fd session) else None)
  | None => ret (TEEC_ERROR_BAD_PARAMETERS, TEEC_ORIGIN_API, operation, None)
  end.

Definition TEEC_InvokeCommand (session : option TEEC_Session) (cmd_id : Z) (operation : option TEEC_Operation)
  : M st (Z * Z * option TEEC_Operation) :=
  match session with
  | None => ret (TEEC_ERROR_BAD_PARAMETERS, TEEC_ORIGIN_API, operation)
  | Some ss =>
      r <- run_call (s_ctx ss) (TEE_IOC_INVOKE (session_id ss) cmd_id) operation ;;
      let '(res, eorig, op, _) := r in
      ret (res, eorig, op)
  end.
End Tee.

(** ** Closing a session and cancelling *)

(** What [TEEC_CloseSession] and [TEEC_RequestCancellation] ask of the driver on
    which descriptor; its answer is only logged. *)
Inductive tee_request :=
| TEE_IOC_CLOSE_SESSION (fd session : Z)
| TEE_IOC_CANCEL (fd session cancel_id : Z).

Definition TEEC_CloseSession (session : option TEEC_Session) : option tee_request :=
  ss ← session; Some (TEE_IOC_CLOSE_SESSION (s_ctx ss) (session_id ss)).

(** [operation] is its [session] field, which [TEEC_InvokeCommand] sets. *)
Definition TEEC_RequestCancellation (operation : option (option TEEC_Session)) : option tee_request :=
  session ← operation; ss ← session; Some (TEE_IOC_CANCEL (s_ctx ss) (session_id ss) 0).

(** ** The context *)

Section Device.
(** [open] on the open descriptors; the version ioctl: implementation, its and the
    general capabilities. *)
Context (sys_open : list Z -> gset Z -> option Z) (version : Z -> option (Z * Z * Z)).

Definition TEE_IMPL_ID_OPTEE : Z := 1.
Definition TEE_OPTEE_CAP_TZ : Z := 1.
Definition TEE_GEN_CAP_GP : Z := 1.
Definition TEEC_MAX_DEV_SEQ : nat := 10.
(** "optee-tz" *)
Definition optee_tz : list Z := [111; 112; 116; 101; 101; 45; 116; 122].

(** What [teec_open_dev] asks of a device that is open. *)
Definition version_ok (v : option (Z * Z * Z)) (capabilities : option (list Z)) : bool :=
  match v with
  | None => false
  | Some (impl_id, impl_caps, gen_caps) =>
      if Z.land gen_caps TEE_GEN_CAP_GP =? 0 then false else
      match capabilities with
      | None => true
      | Some c =>
          if bool_decide (c = optee_tz) then
            if negb (impl_id =? TEE_IMPL_ID_OPTEE) then false
            else if Z.land impl_caps TEE_OPTEE_CAP_TZ =? 0 then false else true
          else false
      end
  end.

Definition close (fd : Z) : M (gset Z) unit := modify (fun fds => fds ∖ {[fd]}).

Definition teec_open_dev (devname : list Z) (capabilities : option (list Z)) : M (gset Z) Z :=
  fds <- get ;;
  match sys_open devname fds with
  | None => ret (-1)
  | Some fd =>
      modify (fun fds => {[fd]} ∪ fds) ;;;
      if version_ok (version fd) capabilities then ret fd else close fd ;;; ret (-1)
  end.

(** "/dev/tee" and a digit. *)
Definition dev_tee (n : nat) : list Z := [47; 100; 101; 118; 47; 116; 101; 101] ++ [48 + Z.of_nat n].

Fixpoint context_loop (k n : nat) (name : option (list Z)) : M (gset Z) (Z * option Z) :=
  match k with
  | O => ret (TEEC_ERROR_ITEM_NOT_FOUND, None)
  | S k =>
      fd <- teec_open_dev (dev_tee n) name ;;
      if 0 <=? fd then ret (TEEC_SUCCESS, Some fd) else context_loop k (S n) name
  end.

(** The result and [ctx->fd]. *)
Definition TEEC_InitializeContext (name : option (list Z)) (have_ctx : bool) : M (gset Z) (Z * option Z) :=
  if negb have_ctx then ret (TEEC_ERROR_BAD_PARAMETERS, None) else context_loop TEEC_MAX_DEV_SEQ 0 name.

Definition TEEC_FinalizeContext (ctx : option Z) : M (gset Z) unit :=
  match ctx with None => ret tt | Some fd => close fd end.
End Device.

End Teec.
