(* ===== verification/TeecThm.v ===== *)
(** * Properties of the client library (optee_client/libteec/src/tee_client_api.c)

    The shared memory of temporary references: it is gone after every call,
    however the call ends, and carries the client's data to the secure world and
    back.  Opening a context leaves at most the descriptor it returns. *)

From stdpp Require Import base tactics option list list_numbers numbers gmap fin_maps sets.
From Stdlib Require Import ZArith Lia.
From S2P Require Import Prelude TeeParam SuppShm Teec.
Import TeeParam SuppShm Teec.

Local Open Scope Z_scope.
Local Open Scope c_scope.

Module TeecThm.

(** ** The mappings and what fits them *)

(** The mappings of the client: their base addresses and lengths. *)
Definition lens (s : st) : gmap Z nat := length <$> mem s.

(** [n] bytes at [p] are mapped; a pointer to nothing may be NULL. *)
Definition spans (L : gmap Z nat) (p : ptr) (n : Z) : Prop :=
  n = 0 \/ exists b o len, p = Some (b, o) /\ L !! b = Some len /\ 0 <= o /\ o + n <= Z.of_nat len.

(** Registered shared memory: its buffer and its shadow, when it has one, cover its size. *)
Definition shm_ok (L : gmap Z nat) (shm : TEEC_SharedMemory) : Prop :=
  0 <= sm_size shm /\
  (is_Some (sm_shadow_buffer shm) ->
   spans L (sm_buffer shm) (sm_size shm) /\ spans L (sm_shadow_buffer shm) (sm_size shm)).

Definition is_value (t : Z) : bool :=
  (t =? TEEC_VALUE_INPUT) || (t =? TEEC_VALUE_OUTPUT) || (t =? TEEC_VALUE_INOUT).
Definition is_partial (t : Z) : bool :=
  (t =? TEEC_MEMREF_PARTIAL_INPUT) || (t =? TEEC_MEMREF_PARTIAL_OUTPUT) || (t =? TEEC_MEMREF_PARTIAL_INOUT).

(** What the interface asks of a parameter: it is of the member its type names,
    and the memory it names is there. *)
Definition param_fits (L : gmap Z nat) (sh : gmap nat TEEC_SharedMemory) (t : Z) (p : TEEC_Parameter) : Prop :=
  if t =? TEEC_NONE then True
  else if is_value t then match p with PValue _ _ => True | _ => False end
  else if is_temp t then match p with PTmpref b sz => 0 <= sz /\ spans L b sz | _ => False end
  else if t =? TEEC_MEMREF_WHOLE then
    match p with PMemref parent _ _ => exists shm, sh !! parent = Some shm /\ shm_ok L shm | _ => False end
  else if is_partial t then
    match p with
    | PMemref parent sz off =>
        exists shm, sh !! parent = Some shm /\ shm_ok L shm /\ 0 <= sz /\ 0 <= off /\ off + sz <= sm_size shm
    | _ => False
    end
  else True.

Fixpoint params_fit (L : gmap Z nat) (sh : gmap nat TEEC_SharedMemory) (types : Z) (n : nat)
  (ps : list TEEC_Parameter) : Prop :=
  match ps with
  | [] => True
  | p :: ps => param_fits L sh (TEEC_PARAM_TYPE_GET types n) p /\ params_fit L sh types (S n) ps
  end.

Definition op_fits (s : st) (op : option TEEC_Operation) : Prop :=
  match op with None => True | Some op => params_fit (lens s) (shared s) (paramTypes op) 0 (op_params op) end.

(** What [TEEC_ReleaseSharedMemory] unmaps. *)
Definition mapped_base (shm : TEEC_SharedMemory) : option Z :=
  if sm_id shm =? -1 then None else
  match sm_shadow_buffer shm, sm_buffer shm with
  | Some p, _ => Some (fst p)
  | None, Some p => Some (fst p)
  | None, None => None
  end.

Definition temp_base (t : Z) (shm : TEEC_SharedMemory) : list Z :=
  if is_temp t then option_list (mapped_base shm) else [].

(** The mappings of the temporary references. *)
Fixpoint temp_bases (types : Z) (n : nat) (shms : list TEEC_SharedMemory) : list Z :=
  match shms with
  | [] => []
  | shm :: shms => temp_base (TEEC_PARAM_TYPE_GET types n) shm ++ temp_bases types (S n) shms
  end.

Definition unmap_all (bs : list Z) (L : gmap Z nat) : gmap Z nat := fold_left (fun L b => delete b L) bs L.

(** The driver's coming answers give new mappings and valid identifiers. *)
Record allocs_ok (s : st) : Prop := {
  al_ids : forall id b, Some (id, b) ∈ allocs s -> 0 <= id;
  al_new : forall id b, Some (id, Some b) ∈ allocs s -> lens s !! b = None;
  al_once : NoDup (omap (fun a => a ≫= snd) (allocs s))
}.

(** The secure world writes into the mappings and returns sizes; it maps and
    unmaps nothing. *)
Definition tee_ok (tee : Z -> tee_call -> list tee_ioctl_param -> memory -> tee_answer) : Prop :=
  forall fd c ps m r o se qs m', tee fd c ps m = TeeDone r o se qs m' ->
    length <$> m' =@{gmap Z nat} length <$> m /\ Forall (fun q => 0 <= size q) qs.

(** ** Lemmas on the mappings *)

Lemma unmap_all_app a b L : unmap_all (a ++ b) L = unmap_all b (unmap_all a L).
Proof. apply fold_left_app. Qed.

Lemma unmap_all_delete bs b L : unmap_all bs (delete b L) = delete b (unmap_all bs L).
Proof.
  revert L. induction bs as [|x bs IH]; intros L; [done|]. unfold unmap_all in *. cbn [fold_left].
  by rewrite delete_delete, IH.
Qed.

Lemma spans_mono L L' p n : L ⊆ L' -> spans L p n -> spans L' p n.
Proof.
  intros HL [->|(b & o & len & -> & Hb & H)]; [by left|right]. exists b, o, len.
  split; [done|]. split; [|done]. by eapply lookup_weaken.
Qed.

Lemma spans_add L p n off k : 0 <= off -> 0 <= k -> off + k <= n -> spans L p n -> spans L (ptr_add p off) k.
Proof.
  intros H0 Hk Hn [->|(b & o & len & -> & Hb & H)]; [left; lia|].
  right. exists b, (o + off), len. split_and!; [done|done|lia|lia].
Qed.

Lemma spans_le L p n k : 0 <= k -> k <= n -> spans L p n -> spans L p k.
Proof.
  intros Hk Hn [->|(b & o & len & -> & Hb & H)]; [left; lia|].
  right. exists b, o, len. split_and!; [done|done|lia|lia].
Qed.

Lemma shm_ok_mono L L' shm : L ⊆ L' -> shm_ok L shm -> shm_ok L' shm.
Proof. intros HL [H0 H]. split; [done|]. intros Hs. destruct (H Hs). split; by eapply spans_mono. Qed.

Lemma params_fit_mono L L' sh types n ps : L ⊆ L' -> params_fit L sh types n ps -> params_fit L' sh types n ps.
Proof.
  intros HL. revert n. induction ps as [|p ps IH]; intros n; [done|]. intros [Hp H]. split; [|by apply IH].
  unfold param_fits in *. destruct (_ =? TEEC_NONE); [done|]. destruct (is_value _); [done|].
  destruct (is_temp _). { destruct p; try done. destruct Hp. split; [done|]. by eapply spans_mono. }
  destruct (_ =? TEEC_MEMREF_WHOLE).
  { destruct p; try done. destruct Hp as (shm & ? & ?). exists shm. split; [done|]. by eapply shm_ok_mono. }
  destruct (is_partial _); [|done]. destruct p; try done. destruct Hp as (shm & ? & ? & ?).
  exists shm. split; [done|]. split; [|done]. by eapply shm_ok_mono.
Qed.

(** ** Copies keep the mappings *)

(** Only bytes have changed. *)
Record same_maps (s s' : st) : Prop := {
  sp_lens : lens s' = lens s;
  sp_shared : shared s' = shared s;
  sp_closed : closed s' = closed s;
  sp_allocs : allocs s' = allocs s
}.

Lemma same_maps_refl s : same_maps s s.
Proof. done. Qed.
Lemma same_maps_trans s1 s2 s3 : same_maps s1 s2 -> same_maps s2 s3 -> same_maps s1 s3.
Proof. intros [] []. split; congruence. Qed.

Lemma spans_room s p n : n <> 0 -> spans (lens s) p n -> exists a, p = Some a /\ room (mkMem [] (mem s)) a n.
Proof.
  intros Hn [->|(b & o & len & -> & Hb & H)]; [done|]. exists (b, o). split; [done|].
  unfold lens in Hb. rewrite lookup_fmap in Hb. apply fmap_Some in Hb as (bs & Hbs & ->). by exists bs.
Qed.

Lemma store_lens m a bs m' : store m a bs = Some m' -> length <$> m' =@{gmap Z nat} length <$> m.
Proof.
  unfold store, store_bytes. destruct a as [p o]. intros (m1 & (x & Ex & H)%bind_Some & [= <-])%bind_Some.
  destruct (Z.leb_spec 0 o); [|done]. destruct (Z.leb_spec (o + Z.of_nat (length bs)) (Z.of_nat (length x))); [|done].
  injection H as <-. cbn [maps] in *. rewrite fmap_insert. apply insert_id.
  rewrite lookup_fmap, Ex. cbn. f_equal. symmetry. apply length_write_at. lia.
Qed.

Lemma memcpy_wp d p n s : 0 <= n -> spans (lens s) d n -> spans (lens s) p n ->
  wp (memcpy d p n) (fun _ s' => same_maps s s') s.
Proof.
  intros Hn Hd Hp. unfold wp, memcpy. destruct (Z.eqb_spec n 0) as [|Hn0]; [apply same_maps_refl|].
  apply (spans_room s) in Hd as (d' & -> & Hd); [|done]. apply (spans_room s) in Hp as (p' & -> & Hp); [|done]. cbn.
  rewrite <- (Z2Nat.id n) in Hp, Hd by done. apply room_load in Hp as (bs & Hl & Hlen). unfold load. rewrite Hl. cbn.
  destruct (store (mem s) d' bs) as [m|] eqn:Es; cbn.
  - split; [|done..]. unfold lens. cbn. by eapply store_lens.
  - exfalso. destruct Hd as (x & Hx & H0 & Hr). destruct d' as [b o]. unfold store, store_bytes in Es. cbn in *.
    rewrite Hx in Es. cbn in Es. rewrite !(proj2 (Z.leb_le _ _)) in Es by lia. done.
Qed.

Lemma memcpy_if_wp (b : bool) d p n s : (b = true -> 0 <= n /\ spans (lens s) d n /\ spans (lens s) p n) ->
  wp (if b then memcpy d p n else ret tt) (fun _ s' => same_maps s s') s.
Proof. destruct b; [|intros _; apply same_maps_refl]. intros (Hn & Hd & Hp); [done|]. by apply memcpy_wp. Qed.

Lemma parent_wp n shm s (Q : TEEC_SharedMemory -> st -> Prop) : shared s !! n = Some shm -> Q shm s ->
  wp (parent_of n) Q s.
Proof. intros H HQ. unfold wp, parent_of. by rewrite H. Qed.

(** ** Before the call *)

(** What pre-processing does to the mappings: releasing [new] takes it back. *)
Record maps_added (new : list Z) (s s' : st) : Prop := {
  ma_lens : unmap_all new (lens s') = lens s;
  ma_sub : lens s ⊆ lens s';
  ma_shared : shared s' = shared s;
  ma_allocs : allocs_ok s'
}.

(** The temporary memory of a parameter covers it. *)
Definition temp_fits (L : gmap Z nat) (t : Z) (p : TEEC_Parameter) (shm : TEEC_SharedMemory) : Prop :=
  match p with PTmpref _ sz => is_temp t = true -> spans L (sm_buffer shm) sz | _ => True end.

Lemma same_maps_added t s s' shm : allocs_ok s -> same_maps s s' -> mapped_base shm = None ->
  maps_added (temp_base t shm) s s'.
Proof.
  intros [A1 A2 A3] [E1 E2 E3 E4] Hn.
  assert (temp_base t shm = []) as -> by (unfold temp_base; rewrite Hn; by destruct (is_temp t)).
  split; [done|by rewrite E1|done|]. split; rewrite ?E4, ?E1; done.
Qed.

Lemma lens_insert b x m s : lens (set_mem (<[b := x]> m) s) = <[b := length x]> (length <$> m).
Proof. unfold lens. change (mem (set_mem (<[b := x]> m) s)) with (<[b := x]> m). apply fmap_insert. Qed.

Lemma allocs_ok_tail s : allocs_ok s -> allocs_ok (mkSt (mem s) (shared s) (closed s) (tail (allocs s))).
Proof.
  intros [A1 A2 A3]. destruct s as [m sh c [|a l]]; [done|]. cbn in *. split; cbn.
  - intros i b Hin. apply (A1 i b). by right.
  - intros i b Hin. apply (A2 i b). by right.
  - destruct (a ≫= snd); [by apply NoDup_cons in A3 as [_ ?]|done].
Qed.

(** A new mapping. *)
Lemma insert_added t s shm i b bytes l : is_temp t = true -> allocs s = Some (i, Some b) :: l -> allocs_ok s ->
  sm_id shm = i -> sm_buffer shm = Some (b, 0) -> sm_shadow_buffer shm = None ->
  maps_added (temp_base t shm) s
    (set_mem (<[b := bytes]> (mem s)) (mkSt (mem s) (shared s) (closed s) l)).
Proof.
  intros Ht El A Hid Hb Hs. pose proof (allocs_ok_tail s A) as [B1 B2 B3]. destruct A as [A1 A2 A3].
  rewrite El in *. assert (0 <= i) as Hi by (apply (A1 i (Some b)); left).
  assert (lens s !! b = None) as Hn by (apply (A2 i b); left).
  unfold temp_base, mapped_base. rewrite Ht, Hs, Hb, Hid, (proj2 (Z.eqb_neq i (-1))) by lia.
  split.
  - rewrite lens_insert. cbn. rewrite delete_insert_id; done.
  - rewrite lens_insert. by apply insert_subseteq.
  - done.
  - split; [done| |done]. intros j c Hin. rewrite lens_insert. cbn in Hin, A3.
    apply NoDup_cons in A3 as [Hnew _].
    rewrite lookup_insert_ne; [by apply (B2 j c)|]. intros ->. apply Hnew, list_elem_of_omap. by eexists.
Qed.

Lemma allocate_wp t s shm : is_temp t = true -> allocs_ok s -> sm_buffer shm = None -> sm_shadow_buffer shm = None ->
  0 <= sm_size shm ->
  wp (TEEC_AllocateSharedMemory shm)
    (fun a s' => maps_added (temp_base t (snd a)) s s' /\
       (fst a = TEEC_SUCCESS -> spans (lens s') (sm_buffer (snd a)) (sm_size shm))) s.
Proof.
  intros Ht A Hb Hs H0.
  assert (forall i sz f a r, mapped_base (mkShared (sm_buffer shm) sz f i a (sm_shadow_buffer shm) r) = None) as Hm
    by (intros; unfold mapped_base; cbn; rewrite Hb, Hs; by destruct (_ =? -1)).
  unfold TEEC_AllocateSharedMemory. destruct (negb _).
  { split; [apply same_maps_added; [done..|]|done]. destruct shm. apply Hm. }
  set (n := if sm_size shm =? 0 then 8 else sm_size shm).
  assert (sm_size shm <= n) as Hn by (unfold n; destruct (Z.eqb_spec (sm_size shm) 0); lia).
  unfold alloc_map. apply wp_bind, wp_bind. unfold wp at 1, next_alloc.
  assert (forall l i x, l = temp_base t (mkShared (sm_buffer shm) (sm_size shm) (sm_flags shm) i x
             (sm_shadow_buffer shm) (sm_registered_fd shm)) ->
           maps_added l s (mkSt (mem s) (shared s) (closed s) (tail (allocs s)))) as Hfail.
  { intros l i x ->. unfold temp_base. rewrite Hm, Ht. split; [done|done|done|]. by apply allocs_ok_tail. }
  destruct (allocs s) as [|[[i [b|]]|] l] eqn:El.
  1, 3, 4: split; [by eapply Hfail|done].
  split; [by eapply (insert_added t s)|]. intros _. right. exists b, 0, (Z.to_nat n).
  change (fst (TEEC_SUCCESS, _)) with TEEC_SUCCESS. rewrite lens_insert, lookup_insert_eq, length_replicate.
  split_and!; [done|done|lia|lia].
Qed.

Lemma tmpref_wp t b sz s : is_temp t = true -> allocs_ok s -> 0 <= sz -> spans (lens s) b sz ->
  wp (teec_pre_process_tmpref t b sz zero_shm)
    (fun r s' => let '(res, _, shm) := r in
       maps_added (temp_base t shm) s s' /\ (res = TEEC_SUCCESS -> spans (lens s') (sm_buffer shm) sz)) s.
Proof.
  intros Ht A H0 Hb. unfold teec_pre_process_tmpref.
  destruct (if t =? TEEC_MEMREF_TEMP_INPUT then _ else _) as [[attr flags]|].
  2:{ split; [by apply same_maps_added|done]. }
  apply wp_bind. eapply wp_mono; [by apply (allocate_wp t)|]. intros [res shm] s1 [K1 K2]. cbn [fst snd] in *.
  destruct (Z.eqb_spec res TEEC_SUCCESS) as [->|]; cbn [negb]; [|done].
  specialize (K2 eq_refl). cbn in K2. apply wp_bind. eapply wp_mono.
  { apply memcpy_wp; [done|done|]. eapply spans_mono; [|done]. apply K1. }
  intros u s2 [E1 E2 E3 E4]. destruct K1 as [M1 M2 M3 [A1 A2 A3]].
  split; [split; [by rewrite E1|by rewrite E1|by rewrite E2|]|intros _; by rewrite E1].
  split; rewrite ?E4, ?E1; done.
Qed.

Lemma whole_wp parent shm s : shared s !! parent = Some shm -> shm_ok (lens s) shm ->
  wp (teec_pre_process_whole parent) (fun _ s' => same_maps s s') s.
Proof.
  intros Hp [H0 Hok]. unfold teec_pre_process_whole. cbv zeta. apply wp_bind. eapply parent_wp; [done|].
  destruct (if _ =? _ then _ else _); [|apply same_maps_refl]. apply wp_bind. eapply wp_mono; [apply memcpy_if_wp|].
  - intros (Hs%bool_decide_eq_true & _)%andb_prop. by destruct (Hok Hs).
  - by intros.
Qed.

Lemma partial_wp t parent shm sz off s : shared s !! parent = Some shm -> shm_ok (lens s) shm ->
  0 <= sz -> 0 <= off -> off + sz <= sm_size shm ->
  wp (teec_pre_process_partial t parent sz off) (fun _ s' => same_maps s s') s.
Proof.
  intros Hp [H0 Hok] Hsz Hoff Hle. unfold teec_pre_process_partial. cbv zeta.
  destruct (if t =? _ then _ else _) as [[fl at_]|]; [|apply same_maps_refl].
  apply wp_bind. eapply parent_wp; [done|]. destruct (negb _); [apply same_maps_refl|].
  apply wp_bind. eapply wp_mono; [apply memcpy_if_wp|].
  - intros (Hs%bool_decide_eq_true & _)%andb_prop. destruct (Hok Hs).
    split; [done|]. split; eapply spans_add; eauto.
  - by intros.
Qed.

Lemma pre_one_wp t p s : allocs_ok s -> param_fits (lens s) (shared s) t p ->
  wp (pre_process_one t p)
    (fun r s' => let '(res, _, shm) := r in
       maps_added (temp_base t shm) s s' /\ (res = TEEC_SUCCESS -> temp_fits (lens s') t p shm)) s.
Proof.
  intros A Hp. unfold pre_process_one, param_fits in *. fold (is_value t) (is_temp t) (is_partial t).
  assert (forall s', same_maps s s' -> maps_added (temp_base t zero_shm) s s') as Hz
    by (intros; by apply same_maps_added).
  destruct (Z.eqb_spec t TEEC_NONE) as [->|].
  { split; [by apply Hz|]. intros _. unfold temp_fits. destruct p; done. }
  destruct (is_value t). { destruct p; [done|done|]. split; [by apply Hz|done]. }
  destruct (is_temp t) eqn:Et.
  { destruct p as [b sz| |]; [|done|done]. destruct Hp as [H0 Hb]. eapply wp_mono; [by apply tmpref_wp|].
    intros [[res prm] shm] s' [K1 K2]. split; [done|]. intros Hr _. by apply K2. }
  assert (forall L, temp_fits L t p zero_shm) as Hf by (intros L; unfold temp_fits; rewrite Et; by destruct p).
  destruct (_ =? TEEC_MEMREF_WHOLE).
  { destruct p as [|parent sz off|]; [done| |done]. destruct Hp as (shm & Hs & Hok).
    apply wp_bind. eapply wp_mono; [by eapply whole_wp|]. intros [res prm] s' K. apply wp_ret. split; [by apply Hz|intros _; apply Hf]. }
  destruct (is_partial t).
  { destruct p as [|parent sz off|]; [done| |done]. destruct Hp as (shm & Hs & Hok & H1 & H2 & H3).
    apply wp_bind. eapply wp_mono; [by eapply partial_wp|]. intros [res prm] s' K. apply wp_ret. split; [by apply Hz|intros _; apply Hf]. }
  split; [by apply Hz|intros _; apply Hf].
Qed.

Lemma temp_fits_mono L L' t p shm : L ⊆ L' -> temp_fits L t p shm -> temp_fits L' t p shm.
Proof. intros HL. destruct p; try done. cbn. intros H Ht. eapply spans_mono; eauto. Qed.

Fixpoint temps_fit (L : gmap Z nat) (types : Z) (n : nat) (ps : list TEEC_Parameter)
  (shms : list TEEC_SharedMemory) : Prop :=
  match ps, shms with
  | p :: ps, shm :: shms => temp_fits L (TEEC_PARAM_TYPE_GET types n) p shm /\ temps_fit L types (S n) ps shms
  | _, _ => True
  end.

Lemma temp_bases_zero {A} types n (ps : list A) : temp_bases types n (map (fun _ => zero_shm) ps) = [].
Proof.
  revert n. induction ps as [|p ps IH]; intros n; [done|]. cbn. rewrite IH. unfold temp_base. by destruct (is_temp _).
Qed.

Lemma maps_added_refl s : allocs_ok s -> maps_added [] s s.
Proof. done. Qed.

Lemma maps_added_app a b s s1 s' : maps_added a s s1 -> maps_added b s1 s' -> maps_added (a ++ b) s s'.
Proof.
  intros [M1 M2 M3 M4] [N1 N2 N3 N4]. split; [|by etrans|congruence|done].
  rewrite unmap_all_app. rewrite <- M1, <- N1. clear. generalize (lens s'). induction a as [|x a IH]; intros L; [done|].
  unfold unmap_all in *. cbn [fold_left]. rewrite IH. f_equal. apply (unmap_all_delete b x L).
Qed.

Lemma pre_loop_wp types ps n s : allocs_ok s -> params_fit (lens s) (shared s) types n ps ->
  wp (pre_process_loop types n ps)
    (fun r s' => let '(res, _, shms) := r in
       maps_added (temp_bases types n shms) s s' /\ (res = TEEC_SUCCESS -> temps_fit (lens s') types n ps shms)) s.
Proof.
  revert n s. induction ps as [|p ps IH]; intros n s A Hp; cbn [pre_process_loop]; [split; [by apply maps_added_refl|done]|].
  destruct Hp as [Hp Hps]. apply wp_bind. eapply wp_mono; [by apply pre_one_wp|].
  intros [[res prm] shm] s1 [K1 K2]. destruct (Z.eqb_spec res TEEC_SUCCESS) as [->|Hr]; cbn [negb].
  - apply wp_bind. eapply wp_mono; [apply IH|].
    + apply K1.
    + destruct K1 as [_ Hs -> _]. by eapply params_fit_mono.
    + intros [[res prms] shms] s2 [L1 L2]. split; [by eapply maps_added_app|]. intros Hr. cbn.
      split; [|by apply L2]. eapply temp_fits_mono; [apply L1|by apply K2].
  - split; [|done]. cbn [temp_bases]. by rewrite temp_bases_zero, app_nil_r.
Qed.

Lemma pre_operation_wp op s : allocs_ok s -> op_fits s op ->
  wp (teec_pre_process_operation op)
    (fun r s' => let '(res, _, shms) := r in exists new,
       maps_added new s s' /\
       match op with
       | None => new = []
       | Some op =>
           new = temp_bases (paramTypes op) 0 shms /\
           (res = TEEC_SUCCESS -> temps_fit (lens s') (paramTypes op) 0 (op_params op) shms)
       end) s.
Proof.
  intros A Hop. destruct op as [op|].
  - eapply wp_mono; [by apply pre_loop_wp|]. intros [[res prms] shms] s' [K1 K2]. eauto.
  - exists []. split; [by apply maps_added_refl|done].
Qed.

(** ** After the call *)

Lemma post_one_wp t p prm shm s : param_fits (lens s) (shared s) t p -> temp_fits (lens s) t p shm -> 0 <= size prm ->
  wp (post_process_one t p prm shm) (fun _ s' => same_maps s s') s.
Proof.
  intros Hp Hf Hq. unfold post_process_one, param_fits, is_value in *. fold (is_temp t) (is_partial t).
  destruct (Z.eqb_spec t TEEC_NONE) as [->|]; [apply same_maps_refl|].
  destruct ((t =? TEEC_VALUE_OUTPUT) || _) eqn:Ev; [apply same_maps_refl|].
  rewrite <- orb_assoc, Ev, orb_false_r in Hp.
  destruct (Z.eqb_spec t TEEC_VALUE_INPUT) as [->|]; [apply same_maps_refl|].
  destruct (is_temp t) eqn:Et.
  { destruct p as [b sz| |]; [|done|done]. destruct Hp as [H0 Hb]. unfold teec_post_process_tmpref.
    destruct (negb _); [|apply same_maps_refl]. apply wp_bind. eapply wp_mono; [apply memcpy_if_wp|].
    - intros (Hle%Z.leb_le & _)%andb_prop. split; [done|]. split; eapply (spans_le _ _ sz); eauto.
    - by intros. }
  destruct (_ =? TEEC_MEMREF_WHOLE).
  { destruct p as [|parent sz off|]; [done| |done]. destruct Hp as (sh & Hs & H0 & Hok).
    apply wp_bind. eapply parent_wp; [done|]. destruct (negb _); [|apply same_maps_refl].
    apply wp_bind. eapply wp_mono; [apply memcpy_if_wp|].
    - intros (Hsh%bool_decide_eq_true & Hle%Z.leb_le)%andb_prop. destruct (Hok Hsh).
      split; [done|]. split; eapply (spans_le _ _ (sm_size sh)); eauto.
    - by intros. }
  destruct (is_partial t); [|apply same_maps_refl].
  destruct p as [|parent sz off|]; [done| |done]. destruct Hp as (sh & Hs & [H0 Hok] & H1 & H2 & H3).
  unfold teec_post_process_partial. destruct (negb _); [|apply same_maps_refl]. apply wp_bind. eapply parent_wp; [done|].
  apply wp_bind. eapply wp_mono; [apply memcpy_if_wp|].
  - intros (Hsh%bool_decide_eq_true & Hle%Z.leb_le)%andb_prop. destruct (Hok Hsh).
    split; [done|]. split; eapply (spans_add _ _ (sm_size sh)); eauto; lia.
  - by intros.
Qed.

Lemma post_loop_wp types n ps prms shms s : params_fit (lens s) (shared s) types n ps ->
  temps_fit (lens s) types n ps shms -> Forall (fun q => 0 <= size q) prms ->
  wp (post_process_loop types n ps prms shms) (fun _ s' => same_maps s s') s.
Proof.
  revert n prms shms s. induction ps as [|p ps IH]; intros n prms shms s Hp Hf Hq; cbn [post_process_loop];
    [apply same_maps_refl|].
  destruct prms as [|q prms]; [apply same_maps_refl|]. destruct shms as [|shm shms]; [apply same_maps_refl|].
  destruct Hp as [Hp Hps], Hf as [Hf Hfs]. apply Forall_cons in Hq as [Hq Hqs].
  apply wp_bind. eapply wp_mono; [by apply post_one_wp|]. intros x s1 K1.
  apply wp_bind. eapply wp_mono.
  { apply IH; [|by rewrite (sp_lens _ _ K1)|done]. by rewrite (sp_lens _ _ K1), (sp_shared _ _ K1). }
  intros xs s2 K2. exact (same_maps_trans _ _ _ K1 K2).
Qed.

Lemma lens_munmap p s : lens (munmap p s) = delete (fst p) (lens s).
Proof.
  unfold lens, munmap. change (mem (set_mem (delete (fst p) (mem s)) s)) with (delete (fst p) (mem s)).
  apply fmap_delete.
Qed.

Lemma release_wp shm s : wp (TEEC_ReleaseSharedMemory shm)
  (fun _ s' => lens s' = unmap_all (option_list (mapped_base shm)) (lens s) /\ shared s' = shared s /\
     allocs s' = allocs s) s.
Proof.
  unfold TEEC_ReleaseSharedMemory, mapped_base. destruct (_ =? -1); [done|]. apply wp_bind.
  destruct (sm_shadow_buffer shm) as [p|]; [|destruct (sm_buffer shm) as [p|]].
  1, 2: split; [apply lens_munmap|done]. by destruct (_ <=? _).
Qed.

Lemma free_loop_wp types n shms s : wp (free_loop types n shms)
  (fun _ s' => lens s' = unmap_all (temp_bases types n shms) (lens s) /\ shared s' = shared s /\
     allocs s' = allocs s) s.
Proof.
  revert n s. induction shms as [|shm shms IH]; intros n s; cbn [free_loop]; [done|].
  apply wp_bind. cbn [temp_bases]. unfold temp_base. destruct (is_temp _).
  - apply wp_bind. eapply wp_mono; [apply release_wp|]. intros x s1 (E1 & E2 & E3). apply wp_ret.
    eapply wp_mono; [apply IH|]. intros u s2 (F1 & F2 & F3).
    rewrite unmap_all_app, <- E1, <- E2, <- E3. done.
  - apply wp_ret. eapply wp_mono; [apply IH|]. done.
Qed.

(** ** The call *)

Section Calls.
Context (tee : Z -> tee_call -> list tee_ioctl_param -> memory -> tee_answer) (TEE : tee_ok tee).

Lemma free_refs_wp op shms new s : (match op with None => new = [] | Some op => new = temp_bases (paramTypes op) 0 shms end) ->
  wp (teec_free_temp_refs op shms) (fun _ s' => lens s' = unmap_all new (lens s) /\ shared s' = shared s) s.
Proof.
  destruct op as [op|]; intros ->; [|done]. eapply wp_mono; [apply free_loop_wp|]. by intros u s' (? & ? & ?).
Qed.

Lemma post_operation_wp op prms shms s : op_fits s op ->
  (forall o, op = Some o -> temps_fit (lens s) (paramTypes o) 0 (op_params o) shms) ->
  Forall (fun q => 0 <= size q) prms ->
  wp (teec_post_process_operation op prms shms) (fun _ s' => same_maps s s') s.
Proof.
  intros Hop Hf Hq. destruct op as [o|]; [|apply same_maps_refl]. apply wp_bind.
  eapply wp_mono; [apply post_loop_wp; [done|by apply Hf|done]|]. by intros.
Qed.

Lemma run_call_wp fd c op s : allocs_ok s -> op_fits s op ->
  wp (run_call tee fd c op) (fun _ s' => lens s' = lens s /\ shared s' = shared s) s.
Proof.
  intros A Hop. unfold run_call. apply wp_bind. eapply wp_mono; [by apply pre_operation_wp|].
  intros [[res prms] shms] s1 (new & [M1 M2 M3 M4] & Hnew).
  assert (forall T (x : T) s2, lens s2 = lens s1 -> shared s2 = shared s1 ->
    wp (teec_free_temp_refs op shms ;;; ret x) (fun _ s' => lens s' = lens s /\ shared s' = shared s) s2) as Hfree.
  { intros T x s2 E1 E2. apply wp_bind. eapply wp_mono; [apply (free_refs_wp _ _ new)|].
    - destruct op; [by destruct Hnew as [-> _]|done].
    - intros u s3 [F1 F2]. apply wp_ret. by rewrite F1, F2, E1, E2. }
  destruct (Z.eqb_spec res TEEC_SUCCESS) as [->|]; cbn [negb]; [|by apply Hfree].
  apply wp_bind. unfold wp at 1, ioctl. destruct (tee fd c prms (mem s1)) as [e|r o se qs m] eqn:Et; [by apply Hfree|].
  apply TEE in Et as [Hm Hq]. assert (lens (set_mem m s1) = lens s1) as El by exact Hm.
  apply wp_bind. eapply wp_mono; [apply post_operation_wp|].
  - destruct op as [o'|]; [|done]. cbn in *. rewrite El, M3. by eapply params_fit_mono.
  - intros o' ->. rewrite El. by apply Hnew.
  - done.
  - intros op' s2 [E1 E2 _ _]. by apply Hfree; [rewrite E1|rewrite E2].
Qed.

(** C5: a command or the opening of a session returns, and leaves the mappings
    of the client as they were: every temporary reference's shared memory is
    unmapped again, whether pre-processing fails half way, the driver reports an
    error, or the secure world answers with a result; no copy leaves a buffer.
    The operation has to name memory that is there, and the secure world only to
    keep the mappings. *)
Theorem calls_release_temporary_memory s op session cmd ctx have uuid login :
  allocs_ok s -> op_fits s op ->
  (exists r s', TEEC_InvokeCommand tee session cmd op s = Some (r, s') /\
     lens s' = lens s /\ shared s' = shared s) /\
  (exists r s', TEEC_OpenSession tee ctx have uuid login op s = Some (r, s') /\
     lens s' = lens s /\ shared s' = shared s).
Proof.
  intros A Hop. split; apply wp_run.
  - unfold TEEC_InvokeCommand. destruct session as [ss|]; [|done]. apply wp_bind.
    eapply wp_mono; [by apply run_call_wp|]. by intros [[[? ?] ?] ?].
  - unfold TEEC_OpenSession. destruct ctx as [fd|]; [|done]. destruct have; [|done]. apply wp_bind.
    eapply wp_mono; [by apply run_call_wp|]. by intros [[[? ?] ?] ?].
Qed.

End Calls.

(** A secure world that adds one to every byte and returns the parameters. *)
Definition tee_inc (fd : Z) (c : tee_call) (ps : list tee_ioctl_param) (m : memory) : tee_answer :=
  if forallb (fun q => 0 <=? size q) ps then TeeDone TEEC_SUCCESS 4 1 ps ((map (fun b => u8 (b + 1))) <$> m)
  else TeeErrno 22.

Lemma tee_inc_ok : tee_ok tee_inc.
Proof.
  intros fd c ps m r o se qs m'. unfold tee_inc. destruct (forallb _ _) eqn:E; [|done]. intros [= <- <- <- <- <-]. split.
  - rewrite <- map_fmap_compose. apply map_fmap_ext. intros i x _. cbn. apply length_map.
  - apply Forall_forall. intros q Hq. rewrite forallb_forall in E. apply Z.leb_le, E. by apply list_elem_of_In.
Qed.

Lemma calls_release_temporary_memory_witness :
  let s := mkSt {[ 100 := [1; 2; 3; 4] ]} ∅ [] [Some (7, Some 500); None] in
  let op := Some (mkOp 0x77 [PTmpref (Some (100, 0)) 4; PTmpref (Some (100, 2)) 2; PValue 0 0; PValue 0 0]) in
  exists r s', TEEC_InvokeCommand tee_inc (Some (mkSession 3 9)) 1 op s = Some (r, s') /\ lens s' = lens s.
Proof.
  cbv zeta.
  destruct (calls_release_temporary_memory tee_inc tee_inc_ok
              (mkSt {[ 100 := [1; 2; 3; 4] ]} ∅ [] [Some (7, Some 500); None])
              (Some (mkOp 0x77 [PTmpref (Some (100, 0)) 4; PTmpref (Some (100, 2)) 2; PValue 0 0; PValue 0 0]))
              (Some (mkSession 3 9)) 1 None false (mkUuid 0 0 0 []) 0) as [(r & s' & H & L & _) _].
  - split; cbn.
    + intros i b H. repeat (apply elem_of_cons in H as [H|H]; [by simplify_eq|]). by apply not_elem_of_nil in H.
    + intros i b H. repeat (apply elem_of_cons in H as [H|H]; [by simplify_eq|]). by apply not_elem_of_nil in H.
    + apply NoDup_singleton.
  - cbn. split_and!; try done; (split; [done|]); right; [exists 100, 0, 4%nat|exists 100, 2, 4%nat]; done.
  - by exists r, s'.
Defined.

(** ** A failed allocation *)

(** A shared memory that has not been allocated: all zero but its size and flags. *)
Definition unallocated (shm : TEEC_SharedMemory) : Prop :=
  sm_id shm = 0 /\ sm_buffer shm = None /\ sm_shadow_buffer shm = None /\ sm_registered_fd shm = 0.

Definition temp_count (types : Z) : nat := length (filter (fun n => is_temp (TEEC_PARAM_TYPE_GET types n)) (seq 0 4)).

Lemma free_unallocated types n shms m sh c l : Forall unallocated shms ->
  free_loop types n shms (mkSt m sh c l) =
  Some (tt, mkSt m sh (c ++ replicate (length (filter (fun k => is_temp (TEEC_PARAM_TYPE_GET types k)) (seq n (length shms)))) 0) l).
Proof.
  intros Hs. revert n c. induction Hs as [|shm shms (H1 & H2 & H3 & H4) Hs IH]; intros n c; cbn [free_loop length seq].
  - cbn. by rewrite app_nil_r.
  - rewrite filter_cons. unfold bind at 1. destruct (is_temp (TEEC_PARAM_TYPE_GET types n)) eqn:Et.
    + rewrite decide_True by done. unfold TEEC_ReleaseSharedMemory. rewrite H1, H2, H3, H4.
      cbn [Z.eqb Z.leb Z.compare Z.opp]. unfold bind, modify, ret. cbn [mem shared closed allocs].
      rewrite IH, <- app_assoc. done.
    + rewrite decide_False by (by intros ?). cbn. apply IH.
Qed.

Lemma is_temp_cases t : is_temp t = true -> t = 5 \/ t = 6 \/ t = 7.
Proof. unfold is_temp, TEEC_MEMREF_TEMP_INPUT, TEEC_MEMREF_TEMP_OUTPUT, TEEC_MEMREF_TEMP_INOUT. lia. Qed.

Lemma pre_one_no_memory t b sz m sh c l : is_temp t = true -> exists prm shm,
  pre_process_one t (PTmpref b sz) (mkSt m sh c (None :: l)) =
    Some ((TEEC_ERROR_OUT_OF_MEMORY, prm, shm), mkSt m sh c l) /\ unallocated shm.
Proof.
  intros H. exists (mkParam t 0 0 0), (mkShared None sz (t - 4) 0 0 None 0). split; [|done].
  by apply is_temp_cases in H as [-> | [-> | ->]].
Qed.

(** When the first temporary reference gets no shared memory from the
    driver, the command fails with out of memory, but the clean-up then takes
    the zeroed entries for registered descriptors: it closes descriptor 0, the
    standard input of the client, once for each temporary reference of the
    operation. *)
Theorem failed_allocation_closes_stdin tee m sh c l types b sz ps ss cmd :
  length ps = 3%nat -> is_temp (TEEC_PARAM_TYPE_GET types 0) = true ->
  let op := Some (mkOp types (PTmpref b sz :: ps)) in
  TEEC_InvokeCommand tee (Some ss) cmd op (mkSt m sh c (None :: l)) =
  Some ((TEEC_ERROR_OUT_OF_MEMORY, TEEC_ORIGIN_API, op),
        mkSt m sh (c ++ replicate (temp_count types) 0) l) /\ (1 <= temp_count types)%nat.
Proof.
  intros Hl Ht. cbv zeta. destruct ps as [|p1 [|p2 [|p3 [|]]]]; try done. clear Hl.
  split; [|unfold temp_count; cbn [seq]; rewrite filter_cons, decide_True by (by apply Is_true_eq_left); cbn; lia].
  destruct (pre_one_no_memory _ b sz m sh c l Ht) as (prm & shm & E & Hu).
  unfold TEEC_InvokeCommand, run_call, teec_pre_process_operation, teec_free_temp_refs.
  cbn [paramTypes op_params pre_process_loop map]. unfold bind, ret. rewrite E. cbn [negb Z.eqb TEEC_ERROR_OUT_OF_MEMORY TEEC_SUCCESS].
  by rewrite free_unallocated by (repeat constructor; apply Hu).
Qed.

Lemma failed_allocation_closes_stdin_witness :
  TEEC_InvokeCommand tee_inc (Some (mkSession 3 9)) 1 (Some (mkOp 0x0605 [PTmpref None 16; PValue 0 0; PTmpref None 8; PValue 0 0]))
    (mkSt ∅ ∅ [] [None]) =
  Some ((TEEC_ERROR_OUT_OF_MEMORY, TEEC_ORIGIN_API,
         Some (mkOp 0x0605 [PTmpref None 16; PValue 0 0; PTmpref None 8; PValue 0 0])), mkSt ∅ ∅ [0; 0] []).
Proof.
  by apply (failed_allocation_closes_stdin tee_inc ∅ ∅ [] [] 0x0605 None 16 [PValue 0 0; PTmpref None 8; PValue 0 0]
              (mkSession 3 9) 1).
Defined.

(** ** Data through a temporary reference *)

Lemma memcpy_run d p n bs m s : n <> 0 -> load (mem s) p (Z.to_nat n) = Some bs -> store (mem s) d bs = Some m ->
  memcpy (Some d) (Some p) n s = Some (tt, set_mem m s).
Proof. intros Hn Hl Hs. unfold memcpy. rewrite (proj2 (Z.eqb_neq _ _)) by done. cbn. rewrite Hl. cbn. by rewrite Hs. Qed.

Lemma load_run m b o n bs : m !! b = Some bs -> 0 <= o -> o + Z.of_nat n <= Z.of_nat (length bs) ->
  load m (b, o) n = Some (take n (drop (Z.to_nat o) bs)).
Proof. intros Hb H0 Hn. unfold load, load_bytes. cbn. rewrite Hb. cbn. by rewrite !(proj2 (Z.leb_le _ _)) by lia. Qed.

Lemma store_run m b o src bs : m !! b = Some bs -> 0 <= o -> o + Z.of_nat (length src) <= Z.of_nat (length bs) ->
  store m (b, o) src = Some (<[b := write_at bs (Z.to_nat o) src]> m).
Proof. intros Hb H0 Hn. unfold store, store_bytes. cbn. rewrite Hb. cbn. by rewrite !(proj2 (Z.leb_le _ _)) by lia. Qed.

Lemma write_at_all {A} (l src : list A) : length src = length l -> write_at l 0 src = src.
Proof. intros H. unfold write_at. cbn. rewrite drop_ge by lia. apply app_nil_r. Qed.

Section Roundtrip.
Context (m : memory) (sh : gmap nat TEEC_SharedMemory) (c : list Z) (l : list alloc_answer).
Context (b o sz i base : Z) (bs : list Z).
Context (Hb : m !! b = Some bs) (Ho : 0 <= o) (Hsz : 0 < sz < 2 ^ 64) (Hi : 0 <= i < 2 ^ 31) (Hr : o + sz <= Z.of_nat (length bs)).
Context (Hbase : m !! base = None).

Definition sent : list Z := take (Z.to_nat sz) (drop (Z.to_nat o) bs).
Definition temp_shm : TEEC_SharedMemory := mkShared (Some (base, 0)) sz 3 i sz None (-1).

Lemma sent_length : length sent = Z.to_nat sz.
Proof. unfold sent. rewrite length_take, length_drop. lia. Qed.

Lemma base_ne : b <> base.
Proof. congruence. Qed.

Lemma allocate_run : TEEC_AllocateSharedMemory (mkShared None sz 3 0 0 None 0) (mkSt m sh c (Some (i, Some base) :: l)) =
  Some ((TEEC_SUCCESS, temp_shm), mkSt (<[base := replicate (Z.to_nat sz) 0]> m) sh c l).
Proof. unfold TEEC_AllocateSharedMemory. cbn [sm_size]. by rewrite (proj2 (Z.eqb_neq sz 0)) by lia. Qed.

(** The client's bytes go into the new mapping, *)
Lemma copy_in : memcpy (Some (base, 0)) (Some (b, o)) sz (mkSt (<[base := replicate (Z.to_nat sz) 0]> m) sh c l) =
  Some (tt, mkSt (<[base := sent]> m) sh c l).
Proof.
  pose proof base_ne. pose proof sent_length.
  rewrite (memcpy_run _ _ _ sent (<[base := sent]> m)); [done|lia|..]; cbn [mem].
  - apply load_run; [by rewrite lookup_insert_ne|done|lia].
  - rewrite (store_run _ _ _ _ (replicate (Z.to_nat sz) 0)); [|apply lookup_insert_eq|done|rewrite length_replicate; lia].
    rewrite insert_insert_eq, write_at_all; [done|]. rewrite length_replicate. lia.
Qed.

Lemma pre_inout : pre_process_one TEEC_MEMREF_TEMP_INOUT (PTmpref (Some (b, o)) sz) (mkSt m sh c (Some (i, Some base) :: l)) =
  Some ((TEEC_SUCCESS, mkParam TEEC_MEMREF_TEMP_INOUT 0 sz i, temp_shm), mkSt (<[base := sent]> m) sh c l).
Proof.
  unfold pre_process_one. cbn [Z.eqb]. change (teec_pre_process_tmpref 7 (Some (b, o)) sz zero_shm
    (mkSt m sh c (Some (i, Some base) :: l)) = Some ((TEEC_SUCCESS, mkParam 7 0 sz i, temp_shm), mkSt (<[base := sent]> m) sh c l)).
  unfold teec_pre_process_tmpref. cbn [Z.eqb].
  change (bind (TEEC_AllocateSharedMemory (mkShared None sz 3 0 0 None 0)) (fun r =>
    let '(res, shm) := r in
      if negb (res =? TEEC_SUCCESS) then ret (res, mkParam 7 0 0 0, shm) else
      memcpy (sm_buffer shm) (Some (b, o)) sz ;;;
      ret (TEEC_SUCCESS, set_c (sm_id shm) (set_size sz (mkParam 7 0 0 0)), shm)) (mkSt m sh c (Some (i, Some base) :: l)) =
    Some ((TEEC_SUCCESS, mkParam 7 0 sz i, temp_shm), mkSt (<[base := sent]> m) sh c l)).
  unfold bind at 1. rewrite allocate_run. cbn [negb Z.eqb TEEC_SUCCESS sm_buffer temp_shm].
  unfold bind. rewrite copy_in. unfold ret, set_c, set_size, set_b. cbn [attr u_a u_b u_c sm_id temp_shm].
  unfold u64. by rewrite !Z.mod_small by lia.
Qed.

(** and the secure world's bytes back. *)
Lemma copy_out out n : length out = Z.to_nat sz -> 0 <= n <= sz ->
  memcpy (Some (b, o)) (Some (base, 0)) n (mkSt (<[base := out]> m) sh c l) =
  Some (tt, mkSt (<[b := write_at bs (Z.to_nat o) (take (Z.to_nat n) out)]> (<[base := out]> m)) sh c l).
Proof.
  intros Hl Hn. pose proof base_ne. destruct (Z.eqb_spec n 0) as [->|Hn0].
  - unfold memcpy. cbn [Z.eqb]. do 3 f_equal. symmetry. apply insert_id. rewrite lookup_insert_ne by done.
    rewrite Hb. f_equal. change (take (Z.to_nat 0) out) with (@nil Z). unfold write_at. cbn. by rewrite Nat.add_0_r, take_drop.
  - rewrite (memcpy_run _ _ _ (take (Z.to_nat n) out)
      (<[b := write_at bs (Z.to_nat o) (take (Z.to_nat n) out)]> (<[base := out]> m))); [done|lia|..]; cbn [mem].
    + rewrite (load_run _ _ _ _ out); [by rewrite drop_0|apply lookup_insert_eq|done|lia].
    + apply store_run; [by rewrite lookup_insert_ne|done|]. rewrite length_take. lia.
Qed.

Lemma post_inout out q : length out = Z.to_nat sz -> 0 <= size q <= sz ->
  post_process_one TEEC_MEMREF_TEMP_INOUT (PTmpref (Some (b, o)) sz) q temp_shm (mkSt (<[base := out]> m) sh c l) =
  Some (PTmpref (Some (b, o)) (size q),
        mkSt (<[b := write_at bs (Z.to_nat o) (take (Z.to_nat (size q)) out)]> (<[base := out]> m)) sh c l).
Proof.
  intros Hl Hq.
  change (post_process_one TEEC_MEMREF_TEMP_INOUT (PTmpref (Some (b, o)) sz) q temp_shm) with
    (bind (if (size q <=? sz) && true then memcpy (Some (b, o)) (Some (base, 0)) (size q) else ret tt)
      (fun _ => @ret st _ (PTmpref (Some (b, o)) (size q)))).
  rewrite (proj2 (Z.leb_le _ _)) by lia. cbn [andb]. unfold bind. by rewrite copy_out.
Qed.

Lemma free_inout m' x : m' !! base = None ->
  free_loop TEEC_MEMREF_TEMP_INOUT 0 [temp_shm; zero_shm; zero_shm; zero_shm] (mkSt (<[base := x]> m') sh c l) =
  Some (tt, mkSt m' sh c l).
Proof.
  intros Hn.
  change (free_loop TEEC_MEMREF_TEMP_INOUT 0 [temp_shm; zero_shm; zero_shm; zero_shm]) with
    ((TEEC_ReleaseSharedMemory temp_shm ;;; ret tt) ;;; ret tt ;;; ret tt ;;; ret tt ;;; @ret st _ tt).
  unfold TEEC_ReleaseSharedMemory. cbn [sm_id temp_shm sm_shadow_buffer sm_buffer].
  rewrite (proj2 (Z.eqb_neq _ _)) by lia. unfold bind, modify, munmap, set_mem, ret. cbn [mem shared closed allocs fst].
  by rewrite delete_insert_id.
Qed.

(** Parameters of type none pass. *)
Lemma pre_inout_op p1 p2 p3 :
  pre_process_loop TEEC_MEMREF_TEMP_INOUT 0 [PTmpref (Some (b, o)) sz; p1; p2; p3] (mkSt m sh c (Some (i, Some base) :: l)) =
  Some ((TEEC_SUCCESS, [mkParam TEEC_MEMREF_TEMP_INOUT 0 sz i; zero_param; zero_param; zero_param],
         [temp_shm; zero_shm; zero_shm; zero_shm]), mkSt (<[base := sent]> m) sh c l).
Proof.
  cbn [pre_process_loop]. change (TEEC_PARAM_TYPE_GET TEEC_MEMREF_TEMP_INOUT 0) with TEEC_MEMREF_TEMP_INOUT.
  unfold bind at 1. by rewrite pre_inout.
Qed.

Lemma post_inout_op p1 p2 p3 q q1 q2 q3 out : length out = Z.to_nat sz -> 0 <= size q <= sz ->
  post_process_loop TEEC_MEMREF_TEMP_INOUT 0 [PTmpref (Some (b, o)) sz; p1; p2; p3] [q; q1; q2; q3]
    [temp_shm; zero_shm; zero_shm; zero_shm] (mkSt (<[base := out]> m) sh c l) =
  Some ([PTmpref (Some (b, o)) (size q); p1; p2; p3],
        mkSt (<[b := write_at bs (Z.to_nat o) (take (Z.to_nat (size q)) out)]> (<[base := out]> m)) sh c l).
Proof.
  intros Hl Hq. cbn [post_process_loop].
  change (TEEC_PARAM_TYPE_GET TEEC_MEMREF_TEMP_INOUT 0) with TEEC_MEMREF_TEMP_INOUT.
  unfold bind at 1. by rewrite post_inout.
Qed.

(** C29: a command with one in-out temporary reference shows the secure world
    exactly the client's bytes, in shared memory of that length, and brings the
    bytes the secure world leaves there back: the first [size q] of them replace
    the client's, the size of the reference becomes [size q], no other byte of
    the client changes and the shared memory is gone. *)
Theorem invoke_inout_roundtrip tee fd sid cmd p1 p2 p3 ret_ orig se q qs out :
  tee fd (TEE_IOC_INVOKE sid cmd) [mkParam TEEC_MEMREF_TEMP_INOUT 0 sz i; zero_param; zero_param; zero_param]
    (<[base := sent]> m) = TeeDone ret_ orig se (q :: qs) (<[base := out]> m) ->
  length qs = 3%nat -> length out = Z.to_nat sz -> 0 <= size q <= sz ->
  TEEC_InvokeCommand tee (Some (mkSession fd sid)) cmd
    (Some (mkOp TEEC_MEMREF_TEMP_INOUT [PTmpref (Some (b, o)) sz; p1; p2; p3]))
    (mkSt m sh c (Some (i, Some base) :: l)) =
  Some ((ret_, orig, Some (mkOp TEEC_MEMREF_TEMP_INOUT [PTmpref (Some (b, o)) (size q); p1; p2; p3])),
        mkSt (<[b := write_at bs (Z.to_nat o) (take (Z.to_nat (size q)) out)]> m) sh c l).
Proof.
  intros Htee Hqs Hout Hq. destruct qs as [|q1 [|q2 [|q3 [|]]]]; try done. pose proof base_ne.
  unfold TEEC_InvokeCommand, run_call, teec_pre_process_operation, teec_post_process_operation, teec_free_temp_refs.
  cbn [paramTypes op_params s_ctx session_id]. unfold bind. rewrite pre_inout_op. cbn [negb Z.eqb TEEC_SUCCESS].
  unfold ioctl. cbn [mem]. rewrite Htee. cbn [set_mem shared closed allocs]. unfold set_mem. cbn [shared closed allocs].
  rewrite post_inout_op by done. cbn [ret]. rewrite insert_insert_ne by done.
  rewrite free_inout by (by rewrite lookup_insert_ne). done.
Qed.
End Roundtrip.

(** A secure world that answers 9, 8 in the mapping 900 and says that it used one byte. *)
Definition tee_98 (fd : Z) (cmd : tee_call) (ps : list tee_ioctl_param) (m : memory) : tee_answer :=
  match ps with
  | p :: ps => TeeDone TEEC_SUCCESS 4 0 (set_size 1 p :: ps) (<[900 := [9; 8]]> m)
  | [] => TeeErrno 22
  end.

Lemma invoke_inout_roundtrip_witness :
  TEEC_InvokeCommand tee_98 (Some (mkSession 3 1)) 77
    (Some (mkOp TEEC_MEMREF_TEMP_INOUT [PTmpref (Some (100, 1)) 2; PValue 0 0; PValue 0 0; PValue 0 0]))
    (mkSt {[ 100 := [1; 2; 3; 4] ]} ∅ [] [Some (5, Some 900)]) =
  Some ((TEEC_SUCCESS, 4, Some (mkOp TEEC_MEMREF_TEMP_INOUT [PTmpref (Some (100, 1)) 1; PValue 0 0; PValue 0 0; PValue 0 0])),
        mkSt {[ 100 := [1; 9; 3; 4] ]} ∅ [] []).
Proof.
  etransitivity;
    [apply (invoke_inout_roundtrip {[ 100 := [1; 2; 3; 4] ]} ∅ [] [] 100 1 2 5 900 [1; 2; 3; 4]) with (se := 0)
       (q := mkParam 7 0 1 5) (qs := [zero_param; zero_param; zero_param]) (out := [9; 8])|]; try (by vm_compute).
Defined.

(** ** The context *)

Section Context_.
Context (sys_open : list Z -> gset Z -> option Z) (version : Z -> option (Z * Z * Z)).
Context (OPEN : forall name fds fd, sys_open name fds = Some fd -> 0 <= fd /\ fd ∉ fds).

Lemma open_dev_spec devname caps fds :
  (exists fd, teec_open_dev sys_open version devname caps fds = Some (fd, {[fd]} ∪ fds) /\ 0 <= fd /\ fd ∉ fds /\
     sys_open devname fds = Some fd /\ version_ok (version fd) caps = true) \/
  (teec_open_dev sys_open version devname caps fds = Some (-1, fds) /\
   forall fd, sys_open devname fds = Some fd -> version_ok (version fd) caps = false).
Proof.
  unfold teec_open_dev, bind, get, close, modify, ret.
  destruct (sys_open devname fds) as [fd|] eqn:Eo; [|by right].
  apply OPEN in Eo as Hf. destruct Hf as [H0 Hn]. destruct (version_ok (version fd) caps) eqn:Ev.
  - left. by exists fd.
  - right. split; [|by intros ? [= <-]]. do 2 f_equal. set_solver.
Qed.

Lemma context_loop_spec k n name fds :
  (exists j fd, (n <= j < n + k)%nat /\ context_loop sys_open version k n name fds = Some ((TEEC_SUCCESS, Some fd), {[fd]} ∪ fds) /\
     fd ∉ fds /\ sys_open (dev_tee j) fds = Some fd /\ version_ok (version fd) name = true) \/
  (context_loop sys_open version k n name fds = Some ((TEEC_ERROR_ITEM_NOT_FOUND, None), fds) /\
   forall j fd, (n <= j < n + k)%nat -> sys_open (dev_tee j) fds = Some fd -> version_ok (version fd) name = false).
Proof.
  revert n. induction k as [|k IH]; intros n; cbn [context_loop]; [right; split; [done|lia]|].
  unfold bind. destruct (open_dev_spec (dev_tee n) name fds) as [(fd & -> & H0 & Hn & Ho & Hv)|[-> Hno]].
  - left. exists n, fd. rewrite (proj2 (Z.leb_le 0 fd)) by done. split_and!; [lia|lia|done..].
  - cbn [Z.leb Z.compare]. destruct (IH (S n)) as [(j & fd & Hj & E & H)|[E H]].
    + left. exists j, fd. split; [lia|done].
    + right. split; [done|]. intros j fd Hj Ho. destruct (decide (j = n)) as [->|]; [by apply Hno|].
      apply (H j); [lia|done].
Qed.

(** Initialising a context tries the ten devices in turn: it opens one
    that answers the version request with the wanted capabilities and keeps
    exactly that descriptor, which finalising the context gives back, or, when
    none of the ten does, reports not found; descriptors of devices that were
    refused on the way are closed again. *)
Theorem context_descriptors name fds :
  (exists j fd fds', TEEC_InitializeContext sys_open version name true fds = Some ((TEEC_SUCCESS, Some fd), fds') /\
     (j < 10)%nat /\ sys_open (dev_tee j) fds = Some fd /\ version_ok (version fd) name = true /\
     fds' = {[fd]} ∪ fds /\ TEEC_FinalizeContext (Some fd) fds' = Some (tt, fds)) \/
  (TEEC_InitializeContext sys_open version name true fds = Some ((TEEC_ERROR_ITEM_NOT_FOUND, None), fds) /\
   forall j fd, (j < 10)%nat -> sys_open (dev_tee j) fds = Some fd -> version_ok (version fd) name = false).
Proof.
  unfold TEEC_InitializeContext. cbn [negb].
  destruct (context_loop_spec TEEC_MAX_DEV_SEQ 0 name fds) as [(j & fd & Hj & E & Hn & Ho & Hv)|[E H]].
  - left. exists j, fd, ({[fd]} ∪ fds). split_and!; [done|apply Hj|done..|].
    unfold TEEC_FinalizeContext, close, modify. do 2 f_equal. set_solver.
  - right. split; [done|]. intros j fd Hj. apply H. unfold TEEC_MAX_DEV_SEQ. lia.
Qed.
End Context_.

(** The descriptor above all open ones; only the second device is there. *)
Definition open_second (name : list Z) (fds : gset Z) : option Z :=
  if bool_decide (name = dev_tee 1) then Some (foldr (fun x n => Z.max (x + 1) n) 0 (elements fds)) else None.

Lemma open_second_ok name fds fd : open_second name fds = Some fd -> 0 <= fd /\ fd ∉ fds.
Proof.
  unfold open_second. destruct (bool_decide _); [|done]. intros [= <-].
  assert (forall l, 0 <= foldr (fun x n => Z.max (x + 1) n) 0 l /\
    forall x, x ∈ l -> x < foldr (fun x n => Z.max (x + 1) n) 0 l) as H.
  { induction l as [|y l [H1 H2]]; cbn; [split; [done|by intros x []%not_elem_of_nil]|]. split; [lia|].
    intros x [->|Hx]%elem_of_cons; [lia|]. apply H2 in Hx. lia. }
  destruct (H (elements fds)) as [H1 H2]. split; [done|]. intros Hin%elem_of_elements%H2. lia.
Qed.

Lemma context_descriptors_witness :
  TEEC_InitializeContext open_second (fun _ => Some (1, 1, 1)) (Some optee_tz) true {[4]} =
    Some ((TEEC_SUCCESS, Some 5), {[5]} ∪ {[4]}).
Proof.
  destruct (context_descriptors open_second (fun _ => Some (1, 1, 1)) open_second_ok (Some optee_tz) {[4]})
    as [(j & fd & fds' & E & Hj & Ho & Hv & -> & Hf)|[E H]].
  - rewrite E. assert (fd = 5) as -> by (unfold open_second in Ho; destruct (bool_decide _); [vm_compute in Ho; congruence|done]).
    done.
  - specialize (H 1%nat 5 ltac:(lia) eq_refl). done.
Defined.

(** ** Identifiers *)

(** The identifier of a trusted application survives the way from the
    client library, which puts it in the byte order of the interface, to the
    supplicant, which reads it back to name the file of the application. *)
Theorem uuid_roundtrip u : uuid_ok u ->
  length (uuid_to_octets u) = 16%nat /\ uuid_from_octets (uuid_to_octets u) = u.
Proof. apply uuid_octets. Qed.

Lemma uuid_roundtrip_witness :
  let u := mkUuid 0x8aaaf200 0x2450 0x11e4 [0xab; 0xe2; 0; 2; 0xa5; 0xd5; 0xc5; 0x1b] in
  uuid_from_octets (uuid_to_octets u) = u.
Proof. cbv zeta. apply uuid_roundtrip. by repeat split. Defined.

End TeecThm.
