(* ===== verification/CString.v ===== *)
(** * C strings

    A C string is the list of its bytes before the NUL.  The functions of the C
    library that the configuration parsers use, as the standard defines them;
    nothing here models code of the repository. *)

From stdpp Require Import base tactics option list list_numbers numbers.
From Stdlib Require Import ZArith Lia.
From Stdlib Require Ascii String.
From S2P Require Import Prelude.

Import String.StringSyntax.

Local Open Scope Z_scope.
Local Open Scope list_scope.

Module CString.

(** A string constant. *)
Definition bytes (s : String.string) : list Z :=
  map (fun c => Z.of_nat (Ascii.nat_of_ascii c)) (String.list_ascii_of_string s).
Arguments bytes s%_string_scope.

Definition NL : Z := 10.
Definition CR : Z := 13.
Definition SP : Z := 32.
Definition QUOTE : Z := 34.
Definition HASH : Z := 35.
Definition SLASH : Z := 47.
Definition COLON : Z := 58.
Definition EQUALS : Z := 61.

(** ** Prefixes *)

Fixpoint drop_while (p : Z -> bool) (l : list Z) : list Z :=
  match l with x :: t => if p x then drop_while p t else l | [] => [] end.

Fixpoint take_while (p : Z -> bool) (l : list Z) : list Z :=
  match l with x :: t => if p x then x :: take_while p t else [] | [] => [] end.

(** The string in an array of characters. *)
Definition cstr (l : list Z) : list Z := take_while (fun c => negb (c =? 0)) l.

Definition skip_spaces : list Z -> list Z := drop_while (fun c => c =? SP).

(** [strncmp(l, key, strlen(key)) == 0] *)
Definition starts (key l : list Z) : bool := bool_decide (take (length key) l = key).

(** The first character, 0 at the end of the string. *)
Definition first (l : list Z) : Z := default 0 (head l).

(** The offset of the first occurrence of [rep]. *)
Fixpoint strstr (l rep : list Z) : option nat :=
  if starts rep l then Some O else
  match l with [] => None | _ :: t => S <$> strstr t rep end.

(** ** Numbers *)

Definition isspace (c : Z) : bool := (c =? 32) || ((9 <=? c) && (c <=? 13)).

Definition digit_val (c : Z) : Z :=
  if (48 <=? c) && (c <=? 57) then c - 48
  else if (97 <=? c) && (c <=? 122) then c - 87
  else if (65 <=? c) && (c <=? 90) then c - 55 else 36.

Fixpoint digits_from (base acc : Z) (l : list Z) : Z :=
  match l with
  | c :: t => if digit_val c <? base then digits_from base (acc * base + digit_val c) t else acc
  | [] => acc
  end.

(** The base and the text after a prefix 0x or 0. *)
Definition base_of (base : Z) (l : list Z) : Z * list Z :=
  let hex := match l with
             | c :: x :: d :: _ => (c =? 48) && ((x =? 120) || (x =? 88)) && (digit_val d <? 16)
             | _ => false
             end in
  if ((base =? 0) || (base =? 16)) && hex then (16, drop 2 l)
  else if base =? 0 then (if first l =? 48 then 8 else 10, l) else (base, l).

(** [strtoul] of a 64-bit [unsigned long]. *)
Definition strtoul (base : Z) (l : list Z) : Z :=
  let l := drop_while isspace l in
  let neg := first l =? 45 in
  let l := if (first l =? 45) || (first l =? 43) then tail l else l in
  let '(base, l) := base_of base l in
  let v := digits_from base 0 l in
  if 2 ^ 64 <=? v then 2 ^ 64 - 1 else if neg then u64 (- v) else v.

(** [strtok]: the token and the text it continues with. *)
Definition strtok (delim : Z) (l : list Z) : option (list Z * list Z) :=
  match drop_while (fun c => c =? delim) l with
  | [] => None
  | l => let t := take_while (fun c => negb (c =? delim)) l in Some (t, drop (S (length t)) l)
  end.

(** ** Lines *)

(** [while (fgets(buf, max + 1, fp))]: the lines, with their newlines, none
    longer than [max]. *)
Fixpoint lines_from (max : nat) (acc : list Z) (l : list Z) : list (list Z) :=
  match l with
  | [] => if (length acc =? 0)%nat then [] else [acc]
  | c :: t =>
      let acc := acc ++ [c] in
      if (c =? NL) || (length acc =? max)%nat then acc :: lines_from max [] t else lines_from max acc t
  end.

(** ** Printing *)

Definition hexd (up : bool) (d : Z) : Z := if d <? 10 then 48 + d else (if up then 55 else 87) + d.

(** [%0<n>x] or [%0<n>X] of a number with at most [n] digits. *)
Fixpoint hexn (up : bool) (n : nat) (v : Z) : list Z :=
  match n with
  | O => []
  | S n => hexd up ((v / 16 ^ Z.of_nat n) mod 16) :: hexn up n v
  end.

(** [%x] *)
Definition hexlen (v : Z) : nat := Z.to_nat (Z.log2 v / 4 + 1).
Definition printx (v : Z) : list Z := hexn false (hexlen v) v.

(** ** Lemmas *)

Lemma drop_while_none p l : (forall c, head l = Some c -> p c = false) -> drop_while p l = l.
Proof. destruct l as [|c t]; [done|]. intros H. cbn. by rewrite H. Qed.

Lemma drop_while_app p a b : Forall (fun c => p c = true) a -> drop_while p (a ++ b) = drop_while p b.
Proof. intros H. induction H as [|c a Hc H IH]; [done|]. cbn. by rewrite Hc. Qed.

Lemma take_while_all p l : Forall (fun c => p c = true) l -> take_while p l = l.
Proof. intros H. induction H as [|c l Hc H IH]; [done|]. cbn. by rewrite Hc, IH. Qed.

Lemma take_while_app p a b : Forall (fun c => p c = true) a -> (forall c, head b = Some c -> p c = false) ->
  take_while p (a ++ b) = a.
Proof.
  intros H Hb. induction H as [|c a Hc H IH]; cbn; [|by rewrite Hc, IH].
  destruct b as [|c b]; [done|]. cbn. by rewrite Hb.
Qed.

Lemma starts_app key l : starts key (key ++ l) = true.
Proof. unfold starts. rewrite take_app_length. by apply bool_decide_eq_true. Qed.

Lemma starts_spec rep l : starts rep l = true <-> exists t, l = rep ++ t.
Proof.
  unfold starts. rewrite bool_decide_eq_true. split.
  - intros H. exists (drop (length rep) l). by rewrite <- H at 1; rewrite take_drop.
  - intros [t ->]. apply take_app_length.
Qed.

Lemma strstr_some l rep off : strstr l rep = Some off -> exists a b, l = a ++ rep ++ b /\ length a = off.
Proof.
  revert off. induction l as [|c l IH]; intros off; cbn [strstr].
  - destruct (starts rep []) eqn:E; [|done]. intros [= <-]. apply starts_spec in E as [t E]. by exists [], t.
  - destruct (starts rep (c :: l)) eqn:E.
    + intros [= <-]. apply starts_spec in E as [t E]. by exists [], t.
    + intros (k & Hk & ->)%fmap_Some. destruct (IH k Hk) as (a & b & -> & <-). by exists (c :: a), b.
Qed.

Lemma hexd_val up d : 0 <= d < 16 -> digit_val (hexd up d) = d.
Proof.
  intros Hd. unfold hexd, digit_val. destruct (Z.ltb_spec d 10).
  - rewrite !(proj2 (Z.leb_le _ _)) by lia. cbn. lia.
  - destruct up.
    + rewrite (proj2 (Z.leb_gt (55 + d) 57)), (proj2 (Z.leb_gt 97 (55 + d))) by lia. rewrite !andb_false_r.
      cbn [andb]. rewrite !(proj2 (Z.leb_le _ _)) by lia. cbn. lia.
    + rewrite (proj2 (Z.leb_gt (87 + d) 57)) by lia. rewrite andb_false_r. rewrite !(proj2 (Z.leb_le _ _)) by lia. cbn. lia.
Qed.

Lemma length_hexn up n v : length (hexn up n v) = n.
Proof. induction n as [|n IH]; [done|]. cbn. by rewrite IH. Qed.

Lemma digits_hexn up n v acc l : 0 <= v ->
  (forall c, head l = Some c -> 16 <= digit_val c) ->
  digits_from 16 acc (hexn up n v ++ l) = acc * 16 ^ Z.of_nat n + v mod 16 ^ Z.of_nat n.
Proof.
  intros Hv Hl. revert acc. induction n as [|n IH]; intros acc.
  - cbn [hexn app]. rewrite Z.mod_1_r, Z.mul_1_r, Z.add_0_r. destruct l as [|c l]; [done|]. cbn.
    specialize (Hl c eq_refl). by rewrite (proj2 (Z.ltb_ge _ _)) by lia.
  - cbn [hexn app digits_from]. pose proof (Z.mod_pos_bound (v / 16 ^ Z.of_nat n) 16 ltac:(lia)) as Hm.
    rewrite hexd_val, (proj2 (Z.ltb_lt _ _)), IH by lia.
    rewrite Nat2Z.inj_succ, Z.pow_succ_r by lia. set (k := 16 ^ Z.of_nat n). assert (0 < k) by (unfold k; lia).
    rewrite (Z.mul_comm 16 k), Z.rem_mul_r by lia. lia.
Qed.

(** Text that starts with a digit has no white space, sign or 0x in front. *)
Lemma strtoul_hex up n v l : 0 <= v < 16 ^ Z.of_nat n -> v < 2 ^ 64 -> (0 < n)%nat ->
  (forall c, head l = Some c -> 16 <= digit_val c) -> (forall c, head l = Some c -> c <> 120 /\ c <> 88) ->
  strtoul 16 (hexn up n v ++ l) = v.
Proof.
  intros Hv H64 Hn Hl Hx. unfold strtoul.
  assert (exists d t, hexn up n v = hexd up d :: t /\ 0 <= d < 16) as (d & t & E & Hd).
  { destruct n as [|n]; [lia|]. cbn. eexists _, _. split; [done|]. by apply Z.mod_pos_bound. }
  assert (forall c, digit_val c < 16 -> isspace c = false /\ c <> 45 /\ c <> 43 /\ c <> 120 /\ c <> 88) as Hdig.
  { intros c. unfold digit_val, isspace. intros H. repeat case_match; lia. }
  destruct (Hdig (hexd up d)) as (Hs & Hm & Hp & _); [rewrite hexd_val; lia|].
  rewrite (drop_while_none isspace) by (rewrite E; by intros c [= <-]).
  replace (first (hexn up n v ++ l)) with (hexd up d) by (by rewrite E).
  rewrite (proj2 (Z.eqb_neq _ 45)), (proj2 (Z.eqb_neq _ 43)) by done. cbn [orb].
  assert (base_of 16 (hexn up n v ++ l) = (16, hexn up n v ++ l)) as ->.
  { unfold base_of. cbn [Z.eqb Pos.eqb orb andb]. destruct (hexn up n v ++ l) as [|c [|x [|y r]]] eqn:El; try done.
    replace ((x =? 120) || (x =? 88)) with false; [by rewrite andb_false_r|]. symmetry. apply orb_false_iff.
    destruct n as [|[|n]]; [lia| |].
    - cbn in El. injection El as _ ->. destruct (Hx x eq_refl). split; by apply Z.eqb_neq.
    - cbn [hexn app] in El. injection El as _ <- _.
      pose proof (Z.mod_pos_bound (v / 16 ^ Z.of_nat n) 16 ltac:(lia)) as Hb.
      destruct (Hdig (hexd up ((v / 16 ^ Z.of_nat n) mod 16))) as (_ & _ & _ & H1 & H2); [rewrite hexd_val; lia|].
      split; by apply Z.eqb_neq. }
  rewrite digits_hexn by (done || lia). rewrite Z.mod_small by done. cbn. by rewrite (proj2 (Z.leb_gt _ _)) by lia.
Qed.

(** The same after 0x, with the base found from it. *)
Lemma strtoul_0x up n v l : 0 <= v < 16 ^ Z.of_nat n -> v < 2 ^ 64 -> (0 < n)%nat ->
  (forall c, head l = Some c -> 16 <= digit_val c) -> strtoul 0 ([48; 120] ++ hexn up n v ++ l) = v.
Proof.
  intros Hv H64 Hn Hl. unfold strtoul. cbn [app drop_while]. change (isspace 48) with false. cbv iota.
  change (first (48 :: 120 :: hexn up n v ++ l)) with 48. cbn [Z.eqb Pos.eqb orb].
  assert (base_of 0 (48 :: 120 :: hexn up n v ++ l) = (16, hexn up n v ++ l)) as ->.
  { unfold base_of. destruct n as [|n]; [lia|]. cbn [hexn app].
    rewrite hexd_val by (apply Z.mod_pos_bound; lia). rewrite (proj2 (Z.ltb_lt _ 16)) by (apply Z.mod_pos_bound; lia). done. }
  rewrite digits_hexn by (lia || done). rewrite Z.mod_small by lia. cbn. by rewrite (proj2 (Z.leb_gt _ _)) by lia.
Qed.

Lemma strtok_token delim a b : a <> [] -> Forall (fun c => c <> delim) a ->
  strtok delim (a ++ delim :: b) = Some (a, b).
Proof.
  intros Ha H. unfold strtok. rewrite (drop_while_none _ (a ++ delim :: b)).
  - destruct a as [|c a]; [done|]. cbn [app]. change (c :: a ++ delim :: b) with ((c :: a) ++ delim :: b).
    rewrite (take_while_app _ (c :: a)).
    + f_equal. f_equal. change (c :: a ++ delim :: b) with ((c :: a) ++ delim :: b).
      rewrite cons_middle, app_assoc. apply drop_app_length'. rewrite length_app. cbn. lia.
    + eapply List.Forall_impl; [|exact H]. intros x Hx. cbn. by rewrite (proj2 (Z.eqb_neq x delim) Hx).
    + intros x [= <-]. by rewrite Z.eqb_refl.
  - intros x. destruct a as [|c a]; [done|]. intros [= <-]. apply Forall_cons_1 in H as [H _]. by apply Z.eqb_neq.
Qed.

Lemma strtok_last delim a : a <> [] -> Forall (fun c => c <> delim) a -> strtok delim a = Some (a, []).
Proof.
  intros Ha H. unfold strtok. rewrite (drop_while_none _ a).
  - destruct a as [|c a]; [done|]. rewrite take_while_all.
    + f_equal. f_equal. apply drop_ge. lia.
    + eapply List.Forall_impl; [|exact H]. intros x Hx. cbn. by rewrite (proj2 (Z.eqb_neq x delim) Hx).
  - intros x. destruct a as [|c a]; [done|]. intros [= <-]. apply Forall_cons_1 in H as [H _]. by apply Z.eqb_neq.
Qed.

End CString.
