(* ===== verification/IspServer.v ===== *)
(** * The command threads of the ISP tuning server (camera/3_4/allwinnertech/
      libAWIspApi/awTunningApp/tuning_app/server/server_core.c, register_opt.c)

    One thread serves one socket: it reads a request packet, does what it
    asks for with the capture, ISP, register or shell module, and answers.
    The packets and the socket are those of SockProto; the modules of capturing,
    of the ISP library and of the shell are an interface ([IspEnv]); the register
    files are written with the shell commands of register_opt.c.

    The packets are those without the field [index] of ISP version 522.

    [None] (a stuck computation) is undefined behaviour, such as more bytes
    read than a buffer has, or a thread that blocks for ever. *)

From stdpp Require Import base tactics option list list_numbers numbers.
From Stdlib Require Import ZArith Lia.
From Stdlib Require Ascii String.
From S2P Require Import Prelude CString SockProto RawFlow.

Import String.StringSyntax.

Local Open Scope Z_scope.
Local Open Scope c_scope.

Module IspServer.

Import CString SockProto.

(** ** Packets *)

Definition SOCK_DEFAULT_TIMEOUT : Z := 30.
Definition SOCK_CMD_TUNING : Z := 1.
Definition SOCK_CMD_GET_CFG : Z := 2.
Definition SOCK_CMD_SET_CFG : Z := 3.
Definition SOCK_CMD_UPDATE_CFG : Z := 4.
Definition SOCK_CMD_ISP_SEL : Z := 5.
Definition SOCK_CMD_CAPTURE : Z := 6.
Definition SOCK_CMD_PREVIEW : Z := 7.
Definition SOCK_CMD_GET_STAT : Z := 8.
Definition SOCK_CMD_STAT_AE : Z := 9.
Definition SOCK_CMD_STAT_AWB : Z := 10.
Definition SOCK_CMD_STAT_AF : Z := 11.
Definition SOCK_CMD_SCRIPT : Z := 12.
Definition SOCK_CMD_HEART_JUMP : Z := 13.
Definition SOCK_CMD_REGOPT : Z := 21.
Definition SOCK_CMD_REG_SETCFG : Z := 22.
Definition SOCK_CMD_REG_READ : Z := 23.
Definition SOCK_CMD_REG_WRITE : Z := 24.
Definition SOCK_CMD_AE_LV : Z := 25.
Definition SOCK_CMD_SET_INPUT : Z := 26.
Definition SOCK_CMD_RAW_FLOW : Z := 27.
Definition SOCK_CMD_RAW_FLOW_START : Z := 28.
Definition SOCK_CMD_RAW_FLOW_STOP : Z := 29.
Definition SOCK_CMD_RAW_FLOW_GET : Z := 30.
Definition SOCK_CMD_ISP_VERSION : Z := 35.
Definition SOCK_CMD_RET_FAILED : Z := 2.

(** [ntohl] of the word at an offset, as an [int]. *)
Definition word (p : list Z) (off : nat) : Z :=
  s32 ((p !!! off) * 2 ^ 24 + (p !!! (off + 1)%nat) * 2 ^ 16 + (p !!! (off + 2)%nat) * 2 ^ 8
       + p !!! (off + 3)%nat).

Definition data_length (p : list Z) : Z := word p 16.
Definition reserved (p : list Z) (i : nat) : Z := word p (20 + 4 * i).
Definition framecount (p : list Z) : Z := word p 36.

(** [comm_packet.ret = htonl(v)] and the like *)
Definition put (off : nat) (v : Z) (p : list Z) : list Z := write_at p off (be32 v).
Definition set_ret (v : Z) (p : list Z) : list Z := put 12 v p.
Definition set_data_length (v : Z) (p : list Z) : list Z := put 16 v p.
Definition set_reserved (i : nat) (v : Z) (p : list Z) : list Z := put (20 + 4 * i) v p.

Definition hi16 (x : Z) : Z := Z.land (Z.shiftr x 16) 0xffff.
Definition lo16 (x : Z) : Z := Z.land x 0xffff.

(** ** Modules *)

Record sensor_input := mkInput {
  in_isp : Z; in_channel : Z; in_width : Z; in_height : Z; in_fps : Z; in_wdr : Z
}.

(** What the threads call: isp_handle.c and the ISP library, capture_image.c,
    mini_shell.c, and [malloc], [system] and files of the C library. *)
Class IspEnv (W : Type) := {
  malloc : W -> Z -> option (list Z) * W;
  select_isp : W -> Z -> Z * W;
  (** the size of [struct isp_params_cfg] *)
  cfg_size : Z;
  isp_get_cfg : W -> Z -> Z -> Z -> list Z -> Z * list Z * W;
  isp_set_cfg : W -> Z -> Z -> Z -> list Z -> Z * W;
  isp_update : W -> Z -> Z * W;
  cfg_to_network : Z -> Z -> list Z -> list Z;
  cfg_to_local : Z -> Z -> list Z -> list Z;
  (** the statistics of a kind, in network order *)
  isp_stats_req : W -> Z -> Z * W;
  stats_info : W -> Z -> list Z;
  isp_get_lv : W -> Z -> Z * W;
  get_isp_version : W -> list Z * W;
  set_sensor_input : W -> sensor_input -> Z * W;
  get_capture_buffer : W -> RawFlow.capture_format -> Z * RawFlow.capture_format * W;
  get_capture_buffer_transfer : W -> RawFlow.capture_format -> Z * RawFlow.capture_format * W;
  start_raw_flow : W -> RawFlow.capture_format -> Z * RawFlow.capture_format * W;
  stop_raw_flow : W -> Z -> Z * W;
  get_raw_flow_frame : W -> RawFlow.capture_format -> Z * RawFlow.capture_format * W;
  (** the reply is the 1024 bytes [strncpy] stores *)
  mini_shell_exec : W -> list Z -> Z * list Z * W;
  system : W -> list Z -> W;
  (** what [lseek(fd, 0, SEEK_END)] says of a file, and what [read] gives *)
  read_file : W -> list Z -> option (Z * list Z) * W
}.

(** ** Threads *)

(** The five names of register_opt.c. *)
Record reg_names := mkRegNames {
  g_fd_addr_width : list Z; g_fd_data_width : list Z; g_fd_read_flag : list Z;
  g_fd_cci_client : list Z; g_fd_read_value : list Z
}.

Definition TH_STATUS_HEART_JUMP : Z := 0x1.
Definition TH_STATUS_PREVIEW : Z := 0x2.
Definition TH_STATUS_CAPTURE : Z := 0x4.
Definition TH_STATUS_TUNING : Z := 0x8.
Definition TH_STATUS_STATISTICS : Z := 0x10.
Definition TH_STATUS_SCRIPT : Z := 0x20.
Definition TH_STATUS_REGISTER : Z := 0x40.
Definition TH_STATUS_AELV : Z := 0x80.
Definition TH_STATUS_SET_INPUT : Z := 0x100.
Definition TH_STATUS_RAW_FLOW : Z := 0x200.
Definition TH_STATUS_SERVER_QUIT : Z := 0x01000000.

Definition SERVER_TIMEOUT_MAX : Z := 10.
Definition TRANSFER_SIZE : Z := 4194304.
Definition CAP_ERR_NONE : Z := 0.

(** The socket of the thread and whether it is closed, and the globals
    [g_thread_stop_flag] and [g_thread_status]. *)
Record st (W : Type) := mkSt {
  s_sock : sock; s_closed : bool; s_env : W; s_regs : reg_names;
  g_thread_stop_flag : bool; g_thread_status : Z
}.
Arguments mkSt {W}.
Arguments s_sock {W}.
Arguments s_closed {W}.
Arguments s_env {W}.
Arguments s_regs {W}.
Arguments g_thread_stop_flag {W}.
Arguments g_thread_status {W}.

Section Threads.
  Context {W : Type} `{!IspEnv W}.

Definition H (A : Type) : Type := M (st W) A.

Definition set_sock (k : sock) (s : st W) : st W :=
  mkSt k (s_closed s) (s_env s) (s_regs s) (g_thread_stop_flag s) (g_thread_status s).
Definition set_env (w : W) (s : st W) : st W :=
  mkSt (s_sock s) (s_closed s) w (s_regs s) (g_thread_stop_flag s) (g_thread_status s).
Definition set_regs (r : reg_names) (s : st W) : st W :=
  mkSt (s_sock s) (s_closed s) (s_env s) r (g_thread_stop_flag s) (g_thread_status s).
Definition set_stop (b : bool) (s : st W) : st W :=
  mkSt (s_sock s) (s_closed s) (s_env s) (s_regs s) b (g_thread_status s).
Definition set_status (v : Z) (s : st W) : st W :=
  mkSt (s_sock s) (s_closed s) (s_env s) (s_regs s) (g_thread_stop_flag s) v.
Definition close_sock (s : st W) : st W :=
  mkSt (s_sock s) true (s_env s) (s_regs s) (g_thread_stop_flag s) (g_thread_status s).

(** A call of the socket protocol, and a call of a module. *)
Definition on_sock {A} (f : sock -> option (A * sock)) : H A := fun s =>
  match f (s_sock s) with Some (a, k) => Some (a, set_sock k s) | None => None end.
Definition call {A} (f : W -> A * W) : H A := fun s =>
  let '(a, w) := f (s_env s) in Some (a, set_env w s).

Definition guard (b : bool) : H unit := if b then ret tt else stuck.
Definition lift {A} (m : option A) : H A := match m with Some a => ret a | None => stuck end.

Definition write_packet (p : list Z) : H Z := on_sock (fun k => sock_write k p SOCK_DEFAULT_TIMEOUT).

Definition read_check (cmd : Z) : H (sock_rw_check_ret * list Z) := on_sock (fun k =>
  '(r, p, k) ← sock_read_check_packet k cmd SOCK_DEFAULT_TIMEOUT; Some ((r, p), k)).
Definition write_check (p : list Z) (cmd : Z) : H (sock_rw_check_ret * list Z) := on_sock (fun k =>
  '(r, p, k) ← sock_write_check_packet k p cmd SOCK_DEFAULT_TIMEOUT; Some ((r, p), k)).

(** [sock_read] of [len] bytes into a buffer of [size]. *)
Definition read_into (size len : Z) : H (list Z) :=
  bs <- on_sock (fun k => sock_read k len SOCK_DEFAULT_TIMEOUT) ;;
  guard (Z.of_nat (length bs) <=? size) ;;; ret bs.

(** [comm_packet.ret = htonl(SOCK_CMD_RET_FAILED); sock_write(...)] *)
Definition fail_packet (p : list Z) : H unit := write_packet (set_ret SOCK_CMD_RET_FAILED p) ;;; ret tt.
Definition ok_packet (p : list Z) : H unit := write_packet p ;;; ret tt.
(** [OK] when [ok], [FAILED] otherwise *)
Definition verdict (ok : bool) (p : list Z) : H unit :=
  ok_packet (set_ret (if ok then SOCK_CMD_RET_OK else SOCK_CMD_RET_FAILED) p).

(** The packet, its check, and the data when the client says go on. *)
Definition send_data (p : list Z) (cmd : Z) (data : H (list Z)) : H unit :=
  x <- write_check p cmd ;; let '(r, _) := x in
  match r with
  | SOCK_RW_CHECK_OK => d <- data ;; ok_packet d
  | _ => ret tt
  end.

Definition SHOULD_CLOSE_SOCK (r : sock_rw_check_ret) : bool :=
  match r with SOCK_RW_RECV_CLOSE | SOCK_RW_WRITE_ERROR | SOCK_RW_READ_ERROR => true | _ => false end.

Definition sock_read_check_reply (cmd : Z) : H (sock_rw_check_ret * list Z) :=
  x <- read_check cmd ;; let '(r, p) := x in
  match r with
  | SOCK_RW_CHECK_OK | SOCK_RW_RET_ERROR =>
      let p := set_ret (match r with SOCK_RW_CHECK_OK => SOCK_CMD_RET_OK | _ => SOCK_CMD_RET_FAILED end) p in
      n <- write_packet p ;;
      if negb (n =? PACKET_SIZE) then
        s <- get ;;
        ret (if SHOULD_TRY_AGAIN (s_sock s) then SOCK_RW_TRY_AGAIN else SOCK_RW_WRITE_ERROR, p)
      else ret (r, p)
  | _ => ret (r, p)
  end.

(** [CHECK_THREAD_STOP()]; [others n] is what the other threads have done to
    the flag when it is looked at for the [n]th time. *)
Context (others : nat -> bool -> bool).

(** The loop shared by the threads: [read] gives the next request, [body] what
    is done for one that is in order.  [L] is the state the thread keeps in its
    buffers; the result of [body] says whether the loop is left.  All threads
    but the version thread [reset] the count of time-outs for such a request. *)
Fixpoint serve {L} (reset : bool) (fuel n : nat) (read : H (sock_rw_check_ret * list Z))
    (body : list Z -> L -> H (bool * L)) (timeout_times : Z) (l : L) : H L :=
  match fuel with
  | O => stuck
  | S fuel =>
      modify (fun s => set_stop (others n (g_thread_stop_flag s)) s) ;;;
      s <- get ;;
      if g_thread_stop_flag s then ret l else
      x <- read ;; let '(r, p) := x in
      if SHOULD_CLOSE_SOCK r then ret l else
      match r with
      | SOCK_RW_CHECK_OK =>
          x <- body p l ;; let '(leave, l) := x in
          if leave : bool then ret l
          else serve reset fuel (S n) read body (if reset then 0 else timeout_times) l
      | _ =>
          s <- get ;;
          if errno (s_sock s) =? ETIMEDOUT then
            if SERVER_TIMEOUT_MAX <? timeout_times + 1 then ret l
            else serve reset fuel (S n) read body (timeout_times + 1) l
          else serve reset fuel (S n) read body 0 l
      end
  end.

(** [g_thread_status |= bit] before, [close(sock_fd)] and
    [g_thread_status &= ~clear] after. *)
Definition enter (bit : Z) : H unit := modify (fun s => set_status (Z.lor (g_thread_status s) bit) s).
Definition leave (clear : Z) : H unit :=
  modify close_sock ;;; modify (fun s => set_status (Z.ldiff (g_thread_status s) clear) s).

(** ** Heart beat *)

(** Every request that does not close the socket ends in the look at
    [errno], which the thread resets. *)
Fixpoint heart_loop (fuel n : nat) (timeout_times : Z) : H unit :=
  match fuel with
  | O => stuck
  | S fuel =>
      modify (fun s => set_stop (others n (g_thread_stop_flag s)) s) ;;;
      s <- get ;;
      if g_thread_stop_flag s then ret tt else
      x <- sock_read_check_reply SOCK_CMD_HEART_JUMP ;; let '(r, _) := x in
      if SHOULD_CLOSE_SOCK r then ret tt else
      s <- get ;;
      if errno (s_sock s) =? ETIMEDOUT then
        modify (fun s => set_sock (set_errno (s_sock s) 0) s) ;;;
        if SERVER_TIMEOUT_MAX <? timeout_times + 1 then ret tt else heart_loop fuel (S n) (timeout_times + 1)
      else heart_loop fuel (S n) 0
  end.

Definition sock_handle_heart_jump_thread (fuel : nat) : H unit :=
  modify (set_stop false) ;;; enter TH_STATUS_HEART_JUMP ;;;
  heart_loop fuel 0 0 ;;; leave TH_STATUS_HEART_JUMP.

(** ** Pictures *)

(** "NM12", "NM21"; "YM12", "YM21" *)
Definition planes_count (fmt : Z) : Z :=
  if bool_decide (fmt ∈ [0x32314d4e; 0x31324d4e]) then 2
  else if bool_decide (fmt ∈ [0x32314d59; 0x31324d59]) then 3 else 1.

(** The fields of a request for a picture; [framecount] and the planes are
    left at 0 where a thread does not set them. *)
Definition cap_fmt_of (p : list Z) (buffer : option (list Z)) (frames planes fps wdr : Z)
  : RawFlow.capture_format :=
  RawFlow.mkFmt (reserved p 2) buffer 0 (hi16 (reserved p 1)) (lo16 (reserved p 1)) fps wdr
    (reserved p 0) planes frames [0; 0; 0] 0.

(** The reply's header for a picture. *)
Definition picture_packet (f : RawFlow.capture_format) (p : list Z) : list Z :=
  let stride := RawFlow.c_width_stride f in
  let p := set_data_length (RawFlow.c_length f) p in
  let p := set_reserved 0 (RawFlow.c_format f) p in
  let p := set_reserved 1 (Z.lor (Z.shiftl (RawFlow.c_width f) 16) (lo16 (RawFlow.c_height f))) p in
  let p := set_reserved 2 (Z.lor (Z.shiftl (stride !!! 0%nat) 16) (lo16 (stride !!! 1%nat))) p in
  set_reserved 3 (Z.shiftl (stride !!! 2%nat) 16) p.

(** The bytes [at] to [at + len] of the picture. *)
Definition picture_bytes (f : RawFlow.capture_format) (at_ len : Z) : H (list Z) :=
  b <- lift (RawFlow.c_buffer f) ;;
  guard ((0 <=? at_) && (0 <=? len) && (at_ + len <=? Z.of_nat (length b))) ;;;
  ret (take (Z.to_nat len) (drop (Z.to_nat at_) b)).

(** [sock_write(fd, cap_fmt.buffer, cap_fmt.length, ...)]; nothing is read of
    the buffer when the length is not positive. *)
Definition picture_data (f : RawFlow.capture_format) : H (list Z) :=
  if RawFlow.c_length f <=? 0 then ret [] else picture_bytes f 0 (RawFlow.c_length f).

Definition preview_request (p : list Z) (buffer : option (list Z)) : H (bool * option (list Z)) :=
  let tmp := reserved p 3 in
  let f := cap_fmt_of p buffer 0 (planes_count (reserved p 0)) (hi16 tmp) (lo16 tmp) in
  x <- call (fun w => get_capture_buffer w f) ;; let '(r, f) := x in
  (if negb (r =? CAP_ERR_NONE) then fail_packet p
   else send_data (picture_packet f p) SOCK_CMD_PREVIEW (picture_data f)) ;;;
  ret (false, RawFlow.c_buffer f).

Definition sock_handle_preview_thread (fuel : nat) : H unit :=
  buffer <- call (fun w => malloc w (2 ^ 24)) ;;
  enter TH_STATUS_PREVIEW ;;;
  serve true fuel 0 (read_check SOCK_CMD_PREVIEW) preview_request 0 buffer ;;;
  leave TH_STATUS_PREVIEW.

(** The loops that send a picture in parts of [TRANSFER_SIZE]. *)
Fixpoint transfer (fuel : nat) (f : RawFlow.capture_format) (len length : Z) : H unit :=
  match fuel with
  | O => stuck
  | S fuel =>
      if TRANSFER_SIZE <? length then
        d <- picture_bytes f len TRANSFER_SIZE ;; ok_packet d ;;;
        transfer fuel f (len + TRANSFER_SIZE) (length - TRANSFER_SIZE)
      else if 0 <? length then d <- picture_bytes f len length ;; ok_packet d
      else ret tt
  end.

Definition capture_request (p : list Z) (_ : unit) : H (bool * unit) :=
  let tmp := reserved p 3 in
  size <- lift (RawFlow.int_op (TRANSFER_SIZE * framecount p)) ;;
  buffer <- call (fun w => malloc w size) ;;
  let f := cap_fmt_of p buffer (framecount p) (planes_count (reserved p 0)) (hi16 tmp) (lo16 tmp) in
  x <- call (fun w => get_capture_buffer_transfer w f) ;; let '(r, f) := x in
  (if negb (r =? CAP_ERR_NONE) then fail_packet p
   else
     x <- write_check (picture_packet f p) SOCK_CMD_CAPTURE ;; let '(r, _) := x in
     match r with
     | SOCK_RW_CHECK_OK =>
         (* the part is copied through a buffer of its own *)
         part <- call (fun w => malloc w TRANSFER_SIZE) ;;
         guard ((RawFlow.c_length f <=? 0) || bool_decide (is_Some part)) ;;;
         transfer (S (Z.to_nat (Z.div (RawFlow.c_length f) TRANSFER_SIZE))) f 0 (RawFlow.c_length f)
     | _ => ret tt
     end) ;;;
  ret (false, tt).

Definition sock_handle_capture_thread (fuel : nat) : H unit :=
  enter TH_STATUS_CAPTURE ;;;
  serve true fuel 0 (read_check SOCK_CMD_CAPTURE) capture_request 0 tt ;;;
  leave TH_STATUS_CAPTURE.

(** ** Tuning *)

Definition cfg_ids (p : list Z) : Z :=
  u32 (Z.lor (Z.lor (Z.lor (Z.shiftl (cmd_id p 3) 24) (Z.shiftl (cmd_id p 4) 16)) (Z.shiftl (cmd_id p 5) 8))
         (cmd_id p 6)).

(** The first bytes of the thread's buffer. *)
Definition buffer_bytes (buffer : list Z) (len : Z) : H (list Z) :=
  guard (len <=? Z.of_nat (length buffer)) ;;; ret (take (Z.to_nat len) buffer).

Definition tuning_request (p : list Z) (buffer : list Z) : H (bool * list Z) :=
  let type := cmd_id p 1 in
  let group_id := cmd_id p 2 in
  let ids := cfg_ids p in
  let cfg_length := data_length p in
  let isp_sel := reserved p 0 in
  if (type =? SOCK_CMD_GET_CFG) || (type =? SOCK_CMD_SET_CFG) || (type =? SOCK_CMD_UPDATE_CFG)
     || (type =? SOCK_CMD_ISP_SEL) then
    r <- call (fun w => select_isp w isp_sel) ;;
    if r <? 0 then fail_packet p ;;; ret (false, buffer)
    else if type =? SOCK_CMD_GET_CFG then
      x <- call (fun w => isp_get_cfg w isp_sel group_id ids buffer) ;; let '(r, buffer) := x in
      if 0 <? r then
        let buffer := cfg_to_network group_id ids buffer in
        send_data (set_data_length r p) SOCK_CMD_TUNING (buffer_bytes buffer r) ;;; ret (false, buffer)
      else fail_packet p ;;; ret (false, buffer)
    else if type =? SOCK_CMD_SET_CFG then
      n <- write_packet p ;;
      if n =? PACKET_SIZE then
        bs <- read_into (Z.of_nat (length buffer)) cfg_length ;;
        let buffer := write_at buffer 0 bs in
        if Z.of_nat (length bs) =? cfg_length then
          let buffer := cfg_to_local group_id ids buffer in
          r <- call (fun w => isp_set_cfg w isp_sel group_id ids buffer) ;;
          verdict (0 <? r) p ;;; ret (false, buffer)
        else ret (false, buffer)
      else ret (false, buffer)
    else if type =? SOCK_CMD_UPDATE_CFG then
      r <- call (fun w => isp_update w isp_sel) ;;
      verdict (negb (r <? 0)) p ;;; ret (false, buffer)
    else verdict true p ;;; ret (false, buffer)
  else fail_packet p ;;; ret (false, buffer).

(** A buffer that [malloc] refused has no bytes. *)
Definition sock_handle_tuning_thread (fuel : nat) : H unit :=
  buffer <- call (fun w => malloc w cfg_size) ;;
  enter TH_STATUS_TUNING ;;;
  serve true fuel 0 (read_check SOCK_CMD_TUNING)
    tuning_request 0 (default [] buffer) ;;;
  leave TH_STATUS_TUNING.

(** ** Statistics *)

Definition statistics_request (p : list Z) (_ : unit) : H (bool * unit) :=
  let type := cmd_id p 1 in
  let isp_sel := reserved p 0 in
  (if bool_decide (type ∈ [SOCK_CMD_STAT_AE; SOCK_CMD_STAT_AWB; SOCK_CMD_STAT_AF]) then
     call (fun w => select_isp w isp_sel) ;;;
     r <- call (fun w => isp_stats_req w isp_sel) ;;
     if 0 <=? r then
       s <- get ;;
       let info := stats_info (s_env s) type in
       send_data (set_data_length (Z.of_nat (length info)) p) SOCK_CMD_GET_STAT (ret info)
     else fail_packet p
   else fail_packet p) ;;;
  ret (false, tt).

Definition sock_handle_statistics_thread (fuel : nat) : H unit :=
  enter TH_STATUS_STATISTICS ;;;
  serve true fuel 0 (read_check SOCK_CMD_GET_STAT) statistics_request 0 tt ;;;
  leave TH_STATUS_STATISTICS.

(** ** Shell scripts *)

(** [while ( *src_ptr++ != 'm');] *)
Fixpoint skip_sequence (s : list Z) : option (list Z) :=
  match s with [] => None | c :: s => if c =? 109 then Some s else skip_sequence s end.

(** The loop of [shell_format]; [s] is the buffer from [src_ptr] on. *)
Fixpoint format_loop (fuel : nat) (s : list Z) : option (list Z) :=
  match fuel with
  | O => None
  | S fuel =>
      match s with
      | [] => None
      | c :: rest =>
          if c =? 0 then Some [] else
          esc ← (if c =? 27 then d ← head rest; Some (d =? 91) else Some false);
          if esc : bool then s ← skip_sequence s; format_loop fuel s
          else t ← format_loop fuel rest; Some (c :: t)
      end
  end.

(** The text without its colour sequences, and the buffer with it; [tmp_buf]
    has 1024 bytes. *)
Definition shell_format (buffer : list Z) : option (list Z * list Z) :=
  t ← format_loop (S (length buffer)) buffer;
  if (length t <? 1024)%nat then Some (t, write_at buffer 0 (t ++ [0])) else None.

Definition EXIT_TEXT : list Z := (bytes "ExitHawk").
Definition READY_TEXT : list Z := (bytes "Server is ready to exit...").

Definition script_request (p : list Z) (buffer : list Z) : H (bool * list Z) :=
  let recv_length := data_length p in
  if 0 <? recv_length then
    bs <- read_into 1024 recv_length ;;
    let buffer := write_at buffer 0 bs in
    if negb (Z.of_nat (length bs) =? recv_length) then fail_packet p ;;; ret (false, buffer)
    else
      buffer <- lift (aset buffer recv_length 0) ;;
      x <- (if starts EXIT_TEXT (cstr buffer) then
              modify (fun s => set_status (Z.lor (g_thread_status s) TH_STATUS_SERVER_QUIT) s) ;;;
              modify (set_stop true) ;;;
              ret (0, write_at buffer 0 (READY_TEXT ++ [0]))
            else
              x <- call (fun w => mini_shell_exec w (cstr buffer)) ;; let '(r, reply) := x in
              ret (r, if r =? 0 then reply else buffer)) ;;
      let '(r, buffer) := x in
      buffer <- lift (aset buffer 1023 0) ;;
      if r =? 0 then
        x <- lift (shell_format buffer) ;; let '(text, buffer) := x in
        let p := set_data_length (Z.of_nat (length text)) (set_ret SOCK_CMD_RET_OK p) in
        send_data p SOCK_CMD_SCRIPT (ret text) ;;; ret (false, buffer)
      else fail_packet p ;;; ret (false, buffer)
  else ret (false, buffer).

Definition sock_handle_script_thread (fuel : nat) : H unit :=
  buffer <- call (fun w => malloc w 1024) ;;
  enter TH_STATUS_SCRIPT ;;;
  serve true fuel 0 (sock_read_check_reply SOCK_CMD_SCRIPT)
    script_request 0 (default [] buffer) ;;;
  leave TH_STATUS_SCRIPT.

(** ** Registers (register_opt.c) *)

(** [strtol] of a 64-bit [long]. *)
Definition strtol (base : Z) (l : list Z) : Z :=
  let l := drop_while isspace l in
  let neg := first l =? 45 in
  let l := if (first l =? 45) || (first l =? 43) then tail l else l in
  let '(base, l) := base_of base l in
  let v := digits_from base 0 l in
  Z.max (- 2 ^ 63) (Z.min (2 ^ 63 - 1) (if neg then - v else v)).

Definition hex (v : Z) : list Z := printx (u32 v).
(** ["%04x"] *)
Definition hex4 (v : Z) : list Z :=
  let d := hex v in replicate (4 - length d) 48 ++ d.

(** [sprintf] into an array of 256 characters. *)
Definition text256 (s : list Z) : H (list Z) := guard (length s <? 256)%nat ;;; ret s.

Definition attr (sensor_name file : list Z) : H (list Z) :=
  text256 ((bytes "/sys/devices/") ++ sensor_name ++ file).

Definition run_shell (cmd : list Z) : H unit :=
  cmd <- text256 cmd ;; modify (fun s => set_env (system (s_env s) cmd) s).

Definition echo (value file : list Z) : H unit :=
  run_shell ((bytes "echo ") ++ value ++ (bytes " > ") ++ file).

Definition set_reg_opt (sensor_name : list Z) (addr_width data_width : Z) : H Z :=
  a <- attr sensor_name (bytes "/addr_width") ;;
  d <- attr sensor_name (bytes "/data_width") ;;
  f <- attr sensor_name (bytes "/read_flag") ;;
  c <- attr sensor_name (bytes "/cci_client") ;;
  v <- attr sensor_name (bytes "/read_value") ;;
  modify (set_regs (mkRegNames a d f c v)) ;;;
  echo (hex addr_width) a ;;; echo (hex data_width) d ;;; ret 0.

(** [read_file_opt] into an array of 256 characters: the length is the one
    [lseek] gives; what [read] does not fill of it is left over from the last
    [sprintf]. *)
Definition read_file_opt (file old : list Z) : H (option (list Z * Z)) :=
  r <- call (fun w => read_file w file) ;;
  match r with
  | None => ret None
  | Some (data_length, data) =>
      let data := take (Z.to_nat data_length) data in
      guard (length data <=? 256)%nat ;;;
      ret (Some (write_at (old ++ replicate (256 - length old) 0) 0 data, data_length))
  end.

Definition read_reg (reg_addr : Z) : H Z :=
  s <- get ;;
  let n := s_regs s in
  echo [49] (g_fd_read_flag n) ;;;
  echo (hex4 reg_addr ++ (bytes "0000")) (g_fd_cci_client n) ;;;
  r <- read_file_opt (g_fd_read_value n)
         ((bytes "echo ") ++ hex4 reg_addr ++ (bytes "0000 > ") ++ g_fd_cci_client n ++ [0]) ;;
  match r with
  | None => ret (-1)
  | Some (buffer, len) =>
      buffer <- lift (aset buffer len 0) ;;
      ret (s32 (strtol 16 (cstr buffer)))
  end.

Definition write_reg (reg_addr reg_data : Z) : H Z :=
  s <- get ;;
  let n := s_regs s in
  echo [48] (g_fd_read_flag n) ;;;
  echo (hex4 reg_addr ++ hex4 reg_data) (g_fd_cci_client n) ;;;
  ret 0.

Definition register_request (p : list Z) (_ : unit) : H (bool * unit) :=
  let type := cmd_id p 1 in
  let addr_width := reserved p 0 in
  let data_width := reserved p 1 in
  let reg_addr := reserved p 2 in
  let reg_data := reserved p 3 in
  let sensor_name_length := data_length p in
  (if type =? SOCK_CMD_REG_READ then
     reg_data <- read_reg reg_addr ;;
     if 0 <=? reg_data then ok_packet (set_reserved 3 reg_data p) else fail_packet p
   else if type =? SOCK_CMD_REG_WRITE then
     r <- write_reg reg_addr reg_data ;;
     if r =? 0 then ok_packet p else fail_packet p
   else if type =? SOCK_CMD_REG_SETCFG then
     n <- write_packet p ;;
     if n =? PACKET_SIZE then
       name <- read_into 128 sensor_name_length ;;
       if Z.of_nat (length name) =? sensor_name_length then
         guard (sensor_name_length <? 128) ;;;
         r <- set_reg_opt (cstr name) addr_width data_width ;;
         verdict (r =? 0) p
       else ret tt
     else ret tt
   else fail_packet p) ;;;
  ret (false, tt).

Definition sock_handle_register_thread (fuel : nat) : H unit :=
  enter TH_STATUS_REGISTER ;;;
  serve true fuel 0 (read_check SOCK_CMD_REGOPT) register_request 0 tt ;;;
  leave TH_STATUS_REGISTER.

(** ** Exposure, input, raw frames, version *)

Definition aelv_request (p : list Z) (_ : unit) : H (bool * unit) :=
  lv <- call (fun w => isp_get_lv w (reserved p 0)) ;;
  (if 0 <? lv then ok_packet (set_reserved 0 lv p) else fail_packet p) ;;;
  ret (false, tt).

Definition sock_handle_aelv_thread (fuel : nat) : H unit :=
  enter TH_STATUS_AELV ;;;
  serve true fuel 0 (read_check SOCK_CMD_AE_LV) aelv_request 0 tt ;;;
  leave TH_STATUS_AELV.

Definition set_input_request (p : list Z) : H unit :=
  let i := mkInput (hi16 (reserved p 0)) (lo16 (reserved p 0)) (hi16 (reserved p 1)) (lo16 (reserved p 1))
             (hi16 (reserved p 2)) (lo16 (reserved p 2)) in
  r <- call (fun w => set_sensor_input w i) ;;
  if r =? CAP_ERR_NONE then
    call (fun w => select_isp w (in_isp i)) ;;; ok_packet p
  else fail_packet p.

(** The loop is left after one turn whatever happened. *)
Definition sock_handle_set_input_thread : H unit :=
  enter TH_STATUS_SET_INPUT ;;;
  modify (fun s => set_stop (others 0 (g_thread_stop_flag s)) s) ;;;
  s <- get ;;
  (if g_thread_stop_flag s then ret tt else
   x <- read_check SOCK_CMD_SET_INPUT ;; let '(r, p) := x in
   match r with SOCK_RW_CHECK_OK => set_input_request p | _ => ret tt end) ;;;
  leave TH_STATUS_SET_INPUT.

Definition raw_flow_request (p : list Z) (buffer : option (list Z)) : H (bool * option (list Z)) :=
  let type := cmd_id p 1 in
  let f := cap_fmt_of p buffer 0 0 0 0 in
  if type =? SOCK_CMD_RAW_FLOW_START then
    x <- call (fun w => start_raw_flow w f) ;; let '(r, f) := x in
    (if r =? CAP_ERR_NONE then ok_packet p else fail_packet p) ;;; ret (false, RawFlow.c_buffer f)
  else if type =? SOCK_CMD_RAW_FLOW_STOP then
    r <- call (fun w => stop_raw_flow w (RawFlow.c_channel f)) ;;
    (if r =? CAP_ERR_NONE then ok_packet p else fail_packet p) ;;; ret (false, buffer)
  else if type =? SOCK_CMD_RAW_FLOW_GET then
    x <- call (fun w => get_raw_flow_frame w f) ;; let '(r, f) := x in
    (if r =? CAP_ERR_NONE
     then send_data (picture_packet f p) SOCK_CMD_RAW_FLOW (picture_data f)
     else fail_packet p) ;;; ret (false, RawFlow.c_buffer f)
  else fail_packet p ;;; ret (false, buffer).

Definition sock_handle_raw_flow_thread (fuel : nat) : H unit :=
  buffer <- call (fun w => malloc w (2 ^ 24)) ;;
  enter TH_STATUS_RAW_FLOW ;;;
  serve true fuel 0 (read_check SOCK_CMD_RAW_FLOW) raw_flow_request 0 buffer ;;;
  leave TH_STATUS_RAW_FLOW.

Definition isp_version_request (p : list Z) (_ : unit) : H (bool * unit) :=
  v <- call get_isp_version ;;
  guard (length v <? 500)%nat ;;;
  n <- write_packet v ;;
  ret (negb (n =? Z.of_nat (length v)), tt).

(** The thread announces nothing when it starts and takes back the bit of the
    tuning thread when it ends. *)
Definition sock_handle_isp_version_thread (fuel : nat) : H unit :=
  buffer <- call (fun w => malloc w 500) ;;
  serve false fuel 0 (sock_read_check_reply SOCK_CMD_ISP_VERSION)
    (fun p l => guard (bool_decide (is_Some buffer)) ;;; isp_version_request p l) 0 tt ;;;
  leave TH_STATUS_TUNING.

End Threads.

End IspServer.
