(* ===== verification/IspApi.v ===== *)
(** * The ISP tuning server (camera/3_4/allwinnertech/libAWIspApi/awTunningApp/
      tuning_app/server/server_api.c)

    [run_server] accepts clients one after the other.  [client_handle] asks a
    client who it is, looks at the answer, hands a command thread (IspServer)
    with the socket to the thread pool (ThreadPool) and tells the client. *)

From stdpp Require Import base tactics option list list_numbers numbers.
From Stdlib Require Import ZArith Lia.
From Stdlib Require Ascii String.
From S2P Require Import Prelude CString SockProto ThreadPool IspServer.

Import String.StringSyntax.

Local Open Scope Z_scope.

Module IspApi.

Import CString SockProto.

(** ** Kinds of threads *)

(** The functions a client can ask for; [SOCK_TYPE_VENC_TUNING] (11) has none. *)
Inductive thread_kind :=
| KHeartJump | KPreview | KCapture | KTuning | KStatistics | KScript | KRegister | KAelv | KSetInput
| KRawFlow | KIspVersion.

#[global] Instance thread_kind_eq : EqDecision thread_kind.
Proof. solve_decision. Defined.

Definition SOCK_CMD_EXIT : Z := 15.
Definition SOCK_CMD_ACK_QUESTION : Z := 17.
Definition SOCK_CMD_ACK_ANSWER : Z := 18.
Definition SOCK_CMD_ACK_RET : Z := 19.

(** The switch on [comm_packet.cmd_ids[2]]. *)
Definition thread_of (type : Z) : option thread_kind :=
  if type =? 1 then Some KHeartJump
  else if type =? 2 then Some KPreview
  else if type =? 3 then Some KCapture
  else if type =? 4 then Some KTuning
  else if type =? 5 then Some KStatistics
  else if type =? 6 then Some KScript
  else if type =? 7 then Some KRegister
  else if type =? 8 then Some KAelv
  else if type =? 9 then Some KSetInput
  else if type =? 10 then Some KRawFlow
  else if type =? 12 then Some KIspVersion
  else None.

(** What the pool calls. *)
Definition run_thread {W} `{!IspServer.IspEnv W} (others : nat -> bool -> bool) (fuel : nat) (k : thread_kind)
  : IspServer.H (W:=W) unit :=
  match k with
  | KHeartJump => IspServer.sock_handle_heart_jump_thread others fuel
  | KPreview => IspServer.sock_handle_preview_thread others fuel
  | KCapture => IspServer.sock_handle_capture_thread others fuel
  | KTuning => IspServer.sock_handle_tuning_thread others fuel
  | KStatistics => IspServer.sock_handle_statistics_thread others fuel
  | KScript => IspServer.sock_handle_script_thread others fuel
  | KRegister => IspServer.sock_handle_register_thread others fuel
  | KAelv => IspServer.sock_handle_aelv_thread others fuel
  | KSetInput => IspServer.sock_handle_set_input_thread others
  | KRawFlow => IspServer.sock_handle_raw_flow_thread others fuel
  | KIspVersion => IspServer.sock_handle_isp_version_thread others fuel
  end.

(** ** The server *)

(** A job of the pool: the function and the socket it gets. *)
Definition job : Type := thread_kind * Z.

(** The globals, the pool, and the descriptors closed here. *)
Record server := mkServer {
  g_server_init_flag : bool;
  g_server_socket_fd : Z;
  g_server_stop_flag : bool;
  v_pool : ThreadPool.pool (J:=job);
  v_closed : list Z
}.

Definition set_stop_flag (b : bool) (s : server) : server :=
  mkServer (g_server_init_flag s) (g_server_socket_fd s) b (v_pool s) (v_closed s).
Definition set_pool (p : ThreadPool.pool) (s : server) : server :=
  mkServer (g_server_init_flag s) (g_server_socket_fd s) (g_server_stop_flag s) p (v_closed s).
Definition close_fd (fd : Z) (s : server) : server :=
  mkServer (g_server_init_flag s) (g_server_socket_fd s) (g_server_stop_flag s) (v_pool s) (v_closed s ++ [fd]).

Definition SERVER_SOCK_QUESTION : list Z := bytes "wHo Am i? woOOo".
Definition SERVER_SOCK_ANSWER : list Z := bytes "WHos yoUR daddY".

(** The packet with the question. *)
Definition question_packet : list Z :=
  write_at (IspServer.set_ret SOCK_CMD_RET_OK (write_at pack_packet 4 [SOCK_CMD_ACK; SOCK_CMD_ACK_QUESTION]))
    20 (SERVER_SOCK_QUESTION ++ [0]).

(** [strncmp(comm_packet.reserved, SERVER_SOCK_ANSWER, 16) == 0] *)
Definition right_answer (p : list Z) : bool :=
  (cmd_id p 1 =? SOCK_CMD_ACK_ANSWER) &&
  strncmp_eq (take 16 (drop 20 p)) (SERVER_SOCK_ANSWER ++ [0]) 16.

(** The packet of the last step. *)
Definition result_packet (ret : Z) (p : list Z) : list Z :=
  IspServer.set_ret ret (write_at p 5 [SOCK_CMD_ACK_RET]).

(** [k] is what the kernel answers on the client's socket, [created] whether
    the pool can start a thread where it has to. *)
Definition client_handle (sock_fd : Z) (k : sock) (created : bool) (s : server)
  : option (Z * sock * server) :=
  '(r, p, k) ← sock_write_check_packet k question_packet SOCK_CMD_ACK IspServer.SOCK_DEFAULT_TIMEOUT;
  match r with
  | SOCK_RW_CHECK_OK =>
      if negb (right_answer p) then Some (-1, k, close_fd sock_fd s) else
      match thread_of (cmd_id p 2) with
      | Some kind =>
          pool ← ThreadPool.add_work (v_pool s) (Some (kind, sock_fd)) created;
          let s := set_pool pool s in
          if ThreadPool.p_ret pool <? 0 then
            '(_, k) ← sock_write k (result_packet IspServer.SOCK_CMD_RET_FAILED p) IspServer.SOCK_DEFAULT_TIMEOUT;
            Some (-1, k, close_fd sock_fd s)
          else
            '(_, k) ← sock_write k (result_packet SOCK_CMD_RET_OK p) IspServer.SOCK_DEFAULT_TIMEOUT;
            Some (0, k, s)
      | None =>
          let s := if cmd_id p 2 =? SOCK_CMD_EXIT then set_stop_flag true s else s in
          Some (-1, k, close_fd sock_fd s)
      end
  | _ => Some (-1, k, close_fd sock_fd s)
  end.

(** ** Running *)

(** One turn of [run_server]: the threads' status when it is looked at and
    each time after, and what [accept] brings: a descriptor with its socket,
    or a negative number and [errno]. *)
Record turn := mkTurn {
  t_status : Z; t_later : list Z; t_client : Z; t_sock : sock; t_created : bool; t_errno : Z
}.

(** [while ((try_times++ < 100) && (ret & 0x00FFFFFF)) { msleep(32); ret = ...; }] *)
Fixpoint wait_threads (tries : nat) (ret : Z) (later : list Z) : option Z :=
  match tries with
  | O => Some ret
  | S tries =>
      if Z.land ret 0xffffff =? 0 then Some ret
      else match later with [] => None | r :: later => wait_threads tries r later end
  end.

Definition try_again (e : Z) : bool :=
  (e =? 0) || (e =? EAGAIN) || (e =? EINTR) || (e =? ETIMEDOUT).

(** The result, and [None] inside while the turns last; the errors of clients
    do not end the loop. *)
Fixpoint serve_clients (turns : list turn) (s : server) : option (option Z * server) :=
  match turns with
  | [] => Some (None, s)
  | t :: turns =>
      if g_server_stop_flag s then Some (Some 0, s)
      else if negb (Z.land (t_status t) IspServer.TH_STATUS_SERVER_QUIT =? 0) then
        wait_threads 100 (t_status t) (t_later t) ≫= fun _ => Some (Some 0, s)
      else if 0 <=? t_client t then
        '(_, _, s) ← client_handle (t_client t) (t_sock t) (t_created t) s;
        serve_clients turns s
      else if try_again (t_errno t) then serve_clients turns s
      else Some (Some (-1), s)
  end.

Definition run_server (turns : list turn) (s : server) : option (option Z * server) :=
  if g_server_init_flag s then serve_clients turns s else Some (Some (-1), s).

(** ** Start and end *)

(** [exit_thread_pool] waits for the workers; [pool] is the pool it leaves. *)
Definition exit_server (pool : ThreadPool.pool) (s : server) : server :=
  let s := set_stop_flag true s in
  let s := if g_server_init_flag s
           then mkServer false (-1) true (v_pool s) (v_closed s ++ [g_server_socket_fd s]) else s in
  set_pool pool s.

(** What [socket], [bind] and [listen] return. *)
Record net := mkNet { n_socket : Z; n_bind : Z; n_listen : Z }.

(** The modules' own failures are only logged. *)
Definition init_server (n : net) (left_pool : ThreadPool.pool) (s : server) : Z * server :=
  let s := if g_server_init_flag s then exit_server left_pool s else s in
  let s := mkServer false (-1) false (v_pool s) (v_closed s) in
  if n_socket n =? -1 then (-1, s) else
  let fd := n_socket n in
  if n_bind n =? -1 then (-1, close_fd fd s)
  else if n_listen n =? -1 then (-1, close_fd fd s)
  else (0, mkServer true fd false ThreadPool.init_thread_pool (v_closed s)).

End IspApi.
