(* ===== verification/IspThm.v ===== *)
(** * Theorems about the ISP tuning server

    What the command threads leave behind, what happens to a client that says
    nothing, how a client is let in, and the inputs that leave the threads'
    buffers. *)

From stdpp Require Import base tactics option list list_numbers numbers.
From Stdlib Require Import ZArith Lia.
From Stdlib Require Ascii String.
From S2P Require Import Prelude CString SockProto ThreadPool RawFlow IspServer IspApi.

Local Open Scope Z_scope.
Local Open Scope c_scope.

Import String.StringSyntax.

Module IspThm.

Import CString SockProto IspServer IspApi.

(** ** Steps that touch neither the socket's end nor the threads' bits *)

Section Quiet.
  Context {W : Type} `{!IspEnv W}.

(** The bit 24 is the request to quit; every thread may set it. *)
Definition quiet_at (s s' : st W) : Prop :=
  s_closed s' = s_closed s /\
  forall i, 0 <= i -> i <> 24 -> Z.testbit (g_thread_status s') i = Z.testbit (g_thread_status s) i.

Definition quiet {A} (m : H A) : Prop := forall s a s', m s = Some (a, s') -> quiet_at s s'.

Lemma quiet_ret {A} (a : A) : quiet (ret a : H A).
Proof. by intros s ? ? [= <- <-]. Qed.
Lemma quiet_stuck {A} : quiet (stuck : H A).
Proof. done. Qed.
Lemma quiet_get : quiet (get : H (st W)).
Proof. by intros s ? ? [= <- <-]. Qed.
Lemma quiet_modify f : (forall s, quiet_at s (f s)) -> quiet (modify f : H unit).
Proof. intros Hf s ? ? [= <- <-]. apply Hf. Qed.
Lemma quiet_bind {A B} (m : H A) (k : A -> H B) : quiet m -> (forall a, quiet (k a)) -> quiet (bind m k).
Proof.
  intros Hm Hk s b s'. unfold bind. destruct (m s) as [[a s1]|] eqn:E; [|done]. intros E2.
  destruct (Hm _ _ _ E) as [H1 H2], (Hk _ _ _ _ E2) as [H3 H4].
  split; [congruence|]. intros i Hi Hn. rewrite H4, H2; done.
Qed.
Lemma quiet_on_sock {A} (f : sock -> option (A * sock)) : quiet (on_sock f : H A).
Proof. intros s a s'. unfold on_sock. destruct (f (s_sock s)) as [[? ?]|]; [|done]. by intros [= <- <-]. Qed.
Lemma quiet_call {A} (f : W -> A * W) : quiet (call f : H A).
Proof. intros s a s'. unfold call. destruct (f (s_env s)). by intros [= <- <-]. Qed.

Create HintDb quiet.
#[local] Hint Resolve quiet_ret quiet_stuck quiet_get quiet_on_sock quiet_call : quiet.

Ltac quiet_step :=
  lazymatch goal with
  | |- quiet (bind _ _) => apply quiet_bind; [|intros ?]
  | |- quiet (modify _) => apply quiet_modify; intros ?
  | |- quiet (if ?b then _ else _) => destruct b
  | |- quiet (match ?x with _ => _ end) => destruct x
  | |- quiet (let _ := _ in _) => cbv zeta
  | |- quiet_at _ _ => by split
  | |- quiet _ => solve [auto with quiet]
  end.
Ltac quiet_all := repeat quiet_step.

Lemma quiet_guard b : quiet (guard b : H unit).
Proof. unfold guard. quiet_all. Qed.
Lemma quiet_lift {A} (m : option A) : quiet (lift m : H A).
Proof. unfold lift. quiet_all. Qed.
#[local] Hint Resolve quiet_guard quiet_lift : quiet.

Lemma quiet_write p : quiet (write_packet p).
Proof. unfold write_packet. quiet_all. Qed.
#[local] Hint Resolve quiet_write : quiet.
Lemma quiet_ok p : quiet (ok_packet p).
Proof. unfold ok_packet. quiet_all. Qed.
Lemma quiet_fail p : quiet (fail_packet p).
Proof. unfold fail_packet. quiet_all. Qed.
#[local] Hint Resolve quiet_ok quiet_fail : quiet.
Lemma quiet_read_into size len : quiet (read_into size len).
Proof. unfold read_into. quiet_all. Qed.
Lemma quiet_verdict b p : quiet (verdict b p).
Proof. unfold verdict. quiet_all. Qed.
Lemma quiet_read_check cmd : quiet (read_check cmd).
Proof. unfold read_check. quiet_all. Qed.
Lemma quiet_write_check p cmd : quiet (write_check p cmd).
Proof. unfold write_check. quiet_all. Qed.
#[local] Hint Resolve quiet_read_into quiet_verdict quiet_read_check quiet_write_check : quiet.
Lemma quiet_send_data p cmd d : quiet d -> quiet (send_data p cmd d).
Proof. intros Hd. unfold send_data. quiet_all. Qed.
#[local] Hint Resolve quiet_send_data : quiet.
Lemma quiet_check_reply cmd : quiet (sock_read_check_reply cmd).
Proof. unfold sock_read_check_reply. quiet_all. Qed.
#[local] Hint Resolve quiet_check_reply : quiet.

Context (others : nat -> bool -> bool).

Lemma quiet_serve {L} reset fuel n rd (body : list Z -> L -> H (bool * L)) times l :
  quiet rd -> (forall p l, quiet (body p l)) -> quiet (serve others reset fuel n rd body times l).
Proof.
  intros Hr Hb. revert n times l. induction fuel as [|fuel IH]; intros n times l; [apply quiet_stuck|].
  cbn [serve]. repeat (quiet_step || apply Hb || apply IH || exact Hr).
Qed.

Lemma quiet_heart fuel n times : quiet (heart_loop others fuel n times).
Proof.
  revert n times. induction fuel as [|fuel IH]; intros n times; [apply quiet_stuck|].
  cbn [heart_loop]. repeat (quiet_step || apply IH).
Qed.

Lemma quiet_picture_bytes f a n : quiet (picture_bytes f a n).
Proof. unfold picture_bytes. quiet_all. Qed.
#[local] Hint Resolve quiet_picture_bytes : quiet.
Lemma quiet_picture_data f : quiet (picture_data f).
Proof. unfold picture_data. quiet_all. Qed.
#[local] Hint Resolve quiet_picture_data : quiet.
Lemma quiet_transfer fuel f a n : quiet (transfer fuel f a n).
Proof.
  revert a n. induction fuel as [|fuel IH]; intros a n; [apply quiet_stuck|].
  cbn [transfer]. repeat (quiet_step || apply IH).
Qed.
#[local] Hint Resolve quiet_transfer : quiet.
Lemma quiet_buffer_bytes b n : quiet (buffer_bytes b n).
Proof. unfold buffer_bytes. quiet_all. Qed.
#[local] Hint Resolve quiet_buffer_bytes : quiet.

Lemma quiet_preview p l : quiet (preview_request p l).
Proof. unfold preview_request. quiet_all. Qed.
Lemma quiet_capture p l : quiet (capture_request p l).
Proof. unfold capture_request. quiet_all. Qed.
Lemma quiet_tuning p l : quiet (tuning_request p l).
Proof. unfold tuning_request. quiet_all. Qed.
Lemma quiet_statistics p l : quiet (statistics_request p l).
Proof. unfold statistics_request. quiet_all. Qed.

Lemma testbit_pow2 n i : 0 <= n -> 0 <= i -> Z.testbit (2 ^ n) i = (i =? n).
Proof. intros Hn Hi. rewrite Z.pow2_bits_eqb by done. apply Z.eqb_sym. Qed.

Lemma quiet_quit s : quiet_at s (set_status (Z.lor (g_thread_status s) TH_STATUS_SERVER_QUIT) s).
Proof.
  split; [done|]. intros i Hi Hn. cbn [g_thread_status set_status]. rewrite Z.lor_spec.
  change TH_STATUS_SERVER_QUIT with (2 ^ 24). rewrite testbit_pow2 by lia.
  rewrite (proj2 (Z.eqb_neq i 24)) by done. apply orb_false_r.
Qed.
#[local] Hint Resolve quiet_quit : quiet.

Lemma quiet_script p l : quiet (script_request p l).
Proof. unfold script_request. repeat (quiet_step || apply quiet_quit). Qed.

Lemma quiet_text s : quiet (text256 s).
Proof. unfold text256. quiet_all. Qed.
#[local] Hint Resolve quiet_text : quiet.
Lemma quiet_echo v f : quiet (echo v f).
Proof. unfold echo, run_shell. quiet_all. Qed.
#[local] Hint Resolve quiet_echo : quiet.
Lemma quiet_set_reg_opt n a d : quiet (set_reg_opt n a d).
Proof. unfold set_reg_opt, attr. quiet_all. Qed.
Lemma quiet_read_reg a : quiet (read_reg a).
Proof. unfold read_reg, read_file_opt. quiet_all. Qed.
Lemma quiet_write_reg a d : quiet (write_reg a d).
Proof. unfold write_reg. quiet_all. Qed.
#[local] Hint Resolve quiet_set_reg_opt quiet_read_reg quiet_write_reg : quiet.

Lemma quiet_register p l : quiet (register_request p l).
Proof. unfold register_request. quiet_all. Qed.
Lemma quiet_aelv p l : quiet (aelv_request p l).
Proof. unfold aelv_request. quiet_all. Qed.
Lemma quiet_set_input p : quiet (set_input_request p).
Proof. unfold set_input_request. quiet_all. Qed.
Lemma quiet_raw_flow p l : quiet (raw_flow_request p l).
Proof. unfold raw_flow_request. quiet_all. Qed.
Lemma quiet_version p l : quiet (isp_version_request p l).
Proof. unfold isp_version_request. quiet_all. Qed.
#[local] Hint Resolve quiet_preview quiet_capture quiet_tuning quiet_statistics quiet_script quiet_register
  quiet_aelv quiet_set_input quiet_raw_flow quiet_version quiet_serve quiet_heart : quiet.

(** ** What a thread leaves behind *)

(** The bit of [g_thread_status] a thread takes back when it ends; the
    version thread has none of its own. *)
Definition clears (k : thread_kind) : Z :=
  match k with
  | KHeartJump => 0 | KPreview => 1 | KCapture => 2 | KTuning => 3 | KStatistics => 4 | KScript => 5
  | KRegister => 6 | KAelv => 7 | KSetInput => 8 | KRawFlow => 9
  | KIspVersion => 3
  end.

(** What holds when a thread has ended. *)
Definition ended (bit : Z) (s s' : st W) : Prop :=
  s_closed s' = true /\
  forall i, 0 <= i -> i <> 24 ->
    Z.testbit (g_thread_status s') i = (if i =? bit then false else Z.testbit (g_thread_status s) i).

Definition ends (bit : Z) (m : H (W:=W) unit) : Prop := forall s s', m s = Some (tt, s') -> ended bit s s'.

Lemma ends_leave {A} bit (m : H (W:=W) A) : 0 <= bit -> quiet m -> ends bit (m ;;; leave (2 ^ bit)).
Proof.
  intros Hb Hm s s'. unfold bind, leave, modify. destruct (m s) as [[a s2]|] eqn:E; [|done].
  intros [= <-]. destruct (Hm _ _ _ E) as [H1 H2]. split; [done|]. intros i Hi Hn.
  cbn [g_thread_status set_status close_sock]. rewrite Z.ldiff_spec, H2, testbit_pow2 by done.
  destruct (i =? bit); cbn [negb]; [by rewrite andb_false_r|by rewrite andb_true_r].
Qed.

Lemma ends_enter bit (m : H (W:=W) unit) : 0 <= bit -> ends bit m -> ends bit (enter (2 ^ bit) ;;; m).
Proof.
  intros Hb Hm s s'. unfold bind, enter, modify. intros E. destruct (Hm _ _ E) as [H1 H2].
  split; [done|]. intros i Hi Hn. rewrite H2 by done. cbn [g_thread_status set_status].
  rewrite Z.lor_spec, testbit_pow2 by done. destruct (i =? bit); [done|]. apply orb_false_r.
Qed.

Lemma ends_first {A} bit (m : H (W:=W) A) (k : A -> H unit) :
  quiet m -> (forall a, ends bit (k a)) -> ends bit (bind m k).
Proof.
  intros Hm Hk s s'. unfold bind. destruct (m s) as [[a s1]|] eqn:E; [|done]. intros E2.
  destruct (Hm _ _ _ E) as [_ H2], (Hk _ _ _ E2) as [H3 H4]. split; [done|].
  intros i Hi Hn. rewrite H4, H2; done.
Qed.

Lemma ends_leave_const {A} bit c (m : H (W:=W) A) : c = 2 ^ bit -> 0 <= bit -> quiet m -> ends bit (m ;;; leave c).
Proof. intros ->. apply ends_leave. Qed.
Lemma ends_enter_const bit c (m : H (W:=W) unit) : c = 2 ^ bit -> 0 <= bit -> ends bit m -> ends bit (enter c ;;; m).
Proof. intros ->. apply ends_enter. Qed.

Ltac ends_step :=
  lazymatch goal with
  | |- ends _ (bind (enter _) _) => apply ends_enter_const; [reflexivity|lia|]
  | |- ends _ (bind _ (fun _ => leave _)) => apply ends_leave_const; [reflexivity|lia|]
  | |- ends _ (bind _ _) => apply ends_first; [solve [quiet_all]|intros ?]
  end.

(** C8: a command thread cleans up: however its session went, when a thread
    of the server returns it has closed its socket, its own bit of
    [g_thread_status] is clear and every other thread's bit is as it was - apart
    from the version thread, which has no bit and clears the tuning thread's.
    The bit that asks the server to quit is the only one a thread may set. *)
Theorem thread_cleans_up fuel k s s' :
  run_thread others fuel k s = Some (tt, s') -> ended (clears k) s s'.
Proof.
  revert s s'. change (ends (clears k) (run_thread others fuel k)).
  destruct k; cbn [run_thread clears];
    unfold sock_handle_heart_jump_thread, sock_handle_preview_thread, sock_handle_capture_thread,
      sock_handle_tuning_thread, sock_handle_statistics_thread, sock_handle_script_thread,
      sock_handle_register_thread, sock_handle_aelv_thread, sock_handle_set_input_thread,
      sock_handle_raw_flow_thread, sock_handle_isp_version_thread.
  all: repeat ends_step; try (apply quiet_serve; intros; quiet_all); quiet_all.
Qed.


End Quiet.

(** ** A silent client *)

Section Silent.
  Context {W : Type} `{!IspEnv W}.

(** Nothing arrives for [m] times the time-out. *)
Definition silent (m : nat) (evs : list event) (out : list Z) (s : st W) : Prop :=
  g_thread_stop_flag s = false /\ rx (s_sock s) = replicate m EvTimeout ++ evs /\ sent (s_sock s) = out.

Lemma read_loop_silent fuel k got len evs : rx k = EvTimeout :: evs -> 0 < len ->
  read_loop (S fuel) k got len SOCK_DEFAULT_TIMEOUT = Some (got, mkSock evs (tx k) (sent k) ETIMEDOUT).
Proof.
  intros Hr Hl. cbn [read_loop]. rewrite (proj2 (Z.leb_gt len 0)) by done.
  unfold read_timeout. change (0 <? SOCK_DEFAULT_TIMEOUT) with true. cbv iota. by rewrite Hr.
Qed.

Lemma read_silent k cmd evs : rx k = EvTimeout :: evs ->
  sock_read_check_packet k cmd SOCK_DEFAULT_TIMEOUT
  = Some (SOCK_RW_TRY_AGAIN, replicate 40 0, mkSock evs (tx k) (sent k) ETIMEDOUT).
Proof.
  intros Hr. unfold sock_read_check_packet, sock_read. change (Z.to_nat PACKET_SIZE) with (S 39).
  by rewrite (read_loop_silent 39 k [] PACKET_SIZE evs).
Qed.

Lemma check_silent cmd m evs out s : silent (S m) evs out s ->
  exists s', read_check cmd s = Some ((SOCK_RW_TRY_AGAIN, replicate 40 0), s') /\
    silent m evs out s' /\ errno (s_sock s') = ETIMEDOUT.
Proof.
  intros (H1 & H2 & H3). unfold read_check, on_sock.
  rewrite (read_silent _ cmd (replicate m EvTimeout ++ evs)) by done.
  cbn [mbind option_bind]. eexists. split; [reflexivity|]. by split_and!.
Qed.

Lemma reply_silent cmd m evs out s : silent (S m) evs out s ->
  exists s', sock_read_check_reply cmd s = Some ((SOCK_RW_TRY_AGAIN, replicate 40 0), s') /\
    silent m evs out s' /\ errno (s_sock s') = ETIMEDOUT.
Proof.
  intros H. destruct (check_silent cmd m evs out s H) as (s' & E & Hs). exists s'. split; [|done].
  unfold sock_read_check_reply. by rewrite (bind_some _ _ _ _ _ E).
Qed.

Definition nobody (n : nat) (b : bool) : bool := b.

Lemma set_stop_same (s : st W) : set_stop (nobody 0 (g_thread_stop_flag s)) s = s.
Proof. by destruct s. Qed.

Lemma serve_silent {L} rd (body : list Z -> L -> H (bool * L)) reset l m : forall fuel n times evs out s,
  (forall m evs out s, silent (S m) evs out s -> exists s', rd s = Some ((SOCK_RW_TRY_AGAIN, replicate 40 0), s') /\
    silent m evs out s' /\ errno (s_sock s') = ETIMEDOUT) ->
  (m < fuel)%nat -> times + Z.of_nat m = SERVER_TIMEOUT_MAX -> silent (S m) evs out s ->
  exists s', serve nobody reset fuel n rd body times l s = Some (l, s') /\ silent 0 evs out s'.
Proof.
  induction m as [|m IH]; intros fuel n times evs out s Hrd Hf Ht Hs;
    (destruct fuel as [|fuel]; [lia|]); cbn [serve];
    destruct (Hrd _ _ _ _ Hs) as (s1 & E & Hs1 & He);
    unfold bind at 1, modify, nobody; replace (set_stop _ s) with s by (by destruct s);
    unfold bind at 1, get; rewrite (proj1 Hs);
    rewrite (bind_some _ _ _ _ _ E); cbn [SHOULD_CLOSE_SOCK]; unfold bind, get; rewrite He, Z.eqb_refl;
    unfold SERVER_TIMEOUT_MAX in *.
  - rewrite (proj2 (Z.ltb_lt 10 _)) by lia. exists s1. by split.
  - rewrite (proj2 (Z.ltb_ge 10 _)) by lia. apply IH; [done|lia|lia|done].
Qed.

Lemma heart_silent m : forall fuel n times evs out s,
  (m < fuel)%nat -> times + Z.of_nat m = SERVER_TIMEOUT_MAX -> silent (S m) evs out s ->
  exists s', heart_loop nobody fuel n times s = Some (tt, s') /\ silent 0 evs out s'.
Proof.
  induction m as [|m IH]; intros fuel n times evs out s Hf Ht Hs;
    (destruct fuel as [|fuel]; [lia|]); cbn [heart_loop];
    destruct (reply_silent SOCK_CMD_HEART_JUMP _ _ _ _ Hs) as (s1 & E & Hs1 & He);
    unfold bind at 1, modify, nobody; replace (set_stop _ s) with s by (by destruct s);
    unfold bind at 1, get; rewrite (proj1 Hs);
    rewrite (bind_some _ _ _ _ _ E); cbn [SHOULD_CLOSE_SOCK]; unfold bind, get; rewrite He, Z.eqb_refl;
    unfold SERVER_TIMEOUT_MAX in *; cbn [modify].
  - rewrite (proj2 (Z.ltb_lt 10 _)) by lia. eexists. split; [reflexivity|]. exact Hs1.
  - rewrite (proj2 (Z.ltb_ge 10 _)) by lia. apply IH; [lia|lia|exact Hs1].
Qed.

(** A call of a module does not end the silence. *)
Lemma call_silent {A} (f : W -> A * W) m evs out s :
  silent m evs out s -> exists a s', call f s = Some (a, s') /\ silent m evs out s'.
Proof. intros Hs. unfold call. destruct (f (s_env s)) as [a w]. by exists a, (set_env w s). Qed.

Lemma wp_call_silent {A} (f : W -> A * W) (k : A -> H unit) Q m evs out s :
  silent m evs out s -> (forall a s', silent m evs out s' -> wp (k a) Q s') -> wp (bind (call f) k) Q s.
Proof.
  intros Hs Hk. apply wp_bind. destruct (call_silent f m evs out s Hs) as (a & s' & E & Hs').
  unfold wp at 1. rewrite E. by apply Hk.
Qed.

Lemma wp_modify_silent (f : st W -> st W) (k : unit -> H unit) Q m evs out s :
  (forall s, silent m evs out s -> silent m evs out (f s)) -> silent m evs out s ->
  (forall s', silent m evs out s' -> wp (k tt) Q s') -> wp (bind (modify f) k) Q s.
Proof. intros Hf Hs Hk. apply wp_bind, Hk. by apply Hf. Qed.

Lemma wp_serve_silent {L} reset cmd rd (body : list Z -> L -> H (bool * L)) l (k : L -> H unit) Q evs out s :
  rd = read_check cmd \/ rd = sock_read_check_reply cmd ->
  silent 11 evs out s -> (forall s', silent 0 evs out s' -> wp (k l) Q s') ->
  wp (bind (serve nobody reset 12 0 rd body 0 l) k) Q s.
Proof.
  intros Hrd Hs Hk. apply wp_bind.
  destruct (serve_silent rd body reset l 10 12 0 0 evs out s) as (s' & E & Hs'); try done; [|lia|].
  - intros m evs' out' s1 H1. destruct Hrd as [-> | ->]; [by apply check_silent|by apply reply_silent].
  - unfold wp at 1. rewrite E. by apply Hk.
Qed.

Lemma wp_heart_silent (k : unit -> H unit) Q evs out s :
  silent 11 evs out s -> (forall s', silent 0 evs out s' -> wp (k tt) Q s') ->
  wp (bind (heart_loop nobody 12 0 0) k) Q s.
Proof.
  intros Hs Hk. apply wp_bind.
  destruct (heart_silent 10 12 0 0 evs out s) as (s' & E & Hs'); [lia|done|done|].
  unfold wp at 1. rewrite E. by apply Hk.
Qed.

Ltac silent_step Hleave :=
  match goal with
  | H : silent ?m ?e ?o ?s |- wp (bind (call _) _) _ ?s =>
      apply (wp_call_silent _ _ _ m e o); [exact H|clear H; intros ? ? ?]
  | H : silent ?m ?e ?o ?s |- wp (bind (modify _) _) _ ?s =>
      apply (wp_modify_silent _ _ _ m e o); [intros ? (? & ? & ?); by split_and!|exact H|clear H; intros ? ?]
  | H : silent ?m ?e ?o ?s |- wp (bind (enter _) _) _ ?s =>
      apply (wp_modify_silent _ _ _ m e o); [intros ? (? & ? & ?); by split_and!|exact H|clear H; intros ? ?]
  | H : silent _ ?e ?o ?s |- wp (bind (heart_loop _ _ _ _) _) _ ?s =>
      apply (wp_heart_silent _ _ e o); [exact H|clear H; intros ? ?]
  | H : silent _ ?e ?o ?s |- wp (bind (serve _ _ _ _ _ _ _ _) _) _ ?s =>
      eapply (wp_serve_silent _ _ _ _ _ _ _ e o); [first [by left|by right]|exact H|clear H; intros ? ?]
  | |- wp (leave _) _ _ => by apply Hleave
  end.

(** C21: a client that has gone is let go: a thread whose client sends
    nothing for eleven time-outs in a row returns after exactly those, having
    sent nothing and closed the socket; the threads that serve one request only
    aside, this holds for every kind of thread. *)
Theorem silent_client_dropped k evs s :
  k <> KSetInput -> g_thread_stop_flag s = false -> rx (s_sock s) = replicate 11 EvTimeout ++ evs ->
  exists s', run_thread nobody 12 k s = Some (tt, s') /\ s_closed s' = true /\
    rx (s_sock s') = evs /\ sent (s_sock s') = sent (s_sock s).
Proof.
  intros Hk Hstop Hrx.
  assert (silent 11 evs (sent (s_sock s)) s) as Hs by done.
  enough (wp (run_thread nobody 12 k) (fun _ s' => s_closed s' = true /\ rx (s_sock s') = evs /\
    sent (s_sock s') = sent (s_sock s)) s) as Hwp.
  { apply wp_run in Hwp as ([] & s' & E & Hq). by exists s'. }
  set (out := sent (s_sock s)) in *. clearbody out. clear Hstop Hrx.
  assert (forall c s, silent 0 evs out s -> wp (leave c) (fun _ s' => s_closed s' = true /\
    rx (s_sock s') = evs /\ sent (s_sock s') = out) s) as Hleave by (intros c s1 (_ & H2 & H3); done).
  destruct k; try done; cbn [run_thread];
    unfold sock_handle_heart_jump_thread, sock_handle_preview_thread, sock_handle_capture_thread,
      sock_handle_tuning_thread, sock_handle_statistics_thread, sock_handle_script_thread,
      sock_handle_register_thread, sock_handle_aelv_thread,
      sock_handle_raw_flow_thread, sock_handle_isp_version_thread.
  all: repeat silent_step Hleave.
Qed.

End Silent.

(** ** Letting clients in *)

(** An answer in order, whatever it says. *)
Definition in_order (p : list Z) : Prop :=
  is_reply p SOCK_CMD_ACK /\ packet_ret p = SOCK_CMD_RET_OK.

Lemma check_received_ok k p cmd timeout : length p = 40%nat ->
  is_reply p cmd -> packet_ret p = SOCK_CMD_RET_OK ->
  check_received k p cmd timeout = Some (SOCK_RW_CHECK_OK, p, k).
Proof.
  intros Hp (Hnc & Hns & Hv & Hc) Hr. unfold check_received.
  destruct (check_packet_spec p SOCK_CMD_CLOSE ltac:(lia)) as [(_ & H1)|(H1 & _)]; [by destruct Hnc|].
  rewrite (proj2 (Z.eqb_neq _ 0)) by lia.
  destruct (check_packet_spec p SOCK_CMD_ACK ltac:(lia)) as [(-> & H2)|(H2 & _)].
  - change (0 =? 0) with true. destruct (Z.eqb_spec (cmd_id p 1) SOCK_CMD_ACK_STATUS) as [E|E].
    { destruct Hns. destruct H2. by split_and!. }
    cbn [andb]. destruct (check_packet_spec p cmd ltac:(lia)) as [(-> & _)|(_ & [?|?])]; [|done|done].
    by rewrite Hr.
  - rewrite (proj2 (Z.eqb_neq (check_sock_packet p SOCK_CMD_ACK) 0)) by lia. cbn [andb].
    destruct (check_packet_spec p cmd ltac:(lia)) as [(-> & _)|(_ & [?|?])]; [|done|done]. by rewrite Hr.
Qed.

(** The question goes out and the answer comes in, in whatever pieces. *)
Lemma question_answered k q timeout :
  length q = 40%nat -> Forall ev_data (tx k) -> (40 <= length (stream (tx k)))%nat ->
  Forall ev_data (rx k) -> (40 <= length (stream (rx k)))%nat ->
  let p := take 40 (stream (rx k)) in in_order p ->
  exists k', sock_write_check_packet k q SOCK_CMD_ACK timeout = Some (SOCK_RW_CHECK_OK, p, k') /\
    sent k' = sent k ++ q /\ stream (rx k') = drop 40 (stream (rx k)) /\
    Forall ev_data (tx k') /\ stream (tx k') = drop 40 (stream (tx k)).
Proof.
  intros Hq Ht Hlt Hr Hlr p [Hp Hret]. unfold sock_write_check_packet, sock_write.
  destruct (write_loop_complete (length q) k q 0 timeout) as (k1 & -> & S1 & R1 & _ & T1 & TS1);
    [done|lia|done|]. rewrite Hq in *. cbn [mbind option_bind].
  change (negb (0 + Z.of_nat 40 =? PACKET_SIZE)) with false. cbv iota.
  unfold sock_read_check_packet, sock_read.
  destruct (read_loop_complete (Z.to_nat PACKET_SIZE) k1 [] PACKET_SIZE timeout)
    as (k2 & -> & _ & R2 & _ & T2 & N2); [by rewrite R1|rewrite R1; unfold PACKET_SIZE; lia|done|].
  change (Z.to_nat PACKET_SIZE) with 40%nat in *. rewrite R1 in *. cbn [mbind option_bind app].
  fold p. assert (length p = 40%nat) as Hpl by (unfold p; rewrite length_take; lia).
  rewrite Hpl. change (negb (Z.of_nat 40 =? PACKET_SIZE)) with false. cbv iota.
  replace (write_at (replicate 40 0) 0 p) with p.
  2:{ unfold write_at. rewrite Hpl. cbn. by rewrite app_nil_r. }
  rewrite check_received_ok by done. exists k2. split_and!; try done; [by rewrite N2|by rewrite T2|by rewrite T2].
Qed.

(** C22: the server lets in those who know the answer: a client whose
    answer is the right one and who asks for an existing kind of thread has its
    socket handed to the pool together with that thread and is told so after the
    question; any other answer in order is met with nothing but the question, a
    closed socket and, where it is the request to exit, a server that stops;
    the pool is left alone. *)
Theorem client_admitted fd k s :
  Forall ev_data (tx k) -> (80 <= length (stream (tx k)))%nat ->
  Forall ev_data (rx k) -> (40 <= length (stream (rx k)))%nat ->
  ThreadPool.p_holder (v_pool s) = ThreadPool.Free ->
  let p := take 40 (stream (rx k)) in in_order p ->
  exists ret k' s', client_handle fd k true s = Some (ret, k', s') /\
    stream (rx k') = drop 40 (stream (rx k)) /\
    match (if right_answer p then thread_of (cmd_id p 2) else None) with
    | Some kind =>
        ret = 0 /\ sent k' = sent k ++ question_packet ++ result_packet SOCK_CMD_RET_OK p /\
        ThreadPool.p_accepted (v_pool s') = ThreadPool.p_accepted (v_pool s) ++ [(kind, fd)] /\
        v_closed s' = v_closed s /\ g_server_stop_flag s' = g_server_stop_flag s
    | None =>
        ret = -1 /\ sent k' = sent k ++ question_packet /\ v_pool s' = v_pool s /\
        v_closed s' = v_closed s ++ [fd] /\
        g_server_stop_flag s' =
          (right_answer p && (cmd_id p 2 =? SOCK_CMD_EXIT)) || g_server_stop_flag s
    end.
Proof.
  intros Ht Hlt Hr Hlr Hpool p Hp. unfold client_handle.
  destruct (question_answered k question_packet SOCK_DEFAULT_TIMEOUT) as (k1 & -> & S1 & R1 & T1 & TS1);
    [done|done|lia|done|done|done|]. cbn [mbind option_bind]. fold p.
  destruct (right_answer p) eqn:Ea; cbn [negb].
  2:{ do 3 eexists. split; [reflexivity|]. by split_and!. }
  destruct (thread_of (cmd_id p 2)) as [kind|] eqn:Ek.
  2:{ do 3 eexists. split; [reflexivity|]. split_and!; try done; by destruct (_ =? SOCK_CMD_EXIT). }
  destruct (ThreadPool.add_work_completes (v_pool s) (Some (kind, fd)) true Hpool) as (pool & -> & _ & Hadd & _).
  destruct (Hadd eq_refl) as [Hret Hacc]. cbn [mbind option_bind]. rewrite Hret.
  change (0 <? 0) with false. cbv iota.
  assert (length p = 40%nat) as Hpl by (unfold p; rewrite length_take; lia).
  assert (length (result_packet SOCK_CMD_RET_OK p) = 40%nat) as Hrl.
  { unfold result_packet, set_ret, put. rewrite !length_write_at; rewrite ?length_write_at; cbn; lia. }
  unfold sock_write.
  destruct (write_loop_complete (length (result_packet SOCK_CMD_RET_OK p)) k1 (result_packet SOCK_CMD_RET_OK p) 0
    SOCK_DEFAULT_TIMEOUT) as (k2 & -> & S2 & R2 & _); [done|rewrite TS1, length_drop; lia|done|].
  cbn [mbind option_bind]. do 3 eexists. split; [reflexivity|]. split; [by rewrite R2|].
  split_and!; try done. by rewrite S2, S1, <- app_assoc.
Qed.

(** ** A server with modules that do nothing *)

#[local] Instance idle_env : IspEnv unit := {
  malloc _ size := (if size <=? 1024 then Some (replicate (Z.to_nat size) 0) else None, tt);
  select_isp _ _ := (0, tt);
  cfg_size := 64;
  isp_get_cfg _ _ _ _ b := (-1, b, tt);
  isp_set_cfg _ _ _ _ _ := (-1, tt);
  isp_update _ _ := (0, tt);
  cfg_to_network _ _ b := b;
  cfg_to_local _ _ b := b;
  isp_stats_req _ _ := (-1, tt);
  stats_info _ _ := [];
  isp_get_lv _ _ := (0, tt);
  get_isp_version _ := (bytes "v1", tt);
  set_sensor_input _ _ := (0, tt);
  get_capture_buffer _ f := (-1, f, tt);
  get_capture_buffer_transfer _ f := (-1, f, tt);
  start_raw_flow _ f := (0, f, tt);
  stop_raw_flow _ _ := (0, tt);
  get_raw_flow_frame _ f := (-1, f, tt);
  mini_shell_exec _ _ := (0, replicate 1024 0, tt);
  system _ _ := tt;
  read_file _ _ := (Some (4096, bytes "0x1f"), tt)
}.

Definition no_names : reg_names := mkRegNames [] [] [] [] (bytes "/sys/devices/s/read_value").

Definition example_st (rx tx : list event) (stop : bool) (status : Z) : st unit :=
  mkSt (mkSock rx tx [] 0) false tt no_names stop status.

Definition tuning_client : st unit :=
  example_st (replicate 11 EvTimeout) [] false (Z.lor TH_STATUS_PREVIEW TH_STATUS_TUNING).

(** The version thread takes the tuning thread's bit with it. *)
Lemma thread_cleans_up_witness :
  exists s', run_thread nobody 12 KIspVersion tuning_client = Some (tt, s') /\
    ended (clears KIspVersion) tuning_client s' /\ Z.testbit (g_thread_status tuning_client) 3 = true.
Proof.
  eexists. split; [vm_compute; reflexivity|]. split; [|reflexivity].
  eapply (thread_cleans_up nobody 12 KIspVersion). vm_compute. reflexivity.
Defined.

Lemma silent_client_dropped_witness :
  exists s', run_thread nobody 12 KTuning tuning_client = Some (tt, s') /\ s_closed s' = true /\
    rx (s_sock s') = [] /\ sent (s_sock s') = [].
Proof. apply (silent_client_dropped KTuning [] tuning_client); [discriminate|reflexivity|reflexivity]. Defined.

(** The answer, asking for the tuning thread. *)
Definition tuning_answer : list Z :=
  write_at (write_at pack_packet 4 [SOCK_CMD_ACK; SOCK_CMD_ACK_ANSWER; 4])
    12 (be32 SOCK_CMD_RET_OK ++ be32 0 ++ SERVER_SOCK_ANSWER ++ [0]).

Definition answering : sock :=
  mkSock [EvData (take 7 tuning_answer); EvData (drop 7 tuning_answer)] [EvData (replicate 80 0)] [] 0.

Definition fresh_server : server := mkServer true 3 false ThreadPool.init_thread_pool [].

Lemma client_admitted_witness :
  in_order (take 40 (stream (rx answering))) /\
  exists k' s', client_handle 9 answering true fresh_server = Some (0, k', s') /\
    ThreadPool.p_accepted (v_pool s') = [(KTuning, 9)].
Proof.
  assert (in_order (take 40 (stream (rx answering)))) as Hp.
  { split; [|reflexivity]. unfold is_reply. vm_compute. intuition discriminate. }
  split; [exact Hp|].
  destruct (client_admitted 9 answering fresh_server) as (ret & k' & s' & E & _ & H); try exact Hp.
  - repeat constructor; by vm_compute.
  - vm_compute. lia.
  - repeat constructor; by vm_compute.
  - vm_compute. lia.
  - reflexivity.
  - vm_compute in H. exists k', s'. destruct H as (-> & _ & H & _). split; [exact E|exact H].
Defined.

(** ** Requests that leave the threads' buffers *)

(** A script request is believed about its length: 1025 bytes are read into
    the 1024 of the buffer, 1024 bytes put the terminator behind it. *)
Lemma script_overflows (n : Z) :
  n = 1024 \/ n = 1025 ->
  script_request (set_data_length n pack_packet) (replicate 1024 0)
    (example_st [EvData (replicate (Z.to_nat n) 97)] [] false 0) = None.
Proof. intros [-> | ->]; vm_compute; reflexivity. Qed.

(** So does the name of a sensor with 129 characters. *)
Lemma sensor_name_overflows :
  register_request (set_data_length 129 (write_at pack_packet 5 [SOCK_CMD_REG_SETCFG])) tt
    (example_st [EvData (replicate 129 97)] [EvData (replicate 40 0)] false 0) = None.
Proof. vm_compute. reflexivity. Qed.

(** The register file is a sysfs attribute, whose size is a page, so the
    terminator goes to [buffer[4096]] of 256 bytes. *)
Lemma sysfs_read_overflows s : s_regs s = no_names -> read_reg (W:=unit) 5 s = None.
Proof. destruct s as [? ? [] ? ? ?]. cbn. intros ->. vm_compute. reflexivity. Qed.

End IspThm.
