(* ===== verification/IspEvents.v ===== *)
(** * The event loop of the ISP library (camera/3_4/allwinnertech/libAWIspApi/
      libisp_new/isp_events/events.c)

    A list of descriptors with a callback each, the sets [select] waits for,
    and the loop that calls the callbacks of the descriptors that are ready.
    The entries live in memory blocks: the list holds the address of each live
    entry, in the order of the links, and following a pointer to an entry that
    is not in the list any more is a use after free.  Callbacks change the
    state of the whole library, which holds the list.

    [None] is undefined behaviour or a loop that never ends. *)

From stdpp Require Import base tactics option list list_numbers numbers gmap sets.
From Stdlib Require Import ZArith Lia.
From S2P Require Import Prelude.

Local Open Scope Z_scope.

Module IspEvents.

(** ** Data *)

Inductive hw_isp_event_type := HW_ISP_EVENT_READ | HW_ISP_EVENT_WRITE | HW_ISP_EVENT_EXCEPTION.

#[global] Instance hw_isp_event_type_eq : EqDecision hw_isp_event_type.
Proof. solve_decision. Defined.

Definition SELECT_TIMEOUT : Z := 3000.
(** [FD_SET] of a descriptor outside this range leaves the set. *)
Definition FD_SETSIZE : Z := 1024.

Section Events.
  (** A callback with its [priv]. *)
  Context {C : Type}.

Record event_fd := mkEvent { ev_fd : Z; ev_type : hw_isp_event_type; ev_callback : C }.

(** [e_fresh] is the address the next block gets. *)
Record event_list := mkEvents {
  e_events : list (Z * event_fd); e_fresh : Z; e_done : bool; e_isp_id : Z;
  e_maxfd : Z; e_rfds : gset Z; e_wfds : gset Z; e_efds : gset Z
}.

Definition set_sets (f : gset Z -> gset Z) (t : hw_isp_event_type) (e : event_list) : event_list :=
  match t with
  | HW_ISP_EVENT_READ => mkEvents (e_events e) (e_fresh e) (e_done e) (e_isp_id e) (e_maxfd e) (f (e_rfds e)) (e_wfds e) (e_efds e)
  | HW_ISP_EVENT_WRITE => mkEvents (e_events e) (e_fresh e) (e_done e) (e_isp_id e) (e_maxfd e) (e_rfds e) (f (e_wfds e)) (e_efds e)
  | HW_ISP_EVENT_EXCEPTION => mkEvents (e_events e) (e_fresh e) (e_done e) (e_isp_id e) (e_maxfd e) (e_rfds e) (e_wfds e) (f (e_efds e))
  end.
Definition set_events (l : list (Z * event_fd)) (fresh maxfd : Z) (e : event_list) : event_list :=
  mkEvents l fresh (e_done e) (e_isp_id e) maxfd (e_rfds e) (e_wfds e) (e_efds e).
Definition set_done (b : bool) (e : event_list) : event_list :=
  mkEvents (e_events e) (e_fresh e) b (e_isp_id e) (e_maxfd e) (e_rfds e) (e_wfds e) (e_efds e).

(** ** Operations *)

Definition events_init (e : event_list) : event_list := mkEvents [] (e_fresh e) false 0 0 ∅ ∅ ∅.
Definition events_star (e : event_list) : event_list := set_done false e.
Definition events_stop (e : event_list) : event_list := set_done true e.

Definition fd_ok (fd : Z) : bool := (0 <=? fd) && (fd <? FD_SETSIZE).

(** [mem] tells whether [malloc] gives a block. *)
Definition events_monitor_fd (fd : Z) (type : hw_isp_event_type) (callback : C) (mem : bool) (e : event_list)
  : option event_list :=
  if negb mem then Some e else
  if negb (fd_ok fd) then None else
  let e := set_sets (fun s => {[fd]} ∪ s) type e in
  Some (set_events (e_events e ++ [(e_fresh e, mkEvent fd type callback)]) (e_fresh e + 1) (Z.max (e_maxfd e) fd) e).

(** The loop over the list: the last entry of [fd], and the maximum of the
    others. *)
Fixpoint unmonitor_scan (l : list (Z * event_fd)) (fd : Z) (event : option (Z * event_fd)) (maxfd : Z)
  : option (Z * event_fd) * Z :=
  match l with
  | [] => (event, maxfd)
  | x :: l =>
      if ev_fd x.2 =? fd then unmonitor_scan l fd (Some x) maxfd
      else unmonitor_scan l fd event (Z.max maxfd (ev_fd x.2))
  end.

Definition events_unmonitor_fd (fd : Z) (e : event_list) : option event_list :=
  let '(event, maxfd) := unmonitor_scan (e_events e) fd None 0 in
  match event with
  | None => Some e
  | Some (a, ev) =>
      if negb (fd_ok fd) then None else
      let e := set_sets (fun s => s ∖ {[fd]}) (ev_type ev) e in
      Some (set_events (filter (fun x => x.1 <> a) (e_events e)) (e_fresh e) maxfd e)
  end.

(** ** The loop *)

Definition entry_at (l : list (Z * event_fd)) (a : Z) : option event_fd :=
  snd <$> find (fun x => x.1 =? a) l.

(** [pos->member.next]: [Some None] is the head of the list, [None] a
    pointer to a block that is no longer there. *)
Fixpoint next_of (l : list (Z * event_fd)) (a : Z) : option (option Z) :=
  match l with
  | [] => None
  | x :: l => if x.1 =? a then Some (fst <$> head l) else next_of l a
  end.

Definition is_ready (r w x : gset Z) (ev : event_fd) : bool :=
  match ev_type ev with
  | HW_ISP_EVENT_READ => bool_decide (ev_fd ev ∈ r)
  | HW_ISP_EVENT_WRITE => bool_decide (ev_fd ev ∈ w)
  | HW_ISP_EVENT_EXCEPTION => bool_decide (ev_fd ev ∈ x)
  end.

(** The whole state, the list in it, and the callbacks. *)
Context {St : Type} (ev_of : St -> event_list) (set_ev : event_list -> St -> St) (run : C -> St -> option St).

(** [events->done] as it is seen when another thread may have called
    [events_stop]. *)
Definition look (stopped : bool) (s : St) : St :=
  if stopped then set_ev (events_stop (ev_of s)) s else s.

(** From the condition of the loop on; [next] was read before the callback of
    [pos].  [stopped k] tells whether another thread stops the loop before the
    [k]th look at [done]. *)
Fixpoint dispatch_loop (fuel k : nat) (stopped : nat -> bool) (r w x : gset Z) (pos next : option Z) (s : St)
  : option St :=
  match fuel with
  | O => None
  | S fuel =>
      match pos with
      | None => Some s
      | Some a =>
          ev ← entry_at (e_events (ev_of s)) a;
          s ← (if is_ready r w x ev then run (ev_callback ev) s else Some s);
          let s := look (stopped k) s in
          if e_done (ev_of s) then Some s else
          after ← match next with
                  | None => Some (fst <$> head (e_events (ev_of s)))
                  | Some b => next_of (e_events (ev_of s)) b
                  end;
          dispatch_loop fuel (S k) stopped r w x next after s
      end
  end.

Definition events_dispatch (fuel : nat) (stopped : nat -> bool) (r w x : gset Z) (s : St) : option St :=
  match e_events (ev_of s) with
  | [] => Some s
  | y :: l => dispatch_loop fuel 0 stopped r w x (Some y.1) (fst <$> head l) s
  end.

(** What [select] returns; the sets are those the kernel finds ready. *)
Inductive select_res := SelErr (errno : Z) | SelTimeout | SelReady (r w x : gset Z).

Definition EINTR : Z := 4.

(** [select] looks at the descriptors below [maxfd + 1] that are asked for. *)
Definition selected (e : event_list) (asked ready : gset Z) : gset Z :=
  filter (fun fd => fd <= e_maxfd e) (asked ∩ ready).

Definition dispatch_ready (stopped : nat -> bool) (r w x : gset Z) (s : St) : option St :=
  let e := ev_of s in
  events_dispatch (S (length (e_events e))) stopped
    (selected e (e_rfds e) r) (selected e (e_wfds e) w) (selected e (e_efds e) x) s.

(** [stopped n 0] belongs to the loop's own look in its [n]th turn; the list
    of answers is as long as the loop needs. *)
Fixpoint events_loop (n : nat) (stopped : nat -> nat -> bool) (sels : list select_res) (s : St)
  : option (bool * St) :=
  let s := look (stopped n 0%nat) s in
  if e_done (ev_of s) then Some (false, s) else
  match sels with
  | [] => None
  | SelErr errno :: sels =>
      if errno =? EINTR then events_loop (S n) stopped sels s
      else let s := look (stopped n 1%nat) s in Some (negb (e_done (ev_of s)), s)
  | SelTimeout :: _ => let s := look (stopped n 1%nat) s in Some (negb (e_done (ev_of s)), s)
  | SelReady r w x :: sels =>
      s ← dispatch_ready (fun k => stopped n (S k)) r w x s;
      events_loop (S n) stopped sels s
  end.

End Events.

Arguments event_fd : clear implicits.
Arguments event_list : clear implicits.
Arguments mkEvent {C}.
Arguments mkEvents {C}.

(** ** The list and the sets *)

Section Sets.
  Context {C : Type}.
  Implicit Types e : event_list C.

Definition set_of (t : hw_isp_event_type) e : gset Z :=
  match t with
  | HW_ISP_EVENT_READ => e_rfds e | HW_ISP_EVENT_WRITE => e_wfds e | HW_ISP_EVENT_EXCEPTION => e_efds e
  end.

Definition fds e : list Z := map (fun x => ev_fd x.2) (e_events e).

(** Each descriptor is monitored once, is in the set of its type and no other,
    and [maxfd] is the greatest. *)
Record events_ok e : Prop := {
  ok_addr : NoDup (map fst (e_events e));
  ok_fresh : Forall (fun x => x.1 < e_fresh e) (e_events e);
  ok_fds : NoDup (fds e);
  ok_range : Forall (fun fd => fd_ok fd = true) (fds e);
  ok_sets : forall t fd, fd ∈ set_of t e <-> exists x, x ∈ e_events e /\ ev_fd x.2 = fd /\ ev_type x.2 = t;
  ok_max : e_maxfd e = foldr Z.max 0 (fds e)
}.

Lemma set_of_sets f t t' e : set_of t (set_sets f t' e) = if decide (t = t') then f (set_of t e) else set_of t e.
Proof. by destruct t, t'. Qed.
Lemma set_of_events l n m t e : set_of t (set_events l n m e) = set_of t e.
Proof. by destruct t. Qed.
Lemma events_of_sets f t e : e_events (set_sets f t e) = e_events e.
Proof. by destruct t. Qed.
Lemma fresh_of_sets f t e : e_fresh (set_sets f t e) = e_fresh e.
Proof. by destruct t. Qed.
Lemma maxfd_of_sets f t e : e_maxfd (set_sets f t e) = e_maxfd e.
Proof. by destruct t. Qed.

Lemma foldr_max_app l n : foldr Z.max 0 (l ++ [n]) = Z.max (foldr Z.max 0 l) (Z.max n 0).
Proof. induction l as [|m l IH]; cbn [app foldr]; [lia|]. rewrite IH. lia. Qed.

Lemma foldr_max_ge l n : n ∈ l -> n <= foldr Z.max 0 l.
Proof.
  induction l as [|m l IH]; [by intros ?%elem_of_nil|]. cbn [foldr].
  intros [->|H]%elem_of_cons; [lia|]. apply IH in H. lia.
Qed.

Lemma fd_ok_range fd : fd_ok fd = true -> 0 <= fd < FD_SETSIZE.
Proof. unfold fd_ok. lia. Qed.

Lemma init_ok e : events_ok (events_init e).
Proof.
  split; cbn; try constructor. intros H. destruct t; cbn in H; set_solver.
  intros (x & H & _). by apply elem_of_nil in H.
Qed.

Lemma monitor_ok fd t c e :
  events_ok e -> fd ∉ fds e -> fd_ok fd = true ->
  exists e', events_monitor_fd fd t c true e = Some e' /\ events_ok e' /\
    map snd (e_events e') = map snd (e_events e) ++ [mkEvent fd t c].
Proof.
  intros [H1 H2 H3 H4 H5 H6] Hfd Hok. unfold events_monitor_fd. rewrite Hok. cbn [negb].
  eexists. split; [reflexivity|]. rewrite !events_of_sets, fresh_of_sets, maxfd_of_sets.
  split; [|by cbn [e_events set_events]; rewrite map_app].
  split; unfold fds; rewrite ?set_of_events; cbn [e_events e_fresh e_maxfd set_events].
  - rewrite map_app. apply NoDup_app. split_and!; [done| |by apply NoDup_singleton].
    intros a Ha. cbn [map]. rewrite list_elem_of_singleton. intros ->.
    apply list_elem_of_fmap in Ha as (x & Ex & Hx). rewrite Forall_forall in H2.
    apply H2 in Hx. cbn in Ex. lia.
  - apply Forall_app. split; [|by repeat constructor; cbn; lia].
    eapply Forall_impl; [exact H2|]. cbn. intros; lia.
  - rewrite map_app. apply NoDup_app. split_and!; [done| |by apply NoDup_singleton].
    intros x Hx. cbn [map]. rewrite list_elem_of_singleton. intros ->. done.
  - rewrite map_app. apply Forall_app. split; [done|]. by repeat constructor.
  - intros t' fd'. rewrite set_of_events, set_of_sets.
    assert (fd' ∈ (if decide (t' = t) then {[fd]} ∪ set_of t' e else set_of t' e) <->
      (fd' = fd /\ t' = t) \/ fd' ∈ set_of t' e) as -> by (case_decide; set_solver).
    rewrite H5. split.
    + intros [[-> ->]|(x & Hx & ?)]; [eexists (_, _)|exists x]; rewrite elem_of_app, ?list_elem_of_singleton; eauto.
    + intros (x & Hx & E1 & E2). apply elem_of_app in Hx as [Hx|Hx]; [right; eauto|].
      apply list_elem_of_singleton in Hx as ->. by left.
  - rewrite map_app. cbn [map]. rewrite foldr_max_app. rewrite H6. unfold fds.
    pose proof (fd_ok_range _ Hok). cbn. lia.
Qed.

(** ** Taking a descriptor out *)

Lemma scan_absent l fd ev m :
  fd ∉ map (fun x => ev_fd x.2) l ->
  unmonitor_scan (C:=C) l fd ev m = (ev, foldl Z.max m (map (fun x => ev_fd x.2) l)).
Proof.
  revert m. induction l as [|x l IH]; intros m H; [done|]. cbn [unmonitor_scan map foldl] in *.
  apply not_elem_of_cons in H as [H1 H2]. rewrite (proj2 (Z.eqb_neq _ _)) by done. by apply IH.
Qed.

Lemma scan_present l1 x l2 ev m :
  ev_fd x.2 ∉ map (fun x => ev_fd x.2) (l1 ++ l2) ->
  unmonitor_scan (C:=C) (l1 ++ x :: l2) (ev_fd x.2) ev m
  = (Some x, foldl Z.max m (map (fun x => ev_fd x.2) (l1 ++ l2))).
Proof.
  revert ev m. induction l1 as [|y l1 IH]; intros ev m H; cbn [app unmonitor_scan map foldl] in *.
  - rewrite Z.eqb_refl. by apply scan_absent.
  - apply not_elem_of_cons in H as [H1 H2]. rewrite (proj2 (Z.eqb_neq _ _)) by done. by apply IH.
Qed.

Lemma foldl_max l m : 0 <= m -> foldl Z.max m l = Z.max m (foldr Z.max 0 l).
Proof. revert m. induction l as [|n l IH]; intros m H; cbn; [lia|]. rewrite IH by lia. lia. Qed.

Lemma filter_all {A} (P : A -> Prop) `{!forall x, Decision (P x)} l : Forall P l -> filter P l = l.
Proof. induction 1; [done|]. by rewrite filter_cons_True, IHForall. Qed.

Lemma unmonitor_ok fd e :
  events_ok e ->
  exists e', events_unmonitor_fd fd e = Some e' /\ events_ok e' /\
    map snd (e_events e') = filter (fun ev => ev_fd ev <> fd) (map snd (e_events e)).
Proof.
  intros Hok. pose proof Hok as [H1 H2 H3 H4 H5 H6]. unfold events_unmonitor_fd.
  destruct (decide (fd ∈ fds e)) as [Hin|Hout].
  2:{ rewrite scan_absent by done. exists e. split_and!; [done|done|].
      rewrite filter_all; [done|]. apply Forall_forall. intros ev Hev <-. apply Hout.
      apply list_elem_of_fmap in Hev as (x & -> & Hx).
      apply list_elem_of_fmap. by exists x. }
  apply list_elem_of_fmap in Hin as (x & -> & Hx). apply list_elem_of_split in Hx as (l1 & l2 & E).
  unfold fds in *. rewrite E in *.
  assert (ev_fd x.2 ∉ map (fun x => ev_fd x.2) (l1 ++ l2)) as Hnf.
  { rewrite map_app in *. cbn [map] in H3. apply NoDup_app in H3 as (_ & Hd & [Hn _]%NoDup_cons).
    rewrite elem_of_app. intros [H|H]; [|done]. apply (Hd _ H). by left. }
  rewrite scan_present by done. destruct x as [a ev]. cbn [fst snd] in *.
  assert (fd_ok (ev_fd ev) = true) as Hr.
  { rewrite map_app in H4. apply Forall_app in H4 as [_ H4]. by apply Forall_cons_1 in H4 as [? _]. }
  rewrite Hr. cbn [negb]. rewrite events_of_sets, fresh_of_sets, E.
  assert (filter (fun y : Z * event_fd C => y.1 <> a) (l1 ++ (a, ev) :: l2) = l1 ++ l2) as Ef.
  { rewrite map_app in H1. cbn [map fst] in H1. apply NoDup_app in H1 as (_ & Hd & [Hn _]%NoDup_cons).
    rewrite filter_app, filter_cons_False by (by intros []). f_equal; apply filter_all, Forall_forall;
      intros y Hy <-.
    - apply (Hd y.1); [apply list_elem_of_fmap; by exists y|]. by left.
    - apply Hn, list_elem_of_fmap. by exists y. }
  rewrite Ef. eexists. split; [reflexivity|]. split.
  - split; unfold fds; cbn [e_events e_fresh e_maxfd set_events].
    + rewrite map_app in *. cbn [map] in H1. apply NoDup_app in H1 as (? & Hd & [? ?]%NoDup_cons).
      apply NoDup_app. split_and!; [done| |done]. intros y Hy Hy2. apply (Hd y Hy). by right.
    + apply Forall_app in H2 as [? [_ ?]%Forall_cons_1]. by apply Forall_app.
    + rewrite map_app in *. cbn [map] in H3. apply NoDup_app in H3 as (? & Hd & [? ?]%NoDup_cons).
      apply NoDup_app. split_and!; [done| |done]. intros y Hy Hy2. apply (Hd y Hy). by right.
    + rewrite map_app in *. apply Forall_app in H4 as [? [_ ?]%Forall_cons_1]. by apply Forall_app.
    + intros t fd'. rewrite set_of_events, set_of_sets.
      assert (fd' ∈ (if decide (t = ev_type ev) then set_of t e ∖ {[ev_fd ev]} else set_of t e) <->
        fd' ∈ set_of t e /\ ~ (fd' = ev_fd ev /\ t = ev_type ev)) as -> by (case_decide; set_solver).
      rewrite H5. split.
      * intros [(y & Hy & <- & <-) Hn]. exists y. split_and!; [|done|done].
        apply elem_of_app in Hy as [Hy|[->|Hy]%elem_of_cons]; rewrite elem_of_app; [by left| |by right].
        by destruct Hn.
      * intros (y & Hy & <- & <-). split.
        { exists y. split_and!; [|done|done]. apply elem_of_app in Hy as [Hy|Hy]; rewrite elem_of_app; [by left|].
          right. by right. }
        intros [E1 _]. apply Hnf. rewrite <- E1. apply list_elem_of_fmap. by exists y.
    + by rewrite foldl_max by lia; rewrite Z.max_r by (clear; induction (map _ _); cbn; lia).
  - cbn [e_events set_events]. rewrite !map_app, filter_app. cbn [map snd].
    rewrite filter_cons_False by (by intros []). rewrite map_app in Hnf.
    f_equal; symmetry; apply filter_all, Forall_forall; intros y Hy Ey; rewrite <- Ey in Hnf; apply Hnf;
      apply list_elem_of_fmap in Hy as (z & -> & Hz); rewrite elem_of_app; [left|right];
      apply list_elem_of_fmap; by exists z.
Qed.

End Sets.

(** ** Registering and forgetting *)

Section Registry.
  Context {C : Type}.

Inductive reg_op := OMonitor (fd : Z) (type : hw_isp_event_type) (callback : C) | OUnmonitor (fd : Z).

Definition reg_run (o : reg_op) (e : event_list C) : option (event_list C) :=
  match o with
  | OMonitor fd t c => events_monitor_fd fd t c true e
  | OUnmonitor fd => events_unmonitor_fd fd e
  end.

Fixpoint reg_runs (ops : list reg_op) (e : event_list C) : option (event_list C) :=
  match ops with [] => Some e | o :: ops => e ← reg_run o e; reg_runs ops e end.

(** The same on the registrations in their order. *)
Definition reg_spec (o : reg_op) (l : list (event_fd C)) : list (event_fd C) :=
  match o with
  | OMonitor fd t c => l ++ [mkEvent fd t c]
  | OUnmonitor fd => filter (fun ev => ev_fd ev <> fd) l
  end.

(** A descriptor is valid and not monitored yet when it is registered. *)
Fixpoint reg_allowed (ops : list reg_op) (l : list (event_fd C)) : Prop :=
  match ops with
  | [] => True
  | o :: ops =>
      match o with OMonitor fd _ _ => fd ∉ map ev_fd l /\ fd_ok fd = true | OUnmonitor _ => True end /\
      reg_allowed ops (reg_spec o l)
  end.

Lemma fds_entries (e : event_list C) : fds e = map ev_fd (map snd (e_events e)).
Proof. unfold fds. by rewrite map_map. Qed.

(** C27: the list of monitored descriptors: after [events_init], any
    sequence of [events_monitor_fd] and [events_unmonitor_fd] that registers no
    descriptor twice is defined, leaves the registrations in their order, every
    descriptor in the set of its type and in no other, and [maxfd] the
    greatest of them. *)
Theorem registry_tracks ops e0 :
  reg_allowed ops [] ->
  exists e, reg_runs ops (events_init e0) = Some e /\ events_ok e /\
    map snd (e_events e) = foldl (fun l o => reg_spec o l) [] ops.
Proof.
  intros Ha. assert (exists l, map snd (e_events (events_init e0)) = l /\ reg_allowed ops l /\ l = []) as (l & El & Hl & E0)
    by by eexists. rewrite <- E0. clear E0 Ha.
  pose proof (init_ok e0) as Hok. revert l El Hl Hok. generalize (events_init e0) as e.
  induction ops as [|o ops IH]; intros e l El Hl Hok; [by exists e|].
  cbn [reg_runs foldl reg_allowed] in *. destruct Hl as [Ho Hl]. destruct o as [fd t c|fd]; cbn [reg_run].
  - destruct Ho as [Hn Hr]. rewrite <- El, <- fds_entries in Hn.
    destruct (monitor_ok fd t c e Hok Hn Hr) as (e' & -> & Hok' & E). apply IH; [|done|done]. by rewrite E, El.
  - destruct (unmonitor_ok fd e Hok) as (e' & -> & Hok' & E). apply IH; [|done|done]. by rewrite E, El.
Qed.

End Registry.

(** ** A turn of the loop *)

Section Turn.
  Context {C St : Type} (ev_of : St -> event_list C) (set_ev : event_list C -> St -> St) (run : C -> St -> option St).
  Context (ev_set : forall e s, ev_of (set_ev e s) = e).
  (** Callbacks neither register nor forget a descriptor. *)
  Context (quiet : forall c s s', run c s = Some s' -> e_events (ev_of s') = e_events (ev_of s)).

(** The condition the kernel reports for an entry. *)
Definition reported (r w x : gset Z) (ev : event_fd C) : bool := is_ready r w x ev.

(** The callbacks of those the kernel reports, one after the other, until
    [done] is seen. *)
Fixpoint call_ready (k : nat) (stopped : nat -> bool) (l : list (event_fd C)) (ready : event_fd C -> bool) (s : St)
  : option St :=
  match l with
  | [] => Some s
  | ev :: l =>
      s ← (if ready ev then run (ev_callback ev) s else Some s);
      let s := look ev_of set_ev (stopped k) s in
      if e_done (ev_of s) then Some s else call_ready (S k) stopped l ready s
  end.

Lemma look_events b s : e_events (ev_of (look ev_of set_ev b s)) = e_events (ev_of s).
Proof. destruct b; cbn [look]; [by rewrite ev_set|done]. Qed.

Lemma find_middle {A} (pre post : list (Z * A)) a v :
  NoDup (map fst (pre ++ (a, v) :: post)) -> find (fun x => x.1 =? a) (pre ++ (a, v) :: post) = Some (a, v).
Proof.
  induction pre as [|y pre IH]; cbn [app map find]; [by rewrite Z.eqb_refl|].
  intros [H1 H2]%NoDup_cons. rewrite (proj2 (Z.eqb_neq _ _)); [by apply IH|].
  intros E. apply H1. rewrite E, map_app, elem_of_app. right. by left.
Qed.

Lemma next_middle (pre post : list (Z * event_fd C)) a v :
  NoDup (map fst (pre ++ (a, v) :: post)) -> next_of (pre ++ (a, v) :: post) a = Some (fst <$> head post).
Proof.
  induction pre as [|y pre IH]; cbn [app map next_of]; [by rewrite Z.eqb_refl|].
  intros [H1 H2]%NoDup_cons. rewrite (proj2 (Z.eqb_neq _ _)); [by apply IH|].
  intros E. apply H1. rewrite E, map_app, elem_of_app. right. by left.
Qed.

Lemma dispatch_suffix r w x stopped post : forall fuel k pre a ev s,
  e_events (ev_of s) = pre ++ (a, ev) :: post -> NoDup (map fst (pre ++ (a, ev) :: post)) ->
  (length post + 1 < fuel)%nat ->
  dispatch_loop ev_of set_ev run fuel k stopped r w x (Some a) (fst <$> head post) s
  = call_ready k stopped (ev :: map snd post) (is_ready r w x) s.
Proof.
  induction post as [|[b evb] post IH]; intros fuel k pre a ev s E Hnd Hf;
    (destruct fuel as [|fuel]; [cbn in Hf; lia|]); cbn [dispatch_loop call_ready];
    unfold entry_at; rewrite E, find_middle by done; cbn [fmap option_fmap option_map mbind option_bind snd];
    (assert (forall s', (if is_ready r w x ev then run (ev_callback ev) s else Some s) = Some s' ->
       e_events (ev_of s') = e_events (ev_of s)) as Hq by (destruct (is_ready _ _ _ _); [apply quiet|by intros ? [= ->]]));
    destruct (if is_ready r w x ev then _ else _) as [s1|]; [|done| |done]; cbn [mbind option_bind];
    specialize (Hq _ eq_refl); rewrite E in Hq; rewrite <- (look_events (stopped k) s1) in Hq;
    set (s2 := look _ _ _ s1) in *; destruct (e_done (ev_of s2)); [done| |done|].
  - cbn [head fmap option_fmap option_map mbind option_bind map call_ready].
    destruct fuel as [|fuel]; [cbn in Hf; lia|]. done.
  - cbn [head fmap option_fmap option_map fst]. rewrite Hq.
    assert (pre ++ (a, ev) :: (b, evb) :: post = (pre ++ [(a, ev)]) ++ (b, evb) :: post) as Ea by by rewrite <- app_assoc.
    rewrite Ea in *. rewrite next_middle by done. cbn [mbind option_bind].
    rewrite (IH fuel (S k) (pre ++ [(a, ev)]) b evb s2 Hq Hnd); [done|cbn in Hf; lia].
Qed.

Lemma call_ready_ext k stopped l f g s :
  (forall ev, ev ∈ l -> f ev = g ev) -> call_ready k stopped l f s = call_ready k stopped l g s.
Proof.
  revert k s. induction l as [|ev l IH]; intros k s H; [done|]. cbn [call_ready].
  rewrite (H ev) by by left. destruct (if g ev then _ else _) as [s1|]; [|done]. cbn [mbind option_bind].
  destruct (e_done _); [done|]. apply IH. intros ev' Hin. apply H. by right.
Qed.

Lemma turn_calls stopped r w x s :
  events_ok (ev_of s) ->
  dispatch_ready ev_of set_ev run stopped r w x s
  = call_ready 0 stopped (map snd (e_events (ev_of s))) (reported r w x) s.
Proof.
  intros [H1 H2 H3 H4 H5 H6]. unfold dispatch_ready, events_dispatch.
  destruct (e_events (ev_of s)) as [|[a ev] l] eqn:E; [done|]. cbn [map fst snd].
  rewrite (dispatch_suffix _ _ _ stopped l _ 0 [] a ev s); [|done|done|cbn; lia].
  apply call_ready_ext. intros ev' Hin.
  assert (exists y, y ∈ e_events (ev_of s) /\ y.2 = ev') as (y & Hy & <-).
  { rewrite E. apply elem_of_cons in Hin as [->|Hin]; [exists (a, ev); split; [by left|done]|].
    apply list_elem_of_fmap in Hin as (y & -> & Hy). exists y. split; [by right|done]. }
  assert (ev_fd y.2 <= e_maxfd (ev_of s)) as Hmax.
  { rewrite H6. apply foldr_max_ge. apply list_elem_of_fmap. by exists y. }
  assert (ev_fd y.2 ∈ set_of (ev_type y.2) (ev_of s)) as Hin2 by (apply H5; rewrite E in *; by exists y).
  unfold reported, is_ready. destruct (ev_type y.2); apply bool_decide_ext; unfold selected;
    cbn [set_of] in Hin2; rewrite elem_of_filter, elem_of_intersection; tauto.
Qed.

(** A turn of the loop: on a list as [registry_tracks] leaves it, what
    [select] returns makes the loop call the callbacks of exactly those
    descriptors that the kernel finds in the condition they are monitored for,
    each once and in the order of registration, up to the one after which
    [done] is seen, whichever thread has set it. *)
Theorem turn_calls_ready stopped r w x s :
  events_ok (ev_of s) ->
  dispatch_ready ev_of set_ev run stopped r w x s
  = call_ready 0 stopped (map snd (e_events (ev_of s))) (reported r w x) s.
Proof. apply turn_calls. Qed.

(** ** Stopping the loop *)

  (** Callbacks change nothing of the list but [done], and one that is
      undefined has a reason. *)
  Context (reason : Prop).
  Context (total : forall c s, is_Some (run c s) \/ run c s = None /\ reason).
  Context (only_done : forall c s s', run c s = Some s' -> ev_of s' = ev_of s \/ ev_of s' = events_stop (ev_of s)).

(** The list and its sets stay as they are. *)
Definition same_list (s s' : St) : Prop := set_done true (ev_of s') = set_done true (ev_of s).

Lemma same_list_refl s : same_list s s.
Proof. done. Qed.
Lemma same_list_trans s1 s2 s3 : same_list s1 s2 -> same_list s2 s3 -> same_list s1 s3.
Proof. unfold same_list. congruence. Qed.

Lemma run_same c s s' : run c s = Some s' -> same_list s s'.
Proof. intros H. unfold same_list. destruct (only_done _ _ _ H) as [-> | ->]; [done|]. by destruct (ev_of s). Qed.

Lemma look_same b s : same_list s (look ev_of set_ev b s).
Proof. unfold same_list. destruct b; cbn [look]; [|done]. rewrite ev_set. by destruct (ev_of s). Qed.

Lemma ok_done b (e : event_list C) : events_ok (set_done b e) <-> events_ok e.
Proof. split; intros [H1 H2 H3 H4 H5 H6]; split; unfold fds in *; cbn in *; try done; intros t fd; specialize (H5 t fd); by destruct t. Qed.

Lemma same_ok s s' : same_list s s' -> events_ok (ev_of s) -> events_ok (ev_of s').
Proof. intros H Hok. apply (ok_done true). rewrite H. by apply ok_done. Qed.

Lemma same_entries s s' : same_list s s' -> e_events (ev_of s') = e_events (ev_of s).
Proof. intros H. by apply (f_equal e_events) in H. Qed.

Lemma call_ready_total stopped l ready : forall k s,
  (exists s', call_ready k stopped l ready s = Some s' /\ same_list s s') \/ call_ready k stopped l ready s = None /\ reason.
Proof.
  induction l as [|ev l IH]; intros k s; cbn [call_ready]; [left; exists s; split; [done|apply same_list_refl]|].
  assert ((exists s1, (if ready ev then run (ev_callback ev) s else Some s) = Some s1 /\ same_list s s1) \/
    (if ready ev then run (ev_callback ev) s else Some s) = None /\ reason) as [(s1 & -> & H1)|[-> Hr]]; [| |by right].
  { destruct (ready ev); [|left; exists s; split; [done|apply same_list_refl]].
    destruct (total (ev_callback ev) s) as [[s1 H]|H]; [|by right]. left. exists s1. split; [done|by eapply run_same]. }
  cbn [mbind option_bind]. pose proof (look_same (stopped k) s1) as H2. set (s2 := look _ _ _ s1) in *.
  assert (same_list s s2) as H3 by by eapply same_list_trans.
  destruct (e_done (ev_of s2)); [left; by exists s2|].
  destruct (IH (S k) s2) as [(s3 & -> & H4)|[-> Hr]]; [|by right].
  left. exists s3. split; [done|by eapply same_list_trans].
Qed.

(** Once another thread has stopped the loop at the beginning of its [m]th
    turn, it has ended, whatever the kernel answered before, unless a callback
    was undefined. *)
Lemma loop_stops stopped sels m : stopped m 0%nat = true -> forall n s,
  events_ok (ev_of s) -> (n <= m)%nat -> (m - n <= length sels)%nat ->
  (exists b s', events_loop ev_of set_ev run n stopped sels s = Some (b, s') /\ same_list s s') \/
  events_loop ev_of set_ev run n stopped sels s = None /\ reason.
Proof.
  intros Hm. induction sels as [|sel sels IH]; intros n s Hok Hn Hl; cbn [events_loop];
    pose proof (look_same (stopped n 0%nat) s) as Hs; set (s1 := look _ _ _ s) in *;
    (destruct (e_done (ev_of s1)) eqn:Ed; [left; by eexists _, s1|]);
    (assert (n <> m) as Hnm by (intros ->; subst s1; rewrite Hm in Ed; cbn [look] in Ed; rewrite ev_set in Ed; done));
    cbn [length] in Hl; [lia|].
  assert (events_ok (ev_of s1)) as Hok1 by by eapply same_ok.
  assert (forall b, exists b' s', Some (b s1 : bool, look ev_of set_ev (stopped n 1%nat) s1) = Some (b', s') /\ same_list s s') as Hend.
  { intros b. eexists _, _. split; [reflexivity|]. eapply same_list_trans; [exact Hs|apply look_same]. }
  destruct sel as [errno| |r w x].
  - destruct (errno =? EINTR); [|left; apply (Hend (fun _ => _))].
    destruct (IH (S n) s1 Hok1) as [(b & s' & -> & H)|H]; [lia..| |by right].
    left. exists b, s'. split; [done|by eapply same_list_trans].
  - left. apply (Hend (fun _ => _)).
  - rewrite turn_calls by done.
    destruct (call_ready_total (fun k => stopped n (S k)) (map snd (e_events (ev_of s1))) (reported r w x) 0 s1)
      as [(s2 & -> & H2)|[-> Hr]]; cbn [mbind option_bind]; [|by right].
    destruct (IH (S n) s2) as [(b & s' & -> & H)|H]; [by eapply same_ok|lia..| |by right].
    left. exists b, s'. split; [done|]. eapply same_list_trans; [exact Hs|]. by eapply same_list_trans.
Qed.

End Turn.

(** ** Examples *)

(** The state is the list and the callbacks called; a callback is a number,
    and 9 stops the loop. *)
Definition demo_run (c : Z) (s : event_list Z * list Z) : option (event_list Z * list Z) :=
  Some (if c =? 9 then events_stop s.1 else s.1, s.2 ++ [c]).
Definition demo_set (e : event_list Z) (s : event_list Z * list Z) : event_list Z * list Z := (e, s.2).

Definition demo_ops : list (reg_op (C:=Z)) :=
  [OMonitor 5 HW_ISP_EVENT_EXCEPTION 1; OMonitor 7 HW_ISP_EVENT_READ 2; OUnmonitor 5;
   OMonitor 6 HW_ISP_EVENT_EXCEPTION 9; OMonitor 5 HW_ISP_EVENT_READ 3].
Definition no_events : event_list Z := mkEvents [] 100 true 0 0 ∅ ∅ ∅.

Lemma registry_tracks_witness : exists e,
  reg_runs demo_ops (events_init no_events) = Some e /\ events_ok e /\ e_maxfd e = 7 /\
  map ev_fd (map snd (e_events e)) = [7; 6; 5].
Proof.
  destruct (registry_tracks demo_ops no_events) as (e & E & Hok & El).
  { vm_compute. split_and!; try done; set_solver. }
  exists e. split_and!; [done|done| |by rewrite El].
  vm_compute in E. by injection E as <-.
Defined.

Lemma turn_calls_ready_witness : exists e,
  reg_runs demo_ops (events_init no_events) = Some e /\
  snd <$> dispatch_ready fst demo_set demo_run (fun _ => false) {[5; 7]} ∅ {[5; 6]} (e, []) = Some [2; 9].
Proof.
  destruct (registry_tracks demo_ops no_events) as (e & E & Hok & El).
  { vm_compute. split_and!; try done; set_solver. }
  exists e. split; [done|].
  rewrite (turn_calls_ready fst demo_set demo_run).
  - vm_compute in E. injection E as <-. by vm_compute.
  - done.
  - intros c s s' [= <-]. cbn. by destruct (c =? 9).
  - exact Hok.
Defined.

(** A descriptor that is monitored for two conditions: taking it out takes
    only the last registration out, and [maxfd] forgets the other, so that
    [select] never looks at it again. *)
Lemma second_condition_lost : exists e,
  reg_runs [OMonitor 5 HW_ISP_EVENT_READ 1; OMonitor 5 HW_ISP_EVENT_EXCEPTION 2; OUnmonitor 5] (events_init no_events) = Some e /\
  map snd (e_events e) = [mkEvent 5 HW_ISP_EVENT_READ 1] /\ e_maxfd e = 0 /\
  dispatch_ready fst demo_set demo_run (fun _ => false) {[5]} {[5]} {[5]} (e, []) = Some (e, []).
Proof. eexists. split; [vm_compute; reflexivity|]. by vm_compute. Qed.

(** A callback that forgets the descriptor that comes next in the list: the
    loop goes on at the block that was freed. *)
Definition forget_run (c : Z) (s : event_list Z * list Z) : option (event_list Z * list Z) :=
  e ← events_unmonitor_fd c s.1; Some (e, s.2).

Lemma forgetting_the_next_breaks : exists e,
  reg_runs [OMonitor 5 HW_ISP_EVENT_READ 6; OMonitor 6 HW_ISP_EVENT_READ 7] (events_init no_events) = Some e /\
  dispatch_ready fst demo_set forget_run (fun _ => false) {[5]} ∅ ∅ (e, []) = None.
Proof. eexists. split; [vm_compute; reflexivity|]. by vm_compute. Qed.

End IspEvents.
