(* ===== verification/IspMedia.v ===== *)
(** * The media graph of the ISP library (camera/3_4/allwinnertech/libAWIspApi/
      libisp_new/isp_dev/media.c)

    The camera driver describes its devices as entities with pads, and links
    between pads.  [media_open] reads the graph into memory; the other functions
    look for an entity, or follow the enabled links from a device upwards to
    the sensor or the ISP.

    A pointer to a pad is the number of its entity and its place in the array
    [pads] of that entity; the field [entity] of a pad is always its own entity.
    The kernel's indexes are not checked, so that the pointer of a link may lie
    outside of the array: it is stored as it is, and reading through it is
    undefined.
    The pointer [reverse] of a link, which is only kept valid and never
    followed, is left out.  Memory is granted.  [None] is undefined behaviour or
    a loop that never ends. *)

From stdpp Require Import base tactics option list list_numbers numbers relations finite.
From Stdlib Require Import ZArith Lia.
From Stdlib Require Ascii String.
From S2P Require Import Prelude CString.

Import String.StringSyntax.

Local Open Scope Z_scope.

Module IspMedia.

Import CString.

(** ** Data *)

(** Of the kernel's header. *)
Definition MEDIA_LNK_FL_ENABLED : Z := 1.
Definition MEDIA_LNK_FL_IMMUTABLE : Z := 2.
Definition MEDIA_PAD_FL_SOURCE : Z := 2.
Definition MEDIA_ENT_T_DEVNODE : Z := 0x10000.
Definition MEDIA_ENT_T_V4L2_SUBDEV : Z := 0x20000.
Definition MEDIA_ENT_T_V4L2_SUBDEV_SENSOR : Z := 0x20001.
Definition MEDIA_ENT_TYPE_MASK : Z := 0xff0000.
Definition EINVAL : Z := 22.

(** [struct media_entity_desc] *)
Record entity_desc := mkDesc {
  i_id : Z; i_name : list Z; i_type : Z; i_pads : nat; i_links : nat; i_major : Z; i_minor : Z
}.

Definition pad_ptr : Type := nat * nat.

Record media_entity_pad := mkPad { p_index : Z; p_flags : Z }.
Record media_entity_link := mkLink { l_source : pad_ptr; l_sink : pad_ptr; l_flags : Z }.

(** [num_links] is the length of [links]. *)
Record media_entity := mkEntity {
  m_info : entity_desc; m_pads : list media_entity_pad; m_links : list media_entity_link;
  m_max_links : nat; m_devname : list Z; m_fd : Z
}.

Record media_device := mkMedia { d_fd : Z; d_entities : list media_entity }.

Definition set_links (l : list media_entity_link) (n : nat) (e : media_entity) : media_entity :=
  mkEntity (m_info e) (m_pads e) l n (m_devname e) (m_fd e).
Definition set_pads (l : list media_entity_pad) (e : media_entity) : media_entity :=
  mkEntity (m_info e) l (m_links e) (m_max_links e) (m_devname e) (m_fd e).
Definition set_entities (l : list media_entity) (m : media_device) : media_device := mkMedia (d_fd m) l.

Definition flag (flags mask : Z) : bool := negb (Z.land flags mask =? 0).

(** ** Looking at the graph *)

Fixpoint source_loop (links : list media_entity_link) (pad : pad_ptr) : option pad_ptr :=
  match links with
  | [] => None
  | link :: links =>
      if negb (flag (l_flags link) MEDIA_LNK_FL_ENABLED) then source_loop links pad
      else if decide (l_source link = pad) then Some (l_sink link)
      else if decide (l_sink link = pad) then Some (l_source link)
      else source_loop links pad
  end.

(** [pad->entity]: the pad is read. *)
Definition pad_entity (m : media_device) (pad : pad_ptr) : option nat :=
  e ← d_entities m !! pad.1; _ ← m_pads e !! pad.2; Some pad.1.

(** The inner [None] is [NULL]. *)
Definition media_entity_remote_source (m : media_device) (pad : pad_ptr) : option (option pad_ptr) :=
  i ← pad_entity m pad; e ← d_entities m !! i; Some (source_loop (m_links e) pad).

Fixpoint find_entity (p : entity_desc -> bool) (l : list media_entity) (i : nat) : option nat :=
  match l with [] => None | e :: l => if p (m_info e) then Some i else find_entity p l (S i) end.

Definition media_get_entity_by_name (m : media_device) (name : list Z) : option nat :=
  find_entity (fun i => bool_decide (i_name i = name)) (d_entities m) 0.
Definition media_get_entity_by_id (m : media_device) (id : Z) : option nat :=
  find_entity (fun i => i_id i =? id) (d_entities m) 0.

(** [&me->pads[0]] and its flags *)
Definition first_pad (m : media_device) (me : nat) : option media_entity_pad :=
  e ← d_entities m !! me; m_pads e !! 0%nat.

Definition is_sensor (m : media_device) (me : nat) : bool :=
  match d_entities m !! me with
  | Some e => i_type (m_info e) =? MEDIA_ENT_T_V4L2_SUBDEV_SENSOR
  | None => false
  end.

Fixpoint head_loop (fuel : nat) (m : media_device) (me : nat) : option nat :=
  match fuel with
  | O => None
  | S fuel =>
      pad ← first_pad m me;
      if flag (p_flags pad) MEDIA_PAD_FL_SOURCE then Some me else
      r ← media_entity_remote_source m (me, 0%nat);
      match r with None => Some me | Some pad => me ← pad_entity m pad; head_loop fuel m me end
  end.

(** More steps than there are entities are a circle. *)
Definition media_pipeline_get_head (m : media_device) (me : nat) : option (option nat) :=
  me ← head_loop (S (length (d_entities m))) m me;
  Some (if is_sensor m me then Some me else None).

(** [sscanf] of ["%d"]: [None] when there is no number. *)
Definition scan_d (l : list Z) : option Z :=
  let l := drop_while isspace l in
  let neg := first l =? 45 in
  let l := if (first l =? 45) || (first l =? 43) then tail l else l in
  if (48 <=? first l) && (first l <=? 57) then
    let v := digits_from 10 0 l in Some (s32 (if neg then - v else v))
  else None.

(** The search for an entity whose name starts with a text of ten characters;
    only nine of them are compared. *)
Fixpoint id_loop (fuel : nat) (prefix : list Z) (m : media_device) (me : nat) : option Z :=
  match fuel with
  | O => None
  | S fuel =>
      pad ← first_pad m me;
      if flag (p_flags pad) MEDIA_PAD_FL_SOURCE then Some (-1) else
      r ← media_entity_remote_source m (me, 0%nat);
      match r with
      | None => Some (-1)
      | Some pad =>
          me ← pad_entity m pad;
          e ← d_entities m !! me;
          let name := i_name (m_info e) in
          if starts (take 9 prefix) name then
            Some (if starts prefix name then default (-1) (scan_d (drop 10 name)) else -1)
          else id_loop fuel prefix m me
      end
  end.

Definition media_video_to_isp_id (m : media_device) (me : nat) : option Z :=
  id_loop (S (length (d_entities m))) (bytes "sunxi_isp.") m me.
Definition media_video_to_csi_id (m : media_device) (me : nat) : option Z :=
  id_loop (S (length (d_entities m))) (bytes "sunxi_csi.") m me.

(** ** Changing links *)

Definition pad_index (m : media_device) (p : pad_ptr) : option Z :=
  e ← d_entities m !! p.1; pad ← m_pads e !! p.2; Some (p_index pad).

Definition link_matches (m : media_device) (source sink : pad_ptr) (link : media_entity_link) : option bool :=
  s ← pad_entity m (l_source link); s' ← pad_entity m source;
  if negb (bool_decide (s = s')) then Some false else
  i ← pad_index m (l_source link); j ← pad_index m source;
  if negb (i =? j) then Some false else
  s ← pad_entity m (l_sink link); s' ← pad_entity m sink;
  if negb (bool_decide (s = s')) then Some false else
  i ← pad_index m (l_sink link); j ← pad_index m sink;
  Some (i =? j).

Fixpoint find_link (m : media_device) (source sink : pad_ptr) (links : list media_entity_link) (i : nat)
  : option (option nat) :=
  match links with
  | [] => Some None
  | link :: links =>
      b ← link_matches m source sink link;
      if b : bool then Some (Some i) else find_link m source sink links (S i)
  end.

Definition set_link_flags (flags : Z) (l : media_entity_link) : media_entity_link :=
  mkLink (l_source l) (l_sink l) flags.

(** [res] is what the kernel returns. *)
Definition media_setup_link (m : media_device) (source sink : pad_ptr) (flags res : Z) : option (Z * media_device) :=
  s ← pad_entity m source; e ← d_entities m !! s;
  i ← find_link m source sink (m_links e) 0;
  match i with
  | None => Some (- EINVAL, m)
  | Some i =>
      if res <? 0 then Some (res, m)
      else Some (0, set_entities (alter (fun e => set_links (alter (set_link_flags flags) i (m_links e)) (m_max_links e) e)
        s (d_entities m)) m)
  end.

(** The loops of [media_reset_links] over the entities [i], with the links
    from [j] on; [res] gives the kernel's answer for each call. *)
Fixpoint reset_loop (fuel : nat) (m : media_device) (i j : nat) (res : nat -> nat -> Z) : option (Z * media_device) :=
  match fuel with
  | O => None
  | S fuel =>
      match d_entities m !! i with
      | None => Some (0, m)
      | Some e =>
          match m_links e !! j with
          | None => reset_loop fuel m (S i) 0 res
          | Some link =>
              if flag (l_flags link) MEDIA_LNK_FL_IMMUTABLE then reset_loop fuel m i (S j) res else
              s ← pad_entity m (l_source link);
              if negb (bool_decide (s = i)) then reset_loop fuel m i (S j) res
              else
                '(ret, m) ← media_setup_link m (l_source link) (l_sink link) (Z.land (l_flags link) (Z.lnot MEDIA_LNK_FL_ENABLED)) (res i j);
                if ret <? 0 then Some (ret, m) else reset_loop fuel m i (S j) res
          end
      end
  end.

Definition links_count (m : media_device) : nat := sum_list ((fun e => S (length (m_links e))) <$> d_entities m).

Definition media_reset_links (m : media_device) (res : nat -> nat -> Z) : option (Z * media_device) :=
  reset_loop (S (links_count m)) m 0 0 res.

(** ** Reading the graph *)

(** [struct media_link_desc] and [struct media_pad_desc] *)
Record link_desc := mkLinkDesc { k_source : Z * nat; k_sink : Z * nat; k_flags : Z }.
Definition pad_desc : Type := Z * Z.

(** The array is enlarged when it is full; an array of no elements stays so. *)
Definition media_entity_add_link (link : media_entity_link) (e : media_entity) : option media_entity :=
  if (m_max_links e <=? length (m_links e))%nat then
    if (m_max_links e * 2 <=? length (m_links e))%nat then None
    else Some (set_links (m_links e ++ [link]) (m_max_links e * 2) e)
  else Some (set_links (m_links e ++ [link]) (m_max_links e) e).

Definition add_at (i : nat) (link : media_entity_link) (m : media_device) : option media_device :=
  e ← d_entities m !! i; e ← media_entity_add_link link e;
  Some (set_entities (<[i := e]> (d_entities m)) m).

(** One link: it is entered at both ends.  An entity that is not there is only
    warned about; and for a link to itself the array may move between the two. *)
Definition enum_link (d : link_desc) (m : media_device) : option media_device :=
  source ← media_get_entity_by_id m (k_source d).1;
  sink ← media_get_entity_by_id m (k_sink d).1;
  let link := mkLink (source, (k_source d).2) (sink, (k_sink d).2) (k_flags d) in
  m ← add_at source link m;
  e ← d_entities m !! sink;
  if bool_decide (source = sink) && (m_max_links e <=? length (m_links e))%nat then None
  else add_at sink link m.

Fixpoint enum_links_of (l : list link_desc) (m : media_device) : option media_device :=
  match l with [] => Some m | d :: l => m ← enum_link d m; enum_links_of l m end.

(** What the kernel answers for an entity: [errno], or arrays, which the call
    fills up to the sizes of the entity. *)
Inductive links_answer := LinksErr (errno : Z) | LinksOk (pads : list pad_desc) (links : list link_desc).

Definition pads_of (n : nat) (pads : list pad_desc) : list media_entity_pad :=
  map (fun p : pad_desc => mkPad p.1 p.2) (take n (pads ++ replicate n (0, 0))).
Definition links_of (n : nat) (links : list link_desc) : list link_desc :=
  take n (links ++ replicate n (mkLinkDesc (0, 0%nat) (0, 0%nat) 0)).

(** The loop over the entities from [i] on. *)
Fixpoint enum_entity_links (n i : nat) (answers : list links_answer) (m : media_device) : option (Z * media_device) :=
  match n, answers with
  | O, _ => Some (0, m)
  | S n, LinksErr errno :: _ => Some (- errno, m)
  | S n, LinksOk pads links :: answers =>
      e ← d_entities m !! i;
      let m := set_entities (<[i := set_pads (pads_of (i_pads (m_info e)) pads) e]> (d_entities m)) m in
      m ← enum_links_of (links_of (i_links (m_info e)) links) m;
      enum_entity_links n (S i) answers m
  | S _, [] => None
  end.

Definition media_enum_links (answers : list links_answer) (m : media_device) : option (Z * media_device) :=
  enum_entity_links (length (d_entities m)) 0 answers m.

(** An entity as the kernel lists it, what [readlink] stores of the name of
    its device, and the numbers [stat] finds there. *)
Inductive entity_answer :=
| EntityErr (errno : Z)
| EntityOk (desc : entity_desc) (target : option (list Z)) (node : option (Z * Z)).

(** [strrchr(s, '/') + 1] *)
Fixpoint after_slash (s : list Z) : option (list Z) :=
  match s with
  | [] => None
  | c :: s => match after_slash s with Some t => Some t | None => if c =? SLASH then Some s else None end
  end.

(** The device name: the text goes into 1024 characters, its end into 32. *)
Definition devname_of (d : entity_desc) (target : option (list Z)) (node : option (Z * Z)) : option (list Z) :=
  let type := Z.land (i_type d) MEDIA_ENT_TYPE_MASK in
  if negb (type =? MEDIA_ENT_T_DEVNODE) && negb (type =? MEDIA_ENT_T_V4L2_SUBDEV) then Some [] else
  match target with
  | None => Some []
  | Some t =>
      if (1024 <=? length t)%nat then None else
      match after_slash (cstr t) with
      | None => Some []
      | Some p =>
          let devname := bytes "/dev/" ++ p in
          if (32 <=? length devname)%nat then None else
          match node with
          | Some (major, minor) => Some (if (major =? i_major d) && (minor =? i_minor d) then devname else [])
          | None => Some []
          end
      end
  end.

(** The list of answers ends with the error that ends the loop. *)
Fixpoint media_enum_entities (answers : list entity_answer) (m : media_device) : option (Z * media_device) :=
  match answers with
  | [] => Some (0, m)
  | EntityErr errno :: _ => Some (if errno =? EINVAL then 0 else - errno, m)
  | EntityOk d target node :: answers =>
      devname ← devname_of d target node;
      media_enum_entities answers
        (set_entities (d_entities m ++ [mkEntity d [] [] (i_pads d + i_links d) devname (-1)]) m)
  end.

(** What the kernel answers when the device is opened. *)
Record media_answers := mkAnswers {
  a_open : Z; a_info : Z; a_entities : list entity_answer; a_links : list links_answer
}.

(** The inner [None] is [NULL]; the device is then closed again. *)
Definition media_open (a : media_answers) : option (option media_device) :=
  if a_open a <? 0 then Some None
  else if a_info a <? 0 then Some None
  else
    '(ret, m) ← media_enum_entities (a_entities a) (mkMedia (a_open a) []);
    if ret <? 0 then Some None else
    '(ret, m) ← media_enum_links (a_links a) m;
    if ret <? 0 then Some None else Some (Some m).

(** ** The links of the graph *)

Definition links_at (m : media_device) (i : nat) : list media_entity_link :=
  match d_entities m !! i with Some e => m_links e | None => [] end.

(** Every link is entered at the two entities it joins, and nowhere else. *)
Definition links_paired (m : media_device) : Prop := forall i link, link ∈ links_at m i ->
  link ∈ links_at m (l_source link).1 /\ link ∈ links_at m (l_sink link).1 /\
  (i = (l_source link).1 \/ i = (l_sink link).1).

Lemma add_link_links link e e' :
  media_entity_add_link link e = Some e' -> m_links e' = m_links e ++ [link].
Proof. unfold media_entity_add_link. repeat case_match; intros [= <-]; done. Qed.

Lemma add_at_links i link m m' j : add_at i link m = Some m' ->
  links_at m' j = links_at m j ++ (if decide (i = j) then [link] else []).
Proof.
  unfold add_at, links_at. destruct (d_entities m !! i) as [e|] eqn:E; [|done]. cbn [mbind option_bind].
  destruct (media_entity_add_link link e) as [e'|] eqn:E2; [|done]. intros [= <-]. cbn [d_entities set_entities].
  apply add_link_links in E2. case_decide as Hd.
  - subst j. rewrite list_lookup_insert_eq by (by apply lookup_lt_Some in E). by rewrite E.
  - rewrite list_lookup_insert_ne by done. by rewrite app_nil_r.
Qed.

Lemma enum_link_paired d m m' : links_paired m -> enum_link d m = Some m' -> links_paired m'.
Proof.
  intros Hm. unfold enum_link. destruct (media_get_entity_by_id m (k_source d).1) as [s|]; [|done].
  destruct (media_get_entity_by_id m (k_sink d).1) as [t|]; [|done]. cbn [mbind option_bind].
  set (link := mkLink _ _ _). destruct (add_at s link m) as [m1|] eqn:E1; [|done]. cbn [mbind option_bind].
  destruct (d_entities m1 !! t) as [e|]; [|done]. cbn [mbind option_bind]. destruct (_ && _); [done|]. intros E2.
  assert (forall j, links_at m' j = links_at m j ++ (if decide (s = j) then [link] else []) ++
    (if decide (t = j) then [link] else [])) as Hl.
  { intros j. rewrite (add_at_links _ _ _ _ j E2), (add_at_links _ _ _ _ j E1). by rewrite app_assoc. }
  intros i l. rewrite !Hl, !elem_of_app. intros [Hin|Hnew].
  - destruct (Hm _ _ Hin) as (H1 & H2 & H3). split_and!; [by left|by left|done].
  - assert (l = link /\ (i = s \/ i = t)) as [-> Hi].
    { destruct Hnew as [H|H]; case_decide; try (by apply elem_of_nil in H);
        apply list_elem_of_singleton in H as ->; auto. }
    cbn [l_source l_sink link fst]. rewrite (decide_True _ _ (eq_refl s)), (decide_True _ _ (eq_refl t)).
    split_and!; [|by right; right; apply list_elem_of_singleton|done].
    by right; left; apply list_elem_of_singleton.
Qed.

Lemma enum_links_of_paired l m m' : links_paired m -> enum_links_of l m = Some m' -> links_paired m'.
Proof.
  revert m. induction l as [|d l IH]; intros m Hm; cbn [enum_links_of]; [by intros [= <-]|].
  destruct (enum_link d m) as [m1|] eqn:E; [|done]. cbn [mbind option_bind]. apply IH. by eapply enum_link_paired.
Qed.

Lemma set_pads_links m i e l j : d_entities m !! i = Some e ->
  links_at (set_entities (<[i := set_pads l e]> (d_entities m)) m) j = links_at m j.
Proof.
  intros E. unfold links_at. cbn [d_entities set_entities]. destruct (decide (i = j)) as [->|Hn].
  - rewrite list_lookup_insert_eq by (by apply lookup_lt_Some in E). by rewrite E.
  - by rewrite list_lookup_insert_ne.
Qed.

Lemma enum_entity_links_paired n : forall i answers m ret m',
  links_paired m -> enum_entity_links n i answers m = Some (ret, m') -> links_paired m'.
Proof.
  induction n as [|n IH]; intros i answers m ret m' Hm; cbn [enum_entity_links]; [by intros [= <- <-]|].
  destruct answers as [|[errno|pads links] answers]; [done|by intros [= <- <-]|].
  destruct (d_entities m !! i) as [e|] eqn:E; [|done]. cbn [mbind option_bind].
  destruct (enum_links_of _ _) as [m1|] eqn:E1; [|done]. cbn [mbind option_bind]. apply IH.
  eapply enum_links_of_paired, E1. intros j link. rewrite !set_pads_links by done. apply Hm.
Qed.

Lemma enum_entities_no_links answers : forall m ret m',
  (forall i, links_at m i = []) -> media_enum_entities answers m = Some (ret, m') -> forall i, links_at m' i = [].
Proof.
  induction answers as [|[errno|d target node] answers IH]; intros m ret m' Hm; cbn [media_enum_entities];
    [by intros [= <- <-]|by intros [= <- <-]|].
  destruct (devname_of d target node) as [dev|]; [|done]. cbn [mbind option_bind]. apply IH.
  intros i. specialize (Hm i). unfold links_at in *. cbn [d_entities set_entities].
  destruct (decide (i < length (d_entities m))%nat) as [Hi|Hi].
  - by rewrite lookup_app_l.
  - rewrite lookup_app_r by lia. by destruct (i - length (d_entities m))%nat as [|[|]].
Qed.

Lemma no_entities fd i : links_at (mkMedia fd []) i = [].
Proof. done. Qed.

Lemma media_open_paired a m : media_open a = Some (Some m) -> links_paired m.
Proof.
  unfold media_open. repeat (case_match; [done|]).
  destruct (media_enum_entities _ _) as [[r1 m1]|] eqn:E1; [|done]. cbn [mbind option_bind]. case_match; [done|].
  destruct (media_enum_links _ _) as [[r2 m2]|] eqn:E2; [|done]. cbn [mbind option_bind]. case_match; [done|].
  intros [= <-]. eapply enum_entity_links_paired, E2. intros i link Hin.
  rewrite (enum_entities_no_links _ _ _ _ (no_entities _) E1 i) in Hin. by apply elem_of_nil in Hin.
Qed.

(** ** Descriptors of the graph *)

(** The device is open, and none of its entities. *)
Definition only_device_open (fd : Z) (m : media_device) : Prop := d_fd m = fd /\ Forall (fun e => m_fd e = -1) (d_entities m).

Lemma only_open_insert fd m i e e' : d_entities m !! i = Some e -> m_fd e' = m_fd e ->
  only_device_open fd m -> only_device_open fd (set_entities (<[i := e']> (d_entities m)) m).
Proof.
  intros Hi He [H1 H2]. split; [done|]. cbn. apply Forall_insert; [done|].
  rewrite He. by eapply (Forall_lookup_1 (fun e => m_fd e = -1)).
Qed.

Lemma add_at_open fd i link m m' : only_device_open fd m -> add_at i link m = Some m' -> only_device_open fd m'.
Proof.
  intros Hm. unfold add_at. destruct (d_entities m !! i) as [e|] eqn:E; [|done]. cbn [mbind option_bind].
  destruct (media_entity_add_link link e) as [e'|] eqn:E2; [|done]. intros [= <-].
  eapply only_open_insert; [done| |done]. revert E2. unfold media_entity_add_link. repeat case_match; intros [= <-]; done.
Qed.

Lemma enum_links_of_open fd l : forall m m', only_device_open fd m -> enum_links_of l m = Some m' -> only_device_open fd m'.
Proof.
  induction l as [|d l IH]; intros m m' Hm; cbn [enum_links_of]; [by intros [= <-]|].
  destruct (enum_link d m) as [m1|] eqn:E; [|done]. cbn [mbind option_bind]. apply IH. revert E. unfold enum_link.
  destruct (media_get_entity_by_id m (k_source d).1) as [s|]; [|done].
  destruct (media_get_entity_by_id m (k_sink d).1) as [t|]; [|done]. cbn [mbind option_bind].
  destruct (add_at s _ m) as [m2|] eqn:E1; [|done]. cbn [mbind option_bind].
  destruct (d_entities m2 !! t) as [e|]; [|done]. cbn [mbind option_bind]. destruct (_ && _); [done|].
  intros E2. eapply add_at_open; [|exact E2]. by eapply add_at_open.
Qed.

Lemma enum_entity_links_open fd n : forall i answers m ret m',
  only_device_open fd m -> enum_entity_links n i answers m = Some (ret, m') -> only_device_open fd m'.
Proof.
  induction n as [|n IH]; intros i answers m ret m' Hm; cbn [enum_entity_links]; [by intros [= <- <-]|].
  destruct answers as [|[errno|pads links] answers]; [done|by intros [= <- <-]|].
  destruct (d_entities m !! i) as [e|] eqn:E; [|done]. cbn [mbind option_bind].
  destruct (enum_links_of _ _) as [m1|] eqn:E1; [|done]. cbn [mbind option_bind]. apply IH.
  eapply enum_links_of_open, E1. by eapply only_open_insert.
Qed.

Lemma enum_entities_open fd answers : forall m ret m',
  only_device_open fd m -> media_enum_entities answers m = Some (ret, m') -> only_device_open fd m'.
Proof.
  induction answers as [|[errno|d target node] answers IH]; intros m ret m' [H1 H2]; cbn [media_enum_entities];
    [by intros [= <- <-]|by intros [= <- <-]|].
  destruct (devname_of d target node) as [dev|]; [|done]. cbn [mbind option_bind]. apply IH.
  split; [done|]. cbn. apply Forall_app. split; [done|]. by constructor.
Qed.

Lemma media_open_fd a m : media_open a = Some (Some m) -> 0 <= a_open a /\ only_device_open (a_open a) m.
Proof.
  unfold media_open. destruct (Z.ltb_spec (a_open a) 0); [done|]. case_match; [done|].
  destruct (media_enum_entities _ _) as [[r1 m1]|] eqn:E1; [|done]. cbn [mbind option_bind]. case_match; [done|].
  destruct (media_enum_links _ _) as [[r2 m2]|] eqn:E2; [|done]. cbn [mbind option_bind]. case_match; [done|].
  intros [= <-]. split; [done|]. eapply enum_entity_links_open, E2. eapply enum_entities_open, E1. by split.
Qed.

(** ** Following the links *)

(** The pad one enabled link further up, where the loop goes on. *)
Definition next_pad (m : media_device) (a : nat) (src : pad_ptr) : Prop := exists pad,
  first_pad m a = Some pad /\ flag (p_flags pad) MEDIA_PAD_FL_SOURCE = false /\
  media_entity_remote_source m (a, 0%nat) = Some (Some src).

(** The device one enabled link further up. *)
Definition up (m : media_device) (a b : nat) : Prop := exists src, next_pad m a src /\ pad_entity m src = Some b.

(** The links end here: a source, or no enabled link at the first pad. *)
Definition top (m : media_device) (h : nat) : Prop := exists pad,
  first_pad m h = Some pad /\
  (flag (p_flags pad) MEDIA_PAD_FL_SOURCE = true \/ media_entity_remote_source m (h, 0%nat) = Some None).

(** A pad is read that is not there: the first of an entity without pads, or
    the far end of a link with an index beyond the pads. *)
Definition off_pads (m : media_device) (h : nat) : Prop :=
  first_pad m h = None \/ exists src, next_pad m h src /\ pad_entity m src = None.

Lemma pad_entity_lt m src b : pad_entity m src = Some b -> (b < length (d_entities m))%nat.
Proof.
  unfold pad_entity. destruct (d_entities m !! src.1) as [e|] eqn:E; [|done]. cbn [mbind option_bind].
  destruct (m_pads e !! src.2); [|done]. intros [= <-]. by apply lookup_lt_Some in E.
Qed.

Lemma up_valid m a b : up m a b -> (b < length (d_entities m))%nat.
Proof. intros (src & _ & H). by eapply pad_entity_lt. Qed.

Lemma first_pad_source m me pad : first_pad m me = Some pad -> is_Some (media_entity_remote_source m (me, 0%nat)).
Proof.
  unfold first_pad, media_entity_remote_source, pad_entity. cbn [fst snd].
  destruct (d_entities m !! me) as [e|] eqn:E; [|done]. cbn [mbind option_bind]. intros ->.
  cbn [mbind option_bind]. rewrite E. by eexists.
Qed.

(** The loop gives the top of the chain, or reads a pad that is not there, or
    has followed a link in each step. *)
Lemma head_loop_follows m : forall fuel me,
  (exists h, rtc (up m) me h /\ top m h /\ head_loop fuel m me = Some h) \/
  (head_loop fuel m me = None /\
    ((exists y, rtc (up m) me y /\ off_pads m y) \/ exists x, nsteps (up m) fuel me x)).
Proof.
  induction fuel as [|fuel IH]; intros me; [right; split; [done|]; right; exists me; constructor|].
  cbn [head_loop]. destruct (first_pad m me) as [pad|] eqn:Hpad; cbn [mbind option_bind].
  2: { right. split; [done|]. left. exists me. split; [done|by left]. }
  destruct (flag _ _) eqn:Ef; [left; exists me; split_and!; [done|exists pad; by auto|done]|].
  destruct (first_pad_source m me pad Hpad) as [r Er]. rewrite Er. cbn [mbind option_bind].
  destruct r as [src|]; [|left; exists me; split_and!; [done|exists pad; by auto|done]].
  assert (next_pad m me src) as Hn by (by exists pad).
  destruct (pad_entity m src) as [b|] eqn:Eb; cbn [mbind option_bind].
  2: { right. split; [done|]. left. exists me. split; [done|right; by exists src]. }
  assert (up m me b) as Hup by (by exists src).
  destruct (IH b) as [(h & ? & ? & ?)|[? [(y & ? & ?)|[x ?]]]].
  - left. exists h. split_and!; [by eapply rtc_l|done|done].
  - right. split; [done|]. left. exists y. split; [by eapply rtc_l|done].
  - right. split; [done|]. right. exists x. by eapply nsteps_l.
Qed.

(** A list of steps longer than a set it stays in goes in a circle. *)
Lemma steps_tc {A} (R : A -> A -> Prop) (l : list A) : (forall i a b, l !! i = Some a -> l !! S i = Some b -> R a b) ->
  forall j i a b, (i < j)%nat -> l !! i = Some a -> l !! j = Some b -> tc R a b.
Proof.
  intros Hl. induction j as [|j IH]; intros i a b Hij Ha Hb; [lia|].
  destruct (decide (i = j)) as [->|Hn]; [apply tc_once; eauto|].
  assert (is_Some (l !! j)) as [c Hc].
  { apply lookup_lt_is_Some. apply lookup_lt_Some in Hb. lia. }
  eapply tc_r; [eapply (IH i a c); [lia|done|done]|eauto].
Qed.

Lemma long_walk_circle m n me x : (me < length (d_entities m))%nat ->
  (length (d_entities m) <= n)%nat -> nsteps (up m) n me x -> exists y, rtc (up m) me y /\ tc (up m) y y.
Proof.
  intros Hme Hn (l & Hlen & Hhead & _ & Hl)%nsteps_list.
  assert (l !! 0%nat = Some me) as H0 by (by destruct l).
  destruct (list_pigeonhole l (seq 0 (length (d_entities m)))) as (i & j & y & Hij & Hi & Hj).
  - intros y [i Hi]%list_elem_of_lookup. apply elem_of_seq. destruct i as [|i]; [assert (y = me) by congruence; subst; lia|].
    assert (is_Some (l !! i)) as [z Hz] by (apply lookup_lt_is_Some; apply lookup_lt_Some in Hi; lia).
    pose proof (up_valid _ _ _ (Hl _ _ _ Hz Hi)). lia.
  - rewrite length_seq. lia.
  - exists y. split; [|by eapply (steps_tc (up m) l Hl j i)].
    destruct i as [|i]; [by assert (y = me) as -> by congruence|].
    apply tc_rtc. eapply (steps_tc (up m) l Hl (S i) 0%nat); [lia|done|done].
Qed.

(** C25: for every graph that [media_open] reads, every link is entered at both
    entities it joins and nowhere else, and [media_pipeline_get_head] started at
    any entity follows the enabled links upwards to the entity where they end and
    returns it if it is a sensor and [NULL] if it is not.  There are two cases in
    which it has no answer: the links above the entity lead in a circle, and then
    it does not return; or they lead to an entity without a pad or along a link
    whose index is beyond the pads of its entity, which [media_open] does not
    check, and then a pad is read that is not there. *)
Theorem pipeline_head a m : media_open a = Some (Some m) ->
  links_paired m /\
  forall me, (me < length (d_entities m))%nat ->
  (exists h, rtc (up m) me h /\ top m h /\
     media_pipeline_get_head m me = Some (if is_sensor m h then Some h else None)) \/
  (((exists y, rtc (up m) me y /\ tc (up m) y y) \/ (exists y, rtc (up m) me y /\ off_pads m y)) /\
   media_pipeline_get_head m me = None).
Proof.
  intros Hm%media_open_paired. split; [done|]. intros me Hme. unfold media_pipeline_get_head.
  destruct (head_loop_follows m (S (length (d_entities m))) me) as [(h & Hr & Ht & ->)|[-> [Hy|[x Hx]]]].
  - left. by exists h.
  - right. split; [by right|done].
  - right. split; [|done]. left. eapply long_walk_circle, Hx; [done|lia].
Qed.

(** ** A camera: sensor, CSI and video node *)

Definition camera_answers (flags : Z) : media_answers :=
  let csi := [mkLinkDesc (1, 0%nat) (2, 0%nat) flags] in
  let video := [mkLinkDesc (2, 1%nat) (3, 0%nat) flags] in
  mkAnswers 5 0
    [EntityOk (mkDesc 1 (bytes "ov5640") 0x20001 1 1 81 1) None None;
     EntityOk (mkDesc 2 (bytes "sunxi_csi.7") 0x20000 2 1 81 2) None None;
     EntityOk (mkDesc 3 (bytes "vin_video0") 0x10001 1 0 81 3) (Some (bytes "../../video0")) (Some (81, 3));
     EntityErr EINVAL]
    [LinksOk [(0, 2)] csi; LinksOk [(0, 1); (1, 2)] video; LinksOk [(0, 1)] []].

Definition camera (flags : Z) : media_device :=
  match media_open (camera_answers flags) with Some (Some m) => m | _ => mkMedia 0 [] end.

Example camera_names : m_devname <$> d_entities (camera 1) = [[]; []; bytes "/dev/video0"].
Proof. by vm_compute. Qed.

Example camera_csi : media_video_to_csi_id (camera 1) 2 = Some 7.
Proof. by vm_compute. Qed.

Lemma camera_read : media_open (camera_answers 1) = Some (Some (camera 1)).
Proof. vm_compute. reflexivity. Qed.

Lemma pipeline_head_witness : media_open (camera_answers 1) = Some (Some (camera 1)) /\ links_paired (camera 1) /\
  media_pipeline_get_head (camera 1) 2 = Some (Some 0%nat) /\
  exists h, rtc (up (camera 1)) 2%nat h /\ top (camera 1) h /\
    media_pipeline_get_head (camera 1) 2 = Some (if is_sensor (camera 1) h then Some h else None).
Proof.
  destruct (pipeline_head (camera_answers 1) (camera 1) camera_read) as [Hl Hh].
  assert (media_pipeline_get_head (camera 1) 2 = Some (Some 0%nat)) as Hc by (vm_compute; reflexivity).
  split; [exact camera_read|]. split; [exact Hl|]. split; [exact Hc|].
  destruct (Hh 2%nat) as [H|[_ H]]; [vm_compute; lia|exact H|congruence].
Defined.

(** A link from a pad that the entity does not have: the graph is read, and
    the search for the sensor reads the pad. *)
Lemma index_beyond_pads : exists m,
  media_open (mkAnswers 5 0
    [EntityOk (mkDesc 1 (bytes "ov5640") 0x20001 1 1 81 1) None None;
     EntityOk (mkDesc 2 (bytes "sunxi_csi.7") 0x20000 1 0 81 2) None None; EntityErr EINVAL]
    [LinksOk [(0, 2)] [mkLinkDesc (1, 4%nat) (2, 0%nat) 1]; LinksOk [(0, 1)] []]) = Some (Some m) /\
  media_pipeline_get_head m 1 = None.
Proof. eexists. split; by vm_compute. Qed.

(** A link that is disabled is only disabled at its source: the entity at its
    sink, from which the functions above follow it, keeps it enabled. *)
Lemma disabled_link_followed :
  exists m, media_reset_links (camera 1) (fun _ _ => 0) = Some (0, m) /\
    media_pipeline_get_head m 2 = Some (Some 0%nat) /\
    media_pipeline_get_head (camera 0) 2 = Some None.
Proof. eexists. split_and!; by vm_compute. Qed.

(** A link to an entity that is not listed is warned about, and then followed. *)
Lemma unknown_sink_dereferenced d m :
  media_get_entity_by_id m (k_sink d).1 = None -> enum_link d m = None.
Proof. unfold enum_link. intros ->. by destruct (media_get_entity_by_id m (k_source d).1). Qed.

(** A name that is cut off after nine characters ends the search without an identifier. *)
Lemma nine_characters fuel m me pad p e :
  first_pad m me = Some pad -> flag (p_flags pad) MEDIA_PAD_FL_SOURCE = false ->
  media_entity_remote_source m (me, 0%nat) = Some (Some p) -> d_entities m !! p.1 = Some e -> is_Some (m_pads e !! p.2) ->
  i_name (m_info e) = bytes "sunxi_isp_scaler" -> id_loop (S fuel) (bytes "sunxi_isp.") m me = Some (-1).
Proof.
  intros H1 H2 H3 H4 [x Hx] H5. cbn [id_loop]. rewrite H1. cbn [mbind option_bind]. rewrite H2, H3.
  cbn [mbind option_bind]. unfold pad_entity. rewrite H4. cbn [mbind option_bind]. rewrite Hx. cbn [mbind option_bind].
  rewrite H4. cbn [mbind option_bind]. by rewrite H5.
Qed.

End IspMedia.
