(* ===== verification/HwInfo.v ===== *)
(** * The table of wireless chips (wireless/hwinfo/libhwinfo.c, first half)

    The library knows the chips of a built-in table and of a configuration file;
    an entry of the file replaces one of the table with the same device
    identifier.  The entries are a linked list of heap nodes: the model keeps the
    heap, so that the list surgery of [load_merged_config], its [free]s and the
    writes through the pointer to the current entry are what they are in C.
    [None] is undefined behaviour; [malloc] is taken to succeed.  Strings are
    values: the blocks that [strdup] makes for them, and their release with the
    entry, are not in the heap. *)

From stdpp Require Import base tactics option list list_numbers numbers gmap fin_maps.
From Stdlib Require Import ZArith Lia.
From Stdlib Require String.
From S2P Require Import Prelude CString.

Import String.StringSyntax.
Import CString.

Local Open Scope Z_scope.
Local Open Scope list_scope.
Local Open Scope c_scope.

Module HwInfo.

(** ** Data *)

(** A string is [None] when its pointer is NULL. *)
Record wifi_hardware_info := mkInfo {
  bus_type : Z;
  device_id : Z;
  module_name : option (list Z);
  driver_name : option (list Z);
  driver_module_name : option (list Z);
  vendor_name : option (list Z);
  bt_support : Z
}.

#[export] Instance info_eq_dec : EqDecision wifi_hardware_info.
Proof. solve_decision. Defined.

Definition zero_info : wifi_hardware_info := mkInfo 0 0 None None None None 0.

(** The fields by the names in [matchtab]; the fields of type TYPE_ULONG and
    TYPE_SINT take numbers, those of type TYPE_PCHAR copies of strings. *)
Inductive field :=
| F_bus_type | F_device_id | F_module_name | F_driver_name | F_driver_module_name | F_vendor_name | F_bt_support.

Definition matchtab : list (list Z * field) :=
  [(bytes "bus_type", F_bus_type); (bytes "device_id", F_device_id); (bytes "module_name", F_module_name);
   (bytes "driver_name", F_driver_name); (bytes "driver_module_name", F_driver_module_name);
   (bytes "vendor_name", F_vendor_name); (bytes "bt_support", F_bt_support)].

Definition set_field (f : field) (conf : list Z) (i : wifi_hardware_info) : wifi_hardware_info :=
  let 'mkInfo b d m n k v t := i in
  match f with
  | F_bus_type => mkInfo (strtoul 0 conf) d m n k v t
  | F_device_id => mkInfo b (strtoul 0 conf) m n k v t
  | F_module_name => mkInfo b d (Some conf) n k v t
  | F_driver_name => mkInfo b d m (Some conf) k v t
  | F_driver_module_name => mkInfo b d m n (Some conf) v t
  | F_vendor_name => mkInfo b d m n k (Some conf) t
  | F_bt_support => mkInfo b d m n k v (s32 (strtoul 0 conf))
  end.

Definition entry (bus id : Z) (m d k v : String.string) (bt : Z) : wifi_hardware_info :=
  mkInfo bus id (Some (bytes m)) (Some (bytes d)) (Some (bytes k)) (Some (bytes v)) bt.
Arguments entry bus id m%_string_scope d%_string_scope k%_string_scope v%_string_scope bt.

(** [vq0]: the build setting WIFI_USE_RTL8723BS_VQ0. *)
Definition wifi_list (vq0 : bool) : list wifi_hardware_info :=
  [entry 1 0x024c8179 "rtl8189es" "8189es" "8189es" "realtek" 0;
   if vq0 then entry 1 0x024cb723 "rtl8723bs_vq0" "8723bs-vq0" "8723bs_vq0" "realtek" 1
   else entry 1 0x024cb723 "rtl8723bs" "8723bs" "8723bs" "realtek" 1;
   entry 1 0x024cb703 "rtl8723cs" "8723cs" "8723cs" "realtek" 1;
   entry 1 0x024cd723 "rtl8723ds" "8723ds" "8723ds" "realtek" 1;
   entry 1 0x024cf179 "rtl8189fs" "8189fs" "8189fs" "realtek" 0;
   entry 1 0x024cb822 "rtl88x2bs" "88x2bs" "88x2bs" "realtek" 1;
   entry 0 0x0bdad723 "rtl8723du" "8723du" "8723du" "realtek" 1;
   entry 0 0x0bda8179 "rtl8188etv" "8188eu" "8188eu" "realtek" 0;
   entry 0 0x0bda0179 "rtl8188eu" "8188eu" "8188eu" "realtek" 0;
   entry 0 0x0bda818b "rtl8192eu" "8192eu" "8192eu" "realtek" 0;
   entry 0 0x0bdab720 "rtl8723bu" "8723bu" "8723bu" "realtek" 1;
   entry 0 0x0bdac82c "rtl8822cu" "88x2cu" "88x2cu" "realtek" 1;
   entry 0 0x0bdaf179 "rtl8188fu" "8188fu" "8188fu" "realtek" 0;
   entry 1 0x02d0a9a6 "ap6212" "bcmdhd" "bcmdhd" "broadcom" 1;
   entry 1 0x02d04330 "ap6330" "bcmdhd" "bcmdhd" "broadcom" 1;
   entry 1 0x02d04356 "ap6356s" "bcmdhd" "bcmdhd" "broadcom" 1;
   entry 1 0x02d0a9bf "ap6255" "bcmdhd" "bcmdhd" "broadcom" 1;
   entry 1 0x00202281 "xr819" "xr819" "xr819" "xradio" 0;
   entry 1 0x0a9e2282 "xr829" "xr829" "xr829" "xradio" 1;
   entry 1 0x0271050a "qca6174a" "qualcomm" "qualcomm" "atheros" 0;
   entry 1 0x30303030 "ssv6x5x" "ssv6x5x" "ssv6x5x" "ssv" 0;
   entry 1 0x00000000 "uwe5622" "sprdwl_ng" "sprdwl_ng" "sprd" 1;
   entry 1 0x54490145 "aic8800" "aic8800_fdrv" "aic8800_fdrv" "aic" 1;
   entry 1 0xc8a1c08d "aic8800" "aic8800_fdrv" "aic8800_fdrv" "aic" 1;
   entry 0 0xa69c8800 "aic8800" "aic8800_fdrv" "aic8800_fdrv" "aic" 1;
   entry 0 0x007a8888 "atbm6023is" "atbm602x_wifi_usb" "atbm602x_wifi_usb" "atbm" 0].

(** ** The lines of the configuration file *)

Definition CONFIG_SESSION_KEY : list Z := bytes "[module]".
(** [LINE_MAX], and the room in [conf]. *)
Definition LINE_MAX : nat := 1024.
Definition CONF_SIZE : Z := 256.

(** [true] is the return value 0. *)
Definition search_key (str key : list Z) : bool :=
  if (length str <? length key)%nat then false else
  let p := skip_spaces str in
  if first p =? HASH then false else
  if (length p <? length key)%nat then false else
  if negb (starts key p) then false else
  let p := skip_spaces (drop (length key) p) in
  match p with [] => true | c :: _ => (c =? CR) || (c =? NL) end.

(** The end of the value, as an index: [p] goes back over spaces, a quote and
    line ends.  ([p] never passes the start of [str]: it meets the '='.) *)
Definition value_end (str : list Z) : Z :=
  let r := drop_while (fun c => c =? SP) (rev str) in
  let r := match r with c :: t => if c =? QUOTE then t else r | [] => r end in
  let r := drop_while (fun c => (c =? CR) || (c =? NL)) r in
  Z.of_nat (length r).

(** [Some None] is the return value -1, [Some (Some val)] 0.  Undefined when
    the value has a negative length or does not fit [val]. *)
Definition search_key_val (str key : list Z) : option (option (list Z)) :=
  if (length str <=? length key)%nat then Some None else
  let p := skip_spaces str in
  if first p =? HASH then Some None else
  if (length p <=? length key)%nat then Some None else
  if negb (starts key p) then Some None else
  match skip_spaces (drop (length key) p) with
  | c :: p =>
      if negb (c =? EQUALS) then Some None else
      let p := skip_spaces p in
      let dst := match p with c :: t => if c =? QUOTE then t else p | [] => p end in
      let n := value_end str - (Z.of_nat (length str) - Z.of_nat (length dst)) in
      if (n <? 0) || (CONF_SIZE <=? n) then None else Some (Some (take (Z.to_nat n) dst))
  | [] => Some None
  end.

(** The loop over [matchtab]: the first key that matches. *)
Fixpoint match_line (tab : list (list Z * field)) (buf : list Z) : option (option (field * list Z)) :=
  match tab with
  | [] => Some None
  | (key, f) :: tab =>
      r ← search_key_val buf key;
      match r with Some conf => Some (Some (f, conf)) | None => match_line tab buf end
  end.

(** ** The heap *)

Record wl_hwinfo_list := mkNode { hwinfo : wifi_hardware_info; next : Z }.

(** [brk]: the address [malloc] returns next; 0 is NULL. *)
Record st := mkSt { heap : gmap Z wl_hwinfo_list; brk : Z }.

Definition NULL : Z := 0.

Definition deref (p : Z) : M st wl_hwinfo_list := fun s => n ← heap s !! p; Some (n, s).
Definition store (p : Z) (n : wl_hwinfo_list) : M st unit :=
  deref p ;;; modify (fun s => mkSt (<[p := n]> (heap s)) (brk s)).
Definition set_next (p q : Z) : M st unit := n <- deref p ;; store p (mkNode (hwinfo n) q).
Definition set_info (p : Z) (i : wifi_hardware_info) : M st unit := n <- deref p ;; store p (mkNode i (next n)).
Definition free (p : Z) : M st unit := deref p ;;; modify (fun s => mkSt (delete p (heap s)) (brk s)).
(** [malloc] and [memset] to 0. *)
Definition malloc_node : M st Z := fun s =>
  Some (brk s, mkSt (<[brk s := mkNode zero_info NULL]> (heap s)) (brk s + 1)).

(** [while (cur->next != NULL) cur = cur->next;] *)
Fixpoint last_loop (fuel : nat) (cur : Z) : M st Z :=
  match fuel with
  | O => stuck
  | S fuel => n <- deref cur ;; if next n =? NULL then ret cur else last_loop fuel (next n)
  end.

Definition last_of (p : Z) : M st Z := s <- get ;; last_loop (S (size (heap s))) p.

(** A new entry at the end: the head and the entry. *)
Definition append_node (head : Z) : M st (Z * Z) :=
  new <- malloc_node ;;
  if head =? NULL then ret (new, new) else
  cur <- last_of head ;;
  set_next cur new ;;;
  ret (head, new).

(** ** Loading *)

(** One turn of [while (fgets(buf, LINE_MAX, fp))] after the other. *)
Fixpoint file_loop (lines : list (list Z)) (head cur : Z) : M st Z :=
  match lines with
  | [] => ret head
  | buf :: lines =>
      let buf := cstr buf in
      if search_key buf CONFIG_SESSION_KEY then
        r <- append_node head ;;
        file_loop lines (fst r) (snd r)
      else
        match match_line matchtab buf with
        | None => stuck
        | Some None => file_loop lines head cur
        | Some (Some (f, conf)) =>
            n <- deref cur ;;
            set_info cur (set_field f conf (hwinfo n)) ;;;
            file_loop lines head cur
        end
  end.

(** The first call, with the static [head] still NULL; [None]: the file cannot
    be opened. *)
Definition load_config_from_file (file : option (list Z)) : M st Z :=
  match file with
  | None => ret NULL
  | Some text => file_loop (lines_from (LINE_MAX - 1) [] text) NULL NULL
  end.

Fixpoint local_loop (l : list wifi_hardware_info) (head : Z) : M st Z :=
  match l with
  | [] => ret head
  | i :: l =>
      r <- append_node head ;;
      set_info (snd r) i ;;;
      local_loop l (fst r)
  end.

Definition load_config_from_local (l : list wifi_hardware_info) : M st Z := local_loop l NULL.

(** The inner loop: does an entry from [p2] on have the identifier? *)
Fixpoint later_same (fuel : nat) (id p2 : Z) : M st bool :=
  if p2 =? NULL then ret false else
  match fuel with
  | O => stuck
  | S fuel =>
      n <- deref p2 ;;
      if id =? device_id (hwinfo n) then ret true else later_same fuel id (next n)
  end.

Fixpoint merge_loop (fuel : nat) (p1 h1 h2 head : Z) : M st Z :=
  if p1 =? NULL then ret head else
  n1 <- deref p1 ;;
  if next n1 =? NULL then ret head else
  match fuel with
  | O => stuck
  | S fuel =>
      s <- get ;;
      delete_node <- later_same (size (heap s)) (device_id (hwinfo n1)) (next n1) ;;
      let p1 := next n1 in
      if delete_node : bool then
        r <- (if h2 =? head then ret (p1, p1) else set_next h1 p1 ;;; ret (h1, head)) ;;
        free h2 ;;;
        merge_loop fuel p1 (fst r) p1 (snd r)
      else merge_loop fuel p1 h2 p1 head
  end.

Definition load_merged_config (l : list wifi_hardware_info) (file : option (list Z)) : M st Z :=
  h1 <- load_config_from_local l ;;
  h2 <- load_config_from_file file ;;
  head <- (if h1 =? NULL then ret h2 else p1 <- last_of h1 ;; set_next p1 h2 ;;; ret h1) ;;
  s <- get ;;
  merge_loop (size (heap s)) head head head head.

Fixpoint find_loop (fuel : nat) (cur bus id : Z) : M st Z :=
  if cur =? NULL then ret NULL else
  match fuel with
  | O => stuck
  | S fuel =>
      n <- deref cur ;;
      if (bus_type (hwinfo n) =? bus) && (device_id (hwinfo n) =? id) then ret cur else find_loop fuel (next n) bus id
  end.

(** The entry, or NULL; [head] is the global list. *)
Definition get_hardware_info_by_device_id (head bus id : Z) : M st Z :=
  s <- get ;; find_loop (size (heap s)) head bus id.

End HwInfo.
