(* ===== verification/HwInfoThm.v ===== *)
(** * The list of wireless chips is what the sources say

    The heap operations of [HwInfo] are related to lists of entries: [nodes] is
    the piece of heap that holds a list, and every operation is followed on it.
    Then the text format of the configuration file. *)

From stdpp Require Import base tactics option list list_numbers numbers gmap fin_maps sets.
From Stdlib Require Import ZArith Lia.
From Stdlib Require String.
From S2P Require Import Prelude CString HwInfo.

Import String.StringSyntax.
Import CString HwInfo.

Local Open Scope Z_scope.
Local Open Scope list_scope.
Local Open Scope c_scope.

Module HwInfoThm.

(** ** Lists in the heap *)

Abbreviation cells := (list (Z * wifi_hardware_info)).

(** The address of a list that continues with [q]. *)
Definition hd_loc (ls : cells) (q : Z) : Z := match ls with (l, _) :: _ => l | [] => q end.

Fixpoint nodes (ls : cells) (q : Z) : gmap Z wl_hwinfo_list :=
  match ls with
  | [] => ∅
  | (l, x) :: ls => <[l := mkNode x (hd_loc ls q)]> (nodes ls q)
  end.

Lemma hd_loc_app a b q : hd_loc (a ++ b) q = hd_loc a (hd_loc b q).
Proof. by destruct a as [|[l x] a]. Qed.

Lemma nodes_none ls q l : l ∉ ls.*1 -> nodes ls q !! l = None.
Proof.
  induction ls as [|[k x] ls IH]; intros H; [done|]. cbn in *. apply not_elem_of_cons in H as [H1 H2].
  rewrite lookup_insert_ne by done. by apply IH.
Qed.

Lemma nodes_some ls q l : l ∈ ls.*1 -> is_Some (nodes ls q !! l).
Proof.
  induction ls as [|[k x] ls IH]; cbn; [by intros ?%not_elem_of_nil|]. destruct (decide (k = l)) as [->|Hne].
  - by rewrite lookup_insert_eq.
  - rewrite lookup_insert_ne by done. intros [->|H]%elem_of_cons; [done|by apply IH].
Qed.

Lemma nodes_app a b q : nodes (a ++ b) q = nodes a (hd_loc b q) ∪ nodes b q.
Proof.
  induction a as [|[l x] a IH]; cbn; [by rewrite map_empty_union|]. by rewrite IH, insert_union_l, hd_loc_app.
Qed.

Lemma nodes_disjoint a b p q : NoDup (a ++ b).*1 -> nodes a p ##ₘ nodes b q.
Proof.
  intros Hn. apply map_disjoint_spec. intros l x y Hx Hy.
  rewrite fmap_app in Hn. apply NoDup_app in Hn as (_ & Hd & _). apply (Hd l).
  - destruct (decide (l ∈ a.*1)) as [|H]; [done|]. by rewrite nodes_none in Hx.
  - destruct (decide (l ∈ b.*1)) as [|H]; [done|]. by rewrite nodes_none in Hy.
Qed.

Lemma nodes_lookup a l x b q : NoDup (a ++ (l, x) :: b).*1 ->
  nodes (a ++ (l, x) :: b) q !! l = Some (mkNode x (hd_loc b q)).
Proof.
  rewrite fmap_app. cbn. intros (_ & Hd & _)%NoDup_app. rewrite nodes_app, lookup_union_r.
  - cbn. apply lookup_insert_eq.
  - apply nodes_none. intros H. apply (Hd l H). left.
Qed.

Lemma nodes_update a l x y b q : NoDup (a ++ (l, x) :: b).*1 ->
  <[l := mkNode y (hd_loc b q)]> (nodes (a ++ (l, x) :: b) q) = nodes (a ++ (l, y) :: b) q.
Proof.
  rewrite fmap_app. cbn. intros (_ & Hd & _)%NoDup_app. rewrite !nodes_app. cbn [hd_loc].
  rewrite insert_union_r by (apply nodes_none; intros H; apply (Hd l H); left). cbn. by rewrite insert_insert_eq.
Qed.

(** The last cell is linked to [p]. *)
Lemma nodes_link a l x p q : NoDup (a ++ [(l, x)]).*1 ->
  <[l := mkNode x p]> (nodes (a ++ [(l, x)]) q) = nodes (a ++ [(l, x)]) p.
Proof.
  rewrite fmap_app. cbn. intros (_ & Hd & _)%NoDup_app. rewrite !nodes_app. cbn [hd_loc].
  rewrite insert_union_r by (apply nodes_none; intros H; apply (Hd l H); left). cbn. by rewrite insert_insert_eq.
Qed.

(** The cell [l] is taken out of the middle, the one before it linked around it. *)
Lemma nodes_unlink a k y l x b q : NoDup ((a ++ [(k, y)]) ++ (l, x) :: b).*1 ->
  delete l (<[k := mkNode y (hd_loc b q)]> (nodes ((a ++ [(k, y)]) ++ (l, x) :: b) q)) = nodes ((a ++ [(k, y)]) ++ b) q.
Proof.
  intros Hn. rewrite fmap_app in Hn. cbn [fmap list_fmap fst] in Hn.
  apply NoDup_app in Hn as (Ha & Hd & [Hl Hb]%NoDup_cons).
  rewrite (nodes_app (a ++ [(k, y)]) ((l, x) :: b)). cbn [hd_loc]. rewrite insert_union_l, nodes_link by done.
  rewrite delete_union, delete_id.
  - cbn [nodes]. rewrite delete_insert_id by (by apply nodes_none). by rewrite (nodes_app (a ++ [(k, y)]) b).
  - apply nodes_none. intros H. apply (Hd l H). left.
Qed.

Lemma nodes_size ls q : NoDup ls.*1 -> size (nodes ls q) = length ls.
Proof.
  induction ls as [|[l x] ls IH]; cbn; [done|]. intros [Hl Hn]%NoDup_cons. rewrite map_size_insert_None, IH; [done|done|].
  by apply nodes_none.
Qed.

(** The heap holds the list [ls] from [head] on, and [F] besides. *)
Record rep (F : gmap Z wl_hwinfo_list) (ls : cells) (head : Z) (s : st) : Prop := {
  rep_heap : heap s = nodes ls NULL ∪ F;
  rep_head : head = hd_loc ls NULL;
  rep_nodup : NoDup ls.*1;
  rep_disj : nodes ls NULL ##ₘ F;
  rep_brk : forall l, is_Some (heap s !! l) -> 0 < l < brk s;
  rep_pos : 0 < brk s
}.

Lemma rep_elem F ls head s l : rep F ls head s -> l ∈ ls.*1 -> 0 < l < brk s.
Proof.
  intros R Hl. apply (rep_brk _ _ _ _ R). rewrite (rep_heap _ _ _ _ R).
  destruct (nodes_some ls NULL l Hl) as [n Hn]. exists n. by apply lookup_union_Some_l.
Qed.

Lemma rep_deref F a l x b head s : rep F (a ++ (l, x) :: b) head s ->
  deref l s = Some (mkNode x (hd_loc b NULL), s).
Proof.
  intros R. unfold deref. rewrite (rep_heap _ _ _ _ R), (lookup_union_Some_l _ _ l (mkNode x (hd_loc b NULL))); [done|].
  apply nodes_lookup, R.
Qed.

Lemma hd_loc_ne F a l x b head s : rep F (a ++ (l, x) :: b) head s -> hd_loc b NULL = NULL -> b = [].
Proof.
  intros R. destruct b as [|[k y] b]; [done|]. cbn. intros ->.
  assert (0 < NULL < brk s); [|unfold NULL in *; lia]. eapply (rep_elem F _ head s); [done|].
  rewrite fmap_app. apply elem_of_app. right. cbn. right. left.
Qed.

Lemma rep_size F ls head s : rep F ls head s -> (length ls <= size (heap s))%nat.
Proof.
  intros R. rewrite (rep_heap _ _ _ _ R), map_size_disj_union by apply R. rewrite nodes_size by apply R. lia.
Qed.

(** One cell gets other contents. *)
Lemma rep_set_info F a l x y head s : rep F (a ++ [(l, x)]) head s ->
  exists s', set_info l y s = Some (tt, s') /\ rep F (a ++ [(l, y)]) head s' /\ brk s' = brk s.
Proof.
  intros R. exists (mkSt (<[l := mkNode y NULL]> (heap s)) (brk s)).
  pose proof (rep_deref _ _ _ _ _ _ _ R) as Hd. split.
  { unfold set_info, bind. rewrite Hd. unfold HwInfo.store, bind. by rewrite Hd. }
  destruct R as [R1 R2 R3 R4 R5 R6].
  assert (heap s !! l = Some (mkNode x NULL)) as Hl.
  { unfold deref in Hd. destruct (heap s !! l) as [n|]; [|done]. cbn in Hd. injection Hd as ->. done. }
  assert (nodes (a ++ [(l, y)]) NULL = <[l := mkNode y NULL]> (nodes (a ++ [(l, x)]) NULL)) as En
    by (symmetry; by apply (nodes_update a l x y [] NULL)).
  split; [|done]. split; cbn.
  - rewrite R1, insert_union_l, En. done.
  - rewrite R2, !hd_loc_app. done.
  - rewrite fmap_app in *. done.
  - rewrite En. apply map_disjoint_insert_l. split; [|done].
    apply (map_disjoint_Some_l (nodes (a ++ [(l, x)]) NULL) F l (mkNode x NULL)); [done|].
    by apply (nodes_lookup a l x [] NULL).
  - intros k Hk. apply R5. destruct (decide (l = k)) as [<-|]; [by exists (mkNode x NULL)|by rewrite lookup_insert_ne in Hk].
  - done.
Qed.

(** ** Loading *)

Lemma last_loop_run F a l x head s fuel b : rep F (b ++ a ++ [(l, x)]) head s -> (length a < fuel)%nat ->
  last_loop fuel (hd_loc (a ++ [(l, x)]) NULL) s = Some (l, s).
Proof.
  revert fuel b. induction a as [|[k y] a IH]; intros fuel b R Hf; (destruct fuel as [|fuel]; [lia|]); cbn [last_loop].
  - cbn [app hd_loc]. unfold bind. cbn [app] in R. by rewrite (rep_deref _ _ _ _ _ _ _ R).
  - cbn [app hd_loc]. unfold bind. cbn [app] in R. rewrite (rep_deref _ _ _ _ _ _ _ R). cbn [next].
    destruct (Z.eqb_spec (hd_loc (a ++ [(l, x)]) NULL) NULL) as [H|_].
    + apply (hd_loc_ne _ _ _ _ _ _ _ R) in H. by destruct a.
    + apply (IH fuel (b ++ [(k, y)])); [by rewrite <- app_assoc|cbn in Hf; lia].
Qed.

Lemma last_of_run F a l x head s : rep F (a ++ [(l, x)]) head s -> last_of head s = Some (l, s).
Proof.
  intros R. unfold last_of, bind, get. rewrite (rep_head _ _ _ _ R).
  apply (last_loop_run F a l x head s _ []); [done|]. apply rep_size in R. rewrite length_app in R. cbn in R. lia.
Qed.

(** [malloc]: the new cell is in the frame. *)
Lemma malloc_run F ls head s : rep F ls head s -> exists s',
  malloc_node s = Some (brk s, s') /\ rep (nodes [(brk s, zero_info)] NULL ∪ F) ls head s' /\
  nodes [(brk s, zero_info)] NULL ##ₘ F /\ 0 < brk s.
Proof.
  intros [R1 R2 R3 R4 R5 R6]. eexists. split; [done|].
  assert (heap s !! brk s = None) as Hb.
  { destruct (heap s !! brk s) as [n|] eqn:E; [|done]. destruct (R5 (brk s) ltac:(by exists n)). lia. }
  rewrite R1 in Hb. apply lookup_union_None in Hb as [Hbl HbF]. cbn [nodes hd_loc]. rewrite insert_empty.
  split; [|split; [by apply map_disjoint_singleton_l|done]]. split; cbn; [|done|done| | |lia].
  - rewrite <- insert_union_singleton_l, R1. by rewrite insert_union_r.
  - apply map_disjoint_union_r. split; [by apply map_disjoint_singleton_r|done].
  - intros l Hl. destruct (decide (brk s = l)) as [<-|Hne]; [lia|]. rewrite lookup_insert_ne in Hl by done.
    specialize (R5 l Hl). lia.
Qed.

Lemma disjoint_nodup (a b : cells) p q : NoDup a.*1 -> NoDup b.*1 -> nodes a p ##ₘ nodes b q -> NoDup (a ++ b).*1.
Proof.
  intros Ha Hb Hd. rewrite fmap_app. apply NoDup_app. split; [done|]. split; [|done]. intros l H1 H2.
  destruct (nodes_some a p l H1) as [x Hx], (nodes_some b q l H2) as [y Hy].
  by apply (map_disjoint_spec (nodes a p) (nodes b q)) with (i := l) (x := x) (y := y) in Hd.
Qed.

(** The domain of a list does not depend on what follows it. *)
Lemma nodes_disjoint_end a p q (G : gmap Z wl_hwinfo_list) : nodes a p ##ₘ G -> nodes a q ##ₘ G.
Proof.
  rewrite !map_disjoint_spec. intros H l x y Hx Hy.
  assert (l ∈ a.*1) as Hl by (destruct (decide (l ∈ a.*1)); [done|by rewrite nodes_none in Hx]).
  destruct (nodes_some a p l Hl) as [w Hw]. by eapply H.
Qed.

(** A list of the frame is linked to the end. *)
Lemma join_run F a l x b head s : rep (nodes b NULL ∪ F) (a ++ [(l, x)]) head s -> NoDup b.*1 -> nodes b NULL ##ₘ F ->
  exists s', set_next l (hd_loc b NULL) s = Some (tt, s') /\ rep F ((a ++ [(l, x)]) ++ b) head s'.
Proof.
  intros R Hb HbF. set (ls := a ++ [(l, x)]) in *. pose proof (rep_deref _ _ _ _ _ _ _ R) as Hd.
  exists (mkSt (<[l := mkNode x (hd_loc b NULL)]> (heap s)) (brk s)). split.
  { unfold set_next, bind. rewrite Hd. unfold HwInfo.store, bind. by rewrite Hd. }
  destruct R as [R1 R2 R3 R4 R5 R6]. apply map_disjoint_union_r in R4 as [R4 R4'].
  split; cbn.
  - rewrite R1, insert_union_l. unfold ls at 1. rewrite nodes_link by done. fold ls.
    by rewrite nodes_app, map_union_assoc.
  - rewrite R2. unfold ls. rewrite !hd_loc_app. done.
  - by eapply disjoint_nodup.
  - rewrite nodes_app. apply map_disjoint_union_l. split; [by eapply nodes_disjoint_end|done].
  - intros k Hk. apply R5. destruct (decide (l = k)) as [<-|]; [|by rewrite lookup_insert_ne in Hk].
    unfold deref in Hd. destruct (heap s !! l); [by eexists|done].
  - done.
Qed.

Lemma adopt_run F b s : rep (nodes b NULL ∪ F) [] NULL s -> NoDup b.*1 -> nodes b NULL ##ₘ F -> rep F b (hd_loc b NULL) s.
Proof. intros [R1 R2 R3 R4 R5 R6] Hb HbF. split; [|done..]. rewrite R1. cbn [nodes]. by rewrite map_empty_union. Qed.

Lemma append_run F ls head s : rep F ls head s -> exists l s',
  append_node head s = Some ((hd_loc (ls ++ [(l, zero_info)]) NULL, l), s') /\
  rep F (ls ++ [(l, zero_info)]) (hd_loc (ls ++ [(l, zero_info)]) NULL) s'.
Proof.
  intros R. exists (brk s). destruct (malloc_run _ _ _ _ R) as (s1 & E1 & R1 & Hd & Hpos).
  unfold append_node, bind. rewrite E1. destruct ls as [|[l x] a _] using rev_ind.
  - rewrite (rep_head _ _ _ _ R) in *. cbn [hd_loc]. rewrite Z.eqb_refl. exists s1. split; [done|].
    apply adopt_run; [done|apply NoDup_singleton|done].
  - destruct (Z.eqb_spec head NULL) as [->|Hne].
    { pose proof (rep_head _ _ _ _ R) as Hh. rewrite hd_loc_app in Hh.
      destruct a as [|[k y] a]; cbn in Hh; subst.
      - destruct (rep_elem _ _ _ _ NULL R ltac:(left)). unfold NULL in *. lia.
      - destruct (rep_elem _ _ _ _ NULL R ltac:(left)). unfold NULL in *. lia. }
    rewrite (last_of_run _ _ _ _ _ _ R1).
    destruct (join_run F a l x [(brk s, zero_info)] head s1 R1 (NoDup_singleton _) Hd) as (s2 & E2 & R2).
    cbn [hd_loc] in E2. rewrite E2. exists s2. assert (head = hd_loc ((a ++ [(l, x)]) ++ [(brk s, zero_info)]) NULL) as Hh
      by apply R2. by rewrite <- Hh.
Qed.

(** *** Lists of entries *)

(** What [file_loop] makes of the lines, with the entries so far. *)
Fixpoint parse_lines (lines : list (list Z)) (done : list wifi_hardware_info) : option (list wifi_hardware_info) :=
  match lines with
  | [] => Some done
  | buf :: lines =>
      if search_key (cstr buf) CONFIG_SESSION_KEY then parse_lines lines (done ++ [zero_info]) else
      r ← match_line matchtab (cstr buf);
      match r with
      | None => parse_lines lines done
      | Some (f, conf) => i ← last done; parse_lines lines (removelast done ++ [set_field f conf i])
      end
  end.

Definition parse_file (file : option (list Z)) : option (list wifi_hardware_info) :=
  match file with
  | None => Some []
  | Some text => parse_lines (lines_from (LINE_MAX - 1) [] text) []
  end.

(** The pointer to the last entry. *)
Definition last_loc (ls : cells) : Z := match last ls with Some (l, _) => l | None => NULL end.

Lemma last_loc_snoc a l x : last_loc (a ++ [(l, x)]) = l.
Proof. unfold last_loc. by rewrite last_snoc. Qed.

Lemma file_loop_run F lines ls s : rep F ls (hd_loc ls NULL) s ->
  match parse_lines lines (ls.*2) with
  | None => file_loop lines (hd_loc ls NULL) (last_loc ls) s = None
  | Some xs => exists ls' s', file_loop lines (hd_loc ls NULL) (last_loc ls) s = Some (hd_loc ls' NULL, s') /\
      rep F ls' (hd_loc ls' NULL) s' /\ ls'.*2 = xs
  end.
Proof.
  revert ls s. induction lines as [|buf lines IH]; intros ls s R; cbn [file_loop parse_lines].
  { exists ls, s. done. }
  destruct (search_key (cstr buf) CONFIG_SESSION_KEY).
  { destruct (append_run _ _ _ _ R) as (l & s1 & E1 & R1). unfold bind. rewrite E1. cbn [fst snd].
    specialize (IH _ _ R1). rewrite fmap_app in IH. cbn [fmap list_fmap snd] in IH.
    unfold last_loc in IH. by rewrite last_snoc in IH. }
  destruct (match_line matchtab (cstr buf)) as [[[f conf]|]|]; cbn [mbind option_bind]; [|by apply IH|done].
  destruct ls as [|[l x] a _] using rev_ind.
  - cbn. unfold bind, last_loc, deref. cbn.
    destruct (heap s !! NULL) as [n|] eqn:E; [|done].
    destruct (rep_brk _ _ _ _ R NULL ltac:(by exists n)). unfold NULL in *. lia.
  - rewrite fmap_app. cbn [fmap list_fmap snd]. rewrite last_snoc. cbn [mbind option_bind].
    rewrite removelast_last, last_loc_snoc. unfold bind.
    rewrite (rep_deref _ _ _ _ _ _ _ R). cbn [hwinfo].
    destruct (rep_set_info _ _ _ _ (set_field f conf x) _ _ R) as (s1 & E1 & R1 & _). rewrite E1.
    assert (hd_loc (a ++ [(l, x)]) NULL = hd_loc (a ++ [(l, set_field f conf x)]) NULL) as Eh by by rewrite !hd_loc_app.
    rewrite Eh in *. specialize (IH _ _ R1). rewrite fmap_app in IH. cbn [fmap list_fmap snd] in IH.
    by rewrite last_loc_snoc in IH.
Qed.

Lemma local_loop_run F l ls s : rep F ls (hd_loc ls NULL) s -> exists ls' s',
  local_loop l (hd_loc ls NULL) s = Some (hd_loc ls' NULL, s') /\ rep F ls' (hd_loc ls' NULL) s' /\ ls'.*2 = ls.*2 ++ l.
Proof.
  revert ls s. induction l as [|i l IH]; intros ls s R; cbn [local_loop].
  { exists ls, s. by rewrite app_nil_r. }
  destruct (append_run _ _ _ _ R) as (k & s1 & E1 & R1). unfold bind. rewrite E1. cbn [fst snd].
  destruct (rep_set_info _ _ _ _ i _ _ R1) as (s2 & E2 & R2 & _). rewrite E2.
  assert (hd_loc (ls ++ [(k, zero_info)]) NULL = hd_loc (ls ++ [(k, i)]) NULL) as Eh by by rewrite !hd_loc_app.
  rewrite Eh in *. destruct (IH _ _ R2) as (ls' & s3 & E3 & R3 & H3). exists ls', s3. split_and!; [done|done|].
  rewrite H3, fmap_app. cbn. by rewrite <- app_assoc.
Qed.

(** ** Merging *)

(** The entries that no later entry has the identifier of. *)
Definition same_id (x y : wifi_hardware_info) : bool := device_id x =? device_id y.

Fixpoint keep_last (l : list wifi_hardware_info) : list wifi_hardware_info :=
  match l with
  | [] => []
  | x :: l => if existsb (same_id x) l then keep_last l else x :: keep_last l
  end.

Lemma later_same_run F a b head s fuel x : rep F (a ++ b) head s -> (length b <= fuel)%nat ->
  later_same fuel (device_id x) (hd_loc b NULL) s = Some (existsb (same_id x) b.*2, s).
Proof.
  revert a fuel. induction b as [|[l y] b IH]; intros a fuel R Hf; [by destruct fuel|].
  destruct (rep_elem _ _ _ _ l R) as [Hl _]; [rewrite fmap_app; apply elem_of_app; right; left|].
  destruct fuel as [|fuel]; [cbn in Hf; lia|]. cbn [later_same hd_loc].
  rewrite (proj2 (Z.eqb_neq l NULL)) by (unfold NULL; lia). unfold bind. rewrite (rep_deref _ _ _ _ _ _ _ R).
  cbn [hwinfo next fmap list_fmap snd existsb]. unfold same_id at 1. destruct (device_id x =? device_id y); [done|].
  apply (IH (a ++ [(l, y)])); [by rewrite <- app_assoc|cbn in Hf; lia].
Qed.

Lemma free_head_run F l x b s : rep F ((l, x) :: b) l s -> exists s',
  free l s = Some (tt, s') /\ rep F b (hd_loc b NULL) s'.
Proof.
  intros R. exists (mkSt (delete l (heap s)) (brk s)).
  pose proof (rep_deref F [] l x b l s R) as Hd. split; [unfold free, bind; by rewrite Hd|].
  destruct R as [R1 R2 R3 R4 R5 R6]. cbn in R3. apply NoDup_cons in R3 as [Hl R3]. cbn [nodes] in R1, R4.
  apply map_disjoint_insert_l in R4 as [HF R4]. split; cbn; [|done|done|done| |done].
  - rewrite R1, <- insert_union_l, delete_insert_id; [done|]. apply lookup_union_None. split; [by apply nodes_none|done].
  - intros k [n Hk]. apply R5. apply lookup_delete_Some in Hk as [_ Hk]. by exists n.
Qed.

Lemma unlink_run F a j z l x b head s : rep F ((a ++ [(j, z)]) ++ (l, x) :: b) head s -> exists s1 s',
  set_next j (hd_loc b NULL) s = Some (tt, s1) /\ free l s1 = Some (tt, s') /\ rep F ((a ++ [(j, z)]) ++ b) head s'.
Proof.
  intros R. assert (rep F (a ++ (j, z) :: (l, x) :: b) head s) as R' by by rewrite <- app_assoc in R.
  pose proof (rep_deref _ _ _ _ _ _ _ R') as Hd.
  set (h1 := <[j := mkNode z (hd_loc b NULL)]> (heap s)).
  exists (mkSt h1 (brk s)), (mkSt (delete l h1) (brk s)).
  pose proof (rep_deref _ _ _ _ _ _ _ R) as Hdl. destruct R as [R1 R2 R3 R4 R5 R6].
  assert (j <> l) as Hjl.
  { intros ->. rewrite fmap_app in R3. apply NoDup_app in R3 as (_ & H & _). apply (H l); [|left].
    rewrite fmap_app. apply elem_of_app. right. left. }
  assert (heap s !! j = Some (mkNode z l)) as Hj by (unfold deref in Hd; destruct (heap s !! j); [by injection Hd as ->|done]).
  assert (is_Some (heap s !! l)) as Hl by (unfold deref in Hdl; destruct (heap s !! l); [by eexists|done]).
  split; [unfold set_next, bind; rewrite Hd; unfold HwInfo.store, bind; by rewrite Hd|].
  split.
  { unfold free, bind, deref. cbn [heap]. unfold h1. rewrite lookup_insert_ne by done. by destruct Hl as [n ->]. }
  assert (F !! l = None) as HFl.
  { destruct (nodes_some ((a ++ [(j, z)]) ++ (l, x) :: b) NULL l) as [n Hn].
    { rewrite fmap_app. apply elem_of_app. right. left. }
    by apply (map_disjoint_Some_l _ F l n) in R4. }
  assert (nodes ((a ++ [(j, z)]) ++ b) NULL ⊆ <[j := mkNode z (hd_loc b NULL)]> (nodes ((a ++ [(j, z)]) ++ (l, x) :: b) NULL)) as Hsub.
  { rewrite <- (nodes_unlink a j z l x b NULL R3). apply delete_subseteq. }
  split; cbn.
  - unfold h1. rewrite R1, insert_union_l, delete_union, nodes_unlink by done. by rewrite (delete_id F).
  - rewrite R2, !hd_loc_app. done.
  - rewrite fmap_app in *. apply NoDup_app in R3 as (H1 & H2 & [_ H3]%NoDup_cons). apply NoDup_app.
    split; [done|]. split; [|done]. intros k Hk Hkb. apply (H2 k Hk). by right.
  - eapply map_disjoint_weaken_l; [|exact Hsub]. apply map_disjoint_insert_l. split; [|done].
    eapply (map_disjoint_Some_l (nodes ((a ++ [(j, z)]) ++ (l, x) :: b) NULL)); [done|].
    rewrite <- app_assoc. apply (nodes_lookup a j z ((l, x) :: b)). by rewrite <- app_assoc in R3.
  - intros k [n Hk]. apply R5. apply lookup_delete_Some in Hk as [_ Hk]. unfold h1 in Hk.
    destruct (decide (j = k)) as [<-|]; [by eexists|]. rewrite lookup_insert_ne in Hk by done. by exists n.
  - done.
Qed.

(** The first entry is not one of the later ones. *)
Lemma head_not_later F a j z l x b : forall s, ~ rep F ((a ++ [(j, z)]) ++ (l, x) :: b) l s.
Proof.
  intros s [_ R2 R3 _ _ _]. rewrite fmap_app in R3. apply NoDup_app in R3 as (_ & H & _). apply (H l); [|left].
  rewrite R2. destruct a as [|[i w] a]; left.
Qed.

(** One turn of the outer loop, on the entry [l] and its successor [k]. *)
Lemma merge_loop_step F a l x k y b head h1 fuel s : rep F (a ++ (l, x) :: (k, y) :: b) head s -> (S (length b) <= size (heap s))%nat ->
  merge_loop (S fuel) l h1 l head s =
  (if existsb (same_id x) (y :: b.*2) then
     r <- (if l =? head then ret (k, k) else set_next h1 k ;;; ret (h1, head)) ;;
     free l ;;;
     merge_loop fuel k (fst r) k (snd r)
   else merge_loop fuel k l k head) s.
Proof.
  intros R Hsz. pose proof (rep_elem _ _ _ _ l R) as [Hl _]; [rewrite fmap_app; apply elem_of_app; right; left|].
  pose proof (rep_elem _ _ _ _ k R) as [Hk _]; [rewrite fmap_app; apply elem_of_app; right; right; left|].
  cbn [merge_loop]. rewrite (proj2 (Z.eqb_neq l NULL)) by (unfold NULL; lia). unfold bind at 1.
  rewrite (rep_deref _ _ _ _ _ _ _ R). cbn [next hd_loc]. rewrite (proj2 (Z.eqb_neq k NULL)) by (unfold NULL; lia).
  unfold bind at 1 2. cbn [get hwinfo].
  pose proof (later_same_run F (a ++ [(l, x)]) ((k, y) :: b) head s (size (heap s)) x) as E. cbn [hd_loc] in E.
  rewrite E; [by destruct (existsb _ _)| |cbn; lia]. by rewrite <- app_assoc.
Qed.

Lemma merge_loop_run F b a head h1 fuel s : rep F (a ++ b) head s -> (length b <= fuel)%nat ->
  (a <> [] -> h1 = last_loc a) -> exists ls' s',
  merge_loop fuel (hd_loc b NULL) h1 (hd_loc b NULL) head s = Some (hd_loc ls' NULL, s') /\
  rep F ls' (hd_loc ls' NULL) s' /\ ls'.*2 = a.*2 ++ keep_last b.*2.
Proof.
  revert a head h1 fuel s. induction b as [|[l x] b IH]; intros a head h1 fuel s R Hf Hh.
  { exists a, s. rewrite !app_nil_r in *. pose proof (rep_head _ _ _ _ R) as ->. by destruct fuel. }
  destruct fuel as [|fuel]; [cbn in Hf; lia|]. cbn [length] in Hf. destruct b as [|[k y] b].
  { exists (a ++ [(l, x)]), s. pose proof (rep_head _ _ _ _ R) as Eh. rewrite <- Eh, fmap_app. split; [|done].
    pose proof (rep_elem _ _ _ _ l R) as [Hl _]; [rewrite fmap_app; apply elem_of_app; right; left|].
    cbn [merge_loop hd_loc]. rewrite (proj2 (Z.eqb_neq l NULL)) by (unfold NULL; lia). unfold bind.
    by rewrite (rep_deref _ _ _ _ _ _ _ R). }
  cbn [hd_loc]. rewrite (merge_loop_step _ _ _ _ _ _ _ _ _ _ _ R).
  2: { apply rep_size in R. rewrite length_app in R. cbn in R. lia. }
  change (keep_last ((l, x) :: (k, y) :: b).*2)
    with (if existsb (same_id x) (y :: b.*2) then keep_last ((k, y) :: b).*2 else x :: keep_last ((k, y) :: b).*2).
  destruct (existsb (same_id x) (y :: b.*2)).
  - destruct a as [|[j z] a _] using rev_ind.
    + cbn [app] in R. pose proof (rep_head _ _ _ _ R) as ->. cbn [hd_loc]. rewrite Z.eqb_refl.
      destruct (free_head_run _ _ _ _ _ R) as (s1 & E1 & R1). unfold bind, ret. rewrite E1. cbn [fst snd hd_loc] in *.
      destruct (IH [] k k fuel s1 R1 ltac:(lia)) as (ls & s2 & E2 & R2 & H2); [done|]. by exists ls, s2.
    + destruct (Z.eqb_spec l head) as [->|_].
      { by apply head_not_later in R. }
      destruct (unlink_run _ _ _ _ _ _ _ _ _ R) as (s1 & s2 & E1 & E2 & R2).
      rewrite Hh, last_loc_snoc by by destruct a. cbn [hd_loc] in E1. unfold bind, ret. rewrite E1, E2. cbn [fst snd].
      destruct (IH (a ++ [(j, z)]) head j fuel s2 R2 ltac:(lia)) as (ls & s3 & E3 & R3 & H3); [by rewrite last_loc_snoc|].
      by exists ls, s3.
  - destruct (IH (a ++ [(l, x)]) head l fuel s) as (ls & s2 & E2 & R2 & H2).
    + by rewrite <- app_assoc.
    + lia.
    + by rewrite last_loc_snoc.
    + exists ls, s2. split_and!; [done|done|]. rewrite H2, fmap_app, <- app_assoc. done.
Qed.

(** Two lists side by side: either can be the one at hand. *)
Lemma rep_frame F ls head s : rep F ls head s -> rep (nodes ls NULL ∪ F) [] NULL s.
Proof.
  intros [R1 R2 R3 R4 R5 R6]. split; [|done|apply NoDup_nil_2|apply map_disjoint_empty_l|done|done].
  cbn [nodes]. by rewrite map_empty_union.
Qed.

Lemma rep_swap F ls1 ls2 head s : rep (nodes ls1 NULL ∪ F) ls2 head s -> NoDup ls1.*1 -> nodes ls1 NULL ##ₘ F ->
  rep (nodes ls2 NULL ∪ F) ls1 (hd_loc ls1 NULL) s /\ NoDup ls2.*1 /\ nodes ls2 NULL ##ₘ F.
Proof.
  intros [R1 R2 R3 R4 R5 R6] Hn Hd. apply map_disjoint_union_r in R4 as [R4 R4']. split; [|done].
  split; [|done|done| |done|done].
  - rewrite R1, !map_union_assoc. f_equal. by apply map_union_comm.
  - by apply map_disjoint_union_r.
Qed.

Lemma file_run F file s : rep F [] NULL s ->
  match parse_file file with
  | None => load_config_from_file file s = None
  | Some xs => exists ls s', load_config_from_file file s = Some (hd_loc ls NULL, s') /\
      rep F ls (hd_loc ls NULL) s' /\ ls.*2 = xs
  end.
Proof.
  intros R. destruct file as [text|]; cbn [parse_file load_config_from_file]; [by apply (file_loop_run F _ [])|].
  by exists [], s.
Qed.

(** The two lists, one after the other. *)
Lemma join_lists F ls1 ls2 s : rep (nodes ls1 NULL ∪ F) ls2 (hd_loc ls2 NULL) s -> NoDup ls1.*1 -> nodes ls1 NULL ##ₘ F ->
  exists s', (if hd_loc ls1 NULL =? NULL then ret (hd_loc ls2 NULL)
              else p1 <- last_of (hd_loc ls1 NULL) ;; set_next p1 (hd_loc ls2 NULL) ;;; ret (hd_loc ls1 NULL)) s
    = Some (hd_loc (ls1 ++ ls2) NULL, s') /\ rep F (ls1 ++ ls2) (hd_loc (ls1 ++ ls2) NULL) s'.
Proof.
  intros R Hn Hd. destruct (rep_swap _ _ _ _ _ R Hn Hd) as (R1 & Hn2 & Hd2).
  destruct ls1 as [|[l x] a _] using rev_ind.
  { cbn [hd_loc app nodes]. rewrite Z.eqb_refl. exists s. split; [done|]. cbn [nodes] in R. by rewrite map_empty_union in R. }
  assert (hd_loc (a ++ [(l, x)]) NULL <> NULL) as Hne.
  { intros E. assert (0 < hd_loc (a ++ [(l, x)]) NULL) as H; [|rewrite E in H; by apply Z.lt_irrefl in H].
    apply (rep_elem _ _ _ _ (hd_loc (a ++ [(l, x)]) NULL) R1). destruct a as [|[k y] a]; left. }
  rewrite (proj2 (Z.eqb_neq _ _) Hne). unfold bind. rewrite (last_of_run _ _ _ _ _ _ R1).
  destruct (join_run F a l x ls2 _ s R1 Hn2 Hd2) as (s' & E & R'). rewrite E. exists s'.
  pose proof (rep_head _ _ _ _ R') as Eh. rewrite <- Eh. done.
Qed.

(** The load in full: from a heap that holds [F], the list of the last entry of
    every identifier, and [F] again. *)
Lemma merged_load_run F l file s : rep F [] NULL s ->
  match parse_file file with
  | None => load_merged_config l file s = None
  | Some xs => exists ls s', load_merged_config l file s = Some (hd_loc ls NULL, s') /\
      rep F ls (hd_loc ls NULL) s' /\ ls.*2 = keep_last (l ++ xs)
  end.
Proof.
  intros R. destruct (local_loop_run F l [] s R) as (ls1 & s1 & E1 & R1 & H1). cbn [app hd_loc fmap list_fmap] in *.
  pose proof (file_run _ file s1 (rep_frame _ _ _ _ R1)) as Hfile.
  unfold load_merged_config. rewrite (bind_some _ _ _ _ _ E1).
  destruct (parse_file file) as [xs|]; [|by unfold bind; rewrite Hfile].
  destruct Hfile as (ls2 & s2 & E2 & R2 & H2). rewrite (bind_some _ _ _ _ _ E2).
  destruct (join_lists F ls1 ls2 s2 R2 (rep_nodup _ _ _ _ R1) (rep_disj _ _ _ _ R1)) as (s3 & E3 & R3).
  rewrite (bind_some _ _ _ _ _ E3). unfold bind, get.
  destruct (merge_loop_run F (ls1 ++ ls2) [] (hd_loc (ls1 ++ ls2) NULL) (hd_loc (ls1 ++ ls2) NULL) (size (heap s3)) s3)
    as (ls & s4 & E4 & R4 & H4); [done|by eapply rep_size|done|].
  exists ls, s4. split_and!; [done|done|]. rewrite H4, fmap_app, H1, H2. done.
Qed.

Lemma rep_start : rep ∅ [] NULL (mkSt ∅ 1).
Proof.
  split; cbn; [by rewrite map_union_empty|done|apply NoDup_nil_2|apply map_disjoint_empty_l| |lia].
  intros k [n H]. by rewrite lookup_empty in H.
Qed.

(** *** The lookup *)

Definition matches (bus id : Z) (i : wifi_hardware_info) : bool := (bus_type i =? bus) && (device_id i =? id).

Lemma find_loop_run F a b head s fuel bus id : rep F (a ++ b) head s -> (length b <= fuel)%nat ->
  exists p, find_loop fuel (hd_loc b NULL) bus id s = Some (p, s) /\
    match find (matches bus id) b.*2 with
    | Some i => exists n, heap s !! p = Some n /\ hwinfo n = i /\ p <> NULL
    | None => p = NULL
    end.
Proof.
  revert a fuel. induction b as [|[l x] b IH]; intros a fuel R Hf; [exists NULL; by destruct fuel|].
  destruct fuel as [|fuel]; [cbn in Hf; lia|].
  pose proof (rep_elem _ _ _ _ l R) as [Hl _]; [rewrite fmap_app; apply elem_of_app; right; left|].
  pose proof (rep_deref _ _ _ _ _ _ _ R) as Hd. cbn [find_loop hd_loc fmap list_fmap snd find].
  rewrite (proj2 (Z.eqb_neq l NULL)) by (unfold NULL; lia). unfold bind at 1. rewrite Hd. cbn [hwinfo next].
  fold (matches bus id x). destruct (matches bus id x).
  - exists l. split; [done|]. unfold deref in Hd. destruct (heap s !! l) as [n|]; [|done]. injection Hd as ->.
    eexists. split_and!; [done|done|unfold NULL; lia].
  - apply (IH (a ++ [(l, x)])); [by rewrite <- app_assoc|cbn in Hf; lia].
Qed.

(** *** Identifiers *)

Lemma same_id_spec x l : existsb (same_id x) l = true <-> device_id x ∈ device_id <$> l.
Proof.
  rewrite existsb_exists, list_elem_of_fmap. unfold same_id. split; intros (y & H1 & H2); exists y.
  - apply Z.eqb_eq in H2. split; [done|by apply list_elem_of_In].
  - split; [by apply list_elem_of_In|by apply Z.eqb_eq].
Qed.

Lemma keep_last_sub l : keep_last l ⊆ l.
Proof.
  induction l as [|x l IH]; cbn; [done|]. destruct (existsb _ _); intros y Hy; [right; by apply IH|].
  apply elem_of_cons in Hy as [->|Hy]; [left|right; by apply IH].
Qed.

Lemma keep_last_ids l : forall d, d ∈ device_id <$> keep_last l <-> d ∈ device_id <$> l.
Proof.
  induction l as [|x l IH]; cbn; [done|]. intros d. destruct (existsb (same_id x) l) eqn:E.
  - rewrite IH, elem_of_cons. split; [by right|]. intros [->|H]; [by apply same_id_spec|done].
  - cbn. by rewrite !elem_of_cons, IH.
Qed.

Lemma keep_last_nodup l : NoDup (device_id <$> keep_last l).
Proof.
  induction l as [|x l IH]; cbn; [apply NoDup_nil_2|]. destruct (existsb (same_id x) l) eqn:E; [done|].
  cbn. apply NoDup_cons. split; [|done]. rewrite keep_last_ids, <- same_id_spec. by rewrite E.
Qed.

(** The one entry of an identifier is the last of the list. *)
Lemma keep_last_in a x b : device_id x ∉ device_id <$> b -> x ∈ keep_last (a ++ x :: b).
Proof.
  intros H. induction a as [|y a IH]; cbn.
  - destruct (existsb (same_id x) b) eqn:E; [by apply same_id_spec in E|left].
  - destruct (existsb _ _); [done|by right].
Qed.

Lemma find_nodup bus x l : NoDup (device_id <$> l) -> x ∈ l ->
  find (matches bus (device_id x)) l = if bus_type x =? bus then Some x else None.
Proof.
  induction l as [|y l IH]; cbn; [by intros _ ?%not_elem_of_nil|].
  intros [Hy Hn]%NoDup_cons [->|Hx]%elem_of_cons; unfold matches at 1.
  - rewrite Z.eqb_refl, andb_true_r. destruct (Z.eqb_spec (bus_type y) bus); [done|].
    destruct (find _ l) as [z|] eqn:E; [|done]. apply find_some in E as [E1 E2]. exfalso. apply Hy.
    apply andb_true_iff in E2 as [_ E2%Z.eqb_eq]. rewrite <- E2. apply list_elem_of_fmap. exists z.
    split; [done|by apply list_elem_of_In].
  - rewrite (proj2 (Z.eqb_neq (device_id y) (device_id x))); [by rewrite andb_false_r; apply IH|].
    intros E. apply Hy. rewrite E. by apply list_elem_of_fmap_2.
Qed.

(** ** The properties *)

(** C16: [load_merged_config] in full, with the heap: from an empty heap, with
    the entries [l] of the built-in table and those [xs] that the text of the
    file says, it ends (no dereference of a freed or a NULL pointer, no loop)
    with a list that holds, in their order, the entries that have no later entry
    with their device identifier, so that the file replaces the table and the
    file's last entry the earlier ones; the heap of nodes holds this list and
    nothing else, every replaced node freed exactly once.  It is undefined exactly when
    the text of the file makes [file_loop] so. *)
Theorem load_merged_config_spec l file :
  match parse_file file with
  | None => load_merged_config l file (mkSt ∅ 1) = None
  | Some xs => exists ls s', load_merged_config l file (mkSt ∅ 1) = Some (hd_loc ls NULL, s') /\
      heap s' = nodes ls NULL /\ NoDup ls.*1 /\ ls.*2 = keep_last (l ++ xs)
  end.
Proof.
  pose proof (merged_load_run _ l file _ rep_start) as H. destruct (parse_file file) as [xs|]; [|done].
  destruct H as (ls & s' & E & R' & H). exists ls, s'. split_and!; [done| |apply R'|done].
  rewrite (rep_heap _ _ _ _ R'). by rewrite map_union_empty.
Qed.

(** After the load, [get_hardware_info_by_device_id] finds an entry of the
    file, or of the table when the file has none with its identifier after it:
    for an entry [x] with no later entry of the same device identifier, the
    lookup of its identifier on its bus ends at a node with exactly [x], and the
    lookup of it on any other bus finds nothing. *)
Theorem lookup_after_load l file xs a x b bus : parse_file file = Some xs -> l ++ xs = a ++ x :: b ->
  device_id x ∉ device_id <$> b -> exists head s p s',
  load_merged_config l file (mkSt ∅ 1) = Some (head, s) /\
  get_hardware_info_by_device_id head bus (device_id x) s = Some (p, s') /\
  (if bus_type x =? bus then exists n, heap s' !! p = Some n /\ hwinfo n = x else p = NULL).
Proof.
  intros Hf El Hx.
  pose proof (merged_load_run _ l file _ rep_start) as H. rewrite Hf in H. destruct H as (ls & s & E & R' & H).
  destruct (find_loop_run ∅ [] ls (hd_loc ls NULL) s (size (heap s)) bus (device_id x)) as (p & Ep & Hp);
    [done|by eapply rep_size|].
  exists (hd_loc ls NULL), s, p, s. split_and!; [done|done|].
  rewrite H, El, find_nodup in Hp; [|apply keep_last_nodup|by apply keep_last_in].
  destruct (bus_type x =? bus); [|done]. destruct Hp as (n & H1 & H2 & _). by exists n.
Qed.

(** An entry of the table that the file replaces. *)
Definition demo_text : list Z := bytes "[module]" ++ [NL] ++ bytes "bus_type=1" ++ [NL] ++ bytes "device_id=0x7".
Definition demo_new : wifi_hardware_info := mkInfo 1 7 None None None None 0.

Lemma lookup_after_load_witness :
  parse_file (Some demo_text) = Some [demo_new] /\
  exists head s p s', load_merged_config [entry 1 7 "m" "d" "k" "v" 1] (Some demo_text) (mkSt ∅ 1) = Some (head, s) /\
    get_hardware_info_by_device_id head 1 7 s = Some (p, s') /\ exists n, heap s' !! p = Some n /\ hwinfo n = demo_new.
Proof.
  split; [vm_compute; reflexivity|].
  refine (lookup_after_load [entry 1 7 "m" "d" "k" "v" 1] (Some demo_text) [demo_new] [entry 1 7 "m" "d" "k" "v" 1] demo_new [] 1 _ eq_refl _).
  - vm_compute. reflexivity.
  - apply not_elem_of_nil.
Defined.

End HwInfoThm.
