(* ===== verification/HwConf.v ===== *)
(** * The configuration file of wireless chips

    A file in the layout of wireless/hwinfo/hwinfo.conf and what the parser of
    [HwInfo] makes of it: the round trip, and the values it does not read the way
    they are written. *)

From stdpp Require Import base tactics option list list_numbers numbers gmap.
From Stdlib Require Import ZArith Lia.
From Stdlib Require String.
From S2P Require Import Prelude CString HwInfo HwInfoThm.

Import String.StringSyntax.
Import CString HwInfo HwInfoThm.

Local Open Scope Z_scope.
Local Open Scope list_scope.
Local Open Scope c_scope.

Module HwConf.

(** ** The layout *)

Definition line (key v : list Z) : list Z := key ++ [SP; EQUALS; SP] ++ v ++ [NL].
Definition print_num (v : Z) : list Z := [48; 120] ++ printx v.
Definition print_str (s : option (list Z)) : list Z := default [] s.

Definition field_text (i : wifi_hardware_info) (f : field) : list Z :=
  match f with
  | F_bus_type => print_num (bus_type i)
  | F_device_id => print_num (device_id i)
  | F_module_name => print_str (module_name i)
  | F_driver_name => print_str (driver_name i)
  | F_driver_module_name => print_str (driver_module_name i)
  | F_vendor_name => print_str (vendor_name i)
  | F_bt_support => print_num (bt_support i)
  end.

(** One [module] section. *)
Definition section_lines (i : wifi_hardware_info) : list (list Z) :=
  (CONFIG_SESSION_KEY ++ [NL]) :: ((fun kf => line kf.1 (field_text i kf.2)) <$> matchtab).

Definition print_config (l : list wifi_hardware_info) : list Z := concat (l ≫= section_lines).

(** A value that can be written: it fits [conf], it is one line, and the parser
    does not take its ends for layout. *)
Definition plain_value (v : list Z) : Prop :=
  (length v < 256)%nat /\ Forall (fun c => c <> 0 /\ c <> NL /\ c <> CR) v /\
  head v <> Some SP /\ head v <> Some QUOTE.

Definition plain_str (s : option (list Z)) : Prop := exists v, s = Some v /\ plain_value v.

Definition plain_info (i : wifi_hardware_info) : Prop :=
  0 <= bus_type i < 2 ^ 64 /\ 0 <= device_id i < 2 ^ 64 /\ 0 <= bt_support i < 2 ^ 31 /\
  plain_str (module_name i) /\ plain_str (driver_name i) /\ plain_str (driver_module_name i) /\
  plain_str (vendor_name i).

(** ** Lines *)

Lemma lines_one max acc b rest : Forall (fun c => c <> NL) b -> (length acc + length b < max)%nat ->
  lines_from max acc (b ++ NL :: rest) = (acc ++ b ++ [NL]) :: lines_from max [] rest.
Proof.
  intros Hb. revert acc. induction Hb as [|c b Hc _ IH]; intros acc Hl.
  - done.
  - cbn [app lines_from]. rewrite (proj2 (Z.eqb_neq c NL)) by done. cbn [length] in Hl.
    rewrite (proj2 (Nat.eqb_neq _ max)) by (rewrite length_app; cbn; lia). cbn [orb].
    rewrite IH by (rewrite length_app; cbn; lia). by rewrite <- app_assoc.
Qed.

Lemma lines_concat max ls : Forall (fun l => exists b, l = b ++ [NL] /\ Forall (fun c => c <> NL) b /\ (length b < max)%nat) ls ->
  lines_from max [] (concat ls) = ls.
Proof.
  intros H. induction H as [|l ls (b & -> & Hb & Hl) _ IH]; [done|]. cbn [concat].
  rewrite <- app_assoc. cbn [app]. rewrite lines_one by done. by rewrite IH.
Qed.

(** ** Keys *)

(** The two keys differ at a position both have. *)
Fixpoint clash (k1 k2 : list Z) : bool :=
  match k1, k2 with
  | a :: k1, b :: k2 => negb (a =? b) || clash k1 k2
  | _, _ => false
  end.

Lemma clash_starts k1 k2 r : clash k1 k2 = true -> starts k1 (k2 ++ r) = false.
Proof.
  intros H. unfold starts. apply bool_decide_eq_false. revert k2 H. induction k1 as [|a k1 IH]; intros [|b k2] H; try done.
  cbn in *. intros [= -> E]. rewrite Z.eqb_refl in H. by apply (IH k2).
Qed.

(** Keys start with a letter. *)
Definition proper (k : list Z) : bool := match k with c :: _ => negb (c =? SP) && negb (c =? HASH) | [] => false end.

Lemma proper_skip k r : proper k = true -> skip_spaces (k ++ r) = k ++ r /\ (first (k ++ r) =? HASH) = false.
Proof.
  destruct k as [|c k]; [done|]. cbn. intros [H1%negb_true_iff H2%negb_true_iff]%andb_true_iff. by rewrite H1.
Qed.

Lemma search_other k1 k2 r : clash k1 k2 = true -> proper k2 = true -> search_key_val (k2 ++ r) k1 = Some None.
Proof.
  intros Hc Hp. destruct (proper_skip k2 r Hp) as [Es Eh]. unfold search_key_val. rewrite Es, Eh, clash_starts by done.
  by repeat case_match.
Qed.

Lemma search_key_other k1 k2 r : clash k1 k2 = true -> proper k2 = true -> search_key (k2 ++ r) k1 = false.
Proof.
  intros Hc Hp. destruct (proper_skip k2 r Hp) as [Es Eh]. unfold search_key. rewrite Es, Eh, clash_starts by done.
  by repeat case_match.
Qed.

(** ** Values *)

Definition skip_quote (p : list Z) : list Z := match p with c :: t => if c =? QUOTE then t else p | [] => p end.

Lemma skip_quote_other p : head p <> Some QUOTE -> skip_quote p = p.
Proof. destruct p as [|c p]; [done|]. cbn. intros H. rewrite (proj2 (Z.eqb_neq c QUOTE)); [done|congruence]. Qed.

(** The text after "key = ", with a quote [q] in front or not: the value is [v]
    when the search for its end stops there. *)
Lemma search_value k q v t : proper k = true -> head (q ++ v ++ t) <> Some SP -> skip_quote (q ++ v ++ t) = v ++ t ->
  (length v < 256)%nat -> value_end (k ++ [SP; EQUALS; SP] ++ q ++ v ++ t) = Z.of_nat (length k + 3 + length q + length v) ->
  search_key_val (k ++ [SP; EQUALS; SP] ++ q ++ v ++ t) k = Some (Some v).
Proof.
  intros Hp Hs Hq Hl He. destruct (proper_skip k ([SP; EQUALS; SP] ++ q ++ v ++ t) Hp) as [Es Eh]. unfold search_key_val.
  assert (skip_spaces ([SP; EQUALS; SP] ++ q ++ v ++ t) = EQUALS :: SP :: q ++ v ++ t) as E1 by done.
  assert (skip_spaces (SP :: q ++ v ++ t) = q ++ v ++ t) as E2.
  { unfold skip_spaces. cbn. apply drop_while_none. intros c Hc. apply Z.eqb_neq. congruence. }
  rewrite (proj2 (Nat.leb_gt _ _)) by (rewrite !length_app; cbn; lia).
  rewrite Es, Eh, starts_app, He, !drop_app_length, E1.
  rewrite (proj2 (Nat.leb_gt _ _)) by (rewrite !length_app; cbn; lia). cbn [negb Z.eqb]. rewrite Z.eqb_refl. cbn [negb].
  rewrite E2. fold (skip_quote (q ++ v ++ t)). rewrite Hq, !length_app. cbn [length].
  replace (Z.of_nat (length k + 3 + length q + length v) - _) with (Z.of_nat (length v)) by lia.
  rewrite (proj2 (Z.ltb_ge _ _)), (proj2 (Z.leb_gt CONF_SIZE _)) by (unfold CONF_SIZE; lia). cbn [orb].
  by rewrite Nat2Z.id, take_app_length.
Qed.

Lemma value_end_newline p v : ~ (exists w c, v = w ++ [c] /\ (c = NL \/ c = CR)) -> (p <> [] -> last p <> Some NL /\ last p <> Some CR) ->
  value_end (p ++ v ++ [NL]) = Z.of_nat (length p + length v).
Proof.
  intros Hv Hp. unfold value_end. rewrite app_assoc, rev_app_distr. cbn [rev app drop_while].
  change (NL =? SP) with false. cbv iota. change (NL =? QUOTE) with false. cbv iota. cbn [drop_while].
  change ((NL =? CR) || (NL =? NL)) with true. cbv iota.
  rewrite drop_while_none; [by rewrite length_rev, length_app|].
  intros c Hc. apply orb_false_iff. rewrite !Z.eqb_neq.
  destruct (p ++ v) as [|d w _] eqn:E using rev_ind; [done|]. rewrite rev_app_distr in Hc. cbn in Hc. injection Hc as ->.
  destruct v as [|e v _] using rev_ind.
  - rewrite app_nil_r in E. subst p. destruct (Hp ltac:(by destruct w)) as [H1 H2]. rewrite last_snoc in H1, H2. split; congruence.
  - rewrite app_assoc in E. apply app_inj_tail in E as [_ ->]. split; intros ->; apply Hv; exists v; eauto.
Qed.

Lemma search_line k v : proper k = true -> plain_value v -> search_key_val (line k v) k = Some (Some v).
Proof.
  intros Hk (Hl & Hv & Hs & Hq). apply (search_value k [] v [NL]); [done| | |done|].
  - by destruct v as [|c v]; [|intros [= ->]].
  - apply skip_quote_other. by destruct v as [|c v]; [|intros [= ->]].
  - change ([] ++ v ++ [NL]) with (v ++ [NL]). rewrite app_assoc, value_end_newline; [rewrite length_app; cbn; do 2 f_equal; lia| |].
    + intros (w & c & -> & H). apply Forall_app in Hv as [_ Hv%Forall_inv]. naive_solver.
    + intros _. by rewrite last_app.
Qed.

(** *** The lines of a section *)

Lemma cstr_line k v : Forall (fun c => c <> 0) k -> plain_value v -> cstr (line k v) = line k v.
Proof.
  intros Hk (_ & Hv & _). apply take_while_all. unfold line. rewrite !Forall_app. split_and!.
  - eapply List.Forall_impl; [|exact Hk]. intros c Hc. cbn. by rewrite (proj2 (Z.eqb_neq c 0) Hc).
  - by repeat constructor.
  - eapply List.Forall_impl; [|exact Hv]. intros c [Hc _]. cbn. by rewrite (proj2 (Z.eqb_neq c 0) Hc).
  - by repeat constructor.
Qed.

Lemma search_other_line k1 k2 v : clash k1 k2 = true -> proper k2 = true -> search_key_val (line k2 v) k1 = Some None.
Proof. apply search_other. Qed.

(** Everything the loop needs to know of the keys, by evaluation. *)
Lemma match_line_key k f v : (k, f) ∈ matchtab -> plain_value v ->
  cstr (line k v) = line k v /\ search_key (line k v) CONFIG_SESSION_KEY = false /\
  match_line matchtab (line k v) = Some (Some (f, v)).
Proof.
  intros Hin Hv. unfold matchtab in Hin.
  repeat (apply elem_of_cons in Hin as [Hin|Hin]; [injection Hin as -> ->|]); [..|by apply not_elem_of_nil in Hin].
  all: split; [apply cstr_line; [by repeat constructor|done]|].
  all: split; [apply search_key_other; reflexivity|].
  all: unfold matchtab; cbn [match_line]; rewrite ?(search_line _ v) by (reflexivity || done).
  all: by rewrite ?search_other_line by reflexivity.
Qed.

(** The lines for a list of fields set them one after the other. *)
Lemma parse_fields i (kfs : list (list Z * field)) rest acc x : kfs ⊆ matchtab -> (forall f, plain_value (field_text i f)) ->
  parse_lines (((fun kf => line kf.1 (field_text i kf.2)) <$> kfs) ++ rest) (acc ++ [x]) =
  parse_lines rest (acc ++ [foldl (fun x kf => set_field kf.2 (field_text i kf.2) x) x kfs]).
Proof.
  intros Hsub Hv. revert x. induction kfs as [|[k f] kfs IH]; intros x; [done|]. cbn [fmap list_fmap app parse_lines fst snd foldl].
  destruct (match_line_key k f (field_text i f)) as (-> & -> & ->); [apply Hsub; left|apply Hv|].
  cbn [mbind option_bind]. rewrite last_snoc. cbn [mbind option_bind]. rewrite removelast_last.
  apply IH. intros y Hy. apply Hsub. by right.
Qed.

(** *** Numbers *)

Lemma hexlen_spec v : 0 <= v < 2 ^ 64 -> v < 16 ^ Z.of_nat (hexlen v) /\ (0 < hexlen v <= 16)%nat.
Proof.
  intros Hv. unfold hexlen. destruct (decide (v = 0)) as [->|Hne]; [change (Z.to_nat (Z.log2 0 / 4 + 1)) with 1%nat; lia|].
  destruct (Z.log2_spec v) as [H1 H2]; [lia|]. pose proof (Z.log2_nonneg v) as Hl.
  assert (Z.log2 v < 64) by (apply Z.log2_lt_pow2; lia).
  pose proof (Z.div_mod (Z.log2 v) 4 ltac:(lia)) as Hd. pose proof (Z.mod_pos_bound (Z.log2 v) 4 ltac:(lia)) as Hm.
  rewrite Z2Nat.id by lia. split; [|lia]. change 16 with (2 ^ 4). rewrite <- Z.pow_mul_r by lia.
  eapply Z.lt_le_trans; [exact H2|]. apply Z.pow_le_mono_r; lia.
Qed.

Lemma strtoul_print v : 0 <= v < 2 ^ 64 -> strtoul 0 (print_num v) = v.
Proof.
  intros Hv. destruct (hexlen_spec v Hv) as [H1 H2]. unfold print_num, printx.
  rewrite <- (app_nil_r (hexn false _ v)). apply strtoul_0x; [lia|lia|lia|done].
Qed.

Lemma hexn_plain n v : Forall (fun c => c <> 0 /\ c <> NL /\ c <> CR) (hexn false n v).
Proof.
  induction n as [|n IH]; constructor; [|done]. pose proof (Z.mod_pos_bound (v / 16 ^ Z.of_nat n) 16 ltac:(lia)).
  set (d := (v / 16 ^ Z.of_nat n) mod 16) in *. clearbody d.
  unfold hexd, NL, CR. destruct (Z.ltb_spec d 10); lia.
Qed.

Lemma plain_num v : 0 <= v < 2 ^ 64 -> plain_value (print_num v).
Proof.
  intros Hv. destruct (hexlen_spec v Hv) as [_ H]. unfold print_num, printx. split_and!; [|..|done|done].
  - rewrite length_app, length_hexn. cbn. lia.
  - cbn. constructor; [by unfold NL, CR|]. constructor; [by unfold NL, CR|]. apply hexn_plain.
Qed.

Lemma plain_fields i : plain_info i -> forall f, plain_value (field_text i f).
Proof.
  intros (Hb & Hd & Ht & (m & Em & Hm) & (d & Ed & Hdr) & (k & Ek & Hk) & (v & Ev & Hv)) f. destruct f; cbn.
  1, 2, 7: apply plain_num; lia.
  all: by rewrite ?Em, ?Ed, ?Ek, ?Ev.
Qed.

(** A section is read as the entry it shows. *)
Lemma parse_section i rest acc : plain_info i -> parse_lines (section_lines i ++ rest) acc = parse_lines rest (acc ++ [i]).
Proof.
  intros Hi. unfold section_lines. cbn [app parse_lines].
  change (search_key (cstr (CONFIG_SESSION_KEY ++ [NL])) CONFIG_SESSION_KEY) with true. cbv iota.
  rewrite parse_fields by (done || by apply plain_fields). do 3 f_equal.
  destruct Hi as (Hb & Hd & Ht & (m & Em & _) & (d & Ed & _) & (k & Ek & _) & (v & Ev & _)).
  destruct i as [b0 d0 m0 n0 k0 v0 t0]. cbn -[print_num strtoul] in *. subst.
  rewrite !strtoul_print by lia. by rewrite s32_small by (unfold in_int, INT_MIN, INT_MAX; lia).
Qed.

(** ** The properties *)

(** What is written in the layout of hwinfo.conf is read back: for entries
    with numbers in range and strings that fit on a line of the file, the parser
    of the configuration file returns exactly the entries, in order; nothing is
    undefined. *)
Theorem config_file_roundtrip l : Forall plain_info l -> parse_file (Some (print_config l)) = Some l.
Proof.
  intros Hl. cbn [parse_file]. unfold print_config. rewrite lines_concat.
  - enough (forall acc, parse_lines (l ≫= section_lines) acc = Some (acc ++ l)) as -> by done.
    induction Hl as [|i l Hi _ IH]; intros acc; cbn [mbind list_bind parse_lines]; [by rewrite app_nil_r|].
    rewrite parse_section by done. rewrite IH. by rewrite <- app_assoc.
  - apply Forall_bind. eapply List.Forall_impl; [|exact Hl]. intros i Hi. constructor.
    { exists CONFIG_SESSION_KEY. split; [done|]. split; [by repeat constructor|unfold LINE_MAX; cbn; lia]. }
    apply Forall_fmap. apply Forall_forall. intros [k f] Hin. cbn [fst snd].
    destruct (plain_fields i Hi f) as (Hlen & Hv & _). exists (k ++ [SP; EQUALS; SP] ++ field_text i f).
    assert (Forall (fun c => c <> NL) k /\ (length k < 30)%nat) as [Hk Hkl].
    { unfold matchtab in Hin. repeat (apply elem_of_cons in Hin as [[= -> ->]|Hin]; [split; [by repeat constructor|cbn; lia]|]).
      by apply not_elem_of_nil in Hin. }
    split; [unfold line; by rewrite <- !app_assoc|]. split.
    + rewrite !Forall_app. split_and!; [done|by repeat constructor|]. eapply List.Forall_impl; [|exact Hv]. by intros c (_ & Hc & _).
    + rewrite !length_app. unfold LINE_MAX. cbn [length]. lia.
Qed.

(** A quoted value is read without its first quote but with its last, and
    with the spaces after it: the search for the end of the value looks for
    spaces and a quote first and only then for the end of the line, so that on a
    line that ends in a newline it removes the newline only.  A driver name in
    quotes gives a module that insmod does not find. *)
Theorem quoted_value_keeps_quote k v (sp : nat) : proper k = true -> plain_value v -> (length v + sp < 254)%nat ->
  search_key_val (k ++ [SP; EQUALS; SP] ++ [QUOTE] ++ (v ++ [QUOTE] ++ replicate sp SP) ++ [NL]) k
  = Some (Some (v ++ [QUOTE] ++ replicate sp SP)).
Proof.
  intros Hk Hv Hl. apply search_value; [done|done|done| |].
  - rewrite !length_app, length_replicate. cbn. lia.
  - rewrite (app_assoc [SP; EQUALS; SP] [QUOTE]), (app_assoc k), value_end_newline; [rewrite !length_app; cbn; f_equal; lia| |].
    + intros (w & c & E & H). apply (f_equal last) in E. rewrite last_snoc in E. destruct sp as [|sp].
      * change ([QUOTE] ++ replicate 0 SP) with [QUOTE] in E. rewrite last_snoc in E. injection E as <-. by destruct H.
      * rewrite replicate_S_end, !app_assoc, last_snoc in E. injection E as <-. by destruct H.
    + intros _. by rewrite last_app.
Qed.

(** ** The table *)

Lemma wifi_list_plain vq0 : Forall plain_info (wifi_list vq0).
Proof.
  unfold wifi_list, entry. destruct vq0; repeat (constructor; [split_and!; cbn; try lia|]); try done.
  all: eexists; split; [reflexivity|]; split_and!; [cbn; lia|apply (bool_decide_unpack _); by vm_compute|done|done].
Qed.

Lemma config_file_roundtrip_witness :
  Forall plain_info (wifi_list true) /\ parse_file (Some (print_config (wifi_list true))) = Some (wifi_list true).
Proof. split; [apply wifi_list_plain|]. apply (config_file_roundtrip (wifi_list true)), wifi_list_plain. Defined.

Lemma quoted_value_keeps_quote_witness :
  plain_value (bytes "8723ds") /\
  search_key_val (bytes "driver_name" ++ [SP; EQUALS; SP] ++ [QUOTE] ++ (bytes "8723ds" ++ [QUOTE] ++ replicate 0 SP) ++ [NL])
    (bytes "driver_name") = Some (Some (bytes "8723ds" ++ [QUOTE] ++ replicate 0 SP)).
Proof.
  assert (plain_value (bytes "8723ds")) as H.
  { split_and!; [cbn; lia|apply (bool_decide_unpack _); by vm_compute|done|done]. }
  split; [done|]. apply (quoted_value_keeps_quote (bytes "driver_name") (bytes "8723ds") 0); [reflexivity|done|cbn; lia].
Defined.

End HwConf.
