(* ===== verification/HwDetect.v ===== *)
(** * The detection of the wireless chip (wireless/hwinfo/libhwinfo.c, second half)

    The chip is looked up by the identifier that a property keeps from an earlier
    run, by the devices already on the SDIO and USB buses, or by the kernel's
    messages after the chip is powered on.  What the kernel answers is the record
    [world]; the property service of the system is the class [PropStore] with its
    laws.  [None] is undefined behaviour. *)

From stdpp Require Import base tactics option list list_numbers numbers gmap.
From Stdlib Require Import ZArith Lia.
From Stdlib Require String.
From S2P Require Import Prelude CString HwInfo.

Import String.StringSyntax.
Import CString HwInfo.

Local Open Scope Z_scope.
Local Open Scope list_scope.
Local Open Scope c_scope.

Module HwDetect.

(** ** Properties of the system

    [property_get] gives the empty text for a property that is not set, the
    length of which is 0; values are shorter than [PROPERTY_VALUE_MAX]. *)
Class PropStore (P : Type) := {
  property_get : list Z -> P -> list Z;
  property_set : list Z -> list Z -> P -> P
}.

Definition PROPERTY_VALUE_MAX : nat := 92.

Class PropLaws (P : Type) `{!PropStore P} : Prop := {
  get_set_same k v p : (length v < PROPERTY_VALUE_MAX)%nat -> property_get k (property_set k v p) = v;
  get_set_other k k' v p : k <> k' -> property_get k (property_set k' v p) = property_get k p
}.

#[export] Instance map_props : PropStore (gmap (list Z) (list Z)) := {|
  property_get k p := default [] (p !! k);
  property_set k v p := if (length v <? PROPERTY_VALUE_MAX)%nat then <[k := v]> p else p
|}.

#[export] Instance map_props_laws : PropLaws (gmap (list Z) (list Z)).
Proof.
  split; unfold property_get, property_set, map_props.
  - intros k v p H. rewrite (proj2 (Nat.ltb_lt _ _)) by done. by rewrite lookup_insert_eq.
  - intros k k' v p Hk. destruct (_ <? _)%nat; [|done]. by rewrite lookup_insert_ne.
Qed.

Definition PROP_PREFIX : list Z := bytes "persist.log.tag.".
Definition MODULE_MODULE_INFO_PROP : list Z := PROP_PREFIX ++ bytes "module_info".
Definition MODULE_WLAN_VENDOR_PROP : list Z := PROP_PREFIX ++ bytes "wlan_vendor".
Definition MODULE_BT_VENDOR_PROP : list Z := PROP_PREFIX ++ bytes "bluetooth_vendor".
Definition MODULE_BT_SUPPORT_PROP : list Z := PROP_PREFIX ++ bytes "bluetooth_support".

(** ** What the kernel answers *)

(** An entry of a directory of devices: its name, whether it can be opened as a
    directory, and the text of its uevent file ([None]: it cannot be read). *)
Record dirent := mkDirent { d_name : list Z; can_open : bool; uevent : option (list Z) }.

(** One attempt of [wifi_power_on]: the open, the first read, the write and the
    second read; [None] is a read that fails or returns nothing. *)
Record power := mkPower { p_open : bool; p_read1 : option Z; p_write : bool; p_read2 : option Z }.

(** One write to a control file: the open and the write. *)
Record ctl := mkCtl { c_open : bool; c_write : bool }.

(** [None] for a directory that cannot be opened.  [uevents]: the messages the
    listening thread receives before the main one takes its result. *)
Record world := mkWorld {
  sdio_devices : option (list dirent);
  usb_devices : option (list dirent);
  create_ok : bool;
  powers : nat -> power;
  scan_on : ctl;
  power_off : ctl;
  scan_off : ctl;
  uevents : list (list Z)
}.

Inductive thread_st := running | exiting | exited.

(** The static pointer to the chip in use: NULL, [hwinfo_default], a node. *)
Inductive wifi_ptr := W_null | W_default | W_entry (p : Z).

Definition hwinfo_default : wifi_hardware_info := entry 1 0xFFFFFFFF "invalid" "invalid" "invalid" "none" 0.

(** [sysfs]: the control files written, in order. *)
Inductive ctl_file := Power_state | Scan_device.

Record dev (P : Type) := mkDev {
  chips : st;
  list_head : Z;
  wifiinfo : wifi_ptr;
  props : P;
  env : gmap (list Z) (list Z);
  module_arg : list Z;
  thread_state : thread_st;
  sysfs : list (ctl_file * Z);
  open_fds : Z
}.
Arguments mkDev {P}.
Arguments chips {P}.
Arguments list_head {P}.
Arguments wifiinfo {P}.
Arguments props {P}.
Arguments env {P}.
Arguments module_arg {P}.
Arguments thread_state {P}.
Arguments sysfs {P}.
Arguments open_fds {P}.

Definition UEVENT_MSG_LEN : nat := 1024.

(** ** Device identifiers *)

(** The two parts of an identifier, joined and read as one hexadecimal number.
    [uevent_id] holds nine characters of it. *)
Definition join_ids (delim : Z) (id : list Z) : option Z :=
  match strtok delim (take 9 id) with
  | None => None
  | Some (subid, r) =>
      match strtok delim r with
      | None => None
      | Some (subid', _) => Some (strtoul 16 (subid ++ subid'))
      end
  end.

(** The loop over the text of a uevent file: at the first key it meets, the bus
    and the device; [None]: [bus_type] stays -1. *)
Fixpoint scan_uevent (buf : list Z) : option (Z * Z) :=
  match buf with
  | [] => None
  | _ :: t =>
      if starts (bytes "SDIO_ID=") buf then (fun id => (1, id)) <$> join_ids COLON (drop 8 buf)
      else if starts (bytes "PRODUCT=") buf then (fun id => (0, id)) <$> join_ids SLASH (drop 8 buf)
      else scan_uevent t
  end.

(** The strings of a message, each ended by a NUL, up to an empty one. *)
Fixpoint msg_strings (fuel : nat) (msg : list Z) : list (list Z) :=
  match fuel with
  | O => []
  | S fuel =>
      match cstr msg with
      | [] => []
      | s => s :: msg_strings fuel (drop (S (length s)) msg)
      end
  end.

(** [subsystem] and [uevent_id] after the loop over the strings; [None] is a
    null pointer, and the text of no identifier is empty. *)
Definition uevent_field (acc : option (list Z) * list Z) (s : list Z) : option (list Z) * list Z :=
  if starts (bytes "SUBSYSTEM=") s then (Some (drop 10 s), snd acc)
  else if starts (bytes "SDIO_ID=") s then (fst acc, take 9 (drop 8 s))
  else if starts (bytes "PRODUCT=") s then (fst acc, take 9 (drop 8 s))
  else acc.

Section detect.
Context {P : Type} `{!PropStore P}.

Local Abbreviation DM := (M (dev P)).

Definition set_chips c (s : dev P) := mkDev c (list_head s) (wifiinfo s) (props s) (env s) (module_arg s) (thread_state s) (sysfs s) (open_fds s).
Definition set_head h (s : dev P) := mkDev (chips s) h (wifiinfo s) (props s) (env s) (module_arg s) (thread_state s) (sysfs s) (open_fds s).
Definition set_wifiinfo i (s : dev P) := mkDev (chips s) (list_head s) i (props s) (env s) (module_arg s) (thread_state s) (sysfs s) (open_fds s).
Definition set_props (p : P) (s : dev P) := mkDev (chips s) (list_head s) (wifiinfo s) p (env s) (module_arg s) (thread_state s) (sysfs s) (open_fds s).
Definition set_env e (s : dev P) := mkDev (chips s) (list_head s) (wifiinfo s) (props s) e (module_arg s) (thread_state s) (sysfs s) (open_fds s).
Definition set_module_arg a (s : dev P) := mkDev (chips s) (list_head s) (wifiinfo s) (props s) (env s) a (thread_state s) (sysfs s) (open_fds s).
Definition set_thread t (s : dev P) := mkDev (chips s) (list_head s) (wifiinfo s) (props s) (env s) (module_arg s) t (sysfs s) (open_fds s).
Definition set_sysfs l n (s : dev P) := mkDev (chips s) (list_head s) (wifiinfo s) (props s) (env s) (module_arg s) (thread_state s) l n.

(** The functions on the list of chips. *)
Definition on_chips {A} (m : M st A) : DM A := fun s =>
  match m (chips s) with Some (a, c) => Some (a, set_chips c s) | None => None end.

Definition lookup_chip (bus id : Z) : DM Z :=
  s <- get ;; on_chips (get_hardware_info_by_device_id (list_head s) bus id).

(** ** The control files *)

Definition write_ctl (f : ctl_file) (c : Z) : DM unit := modify (fun s => set_sysfs (sysfs s ++ [(f, c)]) (open_fds s) s).

(** [store_state - '0'] of an unsigned character. *)
Definition wifi_power_on (a : power) : DM Z :=
  if negb (p_open a) then ret (-1) else
  modify (fun s => set_sysfs (sysfs s) (open_fds s + 1) s) ;;;
  let close : DM unit := modify (fun s => set_sysfs (sysfs s) (open_fds s - 1) s) in
  match p_read1 a with
  | None => close ;;; ret (-1)
  | Some store_state =>
      if 0 <? store_state - 48 then ret 1 else
      if negb (p_write a) then close ;;; ret (-1) else
      write_ctl Power_state 49 ;;;
      match p_read2 a with
      | None => close ;;; ret (-1)
      | Some store_state => close ;;; ret (store_state - 48)
      end
  end.

Definition write_file (f : ctl_file) (c : Z) (a : ctl) : DM Z :=
  if negb (c_open a) then ret (-1) else
  if negb (c_write a) then ret (-1) else write_ctl f c ;;; ret 0.

Definition wifi_power_off : ctl -> DM Z := write_file Power_state 48.
Definition wifi_scan_device (val : Z) : ctl -> DM Z := write_file Scan_device (if val =? 0 then 48 else 49).

(** ** Devices on the buses *)

Fixpoint do_coldboot (d : list dirent) : DM Z :=
  match d with
  | [] => ret NULL
  | de :: d =>
      if first (d_name de) =? 46 then do_coldboot d else
      if negb (can_open de) then do_coldboot d else
      match scan_uevent (cstr (take UEVENT_MSG_LEN (default [] (uevent de)))) with
      | None => do_coldboot d
      | Some (bus_type, device_id) =>
          p <- lookup_chip bus_type device_id ;;
          if p =? NULL then do_coldboot d else ret p
      end
  end.

Definition coldboot (d : option (list dirent)) : DM Z := match d with Some d => do_coldboot d | None => ret NULL end.

(** ** Messages of the kernel *)

Definition parse_uevent (msg : list Z) : DM Z :=
  match foldl uevent_field (None, []) (msg_strings (length msg) msg) with
  | (None, _) => stuck
  | (Some subsystem, uevent_id) =>
      let found bus_type device_id :=
        p <- lookup_chip bus_type device_id ;;
        if p =? NULL then ret NULL else modify (set_thread exiting) ;;; ret p in
      if starts (bytes "sdio") subsystem then
        match join_ids COLON uevent_id with None => ret NULL | Some device_id => found 1 device_id end
      else if starts (bytes "usb") subsystem then
        match join_ids SLASH uevent_id with None => ret NULL | Some device_id => found 0 device_id end
      else ret NULL
  end.

(** The loop of [ls_device_thread]: what it leaves at its argument, for the
    messages it gets. *)
Fixpoint ls_device_loop (msgs : list (list Z)) (info : Z) : DM Z :=
  s <- get ;;
  match thread_state s with
  | running =>
      match msgs with
      | [] => ret info
      | msg :: msgs =>
          let buf := take UEVENT_MSG_LEN msg in
          if (length buf =? 0)%nat then ls_device_loop msgs info else
          p <- parse_uevent buf ;; ls_device_loop msgs p
      end
  | _ => modify (set_thread exited) ;;; ret info
  end.

Definition ls_device_thread (msgs : list (list Z)) : DM Z :=
  modify (set_thread running) ;;; ls_device_loop msgs NULL.

(** ** The chip in use *)

(** [strchr] for a colon, and the text after it. *)
Definition after_colon (s : list Z) : option (list Z) :=
  match drop_while (fun c => negb (c =? COLON)) s with _ :: t => Some t | [] => None end.

(** [%s:%s:0x%lx:0x%08lx], as long as the buffer. *)
Definition print_info (vendor module : list Z) (bus id : Z) : list Z :=
  take (PROPERTY_VALUE_MAX - 1)
    (vendor ++ [COLON] ++ module ++ [COLON; 48; 120] ++ printx bus ++ [COLON; 48; 120] ++ hexn false (8 `max` hexlen id) id).

(** The bus and the device of the property. *)
Definition parse_info (info : list Z) : option (Z * Z) :=
  match info with
  | [] => None
  | _ =>
      p ← after_colon info; p ← after_colon p; q ← after_colon p; Some (strtoul 0 p, strtoul 0 q)
  end.

(** [for (i = 0; (i++ < 10) && (store_power_state <= 0); i++)]: [i] grows twice
    a turn. *)
Fixpoint power_loop (fuel : nat) (answers : nat -> power) (i state : Z) : DM Z :=
  if (i <? 10) && (state <=? 0) then
    match fuel with
    | O => stuck
    | S fuel =>
        state <- wifi_power_on (answers O) ;;
        if state =? 1 then ret state else power_loop fuel (fun n => answers (S n)) (i + 1 + 1) state
    end
  else ret state.

(** From the label [detect] to [done]. *)
Definition detect (w : world) : DM Z :=
  modify (fun s => set_props (property_set MODULE_MODULE_INFO_PROP [] (props s)) s) ;;;
  p <- coldboot (sdio_devices w) ;;
  if negb (p =? NULL) then ret p else
  p <- coldboot (usb_devices w) ;;
  if negb (p =? NULL) then ret p else
  if negb (create_ok w) then ret NULL else
  store_power_state <- power_loop 10 (powers w) 0 0 ;;
  if store_power_state <=? 0 then ret NULL else
  wifi_scan_device 1 (scan_on w) ;;;
  info_addr <- ls_device_thread (uevents w) ;;
  modify (fun s => match thread_state s with running => set_thread exiting s | _ => s end) ;;;
  wifi_power_off (power_off w) ;;;
  wifi_scan_device 0 (scan_off w) ;;;
  ret info_addr.

Definition prop_set (k v : list Z) : DM unit := modify (fun s => set_props (property_set k v (props s)) s).
Definition setenv (k v : list Z) : DM unit := modify (fun s => set_env (<[k := v]> (env s)) s).

(** A string that is read through its pointer. *)
Definition str {A} (s : option (list Z)) (k : list Z -> DM A) : DM A := match s with Some v => k v | None => stuck end.

(** From [done], for a chip that is found. *)
Definition save_info (i : wifi_hardware_info) : DM unit :=
  s <- get ;;
  match property_get MODULE_MODULE_INFO_PROP (props s) with
  | [] =>
      str (vendor_name i) (fun vendor => str (module_name i) (fun module =>
      prop_set MODULE_MODULE_INFO_PROP (print_info vendor module (bus_type i) (device_id i)) ;;;
      prop_set MODULE_WLAN_VENDOR_PROP vendor ;;;
      prop_set MODULE_BT_VENDOR_PROP (if bt_support i =? 0 then bytes "NULL" else vendor) ;;;
      prop_set MODULE_BT_SUPPORT_PROP (if bt_support i =? 0 then bytes "0" else bytes "1")))
  | _ => ret tt
  end.

Definition set_environment (i : wifi_hardware_info) : DM unit :=
  str (module_name i) (setenv (bytes "module_name")) ;;;
  str (driver_name i) (setenv (bytes "driver_name")) ;;;
  str (driver_module_name i) (setenv (bytes "driver_module_name")) ;;;
  str (vendor_name i) (setenv (bytes "vendor_name")).

(** The chip of the property, or one that is detected. *)
Definition cached_or_detect (w : world) : DM Z :=
  s <- get ;;
  match parse_info (property_get MODULE_MODULE_INFO_PROP (props s)) with
  | None => detect w
  | Some (bus, id) => p <- lookup_chip bus id ;; if p =? NULL then detect w else ret p
  end.

Definition load_chips (l : list wifi_hardware_info) (file : option (list Z)) : DM unit :=
  h <- on_chips (load_merged_config l file) ;; modify (set_head h).

Definition found_chip (p : Z) : DM wifi_ptr :=
  if p =? NULL then modify (set_wifiinfo W_default) ;;; ret W_default else
  modify (set_wifiinfo (W_entry p)) ;;;
  n <- on_chips (deref p) ;;
  save_info (hwinfo n) ;;;
  set_environment (hwinfo n) ;;;
  ret (W_entry p).

(** [l]: the built-in table; [file]: the configuration file. *)
Definition get_wifi_hardware_info (l : list wifi_hardware_info) (file : option (list Z)) (w : world) : DM wifi_ptr :=
  s <- get ;;
  match wifiinfo s with
  | W_default => p <- detect w ;; found_chip p
  | W_null => load_chips l file ;;; p <- cached_or_detect w ;; found_chip p
  | W_entry p => n <- on_chips (deref p) ;; set_environment (hwinfo n) ;;; ret (W_entry p)
  end.

Definition deref_info (i : wifi_ptr) : DM wifi_hardware_info :=
  match i with
  | W_null => stuck
  | W_default => ret hwinfo_default
  | W_entry p => n <- on_chips (deref p) ;; ret (hwinfo n)
  end.

(** ** The questions of other components *)

Section accessors.
Variables (l : list wifi_hardware_info) (file : option (list Z)) (w : world).

Definition current_info : DM wifi_hardware_info := i <- get_wifi_hardware_info l file w ;; deref_info i.

Definition get_wifi_vendor_name : DM (option (list Z)) := i <- current_info ;; ret (vendor_name i).
Definition get_wifi_module_name : DM (option (list Z)) := i <- current_info ;; ret (module_name i).
Definition get_wifi_driver_name : DM (option (list Z)) := i <- current_info ;; ret (driver_name i).
Definition get_wifi_driver_module_name : DM (option (list Z)) := i <- current_info ;; ret (driver_module_name i).
Definition get_bluetooth_is_support : DM Z := i <- current_info ;; ret (bt_support i).

Definition wifi_hal_name : list (list Z * list Z) :=
  [(bytes "broadcom", bytes "libwifi-hal-bcm.so"); (bytes "realtek", bytes "libwifi-hal-rtk.so");
   (bytes "xradio", bytes "libwifi-hal-xradio.so"); (bytes "qualcomm", bytes "libwifi-hal-qcom.so");
   (bytes "ssv", bytes "libwifi-hal-ssv.so"); (bytes "atbm", bytes "libwifi-hal-atbm.so");
   (bytes "sprd", bytes "libwifi-hal-sprd.so"); (bytes "aic", bytes "libwifi-hal-aic.so")].

Definition libbt_name : list (list Z * list Z) :=
  [(bytes "broadcom", bytes "libbt-broadcom.so"); (bytes "realtek", bytes "libbt-realtek.so");
   (bytes "xradio", bytes "libbt-xradio.so"); (bytes "qualcomm", bytes "libbt-qualcomm.so");
   (bytes "sprd", bytes "libbt-sprd.so"); (bytes "aic", bytes "libbt-aic.so")].

(** The first vendor that the name is a beginning of. *)
Definition by_vendor {A} (tab : list (list Z * A)) (vendor : list Z) : option A :=
  snd <$> find (fun e => starts vendor (fst e)) tab.

Definition get_wifi_hal_name : DM (option (list Z)) :=
  vendor <- get_wifi_vendor_name ;; str vendor (fun vendor => ret (by_vendor wifi_hal_name vendor)).

Definition get_bluetooth_libbt_name : DM (option (list Z)) :=
  vendor <- get_wifi_vendor_name ;; str vendor (fun vendor => ret (by_vendor libbt_name vendor)).

End accessors.

End detect.
End HwDetect.
