(* ===== verification/HwExpand.v ===== *)
(** * The arguments of the driver module (wireless/hwinfo/libhwinfo.c)

    [get_driver_module_arg] takes the arguments of the chip's vendor and puts the
    values of the environment for the variables in them: the replacement of a
    string, the search for a variable, and the properties of both. *)

From stdpp Require Import base tactics option list list_numbers numbers gmap.
From Stdlib Require Import ZArith Lia.
From Stdlib Require String.
From S2P Require Import Prelude CString HwInfo HwDetect.

Import String.StringSyntax.
Import CString HwInfo HwDetect.

Local Open Scope Z_scope.
Local Open Scope list_scope.
Local Open Scope c_scope.

Module HwExpand.

(** ** Replacing a string *)

Fixpoint count_loop (fuel : nat) (ins rep : list Z) : nat :=
  match fuel with
  | O => O
  | S fuel =>
      match strstr ins rep with
      | None => O
      | Some off => S (count_loop fuel (drop (off + length rep) ins) rep)
      end
  end.

(** [s] with [nul] terminators at the end of what is written of a block of
    [size] bytes; undefined beyond it. *)
Definition push (size : nat) (result s : list Z) (nul : nat) : option (list Z) :=
  if (length result + length s + nul <=? size)%nat then Some (result ++ s) else None.

(** [while (count--)]; undefined when there is no occurrence left. *)
Fixpoint replace_loop (count size : nat) (result orig rep with_ : list Z) : option (list Z) :=
  match count with
  | O => push size result orig 1
  | S count =>
      len_front ← strstr orig rep;
      r ← push size result (take len_front orig) 0;
      r ← push size r with_ 1;
      replace_loop count size r (drop (len_front + length rep) orig) rep with_
  end.

(** [Some None] is the result NULL; a value that is not set is empty. *)
Definition str_replace (orig rep : list Z) (with_ : option (list Z)) : option (option (list Z)) :=
  if (length rep =? 0)%nat then Some None else
  let with_ := default [] with_ in
  let count := count_loop (S (length orig)) orig rep in
  let size := Z.of_nat (length orig) + (Z.of_nat (length with_) - Z.of_nat (length rep)) * Z.of_nat count + 1 in
  Some <$> replace_loop count (Z.to_nat size) [] orig rep with_.

(** ** Finding a variable *)

Definition DOLLAR : Z := 36.
Definition LBRACE : Z := 123.
Definition RBRACE : Z := 125.

(** The pattern [\$\{[^}]+\}] at the start of the text: its length. *)
Definition var_at (l : list Z) : option nat :=
  match l with
  | d :: b :: r =>
      let name := take_while (fun c => negb (c =? RBRACE)) r in
      if (d =? DOLLAR) && (b =? LBRACE) && (0 <? length name)%nat && (length name <? length r)%nat
      then Some (length name + 3)%nat else None
  | _ => None
  end.

(** The first place where it matches, and how long. *)
Fixpoint regexec (l : list Z) : option (nat * nat) :=
  match var_at l with
  | Some len => Some (O, len)
  | None => match l with [] => None | _ :: t => (fun r => (S (fst r), snd r)) <$> regexec t end
  end.

(** The arrays [matchstr] and [env_name]. *)
Definition NAME_SIZE : nat := 32.

(** The loop over the matches: the last text that was written to [expand]. *)
Fixpoint expand_loop (fuel : nat) (env : gmap (list Z) (list Z)) (size : nat) (orig : list Z) (expand : option (list Z))
    : option (option (list Z)) :=
  match fuel with
  | O => None
  | S fuel =>
      match regexec orig with
      | None => Some expand
      | Some (so, len) =>
          let matchstr := take len (drop so orig) in
          if (NAME_SIZE <=? len)%nat then None else
          let env_name := take (len - 3) (drop (so + 2) orig) in
          out ← str_replace orig matchstr (env !! env_name);
          match out with
          | Some out => if (size <=? length out)%nat then None else expand_loop fuel env size out (Some out)
          | None => expand_loop fuel env size orig expand
          end
      end
  end.

(** [expand] is an array: the text and a NUL when something was expanded, the
    text alone otherwise.  The result is the array. *)
Definition str_expand (env : gmap (list Z) (list Z)) (text expand : list Z) : option (list Z) :=
  r ← expand_loop (S (length text)) env (length expand) text None;
  match r with
  | Some out => Some (out ++ [0] ++ drop (S (length out)) expand)
  | None => if (length expand <? length text)%nat then None else Some (text ++ drop (length text) expand)
  end.

(** ** The arguments *)

Definition wifi_drv_para : list (list Z * list (list Z)) :=
  [(bytes "broadcom",
     [bytes "nvram_path=/vendor/etc/firmware/nvram_${module_name}.txt";
      bytes "config_path=/vendor/etc/firmware/config_${module_name}.txt"]);
   (bytes "realtek", [bytes "ifname=wlan0 if2name=p2p0"]);
   (bytes "ssv", [bytes "stacfgpath=/vendor/etc/firmware/${module_name}/${module_name}-wifi.cfg"])].

(** The buffer, its last space taken off. *)
Definition join_args (infos : list (list Z)) : list Z := removelast (concat ((fun i => i ++ [SP]) <$> infos)).

(** [module_arg] is the static array; the result points to it. *)
Definition get_driver_module_arg {P} `{!PropStore P} l file w : M (dev P) unit :=
  i <- current_info l file w ;;
  str (vendor_name i) (fun vendor =>
  match by_vendor wifi_drv_para vendor with
  | None => ret tt
  | Some infos =>
      s <- get ;;
      if (1024 <=? length (concat ((fun i => i ++ [SP]) <$> infos)))%nat then stuck else
      match str_expand (env s) (join_args infos) (module_arg s) with
      | None => stuck
      | Some a => modify (set_module_arg a)
      end
  end).

(** ** Lemmas *)

Lemma drop_past (a r b : list Z) : drop (length a + length r) (a ++ r ++ b) = b.
Proof. by rewrite app_assoc, <- length_app, drop_app_length. Qed.

Lemma push_ok size r s n : (length r + length s + n <= size)%nat -> push size r s n = Some (r ++ s).
Proof. intros H. unfold push. by rewrite (proj2 (Nat.leb_le _ _)). Qed.

(** *** The reference *)

(** The text with every occurrence replaced, from the left. *)
Fixpoint replace_all (fuel : nat) (l rep with_ : list Z) : list Z :=
  match fuel with
  | O => l
  | S fuel =>
      match strstr l rep with
      | None => l
      | Some off => take off l ++ with_ ++ replace_all fuel (drop (off + length rep) l) rep with_
      end
  end.

Lemma replace_loop_run rep with_ fuel : rep <> [] -> forall l result size, (length l < fuel)%nat ->
  (length result + length (replace_all fuel l rep with_) + 1 <= size)%nat ->
  replace_loop (count_loop fuel l rep) size result l rep with_ = Some (result ++ replace_all fuel l rep with_).
Proof.
  intros Hrep. induction fuel as [|fuel IH]; intros l result size Hl Hs; [lia|].
  cbn [count_loop replace_all] in *. destruct (strstr l rep) as [off|] eqn:E; cbn [replace_loop].
  2: { by apply push_ok. }
  rewrite E. cbn [mbind option_bind]. destruct (strstr_some _ _ _ E) as (a & b & -> & <-).
  rewrite take_app_length, drop_past in *. rewrite !length_app in Hs, Hl.
  rewrite push_ok by lia. cbn [mbind option_bind]. rewrite push_ok by (rewrite length_app; lia). cbn [mbind option_bind].
  rewrite IH; [by rewrite <- !app_assoc| |].
  - assert (0 < length rep)%nat by (destruct rep; [done|cbn; lia]). lia.
  - rewrite !length_app. lia.
Qed.

Lemma replace_all_length fuel l rep with_ :
  Z.of_nat (length (replace_all fuel l rep with_)) =
  Z.of_nat (length l) + (Z.of_nat (length with_) - Z.of_nat (length rep)) * Z.of_nat (count_loop fuel l rep).
Proof.
  revert l. induction fuel as [|fuel IH]; intros l; cbn [replace_all count_loop]; [lia|].
  destruct (strstr l rep) as [off|] eqn:E; [|lia]. destruct (strstr_some _ _ _ E) as (a & b & -> & <-).
  rewrite take_app_length, drop_past, !length_app.
  rewrite !Nat2Z.inj_add, IH, Nat2Z.inj_succ. lia.
Qed.

(** [str_replace] writes only inside the block it allocates, the size of
    which is exactly the length of the result and its terminator, and the result
    is the text with every occurrence of [rep], found from the left, replaced. *)
Theorem str_replace_exact orig rep with_ : rep <> [] ->
  str_replace orig rep with_ = Some (Some (replace_all (S (length orig)) orig rep (default [] with_))).
Proof.
  intros Hrep. unfold str_replace. rewrite (proj2 (Nat.eqb_neq _ _)) by (by destruct rep).
  rewrite (replace_loop_run rep _ _ Hrep _ []); [done|lia|].
  rewrite <- replace_all_length. cbn [length]. lia.
Qed.

Lemma str_replace_exact_witness :
  bytes "a" <> [] /\
  str_replace (bytes "banana") (bytes "a") (Some (bytes "oo")) = Some (Some (bytes "boonoonoo")).
Proof.
  split; [done|]. rewrite (str_replace_exact (bytes "banana") (bytes "a") (Some (bytes "oo"))); [|done].
  vm_compute. reflexivity.
Defined.

(** *** Variables *)

Lemma regexec_none l : Forall (fun c => c <> DOLLAR) l -> regexec l = None.
Proof.
  intros H. induction H as [|c l Hc _ IH]; [done|]. cbn [regexec]. rewrite IH.
  assert (var_at (c :: l) = None) as ->; [|done]. destruct l as [|b r]; [done|]. cbn [var_at].
  by rewrite (proj2 (Z.eqb_neq c DOLLAR)).
Qed.

(** A text in which one variable is the only one. *)
Lemma str_expand_one env text so len m out expand :
  regexec text = Some (so, len) -> (len < NAME_SIZE)%nat -> (0 < len)%nat -> (length (take len (drop so text)) = len)%nat ->
  env !! take (len - 3) (drop (so + 2) text) = Some m ->
  replace_all (S (length text)) text (take len (drop so text)) m = out ->
  Forall (fun c => c <> DOLLAR) out -> (length out < length expand)%nat ->
  str_expand env text expand = Some (out ++ [0] ++ drop (S (length out)) expand).
Proof.
  intros Hre Hlen Hpos Hl Henv Hout Hd Hs. unfold str_expand.
  assert (text <> []) as Hne by (by intros ->).
  destruct (length text) as [|n] eqn:El; [by destruct text|]. cbn [expand_loop]. rewrite Hre.
  rewrite (proj2 (Nat.leb_gt _ _)) by lia. rewrite Henv, str_replace_exact; [|intros E; rewrite E in Hl; cbn in Hl; lia].
  rewrite <- El in Hout. cbn [mbind option_bind default]. unfold id. rewrite Hout, (proj2 (Nat.leb_gt _ _)) by lia.
  by rewrite (regexec_none _ Hd).
Qed.

Lemma str_expand_none env text expand : Forall (fun c => c <> DOLLAR) text -> (length text <= length expand)%nat ->
  str_expand env text expand = Some (text ++ drop (length text) expand).
Proof.
  intros Hd Hl. unfold str_expand. cbn [expand_loop]. rewrite regexec_none by done. cbn [mbind option_bind].
  by rewrite (proj2 (Nat.ltb_ge _ _)).
Qed.

(** *** The chip in use *)

Lemma current_info_entry {P} `{!PropStore P} l file w (s : dev P) p q i m d k v :
  wifiinfo s = W_entry p -> heap (chips s) !! p = Some (mkNode i q) ->
  module_name i = Some m -> driver_name i = Some d -> driver_module_name i = Some k -> vendor_name i = Some v ->
  current_info l file w s = Some (i, set_env (<[bytes "vendor_name" := v]> (<[bytes "driver_module_name" := k]>
    (<[bytes "driver_name" := d]> (<[bytes "module_name" := m]> (env s))))) s).
Proof.
  intros Hw Hp Hm Hd Hk Hv. destruct s as [[c b] h wi pr e a t y o]. cbn in *. subst wi.
  unfold current_info, get_wifi_hardware_info, deref_info, set_environment, str, on_chips, deref, get, bind. cbn.
  rewrite Hp. cbn. rewrite Hm, Hd, Hk, Hv. cbn. by rewrite Hp.
Qed.

Definition driver_args (m : list Z) : list (list Z * list Z) :=
  [(bytes "broadcom", bytes "nvram_path=/vendor/etc/firmware/nvram_" ++ m ++
      bytes ".txt config_path=/vendor/etc/firmware/config_" ++ m ++ bytes ".txt");
   (bytes "realtek", bytes "ifname=wlan0 if2name=p2p0");
   (bytes "ssv", bytes "stacfgpath=/vendor/etc/firmware/" ++ m ++ bytes "/" ++ m ++ bytes "-wifi.cfg")].

(** The array holds the text, with zeros after it. *)
Definition array_of (text : list Z) : list Z := text ++ replicate (1024 - length text) 0.

Lemma array_of_length text : (length text <= 1024)%nat -> length (array_of text) = 1024%nat.
Proof. intros H. unfold array_of. rewrite length_app, length_replicate. lia. Qed.

(** The lengths of constants. *)
Ltac eval_lengths :=
  repeat match goal with
  | |- context [length (bytes ?s)] => let n := eval vm_compute in (length (bytes s)) in change (length (bytes s)) with n
  end.

(** The pairs of a list, one after the other. *)
Ltac in_cases H :=
  repeat (apply elem_of_cons in H as [H|H]; [apply pair_equal_spec in H as [-> ->]|]); [..|by apply not_elem_of_nil in H].

(** The text of a vendor's arguments is expanded, whatever the array held from
    an earlier call for the same chip. *)
Lemma expand_args env m v args old : (length m < 256)%nat -> Forall (fun c => c <> DOLLAR) m ->
  env !! bytes "module_name" = Some m -> (v, args) ∈ driver_args m -> old = [] \/ old = args -> exists infos,
  by_vendor wifi_drv_para v = Some infos /\ (length (concat ((fun i => i ++ [SP]) <$> infos)) < 1024)%nat /\
  str_expand env (join_args infos) (array_of old) = Some (array_of args).
Proof.
  intros Hm Hd Henv Hin Hold.
  assert ((length args < 1024)%nat) as Hargs.
  { unfold driver_args in Hin. in_cases Hin.
    all: rewrite ?length_app; eval_lengths; lia. }
  assert (length (array_of old) = 1024%nat) as Hlen by (apply array_of_length; destruct Hold as [->| ->]; cbn; lia).
  assert (args ++ [0] ++ drop (S (length args)) (array_of old) = array_of args) as Harr.
  { unfold array_of. f_equal. destruct Hold as [->| ->].
    - cbn [app]. rewrite drop_replicate. change (0 :: ?x) with (replicate 1 0 ++ x). rewrite <- replicate_add. f_equal. cbn. lia.
    - rewrite drop_app_ge by lia. rewrite drop_replicate. change ([0] ++ ?x) with (replicate 1 0 ++ x).
      rewrite <- replicate_add. f_equal. lia. }
  unfold driver_args in Hin. in_cases Hin.
  - exists (default [] (by_vendor wifi_drv_para (bytes "broadcom"))). split; [reflexivity|]. split; [vm_compute; lia|].
    rewrite (str_expand_one env _ 38 14 m (bytes "nvram_path=/vendor/etc/firmware/nvram_" ++ m ++
      bytes ".txt config_path=/vendor/etc/firmware/config_" ++ m ++ bytes ".txt"));
      [by rewrite Harr|reflexivity|unfold NAME_SIZE; lia|lia|reflexivity|exact Henv|reflexivity| |lia].
    rewrite !Forall_app. split_and!; try done; by repeat constructor.
  - exists (default [] (by_vendor wifi_drv_para (bytes "realtek"))). split; [reflexivity|]. split; [vm_compute; lia|].
    rewrite str_expand_none by (by repeat constructor || by (rewrite Hlen; vm_compute; lia)).
    f_equal. unfold array_of at 2. destruct Hold as [->| ->]; reflexivity.
  - exists (default [] (by_vendor wifi_drv_para (bytes "ssv"))). split; [reflexivity|]. split; [vm_compute; lia|].
    rewrite (str_expand_one env _ 32 14 m (bytes "stacfgpath=/vendor/etc/firmware/" ++ m ++ bytes "/" ++ m ++ bytes "-wifi.cfg"));
      [by rewrite Harr|reflexivity|unfold NAME_SIZE; lia|lia|reflexivity|exact Henv|reflexivity| |lia].
    rewrite !Forall_app. split_and!; try done; by repeat constructor.
Qed.

(** [get_driver_module_arg] for the chip in use, of one of the three vendors
    that take arguments and with a name that fits on a line of the configuration
    file: nothing is written outside an array, all variables are expanded to the
    name of the chip's module, and the result is the same text again when the
    function is called again with what the static array holds by then. *)
Theorem driver_args_spec {P} `{!PropStore P} l file w (s : dev P) p q i m d k v args old :
  wifiinfo s = W_entry p -> heap (chips s) !! p = Some (mkNode i q) ->
  module_name i = Some m -> driver_name i = Some d -> driver_module_name i = Some k -> vendor_name i = Some v ->
  (length m < 256)%nat -> Forall (fun c => c <> DOLLAR /\ c <> 0) m -> (v, args) ∈ driver_args m ->
  module_arg s = array_of old -> old = [] \/ old = args -> exists s',
  get_driver_module_arg l file w s = Some (tt, s') /\ module_arg s' = array_of args /\ cstr (module_arg s') = args.
Proof.
  intros Hw Hp Hm Hd Hk Hv Hlm Hc Hin Ha Hold. unfold get_driver_module_arg.
  rewrite (bind_some _ _ _ _ _ (current_info_entry l file w s p q i m d k v Hw Hp Hm Hd Hk Hv)).
  set (e := <[bytes "vendor_name" := v]> _). rewrite Hv. cbn [str].
  assert (Forall (fun c => c <> DOLLAR) m) as Hdl by (eapply List.Forall_impl; [|exact Hc]; by intros c [? _]).
  assert (e !! bytes "module_name" = Some m) as He.
  { unfold e. rewrite !lookup_insert_ne by (intros H; vm_compute in H; discriminate H). apply lookup_insert_eq. }
  destruct (expand_args e m v args old Hlm Hdl He Hin Hold) as (infos & Ei & Hi & Ee).
  rewrite Ei. unfold bind, get. cbn [module_arg set_env env]. rewrite (proj2 (Nat.leb_gt _ _)) by lia.
  change (module_arg (set_env e s)) with (module_arg s). change (env (set_env e s)) with e.
  rewrite Ha, Ee. eexists. split; [done|]. split; [done|]. cbn. unfold array_of, cstr.
  assert (Forall (fun c => negb (c =? 0) = true) args) as H0.
  { assert (Forall (fun c => negb (c =? 0) = true) m) as Hm0.
    { eapply List.Forall_impl; [|exact Hc]. intros c [_ H0]. by rewrite (proj2 (Z.eqb_neq c 0) H0). }
    unfold driver_args in Hin. in_cases Hin. all: rewrite ?Forall_app; split_and?; try done; by repeat constructor. }
  destruct (1024 - length args)%nat; [by rewrite app_nil_r, take_while_all|].
  apply take_while_app; [done|by intros c [= <-]].
Qed.

Definition demo_info : wifi_hardware_info := entry 1 0x02d0a9a6 "ap6212" "bcmdhd" "bcmdhd" "broadcom" 1.

Definition demo_dev : dev (gmap (list Z) (list Z)) :=
  mkDev (mkSt {[ 1 := mkNode demo_info NULL ]} 2) 1 (W_entry 1) ∅ ∅ (array_of []) exited [] 0.

(** The chip is known already; the kernel is not asked. *)
Definition demo_mute : world :=
  mkWorld None None false (fun _ => mkPower false None false None) (mkCtl false false) (mkCtl false false) (mkCtl false false) [].

Lemma driver_args_spec_witness : exists s', get_driver_module_arg [] None demo_mute demo_dev = Some (tt, s') /\
  cstr (module_arg s') = bytes "nvram_path=/vendor/etc/firmware/nvram_ap6212.txt config_path=/vendor/etc/firmware/config_ap6212.txt".
Proof.
  destruct (driver_args_spec [] None demo_mute demo_dev 1 NULL demo_info (bytes "ap6212") (bytes "bcmdhd") (bytes "bcmdhd") (bytes "broadcom")
    (bytes "nvram_path=/vendor/etc/firmware/nvram_" ++ bytes "ap6212" ++
      bytes ".txt config_path=/vendor/etc/firmware/config_" ++ bytes "ap6212" ++ bytes ".txt") []) as (s' & E & _ & Hc).
  all: try reflexivity.
  - cbn. lia.
  - apply (bool_decide_unpack _). by vm_compute.
  - left.
  - by left.
  - exists s'. split; [exact E|]. rewrite Hc. reflexivity.
Defined.

End HwExpand.
