(* ===== verification/HwDetectThm.v ===== *)
(** * The right chip is detected

    Identifiers of devices, the property that keeps the chip over a restart, the
    attempts to power the chip on, and the thread that listens to the kernel. *)

From stdpp Require Import base tactics option list list_numbers numbers gmap fin_maps sets relations.
From Stdlib Require Import ZArith Lia.
From Stdlib Require String.
From S2P Require Import Prelude CString HwInfo HwInfoThm HwConf HwDetect HwExpand.

Import String.StringSyntax.
Import CString HwInfo HwInfoThm HwDetect.

Local Open Scope Z_scope.
Local Open Scope list_scope.
Local Open Scope c_scope.

Module HwDetectThm.

Lemma bind_modify {S B} (f : S -> S) (k : unit -> M S B) s : bind (modify f) k s = k tt (f s).
Proof. done. Qed.

(** ** Identifiers *)

Lemma hexn_app up n k v p : 0 <= v -> 0 <= p < 16 ^ Z.of_nat k ->
  hexn up (n + k) (v * 16 ^ Z.of_nat k + p) = hexn up n v ++ hexn up k p.
Proof.
  intros Hv Hp. assert (0 < 16 ^ Z.of_nat k) as Hk by lia.
  assert (forall m, (m <= k)%nat -> hexn up m (v * 16 ^ Z.of_nat k + p) = hexn up m p) as Hlow.
  { induction m as [|m IH]; intros Hm; [done|]. cbn [hexn]. rewrite IH by lia. do 2 f_equal.
    replace (16 ^ Z.of_nat k) with (16 * 16 ^ Z.of_nat (k - S m) * 16 ^ Z.of_nat m).
    2: { rewrite <- Z.pow_succ_r, <- Z.pow_add_r by lia. f_equal. lia. }
    set (A := 16 ^ Z.of_nat (k - S m)). assert (0 < 16 ^ Z.of_nat m) by lia.
    replace (v * (16 * A * 16 ^ Z.of_nat m)) with (v * A * 16 * 16 ^ Z.of_nat m) by ring.
    rewrite Z.div_add_l by lia. by rewrite Z.add_comm, Z.mod_add by lia. }
  induction n as [|n IH]; cbn [hexn plus app]; [by apply Hlow|]. rewrite IH. f_equal. do 2 f_equal.
  rewrite Nat2Z.inj_add, Z.pow_add_r by lia. rewrite (Z.mul_comm (16 ^ Z.of_nat n)), <- Z.div_div by lia.
  rewrite Z.div_add_l, (Z.div_small p) by lia. by rewrite Z.add_0_r.
Qed.

Lemma hexn_chars up n v c : c ∈ hexn up n v -> digit_val c < 16.
Proof.
  induction n as [|n IH]; cbn; [by intros ?%not_elem_of_nil|]. intros [->|H]%elem_of_cons; [|by apply IH].
  pose proof (Z.mod_pos_bound (v / 16 ^ Z.of_nat n) 16 ltac:(lia)). rewrite hexd_val; lia.
Qed.

Lemma hexn_not up n v d : 16 <= digit_val d -> Forall (fun c => c <> d) (hexn up n v).
Proof. intros Hd. apply Forall_forall. intros c Hc ->. apply hexn_chars in Hc. lia. Qed.

(** The text of an identifier: two numbers and what separates and follows them. *)
Lemma join_ids_hex up delim n k v p rest : 16 <= digit_val delim -> (0 < n)%nat -> (0 < k)%nat -> (n + k <= 8)%nat ->
  0 <= v < 16 ^ Z.of_nat n -> 0 <= p < 16 ^ Z.of_nat k -> first rest = delim \/ (n + k = 8)%nat ->
  join_ids delim (hexn up n v ++ [delim] ++ hexn up k p ++ rest) = Some (v * 16 ^ Z.of_nat k + p).
Proof.
  intros Hd Hn Hk Hnk Hv Hp Hrest. unfold join_ids.
  rewrite take_app_ge by (rewrite length_hexn; lia). rewrite length_hexn.
  destruct (9 - n)%nat as [|m] eqn:Em; [lia|]. cbn [app take].
  rewrite strtok_token; [|by intros E; apply (f_equal length) in E; rewrite length_hexn in E; cbn in E; lia|by apply hexn_not].
  rewrite take_app_ge by (rewrite length_hexn; lia). rewrite length_hexn.
  assert (hexn up k p <> []) as Hne by (intros E; apply (f_equal length) in E; rewrite length_hexn in E; cbn in E; lia).
  assert (exists t, strtok delim (hexn up k p ++ take (m - k) rest) = Some (hexn up k p, t)) as [t ->].
  { destruct (m - k)%nat as [|r] eqn:Er.
    - eexists. rewrite take_0, app_nil_r. apply strtok_last; [done|by apply hexn_not].
    - destruct Hrest as [Hr|]; [|lia]. destruct rest as [|c rest].
      + eexists. rewrite take_nil, app_nil_r. apply strtok_last; [done|by apply hexn_not].
      + cbn in Hr. subst c. eexists. apply strtok_token; [done|by apply hexn_not]. }
  rewrite <- hexn_app by lia. rewrite <- (app_nil_r (hexn up (n + k) _)).
  assert (0 < 16 ^ Z.of_nat k) by lia.
  assert (v * 16 ^ Z.of_nat k + p < 16 ^ Z.of_nat (n + k)) as Hlt by (rewrite Nat2Z.inj_add, Z.pow_add_r by lia; nia).
  rewrite strtoul_hex; [done|nia| |lia|done|done].
  eapply Z.lt_le_trans; [exact Hlt|]. transitivity (16 ^ 8); [apply Z.pow_le_mono_r; lia|lia].
Qed.

Lemma hexlen_16 p : 0 <= p < 65536 -> (hexlen p <= 4)%nat /\ (4096 <= p <-> hexlen p = 4%nat).
Proof.
  intros Hp. unfold hexlen. destruct (decide (p = 0)) as [->|Hne]; [change (Z.to_nat (Z.log2 0 / 4 + 1)) with 1%nat; lia|].
  pose proof (Z.log2_nonneg p). assert (Z.log2 p < 16) by (apply Z.log2_lt_pow2; lia).
  pose proof (Z.log2_le_pow2 p 12 ltac:(lia)) as Hl. change (2 ^ 12) with 4096 in Hl.
  lia_mod.
Qed.

(** The device identifier of an SDIO card, read from the text the kernel
    prints (two numbers of four upper case digits, whatever follows), is the one
    of the table of chips: the vendor in the high half and the device in the low
    half.  That of a USB device, which the kernel prints without leading zeros,
    is so exactly when the product has four digits; a product below 0x1000 moves
    the vendor down, and the chip is not found under its identifier. *)
Theorem device_ids v p rest : 0 <= v < 65536 -> 0 <= p < 65536 ->
  join_ids COLON (hexn true 4 v ++ [COLON] ++ hexn true 4 p ++ rest) = Some (v * 65536 + p) /\
  (v <> 0 -> join_ids SLASH (printx v ++ [SLASH] ++ printx p ++ [SLASH] ++ rest) = Some (v * 65536 + p) <-> 4096 <= p).
Proof.
  intros Hv Hp. split; [apply (join_ids_hex true COLON 4 4); first [lia|by vm_compute|by right]|].
  intros Hv0. destruct (hexlen_16 v Hv) as [H1 _], (hexlen_16 p Hp) as [H2 H3].
  destruct (HwConf.HwConf.hexlen_spec v ltac:(lia)) as [Hv1 Hv2], (HwConf.HwConf.hexlen_spec p ltac:(lia)) as [Hp1 Hp2].
  unfold printx. rewrite (join_ids_hex false SLASH (hexlen v) (hexlen p));
    [|first [lia|by vm_compute|by left]..].
  rewrite H3. split; [|by intros ->]. intros [= E].
  destruct (decide (hexlen p = 4%nat)) as [|Hne]; [done|]. exfalso.
  assert (16 ^ Z.of_nat (hexlen p) < 16 ^ 4); [apply Z.pow_lt_mono_r; lia|nia].
Qed.

(** ** The property *)

Lemma after_colon_app a b : Forall (fun c => c <> COLON) a -> after_colon (a ++ COLON :: b) = Some b.
Proof.
  intros Ha. unfold after_colon. rewrite drop_while_app; [done|].
  eapply List.Forall_impl; [|exact Ha]. intros c Hc. by rewrite (proj2 (Z.eqb_neq c COLON)).
Qed.

(** Short enough for the property. *)
Definition info_fits (vendor module : list Z) (bus id : Z) : Prop :=
  Forall (fun c => c <> COLON) vendor /\ Forall (fun c => c <> COLON) module /\
  0 <= bus < 2 ^ 64 /\ 0 <= id < 2 ^ 64 /\ (length vendor + length module <= 52)%nat.

Lemma parse_print_info vendor module bus id : info_fits vendor module bus id ->
  parse_info (print_info vendor module bus id) = Some (bus, id) /\ (length (print_info vendor module bus id) < PROPERTY_VALUE_MAX)%nat.
Proof.
  intros (Hv & Hm & Hb & Hd & Hl). destruct (HwConf.HwConf.hexlen_spec bus Hb) as [Hb1 Hb2].
  destruct (HwConf.HwConf.hexlen_spec id Hd) as [Hd1 Hd2].
  split; [|unfold print_info; rewrite length_take; unfold PROPERTY_VALUE_MAX; lia].
  unfold print_info. rewrite take_ge.
  2: { rewrite !length_app, !length_hexn. unfold printx. rewrite length_hexn. unfold PROPERTY_VALUE_MAX. cbn [length]. lia. }
  set (d := hexn false (8 `max` hexlen id) id). set (info := vendor ++ _).
  assert (parse_info info = p ← after_colon info; p ← after_colon p; q ← after_colon p; Some (strtoul 0 p, strtoul 0 q)) as ->.
  { unfold info. by destruct vendor. }
  unfold info. cbn [app]. rewrite after_colon_app by done. cbn [mbind option_bind].
  rewrite after_colon_app by done. cbn [mbind option_bind].
  change (48 :: 120 :: printx bus ++ COLON :: 48 :: 120 :: d) with ([48; 120] ++ printx bus ++ COLON :: 48 :: 120 :: d).
  rewrite app_assoc, after_colon_app.
  2: { apply Forall_app. split; [by repeat constructor|]. apply hexn_not. by vm_compute. }
  cbn [mbind option_bind]. rewrite <- app_assoc. unfold printx. rewrite strtoul_0x by (first [lia|intros c [= <-]; by vm_compute]).
  do 2 f_equal. change (48 :: 120 :: d) with ([48; 120] ++ d). rewrite <- (app_nil_r d). apply strtoul_0x; [|lia|lia|done].
  split; [lia|]. eapply Z.lt_le_trans; [exact Hd1|]. apply Z.pow_le_mono_r; lia.
Qed.

(** ** What detection leaves alone *)

Section quiet.
Context {P : Type} `{!PropStore P}.

Record quiet (s0 s : dev P) : Prop := {
  quiet_chips : chips s = chips s0;
  quiet_head : list_head s = list_head s0;
  quiet_props : props s = props s0;
  quiet_env : env s = env s0
}.

#[local] Instance quiet_preorder : PreOrder quiet.
Proof. split; [by split|]. intros s1 s2 s3 [] []. split; congruence. Qed.

Definition quiets {A} (m : M (dev P) A) : Prop := forall s, wlp m (fun _ s' => quiet s s') s.

Lemma quiets_ret {A} (a : A) : quiets (ret a).
Proof. intros s. by apply wlp_ret. Qed.
Lemma quiets_bind {A B} (m : M (dev P) A) (k : A -> M (dev P) B) : quiets m -> (forall a, quiets (k a)) -> quiets (bind m k).
Proof.
  intros Hm Hk s. apply wlp_bind. eapply wlp_mono; [apply Hm|]. intros a s' Hq.
  eapply wlp_mono; [apply Hk|]. intros b s2 Hq2. exact (transitivity Hq Hq2).
Qed.
Lemma quiets_modify (f : dev P -> dev P) : (forall s, quiet s (f s)) -> quiets (modify f).
Proof. intros H s a s' [= <- <-]. apply H. Qed.

(** The list of chips is the one that holds [ls]. *)
Definition dev_ok (ls : cells) (s : dev P) : Prop := rep ∅ ls (list_head s) (chips s).

Definition is_chip (ls : cells) (s : dev P) (p : Z) : Prop :=
  p = NULL \/ exists i q, i ∈ ls.*2 /\ heap (chips s) !! p = Some (mkNode i q) /\ p <> NULL.

Lemma dev_ok_quiet ls s s' : dev_ok ls s -> quiet s s' -> dev_ok ls s'.
Proof. intros H [E1 E2 _ _]. unfold dev_ok. by rewrite E1, E2. Qed.
Lemma is_chip_quiet ls s s' p : is_chip ls s' p -> quiet s s' -> is_chip ls s p.
Proof. intros [->|(i & q & H)] [E1 _ _ _]; [by left|]. right. exists i, q. by rewrite <- E1. Qed.

(** [m] ends with a chip of the list or NULL, and changes nothing else. *)
Definition finds (ls : cells) (m : M (dev P) Z) : Prop :=
  forall s, dev_ok ls s -> wlp m (fun p s' => quiet s s' /\ is_chip ls s p) s.

Lemma finds_null ls : finds ls (ret NULL).
Proof. intros s _. apply wlp_ret. split; [done|by left]. Qed.

Lemma finds_quiet {A} ls (m : M (dev P) A) k : quiets m -> (forall a, finds ls (k a)) -> finds ls (bind m k).
Proof.
  intros Hm Hk s Hs. apply wlp_bind. eapply wlp_mono; [apply Hm|]. intros a s' Hq.
  eapply wlp_mono; [apply Hk; by eapply dev_ok_quiet|]. intros p s2 [Hq2 Hp]. split; [exact (transitivity Hq Hq2)|by eapply is_chip_quiet].
Qed.

(** A search, and what follows when it finds nothing. *)
Lemma finds_or ls m k1 k2 : finds ls m -> finds ls k1 -> (forall p s, dev_ok ls s -> is_chip ls s p ->
    wlp (k2 p) (fun p s' => quiet s s' /\ is_chip ls s p) s) ->
  finds ls (p <- m ;; if p =? NULL then k1 else k2 p).
Proof.
  intros Hm Hk1 Hk2 s Hs. apply wlp_bind. eapply wlp_mono; [by apply Hm|]. intros p s' [Hq Hp].
  assert (is_chip ls s' p) as Hp'.
  { destruct Hp as [->|(i & q & H)]; [by left|]. right. exists i, q. by rewrite (quiet_chips _ _ Hq). }
  eapply wlp_mono with (P := fun p s2 => quiet s' s2 /\ is_chip ls s' p).
  - destruct (p =? NULL); [apply Hk1|apply Hk2; [|done]]; by eapply dev_ok_quiet.
  - intros p2 s2 [Hq2 Hp2]. split; [exact (transitivity Hq Hq2)|by eapply is_chip_quiet].
Qed.

Lemma finds_ret ls p s : dev_ok ls s -> is_chip ls s p -> wlp (ret p) (fun p s' => quiet s s' /\ is_chip ls s p) s.
Proof. intros _ Hp. by apply wlp_ret. Qed.

Lemma lookup_chip_run ls bus id s : dev_ok ls s -> exists p, lookup_chip bus id s = Some (p, s) /\
  match find (matches bus id) ls.*2 with
  | Some i => exists q, heap (chips s) !! p = Some (mkNode i q) /\ p <> NULL
  | None => p = NULL
  end.
Proof.
  intros Hs. pose proof (rep_head _ _ _ _ Hs) as Hh.
  destruct (find_loop_run ∅ [] ls (list_head s) (chips s) (size (heap (chips s))) bus id) as (p & E & Hp);
    [done|by eapply rep_size|].
  exists p. split.
  - unfold lookup_chip, on_chips, get_hardware_info_by_device_id, bind, get. rewrite Hh, E. by destruct s.
  - destruct (find _ _); [|done]. destruct Hp as (n & H1 & H2 & H3). exists (next n). by rewrite H1, <- H2; destruct n.
Qed.

Lemma finds_lookup ls bus id : finds ls (lookup_chip bus id).
Proof.
  intros s Hs p s' E. destruct (lookup_chip_run ls bus id s Hs) as (p' & E' & Hp). rewrite E in E'. injection E' as <- <-.
  split; [done|]. destruct (find _ _) as [i|] eqn:Ef; [|by left]. destruct Hp as (q & H1 & H2). right. exists i, q.
  split; [|done]. apply list_elem_of_In. by destruct (find_some _ _ Ef).
Qed.

Lemma finds_coldboot ls d : finds ls (coldboot d).
Proof.
  destruct d as [d|]; [|apply finds_null]. cbn. induction d as [|de d IH]; cbn; [apply finds_null|].
  destruct (_ =? 46); [done|]. destruct (negb (can_open de)); [done|].
  destruct (scan_uevent _) as [[bus id]|]; [|done]. apply finds_or; [apply finds_lookup|done|]. apply finds_ret.
Qed.

Lemma quiets_write_ctl f c : quiets (write_ctl f c).
Proof. by apply quiets_modify. Qed.

Lemma quiets_write_file f c a : quiets (write_file f c a).
Proof.
  unfold write_file. destruct (negb (c_open a)); [apply quiets_ret|]. destruct (negb (c_write a)); [apply quiets_ret|].
  apply quiets_bind; [apply quiets_write_ctl|]. intros []. apply quiets_ret.
Qed.

Lemma quiets_power_on a : quiets (wifi_power_on a).
Proof.
  unfold wifi_power_on. destruct (negb (p_open a)); [apply quiets_ret|].
  assert (forall r : Z, quiets (modify (fun s => set_sysfs (sysfs s) (open_fds s - 1) s) ;;; ret r)) as Hclose
    by (intros r; apply quiets_bind; [by apply quiets_modify|intros []; apply quiets_ret]).
  apply quiets_bind; [by apply quiets_modify|]. intros []. destruct (p_read1 a) as [c|]; [|apply Hclose].
  destruct (0 <? c - 48); [apply quiets_ret|]. destruct (negb (p_write a)); [apply Hclose|].
  apply quiets_bind; [apply quiets_write_ctl|]. intros []. destruct (p_read2 a); apply Hclose.
Qed.

Lemma quiets_power_loop fuel answers i st : quiets (power_loop fuel answers i st).
Proof.
  revert answers i st. induction fuel as [|fuel IH]; intros answers i st; cbn [power_loop].
  - destruct (_ && _); [done|apply quiets_ret].
  - destruct (_ && _); [|apply quiets_ret]. apply quiets_bind; [apply quiets_power_on|]. intros r.
    destruct (r =? 1); [apply quiets_ret|apply IH].
Qed.

Lemma finds_parse_uevent ls msg : finds ls (parse_uevent msg).
Proof.
  unfold parse_uevent. destruct (foldl _ _ _) as [[sub|] id]; [|by intros s Hs].
  assert (forall bus d, finds ls (p <- lookup_chip bus d ;; if p =? NULL then ret NULL else modify (set_thread exiting) ;;; ret p)) as Hf.
  { intros bus d. apply finds_or; [apply finds_lookup|apply finds_null|]. intros p s Hs Hp p' s' [= <- <-]. by split. }
  destruct (starts _ sub); [destruct (join_ids _ _); [apply Hf|apply finds_null]|].
  destruct (starts _ sub); [destruct (join_ids _ _); [apply Hf|apply finds_null]|apply finds_null].
Qed.

Lemma finds_loop ls msgs : forall info s, dev_ok ls s -> is_chip ls s info ->
  wlp (ls_device_loop msgs info) (fun p s' => quiet s s' /\ is_chip ls s p) s.
Proof.
  assert (forall info s, is_chip ls s info -> wlp (modify (set_thread exited) ;;; ret info) (fun p s' => quiet s s' /\ is_chip ls s p) s) as Hend.
  { intros info s Hi p s' [= <- <-]. by split. }
  induction msgs as [|msg msgs IH]; intros info s Hs Hi; cbn [ls_device_loop];
    (apply wlp_bind, wlp_get; destruct (thread_state s); [|by apply Hend..]).
  - by apply wlp_ret.
  - destruct (_ =? 0)%nat; [by apply IH|]. apply wlp_bind. eapply wlp_mono; [by apply finds_parse_uevent|].
    intros p s' [Hq Hp]. eapply wlp_mono; [apply IH; [by eapply dev_ok_quiet|]|].
    + destruct Hp as [->|(i & q & H)]; [by left|]. right. exists i, q. by rewrite (quiet_chips _ _ Hq).
    + intros p2 s2 [Hq2 Hp2]. split; [exact (transitivity Hq Hq2)|by eapply is_chip_quiet].
Qed.

Lemma finds_or_negb ls m k : finds ls m -> finds ls k -> finds ls (p <- m ;; if negb (p =? NULL) then ret p else k).
Proof.
  intros Hm Hk s Hs. eapply wlp_mono with (P := fun p s' => quiet s s' /\ is_chip ls s p); [|done].
  intros p s' E. apply (finds_or ls m k (fun p => ret p) Hm Hk (finds_ret ls) s Hs p s').
  rewrite <- E. unfold bind. destruct (m s) as [[q s2]|]; [|done]. by destruct (q =? NULL).
Qed.

(** What follows a search and gives its result. *)
Lemma finds_then ls m (k : M (dev P) unit) : finds ls m -> quiets k -> finds ls (p <- m ;; k ;;; ret p).
Proof.
  intros Hm Hk s Hs. apply wlp_bind. eapply wlp_mono; [by apply Hm|]. intros p s' [Hq Hp].
  apply wlp_bind. eapply wlp_mono; [apply Hk|]. intros [] s2 Hq2. apply wlp_ret.
  split; [exact (transitivity Hq Hq2)|done].
Qed.

Lemma finds_thread ls msgs : finds ls (ls_device_thread msgs).
Proof.
  unfold ls_device_thread. apply finds_quiet; [by apply quiets_modify|]. intros [] s Hs. apply finds_loop; [done|by left].
Qed.

Lemma detect_finds ls w s : dev_ok ls s ->
  wlp (detect w) (fun p s' => quiet (set_props (property_set MODULE_MODULE_INFO_PROP [] (props s)) s) s' /\ is_chip ls s p) s.
Proof.
  intros Hs. unfold detect. apply wlp_bind. intros [] s1 [= <-].
  match goal with |- wlp ?m _ _ => cut (finds ls m) end.
  { intros H. apply (H (set_props (property_set MODULE_MODULE_INFO_PROP [] (props s)) s) Hs). }
  apply finds_or_negb; [apply finds_coldboot|]. apply finds_or_negb; [apply finds_coldboot|].
  destruct (negb (create_ok w)); [apply finds_null|].
  apply finds_quiet; [apply quiets_power_loop|]. intros st. destruct (st <=? 0); [apply finds_null|].
  apply finds_quiet; [apply quiets_write_file|]. intros _.
  set (tail := modify (fun s : dev P => match thread_state s with running => set_thread exiting s | _ => s end)).
  intros s2 Hs2 p s3 E.
  apply (finds_then ls (ls_device_thread (uevents w)) (tail ;;; wifi_power_off (power_off w) ;;;
    wifi_scan_device 0 (scan_off w) ;;; ret tt)) with (s := s2); [apply finds_thread| |done|].
  - apply quiets_bind; [|intros []; apply quiets_bind; [apply quiets_write_file|]].
    + apply quiets_modify. intros s4. by destruct (thread_state s4).
    + intros _. apply quiets_bind; [apply quiets_write_file|]. intros _. apply quiets_ret.
  - rewrite <- E. unfold bind. destruct (ls_device_thread _ s2) as [[a s4]|]; [|done].
    destruct (tail s4) as [[[] s5]|]; [|done]. destruct (wifi_power_off _ s5) as [[b s6]|]; [|done].
    by destruct (wifi_scan_device _ _ s6) as [[c s7]|].
Qed.

(** ** The chip in use *)

#[local] Arguments MODULE_MODULE_INFO_PROP : simpl never.
#[local] Arguments MODULE_WLAN_VENDOR_PROP : simpl never.
#[local] Arguments MODULE_BT_VENDOR_PROP : simpl never.
#[local] Arguments MODULE_BT_SUPPORT_PROP : simpl never.
#[local] Arguments bytes : simpl never.
#[local] Arguments print_info : simpl never.

(** A new process, with the properties the system has. *)
Definition boot (pr : P) : dev P :=
  mkDev (mkSt ∅ 1) NULL W_null pr ∅ (replicate 1024 0) exited [] 0.

Lemma load_chips_run l file xs pr : parse_file file = Some xs -> exists ls s,
  load_chips l file (boot pr) = Some (tt, s) /\ dev_ok ls s /\ ls.*2 = keep_last (l ++ xs) /\
  props s = pr /\ sysfs s = [] /\ wifiinfo s = W_null.
Proof.
  intros Hf. pose proof (merged_load_run ∅ l file (mkSt ∅ 1) rep_start) as H. rewrite Hf in H.
  destruct H as (ls & c & E & R & Els). exists ls. eexists. split.
  { unfold load_chips, on_chips, bind, boot. cbn [chips]. rewrite E. cbn. reflexivity. }
  split_and!; [exact R|done..].
Qed.

(** The properties after a chip is found. *)
Definition saved (i : wifi_hardware_info) (vendor module : list Z) (pr : P) : P :=
  match property_get MODULE_MODULE_INFO_PROP pr with
  | [] =>
      property_set MODULE_BT_SUPPORT_PROP (if bt_support i =? 0 then bytes "0" else bytes "1")
        (property_set MODULE_BT_VENDOR_PROP (if bt_support i =? 0 then bytes "NULL" else vendor)
          (property_set MODULE_WLAN_VENDOR_PROP vendor
            (property_set MODULE_MODULE_INFO_PROP (print_info vendor module (bus_type i) (device_id i)) pr)))
  | _ => pr
  end.

Definition names (i : wifi_hardware_info) (m d k v : list Z) : Prop :=
  module_name i = Some m /\ driver_name i = Some d /\ driver_module_name i = Some k /\ vendor_name i = Some v.

Lemma found_chip_run p s i q m d k v : p <> NULL -> heap (chips s) !! p = Some (mkNode i q) -> names i m d k v ->
  exists s', found_chip p s = Some (W_entry p, s') /\ chips s' = chips s /\ sysfs s' = sysfs s /\ wifiinfo s' = W_entry p /\
    props s' = saved i v m (props s).
Proof.
  intros Hp Hh (Hm & Hd & Hk & Hv). destruct s as [[c b] h wi pr e a t y o]. cbn in Hh.
  unfold found_chip. rewrite (proj2 (Z.eqb_neq _ _) Hp). unfold saved. cbn [props].
  unfold save_info, set_environment, str, on_chips, deref, get, bind. cbn. rewrite Hh. cbn. rewrite Hm, Hd, Hk, Hv.
  destruct (property_get MODULE_MODULE_INFO_PROP pr); cbn; by eexists.
Qed.

(** It only returns when all names are there. *)
Lemma found_chip_names p s i q r s' : p <> NULL -> heap (chips s) !! p = Some (mkNode i q) ->
  found_chip p s = Some (r, s') -> exists m d k v, names i m d k v.
Proof.
  intros Hp Hh E. unfold found_chip in E. rewrite (proj2 (Z.eqb_neq _ _) Hp) in E.
  unfold save_info, set_environment, str, on_chips, deref, get, bind in E. cbn in E. rewrite Hh in E. cbn in E.
  unfold names. destruct (module_name i) as [m|], (driver_name i) as [d|], (driver_module_name i) as [k|], (vendor_name i) as [v|];
    try (by exists m, d, k, v); exfalso; destruct (property_get _ _); cbn in E; try discriminate E.
Qed.

Lemma find_own_entry ls i : NoDup (device_id <$> ls) -> i ∈ ls -> find (matches (bus_type i) (device_id i)) ls = Some i.
Proof. intros Hn Hi. rewrite find_nodup by done. by rewrite Z.eqb_refl. Qed.

(** C18: A chip that was detected once is found again after a restart without
    asking any bus: when a new process detects a chip of the table or of the
    configuration file and puts it in the property, a later process with the same
    table and file finds the same entry from the property alone; it touches no
    control file and changes no property, whatever the buses and the kernel would
    answer.  (The names fit in the property and hold no colon.) *)
Theorem restart_finds_same `{!PropLaws P} l file xs w w' pr p s i q m d k v :
  parse_file file = Some xs -> property_get MODULE_MODULE_INFO_PROP pr = [] ->
  get_wifi_hardware_info l file w (boot pr) = Some (W_entry p, s) ->
  heap (chips s) !! p = Some (mkNode i q) -> names i m d k v -> info_fits v m (bus_type i) (device_id i) ->
  exists p' q' s', get_wifi_hardware_info l file w' (boot (props s)) = Some (W_entry p', s') /\
    heap (chips s') !! p' = Some (mkNode i q') /\ sysfs s' = [] /\ props s' = props s.
Proof.
  intros Hf Hpr E Hi Hn Hfit.
  destruct (load_chips_run l file xs pr Hf) as (ls & s1 & E1 & Hok & Hls & Hp1 & _ & Hw1).
  (* the first run *)
  unfold get_wifi_hardware_info, bind at 1, get in E. cbn [wifiinfo boot] in E. rewrite (bind_some _ _ _ _ _ E1) in E.
  unfold bind at 1 in E. destruct (cached_or_detect w s1) as [[p1 s2]|] eqn:Ed; [|done].
  unfold cached_or_detect, bind, get in Ed. rewrite Hp1, Hpr in Ed. cbn [parse_info] in Ed.
  destruct (detect_finds ls w s1 Hok _ _ Ed) as [Hq Hchip].
  destruct Hchip as [->|(i1 & q1 & Hin & Hh1 & Hnn)]; [by unfold found_chip in E; cbn in E|].
  assert (chips s2 = chips s1) as Hc2 by apply Hq. rewrite <- Hc2 in Hh1.
  destruct (found_chip_names _ _ _ _ _ _ Hnn Hh1 E) as (m1 & d1 & k1 & v1 & Hn1).
  destruct (found_chip_run _ _ _ _ _ _ _ _ Hnn Hh1 Hn1) as (s3 & E3 & Hc3 & _ & _ & Hp3).
  rewrite E in E3. injection E3 as -> <-. rewrite Hc3, Hh1 in Hi. injection Hi as -> ->.
  destruct Hn1 as (Em & _ & _ & Ev). pose proof Hn as (Em' & _ & _ & Ev'). rewrite Em' in Em. injection Em as <-.
  rewrite Ev' in Ev. injection Ev as <-.
  (* what it left in the property *)
  destruct (parse_print_info _ _ _ _ Hfit) as [Hparse Hlen].
  assert (property_get MODULE_MODULE_INFO_PROP (props s) = print_info v m (bus_type i) (device_id i)) as Hprop.
  { rewrite Hp3, (quiet_props _ _ Hq). cbn [props set_props]. unfold saved. rewrite Hp1, get_set_same by (cbn; unfold PROPERTY_VALUE_MAX; lia).
    rewrite !get_set_other by (intros H; vm_compute in H; discriminate H). by apply get_set_same. }
  (* the second run *)
  destruct (load_chips_run l file xs (props s) Hf) as (ls' & t1 & F1 & Hok' & Hls' & Hp1' & Hs1' & _).
  unfold get_wifi_hardware_info. unfold bind at 1, get. cbn [wifiinfo boot]. rewrite (bind_some _ _ _ _ _ F1).
  destruct (lookup_chip_run ls' (bus_type i) (device_id i) t1 Hok') as (p' & Fl & Hp').
  rewrite Hls', <- Hls, find_own_entry in Hp'; [|rewrite Hls; apply keep_last_nodup|done]. destruct Hp' as (q' & Hh' & Hnn').
  assert (cached_or_detect w' t1 = Some (p', t1)) as F2.
  { unfold cached_or_detect, bind, get. rewrite Hp1', Hprop, Hparse. fold (@bind (dev P)). unfold bind. rewrite Fl.
    by rewrite (proj2 (Z.eqb_neq _ _) Hnn'). }
  rewrite (bind_some _ _ _ _ _ F2).
  destruct (found_chip_run _ _ _ _ _ _ _ _ Hnn' Hh' Hn) as (t2 & F3 & Hc & Hsys & _ & Hpp).
  exists p', q', t2. split_and!; [done|by rewrite Hc|by rewrite Hsys|]. rewrite Hpp, Hp1'. unfold saved. rewrite Hprop.
  by destruct (print_info v m (bus_type i) (device_id i)).
Qed.

(** ** The order of detection *)

(** The chip of a device on a bus. *)
Definition device_chip (ls : cells) (de : dirent) : option wifi_hardware_info :=
  if (first (d_name de) =? 46) || negb (can_open de) then None else
  '(bus, id) ← scan_uevent (cstr (take UEVENT_MSG_LEN (default [] (uevent de))));
  find (matches bus id) ls.*2.

(** The first device that is one of a known chip. *)
Definition bus_chip (ls : cells) (d : option (list dirent)) : option wifi_hardware_info :=
  head (omap (device_chip ls) (default [] d)).

(** The result of a search is a chip, or NULL. *)
Definition points_to (s : dev P) (p : Z) (o : option wifi_hardware_info) : Prop :=
  match o with
  | Some i => exists q, heap (chips s) !! p = Some (mkNode i q) /\ p <> NULL
  | None => p = NULL
  end.

Lemma points_to_quiet s s' p o : points_to s p o -> quiet s s' -> points_to s' p o.
Proof. intros H [E _ _ _]. unfold points_to. by rewrite E. Qed.

Lemma coldboot_run ls d s : dev_ok ls s -> exists p, coldboot d s = Some (p, s) /\ points_to s p (bus_chip ls d).
Proof.
  intros Hs. destruct d as [d|]; [|by exists NULL]. cbn [coldboot]. unfold bus_chip. cbn [default].
  induction d as [|de d IH]; [by exists NULL|]. change (id ?x) with x in *. cbn [do_coldboot omap list_omap]. unfold device_chip at 1.
  destruct (first (d_name de) =? 46); [done|]. destruct (negb (can_open de)); [done|]. cbn [orb].
  destruct (scan_uevent _) as [[bus id]|]; cbn [mbind option_bind]; [|done].
  destruct (lookup_chip_run ls bus id s Hs) as (p & E & Hp). unfold bind. rewrite E.
  destruct (find (matches bus id) ls.*2) as [i|].
  - destruct Hp as (q & H1 & H2). rewrite (proj2 (Z.eqb_neq _ _) H2). exists p. split; [done|by exists q].
  - subst p. rewrite Z.eqb_refl. apply IH.
Qed.

Lemma points_to_some s p i : points_to s p (Some i) -> (p =? NULL) = false.
Proof. intros (q & _ & H). by apply Z.eqb_neq. Qed.

(** *** Messages *)

(** The chip of a message; [None] for one that has no SUBSYSTEM. *)
Definition message_chip (ls : cells) (msg : list Z) : option (option wifi_hardware_info) :=
  match foldl uevent_field (None, []) (msg_strings (length msg) msg) with
  | (None, _) => None
  | (Some sub, id) => Some (
      if starts (bytes "sdio") sub then d ← join_ids COLON id; find (matches 1 d) ls.*2
      else if starts (bytes "usb") sub then d ← join_ids SLASH id; find (matches 0 d) ls.*2
      else None)
  end.

Lemma parse_uevent_run ls msg o s : dev_ok ls s -> message_chip ls msg = Some o -> exists p,
  parse_uevent msg s = Some (p, match o with Some _ => set_thread exiting s | None => s end) /\ points_to s p o.
Proof.
  intros Hs Ho. unfold message_chip in Ho. unfold parse_uevent. destruct (foldl _ _ _) as [[sub|] id]; [|done].
  assert (forall bus d, exists p, (p <- lookup_chip bus d ;; if p =? NULL then ret NULL else modify (set_thread exiting) ;;; ret p) s
      = Some (p, match find (matches bus d) ls.*2 with Some _ => set_thread exiting s | None => s end) /\
      points_to s p (find (matches bus d) ls.*2)) as Hf.
  { intros bus d. destruct (lookup_chip_run ls bus d s Hs) as (p & E & Hp). exists p. unfold bind. rewrite E.
    destruct (find _ _) as [i|]; [|by subst]. destruct Hp as (q & H1 & H2). rewrite (proj2 (Z.eqb_neq _ _) H2).
    split; [done|by exists q]. }
  injection Ho as <-. destruct (starts (bytes "sdio") sub).
  { destruct (join_ids COLON id) as [d|]; [apply Hf|by exists NULL]. }
  destruct (starts (bytes "usb") sub); [|by exists NULL]. destruct (join_ids SLASH id) as [d|]; [apply Hf|by exists NULL].
Qed.

(** The chip of the first message that is one of a known chip. *)
Fixpoint first_message (ls : cells) (msgs : list (list Z)) : option wifi_hardware_info :=
  match msgs with
  | [] => None
  | msg :: msgs => match message_chip ls (take UEVENT_MSG_LEN msg) with Some (Some i) => Some i | _ => first_message ls msgs end
  end.

Lemma device_loop_run ls msgs : forall s, dev_ok ls s -> thread_state s = running ->
  Forall (fun m => m <> [] /\ is_Some (message_chip ls (take UEVENT_MSG_LEN m))) msgs ->
  exists p st, ls_device_loop msgs NULL s = Some (p, set_thread st s) /\ points_to s p (first_message ls msgs).
Proof.
  induction msgs as [|msg msgs IH]; intros s Hs Ht Hm; cbn [ls_device_loop first_message].
  { exists NULL, running. unfold bind, get. rewrite Ht. split; [|done]. unfold ret. destruct s; cbn in Ht; by subst. }
  apply Forall_cons_1 in Hm as [[Hne [o Ho]] Hm]. unfold bind at 1, get. rewrite Ht.
  assert ((length (take UEVENT_MSG_LEN msg) =? 0)%nat = false) as -> by (by destruct msg).
  destruct (parse_uevent_run ls _ o s Hs Ho) as (p & E & Hp). rewrite Ho, (bind_some _ _ _ _ _ E). destruct o as [i|].
  - exists p, exited. split; [|done]. by destruct msgs.
  - cbn in Hp. subst p. by apply IH.
Qed.

Definition ctl_ok (a : ctl) : Prop := c_open a = true /\ c_write a = true.

Lemma write_file_ok f c a (s : dev P) : ctl_ok a -> write_file f c a s = Some (0, set_sysfs (sysfs s ++ [(f, c)]) (open_fds s) s).
Proof. intros [H1 H2]. unfold write_file. by rewrite H1, H2. Qed.

(** How a chip is detected: by the first device of a known chip on the SDIO
    bus, without one by the first on the USB bus, and in these cases no control
    file is written.  When neither bus shows one and the power file answers, the
    chip is powered on and scanned for, the result is the chip of the first
    message of a known chip (later ones are not looked at), and power and scanning
    are switched off again, in this order.  The list of chips is not changed and
    the property of an earlier chip is gone. *)
Theorem detect_spec ls w s (r : option wifi_hardware_info) (trace : list (ctl_file * Z)) : dev_ok ls s ->
  match bus_chip ls (sdio_devices w), bus_chip ls (usb_devices w) with
  | Some i, _ => r = Some i /\ trace = []
  | None, Some i => r = Some i /\ trace = []
  | None, None =>
      create_ok w = true /\ ctl_ok (scan_on w) /\ ctl_ok (power_off w) /\ ctl_ok (scan_off w) /\
      powers w 0 = mkPower true (Some 48) true (Some 49) /\
      Forall (fun m => m <> [] /\ is_Some (message_chip ls (take UEVENT_MSG_LEN m))) (uevents w) /\
      r = first_message ls (uevents w) /\
      trace = [(Power_state, 49); (Scan_device, 49); (Power_state, 48); (Scan_device, 48)]
  end ->
  exists p s', detect w s = Some (p, s') /\ points_to s' p r /\ chips s' = chips s /\
    props s' = property_set MODULE_MODULE_INFO_PROP [] (props s) /\ sysfs s' = sysfs s ++ trace /\ open_fds s' = open_fds s.
Proof.
  intros Hs H. set (s1 := set_props (property_set MODULE_MODULE_INFO_PROP [] (props s)) s). assert (dev_ok ls s1) as Hs1 by done.
  unfold detect. rewrite bind_modify. fold s1.
  destruct (coldboot_run ls (sdio_devices w) s1 Hs1) as (p1 & E1 & Hp1). rewrite (bind_some _ _ _ _ _ E1).
  destruct (bus_chip ls (sdio_devices w)) as [i|].
  { destruct H as [-> ->]. rewrite (points_to_some _ _ _ Hp1). exists p1, s1. by rewrite app_nil_r. }
  cbn in Hp1. subst p1. cbn [negb]. rewrite Z.eqb_refl. cbn [negb].
  destruct (coldboot_run ls (usb_devices w) s1 Hs1) as (p2 & E2 & Hp2). rewrite (bind_some _ _ _ _ _ E2).
  destruct (bus_chip ls (usb_devices w)) as [i|].
  { destruct H as [-> ->]. rewrite (points_to_some _ _ _ Hp2). exists p2, s1. by rewrite app_nil_r. }
  cbn in Hp2. subst p2. rewrite Z.eqb_refl. cbn [negb].
  destruct H as (Hc & Hon & Hoff & Hsoff & Hpow & Hm & -> & ->). rewrite Hc. cbn [negb].
  set (s2 := set_sysfs (sysfs s ++ [(Power_state, 49)]) (open_fds s + 1 - 1) s1).
  assert (power_loop 10 (powers w) 0 0 s1 = Some (1, s2)) as Ep.
  { cbn [power_loop]. cbn [Z.ltb Z.leb Z.compare andb]. unfold wifi_power_on. rewrite Hpow. reflexivity. }
  rewrite (bind_some _ _ _ _ _ Ep). cbn [Z.leb Z.compare].
  unfold wifi_scan_device, wifi_power_off. cbn [Z.eqb].
  rewrite (bind_some _ _ _ _ _ (write_file_ok _ _ _ s2 Hon)). unfold ls_device_thread.
  set (s3 := set_thread running (set_sysfs (sysfs s2 ++ [(Scan_device, 49)]) (open_fds s2) s2)).
  destruct (device_loop_run ls (uevents w) s3 Hs1 eq_refl Hm) as (p & st & El & Hp).
  rewrite (bind_some _ _ _ p (set_thread st s3)) by exact El.
  set (s4 := match st with running => set_thread exiting (set_thread st s3) | _ => set_thread st s3 end).
  rewrite bind_modify. change (match thread_state (set_thread st s3) with running => _ | _ => _ end) with s4.
  rewrite (bind_some _ _ _ _ _ (write_file_ok _ _ _ s4 Hoff)).
  rewrite (bind_some _ _ _ _ _ (write_file_ok _ _ _ _ Hsoff)). eexists p, _. split; [done|].
  assert (chips s4 = chips s /\ props s4 = props s1 /\ sysfs s4 = sysfs s3 /\ open_fds s4 = open_fds s3) as (H1 & H2 & H3 & H4) by (by destruct st).
  split; [|split; [done|]; split; [done|]; split].
  - unfold points_to in *. cbn. rewrite H1. done.
  - cbn. rewrite H3. cbn. by rewrite <- !app_assoc.
  - cbn. rewrite H4. cbn. lia.
Qed.

End quiet.

(** The chip gets at most five attempts to answer: the loop that means to
    try ten times counts every turn twice, so that only the first five answers of
    the power file matter. *)
Theorem power_attempts {P} (a b : nat -> power) (s : dev P) : (forall n, (n < 5)%nat -> a n = b n) ->
  power_loop 10 a 0 0 s = power_loop 10 b 0 0 s.
Proof.
  intros H. assert (forall n i st (a b : nat -> power) fuel, 10 - 2 * Z.of_nat n <= i -> (n < fuel)%nat ->
    (forall k, (k < n)%nat -> a k = b k) -> forall s : dev P, power_loop fuel a i st s = power_loop fuel b i st s) as Hl.
  { clear. induction n as [|n IH]; intros i st a b [|fuel] Hi Hf H s; try lia; cbn [power_loop].
    - by rewrite (proj2 (Z.ltb_ge i 10)) by lia.
    - destruct (_ && _); [|done]. rewrite (H 0%nat) by lia. unfold bind. destruct (wifi_power_on (b 0%nat) s) as [[r s1]|]; [|done].
      destruct (r =? 1); [done|]. apply IH; [lia|lia|]. intros k Hk. apply H. lia. }
  apply (Hl 5%nat); [lia|lia|done].
Qed.

(** ** Concrete runs *)

Definition demo_power : power := mkPower true (Some 48) true (Some 49).
Definition demo_ctl : ctl := mkCtl true true.

(** A card of the table on the SDIO bus, after a hidden entry. *)
Definition demo_world : world :=
  mkWorld (Some [mkDirent (bytes ".") true None; mkDirent (bytes "mmc1:0001:1") true (Some (bytes "SDIO_ID=024C:B723"))])
    None true (fun _ => demo_power) demo_ctl demo_ctl demo_ctl [].

(** Nothing on the buses, and a message. *)
Definition demo_message : list Z :=
  bytes "add@/devices/usb1" ++ [0] ++ bytes "SUBSYSTEM=usb" ++ [0] ++ bytes "PRODUCT=bda/d723/200" ++ [0].
Definition demo_world2 : world :=
  mkWorld None (Some []) true (fun _ => demo_power) demo_ctl demo_ctl demo_ctl [demo_message].

Lemma device_ids_witness : 0 <= 0x024c < 65536 /\
  join_ids COLON (hexn true 4 0x024c ++ [COLON] ++ hexn true 4 0xb723 ++ []) = Some (0x024c * 65536 + 0xb723).
Proof. split; [lia|]. apply (device_ids 0x024c 0xb723 []); lia. Defined.

Definition demo_props : Type := gmap (list Z) (list Z).

Definition demo_chip : wifi_hardware_info := entry 1 0x024cb723 "rtl8723bs_vq0" "8723bs-vq0" "8723bs_vq0" "realtek" 1.
Definition demo_table : list wifi_hardware_info := [demo_chip; entry 0 0x0bdad723 "rtl8723du" "8723du" "8723du" "realtek" 1].

(** The run ends at a node with the chip. *)
Definition demo_found (r : option (wifi_ptr * dev demo_props)) : bool :=
  match r with
  | Some (W_entry p, s) => match heap (chips s) !! p with Some n => bool_decide (hwinfo n = demo_chip) | None => false end
  | _ => false
  end.

Lemma demo_chip_run : exists p s q,
  get_wifi_hardware_info demo_table None demo_world (boot (∅ : demo_props)) = Some (W_entry p, s) /\
  heap (chips s) !! p = Some (mkNode demo_chip q).
Proof.
  assert (demo_found (get_wifi_hardware_info demo_table None demo_world (boot (∅ : demo_props))) = true) as H
    by (vm_compute; reflexivity).
  destruct (get_wifi_hardware_info _ _ _ _) as [[[| |p] s]|]; try done. cbn in H. exists p, s.
  destruct (heap (chips s) !! p) as [n|] eqn:E; [|done]. apply bool_decide_eq_true in H. exists (next n). by rewrite <- H; destruct n.
Qed.

Lemma restart_finds_same_witness : exists p s p' q' s',
  get_wifi_hardware_info demo_table None demo_world (boot (∅ : demo_props)) = Some (W_entry p, s) /\
  get_wifi_hardware_info demo_table None demo_world2 (boot (props s)) = Some (W_entry p', s') /\
  heap (chips s') !! p' = Some (mkNode demo_chip q') /\ sysfs s' = [] /\ props s' = props s.
Proof.
  destruct demo_chip_run as (p & s & q & E & Hq). exists p, s.
  destruct (restart_finds_same (P := demo_props) demo_table None [] demo_world demo_world2 ∅ p s demo_chip q
    (bytes "rtl8723bs_vq0") (bytes "8723bs-vq0") (bytes "8723bs_vq0") (bytes "realtek") eq_refl)
    as (p' & q' & s' & H); [vm_compute; reflexivity|exact E|exact Hq|repeat split| |].
  - split_and!; try (apply (bool_decide_unpack _); vm_compute; exact I); cbn; lia.
  - exists p', q', s'. split; [exact E|exact H].
Defined.

Lemma detect_spec_witness : exists ls s p s', ls.*2 = keep_last (demo_table ++ []) /\ @detect demo_props _ demo_world2 s = Some (p, s') /\
  points_to s' p (first_message ls [demo_message]) /\
  sysfs s' = sysfs s ++ [(Power_state, 49); (Scan_device, 49); (Power_state, 48); (Scan_device, 48)].
Proof.
  destruct (load_chips_run (P := demo_props) demo_table None [] ∅ eq_refl) as (ls & s & _ & Hok & Hls & _).
  assert (message_chip ls (take UEVENT_MSG_LEN demo_message) = Some (find (matches 0 0xbdad723) ls.*2)) as Hm by reflexivity.
  destruct (detect_spec ls demo_world2 s (first_message ls [demo_message]) [(Power_state, 49); (Scan_device, 49); (Power_state, 48); (Scan_device, 48)] Hok)
    as (p & s' & E & Hp & _ & _ & Hs & _).
  - cbn [sdio_devices usb_devices demo_world2 bus_chip default]. split_and!; try done. constructor; [|done]. split; [done|].
    rewrite Hm. by eexists.
  - by exists ls, s, p, s'.
Defined.

End HwDetectThm.
