(* ===== verification/HwRace.v ===== *)
(** * The listening thread and the main one (wireless/hwinfo/libhwinfo.c)

    [get_wifi_hardware_info] starts [ls_device_thread] with the address of its
    local [info_addr], powers the chip on, polls the shared [thread_state] and
    returns without a join.  The two threads are a step relation, every access to
    shared data a step of its own; the messages of the kernel are what
    [parse_uevent] makes of them: the address of a chip, or NULL.  The detection
    starts with [thread_state] as the program starts with it, [exited]. *)

From stdpp Require Import base tactics option list numbers relations.
From Stdlib Require Import ZArith Lia.
From S2P Require Import Prelude HwInfo HwDetect.

Import HwInfo HwDetect.

Local Open Scope Z_scope.
Local Open Scope list_scope.

Module HwRace.

(** Where the listening thread is: not yet run; about to open and bind its
    socket; at the test of its loop; in the wait for a message; about to store the
    result; about to say it is done; ended, with 0 or with -1. *)
Inductive tpc := T_start | T_setup | T_test | T_poll | T_store (wifiinfo : Z) | T_close | T_done | T_failed.

(** The main thread, from the creation on: attempts to power on that are left;
    turns of its wait that are left; about to read [thread_state] after the wait;
    about to store [exiting]; about to take the result; returned with it. *)
Inductive mpc := M_power (turns : nat) | M_wait (turns : nat) | M_stop | M_mark | M_take | M_returned (wifiinfo : Z).

(** [sent]: what the kernel has named so far.  [stale]: the thread has stored
    through the address of [info_addr] after its function returned. *)
Record race := mkRace {
  main_pc : mpc;
  thread_pc : tpc;
  state : thread_st;
  info_addr : Z;
  sent : list Z;
  stale : bool
}.

(** The loop of the power file makes five turns at most, since [i] grows twice in
    each. *)
Definition start : race := mkRace (M_power 5) T_start exited NULL [] false.

Definition returned (m : mpc) : bool := match m with M_returned _ => true | _ => false end.

Inductive step : race -> race -> Prop :=
| main_powers n t st i k b answer : step (mkRace (M_power (S n)) t st i k b)
    (mkRace (if 0 <? answer then M_wait 20 else M_power n) t st i k b)
| main_no_power t st i k b : step (mkRace (M_power 0) t st i k b) (mkRace (M_returned NULL) t st i k b)
| main_sees_exit n t i k b : step (mkRace (M_wait (S n)) t exited i k b) (mkRace M_stop t exited i k b)
| main_sleeps n t st i k b : st <> exited -> step (mkRace (M_wait (S n)) t st i k b) (mkRace (M_wait n) t st i k b)
| main_times_out t st i k b : step (mkRace (M_wait 0) t st i k b) (mkRace M_stop t st i k b)
| main_tests t st i k b : step (mkRace M_stop t st i k b)
    (mkRace (match st with running => M_mark | _ => M_take end) t st i k b)
| main_marks t st i k b : step (mkRace M_mark t st i k b) (mkRace M_take t exiting i k b)
| main_takes t st i k b : step (mkRace M_take t st i k b) (mkRace (M_returned i) t st i k b)
| thread_starts m st i k b : step (mkRace m T_start st i k b) (mkRace m T_setup running i k b)
| thread_fails m st i k b : step (mkRace m T_setup st i k b) (mkRace m T_failed st i k b)
| thread_listens m st i k b : step (mkRace m T_setup st i k b) (mkRace m T_test st i k b)
| thread_goes_on m i k b : step (mkRace m T_test running i k b) (mkRace m T_poll running i k b)
| thread_leaves m st i k b : st <> running -> step (mkRace m T_test st i k b) (mkRace m T_close st i k b)
| thread_nothing m st i k b : step (mkRace m T_poll st i k b) (mkRace m T_test st i k b)
| thread_message m st i k b p : step (mkRace m T_poll st i k b)
    (mkRace m (T_store p) (if p =? NULL then st else exiting) i (k ++ [p]) b)
| thread_stores m st i k b p : step (mkRace m (T_store p) st i k b)
    (mkRace m T_test st p k (b || returned m))
| thread_exits m st i k b : step (mkRace m T_close st i k b) (mkRace m T_done exited i k b).

Definition reachable (s : race) : Prop := rtc step start s.

(** The result is the chip that was named last. *)
Definition good (s : race) : Prop := info_addr s <> NULL /\ last (sent s) = Some (info_addr s).

(** The main thread powers on or waits. *)
Definition before_stop (m : mpc) : bool := match m with M_power _ | M_wait _ => true | _ => false end.

(** What holds in all interleavings. *)
Record inv (s : race) : Prop := {
  inv_info : info_addr s = NULL \/ info_addr s ∈ sent s;
  inv_store : match thread_pc s with T_store p => last (sent s) = Some p | _ => True end;
  inv_result : match main_pc s with M_returned p => p = NULL \/ p ∈ sent s | _ => True end;
  inv_early : stale s = true -> returned (main_pc s) = true;
  inv_deaf : match thread_pc s with
             | T_start | T_setup | T_failed => info_addr s = NULL /\ sent s = [] /\ stale s = false
             | _ => True
             end;
  inv_wait : before_stop (main_pc s) = true ->
             match thread_pc s with
             | T_start => state s = exited
             | T_setup | T_failed => state s = running
             | T_test => state s = running \/ state s = exiting /\ good s
             | T_poll => state s = running
             | T_store p => if p =? NULL then state s = running else state s = exiting
             | T_close => good s
             | T_done => state s = exited /\ good s
             end
}.

Lemma inv_start_state : inv start.
Proof. split; cbn; try done. by left. Qed.

Lemma last_elem (k : list Z) p : last k = Some p -> p ∈ k.
Proof. intros H. apply last_Some in H as [k' ->]. apply elem_of_app. right. left. Qed.

Lemma inv_step s s' : inv s -> step s s' -> inv s'.
Proof.
  intros [H1 H2 H3 H4 H5 H6] Hs. destruct Hs;
    try match goal with |- context [if 0 <? ?a then _ else _] => destruct (0 <? a) end;
    split; cbn in *; try done; unfold good in *; cbn in *.
  all: try (intros Hm; specialize (H6 Hm); intuition congruence).
  all: try (by left).
  all: try (intros Hb; specialize (H4 Hb); by destruct st0).
  - by destruct st0.
  - by destruct st0.
  - destruct H1 as [->|H1]; [by left|right]. apply elem_of_app. by left.
  - apply last_snoc.
  - destruct m; try done. destruct H3 as [->|H3]; [by left|right]. apply elem_of_app. by left.
  - intros Hm. specialize (H6 Hm). by destruct (p =? NULL).
  - right. by apply last_elem.
  - destruct b; [by rewrite H4|done].
  - intros Hm. specialize (H6 Hm). destruct (Z.eqb_spec p NULL); [by left|by right].
Qed.

Lemma reachable_inv s : reachable s -> inv s.
Proof.
  intros H. refine (rtc_ind_r (fun x => inv x) start _ _ s H); [apply inv_start_state|].
  intros x y _ Hs Hx. by eapply inv_step.
Qed.

(** Once the thread has ended nothing is stored any more, and the main thread can
    only return what is in the variable (or NULL, when the power never comes on). *)
Record settled (c : Z) (k : list Z) (s : race) : Prop := {
  settled_thread : thread_pc s = T_done \/ thread_pc s = T_failed;
  settled_data : info_addr s = c /\ sent s = k /\ stale s = false;
  settled_main : match main_pc s with M_power _ => c = NULL | M_returned p => p = c | _ => True end
}.

Lemma settled_step c k s s' : settled c k s -> step s s' -> settled c k s'.
Proof.
  intros [[Ht|Ht] Hd Hm] Hs; destruct Hs; cbn in *; try done; split; cbn; auto;
    try match goal with |- context [if 0 <? ?a then _ else _] => destruct (0 <? a) end;
    try match goal with st : thread_st |- _ => destruct st end;
    intuition congruence.
Qed.

Lemma settled_steps c k s s' : settled c k s -> rtc step s s' -> settled c k s'.
Proof. intros Hs H. induction H as [|x y z Hxy _ IH]; [done|]. apply IH. by eapply settled_step. Qed.

(** C20: In every interleaving of the two threads the chip that is returned is
    NULL or one that a message named.  When the chip is powered on and the listening
    thread is done before the wait of the main one has ended, then in every
    continuation the main thread returns the chip that was named last, which is not
    NULL, and nothing is stored after the return through the address of the local
    variable.  When the thread could not open or bind its socket, then in every
    continuation the main thread returns NULL, without a message read and without
    such a store, but it cannot tell: while it powers on and waits [thread_state]
    stays [running], and the wait ends by its twenty turns alone. *)
Theorem listening_result s : reachable s ->
  (forall p, main_pc s = M_returned p -> p = NULL \/ p ∈ sent s) /\
  (forall n s' p, main_pc s = M_wait n -> thread_pc s = T_done -> rtc step s s' -> main_pc s' = M_returned p ->
    p <> NULL /\ last (sent s) = Some p /\ sent s' = sent s /\ stale s' = false) /\
  (thread_pc s = T_failed ->
    (before_stop (main_pc s) = true -> state s = running) /\
    forall s' p, rtc step s s' -> main_pc s' = M_returned p -> p = NULL /\ sent s' = [] /\ stale s' = false).
Proof.
  intros [H1 H2 H3 H4 H5 H6]%reachable_inv. split_and!.
  - intros p Hp. by rewrite Hp in H3.
  - intros n s' p Hm Ht Hs Hp. rewrite Hm, Ht in H6. destruct (H6 eq_refl) as (_ & Hn & Hl).
    destruct (settled_steps (info_addr s) (sent s) s s') as [_ (_ & Hk & Hst) Hr]; [|done|].
    + split; [by left| |by rewrite Hm]. split_and!; [done..|].
      destruct (stale s); [|done]. by rewrite Hm in H4; specialize (H4 eq_refl).
    + rewrite Hp in Hr. subst p. by split_and!.
  - intros Ht. rewrite Ht in H5, H6. destruct H5 as (Hi & Hk & Hst). split; [done|]. intros s' p Hs Hp.
    destruct (settled_steps NULL [] s s') as [_ (_ & Hk' & Hst') Hr]; [|done|].
    + split; [by right|done|]. destruct (main_pc s); try done. destruct H3 as [->|H3]; [done|].
      rewrite Hk in H3. by apply elem_of_nil in H3.
    + by rewrite Hp in Hr.
Qed.

(** The power comes on at the first attempt. *)
Lemma reach_wait : reachable (mkRace (M_wait 20) T_start exited NULL [] false).
Proof. eapply rtc_l; [apply (main_powers _ _ _ _ _ _ 1)|]. apply rtc_refl. Qed.

(** The thread runs until it has found a chip. *)
Lemma thread_finds m i b p : p <> NULL ->
  rtc step (mkRace m T_start exited i [] b) (mkRace m T_done exited p [p] (b || returned m)).
Proof.
  intros Hp.
  eapply rtc_l; [apply thread_starts|]. eapply rtc_l; [apply thread_listens|]. eapply rtc_l; [apply thread_goes_on|].
  eapply rtc_l; [apply (thread_message _ _ _ _ _ p)|]. rewrite (proj2 (Z.eqb_neq _ _) Hp).
  eapply rtc_l; [apply thread_stores|]. eapply rtc_l; [by apply thread_leaves|].
  eapply rtc_l; [apply thread_exits|]. apply rtc_refl.
Qed.

(** A main thread that waits and sees [exited] returns what the variable holds. *)
Lemma main_returns n t i k b : rtc step (mkRace (M_wait (S n)) t exited i k b) (mkRace (M_returned i) t exited i k b).
Proof.
  eapply rtc_l; [apply main_sees_exit|]. eapply rtc_l; [apply main_tests|]. eapply rtc_l; [apply main_takes|].
  apply rtc_refl.
Qed.

(** The main thread powers on, the listening one is told of chip 7 and ends, and
    the main one returns it; and a run where the socket cannot be opened. *)
Lemma listening_result_witness :
  (exists s s', reachable s /\ main_pc s = M_wait 20 /\ thread_pc s = T_done /\ rtc step s s' /\
    main_pc s' = M_returned 7 /\ last (sent s) = Some 7 /\ stale s' = false) /\
  (exists s, reachable s /\ thread_pc s = T_failed /\ state s = running).
Proof.
  split.
  - assert (reachable (mkRace (M_wait 20) T_done exited 7 [7] false)) as Hr.
    { unfold reachable. etrans; [apply reach_wait|]. by apply thread_finds. }
    exists (mkRace (M_wait 20) T_done exited 7 [7] false), (mkRace (M_returned 7) T_done exited 7 [7] false).
    destruct (listening_result _ Hr) as (_ & H & _).
    destruct (H 20%nat _ 7 eq_refl eq_refl (main_returns 19 T_done 7 [7] false) eq_refl) as (_ & Hl & _ & Hs).
    split_and!; try done. apply main_returns.
  - assert (reachable (mkRace (M_wait 20) T_failed running NULL [] false)) as Hr.
    { unfold reachable. etrans; [apply reach_wait|]. eapply rtc_l; [apply thread_starts|].
      eapply rtc_l; [apply thread_fails|]. apply rtc_refl. }
    exists (mkRace (M_wait 20) T_failed running NULL [] false).
    destruct (listening_result _ Hr) as (_ & _ & H). destruct (H eq_refl) as [Hst _].
    split; [exact Hr|]. split; [reflexivity|]. exact (Hst eq_refl).
Defined.

(** The wait ends too early when the new thread has not run yet, since
    [thread_state] is [exited] from the start: the main thread returns that there
    is no chip, and the listening one later stores the chip the kernel names
    through the address of a variable that is gone. *)
Theorem chip_can_be_missed p : p <> NULL -> exists s, reachable s /\
  main_pc s = M_returned NULL /\ thread_pc s = T_done /\ sent s = [p] /\ stale s = true.
Proof.
  intros Hp. exists (mkRace (M_returned NULL) T_done exited p [p] true). split; [|done].
  unfold reachable. etrans; [apply reach_wait|]. etrans; [apply main_returns|].
  exact (thread_finds (M_returned NULL) NULL false p Hp).
Qed.

Lemma chip_can_be_missed_witness : 7 <> NULL /\ exists s, reachable s /\ stale s = true.
Proof.
  split; [done|]. destruct (chip_can_be_missed 7) as (s & H & _ & _ & _ & Hs); [done|]. by exists s.
Defined.

(** When the power does not come on, the function returns at once and leaves the
    listening thread running: a chip that is named later is stored through the
    address of a variable that is gone. *)
Theorem no_power_leaves_thread p : p <> NULL -> exists s s', reachable s /\
  main_pc s = M_returned NULL /\ thread_pc s = T_poll /\ state s = running /\
  rtc step s s' /\ stale s' = true.
Proof.
  intros Hp.
  exists (mkRace (M_returned NULL) T_poll running NULL [] false), (mkRace (M_returned NULL) T_test exiting p [p] true).
  split_and!; try done.
  - unfold reachable, start. do 5 (eapply rtc_l; [apply (main_powers _ _ _ _ _ _ 0)|]).
    eapply rtc_l; [apply main_no_power|]. eapply rtc_l; [apply thread_starts|].
    eapply rtc_l; [apply thread_listens|]. eapply rtc_l; [apply thread_goes_on|]. apply rtc_refl.
  - eapply rtc_l; [apply (thread_message _ _ _ _ _ p)|]. rewrite (proj2 (Z.eqb_neq _ _) Hp).
    eapply rtc_l; [apply thread_stores|]. apply rtc_refl.
Qed.

Lemma no_power_leaves_thread_witness : 7 <> NULL /\ exists s, main_pc s = M_returned NULL /\ state s = running.
Proof.
  split; [done|]. destruct (no_power_leaves_thread 7) as (s & s' & _ & H & _ & Hr & _); [done|]. by exists s.
Defined.

End HwRace.
