(* ===== verification/AudioPlat.v ===== *)
(** * The platform layer of the audio HAL (audio/hal/platform.c, usecase.c)

    The description of a board in audio_platform_info.xml, the choice of a
    platform device for the devices Android asks for, and the back-end streams of
    the sound cards.  The parser expat calls [start_tag] for every element: a
    document is the list of its elements.  The constants of Android's headers are
    the parameter [hdr], the sound library is a list of answers.  [None] is
    undefined behaviour; [malloc] is taken to succeed. *)

From stdpp Require Import base tactics option list list_numbers numbers gmap.
From Stdlib Require Import ZArith Lia.
From Stdlib Require String.
From S2P Require Import Prelude CString.

Import String.StringSyntax.
Import CString.

Local Open Scope Z_scope.
Local Open Scope list_scope.
Local Open Scope c_scope.

Module AudioPlat.

(** ** Platform devices *)

Definition OUT_NONE : Z := 0.
Definition OUT_RESET : Z := 1.
Definition OUT_EAR : Z := 2.
Definition OUT_SPK : Z := 3.
Definition OUT_DULSPK : Z := 4.
Definition OUT_HP : Z := 5.
Definition OUT_SPK_HP : Z := 6.
Definition OUT_DULSPK_HP : Z := 7.
Definition OUT_BTSCO : Z := 8.
Definition OUT_DPH_PLAY : Z := 9.
Definition OUT_APH_PLAY : Z := 10.
Definition OUT_HDMI : Z := 11.
Definition OUT_SPDIF : Z := 12.
Definition OUT_SPK_HDMI : Z := 13.
Definition OUT_DULSPK_HDMI : Z := 14.
Definition OUT_HP_HDMI : Z := 15.
Definition OUT_SPK_SPDIF : Z := 16.
Definition OUT_DULSPK_SPDIF : Z := 17.
Definition OUT_HP_SPDIF : Z := 18.
Definition OUT_HDMI_SPDIF : Z := 19.
Definition OUT_SPK_HDMI_SPDIF : Z := 20.
Definition OUT_DULSPK_HDMI_SPDIF : Z := 21.
Definition OUT_HP_HDMI_SPDIF : Z := 22.
Definition IN_AMIC : Z := 23.
Definition IN_DMIC : Z := 24.
Definition IN_HPMIC : Z := 25.
Definition IN_BTSCO : Z := 26.
Definition IN_DPH_REC : Z := 27.
Definition IN_APH_REC : Z := 28.
Definition APH_SPK : Z := 29.
Definition APH_EAR : Z := 30.
Definition APH_HP : Z := 31.
Definition APH_HS : Z := 32.
Definition APH_BTSCO : Z := 33.
Definition DPH_SPK : Z := 34.
Definition DPH_EAR : Z := 35.
Definition DPH_HP : Z := 36.
Definition DPH_HS : Z := 37.
Definition DPH_BTSCO : Z := 38.
Definition NUM_PLATFORM_DEVICE : Z := 39.

Definition pdev_str_tab : list (Z * list Z) :=
  [(OUT_NONE, bytes "OUT_NONE"); (OUT_RESET, bytes "OUT_RESET"); (OUT_EAR, bytes "OUT_EAR"); (OUT_SPK, bytes "OUT_SPK");
   (OUT_DULSPK, bytes "OUT_DULSPK"); (OUT_HP, bytes "OUT_HP"); (OUT_SPK_HP, bytes "OUT_SPK_HP"); (OUT_DULSPK_HP, bytes "OUT_DULSPK_HP");
   (OUT_BTSCO, bytes "OUT_BTSCO"); (OUT_DPH_PLAY, bytes "OUT_DPH_PLAY"); (OUT_APH_PLAY, bytes "OUT_APH_PLAY"); (OUT_HDMI, bytes "OUT_HDMI");
   (OUT_SPDIF, bytes "OUT_SPDIF"); (OUT_SPK_HDMI, bytes "OUT_SPK_HDMI"); (OUT_DULSPK_HDMI, bytes "OUT_DULSPK_HDMI"); (OUT_HP_HDMI, bytes "OUT_HP_HDMI");
   (OUT_SPK_SPDIF, bytes "OUT_SPK_SPDIF"); (OUT_DULSPK_SPDIF, bytes "OUT_DULSPK_SPDIF"); (OUT_HP_SPDIF, bytes "OUT_HP_SPDIF"); (OUT_HDMI_SPDIF, bytes "OUT_HDMI_SPDIF");
   (OUT_SPK_HDMI_SPDIF, bytes "OUT_SPK_HDMI_SPDIF"); (OUT_DULSPK_HDMI_SPDIF, bytes "OUT_DULSPK_HDMI_SPDIF"); (OUT_HP_HDMI_SPDIF, bytes "OUT_HP_HDMI_SPDIF"); (IN_AMIC, bytes "IN_AMIC");
   (IN_DMIC, bytes "IN_DMIC"); (IN_HPMIC, bytes "IN_HPMIC"); (IN_BTSCO, bytes "IN_BTSCO"); (IN_DPH_REC, bytes "IN_DPH_REC");
   (IN_APH_REC, bytes "IN_APH_REC"); (APH_SPK, bytes "APH_SPK"); (APH_EAR, bytes "APH_EAR"); (APH_HP, bytes "APH_HP");
   (APH_HS, bytes "APH_HS"); (APH_BTSCO, bytes "APH_BTSCO"); (DPH_SPK, bytes "DPH_SPK"); (DPH_EAR, bytes "DPH_EAR");
   (DPH_HP, bytes "DPH_HP"); (DPH_HS, bytes "DPH_HS"); (DPH_BTSCO, bytes "DPH_BTSCO")].

Definition str2pdev (str : list Z) : Z :=
  match find (fun e => bool_decide (snd e = str)) pdev_str_tab with Some (v, _) => v | None => OUT_NONE end.

(** [None]: the buffer is left as it is. *)
Definition pdev2str (val : Z) : option (list Z) :=
  snd <$> find (fun e => fst e =? val mod 2 ^ 32) pdev_str_tab.

(** ** Use cases (usecase.c) *)

Definition UC_NODE : Z := 0.
Definition UC_DUAL_SPK : Z := 1.
Definition UC_DMIC : Z := 2.
Definition UC_EAR : Z := 4.
Definition UC_DPHONE : Z := 8.

(** [prop]: a property of the system, or the default given. *)
Definition get_use_case (prop : list Z -> list Z -> list Z) : Z :=
  let yes val := bool_decide (val = bytes "true") || bool_decide (val = bytes "1") in
  let ret := UC_NODE in
  let ret := if bool_decide (prop (bytes "ro.vendor.audio.without.earpiece") (bytes "true") = bytes "false") then Z.lor ret UC_EAR else ret in
  let ret := if yes (prop (bytes "ro.vendor.dmic.used") (bytes "false")) then Z.lor ret UC_DMIC else ret in
  let ret := if yes (prop (bytes "ro.vendor.spk_dul.used") (bytes "false")) then Z.lor ret UC_DUAL_SPK else ret in
  let val := prop (bytes "ro.vendor.sw.audio.codec_plan_name") (bytes "PLAN_PAD") in
  if bool_decide (val = bytes "PLAN_TWO") || bool_decide (val = bytes "PLAN_DPHONE") then Z.lor ret UC_DPHONE else ret.

(** ** Profiles *)

Definition NUM_PROFILE : nat := 16.
Definition NUM_BACKEND : nat := 2.

(** A member that no attribute has set holds any value: [None]. *)
Record card_config := mkCard {
  card : option Z;
  port : option Z;
  channels : option Z;
  rate : option Z;
  period_size : option Z;
  period_count : option Z
}.

Definition zero_card : card_config := mkCard (Some 0) (Some 0) (Some 0) (Some 0) (Some 0) (Some 0).
Definition any_card : card_config := mkCard None None None None None None.

Record pdev_profile := mkProfile {
  devices : option (list Z);
  frontend : card_config;
  in_be : list card_config;
  in_bec : nat;
  out_be : list card_config;
  out_bec : nat
}.

(** [calloc]. *)
Definition new_profile : pdev_profile :=
  mkProfile None zero_card (replicate NUM_BACKEND zero_card) 0 (replicate NUM_BACKEND zero_card) 0.

Definition PLUGIN_DUMP_DATA : Z := 1.
Definition PLUGIN_3D_AUDIO : Z := 2.
Definition PLUGIN_BP : Z := 4.

Section plat.
(** The constants of Android's headers: numbers, texts and floating point; [atof]. *)
Variables (hdr : String.string -> Z) (hdr_text : String.string -> list Z).
Context {F : Type} (atof : list Z -> F) (constf : String.string -> F).

Definition const (name : String.string) : Z := hdr name.
Definition ctext (name : String.string) : list Z := hdr_text name.
Definition cfloat (name : String.string) : F := constf name.
Arguments const name%_string_scope.
Arguments ctext name%_string_scope.
Arguments cfloat name%_string_scope.

Record mic_info := mkMic { mi_device_id : list Z; channel_mapping : list Z }.

(** struct audio_microphone_characteristic_t; its channel mapping apart. *)
Record characteristic := mkChar {
  device_id : list Z;
  device : Z;
  address : list Z;
  location : Z;
  group : Z;
  index_in_the_group : Z;
  directionality : Z;
  frequencies : list F;
  responses : list F;
  sensitivity : F;
  max_spl : F;
  min_spl : F;
  orientation : list F;
  geometric_location : list F
}.

(** [mic_map]: the microphones of every device, by position. *)
Record platform_info := mkInfo {
  plugins_config : Z;
  profiles : list (option pdev_profile);
  profile_index : Z;
  pdev_path : list (option (list Z));
  in_snd_device : Z;
  microphones : list characteristic;
  mic_map : list (list mic_info)
}.

Definition info0 : platform_info :=
  mkInfo 0 (replicate NUM_PROFILE None) (-1) (replicate (Z.to_nat NUM_PLATFORM_DEVICE) None) 0 []
    (replicate (Z.to_nat NUM_PLATFORM_DEVICE) []).

Local Abbreviation PM := (M platform_info).

Definition set_plugins v (i : platform_info) := mkInfo v (profiles i) (profile_index i) (pdev_path i) (in_snd_device i) (microphones i) (mic_map i).
Definition set_profiles l n (i : platform_info) := mkInfo (plugins_config i) l n (pdev_path i) (in_snd_device i) (microphones i) (mic_map i).
Definition set_path l (i : platform_info) := mkInfo (plugins_config i) (profiles i) (profile_index i) l (in_snd_device i) (microphones i) (mic_map i).
Definition set_snd_device d (i : platform_info) := mkInfo (plugins_config i) (profiles i) (profile_index i) (pdev_path i) d (microphones i) (mic_map i).
Definition set_mics l (i : platform_info) := mkInfo (plugins_config i) (profiles i) (profile_index i) (pdev_path i) (in_snd_device i) l (mic_map i).
Definition set_mic_map l (i : platform_info) := mkInfo (plugins_config i) (profiles i) (profile_index i) (pdev_path i) (in_snd_device i) (microphones i) l.

(** ** Tables of names *)

Definition mic_locations : list (list Z * Z) :=
  [(bytes "AUDIO_MICROPHONE_LOCATION_UNKNOWN", const "AUDIO_MICROPHONE_LOCATION_UNKNOWN"); (bytes "AUDIO_MICROPHONE_LOCATION_MAINBODY", const "AUDIO_MICROPHONE_LOCATION_MAINBODY");
   (bytes "AUDIO_MICROPHONE_LOCATION_MAINBODY_MOVABLE", const "AUDIO_MICROPHONE_LOCATION_MAINBODY_MOVABLE"); (bytes "AUDIO_MICROPHONE_LOCATION_PERIPHERAL", const "AUDIO_MICROPHONE_LOCATION_PERIPHERAL")].

Definition mic_directionalities : list (list Z * Z) :=
  [(bytes "AUDIO_MICROPHONE_DIRECTIONALITY_OMNI", const "AUDIO_MICROPHONE_DIRECTIONALITY_OMNI"); (bytes "AUDIO_MICROPHONE_DIRECTIONALITY_BI_DIRECTIONAL", const "AUDIO_MICROPHONE_DIRECTIONALITY_BI_DIRECTIONAL");
   (bytes "AUDIO_MICROPHONE_DIRECTIONALITY_UNKNOWN", const "AUDIO_MICROPHONE_DIRECTIONALITY_UNKNOWN"); (bytes "AUDIO_MICROPHONE_DIRECTIONALITY_CARDIOID", const "AUDIO_MICROPHONE_DIRECTIONALITY_CARDIOID");
   (bytes "AUDIO_MICROPHONE_DIRECTIONALITY_HYPER_CARDIOID", const "AUDIO_MICROPHONE_DIRECTIONALITY_HYPER_CARDIOID"); (bytes "AUDIO_MICROPHONE_DIRECTIONALITY_SUPER_CARDIOID", const "AUDIO_MICROPHONE_DIRECTIONALITY_SUPER_CARDIOID")].

Definition mic_channel_mapping : list (list Z * Z) :=
  [(bytes "AUDIO_MICROPHONE_CHANNEL_MAPPING_UNUSED", const "AUDIO_MICROPHONE_CHANNEL_MAPPING_UNUSED"); (bytes "AUDIO_MICROPHONE_CHANNEL_MAPPING_DIRECT", const "AUDIO_MICROPHONE_CHANNEL_MAPPING_DIRECT");
   (bytes "AUDIO_MICROPHONE_CHANNEL_MAPPING_PROCESSED", const "AUDIO_MICROPHONE_CHANNEL_MAPPING_PROCESSED")].

Definition device_in_types : list (list Z * Z) :=
  [(bytes "AUDIO_DEVICE_IN_AMBIENT", const "AUDIO_DEVICE_IN_AMBIENT"); (bytes "AUDIO_DEVICE_IN_COMMUNICATION", const "AUDIO_DEVICE_IN_COMMUNICATION");
   (bytes "AUDIO_DEVICE_IN_BUILTIN_MIC", const "AUDIO_DEVICE_IN_BUILTIN_MIC"); (bytes "AUDIO_DEVICE_IN_BLUETOOTH_SCO_HEADSET", const "AUDIO_DEVICE_IN_BLUETOOTH_SCO_HEADSET");
   (bytes "AUDIO_DEVICE_IN_WIRED_HEADSET", const "AUDIO_DEVICE_IN_WIRED_HEADSET"); (bytes "AUDIO_DEVICE_IN_AUX_DIGITAL", const "AUDIO_DEVICE_IN_AUX_DIGITAL");
   (bytes "AUDIO_DEVICE_IN_HDMI", const "AUDIO_DEVICE_IN_HDMI"); (bytes "AUDIO_DEVICE_IN_VOICE_CALL", const "AUDIO_DEVICE_IN_VOICE_CALL");
   (bytes "AUDIO_DEVICE_IN_TELEPHONY_RX", const "AUDIO_DEVICE_IN_TELEPHONY_RX"); (bytes "AUDIO_DEVICE_IN_BACK_MIC", const "AUDIO_DEVICE_IN_BACK_MIC");
   (bytes "AUDIO_DEVICE_IN_REMOTE_SUBMIX", const "AUDIO_DEVICE_IN_REMOTE_SUBMIX"); (bytes "AUDIO_DEVICE_IN_ANLG_DOCK_HEADSET", const "AUDIO_DEVICE_IN_ANLG_DOCK_HEADSET");
   (bytes "AUDIO_DEVICE_IN_DGTL_DOCK_HEADSET", const "AUDIO_DEVICE_IN_DGTL_DOCK_HEADSET"); (bytes "AUDIO_DEVICE_IN_USB_ACCESSORY", const "AUDIO_DEVICE_IN_USB_ACCESSORY");
   (bytes "AUDIO_DEVICE_IN_USB_DEVICE", const "AUDIO_DEVICE_IN_USB_DEVICE"); (bytes "AUDIO_DEVICE_IN_FM_TUNER", const "AUDIO_DEVICE_IN_FM_TUNER");
   (bytes "AUDIO_DEVICE_IN_TV_TUNER", const "AUDIO_DEVICE_IN_TV_TUNER"); (bytes "AUDIO_DEVICE_IN_LINE", const "AUDIO_DEVICE_IN_LINE");
   (bytes "AUDIO_DEVICE_IN_SPDIF", const "AUDIO_DEVICE_IN_SPDIF"); (bytes "AUDIO_DEVICE_IN_BLUETOOTH_A2DP", const "AUDIO_DEVICE_IN_BLUETOOTH_A2DP");
   (bytes "AUDIO_DEVICE_IN_LOOPBACK", const "AUDIO_DEVICE_IN_LOOPBACK"); (bytes "AUDIO_DEVICE_IN_IP", const "AUDIO_DEVICE_IN_IP");
   (bytes "AUDIO_DEVICE_IN_BUS", const "AUDIO_DEVICE_IN_BUS"); (bytes "AUDIO_DEVICE_IN_PROXY", const "AUDIO_DEVICE_IN_PROXY");
   (bytes "AUDIO_DEVICE_IN_USB_HEADSET", const "AUDIO_DEVICE_IN_USB_HEADSET"); (bytes "AUDIO_DEVICE_IN_BLUETOOTH_BLE", const "AUDIO_DEVICE_IN_BLUETOOTH_BLE");
   (bytes "AUDIO_DEVICE_IN_DEFAULT", const "AUDIO_DEVICE_IN_DEFAULT")].

Definition find_enum_by_string (table : list (list Z * Z)) (name : list Z) : option Z :=
  snd <$> find (fun e => bool_decide (fst e = name)) table.

(** [atoi]; a number that is no [int] is undefined. *)
Definition atoi (s : list Z) : option Z :=
  let s := drop_while isspace s in
  let neg := first s =? 45 in
  let v := digits_from 10 0 (if (first s =? 45) || (first s =? 43) then tail s else s) in
  let v := if neg then - v else v in
  if (INT_MIN <=? v) && (v <=? INT_MAX) then Some v else None.

(** ** The elements of the document

    The attributes of an element, as expat gives them: names and values in turn,
    then a null pointer, which is undefined to read as a string. *)

(** [attr[n]]. *)
Definition attr_at (attr : list (list Z)) (n : nat) : PM (list Z) :=
  match attr !! n with Some s => ret s | None => stuck end.

Definition parse_plugin (attr : list (list Z)) : PM unit :=
  name <- attr_at attr 1 ;;
  let plugin (n : list Z) (flag : Z) (k : PM unit) : PM unit :=
    if bool_decide (name = n) then
      on <- attr_at attr 3 ;;
      if bool_decide (on = bytes "on") then modify (fun i => set_plugins (Z.lor (plugins_config i) flag) i) else k
    else k in
  plugin (bytes "audio_3d_surround") PLUGIN_3D_AUDIO (plugin (bytes "dump_data") PLUGIN_DUMP_DATA (plugin (bytes "bp") PLUGIN_BP (ret tt))).

Definition parse_platform_devices_profile : PM unit :=
  i <- get ;;
  if Z.of_nat NUM_PROFILE - 1 <? profile_index i then ret tt else
  let n := profile_index i + 1 in
  match aset (profiles i) n (Some new_profile) with
  | Some l => put (set_profiles l n i)
  | None => stuck
  end.

(** The profile at the index, changed. *)
Definition on_profile (f : pdev_profile -> option pdev_profile) : PM unit :=
  i <- get ;;
  match aget (profiles i) (profile_index i) with
  | Some (Some p) =>
      match f p with
      | Some p => match aset (profiles i) (profile_index i) (Some p) with Some l => put (set_profiles l (profile_index i) i) | None => stuck end
      | None => stuck
      end
  | _ => stuck
  end.

Definition parse_platform_devices (attr : list (list Z)) : PM unit :=
  d <- attr_at attr 1 ;;
  on_profile (fun p => Some (mkProfile (Some d) (frontend p) (in_be p) (in_bec p) (out_be p) (out_bec p))).

(** [cards n]: /sys/class/sound/card[n]/id; [None] when it cannot be opened,
    [Some None] when nothing is read. *)
Fixpoint get_card_loop (fuel : nat) (i : Z) (cards : Z -> option (option (list Z))) (card_name : list Z) : Z :=
  match fuel with
  | O => 0
  | S fuel =>
      match cards i with
      | None => 0
      | Some (Some name) =>
          if bool_decide (cstr (removelast (take 64 name)) = card_name) then i else get_card_loop fuel (i + 1) cards card_name
      | Some None => get_card_loop fuel (i + 1) cards card_name
      end
  end.

Definition get_card (cards : Z -> option (option (list Z))) (card_name : list Z) : Z := get_card_loop 10 0 cards card_name.

(** One attribute of snd_card_config. *)
Definition card_attr cards (n v : list Z) (c : card_config) : option card_config :=
  let 'mkCard a b d e f g := c in
  if bool_decide (n = bytes "card_name") then Some (mkCard (Some (get_card cards v)) b d e f g)
  else if bool_decide (n = bytes "device") then x ← atoi v; Some (mkCard a (Some x) d e f g)
  else if bool_decide (n = bytes "channels") then x ← atoi v; Some (mkCard a b (Some x) e f g)
  else if bool_decide (n = bytes "rate") then x ← atoi v; Some (mkCard a b d (Some x) f g)
  else if bool_decide (n = bytes "period_size") then x ← atoi v; Some (mkCard a b d e (Some x) g)
  else if bool_decide (n = bytes "period_count") then x ← atoi v; Some (mkCard a b d e f (Some x))
  else Some c.

(** [for (i = 0; attr[i]; i += 2)]: the first loop. *)
Fixpoint card_attrs cards (attr : list (list Z)) (c : card_config) : option card_config :=
  match attr with
  | n :: v :: attr => c ← card_attr cards n v c; card_attrs cards attr c
  | [] => Some c
  | [_] => None
  end.

(** [memcpy] of the configuration to the next place of an array. *)
Definition add_in_be (c : card_config) (p : pdev_profile) : option pdev_profile :=
  l ← aset (in_be p) (Z.of_nat (in_bec p)) c;
  Some (mkProfile (devices p) (frontend p) l (S (in_bec p)) (out_be p) (out_bec p)).
Definition add_out_be (c : card_config) (p : pdev_profile) : option pdev_profile :=
  l ← aset (out_be p) (Z.of_nat (out_bec p)) c;
  Some (mkProfile (devices p) (frontend p) (in_be p) (in_bec p) l (S (out_bec p))).

(** The second loop; it ends at an unknown type. *)
Fixpoint card_types (attr : list (list Z)) (c : card_config) (p : pdev_profile) : option pdev_profile :=
  match attr with
  | n :: v :: attr =>
      if bool_decide (n = bytes "type") then
        if bool_decide (v = bytes "frontend") then
          card_types attr c (mkProfile (devices p) c (in_be p) (in_bec p) (out_be p) (out_bec p))
        else if bool_decide (v = bytes "in_backend") then p ← add_in_be c p; card_types attr c p
        else if bool_decide (v = bytes "out_backend") then p ← add_out_be c p; card_types attr c p
        else if bool_decide (v = bytes "backend") then p ← add_in_be c p; p ← add_out_be c p; card_types attr c p
        else Some p
      else card_types attr c p
  | [] => Some p
  | [_] => None
  end.

Definition parse_snd_card_config cards (attr : list (list Z)) : PM unit :=
  i <- get ;;
  if (0 <=? profile_index i) && (profile_index i <? Z.of_nat NUM_PROFILE) then
    match card_attrs cards attr any_card with
    | None => stuck
    | Some c => on_profile (card_types attr c)
    end
  else ret tt.

(** The device and the path of a device_path_map; the loop ends at the path. *)
Fixpoint path_attrs (attr : list (list Z)) (pdev : Z) : option (Z * option (list Z)) :=
  match attr with
  | n :: v :: attr =>
      if bool_decide (n = bytes "device") then path_attrs attr (str2pdev v)
      else if bool_decide (n = bytes "path") then Some (pdev, Some v)
      else path_attrs attr pdev
  | [] => Some (pdev, None)
  | [_] => None
  end.

Definition parse_device_path_map (attr : list (list Z)) : PM unit :=
  match path_attrs attr OUT_NONE with
  | None => stuck
  | Some (pdev, path) =>
      i <- get ;;
      match aset (pdev_path i) pdev path with Some l => put (set_path l i) | None => stuck end
  end.

(** ** Microphones *)

(** [false] when the device or the number of microphones is refused. *)
Definition platform_set_microphone_map (d : Z) (m : mic_info) : PM bool :=
  if (d <? IN_AMIC) || (IN_APH_REC <=? d) then ret false else
  i <- get ;;
  match aget (mic_map i) d with
  | None => stuck
  | Some l =>
      if const "AUDIO_MICROPHONE_MAX_COUNT" <=? Z.of_nat (length l) then ret false else
      match aset (mic_map i) d (l ++ [m]) with Some t => put (set_mic_map t i) ;;; ret true | None => stuck end
  end.

Definition parse_platform_snd_dev (attr : list (list Z)) : PM unit :=
  modify (set_snd_device OUT_NONE) ;;;
  k <- attr_at attr 0 ;;
  if negb (bool_decide (k = bytes "in_snd_device")) then ret tt else
  v <- attr_at attr 1 ;;
  let d := str2pdev v in
  modify (set_snd_device (if (d <? IN_AMIC) || (IN_APH_REC <? d) then OUT_NONE else d)).

(** Reading the attributes in order: undefined behaviour, an early end, or a
    value and the attributes that are left. *)
Inductive parsed (A : Type) := Undefined | Refused | Parsed (a : A) (rest : list (list Z)).
Arguments Undefined {A}.
Arguments Refused {A}.
Arguments Parsed {A}.

Definition parser (A : Type) : Type := list (list Z) -> parsed A.
Definition pret {A} (a : A) : parser A := fun l => Parsed a l.
Definition pbind {A B} (m : parser A) (k : A -> parser B) : parser B := fun l =>
  match m l with Undefined => Undefined | Refused => Refused | Parsed a l => k a l end.

Local Notation "'do' x <- m ;; k" := (pbind m (fun x => k)) (at level 100, x name, m at next level, right associativity).

Definition undefined {A} : parser A := fun _ => Undefined.
Definition refuse {A} : parser A := fun _ => Refused.
Definition guard (b : bool) : parser unit := if b then pret tt else refuse.

(** [attr[curIdx++]] *)
Definition next : parser (list Z) := fun l => match l with v :: l => Parsed v l | [] => Undefined end.

(** [strcmp(attr[curIdx++], key)], then the value. *)
Definition value (key : String.string) : parser (list Z) :=
  do k <- next ;; do _ <- guard (bool_decide (k = bytes key)) ;; next.
Arguments value key%_string_scope.

Definition lift {A} (o : option A) : parser A := match o with Some a => pret a | None => undefined end.
Definition found {A} (o : option A) : parser A := match o with Some a => pret a | None => refuse end.

(** The words of a value. *)
Fixpoint words (fuel : nat) (s : list Z) : list (list Z) :=
  match fuel with
  | O => []
  | S fuel => match strtok SP s with Some (t, s) => t :: words fuel s | None => [] end
  end.

(** A loop that stores the words in an array of [size]: the check comes after the
    store, so one word too many is out of bounds. *)
Definition store_words (size : Z) (s : list Z) : parser (list F) :=
  let w := words (length s) s in
  if size <? Z.of_nat (length w) then undefined else pret (atof <$> w).

Definition parse_mic_info : parser mic_info :=
  do id <- value "mic_device_id" ;;
  let id := take (Z.to_nat (const "AUDIO_MICROPHONE_ID_MAX_LEN" - 1)) id in
  do v <- value "channel_mapping" ;;
  let fix channels (w : list (list Z)) (l : list Z) : parser (list Z) :=
    match w with
    | [] => pret l
    | t :: w =>
        match find_enum_by_string mic_channel_mapping t with
        | None => refuse
        | Some c => if const "AUDIO_CHANNEL_COUNT_MAX" <=? Z.of_nat (length l) then undefined else channels w (l ++ [c])
        end
    end in
  do l <- channels (words (length v) v) [] ;;
  pret (mkMic id l).

Definition parse_platform_mic_info (attr : list (list Z)) : PM unit :=
  match parse_mic_info attr with
  | Undefined => stuck
  | Refused => modify (set_snd_device OUT_NONE)
  | Parsed m _ => i <- get ;; platform_set_microphone_map (in_snd_device i) m ;;; ret tt
  end.

(** [strcpy] to an array of [size]; refused when the text is longer than that. *)
Definition copy_checked (size : Z) (s : list Z) : parser (list Z) :=
  do _ <- guard (Z.of_nat (length s) <=? size) ;;
  if Z.of_nat (length s) =? size then undefined else pret s.

Definition CHARACTERISTIC_SENSITIVITY : Z := 1.
Definition CHARACTERISTIC_MAX_SPL : Z := 2.
Definition CHARACTERISTIC_MIN_SPL : Z := 4.
Definition CHARACTERISTIC_ORIENTATION : Z := 8.
Definition CHARACTERISTIC_GEOMETRIC_LOCATION : Z := 16.

Definition has (mask bit : Z) : bool := negb (Z.land mask bit =? 0).

(** The address of a microphone without one. *)
Definition default_address (dev : Z) (addr : list Z) : list Z :=
  match addr with
  | [] =>
      if dev =? const "AUDIO_DEVICE_IN_BUILTIN_MIC" then ctext "AUDIO_BOTTOM_MICROPHONE_ADDRESS"
      else if dev =? const "AUDIO_DEVICE_IN_BACK_MIC" then ctext "AUDIO_BACK_MICROPHONE_ADDRESS" else addr
  | _ => addr
  end.

(** [num_frequency_responses] words of frequencies and as many of responses. *)
Definition parse_responses : parser (list F * list F) :=
  let max := const "AUDIO_MICROPHONE_MAX_FREQUENCY_RESPONSES" in
  do v <- value "num_frequency_responses" ;; do n <- lift (atoi v) ;;
  let n := u32 n in
  do _ <- guard (negb (max <? n)) ;;
  if 0 <? n then
    do v <- value "frequencies" ;; do fs <- store_words max v ;;
    do v <- value "responses" ;; do rs <- store_words max v ;;
    do _ <- guard ((Z.of_nat (length fs) =? Z.of_nat (length rs)) && (Z.of_nat (length fs) =? n)) ;;
    pret (fs, rs)
  else pret ([], []).

Definition optional (b : bool) (key : String.string) (default : F) : parser F :=
  if b then do v <- value key ;; pret (atof v) else pret default.
Arguments optional b key%_string_scope default.

(** Three coordinates. *)
Definition coordinates (b : bool) (key : String.string) (default : list F) : parser (list F) :=
  if b then do v <- value key ;; do w <- store_words 3 v ;; do _ <- guard (length w =? 3)%nat ;; pret w else pret default.
Arguments coordinates b key%_string_scope default.

Definition parse_characteristic : parser characteristic :=
  do v <- value "valid_mask" ;; do valid_mask <- lift (atoi v) ;;
  do v <- value "device_id" ;; do id <- copy_checked (const "AUDIO_MICROPHONE_ID_MAX_LEN") v ;;
  do v <- value "type" ;; do dev <- found (find_enum_by_string device_in_types v) ;;
  do v <- value "address" ;; do addr <- copy_checked (const "AUDIO_DEVICE_MAX_ADDRESS_LEN") v ;;
  do v <- value "location" ;; do loc <- found (find_enum_by_string mic_locations v) ;;
  do v <- value "group" ;; do grp <- lift (atoi v) ;;
  do v <- value "index_in_the_group" ;; do idx <- lift (atoi v) ;;
  do v <- value "directionality" ;; do dir <- found (find_enum_by_string mic_directionalities v) ;;
  do fr <- parse_responses ;;
  do sens <- optional (has valid_mask CHARACTERISTIC_SENSITIVITY) "sensitivity" (cfloat "AUDIO_MICROPHONE_SENSITIVITY_UNKNOWN") ;;
  do smax <- optional (has valid_mask CHARACTERISTIC_MAX_SPL) "max_spl" (cfloat "AUDIO_MICROPHONE_SPL_UNKNOWN") ;;
  do smin <- optional (has valid_mask CHARACTERISTIC_MIN_SPL) "min_spl" (cfloat "AUDIO_MICROPHONE_SPL_UNKNOWN") ;;
  do ori <- coordinates (has valid_mask CHARACTERISTIC_ORIENTATION) "orientation" (replicate 3 (cfloat "0.0")) ;;
  do geo <- coordinates (has valid_mask CHARACTERISTIC_GEOMETRIC_LOCATION) "geometric_location"
    (replicate 3 (cfloat "AUDIO_MICROPHONE_COORDINATE_UNKNOWN")) ;;
  pret (mkChar id dev (default_address dev addr) loc (u32 grp) (u32 idx) dir (fst fr) (snd fr) sens smax smin ori geo).

Definition platform_set_microphone_characteristic (mic : characteristic) : PM bool :=
  i <- get ;;
  if const "AUDIO_MICROPHONE_MAX_COUNT" <=? Z.of_nat (length (microphones i)) then ret false else
  put (set_mics (microphones i ++ [mic]) i) ;;; ret true.

Definition parse_platform_microphone_characteristic (attr : list (list Z)) : PM unit :=
  match parse_characteristic attr with
  | Undefined => stuck
  | Refused => ret tt
  | Parsed m _ => platform_set_microphone_characteristic m ;;; ret tt
  end.

(** ** The document *)

Definition start_tag cards (tag_name : list Z) (attr : list (list Z)) : PM unit :=
  if bool_decide (tag_name = bytes "snd_card_config") then parse_snd_card_config cards attr
  else if bool_decide (tag_name = bytes "platform_devices_profile") then parse_platform_devices_profile
  else if bool_decide (tag_name = bytes "platform_devices") then parse_platform_devices attr
  else if bool_decide (tag_name = bytes "platform_device_path") then ret tt
  else if bool_decide (tag_name = bytes "device_path_map") then parse_device_path_map attr
  else if bool_decide (tag_name = bytes "platform_audio_plugins_config") then ret tt
  else if bool_decide (tag_name = bytes "plugin") then parse_plugin attr
  else if bool_decide (tag_name = bytes "snd_dev") then parse_platform_snd_dev attr
  else if bool_decide (tag_name = bytes "mic_info") then parse_platform_mic_info attr
  else if bool_decide (tag_name = bytes "microphone") then parse_platform_microphone_characteristic attr
  else ret tt.

(** The elements in the order of their start tags. *)
Fixpoint parse_elements cards (doc : list (list Z * list (list Z))) : PM unit :=
  match doc with
  | [] => ret tt
  | (tag, attr) :: doc => start_tag cards tag attr ;;; parse_elements cards doc
  end.

End plat.
Arguments const hdr name%_string_scope.
End AudioPlat.
