(* ===== verification/AudioRoute.v ===== *)
(** * Devices, back ends and microphones of the audio HAL (audio/hal/platform.c)

    The choice of a platform device, the profile that describes it, the back-end
    streams that are opened for it, the lists of microphones, and the call-backs
    of plug-ins.  [platform] is the state of struct platform; the streams of the
    sound library are numbers, and [ready] says which of them open. *)

From stdpp Require Import base tactics option list list_numbers numbers gmap.
From Stdlib Require Import ZArith Lia.
From Stdlib Require String.
From S2P Require Import Prelude CString AudioPlat.

Import String.StringSyntax.
Import CString AudioPlat.

Local Open Scope Z_scope.
Local Open Scope list_scope.
Local Open Scope c_scope.

Module AudioRoute.

Section route.
Variables (hdr : String.string -> Z).
Context {F : Type}.

Definition const (name : String.string) : Z := hdr name.
Arguments const name%_string_scope.

(** ** The platform device for Android's devices *)

(** [devices & bits] *)
Definition any (devices bits : Z) : bool := negb (Z.land devices bits =? 0).

Definition get_platform_phone_device (devices uc : Z) : Z :=
  if any uc UC_DPHONE then
    if any devices (const "AUDIO_DEVICE_OUT_EARPIECE") then if any uc UC_EAR then DPH_EAR else DPH_SPK
    else if any devices (const "AUDIO_DEVICE_OUT_SPEAKER") then DPH_SPK
    else if any devices (const "AUDIO_DEVICE_OUT_WIRED_HEADPHONE") then DPH_HP
    else if any devices (const "AUDIO_DEVICE_OUT_WIRED_HEADSET") then DPH_HS
    else if any devices (const "AUDIO_DEVICE_OUT_ALL_SCO") then DPH_BTSCO
    else DPH_SPK
  else
    if any devices (const "AUDIO_DEVICE_OUT_EARPIECE") then if any uc UC_EAR then APH_EAR else APH_SPK
    else if any devices (const "AUDIO_DEVICE_OUT_SPEAKER") then APH_SPK
    else if any devices (const "AUDIO_DEVICE_OUT_WIRED_HEADPHONE") then APH_HP
    else if any devices (const "AUDIO_DEVICE_OUT_WIRED_HEADSET") then APH_HS
    else if any devices (const "AUDIO_DEVICE_OUT_ALL_SCO") then APH_BTSCO
    else APH_SPK.

(** The first step: without regard to the mode. *)
Definition plain_device (devices uc : Z) : Z :=
  if any devices (const "AUDIO_DEVICE_BIT_IN") then
    let indev := Z.land devices (Z.lxor (2 ^ 32 - 1) (const "AUDIO_DEVICE_BIT_IN")) in
    if any indev (const "AUDIO_DEVICE_IN_BUILTIN_MIC") then if any uc UC_DMIC then IN_DMIC else IN_AMIC
    else if any indev (const "AUDIO_DEVICE_IN_WIRED_HEADSET") then IN_HPMIC
    else if any indev (const "AUDIO_DEVICE_IN_ALL_SCO") then IN_BTSCO
    else IN_AMIC
  else
    let headphone := Z.lor (const "AUDIO_DEVICE_OUT_WIRED_HEADSET") (const "AUDIO_DEVICE_OUT_WIRED_HEADPHONE") in
    if any devices (const "AUDIO_DEVICE_OUT_EARPIECE") then OUT_EAR
    else if any devices (const "AUDIO_DEVICE_OUT_SPEAKER") && any devices headphone then
      if any uc UC_DUAL_SPK then OUT_DULSPK_HP else OUT_SPK_HP
    else if any devices (const "AUDIO_DEVICE_OUT_SPEAKER") then if any uc UC_DUAL_SPK then OUT_DULSPK else OUT_SPK
    else if any devices headphone then OUT_HP
    else if any devices (const "AUDIO_DEVICE_OUT_ALL_SCO") then OUT_BTSCO
    else if any devices (const "AUDIO_DEVICE_OUT_AUX_DIGITAL") then OUT_HDMI
    else OUT_SPK.

Definition get_platform_device (mode devices uc : Z) : Z :=
  let pdev := plain_device devices uc in
  if mode =? const "AUDIO_MODE_IN_CALL" then
    if any devices (const "AUDIO_DEVICE_BIT_IN") then if any uc UC_DPHONE then IN_DPH_REC else IN_APH_REC
    else if any uc UC_DPHONE then OUT_DPH_PLAY else OUT_APH_PLAY
  else pdev.

(** ** The platform *)

Inductive direction := PCM_OUT | PCM_IN | PCM_OTHER.

(** A call of the mixer library. *)
Inductive route_call := Route_reset | Route_update | Route_apply (path : list Z) | Route_apply_update (path : list Z).

(** [open_pcms]: the streams that are open, with the configurations they were
    opened with; [next_pcm]: the next one. *)
Record platform := mkPlatform {
  info : @platform_info F;
  in_bec : nat;
  out_bec : nat;
  in_backends : list (option Z);
  out_backends : list (option Z);
  uc : Z;
  open_pcms : gmap Z (direction * card_config);
  next_pcm : Z;
  route : list route_call
}.

Local Abbreviation RM := (M platform).

Definition set_info i (p : platform) := mkPlatform i (in_bec p) (out_bec p) (in_backends p) (out_backends p) (uc p) (open_pcms p) (next_pcm p) (route p).
Definition set_in l n (p : platform) := mkPlatform (info p) n (out_bec p) l (out_backends p) (uc p) (open_pcms p) (next_pcm p) (route p).
Definition set_out l n (p : platform) := mkPlatform (info p) (in_bec p) n (in_backends p) l (uc p) (open_pcms p) (next_pcm p) (route p).
Definition set_pcms o n (p : platform) := mkPlatform (info p) (in_bec p) (out_bec p) (in_backends p) (out_backends p) (uc p) o n (route p).
Definition call c (p : platform) := mkPlatform (info p) (in_bec p) (out_bec p) (in_backends p) (out_backends p) (uc p) (open_pcms p) (next_pcm p) (route p ++ [c]).

Definition reset_platform_path : RM Z := modify (call Route_reset) ;;; modify (call Route_update) ;;; ret 0.
Definition reset_platform_in_path : RM Z := modify (call (Route_apply (bytes "in-reset"))) ;;; modify (call Route_update) ;;; ret 0.
Definition reset_platform_out_path : RM Z := modify (call (Route_apply (bytes "out-reset"))) ;;; modify (call Route_update) ;;; ret 0.
Definition update_platform_path : RM Z := modify (call Route_update) ;;; ret 0.
Definition apply_platform_path (mixer_path : list Z) : RM unit := modify (call (Route_apply mixer_path)).
Definition apply_and_update_platform_path (mixer_path : list Z) : RM unit := modify (call (Route_apply_update mixer_path)).

(** [strcpy] of a null pointer for a device that has no path. *)
Definition get_platform_path (pdev : Z) : RM (list Z) :=
  p <- get ;;
  match aget (pdev_path (info p)) pdev with Some (Some path) => ret path | _ => stuck end.

(** ** The profile of a device *)

(** The loop over the profiles: the index of the one that is left in [profile],
    which is the last one when none names the device. *)
Fixpoint profile_loop (l : list (option pdev_profile)) (name : list Z) (i : nat) (cur : option nat) : option (option nat) :=
  match l with
  | [] => Some cur
  | None :: l => profile_loop l name (S i) None
  | Some p :: l =>
      d ← devices p;
      if strstr d name then Some (Some i) else profile_loop l name (S i) (Some i)
  end.

(** The profile and its index; a name that is not written is undefined. *)
Definition find_profile (pdev : Z) : RM (option (nat * pdev_profile)) :=
  p <- get ;;
  match pdev2str pdev with
  | None => stuck
  | Some name =>
      match profile_loop (profiles (info p)) name 0 None with
      | None => stuck
      | Some None => ret None
      | Some (Some i) => match profiles (info p) !! i with Some (Some q) => ret (Some (i, q)) | _ => stuck end
      end
  end.

(** The return value and what it stores at its arguments. *)
Definition get_platform_snd_card_config (pdev : Z) : RM (Z * option card_config) :=
  q <- find_profile pdev ;;
  match q with None => ret (-1, None) | Some (_, q) => ret (0, Some (frontend q)) end.

Definition update_platform_snd_card_config (new_channels new_rate : Z) (pdev : Z) : RM Z :=
  q <- find_profile pdev ;;
  match q with
  | None => ret (-1)
  | Some (n, q) =>
      let 'mkCard a b _ _ e f := frontend q in
      let q := mkProfile (devices q) (mkCard a b (Some new_channels) (Some new_rate) e f)
        (in_be q) (AudioPlat.in_bec q) (out_be q) (AudioPlat.out_bec q) in
      modify (fun p => set_info (set_profiles (<[n := Some q]> (profiles (info p))) (profile_index (info p)) (info p)) p) ;;;
      ret 0
  end.

(** ** Back ends *)

Section pcm.
(** Does the stream open? *)
Variable ready : Z -> bool.

Definition pcm_open (d : direction) (c : card_config) : RM Z := fun p =>
  Some (next_pcm p, set_pcms (<[next_pcm p := (d, c)]> (open_pcms p)) (next_pcm p + 1) p).

(** Undefined for a stream that is not open. *)
Definition pcm_close (h : Z) : RM unit := fun p =>
  match open_pcms p !! h with Some _ => Some (tt, set_pcms (delete h (open_pcms p)) (next_pcm p) p) | None => None end.

(** [platform->out_backends[platform->out_bec++] = backend_pcm] *)
Definition keep_pcm (d : direction) (h : Z) : RM unit := fun p =>
  match d with
  | PCM_OUT => l ← aset (out_backends p) (Z.of_nat (out_bec p)) (Some h); Some (tt, set_out l (S (out_bec p)) p)
  | PCM_IN => l ← aset (in_backends p) (Z.of_nat (in_bec p)) (Some h); Some (tt, set_in l (S (in_bec p)) p)
  | PCM_OTHER => Some (tt, p)
  end.

(** The code sets four members of [pcm_conf], those of [c]; the library reads the
    others too (format, thresholds, silence), which are left uninitialised: whether a
    stream opens with them is a part of [ready]. *)
Fixpoint enable_loop (d : direction) (backend : list card_config) : RM Z :=
  match backend with
  | [] => ret 0
  | c :: backend =>
      h <- pcm_open d c ;;
      if negb (ready h) then pcm_close h ;;; ret (-12) else
      keep_pcm d h ;;;
      enable_loop d backend
  end.

Definition enable_platform_backend_pcm (pdev : Z) (d : direction) : RM Z :=
  q <- find_profile pdev ;;
  match q with
  | None => ret (-1)
  | Some (_, q) =>
      match d with
      | PCM_OUT => enable_loop d (take (AudioPlat.out_bec q) (out_be q))
      | PCM_IN => enable_loop d (take (AudioPlat.in_bec q) (in_be q))
      | PCM_OTHER => ret 0
      end
  end.

(** The loop over the slots of a direction. *)
Fixpoint close_loop (slots : list (option Z)) : RM (list (option Z)) :=
  match slots with
  | [] => ret []
  | None :: slots => l <- close_loop slots ;; ret (None :: l)
  | Some h :: slots => pcm_close h ;;; l <- close_loop slots ;; ret (None :: l)
  end.

Definition disable_platform_backend_pcm (d : direction) : RM Z :=
  p <- get ;;
  match d with
  | PCM_OUT => l <- close_loop (out_backends p) ;; modify (set_out l 0) ;;; ret 0
  | PCM_IN => l <- close_loop (in_backends p) ;; modify (set_in l 0) ;;; ret 0
  | PCM_OTHER => ret 0
  end.

End pcm.

(** ** Starting *)

(** [platform_init]: the platform and the card of the mixer, which is any value
    when no profile is for the speaker. *)
Definition platform_init (i : @platform_info F) (use_case : Z) : option (platform * option Z) :=
  let p := mkPlatform i 0 0 (replicate NUM_BACKEND None) (replicate NUM_BACKEND None) use_case ∅ 1 [] in
  '(r, p) ← get_platform_snd_card_config OUT_SPK p;
  Some (p, c ← snd r; card c).

(** ** Microphones *)

(** The microphones and their number, for room for [max]; with no room only the
    number that are declared. *)
Definition platform_get_microphones (max : Z) : RM (list (@characteristic F) * Z) :=
  p <- get ;;
  let mics := microphones (info p) in
  if max =? 0 then ret ([], Z.of_nat (length mics)) else
  let l := take (Z.to_nat max) mics in ret (l, Z.of_nat (length l)).

(** The first declared microphone with the name. *)
Definition declared (mics : list (@characteristic F)) (id : list Z) : option (@characteristic F) :=
  find (fun m => bool_decide (device_id m = id)) mics.

(** The active microphones with the mapping of their channels; [room] is the
    length of the array that is given, which the code does not know. *)
Fixpoint active_loop (mics : list (@characteristic F)) (nchannels : Z) (room : nat) (l : list mic_info)
    (acc : list (@characteristic F * list Z)) : option (list (@characteristic F * list Z)) :=
  match l with
  | [] => Some acc
  | m :: l =>
      match declared mics (mi_device_id m) with
      | None => active_loop mics nchannels room l acc
      | Some c =>
          if (room <=? length acc)%nat then None else
          active_loop mics nchannels room l (acc ++ [(c, take (Z.to_nat nchannels) (channel_mapping m))])
      end
  end.

Definition platform_get_active_microphones (mode in_devices nchannels : Z) (room : nat) : RM (list (@characteristic F * list Z) * Z) :=
  p <- get ;;
  let in_pdev := get_platform_device mode in_devices (uc p) in
  if in_pdev =? OUT_NONE then ret ([], 0) else
  match aget (mic_map (info p)) in_pdev with
  | None => stuck
  | Some l =>
      match active_loop (microphones (info p)) nchannels room l [] with
      | None => stuck
      | Some r => ret (r, Z.of_nat (length r))
      end
  end.

(** ** Plug-ins *)

(** The events, which are also the call-backs. *)
Inductive event :=
| ON_ADEV_OPEN | ON_ADEV_CLOSE | ON_SELECT_DEVICES
| ON_OPEN_OUTPUT_STREAM | ON_CLOSE_OUTPUT_STREAM | ON_START_OUTPUT_STREAM | ON_OUT_STANDBY | ON_OUT_WRITE
| ON_OPEN_INPUT_STREAM | ON_CLOSE_INPUT_STREAM | ON_START_INPUT_STREAM | ON_IN_STANDBY | ON_IN_READ.

(** A plug-in: the call-backs it has. *)
Definition audio_plugin : Type := event -> bool.

(** What each of the four functions passes on. *)
Definition handles (e : event) (kind : nat) : bool :=
  match e, kind with
  | (ON_ADEV_OPEN | ON_ADEV_CLOSE | ON_OPEN_OUTPUT_STREAM | ON_CLOSE_OUTPUT_STREAM | ON_OUT_STANDBY
    | ON_OPEN_INPUT_STREAM | ON_CLOSE_INPUT_STREAM | ON_IN_STANDBY), 0%nat => true
  | (ON_START_OUTPUT_STREAM | ON_START_INPUT_STREAM), 1%nat => true
  | ON_SELECT_DEVICES, 2%nat => true
  | (ON_OUT_WRITE | ON_IN_READ), 3%nat => true
  | _, _ => false
  end.

Definition plugin_call (kind : nat) (plugin : audio_plugin) (flag : event) : list event :=
  if handles flag kind && plugin flag then [flag] else [].
Definition plugin_process := plugin_call 0.
Definition plugin_process_start_stream := plugin_call 1.
Definition plugin_process_select_devices := plugin_call 2.
Definition plugin_process_read_write := plugin_call 3.

(** [queue]: the plug-ins and the flags that enable them. *)
Definition dump_data : audio_plugin := fun e =>
  match e with ON_ADEV_OPEN | ON_ADEV_CLOSE | ON_OUT_WRITE | ON_IN_READ => true | _ => false end.
Definition queue : list (audio_plugin * Z) := [(dump_data, PLUGIN_DUMP_DATA)].

Definition plugins_process (f : audio_plugin -> event -> list event) (flag : event) (p : platform) : list event :=
  concat ((fun q => if any (plugins_config (info p)) (snd q) then f (fst q) flag else []) <$> queue).
Definition platform_plugins_process := plugins_process plugin_process.
Definition platform_plugins_process_select_devices := plugins_process plugin_process_select_devices.
Definition platform_plugins_process_start_stream := plugins_process plugin_process_start_stream.
Definition platform_plugins_process_read_write := plugins_process plugin_process_read_write.

End route.
End AudioRoute.
