(* ===== verification/AudioThm.v ===== *)
(** * The platform layer of the audio HAL does what it is for

    The invariant of the board description under all elements of its document,
    when reading it is safe, the choice of devices and profiles, and that back
    ends are closed again. *)

From stdpp Require Import base tactics option list list_numbers numbers gmap fin_maps.
From Stdlib Require Import ZArith Lia.
From Stdlib Require String.
From S2P Require Import Prelude CString AudioPlat AudioRoute.

Import String.StringSyntax.
Import CString AudioPlat AudioRoute.

Local Open Scope Z_scope.
Local Open Scope list_scope.
Local Open Scope c_scope.

Module AudioThm.

Lemma aset_some {A} (l l' : list A) i x : aset l i x = Some l' ->
  0 <= i < Z.of_nat (length l) /\ l' = <[Z.to_nat i := x]> l.
Proof.
  unfold aset. destruct (Z.leb_spec 0 i), (Z.ltb_spec i (Z.of_nat (length l))); cbn; try done. intros [= <-]. by split.
Qed.

Lemma aset_run {A} (l : list A) i x : 0 <= i < Z.of_nat (length l) -> aset l i x = Some (<[Z.to_nat i := x]> l).
Proof. intros H. unfold aset. by rewrite (proj2 (Z.leb_le _ _)), (proj2 (Z.ltb_lt _ _)) by lia. Qed.

Section thm.
Variables (hdr : String.string -> Z) (hdr_text : String.string -> list Z).
Context {F : Type} (atof : list Z -> F) (constf : String.string -> F).
Variable cards : Z -> option (option (list Z)).

Local Abbreviation info_t := (@platform_info F).
Local Abbreviation max_mics := (AudioPlat.const hdr "AUDIO_MICROPHONE_MAX_COUNT").

(** ** The invariant of the description *)

Record profile_ok (q : pdev_profile) : Prop := {
  pok_in : length (in_be q) = NUM_BACKEND;
  pok_inc : (AudioPlat.in_bec q <= NUM_BACKEND)%nat;
  pok_out : length (out_be q) = NUM_BACKEND;
  pok_outc : (AudioPlat.out_bec q <= NUM_BACKEND)%nat
}.

Record info_ok (i : info_t) : Prop := {
  ok_profiles : length (profiles i) = NUM_PROFILE;
  ok_index : -1 <= profile_index i < Z.of_nat NUM_PROFILE;
  ok_present : forall n, Z.of_nat n <= profile_index i -> exists q, profiles i !! n = Some (Some q) /\ profile_ok q;
  ok_absent : forall n, profile_index i < Z.of_nat n -> (n < NUM_PROFILE)%nat -> profiles i !! n = Some None;
  ok_path : length (pdev_path i) = Z.to_nat NUM_PLATFORM_DEVICE;
  ok_map : length (mic_map i) = Z.to_nat NUM_PLATFORM_DEVICE;
  ok_maps : Forall (fun l => Z.of_nat (length l) <= Z.max 0 max_mics) (mic_map i);
  ok_mics : Z.of_nat (length (microphones i)) <= Z.max 0 max_mics;
  ok_snd : in_snd_device i = OUT_NONE \/ IN_AMIC <= in_snd_device i <= IN_APH_REC
}.

Lemma info_ok_start : info_ok info0.
Proof.
  split; cbn [info0 profiles profile_index pdev_path mic_map microphones in_snd_device]; try (by rewrite ?length_replicate).
  - intros n Hn. lia.
  - intros n _ Hn. by apply lookup_replicate_2.
  - apply Forall_replicate. cbn. lia.
  - cbn. lia.
  - by left.
Qed.

Lemma new_profile_ok : profile_ok new_profile.
Proof. split; cbn; try done; unfold NUM_BACKEND; lia. Qed.

(** A profile that is changed in place. *)
Lemma on_profile_ok f i u i' : info_ok i -> (forall q q', profile_ok q -> f q = Some q' -> profile_ok q') ->
  on_profile f i = Some (u, i') -> info_ok i'.
Proof.
  intros Hi Hf. unfold on_profile, bind, get. destruct (aget (profiles i) (profile_index i)) as [[q|]|] eqn:E; try done.
  destruct (f q) as [q'|] eqn:Ef; [|done]. destruct (aset _ _ _) as [l|] eqn:El; [|done]. intros [= <- <-].
  apply aset_some in El as [Hr ->]. unfold aget in E. rewrite (proj2 (Z.leb_le _ _)) in E by lia.
  destruct Hi as [H1 H2 H3 H4 H5 H6 H7 H8 H9]. split; cbn; try done.
  - by rewrite length_insert.
  - intros n Hn. destruct (decide (Z.to_nat (profile_index i) = n)) as [<-|Hne].
    + exists q'. split; [apply list_lookup_insert_eq; by eapply lookup_lt_Some|]. apply (Hf q); [|done].
      destruct (H3 (Z.to_nat (profile_index i)) ltac:(lia)) as (q2 & Hq & Hok). rewrite E in Hq. by injection Hq as ->.
    + rewrite list_lookup_insert_ne by done. by apply H3.
  - intros n Hn Hn'. rewrite list_lookup_insert_ne by lia. by apply H4.
Qed.

Lemma add_in_be_ok c q q' : profile_ok q -> add_in_be c q = Some q' -> profile_ok q'.
Proof.
  intros [H1 H2 H3 H4]. unfold add_in_be. destruct (aset _ _ _) as [l|] eqn:E; [|done]. intros [= <-].
  apply aset_some in E as [Hr ->]. split; cbn; rewrite ?length_insert; try done. lia.
Qed.

Lemma add_out_be_ok c q q' : profile_ok q -> add_out_be c q = Some q' -> profile_ok q'.
Proof.
  intros [H1 H2 H3 H4]. unfold add_out_be. destruct (aset _ _ _) as [l|] eqn:E; [|done]. intros [= <-].
  apply aset_some in E as [Hr ->]. split; cbn; rewrite ?length_insert; try done. lia.
Qed.

(** Induction over attributes, two at a time. *)
Lemma pairs_ind (Q : list (list Z) -> Prop) : Q [] -> (forall n, Q [n]) -> (forall n v l, Q l -> Q (n :: v :: l)) -> forall l, Q l.
Proof.
  intros H0 H1 H2. enough (forall l, Q l /\ forall n, Q (n :: l)) as H by (intros l; apply H).
  induction l as [|a l [IH1 IH2]]; split; [done|done|done|]. intros n. by apply H2.
Qed.

Lemma card_types_ok attr c : forall q q', profile_ok q -> card_types attr c q = Some q' -> profile_ok q'.
Proof.
  induction attr as [|n|n v attr IH] using pairs_ind; intros q q' Hq; cbn [card_types]; [by intros [= <-]|done|].
  destruct (bool_decide (n = bytes "type")); [|by apply IH].
  destruct (bool_decide (v = bytes "frontend")); [apply IH; by destruct Hq|].
  destruct (bool_decide (v = bytes "in_backend")).
  { destruct (add_in_be c q) as [q1|] eqn:E; [|done]. cbn. apply IH. by eapply add_in_be_ok. }
  destruct (bool_decide (v = bytes "out_backend")).
  { destruct (add_out_be c q) as [q1|] eqn:E; [|done]. cbn. apply IH. by eapply add_out_be_ok. }
  destruct (bool_decide (v = bytes "backend")); [|by intros [= <-]].
  destruct (add_in_be c q) as [q1|] eqn:E; [|done]. cbn. destruct (add_out_be c q1) as [q2|] eqn:E2; [|done]. cbn.
  apply IH. eapply add_out_be_ok; [|done]. by eapply add_in_be_ok.
Qed.

Lemma str2pdev_range s : 0 <= str2pdev s < NUM_PLATFORM_DEVICE.
Proof.
  unfold str2pdev. destruct (find _ _) as [[v n]|] eqn:E; [|unfold OUT_NONE, NUM_PLATFORM_DEVICE; lia].
  apply find_some in E as [E _]. assert (Forall (fun e => 0 <= e.1 < NUM_PLATFORM_DEVICE) pdev_str_tab) as H.
  { apply (bool_decide_unpack _). by vm_compute. }
  rewrite List.Forall_forall in H. by apply (H (v, n)).
Qed.

Lemma path_attrs_range attr : forall pdev d path, 0 <= pdev < NUM_PLATFORM_DEVICE -> path_attrs attr pdev = Some (d, path) ->
  0 <= d < NUM_PLATFORM_DEVICE.
Proof.
  induction attr as [|n|n v attr IH] using pairs_ind; intros pdev d path Hp; cbn [path_attrs]; [by intros [= <- _]|done|].
  destruct (bool_decide _); [apply IH, str2pdev_range|]. destruct (bool_decide _); [by intros [= <- _]|by apply IH].
Qed.

(** ** Every element keeps it *)

Definition keeps (m : M info_t unit) : Prop := forall i, info_ok i -> wlp m (fun _ i' => info_ok i') i.

Lemma keeps_ret u : keeps (ret u).
Proof. intros i Hi. by apply wlp_ret. Qed.
Lemma keeps_plugins f : keeps (modify (fun i => set_plugins (f i) i)).
Proof. intros i Hi u i' [= <- <-]. by destruct Hi. Qed.

Lemma keeps_parse_plugin attr : keeps (parse_plugin attr).
Proof.
  intros i Hi. unfold parse_plugin, attr_at. apply wlp_bind. destruct (attr !! 1%nat) as [name|]; [|done].
  apply wlp_ret.
  assert (forall n flag k, keeps k -> keeps (if bool_decide (name = n) then
    on <- (match attr !! 3%nat with Some s => ret s | None => stuck end) ;;
    (if bool_decide (on = bytes "on") then modify (fun i => set_plugins (Z.lor (plugins_config i) flag) i) else k) else k)) as Hk.
  { intros n flag k Hk j Hj. destruct (bool_decide (name = n)); [|by apply Hk]. apply wlp_bind.
    destruct (attr !! 3%nat) as [on|]; [|done]. apply wlp_ret. destruct (bool_decide _); [by apply keeps_plugins|by apply Hk]. }
  exact (Hk _ _ _ (Hk _ _ _ (Hk _ _ _ (keeps_ret tt))) i Hi).
Qed.

Lemma keeps_devices_profile : keeps parse_platform_devices_profile.
Proof.
  intros i Hi u i'. unfold parse_platform_devices_profile, bind, get. destruct (_ <? _) eqn:E; [by intros [= _ <-]|].
  destruct (aset _ _ _) as [l|] eqn:El; [|done]. intros [= _ <-]. apply aset_some in El as [Hr ->].
  destruct Hi as [H1 H2 H3 H4 H5 H6 H7 H8 H9]. split; cbn; try done.
  - by rewrite length_insert.
  - lia.
  - intros n Hn. destruct (decide (Z.of_nat n = profile_index i + 1)) as [He|Hne].
    + exists new_profile. split; [|apply new_profile_ok]. rewrite <- He, Nat2Z.id. apply list_lookup_insert_eq. lia.
    + rewrite list_lookup_insert_ne by lia. apply H3. lia.
  - intros n Hn Hn'. rewrite list_lookup_insert_ne by lia. apply H4; lia.
Qed.

Lemma keeps_devices attr : keeps (parse_platform_devices attr).
Proof.
  intros i Hi. unfold parse_platform_devices, attr_at. apply wlp_bind. destruct (attr !! 1%nat) as [d|]; [|done].
  apply wlp_ret. intros u i' E. apply (on_profile_ok _ _ _ _ Hi) in E; [done|]. by intros q q' [] [= <-].
Qed.

Lemma keeps_snd_card attr : keeps (parse_snd_card_config cards attr).
Proof.
  intros i Hi u i'. unfold parse_snd_card_config, bind at 1, get. destruct (_ && _); [|by intros [= _ <-]].
  destruct (card_attrs cards attr any_card) as [c|]; [|done]. intros E.
  apply (on_profile_ok _ _ _ _ Hi) in E; [done|]. intros q q'. apply card_types_ok.
Qed.

Lemma keeps_path attr : keeps (parse_device_path_map attr).
Proof.
  intros i Hi u i'. unfold parse_device_path_map. destruct (path_attrs attr OUT_NONE) as [[d path]|]; [|done].
  unfold bind, get. destruct (aset _ _ _) as [l|] eqn:E; [|done]. intros [= _ <-]. apply aset_some in E as [Hr ->].
  destruct Hi. split; cbn; try done. by rewrite length_insert.
Qed.

Lemma keeps_snd_dev attr : keeps (parse_platform_snd_dev attr).
Proof.
  intros i Hi. assert (forall d, d = OUT_NONE \/ IN_AMIC <= d <= IN_APH_REC -> info_ok (set_snd_device d i)) as Hd
    by (intros d Hd; by destruct Hi).
  unfold parse_platform_snd_dev, attr_at. apply wlp_bind. intros [] i1 [= <-]. apply wlp_bind.
  destruct (attr !! 0%nat) as [k|]; [|done]. apply wlp_ret. destruct (negb _); [apply wlp_ret, Hd; by left|].
  apply wlp_bind. destruct (attr !! 1%nat) as [v|]; [|done]. apply wlp_ret. intros [] i2 [= <-]. cbn. apply Hd.
  destruct (Z.ltb_spec (str2pdev v) IN_AMIC), (Z.ltb_spec IN_APH_REC (str2pdev v)); cbn; auto; right; lia.
Qed.

Lemma set_mic_map_ok d m i b i' : info_ok i -> platform_set_microphone_map hdr d m i = Some (b, i') -> info_ok i'.
Proof.
  intros Hi. unfold platform_set_microphone_map. destruct (_ || _); [by intros [= _ <-]|]. unfold bind, get.
  destruct (aget (mic_map i) d) as [l|] eqn:E; [|done]. destruct (_ <=? _) eqn:Hl; [by intros [= _ <-]|].
  destruct (aset _ _ _) as [t|] eqn:Et; [|done]. intros [= _ <-]. apply aset_some in Et as [Hr ->].
  destruct Hi as [H1 H2 H3 H4 H5 H6 H7 H8 H9]. split; cbn; try done.
  - by rewrite length_insert.
  - apply Forall_insert; [done|]. rewrite length_app. cbn. apply Z.leb_gt in Hl. unfold AudioPlat.const in *. lia.
Qed.

Lemma keeps_mic_info attr : keeps (parse_platform_mic_info hdr attr).
Proof.
  intros i Hi. unfold parse_platform_mic_info. destruct (parse_mic_info hdr attr) as [| |m r]; [done| |].
  - intros [] i' [= <-]. destruct Hi. split; cbn; try done. by left.
  - apply wlp_bind, wlp_get, wlp_bind. intros b i' E. apply wlp_ret. by eapply set_mic_map_ok.
Qed.

Lemma keeps_characteristic attr : keeps (parse_platform_microphone_characteristic hdr hdr_text atof constf attr).
Proof.
  intros i Hi. unfold parse_platform_microphone_characteristic. destruct (parse_characteristic _ _ _ _ attr) as [| |m r]; [done|by apply wlp_ret|].
  apply wlp_bind. intros b i'. unfold platform_set_microphone_characteristic, bind, get.
  destruct (_ <=? _) eqn:E; [intros [= _ <-]; by apply wlp_ret|]. intros [= _ <-]. apply wlp_ret.
  destruct Hi as [H1 H2 H3 H4 H5 H6 H7 H8 H9]. split; cbn; try done. rewrite length_app. cbn. apply Z.leb_gt in E. unfold AudioPlat.const in *. lia.
Qed.

Lemma keeps_start_tag tag attr : keeps (start_tag hdr hdr_text atof constf cards tag attr).
Proof.
  unfold start_tag. repeat (destruct (bool_decide _); [|]).
  all: first [apply keeps_snd_card|apply keeps_devices_profile|apply keeps_devices|apply keeps_path|apply keeps_parse_plugin
    |apply keeps_snd_dev|apply keeps_mic_info|apply keeps_characteristic|apply keeps_ret].
Qed.

(** Whatever the elements of the document are, the description of the board
    stays well formed: the profiles are the first ones of their array and no
    others, with at most as many back ends as there is room for; no device has
    more microphones than the array holds; the current input device is one.  A
    document that would break this does not return (it is undefined). *)
Theorem description_well_formed doc i u i' : info_ok i ->
  parse_elements hdr hdr_text atof constf cards doc i = Some (u, i') -> info_ok i'.
Proof.
  revert i. induction doc as [|[tag attr] doc IH]; intros i Hi; cbn [parse_elements]; [by intros [= _ <-]|].
  unfold bind. destruct (start_tag _ _ _ _ _ tag attr i) as [[u1 i1]|] eqn:E; [|done]. apply IH.
  by apply (keeps_start_tag tag attr i Hi u1 i1).
Qed.

(** ** The choice of a device *)

Local Abbreviation is_input d := (any d (AudioPlat.const hdr "AUDIO_DEVICE_BIT_IN")).

Lemma device_choice mode devices uc : let d := get_platform_device hdr mode devices uc in
  (if is_input devices then IN_AMIC <= d <= IN_APH_REC else OUT_EAR <= d <= OUT_HDMI) /\
  d <> OUT_NONE /\ 0 <= d < NUM_PLATFORM_DEVICE /\ is_Some (pdev2str d).
Proof.
  clear cards. intros d. assert (forall x, (x ∈ [OUT_EAR; OUT_DULSPK_HP; OUT_SPK_HP; OUT_DULSPK; OUT_SPK; OUT_HP; OUT_BTSCO; OUT_HDMI; OUT_DPH_PLAY; OUT_APH_PLAY]
      -> OUT_EAR <= x <= OUT_HDMI /\ is_Some (pdev2str x)) /\
    (x ∈ [IN_DMIC; IN_AMIC; IN_HPMIC; IN_BTSCO; IN_DPH_REC; IN_APH_REC] -> IN_AMIC <= x <= IN_APH_REC /\ is_Some (pdev2str x))) as Hx.
  { intros x. split; intros Hx; repeat (apply elem_of_cons in Hx as [->|Hx]); try (by apply not_elem_of_nil in Hx).
    all: split; [by vm_compute|by eexists]. }
  assert (if is_input devices then d ∈ [IN_DMIC; IN_AMIC; IN_HPMIC; IN_BTSCO; IN_DPH_REC; IN_APH_REC]
    else d ∈ [OUT_EAR; OUT_DULSPK_HP; OUT_SPK_HP; OUT_DULSPK; OUT_SPK; OUT_HP; OUT_BTSCO; OUT_HDMI; OUT_DPH_PLAY; OUT_APH_PLAY]) as Hd.
  { unfold d, get_platform_device, plain_device. change (const hdr) with (AudioPlat.const hdr).
    destruct (is_input devices); destruct (mode =? _); repeat (destruct (any _ _); cbn [andb]); set_solver. }
  destruct (is_input devices) eqn:Ei; apply Hx in Hd as [Hr Hn]; (split; [done|]).
  all: split; [unfold IN_AMIC, IN_APH_REC, OUT_EAR, OUT_HDMI, OUT_NONE in *; lia|].
  all: split; [unfold IN_AMIC, IN_APH_REC, OUT_EAR, OUT_HDMI, NUM_PLATFORM_DEVICE in *; lia|done].
Qed.

(** The platform device for any set of Android devices, in any mode and for
    any use case, is an input device for inputs and an output device for outputs,
    never [OUT_NONE]; so it has a name, a place in the table of paths and one in
    the table of microphones.  In a call it depends on the direction only. *)
Theorem device_in_range mode devices uc : let d := get_platform_device hdr mode devices uc in
  (if is_input devices then IN_AMIC <= d <= IN_APH_REC else OUT_EAR <= d <= OUT_HDMI) /\
  d <> OUT_NONE /\ 0 <= d < NUM_PLATFORM_DEVICE /\ is_Some (pdev2str d) /\
  (mode = AudioPlat.const hdr "AUDIO_MODE_IN_CALL" ->
   forall devices', is_input devices' = is_input devices -> get_platform_device hdr mode devices' uc = d).
Proof.
  intros d. destruct (device_choice mode devices uc) as (H1 & H2 & H3 & H4). do 4 (split; [assumption|]).
  intros -> devices' E. unfold d, get_platform_device. rewrite Z.eqb_refl.
  change (const hdr) with (AudioPlat.const hdr). by rewrite E.
Qed.

(** ** The profile of a device *)

(** The profile is for devices with the name in their text. *)
Definition names (name : list Z) (o : option pdev_profile) : bool :=
  match o with Some q => match devices q with Some d => if strstr d name then true else false | None => false end | None => false end.

Definition named (i : info_t) : Prop := forall n q, profiles i !! n = Some (Some q) -> is_Some (devices q).

Lemma profile_loop_run name l : (forall q, Some q ∈ l -> is_Some (devices q)) -> forall i cur,
  profile_loop l name i cur = Some (
    match list_find (fun o => names name o = true) l with
    | Some (j, _) => Some (i + j)%nat
    | None => match last l with Some (Some _) => Some (i + (length l - 1))%nat | Some None => None | None => cur end
    end).
Proof.
  induction l as [|o l IH]; intros Hd i cur; [done|]. cbn [profile_loop list_find].
  assert (forall q, Some q ∈ l -> is_Some (devices q)) as Hd' by (intros q Hq; apply Hd; by right).
  destruct o as [q|].
  - destruct (Hd q ltac:(left)) as [d Eq]. rewrite Eq. cbn [mbind option_bind]. cbn [names]. rewrite Eq.
    destruct (strstr d name) eqn:Es.
    + rewrite decide_True by done. f_equal. f_equal. lia.
    + rewrite decide_False by done. rewrite IH by done. destruct (list_find _ l) as [[j x]|]; cbn; [do 2 f_equal; lia|].
      rewrite last_cons. destruct (last l) as [[x|]|] eqn:El; [|done|by apply last_None in El as ->; rewrite Nat.add_0_r].
      destruct l; [done|]. cbn. do 2 f_equal. lia.
  - cbn [names]. rewrite decide_False by done. rewrite IH by done. destruct (list_find _ l) as [[j x]|]; cbn; [do 2 f_equal; lia|].
    rewrite last_cons. destruct (last l) as [[x|]|] eqn:El; [|done|done].
    destruct l; [done|]. cbn. do 2 f_equal. lia.
Qed.

Local Abbreviation platform := (@AudioRoute.platform F).

(** Looking for a profile returns one of the description, or none. *)
Lemma find_profile_run pdev name (p : platform) : info_ok (info p) -> named (info p) -> pdev2str pdev = Some name ->
  exists r, find_profile pdev p = Some (r, p) /\
  match r with Some (n, q) => profiles (info p) !! n = Some (Some q) | None => True end.
Proof.
  intros Hi Hn Hname. unfold find_profile, bind, get. rewrite Hname.
  rewrite profile_loop_run by (intros q (n & Hq)%list_elem_of_lookup; by eapply Hn).
  destruct (list_find _ (profiles (info p))) as [[j o]|] eqn:El.
  - apply list_find_Some in El as (Hj & Ho & _). cbn [plus]. rewrite Hj. destruct o as [q|]; [|done]. by exists (Some (j, q)).
  - destruct (lookup_lt_is_Some_2 (profiles (info p)) 15) as [o E15]; [rewrite (ok_profiles _ Hi); unfold NUM_PROFILE; lia|].
    assert (length (profiles (info p)) = 16%nat) as Hlen by apply Hi.
    assert (last (profiles (info p)) = Some o) as -> by (by rewrite last_lookup, Hlen). rewrite Hlen.
    change (0 + (16 - 1))%nat with 15%nat. destruct o as [q|]; [exists (Some (15%nat, q))|exists None]; by rewrite ?E15.
Qed.

(** The profile that is used for a device is the first one whose text names
    it, in whatever way (the name may be a part of a longer one); without such a
    profile there is none, unless all sixteen places are taken: then the last
    profile is used, though it is for other devices. *)
Theorem find_profile_spec pdev name (p : platform) : info_ok (info p) -> named (info p) -> pdev2str pdev = Some name ->
  exists r, find_profile pdev p = Some (r, p) /\
  let others k := forall m o, (m < k)%nat -> profiles (info p) !! m = Some o -> names name o = false in
  match r with
  | Some (n, q) =>
      profiles (info p) !! n = Some (Some q) /\
      (names name (Some q) = true /\ others n \/ n = 15%nat /\ others NUM_PROFILE)
  | None => others NUM_PROFILE /\ profiles (info p) !! 15%nat = Some None
  end.
Proof.
  intros Hi Hn Hname. unfold find_profile, bind, get. rewrite Hname.
  assert (length (profiles (info p)) = 16%nat) as Hlen by apply Hi.
  rewrite profile_loop_run by (intros q (n & Hq)%list_elem_of_lookup; by eapply Hn).
  destruct (list_find _ (profiles (info p))) as [[j o]|] eqn:El.
  - apply list_find_Some in El as (Hj & Ho & Hm). cbn [plus]. rewrite Hj. destruct o as [q|]; [|done].
    exists (Some (j, q)). split; [done|]. split; [done|]. left. split; [done|]. intros m o Hlt Hmo.
    apply not_true_is_false. by apply (Hm m o).
  - assert (forall m o, (m < NUM_PROFILE)%nat -> profiles (info p) !! m = Some o -> names name o = false) as Ho.
    { intros m o _ Hmo. apply not_true_is_false. apply list_find_None in El. rewrite Forall_lookup in El. by eapply El. }
    destruct (lookup_lt_is_Some_2 (profiles (info p)) 15) as [o E15]; [lia|].
    assert (last (profiles (info p)) = Some o) as -> by (by rewrite last_lookup, Hlen). rewrite Hlen.
    change (0 + (16 - 1))%nat with 15%nat. destruct o as [q|].
    + exists (Some (15%nat, q)). split; [by rewrite E15|]. split; [done|]. by right.
    + by exists None.
Qed.

(** ** Back ends *)

Section pcm.
Variable ready : Z -> bool.

(** No stream of a direction is open. *)
Definition clean (d : direction) (p : platform) : Prop :=
  match d with
  | PCM_OUT => out_backends p = replicate NUM_BACKEND None /\ AudioRoute.out_bec p = 0%nat
  | PCM_IN => in_backends p = replicate NUM_BACKEND None /\ AudioRoute.in_bec p = 0%nat
  | PCM_OTHER => True
  end.

Definition fresh (p : platform) : Prop := forall h, is_Some (open_pcms p !! h) -> h < next_pcm p.

(** The back ends of a profile. *)
Definition backends (d : direction) (q : pdev_profile) : list card_config :=
  match d with
  | PCM_OUT => take (AudioPlat.out_bec q) (out_be q)
  | PCM_IN => take (AudioPlat.in_bec q) (in_be q)
  | PCM_OTHER => []
  end.

(** The handles in the slots of a direction. *)
Definition slots (d : direction) (p : platform) : list Z :=
  omap id (match d with PCM_OUT => out_backends p | PCM_IN => in_backends p | PCM_OTHER => [] end).

Lemma fresh_none p h : fresh p -> next_pcm p <= h -> open_pcms p !! h = None.
Proof. intros Hf Hh. destruct (open_pcms p !! h) eqn:E; [|done]. assert (h < next_pcm p) by (apply Hf; by eexists). lia. Qed.

(** What opening and closing must give: the streams in the slots are those of the
    profile, in order, all of them exactly when it succeeds; closing gives the
    state of before. *)
Definition opened (d : direction) (bl : list card_config) (p : platform) (r : Z) (p1 : platform) : Prop :=
  (exists n, (n <= length bl)%nat /\ (r = 0 <-> n = length bl) /\
    ((fun h => open_pcms p1 !! h) <$> slots d p1) = ((fun c => Some (d, c)) <$> take n bl)) /\
  exists p2, disable_platform_backend_pcm d p1 = Some (0, p2) /\ open_pcms p2 = open_pcms p /\ clean d p2 /\ fresh p2.

#[local] Arguments aset : simpl never.

(** The heap of streams after opening and closing two. *)
Ltac streams n :=
  repeat first
    [ rewrite lookup_insert_eq | rewrite (lookup_insert_ne _ (n + 1) n) by lia | rewrite (lookup_insert_ne _ n (n + 1)) by lia
    | rewrite lookup_delete_eq | rewrite (lookup_delete_ne _ (n + 1) n) by lia | rewrite (lookup_delete_ne _ n (n + 1)) by lia
    | progress cbn ].

Lemma delete_two (o : gmap Z (direction * card_config)) n x y : o !! n = None -> o !! (n + 1) = None ->
  delete (n + 1) (delete n (<[n + 1 := y]> (<[n := x]> o))) = o.
Proof.
  intros H0 H1. apply map_eq. intros h. destruct (decide (h = n)) as [->|Hn]; [streams n; congruence|].
  destruct (decide (h = n + 1)) as [->|Hn']; [streams n; congruence|]. by rewrite !lookup_delete_ne, !lookup_insert_ne by done.
Qed.

Lemma delete_failed (o : gmap Z (direction * card_config)) n x y : o !! n = None -> o !! (n + 1) = None ->
  delete n (delete (n + 1) (<[n + 1 := y]> (<[n := x]> o))) = o.
Proof. intros H0 H1. rewrite delete_delete. by apply delete_two. Qed.

(** The state after the back ends in the slots are closed. *)
Lemma opened_intro d bl p r p1 n p2 : (n <= length bl)%nat -> (r = 0 <-> n = length bl) ->
  ((fun h => open_pcms p1 !! h) <$> slots d p1) = ((fun c => Some (d, c)) <$> take n bl) ->
  disable_platform_backend_pcm d p1 = Some (0, p2) -> open_pcms p2 = open_pcms p -> next_pcm p <= next_pcm p2 -> clean d p2 -> fresh p ->
  opened d bl p r p1.
Proof.
  intros H1 H2 H3 H4 H5 H6 H7 H8. split; [by exists n|]. exists p2. split_and!; [done|done|done|].
  intros h Hh. rewrite H5 in Hh. apply H8 in Hh. lia.
Qed.

Ltac run n := unfold pcm_close; cbn; rewrite ?aset_nat by (cbn; lia); streams n; eexists _, _; split; [reflexivity|].

Ltac finish H k n :=
  eapply (H _ _ k);
  [ cbn; lia | cbn; lia | cbn; streams n; done
   | unfold disable_platform_backend_pcm, bind, get; cbn; unfold bind, ret, pcm_close; cbn; streams n; reflexivity
   | cbn; rewrite ?delete_insert_id, ?delete_two, ?delete_failed by done; done | cbn; lia | done ].

Lemma enable_loop_opened d bl p : d <> PCM_OTHER -> clean d p -> fresh p -> (length bl <= 2)%nat ->
  exists r p1, enable_loop ready d bl p = Some (r, p1) /\ opened d bl p r p1.
Proof.
  intros Hd Hc Hf Hl.
  assert (open_pcms p !! next_pcm p = None) as Hn0 by (by apply fresh_none).
  assert (open_pcms p !! (next_pcm p + 1) = None) as Hn1 by (apply fresh_none; [done|lia]).
  destruct p as [i ib ob il ol u o n rt]. cbn in Hn0, Hn1.
  assert (forall r p1 k p2, (k <= length bl)%nat -> (r = 0 <-> k = length bl) ->
    ((fun h => open_pcms p1 !! h) <$> slots d p1) = ((fun c => Some (d, c)) <$> take k bl) ->
    disable_platform_backend_pcm d p1 = Some (0, p2) -> open_pcms p2 = o -> n <= next_pcm p2 -> clean d p2 ->
    opened d bl (mkPlatform i ib ob il ol u o n rt) r p1) as Hin by (intros; by eapply opened_intro).
  assert (d = PCM_OUT \/ d = PCM_IN) as Hdir by (destruct d; auto; done).
  destruct bl as [|c [|c2 [|c3 bl]]]; [..|cbn in Hl; lia]; cbn [enable_loop]; unfold bind, pcm_open; cbn [AudioRoute.next_pcm].
  - exists 0, (mkPlatform i ib ob il ol u o n rt). split; [done|].
    destruct Hdir as [-> | ->]; destruct Hc as [Hc1 Hc2]; cbn in Hc1, Hc2; subst; finish Hin 0%nat n.
  - destruct (ready n); cbn [negb]; destruct Hdir as [-> | ->]; destruct Hc as [Hc1 Hc2]; cbn in Hc1, Hc2; subst; run n.
    all: first [finish Hin 1%nat n|finish Hin 0%nat n].
  - destruct (ready n) eqn:Rn; cbn [negb]; destruct Hdir as [-> | ->]; destruct Hc as [Hc1 Hc2]; cbn in Hc1, Hc2; subst.
    all: cbn; rewrite ?aset_nat by (cbn; lia); cbn; try (destruct (ready (n + 1)); cbn [negb]); run n.
    all: first [finish Hin 2%nat n|finish Hin 1%nat n|finish Hin 0%nat n].
Qed.



Lemma present_ok (i : info_t) n q : info_ok i -> profiles i !! n = Some (Some q) -> profile_ok q.
Proof.
  intros Hi Hn. destruct (decide (Z.of_nat n <= profile_index i)) as [Hle|Hgt].
  - destruct (ok_present _ Hi n Hle) as (q' & Hq & Hok). rewrite Hn in Hq. by injection Hq as ->.
  - rewrite (ok_absent _ Hi n) in Hn; [done|lia|]. apply lookup_lt_Some in Hn. by rewrite (ok_profiles _ Hi) in Hn.
Qed.

Lemma backends_length d q : profile_ok q -> (length (backends d q) <= 2)%nat.
Proof.
  intros [H1 H2 H3 H4]. unfold NUM_BACKEND in *. destruct d; cbn; rewrite ?length_take; lia.
Qed.

(** Opening the back ends of a device and closing the direction again gives
    the streams that were open before, whatever streams fail to open: no slot is
    written out of bounds, no stream is closed twice or left open, and the
    direction is clean for the next device.  In between, the slots hold the first
    back ends of the device's profile, in order, and all of them exactly when 0 is
    returned. *)
Theorem backends_released d pdev name (p : platform) : d <> PCM_OTHER -> info_ok (info p) -> named (info p) ->
  pdev2str pdev = Some name -> clean d p -> fresh p -> exists x r p1,
  find_profile pdev p = Some (x, p) /\ enable_platform_backend_pcm ready pdev d p = Some (r, p1) /\
  match x with
  | None => r = -1 /\ p1 = p
  | Some (_, q) => opened d (backends d q) p r p1
  end.
Proof.
  intros Hd Hi Hn Hname Hc Hf. destruct (find_profile_run pdev name p Hi Hn Hname) as (x & Ex & Hx).
  unfold enable_platform_backend_pcm. rewrite (bind_some _ _ _ _ _ Ex). exists x. destruct x as [[n q]|]; [|by exists (-1), p].
  destruct (enable_loop_opened d (backends d q) p Hd Hc Hf) as (r & p1 & E & Ho).
  { apply backends_length. by eapply present_ok. }
  exists r, p1. split; [done|]. split; [|done]. by destruct d.
Qed.

End pcm.

(** ** Active microphones *)

(** The declared microphones of the device, with as many channels as asked for. *)
Definition active (mics : list (@characteristic F)) (nchannels : Z) (l : list mic_info) : list (@characteristic F * list Z) :=
  omap (fun m => c ← declared mics (mi_device_id m); Some (c, take (Z.to_nat nchannels) (channel_mapping m))) l.

Lemma active_length mics nchannels l : (length (active mics nchannels l) <= length l)%nat.
Proof. induction l as [|m l IH]; [done|]. unfold active in *. cbn. destruct (declared _ _); cbn; lia. Qed.

Lemma active_loop_run mics nchannels room l : forall acc, (length acc + length l <= room)%nat ->
  active_loop mics nchannels room l acc = Some (acc ++ active mics nchannels l).
Proof.
  induction l as [|m l IH]; intros acc Hr; cbn [active_loop active omap list_omap length] in *; [by rewrite app_nil_r|].
  destruct (declared mics (mi_device_id m)) as [c|]; cbn [mbind option_bind]; [|apply IH; lia].
  rewrite (proj2 (Nat.leb_gt _ _)) by lia. rewrite IH by (rewrite length_app; cbn; lia). by rewrite <- app_assoc.
Qed.

(** The active microphones for any devices and mode: the declared ones of the
    input device, in the order of its map, each with the first channels of its
    mapping, and their number.  They fit in an array for the largest number of
    microphones; the function itself does not know the length of the array. *)
Theorem active_microphones mode devices nchannels room (p : platform) : info_ok (info p) -> max_mics <= Z.of_nat room ->
  exists l, aget (mic_map (info p)) (get_platform_device hdr mode devices (uc p)) = Some l /\
  let r := active (microphones (info p)) nchannels l in
  platform_get_active_microphones hdr mode devices nchannels room p = Some ((r, Z.of_nat (length r)), p) /\ (length r <= room)%nat.
Proof.
  intros Hi Hroom. destruct (device_choice mode devices (uc p)) as (_ & Hne & Hr & _).
  assert (exists l, aget (mic_map (info p)) (get_platform_device hdr mode devices (uc p)) = Some l) as [l El].
  { unfold aget. rewrite (proj2 (Z.leb_le _ _)) by lia. apply lookup_lt_is_Some_2. rewrite (ok_map _ Hi). lia. }
  exists l. split; [done|]. unfold platform_get_active_microphones, bind, get.
  rewrite (proj2 (Z.eqb_neq _ _) Hne), El.
  assert (length l <= room)%nat as Hl by (pose proof (aget_Forall _ _ _ _ (ok_maps _ Hi) El) as H; cbn in H; lia).
  rewrite active_loop_run by (cbn; lia). split; [done|]. pose proof (active_length (microphones (info p)) nchannels l). lia.
Qed.

(** ** Documents *)

Local Abbreviation parse := (parse_elements hdr hdr_text atof constf cards).

Lemma parse_app a b i : parse (a ++ b) i = (parse a ;;; parse b) i.
Proof.
  revert i. induction a as [|[tag attr] a IH]; intros i; [done|]. cbn [app parse_elements]. rewrite bind_assoc.
  unfold bind. destruct (start_tag _ _ _ _ _ tag attr i) as [[u i1]|]; [|done]. rewrite IH. done.
Qed.

(** A profile as the document has it: its devices, and the attributes of its
    cards in order. *)
Definition board_profile : Type := list Z * list (list (list Z)).

Definition profile_elements (b : board_profile) : list (list Z * list (list Z)) :=
  (bytes "platform_devices_profile", []) :: (bytes "platform_devices", [bytes "devices"; fst b]) ::
  ((fun a => (bytes "snd_card_config", a)) <$> snd b).

(** The profile that these elements alone describe. *)
Fixpoint read_cards (l : list (list (list Z))) (q : pdev_profile) : option pdev_profile :=
  match l with
  | [] => Some q
  | a :: l => c ← card_attrs cards a any_card; q ← card_types a c q; read_cards l q
  end.

Definition read_profile (b : board_profile) : option pdev_profile :=
  read_cards (snd b) (mkProfile (Some (fst b)) zero_card (replicate NUM_BACKEND zero_card) 0 (replicate NUM_BACKEND zero_card) 0).

(** The profiles of the description are these, the rest as in [i]. *)
Definition with_profiles (qs : list pdev_profile) (i : info_t) : info_t :=
  set_profiles ((Some <$> qs) ++ replicate (NUM_PROFILE - length qs) None) (Z.of_nat (length qs) - 1) i.

Lemma with_profiles_snoc qs q i : with_profiles (qs ++ [q]) i =
  set_profiles ((Some <$> qs) ++ Some q :: replicate (NUM_PROFILE - S (length qs)) None) (Z.of_nat (length qs)) i.
Proof.
  unfold with_profiles. rewrite fmap_app, length_app, <- app_assoc. cbn [length app fmap list_fmap]. f_equal; [|lia].
  by rewrite Nat.add_1_r.
Qed.

Lemma insert_fmap_length (qs : list pdev_profile) (o o' : option pdev_profile) l :
  <[length qs := o']> ((Some <$> qs) ++ o :: l) = (Some <$> qs) ++ o' :: l.
Proof. rewrite insert_app_r_alt by (by rewrite length_fmap). by rewrite length_fmap, Nat.sub_diag. Qed.

Lemma lookup_fmap_length (qs : list pdev_profile) (o : option pdev_profile) l : ((Some <$> qs) ++ o :: l) !! length qs = Some o.
Proof. rewrite lookup_app_r by (by rewrite length_fmap). by rewrite length_fmap, Nat.sub_diag. Qed.

(** The last profile is changed in place. *)
Lemma on_profile_last f qs q q' (i : info_t) : (length qs < NUM_PROFILE)%nat -> f q = Some q' ->
  on_profile f (with_profiles (qs ++ [q]) i) = Some (tt, with_profiles (qs ++ [q']) i).
Proof.
  intros Hl Hf. rewrite !with_profiles_snoc. unfold on_profile, bind, get. cbn [set_profiles profile_index profiles].
  rewrite aget_nat, lookup_fmap_length. cbn. rewrite Hf, aset_nat by (rewrite length_app, length_fmap; cbn; lia).
  by rewrite insert_fmap_length.
Qed.

Lemma parse_cards l : forall qs q q' (i : info_t), (length qs < NUM_PROFILE)%nat -> read_cards l q = Some q' ->
  parse ((fun a => (bytes "snd_card_config", a)) <$> l) (with_profiles (qs ++ [q]) i) = Some (tt, with_profiles (qs ++ [q']) i).
Proof.
  induction l as [|a l IH]; intros qs q q' i Hl Hr; cbn [read_cards fmap list_fmap parse_elements] in *; [by injection Hr as ->|].
  destruct (card_attrs cards a any_card) as [c|] eqn:Ec; [|done]. cbn [mbind option_bind] in Hr.
  destruct (card_types a c q) as [q1|] eqn:Eq; [|done]. cbn [mbind option_bind] in Hr.
  assert (start_tag hdr hdr_text atof constf cards (bytes "snd_card_config") a (with_profiles (qs ++ [q]) i)
    = Some (tt, with_profiles (qs ++ [q1]) i)) as E.
  { change (start_tag hdr hdr_text atof constf cards (bytes "snd_card_config") a) with (@parse_snd_card_config F cards a).
    unfold parse_snd_card_config, bind at 1, get. cbn [with_profiles set_profiles profile_index]. rewrite length_app. cbn [length].
    rewrite (proj2 (Z.leb_le _ _)), (proj2 (Z.ltb_lt _ _)) by lia. cbn [andb]. rewrite Ec. by apply on_profile_last. }
  rewrite (bind_some _ _ _ _ _ E). by apply IH.
Qed.

Lemma parse_profile b qs q (i : info_t) : (length qs < NUM_PROFILE)%nat -> read_profile b = Some q ->
  parse (profile_elements b) (with_profiles qs i) = Some (tt, with_profiles (qs ++ [q]) i).
Proof.
  intros Hl Hr. unfold profile_elements. cbn [parse_elements].
  assert (start_tag hdr hdr_text atof constf cards (bytes "platform_devices_profile") [] (with_profiles qs i)
    = Some (tt, with_profiles (qs ++ [new_profile]) i)) as E1.
  { change (start_tag hdr hdr_text atof constf cards (bytes "platform_devices_profile") []) with (@parse_platform_devices_profile F).
    unfold parse_platform_devices_profile, bind, get. cbn [with_profiles set_profiles profile_index profiles].
    rewrite (proj2 (Z.ltb_ge _ _)) by lia. replace (Z.of_nat (length qs) - 1 + 1) with (Z.of_nat (length qs)) by lia.
    rewrite aset_nat by (rewrite length_app, length_fmap, length_replicate; lia).
    replace (NUM_PROFILE - length qs)%nat with (S (NUM_PROFILE - S (length qs))) by lia. cbn [replicate].
    by rewrite insert_fmap_length, with_profiles_snoc. }
  rewrite (bind_some _ _ _ _ _ E1).
  assert (start_tag hdr hdr_text atof constf cards (bytes "platform_devices") [bytes "devices"; fst b] (with_profiles (qs ++ [new_profile]) i)
    = Some (tt, with_profiles (qs ++ [mkProfile (Some (fst b)) zero_card (replicate NUM_BACKEND zero_card) 0 (replicate NUM_BACKEND zero_card) 0]) i)) as E2.
  { change (start_tag hdr hdr_text atof constf cards (bytes "platform_devices") [bytes "devices"; fst b])
      with (@parse_platform_devices F [bytes "devices"; fst b]).
    unfold parse_platform_devices, attr_at. cbn [lookup list_lookup]. rewrite bind_ret_l. by apply on_profile_last. }
  rewrite (bind_some _ _ _ _ _ E2). by apply parse_cards.
Qed.

(** A document with at most sixteen profiles is read as it says: the
    description has the profiles of the document in order, each exactly what its
    own elements describe, and nothing else has changed; with a seventeenth
    profile the array is written out of bounds. *)
Theorem document_profiles board qs : Forall2 (fun b q => read_profile b = Some q) board qs ->
  parse (concat (profile_elements <$> board)) info0 =
  if (length board <=? NUM_PROFILE)%nat then Some (tt, with_profiles qs info0) else None.
Proof.
  intros H. enough (forall done, (length done <= NUM_PROFILE)%nat ->
    parse (concat (profile_elements <$> board)) (with_profiles done info0) =
    if (length done + length board <=? NUM_PROFILE)%nat then Some (tt, with_profiles (done ++ qs) info0) else None) as Hg
    by (apply (Hg []); unfold NUM_PROFILE; cbn; lia).
  induction H as [|b q board qs Hb _ IH]; intros done Hd; cbn [fmap list_fmap concat length].
  { rewrite app_nil_r. by rewrite (proj2 (Nat.leb_le _ _)) by lia. }
  rewrite parse_app. destruct (decide (length done < NUM_PROFILE)%nat) as [Hlt|Hge].
  - rewrite (bind_some _ _ _ _ _ (parse_profile b done q info0 Hlt Hb)). rewrite IH by (rewrite length_app; cbn; lia).
    rewrite length_app, <- app_assoc. cbn [length app]. by replace (length done + 1 + length board)%nat with (length done + S (length board))%nat by lia.
  - rewrite (proj2 (Nat.leb_gt _ _)) by lia. unfold profile_elements, bind. cbn [parse_elements]. unfold bind.
    change (start_tag hdr hdr_text atof constf cards (bytes "platform_devices_profile") []) with (@parse_platform_devices_profile F).
    unfold parse_platform_devices_profile, bind, get. cbn [with_profiles set_profiles profile_index profiles].
    rewrite (proj2 (Z.ltb_ge _ _)) by lia. unfold aset. rewrite length_app, length_fmap, length_replicate.
    by rewrite (proj2 (Z.ltb_ge _ _)), andb_false_r by lia.
Qed.

(** Such a description is well formed. *)
Lemma with_profiles_lookup qs (i : info_t) n q : profiles (with_profiles qs i) !! n = Some (Some q) -> qs !! n = Some q.
Proof.
  cbn. intros [H|[_ H]]%lookup_app_Some.
  - rewrite list_lookup_fmap in H. destruct (qs !! n); [|done]. by injection H as ->.
  - apply lookup_replicate in H as [H _]. done.
Qed.

Lemma with_profiles_ok qs : (length qs <= NUM_PROFILE)%nat -> Forall profile_ok qs -> info_ok (with_profiles qs info0).
Proof.
  intros Hl Hq. destruct info_ok_start as [_ _ _ _ H5 H6 H7 H8 H9]. split; try done; cbn [with_profiles set_profiles profiles profile_index].
  - rewrite length_app, length_fmap, length_replicate. lia.
  - unfold NUM_PROFILE in *. lia.
  - intros n Hn. destruct (lookup_lt_is_Some_2 qs n) as [q E]; [lia|]. exists q. split; [|by eapply Forall_lookup_1].
    by apply lookup_app_l_Some; rewrite list_lookup_fmap, E.
  - intros n Hn Hn'. rewrite lookup_app_r by (rewrite length_fmap; lia). rewrite length_fmap. apply lookup_replicate_2. lia.
Qed.

Lemma with_profiles_named qs : Forall (fun q => is_Some (devices q)) qs -> named (with_profiles qs info0).
Proof. intros H n q Hq%with_profiles_lookup. by eapply (Forall_lookup_1 _ _ _ _ H). Qed.

End thm.

(** ** Instances *)

(** Values of the constants of Android's headers. *)
Definition android (n : String.string) : Z :=
  if bool_decide (bytes n = bytes "AUDIO_MICROPHONE_MAX_COUNT") then 32
  else if bool_decide (bytes n = bytes "AUDIO_MICROPHONE_ID_MAX_LEN") then 32
  else if bool_decide (bytes n = bytes "AUDIO_CHANNEL_COUNT_MAX") then 30
  else if bool_decide (bytes n = bytes "AUDIO_DEVICE_BIT_IN") then 2 ^ 31
  else if bool_decide (bytes n = bytes "AUDIO_DEVICE_IN_BUILTIN_MIC") then 4
  else if bool_decide (bytes n = bytes "AUDIO_MODE_IN_CALL") then 2
  else if bool_decide (bytes n = bytes "AUDIO_PATCH_PORTS_MAX") then 16
  else 0.

Definition board : list board_profile :=
  [(bytes "OUT_SPK_HP,OUT_SPK", [[bytes "card_name"; bytes "codec"; bytes "device"; bytes "0"; bytes "type"; bytes "frontend"];
      [bytes "device"; bytes "1"; bytes "type"; bytes "out_backend"]; [bytes "device"; bytes "2"; bytes "type"; bytes "backend"]]);
   (bytes "OUT_HP", [])].

Local Abbreviation read := (read_profile (fun _ => None)).

Definition board_profiles : list pdev_profile := omap read board.

Definition microphone_elements : list (list Z * list (list Z)) :=
  [(bytes "snd_dev", [bytes "in_snd_device"; bytes "IN_AMIC"]);
   (bytes "mic_info", [bytes "mic_device_id"; bytes "bottom"; bytes "channel_mapping"; bytes "AUDIO_MICROPHONE_CHANNEL_MAPPING_DIRECT"])].

Local Abbreviation parse := (parse_elements android (fun _ => []) (fun _ => 0) (fun _ => 0) (fun _ => None)).

Definition start_platform : @platform Z :=
  mkPlatform (with_profiles board_profiles info0) 0 0 (replicate NUM_BACKEND None) (replicate NUM_BACKEND None) 0 ∅ 1 [].

Lemma board_ok : info_ok android (info start_platform) /\ named (info start_platform).
Proof.
  split; [apply with_profiles_ok; [vm_compute; lia|]|apply with_profiles_named].
  - unfold board_profiles. repeat constructor; vm_compute; try done; lia.
  - by repeat constructor.
Qed.

Lemma description_well_formed_witness : let doc := concat (profile_elements <$> board) ++ microphone_elements in
  info_ok android (@info0 Z) /\ exists i', parse doc info0 = Some (tt, i') /\ info_ok android i'.
Proof.
  intros doc. split; [apply info_ok_start|].
  assert (match parse doc info0 with Some _ => true | None => false end = true) as H by (by vm_compute).
  destruct (parse doc info0) as [[[] i']|] eqn:E; [|discriminate H]. exists i'. split; [reflexivity|].
  exact (description_well_formed android _ _ _ _ doc info0 tt i' (info_ok_start android) E).
Defined.

Lemma device_in_range_witness : let devices := 2 ^ 31 + 4 in
  AudioPlat.const android "AUDIO_MODE_IN_CALL" = 2 /\ get_platform_device android 0 devices 0 = IN_AMIC /\
  forall devices', any devices' (2 ^ 31) = true -> get_platform_device android 2 devices' 0 = get_platform_device android 2 devices 0.
Proof.
  intros devices. split; [reflexivity|]. split; [by vm_compute|]. intros devices' H.
  destruct (device_in_range android 2 devices 0) as (_ & _ & _ & _ & Hd). apply (Hd eq_refl devices').
  exact H.
Defined.

Lemma find_profile_spec_witness : info_ok android (info start_platform) /\ named (info start_platform) /\
  exists q, find_profile OUT_SPK start_platform = Some (Some (0%nat, q), start_platform).
Proof.
  destruct board_ok as [H1 H2]. split; [exact H1|]. split; [exact H2|].
  destruct (find_profile_spec android OUT_SPK (bytes "OUT_SPK") start_platform H1 H2 eq_refl) as (r & E & Hr).
  destruct r as [[n q]|].
  - exists q. rewrite E. destruct Hr as [_ [[_ Ho]|[_ Ho]]].
    + destruct n as [|n]; [reflexivity|]. specialize (Ho 0%nat _ ltac:(lia) eq_refl). vm_compute in Ho. discriminate Ho.
    + specialize (Ho 0%nat _ ltac:(unfold NUM_PROFILE; lia) eq_refl). vm_compute in Ho. discriminate Ho.
  - destruct Hr as [Ho _]. specialize (Ho 0%nat _ ltac:(unfold NUM_PROFILE; lia) eq_refl). vm_compute in Ho. discriminate Ho.
Defined.

(** The second of two streams fails to open. *)
Lemma backends_released_witness : let ready h := h =? 1 in clean PCM_OUT start_platform /\ fresh start_platform /\
  exists q r p1, enable_platform_backend_pcm ready OUT_SPK PCM_OUT start_platform = Some (r, p1) /\
    opened PCM_OUT (backends PCM_OUT q) start_platform r p1.
Proof.
  intros ready. assert (clean PCM_OUT start_platform) as Hc by (split; reflexivity).
  assert (fresh start_platform) as Hf by (intros h [x Hx]; discriminate Hx).
  split; [exact Hc|]. split; [exact Hf|]. destruct board_ok as [H1 H2].
  destruct (backends_released android ready PCM_OUT OUT_SPK (bytes "OUT_SPK") start_platform ltac:(discriminate) H1 H2 eq_refl Hc Hf)
    as (x & r & p1 & Ex & Er & Hx).
  destruct x as [[n q]|].
  - exists q, r, p1. split; [exact Er|exact Hx].
  - assert (match find_profile OUT_SPK start_platform with Some (Some _, _) => true | _ => false end = true) as H by (by vm_compute).
    rewrite Ex in H. discriminate H.
Defined.

Lemma active_microphones_witness : info_ok android (info start_platform) /\
  platform_get_active_microphones android 0 (2 ^ 31 + 4) 2 32 start_platform = Some (([], 0), start_platform).
Proof.
  destruct board_ok as [H1 _]. split; [exact H1|].
  destruct (active_microphones android 0 (2 ^ 31 + 4) 2 32 start_platform H1 ltac:(by vm_compute)) as (l & El & E & _).
  assert (Some l = Some []) as [= ->] by (rewrite <- El; by vm_compute). exact E.
Defined.

Lemma document_profiles_witness : Forall2 (fun b q => read b = Some q) board board_profiles /\
  parse (concat (profile_elements <$> board)) info0 = Some (tt, with_profiles board_profiles info0).
Proof.
  assert (Forall2 (fun b q => read b = Some q) board board_profiles) as H by (repeat constructor).
  split; [exact H|]. exact (document_profiles android (fun _ => []) (fun _ => 0) (fun _ => 0) (fun _ => None) board board_profiles H).
Defined.

End AudioThm.
