(* ===== verification/AudioOut.v ===== *)
(** * Output streams of the audio HAL (audio/hal/audio_hw.c, audio_data_dump.c)

    The state of the HAL, its locks, the choice of devices, and the operations of
    output streams.  Streams and other blocks are addresses in the state; 0 is
    the null pointer.  The sound library (tinyalsa), the equalizer, the echo
    reference and the effects are classes of answers.  A build without
    USE_RESAMPLER and USE_COCEC_HDMI_OUT, as the source has it. *)

From stdpp Require Import base tactics option list list_numbers numbers gmap.
From Stdlib Require Import ZArith Lia.
From Stdlib Require String.
From S2P Require Import Prelude CString AudioPlat AudioRoute.

Import String.StringSyntax.
Import CString AudioPlat AudioRoute.

Local Open Scope Z_scope.
Local Open Scope list_scope.
Local Open Scope c_scope.

(** The sound library, by the number of the stream and the time of the call.
    [ready]: the stream opens.  [bad_pcm]: a stream that does not is the library's
    static one (there is no memory for another), which may be used and closed at
    any time; a stream whose device does not open is a block, and closing frees it.
    What the library makes of the members of a configuration that the HAL does not
    set is a part of [ready]. *)
Class PcmLib := {
  ready : Z -> bool;
  bad_pcm : Z -> bool;
  write_result : Z -> nat -> Z;
  read_result : Z -> nat -> Z -> Z * list Z;
  htimestamp : Z -> nat -> option (Z * Z);
  buffer_size : Z -> Z
}.

(** What an input effect does with frames: how many it takes and what it gives;
    its descriptor (the status, and whether it is an echo canceller). *)
Class Effects := {
  eq_create_ok : bool;
  eq_process : Z -> list Z -> list Z;
  create_echo_ok : nat -> bool;
  echo_read : nat -> Z -> option (list Z);
  descriptor : Z -> Z * bool;
  process : Z -> nat -> list Z -> Z -> Z * list Z;
  process_reverse : Z -> option (list Z -> Z)
}.

(** Properties and files, and [strtof]. *)
Class AudioEnv (F : Type) := {
  dump_out : bool;
  dump_in : bool;
  dump_opens : bool;
  eq_enabled : bool;
  eq_conf : option (list (list Z));
  scan_float : list Z -> option F
}.

(** Functions of Android's headers: channels of a mask, bytes of a frame. *)
Class AndroidAudio := {
  hdr : String.string -> Z;
  channel_count_out : Z -> Z;
  channel_count_in : Z -> Z;
  frame_size_out : Z -> Z -> Z;
  frame_size_in : Z -> Z -> Z
}.

Module AudioOut.

Definition NULL : Z := 0.

(** ** Locks *)

Inductive lock_name := L_adev | L_out (a : Z) | L_in (a : Z).
#[export] Instance lock_name_eq : EqDecision lock_name.
Proof. solve_decision. Defined.

Inductive lock_action := Lock (l : lock_name) | Unlock (l : lock_name).

Section out.
Context {F : Type} {PL : PcmLib} {EF : Effects} {EN : AudioEnv F} {AN : AndroidAudio}.

Definition const (name : String.string) : Z := hdr name.
Arguments const name%_string_scope.

(** ** State *)

(** A band of the equalizer; its quality is zero until it is set. *)
Record eq_core := mkCore { c_type : Z; c_fc : Z; c_G : Z; c_Q : option F }.
Definition zero_core : eq_core := mkCore 0 0 0 None.

Record eq_prms := mkPrms { biq_num : Z; sampling_rate : Z; chan : Z; core_prms : Z }.
Definition zero_prms : eq_prms := mkPrms 0 0 0 NULL.

(** What other addresses hold. *)
Inductive resource := Equalizer | Bands (l : list eq_core) | Dump_file | Conf_file | Line_buffer | Echo.

Local Abbreviation platform := (@AudioRoute.platform F).

(** struct sunxi_stream_out; [o_config]: the card, the port and the
    configuration; [o_masks] ... [o_rates]: what is supported. *)
Record stream_out := mkOut {
  o_standby : bool;
  o_sample_rate : Z;
  o_channel_mask : Z;
  o_format : Z;
  o_masks : list Z;
  o_formats : list Z;
  o_rates : list Z;
  o_devices : Z;
  o_deviceArray : list Z;
  o_flags : Z;
  o_muted : bool;
  o_written : Z;
  o_equalizer : Z;
  o_prms : eq_prms;
  o_config : card_config;
  o_pcm : Z;
  o_num_devices : Z;
  o_file : Z;
  o_handle : Z;
  o_patch_handle : Z;
  o_echo : Z
}.

(** struct sunxi_stream_in; [i_preprocessors]: the first [num_preprocessors] effects;
    sizes and numbers of frames as in the source. *)
Record stream_in := mkIn {
  i_standby : bool;
  i_sample_rate : Z;
  i_channel_mask : Z;
  i_format : Z;
  i_masks : list Z;
  i_formats : list Z;
  i_rates : list Z;
  i_devices : Z;
  i_frames_read : Z;
  i_config : card_config;
  i_pcm : Z;
  i_file : Z;
  i_handle : Z;
  i_patch_handle : Z;
  i_echo : Z;
  i_need_echo : bool;
  i_preprocessors : list Z;
  i_proc_buf : list Z;
  i_proc_size : Z;
  i_proc_frames : Z;
  i_ref_buf : list Z;
  i_ref_size : Z;
  i_ref_frames : Z
}.

(** The device, and what exists in memory.  [held] and [trace]: the locks this
    thread holds and its actions on locks; [events]: what plug-ins were told;
    [played]: what was written to the sound library; [clock]: its calls. *)
Record hal := mkHal {
  plat : platform;
  outs : gmap Z stream_out;
  ins : gmap Z stream_in;
  out_streams : list Z;
  in_streams : list Z;
  active_output : Z;
  active_input : Z;
  mode : Z;
  out_devices : Z;
  in_devices : Z;
  mic_muted : bool;
  next_patch_handle : Z;
  echo_reference : Z;
  resources : gmap Z resource;
  next_block : Z;
  held : list lock_name;
  trace : list lock_action;
  events : list event;
  played : list (Z * list Z);
  clock : nat
}.

Definition set_o_standby v (o : stream_out) : stream_out := mkOut v (o_sample_rate o) (o_channel_mask o) (o_format o) (o_masks o) (o_formats o) (o_rates o) (o_devices o) (o_deviceArray o) (o_flags o) (o_muted o) (o_written o) (o_equalizer o) (o_prms o) (o_config o) (o_pcm o) (o_num_devices o) (o_file o) (o_handle o) (o_patch_handle o) (o_echo o).
Definition set_o_deviceArray v (o : stream_out) : stream_out := mkOut (o_standby o) (o_sample_rate o) (o_channel_mask o) (o_format o) (o_masks o) (o_formats o) (o_rates o) (o_devices o) v (o_flags o) (o_muted o) (o_written o) (o_equalizer o) (o_prms o) (o_config o) (o_pcm o) (o_num_devices o) (o_file o) (o_handle o) (o_patch_handle o) (o_echo o).
Definition set_o_written v (o : stream_out) : stream_out := mkOut (o_standby o) (o_sample_rate o) (o_channel_mask o) (o_format o) (o_masks o) (o_formats o) (o_rates o) (o_devices o) (o_deviceArray o) (o_flags o) (o_muted o) v (o_equalizer o) (o_prms o) (o_config o) (o_pcm o) (o_num_devices o) (o_file o) (o_handle o) (o_patch_handle o) (o_echo o).
Definition set_o_equalizer v (o : stream_out) : stream_out := mkOut (o_standby o) (o_sample_rate o) (o_channel_mask o) (o_format o) (o_masks o) (o_formats o) (o_rates o) (o_devices o) (o_deviceArray o) (o_flags o) (o_muted o) (o_written o) v (o_prms o) (o_config o) (o_pcm o) (o_num_devices o) (o_file o) (o_handle o) (o_patch_handle o) (o_echo o).
Definition set_o_prms v (o : stream_out) : stream_out := mkOut (o_standby o) (o_sample_rate o) (o_channel_mask o) (o_format o) (o_masks o) (o_formats o) (o_rates o) (o_devices o) (o_deviceArray o) (o_flags o) (o_muted o) (o_written o) (o_equalizer o) v (o_config o) (o_pcm o) (o_num_devices o) (o_file o) (o_handle o) (o_patch_handle o) (o_echo o).
Definition set_o_config v (o : stream_out) : stream_out := mkOut (o_standby o) (o_sample_rate o) (o_channel_mask o) (o_format o) (o_masks o) (o_formats o) (o_rates o) (o_devices o) (o_deviceArray o) (o_flags o) (o_muted o) (o_written o) (o_equalizer o) (o_prms o) v (o_pcm o) (o_num_devices o) (o_file o) (o_handle o) (o_patch_handle o) (o_echo o).
Definition set_o_pcm v (o : stream_out) : stream_out := mkOut (o_standby o) (o_sample_rate o) (o_channel_mask o) (o_format o) (o_masks o) (o_formats o) (o_rates o) (o_devices o) (o_deviceArray o) (o_flags o) (o_muted o) (o_written o) (o_equalizer o) (o_prms o) (o_config o) v (o_num_devices o) (o_file o) (o_handle o) (o_patch_handle o) (o_echo o).
Definition set_o_num_devices v (o : stream_out) : stream_out := mkOut (o_standby o) (o_sample_rate o) (o_channel_mask o) (o_format o) (o_masks o) (o_formats o) (o_rates o) (o_devices o) (o_deviceArray o) (o_flags o) (o_muted o) (o_written o) (o_equalizer o) (o_prms o) (o_config o) (o_pcm o) v (o_file o) (o_handle o) (o_patch_handle o) (o_echo o).
Definition set_o_file v (o : stream_out) : stream_out := mkOut (o_standby o) (o_sample_rate o) (o_channel_mask o) (o_format o) (o_masks o) (o_formats o) (o_rates o) (o_devices o) (o_deviceArray o) (o_flags o) (o_muted o) (o_written o) (o_equalizer o) (o_prms o) (o_config o) (o_pcm o) (o_num_devices o) v (o_handle o) (o_patch_handle o) (o_echo o).
Definition set_o_patch_handle v (o : stream_out) : stream_out := mkOut (o_standby o) (o_sample_rate o) (o_channel_mask o) (o_format o) (o_masks o) (o_formats o) (o_rates o) (o_devices o) (o_deviceArray o) (o_flags o) (o_muted o) (o_written o) (o_equalizer o) (o_prms o) (o_config o) (o_pcm o) (o_num_devices o) (o_file o) (o_handle o) v (o_echo o).
Definition set_o_echo v (o : stream_out) : stream_out := mkOut (o_standby o) (o_sample_rate o) (o_channel_mask o) (o_format o) (o_masks o) (o_formats o) (o_rates o) (o_devices o) (o_deviceArray o) (o_flags o) (o_muted o) (o_written o) (o_equalizer o) (o_prms o) (o_config o) (o_pcm o) (o_num_devices o) (o_file o) (o_handle o) (o_patch_handle o) v.

Definition set_i_standby v (i : stream_in) : stream_in := mkIn v (i_sample_rate i) (i_channel_mask i) (i_format i) (i_masks i) (i_formats i) (i_rates i) (i_devices i) (i_frames_read i) (i_config i) (i_pcm i) (i_file i) (i_handle i) (i_patch_handle i) (i_echo i) (i_need_echo i) (i_preprocessors i) (i_proc_buf i) (i_proc_size i) (i_proc_frames i) (i_ref_buf i) (i_ref_size i) (i_ref_frames i).
Definition set_i_devices v (i : stream_in) : stream_in := mkIn (i_standby i) (i_sample_rate i) (i_channel_mask i) (i_format i) (i_masks i) (i_formats i) (i_rates i) v (i_frames_read i) (i_config i) (i_pcm i) (i_file i) (i_handle i) (i_patch_handle i) (i_echo i) (i_need_echo i) (i_preprocessors i) (i_proc_buf i) (i_proc_size i) (i_proc_frames i) (i_ref_buf i) (i_ref_size i) (i_ref_frames i).
Definition set_i_frames_read v (i : stream_in) : stream_in := mkIn (i_standby i) (i_sample_rate i) (i_channel_mask i) (i_format i) (i_masks i) (i_formats i) (i_rates i) (i_devices i) v (i_config i) (i_pcm i) (i_file i) (i_handle i) (i_patch_handle i) (i_echo i) (i_need_echo i) (i_preprocessors i) (i_proc_buf i) (i_proc_size i) (i_proc_frames i) (i_ref_buf i) (i_ref_size i) (i_ref_frames i).
Definition set_i_config v (i : stream_in) : stream_in := mkIn (i_standby i) (i_sample_rate i) (i_channel_mask i) (i_format i) (i_masks i) (i_formats i) (i_rates i) (i_devices i) (i_frames_read i) v (i_pcm i) (i_file i) (i_handle i) (i_patch_handle i) (i_echo i) (i_need_echo i) (i_preprocessors i) (i_proc_buf i) (i_proc_size i) (i_proc_frames i) (i_ref_buf i) (i_ref_size i) (i_ref_frames i).
Definition set_i_pcm v (i : stream_in) : stream_in := mkIn (i_standby i) (i_sample_rate i) (i_channel_mask i) (i_format i) (i_masks i) (i_formats i) (i_rates i) (i_devices i) (i_frames_read i) (i_config i) v (i_file i) (i_handle i) (i_patch_handle i) (i_echo i) (i_need_echo i) (i_preprocessors i) (i_proc_buf i) (i_proc_size i) (i_proc_frames i) (i_ref_buf i) (i_ref_size i) (i_ref_frames i).
Definition set_i_file v (i : stream_in) : stream_in := mkIn (i_standby i) (i_sample_rate i) (i_channel_mask i) (i_format i) (i_masks i) (i_formats i) (i_rates i) (i_devices i) (i_frames_read i) (i_config i) (i_pcm i) v (i_handle i) (i_patch_handle i) (i_echo i) (i_need_echo i) (i_preprocessors i) (i_proc_buf i) (i_proc_size i) (i_proc_frames i) (i_ref_buf i) (i_ref_size i) (i_ref_frames i).
Definition set_i_patch_handle v (i : stream_in) : stream_in := mkIn (i_standby i) (i_sample_rate i) (i_channel_mask i) (i_format i) (i_masks i) (i_formats i) (i_rates i) (i_devices i) (i_frames_read i) (i_config i) (i_pcm i) (i_file i) (i_handle i) v (i_echo i) (i_need_echo i) (i_preprocessors i) (i_proc_buf i) (i_proc_size i) (i_proc_frames i) (i_ref_buf i) (i_ref_size i) (i_ref_frames i).
Definition set_i_echo v (i : stream_in) : stream_in := mkIn (i_standby i) (i_sample_rate i) (i_channel_mask i) (i_format i) (i_masks i) (i_formats i) (i_rates i) (i_devices i) (i_frames_read i) (i_config i) (i_pcm i) (i_file i) (i_handle i) (i_patch_handle i) v (i_need_echo i) (i_preprocessors i) (i_proc_buf i) (i_proc_size i) (i_proc_frames i) (i_ref_buf i) (i_ref_size i) (i_ref_frames i).
Definition set_i_need_echo v (i : stream_in) : stream_in := mkIn (i_standby i) (i_sample_rate i) (i_channel_mask i) (i_format i) (i_masks i) (i_formats i) (i_rates i) (i_devices i) (i_frames_read i) (i_config i) (i_pcm i) (i_file i) (i_handle i) (i_patch_handle i) (i_echo i) v (i_preprocessors i) (i_proc_buf i) (i_proc_size i) (i_proc_frames i) (i_ref_buf i) (i_ref_size i) (i_ref_frames i).
Definition set_i_preprocessors v (i : stream_in) : stream_in := mkIn (i_standby i) (i_sample_rate i) (i_channel_mask i) (i_format i) (i_masks i) (i_formats i) (i_rates i) (i_devices i) (i_frames_read i) (i_config i) (i_pcm i) (i_file i) (i_handle i) (i_patch_handle i) (i_echo i) (i_need_echo i) v (i_proc_buf i) (i_proc_size i) (i_proc_frames i) (i_ref_buf i) (i_ref_size i) (i_ref_frames i).
Definition set_i_proc_buf v (i : stream_in) : stream_in := mkIn (i_standby i) (i_sample_rate i) (i_channel_mask i) (i_format i) (i_masks i) (i_formats i) (i_rates i) (i_devices i) (i_frames_read i) (i_config i) (i_pcm i) (i_file i) (i_handle i) (i_patch_handle i) (i_echo i) (i_need_echo i) (i_preprocessors i) v (i_proc_size i) (i_proc_frames i) (i_ref_buf i) (i_ref_size i) (i_ref_frames i).
Definition set_i_proc_size v (i : stream_in) : stream_in := mkIn (i_standby i) (i_sample_rate i) (i_channel_mask i) (i_format i) (i_masks i) (i_formats i) (i_rates i) (i_devices i) (i_frames_read i) (i_config i) (i_pcm i) (i_file i) (i_handle i) (i_patch_handle i) (i_echo i) (i_need_echo i) (i_preprocessors i) (i_proc_buf i) v (i_proc_frames i) (i_ref_buf i) (i_ref_size i) (i_ref_frames i).
Definition set_i_proc_frames v (i : stream_in) : stream_in := mkIn (i_standby i) (i_sample_rate i) (i_channel_mask i) (i_format i) (i_masks i) (i_formats i) (i_rates i) (i_devices i) (i_frames_read i) (i_config i) (i_pcm i) (i_file i) (i_handle i) (i_patch_handle i) (i_echo i) (i_need_echo i) (i_preprocessors i) (i_proc_buf i) (i_proc_size i) v (i_ref_buf i) (i_ref_size i) (i_ref_frames i).
Definition set_i_ref_buf v (i : stream_in) : stream_in := mkIn (i_standby i) (i_sample_rate i) (i_channel_mask i) (i_format i) (i_masks i) (i_formats i) (i_rates i) (i_devices i) (i_frames_read i) (i_config i) (i_pcm i) (i_file i) (i_handle i) (i_patch_handle i) (i_echo i) (i_need_echo i) (i_preprocessors i) (i_proc_buf i) (i_proc_size i) (i_proc_frames i) v (i_ref_size i) (i_ref_frames i).
Definition set_i_ref_size v (i : stream_in) : stream_in := mkIn (i_standby i) (i_sample_rate i) (i_channel_mask i) (i_format i) (i_masks i) (i_formats i) (i_rates i) (i_devices i) (i_frames_read i) (i_config i) (i_pcm i) (i_file i) (i_handle i) (i_patch_handle i) (i_echo i) (i_need_echo i) (i_preprocessors i) (i_proc_buf i) (i_proc_size i) (i_proc_frames i) (i_ref_buf i) v (i_ref_frames i).
Definition set_i_ref_frames v (i : stream_in) : stream_in := mkIn (i_standby i) (i_sample_rate i) (i_channel_mask i) (i_format i) (i_masks i) (i_formats i) (i_rates i) (i_devices i) (i_frames_read i) (i_config i) (i_pcm i) (i_file i) (i_handle i) (i_patch_handle i) (i_echo i) (i_need_echo i) (i_preprocessors i) (i_proc_buf i) (i_proc_size i) (i_proc_frames i) (i_ref_buf i) (i_ref_size i) v.

Definition set_plat v (s : hal) : hal := mkHal v (outs s) (ins s) (out_streams s) (in_streams s) (active_output s) (active_input s) (mode s) (out_devices s) (in_devices s) (mic_muted s) (next_patch_handle s) (echo_reference s) (resources s) (next_block s) (held s) (trace s) (events s) (played s) (clock s).
Definition set_outs v (s : hal) : hal := mkHal (plat s) v (ins s) (out_streams s) (in_streams s) (active_output s) (active_input s) (mode s) (out_devices s) (in_devices s) (mic_muted s) (next_patch_handle s) (echo_reference s) (resources s) (next_block s) (held s) (trace s) (events s) (played s) (clock s).
Definition set_ins v (s : hal) : hal := mkHal (plat s) (outs s) v (out_streams s) (in_streams s) (active_output s) (active_input s) (mode s) (out_devices s) (in_devices s) (mic_muted s) (next_patch_handle s) (echo_reference s) (resources s) (next_block s) (held s) (trace s) (events s) (played s) (clock s).
Definition set_out_streams v (s : hal) : hal := mkHal (plat s) (outs s) (ins s) v (in_streams s) (active_output s) (active_input s) (mode s) (out_devices s) (in_devices s) (mic_muted s) (next_patch_handle s) (echo_reference s) (resources s) (next_block s) (held s) (trace s) (events s) (played s) (clock s).
Definition set_in_streams v (s : hal) : hal := mkHal (plat s) (outs s) (ins s) (out_streams s) v (active_output s) (active_input s) (mode s) (out_devices s) (in_devices s) (mic_muted s) (next_patch_handle s) (echo_reference s) (resources s) (next_block s) (held s) (trace s) (events s) (played s) (clock s).
Definition set_active_output v (s : hal) : hal := mkHal (plat s) (outs s) (ins s) (out_streams s) (in_streams s) v (active_input s) (mode s) (out_devices s) (in_devices s) (mic_muted s) (next_patch_handle s) (echo_reference s) (resources s) (next_block s) (held s) (trace s) (events s) (played s) (clock s).
Definition set_active_input v (s : hal) : hal := mkHal (plat s) (outs s) (ins s) (out_streams s) (in_streams s) (active_output s) v (mode s) (out_devices s) (in_devices s) (mic_muted s) (next_patch_handle s) (echo_reference s) (resources s) (next_block s) (held s) (trace s) (events s) (played s) (clock s).
Definition set_mode v (s : hal) : hal := mkHal (plat s) (outs s) (ins s) (out_streams s) (in_streams s) (active_output s) (active_input s) v (out_devices s) (in_devices s) (mic_muted s) (next_patch_handle s) (echo_reference s) (resources s) (next_block s) (held s) (trace s) (events s) (played s) (clock s).
Definition set_out_devices v (s : hal) : hal := mkHal (plat s) (outs s) (ins s) (out_streams s) (in_streams s) (active_output s) (active_input s) (mode s) v (in_devices s) (mic_muted s) (next_patch_handle s) (echo_reference s) (resources s) (next_block s) (held s) (trace s) (events s) (played s) (clock s).
Definition set_in_devices v (s : hal) : hal := mkHal (plat s) (outs s) (ins s) (out_streams s) (in_streams s) (active_output s) (active_input s) (mode s) (out_devices s) v (mic_muted s) (next_patch_handle s) (echo_reference s) (resources s) (next_block s) (held s) (trace s) (events s) (played s) (clock s).
Definition set_mic_muted v (s : hal) : hal := mkHal (plat s) (outs s) (ins s) (out_streams s) (in_streams s) (active_output s) (active_input s) (mode s) (out_devices s) (in_devices s) v (next_patch_handle s) (echo_reference s) (resources s) (next_block s) (held s) (trace s) (events s) (played s) (clock s).
Definition set_next_patch_handle v (s : hal) : hal := mkHal (plat s) (outs s) (ins s) (out_streams s) (in_streams s) (active_output s) (active_input s) (mode s) (out_devices s) (in_devices s) (mic_muted s) v (echo_reference s) (resources s) (next_block s) (held s) (trace s) (events s) (played s) (clock s).
Definition set_echo_reference v (s : hal) : hal := mkHal (plat s) (outs s) (ins s) (out_streams s) (in_streams s) (active_output s) (active_input s) (mode s) (out_devices s) (in_devices s) (mic_muted s) (next_patch_handle s) v (resources s) (next_block s) (held s) (trace s) (events s) (played s) (clock s).
Definition set_resources v (s : hal) : hal := mkHal (plat s) (outs s) (ins s) (out_streams s) (in_streams s) (active_output s) (active_input s) (mode s) (out_devices s) (in_devices s) (mic_muted s) (next_patch_handle s) (echo_reference s) v (next_block s) (held s) (trace s) (events s) (played s) (clock s).
Definition set_next_block v (s : hal) : hal := mkHal (plat s) (outs s) (ins s) (out_streams s) (in_streams s) (active_output s) (active_input s) (mode s) (out_devices s) (in_devices s) (mic_muted s) (next_patch_handle s) (echo_reference s) (resources s) v (held s) (trace s) (events s) (played s) (clock s).
Definition set_held v (s : hal) : hal := mkHal (plat s) (outs s) (ins s) (out_streams s) (in_streams s) (active_output s) (active_input s) (mode s) (out_devices s) (in_devices s) (mic_muted s) (next_patch_handle s) (echo_reference s) (resources s) (next_block s) v (trace s) (events s) (played s) (clock s).
Definition set_trace v (s : hal) : hal := mkHal (plat s) (outs s) (ins s) (out_streams s) (in_streams s) (active_output s) (active_input s) (mode s) (out_devices s) (in_devices s) (mic_muted s) (next_patch_handle s) (echo_reference s) (resources s) (next_block s) (held s) v (events s) (played s) (clock s).
Definition set_events v (s : hal) : hal := mkHal (plat s) (outs s) (ins s) (out_streams s) (in_streams s) (active_output s) (active_input s) (mode s) (out_devices s) (in_devices s) (mic_muted s) (next_patch_handle s) (echo_reference s) (resources s) (next_block s) (held s) (trace s) v (played s) (clock s).
Definition set_played v (s : hal) : hal := mkHal (plat s) (outs s) (ins s) (out_streams s) (in_streams s) (active_output s) (active_input s) (mode s) (out_devices s) (in_devices s) (mic_muted s) (next_patch_handle s) (echo_reference s) (resources s) (next_block s) (held s) (trace s) (events s) v (clock s).
Definition set_clock v (s : hal) : hal := mkHal (plat s) (outs s) (ins s) (out_streams s) (in_streams s) (active_output s) (active_input s) (mode s) (out_devices s) (in_devices s) (mic_muted s) (next_patch_handle s) (echo_reference s) (resources s) (next_block s) (held s) (trace s) (events s) (played s) v.

Local Abbreviation HM := (M hal).

Definition on_plat {A} (m : M platform A) : HM A := fun s =>
  match m (plat s) with Some (a, p) => Some (a, set_plat p s) | None => None end.

(** A pointer to a stream, and changing a member through it. *)
Definition out (a : Z) : HM stream_out := fun s => match outs s !! a with Some o => Some (o, s) | None => None end.
Definition upd_out (a : Z) (f : stream_out -> stream_out) : HM unit := fun s =>
  match outs s !! a with Some o => Some (tt, set_outs (<[a := f o]> (outs s)) s) | None => None end.
Definition inp (a : Z) : HM stream_in := fun s => match ins s !! a with Some i => Some (i, s) | None => None end.
Definition upd_in (a : Z) (f : stream_in -> stream_in) : HM unit := fun s =>
  match ins s !! a with Some i => Some (tt, set_ins (<[a := f i]> (ins s)) s) | None => None end.

(** [pthread_mutex_lock]: taking a lock twice never returns; giving back one that
    is not held is undefined. *)
Definition lock (l : lock_name) : HM unit := fun s =>
  if bool_decide (l ∈ held s) then None else Some (tt, set_held (l :: held s) (set_trace (trace s ++ [Lock l]) s)).
Definition unlock (l : lock_name) : HM unit := fun s =>
  if bool_decide (l ∈ held s) then Some (tt, set_held (filter (fun x => x <> l) (held s)) (set_trace (trace s ++ [Unlock l]) s)) else None.
Definition lock_out (a : Z) : HM unit := out a ;;; lock (L_out a).
Definition lock_in (a : Z) : HM unit := inp a ;;; lock (L_in a).

(** Allocation and release of a block. *)
Definition alloc (r : resource) : HM Z := fun s =>
  Some (next_block s, set_next_block (next_block s + 1) (set_resources (<[next_block s := r]> (resources s)) s)).
Definition free (a : Z) : HM unit := fun s =>
  match resources s !! a with Some _ => Some (tt, set_resources (delete a (resources s)) s) | None => None end.
Definition use (a : Z) : HM resource := fun s =>
  match resources s !! a with Some r => Some (r, s) | None => None end.

Definition event_process (f : event -> platform -> list event) (e : event) : HM unit :=
  modify (fun s => set_events (events s ++ f e (plat s)) s).

(** ** The sound library *)

Definition open_stream (d : direction) (c : card_config) : HM Z := on_plat (AudioRoute.pcm_open d c).

(** A handle that may be used. *)
Definition usable (h : Z) (s : hal) : bool :=
  match open_pcms (plat s) !! h with Some _ => true | None => bad_pcm h && negb (ready h) end.

Definition close_stream (h : Z) : HM unit := fun s =>
  if usable h s then Some (tt, set_plat (set_pcms (delete h (open_pcms (plat s))) (next_pcm (plat s)) (plat s)) s) else None.

(** A call of the library with a handle. *)
Definition with_stream {A} (h : Z) (f : nat -> A) : HM A := fun s =>
  if usable h s then Some (f (clock s), set_clock (S (clock s)) s) else None.

Definition pcm_write (h : Z) (data : list Z) : HM Z :=
  modify (fun s => set_played (played s ++ [(h, data)]) s) ;;; with_stream h (write_result h).
Definition pcm_get_htimestamp (h : Z) : HM (option (Z * Z)) := with_stream h (htimestamp h).

(** ** Dumping samples to a file (audio_data_dump.c) *)

Definition init_dump_flags (enable_flags : bool) (file : Z) : HM Z :=
  if enable_flags && (file =? NULL) then (if dump_opens then alloc Dump_file else ret NULL) else ret file.
Definition close_dump_flags (file : Z) : HM unit := if negb (file =? NULL) then free file else ret tt.
Definition debug_dump_data (file : Z) : HM unit := if negb (file =? NULL) then use file ;;; ret tt else ret tt.

(** ** What a stream supports *)

Definition MAX_SUPPORTED_FORMATS : nat := 3.
Definition MAX_SUPPORTED_SAMPLE_RATES : nat := 9.

Fixpoint register_uint (value : Z) (l : list Z) : bool * list Z :=
  match l with
  | [] => (false, [])
  | x :: l =>
      if x =? value then (true, x :: l)
      else if x =? 0 then (true, value :: l)
      else let '(b, l) := register_uint value l in (b, x :: l)
  end.

(** The lists have a last entry that is always 0 and is not offered. *)
Definition register_in (value : Z) (l : list Z) : list Z :=
  snd (register_uint value (removelast l)) ++ [0].

Definition channels_name_to_enum_table : list (list Z * Z) :=
  [(bytes "AUDIO_CHANNEL_OUT_STEREO", const "AUDIO_CHANNEL_OUT_STEREO"); (bytes "AUDIO_CHANNEL_IN_MONO", const "AUDIO_CHANNEL_IN_MONO");
   (bytes "AUDIO_CHANNEL_IN_STEREO", const "AUDIO_CHANNEL_IN_STEREO"); (bytes "AUDIO_CHANNEL_IN_FRONT_BACK", const "AUDIO_CHANNEL_IN_FRONT_BACK")].

Definition BAR : Z := 124.
Definition VALUE_SIZE : Z := 256.

(** [strcat] to an array of 256. *)
Definition strcat (value s : list Z) : option (list Z) :=
  if Z.of_nat (length (value ++ s)) <? VALUE_SIZE then Some (value ++ s) else None.

Fixpoint channels_loop (supported value : list Z) : option (list Z) :=
  match supported with
  | [] => None
  | m :: supported =>
      if m =? 0 then Some value else
      match find (fun e => snd e =? m) channels_name_to_enum_table with
      | None => channels_loop supported value
      | Some (name, _) =>
          v ← (match value with [] => Some value | _ => strcat value [BAR] end);
          v ← strcat v name;
          channels_loop supported v
      end
  end.

(** The reply, when the question has the key. *)
Definition stream_get_parameter_channels (has_key : bool) (supported_channel_masks : list Z) : option (option (list Z)) :=
  if has_key then v ← channels_loop supported_channel_masks []; Some (Some v) else Some None.

Definition stream_get_parameter_formats (has_key : bool) (supported_formats : list Z) : option (list Z) :=
  if has_key then
    Some (if first supported_formats =? const "AUDIO_FORMAT_PCM_16_BIT" then bytes "AUDIO_FORMAT_PCM_16_BIT" else [])
  else None.

(** [%d] of an [int]. *)
Fixpoint digits (fuel : nat) (v : Z) (acc : list Z) : list Z :=
  match fuel with
  | O => acc
  | S fuel => let acc := (48 + v mod 10) :: acc in if v <? 10 then acc else digits fuel (v / 10) acc
  end.
Definition printd (v : Z) : list Z := if v <? 0 then 45 :: digits 11 (- v) [] else digits 11 v [].

(** [snprintf] cuts the text to the room; then the entry is taken back. *)
Fixpoint rates_loop (supported value : list Z) : option (list Z) :=
  match supported with
  | [] => None
  | r :: supported =>
      if r =? 0 then Some value else
      let t := (if 0 <? Z.of_nat (length value) then [BAR] else []) ++ printd (s32 r) in
      if VALUE_SIZE - Z.of_nat (length value) <=? Z.of_nat (length t) then Some value else rates_loop supported (value ++ t)
  end.

Definition stream_get_parameter_rates (has_key : bool) (supported_sample_rates : list Z) : option (option (list Z)) :=
  if has_key then v ← rates_loop supported_sample_rates []; Some (Some v) else Some None.

(** ** The choice of devices *)

(** The path of a device, copied to an array of 50. *)
Definition copy_path (pdev : Z) : HM (list Z) :=
  path <- on_plat (get_platform_path pdev) ;;
  if 50 <=? Z.of_nat (length path) then stuck else ret path.

Definition select_devices (out_device in_device : bool) : HM unit :=
  s <- get ;;
  (if mode s =? const "AUDIO_MODE_IN_CALL" then
     on_plat (disable_platform_backend_pcm PCM_OUT) ;;;
     on_plat (disable_platform_backend_pcm PCM_IN) ;;;
     on_plat reset_platform_path ;;;
     s <- get ;;
     let phone_pdev := get_platform_phone_device hdr (out_devices s) (uc (plat s)) in
     phone_path <- copy_path phone_pdev ;;
     on_plat (apply_platform_path phone_path) ;;;
     on_plat update_platform_path ;;;
     on_plat (enable_platform_backend_pcm ready phone_pdev PCM_OUT) ;;;
     on_plat (enable_platform_backend_pcm ready phone_pdev PCM_IN) ;;;
     ret tt
   else ret tt) ;;;
  s <- get ;;
  (if negb (active_output s =? NULL) && out_device then
     on_plat (disable_platform_backend_pcm PCM_OUT) ;;;
     on_plat reset_platform_out_path ;;;
     s <- get ;;
     let out_pdev := get_platform_device hdr (mode s) (out_devices s) (uc (plat s)) in
     out_path <- copy_path out_pdev ;;
     on_plat (apply_platform_path out_path) ;;;
     on_plat update_platform_path ;;;
     on_plat (enable_platform_backend_pcm ready out_pdev PCM_OUT) ;;;
     ret tt
   else ret tt) ;;;
  s <- get ;;
  (if negb (active_input s =? NULL) && in_device then
     on_plat (disable_platform_backend_pcm PCM_IN) ;;;
     on_plat reset_platform_in_path ;;;
     s <- get ;;
     let in_pdev := get_platform_device hdr (mode s) (in_devices s) (uc (plat s)) in
     in_path <- copy_path in_pdev ;;
     on_plat (apply_platform_path in_path) ;;;
     on_plat update_platform_path ;;;
     on_plat (enable_platform_backend_pcm ready in_pdev PCM_IN) ;;;
     ret tt
   else ret tt) ;;;
  event_process platform_plugins_process_select_devices ON_SELECT_DEVICES.

(** The card, the port and the configuration of a device, when it has any. *)
Definition card_config_for (pdev : Z) (c : card_config) : HM card_config :=
  r <- on_plat (get_platform_snd_card_config pdev) ;; ret (default c (snd r)).

(** ** The equalizer's configuration *)

Inductive scanned := No_match | Scanned (v : Z) (rest : list Z) | Overflow.

(** [%d] *)
Definition scan_int (l : list Z) : scanned :=
  let l := drop_while isspace l in
  let neg := first l =? 45 in
  let l := if neg || (first l =? 43) then tail l else l in
  let digit c := (48 <=? c) && (c <=? 57) in
  if digit (first l) then
    let v := digits_from 10 0 l in
    let v := if neg then - v else v in
    if (INT_MIN <=? v) && (v <=? INT_MAX) then Scanned v (drop_while digit l) else Overflow
  else No_match.

(** [sscanf(line, "key%d", &v)] *)
Definition scan_key (key : String.string) (line : list Z) : scanned :=
  let line := cstr line in
  if starts (bytes key) line then scan_int (drop (length (bytes key)) line) else No_match.
Arguments scan_key key%_string_scope line.

(** [sscanf(line, "params=%d %d %d %f", &type, &fc, &G, &Q)]; the outer option is
    a number out of range. *)
Definition scan_params (line : list Z) : option (option eq_core) :=
  match scan_key "params=" line with
  | Overflow => None
  | No_match => Some None
  | Scanned t line =>
      match scan_int line with
      | Overflow => None
      | No_match => Some None
      | Scanned fc line =>
          match scan_int line with
          | Overflow => None
          | No_match => Some None
          | Scanned g line => Some (q ← scan_float (drop_while isspace line); Some (mkCore t fc g (Some q)))
          end
      end
  end.

Definition set_band (a idx : Z) (c : eq_core) : HM unit :=
  o <- out a ;;
  r <- use (core_prms (o_prms o)) ;;
  match r with
  | Bands l => match aset l idx c with
               | Some l => modify (fun s => set_resources (<[core_prms (o_prms o) := Bands l]> (resources s)) s)
               | None => stuck
               end
  | _ => stuck
  end.

(** The loop over the lines; [false]: it left for [open].  [line] is the buffer
    of [getline], which allocates one for a null pointer, even at the end. *)
Fixpoint eq_lines (a : Z) (lines : list (list Z)) (idx line : Z) : HM bool :=
  line <- (if line =? NULL then alloc Line_buffer else ret line) ;;
  match lines with
  | [] => ret true
  | l :: lines =>
      let prms f := upd_out a (fun o => set_o_prms (f (o_prms o)) o) in
      let next idx := free line ;;; eq_lines a lines idx NULL in
      match scan_key "channels=" l with
      | Overflow => stuck
      | Scanned v _ => prms (fun p => mkPrms (biq_num p) (sampling_rate p) v (core_prms p)) ;;; next idx
      | No_match =>
      match scan_key "enabled=" l with
      | Overflow => stuck
      | Scanned v _ => if v =? 0 then ret false else eq_lines a lines idx line
      | No_match =>
      match scan_key "bin_num=" l with
      | Overflow => stuck
      | Scanned v _ =>
          b <- (if v <? 0 then ret NULL else alloc (Bands (replicate (Z.to_nat v) zero_core))) ;;
          prms (fun p => mkPrms v (sampling_rate p) (chan p) b) ;;; next idx
      | No_match =>
      match scan_key "samplerate=" l with
      | Overflow => stuck
      | Scanned v _ => prms (fun p => mkPrms (biq_num p) v (chan p) (core_prms p)) ;;; next idx
      | No_match =>
      match scan_params l with
      | None => stuck
      | Some (Some c) => set_band a idx c ;;; next (idx + 1)
      | Some None => next idx
      end
      end
      end
      end
      end
  end.

Definition create_equalizer (a : Z) : HM unit :=
  match eq_conf with
  | Some lines =>
      if eq_enabled then
        file <- alloc Conf_file ;;
        upd_out a (set_o_prms zero_prms) ;;;
        ended <- eq_lines a lines 0 NULL ;;
        if ended : bool then
          e <- (if eq_create_ok then alloc Equalizer else ret NULL) ;;
          upd_out a (set_o_equalizer e) ;;;
          free file
        else ret tt
      else ret tt
  | None => ret tt
  end.

(** ** Standby and start *)

Definition echo_write (e : Z) : HM unit := use e ;;; ret tt.

(** [if (p) release(p), p = NULL] *)
Definition release (p : Z) (close : Z -> HM unit) (clear : HM unit) : HM unit :=
  if negb (p =? NULL) then close p ;;; clear else ret tt.

Definition do_out_standby (a : Z) : HM Z :=
  o <- out a ;;
  if negb (o_standby o) then
    release (o_pcm o) close_stream (upd_out a (set_o_pcm NULL)) ;;;
    release (o_equalizer o) free (upd_out a (set_o_equalizer NULL)) ;;;
    release (core_prms (o_prms o)) free
      (upd_out a (fun o => set_o_prms (mkPrms (biq_num (o_prms o)) (sampling_rate (o_prms o)) (chan (o_prms o)) NULL) o)) ;;;
    release (o_file o) free (upd_out a (set_o_file NULL)) ;;;
    upd_out a (set_o_standby true) ;;;
    modify (set_active_output NULL) ;;;
    release (o_echo o) echo_write (upd_out a (set_o_echo NULL)) ;;;
    ret 0
  else ret 0.

Definition out_standby (a : Z) : HM Z :=
  lock_out a ;;;
  lock L_adev ;;;
  do_out_standby a ;;;
  unlock L_adev ;;;
  unlock (L_out a) ;;;
  event_process platform_plugins_process ON_OUT_STANDBY ;;;
  ret 0.

Definition start_output_stream (a : Z) : HM Z :=
  o <- out a ;;
  file <- init_dump_flags dump_out (o_file o) ;;
  upd_out a (set_o_file file) ;;;
  modify (set_active_output a) ;;;
  select_devices true false ;;;
  s <- get ;;
  c <- card_config_for (get_platform_device hdr (mode s) (out_devices s) (uc (plat s))) (o_config o) ;;
  upd_out a (set_o_config c) ;;;
  (if negb (echo_reference s =? NULL) then upd_out a (set_o_echo (echo_reference s)) else ret tt) ;;;
  event_process platform_plugins_process_start_stream ON_START_OUTPUT_STREAM ;;;
  create_equalizer a ;;;
  h <- open_stream PCM_OUT c ;;
  upd_out a (set_o_pcm h) ;;;
  if negb (ready h) then
    close_stream h ;;;
    modify (set_active_output NULL) ;;;
    ret (-12)
  else ret (if eq_conf then 0 else -1).

(** ** Writing *)

(** A buffer is its 16-bit samples; here pairs of them. *)
Fixpoint mix_s16_stereo_linear (frames : nat) (input : list Z) : option (list Z) :=
  match frames with
  | O => Some input
  | S frames =>
      match input with
      | x :: y :: input =>
          let value := Z.quot (x + y) 2 in
          r ← mix_s16_stereo_linear frames input;
          Some (s16 value :: s16 value :: r)
      | _ => None
      end
  end.

Definition DEFAULT_OUTPUT_SAMPLING_RATE : Z := 48000.

(** The status and the delay of the last sample in nanoseconds. *)
Definition get_playback_delay (h frames : Z) : HM (Z * Z) :=
  t <- pcm_get_htimestamp h ;;
  match t with
  | None => ret (-1, 0)
  | Some (kernel_frames, _) =>
      let kernel_frames := u32 (buffer_size h - kernel_frames) in
      ret (0, s64 ((kernel_frames + frames) * 1000000000) ÷ DEFAULT_OUTPUT_SAMPLING_RATE)
  end.

(** [a / b] of unsigned numbers. *)
Definition divide (a b : Z) : HM Z := if b =? 0 then stuck else ret (a / b).

(** The bytes, and the buffer, which is Android's: it is changed in place. *)
Definition out_write (a : Z) (buffer : list Z) : HM (Z * list Z) :=
  o <- out a ;;
  let bytes := 2 * Z.of_nat (length buffer) in
  let frame_size := frame_size_out (o_channel_mask o) (o_format o) in
  out_frames <- divide bytes frame_size ;;
  lock_out a ;;;
  o <- out a ;;
  r <- (if o_standby o then
          upd_out a (set_o_standby false) ;;;
          lock L_adev ;;;
          r <- start_output_stream a ;;
          unlock L_adev ;;;
          ret r
        else ret 0) ;;
  event_process platform_plugins_process_read_write ON_OUT_WRITE ;;;
  o <- out a ;;
  debug_dump_data (o_file o) ;;;
  buf <- (if negb (o_equalizer o =? NULL) then use (o_equalizer o) ;;; ret (eq_process out_frames buffer) else ret buffer) ;;
  (if negb (o_echo o =? NULL) then get_playback_delay (o_pcm o) out_frames ;;; echo_write (o_echo o) else ret tt) ;;;
  s <- get ;;
  let platform_device := get_platform_device hdr (mode s) (out_devices s) (uc (plat s)) in
  rb <- (if negb (o_pcm o =? NULL) then
           let buf := if o_muted o then replicate (length buf) 0 else buf in
           match
             (if bool_decide (channels (o_config o) = Some 2) && (platform_device =? OUT_SPK)
              then mix_s16_stereo_linear (Z.to_nat out_frames) buf else Some buf)
           with
           | None => stuck
           | Some buf => r <- pcm_write (o_pcm o) (take (Z.to_nat (out_frames * frame_size / 2)) buf) ;; ret (r, buf)
           end
         else ret (r, buf)) ;;
  let '(r, buf) := rb in
  (if r =? 0 then
     match channels (o_config o) with
     | None => stuck
     | Some ch => n <- divide bytes (u64 (u32 ch * 2)) ;; upd_out a (fun o => set_o_written (u64 (o_written o + n)) o)
     end
   else ret tt) ;;;
  unlock (L_out a) ;;;
  (if negb (r =? 0) then out_standby a ;;; divide (bytes * 1000000) frame_size ;;; ret tt else ret tt) ;;;
  ret (bytes, buf).

(** The position and its time, when they are stored. *)
Definition out_get_presentation_position (a : Z) : HM (option (Z * Z)) :=
  lock_out a ;;;
  o <- out a ;;
  r <- (if negb (o_pcm o =? NULL) then
          t <- pcm_get_htimestamp (o_pcm o) ;;
          match t with
          | None => ret None
          | Some (avail, time) =>
              match period_size (o_config o), period_count (o_config o) with
              | Some size, Some count =>
                  let signed_frames := s64 (o_written o - u32 (size * count) + avail) in
                  ret (if 0 <=? signed_frames then Some (signed_frames, time) else None)
              | _, _ => stuck
              end
          end
        else ret None) ;;
  unlock (L_out a) ;;;
  ret r.

Definition out_get_latency (a : Z) : HM Z :=
  o <- out a ;;
  match period_count (o_config o), period_size (o_config o), rate (o_config o) with
  | Some count, Some size, Some r => divide (u32 (count * size * 1000)) (u32 r)
  | _, _, _ => stuck
  end.

(** ** Routing *)

(** [routing]: the value of the key, as [str_parms_get_str] gives it. *)
Definition out_set_parameters (a : Z) (routing : option (list Z)) : HM Z :=
  out a ;;;
  match routing with
  | None => ret 0
  | Some value =>
      match atoi value with
      | None => stuck
      | Some val =>
          lock L_adev ;;;
          lock_out a ;;;
          s <- get ;;
          (if negb (out_devices s =? val) && negb (val =? 0) then
             let dev_mask := Z.lor (const "AUDIO_DEVICE_OUT_AUX_DIGITAL") (const "AUDIO_DEVICE_OUT_ALL_SCO") in
             (if any (out_devices s) dev_mask || any val dev_mask then do_out_standby a ;;; ret tt else ret tt) ;;;
             modify (set_out_devices val) ;;;
             select_devices true false
           else ret tt) ;;;
          unlock (L_out a) ;;;
          unlock L_adev ;;;
          ret 0
      end
  end.

End out.
Arguments const {AN} name%_string_scope.
Arguments scan_key key%_string_scope line.
End AudioOut.
