(* ===== verification/AudioIn.v ===== *)
(** * Input streams of the audio HAL (audio/hal/audio_hw.c)

    Starting and standby, reading with and without effects, the echo reference
    that an output stream and an input stream share, and the list of effects.
    Samples of fresh memory are 0 here: they are written before they are read. *)

From stdpp Require Import base tactics option list list_numbers numbers gmap.
From Stdlib Require Import ZArith Lia.
From Stdlib Require String.
From S2P Require Import Prelude CString AudioPlat AudioRoute AudioOut.

Import String.StringSyntax.
Import CString AudioPlat AudioRoute AudioOut.

Local Open Scope Z_scope.
Local Open Scope list_scope.
Local Open Scope c_scope.

Module AudioIn.
Section input.
Context {F : Type} {PL : PcmLib} {EF : Effects} {EN : AudioEnv F} {AN : AndroidAudio}.

Local Abbreviation HM := (M (@hal F)).

Definition in_get_channels (i : @stream_in) : Z :=
  if i_channel_mask i =? 0 then const "AUDIO_CHANNEL_IN_STEREO" else i_channel_mask i.
Definition in_get_format : Z := const "AUDIO_FORMAT_PCM_16_BIT".
(** [audio_stream_in_frame_size], which asks the stream. *)
Definition in_frame_size (i : @stream_in) : Z := frame_size_in (in_get_channels i) in_get_format.

(** ** The echo reference *)

Definition add_echo_reference (a reference : Z) : HM unit :=
  lock_out a ;;; upd_out a (set_o_echo reference) ;;; unlock (L_out a).

Definition remove_echo_reference (a reference : Z) : HM unit :=
  lock_out a ;;;
  o <- out a ;;
  (if o_echo o =? reference then echo_write reference ;;; upd_out a (set_o_echo NULL) else ret tt) ;;;
  unlock (L_out a).

Definition put_echo_reference (reference : Z) : HM unit :=
  s <- get ;;
  if negb (echo_reference s =? NULL) && (reference =? echo_reference s) then
    (if negb (active_output s =? NULL) then remove_echo_reference (active_output s) reference else ret tt) ;;;
    free reference ;;;
    modify (set_echo_reference NULL)
  else ret tt.

Definition get_echo_reference : HM Z :=
  s <- get ;;
  put_echo_reference (echo_reference s) ;;;
  s <- get ;;
  (if negb (active_output s =? NULL) then
     out (active_output s) ;;;
     if create_echo_ok (clock s) then
       e <- alloc Echo ;;
       modify (set_echo_reference e) ;;;
       add_echo_reference (active_output s) e
     else ret tt
   else ret tt) ;;;
  s <- get ;;
  ret (echo_reference s).

(** ** Standby and start *)

Definition do_in_standby (a : Z) : HM Z :=
  i <- inp a ;;
  if negb (i_standby i) then
    upd_in a (set_i_standby true) ;;;
    release (i_pcm i) close_stream (upd_in a (set_i_pcm NULL)) ;;;
    release (i_echo i) (fun e => use e ;;; put_echo_reference e) (upd_in a (set_i_echo NULL)) ;;;
    release (i_file i) free (upd_in a (set_i_file NULL)) ;;;
    ret 0
  else ret 0.

Definition in_standby (a : Z) : HM Z :=
  lock_in a ;;;
  lock L_adev ;;;
  do_in_standby a ;;;
  unlock L_adev ;;;
  unlock (L_in a) ;;;
  event_process platform_plugins_process ON_IN_STANDBY ;;;
  ret 0.

Definition start_input_stream (a : Z) : HM Z :=
  i <- inp a ;;
  file <- init_dump_flags dump_in (i_file i) ;;
  upd_in a (set_i_file file) ;;;
  modify (set_active_input a) ;;;
  modify (set_in_devices (i_devices i)) ;;;
  select_devices false true ;;;
  s <- get ;;
  c <- card_config_for (get_platform_device hdr (mode s) (in_devices s) (uc (plat s))) (i_config i) ;;
  upd_in a (set_i_config c) ;;;
  (if i_need_echo i && (i_echo i =? NULL) then e <- get_echo_reference ;; upd_in a (set_i_echo e) else ret tt) ;;;
  h <- open_stream PCM_IN c ;;
  upd_in a (set_i_pcm h) ;;;
  if negb (ready h) then
    close_stream h ;;;
    modify (set_active_input NULL) ;;;
    ret (-12)
  else
    event_process platform_plugins_process_start_stream ON_START_INPUT_STREAM ;;;
    ret 0.

(** ** Processing with effects *)

(** [realloc] to a number of samples. *)
Definition grow (n : Z) (l : list Z) : list Z := resize (Z.to_nat n) 0 l.

(** Samples stored at an offset of a buffer. *)
Definition store (buf : list Z) (off : Z) (src : list Z) : HM (list Z) :=
  if (0 <=? off) && (off + Z.of_nat (length src) <=? Z.of_nat (length buf))
  then ret (write_at buf (Z.to_nat off) src) else stuck.

(** [memcpy(buf, buf + from, n)]: undefined when the two overlap. *)
Definition move_down (buf : list Z) (from n : Z) : HM (list Z) :=
  if n =? 0 then ret buf
  else if (n <=? from) && (from + n <=? Z.of_nat (length buf))
  then ret (write_at buf 0 (take (Z.to_nat n) (drop (Z.to_nat from) buf))) else stuck.

Definition channels_of (c : card_config) : HM Z := match channels c with Some ch => ret (u32 ch) | None => stuck end.
Definition rate_of (c : card_config) : HM Z := match rate c with Some r => ret (u32 r) | None => stuck end.

(** The delay of the captured samples in nanoseconds. *)
Definition get_capture_delay (a : Z) : HM Z :=
  i <- inp a ;;
  t <- pcm_get_htimestamp (i_pcm i) ;;
  match t with
  | None => ret 0
  | Some (kernel_frames, _) =>
      r <- rate_of (i_config i) ;;
      buf_delay <- divide (s64 (i_proc_frames i * 1000000000)) r ;;
      kernel_delay <- divide (s64 (kernel_frames * 1000000000)) r ;;
      ret (kernel_delay + buf_delay)
  end.

Definition update_echo_reference (a frames : Z) : HM Z :=
  i <- inp a ;;
  if i_ref_frames i <? frames then
    ch <- channels_of (i_config i) ;;
    (if i_ref_size i <? frames then
       upd_in a (fun i => set_i_ref_size frames (set_i_ref_buf (grow (frames * ch) (i_ref_buf i)) i))
     else ret tt) ;;;
    delay_ns <- get_capture_delay a ;;
    use (i_echo i) ;;;
    s <- get ;;
    i <- inp a ;;
    let frame_count := frames - i_ref_frames i in
    (match echo_read (clock s) (frame_count * ch) with
     | None => ret tt
     | Some data =>
         buf <- store (i_ref_buf i) (i_ref_frames i * ch) data ;;
         upd_in a (fun i => set_i_ref_frames (i_ref_frames i + frame_count) (set_i_ref_buf buf i))
     end) ;;;
    ret delay_ns
  else ret 0.

(** The effects one after the other; they share the number of frames. *)
Fixpoint reverse_loop (effects : list Z) (buf : list Z) (ch frame_count : Z) : Z :=
  match effects with
  | [] => frame_count
  | e :: effects =>
      match process_reverse e with
      | None => reverse_loop effects buf ch frame_count
      | Some f => reverse_loop effects buf ch (f (take (Z.to_nat (frame_count * ch)) buf))
      end
  end.

Definition push_echo_reference (a frames : Z) : HM unit :=
  update_echo_reference a frames ;;;
  i <- inp a ;;
  ch <- channels_of (i_config i) ;;
  let frames := Z.min frames (i_ref_frames i) in
  let used := reverse_loop (i_preprocessors i) (i_ref_buf i) ch frames in
  let left := u64 (i_ref_frames i - used) in
  buf <- move_down (i_ref_buf i) (used * ch) (left * ch) ;;
  upd_in a (fun i => set_i_ref_frames left (set_i_ref_buf buf i)).

Definition read_process_frames (a off frames : Z) : HM unit :=
  i <- inp a ;;
  let bytes := frames * in_frame_size i in
  rd <- with_stream (i_pcm i) (fun t => read_result (i_pcm i) t (bytes / 2)) ;;
  buf <- store (i_proc_buf i) off (snd rd) ;;
  upd_in a (set_i_proc_buf buf).

(** The effects one after the other: all read the same input and write to the
    same place, and share the two numbers of frames.  The result: frames taken
    and samples given. *)
Fixpoint process_loop (effects : list Z) (clock : nat) (inbuf : list Z) (ch in_count out_count : Z) (outp : list Z) : Z * Z * list Z :=
  match effects with
  | [] => (in_count, out_count, outp)
  | e :: effects =>
      let '(taken, given) := process e clock (take (Z.to_nat (in_count * ch)) inbuf) out_count in
      process_loop effects clock inbuf ch taken (if ch =? 0 then 0 else Z.of_nat (length given) / ch) (write_at outp 0 given)
  end.

(** The loop, with the frames that are written so far.  [fuel]: each turn gives
    a frame. *)
Fixpoint process_frames_loop (fuel : nat) (a : Z) (buffer : list Z) (off frames frames_wr : Z) : HM (Z * list Z) :=
  match fuel with
  | O => stuck
  | S fuel =>
      if frames <=? frames_wr then ret (frames_wr, buffer) else
      i <- inp a ;;
      ch <- channels_of (i_config i) ;;
      (if i_proc_frames i <? frames then
         (if i_proc_size i <? frames then
            upd_in a (fun i => set_i_proc_size frames (set_i_proc_buf (grow (frames * ch) (i_proc_buf i)) i))
          else ret tt) ;;;
         read_process_frames a (i_proc_frames i * ch) (frames - i_proc_frames i) ;;;
         upd_in a (set_i_proc_frames frames)
       else ret tt) ;;;
      i <- inp a ;;
      (if negb (i_echo i =? NULL) then push_echo_reference a (i_proc_frames i) else ret tt) ;;;
      i <- inp a ;;
      s <- get ;;
      let '(taken, given, outp) :=
        process_loop (i_preprocessors i) (clock s) (i_proc_buf i) ch (i_proc_frames i) (frames - frames_wr) [] in
      buffer <- store buffer (off + frames_wr * ch) outp ;;
      let left := u64 (i_proc_frames i - taken) in
      buf <- move_down (i_proc_buf i) (taken * ch) (left * ch) ;;
      upd_in a (fun i => set_i_proc_frames left (set_i_proc_buf buf i)) ;;;
      process_frames_loop fuel a buffer off frames (frames_wr + given)
  end.

Definition process_frames (a : Z) (buffer : list Z) (off frames : Z) : HM (Z * list Z) :=
  process_frames_loop (S (Z.to_nat frames)) a buffer off frames 0.

(** ** Reading *)

(** [for (i = 0; i < pro_num; i++)]: the last status. *)
Fixpoint process_blocks (n : nat) (a : Z) (buffer : list Z) (i pro_frames frame_byte r : Z) : HM (Z * list Z) :=
  match n with
  | O => ret (r, buffer)
  | S n =>
      rb <- process_frames a buffer (pro_frames * i * frame_byte / 2) pro_frames ;;
      process_blocks n a (snd rb) (i + 1) pro_frames frame_byte (fst rb)
  end.

Definition in_get_sample_rate (a : Z) : HM Z :=
  i <- inp a ;;
  r <- rate_of (i_config i) ;;
  ret (if r =? 0 then 48000 else r).

(** The samples that are read, their status, and the end of the call. *)
Definition read_samples (a : Z) (buffer : list Z) (frames frame_byte r : Z) : HM (Z * list Z) :=
  i <- inp a ;;
  rt <- rate_of (i_config i) ;;
  let pro_frames := rt / 100 in
  pro_num <- divide frames pro_frames ;;
  rb <- (if negb (length (i_preprocessors i) =? 0)%nat then
           rb <- process_blocks (Z.to_nat pro_num) a buffer 0 pro_frames frame_byte r ;;
           ret (if 0 <? fst rb then 0 else fst rb, snd rb)
         else if negb (i_pcm i =? NULL) then
           rd <- with_stream (i_pcm i) (fun t => read_result (i_pcm i) t (Z.of_nat (length buffer))) ;;
           buf <- store buffer 0 (snd rd) ;;
           ret (fst rd, buf)
         else ret (r, buffer)) ;;
  event_process platform_plugins_process_read_write ON_IN_READ ;;;
  i <- inp a ;;
  debug_dump_data (i_file i) ;;;
  s <- get ;;
  ret (fst rb, if (fst rb =? 0) && mic_muted s then replicate (length (snd rb)) 0 else snd rb).

(** The bytes and the buffer. *)
Definition in_read (a : Z) (buffer : list Z) : HM (Z * list Z) :=
  i <- inp a ;;
  let bytes := 2 * Z.of_nat (length buffer) in
  let frame_byte := in_frame_size i in
  frames <- divide bytes frame_byte ;;
  lock_in a ;;;
  i <- inp a ;;
  r <- (if i_standby i then
          lock L_adev ;;;
          r <- start_input_stream a ;;
          unlock L_adev ;;;
          (if r =? 0 then upd_in a (set_i_standby false) else ret tt) ;;;
          ret r
        else ret (-1)) ;;
  rb <- (if i_standby i && negb (r =? 0) then ret (r, buffer) else read_samples a buffer frames frame_byte r) ;;
  unlock (L_in a) ;;;
  (if negb (fst rb =? 0) then
     in_standby a ;;;
     n <- divide (bytes * 1000000) frame_byte ;;
     rate <- in_get_sample_rate a ;;
     divide n rate ;;; ret tt
   else ret tt) ;;;
  (if 0 <? bytes then upd_in a (fun i => set_i_frames_read (i_frames_read i + bytes / frame_byte) i) else ret tt) ;;;
  ret (bytes, snd rb).

(** The position and its time; the status. *)
Definition in_get_capture_position (a : Z) : HM (Z * option (Z * Z)) :=
  lock_in a ;;;
  i <- inp a ;;
  r <- (if negb (i_pcm i =? NULL) then
          t <- pcm_get_htimestamp (i_pcm i) ;;
          match t with
          | None => ret (-38, None)
          | Some (avail, time) => ret (0, Some (i_frames_read i + avail, time))
          end
        else ret (-38, None)) ;;
  unlock (L_in a) ;;;
  ret r.

Definition DEFAULT_INPUT_PERIOD_SIZE : Z := 960.

Definition in_get_buffer_size (a : Z) : HM Z :=
  i <- inp a ;; ch <- channels_of (i_config i) ;; ret (DEFAULT_INPUT_PERIOD_SIZE * ch * 2).

(** ** Routing and effects *)

Definition in_set_parameters (a : Z) (routing : option (list Z)) : HM Z :=
  lock_in a ;;;
  lock L_adev ;;;
  (match routing with
   | None => ret tt
   | Some value =>
       match atoi value with
       | None => stuck
       | Some val =>
           s <- get ;;
           if negb (in_devices s =? val) && negb (val =? 0) then
             modify (set_in_devices val) ;;; select_devices false true
           else ret tt
       end
   end) ;;;
  unlock L_adev ;;;
  unlock (L_in a) ;;;
  ret 0.

Definition MAX_PREPROCESSORS : nat := 3.

Definition in_add_audio_effect (a effect : Z) : HM Z :=
  inp a ;;;
  lock L_adev ;;;
  lock_in a ;;;
  i <- inp a ;;
  r <- (if (MAX_PREPROCESSORS <=? length (i_preprocessors i))%nat then ret (-38)
        else
          let '(status, is_aec) := descriptor effect in
          if negb (status =? 0) then ret status else
          upd_in a (fun i => set_i_preprocessors (i_preprocessors i ++ [effect]) i) ;;;
          (if is_aec : bool then upd_in a (set_i_need_echo true) ;;; do_in_standby a ;;; ret tt else ret tt) ;;;
          ret status) ;;
  unlock (L_in a) ;;;
  unlock L_adev ;;;
  ret r.

(** The loop that closes the gap: [None] when the effect is not in the list. *)
Fixpoint remove_effect (effect : Z) (l : list Z) : option (list Z) :=
  match l with
  | [] => None
  | e :: l => if e =? effect then Some l else l ← remove_effect effect l; Some (e :: l)
  end.

Definition in_remove_audio_effect (a effect : Z) : HM Z :=
  inp a ;;;
  lock L_adev ;;;
  lock_in a ;;;
  i <- inp a ;;
  r <- (if (length (i_preprocessors i) =? 0)%nat then ret (-38) else
        match remove_effect effect (i_preprocessors i) with
        | None => ret (-22)
        | Some l =>
            upd_in a (set_i_preprocessors l) ;;;
            let '(status, is_aec) := descriptor effect in
            if negb (status =? 0) then ret status else
            (if is_aec : bool then upd_in a (set_i_need_echo false) ;;; do_in_standby a ;;; ret tt else ret tt) ;;;
            ret status
        end) ;;
  unlock (L_in a) ;;;
  unlock L_adev ;;;
  ret r.

Definition in_get_active_microphones (a : Z) (room : nat) : HM (list (@characteristic F * list Z) * Z) :=
  lock_in a ;;;
  lock L_adev ;;;
  i <- inp a ;;
  s <- get ;;
  r <- on_plat (platform_get_active_microphones hdr (mode s) (in_devices s) (channel_count_in (i_channel_mask i)) room) ;;
  unlock L_adev ;;;
  unlock (L_in a) ;;;
  ret r.

End input.
End AudioIn.
