(* ===== verification/AudioDev.v ===== *)
(** * The device of the audio HAL (audio/hal/audio_hw.c)

    Opening and closing streams, the mode, patches of streams to devices, and
    the requests of Android in a row. *)

From stdpp Require Import base tactics option list list_numbers numbers gmap.
From Stdlib Require Import ZArith Lia.
From Stdlib Require String.
From S2P Require Import Prelude CString AudioPlat AudioRoute AudioOut AudioIn.

Import String.StringSyntax.
Import CString AudioPlat AudioRoute AudioOut AudioIn.

Local Open Scope Z_scope.
Local Open Scope list_scope.
Local Open Scope c_scope.

Module AudioDev.
Section dev.
Context {F : Type} {PL : PcmLib} {EF : Effects} {EN : AudioEnv F} {AN : AndroidAudio}.

Local Abbreviation hal := (@AudioOut.hal F).
Local Abbreviation HM := (M hal).
Local Abbreviation const := AudioOut.const.

(** [calloc] of a stream. *)
Definition new_out (o : stream_out) : HM Z := fun s =>
  Some (next_block s, set_next_block (next_block s + 1) (set_outs (<[next_block s := o]> (outs s)) s)).
Definition new_in (i : stream_in) : HM Z := fun s =>
  Some (next_block s, set_next_block (next_block s + 1) (set_ins (<[next_block s := i]> (ins s)) s)).
Definition free_out (a : Z) : HM unit := out a ;;; modify (fun s => set_outs (delete a (outs s)) s).
Definition free_in (a : Z) : HM unit := inp a ;;; modify (fun s => set_ins (delete a (ins s)) s).

Definition list_add_tail (a : Z) (l : list Z) : list Z := l ++ [a].
Definition list_remove (a : Z) (l : list Z) : list Z := filter (fun x => x <> a) l.

Definition empty_masks : list Z := replicate (Z.to_nat (2 * const "FCC_2" + 1)) 0.

(** ** Output streams *)

(** The card and the port that are there, with another configuration. *)
Definition out_pcm_config (chs : Z) (c : card_config) : card_config :=
  mkCard (card c) (port c) (Some chs) (Some DEFAULT_OUTPUT_SAMPLING_RATE) (Some 480) (Some 2).

(** What is played: for HDMI, what its sink takes. *)
Definition out_defaults (devices format sample_rate channel_mask : Z) : HM (Z * Z * Z * card_config) :=
  if any (const "AUDIO_DEVICE_OUT_AUX_DIGITAL") devices then
    c <- card_config_for OUT_HDMI zero_card ;;
    match rate c, channels c with
    | Some r, Some ch =>
        ret (const "AUDIO_FORMAT_PCM_16_BIT", u32 r,
          if ch =? 1 then const "AUDIO_CHANNEL_OUT_MONO" else const "AUDIO_CHANNEL_OUT_STEREO", c)
    | _, _ => stuck
    end
  else ret (format, sample_rate, channel_mask, zero_card).

(** The stream, and the format, the channels and the rate that Android is told. *)
Definition adev_open_output_stream (handle devices flags format sample_rate channel_mask : Z) : HM (Z * (Z * Z * Z)) :=
  a <- new_out (mkOut false 0 0 0 empty_masks (replicate (S MAX_SUPPORTED_FORMATS) 0) (replicate (S MAX_SUPPORTED_SAMPLE_RATES) 0)
    0 (replicate (Z.to_nat (const "AUDIO_PATCH_PORTS_MAX")) 0) 0 false 0 NULL zero_prms zero_card NULL 0 NULL handle 0 NULL) ;;
  lock L_adev ;;;
  modify (fun s => set_out_streams (list_add_tail a (out_streams s)) s) ;;;
  unlock L_adev ;;;
  fr <- out_defaults devices format sample_rate channel_mask ;;
  let '(fmt, rt, mask, c) := fr in
  let c := out_pcm_config (channel_count_out mask) c in
  upd_out a (fun o => mkOut true rt mask fmt (register_in mask (o_masks o)) (register_in fmt (o_formats o)) (register_in rt (o_rates o))
    devices (o_deviceArray o) flags false 0 NULL zero_prms c NULL 0 NULL handle 0 NULL) ;;;
  on_plat (update_platform_snd_card_config (channel_count_out mask) DEFAULT_OUTPUT_SAMPLING_RATE OUT_SPK) ;;;
  event_process platform_plugins_process ON_OPEN_OUTPUT_STREAM ;;;
  ret (a, (fmt, mask, DEFAULT_OUTPUT_SAMPLING_RATE)).

Definition adev_close_output_stream (a : Z) : HM unit :=
  do_out_standby a ;;;
  lock L_adev ;;;
  modify (fun s => set_out_streams (list_remove a (out_streams s)) s) ;;;
  unlock L_adev ;;;
  event_process platform_plugins_process ON_CLOSE_OUTPUT_STREAM ;;;
  modify (set_active_output NULL) ;;;
  free_out a.

(** ** Input streams *)

(** The ones of a population count. *)
Definition popcount (x : Z) : Z := Z.of_nat (length (filter (fun n => Z.testbit x (Z.of_nat n)) (seq 0 32))).

Definition sample_rates : list Z := [8000; 11025; 12000; 16000; 22050; 24000; 32000; 44100; 48000].

Definition check_input_parameters (sample_rate format channel_count : Z) : Z :=
  if negb (format =? const "AUDIO_FORMAT_PCM_16_BIT") then -22
  else if (channel_count <? 1) || (2 <? channel_count) then -22
  else if bool_decide (sample_rate ∈ sample_rates) then 0 else -22.

(** Products of [unsigned int]. *)
Definition get_input_buffer_size (sample_rate format channel_count : Z) : Z :=
  if negb (check_input_parameters sample_rate format channel_count =? 0) then 0 else
  let size := u32 (DEFAULT_INPUT_PERIOD_SIZE * sample_rate) / 48000 in
  let size := (size + 15) / 16 * 16 in
  size * channel_count * 2.

Definition adev_get_input_buffer_size (sample_rate format channel_mask : Z) : Z :=
  let channel_count := popcount channel_mask in
  if negb (check_input_parameters sample_rate format channel_count =? 0) then 0
  else get_input_buffer_size sample_rate format channel_count.

Definition adev_open_input_stream (handle devices format sample_rate channel_mask source : Z) : HM Z :=
  let channel_count := channel_count_in channel_mask in
  let r := if source =? const "AUDIO_SOURCE_VOICE_COMMUNICATION" then 48000 else sample_rate in
  let c := mkCard (Some 0) (Some 0) (Some channel_count) (Some r) (Some DEFAULT_INPUT_PERIOD_SIZE) (Some 2) in
  a <- new_in (mkIn true sample_rate channel_mask format
    (register_in channel_mask empty_masks) (register_in format (replicate (S MAX_SUPPORTED_FORMATS) 0))
    (register_in sample_rate (replicate (S MAX_SUPPORTED_SAMPLE_RATES) 0))
    devices 0 c NULL NULL handle 0 NULL false [] [] 0 0 [] 0 0) ;;
  on_plat (update_platform_snd_card_config channel_count r IN_AMIC) ;;;
  lock L_adev ;;;
  modify (fun s => set_in_streams (list_add_tail a (in_streams s)) s) ;;;
  unlock L_adev ;;;
  event_process platform_plugins_process ON_OPEN_INPUT_STREAM ;;;
  ret a.

Definition adev_close_input_stream (a : Z) : HM unit :=
  do_in_standby a ;;;
  lock L_adev ;;;
  modify (fun s => set_in_streams (list_remove a (in_streams s)) s) ;;;
  unlock L_adev ;;;
  modify (set_active_input NULL) ;;;
  event_process platform_plugins_process ON_CLOSE_INPUT_STREAM ;;;
  free_in a.

(** ** The device *)

(** [out] is read before anything else; it is null when no stream is active. *)
Definition adev_set_parameters (routing : option (list Z)) : HM Z :=
  s <- get ;;
  let a := active_output s in
  match routing with
  | None => ret 0
  | Some value =>
      match atoi value with
      | None => stuck
      | Some val =>
          lock L_adev ;;;
          lock_out a ;;;
          s <- get ;;
          (if negb (out_devices s =? val) && negb (val =? 0) then
             let dev_mask := Z.lor (const "AUDIO_DEVICE_OUT_AUX_DIGITAL") (const "AUDIO_DEVICE_OUT_ALL_SCO") in
             (if any (out_devices s) dev_mask || any val dev_mask then do_out_standby a ;;; ret tt else ret tt) ;;;
             modify (set_out_devices val) ;;;
             select_devices true true
           else ret tt) ;;;
          unlock (L_out a) ;;;
          unlock L_adev ;;;
          ret 0
      end
  end.

Definition adev_set_mode (m : Z) : HM Z :=
  lock L_adev ;;;
  s <- get ;;
  (if negb (mode s =? m) then modify (set_mode m) ;;; select_devices true true else ret tt) ;;;
  unlock L_adev ;;;
  ret 0.

Definition adev_set_mic_mute (b : bool) : HM Z := lock L_adev ;;; modify (set_mic_muted b) ;;; unlock L_adev ;;; ret 0.
Definition adev_get_mic_mute : HM bool := s <- get ;; ret (mic_muted s).

Definition adev_get_microphones (max : Z) : HM (list (@characteristic F) * Z) :=
  lock L_adev ;;; r <- on_plat (platform_get_microphones max) ;; unlock L_adev ;;; ret r.

(** ** Patches *)

(** The first stream of a list with a handle. *)
Fixpoint find_in (f : stream_in -> Z) (handle : Z) (l : list Z) : HM (option Z) :=
  match l with
  | [] => ret None
  | a :: l => i <- inp a ;; if f i =? handle then ret (Some a) else find_in f handle l
  end.
Fixpoint find_out (f : stream_out -> Z) (handle : Z) (l : list Z) : HM (option Z) :=
  match l with
  | [] => ret None
  | a :: l => o <- out a ;; if f o =? handle then ret (Some a) else find_out f handle l
  end.
Definition get_stream_in_by_io_handle_l (handle : Z) : HM (option Z) := s <- get ;; find_in i_handle handle (in_streams s).
Definition get_stream_out_by_io_handle_l (handle : Z) : HM (option Z) := s <- get ;; find_out o_handle handle (out_streams s).
Definition get_stream_in_by_patch_handle_l (handle : Z) : HM (option Z) := s <- get ;; find_in i_patch_handle handle (in_streams s).
Definition get_stream_out_by_patch_handle_l (handle : Z) : HM (option Z) := s <- get ;; find_out o_patch_handle handle (out_streams s).

Inductive port_type := PORT_DEVICE | PORT_MIX | PORT_OTHER.
#[export] Instance port_type_eq : EqDecision port_type.
Proof. solve_decision. Defined.

(** struct audio_port_config: its type, the device type or the handle of a mix. *)
Record port_config := mkPort { p_type : port_type; p_device : Z; p_handle : Z }.

(** The devices of a stream, one after the other; the last one is that of the
    HAL. *)
Fixpoint set_patch_devices (a : Z) (sinks : list port_config) : HM unit :=
  match sinks with
  | [] => ret tt
  | p :: sinks =>
      o <- out a ;;
      match aset (o_deviceArray o) (o_num_devices o) (p_device p) with
      | None => stuck
      | Some l =>
          upd_out a (set_o_deviceArray l) ;;;
          modify (set_out_devices (p_device p)) ;;;
          upd_out a (fun o => set_o_num_devices (o_num_devices o + 1) o) ;;;
          set_patch_devices a sinks
      end
  end.

Definition AUDIO_PATCH_HANDLE_NONE : Z := 0.

(** The return value and the handle. *)
Definition adev_create_audio_patch (sources sinks : list port_config) (handle : Z) : HM (Z * Z) :=
  if negb (length sources =? 1)%nat || (length sinks =? 0)%nat
     || (const "AUDIO_PATCH_PORTS_MAX" <? Z.of_nat (length sinks)) then ret (-22, handle) else
  match sources, sinks with
  | source :: _, sink :: _ =>
      let valid := match p_type source with
                   | PORT_DEVICE => (length sinks =? 1)%nat && bool_decide (p_type sink = PORT_MIX)
                   | PORT_MIX => forallb (fun p => bool_decide (p_type p = PORT_DEVICE)) sinks
                   | PORT_OTHER => false
                   end in
      if negb valid then ret (-22, handle) else
      lock L_adev ;;;
      let generated := handle =? AUDIO_PATCH_HANDLE_NONE in
      (if generated then modify (fun s => set_next_patch_handle (next_patch_handle s + 1) s) else ret tt) ;;;
      s <- get ;;
      let handle := if generated then next_patch_handle s else handle in
      r <- (match p_type source with
            | PORT_DEVICE =>
                x <- get_stream_in_by_io_handle_l (p_handle sink) ;;
                match x with
                | None => ret (-22)
                | Some a =>
                    i <- inp a ;;
                    if negb generated && negb (i_patch_handle i =? handle) then ret (-22) else
                    lock_in a ;;;
                    upd_in a (set_i_devices (p_device source)) ;;;
                    unlock (L_in a) ;;;
                    upd_in a (set_i_patch_handle handle) ;;;
                    ret 0
                end
            | _ =>
                x <- get_stream_out_by_io_handle_l (p_handle source) ;;
                match x with
                | None => ret (-22)
                | Some a =>
                    o <- out a ;;
                    if negb generated && negb (o_patch_handle o =? handle) then unlock (L_out a) ;;; ret (-22) else
                    lock_out a ;;;
                    upd_out a (set_o_num_devices 0) ;;;
                    set_patch_devices a sinks ;;;
                    select_devices true true ;;;
                    unlock (L_out a) ;;;
                    upd_out a (set_o_patch_handle handle) ;;;
                    ret 0
                end
            end) ;;
      unlock L_adev ;;;
      ret (0, if negb (r =? 0) && generated then AUDIO_PATCH_HANDLE_NONE else handle)
  | _, _ => ret (-22, handle)
  end.

Definition adev_release_audio_patch (patch_handle : Z) : HM Z :=
  lock L_adev ;;;
  x <- get_stream_out_by_patch_handle_l patch_handle ;;
  match x with
  | Some a =>
      lock_out a ;;;
      upd_out a (fun o => set_o_num_devices 0 (set_o_deviceArray (replicate (length (o_deviceArray o)) 0) o)) ;;;
      unlock (L_out a) ;;;
      upd_out a (set_o_patch_handle AUDIO_PATCH_HANDLE_NONE) ;;;
      unlock L_adev ;;;
      ret 0
  | None =>
      y <- get_stream_in_by_patch_handle_l patch_handle ;;
      match y with
      | Some a =>
          lock_in a ;;;
          upd_in a (set_i_devices 0) ;;;
          unlock (L_in a) ;;;
          upd_in a (set_i_patch_handle AUDIO_PATCH_HANDLE_NONE) ;;;
          unlock L_adev ;;;
          ret 0
      | None => unlock L_adev ;;; ret (-22)
      end
  end.

(** ** Starting, and requests *)

Definition adev_open (i : @platform_info F) (use_case : Z) : option hal :=
  '(p, _) ← platform_init i use_case;
  Some (mkHal p ∅ ∅ [] [] NULL NULL 0 0 0 false AUDIO_PATCH_HANDLE_NONE NULL ∅ 1 [] []
    (platform_plugins_process ON_ADEV_OPEN p) [] 0).

(** What Android asks the device and its streams for. *)
Inductive request :=
| Open_output (handle devices flags format sample_rate channel_mask : Z)
| Close_output (a : Z)
| Write (a : Z) (buffer : list Z)
| Out_standby (a : Z)
| Out_set_parameters (a : Z) (routing : option (list Z))
| Out_position (a : Z)
| Open_input (handle devices format sample_rate channel_mask source : Z)
| Close_input (a : Z)
| Read (a : Z) (buffer : list Z)
| In_standby (a : Z)
| In_set_parameters (a : Z) (routing : option (list Z))
| In_position (a : Z)
| Add_effect (a effect : Z)
| Remove_effect (a effect : Z)
| Set_parameters (routing : option (list Z))
| Set_mode (m : Z)
| Set_mic_mute (b : bool)
| Create_patch (sources sinks : list port_config) (handle : Z)
| Release_patch (handle : Z).

Definition ignore {A} (m : HM A) : HM unit := m ;;; ret tt.

Definition handle_request (r : request) : HM unit :=
  match r with
  | Open_output handle devices flags format sample_rate mask => ignore (adev_open_output_stream handle devices flags format sample_rate mask)
  | Close_output a => adev_close_output_stream a
  | Write a buffer => ignore (out_write a buffer)
  | Out_standby a => ignore (out_standby a)
  | Out_set_parameters a routing => ignore (out_set_parameters a routing)
  | Out_position a => ignore (out_get_presentation_position a)
  | Open_input handle devices format sample_rate mask source => ignore (adev_open_input_stream handle devices format sample_rate mask source)
  | Close_input a => adev_close_input_stream a
  | Read a buffer => ignore (in_read a buffer)
  | In_standby a => ignore (in_standby a)
  | In_set_parameters a routing => ignore (in_set_parameters a routing)
  | In_position a => ignore (in_get_capture_position a)
  | Add_effect a e => ignore (in_add_audio_effect a e)
  | Remove_effect a e => ignore (in_remove_audio_effect a e)
  | Set_parameters routing => ignore (adev_set_parameters routing)
  | Set_mode m => ignore (adev_set_mode m)
  | Set_mic_mute b => ignore (adev_set_mic_mute b)
  | Create_patch sources sinks handle => ignore (adev_create_audio_patch sources sinks handle)
  | Release_patch handle => ignore (adev_release_audio_patch handle)
  end.

Fixpoint handle_requests (l : list request) : HM unit :=
  match l with
  | [] => ret tt
  | r :: l => handle_request r ;;; handle_requests l
  end.

End dev.
End AudioDev.
