(* ===== verification/AudioSafe.v ===== *)
(** * The invariant of the audio HAL's device and streams

    [inv] says who owns every stream of the sound library and every block, that
    the lists, the active streams and the configurations are right.  It is kept
    by every operation ([AudioReq]); here is the platform part: choosing devices,
    opening and closing their back ends. *)

From stdpp Require Import base tactics option list list_numbers numbers gmap fin_maps.
From Stdlib Require Import ZArith Lia.
From Stdlib Require String.
From S2P Require Import Prelude CString AudioPlat AudioRoute AudioThm AudioOut AudioIn AudioDev.

Import String.StringSyntax.
Import CString AudioPlat AudioRoute AudioThm AudioOut AudioIn AudioDev.

Local Open Scope Z_scope.
Local Open Scope list_scope.
Local Open Scope c_scope.

Module AudioSafe.

(** Who closes a stream of the sound library. *)
Inductive owner := Own_out (a : Z) | Own_in (a : Z) | Own_slot (d : direction).

(** Who frees a block. *)
Inductive holder := B_eq (a : Z) | B_core (a : Z) | B_file (a : Z) | B_in (a : Z) | B_line | B_conf.

#[export] Instance direction_eq : EqDecision direction.
Proof. solve_decision. Defined.
#[export] Instance owner_eq : EqDecision owner.
Proof. solve_decision. Defined.

Section safe.
Context {F : Type} {PL : PcmLib} {EF : Effects} {EN : AudioEnv F} {AN : AndroidAudio}.

Local Abbreviation platform := (@AudioRoute.platform F).
Local Abbreviation hal := (@AudioOut.hal F).
Local Abbreviation HM := (M hal).

(** ** Platforms *)

(** All values of a configuration are known and fit for a stream. *)
Definition complete (c : card_config) : Prop :=
  exists ch r ps pc, channels c = Some ch /\ rate c = Some r /\ period_size c = Some ps /\ period_count c = Some pc /\
  0 < u32 ch /\ 100 <= u32 r.

Definition mapped (p : platform) (pdev : Z) : Prop :=
  is_Some (pdev2str pdev) /\ exists path, aget (pdev_path (info p)) pdev = Some (Some path) /\ Z.of_nat (length path) < 50.

Record platform_ok (p : platform) : Prop := {
  pl_info : info_ok hdr (info p);
  pl_named : named (info p);
  pl_front : forall n q, profiles (info p) !! n = Some (Some q) -> complete (frontend q);
  pl_path : forall m d, mapped p (get_platform_device hdr m d (uc p));
  pl_phone : forall d, mapped p (get_platform_phone_device hdr d (uc p))
}.

Definition backs (d : direction) (p : platform) : list (option Z) :=
  match d with PCM_OUT => out_backends p | PCM_IN => in_backends p | PCM_OTHER => [] end.
Definition bec (d : direction) (p : platform) : nat :=
  match d with PCM_OUT => AudioRoute.out_bec p | PCM_IN => AudioRoute.in_bec p | PCM_OTHER => 0 end.

(** The handles are in the first slots. *)
Definition filled (d : direction) (p : platform) (hs : list Z) : Prop :=
  match d with
  | PCM_OTHER => hs = []
  | _ => backs d p = (Some <$> hs) ++ replicate (NUM_BACKEND - length hs) None /\ bec d p = length hs /\
         (length hs <= NUM_BACKEND)%nat /\ NoDup hs
  end.

(** A handle that did not open and has been closed. *)
Definition dead (p : platform) (h : Z) : Prop := open_pcms p !! h = None /\ ready h = false /\ 0 < h < next_pcm p.

(** [po], [pi]: whether a stream is in standby, and its handle. *)
Record pcms_ok (own : gmap Z owner) (po pi : Z -> option (bool * Z)) (p : platform) : Prop := {
  pc_dom : forall h, is_Some (own !! h) <-> is_Some (open_pcms p !! h);
  pc_next : 0 < next_pcm p;
  pc_fresh : forall h, is_Some (open_pcms p !! h) -> 0 < h < next_pcm p;
  pc_out : forall a h, own !! h = Some (Own_out a) -> exists b, po a = Some (b, h);
  pc_in : forall a h, own !! h = Some (Own_in a) -> exists b, pi a = Some (b, h);
  pc_slots : forall d, exists hs, filled d p hs /\ forall h, own !! h = Some (Own_slot d) <-> h ∈ hs;
  pc_outs : forall a b h, po a = Some (b, h) -> h = NULL \/ dead p h \/ own !! h = Some (Own_out a) /\ b = false;
  pc_ins : forall a b h, pi a = Some (b, h) -> h = NULL \/ dead p h \/ own !! h = Some (Own_in a) /\ b = false
}.

Definition plat_inv (po pi : Z -> option (bool * Z)) (p : platform) : Prop :=
  platform_ok p /\ exists own, pcms_ok own po pi p.

(** The parts of a platform that choosing devices does not change. *)
Definition same_plat (p p' : platform) : Prop := info p' = info p /\ uc p' = uc p.

Lemma platform_ok_same p p' : same_plat p p' -> platform_ok p -> platform_ok p'.
Proof. intros [E1 E2] [H1 H2 H3 H4 H5]. split; unfold mapped in *; rewrite ?E1, ?E2; done. Qed.

(** Only the mixer has been told something. *)
Lemma pcms_ok_call own po pi p c : pcms_ok own po pi p -> pcms_ok own po pi (call c p).
Proof. intros [H1 H2 H3 H4 H5 H6 H7 H8]. split; try done. Qed.

Lemma plat_inv_call po pi p c : plat_inv po pi p -> plat_inv po pi (call c p).
Proof. intros [Hp [own Ho]]. split; [by apply (platform_ok_same p)|]. exists own. by apply pcms_ok_call. Qed.

(** The slots of the other direction stay. *)
Definition others (d : direction) (p p' : platform) : Prop :=
  forall d', d' <> d -> backs d' p' = backs d' p /\ bec d' p' = bec d' p.

(** ** Closing the back ends of a direction *)

Lemma close_loop_run hs n : forall p : platform, NoDup hs -> (forall h, h ∈ hs -> is_Some (open_pcms p !! h)) ->
  close_loop ((Some <$> hs) ++ replicate n None) p =
  Some (replicate (length hs + n) None, set_pcms (foldr delete (open_pcms p) (reverse hs)) (next_pcm p) p).
Proof.
  induction hs as [|h hs IH]; intros p Hnd Ho; cbn [fmap list_fmap app length close_loop].
  - cbn [plus reverse rev_append foldr]. unfold reverse. cbn.
    enough (close_loop (replicate n None) p = Some (replicate n None, p)) as -> by (by destruct p).
    induction n as [|n IHn]; [done|]. cbn. unfold bind. by rewrite IHn.
  - rewrite reverse_cons, foldr_app. apply NoDup_cons in Hnd as [Hh Hnd]. unfold bind at 1, pcm_close. destruct (Ho h) as [x Ex]; [by left|]. rewrite Ex.
    unfold bind. rewrite IH.
    + cbn. by destruct p.
    + done.
    + intros h' Hh'. cbn. rewrite lookup_delete_ne by (intros ->; done). apply Ho. by right.
Qed.

Lemma foldr_delete_spec {A} (m : gmap Z A) hs h : foldr delete m hs !! h = if decide (h ∈ hs) then None else m !! h.
Proof.
  induction hs as [|x hs IH]; cbn [foldr]; [by rewrite decide_False by (by apply not_elem_of_nil)|].
  destruct (decide (x = h)) as [->|Hx].
  - rewrite lookup_delete_eq. by rewrite decide_True by left.
  - rewrite lookup_delete_ne by done. rewrite IH. destruct (decide (h ∈ hs)).
    + by rewrite decide_True by (by right).
    + rewrite decide_False; [done|]. intros [->|?]%elem_of_cons; done.
Qed.

(** The slots are those of the direction only. *)
Lemma filled_other d' (p p' : platform) hs : backs d' p' = backs d' p -> bec d' p' = bec d' p -> filled d' p hs -> filled d' p' hs.
Proof. intros E1 E2. destruct d'; cbn [filled]; by rewrite ?E1, ?E2. Qed.

Lemma filled_func d (p : platform) hs hs' : filled d p hs -> filled d p hs' -> hs = hs'.
Proof.
  assert (forall (l l' : list Z) n n', (Some <$> l) ++ replicate n None = (Some <$> l') ++ replicate n' (@None Z) -> l = l') as H.
  { induction l as [|x l IH]; intros [|x' l'] n n' E; [done|destruct n; done|destruct n'; done|].
    cbn in E. injection E as -> E. f_equal. by eapply IH. }
  destruct d; cbn [filled]; [| |congruence].
  all: intros (E & _) (E' & _); rewrite E in E'; by eapply H.
Qed.

Lemma disable_ok d po pi p : d <> PCM_OTHER -> plat_inv po pi p ->
  exists p', disable_platform_backend_pcm d p = Some (0, p') /\ plat_inv po pi p' /\ filled d p' [] /\ same_plat p p' /\ others d p p'.
Proof.
  intros Hd [Hp [own Ho]]. destruct (pc_slots _ _ _ _ Ho d) as (hs & Hf & Hs).
  assert (forall h, h ∈ hs -> is_Some (open_pcms p !! h)) as Hopen by (intros h Hh; apply Hs in Hh; apply (pc_dom _ _ _ _ Ho); by eexists).
  assert (exists p', disable_platform_backend_pcm d p = Some (0, p') /\ filled d p' [] /\ same_plat p p' /\ next_pcm p' = next_pcm p /\
    open_pcms p' = foldr delete (open_pcms p) (reverse hs) /\
    (forall d', d' <> d -> backs d' p' = backs d' p /\ bec d' p' = bec d' p)) as (p' & E & Hf' & Hsame & Hn & Ho' & Hother).
  { destruct d; [| |done]; cbn [filled backs bec] in Hf; destruct Hf as (Eb & _ & Hl & Hnd).
    all: unfold disable_platform_backend_pcm, bind at 1, get; rewrite Eb; rewrite (bind_some _ _ _ _ _ (close_loop_run _ _ _ Hnd Hopen)).
    all: eexists; split; [reflexivity|]; replace (length hs + (NUM_BACKEND - length hs))%nat with NUM_BACKEND by lia.
    all: split; [split_and!; try done; [unfold NUM_BACKEND; cbn; lia|constructor]|].
    all: split; [done|]; split; [done|]; split; [done|]; intros [] Hne; done. }
  exists p'. split; [done|]. split; [|done]. split; [by apply (platform_ok_same p)|].
  exists (filter (fun e => e.2 <> Own_slot d) own). destruct Ho as [H1 H2 H3 H4 H5 H6 H7 H8].
  assert (forall h w, filter (fun e => e.2 <> Own_slot d) own !! h = Some w <-> own !! h = Some w /\ w <> Own_slot d) as Hown
    by (intros h w; apply map_lookup_filter_Some).
  assert (forall h, open_pcms p' !! h = if decide (h ∈ hs) then None else open_pcms p !! h) as Hopen'.
  { intros h. rewrite Ho', foldr_delete_spec. destruct (decide (h ∈ hs)) as [Hh|Hh];
      [by rewrite decide_True by (by apply elem_of_reverse)|by rewrite decide_False by (by rewrite elem_of_reverse)]. }
  assert (forall h, dead p h -> dead p' h) as Hdead.
  { intros h (Hh & Hr & Hb). split; [rewrite Hopen'; by destruct (decide _)|]. by rewrite Hn. }
  split.
  - intros h. rewrite Hopen'. split.
    + intros [w Hw]. apply Hown in Hw as [Hw Hne]. rewrite decide_False; [apply H1; by eexists|].
      intros Hh. apply Hs in Hh. congruence.
    + intros Hi. destruct (decide (h ∈ hs)) as [?|Hh]; [by destruct Hi|]. apply H1 in Hi as [w Hw]. exists w. apply Hown.
      split; [done|]. intros ->. by apply Hh, Hs.
  - by rewrite Hn.
  - intros h Hh. rewrite Hn. apply H3. rewrite Hopen' in Hh. destruct (decide _) in Hh; [by destruct Hh|done].
  - intros a h Hh. apply Hown in Hh as [Hh _]. by apply H4.
  - intros a h Hh. apply Hown in Hh as [Hh _]. by apply H5.
  - intros d'. destruct (decide (d' = d)) as [->|Hne].
    + exists []. split; [done|]. intros h. rewrite Hown. split; [by intros [_ ?]|by intros ?%not_elem_of_nil].
    + destruct (H6 d') as (hs' & Hf2 & Hs'). exists hs'. destruct (Hother d' Hne) as [E1 E2].
      split; [by eapply filled_other|]. intros h. rewrite Hown, Hs'. split; [by intros []|]. intros Hh. split; [done|congruence].
  - intros a b h Hh. destruct (H7 a b h Hh) as [?|[?|[Hw ?]]]; [by left|right; left; by apply Hdead|].
    right. right. split; [|done]. by apply Hown.
  - intros a b h Hh. destruct (H8 a b h Hh) as [?|[?|[Hw ?]]]; [by left|right; left; by apply Hdead|].
    right. right. split; [|done]. by apply Hown.
Qed.

(** ** Opening back ends *)

Lemma dead_mono (p p' : platform) h : (forall x, x < next_pcm p -> open_pcms p' !! x = open_pcms p !! x) ->
  next_pcm p <= next_pcm p' -> dead p h -> dead p' h.
Proof. intros H Hn (H1 & H2 & H3). split; [by rewrite H by lia|]. split; [done|lia]. Qed.

(** A handle is used up. *)
Lemma pcms_ok_next own po pi (p p' : platform) : pcms_ok own po pi p -> open_pcms p' = open_pcms p -> next_pcm p <= next_pcm p' ->
  (forall d, backs d p' = backs d p /\ bec d p' = bec d p) -> pcms_ok own po pi p'.
Proof.
  intros [H1 H2 H3 H4 H5 H6 H7 H8] Eo Hn Hb. assert (forall h, dead p h -> dead p' h) as Hd by (intros h; apply dead_mono; [by rewrite Eo|done]).
  split; try (rewrite Eo); try done; try lia.
  - intros h Hh. specialize (H3 h Hh). lia.
  - intros d. destruct (H6 d) as (hs & Hf & Hs), (Hb d) as [E1 E2]. exists hs. split; [by eapply filled_other|done].
  - intros a b h Hh. destruct (H7 a b h Hh) as [?|[?|?]]; auto.
  - intros a b h Hh. destruct (H8 a b h Hh) as [?|[?|?]]; auto.
Qed.

(** A new handle, for whoever: the rest stays. *)
Lemma pcms_ok_new own po pi po' pi' (p p' : platform) w x : pcms_ok own po pi p ->
  open_pcms p' = <[next_pcm p := x]> (open_pcms p) -> next_pcm p' = next_pcm p + 1 ->
  (forall d, exists hs, filled d p' hs /\
    forall h, <[next_pcm p := w]> own !! h = Some (Own_slot d) <-> h ∈ hs) ->
  (forall a h, own !! h = Some (Own_out a) -> exists b, po' a = Some (b, h)) ->
  (forall a h, own !! h = Some (Own_in a) -> exists b, pi' a = Some (b, h)) ->
  (forall a, w = Own_out a -> exists b, po' a = Some (b, next_pcm p)) ->
  (forall a, w = Own_in a -> exists b, pi' a = Some (b, next_pcm p)) ->
  (forall a b h, po' a = Some (b, h) -> po a = Some (b, h) \/ h = NULL \/ h = next_pcm p /\ w = Own_out a /\ b = false) ->
  (forall a b h, pi' a = Some (b, h) -> pi a = Some (b, h) \/ h = NULL \/ h = next_pcm p /\ w = Own_in a /\ b = false) ->
  pcms_ok (<[next_pcm p := w]> own) po' pi' p'.
Proof.
  intros [H1 H2 H3 H4 H5 H6 H7 H8] Eo En Hs Ho Hi Hwo Hwi Hpo Hpi.
  assert (own !! next_pcm p = None) as Hnew.
  { apply eq_None_not_Some. intros Hx%H1%H3. lia. }
  assert (forall h w', own !! h = Some w' -> <[next_pcm p := w]> own !! h = Some w') as Hkeep.
  { intros h w' Hw'. rewrite lookup_insert_ne; [done|]. intros <-. congruence. }
  assert (forall h, dead p h -> dead p' h) as Hd.
  { intros h. apply dead_mono; [|lia]. intros y Hy. rewrite Eo, lookup_insert_ne by lia. done. }
  split.
  - intros h. rewrite Eo, !lookup_insert_is_Some. rewrite H1. done.
  - lia.
  - intros h. rewrite Eo, lookup_insert_is_Some, En. intros [<-|[_ Hh]]; [lia|]. specialize (H3 h Hh). lia.
  - intros a h. rewrite lookup_insert_Some. intros [[<- ->]|[_ Hh]]; [by apply Hwo|by apply Ho].
  - intros a h. rewrite lookup_insert_Some. intros [[<- ->]|[_ Hh]]; [by apply Hwi|by apply Hi].
  - done.
  - intros a b h Hh. destruct (Hpo a b h Hh) as [Hp|[->|(-> & -> & ->)]]; [|by left|right; right; by rewrite lookup_insert_eq].
    destruct (H7 a b h Hp) as [?|[?|[? ?]]]; auto.
  - intros a b h Hh. destruct (Hpi a b h Hh) as [Hp|[->|(-> & -> & ->)]]; [|by left|right; right; by rewrite lookup_insert_eq].
    destruct (H8 a b h Hp) as [?|[?|[? ?]]]; auto.
Qed.

Lemma keep_pcm_run d h (p : platform) hs : d <> PCM_OTHER -> filled d p hs -> (length hs < NUM_BACKEND)%nat -> h ∉ hs ->
  exists p', keep_pcm d h p = Some (tt, p') /\ filled d p' (hs ++ [h]) /\ same_plat p p' /\ next_pcm p' = next_pcm p /\
    open_pcms p' = open_pcms p /\ (forall d', d' <> d -> backs d' p' = backs d' p /\ bec d' p' = bec d' p).
Proof.
  intros Hd Hf Hl Hh. assert (forall l n, l = (Some <$> hs) ++ replicate (NUM_BACKEND - length hs) None -> n = length hs ->
    aset l (Z.of_nat n) (Some h) = Some ((Some <$> (hs ++ [h])) ++ replicate (NUM_BACKEND - length (hs ++ [h])) None)) as Hset.
  { intros l n -> ->. rewrite aset_nat by (rewrite length_app, length_fmap, length_replicate; lia).
    rewrite insert_app_r_alt by (by rewrite length_fmap). rewrite length_fmap, Nat.sub_diag.
    replace (NUM_BACKEND - length hs)%nat with (S (NUM_BACKEND - length (hs ++ [h]))) by (rewrite length_app; cbn [length]; lia).
    cbn. by rewrite fmap_app, <- app_assoc. }
  assert (NoDup (hs ++ [h]) <-> NoDup hs) as Hnd.
  { rewrite NoDup_app. split; [by intros []|]. intros ?. split_and!; [done| |apply NoDup_singleton]. by intros x Hx ->%list_elem_of_singleton. }
  destruct d; [| |done]; cbn [filled backs bec] in *; destruct Hf as (Eb & Ec & _ & Hn).
  all: unfold keep_pcm; rewrite (Hset _ _ Eb Ec); eexists; split; [reflexivity|].
  all: rewrite Ec; split; [split_and!; [done|cbn; rewrite length_app; cbn; lia|rewrite length_app; cbn; lia|by apply Hnd]|].
  all: split; [done|]; split; [done|]; split; [done|]; intros [] Hne; done.
Qed.

Lemma enable_loop_ok d po pi bl : d <> PCM_OTHER -> forall (p : platform) own hs,
  pcms_ok own po pi p -> filled d p hs -> (length hs + length bl <= NUM_BACKEND)%nat ->
  exists r p', enable_loop ready d bl p = Some (r, p') /\ (exists own', pcms_ok own' po pi p') /\ same_plat p p' /\ others d p p'.
Proof.
  intros Hd. induction bl as [|c bl IH]; intros p own hs Ho Hf Hl; [by exists 0, p; split_and!; [done|by exists own|..]|].
  cbn [enable_loop length] in *. unfold bind at 1, pcm_open.
  set (n := next_pcm p). set (p1 := set_pcms _ _ p).
  assert (open_pcms p !! n = None) as Hn by (apply eq_None_not_Some; intros Hx%(pc_fresh _ _ _ _ Ho); unfold n in *; lia).
  destruct (ready n) eqn:Er; cbn [negb].
  - assert (filled d p1 hs) as Hf1 by (by eapply filled_other; [..|exact Hf]; destruct d).
    assert (n ∉ hs) as Hnh.
    { destruct (pc_slots _ _ _ _ Ho d) as (hs' & Hf' & Hs). rewrite (filled_func _ _ _ _ Hf Hf'). intros Hx%Hs.
      assert (is_Some (own !! n)) as Hi by (by eexists). apply (pc_dom _ _ _ _ Ho) in Hi. rewrite Hn in Hi. by destruct Hi. }
    destruct (keep_pcm_run d n p1 hs Hd Hf1 ltac:(lia) Hnh) as (p2 & E2 & Hf2 & Hs2 & Hn2 & Ho2 & Hb2).
    rewrite (bind_some _ _ _ _ _ E2).
    assert (pcms_ok (<[n := Own_slot d]> own) po pi p2) as Hok.
    { eapply (pcms_ok_new own po pi po pi p p2 (Own_slot d) (d, c)); [done|by rewrite Ho2|by rewrite Hn2|..]; try done; try apply Ho.
      - intros d'. destruct (decide (d' = d)) as [->|Hne].
        + exists (hs ++ [n]). split; [done|]. intros h. destruct (pc_slots _ _ _ _ Ho d) as (hs' & Hf' & Hs).
          rewrite (filled_func _ _ _ _ Hf Hf'), lookup_insert_Some, Hs, elem_of_app, list_elem_of_singleton. fold n.
          split; [intros [[<- _]|[_ ?]]; auto|]. intros [Hh| ->]; [|by left]. destruct (decide (n = h)) as [->|]; auto.
        + destruct (pc_slots _ _ _ _ Ho d') as (hs' & Hf' & Hs). exists hs'. destruct (Hb2 d' Hne) as [E1 E3].
          split; [eapply filled_other; [exact E1|exact E3|by destruct d']|]. intros h. rewrite lookup_insert_Some, Hs. fold n.
          split; [by intros [[_ ?]|[_ ?]]; [congruence|]|]. intros Hh. right. split; [|done]. intros <-.
          apply Hs in Hh. assert (is_Some (own !! n)) as Hi by (by eexists). apply (pc_dom _ _ _ _ Ho) in Hi. rewrite Hn in Hi. by destruct Hi.
      - intros a b h Hh. by left.
      - intros a b h Hh. by left. }
    destruct (IH p2 _ _ Hok Hf2) as (r & p' & E & Hok' & Hs' & Ho'); [rewrite length_app; cbn; lia|].
    exists r, p'. split; [done|]. split; [done|]. destruct Hs2, Hs'. split; [split; etrans; done|].
    intros d' Hne. destruct (Ho' d' Hne) as [-> ->], (Hb2 d' Hne) as [-> ->]. by destruct d'.
  - unfold bind, pcm_close. unfold p1 at 1. cbn [open_pcms set_pcms]. rewrite lookup_insert_eq. eexists _, _. split; [reflexivity|].
    split; [|split; [done|by intros []]]. exists own. apply (pcms_ok_next own po pi p); [done| |cbn; lia|by intros []].
    cbn. by rewrite delete_insert_id.
Qed.

(** Opening the back ends of a device from a clean direction. *)
Lemma enable_ok d po pi p pdev : d <> PCM_OTHER -> plat_inv po pi p -> filled d p [] -> is_Some (pdev2str pdev) ->
  exists r p', enable_platform_backend_pcm ready pdev d p = Some (r, p') /\ plat_inv po pi p' /\ same_plat p p' /\ others d p p'.
Proof.
  intros Hd [Hp [own Ho]] Hf [name Hname].
  destruct (find_profile_run hdr pdev name p (pl_info _ Hp) (pl_named _ Hp) Hname) as (x & Ex & Hx).
  unfold enable_platform_backend_pcm. rewrite (bind_some _ _ _ _ _ Ex). destruct x as [[n q]|]; [|by exists (-1), p; split_and!; [|split; [|exists own]|..]].
  destruct (enable_loop_ok d po pi (backends d q) Hd p own [] Ho Hf) as (r & p' & E & Hok & Hs & Hb).
  { cbn. unfold NUM_BACKEND. by eapply backends_length, present_ok; [apply Hp|]. }
  exists r, p'. split; [by destruct d|]. split; [|done]. split; [by eapply platform_ok_same|done].
Qed.

(** ** The device *)

Definition po_of (m : gmap Z stream_out) (a : Z) : option (bool * Z) := (fun o => (o_standby o, o_pcm o)) <$> m !! a.
Definition pi_of (m : gmap Z stream_in) (a : Z) : option (bool * Z) := (fun i => (i_standby i, i_pcm i)) <$> m !! a.

Record out_ok (o : stream_out) : Prop := {
  oo_config : complete (o_config o);
  oo_frame : 4 <= frame_size_out (o_channel_mask o) (o_format o);
  oo_echo : o_echo o = NULL;
  oo_array : length (o_deviceArray o) = Z.to_nat (AudioOut.const "AUDIO_PATCH_PORTS_MAX")
}.

Record in_ok (i : stream_in) : Prop := {
  io_config : complete (i_config i);
  io_frame : 0 < in_frame_size i;
  io_echo : i_echo i = NULL /\ i_need_echo i = false;
  io_effects : i_preprocessors i = []
}.

(** A pointer that its holder owns. *)
Definition ptr (own : gmap Z holder) (w : holder) (b : Z) : Prop := b = NULL \/ own !! b = Some w.

Record blocks_ok (own : gmap Z holder) (outs : gmap Z stream_out) (ins : gmap Z stream_in) (res : gmap Z (@resource F)) (nb : Z) : Prop := {
  bl_next : 0 < nb;
  bl_own : forall b w, own !! b = Some w -> is_Some (res !! b);
  bl_fresh : forall b, is_Some (res !! b) -> 0 < b < nb;
  bl_outs : forall a o, outs !! a = Some o -> 0 < a < nb /\
    ptr own (B_eq a) (o_equalizer o) /\ ptr own (B_core a) (core_prms (o_prms o)) /\ ptr own (B_file a) (o_file o);
  bl_ins : forall a i, ins !! a = Some i -> 0 < a < nb /\ ptr own (B_in a) (i_file i)
}.

Record inv_on (own : gmap Z holder) (p : platform) (outs : gmap Z stream_out) (ins : gmap Z stream_in) (ol il : list Z)
    (ao ai er : Z) (res : gmap Z (@resource F)) (nb : Z) : Prop := {
  iv_plat : plat_inv (po_of outs) (pi_of ins) p;
  iv_outs : forall a o, outs !! a = Some o -> out_ok o;
  iv_ins : forall a i, ins !! a = Some i -> in_ok i;
  iv_ol : forall a, a ∈ ol <-> is_Some (outs !! a);
  iv_il : forall a, a ∈ il <-> is_Some (ins !! a);
  iv_ao : ao = NULL \/ is_Some (outs !! ao);
  iv_ai : ai = NULL \/ is_Some (ins !! ai);
  iv_echo : er = NULL;
  iv_blocks : blocks_ok own outs ins res nb
}.

(** With the owner of each block; and for some owners. *)
Definition invb (own : gmap Z holder) (s : hal) : Prop :=
  inv_on own (plat s) (outs s) (ins s) (out_streams s) (in_streams s) (active_output s) (active_input s) (echo_reference s) (resources s) (next_block s).
Definition inv (s : hal) : Prop := exists own, invb own s.

(** Choosing devices changes the platform and tells the plug-ins. *)
Definition chosen (po pi : Z -> option (bool * Z)) (s s' : hal) : Prop :=
  exists p e, s' = set_events e (set_plat p s) /\ same_plat (plat s) p /\ plat_inv po pi p.

Lemma chosen_refl po pi s p : same_plat (plat s) p -> plat_inv po pi p -> chosen po pi s (set_plat p s).
Proof. intros. exists p, (events s). by destruct s. Qed.

Lemma chosen_inv po pi s s' : chosen po pi s s' -> plat_inv po pi (plat s').
Proof. intros (p & e & E & _ & H). rewrite E. exact H. Qed.

Lemma chosen_trans po pi s1 s2 s3 : chosen po pi s1 s2 -> chosen po pi s2 s3 -> chosen po pi s1 s3.
Proof.
  intros (p & e & -> & [E1 E2] & _) (p' & e' & -> & [E3 E4] & H). exists p', e'. split; [done|]. split; [|done].
  split; [rewrite E3; exact E1|rewrite E4; exact E2].
Qed.

Lemma wp_on_plat {A} (m : M platform A) Q (s : hal) a p : m (plat s) = Some (a, p) -> Q a (set_plat p s) -> wp (on_plat m) Q s.
Proof. intros E HQ. unfold wp, on_plat. by rewrite E. Qed.

Lemma wp_copy_path pdev Q (s : hal) : mapped (plat s) pdev -> (forall path, Q path s) -> wp (copy_path pdev) Q s.
Proof.
  intros (_ & path & E & Hl) HQ. apply wp_bind. eapply wp_on_plat.
  { unfold get_platform_path, bind, get. by rewrite E. }
  rewrite (proj2 (Z.leb_gt _ _)) by lia. apply wp_ret. by destruct s.
Qed.

Lemma wp_disable d po pi Q (s : hal) : d <> PCM_OTHER -> plat_inv po pi (plat s) ->
  (forall p, plat_inv po pi p -> filled d p [] -> same_plat (plat s) p -> others d (plat s) p -> Q 0 (set_plat p s)) ->
  wp (on_plat (disable_platform_backend_pcm d)) Q s.
Proof. intros Hd Hp HQ. destruct (disable_ok d po pi _ Hd Hp) as (p & E & H1 & H2 & H3 & H4). eapply wp_on_plat; [exact E|auto]. Qed.

Lemma wp_enable d pdev po pi Q (s : hal) : d <> PCM_OTHER -> plat_inv po pi (plat s) -> filled d (plat s) [] -> is_Some (pdev2str pdev) ->
  (forall r p, plat_inv po pi p -> same_plat (plat s) p -> others d (plat s) p -> Q r (set_plat p s)) ->
  wp (on_plat (enable_platform_backend_pcm ready pdev d)) Q s.
Proof. intros Hd Hp Hf Hn HQ. destruct (enable_ok d po pi _ pdev Hd Hp Hf Hn) as (r & p & E & H1 & H2 & H3). eapply wp_on_plat; [exact E|auto]. Qed.

(** The device is asked for with the path of the device, which is there. *)
Lemma wp_path po pi (k : HM unit) Q (s : hal) pdev : plat_inv po pi (plat s) -> mapped (plat s) pdev ->
  (forall c1 c2, wp k Q (set_plat (call c2 (call c1 (plat s))) s)) ->
  wp (path <- copy_path pdev ;; on_plat (apply_platform_path path) ;;; on_plat update_platform_path ;;; k) Q s.
Proof.
  intros Hp Hm Hk. apply wp_bind, wp_copy_path; [done|]. intros path. apply wp_bind. eapply wp_on_plat; [reflexivity|].
  apply wp_bind. eapply wp_on_plat; [reflexivity|]. apply Hk.
Qed.

Lemma filled_keep d d' (p p' : platform) hs : others d p p' -> d' <> d -> filled d' p hs -> filled d' p' hs.
Proof. intros Ho Hd Hf. destruct (Ho d' Hd) as [E1 E2]. by eapply filled_other. Qed.

(** One direction: closed, reset, and opened for a device. *)
Definition switch (d : direction) (reset : M platform Z) (pdev : hal -> Z) : HM unit :=
  on_plat (disable_platform_backend_pcm d) ;;;
  on_plat reset ;;;
  s <- get ;;
  path <- copy_path (pdev s) ;;
  on_plat (apply_platform_path path) ;;;
  on_plat update_platform_path ;;;
  on_plat (enable_platform_backend_pcm ready (pdev s) d) ;;;
  ret tt.

Lemma switch_ok po pi d reset pdev s : d <> PCM_OTHER -> plat_inv po pi (plat s) ->
  (forall p, exists c1 c2, reset p = Some (0, call c2 (call c1 p))) ->
  (forall p, platform_ok p -> mapped p (pdev (set_plat p s))) ->
  wp (switch d reset pdev) (fun _ s' => chosen po pi s s') s.
Proof.
  intros Hd Hp Hr Hm. apply wp_bind, (wp_disable d po pi); [done|done|]. intros p1 Hp1 Hf1 Hs1 _.
  apply wp_bind. destruct (Hr p1) as (c1 & c2 & E). eapply wp_on_plat; [exact E|]. cbn [plat set_plat].
  assert (plat_inv po pi (call c2 (call c1 p1))) as Hp2 by (by apply plat_inv_call, plat_inv_call).
  apply wp_bind, wp_get. eapply (wp_path po pi); [done|apply (Hm _ (proj1 Hp2))|]. intros c3 c4. cbn [plat set_plat].
  apply wp_bind, (wp_enable d _ po pi); [done|by apply plat_inv_call, plat_inv_call|by destruct d|apply (Hm _ (proj1 Hp2))|].
  intros r p3 Hp3 Hs3 _. apply wp_ret. exists p3, (events s). split; [by destruct s|]. split; [|done].
  destruct Hs1 as [E1 E2], Hs3 as [E3 E4]. split; [rewrite E3; exact E1|rewrite E4; exact E2].
Qed.

Lemma select_phone_ok po pi s : plat_inv po pi (plat s) ->
  wp (on_plat (disable_platform_backend_pcm PCM_OUT) ;;;
     on_plat (disable_platform_backend_pcm PCM_IN) ;;;
     on_plat reset_platform_path ;;;
     s <- get ;;
     phone_path <- copy_path (get_platform_phone_device hdr (out_devices s) (uc (plat s))) ;;
     on_plat (apply_platform_path phone_path) ;;;
     on_plat update_platform_path ;;;
     on_plat (enable_platform_backend_pcm ready (get_platform_phone_device hdr (out_devices s) (uc (plat s))) PCM_OUT) ;;;
     on_plat (enable_platform_backend_pcm ready (get_platform_phone_device hdr (out_devices s) (uc (plat s))) PCM_IN) ;;;
     ret tt) (fun _ s' => chosen po pi s s') s.
Proof.
  intros Hp. apply wp_bind, (wp_disable PCM_OUT po pi); [done|done|]. intros p1 Hp1 Hf1 Hs1 _.
  apply wp_bind, (wp_disable PCM_IN po pi); [done|done|]. intros p2 Hp2 Hf2 Hs2 Hb2. cbn [plat set_plat] in *.
  apply (filled_keep _ PCM_OUT _ _ _ Hb2) in Hf1; [|done].
  apply wp_bind. eapply wp_on_plat; [reflexivity|]. cbn [plat set_plat].
  apply wp_bind, wp_get. eapply (wp_path po pi).
  { cbn [plat set_plat]. by apply plat_inv_call, plat_inv_call. }
  { apply (pl_phone _ (proj1 Hp2)). }
  intros c3 c4. cbn [plat set_plat].
  apply wp_bind, (wp_enable PCM_OUT _ po pi); [done|by do 4 apply plat_inv_call|done|apply (pl_phone _ (proj1 Hp2))|].
  intros r p3 Hp3 Hs3 Hb3. cbn [plat set_plat] in *.
  apply wp_bind, (wp_enable PCM_IN _ po pi); [done|done|by apply (filled_keep _ _ _ _ _ Hb3)|apply (pl_phone _ (proj1 Hp2))|].
  intros r' p4 Hp4 Hs4 _. cbn [plat set_plat] in *. apply wp_ret. exists p4, (events s). split; [by destruct s|]. split; [|done].
  destruct Hs1 as [E1 E2], Hs2 as [E3 E4], Hs3 as [E5 E6], Hs4 as [E7 E8]. cbn in E5, E6. split; congruence.
Qed.

(** The two of [select_devices]. *)
Lemma route_out_ok po pi s : plat_inv po pi (plat s) ->
  wp (on_plat (disable_platform_backend_pcm PCM_OUT) ;;;
     on_plat reset_platform_out_path ;;;
     s <- get ;;
     out_path <- copy_path (get_platform_device hdr (mode s) (out_devices s) (uc (plat s))) ;;
     on_plat (apply_platform_path out_path) ;;;
     on_plat update_platform_path ;;;
     on_plat (enable_platform_backend_pcm ready (get_platform_device hdr (mode s) (out_devices s) (uc (plat s))) PCM_OUT) ;;;
     ret tt) (fun _ s' => chosen po pi s s') s.
Proof.
  intros Hp. pose proof (switch_ok po pi PCM_OUT reset_platform_out_path
    (fun s => get_platform_device hdr (mode s) (out_devices s) (uc (plat s))) s) as H. unfold switch in H.
  specialize (H ltac:(done) Hp ltac:(intros p; by eexists _, _) ltac:(intros p Hok; apply (pl_path _ Hok))). exact H.
Qed.

Lemma route_in_ok po pi s : plat_inv po pi (plat s) ->
  wp (on_plat (disable_platform_backend_pcm PCM_IN) ;;;
     on_plat reset_platform_in_path ;;;
     s <- get ;;
     in_path <- copy_path (get_platform_device hdr (mode s) (in_devices s) (uc (plat s))) ;;
     on_plat (apply_platform_path in_path) ;;;
     on_plat update_platform_path ;;;
     on_plat (enable_platform_backend_pcm ready (get_platform_device hdr (mode s) (in_devices s) (uc (plat s))) PCM_IN) ;;;
     ret tt) (fun _ s' => chosen po pi s s') s.
Proof.
  intros Hp. pose proof (switch_ok po pi PCM_IN reset_platform_in_path
    (fun s => get_platform_device hdr (mode s) (in_devices s) (uc (plat s))) s) as H. unfold switch in H.
  specialize (H ltac:(done) Hp ltac:(intros p; by eexists _, _) ltac:(intros p Hok; apply (pl_path _ Hok))). exact H.
Qed.

Lemma select_devices_ok po pi od id s : plat_inv po pi (plat s) ->
  wp (select_devices od id) (fun _ s' => chosen po pi s s') s.
Proof.
  intros Hp. unfold select_devices. cbv zeta. apply wp_bind, wp_get. apply wp_bind.
  assert (chosen po pi s s) as Hc by (exists (plat s), (events s); split; [by destruct s|done]).
  eapply (wp_mono _ (fun _ s' => chosen po pi s s')).
  { destruct (mode s =? _); [|by apply wp_ret]. by apply select_phone_ok. }
  intros _ s1 H1. apply wp_bind, wp_get, wp_bind. eapply (wp_mono _ (fun _ s' => chosen po pi s s')).
  { destruct (negb _ && od); [|by apply wp_ret]. eapply wp_mono; [|intros u s2 H2; eapply chosen_trans; [exact H1|exact H2]].
    apply (route_out_ok po pi). by apply (chosen_inv _ _ _ _ H1). }
  intros _ s2 H2. apply wp_bind, wp_get, wp_bind. eapply (wp_mono _ (fun _ s' => chosen po pi s s')).
  { destruct (negb _ && id); [|by apply wp_ret]. eapply wp_mono; [|intros u s3 H3; eapply chosen_trans; [exact H2|exact H3]].
    apply (route_in_ok po pi). by apply (chosen_inv _ _ _ _ H2). }
  intros _ s3 (p & e & -> & Hs & Hp3). unfold event_process, modify, wp. by eexists _, _.
Qed.

End safe.
End AudioSafe.
