(* ===== verification/AudioReq.v ===== *)
(** * Every request of Android keeps the invariant of the audio HAL

    The requests of [AudioDev], one by one and in a row: they return, and [inv]
    holds again.  [AudioLaws] is what is relied on of the sound library, the
    equalizer and its configuration. *)

From stdpp Require Import base tactics option list list_numbers numbers gmap fin_maps.
From Stdlib Require Import ZArith Lia.
From Stdlib Require String.
From S2P Require Import Prelude CString AudioPlat AudioRoute AudioThm AudioOut AudioIn AudioDev AudioSafe.

Import String.StringSyntax.
Import CString AudioPlat AudioRoute AudioThm AudioOut AudioIn AudioDev AudioSafe.

Local Open Scope Z_scope.
Local Open Scope list_scope.
Local Open Scope c_scope.

(** A configuration of the equalizer that is in order: numbers fit, and there
    are bands before their parameters. *)
Fixpoint conf_ok {F} {EN : AudioEnv F} (lines : list (list Z)) (idx : Z) (room : option Z) : bool :=
  match lines with
  | [] => true
  | l :: lines =>
      match scan_key "channels=" l with
      | Overflow => false
      | Scanned _ _ => conf_ok lines idx room
      | No_match =>
      match scan_key "enabled=" l with
      | Overflow => false
      | Scanned v _ => (v =? 0) || conf_ok lines idx room
      | No_match =>
      match scan_key "bin_num=" l with
      | Overflow => false
      | Scanned v _ => conf_ok lines idx (if v <? 0 then None else Some v)
      | No_match =>
      match scan_key "samplerate=" l with
      | Overflow => false
      | Scanned _ _ => conf_ok lines idx room
      | No_match =>
      match scan_params l with
      | None => false
      | Some (Some _) => match room with Some n => (0 <=? idx) && (idx <? n) && conf_ok lines (idx + 1) room | None => false end
      | Some None => conf_ok lines idx room
      end
      end
      end
      end
      end
  end.

Class AudioLaws {F} {PL : PcmLib} {EF : Effects} {EN : AudioEnv F} : Prop := {
  law_bad : forall h, ready h = true \/ bad_pcm h = true;
  law_read : forall h t n, 0 <= n -> length (snd (read_result h t n)) = Z.to_nat n;
  law_eq : forall n l, length (eq_process n l) = length l;
  law_conf : forall lines, eq_conf = Some lines -> conf_ok lines 0 None = true
}.

Module AudioReq.

(** The members that [out_ok] and [in_ok] look at are the same. *)
Ltac same_ok := match goal with H : out_ok _ |- out_ok _ => by destruct H; split | H : in_ok _ |- in_ok _ => by destruct H; split end.

Section req.
Context {F : Type} {PL : PcmLib} {EF : Effects} {EN : AudioEnv F} {AN : AndroidAudio} {LAWS : AudioLaws}.

Local Abbreviation platform := (@AudioRoute.platform F).
Local Abbreviation hal := (@AudioOut.hal F).
Local Abbreviation HM := (M hal).

(** ** Steps *)

Lemma wp_out a o Q (s : hal) : outs s !! a = Some o -> Q o s -> wp (out a) Q s.
Proof. intros E H. unfold wp, out. by rewrite E. Qed.
Lemma wp_upd_out a o f Q (s : hal) : outs s !! a = Some o -> Q tt (set_outs (<[a := f o]> (outs s)) s) -> wp (upd_out a f) Q s.
Proof. intros E H. unfold wp, upd_out. by rewrite E. Qed.
Lemma wp_inp a i Q (s : hal) : ins s !! a = Some i -> Q i s -> wp (inp a) Q s.
Proof. intros E H. unfold wp, inp. by rewrite E. Qed.
Lemma wp_upd_in a i f Q (s : hal) : ins s !! a = Some i -> Q tt (set_ins (<[a := f i]> (ins s)) s) -> wp (upd_in a f) Q s.
Proof. intros E H. unfold wp, upd_in. by rewrite E. Qed.
Lemma wp_free b Q (s : hal) : is_Some (resources s !! b) -> Q tt (set_resources (delete b (resources s)) s) -> wp (free b) Q s.
Proof. intros [x E] H. unfold wp, free. by rewrite E. Qed.
Lemma wp_use b Q (s : hal) : (exists r, resources s !! b = Some r /\ Q r s) -> wp (use b) Q s.
Proof. intros (r & E & H). unfold wp, use. by rewrite E. Qed.
Lemma wp_modify f Q (s : hal) : Q tt (f s) -> wp (modify f) Q s.
Proof. done. Qed.
Lemma wp_release p close clear Q (s : hal) : (p = NULL -> Q tt s) -> (p <> NULL -> wp (close p ;;; clear) Q s) ->
  wp (release p close clear) Q s.
Proof. intros H0 H1. unfold release. destruct (Z.eqb_spec p NULL) as [->|Hp]; [by apply wp_ret, H0|by apply H1]. Qed.
Lemma wp_lock l Q (s : hal) : l ∉ held s -> Q tt (set_held (l :: held s) (set_trace (trace s ++ [Lock l]) s)) -> wp (lock l) Q s.
Proof. intros Hl H. unfold wp, lock. by rewrite bool_decide_eq_false_2. Qed.
Lemma wp_unlock l Q (s : hal) : l ∈ held s ->
  Q tt (set_held (filter (fun x => x <> l) (held s)) (set_trace (trace s ++ [Unlock l]) s)) -> wp (unlock l) Q s.
Proof. intros Hl H. unfold wp, unlock. by rewrite bool_decide_eq_true_2. Qed.
Lemma wp_event f e Q (s : hal) : (forall l, Q tt (set_events l s)) -> wp (event_process f e) Q s.
Proof. intros H. apply H. Qed.

(** ** The invariant under small changes *)

(** What is there, and the locks that are held. *)
Record keep (s s' : hal) : Prop := {
  kp_held : held s' = held s;
  kp_outs : forall a, is_Some (outs s' !! a) <-> is_Some (outs s !! a);
  kp_ins : forall a, is_Some (ins s' !! a) <-> is_Some (ins s !! a)
}.

#[export] Instance keep_preorder : PreOrder keep.
Proof.
  split; [by intros s; split|]. intros s1 s2 s3 [H1 H2 H3] [H4 H5 H6].
  split; [congruence|..]; intros a; [by rewrite H5|by rewrite H6].
Qed.

Lemma pcms_ok_ext own po pi po' pi' (p : platform) : (forall a, po' a = po a) -> (forall a, pi' a = pi a) -> pcms_ok own po pi p -> pcms_ok own po' pi' p.
Proof.
  intros Eo Ei [H1 H2 H3 H4 H5 H6 H7 H8]. split; try done; intros.
  - rewrite Eo. by apply H4.
  - rewrite Ei. by apply H5.
  - rewrite Eo in *. by apply H7 in H.
  - rewrite Ei in *. by apply H8 in H.
Qed.

Lemma plat_inv_ext po pi po' pi' (p : platform) : (forall a, po' a = po a) -> (forall a, pi' a = pi a) -> plat_inv po pi p -> plat_inv po' pi' p.
Proof. intros Eo Ei [H [own Ho]]. split; [done|]. exists own. by eapply pcms_ok_ext. Qed.

Lemma po_of_insert m a o b : po_of (<[a := o]> m) b = if decide (a = b) then Some (o_standby o, o_pcm o) else po_of m b.
Proof. unfold po_of. destruct (decide (a = b)) as [->|Hne]; [by rewrite lookup_insert_eq|by rewrite lookup_insert_ne]. Qed.
Lemma pi_of_insert m a i b : pi_of (<[a := i]> m) b = if decide (a = b) then Some (i_standby i, i_pcm i) else pi_of m b.
Proof. unfold pi_of. destruct (decide (a = b)) as [->|Hne]; [by rewrite lookup_insert_eq|by rewrite lookup_insert_ne]. Qed.

Lemma insert_dom {A} (m : gmap Z A) a x y b : m !! a = Some x -> is_Some (<[a := y]> m !! b) <-> is_Some (m !! b).
Proof. intros E. rewrite lookup_insert_is_Some. destruct (decide (a = b)) as [->|]; [rewrite E; naive_solver|naive_solver]. Qed.

(** A stream's members, but for its pointers, are changed: with pointers that its
    holder owns. *)
Lemma inv_upd_out own (s : hal) a o o' p : invb own s -> outs s !! a = Some o -> out_ok o' ->
  plat_inv (po_of (<[a := o']> (outs s))) (pi_of (ins s)) p ->
  ptr own (B_eq a) (o_equalizer o') -> ptr own (B_core a) (core_prms (o_prms o')) -> ptr own (B_file a) (o_file o') ->
  invb own (set_plat p (set_outs (<[a := o']> (outs s)) s)).
Proof.
  intros [H1 H2 H3 H4 H5 H6 H7 H8 [B1 B2 B3 B4 B5]] Ho Hok Hp P1 P2 P3. split; try done; cbn.
  - intros b x. rewrite lookup_insert_Some. intros [[<- <-]|[_ Hx]]; [done|by eapply H2].
  - intros b. rewrite H4. by rewrite insert_dom.
  - destruct H6 as [?|?]; [by left|right]. by rewrite insert_dom.
  - split; try done. intros b x. rewrite lookup_insert_Some. intros [[<- <-]|[_ Hx]]; [|by apply B4].
    destruct (B4 _ _ Ho) as (? & _). done.
Qed.

Lemma inv_upd_in own (s : hal) a i i' p : invb own s -> ins s !! a = Some i -> in_ok i' ->
  plat_inv (po_of (outs s)) (pi_of (<[a := i']> (ins s))) p -> ptr own (B_in a) (i_file i') ->
  invb own (set_plat p (set_ins (<[a := i']> (ins s)) s)).
Proof.
  intros [H1 H2 H3 H4 H5 H6 H7 H8 [B1 B2 B3 B4 B5]] Ho Hok Hp P1. split; try done; cbn.
  - intros b x. rewrite lookup_insert_Some. intros [[<- <-]|[_ Hx]]; [done|by eapply H3].
  - intros b. rewrite H5. by rewrite insert_dom.
  - destruct H7 as [?|?]; [by left|right]. by rewrite insert_dom.
  - split; try done. intros b x. rewrite lookup_insert_Some. intros [[<- <-]|[_ Hx]]; [|by apply B5].
    destruct (B5 _ _ Ho) as (? & _). done.
Qed.

(** The handle and the standby of a stream stay. *)
Lemma plat_inv_same_out (s : hal) a o o' : plat_inv (po_of (outs s)) (pi_of (ins s)) (plat s) -> outs s !! a = Some o ->
  o_standby o' = o_standby o -> o_pcm o' = o_pcm o -> plat_inv (po_of (<[a := o']> (outs s))) (pi_of (ins s)) (plat s).
Proof.
  intros Hp Ho E1 E2. eapply plat_inv_ext; [..|exact Hp]; [|done]. intros b. rewrite po_of_insert.
  destruct (decide (a = b)) as [->|]; [|done]. unfold po_of. rewrite Ho. cbn. by rewrite E1, E2.
Qed.

Lemma plat_inv_same_in (s : hal) a i i' : plat_inv (po_of (outs s)) (pi_of (ins s)) (plat s) -> ins s !! a = Some i ->
  i_standby i' = i_standby i -> i_pcm i' = i_pcm i -> plat_inv (po_of (outs s)) (pi_of (<[a := i']> (ins s))) (plat s).
Proof.
  intros Hp Ho E1 E2. eapply plat_inv_ext; [..|exact Hp]; [done|]. intros b. rewrite pi_of_insert.
  destruct (decide (a = b)) as [->|]; [|done]. unfold pi_of. rewrite Ho. cbn. by rewrite E1, E2.
Qed.

(** ** Closing a stream of the sound library *)

Lemma pcms_ok_close own po pi po' pi' (p : platform) h : pcms_ok own po pi p -> (forall d, own !! h <> Some (Own_slot d)) ->
  (forall a x, own !! x = Some (Own_out a) -> x <> h -> exists b, po' a = Some (b, x)) ->
  (forall a x, own !! x = Some (Own_in a) -> x <> h -> exists b, pi' a = Some (b, x)) ->
  (forall a b x, po' a = Some (b, x) -> x = NULL \/ po a = Some (b, x) /\ own !! h <> Some (Own_out a)) ->
  (forall a b x, pi' a = Some (b, x) -> x = NULL \/ pi a = Some (b, x) /\ own !! h <> Some (Own_in a)) ->
  pcms_ok (delete h own) po' pi' (set_pcms (delete h (open_pcms p)) (next_pcm p) p).
Proof.
  intros [H1 H2 H3 H4 H5 H6 H7 H8] Hs Ho Hi Hpo Hpi.
  assert (forall x, dead p x -> dead (set_pcms (delete h (open_pcms p)) (next_pcm p) p) x) as Hd.
  { intros x (E & ? & ?). split; [|done]. cbn. apply lookup_delete_None. by right. }
  split; cbn; try done.
  - intros x. rewrite !lookup_delete_is_Some. rewrite H1. done.
  - intros x. rewrite lookup_delete_is_Some. intros [_ ?]. by apply H3.
  - intros a x. rewrite lookup_delete_Some. intros [? ?]. by apply Ho.
  - intros a x. rewrite lookup_delete_Some. intros [? ?]. by apply Hi.
  - intros d. destruct (H6 d) as (hs & Hf & Hh). exists hs. split; [by destruct d|]. intros x. rewrite lookup_delete_Some, Hh.
    split; [by intros []|]. intros Hx. split; [|done]. intros <-. by apply (Hs d), Hh.
  - intros a b x Hx. destruct (Hpo a b x Hx) as [?|[E Hne]]; [by left|]. destruct (H7 a b x E) as [?|[?|[? ?]]]; [by left|by right; left; apply Hd|].
    right. right. split; [|done]. apply lookup_delete_Some. split; [congruence|done].
  - intros a b x Hx. destruct (Hpi a b x Hx) as [?|[E Hne]]; [by left|]. destruct (H8 a b x E) as [?|[?|[? ?]]]; [by left|by right; left; apply Hd|].
    right. right. split; [|done]. apply lookup_delete_Some. split; [congruence|done].
Qed.

(** A handle of a stream may be used. *)
Lemma owned_usable own po pi (s : hal) h w : pcms_ok own po pi (plat s) -> h = NULL \/ dead (plat s) h \/ own !! h = Some w -> h <> NULL ->
  usable h s = true /\ (own !! h = None \/ own !! h = Some w).
Proof.
  intros Hok [?|[(E & Er & _)|E]] Hne; [done|..].
  - unfold usable. rewrite E, Er. destruct (law_bad h) as [?| ->]; [congruence|]. split; [done|]. left. apply eq_None_not_Some. intros Hx%(pc_dom _ _ _ _ Hok). rewrite E in Hx. by destruct Hx.
  - assert (is_Some (open_pcms (plat s) !! h)) as [x Ex] by (apply (pc_dom _ _ _ _ Hok); by eexists).
    unfold usable. rewrite Ex. split; [done|by right].
Qed.

(** Closing the handle of a stream, and clearing it. *)
Lemma release_out_pcm own a o (s : hal) : invb own s -> outs s !! a = Some o ->
  wp (release (o_pcm o) close_stream (upd_out a (set_o_pcm NULL))) (fun _ s' => exists p,
    s' = set_plat p (set_outs (<[a := set_o_pcm NULL o]> (outs s)) s) /\ invb own s') s.
Proof.
  intros Hi Ho. apply wp_release.
  { intros E. exists (plat s). assert (set_o_pcm NULL o = o) as -> by (destruct o; cbn in *; by subst).
    rewrite insert_id by done. by destruct s. }
  intros Hne. destruct (iv_plat _ _ _ _ _ _ _ _ _ _ _ Hi) as [Hp [ow Hok]].
  assert (po_of (outs s) a = Some (o_standby o, o_pcm o)) as Hpo by (unfold po_of; by rewrite Ho).
  destruct (owned_usable ow _ _ s (o_pcm o) (Own_out a) Hok) as [Hu How]; [|done|].
  { destruct (pc_outs _ _ _ _ Hok _ _ _ Hpo) as [?|[?|[? ?]]]; auto. }
  apply wp_bind. unfold wp at 1, close_stream. rewrite Hu. eapply wp_upd_out; [exact Ho|]. eexists. split; [cbn; reflexivity|].
  destruct (bl_outs _ _ _ _ _ (iv_blocks _ _ _ _ _ _ _ _ _ _ _ Hi) _ _ Ho) as (_ & P1 & P2 & P3).
  eapply (inv_upd_out own s a o (set_o_pcm NULL o)); [done|done| | |done..].
  - destruct (iv_outs _ _ _ _ _ _ _ _ _ _ _ Hi _ _ Ho) as [? ? ? ?]. by split.
  - split; [by apply (platform_ok_same (plat s))|]. exists (delete (o_pcm o) ow).
    apply (pcms_ok_close ow (po_of (outs s)) (pi_of (ins s))); try done.
    + intros d E. destruct How; congruence.
    + intros b x Hx Hxo. rewrite po_of_insert. destruct (pc_out _ _ _ _ Hok _ _ Hx) as [sb E].
      destruct (decide (a = b)) as [<-|]; [|by exists sb]. rewrite Hpo in E. injection E as <- <-. done.
    + intros b x Hx _. by apply (pc_in _ _ _ _ Hok).
    + intros b sb x. rewrite po_of_insert. destruct (decide (a = b)) as [<-|Hab]; [by intros [= <- <-]; left|]. right. split; [done|].
      destruct How as [-> | ->]; congruence.
    + intros b sb x Hx. right. split; [done|]. destruct How as [-> | ->]; congruence.
Qed.

Lemma release_in_pcm own a i (s : hal) : invb own s -> ins s !! a = Some i ->
  wp (release (i_pcm i) close_stream (upd_in a (set_i_pcm NULL))) (fun _ s' => exists p,
    s' = set_plat p (set_ins (<[a := set_i_pcm NULL i]> (ins s)) s) /\ invb own s') s.
Proof.
  intros Hi Ho. apply wp_release.
  { intros E. exists (plat s). assert (set_i_pcm NULL i = i) as -> by (destruct i; cbn in *; by subst).
    rewrite insert_id by done. by destruct s. }
  intros Hne. destruct (iv_plat _ _ _ _ _ _ _ _ _ _ _ Hi) as [Hp [ow Hok]].
  assert (pi_of (ins s) a = Some (i_standby i, i_pcm i)) as Hpi by (unfold pi_of; by rewrite Ho).
  destruct (owned_usable ow _ _ s (i_pcm i) (Own_in a) Hok) as [Hu How]; [|done|].
  { destruct (pc_ins _ _ _ _ Hok _ _ _ Hpi) as [?|[?|[? ?]]]; auto. }
  apply wp_bind. unfold wp at 1, close_stream. rewrite Hu. eapply wp_upd_in; [exact Ho|]. eexists. split; [cbn; reflexivity|].
  destruct (bl_ins _ _ _ _ _ (iv_blocks _ _ _ _ _ _ _ _ _ _ _ Hi) _ _ Ho) as (_ & P1).
  eapply (inv_upd_in own s a i (set_i_pcm NULL i)); [done|done| | |done].
  - destruct (iv_ins _ _ _ _ _ _ _ _ _ _ _ Hi _ _ Ho) as [? ? ? ?]. by split.
  - split; [by apply (platform_ok_same (plat s))|]. exists (delete (i_pcm i) ow).
    apply (pcms_ok_close ow (po_of (outs s)) (pi_of (ins s))); try done.
    + intros d E. destruct How; congruence.
    + intros b x Hx _. by apply (pc_out _ _ _ _ Hok).
    + intros b x Hx Hxo. rewrite pi_of_insert. destruct (pc_in _ _ _ _ Hok _ _ Hx) as [sb E].
      destruct (decide (a = b)) as [<-|]; [|by exists sb]. rewrite Hpi in E. injection E as <- <-. done.
    + intros b sb x Hx. right. split; [done|]. destruct How as [-> | ->]; congruence.
    + intros b sb x. rewrite pi_of_insert. destruct (decide (a = b)) as [<-|Hab]; [by intros [= <- <-]; left|]. right. split; [done|].
      destruct How as [-> | ->]; congruence.
Qed.

(** ** Freeing a block *)

Lemma inv_free own (s : hal) b w : invb own s -> own !! b = Some w ->
  (forall a o, outs s !! a = Some o -> (w = B_eq a -> o_equalizer o = NULL) /\ (w = B_core a -> core_prms (o_prms o) = NULL) /\
    (w = B_file a -> o_file o = NULL)) ->
  (forall a i, ins s !! a = Some i -> w = B_in a -> i_file i = NULL) ->
  invb (delete b own) (set_resources (delete b (resources s)) s).
Proof.
  intros [H1 H2 H3 H4 H5 H6 H7 H8 [B1 B2 B3 B4 B5]] Hb Ho Hi.
  assert (forall w' p, ptr own w' p -> (w = w' -> p = NULL) -> ptr (delete b own) w' p) as Hptr.
  { intros w' p [->|E] Hw; [by left|]. destruct (decide (b = p)) as [<-|Hne]; [left; apply Hw; congruence|].
    right. by rewrite lookup_delete_ne. }
  split; try done. split; try done; cbn.
  - intros x w'. rewrite lookup_delete_Some. intros [? ?]. rewrite lookup_delete_ne by done. by eapply B2.
  - intros x. rewrite lookup_delete_is_Some. intros [_ ?]. by apply B3.
  - intros a o Ha. destruct (B4 _ _ Ha) as (? & P1 & P2 & P3), (Ho _ _ Ha) as (Q1 & Q2 & Q3). split_and!; [lia|lia|..]; by apply Hptr.
  - intros a i Ha. destruct (B5 _ _ Ha) as (? & P1). split; [lia|]. apply Hptr; [done|]. by apply Hi.
Qed.

(** A pointer of an output stream to a block, and clearing it. *)
Lemma release_out_block own a o (s : hal) p w f : invb own s -> outs s !! a = Some o -> ptr own w p -> (p = NULL -> f o = o) ->
  out_ok (f o) -> o_standby (f o) = o_standby o -> o_pcm (f o) = o_pcm o ->
  (o_equalizer (f o) = NULL \/ o_equalizer (f o) = o_equalizer o /\ w <> B_eq a) ->
  (core_prms (o_prms (f o)) = NULL \/ core_prms (o_prms (f o)) = core_prms (o_prms o) /\ w <> B_core a) ->
  (o_file (f o) = NULL \/ o_file (f o) = o_file o /\ w <> B_file a) ->
  w = B_eq a \/ w = B_core a \/ w = B_file a ->
  wp (release p free (upd_out a f)) (fun _ s' => exists own' r,
    s' = set_resources r (set_outs (<[a := f o]> (outs s)) s) /\ invb own' s') s.
Proof.
  intros Hi Ho Hp Hf Hok E1 E2 P1 P2 P3 Hw. apply wp_release.
  { intros E. rewrite (Hf E). exists own, (resources s). rewrite insert_id by done. split; [by destruct s|]. by destruct s. }
  intros Hne. destruct Hp as [?|Hp]; [done|]. apply wp_bind, wp_free; [by apply (bl_own _ _ _ _ _ (iv_blocks _ _ _ _ _ _ _ _ _ _ _ Hi) _ w)|].
  eapply wp_upd_out; [exact Ho|]. exists (delete p own), (delete p (resources s)). split; [done|].
  destruct (bl_outs _ _ _ _ _ (iv_blocks _ _ _ _ _ _ _ _ _ _ _ Hi) _ _ Ho) as (_ & Q1 & Q2 & Q3).
  apply (inv_free own (set_outs (<[a := f o]> (outs s)) s) p w); [|done|..].
  - apply (inv_upd_out own s a o (f o) (plat s)); [done|done|done| |..].
    + apply (plat_inv_same_out s a o (f o)); [apply Hi|done|done|done].
    + destruct P1 as [-> |[-> _]]; [by left|done].
    + destruct P2 as [-> |[-> _]]; [by left|done].
    + destruct P3 as [-> |[-> _]]; [by left|done].
  - cbn. intros b x. rewrite lookup_insert_Some. intros [[<- <-]|[Hab _]]; [|destruct Hw as [-> |[-> | ->]]; naive_solver congruence].
    split_and!; intros ->; [by destruct P1 as [?|[_ ?]]|by destruct P2 as [?|[_ ?]]|by destruct P3 as [?|[_ ?]]].
  - cbn. intros b x _. destruct Hw as [-> |[-> | ->]]; done.
Qed.

(** ** Standby *)

(** A stream in standby, without anything. *)
Definition idle_out (o : stream_out) : Prop :=
  o_standby o = true /\ o_pcm o = NULL /\ o_equalizer o = NULL /\ core_prms (o_prms o) = NULL /\ o_file o = NULL.

Lemma inv_active_null own (s : hal) : invb own s -> invb own (set_active_output NULL s).
Proof. intros [H1 H2 H3 H4 H5 H6 H7 H8 H9]. split; try done. by left. Qed.

(** The facts of a stream in the invariant. *)
Lemma inv_out own a o (s : hal) : invb own s -> outs s !! a = Some o ->
  out_ok o /\ ptr own (B_eq a) (o_equalizer o) /\ ptr own (B_core a) (core_prms (o_prms o)) /\ ptr own (B_file a) (o_file o).
Proof.
  intros Hi Ho. destruct (bl_outs _ _ _ _ _ (iv_blocks _ _ _ _ _ _ _ _ _ _ _ Hi) _ _ Ho) as (_ & ? & ? & ?).
  split; [by apply (iv_outs _ _ _ _ _ _ _ _ _ _ _ Hi _ _ Ho)|done].
Qed.

Lemma release_eq_ok own a o (s : hal) : invb own s -> outs s !! a = Some o ->
  wp (release (o_equalizer o) free (upd_out a (set_o_equalizer NULL))) (fun _ s' => exists own' r,
    s' = set_resources r (set_outs (<[a := set_o_equalizer NULL o]> (outs s)) s) /\ invb own' s') s.
Proof.
  intros Hi Ho. destruct (inv_out _ _ _ _ Hi Ho) as (Hok & P1 & P2 & P3).
  apply (release_out_block own a o s _ (B_eq a)); try done; [intros E; destruct o; cbn in *; by subst|same_ok|auto..].
Qed.

Lemma release_core_ok own a o (s : hal) (f := fun o => set_o_prms (mkPrms (biq_num (o_prms o)) (sampling_rate (o_prms o)) (chan (o_prms o)) NULL) o) :
  invb own s -> outs s !! a = Some o ->
  wp (release (core_prms (o_prms o)) free (upd_out a f)) (fun _ s' => exists own' r,
    s' = set_resources r (set_outs (<[a := f o]> (outs s)) s) /\ invb own' s') s.
Proof.
  intros Hi Ho. destruct (inv_out _ _ _ _ Hi Ho) as (Hok & P1 & P2 & P3).
  apply (release_out_block own a o s _ (B_core a)); try done; [intros E; unfold f; destruct o as [? ? ? ? ? ? ? ? ? ? ? ? ? [? ? ? ?]]; cbn in *; by subst|same_ok|auto..].
Qed.

Lemma release_file_ok own a o (s : hal) : invb own s -> outs s !! a = Some o ->
  wp (release (o_file o) free (upd_out a (set_o_file NULL))) (fun _ s' => exists own' r,
    s' = set_resources r (set_outs (<[a := set_o_file NULL o]> (outs s)) s) /\ invb own' s') s.
Proof.
  intros Hi Ho. destruct (inv_out _ _ _ _ Hi Ho) as (Hok & P1 & P2 & P3).
  apply (release_out_block own a o s _ (B_file a)); try done; [intros E; destruct o; cbn in *; by subst|same_ok|auto..].
Qed.

(** A stream that owns no handle gets another state without one. *)
Lemma owned_live own po pi (p : platform) h w : pcms_ok own po pi p -> own !! h = Some w -> h <> NULL /\ ~ dead p h.
Proof.
  intros Hok E. assert (is_Some (open_pcms p !! h)) as Hh by (apply (pc_dom _ _ _ _ Hok); by eexists).
  split; [intros ->; pose proof (pc_fresh _ _ _ _ Hok _ Hh); unfold NULL in *; lia|].
  intros (E2 & _). rewrite E2 in Hh. by destruct Hh.
Qed.

Definition unowned (p : platform) (x : option (bool * Z)) : Prop := forall b h, x = Some (b, h) -> h = NULL \/ dead p h.

Lemma pcms_ok_out own po po' pi (p : platform) a : pcms_ok own po pi p -> (forall b, b <> a -> po' b = po b) ->
  unowned p (po a) -> unowned p (po' a) -> pcms_ok own po' pi p.
Proof.
  intros Hok Eb Hn Hn'. split; try apply Hok.
  - intros x h Hh. destruct (owned_live _ _ _ _ _ _ Hok Hh) as [? ?], (pc_out _ _ _ _ Hok _ _ Hh) as [b E].
    destruct (decide (x = a)) as [->|Hx]; [|exists b; by rewrite Eb]. by destruct (Hn _ _ E).
  - intros x b h. destruct (decide (x = a)) as [->|Hx]; [intros E; destruct (Hn' _ _ E); auto|]. rewrite Eb by done. apply Hok.
Qed.

Lemma pcms_ok_in own po pi pi' (p : platform) a : pcms_ok own po pi p -> (forall b, b <> a -> pi' b = pi b) ->
  unowned p (pi a) -> unowned p (pi' a) -> pcms_ok own po pi' p.
Proof.
  intros Hok Eb Hn Hn'. split; try apply Hok.
  - intros x h Hh. destruct (owned_live _ _ _ _ _ _ Hok Hh) as [? ?], (pc_in _ _ _ _ Hok _ _ Hh) as [b E].
    destruct (decide (x = a)) as [->|Hx]; [|exists b; by rewrite Eb]. by destruct (Hn _ _ E).
  - intros x b h. destruct (decide (x = a)) as [->|Hx]; [intros E; destruct (Hn' _ _ E); auto|]. rewrite Eb by done. apply Hok.
Qed.

Lemma po_of_same m a o : m !! a = Some o -> po_of m a = Some (o_standby o, o_pcm o).
Proof. intros E. unfold po_of. by rewrite E. Qed.
Lemma pi_of_same m a i : m !! a = Some i -> pi_of m a = Some (i_standby i, i_pcm i).
Proof. intros E. unfold pi_of. by rewrite E. Qed.

(** A stream without a handle goes to standby, or leaves it. *)
Lemma inv_set_standby own a o (s : hal) b : invb own s -> outs s !! a = Some o -> unowned (plat s) (Some (b, o_pcm o)) ->
  invb own (set_outs (<[a := set_o_standby b o]> (outs s)) s).
Proof.
  intros Hi Ho Hn. destruct (inv_out _ _ _ _ Hi Ho) as (Hok & P1 & P2 & P3).
  apply (inv_upd_out own s a o (set_o_standby b o) (plat s)); try done; [same_ok|].
  destruct (iv_plat _ _ _ _ _ _ _ _ _ _ _ Hi) as [Hp [ow Hw]]. split; [done|]. exists ow.
  apply (pcms_ok_out _ (po_of (outs s)) _ _ _ a); [done|..].
  - intros x Hx. rewrite po_of_insert. by rewrite decide_False.
  - rewrite (po_of_same _ _ _ Ho). intros ? ? [= <- <-]. by eapply Hn.
  - rewrite po_of_insert, decide_True by done. exact Hn.
Qed.

Lemma keep_upd_out (s s' : hal) a o o' : held s' = held s -> outs s !! a = Some o -> outs s' = <[a := o']> (outs s) -> ins s' = ins s -> keep s s'.
Proof. intros H1 H2 H3 H4. split; [done|..]; intros b; [rewrite H3; by apply insert_dom with o|by rewrite H4]. Qed.

Lemma do_out_standby_ok a o (s : hal) : inv s -> outs s !! a = Some o ->
  wp (do_out_standby a) (fun _ s' => inv s' /\ keep s s' /\ exists o', outs s' !! a = Some o' /\ o_standby o' = true /\
    (o_standby o = false -> idle_out o')) s.
Proof.
  intros [own Hi] Ho. apply wp_bind. eapply wp_out; [exact Ho|].
  destruct (o_standby o) eqn:Es; cbn [negb]; [apply wp_ret; split; [by exists own|]; split; [done|]; by exists o|].
  apply wp_bind. eapply wp_mono; [exact (release_out_pcm own a o s Hi Ho)|]. intros u1 s1 (p & E1 & Hi1).
  assert (outs s1 !! a = Some (set_o_pcm NULL o)) as Ho1 by (rewrite E1; apply lookup_insert_eq).
  apply wp_bind. eapply wp_mono; [exact (release_eq_ok own a _ s1 Hi1 Ho1)|]. intros u2 s2 (own2 & r2 & E2 & Hi2).
  assert (outs s2 !! a = Some (set_o_equalizer NULL (set_o_pcm NULL o))) as Ho2 by (rewrite E2; apply lookup_insert_eq).
  apply wp_bind. eapply wp_mono; [exact (release_core_ok own2 a _ s2 Hi2 Ho2)|]. intros u3 s3 (own3 & r3 & E3 & Hi3).
  match type of E3 with context [<[a := ?x]> _] => set (o3 := x) in E3 end.
  assert (outs s3 !! a = Some o3) as Ho3 by (rewrite E3; apply lookup_insert_eq).
  apply wp_bind. eapply wp_mono; [exact (release_file_ok own3 a o3 s3 Hi3 Ho3)|]. intros u4 s4 (own4 & r4 & E4 & Hi4).
  assert (outs s4 !! a = Some (set_o_file NULL o3)) as Ho4 by (rewrite E4; apply lookup_insert_eq).
  apply wp_bind. eapply wp_upd_out; [exact Ho4|]. apply wp_bind, wp_modify.
  destruct (inv_out _ _ _ _ Hi4 Ho4) as (Hok4 & _).
  apply wp_bind, wp_release; [|intros Hne; destruct Hne; apply Hok4].
  intros _. apply wp_ret. split; [|split].
  - exists own4. apply inv_active_null. apply inv_set_standby; [done|done|]. intros ? ? [= <- <-]. by left.
  - transitivity s1; [by rewrite E1; eapply keep_upd_out|]. transitivity s2; [by rewrite E2; eapply keep_upd_out|].
    transitivity s3; [by rewrite E3; eapply keep_upd_out|]. transitivity s4; [by rewrite E4; eapply keep_upd_out|]. by eapply keep_upd_out.
  - eexists. split; [apply lookup_insert_eq|]. done.
Qed.

(** ** Opening a stream *)

Lemma slots_new own po pi (p p' : platform) w : pcms_ok own po pi p -> (forall d, w <> Own_slot d) ->
  (forall d, backs d p' = backs d p /\ bec d p' = bec d p) ->
  forall d, exists hs, filled d p' hs /\ forall h, <[next_pcm p := w]> own !! h = Some (Own_slot d) <-> h ∈ hs.
Proof.
  intros Hok Hw Hb d. destruct (pc_slots _ _ _ _ Hok d) as (hs & Hf & Hs), (Hb d) as [E1 E2]. exists hs.
  split; [by eapply filled_other|]. intros h. rewrite lookup_insert_Some, Hs. split; [by intros [[_ ?%Hw]|[_ ?]]|].
  intros Hh. right. split; [|done]. intros <-. apply Hs in Hh.
  assert (is_Some (open_pcms p !! next_pcm p)) as Hi by (apply (pc_dom _ _ _ _ Hok); by eexists).
  pose proof (pc_fresh _ _ _ _ Hok _ Hi). lia.
Qed.

Lemma open_out_ok own a o (s : hal) c k : invb own s -> outs s !! a = Some o -> o_standby o = false -> unowned (plat s) (Some (false, o_pcm o)) ->
  wp (h <- open_stream PCM_OUT c ;; upd_out a (set_o_pcm h) ;;;
    if negb (ready h) then close_stream h ;;; modify (set_active_output NULL) ;;; ret (-12) else ret k)
    (fun _ s' => invb own s' /\ keep s s') s.
Proof.
  intros Hi Ho Hsb Hn. destruct (inv_out _ _ _ _ Hi Ho) as (Hok & P1 & P2 & P3).
  destruct (iv_plat _ _ _ _ _ _ _ _ _ _ _ Hi) as [Hp [ow Hw]]. set (n := next_pcm (plat s)).
  apply wp_bind. eapply wp_on_plat; [reflexivity|]. fold n. apply wp_bind. eapply wp_upd_out; [exact Ho|].
  assert (ow !! n = None) as Hnew.
  { apply eq_None_not_Some. intros Hx%(pc_dom _ _ _ _ Hw)%(pc_fresh _ _ _ _ Hw). unfold n in *. lia. }
  destruct (ready n) eqn:Er; cbn [negb].
  - apply wp_ret. split; [|by eapply keep_upd_out]. eapply (inv_upd_out own s a o (set_o_pcm n o)); [done|done|same_ok| |done..].
    split; [by apply (platform_ok_same (plat s))|]. exists (<[n := Own_out a]> ow).
    eapply (pcms_ok_new ow (po_of (outs s)) (pi_of (ins s))); [done|reflexivity|reflexivity|..].
    + apply (slots_new ow (po_of (outs s)) (pi_of (ins s))); [done|done|by intros []].
    + intros x h Hh. rewrite po_of_insert. destruct (pc_out _ _ _ _ Hw _ _ Hh) as [b E].
      destruct (decide (a = x)) as [<-|]; [|by exists b]. rewrite (po_of_same _ _ _ Ho) in E. injection E as _ <-.
      destruct (owned_live _ _ _ _ _ _ Hw Hh), (Hn _ _ eq_refl); done.
    + intros x h Hh. by apply (pc_in _ _ _ _ Hw).
    + intros x [= <-]. rewrite po_of_insert, decide_True by done. by eexists.
    + done.
    + intros x b h. rewrite po_of_insert. destruct (decide (a = x)) as [<-|]; [|by left]. intros [= <- <-]. right. right. by rewrite Hsb.
    + intros x b h Hx. by left.
  - apply wp_bind. unfold wp at 1, close_stream, usable. cbn [plat set_plat set_outs set_pcms open_pcms].
    rewrite lookup_insert_eq. apply wp_bind, wp_modify, wp_ret. split; [|by eapply keep_upd_out].
    apply inv_active_null. eapply (inv_upd_out own s a o (set_o_pcm n o)); [done|done|same_ok| |done..].
    split; [by apply (platform_ok_same (plat s))|]. exists ow.
    assert (delete n (<[n := (PCM_OUT, c)]> (open_pcms (plat s))) = open_pcms (plat s)) as Ed.
    { apply delete_insert_id. apply eq_None_not_Some. intros Hx%(pc_fresh _ _ _ _ Hw). unfold n in *. lia. }
    cbn [plat set_plat set_outs set_pcms open_pcms next_pcm]. rewrite Ed.
    apply (pcms_ok_out _ (po_of (outs s)) _ _ _ a).
    + apply (pcms_ok_next _ _ _ (plat s)); [done|done|cbn; lia|by intros []].
    + intros x Hx. rewrite po_of_insert. by rewrite decide_False.
    + rewrite (po_of_same _ _ _ Ho). intros b h [= <- <-]. destruct (Hn _ _ eq_refl) as [?|(? & ? & ?)]; [by left|]. right. split; [done|]. split; [done|]. cbn. lia.
    + rewrite po_of_insert, decide_True by done. intros b h [= <- <-]. right. split; [|split; [done|]].
      * cbn. apply eq_None_not_Some. intros Hx%(pc_fresh _ _ _ _ Hw). unfold n in *. lia.
      * cbn. pose proof (pc_next _ _ _ _ Hw). unfold n. lia.
Qed.

(** ** The equalizer *)

Lemma own_fresh own (s : hal) : invb own s -> own !! next_block s = None.
Proof.
  intros Hi. destruct (iv_blocks _ _ _ _ _ _ _ _ _ _ _ Hi) as [B1 B2 B3 B4 B5].
  destruct (own !! next_block s) as [w|] eqn:E; [|done]. pose proof (B3 _ (B2 _ _ E)). lia.
Qed.

Lemma ptr_mono (own own' : gmap Z holder) w p : (forall b w, own !! b = Some w -> own' !! b = Some w) -> ptr own w p -> ptr own' w p.
Proof. intros H [?|?]; [by left|right; auto]. Qed.

Lemma inv_alloc own (s : hal) r w : invb own s ->
  invb (<[next_block s := w]> own) (set_next_block (next_block s + 1) (set_resources (<[next_block s := r]> (resources s)) s)).
Proof.
  intros Hi. pose proof (own_fresh _ _ Hi) as Hf. destruct Hi as [H1 H2 H3 H4 H5 H6 H7 H8 [B1 B2 B3 B4 B5]].
  assert (forall w' p, ptr own w' p -> ptr (<[next_block s := w]> own) w' p) as Hp.
  { intros w' p. apply ptr_mono. intros b w2 E. rewrite lookup_insert_ne; [done|]. intros <-. congruence. }
  split; try done. cbn. split; cbn; try lia.
  - intros b w'. rewrite lookup_insert_Some. intros [[<- _]|[_ E]]; [rewrite lookup_insert_eq; by eexists|].
    apply lookup_insert_is_Some'. right. by eapply B2.
  - intros b. rewrite lookup_insert_is_Some. intros [<-|[_ Hb]]; [lia|]. specialize (B3 _ Hb). lia.
  - intros a o Ha. destruct (B4 _ _ Ha) as (? & ? & ? & ?). split; [lia|]. auto.
  - intros a i Ha. destruct (B5 _ _ Ha) as (? & ?). split; [lia|]. auto.
Qed.

Lemma inv_res own (s : hal) b r : invb own s -> is_Some (resources s !! b) -> invb own (set_resources (<[b := r]> (resources s)) s).
Proof.
  intros [H1 H2 H3 H4 H5 H6 H7 H8 [B1 B2 B3 B4 B5]] Hb. split; try done. cbn. split; cbn; try done.
  - intros x w E. apply lookup_insert_is_Some'. right. by eapply B2.
  - intros x. rewrite lookup_insert_is_Some. intros [<-|[_ Hx]]; by apply B3.
Qed.

(** What reading the configuration changes: blocks, and the bands of the stream. *)
Record eq_rel (a : Z) (own : gmap Z holder) (s : hal) (own' : gmap Z holder) (s' : hal) : Prop := {
  er_inv : invb own' s';
  er_keep : keep s s';
  er_plat : plat s' = plat s;
  er_conf : forall b, own !! b = Some B_conf -> own' !! b = Some B_conf;
  er_out : forall o, outs s !! a = Some o -> exists o', outs s' !! a = Some o' /\ o_standby o' = o_standby o /\ o_pcm o' = o_pcm o /\
    o_equalizer o' = o_equalizer o
}.

Lemma eq_rel_trans a own1 s1 own2 s2 own3 s3 : eq_rel a own1 s1 own2 s2 -> eq_rel a own2 s2 own3 s3 -> eq_rel a own1 s1 own3 s3.
Proof.
  intros [A1 A2 A3 A4 A5] [B1 B2 B3 B4 B5]. split; [done|by etrans|congruence|auto|].
  intros o Ho. destruct (A5 _ Ho) as (o2 & Ho2 & ? & ? & ?), (B5 _ Ho2) as (o3 & Ho3 & ? & ? & ?). exists o3. split_and!; congruence.
Qed.

(** The bands that are there for the parameters. *)
Definition room_ok (own : gmap Z holder) (s : hal) (a : Z) (o : stream_out) (room : option Z) : Prop :=
  match room with
  | None => True
  | Some n => core_prms (o_prms o) <> NULL /\
      exists l, resources s !! core_prms (o_prms o) = Some (Bands l) /\ Z.of_nat (length l) = n
  end.

Lemma eq_rel_prms a own (s : hal) o q : invb own s -> outs s !! a = Some o -> ptr own (B_core a) (core_prms q) ->
  eq_rel a own s own (set_outs (<[a := set_o_prms q o]> (outs s)) s).
Proof.
  intros Hi Ho Hp. destruct (inv_out _ _ _ _ Hi Ho) as (Hok & P1 & P2 & P3). split.
  - apply (inv_upd_out own s a o (set_o_prms q o) (plat s)); try done; [same_ok|]. apply plat_inv_same_out with o; try done. apply Hi.
  - by eapply keep_upd_out.
  - done.
  - done.
  - intros o1 Ho1. exists (set_o_prms q o). cbn. rewrite lookup_insert_eq. rewrite Ho in Ho1. injection Ho1 as <-. done.
Qed.

Lemma eq_rel_alloc a own (s : hal) r w : invb own s ->
  eq_rel a own s (<[next_block s := w]> own) (set_next_block (next_block s + 1) (set_resources (<[next_block s := r]> (resources s)) s)).
Proof.
  intros Hi. split; [by apply inv_alloc|done|done| |intros o Ho; by exists o].
  intros b Hb. pose proof (own_fresh _ _ Hi). rewrite lookup_insert_ne; [done|]. intros <-. congruence.
Qed.

Lemma eq_rel_free a own (s : hal) b : invb own s -> own !! b = Some B_line ->
  eq_rel a own s (delete b own) (set_resources (delete b (resources s)) s).
Proof.
  intros Hi Hb. split; [by eapply inv_free|done|done| |intros o Ho; by exists o].
  intros x Hx. rewrite lookup_delete_ne; [done|]. intros <-. congruence.
Qed.

Lemma eq_rel_res a own (s : hal) b r : invb own s -> is_Some (resources s !! b) ->
  eq_rel a own s own (set_resources (<[b := r]> (resources s)) s).
Proof. intros Hi Hb. split; [by apply inv_res|done|done|done|intros o Ho; by exists o]. Qed.

(** The loop from here on. *)
Definition lines_ok (a : Z) (lines : list (list Z)) : Prop := forall own s o idx line room,
  invb own s -> outs s !! a = Some o -> ptr own B_line line -> room_ok own s a o room -> conf_ok lines idx room = true ->
  wp (eq_lines a lines idx line) (fun _ s' => exists own', eq_rel a own s own' s') s.

(** The end of a turn: the line is freed. *)
Lemma next_line a lines own (s : hal) o own2 (s2 : hal) o2 idx line room : lines_ok a lines -> eq_rel a own s own2 s2 ->
  outs s !! a = Some o -> outs s2 !! a = Some o2 -> own2 !! line = Some B_line -> room_ok own2 s2 a o2 room -> conf_ok lines idx room = true ->
  wp (free line ;;; eq_lines a lines idx NULL) (fun _ s' => exists own', eq_rel a own s own' s') s2.
Proof.
  intros IH Hr Ho Ho2 Hl Hroom Hc. pose proof (er_inv _ _ _ _ _ Hr) as Hi2. destruct (inv_out _ _ _ _ Hi2 Ho2) as (_ & _ & Pc & _).
  apply wp_bind, wp_free; [by apply (bl_own _ _ _ _ _ (iv_blocks _ _ _ _ _ _ _ _ _ _ _ Hi2) _ B_line)|].
  pose proof (eq_rel_free a own2 s2 line Hi2 Hl) as Hr2. eapply wp_mono.
  - apply (IH (delete line own2) _ o2 idx NULL room); [apply Hr2|done|by left| |done].
    destruct room as [n|]; [|done]. destruct Hroom as (Hn & l & El & Hn'). split; [done|]. exists l. split; [|done]. cbn.
    rewrite lookup_delete_ne; [done|]. intros E. destruct Pc as [?|Pc]; [done|]. rewrite <- E in Pc. congruence.
  - intros b s' [own' Hr3]. exists own'. eapply eq_rel_trans; [exact Hr|]. by eapply eq_rel_trans.
Qed.

(** The buffer of the line is there. *)
Lemma line_buffer a own (s : hal) o line room : invb own s -> outs s !! a = Some o -> ptr own B_line line -> room_ok own s a o room ->
  wp (if line =? NULL then alloc Line_buffer else ret line) (fun l s' => exists own', eq_rel a own s own' s' /\ own' !! l = Some B_line /\
    outs s' !! a = Some o /\ room_ok own' s' a o room) s.
Proof.
  intros Hi Ho Hl Hroom. destruct (Z.eqb_spec line NULL) as [->|Hne].
  - unfold wp, alloc. exists (<[next_block s := B_line]> own). split; [by apply eq_rel_alloc|]. split; [apply lookup_insert_eq|].
    split; [done|]. destruct room as [n|]; [|done]. destruct Hroom as (Hn & l & El & Hn'). split; [done|]. exists l. split; [|done]. cbn.
    rewrite lookup_insert_ne; [done|]. intros E. rewrite <- E in El.
    assert (is_Some (resources s !! next_block s)) as Hb by (by eexists).
    apply (bl_fresh _ _ _ _ _ (iv_blocks _ _ _ _ _ _ _ _ _ _ _ Hi)) in Hb. lia.
  - destruct Hl as [?|Hl]; [done|]. apply wp_ret. exists own. split; [|done]. split; try done. intros o1 Ho1. by exists o1.
Qed.

Lemma eq_lines_ok a lines : lines_ok a lines.
Proof.
  induction lines as [|l lines IH]; intros own s o idx line room Hi Ho Hl Hroom Hc; cbn [eq_lines].
  all: apply wp_bind; eapply wp_mono; [by apply (line_buffer a own s o line room)|].
  { intros b s1 (own1 & Hr & _). apply wp_ret. by exists own1. }
  intros b s1 (own1 & Hr & Hb & Ho1 & Hroom1). pose proof (er_inv _ _ _ _ _ Hr) as Hi1. destruct (inv_out _ _ _ _ Hi1 Ho1) as (_ & _ & Pc & _).
  cbn [conf_ok] in Hc.
  assert (forall q idx room, ptr own1 (B_core a) (core_prms q) -> room_ok own1 s1 a (set_o_prms q o) room -> conf_ok lines idx room = true ->
    wp (free b ;;; eq_lines a lines idx NULL) (fun _ s' => exists own', eq_rel a own s own' s') (set_outs (<[a := set_o_prms q o]> (outs s1)) s1)) as Hprms.
  { intros q idx' room' Hq Hroom' Hc'. eapply (next_line a lines own s o own1 _ (set_o_prms q o) idx' b room'); try done.
    - eapply eq_rel_trans; [exact Hr|]. by apply eq_rel_prms.
    - apply lookup_insert_eq. }
  destruct (scan_key "channels=" l) as [|v r|]; [|apply wp_bind; eapply wp_upd_out; [exact Ho1|]; by apply (Hprms _ _ room)|done].
  destruct (scan_key "enabled=" l) as [|v r|]; [| |done].
  2:{ destruct (v =? 0); [apply wp_ret; by exists own1|]. cbn [orb] in Hc. eapply wp_mono.
      - by apply (IH own1 s1 o idx b room); [..|right| |].
      - intros ? s' [own' Hr3]. exists own'. by eapply eq_rel_trans. }
  destruct (scan_key "bin_num=" l) as [|v r|]; [| |done].
  2:{ destruct (v <? 0) eqn:Ev.
      - apply wp_bind, wp_ret, wp_bind. eapply wp_upd_out; [exact Ho1|]. apply (Hprms _ _ None); [by left|done|done].
      - apply wp_bind. unfold wp at 1, alloc. apply wp_bind. eapply wp_upd_out; [exact Ho1|].
        pose proof (eq_rel_alloc a own1 s1 (Bands (replicate (Z.to_nat v) zero_core)) (B_core a) Hi1) as Hr2.
        eapply (next_line a lines own s o _ _ _ _ _ (Some v)); [done| |exact Ho|apply lookup_insert_eq| | |exact Hc].
        + eapply eq_rel_trans; [exact Hr|]. eapply eq_rel_trans; [exact Hr2|]. apply eq_rel_prms; [apply Hr2|done|]. right. apply lookup_insert_eq.
        + rewrite lookup_insert_ne; [done|]. intros <-. pose proof (own_fresh _ _ Hi1). congruence.
        + split; [cbn; pose proof (bl_next _ _ _ _ _ (iv_blocks _ _ _ _ _ _ _ _ _ _ _ Hi1)); unfold NULL; lia|].
          exists (replicate (Z.to_nat v) zero_core). cbn. split; [apply lookup_insert_eq|]. rewrite length_replicate. apply Z.ltb_ge in Ev. lia. }
  destruct (scan_key "samplerate=" l) as [|v r|]; [|apply wp_bind; eapply wp_upd_out; [exact Ho1|]; by apply (Hprms _ _ room)|done].
  destruct (scan_params l) as [[c|]|]; [| |done].
  - destruct room as [n|]; [|done]. apply andb_true_iff in Hc as [Hc1 Hc2]. destruct Hroom1 as (Hn & bs & Eb & En).
    apply wp_bind. unfold set_band. apply wp_bind. eapply wp_out; [exact Ho1|]. apply wp_bind, wp_use. exists (Bands bs).
    split; [done|]. unfold aset. replace ((0 <=? idx) && (idx <? Z.of_nat (length bs))) with true by (by rewrite En).
    apply wp_modify. eapply (next_line a lines own s o _ _ o _ b (Some n)); [done| |exact Ho|exact Ho1|exact Hb| |exact Hc2].
    + eapply eq_rel_trans; [exact Hr|]. apply eq_rel_res; [done|by eexists].
    + split; [done|]. eexists. split; [apply lookup_insert_eq|]. by rewrite length_insert.
  - by eapply (next_line a lines own s o own1 s1 o idx b room).
Qed.

End req.
End AudioReq.
