(* ===== verification/AudioRun.v ===== *)
(** * Output streams of the audio HAL: every operation keeps the invariant

    Starting a stream, writing, standby and routing return, and [inv] holds again;
    the locks are given back. *)

From stdpp Require Import base tactics option list list_numbers numbers gmap fin_maps.
From Stdlib Require Import ZArith Lia.
From Stdlib Require String.
From S2P Require Import Prelude CString AudioPlat AudioRoute AudioThm AudioOut AudioIn AudioDev AudioSafe AudioReq.

Import String.StringSyntax.
Import CString AudioPlat AudioRoute AudioThm AudioOut AudioIn AudioDev AudioSafe AudioReq.

Local Open Scope Z_scope.
Local Open Scope list_scope.
Local Open Scope c_scope.

Module AudioRun.
Section run.
Context {F : Type} {PL : PcmLib} {EF : Effects} {EN : AudioEnv F} {AN : AndroidAudio} {LAWS : AudioLaws}.

Local Abbreviation platform := (@AudioRoute.platform F).
Local Abbreviation hal := (@AudioOut.hal F).
Local Abbreviation HM := (M hal).

(** ** The equalizer *)

Lemma create_equalizer_ok own a o (s : hal) : invb own s -> outs s !! a = Some o ->
  wp (create_equalizer a) (fun _ s' => exists own', invb own' s' /\ keep s s' /\ plat s' = plat s /\
    exists o', outs s' !! a = Some o' /\ o_standby o' = o_standby o /\ o_pcm o' = o_pcm o) s.
Proof.
  intros Hi Ho. unfold create_equalizer.
  assert (exists own', invb own' s /\ keep s s /\ plat s = plat s /\
    exists o', outs s !! a = Some o' /\ o_standby o' = o_standby o /\ o_pcm o' = o_pcm o) as Hnone by (exists own; split_and!; [done|done|done|by exists o]).
  destruct eq_conf as [lines|] eqn:El; [|by apply wp_ret]. destruct eq_enabled; [|by apply wp_ret].
  apply wp_bind. unfold wp at 1, alloc. pose proof (eq_rel_alloc a own s Conf_file B_conf Hi) as R1.
  match type of R1 with eq_rel _ _ _ ?w ?x => set (own1 := w) in R1; set (s1 := x) in R1 end. fold s1.
  assert (own1 !! next_block s = Some B_conf) as Hb by apply lookup_insert_eq.
  apply wp_bind. eapply wp_upd_out; [exact Ho|].
  pose proof (eq_rel_prms a own1 s1 o zero_prms (er_inv _ _ _ _ _ R1) Ho ltac:(by left)) as R2.
  match type of R2 with eq_rel _ _ _ _ ?x => set (s2 := x) in R2 end.
  apply wp_bind. eapply wp_mono.
  { apply (eq_lines_ok a lines own1 s2 (set_o_prms zero_prms o) 0 NULL None); [apply R2|apply lookup_insert_eq|by left|done|by apply law_conf]. }
  intros ended s3 (own3 & R3). pose proof (eq_rel_trans _ _ _ _ _ _ _ R2 R3) as R23.
  pose proof (eq_rel_trans _ _ _ _ _ _ _ R1 R23) as R.
  assert (forall ow s', eq_rel a own s ow s' -> exists own', invb own' s' /\ keep s s' /\ plat s' = plat s /\
    exists o', outs s' !! a = Some o' /\ o_standby o' = o_standby o /\ o_pcm o' = o_pcm o) as Hend.
  { intros ow s' []. exists ow. split_and!; try done. destruct (er_out0 _ Ho) as (o' & ? & ? & ? & _). by exists o'. }
  destruct ended; [|apply wp_ret; by eapply Hend].
  apply wp_bind. eapply (wp_mono _ (fun e s4 => exists own4, eq_rel a own s own4 s4 /\ own4 !! next_block s = Some B_conf /\ ptr own4 (B_eq a) e)).
  { destruct eq_create_ok.
    - unfold wp, alloc. pose proof (eq_rel_alloc a own3 s3 Equalizer (B_eq a) (er_inv _ _ _ _ _ R3)) as R4. eexists. split_and!.
      + eapply eq_rel_trans; [exact R|exact R4].
      + apply (er_conf _ _ _ _ _ R4), (er_conf _ _ _ _ _ R23), Hb.
      + right. apply lookup_insert_eq.
    - apply wp_ret. exists own3. split; [done|]. split; [apply (er_conf _ _ _ _ _ R23), Hb|by left]. }
  intros e s4 (own4 & R4 & Hb4 & He). destruct (er_out _ _ _ _ _ R4 _ Ho) as (o4 & Ho4 & E1 & E2 & _).
  pose proof (er_inv _ _ _ _ _ R4) as Hi4. destruct (inv_out _ _ _ _ Hi4 Ho4) as (Hok & P1 & P2 & P3).
  apply wp_bind. eapply wp_upd_out; [exact Ho4|].
  assert (invb own4 (set_outs (<[a := set_o_equalizer e o4]> (outs s4)) s4)) as Hi5.
  { apply (inv_upd_out own4 s4 a o4 (set_o_equalizer e o4) (plat s4)); try done; [same_ok|]. apply plat_inv_same_out with o4; try done. apply Hi4. }
  apply wp_free; [by apply (bl_own _ _ _ _ _ (iv_blocks _ _ _ _ _ _ _ _ _ _ _ Hi4) _ B_conf)|].
  exists (delete (next_block s) own4). split_and!.
  - eapply (inv_free own4 _ (next_block s) B_conf Hi5); [done|..]; [intros ? ? _; by split_and!|by intros].
  - transitivity s4; [apply R4|]. by eapply keep_upd_out.
  - apply (er_plat _ _ _ _ _ R4).
  - exists (set_o_equalizer e o4). split; [apply lookup_insert_eq|done].
Qed.

(** ** Starting *)

(** The choice of devices, for streams of which none owns [h]. *)
Lemma inv_chosen own (s s' : hal) : invb own s -> chosen (po_of (outs s)) (pi_of (ins s)) s s' -> invb own s'.
Proof. intros [H1 H2 H3 H4 H5 H6 H7 H8 H9] (p & e & -> & Hs & Hp). by split. Qed.

Lemma chosen_keep po pi (s s' : hal) : chosen po pi s s' -> keep s s' /\ outs s' = outs s /\ ins s' = ins s.
Proof. by intros (p & e & -> & _). Qed.

Lemma select_keeps own (s : hal) od id : invb own s ->
  wp (select_devices od id) (fun _ s' => invb own s' /\ keep s s' /\ outs s' = outs s /\ ins s' = ins s) s.
Proof.
  intros Hi. eapply wp_mono; [apply select_devices_ok, Hi|]. intros u s' Hc. split; [exact (inv_chosen own s s' Hi Hc)|exact (chosen_keep _ _ _ _ Hc)].
Qed.

(** A stream that owns nothing still owns nothing. *)
Lemma select_unowned own a o (s : hal) od id b : invb own s -> outs s !! a = Some o -> unowned (plat s) (Some (b, o_pcm o)) ->
  wp (select_devices od id) (fun _ s' => invb own s' /\ keep s s' /\ outs s' = outs s /\ ins s' = ins s /\
    unowned (plat s') (Some (b, o_pcm o))) s.
Proof.
  intros Hi Ho Hn. pose (o1 := set_o_standby true o). set (po := po_of (<[a := o1]> (outs s))).
  assert (po a = Some (true, o_pcm o)) as Epo by (unfold po; by rewrite po_of_insert, decide_True).
  assert (forall x, x <> a -> po x = po_of (outs s) x) as Eother by (intros x Hx; unfold po; by rewrite po_of_insert, decide_False).
  assert (plat_inv po (pi_of (ins s)) (plat s)) as Hp.
  { destruct (iv_plat _ _ _ _ _ _ _ _ _ _ _ Hi) as [Hp [ow Hw]]. split; [done|]. exists ow.
    apply (pcms_ok_out _ (po_of (outs s)) _ _ _ a); [done|done|..].
    - rewrite (po_of_same _ _ _ Ho). intros ? ? [= <- <-]. by eapply Hn.
    - rewrite Epo. intros ? ? [= <- <-]. by eapply Hn. }
  eapply wp_mono; [apply (select_devices_ok po _ od id s Hp)|]. intros u s' Hc. pose proof (chosen_inv _ _ _ _ Hc) as [Hp' [ow Hw]].
  assert (unowned (plat s') (Some (b, o_pcm o))) as Hn'.
  { intros ? ? [= <- <-]. destruct (pc_outs _ _ _ _ Hw _ _ _ Epo) as [?|[?|[_ ?]]]; [by left|by right|done]. }
  destruct (chosen_keep _ _ _ _ Hc) as (? & E1 & E2). split; [|done].
  destruct Hc as (p & e & -> & Hs & _). apply (inv_chosen own s); [done|]. exists p, e. split; [done|]. split; [done|]. split; [done|].
  exists ow. apply (pcms_ok_out _ po _ _ _ a); [done|by intros; symmetry; apply Eother|..].
  - rewrite Epo. intros ? ? [= <- <-]. by eapply Hn'.
  - rewrite (po_of_same _ _ _ Ho). intros ? ? [= <- <-]. by eapply Hn'.
Qed.

Lemma wp_init_dump own (s : hal) flags p w (Q : Z -> hal -> Prop) : invb own s -> ptr own w p ->
  (forall own' q r nb, invb own' (set_next_block nb (set_resources r s)) -> ptr own' w q -> Q q (set_next_block nb (set_resources r s))) ->
  wp (init_dump_flags flags p) Q s.
Proof.
  intros Hi Hp HQ. assert (forall q, ptr own w q -> Q q s) as H0.
  { intros q Hq. specialize (HQ own q (resources s) (next_block s)). destruct s. by apply HQ. }
  unfold init_dump_flags. destruct (flags && (p =? NULL)); [|by apply wp_ret, H0]. destruct dump_opens; [|by apply wp_ret, H0; left].
  unfold wp, alloc. eapply HQ; [by apply (inv_alloc own s Dump_file w)|]. right. apply lookup_insert_eq.
Qed.

(** The configuration of a device is complete. *)
Lemma wp_card_config (s : hal) pdev c Q : platform_ok (plat s) -> is_Some (pdev2str pdev) -> complete c ->
  (forall c', complete c' -> Q c' s) -> wp (card_config_for pdev c) Q s.
Proof.
  intros Hp [name Hname] Hc HQ. destruct (find_profile_run hdr pdev name _ (pl_info _ Hp) (pl_named _ Hp) Hname) as (x & Ex & Hx).
  apply wp_bind. destruct x as [[n q]|].
  - eapply wp_on_plat; [by unfold get_platform_snd_card_config, bind; rewrite Ex|]. apply wp_ret. cbn. destruct s.
    apply HQ. by apply (pl_front _ Hp n).
  - eapply wp_on_plat; [by unfold get_platform_snd_card_config, bind; rewrite Ex|]. apply wp_ret. cbn. destruct s. by apply HQ.
Qed.

Lemma inv_active own (s : hal) a : invb own s -> is_Some (outs s !! a) -> invb own (set_active_output a s).
Proof. intros [H1 H2 H3 H4 H5 H6 H7 H8 H9] Ha. split; try done. by right. Qed.

(** Members that neither the platform nor the blocks know of. *)
Lemma inv_member own a o o' (s : hal) : invb own s -> outs s !! a = Some o -> out_ok o' -> o_standby o' = o_standby o ->
  o_pcm o' = o_pcm o -> o_equalizer o' = o_equalizer o -> core_prms (o_prms o') = core_prms (o_prms o) -> ptr own (B_file a) (o_file o') ->
  invb own (set_outs (<[a := o']> (outs s)) s).
Proof.
  intros Hi Ho Hok E1 E2 E3 E4 Hf. destruct (inv_out _ _ _ _ Hi Ho) as (_ & P1 & P2 & _).
  apply (inv_upd_out own s a o o' (plat s)); [done|done|done| |by rewrite E3|by rewrite E4|done].
  apply plat_inv_same_out with o; try done. apply Hi.
Qed.

Lemma start_output_stream_ok a o (s : hal) : inv s -> outs s !! a = Some o -> o_standby o = false -> unowned (plat s) (Some (false, o_pcm o)) ->
  wp (start_output_stream a) (fun _ s' => inv s' /\ keep s s') s.
Proof.
  intros [own Hi] Ho Hsb Hn. destruct (inv_out _ _ _ _ Hi Ho) as (Hok & P1 & P2 & P3).
  apply wp_bind. eapply wp_out; [exact Ho|]. apply wp_bind. eapply wp_init_dump; [exact Hi|exact P3|].
  intros own1 q r nb Hi1 Hq. set (s1 := set_next_block nb (set_resources r s)) in *.
  apply wp_bind. eapply wp_upd_out; [exact Ho|].
  apply (inv_member own1 a o (set_o_file q o)) in Hi1 as Hi2; try done; [|same_ok].
  set (s2 := set_outs _ s1) in *. assert (outs s2 !! a = Some (set_o_file q o)) as Ho2 by apply lookup_insert_eq.
  assert (keep s s2) as K2 by (by eapply keep_upd_out).
  apply wp_bind, wp_modify. apply (inv_active _ _ a) in Hi2; [|by eexists]. set (s3 := set_active_output a s2) in *.
  apply wp_bind. eapply wp_mono; [exact (select_unowned own1 a (set_o_file q o) s3 true false false Hi2 Ho2 Hn)|].
  intros u s4 (Hi4 & K4 & Eo4 & Ei4 & Hn4). change (o_pcm (set_o_file q o)) with (o_pcm o) in Hn4.
  assert (outs s4 !! a = Some (set_o_file q o)) as Ho4 by (by rewrite Eo4).
  assert (keep s s4) as K04 by (transitivity s2; [done|]; transitivity s3; [by split|done]).
  apply wp_bind, wp_get. apply wp_bind. destruct (iv_plat _ _ _ _ _ _ _ _ _ _ _ Hi4) as [Hp4 _].
  apply wp_card_config; [done|apply (pl_path _ Hp4)|apply Hok|]. intros c Hc.
  apply wp_bind. eapply wp_upd_out; [exact Ho4|].
  apply (inv_member own1 a (set_o_file q o) (set_o_config c (set_o_file q o))) in Hi4 as Hi5; try done; [|by destruct Hok; split].
  set (s5 := set_outs _ s4) in *. assert (keep s s5) as K5 by (transitivity s4; [done|by eapply keep_upd_out]).
  apply wp_bind. rewrite (iv_echo _ _ _ _ _ _ _ _ _ _ _ Hi4). apply wp_ret. apply wp_bind, wp_event. intros ev.
  apply wp_bind. eapply wp_mono; [by apply (create_equalizer_ok own1 a (set_o_config c (set_o_file q o))); [|apply lookup_insert_eq]|].
  intros u' s6 (own6 & Hi6 & K6 & Ep & o6 & Ho6 & E1 & E2). eapply wp_mono; [eapply (open_out_ok own6 a o6 s6)|].
  - done.
  - done.
  - by rewrite E1.
  - rewrite Ep, E2. exact Hn4.
  - intros z s7 [Hi7 K7]. split; [by exists own6|]. etrans; [exact K5|]. etrans; [|exact K7]. etrans; [|exact K6]. by split.
Qed.

(** ** Standby *)

Lemma filter_notin (l : lock_name) (ls : list lock_name) : l ∉ ls -> filter (fun x => x <> l) ls = ls.
Proof.
  induction ls as [|x ls IH]; [done|]. intros [Hx Hls]%not_elem_of_cons. rewrite filter_cons_True by congruence. by rewrite IH.
Qed.

(** The lock that was taken last is given back. *)
Lemma wp_unlock_top l ls Q (s : hal) : held s = l :: ls -> l ∉ ls ->
  Q tt (set_held ls (set_trace (trace s ++ [Unlock l]) s)) -> wp (unlock l) Q s.
Proof.
  intros Hh Hl HQ. apply wp_unlock; [rewrite Hh; by left|]. rewrite Hh.
  rewrite filter_cons_False by (intros H; by apply H). rewrite filter_notin; done.
Qed.

Lemma wp_lock_out a o Q (s : hal) : outs s !! a = Some o -> L_out a ∉ held s ->
  Q tt (set_held (L_out a :: held s) (set_trace (trace s ++ [Lock (L_out a)]) s)) -> wp (lock_out a) Q s.
Proof. intros Ho Hl HQ. apply wp_bind. eapply wp_out; [exact Ho|]. by apply wp_lock. Qed.

Lemma wp_lock_in a i Q (s : hal) : ins s !! a = Some i -> L_in a ∉ held s ->
  Q tt (set_held (L_in a :: held s) (set_trace (trace s ++ [Lock (L_in a)]) s)) -> wp (lock_in a) Q s.
Proof. intros Ho Hl HQ. apply wp_bind. eapply wp_inp; [exact Ho|]. by apply wp_lock. Qed.

Lemma not_held_nil (l : lock_name) : l ∉ @nil lock_name.
Proof. apply not_elem_of_nil. Qed.
Lemma not_held_one (l l' : lock_name) : l <> l' -> l ∉ [l'].
Proof. by intros H ->%list_elem_of_singleton. Qed.

(** What an operation does to the locks and the streams when it returns. *)
Lemma keep_held (s s1 s2 s3 : hal) : keep s1 s2 -> outs s1 = outs s -> ins s1 = ins s -> outs s3 = outs s2 -> ins s3 = ins s2 ->
  held s3 = held s -> keep s s3.
Proof. intros [_ H2 H3] E1 E2 E3 E4 E5. split; [done|..]; intros a; [by rewrite E3, H2, E1|by rewrite E4, H3, E2]. Qed.

Lemma keep_stays (s s' : hal) a o : keep s s' -> outs s !! a = Some o -> exists o', outs s' !! a = Some o'.
Proof. intros K Ho. apply (kp_outs _ _ K a). by eexists. Qed.
Lemma keep_stays_in (s s' : hal) a i : keep s s' -> ins s !! a = Some i -> exists i', ins s' !! a = Some i'.
Proof. intros K Ho. apply (kp_ins _ _ K a). by eexists. Qed.

Lemma out_standby_ok a o (s : hal) : inv s -> outs s !! a = Some o -> held s = [] ->
  wp (out_standby a) (fun _ s' => inv s' /\ keep s s') s.
Proof.
  intros Hi Ho Hh. apply wp_bind. eapply wp_lock_out; [exact Ho|rewrite Hh; apply not_held_nil|]. rewrite Hh.
  apply wp_bind, wp_lock; [by apply not_held_one|]. cbn [held set_held].
  apply wp_bind. eapply wp_mono; [apply (do_out_standby_ok a o); [exact Hi|exact Ho]|]. intros z s' (Hi' & K & _).
  apply wp_bind. eapply wp_unlock_top; [exact (kp_held _ _ K)|by apply not_held_one|].
  apply wp_bind. eapply wp_unlock_top; [reflexivity|apply not_held_nil|]. apply wp_bind, wp_event. intros ev. apply wp_ret.
  split; [exact Hi'|]. by eapply keep_held.
Qed.

(** ** Writing *)

Lemma wp_use_ptr own (s : hal) w p Q : invb own s -> own !! p = Some w -> (forall r, Q r s) -> wp (use p) Q s.
Proof.
  intros Hi Hp HQ. destruct (bl_own _ _ _ _ _ (iv_blocks _ _ _ _ _ _ _ _ _ _ _ Hi) _ _ Hp) as [r E]. apply wp_use. by exists r.
Qed.

Lemma wp_dump own (s : hal) w p Q : invb own s -> ptr own w p -> Q tt s -> wp (debug_dump_data p) Q s.
Proof.
  intros Hi Hp HQ. unfold debug_dump_data. destruct (Z.eqb_spec p NULL) as [->|Hne]; [by apply wp_ret|]. cbn [negb].
  destruct Hp as [?|Hp]; [done|]. apply wp_bind. eapply wp_use_ptr; [exact Hi|exact Hp|]. intros r. by apply wp_ret.
Qed.

Lemma out_usable own a o (s : hal) : invb own s -> outs s !! a = Some o -> o_pcm o <> NULL -> usable (o_pcm o) s = true.
Proof.
  intros Hi Ho Hne. destruct (iv_plat _ _ _ _ _ _ _ _ _ _ _ Hi) as [_ [ow Hok]].
  destruct (owned_usable ow _ _ s (o_pcm o) (Own_out a) Hok) as [Hu _]; [|done|done].
  destruct (pc_outs _ _ _ _ Hok _ _ _ (po_of_same _ _ _ Ho)) as [?|[?|[? ?]]]; auto.
Qed.

Lemma wp_with_out {A} own a o (s : hal) (f : nat -> A) Q : invb own s -> outs s !! a = Some o -> o_pcm o <> NULL ->
  Q (f (clock s)) (set_clock (S (clock s)) s) -> wp (with_stream (o_pcm o) f) Q s.
Proof. intros Hi Ho Hne HQ. unfold wp, with_stream. by rewrite (out_usable own a o s Hi Ho Hne). Qed.

Lemma wp_with_in {A} own a i (s : hal) (f : nat -> A) Q : invb own s -> ins s !! a = Some i -> i_pcm i <> NULL ->
  (Q (f (clock s)) (set_clock (S (clock s)) s)) -> wp (with_stream (i_pcm i) f) Q s.
Proof.
  intros Hi Ho Hne HQ. destruct (iv_plat _ _ _ _ _ _ _ _ _ _ _ Hi) as [_ [ow Hok]].
  destruct (owned_usable ow _ _ s (i_pcm i) (Own_in a) Hok) as [Hu _]; [|done|].
  { destruct (pc_ins _ _ _ _ Hok _ _ _ (pi_of_same _ _ _ Ho)) as [?|[?|[? ?]]]; auto. }
  unfold wp, with_stream. by rewrite Hu.
Qed.

(** Mixing has room for every pair. *)
Lemma mix_some frames : forall l, (2 * frames <= length l)%nat -> exists r, mix_s16_stereo_linear frames l = Some r /\ length r = length l.
Proof.
  induction frames as [|n IH]; intros l Hl; [by exists l|]. destruct l as [|x [|y l]]; cbn in Hl; [lia|lia|].
  destruct (IH l) as (r & E & Hr); [lia|]. cbn. rewrite E. eexists. split; [reflexivity|]. cbn. by rewrite Hr.
Qed.

Lemma wp_divide x y Q (s : hal) : y <> 0 -> Q (x / y) s -> wp (divide x y) Q s.
Proof. intros Hy HQ. unfold divide. destruct (Z.eqb_spec y 0); [done|by apply wp_ret]. Qed.

(** A stream in standby owns no handle. *)
Lemma standby_unowned own a o (s : hal) b : invb own s -> outs s !! a = Some o -> o_standby o = true -> unowned (plat s) (Some (b, o_pcm o)).
Proof.
  intros Hi Ho Hs. destruct (iv_plat _ _ _ _ _ _ _ _ _ _ _ Hi) as [_ [ow Hok]]. intros ? ? [= <- <-].
  destruct (pc_outs _ _ _ _ Hok _ _ _ (po_of_same _ _ _ Ho)) as [?|[?|[_ ?]]]; [by left|by right|congruence].
Qed.

(** A stream in standby is started under the lock of the device. *)
Lemma leave_standby_ok a o (s : hal) : inv s -> outs s !! a = Some o -> o_standby o = true -> held s = [L_out a] ->
  wp (upd_out a (set_o_standby false) ;;; lock L_adev ;;; r <- start_output_stream a ;; unlock L_adev ;;; ret r)
    (fun _ s' => inv s' /\ keep s s') s.
Proof.
  intros [own Hi] Ho Hs Hh. pose proof (standby_unowned own a o s false Hi Ho Hs) as Hn.
  apply wp_bind. eapply wp_upd_out; [exact Ho|]. pose proof (inv_set_standby own a o s false Hi Ho Hn) as Hi1.
  set (s1 := set_outs _ s) in *. apply wp_bind, wp_lock; [cbn [held s1 set_outs]; rewrite Hh; by apply not_held_one|].
  apply wp_bind. eapply wp_mono; [apply (start_output_stream_ok a (set_o_standby false o))|].
  - by exists own.
  - apply lookup_insert_eq.
  - done.
  - exact Hn.
  - intros r s2 [Hi2 K2]. apply wp_bind. eapply wp_unlock_top; [exact (kp_held _ _ K2)|unfold s1; cbn; rewrite Hh; by apply not_held_one|].
    apply wp_ret. split; [exact Hi2|]. transitivity s1; [by eapply keep_upd_out|]. by eapply keep_held.
Qed.

(** What is handed to the sound library has room for mixing. *)
Lemma play_ok own a o (s : hal) r buf (spk : bool) frames fs : invb own s -> outs s !! a = Some o -> 4 <= fs ->
  frames = 2 * Z.of_nat (length buf) / fs ->
  wp (if negb (o_pcm o =? NULL) then
        let buf := if o_muted o then replicate (length buf) 0 else buf in
        match (if spk then mix_s16_stereo_linear (Z.to_nat frames) buf else Some buf) with
        | None => stuck
        | Some buf => r <- pcm_write (o_pcm o) (take (Z.to_nat (frames * fs / 2)) buf) ;; ret (r, buf)
        end
      else ret (r, buf)) (fun _ s' => exists ps ck, s' = set_clock ck (set_played ps s)) s.
Proof.
  intros Hi Ho Hfs Hf. destruct (Z.eqb_spec (o_pcm o) NULL) as [->|Hne]; cbn [negb].
  { apply wp_ret. exists (played s), (clock s). by destruct s. }
  cbv zeta. set (b := if o_muted o then _ else buf). assert (length b = length buf) as Hb by (unfold b; destruct (o_muted o); [apply length_replicate|done]).
  assert (exists b', (if spk then mix_s16_stereo_linear (Z.to_nat frames) b else Some b) = Some b') as [b' ->].
  { destruct spk; [|by eexists]. destruct (mix_some (Z.to_nat frames) b) as (b' & E & _); [|by exists b'].
    rewrite Hb. enough (2 * frames <= Z.of_nat (length buf)) by lia. subst frames. pose proof (Z.mul_div_le (2 * Z.of_nat (length buf)) fs ltac:(lia)).
    pose proof (Z.div_pos (2 * Z.of_nat (length buf)) fs ltac:(lia) ltac:(lia)). nia. }
  apply wp_bind. apply wp_bind, wp_modify. eapply (wp_with_out own a o); [exact Hi|exact Ho|done|]. apply wp_ret. by eexists _, _.
Qed.

Lemma out_write_ok a o buffer (s : hal) : inv s -> outs s !! a = Some o -> held s = [] ->
  wp (out_write a buffer) (fun _ s' => inv s' /\ keep s s') s.
Proof.
  intros Hi Ho Hh. pose proof Hi as [own Hi0]. destruct (inv_out _ _ _ _ Hi0 Ho) as ([_ Hfs _ _] & _).
  apply wp_bind. eapply wp_out; [exact Ho|]. cbv zeta. apply wp_bind, wp_divide; [lia|].
  apply wp_bind. eapply wp_lock_out; [exact Ho|rewrite Hh; apply not_held_nil|]. rewrite Hh. set (sl := set_held _ _).
  apply wp_bind. eapply wp_out; [exact Ho|]. apply wp_bind. eapply (wp_mono _ (fun _ s2 => inv s2 /\ keep sl s2)).
  { destruct (o_standby o) eqn:Es; [|by apply wp_ret]. by apply (leave_standby_ok a o). }
  intros r s2 ([own2 Hi2] & K2). apply wp_bind, wp_event. intros ev. destruct (keep_stays _ _ _ _ K2 Ho) as [o2 Ho2].
  destruct (inv_out _ _ _ _ Hi2 Ho2) as (Hok2 & P1 & P2 & P3).
  apply wp_bind. eapply wp_out; [exact Ho2|]. apply wp_bind. eapply (wp_dump own2); [exact Hi2|exact P3|].
  apply wp_bind. set (s3 := set_events ev s2). eapply (wp_mono _ (fun b s4 => s4 = s3 /\ length b = length buffer)).
  { destruct (Z.eqb_spec (o_equalizer o2) NULL) as [E|Hne]; [by apply wp_ret|]. destruct P1 as [?|P1]; [done|].
    apply wp_bind. eapply wp_use_ptr; [exact Hi2|exact P1|]. intros ?. apply wp_ret. by rewrite law_eq. }
  intros b ? [-> Hb]. apply wp_bind. rewrite (oo_echo _ Hok2). apply wp_ret. apply wp_bind, wp_get.
  apply wp_bind. eapply wp_mono; [apply (play_ok own2 a o2 s3 r b _ _ _ Hi2 Ho2 Hfs); by rewrite Hb|].
  intros [r' buf] s4 (ps & ck & ->). apply wp_bind. eapply (wp_mono _ (fun _ s5 => inv s5 /\ keep s3 s5)).
  { destruct (r' =? 0); [|apply wp_ret; split; [by exists own2|by split]].
    destruct (oo_config _ Hok2) as (ch & rt & sz & ct & -> & _ & _ & _ & Hch & _).
    apply wp_bind, wp_divide; [unfold u64, u32 in *; rewrite Z.mod_small; [lia|]; pose proof (Z.mod_pos_bound ch (2 ^ 32) ltac:(lia)); lia|].
    eapply wp_upd_out; [exact Ho2|]. split; [|by eapply keep_upd_out]. exists own2.
    eapply (inv_member own2 a o2); [exact Hi2|exact Ho2|same_ok|done..]. }
  intros _ s5 [Hi5 K5]. apply wp_bind. eapply wp_unlock_top; [rewrite (kp_held _ _ K5); exact (kp_held _ _ K2)|apply not_held_nil|].
  assert (keep s3 s5 -> keep s (set_held [] (set_trace (trace s5 ++ [Unlock (L_out a)]) s5))) as K.
  { intros _. eapply (keep_held s sl s5); [|done..|done]. etrans; [exact K2|]. etrans; [|exact K5]. by split. }
  specialize (K K5). apply wp_bind. destruct (r' =? 0); cbn [negb]; [by apply wp_ret, wp_ret|].
  destruct (keep_stays _ _ _ _ K Ho) as [o5 Ho5]. apply wp_bind. eapply wp_mono; [by apply (out_standby_ok a o5); [exact Hi5|..]|].
  intros _ s6 [Hi6 K6]. apply wp_bind, wp_divide; [lia|]. apply wp_ret, wp_ret. split; [done|]. by etrans.
Qed.

(** ** Position and routing *)

Lemma out_position_ok a o (s : hal) : inv s -> outs s !! a = Some o -> held s = [] ->
  wp (out_get_presentation_position a) (fun _ s' => inv s' /\ keep s s') s.
Proof.
  intros Hi Ho Hh. pose proof Hi as [own Hi0]. destruct (inv_out _ _ _ _ Hi0 Ho) as (Hok & _).
  apply wp_bind. eapply wp_lock_out; [exact Ho|rewrite Hh; apply not_held_nil|]. rewrite Hh. set (sl := set_held _ _).
  apply wp_bind. eapply wp_out; [exact Ho|]. apply wp_bind. eapply (wp_mono _ (fun _ s2 => exists ck, s2 = set_clock ck sl)).
  { destruct (Z.eqb_spec (o_pcm o) NULL) as [E|Hne]; cbn [negb]; [apply wp_ret; by exists (clock sl)|].
    apply wp_bind. eapply (wp_with_out own a o); [exact Hi0|exact Ho|done|]. destruct (htimestamp _ _) as [[avail time]|]; [|apply wp_ret; by eexists].
    destruct (oo_config _ Hok) as (ch & rt & sz & ct & _ & _ & -> & -> & _). apply wp_ret. by eexists. }
  intros r s2 (ck & ->). apply wp_bind. eapply wp_unlock_top; [reflexivity|apply not_held_nil|]. apply wp_ret.
  split; [exact Hi|]. by split.
Qed.

(** The device that is asked for is chosen; a stream to a digital output is stopped before. *)
Lemma route_ok a o val id (s : hal) : inv s -> outs s !! a = Some o ->
  wp (if negb (out_devices s =? val) && negb (val =? 0) then
        let dev_mask := Z.lor (const "AUDIO_DEVICE_OUT_AUX_DIGITAL") (const "AUDIO_DEVICE_OUT_ALL_SCO") in
        (if any (out_devices s) dev_mask || any val dev_mask then do_out_standby a ;;; ret tt else ret tt) ;;;
        modify (set_out_devices val) ;;;
        select_devices true id
      else ret tt) (fun _ s' => inv s' /\ keep s s') s.
Proof.
  intros Hi Ho. destruct (_ && _); [|by apply wp_ret]. cbv zeta. apply wp_bind. eapply (wp_mono _ (fun _ s1 => inv s1 /\ keep s s1)).
  { destruct (_ || _); [|by apply wp_ret]. apply wp_bind. eapply wp_mono; [by apply (do_out_standby_ok a o)|].
    intros z s1 (Hi1 & K1 & _). by apply wp_ret. }
  intros _ s1 [[own Hi1] K1]. apply wp_bind, wp_modify. eapply wp_mono; [exact (select_keeps own (set_out_devices val s1) true id Hi1)|].
  intros _ s2 (Hi2 & K2 & _). split; [by exists own|]. etrans; [exact K1|]. etrans; [|exact K2]. by split.
Qed.

(** Under the lock of the device and of a stream. *)
Lemma locked_route_ok a o val id (s : hal) : inv s -> outs s !! a = Some o -> held s = [] ->
  wp (lock L_adev ;;; lock_out a ;;;
      s <- get ;;
      (if negb (out_devices s =? val) && negb (val =? 0) then
         let dev_mask := Z.lor (const "AUDIO_DEVICE_OUT_AUX_DIGITAL") (const "AUDIO_DEVICE_OUT_ALL_SCO") in
         (if any (out_devices s) dev_mask || any val dev_mask then do_out_standby a ;;; ret tt else ret tt) ;;;
         modify (set_out_devices val) ;;;
         select_devices true id
       else ret tt) ;;;
      unlock (L_out a) ;;; unlock L_adev ;;; ret 0) (fun _ s' => inv s' /\ keep s s') s.
Proof.
  intros Hi Ho Hh. apply wp_bind, wp_lock; [rewrite Hh; apply not_held_nil|]. apply wp_bind.
  eapply wp_lock_out; [exact Ho|cbn; rewrite Hh; by apply not_held_one|]. cbn [held set_held set_trace]. rewrite Hh.
  apply wp_bind, wp_get. apply wp_bind. eapply wp_mono; [apply (route_ok a o val id); [exact Hi|exact Ho]|]. intros _ s1 [Hi1 K1].
  apply wp_bind. eapply wp_unlock_top; [exact (kp_held _ _ K1)|by apply not_held_one|].
  apply wp_bind. eapply wp_unlock_top; [reflexivity|apply not_held_nil|]. apply wp_ret. split; [exact Hi1|]. by eapply keep_held.
Qed.

(** The text of the device is a number. *)
Definition number (routing : option (list Z)) : bool :=
  match routing with Some value => bool_decide (is_Some (atoi value)) | None => true end.

Lemma out_set_parameters_ok a o routing (s : hal) : inv s -> outs s !! a = Some o -> held s = [] -> number routing = true ->
  wp (out_set_parameters a routing) (fun _ s' => inv s' /\ keep s s') s.
Proof.
  intros Hi Ho Hh Hn. apply wp_bind. eapply wp_out; [exact Ho|]. destruct routing as [value|]; [|by apply wp_ret].
  apply bool_decide_eq_true in Hn as [val E]. rewrite E. by apply (locked_route_ok a o).
Qed.

Lemma adev_set_parameters_ok routing (s : hal) : inv s -> held s = [] -> number routing = true ->
  (routing = None \/ active_output s <> NULL) -> wp (adev_set_parameters routing) (fun _ s' => inv s' /\ keep s s') s.
Proof.
  intros Hi Hh Hn Ha. apply wp_bind, wp_get. cbv zeta. destruct routing as [value|]; [|by apply wp_ret]. destruct Ha as [?|Ha]; [done|].
  destruct Hi as [own Hi]. destruct (iv_ao _ _ _ _ _ _ _ _ _ _ _ Hi) as [?|[o Ho]]; [done|].
  apply bool_decide_eq_true in Hn as [val E]. rewrite E. apply (locked_route_ok (active_output s) o); [by exists own|done|done].
Qed.

End run.
End AudioRun.
