(* ===== verification/AudioRead.v ===== *)
(** * Input streams of the audio HAL: every operation keeps the invariant

    For streams without effects. *)

From stdpp Require Import base tactics option list list_numbers numbers gmap fin_maps.
From Stdlib Require Import ZArith Lia.
From Stdlib Require String.
From S2P Require Import Prelude CString AudioPlat AudioRoute AudioThm AudioOut AudioIn AudioDev AudioSafe AudioReq AudioRun.

Import String.StringSyntax.
Import CString AudioPlat AudioRoute AudioThm AudioOut AudioIn AudioDev AudioSafe AudioReq AudioRun.

Local Open Scope Z_scope.
Local Open Scope list_scope.
Local Open Scope c_scope.

Module AudioRead.
Section read.
Context {F : Type} {PL : PcmLib} {EF : Effects} {EN : AudioEnv F} {AN : AndroidAudio} {LAWS : AudioLaws}.

Local Abbreviation platform := (@AudioRoute.platform F).
Local Abbreviation hal := (@AudioOut.hal F).
Local Abbreviation HM := (M hal).

(** ** Facts of a stream in the invariant *)

Lemma inv_in own a i (s : hal) : invb own s -> ins s !! a = Some i -> in_ok i /\ ptr own (B_in a) (i_file i).
Proof.
  intros Hi Ho. destruct (bl_ins _ _ _ _ _ (iv_blocks _ _ _ _ _ _ _ _ _ _ _ Hi) _ _ Ho) as (_ & ?).
  split; [by apply (iv_ins _ _ _ _ _ _ _ _ _ _ _ Hi _ _ Ho)|done].
Qed.

Lemma keep_upd_in (s s' : hal) a i i' : held s' = held s -> ins s !! a = Some i -> ins s' = <[a := i']> (ins s) -> outs s' = outs s -> keep s s'.
Proof. intros H1 H2 H3 H4. split; [done|..]; intros b; [by rewrite H4|rewrite H3; by apply insert_dom with i]. Qed.

Lemma standby_unowned_in own a i (s : hal) b : invb own s -> ins s !! a = Some i -> i_standby i = true -> unowned (plat s) (Some (b, i_pcm i)).
Proof.
  intros Hi Ho Hs. destruct (iv_plat _ _ _ _ _ _ _ _ _ _ _ Hi) as [_ [ow Hok]]. intros ? ? [= <- <-].
  destruct (pc_ins _ _ _ _ Hok _ _ _ (pi_of_same _ _ _ Ho)) as [?|[?|[_ ?]]]; [by left|by right|congruence].
Qed.

Lemma inv_set_standby_in own a i (s : hal) b : invb own s -> ins s !! a = Some i -> unowned (plat s) (Some (b, i_pcm i)) ->
  invb own (set_ins (<[a := set_i_standby b i]> (ins s)) s).
Proof.
  intros Hi Ho Hn. destruct (inv_in _ _ _ _ Hi Ho) as (Hok & P1).
  apply (inv_upd_in own s a i (set_i_standby b i) (plat s)); try done; [same_ok|].
  destruct (iv_plat _ _ _ _ _ _ _ _ _ _ _ Hi) as [Hp [ow Hw]]. split; [done|]. exists ow.
  apply (pcms_ok_in _ _ (pi_of (ins s)) _ _ a); [done|..].
  - intros x Hx. rewrite pi_of_insert. by rewrite decide_False.
  - rewrite (pi_of_same _ _ _ Ho). intros ? ? [= <- <-]. by eapply Hn.
  - rewrite pi_of_insert, decide_True by done. exact Hn.
Qed.

(** Members that the platform does not know of. *)
Lemma inv_member_in own a i i' (s : hal) : invb own s -> ins s !! a = Some i -> in_ok i' -> i_standby i' = i_standby i ->
  i_pcm i' = i_pcm i -> ptr own (B_in a) (i_file i') -> invb own (set_ins (<[a := i']> (ins s)) s).
Proof.
  intros Hi Ho Hok E1 E2 Hf. apply (inv_upd_in own s a i i' (plat s)); [done|done|done| |done].
  apply plat_inv_same_in with i; try done. apply Hi.
Qed.

(** ** Standby *)

(** The handle is closed after the stream is marked. *)
Lemma standby_pcm_ok own a i (s : hal) (s1 := set_ins (<[a := set_i_standby true i]> (ins s)) s) : invb own s -> ins s !! a = Some i ->
  wp (release (i_pcm i) close_stream (upd_in a (set_i_pcm NULL))) (fun _ s' => invb own s' /\ held s' = held s /\ outs s' = outs s /\
    ins s' = <[a := set_i_pcm NULL (set_i_standby true i)]> (ins s)) s1.
Proof.
  intros Hi Ho. pose proof (release_in_pcm own a i s Hi Ho) as H. apply wp_release.
  - intros E. split; [|split; [done|]; split; [done|]].
    + apply inv_set_standby_in; [done|done|]. intros ? ? [= <- <-]. by left.
    + unfold s1. cbn. do 2 f_equal. destruct i; cbn in *; by subst.
  - intros Hne. unfold release in H. rewrite (proj2 (Z.eqb_neq _ _) Hne) in H. cbn [negb] in H.
    apply wp_bind. unfold wp, bind, close_stream in *. change (usable (i_pcm i) s1) with (usable (i_pcm i) s).
    destruct (usable (i_pcm i) s); [|done]. unfold upd_in in *. cbn [ins set_plat s1 set_ins] in *. rewrite Ho in H.
    destruct H as (p & E & Hi'). unfold s1. cbn [ins set_plat set_ins]. rewrite lookup_insert_eq, insert_insert, decide_True by done.
    split; [|done].
    apply (inv_set_standby_in own a (set_i_pcm NULL i) _ true) in Hi'; [|apply lookup_insert_eq|intros ? ? [= <- <-]; by left].
    cbn [ins set_plat set_ins] in Hi'. rewrite insert_insert, decide_True in Hi' by done. exact Hi'.
Qed.

Lemma release_in_file own a i (s : hal) : invb own s -> ins s !! a = Some i ->
  wp (release (i_file i) free (upd_in a (set_i_file NULL))) (fun _ s' => inv s' /\ keep s s' /\
    exists i', ins s' !! a = Some i' /\ i_standby i' = i_standby i) s.
Proof.
  intros Hi Ho. destruct (inv_in _ _ _ _ Hi Ho) as (Hok & Hp). apply wp_release; [intros _; split; [by exists own|]; split; [done|by exists i]|].
  intros Hne. destruct Hp as [?|Hp]; [done|]. apply wp_bind, wp_free; [by apply (bl_own _ _ _ _ _ (iv_blocks _ _ _ _ _ _ _ _ _ _ _ Hi) _ (B_in a))|].
  eapply wp_upd_in; [exact Ho|]. split; [|split; [by eapply keep_upd_in|eexists; split; [apply lookup_insert_eq|done]]]. exists (delete (i_file i) own).
  apply (inv_free own (set_ins (<[a := set_i_file NULL i]> (ins s)) s) (i_file i) (B_in a)); [|done|by intros|].
  - apply (inv_member_in own a i); [done|done|same_ok|done|done|by left].
  - cbn. intros b x. rewrite lookup_insert_Some. intros [[<- <-]|[? _]] E; [done|congruence].
Qed.

Lemma do_in_standby_ok a i (s : hal) : inv s -> ins s !! a = Some i ->
  wp (do_in_standby a) (fun _ s' => inv s' /\ keep s s' /\ exists i', ins s' !! a = Some i' /\ i_standby i' = true) s.
Proof.
  intros [own Hi] Ho. apply wp_bind. eapply wp_inp; [exact Ho|].
  destruct (i_standby i) eqn:Es; cbn [negb]; [apply wp_ret; split; [by exists own|]; split; [done|]; by exists i|].
  apply wp_bind. eapply wp_upd_in; [exact Ho|]. apply wp_bind. eapply wp_mono; [exact (standby_pcm_ok own a i s Hi Ho)|].
  intros _ s2 (Hi2 & Eh & Eo & Ei). assert (ins s2 !! a = Some (set_i_pcm NULL (set_i_standby true i))) as Ho2 by (rewrite Ei; apply lookup_insert_eq).
  destruct (inv_in _ _ _ _ Hi2 Ho2) as (Hok2 & _). apply wp_bind, wp_release; [|intros Hne; destruct Hne; apply (io_echo _ Hok2)].
  intros _. apply wp_bind. eapply wp_mono; [exact (release_in_file own a _ s2 Hi2 Ho2)|].
  intros _ s3 (Hi3 & K3 & i3 & Hi3' & E3). apply wp_ret. split; [done|]. split; [|by exists i3].
  etrans; [|exact K3]. split; [done|by intros; rewrite Eo|]. intros b. rewrite Ei. by apply insert_dom with i.
Qed.

Lemma in_standby_ok a i (s : hal) : inv s -> ins s !! a = Some i -> held s = [] ->
  wp (in_standby a) (fun _ s' => inv s' /\ keep s s') s.
Proof.
  intros Hi Ho Hh. apply wp_bind. eapply wp_lock_in; [exact Ho|rewrite Hh; apply not_held_nil|]. rewrite Hh.
  apply wp_bind, wp_lock; [by apply not_held_one|]. cbn [held set_held].
  apply wp_bind. eapply wp_mono; [apply (do_in_standby_ok a i); [exact Hi|exact Ho]|]. intros z s' (Hi' & K & _).
  apply wp_bind. eapply wp_unlock_top; [exact (kp_held _ _ K)|by apply not_held_one|].
  apply wp_bind. eapply wp_unlock_top; [reflexivity|apply not_held_nil|]. apply wp_bind, wp_event. intros ev. apply wp_ret.
  split; [exact Hi'|]. by eapply keep_held.
Qed.

(** ** Starting *)

Lemma inv_active_in own (s : hal) a : invb own s -> a = NULL \/ is_Some (ins s !! a) -> invb own (set_active_input a s).
Proof. intros [H1 H2 H3 H4 H5 H6 H7 H8 H9] Ha. by split. Qed.

(** The stream leaves standby when the status is 0. *)
Definition started (own : gmap Z holder) (a r : Z) (s : hal) : Prop :=
  exists i, ins s !! a = Some i /\ i_standby i = true /\
    if r =? 0 then invb own (set_ins (<[a := set_i_standby false i]> (ins s)) s) else invb own s.

Lemma open_in_ok own a i (s : hal) c : invb own s -> ins s !! a = Some i -> i_standby i = true ->
  wp (h <- open_stream PCM_IN c ;; upd_in a (set_i_pcm h) ;;;
    if negb (ready h) then close_stream h ;;; modify (set_active_input NULL) ;;; ret (-12)
    else event_process platform_plugins_process_start_stream ON_START_INPUT_STREAM ;;; ret 0)
    (fun r s' => started own a r s' /\ keep s s') s.
Proof.
  intros Hi Ho Hsb. destruct (inv_in _ _ _ _ Hi Ho) as (Hok & P1). pose proof (standby_unowned_in own a i s true Hi Ho Hsb) as Hn.
  destruct (iv_plat _ _ _ _ _ _ _ _ _ _ _ Hi) as [Hp [ow Hw]]. set (n := next_pcm (plat s)).
  apply wp_bind. eapply wp_on_plat; [reflexivity|]. fold n. apply wp_bind. eapply wp_upd_in; [exact Ho|].
  assert (ow !! n = None) as Hnew.
  { apply eq_None_not_Some. intros Hx%(pc_dom _ _ _ _ Hw)%(pc_fresh _ _ _ _ Hw). unfold n in *. lia. }
  destruct (ready n) eqn:Er; cbn [negb].
  - apply wp_bind, wp_event. intros ev. apply wp_ret. split; [|by eapply keep_upd_in]. exists (set_i_pcm n i). split; [apply lookup_insert_eq|]. split; [done|].
    cbn [Z.eqb]. cbn [ins set_ins set_plat set_events]. rewrite insert_insert, decide_True by done.
    eapply (inv_upd_in own s a i (set_i_standby false (set_i_pcm n i))); [done|done|same_ok| |done].
    split; [by apply (platform_ok_same (plat s))|]. exists (<[n := Own_in a]> ow).
    eapply (pcms_ok_new ow (po_of (outs s)) (pi_of (ins s))); [done|reflexivity|reflexivity|..].
    + apply (slots_new ow (po_of (outs s)) (pi_of (ins s))); [done|done|by intros []].
    + intros x h Hh. by apply (pc_out _ _ _ _ Hw).
    + intros x h Hh. rewrite pi_of_insert. destruct (pc_in _ _ _ _ Hw _ _ Hh) as [b E].
      destruct (decide (a = x)) as [<-|]; [|by exists b]. rewrite (pi_of_same _ _ _ Ho) in E. injection E as _ <-.
      destruct (owned_live _ _ _ _ _ _ Hw Hh), (Hn _ _ eq_refl); done.
    + done.
    + intros x [= <-]. rewrite pi_of_insert, decide_True by done. by eexists.
    + intros x b h Hx. by left.
    + intros x b h. rewrite pi_of_insert. destruct (decide (a = x)) as [<-|]; [|by left]. intros [= <- <-]. right. by right.
  - apply wp_bind. unfold wp at 1, close_stream, usable. cbn [plat set_plat set_ins set_pcms open_pcms].
    rewrite lookup_insert_eq. apply wp_bind, wp_modify, wp_ret. split; [|by eapply keep_upd_in].
    exists (set_i_pcm n i). split; [apply lookup_insert_eq|]. split; [done|]. cbn [Z.eqb].
    eapply (inv_active_in own _ NULL); [|by left]. eapply (inv_upd_in own s a i (set_i_pcm n i)); [done|done|same_ok| |done..].
    split; [by apply (platform_ok_same (plat s))|]. exists ow.
    assert (delete n (<[n := (PCM_IN, c)]> (open_pcms (plat s))) = open_pcms (plat s)) as Ed.
    { apply delete_insert_id. apply eq_None_not_Some. intros Hx%(pc_fresh _ _ _ _ Hw). unfold n in *. lia. }
    cbn [plat set_plat set_ins set_pcms open_pcms next_pcm]. rewrite Ed.
    apply (pcms_ok_in _ _ (pi_of (ins s)) _ _ a).
    + apply (pcms_ok_next _ _ _ (plat s)); [done|done|cbn; lia|by intros []].
    + intros x Hx. rewrite pi_of_insert. by rewrite decide_False.
    + rewrite (pi_of_same _ _ _ Ho). intros b h [= <- <-]. destruct (Hn _ _ eq_refl) as [?|(? & ? & ?)]; [by left|]. right. split; [done|]. split; [done|]. cbn. lia.
    + rewrite pi_of_insert, decide_True by done. intros b h [= <- <-]. right. split; [|split; [done|]].
      * cbn. apply eq_None_not_Some. intros Hx%(pc_fresh _ _ _ _ Hw). unfold n in *. lia.
      * cbn. pose proof (pc_next _ _ _ _ Hw). unfold n. lia.
Qed.

Lemma start_input_stream_ok a i (s : hal) : inv s -> ins s !! a = Some i -> i_standby i = true ->
  wp (start_input_stream a) (fun r s' => (exists own, started own a r s') /\ keep s s') s.
Proof.
  intros [own Hi] Ho Hsb. destruct (inv_in _ _ _ _ Hi Ho) as (Hok & P1).
  apply wp_bind. eapply wp_inp; [exact Ho|]. apply wp_bind. eapply wp_init_dump; [exact Hi|exact P1|].
  intros own1 q r nb Hi1 Hq. set (s1 := set_next_block nb (set_resources r s)) in *.
  apply wp_bind. eapply wp_upd_in; [exact Ho|].
  apply (inv_member_in own1 a i (set_i_file q i)) in Hi1 as Hi2; try done; [|same_ok].
  set (s2 := set_ins _ s1) in *. assert (ins s2 !! a = Some (set_i_file q i)) as Ho2 by apply lookup_insert_eq.
  assert (keep s s2) as K2 by (by eapply keep_upd_in).
  apply wp_bind, wp_modify. apply (inv_active_in _ _ a) in Hi2; [|right; by eexists]. apply wp_bind, wp_modify.
  set (s3 := set_in_devices (i_devices i) (set_active_input a s2)) in *.
  apply wp_bind. eapply wp_mono; [exact (select_keeps own1 s3 false true Hi2)|].
  intros u s4 (Hi4 & K4 & Eo4 & Ei4). assert (ins s4 !! a = Some (set_i_file q i)) as Ho4 by (by rewrite Ei4).
  assert (keep s s4) as K04 by (etrans; [exact K2|]; etrans; [|exact K4]; by split).
  apply wp_bind, wp_get. apply wp_bind. destruct (iv_plat _ _ _ _ _ _ _ _ _ _ _ Hi4) as [Hp4 _].
  apply wp_card_config; [done|apply (pl_path _ Hp4)|apply Hok|]. intros c Hc.
  apply wp_bind. eapply wp_upd_in; [exact Ho4|].
  apply (inv_member_in own1 a (set_i_file q i) (set_i_config c (set_i_file q i))) in Hi4 as Hi5; try done; [|by destruct Hok; split].
  set (s5 := set_ins _ s4) in *. assert (keep s s5) as K5 by (transitivity s4; [done|by eapply keep_upd_in]).
  apply wp_bind. rewrite (proj2 (io_echo _ Hok)). apply wp_ret.
  eapply wp_mono; [eapply (open_in_ok own1 a (set_i_config c (set_i_file q i)) s5); [done|apply lookup_insert_eq|done]|].
  intros z s6 [H6 K6]. split; [by exists own1|]. by transitivity s5.
Qed.

(** ** Reading *)

Lemma wp_rate (c : card_config) Q (s : hal) : complete c -> (forall r, 100 <= r -> Q r s) -> wp (rate_of c) Q s.
Proof. intros (ch & r & sz & ct & _ & E & _ & _ & _ & Hr) HQ. unfold rate_of. rewrite E. by apply wp_ret, HQ. Qed.

Lemma read_samples_ok a i buffer frames fb r (s : hal) : inv s -> ins s !! a = Some i ->
  wp (read_samples a buffer frames fb r) (fun _ s' => inv s' /\ keep s s') s.
Proof.
  intros [own Hi] Ho. destruct (inv_in _ _ _ _ Hi Ho) as (Hok & P1). unfold read_samples.
  apply wp_bind. eapply wp_inp; [exact Ho|]. apply wp_bind, wp_rate; [apply Hok|]. intros rt Hrt. cbv zeta.
  apply wp_bind, wp_divide; [pose proof (Z.div_le_lower_bound rt 100 1 ltac:(lia) ltac:(lia)); lia|].
  rewrite (io_effects _ Hok). cbn [length Nat.eqb negb]. apply wp_bind. eapply (wp_mono _ (fun _ s1 => exists ck, s1 = set_clock ck s)).
  { destruct (Z.eqb_spec (i_pcm i) NULL) as [E|Hne]; cbn [negb]; [apply wp_ret; exists (clock s); by destruct s|].
    apply wp_bind. eapply (wp_with_in own a i); [exact Hi|exact Ho|done|].
    assert (length (snd (read_result (i_pcm i) (clock s) (Z.of_nat (length buffer)))) = length buffer) as El by (rewrite law_read; lia).
    apply wp_bind. unfold store. rewrite El. rewrite (proj2 (Z.leb_le (0 + Z.of_nat (length buffer)) _)) by lia. apply wp_ret, wp_ret. by eexists. }
  intros rb s1 (ck & ->). apply wp_bind, wp_event. intros ev. apply wp_bind. eapply wp_inp; [exact Ho|].
  apply wp_bind. eapply (wp_dump own); [exact Hi|exact P1|]. apply wp_bind, wp_get, wp_ret. split; [by exists own|by split].
Qed.

Lemma in_read_ok a i buffer (s : hal) : inv s -> ins s !! a = Some i -> held s = [] ->
  wp (in_read a buffer) (fun _ s' => inv s' /\ keep s s') s.
Proof.
  intros Hi Ho Hh. pose proof Hi as [own Hi0]. destruct (inv_in _ _ _ _ Hi0 Ho) as ([_ Hfs _ _] & _).
  apply wp_bind. eapply wp_inp; [exact Ho|]. cbv zeta. apply wp_bind, wp_divide; [lia|].
  apply wp_bind. eapply wp_lock_in; [exact Ho|rewrite Hh; apply not_held_nil|]. rewrite Hh. set (sl := set_held _ _).
  apply wp_bind. eapply wp_inp; [exact Ho|]. apply wp_bind. eapply (wp_mono _ (fun _ s2 => inv s2 /\ keep sl s2)).
  { destruct (i_standby i) eqn:Es; [|by apply wp_ret]. apply wp_bind, wp_lock; [by apply not_held_one|].
    apply wp_bind. eapply wp_mono; [by apply (start_input_stream_ok a i)|]. intros r s2 [[own2 (i2 & Ho2 & Es2 & Hr)] K2].
    apply wp_bind. eapply wp_unlock_top; [exact (kp_held _ _ K2)|by apply not_held_one|].
    assert (keep sl (set_held [L_in a] (set_trace (trace s2 ++ [Unlock L_adev]) s2))) as K3 by (by eapply keep_held).
    apply wp_bind. destruct (r =? 0).
    - eapply wp_upd_in; [exact Ho2|]. apply wp_ret. split; [by exists own2|]. etrans; [exact K3|]. by eapply keep_upd_in.
    - apply wp_ret, wp_ret. split; [by exists own2|done]. }
  intros r s2 [Hi2 K2]. destruct (keep_stays_in _ _ _ _ K2 Ho) as [i2 Ho2].
  apply wp_bind. eapply (wp_mono _ (fun _ s3 => inv s3 /\ keep sl s3)).
  { destruct (_ && _); [by apply wp_ret|]. eapply wp_mono; [by apply (read_samples_ok a i2)|]. intros rb s3 [Hi3 K3]. split; [done|by etrans]. }
  intros rb s3 [Hi3 K3]. apply wp_bind. eapply wp_unlock_top; [exact (kp_held _ _ K3)|apply not_held_nil|].
  assert (keep s (set_held [] (set_trace (trace s3 ++ [Unlock (L_in a)]) s3))) as K by (by eapply keep_held).
  apply wp_bind. eapply (wp_mono _ (fun _ s4 => inv s4 /\ keep s s4)).
  { destruct (negb _); [|by apply wp_ret]. destruct (keep_stays_in _ _ _ _ K Ho) as [i3 Ho3].
    apply wp_bind. eapply wp_mono; [by apply (in_standby_ok a i3); [exact Hi3|..]|]. intros _ s4 [[own4 Hi4] K4].
    apply wp_bind, wp_divide; [lia|]. destruct (keep_stays_in _ _ _ _ K4 Ho3) as [i4 Ho4]. destruct (inv_in _ _ _ _ Hi4 Ho4) as (Hok4 & _).
    apply wp_bind. unfold in_get_sample_rate. apply wp_bind. eapply wp_inp; [exact Ho4|]. apply wp_bind, wp_rate; [apply Hok4|]. intros rt Hrt. apply wp_ret.
    apply wp_bind, wp_divide; [destruct (Z.eqb_spec rt 0); lia|]. apply wp_ret. split; [by exists own4|by etrans]. }
  intros _ s4 [[own4 Hi4] K4]. destruct (keep_stays_in _ _ _ _ K4 Ho) as [i4 Ho4]. destruct (inv_in _ _ _ _ Hi4 Ho4) as (Hok4 & P4).
  apply wp_bind. destruct (0 <? _); [|apply wp_ret, wp_ret; split; [by exists own4|done]].
  eapply wp_upd_in; [exact Ho4|]. apply wp_ret. split; [|etrans; [exact K4|]; by eapply keep_upd_in].
  exists own4. eapply inv_member_in; [done|exact Ho4|same_ok|done|done|done].
Qed.

(** ** Position and routing *)

Lemma in_position_ok a i (s : hal) : inv s -> ins s !! a = Some i -> held s = [] ->
  wp (in_get_capture_position a) (fun _ s' => inv s' /\ keep s s') s.
Proof.
  intros Hi Ho Hh. pose proof Hi as [own Hi0].
  apply wp_bind. eapply wp_lock_in; [exact Ho|rewrite Hh; apply not_held_nil|]. rewrite Hh. set (sl := set_held _ _).
  apply wp_bind. eapply wp_inp; [exact Ho|]. apply wp_bind. eapply (wp_mono _ (fun _ s2 => exists ck, s2 = set_clock ck sl)).
  { destruct (Z.eqb_spec (i_pcm i) NULL) as [E|Hne]; cbn [negb]; [apply wp_ret; by exists (clock sl)|].
    apply wp_bind. eapply (wp_with_in own a i); [exact Hi0|exact Ho|done|].
    destruct (htimestamp _ _) as [[avail time]|]; apply wp_ret; by eexists. }
  intros r s2 (ck & ->). apply wp_bind. eapply wp_unlock_top; [reflexivity|apply not_held_nil|]. apply wp_ret.
  split; [exact Hi|]. by split.
Qed.

Lemma in_set_parameters_ok a i routing (s : hal) : inv s -> ins s !! a = Some i -> held s = [] -> number routing = true ->
  wp (in_set_parameters a routing) (fun _ s' => inv s' /\ keep s s') s.
Proof.
  intros Hi Ho Hh Hn. apply wp_bind. eapply wp_lock_in; [exact Ho|rewrite Hh; apply not_held_nil|]. rewrite Hh.
  apply wp_bind, wp_lock; [by apply not_held_one|]. set (sl := set_held _ _).
  apply wp_bind. eapply (wp_mono _ (fun _ s1 => inv s1 /\ keep sl s1)).
  { destruct routing as [value|]; [|by apply wp_ret]. apply bool_decide_eq_true in Hn as [val E]. rewrite E.
    apply wp_bind, wp_get. destruct (_ && _); [|by apply wp_ret]. apply wp_bind, wp_modify. destruct Hi as [own Hi].
    eapply wp_mono; [exact (select_keeps own (set_in_devices val sl) false true Hi)|]. intros _ s1 (Hi1 & K1 & _).
    split; [by exists own|]. etrans; [|exact K1]. by split. }
  intros _ s1 [Hi1 K1]. apply wp_bind. eapply wp_unlock_top; [exact (kp_held _ _ K1)|by apply not_held_one|].
  apply wp_bind. eapply wp_unlock_top; [reflexivity|apply not_held_nil|]. apply wp_ret. split; [done|]. by eapply keep_held.
Qed.

End read.
End AudioRead.
