(* ===== verification/AudioMain.v ===== *)
(** * Requests to the audio HAL

    Opening and closing streams, the device's own operations and patches keep
    the invariant as well: every sequence of requests that [request_ok] allows
    returns, with all locks given back. *)

From stdpp Require Import base tactics option list list_numbers numbers gmap fin_maps.
From Stdlib Require Import ZArith Lia.
From Stdlib Require String.
From S2P Require Import Prelude CString AudioPlat AudioRoute AudioThm AudioOut AudioIn AudioDev AudioSafe AudioReq AudioRun AudioRead.

Import String.StringSyntax.
Import CString AudioPlat AudioRoute AudioThm AudioOut AudioIn AudioDev AudioSafe AudioReq AudioRun AudioRead.

Local Open Scope Z_scope.
Local Open Scope list_scope.
Local Open Scope c_scope.

Module AudioMain.

(** The test that decides what runs next. *)
Ltac case_if := match goal with |- wp (if ?b then _ else _) _ _ => destruct b eqn:? end.

Section main.
Context {F : Type} {PL : PcmLib} {EF : Effects} {EN : AudioEnv F} {AN : AndroidAudio} {LAWS : AudioLaws}.

Local Abbreviation platform := (@AudioRoute.platform F).
Local Abbreviation hal := (@AudioOut.hal F).
Local Abbreviation HM := (M hal).
Local Abbreviation const := AudioOut.const.

(** ** The configuration of a device is changed *)

Lemma front_ok n q c (p : platform) : platform_ok p -> profiles (info p) !! n = Some (Some q) -> complete c ->
  let q' := mkProfile (devices q) c (in_be q) (AudioPlat.in_bec q) (out_be q) (AudioPlat.out_bec q) in
  platform_ok (set_info (set_profiles (<[n := Some q']> (profiles (info p))) (profile_index (info p)) (info p)) p).
Proof.
  intros [[H1 H2 H3 H4 H5 H6 H7 H8 H9] Hn Hf Hm Hp] Hq Hc q'. pose proof (lookup_lt_Some _ _ _ Hq) as Hlt.
  assert (forall m x, <[n := Some q']> (profiles (info p)) !! m = Some x ->
    m = n /\ x = Some q' \/ m <> n /\ profiles (info p) !! m = Some x) as Hins.
  { intros m x. destruct (decide (n = m)) as [<-|Hne]; [rewrite list_lookup_insert_eq by done; intros [= <-]; auto|].
    rewrite list_lookup_insert_ne by done. auto. }
  split; cbn; [|..|done|done].
  - split; cbn; try done; [by rewrite length_insert|..].
    + intros m Hm'. destruct (H3 m Hm') as (x & Ex & Hx). destruct (decide (n = m)) as [<-|Hne].
      * rewrite list_lookup_insert_eq by done. exists q'. split; [done|]. rewrite Ex in Hq. injection Hq as ->. by destruct Hx; split.
      * rewrite list_lookup_insert_ne by done. by exists x.
    + intros m Hm' Hl. destruct (decide (n = m)) as [<-|Hne]; [|rewrite list_lookup_insert_ne by done; auto].
      rewrite H4 in Hq by done. discriminate Hq.
  - intros m x Hx. destruct (Hins _ _ Hx) as [[_ [= ->]]|[_ ?]]; [by apply (Hn n q)|by eapply Hn].
  - intros m x Hx. destruct (Hins _ _ Hx) as [[_ [= ->]]|[_ ?]]; [done|by eapply Hf].
Qed.

Lemma update_config_ok ch r pdev po pi (p : platform) : plat_inv po pi p -> is_Some (pdev2str pdev) -> 0 < u32 ch -> 100 <= u32 r ->
  exists z p', update_platform_snd_card_config ch r pdev p = Some (z, p') /\ plat_inv po pi p'.
Proof.
  intros [Hp [own Ho]] [name Hname] Hch Hr. destruct (find_profile_run hdr pdev name p (pl_info _ Hp) (pl_named _ Hp) Hname) as (x & Ex & Hx).
  unfold update_platform_snd_card_config. rewrite (bind_some _ _ _ _ _ Ex).
  destruct x as [[n q]|]; [|exists (-1), p; split; [done|]; split; [done|by exists own]].
  destruct (frontend q) as [a b c d e f] eqn:Ef. eexists _, _. split; [reflexivity|]. split.
  - apply (front_ok n q (mkCard a b (Some ch) (Some r) e f) p Hp Hx).
    pose proof (pl_front _ Hp n q Hx) as (c' & d' & e' & f' & E). rewrite Ef in E. cbn in E.
    destruct E as (_ & _ & -> & -> & _). by exists ch, r, e', f'.
  - exists own. by destruct Ho; split.
Qed.

(** ** Opening and closing *)

Lemma block_not_stream own (s : hal) : invb own s -> outs s !! next_block s = None /\ ins s !! next_block s = None.
Proof.
  intros Hi. destruct (iv_blocks _ _ _ _ _ _ _ _ _ _ _ Hi) as [B1 B2 B3 B4 B5].
  split; apply eq_None_not_Some; intros [x E]; [destruct (B4 _ _ E)|destruct (B5 _ _ E)]; lia.
Qed.

Lemma blocks_next own (s : hal) : invb own s -> blocks_ok own (outs s) (ins s) (resources s) (next_block s + 1).
Proof.
  intros Hi. destruct (iv_blocks _ _ _ _ _ _ _ _ _ _ _ Hi) as [B1 B2 B3 B4 B5]. split; [lia|done|..].
  - intros b Hb. specialize (B3 b Hb). lia.
  - intros a o Ha. destruct (B4 a o Ha) as (? & ?). split; [lia|done].
  - intros a i Ha. destruct (B5 a i Ha) as (? & ?). split; [lia|done].
Qed.

Lemma inv_open_out own o p (s : hal) (n := next_block s) : invb own s -> plat_inv (po_of (outs s)) (pi_of (ins s)) p -> out_ok o ->
  o_pcm o = NULL -> o_equalizer o = NULL -> core_prms (o_prms o) = NULL -> o_file o = NULL ->
  invb own (set_plat p (set_out_streams (list_add_tail n (out_streams s)) (set_next_block (n + 1) (set_outs (<[n := o]> (outs s)) s)))).
Proof.
  intros Hi [Hp [ow Hw]] Hok E1 E2 E3 E4. destruct (block_not_stream _ _ Hi) as [Hn _].
  pose proof (blocks_next _ _ Hi) as [C1 C2 C3 C4 C5]. destruct Hi as [H1 H2 H3 H4 H5 H6 H7 H8 [B1 _ _ _ _]]. split; try done; cbn.
  - split; [done|]. exists ow. apply (pcms_ok_out _ (po_of (outs s)) _ _ _ n); [done|..].
    + intros x Hx. rewrite po_of_insert. by rewrite decide_False.
    + unfold po_of. unfold n. by rewrite Hn.
    + rewrite po_of_insert, decide_True by done. intros ? ? [= _ <-]. by left.
  - intros a x. rewrite lookup_insert_Some. intros [[<- <-]|[_ Hx]]; [done|by eapply H2].
  - intros a. unfold list_add_tail. rewrite elem_of_app, list_elem_of_singleton, H4, lookup_insert_is_Some'. naive_solver.
  - destruct H6 as [?|?]; [by left|right]. apply lookup_insert_is_Some'. by right.
  - split; try done. intros a x. rewrite lookup_insert_Some. intros [[<- <-]|[_ Hx]]; [|by apply C4].
    split; [unfold n; lia|]. split_and!; by left.
Qed.

Lemma inv_open_in own i p (s : hal) (n := next_block s) : invb own s -> plat_inv (po_of (outs s)) (pi_of (ins s)) p -> in_ok i ->
  i_pcm i = NULL -> i_file i = NULL ->
  invb own (set_in_streams (list_add_tail n (in_streams s)) (set_plat p (set_next_block (n + 1) (set_ins (<[n := i]> (ins s)) s)))).
Proof.
  intros Hi [Hp [ow Hw]] Hok E1 E2. destruct (block_not_stream _ _ Hi) as [_ Hn].
  pose proof (blocks_next _ _ Hi) as [C1 C2 C3 C4 C5]. destruct Hi as [H1 H2 H3 H4 H5 H6 H7 H8 [B1 _ _ _ _]]. split; try done; cbn.
  - split; [done|]. exists ow. apply (pcms_ok_in _ _ (pi_of (ins s)) _ _ n); [done|..].
    + intros x Hx. rewrite pi_of_insert. by rewrite decide_False.
    + unfold pi_of. unfold n. by rewrite Hn.
    + rewrite pi_of_insert, decide_True by done. intros ? ? [= _ <-]. by left.
  - intros a x. rewrite lookup_insert_Some. intros [[<- <-]|[_ Hx]]; [done|by eapply H3].
  - intros a. unfold list_add_tail. rewrite elem_of_app, list_elem_of_singleton, H5, lookup_insert_is_Some'. naive_solver.
  - destruct H7 as [?|?]; [by left|right]. apply lookup_insert_is_Some'. by right.
  - split; try done. intros a x. rewrite lookup_insert_Some. intros [[<- <-]|[_ Hx]]; [|by apply C5].
    split; [unfold n; lia|]. by left.
Qed.

Lemma list_remove_elem a b l : b ∈ list_remove a l <-> b ∈ l /\ b <> a.
Proof. unfold list_remove. rewrite list_elem_of_filter. naive_solver. Qed.

Lemma inv_close_out own a o (s : hal) : invb own s -> outs s !! a = Some o -> o_standby o = true ->
  invb own (set_outs (delete a (outs s)) (set_active_output NULL (set_out_streams (list_remove a (out_streams s)) s))).
Proof.
  intros Hi Ho Hs. pose proof (standby_unowned own a o s true Hi Ho Hs) as Hn.
  destruct Hi as [[Hp [ow Hw]] H2 H3 H4 H5 H6 H7 H8 [B1 B2 B3 B4 B5]]. split; try done; cbn.
  - split; [done|]. exists ow. apply (pcms_ok_out _ (po_of (outs s)) _ _ _ a); [done|..].
    + intros x Hx. unfold po_of. by rewrite lookup_delete_ne.
    + rewrite (po_of_same _ _ _ Ho). intros ? ? [= <- <-]. by eapply Hn.
    + unfold po_of. by rewrite lookup_delete_eq.
  - intros b x. rewrite lookup_delete_Some. intros [_ Hx]. by eapply H2.
  - intros b. rewrite list_remove_elem, H4, lookup_delete_is_Some. naive_solver.
  - by left.
  - split; try done. intros b x. rewrite lookup_delete_Some. intros [_ Hx]. by apply B4.
Qed.

Lemma inv_close_in own a i (s : hal) : invb own s -> ins s !! a = Some i -> i_standby i = true ->
  invb own (set_ins (delete a (ins s)) (set_active_input NULL (set_in_streams (list_remove a (in_streams s)) s))).
Proof.
  intros Hi Ho Hs. pose proof (standby_unowned_in own a i s true Hi Ho Hs) as Hn.
  destruct Hi as [[Hp [ow Hw]] H2 H3 H4 H5 H6 H7 H8 [B1 B2 B3 B4 B5]]. split; try done; cbn.
  - split; [done|]. exists ow. apply (pcms_ok_in _ _ (pi_of (ins s)) _ _ a); [done|..].
    + intros x Hx. unfold pi_of. by rewrite lookup_delete_ne.
    + rewrite (pi_of_same _ _ _ Ho). intros ? ? [= <- <-]. by eapply Hn.
    + unfold pi_of. by rewrite lookup_delete_eq.
  - intros b x. rewrite lookup_delete_Some. intros [_ Hx]. by eapply H3.
  - intros b. rewrite list_remove_elem, H5, lookup_delete_is_Some. naive_solver.
  - by left.
  - split; try done. intros b x. rewrite lookup_delete_Some. intros [_ Hx]. by apply B5.
Qed.

(** Requests start and end without locks. *)
Definition rest (s : hal) : Prop := inv s /\ held s = [].

Lemma rest_keep (s s' : hal) : held s = [] -> inv s' /\ keep s s' -> rest s'.
Proof. intros Hh [Hi K]. split; [done|]. by rewrite (kp_held _ _ K). Qed.

(** What is known of the format of a new output stream. *)
Definition format_ok (mask fmt : Z) : bool := (4 <=? frame_size_out mask fmt) && (0 <? u32 (channel_count_out mask)).

Lemma wp_out_defaults devices format rt mask (s : hal) (Q : Z * Z * Z * card_config -> hal -> Prop) : platform_ok (plat s) ->
  match out_defaults devices format rt mask s with Some ((f, _, m, _), _) => format_ok m f = true | None => False end ->
  (forall f r m c, format_ok m f = true -> Q (f, r, m, c) s) -> wp (out_defaults devices format rt mask) Q s.
Proof.
  intros Hp Hf HQ. assert (forall x s', out_defaults devices format rt mask s = Some (x, s') -> s' = s) as Hs.
  { unfold out_defaults. destruct (any _ _); [|by intros x s' [= _ <-]]. intros x s'. unfold card_config_for, bind, on_plat.
    destruct (find_profile_run hdr OUT_HDMI (bytes "OUT_HDMI") _ (pl_info _ Hp) (pl_named _ Hp) eq_refl) as (y & Ey & _).
    unfold get_platform_snd_card_config, bind. rewrite Ey. destruct y as [[n q]|]; cbn.
    - destruct (rate (frontend q)), (channels (frontend q)); cbn; intros [= _ <-]; by destruct s.
    - intros [= _ <-]. by destruct s. }
  unfold wp. destruct (out_defaults devices format rt mask s) as [[[[[f r] m] c] s']|]; [|done]. rewrite (Hs _ _ eq_refl). by apply HQ.
Qed.

Lemma open_output_ok handle devices flags format rt mask (s : hal) : rest s ->
  match out_defaults devices format rt mask s with Some ((f, _, m, _), _) => format_ok m f = true | None => False end ->
  wp (adev_open_output_stream handle devices flags format rt mask) (fun a s' => rest s' /\ is_Some (outs s' !! fst a)) s.
Proof.
  intros [[own Hi] Hh] Hf. set (n := next_block s). apply wp_bind. unfold wp at 1, new_out. fold n. set (o0 := mkOut _ _ _ _ _ _ _ _ _ _ _ _ _ _ _ _ _ _ _ _ _).
  apply wp_bind, wp_lock; [cbn; rewrite Hh; apply not_held_nil|]. cbn [held set_next_block set_outs]. rewrite Hh.
  apply wp_bind, wp_modify. apply wp_bind. eapply wp_unlock_top; [reflexivity|apply not_held_nil|].
  apply wp_bind. destruct (iv_plat _ _ _ _ _ _ _ _ _ _ _ Hi) as [Hp Hw]. apply wp_out_defaults; [done| |].
  { cbn [plat set_held set_trace set_out_streams set_next_block set_outs]. revert Hf. unfold out_defaults.
    destruct (any _ _); [|done]. unfold card_config_for, bind, on_plat. cbn [plat set_held set_trace set_out_streams set_next_block set_outs].
    destruct (get_platform_snd_card_config OUT_HDMI (plat s)) as [[[z c] p]|]; [|done]. cbn.
    destruct (rate (default zero_card c)), (channels (default zero_card c)); done. }
  intros f r m c [Hfs Hch]%andb_true_iff. apply wp_bind. eapply wp_upd_out; [apply lookup_insert_eq|].
  match goal with |- context [insert n ?x (outs _)] => set (o1 := x) end.
  apply wp_bind. destruct (update_config_ok (channel_count_out m) DEFAULT_OUTPUT_SAMPLING_RATE OUT_SPK _ _ (plat s) (conj Hp Hw)) as (z & p & E & Hp').
  { by eexists. }
  { lia. }
  { done. }
  eapply wp_on_plat; [exact E|]. apply wp_bind, wp_event. intros ev. apply wp_ret. cbn [outs set_events set_plat set_outs set_held set_trace set_out_streams set_next_block].
  rewrite insert_insert, decide_True by done. split; [split; [|done]|rewrite lookup_insert_eq; by eexists]. exists own.
  eapply (inv_open_out own o1 p); [done|done| |done..]. split.
  - exists (channel_count_out m), DEFAULT_OUTPUT_SAMPLING_RATE, 480, 2. split_and!; [done..|lia|done].
  - cbn. lia.
  - done.
  - cbn. by rewrite length_replicate.
Qed.

Lemma close_output_ok a (s : hal) : rest s -> is_Some (outs s !! a) -> wp (adev_close_output_stream a) (fun _ s' => rest s') s.
Proof.
  intros [Hi Hh] [o Ho]. apply wp_bind. eapply wp_mono; [by apply (do_out_standby_ok a o)|]. intros z s1 ([own Hi1] & K & o1 & Ho1 & Hs & _).
  apply wp_bind, wp_lock; [rewrite (kp_held _ _ K), Hh; apply not_held_nil|]. rewrite (kp_held _ _ K), Hh.
  apply wp_bind, wp_modify. apply wp_bind. eapply wp_unlock_top; [reflexivity|apply not_held_nil|]. apply wp_bind, wp_event. intros ev.
  apply wp_bind, wp_modify. apply wp_bind. eapply wp_out; [exact Ho1|]. apply wp_modify. split; [|done]. exists own.
  by apply (inv_close_out own a o1 s1).
Qed.

(** What an input stream may be opened with. *)
Definition source_ok (mask rt source : Z) : bool :=
  (0 <? u32 (channel_count_in mask)) && ((source =? const "AUDIO_SOURCE_VOICE_COMMUNICATION") || (100 <=? u32 rt)) &&
  (0 <? frame_size_in (if mask =? 0 then const "AUDIO_CHANNEL_IN_STEREO" else mask) in_get_format).

Lemma open_input_ok handle devices format rt mask source (s : hal) : rest s -> source_ok mask rt source = true ->
  wp (adev_open_input_stream handle devices format rt mask source) (fun a s' => rest s' /\ is_Some (ins s' !! a)) s.
Proof.
  intros [[own Hi] Hh] [[Hch Hr]%andb_true_iff Hfs]%andb_true_iff. unfold adev_open_input_stream. cbv zeta.
  set (r := if source =? _ then 48000 else rt). assert (100 <= u32 r) as Hr' by (unfold r; destruct (source =? _); [done|cbn in Hr; lia]).
  set (n := next_block s). apply wp_bind. unfold wp at 1, new_in. fold n. set (i := mkIn _ _ _ _ _ _ _ _ _ _ _ _ _ _ _ _ _ _ _ _ _ _ _).
  apply wp_bind. destruct (update_config_ok (channel_count_in mask) r IN_AMIC _ _ (plat s) (iv_plat _ _ _ _ _ _ _ _ _ _ _ Hi)) as (z & p & E & Hp').
  { by eexists. }
  { lia. }
  { done. }
  eapply wp_on_plat; [exact E|]. apply wp_bind, wp_lock; [cbn; rewrite Hh; apply not_held_nil|]. cbn [held set_next_block set_ins set_plat]. rewrite Hh.
  apply wp_bind, wp_modify. apply wp_bind. eapply wp_unlock_top; [reflexivity|apply not_held_nil|]. apply wp_bind, wp_event. intros ev. apply wp_ret.
  split; [split; [|done]|cbn; rewrite lookup_insert_eq; by eexists]. exists own. eapply (inv_open_in own i p); [done|done| |done..]. split.
  - exists (channel_count_in mask), r, DEFAULT_INPUT_PERIOD_SIZE, 2. split_and!; [done..|lia|done].
  - unfold in_frame_size, in_get_channels. cbn [i_channel_mask i]. lia.
  - done.
  - done.
Qed.

Lemma close_input_ok a (s : hal) : rest s -> is_Some (ins s !! a) -> wp (adev_close_input_stream a) (fun _ s' => rest s') s.
Proof.
  intros [Hi Hh] [i Ho]. apply wp_bind. eapply wp_mono; [by apply (do_in_standby_ok a i)|]. intros z s1 ([own Hi1] & K & i1 & Ho1 & Hs).
  apply wp_bind, wp_lock; [rewrite (kp_held _ _ K), Hh; apply not_held_nil|]. rewrite (kp_held _ _ K), Hh.
  apply wp_bind, wp_modify. apply wp_bind. eapply wp_unlock_top; [reflexivity|apply not_held_nil|].
  apply wp_bind, wp_modify. apply wp_bind, wp_event. intros ev. apply wp_bind. eapply wp_inp; [exact Ho1|]. apply wp_modify.
  split; [|done]. exists own. by apply (inv_close_in own a i1 s1).
Qed.

(** ** The device *)

Lemma set_mode_ok m (s : hal) : rest s -> wp (adev_set_mode m) (fun _ s' => rest s') s.
Proof.
  intros [[own Hi] Hh]. apply wp_bind, wp_lock; [rewrite Hh; apply not_held_nil|]. rewrite Hh. set (sl := set_held _ _).
  apply wp_bind, wp_get. apply wp_bind. eapply (wp_mono _ (fun _ s1 => inv s1 /\ held s1 = [L_adev])).
  { destruct (negb _); [|apply wp_ret; split; [by exists own|done]]. apply wp_bind, wp_modify.
    eapply wp_mono; [exact (select_keeps own (set_mode m sl) true true Hi)|]. intros _ s1 (Hi1 & K1 & _).
    split; [by exists own|]. by rewrite (kp_held _ _ K1). }
  intros _ s1 [Hi1 Hh1]. apply wp_bind. eapply wp_unlock_top; [exact Hh1|apply not_held_nil|]. by apply wp_ret.
Qed.

Lemma set_mic_mute_ok b (s : hal) : rest s -> wp (adev_set_mic_mute b) (fun _ s' => rest s') s.
Proof.
  intros [Hi Hh]. apply wp_bind, wp_lock; [rewrite Hh; apply not_held_nil|]. rewrite Hh. apply wp_bind, wp_modify.
  apply wp_bind. eapply wp_unlock_top; [reflexivity|apply not_held_nil|]. apply wp_ret. by split.
Qed.

(** ** Patches *)

Lemma find_out_run f h l (s : hal) : (forall a, a ∈ l -> is_Some (outs s !! a)) ->
  wp (find_out f h l) (fun r s' => s' = s /\ forall a, r = Some a -> a ∈ l /\ exists o, outs s !! a = Some o /\ f o = h) s.
Proof.
  induction l as [|a l IH]; intros Hl; [by apply wp_ret|]. cbn [find_out]. destruct (Hl a) as [o Ho]; [by left|].
  apply wp_bind. eapply wp_out; [exact Ho|]. destruct (Z.eqb_spec (f o) h) as [E|_].
  - apply wp_ret. split; [done|]. intros ? [= <-]. split; [by left|by exists o].
  - eapply wp_mono; [apply IH; intros b Hb; apply Hl; by right|]. intros r s' [-> H]. split; [done|].
    intros b Hb. destruct (H b Hb) as [? ?]. split; [by right|done].
Qed.

Lemma find_in_run f h l (s : hal) : (forall a, a ∈ l -> is_Some (ins s !! a)) ->
  wp (find_in f h l) (fun r s' => s' = s /\ forall a, r = Some a -> a ∈ l /\ exists i, ins s !! a = Some i /\ f i = h) s.
Proof.
  induction l as [|a l IH]; intros Hl; [by apply wp_ret|]. cbn [find_in]. destruct (Hl a) as [i Ho]; [by left|].
  apply wp_bind. eapply wp_inp; [exact Ho|]. destruct (Z.eqb_spec (f i) h) as [E|_].
  - apply wp_ret. split; [done|]. intros ? [= <-]. split; [by left|by exists i].
  - eapply wp_mono; [apply IH; intros b Hb; apply Hl; by right|]. intros r s' [-> H]. split; [done|].
    intros b Hb. destruct (H b Hb) as [? ?]. split; [by right|done].
Qed.

Lemma wp_find_out own f h (s : hal) Q : invb own s -> (forall r, (forall a, r = Some a -> a ∈ out_streams s /\ exists o, outs s !! a = Some o /\ f o = h) -> Q r s) ->
  wp (find_out f h (out_streams s)) Q s.
Proof.
  intros Hi HQ. eapply wp_mono; [apply find_out_run; intros a; apply (iv_ol _ _ _ _ _ _ _ _ _ _ _ Hi)|].
  intros r s' [-> H]. by apply HQ.
Qed.

Lemma wp_find_in own f h (s : hal) Q : invb own s -> (forall r, (forall a, r = Some a -> exists i, ins s !! a = Some i /\ f i = h) -> Q r s) ->
  wp (find_in f h (in_streams s)) Q s.
Proof.
  intros Hi HQ. eapply wp_mono; [apply find_in_run; intros a; apply (iv_il _ _ _ _ _ _ _ _ _ _ _ Hi)|].
  intros r s' [-> H]. apply HQ. intros a Ha. by apply H.
Qed.

Lemma set_patch_devices_ok own a sinks : forall (s : hal) o, invb own s -> outs s !! a = Some o -> 0 <= o_num_devices o ->
  o_num_devices o + Z.of_nat (length sinks) <= const "AUDIO_PATCH_PORTS_MAX" ->
  wp (set_patch_devices a sinks) (fun _ s' => invb own s' /\ keep s s') s.
Proof.
  induction sinks as [|p sinks IH]; intros s o Hi Ho H0 Hn; [by apply wp_ret|]. cbn [set_patch_devices length] in *.
  destruct (inv_out _ _ _ _ Hi Ho) as (Hok & P1 & P2 & P3). apply wp_bind. eapply wp_out; [exact Ho|].
  rewrite aset_run by (rewrite (oo_array _ Hok); lia).
  apply wp_bind. eapply wp_upd_out; [exact Ho|]. set (o1 := set_o_deviceArray _ o).
  apply wp_bind, wp_modify. apply wp_bind. eapply wp_upd_out; [apply lookup_insert_eq|]. cbn [outs set_out_devices set_outs].
  set (s2 := set_outs _ _). assert (invb own s2) as Hi2.
  { unfold s2. rewrite insert_insert, decide_True by done. eapply (inv_member own a o _ s); try done.
    destruct Hok. split; try done. cbn. by rewrite length_insert. }
  eapply wp_mono; [apply (IH s2 (set_o_num_devices (o_num_devices o + 1) o1)); [done|apply lookup_insert_eq|cbn; lia|cbn; lia]|].
  intros _ s' [Hi' K']. split; [done|]. etrans; [|exact K']. split; [done|..]; intros b; [|done].
  unfold s2. cbn. rewrite insert_insert, decide_True by done. by apply insert_dom with o.
Qed.

(** A handle that is not made by the HAL is that of the stream. *)
Definition patch_known (s : hal) (source : Z) (handle : Z) : bool :=
  (handle =? AUDIO_PATCH_HANDLE_NONE) ||
  forallb (fun a => match outs s !! a with Some o => negb (o_handle o =? source) || (o_patch_handle o =? handle) | None => true end) (out_streams s).

Definition patch_ok (s : hal) (sources : list port_config) (handle : Z) : bool :=
  match sources with
  | [p] => match p_type p with PORT_MIX => patch_known s (p_handle p) handle | _ => true end
  | _ => true
  end.

Lemma patch_stream s p a o handle : p_type p = PORT_MIX -> patch_ok s [p] handle = true -> a ∈ out_streams s -> outs s !! a = Some o ->
  o_handle o = p_handle p -> negb (handle =? AUDIO_PATCH_HANDLE_NONE) && negb (o_patch_handle o =? handle) = false.
Proof.
  intros Ep Hp Ha Ho Eh. cbn in Hp. rewrite Ep in Hp. unfold patch_known in Hp. destruct (handle =? AUDIO_PATCH_HANDLE_NONE); [done|].
  cbn in Hp. rewrite forallb_forall in Hp. specialize (Hp a). rewrite list_elem_of_In in Ha. specialize (Hp Ha). rewrite Ho, Eh, Z.eqb_refl in Hp.
  cbn in *. by rewrite Hp.
Qed.

(** The part of a patch that is for an input stream, and for an output stream. *)
Lemma patch_in_ok own a i d h (s : hal) : invb own s -> ins s !! a = Some i -> held s = [L_adev] ->
  wp (lock_in a ;;; upd_in a (set_i_devices d) ;;; unlock (L_in a) ;;; upd_in a (set_i_patch_handle h))
    (fun _ s' => inv s' /\ held s' = [L_adev]) s.
Proof.
  intros Hi Ho Hh. destruct (inv_in _ _ _ _ Hi Ho) as (Hok & P1).
  apply wp_bind. eapply wp_lock_in; [exact Ho|rewrite Hh; by apply not_held_one|]. rewrite Hh.
  apply wp_bind. eapply wp_upd_in; [exact Ho|]. apply wp_bind. eapply wp_unlock_top; [reflexivity|by apply not_held_one|].
  eapply wp_upd_in; [apply lookup_insert_eq|]. split; [|done]. exists own.
  pose proof (inv_member_in own a i (set_i_patch_handle h (set_i_devices d i)) s Hi Ho ltac:(same_ok) eq_refl eq_refl P1) as H.
  cbn [ins set_ins set_held set_trace]. rewrite insert_insert, decide_True by done. exact H.
Qed.

Lemma patch_out_ok own a o sinks h (s : hal) : invb own s -> outs s !! a = Some o -> held s = [L_adev] ->
  Z.of_nat (length sinks) <= const "AUDIO_PATCH_PORTS_MAX" ->
  wp (lock_out a ;;; upd_out a (set_o_num_devices 0) ;;; set_patch_devices a sinks ;;; select_devices true true ;;;
      unlock (L_out a) ;;; upd_out a (set_o_patch_handle h)) (fun _ s' => inv s' /\ held s' = [L_adev]) s.
Proof.
  intros Hi Ho Hh Hn. destruct (inv_out _ _ _ _ Hi Ho) as (Hok & P1 & P2 & P3).
  apply wp_bind. eapply wp_lock_out; [exact Ho|rewrite Hh; by apply not_held_one|]. rewrite Hh.
  apply wp_bind. eapply wp_upd_out; [exact Ho|]. set (s1 := set_outs _ _).
  assert (invb own s1) as Hi1 by (apply (inv_member own a o (set_o_num_devices 0 o) s); try done; same_ok).
  apply wp_bind. eapply wp_mono; [apply (set_patch_devices_ok own a sinks s1 (set_o_num_devices 0 o)); [done|apply lookup_insert_eq|done|cbn; lia]|].
  intros _ s2 [Hi2 K2]. apply wp_bind. eapply wp_mono; [exact (select_keeps own s2 true true Hi2)|]. intros _ s3 (Hi3 & K3 & _).
  apply wp_bind. eapply wp_unlock_top; [rewrite (kp_held _ _ K3); exact (kp_held _ _ K2)|by apply not_held_one|].
  assert (keep s1 s3) as K by (by transitivity s2). destruct (keep_stays s1 s3 a _ K (lookup_insert_eq _ _ _)) as [o3 Ho3].
  destruct (inv_out _ _ _ _ Hi3 Ho3) as (Hok3 & Q1 & Q2 & Q3). eapply wp_upd_out; [exact Ho3|]. split; [|done]. exists own.
  apply (inv_member own a o3 (set_o_patch_handle h o3) s3); try done. same_ok.
Qed.

Lemma create_patch_ok sources sinks handle (s : hal) : rest s -> patch_ok s sources handle = true ->
  wp (adev_create_audio_patch sources sinks handle) (fun r s' => rest s' /\ fst r <= 0) s.
Proof.
  intros Hrest Hp. pose proof Hrest as [[own Hi] Hh]. unfold adev_create_audio_patch. destruct (_ || _ || _) eqn:Eg; [by apply wp_ret|].
  apply orb_false_iff in Eg as [[E1 E2]%orb_false_iff E3]. destruct sources as [|p [|]]; [done| |done]. destruct sinks as [|k sinks]; [done|].
  cbv zeta. case_if; [by apply wp_ret|].
  apply wp_bind, wp_lock; [rewrite Hh; apply not_held_nil|]. rewrite Hh. set (sl := set_held _ _).
  apply wp_bind. eapply (wp_mono _ (fun _ s1 => exists n, s1 = set_next_patch_handle n sl)).
  { case_if; [by eexists|]. apply wp_ret. exists (next_patch_handle sl). by destruct s. }
  intros _ s1 [n E]. assert (invb own s1 /\ held s1 = [L_adev] /\ outs s1 = outs s /\ out_streams s1 = out_streams s) as (Hi1 & Hh1 & Eo & El) by (by subst s1).
  apply wp_bind, wp_get. apply wp_bind. eapply (wp_mono _ (fun _ s2 => inv s2 /\ held s2 = [L_adev])).
  { assert (inv s1 /\ held s1 = [L_adev]) as Hs1 by (split; [by exists own|done]).
    destruct (p_type p) eqn:Ep.
    - apply wp_bind, wp_bind, wp_get, (wp_find_in own); [done|]. intros [a|] Hr; [|apply wp_ret, Hs1].
      destruct (Hr a eq_refl) as (i & Ho & _). apply wp_bind. eapply wp_inp; [exact Ho|]. case_if; [apply wp_ret, Hs1|].
      pose proof (patch_in_ok own a i (p_device p) (if handle =? AUDIO_PATCH_HANDLE_NONE then next_patch_handle s1 else handle) s1 Hi1 Ho Hh1) as H.
      revert H. unfold wp, bind, ret. destruct (lock_in a s1) as [[? s2]|]; [|done]. destruct (upd_in _ _ s2) as [[? s3]|]; [|done].
      destruct (unlock _ s3) as [[? s4]|]; [|done]. by destruct (upd_in _ _ s4) as [[? s5]|].
    - apply wp_bind, wp_bind, wp_get, (wp_find_out own); [done|]. intros [a|] Hr; [|apply wp_ret, Hs1].
      destruct (Hr a eq_refl) as (Hl & o & Ho & Eh). apply wp_bind. eapply wp_out; [exact Ho|].
      rewrite Eo in Ho. rewrite El in Hl. pose proof (patch_stream s p a o handle Ep Hp Hl Ho Eh) as Hk. rewrite <- Eo in Ho.
      case_if; [by destruct (handle =? AUDIO_PATCH_HANDLE_NONE); [|congruence]|].
      pose proof (patch_out_ok own a o (k :: sinks) (if handle =? AUDIO_PATCH_HANDLE_NONE then next_patch_handle s1 else handle) s1 Hi1 Ho Hh1 ltac:(lia)) as H.
      revert H. unfold wp, bind, ret. destruct (lock_out a s1) as [[? s2]|]; [|done]. destruct (upd_out _ _ s2) as [[? s3]|]; [|done].
      destruct (set_patch_devices _ _ s3) as [[? s4]|]; [|done]. destruct (select_devices _ _ s4) as [[? s5]|]; [|done].
      destruct (unlock _ s5) as [[? s6]|]; [|done]. by destruct (upd_out _ _ s6) as [[? s7]|].
    - done. }
  intros r s2 [Hi2 Hh2]. apply wp_bind. eapply wp_unlock_top; [exact Hh2|apply not_held_nil|]. apply wp_ret. split; [by split|done].
Qed.

Lemma release_patch_ok handle (s : hal) : rest s -> wp (adev_release_audio_patch handle) (fun _ s' => rest s') s.
Proof.
  intros [[own Hi] Hh]. apply wp_bind, wp_lock; [rewrite Hh; apply not_held_nil|]. rewrite Hh. set (sl := set_held _ _).
  apply wp_bind, wp_bind, wp_get, (wp_find_out own o_patch_handle handle sl); [exact Hi|]. intros [a|] Hr.
  - destruct (Hr a eq_refl) as (_ & o & Ho & _). destruct (inv_out own a o s Hi Ho) as (Hok & P1 & P2 & P3).
    apply wp_bind. eapply wp_lock_out; [exact Ho|by apply not_held_one|]. apply wp_bind. eapply wp_upd_out; [exact Ho|].
    apply wp_bind. eapply wp_unlock_top; [reflexivity|by apply not_held_one|]. apply wp_bind. eapply wp_upd_out; [apply lookup_insert_eq|].
    apply wp_bind. eapply wp_unlock_top; [reflexivity|apply not_held_nil|]. apply wp_ret. split; [|done]. exists own.
    cbn [outs set_held set_trace set_outs]. rewrite insert_insert, decide_True by done. eapply (inv_member own a o _ s); try done.
    destruct Hok. split; try done. cbn. by rewrite length_replicate.
  - apply wp_bind, wp_bind, wp_get, (wp_find_in own i_patch_handle handle sl); [exact Hi|]. intros [a|] Hr'.
    + destruct (Hr' a eq_refl) as (i & Ho & _). destruct (inv_in own a i s Hi Ho) as (Hok & P1).
      apply wp_bind. eapply wp_lock_in; [exact Ho|by apply not_held_one|]. apply wp_bind. eapply wp_upd_in; [exact Ho|].
      apply wp_bind. eapply wp_unlock_top; [reflexivity|by apply not_held_one|]. apply wp_bind. eapply wp_upd_in; [apply lookup_insert_eq|].
      apply wp_bind. eapply wp_unlock_top; [reflexivity|apply not_held_nil|]. apply wp_ret. split; [|done]. exists own.
      cbn [ins set_held set_trace set_ins]. rewrite insert_insert, decide_True by done. eapply (inv_member_in own a i _ s); try done. same_ok.
    + apply wp_bind. eapply wp_unlock_top; [reflexivity|apply not_held_nil|]. apply wp_ret. split; [by exists own|done].
Qed.

(** An effect is taken away from a stream that has none. *)
Lemma remove_effect_ok a e (s : hal) : rest s -> is_Some (ins s !! a) -> wp (in_remove_audio_effect a e) (fun _ s' => rest s') s.
Proof.
  intros [[own Hi] Hh] [i Ho]. destruct (inv_in own a i s Hi Ho) as (Hok & _). apply wp_bind. eapply wp_inp; [exact Ho|].
  apply wp_bind, wp_lock; [rewrite Hh; apply not_held_nil|]. rewrite Hh.
  apply wp_bind. eapply wp_lock_in; [exact Ho|by apply not_held_one|]. apply wp_bind. eapply wp_inp; [exact Ho|].
  rewrite (io_effects _ Hok). apply wp_bind, wp_ret. apply wp_bind. eapply wp_unlock_top; [reflexivity|by apply not_held_one|].
  apply wp_bind. eapply wp_unlock_top; [reflexivity|apply not_held_nil|]. apply wp_ret. split; [by exists own|done].
Qed.

(** An effect that does not describe itself is not added. *)
Lemma add_effect_ok a e (s : hal) : rest s -> is_Some (ins s !! a) -> (descriptor e).1 <> 0 -> wp (in_add_audio_effect a e) (fun _ s' => rest s') s.
Proof.
  intros [[own Hi] Hh] [i Ho] He. destruct (inv_in own a i s Hi Ho) as (Hok & _). apply wp_bind. eapply wp_inp; [exact Ho|].
  apply wp_bind, wp_lock; [rewrite Hh; apply not_held_nil|]. rewrite Hh.
  apply wp_bind. eapply wp_lock_in; [exact Ho|by apply not_held_one|]. apply wp_bind. eapply wp_inp; [exact Ho|].
  rewrite (io_effects _ Hok). destruct (descriptor e) as [status aec]. rewrite (proj2 (Z.eqb_neq status 0)) by done.
  apply wp_bind, wp_ret. apply wp_bind. eapply wp_unlock_top; [reflexivity|by apply not_held_one|].
  apply wp_bind. eapply wp_unlock_top; [reflexivity|apply not_held_nil|]. apply wp_ret. split; [by exists own|done].
Qed.

(** ** Requests *)

(** The requests that are safe in a state: streams are there; output streams have
    frames of two samples at least, and input streams at least 100 frames in a
    second; devices are numbers; parameters of the device need an active output
    stream; the handle of a patch is that of its stream; and no effect is added
    that describes itself, so that input is read without effects.  The conditions
    on output streams, on parameters and on patches are there because the code
    fails without them: see [AudioSpec.unsafe_requests]. *)
Definition request_ok (s : hal) (r : request) : bool :=
  match r with
  | Open_output handle devices flags format rt mask =>
      match out_defaults devices format rt mask s with Some ((f, _, m, _), _) => format_ok m f | None => false end
  | Close_output a | Write a _ | Out_standby a | Out_position a => bool_decide (is_Some (outs s !! a))
  | Out_set_parameters a routing => bool_decide (is_Some (outs s !! a)) && number routing
  | Open_input handle devices format rt mask source => source_ok mask rt source
  | Close_input a | Read a _ | In_standby a | In_position a | Remove_effect a _ => bool_decide (is_Some (ins s !! a))
  | In_set_parameters a routing => bool_decide (is_Some (ins s !! a)) && number routing
  | Add_effect a e => bool_decide (is_Some (ins s !! a)) && negb ((descriptor e).1 =? 0)
  | Set_parameters routing => number routing && (bool_decide (routing = None) || negb (active_output s =? NULL))
  | Set_mode m => true
  | Set_mic_mute b => true
  | Create_patch sources sinks handle => patch_ok s sources handle
  | Release_patch handle => true
  end.

Lemma wp_ignore {A} (m : HM A) Q (s : hal) : wp m (fun _ => Q tt) s -> wp (ignore m) Q s.
Proof. intros H. apply wp_bind. eapply wp_mono; [exact H|]. intros a s' HQ. by apply wp_ret. Qed.

Lemma handle_request_ok r (s : hal) : rest s -> request_ok s r = true -> wp (handle_request r) (fun _ s' => rest s') s.
Proof.
  intros Hr Hok. pose proof Hr as [Hi Hh].
  assert (forall (m : HM Z), wp m (fun _ s' => inv s' /\ keep s s') s -> wp (ignore m) (fun _ s' => rest s') s) as Hkeep.
  { intros m H. apply wp_ignore. eapply wp_mono; [exact H|]. intros z s' H'. by eapply rest_keep. }
  destruct r; cbn [request_ok handle_request] in *; try (apply bool_decide_eq_true in Hok as Ha; destruct Ha as [x Hx]);
    try (apply andb_true_iff in Hok as [Ha Hn]; apply bool_decide_eq_true in Ha as [x Hx]).
  - apply wp_ignore. eapply wp_mono; [apply open_output_ok; [done|]|by intros ? ? []].
    destruct (out_defaults _ _ _ _ s) as [[[[[f ?] m] ?] ?]|]; [done|discriminate Hok].
  - by apply close_output_ok.
  - apply wp_ignore. eapply wp_mono; [by apply (out_write_ok a x)|]. intros z s' H. by eapply rest_keep.
  - by apply Hkeep, (out_standby_ok a x).
  - by apply Hkeep, (out_set_parameters_ok a x).
  - apply wp_ignore. eapply wp_mono; [by apply (out_position_ok a x)|]. intros z s' H. by eapply rest_keep.
  - apply wp_ignore. eapply wp_mono; [by apply open_input_ok|by intros ? ? []].
  - by apply close_input_ok.
  - apply wp_ignore. eapply wp_mono; [by apply (in_read_ok a x)|]. intros z s' H. by eapply rest_keep.
  - by apply Hkeep, (in_standby_ok a x).
  - by apply Hkeep, (in_set_parameters_ok a x).
  - apply wp_ignore. eapply wp_mono; [by apply (in_position_ok a x)|]. intros z s' H. by eapply rest_keep.
  - apply wp_ignore, add_effect_ok; [done|by eexists|]. intros E. by rewrite E in Hn.
  - by apply wp_ignore, remove_effect_ok.
  - apply andb_true_iff in Hok as [Hn Ha]. apply Hkeep, adev_set_parameters_ok; [done|done|done|].
    apply orb_true_iff in Ha as [Ha%bool_decide_eq_true|Ha]; [by left|right]. intros E. by rewrite E in Ha.
  - by apply wp_ignore, set_mode_ok.
  - by apply wp_ignore, set_mic_mute_ok.
  - apply wp_ignore. eapply wp_mono; [by apply create_patch_ok|by intros ? ? []].
  - by apply wp_ignore, release_patch_ok.
Qed.

(** Every request is allowed in the state that it meets. *)
Fixpoint allowed (l : list request) (s : hal) : bool :=
  match l with
  | [] => true
  | r :: l => request_ok s r && match handle_request r s with Some (_, s') => allowed l s' | None => true end
  end.

Lemma handle_requests_ok l : forall s : hal, rest s -> allowed l s = true -> wp (handle_requests l) (fun _ s' => rest s') s.
Proof.
  induction l as [|r l IH]; intros s Hr Ha; [by apply wp_ret|]. apply andb_true_iff in Ha as [Hok Ha]. apply wp_bind.
  pose proof (handle_request_ok r s Hr Hok) as H. unfold wp in H |- *. destruct (handle_request r s) as [[[] s']|]; [|done].
  by apply IH.
Qed.

(** ** The start *)

Definition first_platform (i : @platform_info F) (use_case : Z) : platform :=
  mkPlatform i 0 0 (replicate NUM_BACKEND None) (replicate NUM_BACKEND None) use_case ∅ 1 [].

Lemma adev_open_ok i use_case : platform_ok (first_platform i use_case) -> exists s, adev_open i use_case = Some s /\ rest s.
Proof.
  intros Hp. destruct (find_profile_run hdr OUT_SPK (bytes "OUT_SPK") _ (pl_info _ Hp) (pl_named _ Hp) eq_refl) as (x & Ex & _).
  assert (exists z, get_platform_snd_card_config OUT_SPK (first_platform i use_case) = Some (z, first_platform i use_case)) as [z E].
  { unfold get_platform_snd_card_config, bind. rewrite Ex. destruct x as [[n q]|]; by eexists. }
  unfold adev_open, platform_init. fold (first_platform i use_case). rewrite E. destruct z as [r c]. eexists. split; [reflexivity|].
  split; [|done]. exists ∅. split; cbn; try (by left); try done.
  - split; [done|]. exists ∅. split; cbn; try done.
    + intros h. by rewrite !lookup_empty.
    + intros h. rewrite lookup_empty. by intros [].
    + intros d. exists []. split; [|intros h; rewrite lookup_empty; split; [done|by intros ?%not_elem_of_nil]].
      destruct d; cbn; [..|done]; (split; [done|]); (split; [done|]); (split; [lia|constructor]).
  - intros a. rewrite lookup_empty. split; [by intros ?%not_elem_of_nil|by intros []].
  - intros a. rewrite lookup_empty. split; [by intros ?%not_elem_of_nil|by intros []].
  - split; try done. intros b. rewrite lookup_empty. by intros [].
Qed.

(** ** What a reachable state is like *)

Lemma in_backs d (p : platform) hs h : filled d p hs -> h ∈ hs -> Some h ∈ out_backends p ++ in_backends p.
Proof.
  intros Hf Hh. destruct d; cbn [filled backs] in Hf; [| |by subst hs; apply not_elem_of_nil in Hh].
  all: destruct Hf as (E & _); rewrite E, !elem_of_app; apply (list_elem_of_fmap_2 Some) in Hh; auto.
Qed.

(** Every open handle belongs to a stream that is not in standby, or is a back end. *)
Definition accounted (s : hal) : Prop := forall h, is_Some (open_pcms (plat s) !! h) ->
  (exists a o, outs s !! a = Some o /\ o_pcm o = h /\ o_standby o = false) \/
  (exists a i, ins s !! a = Some i /\ i_pcm i = h /\ i_standby i = false) \/
  Some h ∈ out_backends (plat s) ++ in_backends (plat s).

Lemma inv_accounted (s : hal) : inv s -> accounted s.
Proof.
  intros [own Hi] h Hh. destruct (iv_plat _ _ _ _ _ _ _ _ _ _ _ Hi) as [_ [ow Hok]].
  destruct (proj2 (pc_dom _ _ _ _ Hok h) Hh) as [w Hw]. destruct (owned_live _ _ _ _ _ _ Hok Hw) as [Hn Hd]. destruct w as [a|a|d].
  - left. destruct (pc_out _ _ _ _ Hok _ _ Hw) as [b E]. pose proof E as E'. apply fmap_Some in E as (o & Ho & [= -> ->]).
    exists a, o. split; [done|]. split; [done|]. by destruct (pc_outs _ _ _ _ Hok _ _ _ E') as [?|[?|[_ ?]]].
  - right. left. destruct (pc_in _ _ _ _ Hok _ _ Hw) as [b E]. pose proof E as E'. apply fmap_Some in E as (i & Ho & [= -> ->]).
    exists a, i. split; [done|]. split; [done|]. by destruct (pc_ins _ _ _ _ Hok _ _ _ E') as [?|[?|[_ ?]]].
  - right. right. destruct (pc_slots _ _ _ _ Hok d) as (hs & Hf & Hs). eapply in_backs; [exact Hf|]. by apply Hs.
Qed.

(** The lists and the active streams are streams that exist. *)
Definition listed (s : hal) : Prop :=
  (forall a, a ∈ out_streams s <-> is_Some (outs s !! a)) /\ (forall a, a ∈ in_streams s <-> is_Some (ins s !! a)) /\
  (active_output s = NULL \/ active_output s ∈ out_streams s) /\ (active_input s = NULL \/ active_input s ∈ in_streams s).

Lemma inv_listed (s : hal) : inv s -> listed s.
Proof.
  intros [own [H1 H2 H3 H4 H5 H6 H7 H8 H9]]. split; [done|]. split; [done|]. rewrite H4, H5. by split.
Qed.


End main.

(** ** An instance *)

(** The third stream does not open; what is read is always 5. *)
#[export] Instance some_pcm : PcmLib := {|
  ready := fun h => negb (h =? 3); bad_pcm := fun h => h =? 3; write_result := fun _ t => if (t =? 2)%nat then -5 else 0;
  read_result := fun _ _ n => (0, replicate (Z.to_nat n) 5); htimestamp := fun _ _ => Some (10, 77); buffer_size := fun _ => 960
|}.

(** The same library with memory: the device of the third stream does not open. *)
Definition heap_pcm : PcmLib := {|
  ready := fun h => negb (h =? 3); bad_pcm := fun _ => false; write_result := @write_result some_pcm;
  read_result := @read_result some_pcm; htimestamp := @htimestamp some_pcm; buffer_size := @buffer_size some_pcm
|}.

#[export] Instance some_effects : Effects := {|
  eq_create_ok := true; eq_process := fun _ l => l; create_echo_ok := fun _ => true; echo_read := fun _ n => Some (replicate (Z.to_nat n) 1);
  descriptor := fun e => (0, e =? 9); process := fun _ _ l room => (Z.of_nat (length l) / 2, l); process_reverse := fun _ => None
|}.

#[export] Instance some_env : AudioEnv Z := {|
  dump_out := true; dump_in := true; dump_opens := true; eq_enabled := true;
  eq_conf := Some [bytes "channels=2 # set"; bytes "enabled=1"; bytes "bin_num=2"; bytes "samplerate=44100"; bytes "params=1 800 3 0.9"];
  scan_float := fun _ => Some 1
|}.

#[export] Instance some_android : AndroidAudio := {|
  hdr := android; channel_count_out := fun m => if m =? 3 then 2 else 1; channel_count_in := fun _ => 2;
  frame_size_out := fun m _ => if m =? 3 then 4 else 2; frame_size_in := fun _ _ => 4
|}.

#[export] Instance some_laws : AudioLaws.
Proof.
  split; [| |done|].
  - intros h. cbn. by destruct (h =? 3); [right|left].
  - intros h t n Hn. apply length_replicate.
  - intros lines [= <-]. by vm_compute.
Qed.

Definition full_card : card_config := mkCard (Some 0) (Some 0) (Some 2) (Some 48000) (Some 960) (Some 2).

(** One profile for all devices, and a path for each. *)
Definition some_profile : pdev_profile :=
  mkProfile (Some (bytes "OUT_SPK,OUT_HP,IN_AMIC,APH_SPK,IN_APH_REC")) full_card [full_card; zero_card] 1 [full_card; full_card] 2.
Definition some_info : @platform_info Z :=
  set_path (replicate (Z.to_nat NUM_PLATFORM_DEVICE) (Some (bytes "path"))) (with_profiles [some_profile] info0).

Lemma some_mapped pdev : 0 <= pdev < NUM_PLATFORM_DEVICE -> is_Some (pdev2str pdev) -> mapped (first_platform some_info 0) pdev.
Proof.
  intros Hp Hs. split; [done|]. exists (bytes "path"). split; [|by vm_compute]. unfold aget. rewrite (proj2 (Z.leb_le _ _)) by lia.
  apply lookup_replicate_2. lia.
Qed.

Lemma phone_range devices uc : exists d, get_platform_phone_device hdr devices uc = d /\ 0 <= d < NUM_PLATFORM_DEVICE /\ is_Some (pdev2str d).
Proof.
  unfold get_platform_phone_device. repeat destruct (any _ _); (eexists; split; [reflexivity|]); (split; [by vm_compute|by eexists]).
Qed.

Lemma some_platform_ok : platform_ok (first_platform some_info 0).
Proof.
  assert (info_ok hdr (with_profiles [some_profile] (@info0 Z))) as Hi.
  { apply with_profiles_ok; [vm_compute; lia|]. repeat constructor; vm_compute; try done; lia. }
  split.
  - destruct Hi. split; try done.
  - apply (with_profiles_named (F:=Z) [some_profile]). by repeat constructor.
  - intros n q Hq%(with_profiles_lookup (F:=Z) [some_profile] info0 n q). destruct n as [|n]; [|done]. injection Hq as <-.
    exists 2, 48000, 960, 2. by vm_compute.
  - intros m d. destruct (device_choice hdr m d 0) as (_ & _ & Hr & Hn). by apply some_mapped.
  - intros d. destruct (phone_range d (uc (first_platform some_info 0))) as (x & -> & Hr & Hn). by apply some_mapped.
Qed.

(** A stream is played to, on a handle that did not open, until it fails, and again;
    another one is recorded from. *)
Definition some_requests : list request :=
  [Open_output 5 2 0 0 48000 3; Write 1 [100; 300; -5; 4]; Write 1 [7; 8]; Write 1 [9; 9]; Write 1 [1; 2]; Out_position 1; Set_mode 3;
   Open_input 6 (2 ^ 31 + 4) 0 48000 12 0; Read 20 [0; 0; 0; 0]; In_standby 20; Close_output 1; Close_input 20].

(** A start that fails closes its stream and keeps the handle; [out_write] does not
    look at the result, and writes to the freed block. *)
Lemma failed_start_used : exists s0 s s1, adev_open some_info 0 = Some s0 /\
  handle_requests (PL := heap_pcm) (take 1 some_requests) s0 = Some (tt, s) /\
  (upd_out 1 (set_o_standby false) ;;; start_output_stream (PL := heap_pcm) 1) s = Some (-12, s1) /\
  handle_request (PL := heap_pcm) (Write 1 [100; 300]) s = None.
Proof.
  do 3 eexists. split; [by vm_compute|]. split; [by vm_compute|]. split; by vm_compute.
Qed.


End AudioMain.
