(* ===== verification/AudioLocks.v ===== *)
(** * The locks of the audio HAL, by threads

    Android calls a stream and the device from several threads.  A call's locks
    are its [trace]; [lock_step] interleaves the traces of threads.  Calls that
    take the lock of a stream before that of the device get on; routing takes
    them the other way round. *)

From stdpp Require Import base tactics option list list_numbers numbers gmap relations.
From Stdlib Require Import ZArith Lia.
From Stdlib Require String.
From S2P Require Import Prelude CString AudioPlat AudioRoute AudioThm AudioOut AudioIn AudioDev AudioSafe AudioReq AudioRun AudioRead AudioMain.

Import String.StringSyntax.
Import CString AudioPlat AudioRoute AudioThm AudioOut AudioIn AudioDev AudioSafe AudioReq AudioRun AudioRead AudioMain.

Local Open Scope Z_scope.
Local Open Scope list_scope.
Local Open Scope c_scope.

Module AudioLocks.

(** ** Threads *)

(** The locks that a thread holds, and what it still does. *)
Definition thread : Type := list lock_name * list lock_action.

Inductive lock_step : list thread -> list thread -> Prop :=
| step_lock i ts h l t : ts !! i = Some (h, Lock l :: t) -> (forall th, th ∈ ts -> l ∉ th.1) ->
    lock_step ts (<[i := (l :: h, t)]> ts)
| step_unlock i ts h l t : ts !! i = Some (h, Unlock l :: t) -> l ∈ h ->
    lock_step ts (<[i := (filter (fun x => x <> l) h, t)]> ts).

Definition finished (ts : list thread) : Prop := forall th, th ∈ ts -> th.2 = [].

(** A stream's lock may be taken first, and the device's after it or alone. *)
Definition may_lock (h : list lock_name) (l : lock_name) : bool :=
  match h with [] => true | [k] => negb (bool_decide (k = L_adev)) && bool_decide (l = L_adev) | _ => false end.

(** The locks that are held after some actions that keep this order. *)
Fixpoint replay (h : list lock_name) (t : list lock_action) : option (list lock_name) :=
  match t with
  | [] => Some h
  | Lock l :: t => if may_lock h l then replay (l :: h) t else None
  | Unlock l :: t => if bool_decide (l ∈ h) then replay (filter (fun x => x <> l) h) t else None
  end.

Lemma replay_app t t' : forall h, replay h (t ++ t') = (k ← replay h t; replay k t').
Proof.
  induction t as [|[l|l] t IH]; intros h; cbn; [done|..].
  - destruct (may_lock h l); [apply IH|done].
  - destruct (bool_decide _); [apply IH|done].
Qed.

(** Threads that keep the order. *)
Definition ordered (ts : list thread) : Prop := forall th, th ∈ ts -> replay th.1 th.2 = Some [].

Lemma ordered_step ts ts' : lock_step ts ts' -> ordered ts -> ordered ts'.
Proof.
  intros Hs Ho th Hth. destruct Hs as [i ts h l t Hi Hl|i ts h l t Hi Hl].
  - apply list_elem_of_lookup in Hth as [j Hj]. destruct (decide (i = j)) as [<-|Hne].
    + rewrite list_lookup_insert_eq in Hj by (by eapply lookup_lt_Some). injection Hj as <-.
      specialize (Ho (h, Lock l :: t) (list_elem_of_lookup_2 _ _ _ Hi)). cbn in *. by destruct (may_lock h l).
    + rewrite list_lookup_insert_ne in Hj by done. apply Ho. by eapply list_elem_of_lookup_2.
  - apply list_elem_of_lookup in Hth as [j Hj]. destruct (decide (i = j)) as [<-|Hne].
    + rewrite list_lookup_insert_eq in Hj by (by eapply lookup_lt_Some). injection Hj as <-.
      specialize (Ho (h, Unlock l :: t) (list_elem_of_lookup_2 _ _ _ Hi)). cbn in *. by rewrite bool_decide_eq_true_2 in Ho.
    + rewrite list_lookup_insert_ne in Hj by done. apply Ho. by eapply list_elem_of_lookup_2.
Qed.

(** A thread that holds the lock of the device gives a lock back next. *)
Lemma adev_unlocks h t : L_adev ∈ h -> replay h t = Some [] -> exists l t', t = Unlock l :: t' /\ l ∈ h.
Proof.
  intros Ha Hr. destruct t as [|[l|l] t]; cbn in Hr; [injection Hr as ->; by apply not_elem_of_nil in Ha| |].
  - destruct h as [|k [|]]; cbn in Hr; [by apply not_elem_of_nil in Ha| |done]. apply list_elem_of_singleton in Ha as <-. done.
  - exists l, t. split; [done|]. by destruct (bool_decide_reflect (l ∈ h)).
Qed.

(** Threads that keep the order do not block each other. *)
Lemma ordered_progress ts : ordered ts -> finished ts \/ exists ts', lock_step ts ts'.
Proof.
  intros Ho. destruct (decide (Exists (fun th : thread => L_adev ∈ th.1) ts)) as [Ha|Ha].
  { apply Exists_exists in Ha as ([h t] & Hth & Ha). destruct (adev_unlocks h t Ha (Ho _ Hth)) as (l & t' & -> & Hl).
    apply list_elem_of_lookup in Hth as [i Hi]. right. eexists. by eapply step_unlock. }
  assert (forall th, th ∈ ts -> L_adev ∉ th.1) as Hfree by (intros th Hth Hl; apply Ha, Exists_exists; by exists th).
  destruct (decide (Exists (fun th : thread => th.1 <> []) ts)) as [Hh|Hh].
  - apply Exists_exists in Hh as ([h t] & Hth & Hh). pose proof (Ho _ Hth) as Hr. apply list_elem_of_lookup in Hth as [i Hi]. right.
    destruct t as [|[l|l] t]; cbn in *; [by injection Hr as ->|..].
    + destruct h as [|k [|]]; cbn in Hr; [done| |done]. destruct (bool_decide_reflect (l = L_adev)) as [->|]; [|by rewrite andb_false_r in Hr].
      eexists. by eapply step_lock.
    + eexists. eapply step_unlock; [exact Hi|]. by destruct (bool_decide_reflect (l ∈ h)).
  - assert (forall th, th ∈ ts -> th.1 = []) as Hnone.
    { intros th Hth. destruct (decide (th.1 = [])) as [?|Hne]; [done|]. destruct Hh. apply Exists_exists. by exists th. }
    destruct (decide (Exists (fun th : thread => th.2 <> []) ts)) as [Ht|Ht].
    + right. apply Exists_exists in Ht as ([h t] & Hth & Ht). pose proof (Ho _ Hth) as Hr. specialize (Hnone _ Hth) as Hn. cbn in Hn. subst h.
      apply list_elem_of_lookup in Hth as [i Hi]. destruct t as [|[l|l] t]; [done| |done].
      eexists. eapply step_lock; [exact Hi|]. intros th Hth. rewrite (Hnone th Hth). apply not_elem_of_nil.
    + left. intros th Hth. destruct (decide (th.2 = [])) as [?|Hne]; [done|]. destruct Ht. apply Exists_exists. by exists th.
Qed.

Lemma ordered_run ts ts' : rtc lock_step ts ts' -> ordered ts -> ordered ts'.
Proof. induction 1; [done|]. eauto using ordered_step. Qed.

(** What is left to do gets less. *)
Fixpoint todo (ts : list thread) : nat := match ts with [] => 0 | th :: ts => (length th.2 + todo ts)%nat end.

Lemma todo_insert i (ts : list thread) (th th' : thread) : ts !! i = Some th -> (length th'.2 < length th.2)%nat -> (todo (<[i := th']> ts) < todo ts)%nat.
Proof.
  revert i. induction ts as [|x ts IH]; intros [|i] Hi Hl; cbn in *; [done|done|injection Hi as ->; lia|].
  apply Nat.add_lt_mono_l, (IH i Hi Hl).
Qed.

Lemma todo_step ts ts' : lock_step ts ts' -> (todo ts' < todo ts)%nat.
Proof. intros [i ts0 h l t Hi _|i ts0 h l t Hi _]; (eapply todo_insert; [exact Hi|]); cbn; lia. Qed.

Lemma ordered_finish ts : ordered ts -> exists tf, rtc lock_step ts tf /\ finished tf.
Proof.
  remember (todo ts) as n eqn:En. revert ts En. induction n as [n IH] using lt_wf_ind. intros ts -> Ho.
  destruct (ordered_progress ts Ho) as [Hf|[ts' Hs]]; [by exists ts|].
  destruct (IH _ (todo_step _ _ Hs) ts' eq_refl) as (tf & Hr & Hf); [by eapply ordered_step|].
  exists tf. split; [by eapply rtc_l|done].
Qed.

(** ** The locks of the operations *)

Section locks.
Context {F : Type} {PL : PcmLib} {EF : Effects} {EN : AudioEnv F} {AN : AndroidAudio}.

Local Abbreviation hal := (@AudioOut.hal F).
Local Abbreviation HM := (M hal).

(** Without locks. *)
Definition nolocks {A} (m : HM A) : Prop := forall s x s', m s = Some (x, s') -> trace s' = trace s /\ held s' = held s.

Lemma nolocks_ret {A} (x : A) : nolocks (ret x).
Proof. by intros s ? ? [= _ <-]. Qed.
Lemma nolocks_get : nolocks get.
Proof. by intros s ? ? [= _ <-]. Qed.
Lemma nolocks_stuck {A} : nolocks (@stuck hal A).
Proof. done. Qed.
Lemma nolocks_bind {A B} (m : HM A) (k : A -> HM B) : nolocks m -> (forall x, nolocks (k x)) -> nolocks (bind m k).
Proof.
  intros Hm Hk s x s'. unfold bind. destruct (m s) as [[y s1]|] eqn:E; [|done]. intros E'.
  apply Hm in E as [<- <-]. by eapply Hk.
Qed.
Lemma nolocks_modify f : (forall s, trace (f s) = trace s /\ held (f s) = held s) -> nolocks (modify f).
Proof. intros H s ? ? [= _ <-]. apply H. Qed.
Lemma nolocks_plat {A} (m : M (@AudioRoute.platform F) A) : nolocks (on_plat m).
Proof. intros s x s'. unfold on_plat. destruct (m (plat s)) as [[? ?]|]; [|done]. by intros [= _ <-]. Qed.
Lemma nolocks_out a : nolocks (out a).
Proof. intros s x s'. unfold out. destruct (outs s !! a); [|done]. by intros [= _ <-]. Qed.
Lemma nolocks_upd_out a f : nolocks (upd_out a f).
Proof. intros s x s'. unfold upd_out. destruct (outs s !! a); [|done]. by intros [= _ <-]. Qed.
Lemma nolocks_inp a : nolocks (inp a).
Proof. intros s x s'. unfold inp. destruct (ins s !! a); [|done]. by intros [= _ <-]. Qed.
Lemma nolocks_upd_in a f : nolocks (upd_in a f).
Proof. intros s x s'. unfold upd_in. destruct (ins s !! a); [|done]. by intros [= _ <-]. Qed.
Lemma nolocks_alloc r : nolocks (alloc r).
Proof. by intros s ? ? [= _ <-]. Qed.
Lemma nolocks_free a : nolocks (free a).
Proof. intros s x s'. unfold free. destruct (resources s !! a); [|done]. by intros [= _ <-]. Qed.
Lemma nolocks_use a : nolocks (use a).
Proof. intros s x s'. unfold use. destruct (resources s !! a); [|done]. by intros [= _ <-]. Qed.
Lemma nolocks_close h : nolocks (close_stream h).
Proof. intros s x s'. unfold close_stream. destruct (usable h s); [|done]. by intros [= _ <-]. Qed.
Lemma nolocks_stream {A} h (f : nat -> A) : nolocks (with_stream h f).
Proof. intros s x s'. unfold with_stream. destruct (usable h s); [|done]. by intros [= _ <-]. Qed.

Lemma nolocks_htimestamp h : nolocks (pcm_get_htimestamp h).
Proof. apply nolocks_stream. Qed.

#[local] Hint Resolve nolocks_htimestamp nolocks_ret nolocks_get nolocks_stuck nolocks_plat nolocks_out nolocks_upd_out nolocks_inp nolocks_upd_in nolocks_alloc nolocks_free nolocks_use
  nolocks_close nolocks_stream : nolocks.

Ltac nolocks :=
  repeat (unfold event_process, copy_path, card_config_for, init_dump_flags, debug_dump_data, pcm_write, pcm_get_htimestamp, divide,
    get_playback_delay, echo_write, open_stream, release; cbv zeta;
    lazymatch goal with
    | |- nolocks (bind _ _) => apply nolocks_bind; [|intros ?]
    | |- nolocks (modify _) => by apply nolocks_modify
    | |- nolocks (if ?b then _ else _) => destruct b
    | |- nolocks (match ?x with _ => _ end) => destruct x
    end); eauto with nolocks.

Lemma nolocks_select od id : nolocks (select_devices od id).
Proof. unfold select_devices. nolocks. Qed.

Lemma nolocks_band a idx c : nolocks (set_band a idx c).
Proof. unfold set_band. nolocks. Qed.
#[local] Hint Resolve nolocks_select nolocks_band : nolocks.

Lemma nolocks_lines a lines : forall idx line, nolocks (eq_lines a lines idx line).
Proof. induction lines as [|l lines IH]; intros idx line; cbn [eq_lines]; nolocks. Qed.
#[local] Hint Resolve nolocks_lines : nolocks.

Lemma nolocks_start a : nolocks (start_output_stream a).
Proof. unfold start_output_stream, create_equalizer. nolocks. Qed.

Lemma nolocks_standby a : nolocks (do_out_standby a).
Proof. unfold do_out_standby. nolocks. Qed.
#[local] Hint Resolve nolocks_start nolocks_standby : nolocks.

(** The locks of all calls so far keep the order, and [h] are held. *)
Definition at_locks (h : list lock_name) (s : hal) : Prop := held s = h /\ replay [] (trace s) = Some h.

Lemma at_nolocks {A} (m : HM A) h Q s : nolocks m -> at_locks h s -> (forall x s', at_locks h s' -> Q x s') -> wlp m Q s.
Proof. intros Hm [H1 H2] HQ x s' E. apply Hm in E as [E1 E2]. apply HQ. split; [by rewrite E2|by rewrite E1]. Qed.

Lemma at_lock l h Q s : at_locks h s -> may_lock h l = true -> (forall s', at_locks (l :: h) s' -> Q tt s') -> wlp (lock l) Q s.
Proof.
  intros [H1 H2] Hm HQ x s'. unfold lock. destruct (bool_decide _); [done|]. intros [= <- <-]. apply HQ. split; [cbn; by rewrite H1|].
  cbn [trace set_held set_trace]. rewrite replay_app, H2. cbn. by rewrite Hm.
Qed.

Lemma at_unlock l h Q s : at_locks (l :: h) s -> l ∉ h -> (forall s', at_locks h s' -> Q tt s') -> wlp (unlock l) Q s.
Proof.
  intros [H1 H2] Hl HQ x s'. unfold unlock. rewrite H1, bool_decide_eq_true_2 by (by left). intros [= <- <-]. apply HQ.
  assert (filter (fun x => x <> l) (l :: h) = h) as Ef by (rewrite filter_cons_False by (intros H; by apply H); by apply filter_notin).
  split; [exact Ef|]. cbn [trace set_held set_trace]. rewrite replay_app, H2. cbn [option_bind mbind replay].
  rewrite bool_decide_eq_true_2 by (by left). by rewrite Ef.
Qed.

Lemma at_lock_out a Q s : at_locks [] s -> (forall s', at_locks [L_out a] s' -> Q tt s') -> wlp (lock_out a) Q s.
Proof. intros H HQ. apply wlp_bind. eapply at_nolocks; [apply nolocks_out|exact H|]. intros x s1 H1. by eapply at_lock. Qed.

Lemma at_lock_in a Q s : at_locks [] s -> (forall s', at_locks [L_in a] s' -> Q tt s') -> wlp (lock_in a) Q s.
Proof. intros H HQ. apply wlp_bind. eapply at_nolocks; [apply nolocks_inp|exact H|]. intros x s1 H1. by eapply at_lock. Qed.

(** Through a call: its locks, and what is between them. *)
Ltac order :=
  repeat (cbv zeta;
    lazymatch goal with
    | |- wlp (bind (lock _) _) _ _ => apply wlp_bind; eapply at_lock; [eassumption|reflexivity|intros ? ?]
    | |- wlp (bind (lock_out _) _) _ _ => apply wlp_bind; eapply at_lock_out; [eassumption|intros ? ?]
    | |- wlp (bind (lock_in _) _) _ _ => apply wlp_bind; eapply at_lock_in; [eassumption|intros ? ?]
    | |- wlp (bind (unlock _) _) _ _ => apply wlp_bind; eapply at_unlock; [eassumption|first [apply not_held_nil|by apply not_held_one]|intros ? ?]
    | |- wlp (bind _ _) _ _ => apply wlp_bind; eapply at_nolocks; [solve [nolocks]|eassumption|intros ? ? ?]
    | |- wlp (ret _) _ _ => apply wlp_ret
    end); try eassumption.

Lemma order_standby a s : at_locks [] s -> wlp (out_standby a) (fun _ s' => at_locks [] s') s.
Proof. intros H. unfold out_standby. order. Qed.

Lemma order_write a buffer s : at_locks [] s -> wlp (out_write a buffer) (fun _ s' => at_locks [] s') s.
Proof.
  intros H. unfold out_write. order. apply wlp_bind. eapply (wlp_mono _ (fun _ s' => at_locks [L_out a] s')).
  { case_match; order. }
  intros ? ? ?. order. case_match. order. apply wlp_bind. case_match; [|order].
  apply wlp_bind. eapply wlp_mono; [by apply order_standby|]. intros ? ? Hs. cbv beta in Hs. order.
Qed.

(** Calls that take the lock of the device last. *)
Definition stream_first (r : request) : bool :=
  match r with
  | Open_output _ _ _ _ _ _ | Close_output _ | Write _ _ | Out_standby _ | Out_position _ | Open_input _ _ _ _ _ _ | In_position _
  | In_set_parameters _ _ | Set_mode _ | Set_mic_mute _ => true
  | _ => false
  end.

Lemma nolocks_new_out o : nolocks (new_out o).
Proof. by intros s ? ? [= _ <-]. Qed.
Lemma nolocks_new_in i : nolocks (new_in i).
Proof. by intros s ? ? [= _ <-]. Qed.
Lemma nolocks_defaults devices format rt mask : nolocks (out_defaults devices format rt mask).
Proof. unfold out_defaults. nolocks. Qed.
#[local] Hint Resolve nolocks_new_out nolocks_new_in nolocks_defaults : nolocks.

Lemma wlp_ignore {A} (m : HM A) Q s : wlp m (fun _ => Q tt) s -> wlp (ignore m) Q s.
Proof. intros H. apply wlp_bind. eapply wlp_mono; [exact H|]. intros x s' HQ. by apply wlp_ret. Qed.

Lemma order_call r s : stream_first r = true -> at_locks [] s -> wlp (handle_request r) (fun _ s' => at_locks [] s') s.
Proof.
  intros Hr H. destruct r; try discriminate Hr; cbn [handle_request]; try apply wlp_ignore; try (by apply order_write); try (by apply order_standby).
  - unfold adev_open_output_stream. order. repeat case_match. order.
  - unfold adev_close_output_stream, free_out. order. eapply at_nolocks; [by apply nolocks_modify|eassumption|done].
  - unfold out_get_presentation_position. order.
  - unfold adev_open_input_stream. order.
  - unfold in_set_parameters. order.
  - unfold in_get_capture_position. order.
  - unfold adev_set_mode. order.
  - unfold adev_set_mic_mute. order.
Qed.

(** The locks of one such call. *)
Definition call_trace (t : list lock_action) : Prop :=
  exists r s s', stream_first r = true /\ held s = [] /\ trace s = [] /\ handle_request r s = Some (tt, s') /\ trace s' = t.

Lemma call_replay t : call_trace t -> replay [] t = Some [].
Proof.
  intros (r & s & s' & Hr & Hh & Ht & E & <-). destruct (order_call r s Hr) with (a := tt) (s' := s') as [_ H]; [|done|done].
  split; [done|]. by rewrite Ht.
Qed.

Lemma calls_replay ts : Forall call_trace ts -> replay [] (concat ts) = Some [].
Proof. induction 1 as [|t ts Ht _ IH]; [done|]. cbn [concat]. by rewrite replay_app, (call_replay t Ht). Qed.

(** C17: Threads that open, close and write to output streams, put them in standby,
    open input streams, ask for positions, route input streams, and set the mode or
    the mute of the device, in any number and any order, never block one another:
    from every state that their locks can get to, all of them can run to the end. *)
Theorem stream_calls_finish ts ts' : (forall th, th ∈ ts -> th.1 = [] /\ exists calls, Forall call_trace calls /\ th.2 = concat calls) ->
  rtc lock_step ts ts' -> exists tf, rtc lock_step ts' tf /\ finished tf.
Proof.
  intros Hts Hrun. assert (ordered ts) as Ho.
  { intros th Hth. destruct (Hts th Hth) as (-> & calls & Hc & ->). by apply calls_replay. }
  by eapply ordered_finish, ordered_run.
Qed.

(** *** Routing *)

Definition grows {A} (m : HM A) : Prop := forall s x s', m s = Some (x, s') -> trace s `prefix_of` trace s'.

Lemma grows_bind {A B} (m : HM A) (k : A -> HM B) : grows m -> (forall x, grows (k x)) -> grows (bind m k).
Proof.
  intros Hm Hk s x s'. unfold bind. destruct (m s) as [[y s1]|] eqn:E; [|done]. intros E'.
  transitivity (trace s1); [by eapply Hm|by eapply Hk].
Qed.
Lemma grows_nolocks {A} (m : HM A) : nolocks m -> grows m.
Proof. intros H s x s' E. by destruct (H _ _ _ E) as [-> _]. Qed.
Lemma grows_lock l : grows (lock l).
Proof. intros s x s'. unfold lock. destruct (bool_decide _); [done|]. intros [= _ <-]. by eexists. Qed.
Lemma grows_unlock l : grows (unlock l).
Proof. intros s x s'. unfold unlock. destruct (bool_decide _); [|done]. intros [= _ <-]. by eexists. Qed.

Ltac grows :=
  repeat (cbv zeta;
    lazymatch goal with
    | |- grows (bind _ _) => apply grows_bind; [|intros ?]
    | |- grows (lock _) => apply grows_lock
    | |- grows (unlock _) => apply grows_unlock
    | |- grows (if ?b then _ else _) => destruct b
    | |- grows (let '(_, _) := ?x in _) => destruct x
    | |- grows _ => apply grows_nolocks; solve [nolocks]
    end).

Lemma wlp_grows {A} (m : HM A) t s : grows m -> t `prefix_of` trace s -> wlp m (fun _ s' => t `prefix_of` trace s') s.
Proof. intros Hm Ht x s' E. transitivity (trace s); [done|by eapply Hm]. Qed.

Lemma wlp_step {A B} (m : HM A) (k : A -> HM B) x s1 Q s : m s = Some (x, s1) -> wlp (k x) Q s1 -> wlp (bind m k) Q s.
Proof. intros E H. apply wlp_bind. intros y s2 E2. rewrite E in E2. by injection E2 as <- <-. Qed.

Lemma write_locks a o buffer (s : hal) : outs s !! a = Some o -> o_standby o = true -> trace s = [] -> held s = [] ->
  wlp (out_write a buffer) (fun _ s' => [Lock (L_out a); Lock L_adev] `prefix_of` trace s') s.
Proof.
  intros Ho Hs Ht Hh. assert (forall s : hal, outs s !! a = Some o -> out a s = Some (o, s)) as Hout by (intros s' E; unfold out; by rewrite E).
  unfold out_write. eapply wlp_step; [by apply Hout|]. cbv zeta. apply wlp_bind. intros frames s1 Ed.
  assert (s1 = s) as -> by (revert Ed; unfold divide; destruct (_ =? 0); [done|]; by intros [= _ <-]).
  eapply wlp_step; [unfold lock_out, bind; rewrite (Hout s Ho); unfold lock; rewrite Hh; reflexivity|].
  set (s1 := set_held _ _). eapply wlp_step; [by apply Hout|]. rewrite Hs. apply wlp_bind.
  eapply wlp_step; [unfold upd_out; cbn [outs s1 set_held set_trace]; rewrite Ho; reflexivity|].
  eapply wlp_step; [unfold lock; rewrite bool_decide_eq_false_2 by (by apply not_held_one); reflexivity|].
  eapply wlp_mono; [apply (wlp_grows _ [Lock (L_out a); Lock L_adev]); [grows|cbn; rewrite Ht; by exists []]|]. intros r s2 H2. cbv beta in H2. apply wlp_grows; [|exact H2].
  unfold out_standby, lock_out. grows.
Qed.

Lemma routing_locks a o value val (s : hal) : outs s !! a = Some o -> atoi value = Some val -> trace s = [] -> held s = [] ->
  wlp (out_set_parameters a (Some value)) (fun _ s' => [Lock L_adev; Lock (L_out a)] `prefix_of` trace s') s.
Proof.
  intros Ho Hv Ht Hh. assert (forall s : hal, outs s !! a = Some o -> out a s = Some (o, s)) as Hout by (intros s' E; unfold out; by rewrite E).
  unfold out_set_parameters. eapply wlp_step; [by apply Hout|]. rewrite Hv.
  eapply wlp_step; [unfold lock; rewrite Hh; reflexivity|]. set (s1 := set_held _ _).
  eapply wlp_step; [unfold lock_out, bind; rewrite (Hout s1 Ho); unfold lock; rewrite bool_decide_eq_false_2 by (by apply not_held_one); reflexivity|].
  apply wlp_grows; [grows|cbn; rewrite Ht; by exists []].
Qed.

(** C19: Writing to an output stream in standby and routing it return when they run
    one after the other, in either order of start; at the same time they may block each
    other for ever: the write holds the lock of the stream and waits for that of the
    device, and routing waits the other way round. *)
Theorem routing_deadlock {LAWS : AudioLaws} a o buffer value (s : hal) : rest s -> trace s = [] -> outs s !! a = Some o ->
  o_standby o = true -> number (Some value) = true ->
  exists s1 s2, handle_request (Write a buffer) s = Some (tt, s1) /\ handle_request (Out_set_parameters a (Some value)) s = Some (tt, s2) /\
  exists ts, rtc lock_step [([], trace s1); ([], trace s2)] ts /\ ~ finished ts /\ forall ts', ~ lock_step ts ts'.
Proof.
  intros Hr Ht Ho Hs Hn. pose proof Hr as [_ Hh]. apply bool_decide_eq_true in Hn as Hv. destruct Hv as [val Hv].
  assert (is_Some (outs s !! a)) as Ha by (by eexists).
  destruct (wp_run _ _ _ (handle_request_ok (Write a buffer) s Hr ltac:(by apply bool_decide_eq_true))) as ([] & s1 & E1 & _).
  destruct (wp_run _ _ _ (handle_request_ok (Out_set_parameters a (Some value)) s Hr ltac:(cbn [request_ok]; by rewrite Hn, bool_decide_eq_true_2))) as ([] & s2 & E2 & _).
  exists s1, s2. split; [done|]. split; [done|].
  destruct (wlp_ignore _ (fun _ s' => [Lock (L_out a); Lock L_adev] `prefix_of` trace s') _ (write_locks a o buffer s Ho Hs Ht Hh) _ _ E1) as [t1 ->].
  destruct (wlp_ignore _ (fun _ s' => [Lock L_adev; Lock (L_out a)] `prefix_of` trace s') _ (routing_locks a o value val s Ho Hv Ht Hh) _ _ E2) as [t2 ->].
  exists [([L_out a], Lock L_adev :: t1); ([L_adev], Lock (L_out a) :: t2)]. split; [|split].
  - eapply rtc_l; [eapply (step_lock 0); [reflexivity|]|].
    { intros th [->|[->|?%not_elem_of_nil]%elem_of_cons]%elem_of_cons; [apply not_elem_of_nil..|done]. }
    eapply rtc_l; [eapply (step_lock 1); [reflexivity|]|apply rtc_refl].
    intros th [->|[->|?%not_elem_of_nil]%elem_of_cons]%elem_of_cons; [by apply not_held_one|apply not_elem_of_nil|done].
  - intros Hf. specialize (Hf ([L_out a], Lock L_adev :: t1) ltac:(by left)). discriminate Hf.
  - intros ts' Hst. inversion Hst as [i ts h l t Hi Hl|i ts h l t Hi Hl]; subst.
    + destruct i as [|[|i]]; [| |done]; injection Hi as <- <- <-.
      * apply (Hl ([L_adev], Lock (L_out a) :: t2)); [by right; left|by left].
      * apply (Hl ([L_out a], Lock L_adev :: t1)); [by left|by left].
    + destruct i as [|[|i]]; done.
Qed.

End locks.

(** ** An instance *)

(** A stream that is open, in standby. *)
Definition standby_state : option (@hal Z) :=
  s ← adev_open some_info 0;
  '(_, s) ← handle_requests [Open_output 5 2 0 0 48000 3] s;
  Some (set_trace [] s).

Lemma standby_state_rest : exists s, standby_state = Some s /\ rest s /\ trace s = [] /\ exists o, outs s !! 1 = Some o /\ o_standby o = true.
Proof.
  destruct (adev_open_ok some_info 0 some_platform_ok) as (s0 & E & Hr).
  pose proof (handle_requests_ok [Open_output 5 2 0 0 48000 3] s0 Hr) as H.
  assert (match adev_open some_info 0 with
          | Some s0 => allowed [Open_output 5 2 0 0 48000 3] s0 && match handle_requests [Open_output 5 2 0 0 48000 3] s0 with
              | Some (_, s) => match outs s !! 1 with Some o => o_standby o | None => false end | None => false end
          | None => false end = true) as Hc by (by vm_compute).
  rewrite E in Hc. apply andb_true_iff in Hc as [Ha Hc]. destruct (wp_run _ _ _ (H Ha)) as (u & s & Es & Hi & Hh). rewrite Es in Hc.
  exists (set_trace [] s). split; [unfold standby_state; rewrite E; cbn [option_bind mbind]; by rewrite Es|].
  split; [by split|]. split; [done|]. change (outs (set_trace [] s)) with (outs s). destruct (outs s !! 1) as [o|]; [by exists o|done].
Qed.

(** The locks of a call in this state. *)
Definition call_of (r : request) : list lock_action :=
  match standby_state with
  | Some s => match handle_request r s with Some (_, s') => trace s' | None => [] end
  | None => []
  end.

Lemma call_of_trace r : stream_first r = true -> call_of r <> [] -> call_trace (call_of r).
Proof.
  intros Hr. unfold call_of. destruct standby_state_rest as (s & -> & [_ Hh] & Ht & _).
  destruct (handle_request r s) as [[[] s']|] eqn:E; [|done]. intros _. by exists r, s, s'.
Qed.

Lemma stream_calls_finish_witness : let write := call_of (Write 1 [1; 2]) in let mode := call_of (Set_mode 3) in
  let standby := call_of (Out_standby 1) in
  write = [Lock (L_out 1); Lock L_adev; Unlock L_adev; Unlock (L_out 1)] /\
  exists tf, rtc lock_step [([], write ++ standby); ([], mode)] tf /\ finished tf.
Proof.
  intros write mode standby. split; [by vm_compute|].
  apply (stream_calls_finish [([], write ++ standby); ([], mode)] [([], write ++ standby); ([], mode)]); [|apply rtc_refl].
  assert (call_trace write /\ call_trace mode /\ call_trace standby) as (H1 & H2 & H3).
  { split_and!; (apply call_of_trace; [done|]); by vm_compute. }
  intros th [->|[->|?%not_elem_of_nil]%elem_of_cons]%elem_of_cons; (split; [done|]); [|exists [mode]|done].
  - exists [write; standby]. split; [by repeat constructor|]. cbn [concat]. by rewrite app_nil_r.
  - split; [by repeat constructor|]. cbn [concat]. by rewrite app_nil_r.
Defined.

Lemma routing_deadlock_witness : exists (s : @hal Z) s1 s2 ts, rest s /\
  handle_request (Write 1 [1; 2]) s = Some (tt, s1) /\ handle_request (Out_set_parameters 1 (Some (bytes "4"))) s = Some (tt, s2) /\
  rtc lock_step [([], trace s1); ([], trace s2)] ts /\ ~ finished ts.
Proof.
  destruct standby_state_rest as (s & _ & Hr & Ht & o & Ho & Hs).
  destruct (routing_deadlock 1 o [1; 2] (bytes "4") s Hr Ht Ho Hs ltac:(by vm_compute)) as (s1 & s2 & E1 & E2 & ts & H1 & H2 & _).
  by exists s, s1, s2, ts.
Defined.

End AudioLocks.
