(* ===== verification/AudioSpec.v ===== *)
(** * What the streams of the audio HAL do

    What a running stream plays, what a stream says it supports, the size of an
    input buffer, and the requests that are not safe. *)

From stdpp Require Import base tactics option list list_numbers numbers gmap.
From Stdlib Require Import ZArith Lia.
From Stdlib Require String.
From S2P Require Import Prelude CString AudioPlat AudioRoute AudioThm AudioOut AudioIn AudioDev AudioSafe AudioReq AudioRun AudioRead AudioMain AudioLocks.

Import String.StringSyntax.
Import CString AudioPlat AudioRoute AudioThm AudioOut AudioIn AudioDev AudioSafe AudioReq AudioRun AudioRead AudioMain AudioLocks.

Local Open Scope Z_scope.
Local Open Scope list_scope.
Local Open Scope c_scope.

Module AudioSpec.

(** ** Supported rates *)

(** How Android reads the reply: numbers between bars. *)
Fixpoint split_bar (cur l : list Z) : list (list Z) :=
  match l with
  | [] => [cur]
  | c :: l => if c =? BAR then cur :: split_bar [] l else split_bar (cur ++ [c]) l
  end.
Definition read_rates (t : list Z) : list Z := match t with [] => [] | _ => digits_from 10 0 <$> split_bar [] t end.

Definition is_digit (c : Z) : Prop := 48 <= c <= 57.

Lemma split_digits ds : forall cur l, Forall is_digit ds -> split_bar cur (ds ++ l) = split_bar (cur ++ ds) l.
Proof.
  induction ds as [|d ds IH]; intros cur l H; [by rewrite app_nil_r|]. apply Forall_cons in H as [Hd H]. cbn [app split_bar].
  rewrite (proj2 (Z.eqb_neq d BAR)) by (unfold is_digit, BAR in *; lia). rewrite IH by done. by rewrite <- app_assoc.
Qed.

Lemma digits_read fuel : forall v acc, 0 <= v < 10 ^ Z.of_nat fuel -> (0 < fuel)%nat -> exists ds, digits fuel v acc = ds ++ acc /\
  Forall is_digit ds /\ (0 < length ds <= fuel)%nat /\ forall k l, digits_from 10 k (ds ++ l) = digits_from 10 (k * 10 ^ Z.of_nat (length ds) + v) l.
Proof.
  assert (forall d k l, 0 <= d < 10 -> digits_from 10 k ((48 + d) :: l) = digits_from 10 (k * 10 + d) l) as Hone.
  { intros d k l Hd. cbn [digits_from]. unfold digit_val. rewrite (proj2 (andb_true_iff _ _)) by (split; apply Z.leb_le; lia).
    rewrite (proj2 (Z.ltb_lt _ _)) by lia. f_equal. lia. }
  induction fuel as [|fuel IH]; intros v acc Hv Hf; [lia|]. cbn [digits]. cbv zeta. pose proof (Z.mod_pos_bound v 10 ltac:(lia)) as Hm.
  destruct (Z.ltb_spec v 10) as [Hs|Hs].
  - exists [48 + v mod 10]. split; [done|]. split; [constructor; [unfold is_digit; lia|done]|]. split; [cbn; lia|].
    intros k l. cbn [app length]. rewrite Hone by done. rewrite Z.mod_small by lia. f_equal; lia.
  - assert (0 <= v / 10 < 10 ^ Z.of_nat fuel) as Hq.
    { rewrite Nat2Z.inj_succ, Z.pow_succ_r in Hv by lia. split; [apply Z.div_pos; lia|apply Z.div_lt_upper_bound; lia]. }
    assert (0 < fuel)%nat as Hf' by (destruct fuel; [cbn in Hv; lia|lia]).
    destruct (IH (v / 10) ((48 + v mod 10) :: acc) Hq Hf') as (ds & E & Hd & Hl & Hr). exists (ds ++ [48 + v mod 10]).
    split; [by rewrite E, <- app_assoc|]. split; [apply Forall_app; split; [done|constructor; [unfold is_digit; lia|done]]|].
    split; [rewrite length_app; cbn; lia|]. intros k l. rewrite <- app_assoc, Hr. cbn [app]. rewrite Hone by done.
    f_equal. rewrite length_app, Nat2Z.inj_add, Z.pow_add_r by lia. cbn. pose proof (Z.div_mod v 10 ltac:(lia)). lia.
Qed.

(** A rate that an [int] holds. *)
Definition good_rate (r : Z) : Prop := 0 < r < 2 ^ 31.

Lemma printd_read r : good_rate r -> Forall is_digit (printd (s32 r)) /\ (0 < length (printd (s32 r)) <= 11)%nat /\ digits_from 10 0 (printd (s32 r)) = r.
Proof.
  unfold good_rate. intros Hr. assert (s32 r = r) as -> by (unfold s32; rewrite Z.mod_small by lia; lia). unfold printd. rewrite (proj2 (Z.ltb_ge _ _)) by lia.
  destruct (digits_read 11 r []) as (ds & -> & Hd & Hl & H); [cbn; lia|lia|]. rewrite app_nil_r. split; [done|]. split; [done|].
  specialize (H 0 []). rewrite app_nil_r in H. by rewrite H.
Qed.

Lemma rates_tail l z : forall value, value <> [] -> Forall good_rate l -> Z.of_nat (length value + 12 * length l) < VALUE_SIZE ->
  exists t, rates_loop (l ++ 0 :: z) value = Some (value ++ t) /\
    forall cur, digits_from 10 0 <$> split_bar cur t = digits_from 10 0 cur :: l.
Proof.
  induction l as [|r l IH]; intros value Hv Hl Hn; [exists []; by rewrite app_nil_r|]. apply Forall_cons in Hl as [Hr Hl].
  cbn [app rates_loop]. pose proof Hr as Hr'. unfold good_rate in Hr'. rewrite (proj2 (Z.eqb_neq r 0)) by lia. cbv zeta.
  destruct (printd_read r Hr) as (Hd & Hlen & E). rewrite (proj2 (Z.ltb_lt 0 _)) by (destruct value; [done|cbn; lia]). cbv iota.
  cbn [length] in Hn. rewrite (proj2 (Z.leb_gt _ _)) by (rewrite length_app; cbn [length]; lia).
  destruct (IH (value ++ [BAR] ++ printd (s32 r))) as (t & Et & Ht); [by destruct value|done|rewrite !length_app; cbn [length]; lia|].
  exists (([BAR] ++ printd (s32 r)) ++ t). split; [rewrite Et; by rewrite <- !app_assoc|]. intros cur. cbn [app split_bar].
  rewrite Z.eqb_refl, split_digits by done. cbn [app fmap list_fmap]. f_equal. rewrite Ht. by rewrite E.
Qed.

Lemma rates_reply l z : Forall good_rate l -> (length l <= MAX_SUPPORTED_SAMPLE_RATES)%nat ->
  exists t, rates_loop (l ++ 0 :: z) [] = Some t /\ read_rates t = l.
Proof.
  unfold MAX_SUPPORTED_SAMPLE_RATES. intros Hl Hn. destruct l as [|r l]; [by exists []|]. apply Forall_cons in Hl as [Hr Hl]. cbn [length] in Hn.
  cbn [app rates_loop]. pose proof Hr as Hr'. unfold good_rate in Hr'. rewrite (proj2 (Z.eqb_neq r 0)) by lia. cbv zeta.
  destruct (printd_read r Hr) as (Hd & Hlen & E). change (0 <? Z.of_nat (length [])) with false. cbn [length app].
  rewrite (proj2 (Z.leb_gt _ _)) by (unfold VALUE_SIZE; lia).
  destruct (rates_tail l z (printd (s32 r))) as (t & -> & Ht); [by intros E'; rewrite E' in Hlen; cbn in Hlen; lia|done|unfold VALUE_SIZE; lia|].
  eexists. split; [reflexivity|]. unfold read_rates. destruct (printd (s32 r) ++ t) as [|x y] eqn:Ex.
  { apply app_eq_nil in Ex as [Ex _]. rewrite Ex in Hlen. cbn in Hlen. lia. }
  rewrite <- Ex, split_digits by done. cbn [app]. by rewrite Ht, E.
Qed.

(** Registering values one after the other. *)
Definition registered (values : list Z) (n : nat) : list Z := foldl (fun l v => register_in v l) (replicate (S n) 0) values.

Lemma register_new v l m : v ∉ l -> Forall (fun x => x <> 0) l -> register_uint v (l ++ replicate (S m) 0) = (true, (l ++ [v]) ++ replicate m 0).
Proof.
  induction l as [|x l IH]; intros Hv Hl; cbn [app register_uint replicate].
  - by destruct (Z.eqb_spec 0 v) as [<-|_].
  - apply not_elem_of_cons in Hv as [Hx Hv]. apply Forall_cons in Hl as [Hx0 Hl].
    rewrite (proj2 (Z.eqb_neq x v)) by congruence. rewrite (proj2 (Z.eqb_neq x 0)) by done. cbn [replicate] in IH. by rewrite IH.
Qed.

Lemma register_old l v m : v ∈ l -> Forall (fun x => x <> 0) l -> register_in v (l ++ replicate (S m) 0) = l ++ replicate (S m) 0.
Proof.
  intros Hv Hl. unfold register_in. assert (replicate (S m) 0 = replicate m 0 ++ [0]) as -> by (apply replicate_S_end).
  rewrite app_assoc, removelast_last. f_equal. generalize (replicate m 0) as z. intros z.
  induction l as [|x l IH]; [by apply not_elem_of_nil in Hv|]. apply Forall_cons in Hl as [Hx Hl]. cbn [app register_uint].
  destruct (Z.eqb_spec x v) as [->|Hne]; [done|]. rewrite (proj2 (Z.eqb_neq x 0)) by done.
  apply elem_of_cons in Hv as [->|Hv]; [done|]. specialize (IH Hv Hl). destruct (register_uint v (l ++ z)) as [b l']. cbn in *. by subst.
Qed.

Lemma register_run l v m : v ∉ l -> Forall (fun x => x <> 0) l ->
  register_in v (l ++ replicate (S (S m)) 0) = (l ++ [v]) ++ replicate (S m) 0.
Proof.
  intros Hv Hl. unfold register_in. assert (replicate (S (S m)) 0 = replicate (S m) 0 ++ [0]) as -> by (apply replicate_S_end).
  rewrite app_assoc, removelast_last, register_new by done. cbn [snd]. rewrite <- !app_assoc. do 2 f_equal. symmetry. apply replicate_S_end.
Qed.

Lemma registered_run values : forall l m, NoDup (l ++ values) -> Forall (fun x => x <> 0) (l ++ values) ->
  foldl (fun l v => register_in v l) (l ++ replicate (S (length values + m)) 0) values = (l ++ values) ++ replicate (S m) 0.
Proof.
  induction values as [|v values IH]; intros l m Hnd Hz; [by rewrite app_nil_r|]. cbn [foldl length plus].
  assert (v ∉ l) as Hv by (apply NoDup_app in Hnd as (_ & Hd & _); intros Hx; apply (Hd v Hx); by left).
  rewrite register_run; [|done|by apply Forall_app in Hz as [? _]]. rewrite IH; by rewrite <- (app_assoc l [v] values).
Qed.

(** When at most nine different rates have been registered with a stream, its reply
    to Android's question for the supported rates is text that reads back as
    exactly these rates, in order; a rate that is registered again changes nothing. *)
Theorem rates_roundtrip rates : NoDup rates -> Forall good_rate rates -> (length rates <= MAX_SUPPORTED_SAMPLE_RATES)%nat ->
  let supported := registered rates MAX_SUPPORTED_SAMPLE_RATES in
  (exists t, stream_get_parameter_rates true supported = Some (Some t) /\ read_rates t = rates) /\
  forall r, r ∈ rates -> register_in r supported = supported.
Proof.
  intros Hnd Hg Hl supported. assert (Forall (fun x => x <> 0) rates) as Hz.
  { eapply Forall_impl; [exact Hg|]. unfold good_rate. intros; lia. }
  assert (supported = rates ++ replicate (S (MAX_SUPPORTED_SAMPLE_RATES - length rates)) 0) as E.
  { unfold supported, registered. replace (S MAX_SUPPORTED_SAMPLE_RATES) with (S (length rates + (MAX_SUPPORTED_SAMPLE_RATES - length rates))) by lia.
    exact (registered_run rates [] _ Hnd Hz). }
  split.
  - destruct (rates_reply rates (replicate (MAX_SUPPORTED_SAMPLE_RATES - length rates) 0) Hg Hl) as (t & Et & Ht).
    exists t. split; [|done]. unfold stream_get_parameter_rates. rewrite E. cbn [replicate]. by rewrite Et.
  - intros r Hr. rewrite E. by apply register_old.
Qed.

(** ** Playing *)

Definition int16 (x : Z) : Prop := - 2 ^ 15 <= x < 2 ^ 15.

(** What is heard of frames of two samples: on the speaker both are their mean. *)
Definition heard (muted spk : bool) (x y : Z) : Z * Z :=
  if muted then (0, 0) else if spk then (Z.quot (x + y) 2, Z.quot (x + y) 2) else (x, y).

Inductive sound (muted spk : bool) : list Z -> list Z -> Prop :=
| sound_nil : sound muted spk [] []
| sound_frame x y l l' : sound muted spk l l' ->
    sound muted spk (x :: y :: l) ((heard muted spk x y).1 :: (heard muted spk x y).2 :: l').

Lemma s16_id x : int16 x -> s16 x = x.
Proof. unfold int16, s16. intros. rewrite Z.mod_small by lia. lia. Qed.

Lemma mean_range x y : int16 x -> int16 y -> int16 (Z.quot (x + y) 2).
Proof.
  unfold int16. intros. pose proof (Z.quot_le_mono (x + y) (2 ^ 16 - 1) 2 ltac:(lia) ltac:(lia)).
  pose proof (Z.quot_le_mono (- 2 ^ 16) (x + y) 2 ltac:(lia) ltac:(lia)). change (Z.quot (2 ^ 16 - 1) 2) with (2 ^ 15 - 1) in *. change (Z.quot (- 2 ^ 16) 2) with (- 2 ^ 15) in *. lia.
Qed.

Lemma mix_sound n : forall l, length l = (2 * n)%nat -> Forall int16 l -> exists r, mix_s16_stereo_linear n l = Some r /\ sound false true l r.
Proof.
  induction n as [|n IH]; intros l Hl Hr.
  - destruct l; [|done]. exists []. split; [done|constructor].
  - destruct l as [|x [|y l]]; cbn in Hl; [lia|lia|]. apply Forall_cons in Hr as [Hx Hr]. apply Forall_cons in Hr as [Hy Hr].
    destruct (IH l ltac:(lia) Hr) as (r & E & Hs). cbn [mix_s16_stereo_linear]. rewrite E. eexists. split; [reflexivity|].
    rewrite (s16_id _ (mean_range x y Hx Hy)). exact (sound_frame false true x y l r Hs).
Qed.

Lemma plain_sound n : forall l, length l = (2 * n)%nat -> sound false false l l.
Proof.
  induction n as [|n IH]; intros l Hl; [destruct l; [constructor|done]|]. destruct l as [|x [|y l]]; cbn in Hl; [lia|lia|].
  exact (sound_frame false false x y l l (IH l ltac:(lia))).
Qed.

Lemma muted_sound n spk : forall l, length l = (2 * n)%nat -> sound true spk l (replicate (2 * n) 0).
Proof.
  induction n as [|n IH]; intros l Hl; [destruct l; [constructor|done]|]. destruct l as [|x [|y l]]; cbn in Hl; [lia|lia|].
  replace (2 * S n)%nat with (S (S (2 * n))) by lia. exact (sound_frame true spk x y l _ (IH l ltac:(lia))).
Qed.

Lemma mix_zeros n : mix_s16_stereo_linear n (replicate (2 * n) 0) = Some (replicate (2 * n) 0).
Proof.
  induction n as [|n IH]; [done|]. replace (2 * S n)%nat with (S (S (2 * n))) by lia. cbn [replicate mix_s16_stereo_linear]. by rewrite IH.
Qed.

Lemma played_sound n (muted spk : bool) l : length l = (2 * n)%nat -> Forall int16 l ->
  exists r, (if spk then mix_s16_stereo_linear n (if muted then replicate (length l) 0 else l) else Some (if muted then replicate (length l) 0 else l)) = Some r /\
    sound muted spk l r.
Proof.
  intros Hl Hr. rewrite Hl. destruct muted, spk.
  - rewrite mix_zeros. eexists. split; [reflexivity|by apply muted_sound].
  - eexists. split; [reflexivity|by apply muted_sound].
  - by apply mix_sound.
  - eexists. split; [reflexivity|by eapply plain_sound].
Qed.

Lemma sound_length m k l l' : sound m k l l' -> length l' = length l.
Proof. induction 1; cbn; lia. Qed.

Section spec.
Context {F : Type} {PL : PcmLib} {EF : Effects} {EN : AudioEnv F} {AN : AndroidAudio} {LAWS : AudioLaws}.

Local Abbreviation hal := (@AudioOut.hal F).
Local Abbreviation const := AudioOut.const.

(** The buffer after the equalizer of the stream, if it has any. *)
Definition equalized (o : stream_out) (n : nat) (buffer : list Z) : list Z :=
  if negb (o_equalizer o =? NULL) then eq_process (Z.of_nat n) buffer else buffer.

(** C33: A write to a running stream of two channels hands exactly one buffer to its
    stream of the sound library, after the equalizer: silence when it is muted,
    both samples of each frame replaced by their mean when the device is the speaker,
    else the samples themselves.  When that succeeds, the stream's count of frames
    grows by the frames of the buffer, the stream changes in nothing else, and no
    lock is held. *)
Theorem write_plays a o buffer n (s : hal) : rest s -> outs s !! a = Some o -> o_standby o = false -> o_pcm o <> NULL ->
  frame_size_out (o_channel_mask o) (o_format o) = 4 -> channels (o_config o) = Some 2 ->
  length buffer = (2 * n)%nat -> Forall int16 (equalized o n buffer) -> write_result (o_pcm o) (clock s) = 0 ->
  exists s' data, handle_request (Write a buffer) s = Some (tt, s') /\ played s' = played s ++ [(o_pcm o, data)] /\
    sound (o_muted o) (get_platform_device hdr (mode s) (out_devices s) (uc (plat s)) =? OUT_SPK) (equalized o n buffer) data /\
    outs s' = <[a := set_o_written (u64 (o_written o + Z.of_nat n)) o]> (outs s) /\ held s' = [].
Proof.
  intros [[own Hi] Hh] Ho Hs Hp Hf Hc Hl Hb Hw. destruct (inv_out _ _ _ _ Hi Ho) as (Hok & P1 & _ & P3).
  assert (length (equalized o n buffer) = length buffer) as He by (unfold equalized; destruct (negb _); [apply law_eq|done]).
  set (spk := _ =? OUT_SPK). destruct (played_sound n (o_muted o) spk (equalized o n buffer) ltac:(by rewrite He) Hb) as (r & Er & Hr).
  pose proof (sound_length _ _ _ _ Hr) as Hlr.
  enough (wp (out_write a buffer) (fun _ s' => exists data, played s' = played s ++ [(o_pcm o, data)] /\ sound (o_muted o) spk (equalized o n buffer) data /\
    outs s' = <[a := set_o_written (u64 (o_written o + Z.of_nat n)) o]> (outs s) /\ held s' = []) s) as H.
  { destruct (wp_run _ _ _ H) as (x & s' & E & data & H'). exists s', data. split; [|done]. cbn [handle_request]. unfold ignore, bind. by rewrite E. }
  apply wp_bind. eapply wp_out; [exact Ho|]. cbv zeta. rewrite Hf. apply wp_bind, wp_divide; [done|].
  replace (2 * Z.of_nat (length buffer) / 4) with (Z.of_nat n) by (rewrite Hl; replace (2 * Z.of_nat (2 * n)) with (Z.of_nat n * 4) by lia; by rewrite Z.div_mul).
  apply wp_bind. eapply wp_lock_out; [exact Ho|rewrite Hh; apply not_held_nil|]. rewrite Hh. set (sl := set_held _ _).
  apply wp_bind. eapply wp_out; [exact Ho|]. rewrite Hs. apply wp_bind, wp_ret. apply wp_bind, wp_event. intros ev.
  apply wp_bind. eapply wp_out; [exact Ho|]. apply wp_bind. eapply (wp_dump own); [exact Hi|exact P3|].
  apply wp_bind. set (s2 := set_events ev sl). eapply (wp_mono _ (fun b s3 => s3 = s2 /\ b = equalized o n buffer)).
  { unfold equalized. destruct (Z.eqb_spec (o_equalizer o) NULL) as [E|Hne]; cbn [negb]; [by apply wp_ret|]. destruct P1 as [?|P1]; [done|].
    apply wp_bind. eapply wp_use_ptr; [exact Hi|exact P1|]. intros ?. by apply wp_ret. }
  intros ? ? [-> ->]. rewrite (oo_echo _ Hok). apply wp_bind, wp_ret. apply wp_bind, wp_get.
  rewrite (proj2 (Z.eqb_neq _ _) Hp). cbn [negb]. rewrite Hc, bool_decide_eq_true_2 by done. cbn [andb]. rewrite Nat2Z.id.
  change (get_platform_device hdr (mode s2) (out_devices s2) (uc (plat s2)) =? OUT_SPK) with spk.
  rewrite Er. apply wp_bind, wp_bind, wp_bind, wp_modify. eapply (wp_with_out own a o); [exact Hi|exact Ho|done|]. apply wp_ret.
  cbn [clock set_played s2 set_events sl set_held set_trace]. rewrite Hw. apply wp_bind, wp_bind.
  apply wp_divide; [done|]. eapply wp_upd_out; [exact Ho|]. apply wp_bind. eapply wp_unlock_top; [reflexivity|apply not_held_nil|].
  apply wp_bind, wp_ret, wp_ret. eexists. split; [cbn; reflexivity|]. split; [|split; [|done]].
  - rewrite firstn_all2; [exact Hr|]. rewrite Hlr, He, Hl. replace (Z.of_nat n * 4 / 2) with (Z.of_nat (2 * n)) by (replace (Z.of_nat n * 4) with (Z.of_nat (2 * n) * 2) by lia; by rewrite Z.div_mul). lia.
  - cbn [outs set_held set_trace set_outs set_clock set_played s2 set_events sl]. do 3 f_equal.
    change (u64 (u32 2 * 2)) with 4. rewrite Hl. replace (2 * Z.of_nat (2 * n)) with (Z.of_nat n * 4) by lia. by rewrite Z.div_mul.
Qed.

(** ** Requests that are not safe *)

(** Nothing changes but locks and events. *)
Definition calm {A} (m : M hal A) (P : A -> Prop) (s : hal) : Prop := forall x s1, m s = Some (x, s1) ->
  outs s1 = outs s /\ plat s1 = plat s /\ mode s1 = mode s /\ out_devices s1 = out_devices s /\ P x.

Lemma wlp_calm {A B} (m : M hal A) P (k : A -> M hal B) Q (s : hal) : calm m P s ->
  (forall x s1, outs s1 = outs s -> plat s1 = plat s -> mode s1 = mode s -> out_devices s1 = out_devices s -> P x -> wlp (k x) Q s1) ->
  wlp (bind m k) Q s.
Proof. intros Hm HQ. apply wlp_bind. intros x s1 E. destruct (Hm _ _ E) as (? & ? & ? & ? & ?). by apply HQ. Qed.

Lemma calm_out a (s : hal) : calm (out a) (fun o => outs s !! a = Some o) s.
Proof. intros o s1. unfold out. destruct (outs s !! a); [|done]. by intros [= <- <-]. Qed.
Lemma calm_lock_out a (s : hal) : calm (lock_out a) (fun _ => True) s.
Proof.
  intros x s1. unfold lock_out, bind, out, lock. destruct (outs s !! a); [|done]. destruct (bool_decide _); [done|]. by intros [= _ <-].
Qed.
Lemma calm_event f e (s : hal) : calm (event_process f e) (fun _ => True) s.
Proof. by intros x s1 [= _ <-]. Qed.
Lemma calm_dump p (s : hal) : calm (debug_dump_data p) (fun _ => True) s.
Proof.
  intros x s1. unfold debug_dump_data, bind, use. destruct (negb _); [|by intros [= _ <-]]. destruct (resources s !! p); [|done]. by intros [= _ <-].
Qed.
Lemma calm_divide x y (s : hal) : calm (divide x y) (fun z => z = x / y) s.
Proof. intros z s1. unfold divide. destruct (y =? 0); [done|]. by intros [= <- <-]. Qed.
Lemma calm_ret {A} (x : A) (s : hal) : calm (ret x) (fun y => y = x) s.
Proof. by intros y s1 [= <- <-]. Qed.
Lemma calm_equalize p n buf (s : hal) :
  calm (if negb (p =? NULL) then use p ;;; ret (eq_process n buf) else ret buf) (fun b => length b = length buf) s.
Proof.
  intros x s1. unfold bind, use. destruct (negb _); [|by intros [= <- <-]]. destruct (resources s !! p); [|done]. intros [= <- <-].
  by rewrite law_eq.
Qed.

Lemma mix_none n : forall l, (length l < 2 * n)%nat -> mix_s16_stereo_linear n l = None.
Proof.
  induction n as [|n IH]; intros l Hl; [lia|]. destruct l as [|x [|y l]]; [done|done|]. cbn in *. by rewrite IH by lia.
Qed.

(** Three requests that must not be made.  A write of anything to a running stream of
    one channel overruns Android's buffer when the speaker is configured for two,
    for mixing goes over pairs of samples; and a routing parameter of the device
    while no stream is active follows a null pointer.  A patch for the only output
    stream with a handle that is not the stream's gives back a lock that is not held. *)
Theorem unsafe_requests :
  (forall a o buffer (s : hal), outs s !! a = Some o -> o_standby o = false -> o_pcm o <> NULL -> o_echo o = NULL ->
    frame_size_out (o_channel_mask o) (o_format o) = 2 -> channels (o_config o) = Some 2 ->
    get_platform_device hdr (mode s) (out_devices s) (uc (plat s)) = OUT_SPK -> buffer <> [] -> handle_request (Write a buffer) s = None) /\
  (forall value (s : hal), rest s -> active_output s = NULL -> handle_request (Set_parameters (Some value)) s = None) /\
  (forall a o p sinks handle (s : hal), rest s -> out_streams s = [a] -> outs s !! a = Some o -> o_handle o = p_handle p -> p_type p = PORT_MIX ->
    sinks <> [] -> Z.of_nat (length sinks) <= const "AUDIO_PATCH_PORTS_MAX" -> Forall (fun k => p_type k = PORT_DEVICE) sinks ->
    handle <> AUDIO_PATCH_HANDLE_NONE -> o_patch_handle o <> handle -> handle_request (Create_patch [p] sinks handle) s = None).
Proof.
  split_and!.
  - intros a o buffer s Ho Hs Hp He Hf Hc Hd Hb. assert (wlp (out_write a buffer) (fun _ _ => False) s) as H.
    { eapply wlp_calm; [apply calm_out|]. intros o1 s1 E1 P1 M1 D1 Ho1. assert (o1 = o) as -> by congruence. cbv zeta. rewrite Hf.
      eapply wlp_calm; [apply calm_divide|]. intros frames s2 E2 P2 M2 D2 ->. eapply wlp_calm; [apply calm_lock_out|]. intros [] s3 E3 P3 M3 D3 _.
      eapply wlp_calm; [apply calm_out|]. intros o4 s4 E4 P4 M4 D4 Ho4. assert (o4 = o) as -> by congruence. rewrite Hs.
      eapply wlp_calm; [apply calm_ret|]. intros r s5 E5 P5 M5 D5 _. eapply wlp_calm; [apply calm_event|]. intros [] s6 E6 P6 M6 D6 _.
      eapply wlp_calm; [apply calm_out|]. intros o7 s7 E7 P7 M7 D7 Ho7. assert (o7 = o) as -> by congruence.
      eapply wlp_calm; [apply calm_dump|]. intros [] s8 E8 P8 M8 D8 _. eapply wlp_calm; [apply calm_equalize|]. intros buf s9 E9 P9 M9 D9 Hl.
      rewrite He. eapply wlp_calm; [apply calm_ret|]. intros [] s10 E10 P10 M10 D10 _. apply wlp_bind, wlp_get.
      rewrite (proj2 (Z.eqb_neq _ _) Hp), Hc, bool_decide_eq_true_2 by done. cbn [negb andb].
      replace (get_platform_device hdr (mode s10) (out_devices s10) (uc (plat s10))) with OUT_SPK by (rewrite <- Hd; congruence).
      rewrite Z.eqb_refl. rewrite mix_none; [done|]. replace (2 * Z.of_nat (length buffer) / 2) with (Z.of_nat (length buffer)) by (symmetry; rewrite Z.mul_comm; by apply Z.div_mul).
      rewrite Nat2Z.id. cbv beta in Hl. assert (length buffer <> 0)%nat by (by destruct buffer). destruct (o_muted o); rewrite ?length_replicate; lia. }
    cbn [handle_request]. unfold ignore, bind. destruct (out_write a buffer s) as [[x s1]|] eqn:E; [|done]. by destruct (H _ _ E).
  - intros value s [[own Hi] Hh] Ha. cbn [handle_request]. unfold ignore, adev_set_parameters, bind, get. rewrite Ha.
    destruct (atoi value); [|done]. unfold lock at 1. rewrite Hh. cbn [bool_decide]. unfold lock_out, bind, out.
    assert (outs s !! NULL = None) as E.
    { apply eq_None_not_Some. intros [o Ho]. destruct (bl_outs _ _ _ _ _ (iv_blocks _ _ _ _ _ _ _ _ _ _ _ Hi) _ _ Ho). unfold NULL in *. lia. }
    rewrite bool_decide_eq_false_2 by apply not_held_nil. cbn [outs set_held set_trace]. by rewrite E.
  - intros a o p sinks handle s [_ Hh] El Ho Eh Ep Hs Hn Hk Hg Hp. assert (wlp (adev_create_audio_patch [p] sinks handle) (fun _ _ => False) s) as H.
    { unfold adev_create_audio_patch. destruct sinks as [|k sinks]; [done|]. rewrite (proj2 (Z.ltb_ge _ _) Hn), Ep. cbn [length Nat.eqb negb orb].
      assert (forallb (fun p => bool_decide (p_type p = PORT_DEVICE)) (k :: sinks) = true) as ->.
      { apply Is_true_true, forallb_True. eapply Forall_impl; [exact Hk|]. intros x Hx. by apply bool_decide_spec. }
      apply wlp_bind. intros [] s1 E1. unfold lock in E1. rewrite Hh, bool_decide_eq_false_2 in E1 by apply not_held_nil. injection E1 as <-.
      rewrite (proj2 (Z.eqb_neq _ _) Hg). apply wlp_bind. intros [] s2 [= <-]. apply wlp_bind, wlp_get. apply wlp_bind.
      match goal with |- wlp ?m _ ?s1 => enough (wlp m (fun _ _ => False) s1) as Hm by (intros x s2 Ex; by destruct (Hm _ _ Ex)) end.
      apply wlp_bind. intros x s2 Ex. unfold get_stream_out_by_io_handle_l, bind, get in Ex. cbn [out_streams set_held set_trace] in Ex.
      rewrite El in Ex. cbn [find_out] in Ex. unfold bind, out in Ex. cbn [outs set_held set_trace] in Ex. rewrite Ho, Eh, Z.eqb_refl in Ex.
      injection Ex as <- <-. apply wlp_bind. intros o2 s2 Eo. unfold out in Eo. cbn [outs set_held set_trace] in Eo. rewrite Ho in Eo. injection Eo as <- <-.
      rewrite (proj2 (Z.eqb_neq _ _) Hp). apply wlp_bind. intros [] s2 Eu. unfold unlock in Eu. cbn [held set_held set_trace] in Eu.
      rewrite bool_decide_eq_false_2 in Eu; [discriminate Eu|by apply not_held_one]. }
    cbn [handle_request]. unfold ignore, bind. destruct (adev_create_audio_patch _ _ _ s) as [[x s1]|] eqn:E; [|done]. by destruct (H _ _ E).
Qed.

(** ** Input buffers *)

Lemma buffer_frames rate : rate ∈ sample_rates -> exists n,
  (u32 (DEFAULT_INPUT_PERIOD_SIZE * rate) / 48000 + 15) / 16 * 16 = 16 * n /\ 16 * (n - 1) < rate / 50 <= 16 * n /\ n <= 60.
Proof.
  intros Hr. exists ((rate / 50 + 15) / 16). unfold sample_rates in Hr.
  repeat (apply elem_of_cons in Hr as [->|Hr]); try (by apply not_elem_of_nil in Hr). all: by vm_compute.
Qed.

(** The buffer size of an input stream is 0 for formats other than 16 bits, more
    than two channels or a rate that is not in the list; else it is that of a whole
    number of 16 frames, the least with the frames of 20 milliseconds, and at most 3840
    bytes; nothing wraps around. *)
Theorem input_buffer_size rate fmt mask : let ch := popcount mask in let size := adev_get_input_buffer_size rate fmt mask in
  if bool_decide (fmt = const "AUDIO_FORMAT_PCM_16_BIT") && bool_decide (1 <= ch <= 2) && bool_decide (rate ∈ sample_rates)
  then exists n, size = 16 * n * (2 * ch) /\ 16 * (n - 1) < rate / 50 <= 16 * n /\ size <= 3840
  else size = 0.
Proof.
  intros ch size. unfold size, adev_get_input_buffer_size. fold ch. cbv zeta.
  assert (forall v, check_input_parameters rate fmt ch = v -> v = 0 \/ v = -22) as Hv by (intros v <-; unfold check_input_parameters; repeat case_match; auto).
  assert (check_input_parameters rate fmt ch = 0 <-> (fmt = const "AUDIO_FORMAT_PCM_16_BIT" /\ 1 <= ch <= 2) /\ rate ∈ sample_rates) as Hc.
  { unfold check_input_parameters. destruct (Z.eqb_spec fmt (const "AUDIO_FORMAT_PCM_16_BIT")); cbn [negb]; [|naive_solver].
    destruct (Z.ltb_spec ch 1), (Z.ltb_spec 2 ch); cbn [orb]; try (split; [done|lia]).
    destruct (bool_decide_reflect (rate ∈ sample_rates)); [split; [split; [split; [done|lia]|done]|done]|naive_solver]. }
  rewrite <- !bool_decide_and. destruct (bool_decide_reflect ((fmt = const "AUDIO_FORMAT_PCM_16_BIT" /\ 1 <= ch <= 2) /\ rate ∈ sample_rates)) as [Hok|Hno].
  - pose proof (proj2 Hc Hok) as E. unfold get_input_buffer_size. rewrite E. cbn [negb Z.eqb]. destruct Hok as [[_ Hch] Hr].
    destruct (buffer_frames rate Hr) as (n & -> & Hn & Hm). exists n. cbv zeta. split; [lia|]. split; [done|nia].
  - destruct (Hv _ eq_refl) as [E|E]; [by apply Hc in E|]. by rewrite E.
Qed.

End spec.

(** ** Instances *)

Lemma rates_roundtrip_witness : exists t, stream_get_parameter_rates true (registered [48000; 44100; 8000] MAX_SUPPORTED_SAMPLE_RATES) = Some (Some t) /\
  t = bytes "48000|44100|8000" /\ read_rates t = [48000; 44100; 8000].
Proof.
  destruct (rates_roundtrip [48000; 44100; 8000]) as [(t & E & Ht) _].
  - apply (bool_decide_unpack (NoDup [48000; 44100; 8000])). by vm_compute.
  - repeat constructor.
  - cbn. unfold MAX_SUPPORTED_SAMPLE_RATES. lia.
  - exists t. split; [exact E|]. split; [|exact Ht].
    assert (stream_get_parameter_rates true (registered [48000; 44100; 8000] MAX_SUPPORTED_SAMPLE_RATES) = Some (Some (bytes "48000|44100|8000"))) as E2 by (by vm_compute).
    rewrite E2 in E. by injection E as <-.
Defined.

(** A state after some requests. *)
Definition after (l : list request) : option (@hal Z) := s0 ← adev_open some_info 0; '(_, s) ← handle_requests l s0; Some s.

Lemma after_rest l : match adev_open some_info 0 with Some s => allowed l s | None => false end = true ->
  exists s, after l = Some s /\ rest s.
Proof.
  intros Ha. destruct (adev_open_ok some_info 0 some_platform_ok) as (s0 & E & Hr). rewrite E in Ha.
  destruct (wp_run _ _ _ (handle_requests_ok l s0 Hr Ha)) as ([] & s & Es & Hs). exists s. split; [|done].
  unfold after. rewrite E. cbn [option_bind mbind]. by rewrite Es.
Qed.

Definition running_requests : list request := [Open_output 5 2 0 0 48000 3; Write 1 [100; 300]].

Lemma write_plays_witness : exists (s s' : @hal Z) data, after running_requests = Some s /\
  handle_request (Write 1 [100; 301; -5; 4]) s = Some (tt, s') /\ sound false true [100; 301; -5; 4] data.
Proof.
  destruct (after_rest running_requests) as (s & E & Hr); [by vm_compute|]. exists s.
  assert (match after running_requests with
          | Some s => match outs s !! 1 with
            | Some o => bool_decide ((o_standby o = false /\ o_pcm o <> NULL /\ frame_size_out (o_channel_mask o) (o_format o) = 4 /\ channels (o_config o) = Some 2) /\
                equalized o 2 [100; 301; -5; 4] = [100; 301; -5; 4] /\ write_result (o_pcm o) (clock s) = 0 /\ o_muted o = false /\
                get_platform_device hdr (mode s) (out_devices s) (uc (plat s)) = OUT_SPK)
            | None => false end
          | None => false end = true) as Hc by (by vm_compute).
  rewrite E in Hc. destruct (outs s !! 1) as [o|] eqn:Ho; [|discriminate Hc].
  apply bool_decide_eq_true in Hc as ((Hs & Hp & Hf & Hch) & He & Hw & Hm & Hd).
  destruct (write_plays 1 o [100; 301; -5; 4] 2 s Hr Ho Hs Hp Hf Hch eq_refl) as (s' & data & H1 & _ & H2 & _).
  - rewrite He. repeat constructor; done.
  - exact Hw.
  - exists s', data. split; [done|]. split; [exact H1|]. rewrite He, Hm, Hd in H2. exact H2.
Defined.

(** A stream of one channel, started by an empty write after one of two channels has
    been opened. *)
Definition mono_requests : list request := [Open_output 5 2 0 0 48000 1; Open_output 6 2 0 0 48000 3; Write 1 []].

Definition mix_port : port_config := mkPort PORT_MIX 0 5.
Definition speaker_port : port_config := mkPort PORT_DEVICE 2 0.

Lemma unsafe_requests_witness : exists s s0 : @hal Z, after mono_requests = Some s /\ handle_request (Write 1 [7]) s = None /\
  rest s0 /\ handle_request (Set_parameters (Some (bytes "4"))) s0 = None /\
  exists s1 : @hal Z, rest s1 /\ after (take 1 running_requests) = Some s1 /\ handle_request (Create_patch [mix_port] [speaker_port] 7) s1 = None.
Proof.
  destruct unsafe_requests as (H1 & H2 & H3).
  assert (exists s1 : @hal Z, rest s1 /\ after (take 1 running_requests) = Some s1 /\ handle_request (Create_patch [mix_port] [speaker_port] 7) s1 = None) as H4.
  { destruct (after_rest (take 1 running_requests)) as (s1 & E1 & Hr1); [by vm_compute|].
    exists s1. split; [exact Hr1|]. split; [exact E1|].
    assert (match after (take 1 running_requests) with
            | Some s1 => match outs s1 !! 1 with
              | Some o => bool_decide (out_streams s1 = [1] /\ o_handle o = 5 /\ o_patch_handle o = 0)
              | None => false end
            | None => false end = true) as Hx by (by vm_compute).
    rewrite E1 in Hx. destruct (outs s1 !! 1) as [o1|] eqn:Ho1; [|discriminate Hx]. apply bool_decide_eq_true in Hx as (Hl & Hn & Hg).
    refine (H3 1 o1 mix_port [speaker_port] 7 s1 Hr1 Hl Ho1 Hn eq_refl _ _ _ _ _).
    + discriminate.
    + by vm_compute.
    + constructor; [reflexivity|constructor].
    + discriminate.
    + rewrite Hg. discriminate. }
  destruct (adev_open_ok some_info 0 some_platform_ok) as (s0 & E0 & Hr).
  assert (match after mono_requests, adev_open some_info 0 with
          | Some s, Some s0 => match outs s !! 1 with
            | Some o => bool_decide ((o_standby o = false /\ o_pcm o <> NULL /\ o_echo o = NULL /\ frame_size_out (o_channel_mask o) (o_format o) = 2 /\
                channels (o_config o) = Some 2) /\ get_platform_device hdr (mode s) (out_devices s) (uc (plat s)) = OUT_SPK /\ active_output s0 = NULL)
            | None => false end
          | _, _ => false end = true) as Hc by (by vm_compute).
  rewrite E0 in Hc. destruct (after mono_requests) as [s|] eqn:E; [|discriminate Hc]. destruct (outs s !! 1) as [o|] eqn:Ho; [|discriminate Hc].
  apply bool_decide_eq_true in Hc as ((Hs & Hp & He & Hf & Hch) & Hd & Ha). exists s, s0. split; [done|]. split; [|split].
  - by apply (H1 1 o [7] s).
  - exact Hr.
  - split; [by apply (H2 (bytes "4") s0)|exact H4].
Defined.

End AudioSpec.
