(* ===== verification/IspCtrl.v ===== *)
(** * Controls and flash of the ISP library (camera/3_4/allwinnertech/libAWIspApi/
      libisp_new: isp.c, isp_manage/isp_helper.c)

    The settings a control event of the driver or a call of the application
    changes, the flags that tell the algorithms about a change, and the state
    machine that drives the flash lamp while a picture is taken.

    The fields of the nested structures are the constructors of [field]; the
    structures are one function from fields to values.  A field of an
    enumeration holds the number it was given.  What the code asks of the
    driver and of the algorithms is recorded in [requests], oldest first.  The
    one floating point computation is a parameter.  [None] is undefined
    behaviour. *)

From stdpp Require Import base tactics option list list_numbers numbers functions.
From Stdlib Require Import ZArith Lia.
From S2P Require Import Prelude.

Local Open Scope Z_scope.

Module IspCtrl.

(** ** Data *)

(** [isp_tune_setting_t] *)
Inductive tune_field :=
| contrast_level | saturation_level | sharpness_level | brightness_level | denoise_level | hue_level
| pltmwdr_level | tdf_level | highlight_level | backlight_level | effect
| gain_favor | ana_gain_min | ana_gain_max | dig_gain_min | dig_gain_max.
(** [isp_ae_settings_t] *)
Inductive ae_field :=
| exp_compensation | exp_absolute | sensor_gain | iso_sensitivity | iris_fno
| flash_mode | exp_mode | light_mode | exp_metering_mode | iso_mode | flicker_mode | scene_mode
| ae_x1 | ae_y1 | ae_x2 | ae_y2
| exposure_lock | flash_open | flash_switch_flag | take_picture_flag | take_pic_start_cnt.
(** [isp_af_settings_t] *)
Inductive af_field :=
| focus_absolute | focus_relative | af_mode | af_metering_mode | af_range | focus_lock
| af_x1 | af_y1 | af_x2 | af_y2.
(** [isp_awb_setting_t] *)
Inductive wb_field := wb_mode | wb_temperature | r_gain | gr_gain | gb_gain | b_gain.
(** Of [ae_result_t], [awb_result_t] and the parameters of the algorithms. *)
Inductive result_field :=
| ev_idx | ev_idx_max | ev_idx_expect | ae_flash_ev_cumul | ae_flash_ok | ae_flash_led
| ev_digital_gain | ev_analog_gain | ev_exposure_time | color_temp_output
| out_r_gain | out_gr_gain | out_gb_gain | out_b_gain | ae_pline_index | auto_focus_trigger.
(** The rest: [image_params], [isp_ini_cfg] and [sensor_info]. *)
Inductive other_field := flash_ok | flash_gain | flash_delay_frame | pclk | hts | color_space.

Inductive field :=
| Tune (f : tune_field) | Ae (f : ae_field) | Af (f : af_field) | Wb (f : wb_field)
| Res (f : result_field) | Other (f : other_field).

#[global] Instance tune_field_eq : EqDecision tune_field.
Proof. solve_decision. Defined.
#[global] Instance ae_field_eq : EqDecision ae_field.
Proof. solve_decision. Defined.
#[global] Instance af_field_eq : EqDecision af_field.
Proof. solve_decision. Defined.
#[global] Instance wb_field_eq : EqDecision wb_field.
Proof. solve_decision. Defined.
#[global] Instance result_field_eq : EqDecision result_field.
Proof. solve_decision. Defined.
#[global] Instance other_field_eq : EqDecision other_field.
Proof. solve_decision. Defined.
#[global] Instance field_eq : EqDecision field.
Proof. solve_decision. Defined.

Inductive request := FlashCtrl (mode : Z) | AfTrigger | AeSetExpIdx (index : Z).

(** [c_af]: [af_init] has given the focus algorithm. *)
Record isp_lib_context := mkCtx {
  c_val : field -> Z; isp_3a_change_flags : Z; ae_frame_cnt : Z; c_af : bool; requests : list request
}.

Definition put (f : field) (v : Z) (c : isp_lib_context) : isp_lib_context :=
  mkCtx (<[f := v]> (c_val c)) (isp_3a_change_flags c) (ae_frame_cnt c) (c_af c) (requests c).
Definition raise (flag : Z) (c : isp_lib_context) : isp_lib_context :=
  mkCtx (c_val c) (Z.lor (isp_3a_change_flags c) flag) (ae_frame_cnt c) (c_af c) (requests c).
Definition ask (r : request) (c : isp_lib_context) : isp_lib_context :=
  mkCtx (c_val c) (isp_3a_change_flags c) (ae_frame_cnt c) (c_af c) (requests c ++ [r]).

(** [if (f != v) f = v], without and with a flag *)
Definition update (f : field) (v : Z) (c : isp_lib_context) : isp_lib_context :=
  if c_val c f =? v then c else put f v c.
Definition change (f : field) (flag v : Z) (c : isp_lib_context) : isp_lib_context :=
  if c_val c f =? v then c else raise flag (put f v c).

(** [enum e3a_settings_flags] *)
Definition ISP_SET_SCENE_MODE : Z := 1.
Definition ISP_SET_AWB_MODE : Z := 2.
Definition ISP_SET_FLICKER_MODE : Z := 4.
Definition ISP_SET_SHARPNESS : Z := 8.
Definition ISP_SET_BRIGHTNESS : Z := 16.
Definition ISP_SET_SATURATION : Z := 32.
Definition ISP_SET_EFFECT : Z := 64.
Definition ISP_SET_AF_METERING_MODE : Z := 128.
Definition ISP_SET_AE_METERING_MODE : Z := 256.
Definition ISP_SET_CONTRAST : Z := 512.
Definition ISP_SET_HUE : Z := 1024.
Definition ISP_SET_GAIN_STR : Z := 2048.

Definition WB_MANUAL : Z := 0.
Definition FREQUENCY_DISABLED : Z := 0.
Definition FREQUENCY_AUTO : Z := 3.
Definition FLASH_MODE_OFF : Z := 0.
Definition FLASH_MODE_ON : Z := 1.
Definition FLASH_MODE_TORCH : Z := 2.
Definition FLASH_MODE_AUTO : Z := 3.
Definition FLASH_MODE_RED_EYE : Z := 4.
Definition FLASH_MODE_NONE : Z := 5.
Definition AE_METERING_MODE_SPOT : Z := 2.
Definition AUTO_FOCUS_MANUAL : Z := 0.
Definition AUTO_FOCUS_CONTINUEOUS : Z := 1.
Definition AUTO_FOCUS_TOUCH : Z := 2.
Definition AUTO_FOCUS_METERING_SPOT : Z := 2.
Definition V4L2_TAKE_PICTURE_STOP : Z := 0.
Definition V4L2_TAKE_PICTURE_FLASH : Z := 3.
Definition V4L2_FLASH_LED_MODE_NONE : Z := 0.
Definition V4L2_FLASH_LED_MODE_FLASH : Z := 1.
Definition V4L2_FLASH_LED_MODE_TORCH : Z := 2.

(** ** The setters of isp_helper.c *)

Definition isp_s_brightness (value : Z) := change (Tune brightness_level) ISP_SET_BRIGHTNESS value.
Definition isp_s_contrast (value : Z) := change (Tune contrast_level) ISP_SET_CONTRAST value.
Definition isp_s_saturation (value : Z) := change (Tune saturation_level) ISP_SET_SATURATION value.
Definition isp_s_hue (value : Z) := change (Tune hue_level) ISP_SET_HUE value.
Definition isp_s_auto_white_balance (value : Z) := change (Wb wb_mode) ISP_SET_AWB_MODE value.

(** [exp_us value hts pclk] is the time in floating point, as an unsigned
    number. *)
Definition isp_s_exposure (exp_us : Z -> Z -> Z -> Z) (value : Z) (c : isp_lib_context) : isp_lib_context :=
  if c_val c (Other pclk) =? 0 then c
  else put (Ae exp_absolute) (u32 (exp_us value (c_val c (Other hts)) (c_val c (Other pclk)))) c.

Definition isp_s_auto_gain (value : Z) := update (Ae iso_mode) value.
Definition isp_s_gain (value : Z) := update (Ae sensor_gain) value.
Definition isp_s_power_line_frequency (value : Z) := change (Ae flicker_mode) ISP_SET_FLICKER_MODE value.
Definition isp_s_white_balance_temperature (value : Z) (c : isp_lib_context) : isp_lib_context :=
  update (Wb wb_temperature) value (put (Wb wb_mode) WB_MANUAL c).
Definition isp_s_sharpness (value : Z) := change (Tune sharpness_level) ISP_SET_SHARPNESS value.
Definition isp_s_auto_brightness (value : Z) (c : isp_lib_context) : isp_lib_context :=
  if 1 =? value then put (Tune brightness_level) 0 c else c.
Definition isp_s_band_stop_filter (value : Z) (c : isp_lib_context) : isp_lib_context :=
  if value =? 1 then raise ISP_SET_FLICKER_MODE (put (Ae flicker_mode) FREQUENCY_AUTO c)
  else raise ISP_SET_FLICKER_MODE (put (Ae flicker_mode) FREQUENCY_DISABLED c).
Definition isp_s_illuminators_1 (value : Z) (c : isp_lib_context) : isp_lib_context :=
  if 0 =? value then put (Ae flash_mode) FLASH_MODE_OFF c else put (Ae flash_mode) FLASH_MODE_TORCH c.
Definition isp_s_illuminators_2 (value : Z) (c : isp_lib_context) : isp_lib_context := c.

(** [struct v4l2_win_setting] and [struct isp_h3a_coor_win] *)
Record coor_win := mkWin { x1 : Z; y1 : Z; x2 : Z; y2 : Z }.

Definition isp_s_af_metering_mode (win : option (Z * coor_win)) (c : isp_lib_context) : isp_lib_context :=
  let c := match win with Some (mode, _) => put (Af af_metering_mode) mode c | None => c end in
  let c :=
    match win with
    | Some (_, w) =>
        if c_val c (Af af_metering_mode) =? AUTO_FOCUS_METERING_SPOT then
          put (Af af_y2) (y2 w) (put (Af af_x2) (x2 w) (put (Af af_y1) (y1 w) (put (Af af_x1) (x1 w) c)))
        else c
    | None => c
    end in
  raise ISP_SET_AF_METERING_MODE c.

Definition isp_s_ae_metering_mode (value : Z) (c : isp_lib_context) : isp_lib_context :=
  if c_val c (Ae exp_metering_mode) =? value then c
  else raise ISP_SET_AE_METERING_MODE (put (Ae exposure_lock) 0 (put (Ae exp_metering_mode) value c)).

Definition ae_coor (c : isp_lib_context) : coor_win :=
  mkWin (c_val c (Ae ae_x1)) (c_val c (Ae ae_y1)) (c_val c (Ae ae_x2)) (c_val c (Ae ae_y2)).
Definition same_win (a b : coor_win) : bool :=
  (x1 a =? x1 b) && (y1 a =? y1 b) && (x2 a =? x2 b) && (y2 a =? y2 b).

Definition isp_s_ae_roi (value : Z) (coor : option coor_win) (c : isp_lib_context) : isp_lib_context :=
  match coor with
  | Some w =>
      if (value =? AE_METERING_MODE_SPOT) && negb (same_win (ae_coor c) w) then
        let c := put (Ae exp_metering_mode) value c in
        let c := put (Ae ae_y2) (y2 w) (put (Ae ae_x2) (x2 w) (put (Ae ae_y1) (y1 w) (put (Ae ae_x1) (x1 w) c))) in
        raise ISP_SET_AE_METERING_MODE (put (Ae exposure_lock) 0 c)
      else c
  | None => c
  end.

Definition isp_s_light_mode (value : Z) := update (Ae light_mode) value.
Definition isp_s_exposure_auto (value : Z) := update (Ae exp_mode) value.
Definition isp_s_exposure_absolute (value : Z) := update (Ae exp_absolute) (u32 value).
Definition isp_s_aperture (value : Z) := update (Ae iris_fno) value.
Definition isp_s_focus_absolute (value : Z) := update (Af focus_absolute) value.
Definition isp_s_focus_relative (value : Z) := update (Af focus_relative) value.

Definition af_trigger (c : isp_lib_context) : isp_lib_context :=
  if c_af c then ask AfTrigger (put (Res auto_focus_trigger) 1 c) else c.

Definition isp_s_focus_auto (value : Z) (c : isp_lib_context) : isp_lib_context :=
  if value =? AUTO_FOCUS_MANUAL then put (Af af_mode) AUTO_FOCUS_MANUAL c
  else af_trigger (raise ISP_SET_AF_METERING_MODE (put (Af focus_lock) 0 (put (Af af_mode) AUTO_FOCUS_CONTINUEOUS c))).

Definition isp_s_auto_exposure_bias (value : Z) := update (Ae exp_compensation) value.
Definition isp_s_auto_n_preset_white_balance (value : Z) := update (Wb wb_mode) value.
Definition isp_s_iso_sensitivity (value : Z) := update (Ae iso_sensitivity) value.
Definition isp_s_iso_sensitivity_auto (value : Z) := update (Ae iso_mode) value.
Definition isp_s_scene_mode (value : Z) := change (Ae scene_mode) ISP_SET_SCENE_MODE value.
Definition isp_s_auto_focus_start (value : Z) (c : isp_lib_context) : isp_lib_context :=
  af_trigger (put (Af af_mode) AUTO_FOCUS_TOUCH (put (Af focus_lock) 0 c)).
Definition isp_s_auto_focus_stop (value : Z) (c : isp_lib_context) : isp_lib_context :=
  put (Af af_mode) AUTO_FOCUS_CONTINUEOUS (put (Af focus_lock) 1 c).
Definition isp_s_auto_focus_range (value : Z) := update (Af af_range) value.

Definition isp_s_take_picture (value : Z) (c : isp_lib_context) : isp_lib_context :=
  let c := update (Ae take_picture_flag) value c in
  if c_val c (Ae take_picture_flag) =? V4L2_TAKE_PICTURE_STOP then put (Other flash_ok) 0 (put (Ae flash_open) 0 c)
  else c.

Definition isp_s_flash_mode (value : Z) := update (Ae flash_mode) value.
Definition isp_s_flash_mode_v1 (value : Z) (c : isp_lib_context) : isp_lib_context :=
  if value =? 0 then update (Ae flash_mode) value c else update (Ae flash_mode) (s32 (value + 2)) c.

Definition isp_s_r_gain (value : Z) (c : isp_lib_context) := if c_val c (Wb r_gain) =? value then c else put (Wb r_gain) (u16 value) c.
Definition isp_s_gr_gain (value : Z) (c : isp_lib_context) := if c_val c (Wb gr_gain) =? value then c else put (Wb gr_gain) (u16 value) c.
Definition isp_s_gb_gain (value : Z) (c : isp_lib_context) := if c_val c (Wb gb_gain) =? value then c else put (Wb gb_gain) (u16 value) c.
Definition isp_s_b_gain (value : Z) (c : isp_lib_context) := if c_val c (Wb b_gain) =? value then c else put (Wb b_gain) (u16 value) c.

(** ** Control events *)

Definition V4L2_CID_BASE : Z := 0x980900.
Definition V4L2_CID_CAMERA_CLASS_BASE : Z := 0x9a0900.
Definition V4L2_CID_FLASH_CLASS_BASE : Z := 0x9c0900.
Definition V4L2_CID_USER_SUNXI_CAMERA_BASE : Z := V4L2_CID_BASE + 0x1050.

Definition V4L2_CID_BRIGHTNESS : Z := V4L2_CID_BASE + 0.
Definition V4L2_CID_CONTRAST : Z := V4L2_CID_BASE + 1.
Definition V4L2_CID_SATURATION : Z := V4L2_CID_BASE + 2.
Definition V4L2_CID_HUE : Z := V4L2_CID_BASE + 3.
Definition V4L2_CID_AUTO_WHITE_BALANCE : Z := V4L2_CID_BASE + 12.
Definition V4L2_CID_EXPOSURE : Z := V4L2_CID_BASE + 17.
Definition V4L2_CID_AUTOGAIN : Z := V4L2_CID_BASE + 18.
Definition V4L2_CID_GAIN : Z := V4L2_CID_BASE + 19.
Definition V4L2_CID_POWER_LINE_FREQUENCY : Z := V4L2_CID_BASE + 24.
Definition V4L2_CID_WHITE_BALANCE_TEMPERATURE : Z := V4L2_CID_BASE + 26.
Definition V4L2_CID_SHARPNESS : Z := V4L2_CID_BASE + 27.
Definition V4L2_CID_AUTOBRIGHTNESS : Z := V4L2_CID_BASE + 32.
Definition V4L2_CID_BAND_STOP_FILTER : Z := V4L2_CID_BASE + 33.
Definition V4L2_CID_ILLUMINATORS_1 : Z := V4L2_CID_BASE + 37.
Definition V4L2_CID_ILLUMINATORS_2 : Z := V4L2_CID_BASE + 38.
Definition V4L2_CID_EXPOSURE_AUTO : Z := V4L2_CID_CAMERA_CLASS_BASE + 1.
Definition V4L2_CID_EXPOSURE_ABSOLUTE : Z := V4L2_CID_CAMERA_CLASS_BASE + 2.
Definition V4L2_CID_FOCUS_ABSOLUTE : Z := V4L2_CID_CAMERA_CLASS_BASE + 10.
Definition V4L2_CID_FOCUS_RELATIVE : Z := V4L2_CID_CAMERA_CLASS_BASE + 11.
Definition V4L2_CID_FOCUS_AUTO : Z := V4L2_CID_CAMERA_CLASS_BASE + 12.
Definition V4L2_CID_AUTO_EXPOSURE_BIAS : Z := V4L2_CID_CAMERA_CLASS_BASE + 19.
Definition V4L2_CID_AUTO_N_PRESET_WHITE_BALANCE : Z := V4L2_CID_CAMERA_CLASS_BASE + 20.
Definition V4L2_CID_ISO_SENSITIVITY : Z := V4L2_CID_CAMERA_CLASS_BASE + 23.
Definition V4L2_CID_ISO_SENSITIVITY_AUTO : Z := V4L2_CID_CAMERA_CLASS_BASE + 24.
Definition V4L2_CID_EXPOSURE_METERING : Z := V4L2_CID_CAMERA_CLASS_BASE + 25.
Definition V4L2_CID_SCENE_MODE : Z := V4L2_CID_CAMERA_CLASS_BASE + 26.
Definition V4L2_CID_3A_LOCK : Z := V4L2_CID_CAMERA_CLASS_BASE + 27.
Definition V4L2_CID_AUTO_FOCUS_START : Z := V4L2_CID_CAMERA_CLASS_BASE + 28.
Definition V4L2_CID_AUTO_FOCUS_STOP : Z := V4L2_CID_CAMERA_CLASS_BASE + 29.
Definition V4L2_CID_AUTO_FOCUS_RANGE : Z := V4L2_CID_CAMERA_CLASS_BASE + 31.
Definition V4L2_CID_TAKE_PICTURE : Z := V4L2_CID_USER_SUNXI_CAMERA_BASE + 6.
Definition V4L2_CID_FLASH_LED_MODE : Z := V4L2_CID_FLASH_CLASS_BASE + 1.
Definition V4L2_CID_FLASH_LED_MODE_V1 : Z := V4L2_CID_USER_SUNXI_CAMERA_BASE + 23.

Definition iso_qmenu : list Z := [100; 200; 400; 800; 1600; 3200; 6400].
Definition exp_bias_qmenu : list Z := [-4; -3; -2; -1; 0; 1; 2; 3; 4].
Definition menu (l : list Z) (i : Z) : option Z := if i <? 0 then None else l !! Z.to_nat i.

Section Events.
  Context (exp_us : Z -> Z -> Z -> Z).

(** The setter a control calls. *)
Inductive setter := Call (f : Z -> isp_lib_context -> isp_lib_context) | CallMenu (l : list Z) (f : Z -> isp_lib_context -> isp_lib_context) | Ignore.

Definition setter_of (id : Z) : setter :=
  if id =? V4L2_CID_BRIGHTNESS then Call isp_s_brightness
  else if id =? V4L2_CID_CONTRAST then Call isp_s_contrast
  else if id =? V4L2_CID_SATURATION then Call isp_s_saturation
  else if id =? V4L2_CID_HUE then Call isp_s_hue
  else if id =? V4L2_CID_AUTO_WHITE_BALANCE then Call isp_s_auto_white_balance
  else if id =? V4L2_CID_EXPOSURE then Call (isp_s_exposure exp_us)
  else if id =? V4L2_CID_AUTOGAIN then Call isp_s_auto_gain
  else if id =? V4L2_CID_GAIN then Call isp_s_gain
  else if id =? V4L2_CID_POWER_LINE_FREQUENCY then Call isp_s_power_line_frequency
  else if id =? V4L2_CID_WHITE_BALANCE_TEMPERATURE then Call isp_s_white_balance_temperature
  else if id =? V4L2_CID_SHARPNESS then Call isp_s_sharpness
  else if id =? V4L2_CID_AUTOBRIGHTNESS then Call isp_s_auto_brightness
  else if id =? V4L2_CID_BAND_STOP_FILTER then Call isp_s_band_stop_filter
  else if id =? V4L2_CID_ILLUMINATORS_1 then Call isp_s_illuminators_1
  else if id =? V4L2_CID_ILLUMINATORS_2 then Call isp_s_illuminators_2
  else if id =? V4L2_CID_EXPOSURE_AUTO then Call isp_s_exposure_auto
  else if id =? V4L2_CID_EXPOSURE_ABSOLUTE then Call isp_s_exposure_absolute
  else if id =? V4L2_CID_FOCUS_ABSOLUTE then Call isp_s_focus_absolute
  else if id =? V4L2_CID_FOCUS_RELATIVE then Call isp_s_focus_relative
  else if id =? V4L2_CID_FOCUS_AUTO then Call isp_s_focus_auto
  else if id =? V4L2_CID_AUTO_EXPOSURE_BIAS then CallMenu exp_bias_qmenu isp_s_auto_exposure_bias
  else if id =? V4L2_CID_AUTO_N_PRESET_WHITE_BALANCE then Call isp_s_auto_n_preset_white_balance
  else if id =? V4L2_CID_ISO_SENSITIVITY then CallMenu iso_qmenu isp_s_iso_sensitivity
  else if id =? V4L2_CID_ISO_SENSITIVITY_AUTO then Call isp_s_iso_sensitivity_auto
  else if id =? V4L2_CID_EXPOSURE_METERING then Call isp_s_ae_metering_mode
  else if id =? V4L2_CID_SCENE_MODE then Call isp_s_scene_mode
  else if id =? V4L2_CID_3A_LOCK then Ignore
  else if id =? V4L2_CID_AUTO_FOCUS_START then Call isp_s_auto_focus_start
  else if id =? V4L2_CID_AUTO_FOCUS_STOP then Call isp_s_auto_focus_stop
  else if id =? V4L2_CID_AUTO_FOCUS_RANGE then Call isp_s_auto_focus_range
  else if id =? V4L2_CID_TAKE_PICTURE then Call isp_s_take_picture
  else if id =? V4L2_CID_FLASH_LED_MODE then Call isp_s_flash_mode
  else if id =? V4L2_CID_FLASH_LED_MODE_V1 then Call isp_s_flash_mode_v1
  else Ignore.

Definition isp_ctrl_process (id value : Z) (c : isp_lib_context) : option isp_lib_context :=
  match setter_of id with
  | Call f => Some (f value c)
  | CallMenu l f => v ← menu l value; Some (f v c)
  | Ignore => Some c
  end.

Fixpoint controls (l : list (Z * Z)) (c : isp_lib_context) : option isp_lib_context :=
  match l with [] => Some c | (id, v) :: l => c ← isp_ctrl_process id v c; controls l c end.

End Events.

(** The frame event carries the colour space in its second byte; the log mask
    in the others is left out. *)
Definition isp_fsync_process (data1 : Z) (c : isp_lib_context) : isp_lib_context :=
  if c_val c (Other color_space) =? data1 then c else raise ISP_SET_HUE (put (Other color_space) data1 c).

(** ** Attributes *)

Inductive isp_ctrl_id :=
| ISP_CTRL_MODULE_EN | ISP_CTRL_DIGITAL_GAIN | ISP_CTRL_PLTMWDR_STR | ISP_CTRL_DN_STR | ISP_CTRL_3DN_STR
| ISP_CTRL_HIGH_LIGHT | ISP_CTRL_BACK_LIGHT | ISP_CTRL_WB_MGAIN | ISP_CTRL_AGAIN_DGAIN | ISP_CTRL_COLOR_EFFECT
| ISP_CTRL_AE_ROI | ISP_CTRL_AF_METERING | ISP_CTRL_COLOR_TEMP | ISP_CTRL_EV_IDX
| ISP_CTRL_EXPOSURE_TIME | ISP_CTRL_AGAIN_ISO.

(** What [value] points to. *)
Inductive attr :=
| AInt (v : Z) | AWb (r gr gb b : Z) | AGain (favor amin amax dmin dmax : Z) | AWin (w : coor_win)
| AFocus (mode : Z) (w : coor_win).

Definition gains (c : isp_lib_context) : attr :=
  AGain (c_val c (Tune gain_favor)) (c_val c (Tune ana_gain_min)) (c_val c (Tune ana_gain_max))
    (c_val c (Tune dig_gain_min)) (c_val c (Tune dig_gain_max)).

(** [None]: nothing is stored. *)
Definition isp_get_attr_cfg (id : isp_ctrl_id) (c : isp_lib_context) : option attr :=
  match id with
  | ISP_CTRL_DIGITAL_GAIN => Some (AInt (s32 (c_val c (Res ev_digital_gain))))
  | ISP_CTRL_PLTMWDR_STR => Some (AInt (c_val c (Tune pltmwdr_level)))
  | ISP_CTRL_DN_STR => Some (AInt (c_val c (Tune denoise_level)))
  | ISP_CTRL_3DN_STR => Some (AInt (c_val c (Tune tdf_level)))
  | ISP_CTRL_HIGH_LIGHT => Some (AInt (c_val c (Tune highlight_level)))
  | ISP_CTRL_BACK_LIGHT => Some (AInt (c_val c (Tune backlight_level)))
  | ISP_CTRL_WB_MGAIN =>
      Some (AWb (c_val c (Res out_r_gain)) (c_val c (Res out_gr_gain)) (c_val c (Res out_gb_gain)) (c_val c (Res out_b_gain)))
  | ISP_CTRL_AGAIN_DGAIN => Some (gains c)
  | ISP_CTRL_COLOR_EFFECT => Some (AInt (c_val c (Tune effect)))
  | ISP_CTRL_AE_ROI => Some (AWin (ae_coor c))
  | ISP_CTRL_COLOR_TEMP => Some (AInt (c_val c (Res color_temp_output)))
  | ISP_CTRL_EV_IDX => Some (AInt (c_val c (Res ev_idx)))
  | ISP_CTRL_EXPOSURE_TIME => Some (AInt (s32 (c_val c (Res ev_exposure_time))))
  | ISP_CTRL_AGAIN_ISO =>
      let g := Z.shiftr (c_val c (Res ev_analog_gain)) 4 in
      Some (AInt (if g <? 16 then 100 else s32 (u32 (g / 16 * 100))))
  | _ => None
  end.

(** [value] points to what the attribute is; [None] here is a value of another
    kind, which the code reads as if it were of the right one.  A NULL is not
    looked for, but by the setters of helper.c. *)
Definition isp_set_attr_cfg (id : isp_ctrl_id) (value : attr) (c : isp_lib_context) : option isp_lib_context :=
  match id, value with
  | ISP_CTRL_MODULE_EN, _ | ISP_CTRL_DIGITAL_GAIN, _ => Some c
  | ISP_CTRL_PLTMWDR_STR, AInt v => Some (put (Tune pltmwdr_level) v c)
  | ISP_CTRL_DN_STR, AInt v => Some (put (Tune denoise_level) v c)
  | ISP_CTRL_3DN_STR, AInt v => Some (put (Tune tdf_level) v c)
  | ISP_CTRL_HIGH_LIGHT, AInt v => Some (put (Tune highlight_level) v c)
  | ISP_CTRL_BACK_LIGHT, AInt v => Some (put (Tune backlight_level) v c)
  | ISP_CTRL_WB_MGAIN, AWb r gr gb b =>
      Some (put (Wb b_gain) b (put (Wb gb_gain) gb (put (Wb gr_gain) gr (put (Wb r_gain) r c))))
  | ISP_CTRL_AGAIN_DGAIN, AGain f amin amax dmin dmax =>
      if (c_val c (Tune gain_favor) =? f) && (c_val c (Tune ana_gain_min) =? amin) && (c_val c (Tune ana_gain_max) =? amax) &&
         (c_val c (Tune dig_gain_min) =? dmin) && (c_val c (Tune dig_gain_max) =? dmax) then Some c
      else
        let c := put (Tune ana_gain_max) amax (put (Tune ana_gain_min) amin (put (Tune gain_favor) f c)) in
        Some (raise ISP_SET_GAIN_STR (put (Tune dig_gain_max) dmax (put (Tune dig_gain_min) dmin c)))
  | ISP_CTRL_COLOR_EFFECT, AInt v => Some (change (Tune effect) ISP_SET_EFFECT v c)
  | ISP_CTRL_AE_ROI, AWin w => Some (isp_s_ae_roi AE_METERING_MODE_SPOT (Some w) c)
  | ISP_CTRL_AF_METERING, AFocus mode w => Some (isp_s_af_metering_mode (Some (mode, w)) c)
  | ISP_CTRL_COLOR_TEMP, _ | ISP_CTRL_EV_IDX, _ | ISP_CTRL_EXPOSURE_TIME, _ | ISP_CTRL_AGAIN_ISO, _ => Some c
  | _, _ => None
  end.

(** ** The flash *)

(** The sum of an [int], compared with the 64-bit count of frames; the sums
    overflow after 2^31 frames. *)
Definition at_frame (c : isp_lib_context) (n : Z) : Z :=
  u64 (s32 (n + c_val c (Ae take_pic_start_cnt) + c_val c (Other flash_delay_frame))).

Definition isp_flash_open (c : isp_lib_context) : isp_lib_context :=
  let c := put (Ae take_pic_start_cnt) (s32 (ae_frame_cnt c)) c in
  let c := ask (FlashCtrl V4L2_FLASH_LED_MODE_TORCH) (put (Res ae_flash_led) V4L2_FLASH_LED_MODE_TORCH c) in
  put (Ae flash_open) 1 c.

(** [ae_flash_led], the lamp and [flash_switch_flag] *)
Definition lamp (led mode switch : Z) (c : isp_lib_context) : isp_lib_context :=
  put (Ae flash_switch_flag) switch (ask (FlashCtrl mode) (put (Res ae_flash_led) led c)).

Definition clamp (v lo hi : Z) : Z := let v := if v <? lo then lo else v in if v >? hi then hi else v.

Definition flash_index (c : isp_lib_context) : Z :=
  let cumul := c_val c (Res ae_flash_ev_cumul) in
  let gain := c_val c (Other flash_gain) in
  let expect := c_val c (Res ev_idx_expect) in
  let v :=
    if 100 <=? cumul then expect
    else if (cumul <? 100) && (Z.quot (s32 (gain * 100)) 256 <=? cumul) then expect
    else s32 (expect + Z.quot (s32 (cumul * gain)) 256) in
  clamp v 1 (c_val c (Res ev_idx_max)).

Definition picture_ok (c : isp_lib_context) : isp_lib_context := put (Other flash_ok) 1 (put (Res ae_flash_ok) 1 c).

Definition flash_auto (c : isp_lib_context) : isp_lib_context :=
  if negb (c_val c (Ae take_picture_flag) =? V4L2_TAKE_PICTURE_FLASH) then c
  else if c_val c (Ae flash_open) =? 0 then
    if c_val c (Res ev_idx) >? s32 (c_val c (Res ev_idx_max) - 20)
    then isp_flash_open (put (Ae flash_switch_flag) 1 c) else c
  else if ae_frame_cnt c =? at_frame c 0 then
    let c := put (Ae exposure_lock) 1 (lamp V4L2_FLASH_LED_MODE_NONE V4L2_FLASH_LED_MODE_NONE 0 c) in
    let idx := flash_index c in
    ask (AeSetExpIdx idx) (put (Res ae_pline_index) idx c)
  else if ae_frame_cnt c =? at_frame c 1 then lamp V4L2_FLASH_LED_MODE_FLASH V4L2_FLASH_LED_MODE_FLASH 1 c
  else if (at_frame c 4 <=? ae_frame_cnt c) && (ae_frame_cnt c <=? at_frame c 6) then picture_ok c
  else if ae_frame_cnt c =? at_frame c 7 then
    put (Ae exposure_lock) 0 (lamp V4L2_FLASH_LED_MODE_NONE V4L2_FLASH_LED_MODE_NONE 0 c)
  else c.

Definition flash_torch (c : isp_lib_context) : isp_lib_context :=
  if negb (c_val c (Ae take_picture_flag) =? V4L2_TAKE_PICTURE_FLASH) then
    lamp V4L2_FLASH_LED_MODE_TORCH V4L2_FLASH_LED_MODE_TORCH 1 c
  else if c_val c (Ae flash_open) =? 0 then isp_flash_open (put (Ae flash_switch_flag) 1 c)
  else
    let c := if (at_frame c 1 <=? ae_frame_cnt c) && (ae_frame_cnt c <=? at_frame c 3) then picture_ok c else c in
    if ae_frame_cnt c =? at_frame c 4 then lamp V4L2_FLASH_LED_MODE_TORCH V4L2_FLASH_LED_MODE_NONE 0 c else c.

Definition isp_flash_update_status (c : isp_lib_context) : isp_lib_context :=
  let mode := c_val c (Ae flash_mode) in
  if mode =? FLASH_MODE_ON then
    if (c_val c (Ae take_picture_flag) =? V4L2_TAKE_PICTURE_FLASH) && (c_val c (Ae flash_open) =? 0)
    then isp_flash_open (put (Ae flash_switch_flag) 1 c) else c
  else if mode =? FLASH_MODE_AUTO then flash_auto c
  else if mode =? FLASH_MODE_TORCH then flash_torch c
  else if mode =? FLASH_MODE_OFF then
    let c := if c_val c (Ae flash_switch_flag) =? 0 then c
             else lamp V4L2_FLASH_LED_MODE_NONE V4L2_FLASH_LED_MODE_NONE 0 c in
    if c_val c (Ae exposure_lock) =? 0 then c else put (Ae exposure_lock) 0 c
  else if (mode =? FLASH_MODE_RED_EYE) || (mode =? FLASH_MODE_NONE) then c
  else ask (FlashCtrl V4L2_FLASH_LED_MODE_NONE) (put (Res ae_flash_led) V4L2_FLASH_LED_MODE_NONE c).

(** What the exposure algorithm finds for a frame. *)
Record exposure := mkExposure { idx : Z; idx_max : Z; idx_expect : Z; flash_cumul : Z }.

(** The part of [isp_ctx_algo_run] that counts the frame. *)
Definition count_frame (e : exposure) (c : isp_lib_context) : isp_lib_context :=
  let c := put (Res ev_idx_max) (idx_max e) (put (Res ev_idx) (idx e) c) in
  let c := put (Res ae_flash_ev_cumul) (flash_cumul e) (put (Res ev_idx_expect) (idx_expect e) c) in
  mkCtx (c_val c) (isp_3a_change_flags c) (u64 (ae_frame_cnt c + 1)) (c_af c) (requests c).

(** A frame: the algorithms run, then the flash is looked at. *)
Definition frame (e : exposure) (c : isp_lib_context) : isp_lib_context := isp_flash_update_status (count_frame e c).
Definition frames (l : list exposure) (c : isp_lib_context) : isp_lib_context := foldl (fun c e => frame e c) c l.

(** ** Flags tell of changes *)

(** The flag of a setting that has one. *)
Definition flag_of (f : field) : option Z :=
  match f with
  | Tune brightness_level => Some ISP_SET_BRIGHTNESS
  | Tune contrast_level => Some ISP_SET_CONTRAST
  | Tune saturation_level => Some ISP_SET_SATURATION
  | Tune sharpness_level => Some ISP_SET_SHARPNESS
  | Tune hue_level => Some ISP_SET_HUE
  | Tune effect => Some ISP_SET_EFFECT
  | Tune (gain_favor | ana_gain_min | ana_gain_max | dig_gain_min | dig_gain_max) => Some ISP_SET_GAIN_STR
  | Wb wb_mode => Some ISP_SET_AWB_MODE
  | Ae flicker_mode => Some ISP_SET_FLICKER_MODE
  | Ae scene_mode => Some ISP_SET_SCENE_MODE
  | Ae exp_metering_mode => Some ISP_SET_AE_METERING_MODE
  | Af af_metering_mode => Some ISP_SET_AF_METERING_MODE
  | _ => None
  end.

Definition covers (flags flag : Z) : Prop := Z.land flags flag = flag.

Lemma covers_refl a : covers a a.
Proof. apply Z.land_diag. Qed.
Lemma covers_raise a b x : covers a x -> covers (Z.lor a b) x.
Proof.
  unfold covers. intros H. apply Z.bits_inj'. intros i Hi. rewrite Z.land_spec, Z.lor_spec.
  pose proof (f_equal (fun z => Z.testbit z i) H) as Hb. cbn in Hb. rewrite Z.land_spec in Hb.
  destruct (Z.testbit a i), (Z.testbit b i), (Z.testbit x i); done.
Qed.
Lemma covers_raised a b : covers (Z.lor a b) b.
Proof. rewrite Z.lor_comm. apply covers_raise, covers_refl. Qed.
Lemma covers_trans a b x : covers a b -> covers b x -> covers a x.
Proof. unfold covers. intros H1 H2. rewrite <- H2 at 1. by rewrite Z.land_assoc, H1. Qed.

(** Flags are only added, and every changed setting but those of [but] has its
    flag. *)
Definition flags_tell (but : field -> Prop) (c c' : isp_lib_context) : Prop :=
  covers (isp_3a_change_flags c') (isp_3a_change_flags c) /\
  forall f b, flag_of f = Some b -> ~ but f -> c_val c' f <> c_val c f -> covers (isp_3a_change_flags c') b.

Definition nothing (f : field) : Prop := False.

Lemma tell_refl but c : flags_tell but c c.
Proof. split; [apply covers_refl|done]. Qed.

Lemma tell_trans but c1 c2 c3 : flags_tell but c1 c2 -> flags_tell but c2 c3 -> flags_tell but c1 c3.
Proof.
  intros [H1 H2] [H3 H4]. split; [by eapply covers_trans|]. intros f b Hf Hb Hc.
  destruct (decide (c_val c2 f = c_val c1 f)) as [E|E].
  - apply (H4 f); [done..|congruence].
  - eapply covers_trans; [exact H3|]. by apply (H2 f).
Qed.

Lemma tell_put but f v c : flag_of f = None \/ but f -> flags_tell but c (put f v c).
Proof.
  intros Hf. split; [apply covers_refl|]. intros g b Hg Hb Hc. cbn in Hc.
  destruct (decide (f = g)) as [->|E]; [|by rewrite fn_lookup_insert_ne in Hc].
  destruct Hf; [congruence|done].
Qed.

(** Only settings of this flag and settings without one differ. *)
Definition only (flag : Z) (c c' : isp_lib_context) : Prop :=
  isp_3a_change_flags c' = isp_3a_change_flags c /\
  forall f b, flag_of f = Some b -> c_val c' f <> c_val c f -> b = flag.

Lemma only_refl flag c : only flag c c.
Proof. done. Qed.

Lemma only_put flag f v c c' :
  flag_of f = Some flag \/ flag_of f = None -> only flag c c' -> only flag c (put f v c').
Proof.
  intros Hf [H1 H2]. split; [done|]. intros g b Hg Hc. cbn in *.
  destruct (decide (f = g)) as [->|E]; [|rewrite fn_lookup_insert_ne in Hc by done; by eapply (H2 g)].
  destruct Hf; congruence.
Qed.

Lemma tell_raised but flag c c' : only flag c c' -> flags_tell but c (raise flag c').
Proof.
  intros [H1 H2]. split; cbn; [rewrite H1; apply covers_raise, covers_refl|].
  intros g b Hg _ Hc. rewrite (H2 g b Hg Hc). apply covers_raised.
Qed.

Lemma tell_ask but r c : flags_tell but c (ask r c).
Proof. split; [apply covers_refl|done]. Qed.

Lemma tell_change but f flag v c : flag_of f = Some flag -> flags_tell but c (change f flag v c).
Proof. intros Hf. unfold change. destruct (_ =? _); [apply tell_refl|]. apply tell_raised, only_put; [by left|done]. Qed.

Lemma tell_update but f v c : flag_of f = None \/ but f -> flags_tell but c (update f v c).
Proof. intros Hf. unfold update. destruct (_ =? _); [apply tell_refl|by apply tell_put]. Qed.

(** The changes that are not flagged: the white balance mode by a temperature
    or a preset, the brightness by the automatic brightness. *)
Definition unflagged (id : Z) (f : field) : Prop :=
  (id = V4L2_CID_AUTOBRIGHTNESS /\ f = Tune brightness_level) \/
  ((id = V4L2_CID_WHITE_BALANCE_TEMPERATURE \/ id = V4L2_CID_AUTO_N_PRESET_WHITE_BALANCE) /\ f = Wb wb_mode).

(** Takes the changes of a setter off, the last first. *)
Ltac only_step :=
  match goal with
  | |- only _ ?c ?c => apply only_refl
  | |- only _ _ (put _ _ _) => apply only_put; [first [by left | by right]|]
  | |- only _ _ (if ?b then _ else _) => destruct b
  | |- only _ _ (match ?x with _ => _ end) => destruct x
  end.
Ltac tell_step :=
  match goal with
  | |- flags_tell _ ?c ?c => apply tell_refl
  | |- flags_tell _ _ (change _ _ _ _) => eapply tell_trans; [|apply tell_change; reflexivity]
  | |- flags_tell _ _ (update _ _ _) => eapply tell_trans; [|apply tell_update; first [by left | right; unfold unflagged; tauto]]
  | |- flags_tell _ _ (raise _ _) => apply tell_raised; repeat only_step
  | |- flags_tell _ _ (put _ _ _) => eapply tell_trans; [|apply tell_put; first [by left | right; unfold unflagged; tauto]]
  | |- flags_tell _ _ (ask _ _) => eapply tell_trans; [|apply tell_ask]
  | |- flags_tell _ _ (if ?b then _ else _) => destruct b
  | |- flags_tell _ _ (match ?x with _ => _ end) => destruct x
  end.

Lemma af_trigger_tells but c c' : flags_tell but c c' -> flags_tell but c (af_trigger c').
Proof. intros H. eapply tell_trans; [exact H|]. unfold af_trigger. repeat tell_step. Qed.

Lemma setter_tells exp_us id v c c' : isp_ctrl_process exp_us id v c = Some c' -> flags_tell (unflagged id) c c'.
Proof.
  unfold isp_ctrl_process, setter_of.
  repeat match goal with |- context [if id =? ?k then _ else _] =>
    destruct (id =? k) eqn:?E; [apply Z.eqb_eq in E as ->|clear E] end;
    try (destruct (menu _ _) as [w|]; cbn [mbind option_bind]; [|done]); intros [= <-];
    first
      [ progress unfold isp_s_brightness, isp_s_contrast, isp_s_saturation, isp_s_hue, isp_s_auto_white_balance,
          isp_s_exposure, isp_s_auto_gain, isp_s_gain, isp_s_power_line_frequency, isp_s_white_balance_temperature,
          isp_s_sharpness, isp_s_auto_brightness, isp_s_band_stop_filter, isp_s_illuminators_1, isp_s_illuminators_2,
          isp_s_exposure_auto, isp_s_exposure_absolute, isp_s_focus_absolute, isp_s_focus_relative,
          isp_s_auto_exposure_bias, isp_s_auto_n_preset_white_balance, isp_s_iso_sensitivity,
          isp_s_iso_sensitivity_auto, isp_s_ae_metering_mode, isp_s_scene_mode,
          isp_s_auto_focus_stop, isp_s_auto_focus_range, isp_s_take_picture, isp_s_flash_mode, isp_s_flash_mode_v1
      | unfold isp_s_focus_auto, isp_s_auto_focus_start; try (destruct (_ =? _)); try apply af_trigger_tells
      | idtac ];
    cbv zeta; repeat tell_step.
Qed.

(** A control event of the driver, or a call of the application. *)
Inductive setting_call := Control (id value : Z) | Attribute (id : isp_ctrl_id) (value : attr).

Definition settings_call (exp_us : Z -> Z -> Z -> Z) (e : setting_call) (c : isp_lib_context) : option isp_lib_context :=
  match e with
  | Control id value => isp_ctrl_process exp_us id value c
  | Attribute id value => isp_set_attr_cfg id value c
  end.

Fixpoint settings_calls (exp_us : Z -> Z -> Z -> Z) (l : list setting_call) (c : isp_lib_context) : option isp_lib_context :=
  match l with [] => Some c | e :: l => c ← settings_call exp_us e c; settings_calls exp_us l c end.

Lemma attr_tells but id v c c' : isp_set_attr_cfg id v c = Some c' -> flags_tell but c c'.
Proof.
  unfold isp_set_attr_cfg.
  destruct id, v; try done; try (destruct (_ && _)); intros H; simplify_eq;
    unfold isp_s_ae_roi, isp_s_af_metering_mode; cbv zeta; repeat tell_step.
Qed.

Lemma tell_weaken (but but' : field -> Prop) c c' : (forall f, but f -> but' f) -> flags_tell but c c' -> flags_tell but' c c'.
Proof. intros Hb [H1 H2]. split; [done|]. intros f b Hf Hn. apply H2; [done|]. auto. Qed.

(** C26: however settings are changed, by any sequence of control events of
    the driver and of calls of the application, no flag is lost, and a setting
    that has a flag and ends with another value than before has its flag
    raised for the algorithms, but for three controls: the automatic brightness
    and the two that choose a white balance without [V4L2_CID_AUTO_WHITE_BALANCE]. *)
Theorem changes_flagged exp_us l c c' : settings_calls exp_us l c = Some c' ->
  covers (isp_3a_change_flags c') (isp_3a_change_flags c) /\
  forall f b, flag_of f = Some b -> c_val c' f <> c_val c f ->
    ~ (exists id v, Control id v ∈ l /\ unflagged id f) -> covers (isp_3a_change_flags c') b.
Proof.
  intros H. assert (flags_tell (fun f => exists id v, Control id v ∈ l /\ unflagged id f) c c') as [H1 H2];
    [|split; [done|]; intros f b Hf Hc Hn; by apply (H2 f)].
  revert c H. induction l as [|e l IH]; intros c; cbn [settings_calls]; [intros [= <-]; apply tell_refl|].
  destruct (settings_call exp_us e c) as [c1|] eqn:E; [|done]. cbn [mbind option_bind]. intros H.
  apply tell_trans with c1.
  - destruct e as [id v|id v]; cbn in E; [|by eapply attr_tells].
    apply setter_tells in E. eapply tell_weaken, E. intros f Hf. exists id, v. split; [by left|done].
  - eapply tell_weaken, (IH c1 H). intros f (id & v & Hin & Hf). exists id, v. split; [by right|done].
Qed.

(** ** Attributes are read back *)

(** The attributes that can be set and read. *)
Definition settable (id : isp_ctrl_id) : bool :=
  match id with
  | ISP_CTRL_PLTMWDR_STR | ISP_CTRL_DN_STR | ISP_CTRL_3DN_STR | ISP_CTRL_HIGH_LIGHT | ISP_CTRL_BACK_LIGHT
  | ISP_CTRL_AGAIN_DGAIN | ISP_CTRL_COLOR_EFFECT | ISP_CTRL_AE_ROI => true
  | _ => false
  end.

Lemma val_put f v c g : c_val (put f v c) g = if decide (f = g) then v else c_val c g.
Proof.
  cbn. case_decide as E; [subst; apply fn_lookup_insert|by apply fn_lookup_insert_ne].
Qed.
Lemma val_raise b c g : c_val (raise b c) g = c_val c g.
Proof. done. Qed.
Lemma val_ask r c g : c_val (ask r c) g = c_val c g.
Proof. done. Qed.

Ltac vals := repeat first
  [ rewrite val_put | rewrite val_raise | rewrite val_ask
  | rewrite (decide_True (P := (_ = _))) by reflexivity | rewrite (decide_False (P := (_ = _))) by discriminate ].

(** An attribute that is set is read back as it was set. *)
Theorem attributes_read_back id v c c' : settable id = true ->
  isp_set_attr_cfg id v c = Some c' -> isp_get_attr_cfg id c' = Some v.
Proof.
  destruct id; try done; intros _; destruct v; try done; unfold isp_set_attr_cfg; cbn [isp_get_attr_cfg].
  1-5: intros [= <-]; by vals.
  - destruct (_ && _) eqn:E; intros [= <-]; unfold gains; [|by vals].
    repeat (apply andb_true_iff in E as [E ?%Z.eqb_eq]). apply Z.eqb_eq in E. by subst.
  - unfold change. destruct (_ =? _) eqn:E; intros [= <-]; [apply Z.eqb_eq in E; by subst|by vals].
  - unfold isp_s_ae_roi. destruct (same_win _ _) eqn:E; cbn [negb andb Z.eqb]; cbv zeta; intros [= <-]; unfold ae_coor.
    + unfold same_win, ae_coor in E. cbn in E. destruct w.
      repeat (apply andb_true_iff in E as [E ?%Z.eqb_eq]). apply Z.eqb_eq in E. cbn in *. by subst.
    + vals. by destruct w.
Qed.

(** ** A picture with flash *)

(** The commands to the lamp, in their order. *)
Definition lamp_commands (l : list request) : list Z :=
  omap (fun r => match r with FlashCtrl m => Some m | _ => None end) l.

(** What the lamp has been told [o] frames after the torch was lit, with a
    delay of [d] frames. *)
Definition commands_at (d o : Z) : list Z :=
  V4L2_FLASH_LED_MODE_TORCH ::
  (if d <=? o then [V4L2_FLASH_LED_MODE_NONE] else []) ++
  (if d + 1 <=? o then [V4L2_FLASH_LED_MODE_FLASH] else []) ++
  (if d + 7 <=? o then [V4L2_FLASH_LED_MODE_NONE] else []).

Record shooting (d start : Z) (lamps : list Z) (o : Z) (c : isp_lib_context) : Prop := {
  sh_mode : c_val c (Ae flash_mode) = FLASH_MODE_AUTO;
  sh_take : c_val c (Ae take_picture_flag) = V4L2_TAKE_PICTURE_FLASH;
  sh_open : c_val c (Ae flash_open) = 1;
  sh_start : c_val c (Ae take_pic_start_cnt) = start;
  sh_delay : c_val c (Other flash_delay_frame) = d;
  sh_count : ae_frame_cnt c = start + o;
  sh_lamp : lamp_commands (requests c) = lamps ++ commands_at d o;
  sh_lock : d <= o -> c_val c (Ae exposure_lock) = if o <? d + 7 then 1 else 0;
  sh_ok : d + 4 <= o -> c_val c (Other flash_ok) = 1
}.

Lemma count_fields e c f :
  f <> Res ev_idx -> f <> Res ev_idx_max -> f <> Res ev_idx_expect -> f <> Res ae_flash_ev_cumul ->
  c_val (count_frame e c) f = c_val c f.
Proof. intros. unfold count_frame. cbn [c_val]. rewrite !val_put, !decide_False by congruence. done. Qed.

Lemma at_frame_plain c start d n :
  c_val c (Ae take_pic_start_cnt) = start -> c_val c (Other flash_delay_frame) = d ->
  0 <= n + start + d < 2 ^ 31 -> at_frame c n = n + start + d.
Proof. intros E1 E2 Hr. unfold at_frame. rewrite E1, E2, s32_small by (unfold in_int, INT_MIN, INT_MAX; lia). unfold u64. rewrite Z.mod_small; lia. Qed.

Lemma lamp_commands_app l r : lamp_commands (l ++ [r]) = lamp_commands l ++ lamp_commands [r].
Proof. apply omap_app. Qed.

Lemma commands_same d o : o + 1 <> d -> o + 1 <> d + 1 -> o + 1 <> d + 7 -> commands_at d (o + 1) = commands_at d o.
Proof. intros. unfold commands_at. repeat case_match; try done; lia. Qed.

(** Decides comparisons of frame numbers by arithmetic. *)
Ltac compare := repeat match goal with
  | |- context [?a =? ?b] => first [rewrite (proj2 (Z.eqb_eq a b)) by lia | rewrite (proj2 (Z.eqb_neq a b)) by lia]
  | |- context [?a <=? ?b] => first [rewrite (proj2 (Z.leb_le a b)) by lia | rewrite (proj2 (Z.leb_gt a b)) by lia]
  | |- context [?a <? ?b] => first [rewrite (proj2 (Z.ltb_lt a b)) by lia | rewrite (proj2 (Z.ltb_ge a b)) by lia]
  end.

Lemma shooting_step e d start lamps o c :
  1 <= d -> 0 <= o -> 0 <= start -> start + d + 7 < 2 ^ 31 -> start + o + 1 < 2 ^ 31 ->
  shooting d start lamps o c -> shooting d start lamps (o + 1) (frame e c).
Proof.
  intros Hd Ho Hs Hb1 Hb2 [H1 H2 H3 H4 H5 H6 H7 H8 H9].
  assert (ae_frame_cnt (count_frame e c) = start + (o + 1)) as Hcnt.
  { cbn. rewrite H6. unfold u64. rewrite Z.mod_small; lia. }
  unfold frame, isp_flash_update_status. rewrite count_fields, H1 by done.
  cbn [Z.eqb FLASH_MODE_ON FLASH_MODE_AUTO Pos.eqb]. unfold flash_auto.
  rewrite (count_fields e c (Ae take_picture_flag)), H2, (count_fields e c (Ae flash_open)), H3 by done.
  rewrite Z.eqb_refl. cbn [negb Z.eqb].
  assert (forall n, 0 <= n <= 7 -> at_frame (count_frame e c) n = n + start + d) as Hat.
  { intros n Hn. apply at_frame_plain; [by rewrite count_fields..|lia]. }
  rewrite !Hat, Hcnt by lia.
  assert (lamp_commands (requests (count_frame e c)) = lamps ++ commands_at d o) as Hlamps by done.
  set (k := count_frame e c) in *.
  assert (forall f, f <> Res ev_idx -> f <> Res ev_idx_max -> f <> Res ev_idx_expect -> f <> Res ae_flash_ev_cumul ->
    c_val k f = c_val c f) as Hk by (intros; by apply count_fields).
  clearbody k.
  destruct (Z.eq_dec (o + 1) d) as [E|N1]; [|destruct (Z.eq_dec (o + 1) (d + 1)) as [E|N2]];
    [| |destruct (Z.eq_dec (o + 1) (d + 7)) as [E|N3]]; compare; cbn [andb].
  4: destruct ((4 + start + d <=? start + (o + 1)) && (start + (o + 1) <=? 6 + start + d)) eqn:Eok.
  all: split; unfold lamp, picture_ok; vals; rewrite ?Hk by done; try done;
    try (cbn [requests ask put ae_frame_cnt]; rewrite ?lamp_commands_app, Hlamps, <- ?app_assoc;
      unfold commands_at; compare; done);
    intros; compare; try done; try (exfalso; lia); try (apply H9; lia); try (rewrite H8 by lia; compare; done).
  - by rewrite commands_same by lia.
  - rewrite H8 by lia. destruct (Z.ltb_spec o (d + 7)), (Z.ltb_spec (o + 1) (d + 7)); try done; lia.
Qed.

Lemma shooting_frames d start lamps es c :
  1 <= d -> 0 <= start -> start + d + 7 < 2 ^ 31 -> start + Z.of_nat (length es) < 2 ^ 31 ->
  shooting d start lamps 0 c -> shooting d start lamps (Z.of_nat (length es)) (frames es c).
Proof.
  intros Hd Hs Hb Hl Hc. induction es as [|e es IH] using rev_ind; [done|].
  rewrite length_app in *. cbn [length] in *. unfold frames. rewrite foldl_app. cbn [foldl].
  replace (Z.of_nat (length es + 1)) with (Z.of_nat (length es) + 1) by lia.
  apply shooting_step; [lia..|apply IH; lia].
Qed.

Lemma frame_opens e c start d :
  c_val c (Ae flash_mode) = FLASH_MODE_AUTO -> c_val c (Ae take_picture_flag) = V4L2_TAKE_PICTURE_FLASH ->
  c_val c (Ae flash_open) = 0 -> c_val c (Other flash_delay_frame) = d -> 1 <= d ->
  s32 (idx_max e - 20) < idx e -> start = ae_frame_cnt c + 1 -> 0 <= start < 2 ^ 31 ->
  shooting d start (lamp_commands (requests c)) 0 (frame e c).
Proof.
  intros H1 H2 H3 H4 Hd He Hs Hr. unfold frame, isp_flash_update_status. rewrite count_fields, H1 by done.
  cbn [Z.eqb FLASH_MODE_ON FLASH_MODE_AUTO Pos.eqb]. unfold flash_auto.
  rewrite (count_fields e c (Ae take_picture_flag)), H2, (count_fields e c (Ae flash_open)), H3 by done.
  rewrite Z.eqb_refl. cbn [negb Z.eqb].
  assert (c_val (count_frame e c) (Res ev_idx) >? s32 (c_val (count_frame e c) (Res ev_idx_max) - 20) = true) as ->.
  { unfold count_frame. cbn [c_val]. vals. rewrite Z.gtb_ltb. by apply Z.ltb_lt. }
  assert (ae_frame_cnt (count_frame e c) = start) as Hcnt.
  { cbn. rewrite <- Hs. unfold u64. rewrite Z.mod_small; lia. }
  split; unfold isp_flash_open; vals; rewrite ?count_fields by done; try done; try lia.
  - cbn [ae_frame_cnt put]. rewrite Hcnt. apply s32_small. unfold in_int, INT_MIN, INT_MAX. lia.
  - cbn [ae_frame_cnt put ask]. rewrite Hcnt. lia.
  - cbn [requests put ask]. rewrite lamp_commands_app. unfold commands_at. compare. done.
Qed.

(** C24: a picture with flash in automatic mode, from the first dark frame
    after it was asked for on, whatever the exposure algorithm then finds: the
    lamp is told to be a torch at once, is turned off once the delay of the
    sensor is over and the exposure is locked, flashes one frame later, and is
    turned off six frames after that, when the exposure is unlocked; it gets no
    other command, and the picture is marked good from the fourth frame after
    the delay on. *)
Theorem flash_sequence e es c d :
  c_val c (Ae flash_mode) = FLASH_MODE_AUTO -> c_val c (Ae take_picture_flag) = V4L2_TAKE_PICTURE_FLASH ->
  c_val c (Ae flash_open) = 0 -> c_val c (Other flash_delay_frame) = d -> 1 <= d ->
  s32 (idx_max e - 20) < idx e ->
  0 <= ae_frame_cnt c -> ae_frame_cnt c + d + Z.of_nat (length es) + 8 < 2 ^ 31 ->
  let o := Z.of_nat (length es) in
  let c' := frames (e :: es) c in
  lamp_commands (requests c') = lamp_commands (requests c) ++ commands_at d o /\
  (d <= o -> c_val c' (Ae exposure_lock) = if o <? d + 7 then 1 else 0) /\
  (d + 4 <= o -> c_val c' (Other flash_ok) = 1).
Proof.
  intros H1 H2 H3 H4 Hd He Hn Hb o c'.
  assert (shooting d (ae_frame_cnt c + 1) (lamp_commands (requests c)) o c') as []; [|done].
  apply (shooting_frames d _ _ es (frame e c)); [lia..|]. apply frame_opens; done || lia.
Qed.

(** ** Examples *)

Definition quiet_exposure : exposure := mkExposure 50 60 40 (-10).
Definition fresh_ctx : isp_lib_context :=
  mkCtx (<[Ae flash_mode := FLASH_MODE_AUTO]> (<[Other flash_delay_frame := 2]> (fun _ => 0))) 0 0 true [].
Definition no_floats (value hts pclk : Z) : Z := 0.
Definition asked_ctx : isp_lib_context := isp_s_take_picture V4L2_TAKE_PICTURE_FLASH fresh_ctx.

Lemma changes_flagged_witness : exists c,
  settings_calls no_floats [Control V4L2_CID_CONTRAST 3; Attribute ISP_CTRL_COLOR_EFFECT (AInt 2); Control V4L2_CID_CONTRAST 3] fresh_ctx = Some c /\
  covers (isp_3a_change_flags c) ISP_SET_CONTRAST /\ isp_3a_change_flags c = 576.
Proof.
  eexists. split; [reflexivity|]. split; [|reflexivity].
  apply (changes_flagged no_floats [Control V4L2_CID_CONTRAST 3; Attribute ISP_CTRL_COLOR_EFFECT (AInt 2); Control V4L2_CID_CONTRAST 3]
    fresh_ctx _ eq_refl) with (f := Tune contrast_level); [reflexivity|vm_compute; discriminate|].
  intros (id & v & Hin & [[_ E]|[_ E]]); discriminate.
Defined.

Lemma attributes_read_back_witness : exists c,
  isp_set_attr_cfg ISP_CTRL_AE_ROI (AWin (mkWin 1 2 3 4)) fresh_ctx = Some c /\
  isp_get_attr_cfg ISP_CTRL_AE_ROI c = Some (AWin (mkWin 1 2 3 4)).
Proof.
  eexists. split; [reflexivity|].
  apply (attributes_read_back ISP_CTRL_AE_ROI (AWin (mkWin 1 2 3 4)) fresh_ctx); reflexivity.
Defined.

Lemma flash_sequence_witness :
  lamp_commands (requests (frames (replicate 10 quiet_exposure) asked_ctx)) = [2; 0; 1; 0] /\
  c_val (frames (replicate 10 quiet_exposure) asked_ctx) (Other flash_ok) = 1.
Proof.
  destruct (flash_sequence quiet_exposure (replicate 9 quiet_exposure) asked_ctx 2) as (H1 & _ & H3);
    [reflexivity..|lia|vm_compute; reflexivity|vm_compute; discriminate|vm_compute; reflexivity|].
  split; [exact H1|apply H3; vm_compute; discriminate].
Defined.

Lemma idle_auto l c :
  c_val c (Ae flash_mode) = FLASH_MODE_AUTO -> c_val c (Ae take_picture_flag) = V4L2_TAKE_PICTURE_STOP ->
  requests (frames l c) = requests c /\ c_val (frames l c) (Ae exposure_lock) = c_val c (Ae exposure_lock).
Proof.
  revert c. induction l as [|e l IH]; intros c H1 H2; [done|]. cbn [frames foldl]. fold (frames l (frame e c)).
  assert (frame e c = count_frame e c) as ->.
  { unfold frame, isp_flash_update_status, flash_auto. rewrite !count_fields by done. by rewrite H1, H2. }
  assert (c_val (count_frame e c) (Ae flash_mode) = FLASH_MODE_AUTO) as H1' by by rewrite count_fields.
  assert (c_val (count_frame e c) (Ae take_picture_flag) = V4L2_TAKE_PICTURE_STOP) as H2' by by rewrite count_fields.
  destruct (IH _ H1' H2') as [Hr Hv]. rewrite Hr, Hv. by rewrite count_fields.
Qed.

(** A picture that is stopped while the flash is lit: the state machine only
    looks at the flash while a picture is taken, so the lamp stays lit and the
    exposure locked for as long as the mode stays automatic. *)
Lemma stop_leaves_flash_lit l :
  let c := isp_s_take_picture V4L2_TAKE_PICTURE_STOP (frames (replicate 8 quiet_exposure) asked_ctx) in
  rev (lamp_commands (requests (frames l c))) !! 0%nat = Some V4L2_FLASH_LED_MODE_FLASH /\
  c_val (frames l c) (Ae exposure_lock) = 1.
Proof.
  intros c. assert (c_val c (Ae flash_mode) = FLASH_MODE_AUTO) as H1 by by vm_compute.
  assert (c_val c (Ae take_picture_flag) = V4L2_TAKE_PICTURE_STOP) as H2 by by vm_compute.
  destruct (idle_auto l c H1 H2) as [Hr Hv].
  rewrite Hr, Hv. clear H1 H2 Hr Hv. split; vm_compute; reflexivity.
Qed.

(** In the torch mode the lamp is off after a picture, and recorded as lit. *)
Lemma torch_recorded_lit :
  let c := isp_s_flash_mode FLASH_MODE_TORCH asked_ctx in
  let c' := frames (replicate 7 quiet_exposure) c in
  rev (lamp_commands (requests c')) !! 0%nat = Some V4L2_FLASH_LED_MODE_NONE /\
  c_val c' (Res ae_flash_led) = V4L2_FLASH_LED_MODE_TORCH.
Proof. by vm_compute. Qed.

(** The white balance of a preset reaches the algorithms without its flag. *)
Lemma preset_not_flagged :
  isp_3a_change_flags <$> settings_calls no_floats [Control V4L2_CID_AUTO_N_PRESET_WHITE_BALANCE 6] fresh_ctx = Some 0 /\
  isp_3a_change_flags <$> settings_calls no_floats [Control V4L2_CID_AUTO_WHITE_BALANCE 6] fresh_ctx = Some ISP_SET_AWB_MODE.
Proof. by vm_compute. Qed.

End IspCtrl.
