(* ===== verification/IspLib.v ===== *)
(** * Life cycle of the ISP library (camera/3_4/allwinnertech/libAWIspApi/libisp_new:
      isp.c, isp_dev/isp_dev.c, isp_dev/isp_v4l2_helper.c)

    The two ISP devices, their users, threads and open descriptors.  A device
    is opened by the first of its users, from the media graph of [IspMedia];
    its thread waits for the driver's events in the loop of [IspEvents], and
    the callbacks change the settings of [IspCtrl].

    What the kernel answers is an argument of the operations.  The algorithms,
    the tuning tables and the register table keep no part of this state, but
    for the initialisation of the tuning, which can fail; the sensor and the
    actuator are only written to.  [None] is undefined behaviour, or an
    operation that waits for ever. *)

From Stdlib Require Import ZArith Lia.
From stdpp Require Import base tactics option list list_numbers numbers gmap sets.
From Stdlib Require Ascii String.
From S2P Require Import Prelude CString IspEvents IspMedia IspCtrl.

Import String.StringSyntax.

Local Open Scope Z_scope.

Module IspLib.

Import CString IspEvents IspMedia IspCtrl.

(** ** Data *)

Definition HW_ISP_DEVICE_NUM : Z := 2.
Definition ENOENT : Z := 2.

(** [struct hw_isp_device]; the context it is bound to has its number. *)
Record hw_isp_device := mkDev {
  d_id : Z; d_subdev : media_entity; d_stat : media_entity; d_sensor : media_entity;
  load_type : Z; d_size : Z; d_buffer : bool
}.

Inductive callback := isp_subdev_handle_event | isp_stat_process_buffer.

(** What [pthread_join] finds of a device's thread. *)
Inductive thread := NoThread | Running | Finished.

(** [media_params], [events_arr], [isp_ctx] and the descriptors of the process
    that are open for them.  The lists have an element per device. *)
Record isp_lib := mkLib {
  l_mdev : option media_device; l_dev : list (option hw_isp_device); isp_use_cnt : list Z;
  isp_tid : list thread; isp_sync_mode : Z; events_arr : list (event_list callback);
  isp_ctx : list isp_lib_context; l_files : list Z
}.

Definition set_mdev (m : option media_device) (l : isp_lib) : isp_lib :=
  mkLib m (l_dev l) (isp_use_cnt l) (isp_tid l) (isp_sync_mode l) (events_arr l) (isp_ctx l) (l_files l).
Definition set_dev (i : nat) (d : option hw_isp_device) (l : isp_lib) : isp_lib :=
  mkLib (l_mdev l) (<[i := d]> (l_dev l)) (isp_use_cnt l) (isp_tid l) (isp_sync_mode l) (events_arr l) (isp_ctx l) (l_files l).
Definition set_cnt (i : nat) (n : Z) (l : isp_lib) : isp_lib :=
  mkLib (l_mdev l) (l_dev l) (<[i := n]> (isp_use_cnt l)) (isp_tid l) (isp_sync_mode l) (events_arr l) (isp_ctx l) (l_files l).
Definition set_tid (i : nat) (t : thread) (l : isp_lib) : isp_lib :=
  mkLib (l_mdev l) (l_dev l) (isp_use_cnt l) (<[i := t]> (isp_tid l)) (isp_sync_mode l) (events_arr l) (isp_ctx l) (l_files l).
Definition set_sync (mode : Z) (l : isp_lib) : isp_lib :=
  mkLib (l_mdev l) (l_dev l) (isp_use_cnt l) (isp_tid l) mode (events_arr l) (isp_ctx l) (l_files l).
Definition set_events_of (i : nat) (e : event_list callback) (l : isp_lib) : isp_lib :=
  mkLib (l_mdev l) (l_dev l) (isp_use_cnt l) (isp_tid l) (isp_sync_mode l) (<[i := e]> (events_arr l)) (isp_ctx l) (l_files l).
Definition set_ctx (i : nat) (c : isp_lib_context) (l : isp_lib) : isp_lib :=
  mkLib (l_mdev l) (l_dev l) (isp_use_cnt l) (isp_tid l) (isp_sync_mode l) (events_arr l) (<[i := c]> (isp_ctx l)) (l_files l).
Definition set_files (f : list Z) (l : isp_lib) : isp_lib :=
  mkLib (l_mdev l) (l_dev l) (isp_use_cnt l) (isp_tid l) (isp_sync_mode l) (events_arr l) (isp_ctx l) f.

(** ** Descriptors *)

Definition close (fd : Z) (files : list Z) : list Z := filter (fun x => x <> fd) files.

Definition set_fd (fd : Z) (e : media_entity) : media_entity :=
  mkEntity (m_info e) (m_pads e) (m_links e) (m_max_links e) (m_devname e) fd.

(** [r] is the descriptor [open] gives, or [- errno]. *)
Definition v4l2_subdev_open (e : media_entity) (r : Z) (files : list Z) : Z * media_entity * list Z :=
  if negb (m_fd e =? -1) then (0, e, files)
  else if r <? 0 then (r, set_fd (-1) e, files) else (0, set_fd r e, r :: files).

Definition v4l2_subdev_close (e : media_entity) (files : list Z) : list Z :=
  if m_fd e =? -1 then files else close (m_fd e) files.

Definition media_close (m : media_device) (files : list Z) : list Z :=
  let files := if d_fd m =? -1 then files else close (d_fd m) files in
  foldl (fun files e => if m_fd e =? -1 then files else close (m_fd e) files) files (d_entities m).

(** ** Opening a device *)

(** What the kernel answers while a device is opened.  [k_size] is the size of
    the statistics, or [- errno]; [k_mem] and [k_buffer] tell whether [malloc]
    gives memory; [k_tuning] whether [isp_tuning_init] gives a pointer. *)
Record answers := mkInitAnswers {
  k_media : media_answers; k_mem : bool; k_stat : Z; k_size : Z; k_buffer : bool; k_subdev : Z; k_sensor : Z;
  k_tuning : bool
}.

(** [snprintf] of a name and the number of the device *)
Definition numbered (name : list Z) (id : Z) : list Z := name ++ [46; 48 + id].

Definition open_named (m : media_device) (name : list Z) (r : Z) (files : list Z)
  : option (Z * option media_entity * list Z) :=
  match media_get_entity_by_name m name with
  | None => Some (- ENOENT, None, files)
  | Some i => e ← d_entities m !! i; let '(ret, e, files) := v4l2_subdev_open e r files in Some (ret, Some e, files)
  end.

(** The steps of [isp_dev_open] that can fail; a failure gives the descriptors
    that are open by then. *)
Definition open_device (m : media_device) (id : Z) (k : answers) (files : list Z)
  : option (list Z + hw_isp_device * list Z) :=
  '(ret, stat, files) ← open_named m (numbered (bytes "sunxi_h3a") id) (k_stat k) files;
  match stat with
  | Some stat =>
      if ret <? 0 then Some (inl files) else
      if k_size k <? 0 then Some (inl files) else
      if negb (k_buffer k) then Some (inl files) else
      '(ret, subdev, files) ← open_named m (numbered (bytes "sunxi_isp") id) (k_subdev k) files;
      match subdev with
      | Some subdev =>
          if ret <? 0 then Some (inl files) else
          i ← media_get_entity_by_name m (numbered (bytes "sunxi_isp") id);
          head ← media_pipeline_get_head m i;
          match head with
          | None => Some (inl files)
          | Some h =>
              e ← d_entities m !! h;
              let '(ret, sensor, files) := v4l2_subdev_open e (k_sensor k) files in
              if ret <? 0 then Some (inl files)
              else Some (inr (mkDev id subdev stat sensor 0 (k_size k) true, files))
          end
      | None => Some (inl files)
      end
  | None => Some (inl files)
  end.

(** [id] is in range: [isp_init] has looked. *)
Definition isp_dev_open (m : media_device) (id : nat) (k : answers) (l : isp_lib) : option (Z * isp_lib) :=
  dev ← l_dev l !! id;
  match dev with
  | Some _ => Some (0, l)
  | None =>
      if negb (k_mem k) then Some (-1, set_dev id None l) else
      r ← open_device m (Z.of_nat id) k (l_files l);
      match r with
      | inl files => Some (-1, set_dev id None (set_files files l))
      | inr (d, files) => Some (0, set_dev id (Some d) (set_files files l))
      end
  end.

Definition isp_dev_close (id : nat) (l : isp_lib) : option isp_lib :=
  dev ← l_dev l !! id;
  match dev with
  | None => Some l
  | Some d =>
      let files := v4l2_subdev_close (d_stat d) (l_files l) in
      let files := v4l2_subdev_close (d_subdev d) files in
      let files := v4l2_subdev_close (d_sensor d) files in
      Some (set_dev id None (set_files files l))
  end.

(** ** The calls of the application *)

(** A number below 0 is not looked for. *)
Definition device_index (dev_id : Z) : option nat := if dev_id <? 0 then None else Some (Z.to_nat dev_id).

(** From the first user's point of view: the graph is read again, the device
    opened and its events made ready. *)
Definition first_init (id : nat) (k : answers) (l : isp_lib) : option (Z * isp_lib) :=
  let l := match l_mdev l with Some m => set_mdev None (set_files (media_close m (l_files l)) l) | None => l end in
  m ← media_open (k_media k);
  match m with
  | None => Some (-1, set_mdev None l)
  | Some m =>
      '(ret, l) ← isp_dev_open m id k (set_mdev (Some m) (set_files (d_fd m :: l_files l) l));
      if ret <? 0 then Some (ret, l)
      else if negb (k_tuning k) then Some (-1, l)
      else e ← events_arr l !! id; Some (0, set_events_of id (events_star (events_init e)) l)
  end.

Definition isp_init (dev_id : Z) (k : answers) (l : isp_lib) : option (Z * isp_lib) :=
  if HW_ISP_DEVICE_NUM <=? dev_id then Some (-1, l) else
  id ← device_index dev_id;
  n ← isp_use_cnt l !! id;
  let l := set_cnt id (u32 (n + 1)) l in
  if 0 <? n then Some (0, l) else first_init id k l.

(** [created] is what [pthread_create] returns.  The number of a thread that
    was there before is lost. *)
Definition isp_run (dev_id created : Z) (l : isp_lib) : option (Z * isp_lib) :=
  if HW_ISP_DEVICE_NUM <=? dev_id then Some (-1, l) else
  id ← device_index dev_id;
  n ← isp_use_cnt l !! id;
  if 1 <? n then Some (0, l) else
  dev ← l_dev l !! id;
  match dev with
  | None => Some (-1, l)
  | Some _ => if created =? 0 then Some (0, set_tid id Running l) else Some (created, l)
  end.

Definition isp_stop (dev_id : Z) (l : isp_lib) : option (Z * isp_lib) :=
  if HW_ISP_DEVICE_NUM <=? dev_id then Some (-1, l) else
  id ← device_index dev_id;
  n ← isp_use_cnt l !! id;
  if n =? 1 then e ← events_arr l !! id; Some (0, set_events_of id (events_stop e) l) else Some (0, l).

(** [pthread_join] of a thread that never was is undefined; one that runs is
    waited for, here: its end is a step of its own. *)
Definition isp_exit (dev_id : Z) (l : isp_lib) : option (Z * isp_lib) :=
  if HW_ISP_DEVICE_NUM <=? dev_id then Some (-1, l) else
  id ← device_index dev_id;
  n ← isp_use_cnt l !! id;
  if n =? 0 then Some (0, l) else
  let l := set_cnt id (n - 1) l in
  if 0 <? n - 1 then Some (0, l) else
  dev ← l_dev l !! id;
  match dev with
  | None => Some (-1, l)
  | Some _ =>
      t ← isp_tid l !! id;
      match t with
      | Finished => l ← isp_dev_close id (set_tid id NoThread l); Some (0, l)
      | _ => None
      end
  end.

Definition isp_set_sync (mode : Z) (l : isp_lib) : Z * isp_lib :=
  if (mode =? 0) || (mode =? 1) then (0, set_sync mode l) else (-1, l).

Definition media_dev_exit (l : isp_lib) : isp_lib :=
  match isp_use_cnt l with
  | 0 :: 0 :: _ =>
      match l_mdev l with
      | Some m => set_mdev None (set_files (media_close m (l_files l)) l)
      | None => l
      end
  | _ => l
  end.

(** ** The thread of a device *)

(** What [VIDIOC_DQEVENT] gives for the device, and for its statistics with
    what the algorithms then find. *)
Inductive event_answer := DqErr | DqCtrl (id value : Z) | DqFsync (data0 data1 : Z) | DqOff | DqOther.
Inductive stat_answer := StErr | StBufErr | StReqErr | StData (e : exposure) (r gr gb b : Z).

(** What [ioctl] returns while the thread starts, [s_ctrls] for each of the
    controls, and whether [malloc] gives the two entries of the list. *)
Record start_answers := mkStart {
  s_sync : Z; s_off : Z; s_ctrls : list Z; s_h3a : Z; s_enable : Z; s_mem1 : bool; s_mem2 : bool
}.

Section Thread.
  Context (exp_us : Z -> Z -> Z -> Z) (dq : nat -> event_answer) (sq : nat -> stat_answer).

(** What the thread works on, and how many events it has fetched. *)
Record tstate := mkThread { t_ev : event_list callback; t_ctx : isp_lib_context; t_load : Z; t_dq : nat; t_sq : nat }.

Definition set_t_ev (e : event_list callback) (s : tstate) : tstate := mkThread e (t_ctx s) (t_load s) (t_dq s) (t_sq s).

Definition handle_event (s : tstate) : option tstate :=
  let s' := mkThread (t_ev s) (t_ctx s) (t_load s) (S (t_dq s)) (t_sq s) in
  match dq (t_dq s) with
  | DqErr | DqOther => Some s'
  | DqCtrl id value => c ← isp_ctrl_process exp_us id value (t_ctx s); Some (mkThread (t_ev s) c (t_load s) (S (t_dq s)) (t_sq s))
  | DqFsync data0 data1 => Some (mkThread (t_ev s) (isp_fsync_process data1 (t_ctx s)) data0 (S (t_dq s)) (t_sq s))
  | DqOff => Some (set_t_ev (events_stop (t_ev s)) s')
  end.

(** The gains for the sensor are divided by the green gains. *)
Definition isp_stats_process (e : exposure) (r gr gb b : Z) (c : isp_lib_context) : option isp_lib_context :=
  let c := frame e c in
  if (gr =? 0) || (gb =? 0) then None else Some c.

Definition process_buffer (s : tstate) : option tstate :=
  match sq (t_sq s) with
  | StErr | StBufErr | StReqErr => Some (mkThread (t_ev s) (t_ctx s) (t_load s) (t_dq s) (S (t_sq s)))
  | StData e r gr gb b =>
      c ← isp_stats_process e r gr gb b (t_ctx s); Some (mkThread (t_ev s) c (t_load s) (t_dq s) (S (t_sq s)))
  end.

Definition run_callback (c : callback) (s : tstate) : option tstate :=
  match c with isp_subdev_handle_event => handle_event s | isp_stat_process_buffer => process_buffer s end.

Definition first_error (l : list Z) : option Z := find (fun r => r <? 0) l.

Definition isp_dev_start (d : hw_isp_device) (a : start_answers) (e : event_list callback) : option (Z * event_list callback) :=
  match first_error ([s_sync a; s_off a] ++ s_ctrls a) with
  | Some ret => Some (ret, e)
  | None =>
      e ← events_monitor_fd (m_fd (d_subdev d)) HW_ISP_EVENT_EXCEPTION isp_subdev_handle_event (s_mem1 a) e;
      match first_error [s_h3a a; s_enable a] with
      | Some ret => Some (ret, e)
      | None =>
          e ← events_monitor_fd (m_fd (d_stat d)) HW_ISP_EVENT_EXCEPTION isp_stat_process_buffer (s_mem2 a) e;
          Some (0, e)
      end
  end.

Definition isp_dev_stop (d : hw_isp_device) (e : event_list callback) : option (event_list callback) :=
  e ← events_unmonitor_fd (m_fd (d_subdev d)) e; events_unmonitor_fd (m_fd (d_stat d)) e.

Definition thread_body (d : hw_isp_device) (a : start_answers) (stopped : nat -> nat -> bool) (sels : list select_res)
  (s : tstate) : option tstate :=
  '(ret, e) ← isp_dev_start d a (t_ev s);
  let s := set_t_ev e s in
  s ← (if ret <? 0 then Some s
       else '(_, s) ← events_loop t_ev set_t_ev run_callback 0 stopped sels s; Some s);
  e ← isp_dev_stop d (t_ev s); Some (set_t_ev e s).

(** The whole life of the thread of a device, which owns the list and the
    context; [stopped] tells when a call of [isp_stop] is seen. *)
Definition isp_thread (id : nat) (a : start_answers) (stopped : nat -> nat -> bool) (sels : list select_res) (l : isp_lib)
  : option isp_lib :=
  t ← isp_tid l !! id; dev ← l_dev l !! id; e ← events_arr l !! id; c ← isp_ctx l !! id;
  match t, dev with
  | Running, Some d =>
      s ← thread_body d a stopped sels (mkThread e c (load_type d) 0 0);
      Some (set_tid id Finished (set_ctx id (t_ctx s) (set_events_of id (t_ev s) l)))
  | _, _ => None
  end.

(** ** The thread ends and cleans up *)

(** A control whose value is an index beyond its menu. *)
Definition off_menu (id value : Z) : Prop :=
  (id = V4L2_CID_AUTO_EXPOSURE_BIAS /\ ~ (0 <= value < 9)) \/ (id = V4L2_CID_ISO_SENSITIVITY /\ ~ (0 <= value < 7)).

(** What makes a callback undefined: the driver reports such a control, or the
    white balance gives a green gain of 0. *)
Definition bad_report : Prop :=
  (exists n id value, dq n = DqCtrl id value /\ off_menu id value) \/
  (exists n e r gr gb b, sq n = StData e r gr gb b /\ (gr = 0 \/ gb = 0)).

Lemma menu_in l v : 0 <= v < Z.of_nat (length l) -> is_Some (menu l v).
Proof. intros H. unfold menu. rewrite (proj2 (Z.ltb_ge _ _)) by lia. apply lookup_lt_is_Some. lia. Qed.

Lemma menu_out l v : ~ (0 <= v < Z.of_nat (length l)) -> menu l v = None.
Proof. intros H. unfold menu. destruct (Z.ltb_spec v 0); [done|]. apply lookup_ge_None. lia. Qed.

Lemma ctrl_defined id v c :
  is_Some (isp_ctrl_process exp_us id v c) \/ isp_ctrl_process exp_us id v c = None /\ off_menu id v.
Proof.
  destruct (isp_ctrl_process exp_us id v c) as [c'|] eqn:E; [by left; exists c'|right; split; [done|]].
  unfold isp_ctrl_process in E.
  destruct (setter_of exp_us id) as [f|m f|] eqn:Es; [done| |done].
  assert ((id = V4L2_CID_AUTO_EXPOSURE_BIAS /\ m = exp_bias_qmenu) \/ (id = V4L2_CID_ISO_SENSITIVITY /\ m = iso_qmenu)) as Hm.
  { unfold setter_of in Es. repeat match type of Es with (if ?a =? ?b then _ else _) = _ =>
      destruct (Z.eqb_spec a b); [try done; injection Es as <- _; by auto|] end. done. }
  unfold off_menu. destruct Hm as [[-> ->]|[-> ->]]; [left|right]; (split; [done|]); intros Hv;
    [destruct (menu_in exp_bias_qmenu v) as [w Hw]|destruct (menu_in iso_qmenu v) as [w Hw]]; try exact Hv;
    by rewrite Hw in E.
Qed.

Lemma callbacks_total c s : is_Some (run_callback c s) \/ run_callback c s = None /\ bad_report.
Proof.
  destruct c; cbn [run_callback]; unfold handle_event, process_buffer, bad_report.
  - destruct (dq (t_dq s)) as [|id v|d0 d1| |] eqn:Ed; try by left; eexists.
    destruct (ctrl_defined id v (t_ctx s)) as [[c ->]|[-> H]]; cbn [mbind option_bind]; [by left; eexists|].
    right. split; [done|]. left. by exists (t_dq s), id, v.
  - destruct (sq (t_sq s)) as [| | |e r gr gb b] eqn:Eq; try by left; eexists.
    unfold isp_stats_process. destruct (Z.eqb_spec gr 0), (Z.eqb_spec gb 0); cbn [orb mbind option_bind];
      [right; split; [done|]; right; exists (t_sq s), e, r, gr, gb, b; split; [done|]; by auto..|by left; eexists].
Qed.

Lemma callbacks_only_done c s s' : run_callback c s = Some s' -> t_ev s' = t_ev s \/ t_ev s' = events_stop (t_ev s).
Proof.
  destruct c; cbn [run_callback]; unfold handle_event, process_buffer.
  - destruct (dq (t_dq s)) as [|id v|d0 d1| |]; try (intros [= <-]; cbn; auto).
    destruct (isp_ctrl_process _ _ _ _); [|done]. intros [= <-]. by left.
  - destruct (sq (t_sq s)) as [| | |e r gr gb b]; try (intros [= <-]; cbn; auto).
    destruct (isp_stats_process _ _ _ _ _ _); [|done]. intros [= <-]. by left.
Qed.

Lemma callbacks_quiet c s s' : run_callback c s = Some s' -> e_events (t_ev s') = e_events (t_ev s).
Proof. intros H. by destruct (callbacks_only_done _ _ _ H) as [-> | ->]. Qed.

Lemma monitor_opt fd t (c : callback) mem e : events_ok e -> fd ∉ fds e -> fd_ok fd = true ->
  exists e', events_monitor_fd fd t c mem e = Some e' /\ events_ok e' /\
    map snd (e_events e') = map snd (e_events e) ++ (if mem then [mkEvent fd t c] else []).
Proof.
  intros Hok Hn Hr. destruct mem; [by apply monitor_ok|].
  exists e. split_and!; [done|done|by rewrite app_nil_r].
Qed.

Definition own_fds (d : hw_isp_device) (e : event_list callback) : Prop :=
  Forall (fun ev => ev_fd ev = m_fd (d_subdev d) \/ ev_fd ev = m_fd (d_stat d)) (map snd (e_events e)).

(** The two descriptors can be monitored. *)
Definition fds_valid (d : hw_isp_device) : Prop :=
  fd_ok (m_fd (d_subdev d)) = true /\ fd_ok (m_fd (d_stat d)) = true /\ m_fd (d_subdev d) <> m_fd (d_stat d).

Lemma start_monitors d a e : events_ok e -> e_events e = [] -> fds_valid d ->
  exists ret e', isp_dev_start d a e = Some (ret, e') /\ events_ok e' /\ own_fds d e'.
Proof.
  intros Hok He (H1 & H2 & H3). unfold isp_dev_start, own_fds.
  destruct (first_error _) as [ret|]; [exists ret, e; by rewrite He|].
  assert (fds e = []) as Hfds by (unfold fds; by rewrite He).
  destruct (monitor_opt (m_fd (d_subdev d)) HW_ISP_EVENT_EXCEPTION isp_subdev_handle_event (s_mem1 a) e Hok)
    as (e1 & -> & Hok1 & E1); [by rewrite Hfds; apply not_elem_of_nil|done|]. cbn [mbind option_bind].
  rewrite He in E1. cbn [map app] in E1.
  destruct (first_error _) as [ret|]; [exists ret, e1; split_and!; [done..|]; rewrite E1; destruct (s_mem1 a); auto|].
  destruct (monitor_opt (m_fd (d_stat d)) HW_ISP_EVENT_EXCEPTION isp_stat_process_buffer (s_mem2 a) e1 Hok1)
    as (e2 & -> & Hok2 & E2); [|done|].
  - rewrite fds_entries, E1. destruct (s_mem1 a); [|apply not_elem_of_nil].
    cbn. intros [E|E]%elem_of_cons; [congruence|by apply elem_of_nil in E].
  - cbn [mbind option_bind]. exists 0, e2. split_and!; [done..|]. rewrite E2, E1.
    destruct (s_mem1 a), (s_mem2 a); cbn; auto.
Qed.

Lemma stop_clears d e : events_ok e -> own_fds d e ->
  exists e', isp_dev_stop d e = Some e' /\ events_ok e' /\ e_events e' = [].
Proof.
  intros Hok Hown. unfold isp_dev_stop.
  destruct (unmonitor_ok (m_fd (d_subdev d)) e Hok) as (e1 & -> & Hok1 & E1). cbn [mbind option_bind].
  destruct (unmonitor_ok (m_fd (d_stat d)) e1 Hok1) as (e2 & -> & Hok2 & E2).
  exists e2. split_and!; [done..|]. apply (fmap_nil_inv snd). change (map snd (e_events e2) = []). rewrite E2, E1.
  clear E1 E2. unfold own_fds in Hown. induction Hown as [|ev l [Hev|Hev] _ IH]; [done|..].
  - rewrite filter_cons_False by (intros H; by apply H). exact IH.
  - destruct (decide (ev_fd ev = m_fd (d_subdev d))) as [E|E].
    + rewrite filter_cons_False by (intros H; by apply H). exact IH.
    + rewrite (filter_cons_True _ ev l) by exact E. rewrite filter_cons_False by (intros H; by apply H). exact IH.
Qed.

Lemma own_fds_same d e e' : e_events e' = e_events e -> own_fds d e -> own_fds d e'.
Proof. unfold own_fds. by intros ->. Qed.

Lemma body_ends d a stopped sels m s : events_ok (t_ev s) -> e_events (t_ev s) = [] -> fds_valid d ->
  stopped m 0%nat = true -> (m <= length sels)%nat ->
  (exists s', thread_body d a stopped sels s = Some s' /\ events_ok (t_ev s') /\ e_events (t_ev s') = []) \/
  thread_body d a stopped sels s = None /\ bad_report.
Proof.
  intros Hok He Hd Hm Hl. unfold thread_body.
  destruct (start_monitors d a (t_ev s) Hok He Hd) as (ret & e1 & -> & Hok1 & Hown). cbn [mbind option_bind].
  assert ((exists s1, (if ret <? 0 then Some (set_t_ev e1 s)
    else '(_, s) ← events_loop t_ev set_t_ev run_callback 0 stopped sels (set_t_ev e1 s); Some s) = Some s1 /\
    events_ok (t_ev s1) /\ own_fds d (t_ev s1)) \/
    (if ret <? 0 then Some (set_t_ev e1 s)
     else '(_, s) ← events_loop t_ev set_t_ev run_callback 0 stopped sels (set_t_ev e1 s); Some s) = None /\ bad_report)
    as [(s1 & -> & Hok2 & Hown2)|[-> Hbad]]; [| |by right].
  { destruct (ret <? 0); [left; by exists (set_t_ev e1 s)|].
    destruct (loop_stops t_ev set_t_ev run_callback (fun _ _ => eq_refl) callbacks_quiet bad_report callbacks_total
      callbacks_only_done stopped sels m Hm 0%nat (set_t_ev e1 s)
      Hok1) as [(b & s1 & -> & Hs)|[-> Hbad]]; [lia..| |by right].
    left. exists s1. split_and!; [done| |].
    - exact (same_ok t_ev _ _ Hs Hok1).
    - exact (own_fds_same _ _ _ (same_entries t_ev _ _ Hs) Hown). }
  cbn [mbind option_bind]. destruct (stop_clears d (t_ev s1) Hok2 Hown2) as (e2 & -> & Hok3 & He3).
  cbn [mbind option_bind]. left. by eexists.
Qed.

(** C9: stopping a device ends its thread: from the state [isp_init] leaves,
    with descriptors that fit into the sets of [select], whatever the driver
    answers while the thread starts and whatever events it reports, if [isp_stop]
    is seen at the beginning of some turn of the loop, the thread ends within the
    turns up to that one; both its descriptors are unmonitored, and the device,
    its descriptors and its users are as before.  The one exception is a report
    that makes a callback undefined, since nothing is checked there: a menu
    control with an index outside its table, or a green gain of 0. *)
Theorem stop_ends_thread id d e c a stopped sels m l :
  isp_tid l !! id = Some Running -> l_dev l !! id = Some (Some d) -> events_arr l !! id = Some e ->
  isp_ctx l !! id = Some c -> events_ok e -> e_events e = [] -> fds_valid d ->
  stopped m 0%nat = true -> (m <= length sels)%nat ->
  (exists l', isp_thread id a stopped sels l = Some l' /\ isp_tid l' !! id = Some Finished /\
    (exists e', events_arr l' !! id = Some e' /\ events_ok e' /\ e_events e' = []) /\
    l_dev l' = l_dev l /\ l_files l' = l_files l /\ isp_use_cnt l' = isp_use_cnt l) \/
  (isp_thread id a stopped sels l = None /\ bad_report).
Proof.
  intros Ht Hdev Hev Hc Hok He Hd Hm Hl. unfold isp_thread. rewrite Ht, Hdev, Hev, Hc. cbn [mbind option_bind].
  destruct (body_ends d a stopped sels m (mkThread e c (load_type d) 0 0) Hok He Hd Hm Hl)
    as [(s & -> & Hok' & He')|[-> Hbad]]; cbn [mbind option_bind]; [left|by right]. eexists. split; [reflexivity|].
  cbn [isp_tid events_arr l_dev l_files isp_use_cnt set_tid set_ctx set_events_of].
  split_and!; try done; [apply list_lookup_insert_eq; by apply lookup_lt_Some in Ht|].
  exists (t_ev s). split_and!; [apply list_lookup_insert_eq; by apply lookup_lt_Some in Hev|done..].
Qed.

End Thread.

(** ** Users, devices and descriptors *)

Definition dev_fds (d : option hw_isp_device) : list Z :=
  match d with Some d => [m_fd (d_stat d); m_fd (d_subdev d); m_fd (d_sensor d)] | None => [] end.
Definition media_fds (m : option media_device) : list Z := match m with Some m => [d_fd m] | None => [] end.

(** The descriptors the state accounts for. *)
Definition fds_of (l : isp_lib) : list Z := media_fds (l_mdev l) ++ concat (map dev_fds (l_dev l)).

Record lib_ok (l : isp_lib) : Prop := {
  lo_files : l_files l ≡ₚ fds_of l;
  lo_nodup : NoDup (l_files l);
  lo_pos : Forall (fun fd => 0 <= fd) (l_files l);
  lo_media : forall m, l_mdev l = Some m -> only_device_open (d_fd m) m;
  lo_users : forall i n d, isp_use_cnt l !! i = Some n -> l_dev l !! i = Some d -> 0 <= n /\ (n = 0 <-> d = None);
  lo_len : length (l_dev l) = 2%nat
}.

Lemma close_perm fd fs files : files ≡ₚ fd :: fs -> NoDup files -> close fd files ≡ₚ fs.
Proof.
  intros E Hn. unfold close. rewrite E in *. apply NoDup_cons in Hn as [Hn _].
  rewrite filter_cons_False by (intros H; by apply H).
  rewrite filter_all; [done|]. apply Forall_forall. intros x Hx ->. done.
Qed.

Lemma close_entity e fs files : 0 <= m_fd e -> files ≡ₚ m_fd e :: fs -> NoDup files ->
  v4l2_subdev_close e files ≡ₚ fs.
Proof. intros H E Hn. unfold v4l2_subdev_close. rewrite (proj2 (Z.eqb_neq _ _)) by lia. by apply close_perm. Qed.

Lemma media_close_only m files : only_device_open (d_fd m) m -> 0 <= d_fd m -> media_close m files = close (d_fd m) files.
Proof.
  intros [_ H] H0. unfold media_close. rewrite (proj2 (Z.eqb_neq _ _)) by lia. generalize (close (d_fd m) files).
  induction H as [|e es He _ IH]; intros fs; cbn [foldl]; [done|]. rewrite He. apply IH.
Qed.

Lemma concat_insert (l : list (option hw_isp_device)) i x y : l !! i = Some y ->
  dev_fds y ++ concat (map dev_fds (<[i := x]> l)) ≡ₚ dev_fds x ++ concat (map dev_fds l).
Proof.
  revert i. induction l as [|z l IH]; intros [|i] H; cbn in *; [done..| |].
  - injection H as ->. solve_Permutation.
  - specialize (IH i H). rewrite !(Permutation_app_swap_app _ (dev_fds z)). by rewrite IH.
Qed.

(** What the calls of the application and the threads do. *)
Inductive call :=
| CInit (dev : Z) (k : answers) | CRun (dev created : Z) | CStop (dev : Z) | CExit (dev : Z) | CMediaExit | CSync (mode : Z)
| CThread (exp_us : Z -> Z -> Z -> Z) (dq : nat -> event_answer) (sq : nat -> stat_answer) (id : nat)
    (a : start_answers) (stopped : nat -> nat -> bool) (sels : list select_res).

Definition step (c : call) (l : isp_lib) : option (Z * isp_lib) :=
  match c with
  | CInit dev k => isp_init dev k l
  | CRun dev created => isp_run dev created l
  | CStop dev => isp_stop dev l
  | CExit dev => isp_exit dev l
  | CMediaExit => Some (0, media_dev_exit l)
  | CSync mode => Some (isp_set_sync mode l)
  | CThread exp_us dq sq id a stopped sels => l ← isp_thread exp_us dq sq id a stopped sels l; Some (0, l)
  end.

(** The descriptors that are open when the graph is read again. *)
Definition files_then (l : isp_lib) : list Z :=
  match l_mdev l with Some m => media_close m (l_files l) | None => l_files l end.

(** The kernel gives new descriptors, [isp_init] does not fail, and nobody
    counts to 2^32. *)
Definition call_allowed (c : call) (l : isp_lib) : bool :=
  match c with
  | CInit dev k =>
      bool_decide (NoDup ([a_open (k_media k); k_stat k; k_subdev k; k_sensor k] ++ files_then l)) &&
      forallb (fun n => n <? 2 ^ 32 - 1) (isp_use_cnt l) &&
      match isp_init dev k l with Some (ret, _) => (ret =? 0) || (HW_ISP_DEVICE_NUM <=? dev) | None => true end
  | _ => true
  end.

Fixpoint calls (cs : list call) (l : isp_lib) : option isp_lib :=
  match cs with [] => Some l | c :: cs => '(_, l) ← step c l; calls cs l end.
Fixpoint calls_allowed (cs : list call) (l : isp_lib) : bool :=
  match cs with
  | [] => true
  | c :: cs => call_allowed c l && match step c l with Some (_, l) => calls_allowed cs l | None => true end
  end.

(** ** The calls keep the account *)

Lemma open_named_ok m name r files ret e files' fd : only_device_open fd m ->
  open_named m name r files = Some (ret, e, files') -> 0 <= ret ->
  exists e', e = Some e' /\ m_fd e' = r /\ 0 <= r /\ files' = r :: files.
Proof.
  intros [_ Hm]. unfold open_named. destruct (media_get_entity_by_name m name) as [i|]; [|by intros [= <- <- <-]].
  destruct (d_entities m !! i) as [e0|] eqn:E; [|done]. cbn [mbind option_bind].
  apply (Forall_lookup_1 (fun e => m_fd e = -1) _ _ _ Hm) in E. unfold v4l2_subdev_open. rewrite E. cbn [negb Z.eqb Pos.eqb].
  destruct (Z.ltb_spec r 0); intros [= <- <- <-]; [lia|]. intros _. by exists (set_fd r e0).
Qed.

Lemma open_device_ok fd m id k files d files' : only_device_open fd m ->
  open_device m id k files = Some (inr (d, files')) ->
  files' = k_sensor k :: k_subdev k :: k_stat k :: files /\
  m_fd (d_stat d) = k_stat k /\ m_fd (d_subdev d) = k_subdev k /\ m_fd (d_sensor d) = k_sensor k /\
  0 <= k_stat k /\ 0 <= k_subdev k /\ 0 <= k_sensor k.
Proof.
  intros Hm. unfold open_device.
  destruct (open_named m _ (k_stat k) files) as [[[r1 e1] f1]|] eqn:E1; [|done]. cbn [mbind option_bind].
  destruct e1 as [stat|]; [|done]. destruct (Z.ltb_spec r1 0) as [|Hr1]; [done|].
  destruct (open_named_ok _ _ _ _ _ _ _ _ Hm E1 Hr1) as (? & [= <-] & H1 & H2 & ->).
  destruct (k_size k <? 0); [done|]. destruct (k_buffer k); [|done]. cbn [negb].
  destruct (open_named m _ (k_subdev k) _) as [[[r2 e2] f2]|] eqn:E2; [|done]. cbn [mbind option_bind].
  destruct e2 as [sub|]; [|done]. destruct (Z.ltb_spec r2 0) as [|Hr2]; [done|].
  destruct (open_named_ok _ _ _ _ _ _ _ _ Hm E2 Hr2) as (? & [= <-] & H3 & H4 & ->).
  destruct (media_get_entity_by_name m _) as [i|]; [|done]. cbn [mbind option_bind].
  destruct (media_pipeline_get_head m i) as [[h|]|]; [|done..]. cbn [mbind option_bind].
  destruct (d_entities m !! h) as [e|] eqn:E; [|done]. cbn [mbind option_bind].
  destruct Hm as [_ Hm]. apply (Forall_lookup_1 (fun e => m_fd e = -1) _ _ _ Hm) in E.
  unfold v4l2_subdev_open. rewrite E. cbn [negb Z.eqb Pos.eqb].
  destruct (Z.ltb_spec (k_sensor k) 0) as [|H5]; cbn [Z.ltb Z.compare].
  - rewrite (proj2 (Z.ltb_lt _ _)) by done. done.
  - intros [= <- <-]. by split_and!.
Qed.

(** Only what the account looks at matters. *)
Lemma ok_same l l' : l_files l' = l_files l -> l_mdev l' = l_mdev l -> l_dev l' = l_dev l -> isp_use_cnt l' = isp_use_cnt l ->
  lib_ok l -> lib_ok l'.
Proof. intros E1 E2 E3 E4 [H1 H2 H3 H4 H5 H6]. split; unfold fds_of; rewrite ?E1, ?E2, ?E3, ?E4; done. Qed.

(** The graph is closed: the rest stays. *)
Lemma close_graph l : lib_ok l ->
  files_then l ≡ₚ concat (map dev_fds (l_dev l)) /\ NoDup (files_then l) /\ Forall (fun fd => 0 <= fd) (files_then l).
Proof.
  intros [H1 H2 H3 H4 _ _]. unfold files_then. unfold fds_of in H1. destruct (l_mdev l) as [m|] eqn:E; [|done].
  cbn [media_fds app] in H1. assert (0 <= d_fd m) as Hpos.
  { rewrite H1 in H3. by apply Forall_cons_1 in H3 as [? _]. }
  rewrite media_close_only by auto. split_and!; [by apply close_perm|by apply NoDup_filter|].
  apply Forall_forall. intros x Hx. unfold close in Hx. apply list_elem_of_filter in Hx as [_ Hx].
  by eapply (Forall_forall (fun fd => 0 <= fd)) in Hx.
Qed.

Lemma count_up i n l : isp_use_cnt l !! i = Some n -> 0 <= n -> n < 2 ^ 32 - 1 ->
  forall j n' d, isp_use_cnt (set_cnt i (u32 (n + 1)) l) !! j = Some n' -> l_dev l !! j = Some d ->
  if decide (i = j) then n' = n + 1 else isp_use_cnt l !! j = Some n'.
Proof.
  intros Hi Hn Hb j n' d Hj _. cbn in Hj. case_decide as E; [subst|by rewrite list_lookup_insert_ne in Hj].
  rewrite list_lookup_insert_eq in Hj by (by apply lookup_lt_Some in Hi). injection Hj as <-.
  rewrite u32_small; lia.
Qed.

Lemma isp_init_ok dev k l ret l' : lib_ok l -> call_allowed (CInit dev k) l = true -> isp_init dev k l = Some (ret, l') -> lib_ok l'.
Proof.
  intros Hl Ha H. cbn [call_allowed] in Ha. rewrite H in Ha.
  apply andb_true_iff in Ha as [[Hnew%bool_decide_eq_true Hcnt]%andb_true_iff Hret]. unfold isp_init in H.
  destruct (Z.leb_spec HW_ISP_DEVICE_NUM dev) as [|Hdev]; [by injection H as <- <-|].
  rewrite orb_false_r in Hret. apply Z.eqb_eq in Hret as ->. destruct (device_index dev) as [id|]; [|done]. cbn [mbind option_bind] in H.
  destruct (isp_use_cnt l !! id) as [n|] eqn:En; [|done]. cbn [mbind option_bind] in H.
  assert (n < 2 ^ 32 - 1) as Hn by (rewrite forallb_forall in Hcnt; apply Z.ltb_lt, Hcnt, list_elem_of_In; by eapply list_elem_of_lookup_2).
  pose proof Hl as [H1 H2 H3 H4 H5 H6].
  destruct (Z.ltb_spec 0 n) as [Hpos|Hzero].
  { injection H as <-. split; try done. intros j n' d Hj Hd.
    pose proof (count_up id n l En ltac:(lia) Hn j n' d Hj Hd) as Hc. case_decide; [subst|by eauto].
    destruct (H5 _ _ _ En Hd) as [_ Hz]. cbn in Hd. split; [lia|]. rewrite <- Hz. lia. }
  unfold first_init in H. set (l1 := match l_mdev (set_cnt id _ l) with Some m => _ | None => _ end) in H.
  assert (l_files l1 = files_then l /\ l_dev l1 = l_dev l /\ isp_use_cnt l1 = isp_use_cnt (set_cnt id (u32 (n + 1)) l)) as (F1 & F2 & F3).
  { subst l1. unfold files_then. cbn [l_mdev set_cnt]. by destruct (l_mdev l). }
  clearbody l1. destruct (media_open (k_media k)) as [[m|]|] eqn:Em; [|done..]. cbn [mbind option_bind] in H.
  destruct (media_open_fd _ _ Em) as [Hm0 [Hmfd Hment]].
  destruct (isp_dev_open m id k _) as [[r l2]|] eqn:Eo; [|done]. cbn [mbind option_bind] in H.
  destruct (Z.ltb_spec r 0); [injection H as -> _; lia|]. destruct (k_tuning k); [|done]. cbn [negb] in H.
  destruct (events_arr l2 !! id) as [e|]; [|done]. cbn [mbind option_bind] in H. injection H as <-.
  apply (ok_same l2); [done..|]. clear e.
  unfold isp_dev_open in Eo. cbn [l_dev set_mdev set_files] in Eo. rewrite F2 in Eo.
  destruct (l_dev l !! id) as [dv|] eqn:Ed; [|done]. cbn [mbind option_bind] in Eo.
  destruct (H5 _ _ _ En Ed) as [Hn0 Hz]. assert (n = 0) as -> by lia. assert (dv = None) as -> by by apply Hz.
  destruct (k_mem k); [|injection Eo as <- _; lia]. cbn [negb] in Eo.
  destruct (open_device m _ k _) as [[f|[d f]]|] eqn:Eod; [injection Eo as <- _; lia| |done].
  cbn [mbind option_bind] in Eo. injection Eo as <- <-.
  destruct (open_device_ok _ _ _ _ _ _ _ (conj Hmfd Hment) Eod) as (-> & D1 & D2 & D3 & P1 & P2 & P3).
  cbn [l_files set_files set_mdev] in *. rewrite F1 in *.
  destruct (close_graph l Hl) as (G1 & G2 & G3).
  rewrite Hmfd. split; cbn [l_files l_mdev l_dev isp_use_cnt set_dev set_files set_mdev].
  - unfold fds_of. cbn [l_mdev l_dev set_dev set_files set_mdev media_fds]. rewrite Hmfd, F2.
    pose proof (concat_insert (l_dev l) id (Some d) None Ed) as Hc. cbn [dev_fds app] in Hc. rewrite Hc, D1, D2, D3, G1.
    solve_Permutation.
  - assert (k_sensor k :: k_subdev k :: k_stat k :: a_open (k_media k) :: files_then l ≡ₚ
      [a_open (k_media k); k_stat k; k_subdev k; k_sensor k] ++ files_then l) as E by solve_Permutation.
    by rewrite E.
  - by repeat constructor.
  - intros m' [= <-]. by split.
  - rewrite F3, F2. intros j n' d' Hj Hd'. destruct (decide (id = j)) as [->|Hij].
    + rewrite list_lookup_insert_eq in Hd' by (by apply lookup_lt_Some in Ed). injection Hd' as <-.
      pose proof (count_up j 0 l En ltac:(lia) Hn j n' None Hj Ed) as Hc. rewrite decide_True in Hc by done.
      subst n'. split; [lia|]. split; [lia|done].
    + rewrite list_lookup_insert_ne in Hd' by done.
      pose proof (count_up id 0 l En ltac:(lia) Hn j n' d' Hj Hd') as Hc. rewrite decide_False in Hc by done. by eauto.
  - by rewrite length_insert, F2.
Qed.

Lemma dev_close_ok id d l l' : lib_ok l -> l_dev l !! id = Some (Some d) -> isp_dev_close id l = Some l' ->
  l_files l' ≡ₚ media_fds (l_mdev l) ++ concat (map dev_fds (<[id := None]> (l_dev l))) /\
  NoDup (l_files l') /\ Forall (fun fd => 0 <= fd) (l_files l') /\
  l_mdev l' = l_mdev l /\ l_dev l' = <[id := None]> (l_dev l) /\ isp_use_cnt l' = isp_use_cnt l.
Proof.
  intros [H1 H2 H3 _ _ _] Hd. unfold isp_dev_close. rewrite Hd. cbn [mbind option_bind]. intros [= <-].
  cbn [l_files l_mdev l_dev isp_use_cnt set_dev set_files].
  set (rest := media_fds (l_mdev l) ++ concat (map dev_fds (<[id := None]> (l_dev l)))).
  pose proof (concat_insert (l_dev l) id None (Some d) Hd) as Hc. cbn [dev_fds app] in Hc.
  assert (l_files l ≡ₚ m_fd (d_stat d) :: m_fd (d_subdev d) :: m_fd (d_sensor d) :: rest) as E.
  { rewrite H1. unfold fds_of. rewrite <- Hc. subst rest. solve_Permutation. }
  rewrite E in H3. apply Forall_cons_1 in H3 as [P1 H3]. apply Forall_cons_1 in H3 as [P2 H3].
  apply Forall_cons_1 in H3 as [P3 H3].
  pose proof (close_entity (d_stat d) _ _ P1 E H2) as E1.
  assert (NoDup (v4l2_subdev_close (d_stat d) (l_files l))) as N1 by (rewrite E1; rewrite E in H2; by apply NoDup_cons in H2 as [_ ?]).
  pose proof (close_entity (d_subdev d) _ _ P2 E1 N1) as E2.
  assert (NoDup (v4l2_subdev_close (d_subdev d) (v4l2_subdev_close (d_stat d) (l_files l)))) as N2
    by (rewrite E2; rewrite E1 in N1; by apply NoDup_cons in N1 as [_ ?]).
  pose proof (close_entity (d_sensor d) _ _ P3 E2 N2) as E3.
  split_and!; [done| |by rewrite E3|done..]. rewrite E3. rewrite E2 in N2. by apply NoDup_cons in N2 as [_ ?].
Qed.

Lemma isp_exit_ok dev l ret l' : lib_ok l -> isp_exit dev l = Some (ret, l') -> lib_ok l'.
Proof.
  intros Hl. pose proof Hl as [H1 H2 H3 H4 H5 H6]. unfold isp_exit.
  destruct (HW_ISP_DEVICE_NUM <=? dev); [by intros [= <- <-]|].
  destruct (device_index dev) as [id|]; [|done]. cbn [mbind option_bind].
  destruct (isp_use_cnt l !! id) as [n|] eqn:En; [|done]. cbn [mbind option_bind].
  destruct (Z.eqb_spec n 0); [by intros [= <- <-]|].
  assert (forall j n', isp_use_cnt (set_cnt id (n - 1) l) !! j = Some n' ->
    if decide (id = j) then n' = n - 1 else isp_use_cnt l !! j = Some n') as Hc.
  { intros j n' Hj. cbn in Hj. case_decide; [subst|by rewrite list_lookup_insert_ne in Hj].
    rewrite list_lookup_insert_eq in Hj by (by apply lookup_lt_Some in En). by injection Hj. }
  destruct (Z.ltb_spec 0 (n - 1)) as [Hpos|Hlast].
  { intros [= <- <-]. split; try done. intros j n' d Hj Hd. specialize (Hc j n' Hj). case_decide; [subst|by eauto].
    destruct (H5 _ _ _ En Hd) as [_ Hz]. split; [lia|]. rewrite <- Hz. lia. }
  cbn [l_dev set_cnt]. destruct (l_dev l !! id) as [dv|] eqn:Ed; [|done]. cbn [mbind option_bind].
  destruct (H5 _ _ _ En Ed) as [Hn0 Hz].
  destruct dv as [d|]; [|by destruct Hz as [_ Hz]; specialize (Hz eq_refl)].
  cbn [isp_tid set_cnt]. destruct (isp_tid l !! id) as [[]|]; [done..| |done]. cbn [mbind option_bind].
  destruct (isp_dev_close id _) as [l2|] eqn:Ec; [|done]. cbn [mbind option_bind]. intros [= <- <-].
  assert (exists l3, isp_dev_close id l = Some l3 /\ l_files l2 = l_files l3 /\ l_mdev l2 = l_mdev l3 /\ l_dev l2 = l_dev l3 /\
    isp_use_cnt l2 = <[id := n - 1]> (isp_use_cnt l)) as (l3 & Ec3 & F1 & F2 & F3 & F4).
  { revert Ec. unfold isp_dev_close. cbn [l_dev set_tid set_cnt]. rewrite Ed. cbn [mbind option_bind]. intros [= <-].
    eexists. split; [reflexivity|]. done. }
  destruct (dev_close_ok id d l l3 Hl Ed Ec3) as (G1 & G2 & G3 & G4 & G5 & G6).
  split; unfold fds_of; rewrite ?F1, ?F2, ?F3, ?F4, ?G4, ?G5; try done.
  - intros j n' d' Hj Hd'. specialize (Hc j n' Hj). case_decide; [subst|rewrite list_lookup_insert_ne in Hd' by done; by eauto].
    rewrite list_lookup_insert_eq in Hd' by (by apply lookup_lt_Some in Ed). injection Hd' as <-.
    split; [lia|]. split; [done|lia].
  - by rewrite length_insert.
Qed.

Lemma media_exit_ok l : lib_ok l -> lib_ok (media_dev_exit l).
Proof.
  intros Hl. unfold media_dev_exit.
  destruct (isp_use_cnt l) as [|[] [|[] cnt]] eqn:Ec; try done.
  destruct (l_mdev l) as [m|] eqn:Em; [|done].
  destruct (close_graph l Hl) as (G1 & G2 & G3). unfold files_then in *. rewrite Em in *.
  destruct Hl as [_ _ _ _ H5 H6]. split; cbn [l_files l_mdev l_dev isp_use_cnt set_mdev set_files]; try done.
Qed.

Lemma isp_call_ok c l ret l' : lib_ok l -> call_allowed c l = true -> step c l = Some (ret, l') -> lib_ok l'.
Proof.
  intros Hl Ha. destruct c as [dev k|dev created|dev|dev| |mode|exp_us dq sq id a stopped sels]; cbn [step].
  - by apply isp_init_ok.
  - unfold isp_run. destruct (_ <=? _); [by intros [= <- <-]|].
    destruct (device_index dev) as [id|]; [|done]. cbn [mbind option_bind].
    destruct (isp_use_cnt l !! id) as [n|]; [|done]. cbn [mbind option_bind]. destruct (1 <? n); [by intros [= <- <-]|].
    destruct (l_dev l !! id) as [[d|]|]; [|by intros [= <- <-]|done]. cbn [mbind option_bind].
    destruct (created =? 0); intros [= <- <-]; [by apply (ok_same l)|done].
  - unfold isp_stop. destruct (_ <=? _); [by intros [= <- <-]|].
    destruct (device_index dev) as [id|]; [|done]. cbn [mbind option_bind].
    destruct (isp_use_cnt l !! id) as [n|]; [|done]. cbn [mbind option_bind]. destruct (n =? 1); [|by intros [= <- <-]].
    destruct (events_arr l !! id) as [e|]; [|done]. cbn [mbind option_bind]. intros [= <- <-]. by apply (ok_same l).
  - by apply isp_exit_ok.
  - intros [= <- <-]. by apply media_exit_ok.
  - unfold isp_set_sync. destruct (_ || _); intros [= <- <-]; [by apply (ok_same l)|done].
  - unfold isp_thread. destruct (isp_tid l !! id) as [t|]; [|done]. destruct (l_dev l !! id) as [dv|]; [|done].
    destruct (events_arr l !! id) as [e|]; [|done]. destruct (isp_ctx l !! id) as [c|]; [|done]. cbn [mbind option_bind].
    destruct t, dv as [d|]; try done. destruct (thread_body _ _ _ _ _ _ _ _) as [s|]; [|done]. cbn [mbind option_bind].
    intros [= <- <-]. by apply (ok_same l).
Qed.

Lemma calls_ok cs : forall l l', lib_ok l -> calls_allowed cs l = true -> calls cs l = Some l' -> lib_ok l'.
Proof.
  induction cs as [|c cs IH]; intros l l' Hl Ha; cbn [calls calls_allowed] in *; [by intros [= <-]|].
  destruct (step c l) as [[ret l1]|] eqn:E; [|done]. cbn [mbind option_bind]. apply andb_true_iff in Ha as [Ha Hs].
  intros H. eapply IH, H; [|done]. by eapply isp_call_ok.
Qed.

(** The state before the first call: nothing is open, and nobody uses it. *)
Definition untouched (l : isp_lib) : Prop :=
  l_mdev l = None /\ l_dev l = [None; None] /\ isp_use_cnt l = [0; 0] /\ l_files l = [].

Lemma untouched_ok l : untouched l -> lib_ok l.
Proof.
  intros (H1 & H2 & H3 & H4). split; unfold fds_of; rewrite ?H1, ?H2, ?H3, ?H4; try done; [by constructor|].
  intros [|[|i]] n d; cbn; intros [= <-] [= <-]; done.
Qed.

(** C10: after any sequence of calls of the application and lives of
    threads in which no [isp_init] fails, a device is there exactly while it
    has users, and the descriptors that are open are those of the media device
    and the three of each device that is there, each once; when the last user
    has left, [media_dev_exit] leaves none open. *)
Theorem descriptors_match cs l0 l : untouched l0 -> calls_allowed cs l0 = true -> calls cs l0 = Some l ->
  l_files l ≡ₚ fds_of l /\ NoDup (l_files l) /\
  (forall i n d, isp_use_cnt l !! i = Some n -> l_dev l !! i = Some d -> (n = 0 <-> d = None)) /\
  (isp_use_cnt l = [0; 0] -> l_files (media_dev_exit l) = []).
Proof.
  intros H0 Ha H. pose proof (calls_ok cs l0 l (untouched_ok l0 H0) Ha H) as Hl.
  pose proof (media_exit_ok l Hl) as He. destruct Hl as [H1 H2 _ _ H5 H6].
  split_and!; [done..|intros i n d Hn Hd; by apply (H5 i)|].
  intros Hc. assert (l_dev l = [None; None]) as Hd.
  { destruct (l_dev l) as [|d1 [|d2 [|]]] eqn:E; try done.
    f_equal; [by apply (H5 0%nat 0 d1); rewrite ?Hc, ?E|f_equal; by apply (H5 1%nat 0 d2); rewrite ?Hc, ?E]. }
  apply Permutation_nil_r. rewrite (lo_files _ He). unfold media_dev_exit, fds_of. rewrite Hc.
  destruct (l_mdev l) eqn:Em; cbn [l_mdev l_dev set_mdev set_files]; by rewrite ?Em, Hd.
Qed.

(** ** Examples *)

Definition isp_graph (fd : Z) : media_answers :=
  let up := [mkLinkDesc (1, 0%nat) (2, 0%nat) 1] in
  mkAnswers fd 0
    [EntityOk (mkDesc 1 (bytes "ov5640") 0x20001 1 1 81 1) None None;
     EntityOk (mkDesc 2 (bytes "sunxi_isp.0") 0x20000 1 0 81 2) None None;
     EntityOk (mkDesc 3 (bytes "sunxi_h3a.0") 0x20000 0 0 81 3) None None;
     EntityErr EINVAL]
    [LinksOk [(0, 2)] up; LinksOk [(0, 1)] []; LinksOk [] []].

Definition good_answers : answers := mkInitAnswers (isp_graph 10) true 11 0x1000 true 12 13 true.
Definition other_answers : answers := mkInitAnswers (isp_graph 20) true 21 0x1000 true 22 23 true.
Definition start_ok : start_answers := mkStart 0 0 [0; 0; 0] 0 0 true true.
Definition empty_lib : isp_lib :=
  mkLib None [None; None] [0; 0] [NoThread; NoThread] 0
    [mkEvents [] 100 false 0 0 ∅ ∅ ∅; mkEvents [] 200 false 0 0 ∅ ∅ ∅] [fresh_ctx; fresh_ctx] [].

Definition demo_dq (n : nat) : event_answer := match n with O => DqCtrl V4L2_CID_CONTRAST 7 | _ => DqErr end.
Definition demo_sq (n : nat) : stat_answer := StData quiet_exposure 256 256 256 256.

(** Two users: the first starts the thread, the last one to leave waits for it. *)
Definition demo_calls : list call :=
  [CInit 0 good_answers; CRun 0 0; CInit 0 other_answers; CRun 0 0; CStop 0; CExit 0; CStop 0;
   CThread no_floats demo_dq demo_sq 0 start_ok (fun _ _ => false) []; CExit 0].

Definition after (cs : list call) : isp_lib := default empty_lib (calls cs empty_lib).

Lemma after_done cs : (if calls cs empty_lib then true else false) = true -> calls cs empty_lib = Some (after cs).
Proof. unfold after. by destruct (calls cs empty_lib). Qed.

Lemma descriptors_match_witness :
  l_files (after (take 2 demo_calls)) = [13; 12; 11; 10] /\ l_files (after demo_calls) = [10] /\
  l_files (media_dev_exit (after demo_calls)) = [].
Proof.
  split; [vm_compute; reflexivity|]. split; [vm_compute; reflexivity|].
  apply (descriptors_match demo_calls empty_lib (after demo_calls)).
  - done.
  - vm_compute. reflexivity.
  - apply after_done. vm_compute. reflexivity.
  - vm_compute; reflexivity.
Defined.

Lemma stop_ends_thread_witness : exists d l',
  l_dev (after (take 2 demo_calls)) !! 0%nat = Some (Some d) /\
  isp_thread no_floats demo_dq demo_sq 0 start_ok (fun n _ => bool_decide (n = 2%nat))
    [SelReady ∅ ∅ {[12]}; SelReady ∅ ∅ {[11]}] (after (take 2 demo_calls)) = Some l' /\
  isp_tid l' !! 0%nat = Some Finished.
Proof.
  destruct (l_dev (after (take 2 demo_calls)) !! 0%nat) as [[d|]|] eqn:Ed; [|vm_compute in Ed; discriminate..].
  destruct (events_arr (after (take 2 demo_calls)) !! 0%nat) as [e|] eqn:Ee; [|vm_compute in Ee; discriminate].
  exists d.
  destruct (stop_ends_thread no_floats demo_dq demo_sq) with (id := 0%nat) (d := d) (e := e) (c := fresh_ctx) (a := start_ok)
    (stopped := fun n _ : nat => bool_decide (n = 2%nat)) (sels := [SelReady ∅ ∅ {[12]}; SelReady ∅ ∅ {[11]}]) (m := 2%nat)
    (l := after (take 2 demo_calls)) as [(l' & H1 & H2 & _)|[_ Hbad]].
  - reflexivity.
  - exact Ed.
  - exact Ee.
  - reflexivity.
  - vm_compute in Ee. injection Ee as <-. apply (init_ok (mkEvents [] 100 false 0 0 ∅ ∅ ∅)).
  - vm_compute in Ee. by injection Ee as <-.
  - vm_compute in Ed. injection Ed as <-. by split_and!.
  - reflexivity.
  - cbn. lia.
  - exists l'. split; [reflexivity|]. split; [exact H1|exact H2].
  - exfalso. destruct Hbad as [([|n] & i & v & H & Hoff)|(n & x & r & gr & gb & b & H & Hz)].
    + injection H as <- <-. by destruct Hoff as [[? _]|[? _]].
    + discriminate.
    + injection H as <- <- <- <- <-. by destruct Hz.
Defined.

(** An index beyond the menu: what lies behind the array is taken for the
    sensitivity. *)
Lemma menu_index_unchecked c v : ~ (0 <= v < 7) -> isp_ctrl_process no_floats V4L2_CID_ISO_SENSITIVITY v c = None.
Proof. intros Hv. change ((w ← menu iso_qmenu v; Some (isp_s_iso_sensitivity w c)) = None). by rewrite menu_out. Qed.

(** An [isp_init] that fails is counted as a user: the next one succeeds
    without opening anything, and there is no device to run. *)
Lemma failed_init_counted :
  let k := mkInitAnswers (isp_graph (-2)) true 11 0x1000 true 12 13 true in
  let l := after [CInit 0 k] in
  fst <$> isp_init 0 k empty_lib = Some (-1) /\ isp_use_cnt l = [1; 0] /\ l_dev l = [None; None] /\
  fst <$> isp_init 0 good_answers l = Some 0 /\ l_dev (after [CInit 0 k; CInit 0 good_answers]) = [None; None] /\
  fst <$> isp_run 0 0 l = Some (-1).
Proof. by vm_compute. Qed.

(** A device whose sensor cannot be opened: the descriptors of the statistics
    and of the device stay open, and nothing knows them any more. *)
Lemma failed_open_leaks :
  let l := after [CInit 0 (mkInitAnswers (isp_graph 10) true 11 0x1000 true 12 (-2) true)] in
  l_files l = [12; 11; 10] /\ fds_of l = [10].
Proof. by vm_compute. Qed.

(** Two users that open the device before either runs it: no thread is made,
    and the last one waits for a thread that never was. *)
Lemma two_users_no_thread :
  let l := after [CInit 0 good_answers; CInit 0 other_answers; CRun 0 0; CRun 0 0; CStop 0; CExit 0; CStop 0] in
  isp_use_cnt l = [1; 0] /\ isp_tid l = [NoThread; NoThread] /\ isp_exit 0 l = None.
Proof. by vm_compute. Qed.

(** The number of a device is only compared with the highest one. *)
Lemma negative_device k l : isp_init (-1) k l = None.
Proof. done. Qed.

End IspLib.
